(* ===== verification/_CoqProject ===== *)
-Q . S2P
Prelude.v
Wire.v
Varint.v
OrderedCode.v
Sha256.v
ModExp.v
GoBig.v
GoOS.v
LevelDB.v
Storage.v
Chameleon.v
Proto.v
Block.v
BlockSerialization.v
BlockStream.v
BlockIndex.v
Redaction.v
BlockfileMgr.v
BlockfileMgrOk.v
BlockfileMgrRecover.v
BlockStoreOk.v
BlockStoreCrash.v
CertOps.v
CertEdit.v
CertQuery.v
Examples.v
StateProto.v
StateDB.v
StateDBOk.v
PrivState.v
PrivStateOk.v
RwSet.v
RwSetOk.v
Validation.v
CombinedItr.v
RangeQuery.v
Serial.v
ValidationOk.v
Serializable.v
StateTheorems.v
RwSetBuilder.v
RwSetBuilderOk.v
Simulator.v
SimulatorOk.v
SimProtocol.v
BatchPreparer.v
BatchPreparerOk.v
PurgeMgr.v
PurgeMgrOk.v
QueryUtil.v
TxMgr.v
ExpiryOk.v
OldPvtDataOk.v
QueryUtilOk.v
UpdateBytesOk.v
TxRun.v
History.v
HistoryOk.v
KvLedger.v
KvLedgerOk.v
RecoveryOk.v
LedgerExamples.v
LedgerTheorems.v
ChainTheorems.v
BlockCutter.v
PvtStore.v
PvtStoreOk.v
PvtStoreInv.v
PvtStoreCommit.v
PvtStoreRead.v
PvtStoreLate.v
PvtStoreElg.v
PvtStoreTheorems.v
