(* ===== verification/Prelude.v ===== *)
(** * HiCertChain: a verified model of its redactable ledger

    HiCertChain is a fork of Hyperledger Fabric whose peers and orderers can edit
    the certificates in blocks that are already on the chain.  A block's data hash
    is a chameleon hash: whoever knows its trapdoor computes fresh randomness under
    which an edited block keeps its hash.  The edit is a certificate operation
    carried by an ordinary transaction and executed while the block that carries
    it is added to the block store.  As in Fabric, a peer simulates a transaction to
    get its read-write set, validates the transactions of a block against the
    versions they have read, commits the updates of the valid ones to a state
    database, purges private data that have expired, records the history of keys, and
    brings its databases up to the block store when it is started.

    ** The parts and their files

    - Prelude: bytes, machine integers ([u64], [i64] with their wrap-around),
      Go results ([outcome]: a value, an error or a panic), the state monad [M],
      the tactics and the hint database of the development.
    - Wire: a self-delimiting format for records, lists and maps, from which the
      concrete codecs of messages are made.
    - Varint: variable-length integers and length-prefixed bytes of the protobuf
      buffer (src/vendor/github.com/golang/protobuf/proto/encode.go, decode.go).
    - OrderedCode: order-preserving numbers (src/common/ledger/util/util.go) and
      heights (src/core/ledger/internal/version/version.go).
    - Sha256, ModExp, GoBig: crypto/sha256, modular exponentiation (computed on
      Bignums, proved equal to the power in Z) and the parts of math/big, strconv
      and fmt the code uses.
    - GoOS: files and directories, text lines, strings.Split.
    - LevelDB: key-value handles over an ordered map
      (src/common/ledger/util/leveldbhelper).
    - Storage: the world of the block store, that is a file system, a database and
      the I/O faults to come, and the file reader and writer
      (src/common/ledger/blkstorage/blockfile_rw.go).
    - Chameleon: the chameleon hash, the collision and the per-block randomness
      files (src/protoutil/blockutils.go, and [GetCollision] and
      [generateCollision] of src/common/ledger/blkstorage/blockfile_mgr.go).
    - Proto, Block: protobuf messages as records; headers with their DER encoding,
      metadata and transaction ids (src/protoutil).
    - BlockSerialization: blocks on disk
      (src/common/ledger/blkstorage/block_serialization.go, protobuf_util.go).
    - BlockStream: streams of frames, scans of a file and of a directory, binary
      search for a block's file (block_stream.go, blockfile_helper.go).
    - BlockIndex: index keys, batches and queries (blockindex.go).
    - Redaction: reading and rewriting the arguments and the write set of a
      block's transaction, and the text files of certificates and offsets
      (blockfile_mgr.go, lines 694 to 1180).
    - BlockfileMgr: opening a store, [addBlock] with its certificate operations,
      recovery and queries (the rest of blockfile_mgr.go).
    - BlockfileMgrOk, BlockfileMgrRecover, BlockStoreOk: the invariants of a store
      and the theorems about it.  BlockStoreCrash: [addBlock] with failing writes and
      stops, and what is left of the store.
    - CertOps: the theorems about the certificate operations.  CertEdit: what a
      change of a certificate does to the block file.
    - CertQuery: the search for the block of a certificate by its authority
      ([GetBlockByCA] of src/core/ledger/kvledger/kv_ledger.go).
    - Examples: concrete stores on which the hypotheses of the theorems hold.

    The next files are about src/core/ledger/kvledger/txmgmt:

    - StateProto: the messages of state database and validation.
    - StateDB: versioned values, update batches and the interface of a state
      database, the class [VersionedDB] (statedb/statedb.go), and its implementation
      on LevelDB (statedb/stateleveldb).  StateDBOk: what the interface promises, the
      class [VersionedDBOk], and that the implementation keeps it.
    - PrivState: public, hashed and private data in one database, and the hint about
      metadata (privacyenabledstate).  PrivStateOk: that they do not interfere.
    - RwSet: read-write sets and the Merkle summaries of range queries (rwsetutil).
      RwSetOk: how a summary grows.
    - Validation: the validator of a block (validation, but for batch_preparer.go).
      CombinedItr and RangeQuery: its range queries.  Serial: the reference, which
      executes one write after the other.  ValidationOk: the effect of a write set.
      Serializable: the verdicts, the block and the commit.
    - StateTheorems: the properties of these components, with concrete states.
    - RwSetBuilder: how a simulation collects its read-write set
      (rwsetutil/rwset_builder.go).  RwSetBuilderOk: what the set contains.
    - Simulator: the query executor and the simulator (txmgr/query_executor.go,
      tx_simulator.go, collection_val.go).  SimulatorOk: the read-write set of a
      sequence of calls.  SimProtocol: which calls exclude each other.
    - BatchPreparer: from the envelopes of a block and its private data to the batch
      of updates (validation/batch_preparer.go, src/internal/pkg/txflags).
      BatchPreparerOk: that the results of a simulation are found valid.
    - PurgeMgr: the schedule of expiry and the purge list (pvtstatepurgemgmt,
      src/core/ledger/pvtdatapolicy).  PurgeMgrOk: schedule and keeper as maps.
    - QueryUtil: the queries of state listeners (queryutil).  QueryUtilOk.
    - TxMgr: the transaction manager (txmgr/lockbased_txmgr.go) and the bytes of a
      batch (txmgr/update_batch_bytes.go).  ExpiryOk, OldPvtDataOk: the invariant of
      the schedule over commits and late private data.  UpdateBytesOk: the bytes
      determine the batch.  TxRun: the reachable managers.

    And these about src/core/ledger/kvledger:

    - History: the history database (history).  HistoryOk.
    - KvLedger: commit hash and recovery (kv_ledger.go, recovery.go).  KvLedgerOk.
    - LedgerExamples: a concrete peer.  LedgerTheorems, ChainTheorems: the properties
      of simulation, commit and expiry, and those of the chain.  RecoveryOk: that
      committing a block again from the store has the effect of its first commit.

    - PvtStore: the store of private write sets next to the block store
      (src/core/ledger/pvtdatastorage): keys, commits, reads, purging, eligibility and
      late private data.  PvtStoreOk: its keys and ranges.  PvtStoreInv: the invariant
      [map_inv], reading and purging.  PvtStoreCommit, PvtStoreLate, PvtStoreElg:
      that its operations keep the invariant.  PvtStoreRead: reads and missing data.
      PvtStoreTheorems: the reachable stores and the properties.
    - BlockCutter: how the orderer groups messages into batches
      (src/orderer/common/blockcutter/blockcutter.go), and that it keeps their order.

    ** State and operations

    A Go function becomes a function of the same name.  Reads return [outcome];
    code that changes files, the database or the manager is in the state monad
    over [Fs], [World] or [blockfileMgr], so an error or a panic keeps the changes
    made before it.  Third-party code is a parameter: the wire format of protobuf
    messages is the class [Protos] with the round-trip law [ProtosOk] ([Proto]
    gives an instance), goleveldb is a finite map with ordered iteration, and the
    random number of a collision is an argument.  The wire formats of the batch
    bytes and of the schedule are codecs, the configuration of collections is the
    class [BTLPolicy], the deployed chaincodes are [DeployedChaincodeInfoProvider],
    rich queries are [QueryDB]; the processors of configuration transactions, the
    state listeners and, for recovery, what the private data store returns for a block
    are arguments.  A purge routine of the private data store that has been started is
    an entry of [ps_purger] until it gets the lock; what other routines do while the
    conversion of eligible collections has released the lock is an argument of it.

    I/O faults are a list in the world.  Every write of the block store takes the next
    entry; where there is one, the write has its first bytes done and then fails with an
    error, or the process stops there ([Stops]): nothing that follows takes effect.
    The writes of the text files of certificates are not checked by the code; the
    process can stop before such a write, which is then made as a whole or not at all
    ([on_text]).  Writes reach the disk in their order, and a batch of the database is
    atomic.

    ** The theorems

    - The store ([BlockStoreOk]): [store_ok m chunks] says that files, database
      and manager hold the blocks of [chunks], one list per file.  A new store
      satisfies it; adding the next block keeps it and appends to the log; reading
      by number, hash and transaction id reads the log; a wrong block is refused; lost
      index entries are rebuilt.  With faults ([BlockStoreCrash]): after an [addBlock]
      whose writes fail or stop anywhere the store opens again with the old blocks, and
      the new one exactly when its frame is complete; a failing write of the frame is
      undone, if the file can be cut back.
    - The chameleon hash ([Chameleon]): the collision opens the hash for every sound
      group, that of the code included; an edit made from the stored randomness keeps
      the data hash; the collision the code asks for opens the hash under empty
      randomness, and so keeps the data hash only by chance.
    - The certificate operations ([Redaction], [CertOps], [CertEdit]): rewritten blocks
      read back and keep everything else, recorded offsets are found, a ChangeCert block
      is never added, its in-place write leaves the edited block without a length in its
      file, and what the time locks do.
    - Validation ([StateTheorems]), for any implementation of [VersionedDBOk]:
      validating and committing a block is executing its valid transactions in
      order, on the state each of them has read; a transaction whose reads nothing
      touches is valid; the combined iterator is the range of the updated state; the
      early comparison of summaries agrees with the complete one; public, hashed and
      private data are independent; the metadata hint hides nothing, of public keys
      and of hashes; a snapshot of the state restores it.  Three kinds of input make the
      validator panic: a recorded summary whose level is full when the range has grown
      ([full_summary_panics]), and two that concrete blocks show.
    - The transaction manager ([LedgerTheorems]): simulating a transaction and
      committing its block executes the calls of the simulation; a simulation never
      mixes writes with queries that cannot be validated again; for every reachable
      manager ([tm_run]: blocks, failed preparations, restarts and late private data in
      any order) a commit leaves exactly the updates of the block and what has not
      expired, and nothing outlives its block to live, but for the hashes that a block
      writes while it deletes their private keys, which no schedule lists (the second
      index of [tm_run] collects them), and for the empty private key; late private data
      are committed exactly where they are not stale; a listener reads before the commit what is
      there after it, and its range reads end.
    - The private data store ([PvtStoreTheorems]): for every store that a sequence of
      commits, late write sets, purges, eligibility changes, restarts and crashes, also
      in the middle of a purge, leaves ([pvt_reachable]), a block reads as what has been
      committed for it and has not expired; a purge leaves nothing expired and cannot be
      seen by readers; missing data are reported, but for those of block 0, at whose keys
      the scans end, and late data accepted; the operations return.  The conversion of
      eligible collections is taken as one step there; [conversion_outlives_purge] gives
      a run in which a purge in its pauses is undone in part.
    - The chain ([ChainTheorems]): history queries are exact; recovery commits to each
      database exactly what it lacks, and brings the transaction manager to where the
      blocks as they were received bring it, without a stop; equal commit hashes mean
      equal flags and equal values and versions, of public data and hashes in name
      spaces with a name (neither metadata nor the empty name space are hashed); a
      certificate is found once the block that creates it is added, unless it is not in
      the first transaction of its block or the record of its authority is longer than
      the 4096 bytes that are read of it.
    - The encodings: round trips, order preservation, agreement of the two varint
      decoders, no panic on arbitrary bytes, injectivity of header bytes, handles
      as separate maps.

    ** Fuel and bounds

    Loops over a buffer or a file take fuel from the length of the input: every
    round consumes at least one byte, so the fuel is never exhausted (the lemmas
    about them have no "enough fuel" hypothesis).  The binary search takes the
    number of files, sha256 blocks and varints their fixed bounds.  Frames are
    shorter than 2^56 bytes, which is what an eight-byte look-ahead can announce;
    file sizes stay below 2^61, so that offsets are Go ints.  The combined iterator
    takes its fuel from the keys of its batch, a Merkle update from the height of the
    tree.  The combined iterator of a listener passes over deleted keys with recursive
    calls: its fuel is an argument, and [listener_scan_terminates] proves that there is
    a bound from which on the result is the same.  Replaying a range query by summary
    takes one round per result: its fuel is an argument, and the theorems say that from
    some bound on the result is the same.  The import of a snapshot takes one round per
    item: any fuel over their number is enough.

    ** Assumptions of the theorems on the block store

    The first block of a chain fits in a block file ([first_fits]): a chain that starts
    with an empty file is not covered.  A block has the flags of its transactions in its
    metadata.  Where a theorem asks for an ordinary block, its first transaction invokes
    no certificate operation; the theorems with faults exclude only blocks that change a
    certificate on a peer that has the channel directory, and need the text files of the
    other operations to lie outside the store.  All attributes are indexed.  The lines
    of randomness files and the records of authorities are shorter than the 4096 bytes
    of the buffer with which they are read.

    ** Assumptions of the validation theorems

    Names of chaincodes contain no dollar sign and no zero byte; a transaction writes
    the value and the metadata of a key at most once each, the value first, and no
    empty value; no transaction writes only the metadata of a key that an earlier one
    deletes; recorded results have versions, recorded summaries have a degree below
    2^32 - 1 and a level that is not full; the hash function does not fail.  Go's maps
    are enumerated in the order of [map_to_list].  Nil and empty byte fields of
    messages are one value, as in their encoding.

    ** Assumptions of the ledger theorems

    No two private keys in use have the same SHA-256 hash ([distinct_hashes]; for the
    commit hash, no two of the hashed strings).  Block numbers stay below 2^64 - 1.
    The policy of a collection answers, and does not change.  The private writes of a
    block come with the hashes of their keys; late private data can be decoded, write no
    empty value and are for no hash that is in no schedule.  Every range iterator of
    a simulation has been asked for a first result ([itr_started]): the code records
    one that has not as a query of the empty range up to the empty key.  A simulation
    opens no paginated query, reads no closed iterator and writes no empty value, the
    state has no value at an empty key, and several private keys are read at once only
    where their values have the versions of their hashes.  For recovery the stores
    return what was committed: header, data and flags of a block and the private data of
    its valid transactions; a processor of custom transactions accepts again what it has
    accepted, with the same writes, as the interface asks; the state database keeps no
    cache of versions; and the comparison with a peer that has not stopped is for a
    stop between two commits of the transaction manager.

    ** Assumptions of the theorems on the private data store

    Names of chaincodes and collections contain no zero byte.  The peer is eligible
    for a collection throughout a block or not at all.  Late write sets are of
    collections that have been recorded with their block, and what the caller reports
    as not reconciled is missing.  The store has not been created from a snapshot.
    Missing data and eligibility events of block 0 are never found by the scans.

    ** Not modelled

    Locks, condition variables and background routines: operations are sequential, and
    the preparation of the next purge list, which holds its lock from the start, is
    made when it is started.  Logging, statistics, events and closing of files and of
    handles (iterators of a simulation are closed).  The
    import of private data hashes from a snapshot and the check of late private data
    against them, the block commit of the channel ledger that calls the stores in
    turn ([commit_block] of RecoveryOk is what it asks of the transaction manager),
    snapshot files, reset and rollback of ledgers, the bookmark of a paginated query.
    The consensus of the ordering service, CouchDB, gossip, membership and chaincode execution, which use the ledger through
    the modelled operations. *)

From Stdlib Require Export ZArith Lia.
From Stdlib Require Export Strings.Byte.
From stdpp Require Export base gmap sets list strings sorting.

#[global] Set Warnings "-notation-overridden,-clear-no-such-hyp".
#[global] Open Scope Z_scope.

(** ** Bytes

    A Go [byte] is the Standard Library's [Byte.byte]; [b2z] and [z2b] are the
    conversions [int(b)] and [byte(z)] (the latter truncates). *)

Abbreviation byte := Byte.byte.
Abbreviation bytes := (list Byte.byte).

Definition b2z (b : byte) : Z := Z.of_N (Byte.to_N b).

Definition z2b (z : Z) : byte :=
  match Byte.of_N (Z.to_N (z mod 256)) with
  | Some b => b
  | None => Byte.x00
  end.

Lemma b2z_range (b : byte) : 0 <= b2z b < 256.
Proof. unfold b2z. pose proof (Byte.to_N_bounded b). lia. Qed.

Lemma z2b_b2z (b : byte) : z2b (b2z b) = b.
Proof.
  unfold z2b. rewrite Z.mod_small by apply b2z_range.
  unfold b2z. by rewrite N2Z.id, Byte.of_to_N.
Qed.

Lemma b2z_z2b (z : Z) : b2z (z2b z) = z mod 256.
Proof.
  unfold z2b, b2z. pose proof (Z.mod_pos_bound z 256 ltac:(lia)).
  destruct (Byte.of_N _) as [b|] eqn:E.
  - apply Byte.to_of_N in E. rewrite E. by rewrite Z2N.id by lia.
  - apply Byte.of_N_None_iff in E. lia.
Qed.

Lemma b2z_inj (a b : byte) : b2z a = b2z b -> a = b.
Proof. intros H. by rewrite <- (z2b_b2z a), H, z2b_b2z. Qed.

#[global] Instance byte_eq_dec : EqDecision byte.
Proof. intros x y. destruct (Byte.byte_eq_dec x y); [by left | by right]. Defined.

#[global] Instance byte_countable : Countable byte :=
  inj_countable Byte.to_N Byte.of_N Byte.of_to_N.

(** Go strings are byte sequences; literals are written as Rocq strings. *)
Definition str (s : string) : bytes := String.list_byte_of_string s.

(** ** Machine integers *)

(** [uint64] conversion (wrap-around). *)
Definition u64 (z : Z) : Z := z mod 2 ^ 64.

(** [uint32] and [uint8] conversions. *)
Definition u32 (z : Z) : Z := z mod 2 ^ 32.
Definition u8 (z : Z) : Z := z mod 2 ^ 8.

(** [int]/[int64] conversion on a 64-bit target (two's complement). *)
Definition i64 (z : Z) : Z := (z + 2 ^ 63) mod 2 ^ 64 - 2 ^ 63.

Definition is_u64 (z : Z) : Prop := 0 <= z < 2 ^ 64.

Definition is_i64 (z : Z) : Prop := - 2 ^ 63 <= z < 2 ^ 63.

Lemma u64_id (z : Z) : is_u64 z -> u64 z = z.
Proof. unfold is_u64, u64. intros. by apply Z.mod_small. Qed.

Lemma u64_is_u64 (z : Z) : is_u64 (u64 z).
Proof. apply Z.mod_pos_bound. lia. Qed.

Lemma i64_id (z : Z) : is_i64 z -> i64 z = z.
Proof. unfold is_i64, i64. intros. rewrite Z.mod_small; lia. Qed.

Lemma i64_is_i64 (z : Z) : is_i64 (i64 z).
Proof. unfold i64, is_i64. pose proof (Z.mod_pos_bound (z + 2 ^ 63) (2 ^ 64)). lia. Qed.

(** [len] of a Go slice. *)
Definition zlen {A} (l : list A) : Z := Z.of_nat (length l).

#[global] Arguments zlen : simpl never.

Lemma zlen_nonneg {A} (l : list A) : 0 <= zlen l.
Proof. unfold zlen. lia. Qed.

Lemma zlen_app {A} (l k : list A) : zlen (l ++ k) = zlen l + zlen k.
Proof. unfold zlen. rewrite length_app. lia. Qed.

Lemma zlen_cons {A} (x : A) (l : list A) : zlen (x :: l) = 1 + zlen l.
Proof. unfold zlen. simpl. lia. Qed.

Lemma zlen_to_nat {A} (l : list A) : Z.to_nat (zlen l) = length l.
Proof. unfold zlen. lia. Qed.

Lemma zlen_nil {A} : zlen (@nil A) = 0.
Proof. done. Qed.

Lemma cons_tail {A} (x y : A) (l k : list A) : x :: l = y :: k -> l = k.
Proof. by injection 1. Qed.

(** ** Outcomes

    A Go call returns normally, returns a non-nil [error], or panics. *)

(** The error values the modelled code compares by identity, and the others,
    which it only propagates, by their message. *)
Inductive error : Type :=
| ErrUnexpectedEndOfBlockfile
| ErrNotFoundInIndex
| ErrAttrNotIndexed
| errIndexSavePointKeyNotPresent
| errNilValue
| ErrUnexpectedEOF
| ErrOverflow
| ErrEOF
| ErrNotExist
| ErrIO
| ErrProto
| InvalidTxError
| Errorf (msg : string).

#[global] Instance error_eq_dec : EqDecision error.
Proof. solve_decision. Defined.

Inductive outcome (A : Type) : Type :=
| Ret (a : A)
| Err (e : error)
| Panic (msg : string).
Arguments Ret {A} a.
Arguments Err {A} e.
Arguments Panic {A} msg.

#[global] Instance outcome_ret : MRet outcome := fun A a => Ret a.
#[global] Instance outcome_bind : MBind outcome := fun A B f m =>
  match m with
  | Ret a => f a
  | Err e => Err e
  | Panic msg => Panic msg
  end.

Definition is_ret {A} (o : outcome A) : bool :=
  match o with Ret _ => true | _ => false end.

Definition is_panic {A} (o : outcome A) : bool :=
  match o with Panic _ => true | _ => false end.

Lemma outcome_bind_ret_inv {A B} (f : A -> outcome B) (m : outcome A) (b : B) :
  mbind f m = Ret b -> exists a, m = Ret a /\ f a = Ret b.
Proof. destruct m; simpl; intros; [eauto | done | done]. Qed.

(** [math.MaxUint64] *)
Definition MaxUint64 : Z := 2 ^ 64 - 1.

(** Go's bounds-checked index expression [l[i]]. *)
Definition go_index {A} (l : list A) (i : nat) : outcome A :=
  match l !! i with
  | Some a => Ret a
  | None => Panic "index out of range"
  end.

(** The slice expression [l[lo:hi]], for a slice without spare capacity. *)
Definition go_slice {A} (l : list A) (lo hi : Z) : outcome (list A) :=
  if (0 <=? lo) && (lo <=? hi) && (hi <=? zlen l)
  then Ret (take (Z.to_nat (hi - lo)) (drop (Z.to_nat lo) l))
  else Panic "slice bounds out of range".

Lemma go_slice_ok {A} (l : list A) (lo hi : Z) :
  0 <= lo <= hi -> hi <= zlen l -> go_slice l lo hi = Ret (take (Z.to_nat (hi - lo)) (drop (Z.to_nat lo) l)).
Proof. intros H1 H2. unfold go_slice. by rewrite !(proj2 (Z.leb_le _ _)) by lia. Qed.

(** A field of a struct behind a pointer. *)
Definition nil_deref {A} (o : option A) : outcome A :=
  match o with Some a => Ret a | None => Panic "nil pointer dereference" end.

(** A loop over a slice that changes a value and can fail. *)
Fixpoint for_range {A S} (f : A -> S -> outcome S) (l : list A) (s : S) : outcome S :=
  match l with
  | [] => Ret s
  | a :: l' => s ← f a s; for_range f l' s
  end.

(** [x != nil] as a boolean. *)
Definition is_Some_b {A} (o : option A) : bool :=
  match o with Some _ => true | None => false end.

(** ** A state monad over outcomes: the state survives errors and panics. *)

Definition M (S A : Type) : Type := S -> outcome A * S.

#[global] Instance M_ret {S} : MRet (M S) := fun A a s => (Ret a, s).
#[global] Instance M_bind {S} : MBind (M S) := fun A B f m s =>
  match m s with
  | (Ret a, s') => f a s'
  | (Err e, s') => (Err e, s')
  | (Panic msg, s') => (Panic msg, s')
  end.

Definition get_state {S} : M S S := fun s => (Ret s, s).
Definition put_state {S} (s' : S) : M S unit := fun _ => (Ret tt, s').
Definition modify_state {S} (f : S -> S) : M S unit := fun s => (Ret tt, f s).
Definition lift_outcome {S A} (o : outcome A) : M S A := fun s => (o, s).
Definition throw {S A} (e : error) : M S A := fun s => (Err e, s).
Definition panic {S A} (msg : string) : M S A := fun s => (Panic msg, s).

(** [try m]: the pair [(value, err)] of a call whose error the caller inspects. *)
Definition try {S A} (m : M S A) : M S (A + error) := fun s =>
  match m s with
  | (Ret a, s') => (Ret (inl a), s')
  | (Err e, s') => (Ret (inr e), s')
  | (Panic msg, s') => (Panic msg, s')
  end.

Lemma bind_ret_inv {S A B} (x : M S A) (f : A -> M S B) (s s' : S) (b : B) :
  (y ← x; f y) s = (Ret b, s') -> exists a s1, x s = (Ret a, s1) /\ f a s1 = (Ret b, s').
Proof. unfold mbind, M_bind. destruct (x s) as [[a|e|msg] s1]; intros E; [by exists a, s1|done|done]. Qed.

(** ** Tactics and hints *)

Create HintDb hicert.
#[export] Hint Resolve b2z_range u64_is_u64 i64_is_i64 zlen_nonneg : hicert.
#[export] Hint Rewrite @zlen_app @zlen_cons @zlen_to_nat @zlen_nil z2b_b2z b2z_z2b : hicert.

(** Split an equation [x ← m; k = Ret b] (or an error monad chain) into its
    successful steps. *)
Ltac inv_bind :=
  repeat match goal with
  | H : mbind _ _ = Ret _ |- _ =>
      let a := fresh "a" in let Ha := fresh "Ha" in
      apply outcome_bind_ret_inv in H; destruct H as (a & Ha & H)
  | H : Ret _ = Ret _ |- _ => injection H as H; subst
  end.

(** Case analysis on the scrutinee of a match in the goal. *)
Ltac case_step :=
  match goal with
  | |- context [match ?x with _ => _ end] => destruct x eqn:?
  end.

(** An association list without repeated keys is a function. *)
Lemma NoDup_fst_lookup {K A} (l : list (K * A)) (k : K) (x y : A) : NoDup l.*1 -> (k, x) ∈ l -> (k, y) ∈ l -> x = y.
Proof.
  induction l as [|[k' z] l IH]; [by intros _ ?%not_elem_of_nil|]. cbn [fmap list_fmap fst]. intros [Hk Hn]%NoDup_cons.
  assert (Hno : forall w, (k', w) ∉ l) by (intros w Hw; apply Hk, list_elem_of_fmap; by exists (k', w)).
  intros [Ex|Hx]%elem_of_cons [Ey|Hy]%elem_of_cons; simplify_eq; [done|by apply Hno in Hy|by apply Hno in Hx|by apply IH].
Qed.
