(* ===== verification/Wire.v ===== *)
(** * A self-delimiting wire format

    The concrete encodings behind the examples: a value is written as bytes from
    which it can be read back, whatever follows it.  Numbers are written in base 128,
    byte strings with their length, lists with a mark before each element.  The
    format plays the part of the generated protobuf code, which is not modelled; no
    theorem about the program depends on it. *)

From S2P Require Import Prelude.

(** [wr] never gives the empty string, which stands for a message without fields. *)
Class Wire (A : Type) : Type := {
  wr : A -> bytes;
  rd : bytes -> option (A * bytes);
  rd_wr : forall a rest, rd (wr a ++ rest) = Some (a, rest);
  wr_nonempty : forall a, wr a <> [] }.

(** ** Numbers *)

Fixpoint wr_digits (fuel : nat) (n : N) : bytes :=
  match fuel with
  | O => []
  | S fuel' => if (n <? 128)%N then [z2b (Z.of_N n)] else z2b (Z.of_N (n mod 128 + 128)) :: wr_digits fuel' (n / 128)
  end.

Fixpoint rd_digits (b : bytes) : option (N * bytes) :=
  match b with
  | [] => None
  | x :: b' =>
      let n := Byte.to_N x in
      if (n <? 128)%N then Some (n, b') else
      match rd_digits b' with
      | Some (m, rest) => Some ((n - 128) + 128 * m, rest)%N
      | None => None
      end
  end.

Lemma to_N_z2b (n : N) : (n < 256)%N -> Byte.to_N (z2b (Z.of_N n)) = n.
Proof. intros H. apply N2Z.inj. fold (b2z (z2b (Z.of_N n))). rewrite b2z_z2b. apply Z.mod_small. lia. Qed.

Lemma rd_digits_wr (fuel : nat) (n : N) (rest : bytes) :
  (n < 2 ^ N.of_nat fuel)%N -> (0 < fuel)%nat -> rd_digits (wr_digits fuel n ++ rest) = Some (n, rest).
Proof.
  revert n. induction fuel as [|fuel IH]; intros n Hn Hf; [lia|]. cbn [wr_digits]. destruct (N.ltb_spec n 128) as [Hs|Hl].
  - cbn [app rd_digits]. rewrite to_N_z2b by lia. cbv zeta. by rewrite (proj2 (N.ltb_lt n 128) Hs).
  - pose proof (N.mod_lt n 128 ltac:(done)) as Hm. pose proof (N.div_mod n 128 ltac:(done)) as Hd.
    revert Hm Hd. generalize (n mod 128)%N (n / 128)%N. intros r q Hm Hd. cbn [app rd_digits]. rewrite to_N_z2b by lia. cbv zeta.
    rewrite (proj2 (N.ltb_ge (r + 128) 128)) by lia. rewrite Nat2N.inj_succ, N.pow_succ_r' in Hn. rewrite IH; [do 3 f_equal; lia|lia|].
    destruct fuel; [cbn in Hn; lia|lia].
Qed.

#[global] Instance N_wire : Wire N.
Proof.
  refine {| wr n := wr_digits (S (N.size_nat n)) n; rd := rd_digits |}.
  - intros n rest. apply rd_digits_wr; [|lia]. destruct n as [|p]; [done|]. cbn [N.size_nat].
    induction p as [p IH|p IH|]; cbn [Pos.size_nat]; [rewrite Nat2N.inj_succ, N.pow_succ_r'..|done]; lia.
  - intros n. cbn [wr_digits]. by destruct (n <? 128)%N.
Defined.

(** ** Composition *)

Definition wire_iso {A B : Type} {W : Wire B} (f : A -> B) (g : B -> A) : (forall a, g (f a) = a) -> Wire A.
Proof.
  intros Hgf. refine {| wr a := wr (f a); rd b := match rd b with Some (x, rest) => Some (g x, rest) | None => None end |}.
  - intros a rest. by rewrite rd_wr, Hgf.
  - intros a. apply wr_nonempty.
Defined.

#[global] Instance prod_wire {A B} {WA : Wire A} {WB : Wire B} : Wire (A * B).
Proof.
  refine {| wr '(a, b) := wr a ++ wr b;
            rd s := match rd s with
                    | Some (a, s') => match rd s' with Some (b, rest) => Some ((a, b), rest) | None => None end
                    | None => None
                    end |}.
  - intros [a b] rest. by rewrite <- app_assoc, !rd_wr.
  - intros [a b] [Ha _]%app_eq_nil. by apply wr_nonempty in Ha.
Defined.

#[global] Instance sum_wire {A B} {WA : Wire A} {WB : Wire B} : Wire (A + B).
Proof.
  refine {| wr x := match x with inl a => Byte.x00 :: wr a | inr b => Byte.x01 :: wr b end;
            rd s := match s with
                    | [] => None
                    | x :: s' =>
                        if bool_decide (x = Byte.x00)
                        then match rd s' with Some (a, rest) => Some (inl a, rest) | None => None end
                        else match rd s' with Some (b, rest) => Some (inr b, rest) | None => None end
                    end |}.
  - intros [a|b] rest; cbn; by rewrite rd_wr.
  - by intros [].
Defined.

#[global] Instance bool_wire : Wire bool := wire_iso (fun b : bool => if b then 1%N else 0%N) (fun n => (n =? 1)%N) ltac:(by intros []).

#[global] Instance Z_wire : Wire Z :=
  wire_iso (fun z => match z with Z0 => 0%N | Zpos p => Npos (p~0) | Zneg p => Npos (p~1) end)
    (fun n => match n with N0 => 0 | Npos (p~0) => Zpos p | Npos (p~1) => Zneg p | Npos xH => 0 end) ltac:(by intros []).

#[global] Instance option_wire {A} {W : Wire A} : Wire (option A) :=
  wire_iso (fun o => match o with None => inl false | Some a => inr a end) (fun x => match x with inl _ => None | inr a => Some a end) ltac:(by intros []).

#[global] Instance bytes_wire : Wire bytes.
Proof.
  refine {| wr b := wr (N.of_nat (length b)) ++ b;
            rd s := match rd (A := N) s with
                    | Some (n, s') => if (n <=? N.of_nat (length s'))%N then Some (take (N.to_nat n) s', drop (N.to_nat n) s') else None
                    | None => None
                    end |}.
  - intros b rest. rewrite <- app_assoc, rd_wr, length_app. assert ((_ <=? _)%N = true) as -> by (apply N.leb_le; lia).
    by rewrite Nat2N.id, take_app_length, drop_app_length.
  - intros b [Hn _]%app_eq_nil. by apply wr_nonempty in Hn.
Defined.

(** ** Lists and maps *)

Fixpoint wr_list {A} {W : Wire A} (l : list A) : bytes :=
  match l with
  | [] => [Byte.x00]
  | a :: l' => Byte.x01 :: wr a ++ wr_list l'
  end.

Fixpoint rd_list {A} {W : Wire A} (fuel : nat) (s : bytes) : option (list A * bytes) :=
  match fuel, s with
  | O, _ | _, [] => None
  | S fuel', x :: s' =>
      if bool_decide (x = Byte.x00) then Some ([], s') else
      match rd s' with
      | Some (a, s'') => match rd_list fuel' s'' with Some (l, rest) => Some (a :: l, rest) | None => None end
      | None => None
      end
  end.

Lemma rd_list_wr {A} {W : Wire A} (l : list A) (fuel : nat) (rest : bytes) :
  (length l < fuel)%nat -> rd_list fuel (wr_list l ++ rest) = Some (l, rest).
Proof.
  revert fuel. induction l as [|a l IH]; intros [|fuel] Hf; cbn [length] in Hf; try lia; cbn [rd_list wr_list app]; [done|].
  rewrite <- app_assoc, rd_wr, IH by lia. done.
Qed.

Lemma wr_list_length {A} {W : Wire A} (l : list A) : (length l < length (wr_list l))%nat.
Proof. induction l as [|a l IH]; cbn [wr_list length]; [lia|]. rewrite length_app. lia. Qed.

(** A byte string is written by [bytes_wire]. *)
#[global] Instance list_wire {A} {W : Wire A} : Wire (list A) | 10.
Proof.
  refine {| wr := wr_list; rd s := rd_list (length s) s |}.
  - intros l rest. apply rd_list_wr. rewrite length_app. pose proof (wr_list_length l). lia.
  - by intros [].
Defined.

#[global] Instance gmap_wire {K A} `{Countable K} {WK : Wire K} {WA : Wire A} : Wire (gmap K A) :=
  wire_iso (W := list_wire) map_to_list list_to_map list_to_map_to_list.
