(* ===== verification/Varint.v ===== *)
(** * Protocol-buffer varints and count-delimited byte strings

    The wire primitives the block store is built on:
    src/vendor/github.com/golang/protobuf/proto/{encode,decode}.go.  A
    [proto.Buffer] is the record of its byte slice and its read index. *)

From S2P Require Import Prelude.

(** ** Encoding *)

Definition maxVarintBytes : nat := 10.

(** [for n = 0; x > 127; n++ { buf[n] = 0x80 | uint8(x&0x7F); x >>= 7 }]; the
    array has [maxVarintBytes] cells, the bound on the iterations. *)
Fixpoint EncodeVarint_loop (cells : nat) (x : Z) : bytes :=
  match cells with
  | O => []
  | S cells' =>
      if 127 <? x
      then z2b (Z.lor 0x80 (Z.land x 0x7F)) :: EncodeVarint_loop cells' (Z.shiftr x 7)
      else [z2b x]
  end.

Definition EncodeVarint (x : Z) : bytes := EncodeVarint_loop maxVarintBytes x.

Record Buffer := mkBuffer { buf : bytes; index : nat }.

Definition NewBuffer (e : bytes) : Buffer := {| buf := e; index := 0 |}.

Fixpoint Buffer_EncodeVarint_loop (fuel : nat) (p : bytes) (x : Z) : bytes :=
  match fuel with
  | O => p
  | S fuel' =>
      if Z.shiftl 1 7 <=? x
      then Buffer_EncodeVarint_loop fuel'
             (p ++ [z2b (Z.lor (Z.land x 0x7f) 0x80)]) (Z.shiftr x 7)
      else p ++ [z2b x]
  end.

(** [(p *Buffer) EncodeVarint]: ten shifts by seven exhaust a [uint64]. *)
Definition Buffer_EncodeVarint (x : Z) (p : Buffer) : Buffer :=
  {| buf := Buffer_EncodeVarint_loop 10 (buf p) x; index := index p |}.

Definition SizeVarint (x : Z) : Z :=
  if x <? Z.shiftl 1 7 then 1
  else if x <? Z.shiftl 1 14 then 2
  else if x <? Z.shiftl 1 21 then 3
  else if x <? Z.shiftl 1 28 then 4
  else if x <? Z.shiftl 1 35 then 5
  else if x <? Z.shiftl 1 42 then 6
  else if x <? Z.shiftl 1 49 then 7
  else if x <? Z.shiftl 1 56 then 8
  else if x <? Z.shiftl 1 63 then 9
  else 10.

Definition EncodeRawBytes (b : bytes) (p : Buffer) : Buffer :=
  let p1 := Buffer_EncodeVarint (u64 (zlen b)) p in
  {| buf := buf p1 ++ b; index := index p1 |}.

(** ** Decoding *)

(** The loop of [DecodeVarint] over the unread bytes: [k] is the number of
    iterations left of [for shift := 0; shift < 64; shift += 7]. *)
Fixpoint DecodeVarint_loop (k : nat) (shift x : Z) (n : nat) (l : bytes) : Z * nat :=
  match k with
  | O => (0, 0%nat)
  | S k' =>
      match l with
      | [] => (0, 0%nat)
      | b0 :: l' =>
          let b := b2z b0 in
          let x' := Z.lor x (u64 (Z.shiftl (Z.land b 0x7F) shift)) in
          if Z.land b 0x80 =? 0 then (x', S n)
          else DecodeVarint_loop k' (shift + 7) x' (S n) l'
      end
  end.

Definition DecodeVarint (b : bytes) : Z * nat := DecodeVarint_loop 10 0 0 0 b.

Fixpoint decodeVarintSlow_loop (k : nat) (shift x : Z) (i : nat) (l : bytes) : outcome (Z * nat) :=
  match k with
  | O => Err ErrOverflow
  | S k' =>
      match l with
      | [] => Err ErrUnexpectedEOF
      | b :: l' =>
          let x' := Z.lor x (u64 (Z.shiftl (Z.land (b2z b) 0x7F) shift)) in
          if b2z b <? 0x80 then Ret (x', S i)
          else decodeVarintSlow_loop k' (shift + 7) x' (S i) l'
      end
  end.

Definition decodeVarintSlow (p : Buffer) : outcome (Z * Buffer) :=
  '(x, i) ← decodeVarintSlow_loop 10 0 0 (index p) (drop (index p) (buf p));
  Ret (x, {| buf := buf p; index := i |}).

(** The unrolled steps of [(p *Buffer) DecodeVarint] after its first byte: one
    per shift; [x += b << s], exit when the continuation bit is clear,
    [x -= 0x80 << s] otherwise. *)
Fixpoint fastVarint_steps (shifts : list Z) (x : Z) (i : nat) (l : bytes) : outcome (Z * nat) :=
  match shifts with
  | [] => Err ErrOverflow
  | s :: shifts' =>
      match l with
      | [] => Panic "index out of range"
      | b0 :: l' =>
          let b := b2z b0 in
          let x' := u64 (x + u64 (Z.shiftl b s)) in
          if Z.land b 0x80 =? 0 then Ret (x', S i)
          else fastVarint_steps shifts' (u64 (x' - u64 (Z.shiftl 0x80 s))) (S i) l'
      end
  end.

Definition Buffer_DecodeVarint (p : Buffer) : outcome (Z * Buffer) :=
  match drop (index p) (buf p) with
  | [] => Err ErrUnexpectedEOF
  | b :: l =>
      if b2z b <? 0x80 then Ret (b2z b, {| buf := buf p; index := S (index p) |})
      else if (length (b :: l) <? 10)%nat then decodeVarintSlow p
      else
        '(x, i) ← fastVarint_steps [7; 14; 21; 28; 35; 42; 49; 56; 63]
                    (u64 (b2z b - 0x80)) (S (index p)) l;
        Ret (x, {| buf := buf p; index := i |})
  end.

Definition DecodeRawBytes (p : Buffer) : outcome (bytes * Buffer) :=
  '(n, p) ← Buffer_DecodeVarint p;
  let nb := i64 n in
  if nb <? 0 then Err (Errorf "proto: bad byte length")
  else
    let end_ := i64 (Z.of_nat (index p) + nb) in
    if (end_ <? Z.of_nat (index p)) || (zlen (buf p) <? end_) then Err ErrUnexpectedEOF
    else
      b ← go_slice (buf p) (Z.of_nat (index p)) end_;
      Ret (b, {| buf := buf p; index := index p + Z.to_nat nb |}).

(** ** Lemmas *)

#[global] Arguments EncodeVarint : simpl never.
#[global] Arguments DecodeVarint : simpl never.
#[global] Arguments SizeVarint : simpl never.

Lemma land_127 (x : Z) : Z.land x 0x7F = x mod 128.
Proof. apply (Z.land_ones x 7). lia. Qed.

Lemma lor_add_shiftl (x c s : Z) :
  0 <= s -> 0 <= x < 2 ^ s -> Z.lor x (Z.shiftl c s) = x + Z.shiftl c s.
Proof.
  intros Hs Hx.
  assert (D : Z.land x (Z.shiftl c s) = 0).
  { apply Z.bits_inj'. intros n Hn. rewrite Z.land_spec, Z.bits_0.
    destruct (Z.lt_ge_cases n s).
    - rewrite Z.shiftl_spec_low by lia. apply andb_false_r.
    - rewrite <- (Z.mod_small x (2 ^ s)) by lia.
      rewrite Z.mod_pow2_bits_high by lia. done. }
  by rewrite <- Z.lxor_lor, <- Z.add_nocarry_lxor.
Qed.

Lemma lor_128 (x : Z) : Z.lor 0x80 (Z.land x 0x7F) = 128 + x mod 128.
Proof.
  rewrite land_127, Z.lor_comm. pose proof (Z.mod_pos_bound x 128 ltac:(lia)).
  pose proof (lor_add_shiftl (x mod 128) 1 7 ltac:(lia) ltac:(lia)) as E.
  change (Z.shiftl 1 7) with 128 in E. lia.
Qed.

Lemma byte_high_bit (b : byte) : (Z.land (b2z b) 0x80 =? 0) = (b2z b <? 0x80).
Proof. destruct b; reflexivity. Qed.

Lemma byte_land_127 (b : byte) :
  Z.land (b2z b) 0x7F = if b2z b <? 0x80 then b2z b else b2z b - 0x80.
Proof. destruct b; reflexivity. Qed.

(** Adding a shifted group below which the accumulator lies is a bitwise or. *)
Lemma lor_shifted (x c s : Z) :
  0 <= s -> s <= 64 -> 0 <= x < 2 ^ s -> 0 <= c ->
  Z.lor x (u64 (Z.shiftl c s)) = u64 (x + Z.shiftl c s).
Proof.
  intros Hs Hs' Hx Hc. unfold u64. rewrite Z.shiftl_mul_pow2 by lia.
  assert (E : (2 ^ 64 = 2 ^ s * 2 ^ (64 - s))) by (rewrite <- Z.pow_add_r by lia; f_equal; lia).
  assert (P : 0 < 2 ^ s) by lia.
  assert (Q : 0 < 2 ^ (64 - s)) by (apply Z.pow_pos_nonneg; lia).
  assert (R : (c * 2 ^ s) mod 2 ^ 64 = (c mod 2 ^ (64 - s)) * 2 ^ s).
  { rewrite E, (Z.mul_comm c), Z.mul_mod_distr_l by lia. lia. }
  rewrite R. pose proof (Z.mod_pos_bound c (2 ^ (64 - s)) Q).
  transitivity (x + (c mod 2 ^ (64 - s)) * 2 ^ s).
  - rewrite <- Z.shiftl_mul_pow2 by lia. by apply lor_add_shiftl.
  - symmetry. rewrite Z.add_mod, R by lia.
    assert (H1 : x < 2 ^ 64) by (apply Z.lt_le_trans with (2 ^ s); [lia | apply Z.pow_le_mono_r; lia]).
    rewrite (Z.mod_small x) by lia. apply Z.mod_small. nia.
Qed.

Lemma EncodeVarint_loop_length (k : nat) (x : Z) :
  (0 < k)%nat -> (1 <= length (EncodeVarint_loop k x) <= k)%nat.
Proof.
  revert x. induction k as [|k IH]; intros x Hk; [lia|].
  cbn [EncodeVarint_loop]. destruct (127 <? x); cbn [length]; [|lia].
  destruct k as [|k]; [simpl; lia|]. specialize (IH (Z.shiftr x 7) ltac:(lia)). lia.
Qed.

(** Decoding an encoded number, with [x] already accumulated below [shift]. *)
Lemma decode_encode_loop (k f : nat) (shift x y : Z) (i : nat) (post : bytes) :
  (0 < f <= k)%nat -> 0 <= shift <= 64 -> 0 <= x < 2 ^ shift ->
  0 <= y < 2 ^ (7 * Z.of_nat f) -> x + y * 2 ^ shift < 2 ^ 64 ->
  decodeVarintSlow_loop k shift x i (EncodeVarint_loop f y ++ post) =
    Ret (x + y * 2 ^ shift, (i + length (EncodeVarint_loop f y))%nat).
Proof.
  revert f shift x y i. induction k as [|k IH]; intros f shift x y i Hf Hs Hx Hy Hb.
  { lia. }
  destruct f as [|f]; [lia|].
  pose proof (Z.pow_pos_nonneg 2 shift ltac:(lia) ltac:(lia)) as Hp.
  cbn [EncodeVarint_loop]. destruct (Z.ltb_spec 127 y) as [Hbig|Hsmall].
  - pose proof (Z.mod_pos_bound y 128 ltac:(lia)) as Hm.
    pose proof (Z.div_mod y 128 ltac:(lia)) as Hdm.
    assert (Hs7 : shift + 7 <= 64).
    { destruct (Z.le_gt_cases (shift + 7) 64) as [|Hgt]; [done|].
      pose proof (Z.pow_le_mono_r 2 58 shift ltac:(lia) ltac:(lia)). lia. }
    assert (Hp7 : 2 ^ (shift + 7) = 2 ^ shift * 128) by (rewrite Z.pow_add_r by lia; done).
    cbn [app length decodeVarintSlow_loop].
    rewrite byte_land_127, lor_128, b2z_z2b, (Z.mod_small (128 + _)) by lia.
    rewrite (proj2 (Z.ltb_ge (128 + _) 0x80)) by lia.
    rewrite lor_shifted by lia.
    replace (128 + y mod 128 - 128) with (y mod 128) by lia.
    rewrite Z.shiftl_mul_pow2, u64_id by (unfold is_u64; nia).
    rewrite Z.shiftr_div_pow2 by lia. change (2 ^ 7) with 128.
    assert (Hf0 : (0 < f)%nat) by (destruct f; [simpl in Hy; lia|lia]).
    rewrite IH; [|lia|lia|nia| |nia].
    + f_equal. f_equal; [nia|lia].
    + split; [apply Z.div_pos; lia|]. apply Z.div_lt_upper_bound; [lia|].
      replace (128 * _) with (2 ^ (7 * Z.of_nat (S f))); [lia|].
      change 128 with (2 ^ 7). rewrite <- Z.pow_add_r by lia. f_equal. lia.
  - cbn [app length decodeVarintSlow_loop].
    rewrite byte_land_127, b2z_z2b, (Z.mod_small y) by lia.
    rewrite (proj2 (Z.ltb_lt y 0x80)) by lia.
    rewrite lor_shifted by lia.
    rewrite Z.shiftl_mul_pow2, u64_id by (unfold is_u64; nia).
    f_equal. f_equal. lia.
Qed.

(** The package-level decoder is the buffer's loop with errors as [(0, 0)]. *)
Lemma DecodeVarint_loop_slow (k : nat) (shift x : Z) (n : nat) (l : bytes) :
  DecodeVarint_loop k shift x n l =
    match decodeVarintSlow_loop k shift x n l with Ret r => r | _ => (0, 0%nat) end.
Proof.
  revert shift x n l. induction k as [|k IH]; intros shift x n [|b l]; simpl; try done.
  rewrite byte_high_bit. destruct (b2z b <? 0x80); [done|]. apply IH.
Qed.

(** One unrolled step computes what one loop step computes. *)
Lemma fastVarint_steps_slow (k : nat) (s x : Z) (i : nat) (l : bytes) :
  0 <= s -> s + 7 * Z.of_nat k <= 70 -> 0 <= x < 2 ^ s -> (k <= length l)%nat ->
  fastVarint_steps (map (fun j => s + 7 * Z.of_nat j) (seq 0 k)) x i l =
    decodeVarintSlow_loop k s x i l.
Proof.
  revert s x i l. induction k as [|k IH]; intros s x i l Hs Hk Hx Hl; [done|].
  destruct l as [|b l]; [simpl in Hl; lia|].
  cbn [seq map fastVarint_steps decodeVarintSlow_loop].
  rewrite Z.mul_0_r, Z.add_0_r, byte_high_bit, byte_land_127.
  pose proof (b2z_range b) as Hb. pose proof (Z.pow_pos_nonneg 2 s ltac:(lia) Hs) as Hp.
  assert (Hu : forall c, u64 (x + u64 c) = u64 (x + c)).
  { intros c. unfold u64. by rewrite Zplus_mod_idemp_r. }
  rewrite Hu. destruct (Z.ltb_spec (b2z b) 0x80) as [Hlt|Hge].
  - rewrite lor_shifted by lia. done.
  - rewrite lor_shifted by lia.
    assert (Hx' : u64 (u64 (x + Z.shiftl (b2z b) s) - u64 (Z.shiftl 128 s)) =
                  u64 (x + Z.shiftl (b2z b - 128) s)).
    { unfold u64. rewrite <- Zminus_mod. f_equal.
      rewrite !Z.shiftl_mul_pow2 by lia. lia. }
    rewrite Hx'. destruct k as [|k].
    { done. }
    rewrite <- (IH (s + 7)); [|lia|lia| |simpl in *; lia].
    + f_equal. rewrite <- seq_shift, map_map. apply map_ext. intros j. lia.
    + rewrite Z.pow_add_r, Z.shiftl_mul_pow2 by lia. change (2 ^ 7) with 128.
      rewrite u64_id; [nia|]. split; [nia|].
      pose proof (Z.pow_le_mono_r 2 s 56 ltac:(lia) ltac:(lia)).
      change (2 ^ 64) with (2 ^ 56 * 256). nia.
Qed.

(** ** The interface the block store uses *)

Lemma EncodeVarint_length (x : Z) : (1 <= length (EncodeVarint x) <= 10)%nat.
Proof. apply EncodeVarint_loop_length. unfold maxVarintBytes. lia. Qed.

Lemma EncodeVarint_small (x : Z) : x <= 127 -> EncodeVarint x = [z2b x].
Proof.
  intros Hx. unfold EncodeVarint, maxVarintBytes. cbn [EncodeVarint_loop].
  by rewrite (proj2 (Z.ltb_ge _ _)).
Qed.

(** The unrolled decoder agrees with the reference loop on every buffer, errors
    included. *)
Lemma Buffer_DecodeVarint_slow (p : Buffer) : Buffer_DecodeVarint p = decodeVarintSlow p.
Proof.
  unfold Buffer_DecodeVarint, decodeVarintSlow.
  destruct (drop (index p) (buf p)) as [|b l] eqn:E; [done|].
  destruct (b2z b <? 0x80) eqn:Hb.
  - pose proof (b2z_range b). cbn [decodeVarintSlow_loop].
    rewrite Hb, byte_land_127, Hb, Z.shiftl_0_r, Z.lor_0_l, u64_id by (unfold is_u64; lia).
    done.
  - destruct (Nat.ltb_spec (length (b :: l)) 10) as [|Hl]; [done|].
    f_equal. change 10%nat with (S 9). cbn [decodeVarintSlow_loop].
    rewrite Hb, byte_land_127, Hb, Z.shiftl_0_r, Z.lor_0_l.
    pose proof (b2z_range b). apply Z.ltb_ge in Hb.
    rewrite u64_id by (unfold is_u64; lia).
    apply (fastVarint_steps_slow 9 7); simpl in *; lia.
Qed.

(** Ten groups of seven bits hold every [uint64]. *)
Lemma decode_encode_10 (x : Z) (i : nat) (post : bytes) :
  is_u64 x ->
  decodeVarintSlow_loop 10 0 0 i (EncodeVarint x ++ post) =
    Ret (x, (i + length (EncodeVarint x))%nat).
Proof.
  unfold is_u64. intros Hx. unfold EncodeVarint.
  assert (H70 : 2 ^ 64 < 2 ^ (7 * Z.of_nat maxVarintBytes)) by (vm_compute; done).
  rewrite decode_encode_loop; rewrite ?Z.pow_0_r, ?Z.mul_1_r, ?Z.add_0_l;
    unfold maxVarintBytes in *; lia || done.
Qed.

Lemma Buffer_DecodeVarint_encode (pre post : bytes) (x : Z) :
  is_u64 x ->
  Buffer_DecodeVarint (mkBuffer (pre ++ EncodeVarint x ++ post) (length pre)) =
    Ret (x, mkBuffer (pre ++ EncodeVarint x ++ post) (length pre + length (EncodeVarint x))).
Proof.
  intros Hx. rewrite Buffer_DecodeVarint_slow. unfold decodeVarintSlow. cbn [buf index].
  by rewrite drop_app_length, decode_encode_10.
Qed.

Lemma DecodeVarint_encode (x : Z) (post : bytes) :
  is_u64 x -> DecodeVarint (EncodeVarint x ++ post) = (x, length (EncodeVarint x)).
Proof.
  intros Hx. unfold DecodeVarint. by rewrite DecodeVarint_loop_slow, decode_encode_10.
Qed.

Lemma Buffer_EncodeVarint_loop_eq (fuel : nat) (p : bytes) (x : Z) :
  Buffer_EncodeVarint_loop fuel p x = p ++ EncodeVarint_loop fuel x.
Proof.
  revert p x. induction fuel as [|f IH]; intros p x; simpl; [by rewrite app_nil_r|].
  change (Z.shiftl 1 7) with 128.
  replace (128 <=? x) with (127 <? x) by (destruct (Z.ltb_spec 127 x), (Z.leb_spec 128 x); lia).
  destruct (127 <? x); [|done].
  rewrite IH, <- app_assoc, (Z.lor_comm (Z.land x 127)). done.
Qed.

Lemma Buffer_EncodeVarint_eq (x : Z) (p : Buffer) :
  Buffer_EncodeVarint x p = mkBuffer (buf p ++ EncodeVarint x) (index p).
Proof. unfold Buffer_EncodeVarint. by rewrite Buffer_EncodeVarint_loop_eq. Qed.

Lemma EncodeRawBytes_eq (b : bytes) (p : Buffer) :
  EncodeRawBytes b p = mkBuffer (buf p ++ EncodeVarint (u64 (zlen b)) ++ b) (index p).
Proof. unfold EncodeRawBytes. rewrite Buffer_EncodeVarint_eq. simpl. by rewrite app_assoc. Qed.

(** The number of bytes written is the one [SizeVarint] announces. *)
Lemma EncodeVarint_loop_size (k j : nat) (x : Z) :
  (0 < j <= k)%nat -> 0 <= x < 2 ^ (7 * Z.of_nat j) ->
  j = 1%nat \/ 2 ^ (7 * (Z.of_nat j - 1)) <= x ->
  length (EncodeVarint_loop k x) = j.
Proof.
  revert j x. induction k as [|k IH]; intros j x Hj Hx Hge; [lia|].
  cbn [EncodeVarint_loop]. destruct (Z.ltb_spec 127 x) as [Hb|Hb]; cbn [length].
  - assert (Hj2 : (2 <= j)%nat) by (destruct j as [|[|j]]; [lia| simpl in Hx; lia |lia]).
    assert (Hd : 2 ^ (7 * Z.of_nat j) = 2 ^ (7 * Z.of_nat (j - 1)) * 2 ^ 7).
    { rewrite <- Z.pow_add_r by lia. f_equal. lia. }
    rewrite Z.shiftr_div_pow2 by lia. change (2 ^ 7) with 128 in *.
    rewrite (IH (j - 1)%nat); [lia|lia| |].
    + split; [apply Z.div_pos; lia|]. apply Z.div_lt_upper_bound; lia.
    + destruct (decide (j = 2%nat)) as [->|Hne]; [by left|right].
      destruct Hge as [->|Hge]; [lia|]. apply Z.div_le_lower_bound; [lia|].
      change 128 with (2 ^ 7). rewrite <- Z.pow_add_r by lia.
      replace (7 + 7 * (Z.of_nat (j - 1) - 1)) with (7 * (Z.of_nat j - 1)) by lia. done.
  - destruct Hge as [->|Hge]; [done|]. destruct (decide (j = 1%nat)) as [->|Hne]; [done|].
    pose proof (Z.pow_le_mono_r 2 7 (7 * (Z.of_nat j - 1)) ltac:(lia) ltac:(lia)). lia.
Qed.

Lemma SizeVarint_length (x : Z) : is_u64 x -> SizeVarint x = zlen (EncodeVarint x).
Proof.
  unfold is_u64. intros Hx. unfold SizeVarint, zlen, EncodeVarint.
  assert (Hlen : forall j : nat, (0 < j <= 10)%nat -> x < 2 ^ (7 * Z.of_nat j) ->
            (j = 1%nat \/ 2 ^ (7 * (Z.of_nat j - 1)) <= x) ->
            Z.of_nat (length (EncodeVarint_loop maxVarintBytes x)) = Z.of_nat j).
  { intros j Hj Hlt Hge. f_equal. apply EncodeVarint_loop_size; [|lia|done].
    unfold maxVarintBytes. lia. }
  rewrite !Z.shiftl_1_l.
  repeat match goal with
  | |- (if x <? 2 ^ ?n then Zpos ?c else _) = _ =>
      destruct (Z.ltb_spec x (2 ^ n)) as [?|?];
      [ rewrite (Hlen (Pos.to_nat c)); [done|lia|done|];
        first [by left | right; assumption] | ]
  end.
  assert (H70 : 2 ^ 64 < 2 ^ (7 * Z.of_nat 10)) by (vm_compute; done).
  rewrite (Hlen 10%nat); [done|lia|lia|right; done].
Qed.

(** Reading back a count-delimited byte string. *)
Lemma DecodeRawBytes_encode (pre b post : bytes) :
  zlen (pre ++ EncodeVarint (zlen b) ++ b ++ post) < 2 ^ 63 ->
  DecodeRawBytes (mkBuffer (pre ++ EncodeVarint (zlen b) ++ b ++ post) (length pre)) =
    Ret (b, mkBuffer (pre ++ EncodeVarint (zlen b) ++ b ++ post)
              (length pre + length (EncodeVarint (zlen b)) + length b)).
Proof.
  intros Hlen. rewrite !zlen_app in Hlen.
  pose proof (zlen_nonneg pre). pose proof (zlen_nonneg (EncodeVarint (zlen b))).
  pose proof (zlen_nonneg b). pose proof (zlen_nonneg post).
  unfold DecodeRawBytes. rewrite Buffer_DecodeVarint_encode by (unfold is_u64; lia).
  cbn [mbind outcome_bind buf index].
  rewrite (i64_id (zlen b)) by (unfold is_i64; lia).
  rewrite (proj2 (Z.ltb_ge (zlen b) 0)) by lia.
  rewrite Nat2Z.inj_add. fold (zlen pre) (zlen (EncodeVarint (zlen b))).
  rewrite i64_id by (unfold is_i64; lia).
  rewrite (proj2 (Z.ltb_ge _ _)) by lia.
  rewrite (proj2 (Z.ltb_ge _ _)) by (rewrite !zlen_app; lia).
  cbn [orb]. rewrite go_slice_ok by (rewrite ?zlen_app; lia).
  replace (zlen pre + zlen (EncodeVarint (zlen b)) + zlen b - (zlen pre + zlen (EncodeVarint (zlen b)))) with (zlen b) by lia.
  rewrite <- (zlen_app pre), !zlen_to_nat, (app_assoc pre), drop_app_length, take_app_length. done.
Qed.

(** ** Reading arbitrary bytes: every read advances, stays in the buffer and
    returns a value or an error *)

Lemma decodeVarintSlow_loop_bounds (k : nat) (shift x : Z) (i : nat) (l : bytes) :
  match decodeVarintSlow_loop k shift x i l with
  | Ret (_, j) => (i < j <= i + length l)%nat
  | Err _ => True
  | Panic _ => False
  end.
Proof.
  revert shift x i l. induction k as [|k IH]; intros shift x i [|b l]; simpl; try done.
  destruct (b2z b <? 128); [lia|].
  specialize (IH (shift + 7) (Z.lor x (u64 (Z.shiftl (Z.land (b2z b) 127) shift))) (S i) l).
  destruct (decodeVarintSlow_loop _ _ _ _ l) as [[? ?]|?|?]; try done. lia.
Qed.

Lemma Buffer_DecodeVarint_bounds (p : Buffer) :
  match Buffer_DecodeVarint p with
  | Ret (_, p') => buf p' = buf p /\ (index p < index p' <= length (buf p))%nat
  | Err _ => True
  | Panic _ => False
  end.
Proof.
  rewrite Buffer_DecodeVarint_slow. unfold decodeVarintSlow.
  pose proof (decodeVarintSlow_loop_bounds 10 0 0 (index p) (drop (index p) (buf p))) as B.
  destruct (decodeVarintSlow_loop _ _ _ _ _) as [[? ?]|?|?]; simpl; try done.
  rewrite length_drop in B. split; [done|lia].
Qed.

Lemma DecodeRawBytes_bounds (p : Buffer) :
  zlen (buf p) < 2 ^ 63 ->
  match DecodeRawBytes p with
  | Ret (_, p') => buf p' = buf p /\ (index p < index p' <= length (buf p))%nat
  | Err _ => True
  | Panic _ => False
  end.
Proof.
  intros Hlen. unfold DecodeRawBytes. pose proof (Buffer_DecodeVarint_bounds p) as B.
  destruct (Buffer_DecodeVarint p) as [[n p1]|?|?]; simpl; try done.
  destruct B as [Eb Bi]. pose proof (i64_is_i64 n) as Hi. unfold is_i64 in Hi.
  destruct (Z.ltb_spec (i64 n) 0); [done|].
  destruct (_ || _) eqn:E; [done|]. apply orb_false_iff in E as [E1 E2].
  rewrite Z.ltb_ge in E1, E2. rewrite go_slice_ok by lia. cbn [mbind outcome_bind buf index]. split; [done|].
  rewrite Eb in E2. unfold zlen in *.
  destruct (Z.lt_ge_cases (Z.of_nat (index p1) + i64 n) (2 ^ 63)) as [Hs|Hs].
  - rewrite i64_id in E2 by (unfold is_i64; lia). lia.
  - exfalso. set (m := Z.of_nat (index p1) + i64 n) in *.
    assert (Hm : i64 m = m - 2 ^ 64).
    { unfold i64. rewrite <- (Z.mod_unique (m + 2 ^ 63) (2 ^ 64) 1 (m + 2 ^ 63 - 2 ^ 64)); lia. }
    lia.
Qed.

#[export] Hint Rewrite Buffer_EncodeVarint_eq EncodeRawBytes_eq : hicert.

(** ** Properties *)

(** The unrolled decoder of a buffer computes what the plain loop computes, on
    every input, and both invert the encoder, whose output [SizeVarint] sizes. *)
Theorem varint_decoders_agree (pre post : bytes) (x : Z) :
  is_u64 x ->
  (forall p, Buffer_DecodeVarint p = decodeVarintSlow p) /\
  Buffer_DecodeVarint (mkBuffer (pre ++ EncodeVarint x ++ post) (length pre)) =
    Ret (x, mkBuffer (pre ++ EncodeVarint x ++ post) (length pre + length (EncodeVarint x))) /\
  DecodeVarint (EncodeVarint x ++ post) = (x, length (EncodeVarint x)) /\
  SizeVarint x = zlen (EncodeVarint x).
Proof.
  intros Hx. split; [apply Buffer_DecodeVarint_slow|]. split; [by apply Buffer_DecodeVarint_encode|].
  split; [by apply DecodeVarint_encode|by apply SizeVarint_length].
Qed.

Lemma varint_decoders_agree_witness :
  DecodeVarint (EncodeVarint 300 ++ str "x") = (300, 2%nat) /\ SizeVarint 300 = 2.
Proof.
  destruct (varint_decoders_agree [] (str "x") 300) as (_ & _ & H3 & H4); [split; [discriminate|reflexivity]|].
  split; [exact H3|exact H4].
Defined.
