(* ===== verification/OrderedCode.v ===== *)
(** * Order-preserving number encoding and block heights

    src/common/ledger/util/util.go (the key encoding of every index of the
    ledger) and src/core/ledger/internal/version/version.go (the version of a
    state value: block number and transaction number). *)

From S2P Require Import Prelude Varint.

(** ** Byte-wise comparison (Go's [bytes.Compare] and [strings.Compare]) *)

Fixpoint bytes_compare (a b : bytes) : comparison :=
  match a, b with
  | [], [] => Eq
  | [], _ => Lt
  | _, [] => Gt
  | x :: a', y :: b' =>
      match b2z x ?= b2z y with
      | Eq => bytes_compare a' b'
      | c => c
      end
  end.

Definition bytes_ltb (a b : bytes) : bool :=
  match bytes_compare a b with Lt => true | _ => false end.

Definition bytes_leb (a b : bytes) : bool :=
  match bytes_compare a b with Gt => false | _ => true end.

Lemma bytes_compare_refl (a : bytes) : bytes_compare a a = Eq.
Proof. induction a as [|x a IH]; [done|]. simpl. by rewrite Z.compare_refl. Qed.

Lemma bytes_compare_eq (a b : bytes) : bytes_compare a b = Eq -> a = b.
Proof.
  revert b. induction a as [|x a IH]; intros [|y b]; simpl; try done.
  destruct (Z.compare_spec (b2z x) (b2z y)) as [E| |]; try done.
  intros H. apply b2z_inj in E. subst. f_equal. by apply IH.
Qed.

Lemma bytes_compare_antisym (a b : bytes) : bytes_compare b a = CompOpp (bytes_compare a b).
Proof.
  revert b. induction a as [|x a IH]; intros [|y b]; simpl; try done.
  rewrite (Z.compare_antisym (b2z x)). destruct (b2z x ?= b2z y); simpl; auto.
Qed.

Lemma bytes_compare_app (p a b : bytes) : bytes_compare (p ++ a) (p ++ b) = bytes_compare a b.
Proof. induction p as [|x p IH]; [done|]. simpl. by rewrite Z.compare_refl. Qed.

Lemma bytes_compare_lt_trans (a b c : bytes) :
  bytes_compare a b = Lt -> bytes_compare b c = Lt -> bytes_compare a c = Lt.
Proof.
  revert b c. induction a as [|x a IH]; intros [|y b] [|z c]; simpl; try done.
  destruct (Z.compare_spec (b2z x) (b2z y)), (Z.compare_spec (b2z y) (b2z z)),
    (Z.compare_spec (b2z x) (b2z z)); try done; try lia; eauto.
Qed.

(** ** util.go *)

(** [binary.BigEndian.PutUint64]: the [k] low bytes of [n], high byte first. *)
Fixpoint be_bytes (k : nat) (n : Z) : bytes :=
  match k with
  | O => []
  | S k' => z2b (Z.shiftr n (8 * Z.of_nat k')) :: be_bytes k' n
  end.

(** [binary.BigEndian.Uint64]. *)
Definition be_val (l : bytes) : Z := fold_left (fun acc b => Z.lor (Z.shiftl acc 8) (b2z b)) l 0.

(** [for i, b := range bytes { if b != 0 { startingIndex = i; size = 8 - i; break } }] *)
Fixpoint find_start (i : nat) (l : bytes) : nat * nat :=
  match l with
  | [] => (0, 0)%nat
  | b :: l' => if bool_decide (b <> Byte.x00) then (i, 8 - i)%nat else find_start (S i) l'
  end.

(** The guard [len(sizeBytes) > 1] before the result is built cannot fire: the
    size is at most 8 ([find_start_size]). *)
Definition EncodeOrderPreservingVarUint64 (number : Z) : bytes :=
  let bs := be_bytes 8 number in
  let '(startingIndex, size) := find_start 0 bs in
  let sizeBytes := EncodeVarint (Z.of_nat size) in
  take 1 sizeBytes ++ take size (drop startingIndex bs).

Definition DecodeOrderPreservingVarUint64 (bs : bytes) : outcome (Z * Z) :=
  let '(s, numBytes) := DecodeVarint bs in
  if negb (numBytes =? 1)%nat then
    Err (Errorf "number of consumed bytes from DecodeVarint is invalid, expected 1")
  else if 8 <? s then Err (Errorf "decoded size from DecodeVarint is invalid, expected <=8")
  else if zlen bs - 1 <? s then
    Err (Errorf "decoded size from DecodeVarint is more than available bytes")
  else
    let size := Z.to_nat s in
    let decodedBytes := replicate (8 - size) Byte.x00 ++ take size (drop 1 bs) in
    Ret (be_val decodedBytes, Z.of_nat size + 1).

(** *** The significant bytes of a number *)

(** How many bytes the encoding keeps: the least [s] with [n < 256 ^ s]. *)
Definition byte_size (n : Z) : nat := snd (find_start 0 (be_bytes 8 n)).

#[global] Arguments byte_size : simpl never.
#[global] Arguments EncodeOrderPreservingVarUint64 : simpl never.

Lemma be_bytes_length (k : nat) (n : Z) : length (be_bytes k n) = k.
Proof. induction k as [|k IH]; simpl; [done|]. by rewrite IH. Qed.

Lemma drop_be_bytes (j k : nat) (n : Z) : drop j (be_bytes (j + k) n) = be_bytes k n.
Proof. induction j as [|j IH]; [done|]. simpl. apply IH. Qed.

Lemma find_start_be_bytes (k : nat) (n : Z) :
  (k <= 8)%nat -> 0 <= n < 256 ^ Z.of_nat k ->
  (n = 0 /\ find_start (8 - k) (be_bytes k n) = (0, 0)%nat) \/
  exists s, (0 < s <= k)%nat /\ 256 ^ (Z.of_nat s - 1) <= n < 256 ^ Z.of_nat s /\
            find_start (8 - k) (be_bytes k n) = (8 - s, s)%nat.
Proof.
  induction k as [|k IH]; intros Hk Hn.
  { left. simpl in Hn. split; [lia|done]. }
  assert (Hp : 0 < 256 ^ Z.of_nat k) by (apply Z.pow_pos_nonneg; lia).
  assert (Hsh : Z.shiftr n (8 * Z.of_nat k) = n / 256 ^ Z.of_nat k).
  { rewrite Z.shiftr_div_pow2, Z.pow_mul_r by lia. done. }
  assert (HS : 256 ^ Z.of_nat (S k) = 256 * 256 ^ Z.of_nat k).
  { rewrite Nat2Z.inj_succ, Z.pow_succ_r by lia. done. }
  assert (Hd : 0 <= n / 256 ^ Z.of_nat k < 256).
  { split; [apply Z.div_pos; lia|]. apply Z.div_lt_upper_bound; lia. }
  cbn [be_bytes find_start]. rewrite Hsh. case_bool_decide as Hb.
  - right. exists (S k). split; [lia|]. split.
    + replace (Z.of_nat (S k) - 1) with (Z.of_nat k) by lia. split; [|lia].
      destruct (Z.lt_ge_cases n (256 ^ Z.of_nat k)) as [Hlt|]; [|done].
      exfalso. apply Hb. rewrite Z.div_small by lia. done.
    + f_equal. lia.
  - apply (f_equal b2z) in Hb.
    rewrite b2z_z2b, Z.mod_small in Hb by lia. change (b2z Byte.x00) with 0 in Hb.
    assert (Hlt : n < 256 ^ Z.of_nat k).
    { apply Z.div_small_iff in Hb; lia. }
    replace (S (8 - S k)) with (8 - k)%nat by lia.
    destruct (IH ltac:(lia) ltac:(lia)) as [?|(s & ? & ? & ?)]; [by left|].
    right. exists s. split; [lia|done].
Qed.

Lemma u64_256 (n : Z) : is_u64 n -> 0 <= n < 256 ^ Z.of_nat 8.
Proof. unfold is_u64. change (256 ^ Z.of_nat 8) with (2 ^ 64). lia. Qed.

Lemma byte_size_spec (n : Z) :
  is_u64 n ->
  (byte_size n <= 8)%nat /\ 0 <= n < 256 ^ Z.of_nat (byte_size n) /\
  (n = 0 /\ byte_size n = 0%nat \/
   (0 < byte_size n)%nat /\ 256 ^ (Z.of_nat (byte_size n) - 1) <= n) /\
  find_start 0 (be_bytes 8 n) = (if decide (n = 0) then 0%nat else (8 - byte_size n)%nat, byte_size n).
Proof.
  intros Hn%u64_256. unfold byte_size.
  destruct (find_start_be_bytes 8 n ltac:(lia) Hn) as [[-> E]|(s & Hs & Hb & E)];
    change (8 - 8)%nat with 0%nat in E; rewrite E; simpl.
  - repeat split; try lia; try (left; done). 
  - assert (0 < n).
    { apply Z.lt_le_trans with (256 ^ (Z.of_nat s - 1)); [|lia].
      apply Z.pow_pos_nonneg; lia. }
    repeat split; try lia. destruct (decide (n = 0)); [lia|done].
Qed.

Lemma find_start_size (n : Z) :
  is_u64 n -> length (EncodeVarint (Z.of_nat (snd (find_start 0 (be_bytes 8 n))))) = 1%nat.
Proof.
  intros Hn. destruct (byte_size_spec n Hn) as (Hs & _). unfold byte_size in Hs.
  rewrite EncodeVarint_small by lia. done.
Qed.

(** The encoding is the size byte followed by the significant bytes. *)
Lemma Encode_byte_size (n : Z) :
  is_u64 n ->
  EncodeOrderPreservingVarUint64 n = z2b (Z.of_nat (byte_size n)) :: be_bytes (byte_size n) n.
Proof.
  intros Hn. destruct (byte_size_spec n Hn) as (Hs & Hr & Hz & E).
  unfold EncodeOrderPreservingVarUint64. rewrite E.
  rewrite EncodeVarint_small by lia. cbn [take app]. f_equal.
  destruct (decide (n = 0)) as [->|Hne].
  { destruct Hz as [[_ ->]|[? Hz]]; [done|].
    pose proof (Z.pow_pos_nonneg 256 (Z.of_nat (byte_size 0) - 1)). lia. }
  replace 8%nat with ((8 - byte_size n) + byte_size n)%nat at 2 by lia.
  rewrite drop_be_bytes. apply take_ge. by rewrite be_bytes_length.
Qed.

Lemma byte_size_mono (n m : Z) :
  is_u64 n -> is_u64 m -> n <= m -> (byte_size n <= byte_size m)%nat.
Proof.
  intros Hn Hm Hle.
  destruct (byte_size_spec n Hn) as (_ & Hr & Hz & _).
  destruct (byte_size_spec m Hm) as (_ & Hr' & _ & _).
  destruct Hz as [[_ ->]|[Hpos Hz]]; [lia|].
  destruct (Nat.le_gt_cases (byte_size n) (byte_size m)) as [|Hgt]; [done|].
  pose proof (Z.pow_le_mono_r 256 (Z.of_nat (byte_size m)) (Z.of_nat (byte_size n) - 1)
    ltac:(lia) ltac:(lia)). lia.
Qed.

Lemma be_bytes_mod (k : nat) (n : Z) : be_bytes k n = be_bytes k (n mod 256 ^ Z.of_nat k).
Proof.
  assert (G : forall j m, (j <= m)%nat -> be_bytes j n = be_bytes j (n mod 256 ^ Z.of_nat m)).
  { intros j m. induction j as [|j IH]; intros Hj; [done|]. cbn [be_bytes]. f_equal; [|apply IH; lia].
    apply b2z_inj. rewrite !b2z_z2b. change 256 with (2 ^ 8). rewrite <- Z.pow_mul_r by lia.
    apply Z.bits_inj'. intros i Hi. destruct (Z.lt_ge_cases i 8).
    - rewrite !Z.mod_pow2_bits_low, !Z.shiftr_spec, Z.mod_pow2_bits_low by lia. done.
    - rewrite !Z.mod_pow2_bits_high by lia. done. }
  by apply G.
Qed.

(** Big-endian strings of one length compare as the numbers they hold. *)
Lemma be_bytes_compare (s : nat) (n m : Z) (a b : bytes) :
  0 <= n < 256 ^ Z.of_nat s -> 0 <= m < 256 ^ Z.of_nat s ->
  bytes_compare (be_bytes s n ++ a) (be_bytes s m ++ b) =
    match n ?= m with Eq => bytes_compare a b | c => c end.
Proof.
  revert n m. induction s as [|s IH]; intros n m Hn Hm.
  { simpl in Hn, Hm. by replace n with m by lia; rewrite Z.compare_refl. }
  set (P := 256 ^ Z.of_nat s) in *.
  assert (HP : 0 < P) by (apply Z.pow_pos_nonneg; lia).
  assert (HS : 256 ^ Z.of_nat (S s) = 256 * P).
  { rewrite Nat2Z.inj_succ, Z.pow_succ_r by lia. done. }
  assert (Hsh : forall z, Z.shiftr z (8 * Z.of_nat s) = z / P).
  { intros z. rewrite Z.shiftr_div_pow2, Z.pow_mul_r by lia. done. }
  assert (Hq : forall z, 0 <= z < 256 * P -> 0 <= z / P < 256).
  { intros z Hz. split; [apply Z.div_pos; lia|]. apply Z.div_lt_upper_bound; lia. }
  cbn [be_bytes app bytes_compare]. rewrite !Hsh, !b2z_z2b.
  rewrite !(Z.mod_small (_ / P)) by (apply Hq; lia).
  pose proof (Z.div_mod n P ltac:(lia)). pose proof (Z.div_mod m P ltac:(lia)).
  pose proof (Z.mod_pos_bound n P HP). pose proof (Z.mod_pos_bound m P HP).
  destruct (Z.compare_spec (n / P) (m / P)) as [E|E|E].
  - rewrite (be_bytes_mod s n), (be_bytes_mod s m). fold P. rewrite IH by lia.
    assert (Ec : (n mod P ?= m mod P) = (n ?= m)).
    { destruct (Z.compare_spec (n mod P) (m mod P)), (Z.compare_spec n m); lia || done || nia. }
    by rewrite Ec.
  - destruct (Z.compare_spec n m); [nia|done|nia].
  - destruct (Z.compare_spec n m); [nia|nia|done].
Qed.

(** Comparing two encodings, whatever follows them, compares the numbers first. *)
Lemma Encode_compare_app (n m : Z) (a b : bytes) :
  is_u64 n -> is_u64 m ->
  bytes_compare (EncodeOrderPreservingVarUint64 n ++ a) (EncodeOrderPreservingVarUint64 m ++ b) =
    match n ?= m with Eq => bytes_compare a b | c => c end.
Proof.
  intros Hn Hm. rewrite !Encode_byte_size by done.
  destruct (byte_size_spec n Hn) as (Hs & Hr & _ & _).
  destruct (byte_size_spec m Hm) as (Hs' & Hr' & _ & _).
  cbn [app bytes_compare]. rewrite !b2z_z2b, !Z.mod_small by lia.
  destruct (Z.compare_spec (Z.of_nat (byte_size n)) (Z.of_nat (byte_size m))) as [E|E|E].
  - apply Nat2Z.inj in E. rewrite E in *. by apply be_bytes_compare.
  - destruct (Z.compare_spec n m) as [->| |Hgt]; [lia|done|].
    pose proof (byte_size_mono m n Hm Hn ltac:(lia)). lia.
  - destruct (Z.compare_spec n m) as [->|Hlt|]; [lia| |done].
    pose proof (byte_size_mono n m Hn Hm ltac:(lia)). lia.
Qed.

Lemma be_val_app (l : bytes) (b : byte) : be_val (l ++ [b]) = be_val l * 256 + b2z b.
Proof.
  unfold be_val. rewrite fold_left_app. simpl. pose proof (b2z_range b).
  rewrite Z.lor_comm, lor_add_shiftl by lia. rewrite Z.shiftl_mul_pow2 by lia. lia.
Qed.

Lemma be_val_zeros (k : nat) (l : bytes) : be_val (replicate k Byte.x00 ++ l) = be_val l.
Proof.
  unfold be_val. rewrite fold_left_app. f_equal.
  induction k as [|k IH]; [done|]. simpl. apply IH.
Qed.

Lemma be_bytes_snoc (k : nat) (n : Z) : be_bytes (S k) n = be_bytes k (n / 256) ++ [z2b n].
Proof.
  induction k as [|k IH].
  - simpl. by rewrite Z.shiftr_0_r.
  - change (be_bytes (S (S k)) n) with (z2b (Z.shiftr n (8 * Z.of_nat (S k))) :: be_bytes (S k) n).
    rewrite IH. cbn [be_bytes app]. f_equal. f_equal.
    rewrite !Z.shiftr_div_pow2, !Z.pow_mul_r by lia. change (2 ^ 8) with 256.
    rewrite Nat2Z.inj_succ, Z.pow_succ_r, Z.div_div by lia. done.
Qed.

Lemma be_val_be_bytes (k : nat) (n : Z) : 0 <= n < 256 ^ Z.of_nat k -> be_val (be_bytes k n) = n.
Proof.
  revert n. induction k as [|k IH]; intros n Hn; [simpl in *; unfold be_val; simpl; lia|].
  rewrite be_bytes_snoc, be_val_app, b2z_z2b.
  rewrite Nat2Z.inj_succ, Z.pow_succ_r in Hn by lia.
  rewrite IH; [pose proof (Z.div_mod n 256); lia|].
  split; [apply Z.div_pos; lia|]. apply Z.div_lt_upper_bound; lia.
Qed.

Lemma Encode_length (n : Z) :
  is_u64 n -> length (EncodeOrderPreservingVarUint64 n) = S (byte_size n).
Proof. intros Hn. rewrite Encode_byte_size by done. cbn [length]. by rewrite be_bytes_length. Qed.

Lemma Decode_Encode (n : Z) (rest : bytes) :
  is_u64 n ->
  DecodeOrderPreservingVarUint64 (EncodeOrderPreservingVarUint64 n ++ rest) =
    Ret (n, zlen (EncodeOrderPreservingVarUint64 n)).
Proof.
  intros Hn. unfold zlen. rewrite (Encode_length n Hn), Encode_byte_size by done.
  destruct (byte_size_spec n Hn) as (Hs & Hr & _ & _).
  unfold DecodeOrderPreservingVarUint64. cbn [app].
  pose proof (DecodeVarint_encode (Z.of_nat (byte_size n)) (be_bytes (byte_size n) n ++ rest)) as D.
  rewrite EncodeVarint_small in D by lia. cbn [app length] in D.
  rewrite D by (unfold is_u64; lia). cbn [Nat.eqb negb].
  rewrite (proj2 (Z.ltb_ge _ _)) by lia.
  rewrite zlen_cons, zlen_app. unfold zlen at 1. rewrite be_bytes_length.
  rewrite (proj2 (Z.ltb_ge _ _)) by (pose proof (zlen_nonneg rest); lia).
  rewrite Nat2Z.id. cbn [drop]. rewrite drop_0, take_app_le, take_ge by (rewrite be_bytes_length; lia).
  rewrite be_val_zeros, be_val_be_bytes by done. f_equal. f_equal. lia.
Qed.

(** ** version.go *)

Record Height := mkHeight { BlockNum : Z; TxNum : Z }.

#[global] Instance Height_eq_dec : EqDecision Height.
Proof. solve_decision. Defined.

Definition NewHeight (blockNum txNum : Z) : Height := mkHeight blockNum txNum.

Definition NewHeightFromBytes (b : bytes) : outcome (Height * Z) :=
  '(blockNum, n1) ← DecodeOrderPreservingVarUint64 b;
  '(txNum, n2) ← DecodeOrderPreservingVarUint64 (drop (Z.to_nat n1) b);
  Ret (NewHeight blockNum txNum, n1 + n2).

Definition Height_ToBytes (h : Height) : bytes :=
  EncodeOrderPreservingVarUint64 (BlockNum h) ++ EncodeOrderPreservingVarUint64 (TxNum h).

(** The differences are taken in [uint64] and converted to [int]. *)
Definition Height_Compare (h h1 : Height) : Z :=
  if negb (BlockNum h =? BlockNum h1) then
    if 0 <? i64 (u64 (BlockNum h - BlockNum h1)) then 1 else -1
  else if negb (TxNum h =? TxNum h1) then
    if 0 <? i64 (u64 (TxNum h - TxNum h1)) then 1 else -1
  else 0.

(** Nil heights are [None]. *)
Definition AreSame (h1 h2 : option Height) : bool :=
  match h1, h2 with
  | None, None => true
  | None, Some _ => false
  | Some _, None => false
  | Some a, Some b => Height_Compare a b =? 0
  end.

Definition Height_wf (h : Height) : Prop := is_u64 (BlockNum h) /\ is_u64 (TxNum h).

(** The lexicographic order on (block, transaction) the heights stand for. *)
Definition height_compare (h h1 : Height) : comparison :=
  match BlockNum h ?= BlockNum h1 with Eq => TxNum h ?= TxNum h1 | c => c end.

Lemma Height_Compare_0 (h h1 : Height) : Height_Compare h h1 = 0 <-> h = h1.
Proof.
  unfold Height_Compare. destruct h as [b t], h1 as [b1 t1]; simpl.
  destruct (Z.eqb_spec b b1); simpl; [|repeat case_match; split; congruence || lia].
  destruct (Z.eqb_spec t t1); simpl; [|repeat case_match; split; congruence || lia].
  split; congruence.
Qed.

Lemma AreSame_eq (h1 h2 : option Height) : AreSame h1 h2 = true <-> h1 = h2.
Proof.
  destruct h1 as [a|], h2 as [b|]; simpl; try (split; congruence).
  rewrite Z.eqb_eq, Height_Compare_0. split; congruence.
Qed.

Lemma i64_u64_sub (x y : Z) :
  0 <= x < 2 ^ 63 -> 0 <= y < 2 ^ 63 -> i64 (u64 (x - y)) = x - y.
Proof.
  intros Hx Hy. unfold i64, u64. rewrite Zplus_mod_idemp_l.
  rewrite Z.mod_small; lia.
Qed.

Lemma Height_Compare_spec (h h1 : Height) :
  0 <= BlockNum h < 2 ^ 63 -> 0 <= BlockNum h1 < 2 ^ 63 ->
  0 <= TxNum h < 2 ^ 63 -> 0 <= TxNum h1 < 2 ^ 63 ->
  Height_Compare h h1 = match height_compare h h1 with Lt => -1 | Eq => 0 | Gt => 1 end.
Proof.
  intros ????. unfold Height_Compare, height_compare. rewrite !i64_u64_sub by done.
  destruct (Z.compare_spec (BlockNum h) (BlockNum h1)), (Z.eqb_spec (BlockNum h) (BlockNum h1));
    try lia; simpl.
  - destruct (Z.compare_spec (TxNum h) (TxNum h1)), (Z.eqb_spec (TxNum h) (TxNum h1)); try lia; simpl;
      try done; [by rewrite (proj2 (Z.ltb_ge _ _)) by lia | by rewrite (proj2 (Z.ltb_lt _ _)) by lia].
  - by rewrite (proj2 (Z.ltb_ge _ _)) by lia.
  - by rewrite (proj2 (Z.ltb_lt _ _)) by lia.
Qed.

Lemma NewHeightFromBytes_ToBytes (h : Height) (rest : bytes) :
  Height_wf h ->
  NewHeightFromBytes (Height_ToBytes h ++ rest) = Ret (h, zlen (Height_ToBytes h)).
Proof.
  intros [Hb Ht]. unfold NewHeightFromBytes, Height_ToBytes. rewrite <- app_assoc.
  rewrite Decode_Encode by done. cbn [mbind outcome_bind].
  rewrite zlen_to_nat, drop_app_length, Decode_Encode by done.
  cbn [mbind outcome_bind]. rewrite zlen_app. by destruct h.
Qed.

Lemma Height_ToBytes_compare (h h1 : Height) (a b : bytes) :
  Height_wf h -> Height_wf h1 ->
  bytes_compare (Height_ToBytes h ++ a) (Height_ToBytes h1 ++ b) =
    match height_compare h h1 with Eq => bytes_compare a b | c => c end.
Proof.
  intros [Hb Ht] [Hb1 Ht1]. unfold Height_ToBytes, height_compare. rewrite <- !app_assoc.
  rewrite Encode_compare_app by done. destruct (BlockNum h ?= BlockNum h1); try done.
  by apply Encode_compare_app.
Qed.

(** The encoding is used through the lemmas above. *)
(** ** Properties *)

(** Encoded heights sort like heights, a height is read back from its encoding,
    whatever follows it. *)
Theorem height_encoding_ordered (h h1 : Height) (a b : bytes) :
  Height_wf h -> Height_wf h1 ->
  bytes_compare (Height_ToBytes h ++ a) (Height_ToBytes h1 ++ b) =
    match height_compare h h1 with Eq => bytes_compare a b | c => c end /\
  NewHeightFromBytes (Height_ToBytes h ++ a) = Ret (h, zlen (Height_ToBytes h)).
Proof. intros Hh Hh1. split; [by apply Height_ToBytes_compare|by apply NewHeightFromBytes_ToBytes]. Qed.

Lemma height_encoding_ordered_witness :
  bytes_compare (Height_ToBytes (mkHeight 255 7)) (Height_ToBytes (mkHeight 256 0)) = Lt /\
  NewHeightFromBytes (Height_ToBytes (mkHeight 255 7)) = Ret (mkHeight 255 7, 4).
Proof.
  destruct (height_encoding_ordered (mkHeight 255 7) (mkHeight 256 0) [] []) as [H1 H2].
  - split; split; discriminate || reflexivity.
  - split; split; discriminate || reflexivity.
  - rewrite !app_nil_r in *. split; [exact H1|exact H2].
Defined.

(** [Compare] is the lexicographic order as long as the numbers are below 2^63
    (it subtracts as unsigned and looks at the sign). *)
Theorem height_compare_lexicographic (h h1 : Height) :
  0 <= BlockNum h < 2 ^ 63 -> 0 <= BlockNum h1 < 2 ^ 63 -> 0 <= TxNum h < 2 ^ 63 -> 0 <= TxNum h1 < 2 ^ 63 ->
  Height_Compare h h1 = match height_compare h h1 with Lt => -1 | Eq => 0 | Gt => 1 end /\
  (AreSame (Some h) (Some h1) = true <-> h = h1).
Proof.
  intros. split; [by apply Height_Compare_spec|]. rewrite AreSame_eq. split; congruence.
Qed.

Lemma height_compare_lexicographic_witness : Height_Compare (mkHeight 4 9) (mkHeight 5 0) = -1.
Proof. apply height_compare_lexicographic; split; discriminate || reflexivity. Defined.

#[global] Opaque EncodeOrderPreservingVarUint64.
