(* ===== verification/Sha256.v ===== *)
(** * SHA-256 (Go's crypto/sha256), executable

    The Go standard library's hash, as the code calls it: [Sum256] of a byte
    string, and [New]/[Write]*/[Sum] which hashes the concatenation of the
    writes.  Words are 32-bit integers in [Z]. *)

From S2P Require Import Prelude OrderedCode.

Definition w32 (z : Z) : Z := Z.land z 0xffffffff.
Definition rotr (n x : Z) : Z := Z.lor (Z.shiftr x n) (w32 (Z.shiftl x (32 - n))).

(** The round constants and the initial state are the first 32 bits of the
    fractional parts of the cube roots of the first 64 primes and of the square
    roots of the first eight; [Z.sqrt] and the bisection below compute them. *)
Definition prime (n : Z) : bool :=
  (1 <? n) && forallb (fun d => negb (n mod Z.of_nat d =? 0)) (seq 2 (Z.to_nat n - 2)).

Definition primes : list Z := Eval vm_compute in filter prime (Z.of_nat <$> seq 0 312).

Fixpoint cbrt_bits (bits : nat) (root n : Z) : Z :=
  match bits with
  | O => root
  | S k =>
      let next := root + 2 ^ Z.of_nat k in
      cbrt_bits k (if next * next * next <=? n then next else root) n
  end.

Definition sha_K : list Z :=
  Eval vm_compute in (fun p => w32 (cbrt_bits 36 0 (p * 2 ^ 96))) <$> primes.

Definition sha_H0 : list Z :=
  Eval vm_compute in (fun p => w32 (Z.sqrt (p * 2 ^ 64))) <$> take 8 primes.

(** The message schedule, over a window of the last sixteen words. *)
Fixpoint sha_schedule (rounds : nat) (w : list Z) : list Z :=
  match rounds with
  | O => []
  | S k =>
      match w with
      | w0 :: w' =>
          let w1 := nth 0 w' 0 in
          let w9 := nth 8 w' 0 in
          let w14 := nth 13 w' 0 in
          let s0 := Z.lxor (Z.lxor (rotr 7 w1) (rotr 18 w1)) (Z.shiftr w1 3) in
          let s1 := Z.lxor (Z.lxor (rotr 17 w14) (rotr 19 w14)) (Z.shiftr w14 10) in
          w0 :: sha_schedule k (w' ++ [w32 (w0 + s0 + w9 + s1)])
      | [] => []
      end
  end.

Definition sha_round (st : list Z) (kw : Z * Z) : list Z :=
  match st with
  | [a; b; c; d; e; f; g; h] =>
      let S1 := Z.lxor (Z.lxor (rotr 6 e) (rotr 11 e)) (rotr 25 e) in
      let ch := Z.lxor (Z.land e f) (Z.land (Z.lxor e 0xffffffff) g) in
      let t1 := h + S1 + ch + fst kw + snd kw in
      let S0 := Z.lxor (Z.lxor (rotr 2 a) (rotr 13 a)) (rotr 22 a) in
      let maj := Z.lxor (Z.lxor (Z.land a b) (Z.land a c)) (Z.land b c) in
      [w32 (t1 + S0 + maj); a; b; c; w32 (d + t1); e; f; g]
  | _ => st
  end.

Fixpoint words_of (l : bytes) : list Z :=
  match l with
  | a :: b :: c :: d :: l' => be_val [a; b; c; d] :: words_of l'
  | _ => []
  end.

Definition sha_block (st : list Z) (blk : bytes) : list Z :=
  let ws := sha_schedule 64 (words_of blk) in
  zip_with (fun x y => w32 (x + y)) st (fold_left sha_round (zip sha_K ws) st).

(** [0x80], zeros up to 56 modulo 64, the bit length on eight bytes. *)
Definition sha_pad (msg : bytes) : bytes :=
  let n := length msg in
  msg ++ Byte.x80 :: replicate ((119 - n mod 64) mod 64) Byte.x00 ++ be_bytes 8 (8 * Z.of_nat n).

Fixpoint sha_blocks (fuel : nat) (st : list Z) (l : bytes) : list Z :=
  match fuel with
  | O => st
  | S k => match l with [] => st | _ => sha_blocks k (sha_block st (take 64 l)) (drop 64 l) end
  end.

Definition Sum256 (msg : bytes) : bytes :=
  let l := sha_pad msg in
  mjoin (be_bytes 4 <$> sha_blocks (length l) sha_H0 l).

Example sha256_empty : be_val (Sum256 []) =
  0xe3b0c44298fc1c149afbf4c8996fb92427ae41e4649b934ca495991b7852b855.
Proof. vm_compute. reflexivity. Qed.

Example sha256_abc : be_val (Sum256 (str "abc")) =
  0xba7816bf8f01cfea414140de5dae2223b00361a396177a9cb410ff61f20015ad.
Proof. vm_compute. reflexivity. Qed.

(** Two blocks of input. *)
Example sha256_448 : be_val (Sum256 (str "abcdbcdecdefdefgefghfghighijhijkijkljklmklmnlmnomnopnopq")) =
  0x248d6a61d20638b8e5c026930c3e6039a33ce45964ff2167f6ecedd419db06c1.
Proof. vm_compute. reflexivity. Qed.

Lemma sha_round_length (st : list Z) (kw : Z * Z) : length (sha_round st kw) = length st.
Proof. unfold sha_round. by repeat case_match. Qed.

Lemma sha_block_length (st : list Z) (blk : bytes) : length (sha_block st blk) = length st.
Proof.
  unfold sha_block. rewrite length_zip_with.
  assert (E : forall kws s, length (fold_left sha_round kws s) = length s).
  { induction kws as [|kw kws IH]; intros s; simpl; [done|]. by rewrite IH, sha_round_length. }
  rewrite E. lia.
Qed.

Lemma sha_blocks_length (k : nat) (st : list Z) (l : bytes) : length (sha_blocks k st l) = length st.
Proof.
  revert st l. induction k as [|k IH]; intros st l; simpl; [done|].
  destruct l; [done|]. by rewrite IH, sha_block_length.
Qed.

(** Every digest has 32 bytes. *)
Lemma Sum256_length (msg : bytes) : length (Sum256 msg) = 32%nat.
Proof.
  unfold Sum256. cbv zeta.
  assert (E : forall ws : list Z, length (mjoin (be_bytes 4 <$> ws)) = (4 * length ws)%nat).
  { induction ws as [|w ws IH]; [done|].
    change (mjoin (be_bytes 4 <$> w :: ws)) with (be_bytes 4 w ++ mjoin (be_bytes 4 <$> ws)).
    rewrite length_app, be_bytes_length, IH. cbn [length]. lia. }
  rewrite E, sha_blocks_length. done.
Qed.

#[global] Arguments Sum256 : simpl never.
