(* ===== verification/ModExp.v ===== *)
(** * Modular exponentiation on native words

    The modular power of math/big's [Int.Exp], computed with the Bignums
    library so that 256-bit exponentiations evaluate, and its meaning in [Z]. *)

From Stdlib Require Import ZArith Zpow_facts Lia.
From Bignums Require Import BigN.

(** Square and multiply, on the bits of the exponent. *)
Fixpoint pow_mod_pos (a : BigN.t) (e : positive) (n : BigN.t) : BigN.t :=
  match e with
  | xH => BigN.modulo a n
  | xO e' => let z := pow_mod_pos a e' n in BigN.modulo (BigN.mul z z) n
  | xI e' => let z := pow_mod_pos a e' n in BigN.modulo (BigN.mul (BigN.mul z z) a) n
  end.

(** [pow_mod x y m] for a positive modulus and a non-negative exponent. *)
Definition pow_mod (x y m : Z) : Z :=
  match y with
  | Zpos e => BigN.to_Z (pow_mod_pos (BigN.of_N (Z.to_N (x mod m)%Z)) e (BigN.of_N (Z.to_N m)))
  | _ => (1 mod m)%Z
  end.

Local Open Scope Z_scope.

Lemma pow_mod_pos_spec (a : BigN.t) (e : positive) (n : BigN.t) :
  BigN.to_Z (pow_mod_pos a e n) = BigN.to_Z a ^ Zpos e mod BigN.to_Z n.
Proof.
  induction e as [e IH|e IH|]; cbn [pow_mod_pos];
    rewrite BigN.spec_modulo, ?BigN.spec_mul, ?IH.
  - rewrite Pos2Z.inj_xI, Z.pow_add_r, Z.pow_1_r, Z.pow_twice_r by lia.
    now rewrite <- Zmult_mod_idemp_l, <- Zmult_mod, Zmult_mod_idemp_l.
  - rewrite Pos2Z.inj_xO, Z.pow_twice_r. now rewrite <- Zmult_mod.
  - now rewrite Z.pow_1_r.
Qed.

Lemma pow_mod_spec (x y m : Z) : 0 < m -> 0 <= y -> pow_mod x y m = x ^ y mod m.
Proof.
  intros Hm Hy. unfold pow_mod. destruct y as [|e|e]; [reflexivity| |lia].
  rewrite pow_mod_pos_spec, !BigN.spec_of_N.
  pose proof (Z.mod_pos_bound x m Hm).
  rewrite !Z2N.id by lia. symmetry. apply Zpower_mod. lia.
Qed.
