(* ===== verification/GoBig.v ===== *)
(** * Go's math/big integers and decimal/hexadecimal text

    The part of math/big, fmt and strconv the chameleon hash and the auxiliary
    text files of the ledger use.  A [*big.Int] is a [Z]. *)

From S2P Require Import Prelude OrderedCode ModExp.
From Stdlib Require Import Zpow_facts Zcong.

(** ** Digits *)

Definition digitVal (b : byte) : Z :=
  let c := b2z b in
  if (48 <=? c) && (c <=? 57) then c - 48
  else if (97 <=? c) && (c <=? 122) then c - 97 + 10
  else if (65 <=? c) && (c <=? 90) then c - 65 + 10
  else 255.

Definition hexDigit (d : Z) : byte := z2b (if d <? 10 then 48 + d else 97 + (d - 10)).

(** The digits of [n] in base [base], most significant first; [fuel] bounds
    their number ([S (log2 n)] digits are enough in any base above one). *)
Fixpoint digits_loop (fuel : nat) (base n : Z) (acc : bytes) : bytes :=
  match fuel with
  | O => acc
  | S k =>
      let acc' := hexDigit (n mod base) :: acc in
      if n / base =? 0 then acc' else digits_loop k base (n / base) acc'
  end.

Definition digits (base n : Z) : bytes := digits_loop (S (Z.to_nat (Z.log2 n))) base n [].

(** [fmt.Sprintf("%x", n)] of a [*big.Int]. *)
Definition Sprintf_x (n : Z) : bytes :=
  if n <? 0 then str "-" ++ digits 16 (- n) else digits 16 n.

(** [strconv.FormatUint(n, 10)] and [strconv.Itoa]. *)
Definition FormatUint (n : Z) : bytes := digits 10 n.
Definition Itoa (n : Z) : bytes := if n <? 0 then str "-" ++ digits 10 (- n) else digits 10 n.

(** The longest prefix of digits of [s] in [base], accumulated as [nat.scan]. *)
Fixpoint scan_digits (base acc : Z) (s : bytes) : Z * bytes :=
  match s with
  | [] => (acc, [])
  | b :: s' => if digitVal b <? base then scan_digits base (acc * base + digitVal b) s' else (acc, s)
  end.

(** [z.SetString(s, 16)] on a fresh [z]; the code discards the result pair, so
    what matters is the value left in [z]: the sign and the digits scanned
    before the first other character, and zero when there are none (the scan of
    the empty string fails before [z] is touched). *)
Definition SetString16 (s : bytes) : Z :=
  match s with
  | [] => 0
  | b :: s' =>
      if bool_decide (b = Byte.x2d) then - fst (scan_digits 16 0 s')
      else if bool_decide (b = Byte.x2b) then fst (scan_digits 16 0 s')
      else fst (scan_digits 16 0 s)
  end.

(** [strconv.Atoi]: a decimal [int], with the syntax error for anything else.
    The callers use the returned value even when there is an error: zero for a
    syntax error. *)
Definition Atoi (s : bytes) : Z * option error :=
  let parse l :=
    match l with
    | [] => None
    | _ => match scan_digits 10 0 l with (n, []) => Some n | _ => None end
    end in
  let signed :=
    match s with
    | b :: s' =>
        if bool_decide (b = Byte.x2d) then Z.opp <$> parse s'
        else if bool_decide (b = Byte.x2b) then parse s'
        else parse s
    | [] => None
    end in
  match signed with
  | Some n =>
      if n <? - 2 ^ 63 then (- 2 ^ 63, Some (Errorf "value out of range"))
      else if 2 ^ 63 <=? n then (2 ^ 63 - 1, Some (Errorf "value out of range"))
      else (n, None)
  | None => (0, Some (Errorf "invalid syntax"))
  end.

(** ** Arithmetic *)

(** [z.Mod(x, y)]: Euclidean modulus, division by zero panics. *)
Definition big_Mod (x y : Z) : outcome Z :=
  if y =? 0 then Panic "division by zero" else Ret (x mod Z.abs y).

(** [z.Exp(x, y, m)] on a fresh [z]. *)
Definition big_Exp (x y m : Z) : Z :=
  if m =? 0 then (if y <=? 0 then 1 else x ^ y)
  else
    let m := Z.abs m in
    if 0 <=? y then pow_mod x y m
    else if Z.gcd x m =? 1 then pow_mod (Z.invmod x m) (- y) m
    else 0.

(** [z.Bytes()]: big-endian, no leading zero byte, empty for zero. *)
Fixpoint big_Bytes_loop (fuel : nat) (n : Z) (acc : bytes) : bytes :=
  match fuel with
  | O => acc
  | S k => if n =? 0 then acc else big_Bytes_loop k (n / 256) (z2b n :: acc)
  end.

Definition big_Bytes (n : Z) : bytes :=
  big_Bytes_loop (S (Z.to_nat (Z.log2 (Z.abs n)))) (Z.abs n) [].

(** [z.SetBytes(b)]. *)
Definition big_SetBytes (b : bytes) : Z := be_val b.

(** ** Lemmas *)

#[global] Arguments digits : simpl never.
#[global] Arguments big_Bytes : simpl never.

Lemma hexDigit_spec (d : Z) :
  0 <= d < 16 -> digitVal (hexDigit d) = d /\ hexDigit d <> Byte.x2d /\ hexDigit d <> Byte.x2b.
Proof.
  intros Hd. assert (Hc : d = 0 \/ d = 1 \/ d = 2 \/ d = 3 \/ d = 4 \/ d = 5 \/ d = 6 \/ d = 7 \/
    d = 8 \/ d = 9 \/ d = 10 \/ d = 11 \/ d = 12 \/ d = 13 \/ d = 14 \/ d = 15) by lia.
  repeat destruct Hc as [->|Hc]; subst; vm_compute; repeat split; congruence.
Qed.

(** A digit character of a base at most sixteen. *)
Definition is_digit (base : Z) (b : byte) : bool := digitVal b <? base.

Lemma digits_loop_app (fuel : nat) (base n : Z) (acc : bytes) :
  digits_loop fuel base n acc = digits_loop fuel base n [] ++ acc.
Proof.
  revert n acc. induction fuel as [|k IH]; intros n acc; simpl; [done|].
  destruct (n / base =? 0); [done|]. rewrite IH, (IH _ [_]), <- app_assoc. done.
Qed.

Lemma scan_digits_app (base acc : Z) (l rest : bytes) :
  forallb (is_digit base) l = true ->
  scan_digits base acc (l ++ rest) =
    scan_digits base (fold_left (fun a b => a * base + digitVal b) l acc) rest.
Proof.
  revert acc. induction l as [|b l IH]; intros acc; simpl; [done|].
  unfold is_digit at 1. destruct (digitVal b <? base); simpl; [apply IH|done].
Qed.

Lemma digits_loop_spec (fuel : nat) (base n : Z) :
  2 <= base <= 16 -> 0 <= n < 2 ^ Z.of_nat fuel -> (0 < fuel)%nat ->
  let l := digits_loop fuel base n [] in
  forallb (is_digit base) l = true /\ l <> [] /\
  fold_left (fun a b => a * base + digitVal b) l 0 = n.
Proof.
  intros Hb. revert n. induction fuel as [|k IH]; intros n Hn Hf; [lia|].
  cbv zeta. cbn [digits_loop].
  pose proof (Z.mod_pos_bound n base ltac:(lia)) as Hm.
  pose proof (Z.div_mod n base ltac:(lia)) as Hdm.
  destruct (hexDigit_spec (n mod base) ltac:(lia)) as (Hv & _ & _).
  assert (Hd : is_digit base (hexDigit (n mod base)) = true).
  { unfold is_digit. rewrite Hv. apply Z.ltb_lt. lia. }
  destruct (Z.eqb_spec (n / base) 0) as [E|E].
  - simpl. rewrite Hd, Hv. repeat split; [done|lia].
  - rewrite digits_loop_app.
    assert (Hq : 0 < n / base) by (pose proof (Z.div_pos n base); lia).
    destruct k as [|k]; [change (2 ^ Z.of_nat 1) with 2 in Hn; nia|].
    destruct (IH (n / base)) as (H1 & H2 & H3); [|lia|].
    { split; [lia|]. apply Z.div_lt_upper_bound; [lia|].
      rewrite Nat2Z.inj_succ, Z.pow_succ_r in Hn by lia. nia. }
    rewrite forallb_app, fold_left_app, H1, H3. simpl. rewrite Hd, Hv.
    repeat split; [|lia]. intros Hnil. by apply app_eq_nil in Hnil as [? ?].
Qed.

Lemma digits_spec (base n : Z) :
  2 <= base <= 16 -> 0 <= n ->
  forallb (is_digit base) (digits base n) = true /\ digits base n <> [] /\
  fold_left (fun a b => a * base + digitVal b) (digits base n) 0 = n.
Proof.
  intros Hb Hn. apply digits_loop_spec; [done| |lia].
  rewrite Nat2Z.inj_succ, Z2Nat.id by apply Z.log2_nonneg.
  destruct (Z.eq_dec n 0) as [->|Hne]; [done|].
  pose proof (Z.log2_spec n ltac:(lia)). lia.
Qed.

Lemma is_digit_not_sign (base : Z) (b : byte) :
  base <= 16 -> is_digit base b = true -> b <> Byte.x2d /\ b <> Byte.x2b.
Proof.
  intros Hb. unfold is_digit. intros Hd%Z.ltb_lt.
  split; intros ->; change (digitVal _) with 255 in Hd; lia.
Qed.

(** Printing a natural in hexadecimal and scanning it back. *)
Lemma SetString16_Sprintf_x (n : Z) : 0 <= n -> SetString16 (Sprintf_x n) = n.
Proof.
  intros Hn. unfold Sprintf_x. rewrite (proj2 (Z.ltb_ge n 0)) by lia.
  destruct (digits_spec 16 n ltac:(lia) Hn) as (H1 & H2 & H3).
  unfold SetString16. destruct (digits 16 n) as [|b l] eqn:E; [done|].
  assert (Hb : is_digit 16 b = true) by (simpl in H1; by apply andb_true_iff in H1 as [? _]).
  destruct (is_digit_not_sign 16 b ltac:(lia) Hb).
  rewrite !bool_decide_eq_false_2 by done.
  rewrite <- (app_nil_r (b :: l)), scan_digits_app, H3 by done. done.
Qed.

Lemma Atoi_Itoa (n : Z) : 0 <= n < 2 ^ 63 -> Atoi (FormatUint n) = (n, None).
Proof.
  intros Hn. unfold FormatUint.
  destruct (digits_spec 10 n ltac:(lia) ltac:(lia)) as (H1 & H2 & H3).
  unfold Atoi. destruct (digits 10 n) as [|b l] eqn:E; [done|].
  assert (Hb : is_digit 10 b = true) by (simpl in H1; by apply andb_true_iff in H1 as [? _]).
  destruct (is_digit_not_sign 10 b ltac:(lia) Hb).
  rewrite !bool_decide_eq_false_2 by done.
  rewrite <- (app_nil_r (b :: l)), scan_digits_app, H3 by done. cbn [scan_digits].
  rewrite (proj2 (Z.ltb_ge _ _)), (proj2 (Z.leb_gt _ _)) by lia. done.
Qed.

Lemma big_Bytes_loop_spec (fuel : nat) (n : Z) (acc : bytes) :
  0 <= n < 2 ^ Z.of_nat fuel ->
  be_val (big_Bytes_loop fuel n acc) = n * 256 ^ zlen acc + be_val acc.
Proof.
  assert (A : forall (l : bytes) b, be_val (b :: l) = b2z b * 256 ^ zlen l + be_val l).
  { induction l as [|c l IH] using rev_ind; intros b.
    - rewrite zlen_nil. pose proof (be_val_app [] b) as E. cbn [app] in E.
      rewrite E. change (be_val []) with 0. lia.
    - rewrite app_comm_cons, !be_val_app, IH, zlen_app. change (zlen [c]) with 1.
      rewrite Z.pow_add_r by (auto with hicert; lia). lia. }
  revert n acc. induction fuel as [|k IH]; intros n acc Hn.
  { simpl in *. assert (n = 0) as -> by lia. lia. }
  cbn [big_Bytes_loop]. destruct (Z.eqb_spec n 0) as [->|Hne]; [lia|].
  rewrite IH.
  - rewrite A, b2z_z2b, zlen_cons, Z.pow_add_r by (auto with hicert; lia).
    pose proof (Z.div_mod n 256). nia.
  - split; [apply Z.div_pos; lia|]. apply Z.div_lt_upper_bound; [lia|].
    rewrite Nat2Z.inj_succ, Z.pow_succ_r in Hn by lia. lia.
Qed.

Lemma big_SetBytes_Bytes (n : Z) : 0 <= n -> big_SetBytes (big_Bytes n) = n.
Proof.
  intros Hn. unfold big_SetBytes, big_Bytes. rewrite Z.abs_eq by lia.
  rewrite big_Bytes_loop_spec.
  - rewrite zlen_nil. unfold be_val. simpl. lia.
  - rewrite Nat2Z.inj_succ, Z2Nat.id by apply Z.log2_nonneg.
    destruct (Z.eq_dec n 0) as [->|Hne]; [done|].
    pose proof (Z.log2_spec n ltac:(lia)). lia.
Qed.

Lemma big_Exp_spec (x y m : Z) : 0 < m -> 0 <= y -> big_Exp x y m = x ^ y mod m.
Proof.
  intros Hm Hy. unfold big_Exp. rewrite (proj2 (Z.eqb_neq m 0)), Z.abs_eq by lia.
  rewrite (proj2 (Z.leb_le 0 y)) by done. by apply pow_mod_spec.
Qed.

Lemma be_val_nonneg (l : bytes) : 0 <= be_val l.
Proof.
  induction l as [|b l IH] using rev_ind; [done|].
  rewrite be_val_app. pose proof (b2z_range b). lia.
Qed.

Lemma digits_loop_length (fuel : nat) (base n : Z) : (length (digits_loop fuel base n []) <= fuel)%nat.
Proof.
  revert n. induction fuel as [|k IH]; intros n; [done|]. cbn [digits_loop].
  destruct (n / base =? 0); [simpl; lia|].
  rewrite digits_loop_app, length_app. simpl. specialize (IH (n / base)). lia.
Qed.

Lemma digits_length (base n b : Z) :
  0 <= n < 2 ^ b -> 0 < b -> Z.of_nat (length (digits base n)) <= b.
Proof.
  intros Hn Hb. unfold digits. pose proof (digits_loop_length (S (Z.to_nat (Z.log2 n))) base n).
  pose proof (Z.log2_nonneg n).
  assert (Z.log2 n < b); [|lia].
  destruct (Z.eq_dec n 0) as [->|]; [done|]. apply Z.log2_lt_pow2; lia.
Qed.

(** Digits are never line breaks or separators. *)
Lemma digits_no_newline (base n : Z) :
  2 <= base <= 16 -> 0 <= n -> Byte.x0a ∉ digits base n.
Proof.
  intros Hb Hn Hin. destruct (digits_spec base n Hb Hn) as (H & _).
  rewrite forallb_forall in H. apply list_elem_of_In in Hin. specialize (H _ Hin).
  unfold is_digit in H. apply Z.ltb_lt in H. change (digitVal Byte.x0a) with 255 in H. lia.
Qed.

Lemma Sprintf_x_line (n b : Z) :
  0 <= n < 2 ^ b -> 0 < b ->
  Byte.x0a ∉ Sprintf_x n /\ Z.of_nat (length (Sprintf_x n)) <= b.
Proof.
  intros Hn Hb. unfold Sprintf_x. rewrite (proj2 (Z.ltb_ge _ _)) by lia.
  split; [apply digits_no_newline; lia | by apply digits_length].
Qed.

Lemma big_Bytes_inj (n m : Z) : 0 <= n -> 0 <= m -> big_Bytes n = big_Bytes m -> n = m.
Proof.
  intros Hn Hm E. rewrite <- (big_SetBytes_Bytes n), <- (big_SetBytes_Bytes m) by done. by rewrite E.
Qed.

Lemma big_Bytes_length (n b : Z) : 0 <= n < 2 ^ b -> 0 < b -> zlen (big_Bytes n) <= b.
Proof.
  assert (A : forall fuel n acc, (length (big_Bytes_loop fuel n acc) <= fuel + length acc)%nat).
  { induction fuel as [|k IH]; intros z acc; cbn [big_Bytes_loop]; [lia|].
    destruct (z =? 0); [lia|]. specialize (IH (z / 256) (z2b z :: acc)). simpl in IH. lia. }
  intros Hn Hb. unfold big_Bytes. rewrite Z.abs_eq by lia.
  pose proof (A (S (Z.to_nat (Z.log2 n))) n []) as L. unfold zlen in *. simpl length in L at 2.
  pose proof (Z.log2_nonneg n).
  assert (Z.log2 n < b); [|lia].
  destruct (Z.eq_dec n 0) as [->|]; [done|]. apply Z.log2_lt_pow2; lia.
Qed.
