(* ===== verification/GoOS.v ===== *)
(** * Files, lines and strings (Go's os, bufio and strings packages)

    The part of the standard library the ledger's file handling uses, over an
    explicit file system: the regular files with their contents, and the set of
    existing directories. *)

From S2P Require Import Prelude OrderedCode GoBig.

Record Fs := mkFs { files : gmap bytes bytes; dirs : gset bytes }.

Definition set_file (path content : bytes) (fs : Fs) : Fs :=
  {| files := <[path := content]> (files fs); dirs := dirs fs |}.

Definition remove_file (path : bytes) (fs : Fs) : Fs :=
  {| files := delete path (files fs); dirs := dirs fs |}.

(** Everything before the last '/' of a path. *)
Fixpoint dirname_rev (l : bytes) : bytes :=
  match l with
  | [] => []
  | b :: l' => if bool_decide (b = Byte.x2f) then l' else dirname_rev l'
  end.

Definition dirname (path : bytes) : bytes := reverse (dirname_rev (reverse path)).

(** [os.Stat] succeeds. *)
Definition path_exists (path : bytes) (fs : Fs) : bool :=
  bool_decide (is_Some (files fs !! path)) || bool_decide (path ∈ dirs fs).

(** [os.OpenFile] with [O_CREATE]: the file exists or its directory does, and
    the path is not itself a directory. *)
Definition can_create (path : bytes) (fs : Fs) : bool :=
  negb (bool_decide (path ∈ dirs fs)) &&
  (bool_decide (is_Some (files fs !! path)) || bool_decide (dirname path ∈ dirs fs)).

Definition file_content (path : bytes) (fs : Fs) : bytes := default [] (files fs !! path).

(** [f.WriteAt(b, off)] on the content of [f]: a hole is filled with zeros. *)
Definition write_at (content b : bytes) (off : nat) : bytes :=
  take off content ++ replicate (off - length content) Byte.x00 ++ b
    ++ drop (off + length b) content.

(** A handle opened with [O_CREATE|O_APPEND] and the writes made through it.  The
    code prints a message when the open fails and goes on with a nil handle,
    whose writes fail without effect. *)
Definition append_file (path b : bytes) (fs : Fs) : Fs :=
  if can_create path fs then set_file path (file_content path fs ++ b) fs else fs.

(** A handle opened with [O_CREATE|O_RDWR] (no truncation): the writes start at
    offset zero and overwrite. *)
Definition overwrite_file (path b : bytes) (fs : Fs) : Fs :=
  if can_create path fs then set_file path (write_at (file_content path fs) b 0) fs else fs.

(** ** bufio *)

Definition bufio_size : nat := 4096.

(** The bytes before the first newline among the first [n], and what follows it. *)
Fixpoint split_newline (n : nat) (l : bytes) : option (bytes * bytes) :=
  match n, l with
  | S n', b :: l' =>
      if bool_decide (b = Byte.x0a) then Some ([], l')
      else '(x, y) ← split_newline n' l'; Some (b :: x, y)
  | _, _ => None
  end.

Definition drop_cr (l : bytes) : bytes :=
  match last l with
  | Some b => if bool_decide (b = Byte.x0d) then take (length l - 1) l else l
  | None => l
  end.

(** [(b *Reader) ReadLine] on the unread bytes: [None] is [io.EOF].  A line longer
    than the buffer comes back in pieces (the callers ignore [isPrefix]). *)
Definition ReadLine (l : bytes) : option (bytes * bytes) :=
  match l with
  | [] => None
  | _ =>
      match split_newline bufio_size l with
      | Some (line, rest) => Some (drop_cr line, rest)
      | None =>
          if (length l <? bufio_size)%nat then Some (l, [])
          else
            let line := drop_cr (take bufio_size l) in
            Some (line, drop (length line) l)
      end
  end.

(** [ReadLine] until it returns an error; every call consumes a byte, so the
    length of the input bounds the number of calls. *)
Fixpoint ReadLines (fuel : nat) (l : bytes) : list bytes :=
  match fuel with
  | O => []
  | S k => match ReadLine l with Some (line, rest) => line :: ReadLines k rest | None => [] end
  end.

Definition read_lines (content : bytes) : list bytes := ReadLines (S (length content)) content.

(** ** strings *)

(** [l] with the prefix [p] removed. *)
Fixpoint strip_prefix (p l : bytes) : option bytes :=
  match p, l with
  | [], _ => Some l
  | x :: p', y :: l' => if bool_decide (x = y) then strip_prefix p' l' else None
  | _ :: _, [] => None
  end.

(** The bytes before the first occurrence of [sep] in [l], and after it. *)
Fixpoint cut (sep l : bytes) : option (bytes * bytes) :=
  match strip_prefix sep l with
  | Some rest => Some ([], rest)
  | None =>
      match l with
      | [] => None
      | b :: l' => '(x, y) ← cut sep l'; Some (b :: x, y)
      end
  end.

(** [strings.Split(s, sep)] for a non-empty separator. *)
Fixpoint Split_loop (fuel : nat) (sep l : bytes) : list bytes :=
  match fuel with
  | O => [l]
  | S k => match cut sep l with Some (x, y) => x :: Split_loop k sep y | None => [l] end
  end.

Definition Split (l sep : bytes) : list bytes := Split_loop (length l) sep l.

(** [strings.Replace(s, old, new, 1)]: the first occurrence ([old] empty matches
    at the start). *)
Definition Replace1 (s old new : bytes) : bytes :=
  match cut old s with
  | Some (x, y) => x ++ new ++ y
  | None => s
  end.

(** ** Lemmas *)

Lemma write_at_length (content b : bytes) (off : nat) :
  (off + length b <= length content)%nat -> length (write_at content b off) = length content.
Proof.
  intros H. unfold write_at. rewrite !length_app, length_take, length_replicate, length_drop. lia.
Qed.

Lemma write_at_end (content b : bytes) : write_at content b (length content) = content ++ b.
Proof.
  unfold write_at. rewrite take_ge, Nat.sub_diag, drop_ge, app_nil_r by lia. done.
Qed.

Lemma write_at_app (pre old post b : bytes) :
  length b = length old -> write_at (pre ++ old ++ post) b (length pre) = pre ++ b ++ post.
Proof.
  intros Hb. unfold write_at. rewrite take_app_length, Hb.
  rewrite length_app, (proj2 (Nat.sub_0_le _ _)) by lia. cbn [replicate app].
  rewrite <- drop_drop, drop_app_length, drop_app_length. done.
Qed.

Lemma take_write_at (content b : bytes) (off : nat) :
  (off <= length content)%nat -> take off (write_at content b off) = take off content.
Proof.
  intros H. unfold write_at. rewrite take_app_le by (rewrite length_take; lia).
  by rewrite take_take, Nat.min_id.
Qed.

(** *** Files *)

Lemma file_content_Some (path c : bytes) (fs : Fs) :
  files fs !! path = Some c -> file_content path fs = c.
Proof. unfold file_content. by intros ->. Qed.

Lemma file_content_None (path : bytes) (fs : Fs) :
  files fs !! path = None -> file_content path fs = [].
Proof. unfold file_content. by intros ->. Qed.

Lemma path_exists_file (path c : bytes) (fs : Fs) :
  files fs !! path = Some c -> path_exists path fs = true.
Proof. unfold path_exists. intros ->. by rewrite bool_decide_eq_true_2 by eauto. Qed.

Lemma path_exists_false (path : bytes) (fs : Fs) :
  path_exists path fs = false <-> files fs !! path = None /\ path ∉ dirs fs.
Proof.
  unfold path_exists. rewrite orb_false_iff, !bool_decide_eq_false, eq_None_not_Some. done.
Qed.

Lemma can_create_file (path c : bytes) (fs : Fs) :
  files fs !! path = Some c -> path ∉ dirs fs -> can_create path fs = true.
Proof.
  unfold can_create. intros -> Hd.
  by rewrite bool_decide_eq_false_2, bool_decide_eq_true_2 by eauto.
Qed.

Lemma can_create_new (path : bytes) (fs : Fs) :
  files fs !! path = None -> path ∉ dirs fs ->
  can_create path fs = bool_decide (dirname path ∈ dirs fs).
Proof.
  unfold can_create. intros -> Hd. rewrite bool_decide_eq_false_2 by done.
  by rewrite (bool_decide_eq_false_2 (is_Some None)) by (by intros [? [=]]).
Qed.

Lemma append_file_existing (path c b : bytes) (fs : Fs) :
  files fs !! path = Some c -> path ∉ dirs fs ->
  append_file path b fs = set_file path (c ++ b) fs.
Proof.
  intros Hc Hd. unfold append_file. rewrite (can_create_file _ c) by done.
  by rewrite (file_content_Some _ c).
Qed.

Lemma append_file_new (path b : bytes) (fs : Fs) :
  files fs !! path = None -> path ∉ dirs fs ->
  append_file path b fs = if bool_decide (dirname path ∈ dirs fs) then set_file path b fs else fs.
Proof.
  intros Hc Hd. unfold append_file. rewrite can_create_new, file_content_None by done. done.
Qed.

Lemma overwrite_file_existing (path c b : bytes) (fs : Fs) :
  files fs !! path = Some c -> path ∉ dirs fs ->
  overwrite_file path b fs = set_file path (b ++ drop (length b) c) fs.
Proof.
  intros Hc Hd. unfold overwrite_file. rewrite (can_create_file _ c) by done.
  rewrite (file_content_Some _ c) by done. done.
Qed.

Lemma lookup_set_file (path c : bytes) (fs : Fs) : files (set_file path c fs) !! path = Some c.
Proof. apply lookup_insert_eq. Qed.

Lemma lookup_set_file_ne (path path' c : bytes) (fs : Fs) :
  path <> path' -> files (set_file path c fs) !! path' = files fs !! path'.
Proof. intros. by apply lookup_insert_ne. Qed.

Lemma set_file_twice (path c c' : bytes) (fs : Fs) :
  set_file path c' (set_file path c fs) = set_file path c' fs.
Proof. unfold set_file. simpl. by rewrite insert_insert_eq. Qed.

Lemma split_newline_app (n : nat) (line rest : bytes) :
  Byte.x0a ∉ line -> (length line < n)%nat ->
  split_newline n (line ++ Byte.x0a :: rest) = Some (line, rest).
Proof.
  revert n. induction line as [|b line IH]; intros [|n] Hn Hlen; simpl in *; try lia; [done|].
  rewrite bool_decide_eq_false_2 by set_solver.
  rewrite IH; [done|set_solver|lia].
Qed.

(** A short line ended by CR LF is read back whole. *)
Lemma ReadLine_crlf (line rest : bytes) :
  Byte.x0a ∉ line -> (length line + 1 < bufio_size)%nat ->
  ReadLine (line ++ Byte.x0d :: Byte.x0a :: rest) = Some (line, rest).
Proof.
  intros Hn Hlen. unfold ReadLine.
  destruct (line ++ _) as [|b l] eqn:E; [by destruct line|]. rewrite <- E.
  change (Byte.x0d :: Byte.x0a :: rest) with ([Byte.x0d] ++ Byte.x0a :: rest).
  rewrite app_assoc, split_newline_app.
  - f_equal. f_equal. unfold drop_cr. rewrite last_snoc.
    rewrite bool_decide_eq_true_2 by done. rewrite length_app. simpl.
    rewrite Nat.add_sub, take_app_length. done.
  - set_solver.
  - rewrite length_app. simpl. lia.
Qed.
