(* ===== verification/LevelDB.v ===== *)
(** * The key-value store

    src/common/ledger/util/leveldbhelper: one physical LevelDB shared by named
    handles, each handle prefixing its keys with its name and a separator.  The
    goleveldb library underneath is a finite map with atomic batches and ordered
    iterators.  [handle_view] relates the physical store to the map a handle
    promises to its client; the clients (block index, block file manager) are
    written against that map. *)

From S2P Require Import Prelude OrderedCode.

(** ** goleveldb: a sorted map *)

Abbreviation kvmap := (gmap bytes bytes).

Definition bytes_le (a b : bytes) : Prop := bytes_leb a b = true.

#[global] Instance bytes_le_dec (a b : bytes) : Decision (bytes_le a b) :=
  decide (bytes_leb a b = true).

(** The limit of a range is exclusive; a nil limit is none. *)
Definition below (k : bytes) (limit : option bytes) : bool :=
  match limit with Some e => bytes_ltb k e | None => true end.

(** The keys of [start, limit), in order. *)
Definition range_keys {A} (db : gmap bytes A) (start : bytes) (limit : option bytes) : list bytes :=
  merge_sort bytes_le (filter (fun k => bytes_leb start k && below k limit = true) (elements (dom db))).

(** What an iterator over the range yields. *)
Definition range_scan {A} (db : gmap bytes A) (start : bytes) (limit : option bytes) : list (bytes * A) :=
  omap (fun k => pair k <$> db !! k) (range_keys db start limit).

(** A batch is the sequence of its updates ([None] deletes); writing it is atomic. *)
Definition batch := list (bytes * option bytes).

Definition apply_update (db : kvmap) (u : bytes * option bytes) : kvmap :=
  match snd u with
  | Some v => <[fst u := v]> db
  | None => delete (fst u) db
  end.

Definition DB_WriteBatch (b : batch) (db : kvmap) : kvmap := fold_left apply_update b db.

(** ** Named handles *)

Definition dbNameKeySep : byte := Byte.x00.
Definition lastKeyIndicator : byte := Byte.x01.
Definition maxBatchSize : Z := 1000000.
Definition internalDBName : bytes := str "_".
Definition formatVersionKey : bytes := str "f".

Definition constructLevelKey (dbName key : bytes) : bytes := dbName ++ dbNameKeySep :: key.

(** [bytes.SplitN(levelKey, dbNameKeySep, 2)[1]]. *)
Fixpoint retrieveAppKey (levelKey : bytes) : outcome bytes :=
  match levelKey with
  | [] => Panic "index out of range"
  | b :: rest => if bool_decide (b = dbNameKeySep) then Ret rest else retrieveAppKey rest
  end.

Definition Handle_Get (dbName : bytes) (db : kvmap) (key : bytes) : option bytes :=
  db !! constructLevelKey dbName key.

Definition Handle_Put (dbName : bytes) (key value : bytes) (db : kvmap) : kvmap :=
  <[constructLevelKey dbName key := value]> db.

Definition Handle_Delete (dbName : bytes) (key : bytes) (db : kvmap) : kvmap :=
  delete (constructLevelKey dbName key) db.

Definition UpdateBatch_Put (dbName key value : bytes) (b : batch) : batch :=
  b ++ [(constructLevelKey dbName key, Some value)].

Definition UpdateBatch_Delete (dbName key : bytes) (b : batch) : batch :=
  b ++ [(constructLevelKey dbName key, None)].

Definition Handle_WriteBatch (b : batch) (db : kvmap) : kvmap :=
  if (length b =? 0)%nat then db else DB_WriteBatch b db.

(** The physical range of an iterator; [None] is a nil key. *)
Definition iterator_range (dbName : bytes) (startKey endKey : option bytes) : bytes * bytes :=
  let sKey := constructLevelKey dbName (default [] startKey) in
  let eKey :=
    match endKey with
    | Some e => constructLevelKey dbName e
    | None => dbName ++ [lastKeyIndicator]
    end in
  (sKey, eKey).

(** The raw (level) keys an iterator of the handle visits, and what [Key] and
    [Value] return on the way. *)
Definition Handle_GetIterator (dbName : bytes) (db : kvmap) (startKey endKey : option bytes) :
    list (bytes * bytes) :=
  let '(sKey, eKey) := iterator_range dbName startKey endKey in range_scan db sKey (Some eKey).

Fixpoint iterate (l : list (bytes * bytes)) : outcome (list (bytes * bytes)) :=
  match l with
  | [] => Ret []
  | (k, v) :: l' =>
      key ← retrieveAppKey k;
      rest ← iterate l';
      Ret ((key, v) :: rest)
  end.

Definition Handle_IsEmpty (dbName : bytes) (db : kvmap) : bool :=
  match Handle_GetIterator dbName db None None with [] => true | _ => false end.

(** The loop of [deleteAll]: the iterator works on a snapshot; the batch is
    written whenever the bytes of its keys reach [maxBatchSize], and at the end. *)
Fixpoint deleteAll_loop (l : list (bytes * bytes)) (b : batch) (batchSize : Z) (db : kvmap) : kvmap :=
  match l with
  | [] => if (0 <? length b)%nat then DB_WriteBatch b db else db
  | (key, _) :: l' =>
      let batchSize := batchSize + zlen key in
      let b := b ++ [(key, None)] in
      if maxBatchSize <=? batchSize then deleteAll_loop l' [] 0 (DB_WriteBatch b db)
      else deleteAll_loop l' b batchSize db
  end.

Definition deleteAll (dbName : bytes) (db : kvmap) : kvmap :=
  deleteAll_loop (Handle_GetIterator dbName db None None) [] 0 db.

(** Opening: an empty database gets the expected format, any other must carry it
    (the nil value of a missing key reads as the empty string). *)
Definition openDBAndCheckFormat (ExpectedFormat : bytes) (db : kvmap) : outcome kvmap :=
  if bool_decide (db = ∅) && bool_decide (ExpectedFormat <> []) then
    Ret (Handle_Put internalDBName formatVersionKey ExpectedFormat db)
  else
    let formatVersion := default [] (Handle_Get internalDBName db formatVersionKey) in
    if bool_decide (formatVersion = ExpectedFormat) then Ret db
    else Err (Errorf "unexpected format").

(** ** The abstract map of a handle *)

Definition handle_view (dbName : bytes) (db m : kvmap) : Prop :=
  forall k, db !! constructLevelKey dbName k = m !! k.

Definition name_ok (dbName : bytes) : Prop := dbNameKeySep ∉ dbName.

(** ** The byte order *)

#[global] Instance bytes_le_trans : Transitive bytes_le.
Proof.
  intros a b c. unfold bytes_le, bytes_leb.
  destruct (bytes_compare a b) eqn:E1, (bytes_compare b c) eqn:E2; try done; intros _ _.
  - apply bytes_compare_eq in E1 as ->. by rewrite E2.
  - apply bytes_compare_eq in E1 as ->. by rewrite E2.
  - apply bytes_compare_eq in E2 as <-. by rewrite E1.
  - by rewrite (bytes_compare_lt_trans _ _ _ E1 E2).
Qed.

#[global] Instance bytes_le_total : Total bytes_le.
Proof.
  intros a b. unfold bytes_le, bytes_leb. rewrite (bytes_compare_antisym a b).
  destruct (bytes_compare a b); simpl; auto.
Qed.

#[global] Instance bytes_le_antisymm : AntiSymm (=) bytes_le.
Proof.
  intros a b. unfold bytes_le, bytes_leb. rewrite (bytes_compare_antisym a b).
  destruct (bytes_compare a b) eqn:E; simpl; try done. intros _ _. by apply bytes_compare_eq.
Qed.

Lemma bytes_leb_nil (l : bytes) : bytes_leb [] l = true.
Proof. by destruct l. Qed.

Lemma bytes_ltb_leb (a b : bytes) : bytes_ltb a b = negb (bytes_leb b a).
Proof.
  unfold bytes_ltb, bytes_leb. rewrite (bytes_compare_antisym a b). by destruct (bytes_compare a b).
Qed.

Lemma bytes_leb_app (p a b : bytes) : bytes_leb (p ++ a) (p ++ b) = bytes_leb a b.
Proof. unfold bytes_leb. by rewrite bytes_compare_app. Qed.

Lemma bytes_ltb_app (p a b : bytes) : bytes_ltb (p ++ a) (p ++ b) = bytes_ltb a b.
Proof. unfold bytes_ltb. by rewrite bytes_compare_app. Qed.

(** A string between two extensions of [p] extends [p]. *)
Lemma bytes_between (p a b x : bytes) :
  bytes_leb (p ++ a) x = true -> bytes_leb x (p ++ b) = true -> exists y, x = p ++ y.
Proof.
  revert x. induction p as [|c p IH]; intros x; [by exists x|].
  unfold bytes_leb in *. destruct x as [|d x]; simpl; [done|].
  rewrite (Z.compare_antisym (b2z c)). destruct (Z.compare_spec (b2z c) (b2z d)) as [E| |]; simpl; try done.
  intros H1 H2. apply b2z_inj in E as ->. destruct (IH x H1 H2) as [y ->]. by exists y.
Qed.

(** ** Range scans *)

Lemma range_keys_elem {A} (db : gmap bytes A) (s : bytes) (e : option bytes) (k : bytes) :
  k ∈ range_keys db s e <-> is_Some (db !! k) /\ bytes_leb s k = true /\ below k e = true.
Proof.
  unfold range_keys. rewrite merge_sort_Permutation, list_elem_of_filter, elem_of_elements, elem_of_dom.
  rewrite andb_true_iff. tauto.
Qed.

Lemma range_keys_NoDup {A} (db : gmap bytes A) (s : bytes) (e : option bytes) : NoDup (range_keys db s e).
Proof. unfold range_keys. rewrite merge_sort_Permutation. apply NoDup_filter, NoDup_elements. Qed.

Lemma range_keys_sorted {A} (db : gmap bytes A) (s : bytes) (e : option bytes) : StronglySorted bytes_le (range_keys db s e).
Proof. apply StronglySorted_merge_sort; apply _. Qed.

(** Two duplicate-free sorted lists with the same elements are equal. *)
Lemma sorted_ext (l1 l2 : list bytes) :
  StronglySorted bytes_le l1 -> StronglySorted bytes_le l2 -> NoDup l1 -> NoDup l2 ->
  (forall k, k ∈ l1 <-> k ∈ l2) -> l1 = l2.
Proof.
  intros S1 S2 N1 N2 H. apply (StronglySorted_unique bytes_le); [done|done|]. by apply NoDup_Permutation.
Qed.

Lemma range_scan_elem {A} (db : gmap bytes A) (s : bytes) (e : option bytes) (k : bytes) (v : A) :
  (k, v) ∈ range_scan db s e <-> db !! k = Some v /\ bytes_leb s k = true /\ below k e = true.
Proof.
  unfold range_scan. rewrite list_elem_of_omap. setoid_rewrite range_keys_elem. split.
  - intros (k' & (_ & H1 & H2) & E). destruct (db !! k') eqn:Ek; simplify_eq/=. done.
  - intros (Hk & H1 & H2). exists k. rewrite Hk. eauto.
Qed.

Lemma range_scan_keys {A} (db : gmap bytes A) (s : bytes) (e : option bytes) :
  (range_scan db s e).*1 = range_keys db s e.
Proof.
  unfold range_scan. assert (H : forall k, k ∈ range_keys db s e -> is_Some (db !! k)) by (intros k Hk; by apply range_keys_elem in Hk as [? _]).
  induction (range_keys db s e) as [|k ks IH]; [done|]. destruct (H k) as [v Hv]; [by left|].
  cbn [omap list_omap]. rewrite Hv. cbn [fmap option_fmap option_map list_fmap fst]. f_equal. apply IH.
  intros k' Hk'. apply H. by apply list_elem_of_further.
Qed.

(** The first item of a scan is the least key of the range. *)
Lemma range_scan_head {A} (db : gmap bytes A) (s : bytes) (e : option bytes) :
  match range_scan db s e with
  | [] => forall k, is_Some (db !! k) -> bytes_leb s k = true -> below k e = false
  | (k, v) :: _ =>
      db !! k = Some v /\ bytes_leb s k = true /\ below k e = true /\
      forall k', is_Some (db !! k') -> bytes_leb s k' = true -> below k' e = true -> bytes_leb k k' = true
  end.
Proof.
  pose proof (range_scan_elem db s e) as E. pose proof (range_keys_sorted db s e) as S.
  pose proof (range_keys_elem db s e) as EK. unfold range_scan in *.
  destruct (range_keys db s e) as [|k0 ks] eqn:Ek; cbn [omap list_omap] in *.
  - intros k Hk Hs. destruct (below k e) eqn:El; [|done].
    exfalso. by eapply not_elem_of_nil, (proj2 (EK k)).
  - destruct (proj1 (EK k0)) as (Hk0 & H1 & H2); [by left|].
    destruct Hk0 as [v0 Hv0]. rewrite Hv0 in *. cbn [fmap option_fmap option_map] in *.
    split; [done|]. split; [done|]. split; [done|]. intros k' Hk' H1' H2'.
    apply StronglySorted_inv in S as [_ S].
    pose proof (proj2 (EK k') (conj Hk' (conj H1' H2'))) as Hin.
    apply elem_of_cons in Hin as [->|Hin].
    + unfold bytes_leb. by rewrite bytes_compare_refl.
    + rewrite Forall_forall in S. by apply S.
Qed.

(** ** Refinement: a handle is a map of its own *)

Lemma constructLevelKey_inj (n k k' : bytes) :
  constructLevelKey n k = constructLevelKey n k' -> k = k'.
Proof. unfold constructLevelKey. intros H. by simplify_list_eq. Qed.

#[global] Instance constructLevelKey_Inj (n : bytes) : Inj (=) (=) (constructLevelKey n).
Proof. intros k k'. apply constructLevelKey_inj. Qed.

Lemma retrieveAppKey_construct (n k : bytes) :
  name_ok n -> retrieveAppKey (constructLevelKey n k) = Ret k.
Proof.
  unfold name_ok, constructLevelKey. induction n as [|b n IH]; intros Hn; cbn [app retrieveAppKey].
  - by rewrite bool_decide_eq_true_2.
  - rewrite not_elem_of_cons in Hn. destruct Hn as [Hb Hn].
    rewrite bool_decide_eq_false_2 by congruence. by apply IH.
Qed.

Lemma constructLevelKey_names (n n' k k' : bytes) :
  name_ok n -> name_ok n' -> constructLevelKey n k = constructLevelKey n' k' -> n = n'.
Proof.
  unfold name_ok, constructLevelKey. revert n'. induction n as [|b n IH]; intros [|b' n'] Hn Hn' E; try done.
  - simplify_eq/=. by rewrite not_elem_of_cons in Hn'; destruct Hn'.
  - simplify_eq/=. by rewrite not_elem_of_cons in Hn; destruct Hn.
  - rewrite not_elem_of_cons in Hn, Hn'. simplify_eq/=. f_equal. apply IH; tauto.
Qed.

(** An update of a batch built through the handle. *)
Definition handle_updates (n : bytes) (b : batch) (us : batch) : Prop :=
  b = (fun u => (constructLevelKey n (fst u), snd u)) <$> us.

Lemma view_apply (n : bytes) (db m : kvmap) (u : bytes * option bytes) :
  handle_view n db m ->
  handle_view n (apply_update db (constructLevelKey n (fst u), snd u)) (apply_update m u).
Proof.
  intros Hv j. unfold apply_update. cbn [fst snd]. destruct (snd u) as [v|].
  - destruct (decide (j = fst u)) as [->|Hj]; [by rewrite !lookup_insert_eq|].
    rewrite !lookup_insert_ne; [done|congruence|]. by intros ?%constructLevelKey_inj.
  - destruct (decide (j = fst u)) as [->|Hj]; [by rewrite !lookup_delete_eq|].
    rewrite !lookup_delete_ne; [done|congruence|]. by intros ?%constructLevelKey_inj.
Qed.

Lemma view_write_batch (n : bytes) (us b : batch) (db m : kvmap) :
  handle_view n db m -> handle_updates n b us ->
  handle_view n (Handle_WriteBatch b db) (DB_WriteBatch us m).
Proof.
  intros Hv ->. unfold Handle_WriteBatch, DB_WriteBatch. rewrite length_fmap.
  destruct (length us =? 0)%nat eqn:E.
  - apply Nat.eqb_eq in E. apply length_zero_iff_nil in E as ->. done.
  - clear E. revert db m Hv. induction us as [|u us IH]; intros db m Hv; [done|].
    apply IH. by apply view_apply.
Qed.

Lemma write_batch_other (n n' : bytes) (us b : batch) (db : kvmap) (k : bytes) :
  handle_updates n b us -> name_ok n -> name_ok n' -> n <> n' ->
  Handle_WriteBatch b db !! constructLevelKey n' k = db !! constructLevelKey n' k.
Proof.
  intros -> Hn Hn' Hne. unfold Handle_WriteBatch, DB_WriteBatch. destruct (_ =? _)%nat; [done|].
  revert db. induction us as [|u us IH]; intros db; [done|]. cbn [fmap list_fmap fold_left].
  change (fold_left apply_update ((λ u0, (constructLevelKey n u0.1, u0.2)) <$> us)
    (apply_update db (constructLevelKey n u.1, u.2)) !! constructLevelKey n' k = db !! constructLevelKey n' k).
  rewrite IH. unfold apply_update. cbn [fst snd].
  assert (constructLevelKey n u.1 <> constructLevelKey n' k) by (intros E; by eapply Hne, constructLevelKey_names).
  destruct (snd u); [by rewrite lookup_insert_ne | by rewrite lookup_delete_ne].
Qed.

Lemma iterate_level (n : bytes) (l : list (bytes * bytes)) :
  name_ok n -> iterate ((fun kv => (constructLevelKey n (fst kv), snd kv)) <$> l) = Ret l.
Proof.
  intros Hn. induction l as [|[k v] l IH]; [done|]. cbn [fmap list_fmap iterate fst snd].
  rewrite retrieveAppKey_construct by done. cbn [mbind outcome_bind].
  change (iterate _) with (iterate ((λ kv : bytes * bytes, (constructLevelKey n kv.1, kv.2)) <$> l)).
  by rewrite IH.
Qed.

Lemma iterator_range_view (n : bytes) (s e : option bytes) (x : bytes) :
  let '(sk, ek) := iterator_range n s e in
  bytes_leb sk x = true -> bytes_ltb x ek = true ->
  exists k, x = constructLevelKey n k /\ bytes_leb (default [] s) k = true /\ below k e = true.
Proof.
  unfold iterator_range, constructLevelKey.
  assert (P : forall a b, n ++ dbNameKeySep :: a = (n ++ [dbNameKeySep]) ++ b <-> a = b).
  { intros a b. rewrite <- app_assoc. split; [|intros ->; done]. intros H. by simplify_list_eq. }
  intros H1 H2. rewrite bytes_ltb_leb in H2. apply negb_true_iff in H2.
  destruct e as [e|]; cbn [below].
  - destruct (bytes_between (n ++ [dbNameKeySep]) (default [] s) e x) as [y ->].
    + by rewrite <- app_assoc.
    + rewrite <- app_assoc. destruct (bytes_le_total (n ++ [dbNameKeySep] ++ e) x); [|done].
      unfold bytes_le in *. simpl in *. congruence.
    + exists y. rewrite <- app_assoc. split; [done|]. rewrite <- !app_assoc in *. simpl in *.
      rewrite (bytes_leb_app n) in H1, H2. rewrite bytes_ltb_leb.
      change (dbNameKeySep :: ?l) with ([dbNameKeySep] ++ l) in *. rewrite bytes_leb_app in H1, H2.
      by rewrite H1, H2.
  - destruct (bytes_between n (dbNameKeySep :: default [] s) [lastKeyIndicator] x H1) as [y ->].
    { destruct (bytes_le_total x (n ++ [lastKeyIndicator])) as [|H]; [done|]. unfold bytes_le in H. congruence. }
    rewrite bytes_leb_app in H1, H2. destruct y as [|c y]; [done|]. exists y.
    assert (c = dbNameKeySep) as ->.
    { unfold bytes_leb in H2. cbn [bytes_compare] in H2. apply b2z_inj. pose proof (b2z_range c).
      destruct (Z.compare_spec (b2z lastKeyIndicator) (b2z c)) as [E|E|E]; [by destruct y|done|].
      change (b2z lastKeyIndicator) with 1 in E. change (b2z dbNameKeySep) with 0. lia. }
    split; [done|]. change (dbNameKeySep :: ?l) with ([dbNameKeySep] ++ l) in H1. by rewrite bytes_leb_app in H1.
Qed.

Lemma iterator_range_in (n : bytes) (s e : option bytes) (k : bytes) :
  bytes_leb (default [] s) k = true -> below k e = true ->
  let '(sk, ek) := iterator_range n s e in
  bytes_leb sk (constructLevelKey n k) = true /\ bytes_ltb (constructLevelKey n k) ek = true.
Proof.
  intros H1 H2. unfold iterator_range, constructLevelKey.
  change (dbNameKeySep :: ?l) with ([dbNameKeySep] ++ l). split.
  - by rewrite !bytes_leb_app.
  - destruct e as [e|]; [by rewrite !bytes_ltb_app|]. rewrite bytes_ltb_app. done.
Qed.

(** An iterator of the handle yields the items of its map, in key order. *)
Lemma view_iterator (n : bytes) (db m : kvmap) (s e : option bytes) :
  handle_view n db m ->
  Handle_GetIterator n db s e =
    (fun kv => (constructLevelKey n (fst kv), snd kv)) <$> range_scan m (default [] s) e.
Proof.
  intros Hv. unfold Handle_GetIterator.
  pose proof (iterator_range_view n s e) as R. pose proof (fun k => iterator_range_in n s e k) as R'.
  destruct (iterator_range n s e) as [sk ek].
  assert (EK : range_keys db sk (Some ek) = constructLevelKey n <$> range_keys m (default [] s) e).
  { apply sorted_ext; [apply range_keys_sorted| |apply range_keys_NoDup| |].
    - pose proof (range_keys_sorted m (default [] s) e) as S. induction S as [|k ks S IH F]; [constructor|].
      constructor; [done|]. apply Forall_fmap. eapply Forall_impl; [exact F|]. intros x Hx.
      unfold bytes_le, constructLevelKey in *. simpl. rewrite bytes_leb_app.
      change (dbNameKeySep :: ?l) with ([dbNameKeySep] ++ l). by rewrite bytes_leb_app.
    - apply (NoDup_fmap_2 _). apply range_keys_NoDup.
    - intros x. rewrite range_keys_elem, list_elem_of_fmap. cbn [below]. split.
      + intros (Hx & H1 & H2). destruct (R x H1 H2) as (k & -> & G1 & G2). exists k. split; [done|].
        rewrite range_keys_elem. by rewrite <- (Hv k).
      + intros (k & -> & Hk). rewrite range_keys_elem in Hk. destruct Hk as (Hk & G1 & G2).
        destruct (R' k G1 G2) as [H1 H2]. rewrite (Hv k). done. }
  unfold range_scan. rewrite EK. clear EK. induction (range_keys m (default [] s) e) as [|k ks IH]; [done|].
  cbn [fmap list_fmap omap list_omap]. rewrite (Hv k).
  change (omap ?f (list_fmap _ _ ?g ks)) with (omap f (g <$> ks)).
  destruct (m !! k); cbn [fmap option_fmap option_map list_fmap fst snd]; [f_equal|]; apply IH.
Qed.

(** ** What a batch leaves at a key *)

Lemma write_batch_notin (b : batch) (db : kvmap) (k : bytes) :
  k ∉ b.*1 -> DB_WriteBatch b db !! k = db !! k.
Proof.
  unfold DB_WriteBatch. revert db. induction b as [|[k' o] b IH]; intros db Hk; [done|].
  cbn [fmap list_fmap fst] in Hk. rewrite not_elem_of_cons in Hk. destruct Hk as [Hne Hk].
  cbn [fold_left]. rewrite IH by done. unfold apply_update. cbn [fst snd].
  destruct o; [by rewrite lookup_insert_ne | by rewrite lookup_delete_ne].
Qed.

Lemma write_batch_in (b : batch) (db : kvmap) (k v : bytes) :
  NoDup b.*1 -> (k, Some v) ∈ b -> DB_WriteBatch b db !! k = Some v.
Proof.
  revert db. induction b as [|[k' o] b IH]; intros db Hn Hin; [by apply not_elem_of_nil in Hin|].
  cbn [fmap list_fmap fst] in Hn. apply NoDup_cons in Hn as [Hk Hn].
  apply elem_of_cons in Hin as [E|Hin].
  - injection E as -> <-. change (DB_WriteBatch b (apply_update db (k', Some v)) !! k' = Some v).
    rewrite write_batch_notin by done. apply lookup_insert_eq.
  - by apply IH.
Qed.

(** A batch whose updates of a key agree leaves that update. *)
Lemma write_batch_same (b : batch) (db : kvmap) (k : bytes) (o : option bytes) :
  (forall o', (k, o') ∈ b -> o' = o) -> (k, o) ∈ b -> DB_WriteBatch b db !! k = o.
Proof.
  revert db. induction b as [|[k' o'] b IH]; intros db Hs Hin; [by apply not_elem_of_nil in Hin|].
  change (DB_WriteBatch b (apply_update db (k', o')) !! k = o).
  destruct (decide (k ∈ b.*1)) as [Hk|Hk].
  - apply IH; [intros o'' Ho; apply Hs; by right|]. apply list_elem_of_fmap in Hk as ([k1 o1] & -> & Hk). cbn [fst] in *.
    by rewrite <- (Hs o1) by (by right).
  - rewrite write_batch_notin by done. apply elem_of_cons in Hin as [E|Hin].
    + injection E as <- <-. unfold apply_update. cbn [fst snd]. destruct o; [apply lookup_insert_eq|apply lookup_delete_eq].
    + exfalso. apply Hk, list_elem_of_fmap. by exists (k, o).
Qed.

(** ** Dropping a handle *)

Lemma delete_batch_lookup (keys : list bytes) (db : kvmap) (j : bytes) :
  DB_WriteBatch ((fun k => (k, None)) <$> keys) db !! j = if bool_decide (j ∈ keys) then None else db !! j.
Proof.
  unfold DB_WriteBatch. revert db. induction keys as [|k keys IH]; intros db; [done|].
  change (fold_left apply_update ((λ k0 : bytes, (k0, None)) <$> keys) (delete k db) !! j = 
    if bool_decide (j ∈ k :: keys) then None else db !! j).
  rewrite IH. destruct (decide (j = k)) as [->|Hne].
  - rewrite lookup_delete_eq, (bool_decide_eq_true_2 (k ∈ k :: keys)) by (by left). by destruct (bool_decide _).
  - rewrite lookup_delete_ne by done. erewrite bool_decide_ext; [done|]. rewrite elem_of_cons. naive_solver.
Qed.

Lemma deleteAll_loop_lookup (l : list (bytes * bytes)) :
  forall keys size db j,
  deleteAll_loop l ((fun k => (k, None)) <$> keys) size db !! j =
    if bool_decide (j ∈ keys ++ l.*1) then None else db !! j.
Proof.
  induction l as [|[k v] l IH]; intros keys size db j; cbn [deleteAll_loop].
  - cbn [fmap list_fmap]. rewrite app_nil_r. destruct keys as [|k0 keys]; [done|].
    rewrite length_fmap. apply (delete_batch_lookup (k0 :: keys)).
  - assert (Eb : ((fun k => (k, None)) <$> keys) ++ [(k, None)] = (fun k => (k, @None bytes)) <$> (keys ++ [k]))
      by (by rewrite fmap_app).
    rewrite Eb. change ((((k, v) :: l).*1)) with (k :: l.*1).
    destruct (maxBatchSize <=? _).
    + rewrite (IH [] 0). rewrite delete_batch_lookup. cbn [app].
      destruct (decide (j ∈ l.*1)) as [Hl|Hl].
      * rewrite (bool_decide_eq_true_2 (j ∈ l.*1)) by done.
        rewrite bool_decide_eq_true_2; [done|]. apply elem_of_app. right. by right.
      * rewrite (bool_decide_eq_false_2 (j ∈ l.*1)) by done.
        erewrite bool_decide_ext; [done|]. set_solver.
    + rewrite IH. erewrite bool_decide_ext; [done|].
      set_solver.
Qed.

(** Dropping a handle leaves it empty and touches no other. *)
Lemma deleteAll_view (n n' : bytes) (db m m' : kvmap) :
  handle_view n db m -> handle_view n' db m' -> name_ok n -> name_ok n' -> n <> n' ->
  handle_view n (deleteAll n db) ∅ /\ handle_view n' (deleteAll n db) m'.
Proof.
  intros Hv Hv' Hn Hn' Hne. unfold deleteAll.
  assert (EL : forall j, deleteAll_loop (Handle_GetIterator n db None None) [] 0 db !! j =
    if bool_decide (j ∈ (Handle_GetIterator n db None None).*1) then None else db !! j)
    by (intros j; apply (deleteAll_loop_lookup _ [])).
  rewrite (view_iterator n db m None None Hv) in *.
  split; intros k; rewrite EL.
  - rewrite lookup_empty. destruct (m !! k) as [v|] eqn:Ek.
    + rewrite bool_decide_eq_true_2; [done|].
      apply list_elem_of_fmap. exists (constructLevelKey n k, v). split; [done|].
      apply list_elem_of_fmap. exists (k, v). split; [done|]. apply range_scan_elem. by destruct k.
    + rewrite (Hv k), Ek. by destruct (bool_decide _).
  - rewrite bool_decide_eq_false_2; [done|]. intros Hin.
    apply list_elem_of_fmap in Hin as ([x v] & E1 & Hin). apply list_elem_of_fmap in Hin as ([y w] & E2 & _).
    cbn [fst snd] in *. injection E2 as -> ->. by eapply Hne, constructLevelKey_names.
Qed.

(** ** Properties *)

Definition prefixed (n : bytes) (us : batch) : batch := (fun u => (constructLevelKey n (fst u), snd u)) <$> us.

(** A handle of the shared database is a map of its own: reads, batches and range
    iterators (which strip the handle's prefix) do what they do on its map, and a
    write through one handle does not show through another. *)
Theorem handle_refines_map (n n' : bytes) (db m m' : kvmap) :
  handle_view n db m -> handle_view n' db m' -> name_ok n -> name_ok n' -> n <> n' ->
  (forall k, Handle_Get n db k = m !! k) /\
  (forall us, handle_view n (Handle_WriteBatch (prefixed n us) db) (DB_WriteBatch us m) /\
              handle_view n' (Handle_WriteBatch (prefixed n us) db) m') /\
  (forall s e, iterate (Handle_GetIterator n db s e) = Ret (range_scan m (default [] s) e)).
Proof.
  intros Hv Hv' Hn Hn' Hne. split; [done|]. split.
  - intros us. split; [by apply view_write_batch|]. intros k. rewrite (write_batch_other n n' us); [apply Hv'|done..].
  - intros s e. rewrite (view_iterator n db m s e Hv). apply iterate_level, Hn.
Qed.

(** Two handles with the same key. *)
Definition two_handles : kvmap :=
  Handle_Put (str "a") (str "k") (str "v") (Handle_Put (str "b") (str "k") (str "w") ∅).

Lemma two_handles_a : handle_view (str "a") two_handles {[str "k" := str "v"]}.
Proof.
  intros k. unfold two_handles, Handle_Put. destruct (decide (k = str "k")) as [->|Hk].
  - by rewrite lookup_insert_eq, lookup_singleton_eq.
  - rewrite lookup_insert_ne by (intros E; apply constructLevelKey_inj in E; congruence).
    rewrite lookup_insert_ne by (intros E; vm_compute in E; discriminate).
    by rewrite lookup_singleton_ne by congruence.
Qed.

Lemma two_handles_b : handle_view (str "b") two_handles {[str "k" := str "w"]}.
Proof.
  intros k. unfold two_handles, Handle_Put. rewrite lookup_insert_ne by (intros E; vm_compute in E; discriminate).
  destruct (decide (k = str "k")) as [->|Hk].
  - by rewrite lookup_insert_eq, lookup_singleton_eq.
  - rewrite lookup_insert_ne by (intros E; apply constructLevelKey_inj in E; congruence).
    by rewrite lookup_singleton_ne by congruence.
Qed.

Lemma handle_refines_map_witness :
  Handle_Get (str "a") two_handles (str "k") = Some (str "v") /\
  iterate (Handle_GetIterator (str "a") two_handles None None) = Ret [(str "k", str "v")].
Proof.
  destruct (handle_refines_map (str "a") (str "b") two_handles _ _ two_handles_a two_handles_b) as (H1 & _ & H3).
  - by apply (bool_decide_unpack _); vm_compute.
  - by apply (bool_decide_unpack _); vm_compute.
  - by apply (bool_decide_unpack _); vm_compute.
  - rewrite H1, H3. split; vm_compute; reflexivity.
Defined.

Lemma deleteAll_view_witness :
  Handle_Get (str "a") (deleteAll (str "a") two_handles) (str "k") = None /\
  Handle_Get (str "b") (deleteAll (str "a") two_handles) (str "k") = Some (str "w").
Proof.
  destruct (deleteAll_view (str "a") (str "b") two_handles _ _ two_handles_a two_handles_b) as [H1 H2].
  - by apply (bool_decide_unpack _); vm_compute.
  - by apply (bool_decide_unpack _); vm_compute.
  - by apply (bool_decide_unpack _); vm_compute.
  - split; [exact (H1 (str "k"))|exact (H2 (str "k"))].
Defined.
