(* ===== verification/Storage.v ===== *)
(** * The storage a ledger process works on

    The file system, the map of the ledger's database handle and an oracle of
    faults: each write takes one entry, [None] (or an exhausted list) when it
    succeeds, [Fails n] when it returns an error after [n] bytes, [Stops n] when
    the process ends after [n] bytes.  With it the error branches of the block file
    manager are reachable, and so is every state that a crash can leave on disk: a
    stopped process is a panic, which no code above catches, and the state it leaves
    is that of the files and the database at that moment.  Also
    src/common/ledger/blkstorage/blockfile_rw.go, the writer and the reader of a
    block file. *)

From S2P Require Import Prelude OrderedCode GoBig GoOS LevelDB.

Inductive fault : Type :=
| Fails (n : nat)
| Stops (n : nat).

Record World := mkWorld {
  w_fs : Fs;
  w_db : kvmap;
  w_faults : list (option fault) }.

Definition set_fs (fs : Fs) (w : World) : World := mkWorld fs (w_db w) (w_faults w).

Definition stopped : string := "the process has stopped".

Definition next_fault : M World (option fault) := fun w =>
  match w_faults w with
  | [] => (Ret None, w)
  | f :: rest => (Ret f, mkWorld (w_fs w) (w_db w) rest)
  end.

Definition get_fs : M World Fs := fun w => (Ret (w_fs w), w).
Definition get_db : M World kvmap := fun w => (Ret (w_db w), w).
Definition update_fs (f : Fs -> Fs) : M World unit := fun w => (Ret tt, set_fs (f (w_fs w)) w).

(** Lift an operation of the file system alone. *)
Definition on_fs {A} (m : M Fs A) : M World A := fun w =>
  let '(r, fs) := m (w_fs w) in (r, set_fs fs w).

(** The same for the text files of the fork, which the code does not check for
    write errors: the process can only stop before the operation. *)
Definition on_text {A} (m : M Fs A) : M World A := fun w =>
  match w_faults w with
  | Some (Stops _) :: rest => (Panic stopped, mkWorld (w_fs w) (w_db w) rest)
  | _ => on_fs m w
  end.

(** Run a read-only computation on the files. *)
Definition reads_fs {A} (f : Fs -> outcome A) : M World A := fun w => (f (w_fs w), w).

(** ** The database handle *)

Definition db_WriteBatch (b : batch) : M World unit := fun w =>
  if (length b =? 0)%nat then (Ret tt, w) else
  match next_fault w with
  | (Ret (Some (Fails _)), w') => (Err ErrIO, w')
  | (Ret (Some (Stops _)), w') => (Panic stopped, w')
  | (_, w') => (Ret tt, mkWorld (w_fs w') (DB_WriteBatch b (w_db w')) (w_faults w'))
  end.

Definition db_Put (key value : bytes) : M World unit := fun w =>
  match next_fault w with
  | (Ret (Some (Fails _)), w') => (Err ErrIO, w')
  | (Ret (Some (Stops _)), w') => (Panic stopped, w')
  | (_, w') => (Ret tt, mkWorld (w_fs w') (<[key := value]> (w_db w')) (w_faults w'))
  end.

(** ** The block file writer *)

(** The open file is represented by its path. *)
Definition blockfileWriter : Type := bytes.

(** [open]: [O_RDWR|O_CREATE]. *)
Definition newBlockfileWriter (filePath : bytes) : M World blockfileWriter := fun w =>
  if can_create filePath (w_fs w) then
    match next_fault w with
    | (Ret (Some (Fails _)), w') => (Err ErrIO, w')
    | (Ret (Some (Stops _)), w') => (Panic stopped, w')
    | (_, w') => (Ret filePath, set_fs (set_file filePath (file_content filePath (w_fs w')) (w_fs w')) w')
    end
  else (Err ErrIO, w).

(** [f.Truncate(n)] for [n] below the size. *)
Definition truncateFile (wr : blockfileWriter) (targetSize : Z) : M World unit := fun w =>
  let content := file_content wr (w_fs w) in
  if targetSize <? zlen content then
    match next_fault w with
    | (Ret (Some (Fails _)), w') => (Ret tt, w')  (* the error of Truncate is dropped *)
    | (Ret (Some (Stops _)), w') => (Panic stopped, w')
    | (_, w') =>
        if targetSize <? 0 then (Ret tt, w') else
        (Ret tt, set_fs (set_file wr (take (Z.to_nat targetSize) content) (w_fs w')) w')
    end
  else (Ret tt, w).

(** [WriteAt] at an offset: a failing write ends after some of the bytes. *)
Definition writeat (wr : blockfileWriter) (b : bytes) (offset : Z) : M World unit := fun w =>
  if offset <? 0 then (Err ErrIO, w) else
  let content := file_content wr (w_fs w) in
  match next_fault w with
  | (Ret (Some (Fails n)), w') =>
      (Err ErrIO, set_fs (set_file wr (write_at content (take n b) (Z.to_nat offset)) (w_fs w')) w')
  | (Ret (Some (Stops n)), w') =>
      (Panic stopped, set_fs (set_file wr (write_at content (take n b) (Z.to_nat offset)) (w_fs w')) w')
  | (_, w') => (Ret tt, set_fs (set_file wr (write_at content b (Z.to_nat offset)) (w_fs w')) w')
  end.

(** Seek to the end and write there. *)
Definition append (wr : blockfileWriter) (b : bytes) : M World unit := fun w =>
  writeat wr b (zlen (file_content wr (w_fs w))) w.

(** ** The block file reader *)

Definition newBlockfileReader (filePath : bytes) (fs : Fs) : outcome bytes :=
  match files fs !! filePath with Some _ => Ret filePath | None => Err ErrNotExist end.

(** [ReadAt] fails unless all the bytes are there ([io.EOF] otherwise). *)
Definition blockfileReader_read (path : bytes) (offset length : Z) (fs : Fs) : outcome bytes :=
  let content := file_content path fs in
  if length <? 0 then Panic "makeslice: len out of range" else
  if offset <? 0 then Err ErrIO else
  if zlen content <? offset + length then Err ErrEOF
  else Ret (take (Z.to_nat length) (drop (Z.to_nat offset) content)).

(** ** Lemmas *)

Lemma append_ok (wr : blockfileWriter) (b : bytes) (fs : Fs) (db : kvmap) (faults : list (option fault)) (content : bytes) :
  files fs !! wr = Some content ->
  append wr b (mkWorld fs db (None :: faults)) =
    (Ret tt, mkWorld (set_file wr (content ++ b) fs) db faults).
Proof.
  intros Hf. unfold append, writeat. cbn [w_fs]. rewrite (file_content_Some _ _ _ Hf).
  rewrite (proj2 (Z.ltb_ge _ _)) by apply zlen_nonneg. cbn [next_fault w_faults w_fs].
  rewrite zlen_to_nat, write_at_end. done.
Qed.

Lemma append_no_fault (wr : blockfileWriter) (b : bytes) (fs : Fs) (db : kvmap) (content : bytes) :
  files fs !! wr = Some content ->
  append wr b (mkWorld fs db []) = (Ret tt, mkWorld (set_file wr (content ++ b) fs) db []).
Proof.
  intros Hf. unfold append, writeat. cbn [w_fs]. rewrite (file_content_Some _ _ _ Hf).
  rewrite (proj2 (Z.ltb_ge _ _)) by apply zlen_nonneg. cbn [next_fault w_faults w_fs].
  rewrite zlen_to_nat, write_at_end. done.
Qed.

Lemma append_fault (wr : blockfileWriter) (b : bytes) (fs : Fs) (db : kvmap) (faults : list (option fault))
    (n : nat) (content : bytes) :
  files fs !! wr = Some content ->
  append wr b (mkWorld fs db (Some (Fails n) :: faults)) =
    (Err ErrIO, mkWorld (set_file wr (content ++ take n b) fs) db faults).
Proof.
  intros Hf. unfold append, writeat. cbn [w_fs]. rewrite (file_content_Some _ _ _ Hf).
  rewrite (proj2 (Z.ltb_ge _ _)) by apply zlen_nonneg. cbn [next_fault w_faults w_fs].
  rewrite zlen_to_nat, write_at_end. done.
Qed.

Lemma read_middle (path pre b post : bytes) (fs : Fs) :
  files fs !! path = Some (pre ++ b ++ post) ->
  blockfileReader_read path (zlen pre) (zlen b) fs = Ret b.
Proof.
  intros Hf. unfold blockfileReader_read. rewrite (file_content_Some _ _ _ Hf).
  pose proof (zlen_nonneg pre). pose proof (zlen_nonneg b). pose proof (zlen_nonneg post).
  rewrite !(proj2 (Z.ltb_ge _ _)) by (rewrite ?zlen_app; lia).
  by rewrite !zlen_to_nat, drop_app_length, take_app_length.
Qed.
