(* ===== verification/Chameleon.v ===== *)
(** * The chameleon hash of the block data

    src/protoutil/blockutils.go ([chameleonHash], [BlockDataHash]) and the
    trapdoor collision of src/common/ledger/blkstorage/blockfile_mgr.go
    ([generateCollision], [GetCollision]): the mechanism that lets the content
    of a committed block be replaced while its header keeps its data hash.

    A Schnorr-style hash in a group of order q modulo p: with public key
    hk = g^tk, H(m; r, s) = r - (hk^e * g^s mod p) mod q where
    e = SHA256(m || hex r).  Whoever knows tk finds, for any m', a pair (r', s')
    with H(m'; r', s') = H(m; r, s). *)

From S2P Require Import Prelude OrderedCode Sha256 ModExp GoBig GoOS.

(** ** Operations *)

(** All arguments are the text (hexadecimal) byte strings the code passes by
    pointer; the result is what it stores in [*hashOut]. *)
Definition chameleonHash (hk p q g message r s : bytes) : outcome bytes :=
  let pBig := SetString16 p in
  let qBig := SetString16 q in
  let gBig := SetString16 g in
  let hkBig := SetString16 hk in
  let rBig := SetString16 r in
  let sBig := SetString16 s in
  let eBig := big_SetBytes (Sum256 (message ++ Sprintf_x rBig)) in
  let hkeBig := big_Exp hkBig eBig pBig in
  let gsBig := big_Exp gBig sBig pBig in
  tmpBig ← big_Mod (hkeBig * gsBig) pBig;
  hBig ← big_Mod (rBig - tmpBig) qBig;
  Ret (big_Bytes hBig).

(** [kBig] is the value of [rand.Int(rand.Reader, qBig)], which panics on a
    modulus that is not positive. *)
Definition generateCollision (hk tk p q g msg1 msg2 r1 s1 : bytes) (kBig : Z) :
    outcome (bytes * bytes) :=
  let tkBig := SetString16 tk in
  let pBig := SetString16 p in
  let qBig := SetString16 q in
  let gBig := SetString16 g in
  if qBig <=? 0 then Panic "crypto/rand: argument to Int is <= 0" else
  hash ← chameleonHash hk p q g msg1 r1 s1;
  let hBig := big_SetBytes hash in
  let tmpBig := big_Exp gBig kBig pBig in
  r2Big ← big_Mod (hBig + tmpBig) qBig;
  let eBig := big_SetBytes (Sum256 (msg2 ++ Sprintf_x r2Big)) in
  tmpBig ← big_Mod (eBig * tkBig) qBig;
  s2Big ← big_Mod (kBig - tmpBig) qBig;
  Ret (Sprintf_x r2Big, Sprintf_x s2Big).

Definition param_p : bytes := str "ff1547760a78c9a40bae518b3c631bd719803d17c5d39c456f8bbfdc5c850ab1".
Definition param_q : bytes := str "7f8aa3bb053c64d205d728c59e318deb8cc01e8be2e9ce22b7c5dfee2e428558".
Definition param_g : bytes := str "56235346c5828425726d2025cf8fb9a884c20510f356d918ee3b35c6de2d128d".
Definition param_hk : bytes := str "1b16b424f548fb2b746c2c6c3d7560a9244f0e139e9353f5c0de5dac942aff6a".
Definition param_tk : bytes := str "465023c585b2d34fb7fa2358839ba9813de8f07c219e2ec8b701712d4553dab".

(** The randomness of a block nobody has edited yet. *)
Definition default_r : bytes := str "ff6a035ee82ebb3a88a59e8de2a3caa4722156ac54041a3e542c8adba1a6be8".
Definition default_s : bytes := str "7c0ad2936ff5254a1b4ac1a016671bf18a7ad8bd1e7c8ce3f7241664db500704".

Definition crlf : bytes := [Byte.x0d; Byte.x0a].

(** The [r1] and [s1] it passes are declared and never assigned: both empty. *)
Definition GetCollision (msg1 msg2 : list bytes) (kBig : Z) : outcome (bytes * bytes) :=
  let msg11 := mjoin msg1 in
  let msg22 := mjoin msg2 in
  generateCollision param_hk param_tk param_p param_q param_g msg11 msg22 [] [] kBig.

(** [PathExists] with its error dropped by the caller. *)
Definition PathExists (path : bytes) (fs : Fs) : bool := path_exists path fs.

Definition randomness_path (num : Z) : bytes := str "/opt/gopath/blockfile" ++ FormatUint num.

(** The data hash of block [num] holding [data]: the randomness is read from the
    block's file; a missing file is created with the default randomness. *)
Definition BlockDataHash (data : list bytes) (num : Z) : M Fs bytes := fun fs =>
  let path := randomness_path num in
  let msg := mjoin data in
  if PathExists path fs then
    let message := read_lines (file_content path fs) in
    ((r1 ← go_index message 0;
      s1 ← go_index message 1;
      chameleonHash param_hk param_p param_q param_g msg r1 s1), fs)
  else
    let fs' := append_file path (default_s ++ crlf) (append_file path (default_r ++ crlf) fs) in
    (chameleonHash param_hk param_p param_q param_g msg default_r default_s, fs').

(** ** The group *)

(** What the collision finder relies on: g has order dividing q modulo p, and hk
    is the public key of the trapdoor tk. *)
Record chameleon_params (hk tk p q g : bytes) : Prop := {
  cp_p : 0 < SetString16 p;
  cp_q : 0 < SetString16 q;
  cp_tk : 0 <= SetString16 tk;
  cp_order : SetString16 g ^ SetString16 q mod SetString16 p = 1 mod SetString16 p;
  cp_key : SetString16 hk mod SetString16 p = SetString16 g ^ SetString16 tk mod SetString16 p }.

Lemma pow_mod_order (g q p k j : Z) :
  0 < p -> 0 <= q -> 0 <= k -> 0 <= j -> g ^ q mod p = 1 mod p ->
  g ^ (k + j * q) mod p = g ^ k mod p.
Proof.
  intros Hp Hq Hk Hj Ho.
  rewrite Z.pow_add_r, (Z.mul_comm j q), Z.pow_mul_r by nia.
  rewrite Z.mul_mod by lia. rewrite (Zpow_facts.Zpower_mod (g ^ q)) by lia.
  rewrite Ho, <- Zpow_facts.Zpower_mod by lia.
  rewrite Z.pow_1_l, <- Z.mul_mod, Z.mul_1_r by lia. done.
Qed.

Lemma big_Mod_pos (x y : Z) : 0 < y -> big_Mod x y = Ret (x mod y).
Proof. intros Hy. unfold big_Mod. rewrite (proj2 (Z.eqb_neq y 0)), Z.abs_eq by lia. done. Qed.

(** The hash as an integer expression, for a positive modulus and exponent. *)
Lemma chameleonHash_eq (hk p q g message r s : bytes) :
  0 < SetString16 p -> 0 < SetString16 q ->
  exists h, 0 <= h < SetString16 q /\ chameleonHash hk p q g message r s = Ret (big_Bytes h) /\
    (0 <= SetString16 s ->
     h = (SetString16 r -
          SetString16 hk ^ be_val (Sum256 (message ++ Sprintf_x (SetString16 r)))
          * SetString16 g ^ SetString16 s mod SetString16 p) mod SetString16 q).
Proof.
  intros Hp Hq. unfold chameleonHash. do 2 (rewrite big_Mod_pos by done; cbn [mbind outcome_bind]).
  eexists. split; [|split; [done|]].
  - by apply Z.mod_pos_bound.
  - intros Hs. unfold big_SetBytes. rewrite !big_Exp_spec by (try apply be_val_nonneg; done).
    by rewrite <- Z.mul_mod by lia.
Qed.

(** ** The trapdoor opens the hash *)

Lemma generateCollision_hash (hk tk p q g msg1 msg2 r1 s1 : bytes) (k : Z) :
  chameleon_params hk tk p q g -> 0 <= k < SetString16 q ->
  exists r2 s2,
    generateCollision hk tk p q g msg1 msg2 r1 s1 k = Ret (r2, s2) /\
    chameleonHash hk p q g msg2 r2 s2 = chameleonHash hk p q g msg1 r1 s1.
Proof.
  intros [Hp Hq Htk Ho Hk] Hkq.
  destruct (chameleonHash_eq hk p q g msg1 r1 s1 Hp Hq) as (h & Hh & E1 & _).
  unfold generateCollision. rewrite (proj2 (Z.leb_gt _ _)) by done. rewrite E1.
  cbn [mbind outcome_bind]. rewrite big_SetBytes_Bytes by lia.
  do 3 (rewrite big_Mod_pos by done; cbn [mbind outcome_bind]). rewrite big_Exp_spec by lia. unfold big_SetBytes.
  set (P := SetString16 p) in *. set (Q := SetString16 q) in *. set (G := SetString16 g) in *.
  set (R2 := (h + G ^ k mod P) mod Q).
  set (e := be_val (Sum256 (msg2 ++ Sprintf_x R2))).
  set (S2 := (k - e * SetString16 tk mod Q) mod Q).
  pose proof (Z.mod_pos_bound (h + G ^ k mod P) Q Hq) as HR.
  pose proof (Z.mod_pos_bound (k - e * SetString16 tk mod Q) Q Hq) as HS.
  eexists _, _. split; [done|].
  destruct (chameleonHash_eq hk p q g msg2 (Sprintf_x R2) (Sprintf_x S2) Hp Hq)
    as (h' & Hh' & E2 & Eh').
  rewrite E2. f_equal. f_equal.
  rewrite !SetString16_Sprintf_x in Eh' by (unfold R2, S2; lia).
  fold P Q G e in Eh'. rewrite Eh' by (unfold S2; lia).
  assert (Ht : SetString16 hk ^ e * G ^ S2 mod P = G ^ k mod P).
  { assert (He : 0 <= e) by apply be_val_nonneg.
    assert (Hte : 0 <= SetString16 tk * e) by (apply Z.mul_nonneg_nonneg; done).
    rewrite Z.mul_mod, Zpow_facts.Zpower_mod, Hk, <- Zpow_facts.Zpower_mod by lia.
    rewrite <- Z.mul_mod, <- Z.pow_mul_r, <- Z.pow_add_r by (unfold S2; lia).
    pose proof (Z.div_mod (e * SetString16 tk) Q ltac:(lia)) as D1.
    pose proof (Z.div_mod (k - e * SetString16 tk mod Q) Q ltac:(lia)) as D2.
    fold S2 in D2.
    set (j := (e * SetString16 tk) / Q - (k - e * SetString16 tk mod Q) / Q).
    assert (Ej : SetString16 tk * e + S2 = k + j * Q) by (unfold j; lia).
    rewrite Ej. apply pow_mod_order; try lia.
    assert (Hkj : 0 <= k + j * Q) by (rewrite <- Ej; unfold S2; lia).
    destruct (Z.le_gt_cases 0 j) as [|Hj]; [done|].
    assert (j * Q <= -1 * Q) by (apply Z.mul_le_mono_nonneg_r; lia). lia. }
  rewrite Ht. unfold R2. rewrite Zminus_mod_idemp_l.
  replace (h + G ^ k mod P - G ^ k mod P) with h by lia. by rewrite Z.mod_small.
Qed.

(** ** The parameters compiled into the peer and the orderer *)

(** An executable check of [chameleon_params]. *)
Definition check_params (hk tk p q g : bytes) : bool :=
  let P := SetString16 p in let Q := SetString16 q in let G := SetString16 g in
  let HK := SetString16 hk in let TK := SetString16 tk in
  (1 <? P) && (0 <? Q) && (0 <=? TK) && (0 <=? HK) && (HK <? P) &&
  (big_Exp G Q P =? 1) && (big_Exp G TK P =? HK).

Lemma check_params_sound (hk tk p q g : bytes) :
  check_params hk tk p q g = true -> chameleon_params hk tk p q g.
Proof.
  unfold check_params. rewrite !andb_true_iff, !Z.ltb_lt, !Z.leb_le, !Z.eqb_eq.
  intros [[[[[[Hp Hq] Ht] Hh] Hhp] Eg] Ek].
  rewrite big_Exp_spec in Eg, Ek by lia.
  constructor; try lia; rewrite ?Eg, ?Ek; [by rewrite Z.mod_small | by apply Z.mod_small].
Qed.

(** g lies in the subgroup of order dividing q modulo p, and hk = g^tk mod p. *)
Lemma production_params : chameleon_params param_hk param_tk param_p param_q param_g.
Proof. apply check_params_sound. vm_compute. reflexivity. Qed.

(** ** The data hash and its randomness file *)

(** The first two lines of a file that starts with two short lines. *)
Lemma read_lines_two (r s post : bytes) :
  Byte.x0a ∉ r -> Byte.x0a ∉ s ->
  (length r + 1 < bufio_size)%nat -> (length s + 1 < bufio_size)%nat ->
  exists rest, read_lines (r ++ crlf ++ s ++ crlf ++ post) = r :: s :: rest.
Proof.
  intros Hr Hs Lr Ls. unfold read_lines, crlf.
  set (c := r ++ [Byte.x0d; Byte.x0a] ++ s ++ [Byte.x0d; Byte.x0a] ++ post).
  assert (Hlen : (2 <= length c)%nat) by (unfold c; rewrite !length_app; simpl; lia).
  destruct (length c) as [|[|n]] eqn:E; try lia.
  cbn [ReadLines]. unfold c. cbn [app]. rewrite ReadLine_crlf by done.
  rewrite ReadLine_crlf by done. eexists. done.
Qed.

(** What a lookup of an existing randomness file computes. *)
Lemma BlockDataHash_file (data : list bytes) (num : Z) (fs : Fs) (r s post : bytes) :
  files fs !! randomness_path num = Some (r ++ crlf ++ s ++ crlf ++ post) ->
  Byte.x0a ∉ r -> Byte.x0a ∉ s ->
  (length r + 1 < bufio_size)%nat -> (length s + 1 < bufio_size)%nat ->
  BlockDataHash data num fs =
    (chameleonHash param_hk param_p param_q param_g (mjoin data) r s, fs).
Proof.
  intros Hf Hr Hs Lr Ls. unfold BlockDataHash, PathExists.
  rewrite (path_exists_file _ _ _ Hf), (file_content_Some _ _ _ Hf).
  destruct (read_lines_two r s post) as (rest & E); [done..|]. by rewrite E.
Qed.

(** The hash is stable: asking again, for the same block, gives the same answer
    and changes nothing, whether or not the first call created the file. *)
Lemma BlockDataHash_stable (data : list bytes) (num : Z) (fs : Fs) :
  path_exists (randomness_path num) fs = false ->
  let '(h, fs') := BlockDataHash data num fs in
  h = chameleonHash param_hk param_p param_q param_g (mjoin data) default_r default_s /\
  BlockDataHash data num fs' = (h, fs').
Proof.
  intros Hn. pose proof Hn as [Hf Hd]%path_exists_false.
  assert (E : BlockDataHash data num fs =
    (chameleonHash param_hk param_p param_q param_g (mjoin data) default_r default_s,
     if bool_decide (dirname (randomness_path num) ∈ dirs fs)
     then set_file (randomness_path num) (default_r ++ crlf ++ default_s ++ crlf) fs else fs)).
  { unfold BlockDataHash, PathExists. rewrite Hn. f_equal.
    rewrite (append_file_new _ (default_r ++ crlf)) by done.
    case_bool_decide as Hdir.
    - rewrite (append_file_existing _ (default_r ++ crlf)), set_file_twice, <- app_assoc
        by (apply lookup_set_file || done). done.
    - rewrite append_file_new by done. by rewrite bool_decide_eq_false_2. }
  rewrite E. split; [done|]. case_bool_decide as Hdir.
  - apply (BlockDataHash_file _ _ _ default_r default_s []); [|by apply (bool_decide_unpack _); vm_compute..].
    by rewrite lookup_set_file.
  - exact E.
Qed.

(** Storing the collision the way the peer does (both values, each ended by CR
    LF, over the old content), then hashing the edited data. *)
Definition store_randomness (num : Z) (r2 s2 : bytes) (fs : Fs) : Fs :=
  overwrite_file (randomness_path num) (r2 ++ crlf ++ s2 ++ crlf) fs.

Lemma q_bits : SetString16 param_q < 2 ^ 255.
Proof. vm_compute. reflexivity. Qed.

Lemma generateCollision_lines (hk tk p g msg1 msg2 r1 s1 r2 s2 : bytes) (k : Z) :
  generateCollision hk tk p param_q g msg1 msg2 r1 s1 k = Ret (r2, s2) ->
  Byte.x0a ∉ r2 /\ Byte.x0a ∉ s2 /\ (length r2 <= 255)%nat /\ (length s2 <= 255)%nat.
Proof.
  unfold generateCollision. pose proof q_bits as Hq.
  set (Q := SetString16 param_q) in *. clearbody Q.
  destruct (Z.leb_spec Q 0) as [|HQ]; [done|]. intros H. inv_bind.
  rewrite big_Mod_pos in * by done. simplify_eq.
  repeat match goal with |- context [Sprintf_x (?x mod Q)] =>
    let L := fresh in pose proof (Sprintf_x_line (x mod Q) 255) as L;
    pose proof (Z.mod_pos_bound x Q HQ); destruct L as [? ?]; [lia|lia|];
    generalize dependent (Sprintf_x (x mod Q)); intros end.
  repeat split; try done; lia.
Qed.

(** The data hash after a collision is stored over a randomness file. *)
Lemma BlockDataHash_stored (new : list bytes) (num : Z) (fs : Fs) (content r2 s2 : bytes) :
  files fs !! randomness_path num = Some content -> randomness_path num ∉ dirs fs ->
  Byte.x0a ∉ r2 -> Byte.x0a ∉ s2 -> (length r2 <= 255)%nat -> (length s2 <= 255)%nat ->
  fst (BlockDataHash new num (store_randomness num r2 s2 fs)) =
    chameleonHash param_hk param_p param_q param_g (mjoin new) r2 s2.
Proof.
  intros Hf Hd ????. unfold store_randomness.
  rewrite (overwrite_file_existing _ _ _ _ Hf Hd), <- !app_assoc.
  erewrite (BlockDataHash_file new num _ r2 s2); [done|apply lookup_set_file|done|done|..];
    unfold bufio_size; lia.
Qed.

(** ** Properties *)

(** C22: The whole edit, as it is meant: the collision is computed from the randomness
    on file; the data hash of the block does not change. *)
Theorem redaction_keeps_data_hash (old new : list bytes) (num k : Z) (fs : Fs) (r s post : bytes) :
  files fs !! randomness_path num = Some (r ++ crlf ++ s ++ crlf ++ post) ->
  randomness_path num ∉ dirs fs ->
  Byte.x0a ∉ r -> Byte.x0a ∉ s ->
  (length r + 1 < bufio_size)%nat -> (length s + 1 < bufio_size)%nat ->
  0 <= k < SetString16 param_q ->
  exists r2 s2,
    generateCollision param_hk param_tk param_p param_q param_g (mjoin old) (mjoin new) r s k
      = Ret (r2, s2) /\
    fst (BlockDataHash new num (store_randomness num r2 s2 fs)) = fst (BlockDataHash old num fs).
Proof.
  intros Hf Hd Hr Hs Lr Ls Hk.
  destruct (generateCollision_hash _ _ _ _ _ (mjoin old) (mjoin new) r s k production_params Hk)
    as (r2 & s2 & E & EH).
  exists r2, s2. split; [done|].
  destruct (generateCollision_lines _ _ _ _ _ _ _ _ _ _ _ E) as (? & ? & ? & ?).
  rewrite (BlockDataHash_file old num fs r s post), (BlockDataHash_stored _ _ _ _ _ _ Hf) by done.
  exact EH.
Qed.

Lemma redaction_keeps_data_hash_witness :
  let num := 7 in
  let fs := mkFs {[randomness_path num := default_r ++ crlf ++ default_s ++ crlf]} ∅ in
  exists r2 s2,
    generateCollision param_hk param_tk param_p param_q param_g (str "old") (str "new") default_r default_s 5
      = Ret (r2, s2) /\
    fst (BlockDataHash [str "new"] num (store_randomness num r2 s2 fs)) = fst (BlockDataHash [str "old"] num fs).
Proof.
  intros num fs. apply (redaction_keeps_data_hash [str "old"] [str "new"] num 5 fs default_r default_s []).
  - unfold fs. cbn [files]. by rewrite lookup_singleton_eq.
  - unfold fs. cbn [dirs]. set_solver.
  - by apply (bool_decide_unpack _); vm_compute.
  - by apply (bool_decide_unpack _); vm_compute.
  - by apply (bool_decide_unpack _); vm_compute.
  - by apply (bool_decide_unpack _); vm_compute.
  - split; by vm_compute.
Defined.

(** C23: For every group the arithmetic is sound for (g has an order dividing q
    modulo p, and hk is g to the power tk), every two messages and every randomness of
    the first one: the trapdoor holder finds a pair with which the second message has
    the hash of the first one. *)
Theorem collision_opens_hash (hk tk p q g msg1 msg2 r1 s1 : bytes) (k : Z) :
  chameleon_params hk tk p q g -> 0 <= k < SetString16 q ->
  exists r2 s2,
    generateCollision hk tk p q g msg1 msg2 r1 s1 k = Ret (r2, s2) /\
    chameleonHash hk p q g msg2 r2 s2 = chameleonHash hk p q g msg1 r1 s1.
Proof. apply generateCollision_hash. Qed.

Lemma collision_opens_hash_witness :
  exists r2 s2,
    generateCollision param_hk param_tk param_p param_q param_g (str "old") (str "new") default_r default_s 5 = Ret (r2, s2) /\
    chameleonHash param_hk param_p param_q param_g (str "new") r2 s2 =
    chameleonHash param_hk param_p param_q param_g (str "old") default_r default_s.
Proof. apply collision_opens_hash; [apply production_params|]. split; by vm_compute. Defined.

(** C24: What the code's own collision achieves: [GetCollision] calls
    [generateCollision] with an empty r1 and s1, so the edited block hashes to the value
    the old data have under that empty randomness, whatever the block's randomness file
    holds; the data hash stays the same only when it is that value by chance. *)
Theorem GetCollision_opens_empty_randomness (old new : list bytes) (num k : Z) (fs : Fs) (r s post : bytes) :
  files fs !! randomness_path num = Some (r ++ crlf ++ s ++ crlf ++ post) -> randomness_path num ∉ dirs fs ->
  Byte.x0a ∉ r -> Byte.x0a ∉ s -> (length r + 1 < bufio_size)%nat -> (length s + 1 < bufio_size)%nat ->
  0 <= k < SetString16 param_q ->
  exists r2 s2, GetCollision old new k = Ret (r2, s2) /\
    let after := fst (BlockDataHash new num (store_randomness num r2 s2 fs)) in
    after = chameleonHash param_hk param_p param_q param_g (mjoin old) [] [] /\
    (after = fst (BlockDataHash old num fs) <->
     chameleonHash param_hk param_p param_q param_g (mjoin old) r s =
     chameleonHash param_hk param_p param_q param_g (mjoin old) [] []).
Proof.
  intros Hf Hd Hr Hs Lr Ls Hk.
  destruct (generateCollision_hash _ _ _ _ _ (mjoin old) (mjoin new) [] [] k production_params Hk)
    as (r2 & s2 & E & EH).
  exists r2, s2. split; [done|]. destruct (generateCollision_lines _ _ _ _ _ _ _ _ _ _ _ E) as (? & ? & ? & ?).
  cbn zeta. rewrite (BlockDataHash_stored _ _ _ _ _ _ Hf) by done. rewrite EH, (BlockDataHash_file old num fs r s post) by done.
  done.
Qed.

(** A block that still has the default randomness does not keep its data hash. *)
Lemma GetCollision_opens_empty_randomness_witness :
  let fs := mkFs {[randomness_path 7 := default_r ++ crlf ++ default_s ++ crlf ++ []]} ∅ in
  exists r2 s2, GetCollision [str "old"] [str "new"] 5 = Ret (r2, s2) /\
    fst (BlockDataHash [str "new"] 7 (store_randomness 7 r2 s2 fs)) <> fst (BlockDataHash [str "old"] 7 fs).
Proof.
  intros fs.
  destruct (GetCollision_opens_empty_randomness [str "old"] [str "new"] 7 5 fs default_r default_s [])
    as (r2 & s2 & E & _ & Hiff); [unfold fs; cbn [files]; by rewrite lookup_singleton_eq|unfold fs; cbn [dirs]; set_solver|
      by apply (bool_decide_unpack _); vm_compute..| |].
  - split; by vm_compute.
  - exists r2, s2. split; [done|]. rewrite Hiff. vm_compute. congruence.
Defined.
