(* ===== verification/Proto.v ===== *)
(** * Protocol buffer messages

    The messages of src/vendor/github.com/hyperledger/fabric-protos-go the
    modelled code reads or writes, with the fields of the generated structs (a
    pointer field is an [option]), and the interface [Codec] of
    [proto.Marshal]/[proto.Unmarshal].  The wire format of the generated
    (reflection based) encoders is not modelled: components are parametrised by
    a [Codec] per message, and their theorems by the law [CodecOk] (documented
    behaviour: unmarshalling what was marshalled gives the message back).
    [wire_codec] is a concrete instance of both. *)

From S2P Require Import Prelude Wire.

(** ** The codec interface *)

Class Codec (A : Type) : Type := {
  Marshal : A -> bytes;
  Unmarshal : bytes -> option A }.

Class CodecOk (A : Type) `{!Codec A} : Prop :=
  Unmarshal_Marshal : forall a : A, Unmarshal (Marshal a) = Some a.

(** [proto.Unmarshal] as the fallible call it is. *)
Definition proto_Unmarshal {A} `{!Codec A} (b : bytes) : outcome A :=
  match Unmarshal b with
  | Some a => Ret a
  | None => Err ErrProto
  end.

Lemma proto_Unmarshal_Marshal `{CodecOk A} (a : A) : proto_Unmarshal (Marshal a) = Ret a.
Proof. unfold proto_Unmarshal. by rewrite Unmarshal_Marshal. Qed.

#[export] Hint Rewrite @proto_Unmarshal_Marshal using apply _ : hicert.

(** ** common.proto *)

Record Envelope := mkEnvelope {
  Envelope_Payload : bytes;
  Envelope_Signature : bytes }.

Record Header := mkHeader {
  Header_ChannelHeader : bytes;
  Header_SignatureHeader : bytes }.

Record Payload := mkPayload {
  Payload_Header : option Header;
  Payload_Data : bytes }.

(** The timestamp is the pair (seconds, nanos) of google.protobuf.Timestamp. *)
Record ChannelHeader := mkChannelHeader {
  ChannelHeader_Type : Z;
  ChannelHeader_Version : Z;
  ChannelHeader_Timestamp : option (Z * Z);
  ChannelHeader_ChannelId : bytes;
  ChannelHeader_TxId : bytes;
  ChannelHeader_Epoch : Z;
  ChannelHeader_Extension : bytes;
  ChannelHeader_TlsCertHash : bytes }.

Record SignatureHeader := mkSignatureHeader {
  SignatureHeader_Creator : bytes;
  SignatureHeader_Nonce : bytes }.

Record MetadataSignature := mkMetadataSignature {
  MetadataSignature_SignatureHeader : bytes;
  MetadataSignature_Signature : bytes }.

Record Metadata := mkMetadata {
  Metadata_Value : bytes;
  Metadata_Signatures : list MetadataSignature }.

Record LastConfig := mkLastConfig { LastConfig_Index : Z }.

Record OrdererBlockMetadata := mkOrdererBlockMetadata {
  OBM_LastConfig : option LastConfig;
  OBM_ConsenterMetadata : bytes }.

(** ** peer/transaction.proto, peer/proposal.proto, peer/chaincode.proto *)

Record TransactionAction := mkTransactionAction {
  TransactionAction_Header : bytes;
  TransactionAction_Payload : bytes }.

Record Transaction := mkTransaction { Transaction_Actions : list TransactionAction }.

Record Endorsement := mkEndorsement {
  Endorsement_Endorser : bytes;
  Endorsement_Signature : bytes }.

Record ChaincodeEndorsedAction := mkChaincodeEndorsedAction {
  CEA_ProposalResponsePayload : bytes;
  CEA_Endorsements : list Endorsement }.

Record ChaincodeActionPayload := mkChaincodeActionPayload {
  CAP_ChaincodeProposalPayload : bytes;
  CAP_Action : option ChaincodeEndorsedAction }.

Record ChaincodeProposalPayload := mkChaincodeProposalPayload {
  CPP_Input : bytes;
  CPP_TransientMap : list (bytes * bytes) }.

Record ChaincodeID := mkChaincodeID {
  ChaincodeID_Path : bytes;
  ChaincodeID_Name : bytes;
  ChaincodeID_Version : bytes }.

Record ChaincodeInput := mkChaincodeInput {
  ChaincodeInput_Args : list bytes;
  ChaincodeInput_Decorations : list (bytes * bytes);
  ChaincodeInput_IsInit : bool }.

Record ChaincodeSpec := mkChaincodeSpec {
  ChaincodeSpec_Type : Z;
  ChaincodeSpec_ChaincodeId : option ChaincodeID;
  ChaincodeSpec_Input : option ChaincodeInput;
  ChaincodeSpec_Timeout : Z }.

Record ChaincodeInvocationSpec := mkChaincodeInvocationSpec {
  CIS_ChaincodeSpec : option ChaincodeSpec }.

Record Response := mkResponse {
  Response_Status : Z;
  Response_Message : bytes;
  Response_Payload : bytes }.

Record ProposalResponsePayload := mkProposalResponsePayload {
  PRP_ProposalHash : bytes;
  PRP_Extension : bytes }.

Record ChaincodeAction := mkChaincodeAction {
  ChaincodeAction_Results : bytes;
  ChaincodeAction_Events : bytes;
  ChaincodeAction_Response : option Response;
  ChaincodeAction_ChaincodeId : option ChaincodeID }.

(** ** ledger/rwset and ledger/rwset/kvrwset *)

Record CollectionHashedReadWriteSet := mkCollectionHashedReadWriteSet {
  CHRWS_CollectionName : bytes;
  CHRWS_HashedRwset : bytes;
  CHRWS_PvtRwsetHash : bytes }.

Record NsReadWriteSet := mkNsReadWriteSet {
  NsRWS_Namespace : bytes;
  NsRWS_Rwset : bytes;
  NsRWS_CollectionHashedRwset : list CollectionHashedReadWriteSet }.

Record TxReadWriteSet := mkTxReadWriteSet {
  TxRWS_DataModel : Z;
  TxRWS_NsRwset : list NsReadWriteSet }.

Record Version := mkVersion { Version_BlockNum : Z; Version_TxNum : Z }.

Record KVRead := mkKVRead { KVRead_Key : bytes; KVRead_Version : option Version }.

Record KVWrite := mkKVWrite {
  KVWrite_Key : bytes;
  KVWrite_IsDelete : bool;
  KVWrite_Value : bytes }.

Record KVMetadataEntry := mkKVMetadataEntry {
  KVMetadataEntry_Name : bytes;
  KVMetadataEntry_Value : bytes }.

Record KVMetadataWrite := mkKVMetadataWrite {
  KVMetadataWrite_Key : bytes;
  KVMetadataWrite_Entries : list KVMetadataEntry }.

Record QueryReadsMerkleSummary := mkQueryReadsMerkleSummary {
  QRMS_MaxDegree : Z;
  QRMS_MaxLevel : Z;
  QRMS_MaxLevelHashes : list bytes }.

(** The oneof [reads_info] of a range query. *)
Inductive RangeQueryInfo_ReadsInfo : Type :=
| RawReads (KvReads : list KVRead)
| ReadsMerkleHashes (summary : QueryReadsMerkleSummary).

Record RangeQueryInfo := mkRangeQueryInfo {
  RQI_StartKey : bytes;
  RQI_EndKey : bytes;
  RQI_ItrExhausted : bool;
  RQI_ReadsInfo : option RangeQueryInfo_ReadsInfo }.

Record KVRWSet := mkKVRWSet {
  KVRWSet_Reads : list KVRead;
  KVRWSet_RangeQueriesInfo : list RangeQueryInfo;
  KVRWSet_Writes : list KVWrite;
  KVRWSet_MetadataWrites : list KVMetadataWrite }.

(** ** blkstorage's own messages *)

Record TxIDIndexValue := mkTxIDIndexValue {
  TxIDIV_BlkLocation : bytes;
  TxIDIV_TxLocation : bytes;
  TxIDIV_TxValidationCode : Z }.

Record BootstrappingSnapshotInfo := mkBootstrappingSnapshotInfo {
  BSI_LastBlockNum : Z;
  BSI_LastBlockHash : bytes;
  BSI_PreviousBlockHash : bytes }.

(** ** The codecs the ledger and the orderer use, as one bundle *)

Class Protos : Type := {
  #[global] Protos_Envelope :: Codec Envelope;
  #[global] Protos_Payload :: Codec Payload;
  #[global] Protos_ChannelHeader :: Codec ChannelHeader;
  #[global] Protos_SignatureHeader :: Codec SignatureHeader;
  #[global] Protos_Metadata :: Codec Metadata;
  #[global] Protos_LastConfig :: Codec LastConfig;
  #[global] Protos_OBM :: Codec OrdererBlockMetadata;
  #[global] Protos_Transaction :: Codec Transaction;
  #[global] Protos_CAP :: Codec ChaincodeActionPayload;
  #[global] Protos_CPP :: Codec ChaincodeProposalPayload;
  #[global] Protos_CIS :: Codec ChaincodeInvocationSpec;
  #[global] Protos_PRP :: Codec ProposalResponsePayload;
  #[global] Protos_ChaincodeAction :: Codec ChaincodeAction;
  #[global] Protos_TxRWS :: Codec TxReadWriteSet;
  #[global] Protos_KVRWSet :: Codec KVRWSet;
  #[global] Protos_TxIDIndexValue :: Codec TxIDIndexValue;
  #[global] Protos_BSI :: Codec BootstrappingSnapshotInfo }.

Class ProtosOk `{!Protos} : Prop := {
  #[global] ProtosOk_Envelope :: CodecOk Envelope;
  #[global] ProtosOk_Payload :: CodecOk Payload;
  #[global] ProtosOk_ChannelHeader :: CodecOk ChannelHeader;
  #[global] ProtosOk_SignatureHeader :: CodecOk SignatureHeader;
  #[global] ProtosOk_Metadata :: CodecOk Metadata;
  #[global] ProtosOk_LastConfig :: CodecOk LastConfig;
  #[global] ProtosOk_OBM :: CodecOk OrdererBlockMetadata;
  #[global] ProtosOk_Transaction :: CodecOk Transaction;
  #[global] ProtosOk_CAP :: CodecOk ChaincodeActionPayload;
  #[global] ProtosOk_CPP :: CodecOk ChaincodeProposalPayload;
  #[global] ProtosOk_CIS :: CodecOk ChaincodeInvocationSpec;
  #[global] ProtosOk_PRP :: CodecOk ProposalResponsePayload;
  #[global] ProtosOk_ChaincodeAction :: CodecOk ChaincodeAction;
  #[global] ProtosOk_TxRWS :: CodecOk TxReadWriteSet;
  #[global] ProtosOk_KVRWSet :: CodecOk KVRWSet;
  #[global] ProtosOk_TxIDIndexValue :: CodecOk TxIDIndexValue;
  #[global] ProtosOk_BSI :: CodecOk BootstrappingSnapshotInfo;
  (** the empty string is the message without any field set *)
  Unmarshal_nil_Envelope : Unmarshal [] = Some (mkEnvelope [] []);
  Unmarshal_nil_Payload : Unmarshal [] = Some (mkPayload None []);
  Unmarshal_nil_Transaction : Unmarshal [] = Some (mkTransaction []);
  (** a message with a field set is not the empty string *)
  Marshal_TxIDIndexValue_nonempty : forall v : TxIDIndexValue,
    TxIDIV_BlkLocation v <> [] -> Marshal v <> [] }.

(** ** A concrete codec

    The format of [Wire]; [zero] is what the empty string decodes to. *)

Definition wire_codec (A : Type) {W : Wire A} (zero : option A) : Codec A := {|
  Marshal := wr;
  Unmarshal b := match b with
    | [] => zero
    | _ => match rd b with Some (a, []) => Some a | _ => None end
    end |}.

#[global] Instance wire_codec_ok A {W : Wire A} (zero : option A) : @CodecOk A (wire_codec A zero).
Proof.
  intros a. cbn [Marshal Unmarshal wire_codec]. pose proof (rd_wr a []) as E. rewrite app_nil_r in E. rewrite E.
  pose proof (wr_nonempty a). by destruct (wr a).
Qed.

(** ** Every message can be written, so the bundle has an instance *)

#[global] Instance Envelope_eq_dec : EqDecision Envelope.
Proof. solve_decision. Defined.

#[global] Instance Envelope_wire : Wire Envelope.
Proof.
  refine (wire_iso
    (fun m => (Envelope_Payload m, Envelope_Signature m))
    (fun '(a0, a1) => mkEnvelope a0 a1) _).
  by intros [].
Defined.

#[global] Instance Header_eq_dec : EqDecision Header.
Proof. solve_decision. Defined.

#[global] Instance Header_wire : Wire Header.
Proof.
  refine (wire_iso
    (fun m => (Header_ChannelHeader m, Header_SignatureHeader m))
    (fun '(a0, a1) => mkHeader a0 a1) _).
  by intros [].
Defined.

#[global] Instance Payload_eq_dec : EqDecision Payload.
Proof. solve_decision. Defined.

#[global] Instance Payload_wire : Wire Payload.
Proof.
  refine (wire_iso
    (fun m => (Payload_Header m, Payload_Data m))
    (fun '(a0, a1) => mkPayload a0 a1) _).
  by intros [].
Defined.

#[global] Instance ChannelHeader_eq_dec : EqDecision ChannelHeader.
Proof. solve_decision. Defined.

#[global] Instance ChannelHeader_wire : Wire ChannelHeader.
Proof.
  refine (wire_iso
    (fun m => (ChannelHeader_Type m, ChannelHeader_Version m, ChannelHeader_Timestamp m, ChannelHeader_ChannelId m, ChannelHeader_TxId m, ChannelHeader_Epoch m, ChannelHeader_Extension m, ChannelHeader_TlsCertHash m))
    (fun '(a0, a1, a2, a3, a4, a5, a6, a7) => mkChannelHeader a0 a1 a2 a3 a4 a5 a6 a7) _).
  by intros [].
Defined.

#[global] Instance SignatureHeader_eq_dec : EqDecision SignatureHeader.
Proof. solve_decision. Defined.

#[global] Instance SignatureHeader_wire : Wire SignatureHeader.
Proof.
  refine (wire_iso
    (fun m => (SignatureHeader_Creator m, SignatureHeader_Nonce m))
    (fun '(a0, a1) => mkSignatureHeader a0 a1) _).
  by intros [].
Defined.

#[global] Instance MetadataSignature_eq_dec : EqDecision MetadataSignature.
Proof. solve_decision. Defined.

#[global] Instance MetadataSignature_wire : Wire MetadataSignature.
Proof.
  refine (wire_iso
    (fun m => (MetadataSignature_SignatureHeader m, MetadataSignature_Signature m))
    (fun '(a0, a1) => mkMetadataSignature a0 a1) _).
  by intros [].
Defined.

#[global] Instance Metadata_eq_dec : EqDecision Metadata.
Proof. solve_decision. Defined.

#[global] Instance Metadata_wire : Wire Metadata.
Proof.
  refine (wire_iso
    (fun m => (Metadata_Value m, Metadata_Signatures m))
    (fun '(a0, a1) => mkMetadata a0 a1) _).
  by intros [].
Defined.

#[global] Instance LastConfig_eq_dec : EqDecision LastConfig.
Proof. solve_decision. Defined.

#[global] Instance LastConfig_wire : Wire LastConfig.
Proof.
  refine (wire_iso
    LastConfig_Index
    mkLastConfig _).
  by intros [].
Defined.

#[global] Instance OrdererBlockMetadata_eq_dec : EqDecision OrdererBlockMetadata.
Proof. solve_decision. Defined.

#[global] Instance OrdererBlockMetadata_wire : Wire OrdererBlockMetadata.
Proof.
  refine (wire_iso
    (fun m => (OBM_LastConfig m, OBM_ConsenterMetadata m))
    (fun '(a0, a1) => mkOrdererBlockMetadata a0 a1) _).
  by intros [].
Defined.

#[global] Instance TransactionAction_eq_dec : EqDecision TransactionAction.
Proof. solve_decision. Defined.

#[global] Instance TransactionAction_wire : Wire TransactionAction.
Proof.
  refine (wire_iso
    (fun m => (TransactionAction_Header m, TransactionAction_Payload m))
    (fun '(a0, a1) => mkTransactionAction a0 a1) _).
  by intros [].
Defined.

#[global] Instance Transaction_eq_dec : EqDecision Transaction.
Proof. solve_decision. Defined.

#[global] Instance Transaction_wire : Wire Transaction.
Proof.
  refine (wire_iso
    Transaction_Actions
    mkTransaction _).
  by intros [].
Defined.

#[global] Instance Endorsement_eq_dec : EqDecision Endorsement.
Proof. solve_decision. Defined.

#[global] Instance Endorsement_wire : Wire Endorsement.
Proof.
  refine (wire_iso
    (fun m => (Endorsement_Endorser m, Endorsement_Signature m))
    (fun '(a0, a1) => mkEndorsement a0 a1) _).
  by intros [].
Defined.

#[global] Instance ChaincodeEndorsedAction_eq_dec : EqDecision ChaincodeEndorsedAction.
Proof. solve_decision. Defined.

#[global] Instance ChaincodeEndorsedAction_wire : Wire ChaincodeEndorsedAction.
Proof.
  refine (wire_iso
    (fun m => (CEA_ProposalResponsePayload m, CEA_Endorsements m))
    (fun '(a0, a1) => mkChaincodeEndorsedAction a0 a1) _).
  by intros [].
Defined.

#[global] Instance ChaincodeActionPayload_eq_dec : EqDecision ChaincodeActionPayload.
Proof. solve_decision. Defined.

#[global] Instance ChaincodeActionPayload_wire : Wire ChaincodeActionPayload.
Proof.
  refine (wire_iso
    (fun m => (CAP_ChaincodeProposalPayload m, CAP_Action m))
    (fun '(a0, a1) => mkChaincodeActionPayload a0 a1) _).
  by intros [].
Defined.

#[global] Instance ChaincodeProposalPayload_eq_dec : EqDecision ChaincodeProposalPayload.
Proof. solve_decision. Defined.

#[global] Instance ChaincodeProposalPayload_wire : Wire ChaincodeProposalPayload.
Proof.
  refine (wire_iso
    (fun m => (CPP_Input m, CPP_TransientMap m))
    (fun '(a0, a1) => mkChaincodeProposalPayload a0 a1) _).
  by intros [].
Defined.

#[global] Instance ChaincodeID_eq_dec : EqDecision ChaincodeID.
Proof. solve_decision. Defined.

#[global] Instance ChaincodeID_wire : Wire ChaincodeID.
Proof.
  refine (wire_iso
    (fun m => (ChaincodeID_Path m, ChaincodeID_Name m, ChaincodeID_Version m))
    (fun '(a0, a1, a2) => mkChaincodeID a0 a1 a2) _).
  by intros [].
Defined.

#[global] Instance ChaincodeInput_eq_dec : EqDecision ChaincodeInput.
Proof. solve_decision. Defined.

#[global] Instance ChaincodeInput_wire : Wire ChaincodeInput.
Proof.
  refine (wire_iso
    (fun m => (ChaincodeInput_Args m, ChaincodeInput_Decorations m, ChaincodeInput_IsInit m))
    (fun '(a0, a1, a2) => mkChaincodeInput a0 a1 a2) _).
  by intros [].
Defined.

#[global] Instance ChaincodeSpec_eq_dec : EqDecision ChaincodeSpec.
Proof. solve_decision. Defined.

#[global] Instance ChaincodeSpec_wire : Wire ChaincodeSpec.
Proof.
  refine (wire_iso
    (fun m => (ChaincodeSpec_Type m, ChaincodeSpec_ChaincodeId m, ChaincodeSpec_Input m, ChaincodeSpec_Timeout m))
    (fun '(a0, a1, a2, a3) => mkChaincodeSpec a0 a1 a2 a3) _).
  by intros [].
Defined.

#[global] Instance ChaincodeInvocationSpec_eq_dec : EqDecision ChaincodeInvocationSpec.
Proof. solve_decision. Defined.

#[global] Instance ChaincodeInvocationSpec_wire : Wire ChaincodeInvocationSpec.
Proof.
  refine (wire_iso
    CIS_ChaincodeSpec
    mkChaincodeInvocationSpec _).
  by intros [].
Defined.

#[global] Instance Response_eq_dec : EqDecision Response.
Proof. solve_decision. Defined.

#[global] Instance Response_wire : Wire Response.
Proof.
  refine (wire_iso
    (fun m => (Response_Status m, Response_Message m, Response_Payload m))
    (fun '(a0, a1, a2) => mkResponse a0 a1 a2) _).
  by intros [].
Defined.

#[global] Instance ProposalResponsePayload_eq_dec : EqDecision ProposalResponsePayload.
Proof. solve_decision. Defined.

#[global] Instance ProposalResponsePayload_wire : Wire ProposalResponsePayload.
Proof.
  refine (wire_iso
    (fun m => (PRP_ProposalHash m, PRP_Extension m))
    (fun '(a0, a1) => mkProposalResponsePayload a0 a1) _).
  by intros [].
Defined.

#[global] Instance ChaincodeAction_eq_dec : EqDecision ChaincodeAction.
Proof. solve_decision. Defined.

#[global] Instance ChaincodeAction_wire : Wire ChaincodeAction.
Proof.
  refine (wire_iso
    (fun m => (ChaincodeAction_Results m, ChaincodeAction_Events m, ChaincodeAction_Response m, ChaincodeAction_ChaincodeId m))
    (fun '(a0, a1, a2, a3) => mkChaincodeAction a0 a1 a2 a3) _).
  by intros [].
Defined.

#[global] Instance CollectionHashedReadWriteSet_eq_dec : EqDecision CollectionHashedReadWriteSet.
Proof. solve_decision. Defined.

#[global] Instance CollectionHashedReadWriteSet_wire : Wire CollectionHashedReadWriteSet.
Proof.
  refine (wire_iso
    (fun m => (CHRWS_CollectionName m, CHRWS_HashedRwset m, CHRWS_PvtRwsetHash m))
    (fun '(a0, a1, a2) => mkCollectionHashedReadWriteSet a0 a1 a2) _).
  by intros [].
Defined.

#[global] Instance NsReadWriteSet_eq_dec : EqDecision NsReadWriteSet.
Proof. solve_decision. Defined.

#[global] Instance NsReadWriteSet_wire : Wire NsReadWriteSet.
Proof.
  refine (wire_iso
    (fun m => (NsRWS_Namespace m, NsRWS_Rwset m, NsRWS_CollectionHashedRwset m))
    (fun '(a0, a1, a2) => mkNsReadWriteSet a0 a1 a2) _).
  by intros [].
Defined.

#[global] Instance TxReadWriteSet_eq_dec : EqDecision TxReadWriteSet.
Proof. solve_decision. Defined.

#[global] Instance TxReadWriteSet_wire : Wire TxReadWriteSet.
Proof.
  refine (wire_iso
    (fun m => (TxRWS_DataModel m, TxRWS_NsRwset m))
    (fun '(a0, a1) => mkTxReadWriteSet a0 a1) _).
  by intros [].
Defined.

#[global] Instance Version_eq_dec : EqDecision Version.
Proof. solve_decision. Defined.

#[global] Instance Version_wire : Wire Version.
Proof.
  refine (wire_iso
    (fun m => (Version_BlockNum m, Version_TxNum m))
    (fun '(a0, a1) => mkVersion a0 a1) _).
  by intros [].
Defined.

#[global] Instance KVRead_eq_dec : EqDecision KVRead.
Proof. solve_decision. Defined.

#[global] Instance KVRead_wire : Wire KVRead.
Proof.
  refine (wire_iso
    (fun m => (KVRead_Key m, KVRead_Version m))
    (fun '(a0, a1) => mkKVRead a0 a1) _).
  by intros [].
Defined.

#[global] Instance KVWrite_eq_dec : EqDecision KVWrite.
Proof. solve_decision. Defined.

#[global] Instance KVWrite_wire : Wire KVWrite.
Proof.
  refine (wire_iso
    (fun m => (KVWrite_Key m, KVWrite_IsDelete m, KVWrite_Value m))
    (fun '(a0, a1, a2) => mkKVWrite a0 a1 a2) _).
  by intros [].
Defined.

#[global] Instance KVMetadataEntry_eq_dec : EqDecision KVMetadataEntry.
Proof. solve_decision. Defined.

#[global] Instance KVMetadataEntry_wire : Wire KVMetadataEntry.
Proof.
  refine (wire_iso
    (fun m => (KVMetadataEntry_Name m, KVMetadataEntry_Value m))
    (fun '(a0, a1) => mkKVMetadataEntry a0 a1) _).
  by intros [].
Defined.

#[global] Instance KVMetadataWrite_eq_dec : EqDecision KVMetadataWrite.
Proof. solve_decision. Defined.

#[global] Instance KVMetadataWrite_wire : Wire KVMetadataWrite.
Proof.
  refine (wire_iso
    (fun m => (KVMetadataWrite_Key m, KVMetadataWrite_Entries m))
    (fun '(a0, a1) => mkKVMetadataWrite a0 a1) _).
  by intros [].
Defined.

#[global] Instance QueryReadsMerkleSummary_eq_dec : EqDecision QueryReadsMerkleSummary.
Proof. solve_decision. Defined.

#[global] Instance QueryReadsMerkleSummary_wire : Wire QueryReadsMerkleSummary.
Proof.
  refine (wire_iso
    (fun m => (QRMS_MaxDegree m, QRMS_MaxLevel m, QRMS_MaxLevelHashes m))
    (fun '(a0, a1, a2) => mkQueryReadsMerkleSummary a0 a1 a2) _).
  by intros [].
Defined.

#[global] Instance RangeQueryInfo_ReadsInfo_eq_dec : EqDecision RangeQueryInfo_ReadsInfo.
Proof. solve_decision. Defined.
#[global] Instance RangeQueryInfo_ReadsInfo_wire : Wire RangeQueryInfo_ReadsInfo.
Proof.
  refine (wire_iso (fun r => match r with RawReads l => inl l | ReadsMerkleHashes s => inr s end)
    (fun x => match x with inl l => RawReads l | inr s => ReadsMerkleHashes s end) _).
  by intros [].
Defined.
#[global] Instance RangeQueryInfo_eq_dec : EqDecision RangeQueryInfo.
Proof. solve_decision. Defined.

#[global] Instance RangeQueryInfo_wire : Wire RangeQueryInfo.
Proof.
  refine (wire_iso
    (fun m => (RQI_StartKey m, RQI_EndKey m, RQI_ItrExhausted m, RQI_ReadsInfo m))
    (fun '(a0, a1, a2, a3) => mkRangeQueryInfo a0 a1 a2 a3) _).
  by intros [].
Defined.

#[global] Instance KVRWSet_eq_dec : EqDecision KVRWSet.
Proof. solve_decision. Defined.

#[global] Instance KVRWSet_wire : Wire KVRWSet.
Proof.
  refine (wire_iso
    (fun m => (KVRWSet_Reads m, KVRWSet_RangeQueriesInfo m, KVRWSet_Writes m, KVRWSet_MetadataWrites m))
    (fun '(a0, a1, a2, a3) => mkKVRWSet a0 a1 a2 a3) _).
  by intros [].
Defined.

#[global] Instance TxIDIndexValue_eq_dec : EqDecision TxIDIndexValue.
Proof. solve_decision. Defined.

#[global] Instance TxIDIndexValue_wire : Wire TxIDIndexValue.
Proof.
  refine (wire_iso
    (fun m => (TxIDIV_BlkLocation m, TxIDIV_TxLocation m, TxIDIV_TxValidationCode m))
    (fun '(a0, a1, a2) => mkTxIDIndexValue a0 a1 a2) _).
  by intros [].
Defined.

#[global] Instance BootstrappingSnapshotInfo_eq_dec : EqDecision BootstrappingSnapshotInfo.
Proof. solve_decision. Defined.

#[global] Instance BootstrappingSnapshotInfo_wire : Wire BootstrappingSnapshotInfo.
Proof.
  refine (wire_iso
    (fun m => (BSI_LastBlockNum m, BSI_LastBlockHash m, BSI_PreviousBlockHash m))
    (fun '(a0, a1, a2) => mkBootstrappingSnapshotInfo a0 a1 a2) _).
  by intros [].
Defined.

Definition wire_protos : Protos := {|
  Protos_Envelope := wire_codec Envelope (Some (mkEnvelope [] []));
  Protos_Payload := wire_codec Payload (Some (mkPayload None []));
  Protos_ChannelHeader := wire_codec ChannelHeader None;
  Protos_SignatureHeader := wire_codec SignatureHeader None;
  Protos_Metadata := wire_codec Metadata None;
  Protos_LastConfig := wire_codec LastConfig None;
  Protos_OBM := wire_codec OrdererBlockMetadata None;
  Protos_Transaction := wire_codec Transaction (Some (mkTransaction []));
  Protos_CAP := wire_codec ChaincodeActionPayload None;
  Protos_CPP := wire_codec ChaincodeProposalPayload None;
  Protos_CIS := wire_codec ChaincodeInvocationSpec None;
  Protos_PRP := wire_codec ProposalResponsePayload None;
  Protos_ChaincodeAction := wire_codec ChaincodeAction None;
  Protos_TxRWS := wire_codec TxReadWriteSet None;
  Protos_KVRWSet := wire_codec KVRWSet None;
  Protos_TxIDIndexValue := wire_codec TxIDIndexValue None;
  Protos_BSI := wire_codec BootstrappingSnapshotInfo None |}.

#[global] Instance wire_protos_ok : @ProtosOk wire_protos.
Proof.
  constructor; try apply wire_codec_ok; try done.
  intros v _. apply wr_nonempty.
Qed.
