(* ===== verification/Block.v ===== *)
(** * Blocks: construction, header encoding, metadata

    src/protoutil/blockutils.go and the block part of src/protoutil/txutils.go
    and proputils.go: [NewBlock], the ASN.1 header encoding behind the hash
    chain, the accessors of block metadata, and the transaction id of an
    envelope. *)

From S2P Require Import Prelude OrderedCode Sha256 GoBig GoOS Proto.

(** ** Data *)

Record BlockHeader := mkBlockHeader {
  Number : Z;
  PreviousHash : bytes;
  DataHash : bytes }.

(** [Block_Metadata] is the pointer [block.Metadata] ([None] when nil). *)
Record Block := mkBlock {
  Block_Header : BlockHeader;
  Block_Data : list bytes;
  Block_Metadata : option (list bytes) }.

#[global] Instance BlockHeader_eq_dec : EqDecision BlockHeader.
Proof. solve_decision. Defined.
#[global] Instance Block_eq_dec : EqDecision Block.
Proof. solve_decision. Defined.

(** The number of entries of [cb.BlockMetadataIndex_name]: SIGNATURES,
    LAST_CONFIG, TRANSACTIONS_FILTER, ORDERER, COMMIT_HASH. *)
Definition BlockMetadataIndex_SIGNATURES : nat := 0.
Definition BlockMetadataIndex_LAST_CONFIG : nat := 1.
Definition BlockMetadataIndex_TRANSACTIONS_FILTER : nat := 2.
Definition BlockMetadataIndex_ORDERER : nat := 3.
Definition BlockMetadataIndex_COMMIT_HASH : nat := 4.

Definition NewBlock (seqNum : Z) (previousHash : bytes) : Block :=
  mkBlock (mkBlockHeader seqNum previousHash []) [] (Some (replicate 5 [])).

(** ** encoding/asn1 on the header struct: DER *)

(** Length octets: one byte below 128, otherwise the count of the big-endian
    octets that follow. *)
Definition der_length (n : Z) : bytes :=
  if n <? 128 then [z2b n]
  else let b := big_Bytes n in z2b (128 + zlen b) :: b.

Definition der_tlv (tag : byte) (content : bytes) : bytes :=
  tag :: der_length (zlen content) ++ content.

(** A non-negative INTEGER: minimal big-endian, with a zero octet in front when
    the top bit would read as a sign. *)
Definition der_int (n : Z) : bytes :=
  match big_Bytes n with
  | [] => [Byte.x00]
  | b :: r => if 128 <=? b2z b then Byte.x00 :: b :: r else b :: r
  end.

Definition BlockHeaderBytes (b : BlockHeader) : bytes :=
  der_tlv Byte.x30
    (der_tlv Byte.x02 (der_int (Number b)) ++
     der_tlv Byte.x04 (PreviousHash b) ++
     der_tlv Byte.x04 (DataHash b)).

Definition BlockHeaderHash (b : BlockHeader) : bytes := Sum256 (BlockHeaderBytes b).

(** ** Envelopes and transaction ids *)

Section WithProtos.
Context {PR : Protos}.

Definition UnmarshalEnvelope (encoded : bytes) : outcome Envelope := proto_Unmarshal encoded.
Definition UnmarshalPayload (encoded : bytes) : outcome Payload := proto_Unmarshal encoded.
Definition UnmarshalChannelHeader (encoded : bytes) : outcome ChannelHeader := proto_Unmarshal encoded.
Definition UnmarshalSignatureHeader (encoded : bytes) : outcome SignatureHeader := proto_Unmarshal encoded.
Definition UnmarshalTransaction (encoded : bytes) : outcome Transaction := proto_Unmarshal encoded.
Definition UnmarshalChaincodeActionPayload (encoded : bytes) : outcome ChaincodeActionPayload := proto_Unmarshal encoded.
Definition UnmarshalChaincodeProposalPayload (encoded : bytes) : outcome ChaincodeProposalPayload := proto_Unmarshal encoded.
Definition UnmarshalProposalResponsePayload (encoded : bytes) : outcome ProposalResponsePayload := proto_Unmarshal encoded.
Definition UnmarshalChaincodeAction (encoded : bytes) : outcome ChaincodeAction := proto_Unmarshal encoded.
Definition UnmarshalChaincodeInvocationSpec (encoded : bytes) : outcome ChaincodeInvocationSpec := proto_Unmarshal encoded.

Definition GetEnvelopeFromBlock (data : bytes) : outcome Envelope := proto_Unmarshal data.

(** [hex.EncodeToString]. *)
Definition EncodeToString (b : bytes) : bytes :=
  b ≫= fun x => [hexDigit (b2z x / 16); hexDigit (b2z x mod 16)].

Definition ComputeTxID (nonce creator : bytes) : bytes := EncodeToString (Sum256 (nonce ++ creator)).

Definition CheckTxID (txid nonce creator : bytes) : outcome unit :=
  if bool_decide (txid = ComputeTxID nonce creator) then Ret tt
  else Err (Errorf "invalid txid. got [%s], expected [%s]").

Definition GetOrComputeTxIDFromEnvelope (txEnvelopBytes : bytes) : outcome bytes :=
  txEnvelope ← UnmarshalEnvelope txEnvelopBytes;
  txPayload ← UnmarshalPayload (Envelope_Payload txEnvelope);
  if negb (is_Some_b (Payload_Header txPayload))
  then Err (Errorf "error getting txID from header: payload header is nil") else
  header ← nil_deref (Payload_Header txPayload);
  chdr ← UnmarshalChannelHeader (Header_ChannelHeader header);
  if bool_decide (ChannelHeader_TxId chdr <> []) then Ret (ChannelHeader_TxId chdr) else
  sighdr ← UnmarshalSignatureHeader (Header_SignatureHeader header);
  Ret (ComputeTxID (SignatureHeader_Nonce sighdr) (SignatureHeader_Creator sighdr)).

Definition GetChannelIDFromBlock (block : Block) : outcome bytes :=
  match Block_Data block with
  | [] => Err (Errorf "failed to retrieve channel id - block is empty")
  | d :: _ =>
      envelope ← GetEnvelopeFromBlock d;
      payload ← UnmarshalPayload (Envelope_Payload envelope);
      match Payload_Header payload with
      | None => Err (Errorf "failed to retrieve channel id - payload header is empty")
      | Some header =>
          chdr ← UnmarshalChannelHeader (Header_ChannelHeader header);
          Ret (ChannelHeader_ChannelId chdr)
      end
  end.

(** ** Metadata *)

Definition GetMetadataFromBlock (block : Block) (index : nat) : outcome Metadata :=
  match Block_Metadata block with
  | None => Err (Errorf "no metadata in block")
  | Some md =>
      match md !! index with
      | None => Err (Errorf "no metadata at index [%s]")
      | Some raw => proto_Unmarshal raw
      end
  end.

(** The caller that turns any error into a panic. *)
Definition OrPanic {A} (o : outcome A) : outcome A :=
  match o with
  | Err _ => Panic "err"
  | _ => o
  end.

Definition GetMetadataFromBlockOrPanic (block : Block) (index : nat) : outcome Metadata :=
  OrPanic (GetMetadataFromBlock block index).

Definition GetConsenterMetadataFromBlock (block : Block) : outcome Metadata :=
  m ← GetMetadataFromBlock block BlockMetadataIndex_SIGNATURES;
  if zlen (Metadata_Value m) =? 0 then GetMetadataFromBlock block BlockMetadataIndex_ORDERER else
  obm ← proto_Unmarshal (A := OrdererBlockMetadata) (Metadata_Value m);
  proto_Unmarshal (OBM_ConsenterMetadata obm).

Definition GetLastConfigIndexFromBlock (block : Block) : outcome Z :=
  m ← GetMetadataFromBlock block BlockMetadataIndex_SIGNATURES;
  if zlen (Metadata_Value m) =? 0 then
    m ← GetMetadataFromBlock block BlockMetadataIndex_LAST_CONFIG;
    lc ← proto_Unmarshal (A := LastConfig) (Metadata_Value m);
    Ret (LastConfig_Index lc)
  else
    obm ← proto_Unmarshal (A := OrdererBlockMetadata) (Metadata_Value m);
    match OBM_LastConfig obm with
    | None => Panic "nil pointer dereference"
    | Some lc => Ret (LastConfig_Index lc)
    end.

Definition GetLastConfigIndexFromBlockOrPanic (block : Block) : outcome Z :=
  OrPanic (GetLastConfigIndexFromBlock block).

End WithProtos.

Definition InitBlockMetadata (block : Block) : Block :=
  mkBlock (Block_Header block) (Block_Data block)
    (match Block_Metadata block with
     | None => Some (replicate 5 [])
     | Some md => Some (md ++ replicate (S BlockMetadataIndex_COMMIT_HASH - length md) [])
     end).

(** [dst.Metadata = src.Metadata], then the missing positions.  The two blocks
    share the metadata object: appending to it is visible through both, which is
    why both are returned. *)
Definition CopyBlockMetadata (src dst : Block) : Block * Block :=
  let dst' := mkBlock (Block_Header dst) (Block_Data dst) (Block_Metadata src) in
  let dst'' := InitBlockMetadata dst' in
  match Block_Metadata src with
  | None => (src, dst'')
  | Some _ => (mkBlock (Block_Header src) (Block_Data src) (Block_Metadata dst''), dst'')
  end.

(** ** The header encoding determines the header *)

Definition BlockHeader_wf (h : BlockHeader) : Prop :=
  is_u64 (Number h) /\ zlen (PreviousHash h) < 2 ^ 62 /\ zlen (DataHash h) < 2 ^ 62.

Lemma der_length_inj (n m : Z) (x y : bytes) :
  0 <= n < 2 ^ 127 -> 0 <= m < 2 ^ 127 ->
  der_length n ++ x = der_length m ++ y -> n = m /\ x = y.
Proof.
  intros Hn Hm. unfold der_length.
  pose proof (big_Bytes_length n 127 Hn ltac:(lia)) as Ln.
  pose proof (big_Bytes_length m 127 Hm ltac:(lia)) as Lm.
  pose proof (zlen_nonneg (big_Bytes n)). pose proof (zlen_nonneg (big_Bytes m)).
  destruct (Z.ltb_spec n 128), (Z.ltb_spec m 128); cbn [app]; intros [= E1 E2];
    apply (f_equal b2z) in E1; rewrite !b2z_z2b, !Z.mod_small in E1 by lia; try lia.
  - done.
  - assert (length (big_Bytes n) = length (big_Bytes m)) by (unfold zlen in *; lia).
    apply app_inj_1 in E2 as [E ->]; [|done]. split; [|done]. by apply big_Bytes_inj; try lia.
Qed.

Lemma der_tlv_inj (tag : byte) (a b x y : bytes) :
  zlen a < 2 ^ 127 -> zlen b < 2 ^ 127 ->
  der_tlv tag a ++ x = der_tlv tag b ++ y -> a = b /\ x = y.
Proof.
  intros Ha Hb E. unfold der_tlv in E. injection E as E. rewrite <- !app_assoc in E.
  apply der_length_inj in E as [EL E]; [|split; [apply zlen_nonneg|done]..].
  apply app_inj_1 in E; [done|]. unfold zlen in EL. lia.
Qed.

Lemma be_val_cons_zero (l : bytes) : be_val (Byte.x00 :: l) = be_val l.
Proof. exact (be_val_zeros 1 l). Qed.

Lemma der_int_val (n : Z) : 0 <= n -> be_val (der_int n) = n.
Proof.
  intros Hn. rewrite <- (big_SetBytes_Bytes n) at 2 by done. unfold der_int, big_SetBytes.
  destruct (big_Bytes n); [done|]. destruct (_ <=? _); [apply be_val_cons_zero | done].
Qed.

Lemma der_int_length (n : Z) : is_u64 n -> zlen (der_int n) <= 65.
Proof.
  intros Hn. pose proof (big_Bytes_length n 64 Hn ltac:(lia)) as L. unfold der_int.
  destruct (big_Bytes n); [done|]. destruct (_ <=? _); rewrite ?zlen_cons in *; lia.
Qed.

Lemma der_tlv_length (tag : byte) (a : bytes) : zlen a < 2 ^ 127 -> zlen (der_tlv tag a) <= zlen a + 129.
Proof.
  intros Ha. unfold der_tlv, der_length. pose proof (zlen_nonneg a).
  pose proof (big_Bytes_length (zlen a) 127 ltac:(lia) ltac:(lia)).
  destruct (_ <? _); rewrite zlen_cons, zlen_app, ?zlen_cons, ?zlen_nil; lia.
Qed.

(** Two headers with the same encoding are the same header: the block hash
    commits to the number, the previous hash and the data hash. *)
Theorem BlockHeaderBytes_inj (h1 h2 : BlockHeader) :
  BlockHeader_wf h1 -> BlockHeader_wf h2 ->
  BlockHeaderBytes h1 = BlockHeaderBytes h2 <-> h1 = h2.
Proof.
  intros Hw1 Hw2. split; [|by intros ->]. revert Hw1 Hw2. destruct h1 as [n1 p1 d1], h2 as [n2 p2 d2]. intros (Hn1 & Hp1 & Hd1) (Hn2 & Hp2 & Hd2).
  cbn [Number PreviousHash DataHash] in *. unfold BlockHeaderBytes. cbn [Number PreviousHash DataHash].
  assert (P : 2 ^ 62 < 2 ^ 127 - 10000) by done.
  assert (Q : forall n p d, is_u64 n -> zlen p < 2 ^ 62 -> zlen d < 2 ^ 62 ->
    zlen (der_tlv Byte.x02 (der_int n) ++ der_tlv Byte.x04 p ++ der_tlv Byte.x04 d) < 2 ^ 127).
  { intros n p d Hn Hp Hd. rewrite !zlen_app. pose proof (der_int_length n Hn).
    pose proof (der_tlv_length Byte.x02 (der_int n)). pose proof (der_tlv_length Byte.x04 p).
    pose proof (der_tlv_length Byte.x04 d). assert (2 ^ 62 + 2 ^ 62 < 2 ^ 127 - 10000) by done. lia. }
  intros E. rewrite <- (app_nil_r (der_tlv _ _)), <- (app_nil_r (der_tlv _ (_ ++ der_tlv _ p2 ++ _))) in E.
  apply der_tlv_inj in E as [E _]; [|by apply Q..].
  pose proof (der_int_length n1 Hn1). pose proof (der_int_length n2 Hn2).
  apply der_tlv_inj in E as [En E]; [|lia..].
  apply der_tlv_inj in E as [-> E]; [|lia..].
  rewrite <- (app_nil_r (der_tlv _ d1)), <- (app_nil_r (der_tlv _ d2)) in E.
  apply der_tlv_inj in E as [-> _]; [|lia..].
  f_equal. rewrite <- (der_int_val n1), <- (der_int_val n2) by (unfold is_u64 in *; lia). by rewrite En.
Qed.

(** ** Metadata slots *)

(** After the initialisation every metadata slot exists, and the slots that were
    there keep their content. *)
Theorem InitBlockMetadata_slots (block : Block) (i : nat) :
  (i <= BlockMetadataIndex_COMMIT_HASH)%nat ->
  exists md b, Block_Metadata (InitBlockMetadata block) = Some md /\ md !! i = Some b /\
    (forall md0 c, Block_Metadata block = Some md0 -> md0 !! i = Some c -> b = c).
Proof.
  unfold InitBlockMetadata, BlockMetadataIndex_COMMIT_HASH. intros Hi.
  destruct block as [h d [md|]]; cbn [Block_Metadata].
  - destruct (md !! i) as [b|] eqn:E.
    + eexists _, b. split; [done|]. split; [by apply lookup_app_l_Some|]. intros ? ? [= <-]. congruence.
    + apply lookup_ge_None in E. eexists _, [].
      split; [done|]. split.
      * rewrite lookup_app_r by done. apply lookup_replicate_2. lia.
      * intros ? ? [= <-] Hc. apply lookup_lt_Some in Hc. lia.
  - eexists _, []. split; [done|]. split; [apply lookup_replicate_2; lia | done].
Qed.

(** A change of the data hash changes what is hashed. *)
Lemma BlockHeaderBytes_inj_witness :
  BlockHeaderBytes (mkBlockHeader 3 (str "p") (str "d")) <> BlockHeaderBytes (mkBlockHeader 3 (str "p") (str "e")).
Proof.
  intros E. apply BlockHeaderBytes_inj in E; [discriminate E|..]; split_and!; done.
Defined.

Lemma InitBlockMetadata_slots_witness :
  exists md b, Block_Metadata (InitBlockMetadata (mkBlock (mkBlockHeader 3 [] []) [] (Some [str "sig"]))) = Some md /\
    md !! 0%nat = Some b /\ b = str "sig".
Proof.
  destruct (InitBlockMetadata_slots (mkBlock (mkBlockHeader 3 [] []) [] (Some [str "sig"])) 0) as (md & b & H1 & H2 & H3).
  - unfold BlockMetadataIndex_COMMIT_HASH. lia.
  - exists md, b. split; [exact H1|]. split; [exact H2|]. exact (H3 [str "sig"] (str "sig") eq_refl eq_refl).
Defined.
