(* ===== verification/BlockSerialization.v ===== *)
(** * The block file format

    src/common/ledger/blkstorage/protobuf_util.go and block_serialization.go: a
    block is a sequence of varints and length-prefixed byte strings.  The writer
    returns, with the bytes, the place of every transaction in them; the reader
    recomputes the places from the bytes it consumed. *)

From S2P Require Import Prelude Varint OrderedCode Sha256 GoBig GoOS Proto Block.

(** ** Data *)

(** [type buffer struct { buf *proto.Buffer; position int }] *)
Record buffer := mkbuffer { pbuf : Buffer; position : Z }.

Record locPointer := mklocPointer { loc_offset : Z; loc_bytesLength : Z }.

Record txindexInfo := mktxindexInfo { txi_txID : bytes; txi_loc : locPointer }.

Record serializedBlockInfo := mkserializedBlockInfo {
  sbi_blockHeader : BlockHeader;
  sbi_txOffsets : list txindexInfo;
  sbi_metadata : option (list bytes) }.

(** ** The position-tracking reader *)

Definition newBuffer (b : bytes) : buffer := mkbuffer (NewBuffer b) 0.

Definition buffer_DecodeVarint : M buffer Z := fun b =>
  match Buffer_DecodeVarint (pbuf b) with
  | Ret (val, p) => (Ret val, mkbuffer p (position b + SizeVarint val))
  | Err e => (Err e, b)
  | Panic msg => (Panic msg, b)
  end.

Definition buffer_DecodeRawBytes : M buffer bytes := fun b =>
  match DecodeRawBytes (pbuf b) with
  | Ret (val, p) => (Ret val, mkbuffer p (position b + (SizeVarint (u64 (zlen val)) + zlen val)))
  | Err e => (Err e, b)
  | Panic msg => (Panic msg, b)
  end.

Definition GetBytesConsumed : M buffer Z := fun b => (Ret (position b), b).

(** ** Writing *)

Definition addHeaderBytes (blockHeader : BlockHeader) (buf : Buffer) : Buffer :=
  let buf := Buffer_EncodeVarint (Number blockHeader) buf in
  let buf := EncodeRawBytes (DataHash blockHeader) buf in
  EncodeRawBytes (PreviousHash blockHeader) buf.

Section WithProtos.
Context {PR : Protos}.

(** [txid, err := GetOrComputeTxIDFromEnvelope(...)] where the error is logged and
    ignored; a panic goes through. *)
Definition txid_ignoring_error (txEnvelopeBytes : bytes) : outcome bytes :=
  match GetOrComputeTxIDFromEnvelope txEnvelopeBytes with
  | Err _ => Ret []
  | r => r
  end.

Fixpoint addData_loop (data : list bytes) (buf : Buffer) (txOffsets : list txindexInfo) :
    outcome (list txindexInfo * Buffer) :=
  match data with
  | [] => Ret (txOffsets, buf)
  | txEnvelopeBytes :: data' =>
      let offset := zlen (Varint.buf buf) in
      txid ← txid_ignoring_error txEnvelopeBytes;
      let buf := EncodeRawBytes txEnvelopeBytes buf in
      let idxInfo := mktxindexInfo txid (mklocPointer offset (zlen (Varint.buf buf) - offset)) in
      addData_loop data' buf (txOffsets ++ [idxInfo])
  end.

Definition addDataBytesAndConstructTxIndexInfo (data : list bytes) (buf : Buffer) :
    outcome (list txindexInfo * Buffer) :=
  addData_loop data (Buffer_EncodeVarint (u64 (zlen data)) buf) [].

(** The count is guarded against a nil metadata pointer, the loop is not. *)
Definition addMetadataBytes (blockMetadata : option (list bytes)) (buf : Buffer) : outcome Buffer :=
  let numItems := match blockMetadata with Some md => u64 (zlen md) | None => 0 end in
  let buf := Buffer_EncodeVarint numItems buf in
  match blockMetadata with
  | None => Panic "nil pointer dereference"
  | Some md => Ret (fold_left (fun buf b => EncodeRawBytes b buf) md buf)
  end.

Definition serializeBlock (block : Block) : outcome (bytes * serializedBlockInfo) :=
  let buf := NewBuffer [] in
  let buf := addHeaderBytes (Block_Header block) buf in
  '(txOffsets, buf) ← addDataBytesAndConstructTxIndexInfo (Block_Data block) buf;
  buf ← addMetadataBytes (Block_Metadata block) buf;
  Ret (Varint.buf buf, mkserializedBlockInfo (Block_Header block) txOffsets (Block_Metadata block)).

(** The exported copy used by the redaction code. *)
Definition SerializeBlock (block : Block) : outcome (bytes * serializedBlockInfo) :=
  let buf := NewBuffer [] in
  let buf := addHeaderBytes (Block_Header block) buf in
  '(txOffsets, buf) ← addDataBytesAndConstructTxIndexInfo (Block_Data block) buf;
  buf ← addMetadataBytes (Block_Metadata block) buf;
  Ret (Varint.buf buf, mkserializedBlockInfo (Block_Header block) txOffsets (Block_Metadata block)).

(** ** Reading *)

Definition extractHeader : M buffer BlockHeader :=
  number ← buffer_DecodeVarint;
  dataHash ← buffer_DecodeRawBytes;
  previousHash ← buffer_DecodeRawBytes;
  mret (mkBlockHeader number previousHash dataHash).

(** [for i := uint64(0); i < numItems; i++]: every iteration consumes at least
    one byte, so the bytes left bound the iterations. *)
Fixpoint extractData_loop (fuel : nat) (i numItems : Z) (data : list bytes) (txOffsets : list txindexInfo) :
    M buffer (list bytes * list txindexInfo) :=
  if negb (i <? numItems) then mret (data, txOffsets) else
  match fuel with
  | O => panic "out of fuel"
  | S fuel' =>
      txOffset ← GetBytesConsumed;
      txEnvBytes ← buffer_DecodeRawBytes;
      txid ← lift_outcome (txid_ignoring_error txEnvBytes);
      consumed ← GetBytesConsumed;
      let idxInfo := mktxindexInfo txid (mklocPointer txOffset (consumed - txOffset)) in
      extractData_loop fuel' (i + 1) numItems (data ++ [txEnvBytes]) (txOffsets ++ [idxInfo])
  end.

Definition reader_fuel : M buffer nat := fun b => (Ret (S (length (buf (pbuf b)))), b).

Definition extractData : M buffer (list bytes * list txindexInfo) :=
  numItems ← buffer_DecodeVarint;
  fuel ← reader_fuel;
  extractData_loop fuel 0 numItems [] [].

Fixpoint extractMetadata_loop (fuel : nat) (i numItems : Z) (metadata : list bytes) :
    M buffer (list bytes) :=
  if negb (i <? numItems) then mret metadata else
  match fuel with
  | O => panic "out of fuel"
  | S fuel' =>
      metadataEntry ← buffer_DecodeRawBytes;
      extractMetadata_loop fuel' (i + 1) numItems (metadata ++ [metadataEntry])
  end.

Definition extractMetadata : M buffer (option (list bytes)) :=
  numItems ← buffer_DecodeVarint;
  fuel ← reader_fuel;
  md ← extractMetadata_loop fuel 0 numItems [];
  mret (Some md).

Definition deserializeBlock (serializedBlockBytes : bytes) : outcome Block :=
  fst ((header ← extractHeader;
        '(data, _) ← extractData;
        metadata ← extractMetadata;
        mret (mkBlock header data metadata)) (newBuffer serializedBlockBytes)).

(** The exported copy used by the redaction code. *)
Definition DeserializeBlock (serializedBlockBytes : bytes) : outcome Block :=
  fst ((header ← extractHeader;
        '(data, _) ← extractData;
        metadata ← extractMetadata;
        mret (mkBlock header data metadata)) (newBuffer serializedBlockBytes)).

Definition extractSerializedBlockInfo (serializedBlockBytes : bytes) : outcome serializedBlockInfo :=
  fst ((header ← extractHeader;
        '(_, txOffsets) ← extractData;
        metadata ← extractMetadata;
        mret (mkserializedBlockInfo header txOffsets metadata)) (newBuffer serializedBlockBytes)).

(** ** The format, written out *)

Definition enc_raw (b : bytes) : bytes := EncodeVarint (u64 (zlen b)) ++ b.

Definition enc_raws (l : list bytes) : bytes := l ≫= enc_raw.

Definition header_bytes (h : BlockHeader) : bytes :=
  EncodeVarint (Number h) ++ enc_raw (DataHash h) ++ enc_raw (PreviousHash h).

Definition block_bytes (h : BlockHeader) (data md : list bytes) : bytes :=
  header_bytes h ++ (EncodeVarint (u64 (zlen data)) ++ enc_raws data) ++
  EncodeVarint (u64 (zlen md)) ++ enc_raws md.

(** The transaction id, or the empty string where the envelope is malformed. *)
Definition txid_or_empty (txEnvelopeBytes : bytes) : bytes :=
  match GetOrComputeTxIDFromEnvelope txEnvelopeBytes with
  | Ret txid => txid
  | _ => []
  end.

(** The places of the transactions, the first one at [off]. *)
Fixpoint tx_locs (off : Z) (data : list bytes) : list txindexInfo :=
  match data with
  | [] => []
  | d :: data' =>
      mktxindexInfo (txid_or_empty d) (mklocPointer off (zlen (enc_raw d)))
      :: tx_locs (off + zlen (enc_raw d)) data'
  end.

Definition data_offset (h : BlockHeader) (data : list bytes) : Z :=
  zlen (header_bytes h) + zlen (EncodeVarint (u64 (zlen data))).

(** A reader in the middle of its input, with the position in step. *)
Definition reading (pre rest : bytes) : buffer :=
  mkbuffer (mkBuffer (pre ++ rest) (length pre)) (zlen pre).

Lemma enc_raw_buf (b : bytes) (p : Buffer) :
  EncodeRawBytes b p = mkBuffer (buf p ++ enc_raw b) (index p).
Proof. apply EncodeRawBytes_eq. Qed.

Lemma enc_raws_cons (b : bytes) (l : list bytes) : enc_raws (b :: l) = enc_raw b ++ enc_raws l.
Proof. done. Qed.

Lemma enc_raws_fold (l : list bytes) (p : Buffer) :
  fold_left (fun buf b => EncodeRawBytes b buf) l p = mkBuffer (buf p ++ enc_raws l) (index p).
Proof.
  revert p. induction l as [|b l IH]; intros p; cbn [fold_left].
  - unfold enc_raws. rewrite app_nil_r. by destruct p.
  - rewrite IH, enc_raw_buf. unfold enc_raws. simpl. by rewrite app_assoc.
Qed.

(** Looking for the id of a transaction does not panic, whatever its bytes. *)
Lemma txid_no_panic (d : bytes) : is_panic (GetOrComputeTxIDFromEnvelope d) = false.
Proof.
  unfold GetOrComputeTxIDFromEnvelope, UnmarshalEnvelope, UnmarshalPayload, UnmarshalChannelHeader, UnmarshalSignatureHeader,
    proto_Unmarshal. destruct (Unmarshal d) as [e|]; [|done]. cbn [mbind outcome_bind].
  destruct (Unmarshal _) as [p|]; [|done]. cbn [mbind outcome_bind].
  destruct (Payload_Header p) as [h|]; [|done]. cbn [is_Some_b negb nil_deref mbind outcome_bind].
  destruct (Unmarshal (Header_ChannelHeader h)) as [c|]; [|done]. cbn [mbind outcome_bind]. case_bool_decide; [done|].
  by destruct (Unmarshal _).
Qed.

Lemma txid_ignoring_error_eq (d : bytes) : txid_ignoring_error d = Ret (txid_or_empty d).
Proof.
  unfold txid_ignoring_error, txid_or_empty. pose proof (txid_no_panic d) as Hp.
  by destruct (GetOrComputeTxIDFromEnvelope d).
Qed.

Lemma addData_loop_eq (data : list bytes) (p : Buffer) (txs : list txindexInfo) :
  addData_loop data p txs =
    Ret (txs ++ tx_locs (zlen (buf p)) data, mkBuffer (buf p ++ enc_raws data) (index p)).
Proof.
  revert p txs. induction data as [|d data IH]; intros p txs; cbn [addData_loop tx_locs].
  - unfold enc_raws. simpl. rewrite !app_nil_r. by destruct p.
  - rewrite txid_ignoring_error_eq. cbn [mbind outcome_bind].
    rewrite IH, enc_raw_buf. cbn [Varint.buf Varint.index]. rewrite <- app_assoc, zlen_app.
    replace (zlen (buf p) + zlen (enc_raw d) - zlen (buf p)) with (zlen (enc_raw d)) by lia.
    unfold enc_raws. simpl. by rewrite app_assoc.
Qed.

Lemma serializeBlock_eq (block : Block) (md : list bytes) :
  Block_Metadata block = Some md ->
  serializeBlock block = Ret (block_bytes (Block_Header block) (Block_Data block) md,
    mkserializedBlockInfo (Block_Header block)
      (tx_locs (data_offset (Block_Header block) (Block_Data block)) (Block_Data block)) (Some md)).
Proof.
  intros Hmd. unfold serializeBlock, addHeaderBytes, addDataBytesAndConstructTxIndexInfo, addMetadataBytes.
  rewrite Hmd, !enc_raw_buf, !Buffer_EncodeVarint_eq, addData_loop_eq.
  cbn [Varint.buf Varint.index NewBuffer mbind outcome_bind].
  rewrite enc_raws_fold. cbn [Varint.buf Varint.index NewBuffer mbind outcome_bind].
  rewrite Buffer_EncodeVarint_eq. cbn [Varint.buf].
  unfold data_offset, block_bytes, header_bytes. f_equal. cbn [app]. rewrite <- !zlen_app, <- !app_assoc.
  done.
Qed.

Lemma serializeBlock_nil_metadata (block : Block) :
  Block_Metadata block = None -> is_panic (serializeBlock block) = true.
Proof.
  intros Hmd. unfold serializeBlock, addDataBytesAndConstructTxIndexInfo. rewrite addData_loop_eq.
  by rewrite Hmd.
Qed.

Lemma serializeBlock_inv (block : Block) (bs : bytes) (info : serializedBlockInfo) :
  serializeBlock block = Ret (bs, info) ->
  exists h data md, block = mkBlock h data (Some md) /\ bs = block_bytes h data md /\
    info = mkserializedBlockInfo h (tx_locs (data_offset h data) data) (Some md).
Proof.
  destruct block as [h data [md|]]; intros Hs.
  - rewrite (serializeBlock_eq (mkBlock h data (Some md)) md eq_refl) in Hs. simplify_eq/=. eauto 10.
  - pose proof (serializeBlock_nil_metadata (mkBlock h data None) eq_refl) as Hp. by rewrite Hs in Hp.
Qed.

Lemma enc_raw_nonempty (b : bytes) : (1 <= length (enc_raw b))%nat.
Proof. unfold enc_raw. rewrite length_app. pose proof (EncodeVarint_length (u64 (zlen b))). lia. Qed.

Lemma enc_raws_length (l : list bytes) : (length l <= length (enc_raws l))%nat.
Proof.
  induction l as [|b l IH]; [done|]. rewrite enc_raws_cons, length_app. cbn [length].
  pose proof (enc_raw_nonempty b). lia.
Qed.

Lemma buffer_DecodeVarint_reading (pre post : bytes) (x : Z) :
  is_u64 x ->
  buffer_DecodeVarint (reading pre (EncodeVarint x ++ post)) =
    (Ret x, reading (pre ++ EncodeVarint x) post).
Proof.
  intros Hx. unfold buffer_DecodeVarint, reading. cbn [pbuf position].
  rewrite Buffer_DecodeVarint_encode, SizeVarint_length by done.
  by rewrite <- app_assoc, length_app, zlen_app.
Qed.

Lemma buffer_DecodeRawBytes_reading (pre post b : bytes) :
  zlen (pre ++ enc_raw b ++ post) < 2 ^ 63 ->
  buffer_DecodeRawBytes (reading pre (enc_raw b ++ post)) = (Ret b, reading (pre ++ enc_raw b) post).
Proof.
  intros Hlen. assert (Hb : zlen b < 2 ^ 63).
  { unfold enc_raw in Hlen. rewrite !zlen_app in Hlen.
    pose proof (zlen_nonneg pre). pose proof (zlen_nonneg post).
    pose proof (zlen_nonneg (EncodeVarint (u64 (zlen b)))). lia. }
  assert (Hu : is_u64 (zlen b)) by (pose proof (zlen_nonneg b); unfold is_u64; lia).
  unfold buffer_DecodeRawBytes, reading, enc_raw in *. rewrite (u64_id _ Hu) in *. cbn [pbuf position].
  rewrite <- !app_assoc in *. rewrite DecodeRawBytes_encode, (u64_id _ Hu), (SizeVarint_length _ Hu) by done.
  by rewrite !length_app, !zlen_app, Nat.add_assoc.
Qed.

Lemma extractData_loop_reading (data : list bytes) :
  forall fuel i pre post ds txs,
  (length data <= fuel)%nat -> zlen (pre ++ enc_raws data ++ post) < 2 ^ 63 ->
  extractData_loop fuel i (i + zlen data) ds txs (reading pre (enc_raws data ++ post)) =
    (Ret (ds ++ data, txs ++ tx_locs (zlen pre) data), reading (pre ++ enc_raws data) post).
Proof.
  induction data as [|d data IH]; intros fuel i pre post ds txs Hf Hlen.
  - replace (i + zlen []) with i by (rewrite zlen_nil; lia).
    destruct fuel; cbn [extractData_loop]; rewrite Z.ltb_irrefl; cbn [negb tx_locs];
      unfold enc_raws; simpl; by rewrite !app_nil_r.
  - destruct fuel as [|fuel]; [simpl in Hf; lia|]. cbn [extractData_loop].
    rewrite (proj2 (Z.ltb_lt i _)) by (rewrite zlen_cons; pose proof (zlen_nonneg data); lia).
    cbn [negb]. unfold mbind, M_bind at 1. cbn [GetBytesConsumed reading position].
    rewrite enc_raws_cons in *.
    rewrite <- app_assoc in *. change (mkbuffer _ _) with (reading pre (enc_raw d ++ enc_raws data ++ post)).
    unfold M_bind at 1. rewrite buffer_DecodeRawBytes_reading by done.
    unfold M_bind at 1, lift_outcome. rewrite txid_ignoring_error_eq. unfold M_bind at 1. cbn [GetBytesConsumed reading position].
    change (mkbuffer _ _) with (reading (pre ++ enc_raw d) (enc_raws data ++ post)).
    replace (i + zlen (d :: data)) with (i + 1 + zlen data) by (rewrite zlen_cons; lia).
    rewrite IH; [|simpl in Hf; lia|by rewrite <- app_assoc].
    rewrite <- !app_assoc, zlen_app. cbn [app tx_locs].
    by replace (zlen pre + zlen (enc_raw d) - zlen pre) with (zlen (enc_raw d)) by lia.
Qed.

Lemma extractMetadata_loop_reading (md : list bytes) :
  forall fuel i pre post acc,
  (length md <= fuel)%nat -> zlen (pre ++ enc_raws md ++ post) < 2 ^ 63 ->
  extractMetadata_loop fuel i (i + zlen md) acc (reading pre (enc_raws md ++ post)) =
    (Ret (acc ++ md), reading (pre ++ enc_raws md) post).
Proof.
  induction md as [|d md IH]; intros fuel i pre post acc Hf Hlen.
  - replace (i + zlen []) with i by (rewrite zlen_nil; lia).
    destruct fuel; cbn [extractMetadata_loop]; rewrite Z.ltb_irrefl; cbn [negb];
      unfold enc_raws; simpl; by rewrite !app_nil_r.
  - destruct fuel as [|fuel]; [simpl in Hf; lia|]. cbn [extractMetadata_loop].
    rewrite (proj2 (Z.ltb_lt i _)) by (rewrite zlen_cons; pose proof (zlen_nonneg md); lia).
    cbn [negb]. rewrite enc_raws_cons in *.
    rewrite <- app_assoc in *. unfold mbind, M_bind at 1.
    rewrite buffer_DecodeRawBytes_reading by done.
    replace (i + zlen (d :: md)) with (i + 1 + zlen md) by (rewrite zlen_cons; lia).
    rewrite IH; [|simpl in Hf; lia|by rewrite <- app_assoc]. by rewrite <- !app_assoc.
Qed.

(** The three sections of a well-formed block, read in order. *)
Lemma extract_sections (h : BlockHeader) (data md : list bytes) :
  is_u64 (Number h) -> zlen (block_bytes h data md) < 2 ^ 63 ->
  exists b1 b2 b3,
    extractHeader (newBuffer (block_bytes h data md)) = (Ret h, b1) /\
    extractData b1 = (Ret (data, tx_locs (data_offset h data) data), b2) /\
    extractMetadata b2 = (Ret (Some md), b3).
Proof.
  intros Hn Hlen.
  assert (Hd : is_u64 (zlen data) /\ is_u64 (zlen md) /\
    (length data <= length (block_bytes h data md))%nat /\ (length md <= length (block_bytes h data md))%nat).
  { unfold block_bytes in Hlen |- *. rewrite !zlen_app in Hlen. rewrite !length_app.
    pose proof (enc_raws_length data). pose proof (enc_raws_length md).
    unfold is_u64, zlen in *. lia. }
  destruct Hd as (Hud & Hum & Fd & Fm). set (bs := block_bytes h data md) in *.
  set (r1 := (EncodeVarint (u64 (zlen data)) ++ enc_raws data) ++ EncodeVarint (u64 (zlen md)) ++ enc_raws md) in *.
  set (r2 := EncodeVarint (u64 (zlen md)) ++ enc_raws md) in *.
  exists (reading (header_bytes h) r1),
    (reading (header_bytes h ++ EncodeVarint (u64 (zlen data)) ++ enc_raws data) r2),
    (reading bs []).
  assert (Ebs : bs = header_bytes h ++ r1) by done.
  split_and!.
  - change (newBuffer bs) with (reading [] bs). unfold extractHeader, mbind, M_bind.
    rewrite Ebs. unfold header_bytes. rewrite <- !app_assoc.
    rewrite buffer_DecodeVarint_reading by done. cbn [app].
    rewrite buffer_DecodeRawBytes_reading by (rewrite Ebs in Hlen; unfold header_bytes in Hlen; by rewrite <- !app_assoc in Hlen).
    rewrite buffer_DecodeRawBytes_reading by (rewrite Ebs in Hlen; unfold header_bytes in Hlen; by rewrite <- !app_assoc in *).
    destruct h. unfold mret, M_ret. by rewrite <- !app_assoc.
  - unfold extractData, mbind, M_bind. unfold r1. rewrite (u64_id _ Hud), <- app_assoc.
    rewrite buffer_DecodeVarint_reading by done. cbn [reader_fuel reading pbuf buf].
    change (mkbuffer _ _) with (reading (header_bytes h ++ EncodeVarint (zlen data)) (enc_raws data ++ r2)).
    replace (zlen data) with (0 + zlen data) at 2 by lia.
    unfold bs, block_bytes in Fd, Hlen. rewrite (u64_id _ Hud) in Fd, Hlen.
    rewrite <- !app_assoc in Fd, Hlen.
    rewrite extractData_loop_reading by (rewrite <- ?app_assoc; auto with lia).
    unfold data_offset. by rewrite (u64_id _ Hud), zlen_app, <- app_assoc.
  - unfold extractMetadata, mbind, M_bind. unfold r2. rewrite (u64_id _ Hum).
    rewrite buffer_DecodeVarint_reading by done. cbn [reader_fuel reading pbuf buf].
    match goal with |- context [extractMetadata_loop _ _ _ _ ?b] =>
      change b with (reading ((header_bytes h ++ EncodeVarint (u64 (zlen data)) ++ enc_raws data) ++ EncodeVarint (zlen md)) (enc_raws md)) end.
    match goal with |- context [extractMetadata_loop ?f _ _ _ (reading ?p _)] =>
      pose proof (extractMetadata_loop_reading md f 0 p [] []) as E end.
    rewrite app_nil_r in E. change (0 + zlen md) with (zlen md) in E.
    unfold bs, block_bytes in Fm, Hlen |- *. rewrite (u64_id _ Hum) in Fm, Hlen |- *.
    rewrite E by (rewrite <- ?app_assoc in *; auto with lia). by rewrite <- !app_assoc.
Qed.

(** Reading back a written block, and its transaction places. *)
Lemma deserialize_serialize (block : Block) (bs : bytes) (info : serializedBlockInfo) :
  serializeBlock block = Ret (bs, info) -> is_u64 (Number (Block_Header block)) -> zlen bs < 2 ^ 63 ->
  deserializeBlock bs = Ret block /\ extractSerializedBlockInfo bs = Ret info.
Proof.
  intros Hs Hn Hlen. apply serializeBlock_inv in Hs as (h & data & md & -> & -> & ->).
  cbn [Block_Header] in *.
  destruct (extract_sections h data md Hn Hlen) as (b1 & b2 & b3 & E1 & E2 & E3).
  unfold deserializeBlock, extractSerializedBlockInfo, mbind, M_bind.
  rewrite E1, E2, E3. done.
Qed.

(** The place recorded for a transaction holds exactly its length-prefixed bytes. *)
Lemma tx_locs_lookup (data : list bytes) (off : Z) (i : nat) (tx : bytes) :
  data !! i = Some tx ->
  tx_locs off data !! i =
    Some (mktxindexInfo (txid_or_empty tx)
           (mklocPointer (off + zlen (enc_raws (take i data))) (zlen (enc_raw tx)))).
Proof.
  revert off i. induction data as [|d data IH]; intros off [|i] Hi; try done.
  - simplify_eq/=. by rewrite Z.add_0_r.
  - cbn [tx_locs take lookup list_lookup] in *. rewrite enc_raws_cons, zlen_app, Z.add_assoc. by apply IH.
Qed.

Lemma enc_raws_split (data : list bytes) (i : nat) (tx : bytes) :
  data !! i = Some tx ->
  enc_raws data = enc_raws (take i data) ++ enc_raw tx ++ enc_raws (drop (S i) data).
Proof.
  intros Hi. rewrite <- (take_drop_middle data i tx Hi) at 1. unfold enc_raws.
  rewrite bind_app, bind_cons. done.
Qed.

Lemma serialized_tx_at (block : Block) (bs : bytes) (info : serializedBlockInfo) (i : nat) (tx : bytes) :
  serializeBlock block = Ret (bs, info) -> Block_Data block !! i = Some tx ->
  exists pre post, bs = pre ++ enc_raw tx ++ post /\
    sbi_txOffsets info !! i =
      Some (mktxindexInfo (txid_or_empty tx) (mklocPointer (zlen pre) (zlen (enc_raw tx)))).
Proof.
  intros Hs Hi. apply serializeBlock_inv in Hs as (h & data & md & -> & -> & ->).
  cbn [Block_Data] in *.
  exists (header_bytes h ++ EncodeVarint (u64 (zlen data)) ++ enc_raws (take i data)),
    (enc_raws (drop (S i) data) ++ EncodeVarint (u64 (zlen md)) ++ enc_raws md).
  split.
  - unfold block_bytes. rewrite (enc_raws_split data i tx Hi). by rewrite <- !app_assoc.
  - cbn [sbi_txOffsets]. rewrite (tx_locs_lookup _ _ _ _ Hi). unfold data_offset.
    by rewrite !zlen_app, Z.add_assoc.
Qed.

(** ** Arbitrary input *)

(** The reader is inside its buffer (of a representable length). *)
Definition reader_wf (b : buffer) : Prop :=
  (index (pbuf b) <= length (buf (pbuf b)))%nat /\ zlen (buf (pbuf b)) < 2 ^ 63.

(** A reading step returns or fails, stays inside the same buffer and never goes
    back; [n] is the least number of bytes it consumes. *)
Definition safe {A} (n : nat) (m : M buffer A) : Prop := forall b, reader_wf b ->
  match m b with
  | (Ret _, b') =>
      buf (pbuf b') = buf (pbuf b) /\
      (index (pbuf b) + n <= index (pbuf b') <= length (buf (pbuf b)))%nat
  | (Err _, _) => True
  | (Panic _, _) => False
  end.

Lemma safe_bind {A B} (n k : nat) (m : M buffer A) (f : A -> M buffer B) :
  safe n m -> (forall a, safe k (f a)) -> safe (n + k) (m ≫= f).
Proof.
  intros Hm Hf b Hb. specialize (Hm b Hb). unfold mbind, M_bind.
  destruct (m b) as [[a|?|?] b']; try done. destruct Hm as [E I].
  assert (Hb' : reader_wf b') by (destruct Hb; split; rewrite E; [lia|done]).
  specialize (Hf a b' Hb'). destruct (f a b') as [[c|?|?] b'']; try done.
  destruct Hf as [E' I']. rewrite E in *. split; [congruence|lia].
Qed.

Lemma safe_mret {A} (a : A) : safe 0 (mret a).
Proof. intros b [Hb ?]. simpl. split; [done|lia]. Qed.

Lemma safe_weaken {A} (n k : nat) (m : M buffer A) : (k <= n)%nat -> safe n m -> safe k m.
Proof.
  intros Hk Hm b Hb. specialize (Hm b Hb). destruct (m b) as [[?|?|?] ?]; try done. intuition lia.
Qed.

Lemma safe_varint : safe 1 buffer_DecodeVarint.
Proof.
  intros b [Hb Hl]. unfold buffer_DecodeVarint. pose proof (Buffer_DecodeVarint_bounds (pbuf b)) as B.
  destruct (Buffer_DecodeVarint _) as [[? ?]|?|?]; try done. simpl. destruct B. split; [done|lia].
Qed.

Lemma safe_raw : safe 1 buffer_DecodeRawBytes.
Proof.
  intros b [Hb Hl]. unfold buffer_DecodeRawBytes. pose proof (DecodeRawBytes_bounds (pbuf b) Hl) as B.
  destruct (DecodeRawBytes _) as [[? ?]|?|?]; try done. simpl. destruct B. split; [done|lia].
Qed.

(** The fuel of the two counted loops is enough: each round eats a byte. *)
Lemma extractData_loop_safe (fuel : nat) :
  forall i n ds txs b, reader_wf b -> (length (buf (pbuf b)) - index (pbuf b) < fuel)%nat ->
  match extractData_loop fuel i n ds txs b with
  | (Ret _, b') => buf (pbuf b') = buf (pbuf b) /\ (index (pbuf b) <= index (pbuf b') <= length (buf (pbuf b)))%nat
  | (Err _, _) => True
  | (Panic _, _) => False
  end.
Proof.
  induction fuel as [|fuel IH]; intros i n ds txs b Hb Hf; [lia|].
  cbn [extractData_loop]. destruct (negb _); [destruct Hb; simpl; split; [done|lia]|].
  unfold mbind, M_bind. cbn [GetBytesConsumed]. pose proof (safe_raw b Hb) as R.
  destruct (buffer_DecodeRawBytes b) as [[d|?|?] b']; try done. destruct R as [E I].
  unfold lift_outcome. rewrite txid_ignoring_error_eq.
  specialize (IH (i + 1) n (ds ++ [d]) (txs ++ [mktxindexInfo (txid_or_empty d)
    (mklocPointer (position b) (position b' - position b))]) b').
  destruct (extractData_loop fuel _ _ _ _ b') as [[?|?|?] b'']; try done.
  1: destruct IH as [E' I']; [destruct Hb; split; rewrite E; [lia|done]|rewrite E; lia|].
  1: rewrite E in *; split; [congruence|lia].
  apply IH; [destruct Hb; split; rewrite E; [lia|done]|rewrite E; lia].
Qed.

Lemma extractMetadata_loop_safe (fuel : nat) :
  forall i n md b, reader_wf b -> (length (buf (pbuf b)) - index (pbuf b) < fuel)%nat ->
  match extractMetadata_loop fuel i n md b with
  | (Ret _, b') => buf (pbuf b') = buf (pbuf b) /\ (index (pbuf b) <= index (pbuf b') <= length (buf (pbuf b)))%nat
  | (Err _, _) => True
  | (Panic _, _) => False
  end.
Proof.
  induction fuel as [|fuel IH]; intros i n md b Hb Hf; [lia|].
  cbn [extractMetadata_loop]. destruct (negb _); [destruct Hb; simpl; split; [done|lia]|].
  unfold mbind, M_bind. pose proof (safe_raw b Hb) as R.
  destruct (buffer_DecodeRawBytes b) as [[d|?|?] b']; try done. destruct R as [E I].
  specialize (IH (i + 1) n (md ++ [d]) b').
  destruct (extractMetadata_loop fuel _ _ _ b') as [[?|?|?] b'']; try done.
  1: destruct IH as [E' I']; [destruct Hb; split; rewrite E; [lia|done]|rewrite E; lia|].
  1: rewrite E in *; split; [congruence|lia].
  apply IH; [destruct Hb; split; rewrite E; [lia|done]|rewrite E; lia].
Qed.

Lemma safe_fuel {A} (f : nat -> M buffer A) :
  (forall fuel b, reader_wf b -> (length (buf (pbuf b)) - index (pbuf b) < fuel)%nat ->
    match f fuel b with
    | (Ret _, b') => buf (pbuf b') = buf (pbuf b) /\ (index (pbuf b) <= index (pbuf b') <= length (buf (pbuf b)))%nat
    | (Err _, _) => True
    | (Panic _, _) => False
    end) ->
  safe 0 (fuel ← reader_fuel; f fuel).
Proof.
  intros Hf b Hb. unfold mbind, M_bind, reader_fuel. specialize (Hf (S (length (buf (pbuf b)))) b Hb ltac:(lia)).
  destruct (f _ b) as [[?|?|?] ?]; try done. intuition lia.
Qed.

Lemma safe_sections {A} (f : BlockHeader -> list bytes * list txindexInfo -> option (list bytes) -> A) :
  safe 0 (header ← extractHeader; d ← extractData; metadata ← extractMetadata; mret (f header d metadata)).
Proof.
  assert (H1 : safe 0 extractHeader).
  { eapply safe_weaken; [|apply (safe_bind 1 2), (fun _ => safe_bind 1 1 _ _ safe_raw
      (fun _ => safe_bind 1 0 _ _ safe_raw (fun _ => safe_mret _))); apply safe_varint]. lia. }
  assert (H2 : safe 0 extractData).
  { eapply safe_weaken; [|apply (safe_bind 1 0); [apply safe_varint|]]; [lia|]. intros n. apply safe_fuel.
    intros. by apply extractData_loop_safe. }
  assert (H3 : safe 0 extractMetadata).
  { eapply safe_weaken; [|apply (safe_bind 1 0); [apply safe_varint|]]; [lia|]. intros n. apply safe_fuel.
    intros fuel b Hb Hf. unfold mbind, M_bind. pose proof (extractMetadata_loop_safe fuel 0 n [] b Hb Hf) as L.
    by destruct (extractMetadata_loop fuel 0 n [] b) as [[?|?|?] ?]. }
  repeat (apply (safe_bind 0 0); [done|intros ?]). apply safe_mret.
Qed.

(** C35: Deserializing what was serialized gives the block and its transaction places
    back, and the bytes at a place are the length-prefixed transaction. *)
Theorem serialization_roundtrip (block : Block) (md : list bytes) :
  Block_Metadata block = Some md -> is_u64 (Number (Block_Header block)) ->
  zlen (block_bytes (Block_Header block) (Block_Data block) md) < 2 ^ 63 ->
  exists bs info, serializeBlock block = Ret (bs, info) /\
    deserializeBlock bs = Ret block /\ extractSerializedBlockInfo bs = Ret info /\
    forall i tx, Block_Data block !! i = Some tx ->
      exists pre post, bs = pre ++ enc_raw tx ++ post /\
        sbi_txOffsets info !! i =
          Some (mktxindexInfo (txid_or_empty tx) (mklocPointer (zlen pre) (zlen (enc_raw tx)))).
Proof.
  intros Hm Hn Hl. pose proof (serializeBlock_eq block md Hm) as Hs. eexists _, _. split; [exact Hs|].
  destruct (deserialize_serialize _ _ _ Hs Hn Hl) as [E1 E2]. split; [done|]. split; [done|].
  intros i tx Hi. by apply (serialized_tx_at _ _ _ _ _ Hs).
Qed.

(** C36: Any byte string (of a length that is a Go int) is deserialized to a block or
    refused with an error: no slice or index expression goes out of range and no nil
    pointer is followed on the way, in the search for transaction ids included. *)
Theorem deserializeBlock_no_panic (bs : bytes) :
  zlen bs < 2 ^ 63 -> is_panic (deserializeBlock bs) = false.
Proof.
  intros Hl. unfold deserializeBlock.
  pose proof (safe_sections (fun h d md => mkBlock h (fst d) md) (newBuffer bs)) as S.
  unfold mbind, M_bind in *.
  assert (Hwf : reader_wf (newBuffer bs)) by (split; simpl; [lia|done]).
  specialize (S Hwf).
  destruct (extractHeader _) as [[h|?|?] b1]; try done.
  destruct (extractData b1) as [[[d t]|?|?] b2]; try done.
  by destruct (extractMetadata b2) as [[md|?|?] b3].
Qed.

End WithProtos.
