(* ===== verification/BlockStream.v ===== *)
(** * Reading block files

    src/common/ledger/blkstorage/block_stream.go (streams over the frames of one
    or several block files), the scan for the last complete block of
    blockfile_mgr.go and blockfile_helper.go ([constructBlockfilesInfo],
    [binarySearchFileNumForBlock], ...).  A frame is the varint of the block's
    length followed by the serialized block.  The bytes after the last complete
    frame are what a crash left of an unfinished append. *)

From S2P Require Import Prelude Varint OrderedCode Sha256 GoBig GoOS Proto Block BlockSerialization.

(** ** File names *)

Definition blockfilePrefix : bytes := str "blockfile_".
Definition bootstrappingSnapshotInfoFile : bytes := str "bootstrappingSnapshot.info".
Definition bootstrappingSnapshotInfoTempFile : bytes := str "bootstrappingSnapshotTemp.info".

(** [fmt.Sprintf("%06d", n)]: the zeros go between the sign and the digits. *)
Definition Sprintf_06d (n : Z) : bytes :=
  if n <? 0 then
    let d := digits 10 (- n) in str "-" ++ replicate (5 - length d) Byte.x30 ++ d
  else
    let d := digits 10 n in replicate (6 - length d) Byte.x30 ++ d.

Definition deriveBlockfilePath (rootDir : bytes) (suffixNum : Z) : bytes :=
  rootDir ++ str "/" ++ blockfilePrefix ++ Sprintf_06d suffixNum.

(** ** One file *)

(** The open file is represented by its path. *)
Record blockfileStream := mkblockfileStream {
  bfs_fileNum : Z;
  bfs_path : bytes;
  bfs_currentOffset : Z }.

Record blockPlacementInfo := mkblockPlacementInfo {
  bpi_fileNum : Z;
  bpi_blockStartOffset : Z;
  bpi_blockBytesOffset : Z }.

Definition newBlockfileStream (fs : Fs) (rootDir : bytes) (fileNum startOffset : Z) :
    outcome blockfileStream :=
  let filePath := deriveBlockfilePath rootDir fileNum in
  match files fs !! filePath with
  | None => Err ErrNotExist
  | Some _ =>
      if startOffset <? 0 then Err ErrIO
      else Ret (mkblockfileStream fileNum filePath startOffset)
  end.

(** [None] is the nil block returned at the end of the file. *)
Definition nextBlockBytesAndPlacementInfo (fs : Fs) :
    M blockfileStream (option (bytes * blockPlacementInfo)) := fun s =>
  let content := file_content (bfs_path s) fs in
  let size := zlen content in
  if bfs_currentOffset s =? size then (Ret None, s) else
  let remainingBytes := size - bfs_currentOffset s in
  let moreContentAvailable := negb (remainingBytes <? 8) in
  let peekBytes := if remainingBytes <? 8 then remainingBytes else 8 in
  if peekBytes <? 0 then (Err ErrIO, s) else
  let lenBytes := take (Z.to_nat peekBytes) (drop (Z.to_nat (bfs_currentOffset s)) content) in
  let '(length, n) := DecodeVarint lenBytes in
  if (n =? 0)%nat then
    ((if negb moreContentAvailable then Err ErrUnexpectedEndOfBlockfile
      else Panic "Error in decoding varint bytes"), s)
  else
  let bytesExpected := i64 (Z.of_nat n + i64 length) in
  if remainingBytes <? bytesExpected then (Err ErrUnexpectedEndOfBlockfile, s) else
  let blockBytes :=
    take (Z.to_nat length) (drop (Z.to_nat (bfs_currentOffset s) + n) content) in
  let placementInfo :=
    mkblockPlacementInfo (bfs_fileNum s) (bfs_currentOffset s) (bfs_currentOffset s + Z.of_nat n) in
  (Ret (Some (blockBytes, placementInfo)),
   mkblockfileStream (bfs_fileNum s) (bfs_path s)
     (bfs_currentOffset s + (Z.of_nat n + i64 length))).

Definition nextBlockBytes (fs : Fs) : M blockfileStream (option bytes) :=
  r ← nextBlockBytesAndPlacementInfo fs;
  mret (fst <$> r).

(** ** Consecutive files *)

Record blockStream := mkblockStream {
  bs_rootDir : bytes;
  bs_currentFileNum : Z;
  bs_endFileNum : Z;
  bs_currentFileStream : blockfileStream }.

Definition newBlockStream (fs : Fs) (rootDir : bytes) (startFileNum startOffset endFileNum : Z) :
    outcome blockStream :=
  startFileStream ← newBlockfileStream fs rootDir startFileNum startOffset;
  Ret (mkblockStream rootDir startFileNum endFileNum startFileStream).

Definition moveToNextBlockfileStream (fs : Fs) : M blockStream unit := fun s =>
  let n := bs_currentFileNum s + 1 in
  match newBlockfileStream fs (bs_rootDir s) n 0 with
  | Ret st => (Ret tt, mkblockStream (bs_rootDir s) n (bs_endFileNum s) st)
  | Err e => (Err e, mkblockStream (bs_rootDir s) n (bs_endFileNum s) (bs_currentFileStream s))
  | Panic msg => (Panic msg, s)
  end.

(** The recursion moves one file further each time, and stops with an error at
    the first number without a file. *)
Fixpoint blockStream_nextBlockBytesAndPlacementInfo (fuel : nat) (fs : Fs) :
    M blockStream (option (bytes * blockPlacementInfo)) := fun s =>
  let '(r, st) := nextBlockBytesAndPlacementInfo fs (bs_currentFileStream s) in
  let s := mkblockStream (bs_rootDir s) (bs_currentFileNum s) (bs_endFileNum s) st in
  match r with
  | Ret None =>
      if (bs_currentFileNum s <? bs_endFileNum s) || (bs_endFileNum s <? 0) then
        match moveToNextBlockfileStream fs s with
        | (Ret _, s) =>
            match fuel with
            | O => (Panic "out of fuel", s)
            | S fuel' => blockStream_nextBlockBytesAndPlacementInfo fuel' fs s
            end
        | (Err e, s) => (Err e, s)
        | (Panic msg, s) => (Panic msg, s)
        end
      else (Ret None, s)
  | Ret (Some b) => (Ret (Some b), s)
  | Err e => (Err e, s)
  | Panic msg => (Panic msg, s)
  end.

(** ** The last complete block of a file *)

(** [for { nextBlockBytes ... }]: the frames before the end of the file or the
    first error.  Every frame takes at least a byte of the file. *)
Fixpoint scan_loop (fuel : nat) (fs : Fs) (last : option bytes) (num : Z) :
    M blockfileStream (option bytes * Z) :=
  match fuel with
  | O => panic "out of fuel"
  | S fuel' =>
      blockBytes ← try (nextBlockBytes fs);
      match blockBytes with
      | inl None => mret (last, num)
      | inr ErrUnexpectedEndOfBlockfile => mret (last, num)
      | inr e => throw e
      | inl (Some b) => scan_loop fuel' fs (Some b) (num + 1)
      end
  end.

Definition scan_fuel (fs : Fs) (s : blockfileStream) : nat := S (S (length (file_content (bfs_path s) fs))).

Definition scanForLastCompleteBlock (fs : Fs) (rootDir : bytes) (fileNum startingOffset : Z) :
    outcome (option bytes * Z * Z) :=
  s ← newBlockfileStream fs rootDir fileNum startingOffset;
  match scan_loop (scan_fuel fs s) fs None 0 s with
  | (Ret (lastBlockBytes, numBlocks), s') => Ret (lastBlockBytes, bfs_currentOffset s', numBlocks)
  | (Err e, _) => Err e
  | (Panic msg, _) => Panic msg
  end.

(** The exported variant of the redaction code leaves the loop after one block:
    it reads the block that starts at the given offset. *)
Definition ScanForLastCompleteBlock (fs : Fs) (rootDir : bytes) (fileNum startingOffset : Z) :
    outcome (option bytes * Z * Z) :=
  s ← newBlockfileStream fs rootDir fileNum startingOffset;
  match nextBlockBytes fs s with
  | (Ret (Some b), s') => Ret (Some b, bfs_currentOffset s', 1)
  | (Ret None, s') => Ret (None, bfs_currentOffset s', 0)
  | (Err ErrUnexpectedEndOfBlockfile, s') => Ret (None, bfs_currentOffset s', 0)
  | (Err e, _) => Err e
  | (Panic msg, _) => Panic msg
  end.

(** ** The summary of the block files *)

Record blockfilesInfo := mkblockfilesInfo {
  latestFileNumber : Z;
  latestFileSize : Z;
  noBlockFiles : bool;
  lastPersistedBlock : Z }.

(** [ioutil.ReadDir]: the names directly below a directory ([true] marks a
    directory).  Go sorts them; the callers do not depend on the order. *)
Definition entry_name (dir path : bytes) : option bytes :=
  name ← strip_prefix (dir ++ str "/") path;
  if bool_decide (Byte.x2f ∈ name) || bool_decide (name = []) then None else Some name.

Definition ReadDir (dir : bytes) (fs : Fs) : outcome (list (bytes * bool)) :=
  if bool_decide (dir ∈ dirs fs) then
    let fnames := omap (entry_name dir) (elements (dom (files fs))) in
    let dnames := omap (entry_name dir) (elements (dirs fs)) in
    Ret (((fun n => (n, false)) <$> fnames) ++ ((fun n => (n, true)) <$> dnames))
  else Err ErrNotExist.

Definition isBlockFileName (name : bytes) : bool :=
  match strip_prefix blockfilePrefix name with Some _ => true | None => false end.

Fixpoint lastFileSuffix_loop (entries : list (bytes * bool)) (biggestFileNum : Z) : outcome Z :=
  match entries with
  | [] => Ret biggestFileNum
  | (name, isDir) :: entries' =>
      if isDir || negb (isBlockFileName name) then lastFileSuffix_loop entries' biggestFileNum else
      let fileSuffix := default name (strip_prefix blockfilePrefix name) in
      match Atoi fileSuffix with
      | (_, Some e) => Err e
      | (fileNum, None) =>
          lastFileSuffix_loop entries' (if biggestFileNum <? fileNum then fileNum else biggestFileNum)
      end
  end.

Definition retrieveLastFileSuffix (fs : Fs) (rootDir : bytes) : outcome Z :=
  filesInfo ← ReadDir rootDir fs;
  lastFileSuffix_loop filesInfo (-1).

(** [os.Lstat] or panic. *)
Definition getFileInfoOrPanic (fs : Fs) (rootDir : bytes) (fileNum : Z) : outcome unit :=
  if path_exists (deriveBlockfilePath rootDir fileNum) fs then Ret tt
  else Panic "error retrieving file info for file number".

Section WithProtos.
Context {PR : Protos}.

Definition constructBlockfilesInfo (fs : Fs) (rootDir : bytes) : outcome blockfilesInfo :=
  lastFileNum ← retrieveLastFileSuffix fs rootDir;
  if lastFileNum =? -1 then Ret (mkblockfilesInfo 0 0 true 0) else
  _ ← getFileInfoOrPanic fs rootDir lastFileNum;
  '(lastBlockBytes, endOffsetLastBlock, numBlocksInFile) ← scanForLastCompleteBlock fs rootDir lastFileNum 0;
  lastBlockBytes ←
    (if (numBlocksInFile =? 0) && (0 <? lastFileNum) then
       let secondLastFileNum := lastFileNum - 1 in
       _ ← getFileInfoOrPanic fs rootDir secondLastFileNum;
       '(b, _, _) ← scanForLastCompleteBlock fs rootDir secondLastFileNum 0;
       Ret b
     else Ret lastBlockBytes);
  lastBlockNumber ←
    match lastBlockBytes with
    | Some b => lastBlock ← DeserializeBlock b; Ret (Number (Block_Header lastBlock))
    | None => Ret 0
    end;
  Ret (mkblockfilesInfo lastFileNum endOffsetLastBlock
         ((lastFileNum =? 0) && (numBlocksInFile =? 0)) lastBlockNumber).

(** A file without a complete block yields nil bytes, which do not decode. *)
Definition retrieveFirstBlockNumFromFile (fs : Fs) (rootDir : bytes) (fileNum : Z) : outcome Z :=
  s ← newBlockfileStream fs rootDir fileNum 0;
  bb ← fst (nextBlockBytes fs s);
  blockInfo ← extractSerializedBlockInfo (default [] bb);
  Ret (Number (sbi_blockHeader blockInfo)).

(** The search interval shrinks at every step, so its length bounds them. *)
Fixpoint binarySearch_loop (fuel : nat) (fs : Fs) (rootDir : bytes) (blockNum beginFile endFile : Z) :
    outcome Z :=
  if endFile =? beginFile then Ret beginFile else
  match fuel with
  | O => Panic "out of fuel"
  | S fuel' =>
      let searchFile := beginFile + Z.quot (endFile - beginFile) 2 + 1 in
      n ← retrieveFirstBlockNumFromFile fs rootDir searchFile;
      if n =? blockNum then Ret searchFile
      else if blockNum <? n then binarySearch_loop fuel' fs rootDir blockNum beginFile (searchFile - 1)
      else binarySearch_loop fuel' fs rootDir blockNum searchFile endFile
  end.

Definition binarySearchFileNumForBlock (fs : Fs) (rootDir : bytes) (blockNum : Z) : outcome Z :=
  blkfilesInfo ← constructBlockfilesInfo fs rootDir;
  binarySearch_loop (S (Z.to_nat (latestFileNumber blkfilesInfo))) fs rootDir blockNum 0
    (latestFileNumber blkfilesInfo).

Definition loadBootstrappingSnapshotInfo (fs : Fs) (rootDir : bytes) :
    outcome (option BootstrappingSnapshotInfo) :=
  match files fs !! (rootDir ++ str "/" ++ bootstrappingSnapshotInfoFile) with
  | None => Ret None
  | Some bsiBytes => bsi ← proto_Unmarshal bsiBytes; Ret (Some bsi)
  end.

End WithProtos.

(** ** Frames *)

(** A block small enough for its length to be an eight-byte varint, the limit the
    stream's comment states. *)
Definition frame_ok (b : bytes) : Prop := zlen b < 2 ^ 56.

(** What a crash can leave after the complete frames: a strict prefix of one. *)
Definition torn (tail : bytes) : Prop :=
  exists b rest, frame_ok b /\ rest <> [] /\ enc_raw b = tail ++ rest.

Lemma frame_ok_u64 (b : bytes) : frame_ok b -> is_u64 (zlen b).
Proof. unfold frame_ok, is_u64. pose proof (zlen_nonneg b). lia. Qed.

Lemma frame_varint_length (b : bytes) : frame_ok b -> (length (EncodeVarint (zlen b)) <= 8)%nat.
Proof.
  intros Hb. pose proof (SizeVarint_length _ (frame_ok_u64 b Hb)) as E. unfold frame_ok in Hb.
  assert (S : SizeVarint (zlen b) <= 8); [|unfold zlen at 2 in E; lia].
  unfold SizeVarint. change (Z.shiftl 1 56) with (2 ^ 56).
  rewrite (proj2 (Z.ltb_lt _ _) Hb). repeat (case_match; [lia|]). lia.
Qed.

Lemma EncodeVarint_loop_prefix (f k : nat) (y shift x : Z) (n : nat) (t rest : bytes) :
  0 <= y -> EncodeVarint_loop f y = t ++ rest -> rest <> [] -> DecodeVarint_loop k shift x n t = (0, 0%nat).
Proof.
  revert f y shift x n t. induction k as [|k IH]; intros f y shift x n [|c t] Hy E Hr; try done.
  destruct f as [|f]; [done|]. cbn [EncodeVarint_loop] in E. cbn [DecodeVarint_loop].
  destruct (127 <? y) eqn:Ey.
  - injection E as Ec E. apply (f_equal b2z) in Ec. rewrite lor_128, b2z_z2b in Ec.
    pose proof (Z.mod_pos_bound y 128 ltac:(lia)). rewrite Z.mod_small in Ec by lia.
    rewrite byte_high_bit, (proj2 (Z.ltb_ge _ _)) by lia.
    apply (IH f (Z.shiftr y 7)); [by apply Z.shiftr_nonneg|done|done].
  - injection E as _ E. symmetry in E. apply app_eq_nil in E as [-> ->]. done.
Qed.

Lemma DecodeVarint_frame_prefix (b t rest : bytes) :
  rest <> [] -> EncodeVarint (zlen b) = t ++ rest -> DecodeVarint t = (0, 0%nat).
Proof.
  intros Hr E. unfold DecodeVarint. eapply (EncodeVarint_loop_prefix maxVarintBytes 10 (zlen b)); eauto.
  apply zlen_nonneg.
Qed.

(** The peeked bytes hold the whole varint. *)
Lemma take_peek (v l : bytes) (n : nat) :
  (length v <= n)%nat -> take n (v ++ l) = v ++ take (n - length v) l.
Proof. intros H. by rewrite take_app, take_ge. Qed.

Lemma enc_raw_ok (b : bytes) : frame_ok b -> enc_raw b = EncodeVarint (zlen b) ++ b.
Proof. intros Hb. unfold enc_raw. by rewrite (u64_id _ (frame_ok_u64 b Hb)). Qed.

(** One step of the stream over a complete frame. *)
Lemma next_frame (fs : Fs) (fileNum : Z) (path pre b post : bytes) :
  file_content path fs = pre ++ enc_raw b ++ post -> frame_ok b ->
  nextBlockBytesAndPlacementInfo fs (mkblockfileStream fileNum path (zlen pre)) =
    (Ret (Some (b, mkblockPlacementInfo fileNum (zlen pre) (zlen pre + zlen (EncodeVarint (zlen b))))),
     mkblockfileStream fileNum path (zlen (pre ++ enc_raw b))).
Proof.
  intros Hf Hb. unfold nextBlockBytesAndPlacementInfo. cbn [bfs_path bfs_currentOffset bfs_fileNum].
  rewrite Hf, (enc_raw_ok b Hb). pose proof (frame_varint_length b Hb) as Hv.
  pose proof (frame_ok_u64 b Hb) as Hu. pose proof (EncodeVarint_length (zlen b)) as Hv1.
  pose proof (fun post => DecodeVarint_encode (zlen b) post Hu) as Hdec.
  set (v := EncodeVarint (zlen b)) in *. clearbody v. unfold frame_ok in Hb.
  pose proof (zlen_nonneg b). pose proof (zlen_nonneg post). pose proof (zlen_nonneg pre).
  assert (Lv : 1 <= zlen v <= 8) by (unfold zlen; lia).
  rewrite <- app_assoc, !zlen_app.
  rewrite (proj2 (Z.eqb_neq _ _)) by lia.
  set (rem := zlen pre + (zlen v + (zlen b + zlen post)) - zlen pre).
  assert (Er : rem = zlen v + zlen b + zlen post) by (unfold rem; lia). clearbody rem.
  assert (Hp : exists k, (if rem <? 8 then rem else 8) = Z.of_nat k /\
            (length v <= k)%nat).
  { exists (Z.to_nat (if rem <? 8 then rem else 8)). destruct (Z.ltb_spec rem 8); unfold zlen in *; lia. }
  destruct Hp as (k & Hk & Hkv). rewrite Hk, (proj2 (Z.ltb_ge _ _)) by lia.
  rewrite Nat2Z.id, zlen_to_nat, drop_app_length, take_peek by done.
  rewrite Hdec.
  rewrite (proj2 (Nat.eqb_neq _ _)) by lia.
  rewrite (i64_id (zlen b)) by (unfold is_i64; lia).
  rewrite i64_id by (unfold is_i64; lia). fold (zlen v).
  rewrite (proj2 (Z.ltb_ge _ _)) by lia.
  rewrite zlen_to_nat, <- drop_drop, drop_app_length, drop_app_length, take_app_length.
  done.
Qed.

(** The end of the file. *)
Lemma next_end (fs : Fs) (fileNum : Z) (path : bytes) :
  nextBlockBytesAndPlacementInfo fs (mkblockfileStream fileNum path (zlen (file_content path fs))) =
    (Ret None, mkblockfileStream fileNum path (zlen (file_content path fs))).
Proof. unfold nextBlockBytesAndPlacementInfo. cbn [bfs_path bfs_currentOffset]. by rewrite Z.eqb_refl. Qed.

(** One step over what a crash left. *)
Lemma next_torn (fs : Fs) (fileNum : Z) (path pre tail : bytes) :
  file_content path fs = pre ++ tail -> torn tail -> tail <> [] ->
  nextBlockBytesAndPlacementInfo fs (mkblockfileStream fileNum path (zlen pre)) =
    (Err ErrUnexpectedEndOfBlockfile, mkblockfileStream fileNum path (zlen pre)).
Proof.
  intros Hf (b & rest & Hb & Hr & E) Ht. unfold nextBlockBytesAndPlacementInfo.
  cbn [bfs_path bfs_currentOffset bfs_fileNum].
  rewrite Hf, zlen_app. rewrite (enc_raw_ok b Hb) in E.
  pose proof (frame_varint_length b Hb) as Hv. pose proof (frame_ok_u64 b Hb) as Hu.
  pose proof (EncodeVarint_length (zlen b)) as Hv1.
  pose proof (zlen_nonneg b). pose proof (zlen_nonneg pre). unfold frame_ok in Hb.
  assert (Lt : 1 <= zlen tail) by (destruct tail; [done|rewrite zlen_cons; pose proof (zlen_nonneg tail); lia]).
  rewrite (proj2 (Z.eqb_neq _ _)) by lia. replace (zlen pre + zlen tail - zlen pre) with (zlen tail) by lia.
  rewrite (proj2 (Z.ltb_ge (if zlen tail <? 8 then _ else _) 0)) by (destruct (_ <? _); lia).
  rewrite zlen_to_nat, drop_app_length.
  destruct (Nat.lt_ge_cases (length tail) (length (EncodeVarint (zlen b)))) as [Hlt|Hge].
  - rewrite (proj2 (Z.ltb_lt (zlen tail) 8)) by (unfold zlen; lia). rewrite zlen_to_nat, take_ge by done.
    assert (Ev : EncodeVarint (zlen b) = tail ++ take (length (EncodeVarint (zlen b)) - length tail) rest).
    { apply (f_equal (take (length (EncodeVarint (zlen b))))) in E.
      rewrite take_app_length in E. rewrite take_peek in E by lia. done. }
    erewrite DecodeVarint_frame_prefix; [done| |exact Ev].
    intros En. rewrite En, app_nil_r in Ev. rewrite Ev in Hlt. lia.
  - assert (Ex : tail = EncodeVarint (zlen b) ++ drop (length (EncodeVarint (zlen b))) tail).
    { rewrite <- (take_drop (length (EncodeVarint (zlen b))) tail) at 1. f_equal.
      apply (f_equal (take (length (EncodeVarint (zlen b))))) in E.
      rewrite take_app_length, take_app_le in E by lia. done. }
    pose proof (fun post => DecodeVarint_encode (zlen b) post Hu) as Hdec.
    set (v := EncodeVarint (zlen b)) in *. clearbody v. set (b1 := drop (length v) tail) in *.
    assert (Hb1 : zlen b1 < zlen b).
    { rewrite Ex, <- app_assoc in E. apply app_inv_head in E. rewrite E, zlen_app.
      destruct rest; [done|]. rewrite zlen_cons. pose proof (zlen_nonneg rest). lia. }
    assert (Hp : exists k, (if zlen tail <? 8 then zlen tail else 8) = Z.of_nat k /\ (length v <= k)%nat).
    { exists (Z.to_nat (if zlen tail <? 8 then zlen tail else 8)).
      destruct (Z.ltb_spec (zlen tail) 8); unfold zlen in *; lia. }
    destruct Hp as (k & Hk & Hkv). rewrite Hk, Nat2Z.id.
    rewrite Ex at 1. rewrite take_peek by done. rewrite Hdec.
    rewrite (proj2 (Nat.eqb_neq _ _)) by lia.
    rewrite (i64_id (zlen b)) by (unfold is_i64; lia).
    rewrite i64_id by (unfold is_i64; lia).
    rewrite (proj2 (Z.ltb_lt _ _)); [done|]. rewrite Ex, zlen_app. unfold zlen in *. lia.
Qed.

(** ** Scanning a file of complete frames and a torn tail *)

Lemma nextBlockBytes_frame (fs : Fs) (fileNum : Z) (path pre b post : bytes) :
  file_content path fs = pre ++ enc_raw b ++ post -> frame_ok b ->
  nextBlockBytes fs (mkblockfileStream fileNum path (zlen pre)) =
    (Ret (Some b), mkblockfileStream fileNum path (zlen (pre ++ enc_raw b))).
Proof. intros Hf Hb. unfold nextBlockBytes, mbind, M_bind. by erewrite next_frame. Qed.

(** At the end of the complete frames the stream answers nil or the unexpected
    end, and stays where it is. *)
Lemma nextBlockBytes_tail (fs : Fs) (fileNum : Z) (path pre tail : bytes) :
  file_content path fs = pre ++ tail -> torn tail ->
  nextBlockBytes fs (mkblockfileStream fileNum path (zlen pre)) =
    (if bool_decide (tail = []) then Ret None else Err ErrUnexpectedEndOfBlockfile,
     mkblockfileStream fileNum path (zlen pre)).
Proof.
  intros Hf Ht. unfold nextBlockBytes, mbind, M_bind. case_bool_decide as Hn.
  - subst tail. rewrite app_nil_r in Hf. rewrite <- Hf, next_end. done.
  - by rewrite (next_torn _ _ _ _ tail).
Qed.

Lemma scan_loop_frames (blocks : list bytes) :
  forall fs fuel fileNum path pre tail lst num,
  file_content path fs = pre ++ enc_raws blocks ++ tail ->
  Forall frame_ok blocks -> torn tail -> (length blocks < fuel)%nat ->
  scan_loop fuel fs lst num (mkblockfileStream fileNum path (zlen pre)) =
    (Ret (match last blocks with Some b => Some b | None => lst end, num + zlen blocks),
     mkblockfileStream fileNum path (zlen (pre ++ enc_raws blocks))).
Proof.
  induction blocks as [|b blocks IH]; intros fs fuel fileNum path pre tail lst num Hf Hb Ht Hl.
  - destruct fuel as [|fuel]; [simpl in Hl; lia|]. cbn [scan_loop]. unfold mbind, M_bind, try.
    rewrite (nextBlockBytes_tail _ _ _ _ tail) by done.
    rewrite zlen_nil, Z.add_0_r. change (enc_raws []) with (@nil byte). rewrite app_nil_r.
    by destruct (bool_decide _).
  - inversion Hb as [|? ? Hb1 Hb2]; subst. destruct fuel as [|fuel]; [simpl in Hl; lia|].
    rewrite enc_raws_cons, <- app_assoc in Hf. cbn [scan_loop]. unfold mbind, M_bind at 1, try.
    erewrite nextBlockBytes_frame by done. rewrite app_assoc in Hf.
    rewrite (IH fs fuel fileNum path (pre ++ enc_raw b) tail) by (done || (simpl in Hl; lia)).
    rewrite enc_raws_cons, app_assoc, zlen_cons. f_equal. f_equal.
    rewrite last_cons. f_equal; [by destruct (last blocks)|lia].
Qed.

Lemma scanForLastCompleteBlock_from (fs : Fs) (rootDir : bytes) (fileNum : Z) (pre : bytes) (blocks : list bytes)
    (tail : bytes) :
  files fs !! deriveBlockfilePath rootDir fileNum = Some (pre ++ enc_raws blocks ++ tail) ->
  Forall frame_ok blocks -> torn tail ->
  scanForLastCompleteBlock fs rootDir fileNum (zlen pre) =
    Ret (last blocks, zlen (pre ++ enc_raws blocks), zlen blocks).
Proof.
  intros Hf Hb Ht. unfold scanForLastCompleteBlock, newBlockfileStream. rewrite Hf.
  rewrite (proj2 (Z.ltb_ge _ _)) by apply zlen_nonneg. cbn [mbind outcome_bind].
  erewrite (scan_loop_frames blocks fs _ _ _ pre tail); [|by rewrite (file_content_Some _ _ _ Hf)|done|done|].
  - cbn [bfs_currentOffset]. by destruct (last blocks).
  - unfold scan_fuel. cbn [bfs_path]. rewrite (file_content_Some _ _ _ Hf), !length_app.
    pose proof (enc_raws_length blocks). lia.
Qed.

Lemma scanForLastCompleteBlock_frames (fs : Fs) (rootDir : bytes) (fileNum : Z) (blocks : list bytes) (tail : bytes) :
  files fs !! deriveBlockfilePath rootDir fileNum = Some (enc_raws blocks ++ tail) ->
  Forall frame_ok blocks -> torn tail ->
  scanForLastCompleteBlock fs rootDir fileNum 0 =
    Ret (last blocks, zlen (enc_raws blocks), zlen blocks).
Proof. apply (scanForLastCompleteBlock_from fs rootDir fileNum []). Qed.

(** ** A directory of block files *)

Section Directory.
Context {PR : Protos} (fs : Fs) (rootDir : bytes).

(** [bs] is the serialization of a block that the stream and the reader take. *)
Definition serialized (block : Block) (bs : bytes) : Prop :=
  (exists info, serializeBlock block = Ret (bs, info)) /\ frame_ok bs /\ is_u64 (Number (Block_Header block)).

Definition file_holds (fileNum : Z) (blocks : list Block) : Prop :=
  exists bss tail,
    files fs !! deriveBlockfilePath rootDir fileNum = Some (enc_raws bss ++ tail) /\
    torn tail /\ Forall2 serialized blocks bss.

Lemma serialized_frames (blocks : list Block) (bss : list bytes) :
  Forall2 serialized blocks bss -> Forall frame_ok bss.
Proof. induction 1 as [|b bs blocks bss Hb Hbs IH]; constructor; [apply Hb|done]. Qed.

Lemma serialized_info (block : Block) (bs : bytes) :
  serialized block bs -> exists info, extractSerializedBlockInfo bs = Ret info /\
    sbi_blockHeader info = Block_Header block /\ deserializeBlock bs = Ret block.
Proof.
  intros ((info & Hs) & Hf & Hn). exists info.
  destruct (deserialize_serialize block bs info Hs Hn) as [Hd Hi]; [unfold frame_ok in Hf; lia|].
  split; [done|]. split; [|done].
  by apply serializeBlock_inv in Hs as (h & data & md & -> & -> & ->).
Qed.

Lemma retrieveFirst_holds (fileNum : Z) (b : Block) (blocks : list Block) :
  file_holds fileNum (b :: blocks) ->
  retrieveFirstBlockNumFromFile fs rootDir fileNum = Ret (Number (Block_Header b)).
Proof.
  intros (bss & tail & Hf & Ht & Hs). inversion Hs as [|? bs ? bss' Hb Hbs]; subst.
  unfold retrieveFirstBlockNumFromFile, newBlockfileStream. rewrite Hf.
  cbn [Z.ltb Z.compare mbind outcome_bind].
  change (mkblockfileStream _ _ 0) with
    (mkblockfileStream fileNum (deriveBlockfilePath rootDir fileNum) (zlen (@nil byte))).
  rewrite (nextBlockBytes_frame fs fileNum _ [] bs (enc_raws bss' ++ tail)).
  - cbn [fst mbind outcome_bind]. destruct (serialized_info b bs Hb) as (info & E & Eh & _).
    change (default [] (Some bs)) with bs. rewrite E. cbn [mbind outcome_bind]. by rewrite Eh.
  - by rewrite (file_content_Some _ _ _ Hf), enc_raws_cons, <- app_assoc.
  - apply Hb.
Qed.

(** The binary search, over the first block number of every file. *)
Lemma binarySearch_loop_spec (first : Z -> Z) (blockNum : Z) (fuel : nat) :
  forall beginFile endFile,
  0 <= beginFile <= endFile -> endFile - beginFile < Z.of_nat fuel ->
  (forall i, beginFile < i <= endFile -> retrieveFirstBlockNumFromFile fs rootDir i = Ret (first i)) ->
  (forall i j, beginFile < i < j -> j <= endFile -> first i < first j) ->
  exists f, binarySearch_loop fuel fs rootDir blockNum beginFile endFile = Ret f /\
    beginFile <= f <= endFile /\
    (beginFile < f -> first f <= blockNum) /\ (forall i, f < i <= endFile -> blockNum < first i).
Proof.
  induction fuel as [|fuel IH]; intros beginFile endFile Hbe Hf Hr Hm; [lia|].
  cbn [binarySearch_loop]. destruct (Z.eqb_spec endFile beginFile) as [->|Hne].
  { exists beginFile. split; [done|]. repeat split; lia. }
  rewrite Z.quot_div_nonneg by lia.
  pose proof (Z.div_mod (endFile - beginFile) 2 ltac:(lia)).
  pose proof (Z.mod_pos_bound (endFile - beginFile) 2 ltac:(lia)).
  set (m := beginFile + (endFile - beginFile) / 2 + 1). assert (Hms : beginFile < m <= endFile) by (unfold m; lia).
  assert (Hhalf : m - 1 - beginFile < Z.of_nat fuel /\ endFile - m < Z.of_nat fuel) by (unfold m; lia).
  clearbody m. rewrite Hr by lia. cbn [mbind outcome_bind].
  destruct (Z.eqb_spec (first m) blockNum) as [He|Hn1].
  { exists m. split; [done|]. repeat split; try lia.
    intros i Hi. specialize (Hm m i ltac:(lia) ltac:(lia)). lia. }
  destruct (Z.ltb_spec blockNum (first m)) as [Hlt|Hge].
  - destruct (IH beginFile (m - 1)) as (f & E & Hfb & G1 & G2); [lia|lia| | |].
    { intros. apply Hr. lia. }
    { intros. apply Hm; lia. }
    exists f. split; [done|]. split; [lia|]. split; [done|]. intros i Hi.
    destruct (Z.le_gt_cases i (m - 1)); [apply G2; lia|].
    destruct (Z.eq_dec i m) as [->|]; [done|]. specialize (Hm m i ltac:(lia) ltac:(lia)). lia.
  - destruct (IH m endFile) as (f & E & Hfb & G1 & G2); [lia|lia| | |].
    { intros. apply Hr. lia. }
    { intros. apply Hm; lia. }
    exists f. split; [done|]. split; [lia|]. split; [|done].
    intros _. destruct (Z.eq_dec f m) as [->|]; [lia|]. apply G1. lia.
Qed.

(** [chunks] are the blocks of the files 0, 1, ... in order: numbered
    consecutively from [n0], at least one block in every file. *)
Record block_dir (n0 : Z) (chunks : list (list Block)) : Prop := {
  bd_last : retrieveLastFileSuffix fs rootDir = Ret (zlen chunks - 1);
  bd_nonempty : chunks <> [] /\ Forall (fun c => c <> []) chunks;
  bd_holds : forall i blocks, chunks !! i = Some blocks -> file_holds (Z.of_nat i) blocks;
  bd_numbers : forall k b, mjoin chunks !! k = Some b -> Number (Block_Header b) = n0 + Z.of_nat k }.

(** The number of the first block of file [i]. *)
Definition first_num (n0 : Z) (chunks : list (list Block)) (i : Z) : Z :=
  n0 + zlen (mjoin (take (Z.to_nat i) chunks)).

Lemma join_split (chunks : list (list Block)) (i : nat) (blocks : list Block) :
  chunks !! i = Some blocks ->
  mjoin chunks = mjoin (take i chunks) ++ blocks ++ mjoin (drop (S i) chunks).
Proof.
  intros Hi. pose proof (take_drop_middle chunks i blocks Hi) as E.
  apply (f_equal mjoin) in E. rewrite <- E, join_app. done.
Qed.

Lemma join_lookup (chunks : list (list Block)) (i k : nat) (blocks : list Block) (b : Block) :
  chunks !! i = Some blocks -> blocks !! k = Some b ->
  mjoin chunks !! (length (mjoin (take i chunks)) + k)%nat = Some b.
Proof.
  intros Hi Hk. rewrite (join_split chunks i blocks Hi), lookup_app_r by lia.
  replace (length (mjoin (take i chunks)) + k - length (mjoin (take i chunks)))%nat with k by lia.
  by apply lookup_app_l_Some.
Qed.

Lemma first_num_strict (n0 : Z) (chunks : list (list Block)) (i j : Z) :
  Forall (fun c => c <> []) chunks -> 0 <= i < j -> j < zlen chunks ->
  first_num n0 chunks i < first_num n0 chunks j.
Proof.
  intros Hne Hij Hj. unfold first_num.
  destruct (lookup_lt_is_Some_2 chunks (Z.to_nat i)) as [c Hc]; [unfold zlen in Hj; lia|].
  assert (Hsub : take (Z.to_nat j) chunks =
    (take (Z.to_nat i) chunks ++ [c]) ++ drop (S (Z.to_nat i)) (take (Z.to_nat j) chunks)).
  { rewrite <- (take_S_r _ _ _ Hc), <- (take_drop (S (Z.to_nat i)) (take (Z.to_nat j) chunks)) at 1.
    by rewrite take_take, Nat.min_l by lia. }
  rewrite Hsub, !join_app, !zlen_app. cbn [mjoin list_join]. rewrite app_nil_r.
  pose proof (proj1 (Forall_lookup _ _) Hne _ _ Hc) as Hcn.
  destruct c as [|b c]; [done|]. rewrite zlen_cons. pose proof (zlen_nonneg c).
  pose proof (zlen_nonneg (mjoin (drop (S (Z.to_nat i)) (take (Z.to_nat j) chunks)))). lia.
Qed.

Lemma block_dir_first (n0 : Z) (chunks : list (list Block)) (i : Z) :
  block_dir n0 chunks -> 0 <= i < zlen chunks ->
  retrieveFirstBlockNumFromFile fs rootDir i = Ret (first_num n0 chunks i).
Proof.
  intros [_ [_ Hne] Hh Hn] Hi.
  destruct (lookup_lt_is_Some_2 chunks (Z.to_nat i)) as [c Hc]; [unfold zlen in Hi; lia|].
  pose proof (proj1 (Forall_lookup _ _) Hne _ _ Hc) as Hcn. destruct c as [|b c]; [done|].
  pose proof (Hh _ _ Hc) as Hf. rewrite Z2Nat.id in Hf by lia.
  rewrite (retrieveFirst_holds _ _ _ Hf). f_equal. unfold first_num.
  rewrite (Hn (length (mjoin (take (Z.to_nat i) chunks)) + 0)%nat b); [unfold zlen; lia|].
  by eapply join_lookup.
Qed.

(** What the scan of the file system finds. *)
Lemma constructBlockfilesInfo_dir (n0 : Z) (chunks : list (list Block)) :
  block_dir n0 chunks ->
  exists bss, Forall2 serialized (default [] (last chunks)) bss /\
  constructBlockfilesInfo fs rootDir =
    Ret (mkblockfilesInfo (zlen chunks - 1) (zlen (enc_raws bss)) false
           (n0 + zlen (mjoin chunks) - 1)).
Proof.
  intros [Hl [Hc0 Hne] Hh Hn]. destruct chunks as [|c1 cs] using rev_ind; [done|]. clear IHcs Hc0.
  rewrite zlen_app in Hl. change (zlen [c1]) with 1 in Hl. rewrite Z.add_simpl_r in Hl.
  pose proof (Hh (length cs) c1 ltac:(by rewrite lookup_app_r, Nat.sub_diag by lia)) as (bss & tail & Hf & Ht & Hs).
  fold (zlen cs) in Hf. exists bss. rewrite last_snoc. split; [done|].
  rewrite zlen_app, join_app. change (zlen [c1]) with 1. rewrite Z.add_simpl_r.
  unfold constructBlockfilesInfo. rewrite Hl. cbn [mbind outcome_bind].
  pose proof (zlen_nonneg cs). rewrite (proj2 (Z.eqb_neq _ _)) by lia.
  unfold getFileInfoOrPanic. rewrite (path_exists_file _ _ _ Hf). cbn [mbind outcome_bind].
  rewrite (scanForLastCompleteBlock_frames _ _ _ _ _ Hf (serialized_frames _ _ Hs) Ht).
  cbn [mbind outcome_bind].
  apply Forall_app in Hne as [_ Hne]. rewrite Forall_singleton in Hne.
  destruct c1 as [|bl c1] using rev_ind; [by destruct Hne|]. clear IHc1.
  apply Forall2_app_inv_l in Hs as (bss1 & bss2 & Hs1 & Hs2 & ->).
  inversion Hs2 as [|? b ? l Hb Hnil]; subst. inversion Hnil; subst.
  rewrite last_snoc, zlen_app. change (zlen [b]) with 1. pose proof (zlen_nonneg bss1).
  rewrite (proj2 (Z.eqb_neq (zlen bss1 + 1) 0)) by lia. cbn [andb mbind outcome_bind].
  destruct (serialized_info bl b Hb) as (info & _ & _ & E). change (DeserializeBlock b) with (deserializeBlock b).
  rewrite E. cbn [mbind outcome_bind]. rewrite andb_false_r. f_equal. f_equal.
  rewrite (Hn (length (mjoin cs) + length c1)%nat bl).
  - cbn [mjoin list_join]. rewrite app_nil_r, !zlen_app. unfold zlen. simpl. lia.
  - rewrite join_app, lookup_app_r by lia.
    replace (length (mjoin cs) + length c1 - length (mjoin cs))%nat with (length c1 + 0)%nat by lia.
    cbn [mjoin list_join]. rewrite app_nil_r, lookup_app_r by lia. by rewrite Nat.add_0_r, Nat.sub_diag.
Qed.

(** The search finds the file that holds the block. *)
Theorem binarySearch_finds_file (n0 : Z) (chunks : list (list Block)) (k : nat) (b : Block) :
  block_dir n0 chunks -> mjoin chunks !! k = Some b ->
  exists f blocks, binarySearchFileNumForBlock fs rootDir (Number (Block_Header b)) = Ret (Z.of_nat f) /\
    chunks !! f = Some blocks /\ b ∈ blocks.
Proof.
  intros Hd Hk. pose proof (bd_numbers _ _ Hd _ _ Hk) as Hnum. rewrite Hnum.
  destruct (bd_nonempty _ _ Hd) as [Hc0 Hne].
  assert (Hlen : 1 <= zlen chunks) by (destruct chunks; [done|rewrite zlen_cons; pose proof (zlen_nonneg chunks); lia]).
  destruct (constructBlockfilesInfo_dir n0 chunks Hd) as (bss & _ & E).
  unfold binarySearchFileNumForBlock. rewrite E. cbn [mbind outcome_bind latestFileNumber].
  destruct (binarySearch_loop_spec (first_num n0 chunks) (n0 + Z.of_nat k)
    (S (Z.to_nat (zlen chunks - 1))) 0 (zlen chunks - 1)) as (f & Ef & Hfb & Hlo & Hhi); [lia|lia| | |].
  { intros i Hi. apply block_dir_first; [done|lia]. }
  { intros i j Hij Hj. apply first_num_strict; [done|lia|lia]. }
  destruct (lookup_lt_is_Some_2 chunks (Z.to_nat f)) as [blocks Hbl]; [unfold zlen in Hfb; lia|].
  exists (Z.to_nat f), blocks. rewrite Z2Nat.id by lia. split; [done|]. split; [done|].
  set (o := length (mjoin (take (Z.to_nat f) chunks))) in *.
  assert (Ho : (o <= k)%nat).
  { destruct (Z.eq_dec f 0) as [->|]; [unfold o; simpl; lia|].
    specialize (Hlo ltac:(lia)). unfold first_num, zlen in Hlo. fold o in Hlo. lia. }
  assert (Hk2 : (k < o + length blocks)%nat).
  { destruct (Z.eq_dec f (zlen chunks - 1)) as [Ef1|Hf1].
    - apply lookup_lt_Some in Hk. rewrite (join_split chunks _ blocks Hbl) in Hk.
      rewrite !length_app in Hk. fold o in Hk. rewrite (drop_ge chunks) in Hk by (unfold zlen in *; lia).
      simpl in Hk. lia.
    - specialize (Hhi (f + 1) ltac:(lia)). unfold first_num, zlen in Hhi.
      replace (Z.to_nat (f + 1)) with (S (Z.to_nat f)) in Hhi by lia.
      rewrite (take_S_r _ _ _ Hbl), join_app, length_app in Hhi. fold o in Hhi. cbn [mjoin list_join] in Hhi.
      rewrite app_nil_r in Hhi. lia. }
  destruct (lookup_lt_is_Some_2 blocks (k - o)%nat) as [b' Hb']; [lia|].
  pose proof (join_lookup chunks _ _ _ _ Hbl Hb') as Hj. fold o in Hj.
  replace (o + (k - o))%nat with k in Hj by lia. rewrite Hk in Hj. simplify_eq.
  by apply list_elem_of_lookup_2 in Hb'.
Qed.

End Directory.
