(* ===== verification/BlockIndex.v ===== *)
(** * The block index

    src/common/ledger/blkstorage/blockindex.go: the database keys by which a
    block is found from its hash or number, and a transaction from its id or its
    place, with the file location pointers they lead to. *)

From S2P Require Import Prelude Varint OrderedCode Sha256 GoBig GoOS LevelDB Storage Proto Block.
From S2P Require Import BlockSerialization BlockStream.

(** ** Data *)

Inductive IndexableAttr : Type :=
| IndexableAttrBlockNum
| IndexableAttrBlockHash
| IndexableAttrTxID
| IndexableAttrBlockNumTranNum.

#[global] Instance IndexableAttr_eq_dec : EqDecision IndexableAttr.
Proof. solve_decision. Defined.

Definition blockNumIdxKeyPrefix : byte := Byte.x6e.
Definition blockHashIdxKeyPrefix : byte := Byte.x68.
Definition txIDIdxKeyPrefix : byte := Byte.x74.
Definition blockNumTranNumIdxKeyPrefix : byte := Byte.x61.
Definition indexSavePointKey : bytes := str "indexCheckpointKey".

Record fileLocPointer := mkfileLocPointer {
  flp_fileSuffixNum : Z;
  flp_loc : locPointer }.

Definition flp_offset (flp : fileLocPointer) : Z := loc_offset (flp_loc flp).
Definition flp_bytesLength (flp : fileLocPointer) : Z := loc_bytesLength (flp_loc flp).

Record blockIdxInfo := mkblockIdxInfo {
  bii_blockNum : Z;
  bii_blockHash : bytes;
  bii_flp : fileLocPointer;
  bii_txOffsets : list txindexInfo;
  bii_metadata : option (list bytes) }.

(** [newBlockIndex]: the set of the configured attributes. *)
Definition blockIndex : Type := list IndexableAttr.

Definition newBlockIndex (AttrsToIndex : list IndexableAttr) : blockIndex := AttrsToIndex.

Definition isAttributeIndexed (index : blockIndex) (attribute : IndexableAttr) : bool :=
  bool_decide (attribute ∈ index).

(** ** Keys *)

Definition constructBlockNumKey (blockNum : Z) : bytes :=
  blockNumIdxKeyPrefix :: EncodeOrderPreservingVarUint64 blockNum.

Definition constructBlockHashKey (blockHash : bytes) : bytes := blockHashIdxKeyPrefix :: blockHash.

Definition constructTxIDKey (txID : bytes) (blkNum txNum : Z) : bytes :=
  txIDIdxKeyPrefix :: EncodeOrderPreservingVarUint64 (u64 (zlen txID)) ++ txID
    ++ EncodeOrderPreservingVarUint64 blkNum ++ EncodeOrderPreservingVarUint64 txNum.

Definition retrieveTxID (encodedTxIDKey : bytes) : outcome bytes :=
  match encodedTxIDKey with
  | [] => Err (Errorf "invalid txIDKey - zero-length slice")
  | b :: remainingBytes =>
      if negb (bool_decide (b = txIDIdxKeyPrefix)) then Err (Errorf "invalid txIDKey - unexpected prefix") else
      '(txIDLen, n) ← DecodeOrderPreservingVarUint64 remainingBytes;
      let remainingBytes := drop (Z.to_nat n) remainingBytes in
      if zlen remainingBytes <=? i64 txIDLen then Err (Errorf "invalid txIDKey, fewer bytes present") else
      if i64 txIDLen <? 0 then Panic "slice bounds out of range" else
      Ret (take (Z.to_nat (i64 txIDLen)) remainingBytes)
  end.

(** (start key, stop key) *)
Definition constructTxIDRangeScan (txID : bytes) : bytes * bytes :=
  let sk := txIDIdxKeyPrefix :: EncodeOrderPreservingVarUint64 (u64 (zlen txID)) ++ txID in
  (sk, sk ++ [Byte.xff]).

Definition constructBlockNumTranNumKey (blockNum txNum : Z) : bytes :=
  blockNumTranNumIdxKeyPrefix :: EncodeOrderPreservingVarUint64 blockNum
    ++ EncodeOrderPreservingVarUint64 txNum.

Definition encodeBlockNum (blockNum : Z) : bytes := EncodeVarint blockNum.

Definition decodeBlockNum (blockNumBytes : bytes) : Z := fst (DecodeVarint blockNumBytes).

(** ** File location pointers *)

Definition newFileLocationPointer (fileSuffixNum beginningOffset : Z) (relativeLP : locPointer) :
    fileLocPointer :=
  mkfileLocPointer fileSuffixNum
    (mklocPointer (i64 (beginningOffset + loc_offset relativeLP)) (loc_bytesLength relativeLP)).

Definition flp_marshal (flp : fileLocPointer) : bytes :=
  let buffer := NewBuffer [] in
  let buffer := Buffer_EncodeVarint (u64 (flp_fileSuffixNum flp)) buffer in
  let buffer := Buffer_EncodeVarint (u64 (flp_offset flp)) buffer in
  let buffer := Buffer_EncodeVarint (u64 (flp_bytesLength flp)) buffer in
  buf buffer.

(** The fields decoded before an error stay set. *)
Definition flp_unmarshal (b : bytes) : fileLocPointer * option error :=
  let buffer := NewBuffer b in
  match Buffer_DecodeVarint buffer with
  | Ret (i, buffer) =>
      let file := i64 i in
      match Buffer_DecodeVarint buffer with
      | Ret (i, buffer) =>
          let off := i64 i in
          match Buffer_DecodeVarint buffer with
          | Ret (i, _) => (mkfileLocPointer file (mklocPointer off (i64 i)), None)
          | Err e => (mkfileLocPointer file (mklocPointer off 0), Some e)
          | Panic _ => (mkfileLocPointer file (mklocPointer off 0), Some ErrUnexpectedEOF)
          end
      | Err e => (mkfileLocPointer file (mklocPointer 0 0), Some e)
      | Panic _ => (mkfileLocPointer file (mklocPointer 0 0), Some ErrUnexpectedEOF)
      end
  | Err e => (mkfileLocPointer 0 (mklocPointer 0 0), Some e)
  | Panic _ => (mkfileLocPointer 0 (mklocPointer 0 0), Some ErrUnexpectedEOF)
  end.

(** Callers that check the error. *)
Definition flp_unmarshal_checked (b : bytes) : outcome fileLocPointer :=
  match flp_unmarshal b with
  | (flp, None) => Ret flp
  | (_, Some e) => Err e
  end.

Section WithProtos.
Context {PR : Protos}.

(** ** Indexing a block *)

(** [txflags.ValidationFlags.Flag]. *)
Definition flag (txsfltr : bytes) (i : nat) : outcome Z :=
  code ← go_index txsfltr i;
  Ret (b2z code).

Fixpoint txid_entries (flp : fileLocPointer) (blkNum : Z) (flpBytes txsfltr : bytes)
    (i : nat) (txOffsets : list txindexInfo) : outcome batch :=
  match txOffsets with
  | [] => Ret []
  | txoffset :: rest =>
      let txFlp := newFileLocationPointer (flp_fileSuffixNum flp) (flp_offset flp) (txi_loc txoffset) in
      let txFlpBytes := flp_marshal txFlp in
      code ← flag txsfltr i;
      let indexVal := mkTxIDIndexValue flpBytes txFlpBytes code in
      let indexValBytes := Marshal indexVal in
      entries ← txid_entries flp blkNum flpBytes txsfltr (S i) rest;
      Ret ((constructTxIDKey (txi_txID txoffset) blkNum (Z.of_nat i), Some indexValBytes) :: entries)
  end.

Fixpoint trannum_entries (flp : fileLocPointer) (blkNum : Z) (i : nat) (txOffsets : list txindexInfo) : batch :=
  match txOffsets with
  | [] => []
  | txoffset :: rest =>
      let txFlp := newFileLocationPointer (flp_fileSuffixNum flp) (flp_offset flp) (txi_loc txoffset) in
      let txFlpBytes := flp_marshal txFlp in
      (constructBlockNumTranNumKey blkNum (Z.of_nat i), Some txFlpBytes)
      :: trannum_entries flp blkNum (S i) rest
  end.

Definition index_batch (index : blockIndex) (info : blockIdxInfo) : outcome batch :=
  let flp := bii_flp info in
  let txOffsets := bii_txOffsets info in
  let blkNum := bii_blockNum info in
  let blkHash := bii_blockHash info in
  md ← match bii_metadata info with Some md => Ret md | None => Panic "nil pointer dereference" end;
  txsfltr ← go_index md BlockMetadataIndex_TRANSACTIONS_FILTER;
  let flpBytes := flp_marshal flp in
  let b1 := if isAttributeIndexed index IndexableAttrBlockHash
            then [(constructBlockHashKey blkHash, Some flpBytes)] else [] in
  let b2 := if isAttributeIndexed index IndexableAttrBlockNum
            then [(constructBlockNumKey blkNum, Some flpBytes)] else [] in
  b3 ← if isAttributeIndexed index IndexableAttrTxID
       then txid_entries flp blkNum flpBytes txsfltr 0 txOffsets else Ret [];
  let b4 := if isAttributeIndexed index IndexableAttrBlockNumTranNum
            then trannum_entries flp blkNum 0 txOffsets else [] in
  Ret (b1 ++ b2 ++ b3 ++ b4 ++ [(indexSavePointKey, Some (encodeBlockNum blkNum))]).

Definition indexBlock (index : blockIndex) (info : blockIdxInfo) : M World unit :=
  if (length index =? 0)%nat then mret tt else
  batch ← lift_outcome (index_batch index info);
  db_WriteBatch batch.

(** ** Lookups *)

Definition getLastBlockIndexed (db : kvmap) : outcome Z :=
  match db !! indexSavePointKey with
  | None => Err errIndexSavePointKeyNotPresent
  | Some blockNumBytes => Ret (decodeBlockNum blockNumBytes)
  end.

(** The error of [unmarshal] is ignored in the lookups by key. *)
Definition getBlockLocByHash (index : blockIndex) (db : kvmap) (blockHash : bytes) : outcome fileLocPointer :=
  if negb (isAttributeIndexed index IndexableAttrBlockHash) then Err ErrAttrNotIndexed else
  match db !! constructBlockHashKey blockHash with
  | None => Err ErrNotFoundInIndex
  | Some b => Ret (fst (flp_unmarshal b))
  end.

Definition getBlockLocByBlockNum (index : blockIndex) (db : kvmap) (blockNum : Z) : outcome fileLocPointer :=
  if negb (isAttributeIndexed index IndexableAttrBlockNum) then Err ErrAttrNotIndexed else
  match db !! constructBlockNumKey blockNum with
  | None => Err ErrNotFoundInIndex
  | Some b => Ret (fst (flp_unmarshal b))
  end.

Definition getTXLocByBlockNumTranNum (index : blockIndex) (db : kvmap) (blockNum tranNum : Z) :
    outcome fileLocPointer :=
  if negb (isAttributeIndexed index IndexableAttrBlockNumTranNum) then Err ErrAttrNotIndexed else
  match db !! constructBlockNumTranNumKey blockNum tranNum with
  | None => Err ErrNotFoundInIndex
  | Some b => Ret (fst (flp_unmarshal b))
  end.

Definition txIDExists (index : blockIndex) (db : kvmap) (txID : bytes) : outcome bool :=
  if negb (isAttributeIndexed index IndexableAttrTxID) then Err ErrAttrNotIndexed else
  let '(startKey, stopKey) := constructTxIDRangeScan txID in
  Ret (match range_scan db startKey (Some stopKey) with [] => false | _ => true end).

Definition getTxIDVal (index : blockIndex) (db : kvmap) (txID : bytes) : outcome TxIDIndexValue :=
  if negb (isAttributeIndexed index IndexableAttrTxID) then Err ErrAttrNotIndexed else
  let '(startKey, stopKey) := constructTxIDRangeScan txID in
  match range_scan db startKey (Some stopKey) with
  | [] => Err ErrNotFoundInIndex
  | (_, valBytes) :: _ =>
      if zlen valBytes =? 0 then Err errNilValue else proto_Unmarshal valBytes
  end.

Definition getTxLoc (index : blockIndex) (db : kvmap) (txID : bytes) : outcome fileLocPointer :=
  v ← getTxIDVal index db txID;
  flp_unmarshal_checked (TxIDIV_TxLocation v).

Definition getBlockLocByTxID (index : blockIndex) (db : kvmap) (txID : bytes) : outcome fileLocPointer :=
  v ← getTxIDVal index db txID;
  flp_unmarshal_checked (TxIDIV_BlkLocation v).

Definition getTxValidationCodeByTxID (index : blockIndex) (db : kvmap) (txID : bytes) : outcome Z :=
  v ← getTxIDVal index db txID;
  Ret (TxIDIV_TxValidationCode v).

End WithProtos.

(** ** Location pointers survive the database *)

Definition flp_wf (flp : fileLocPointer) : Prop :=
  is_i64 (flp_fileSuffixNum flp) /\ is_i64 (flp_offset flp) /\ is_i64 (flp_bytesLength flp).

Lemma i64_u64 (z : Z) : is_i64 z -> i64 (u64 z) = z.
Proof.
  unfold is_i64, i64, u64. intros Hz. rewrite Zplus_mod_idemp_l. rewrite Z.mod_small; lia.
Qed.

Lemma flp_unmarshal_marshal (flp : fileLocPointer) :
  flp_wf flp -> flp_unmarshal (flp_marshal flp) = (flp, None).
Proof.
  destruct flp as [f [o l]]. intros (Hf & Ho & Hl). unfold flp_offset, flp_bytesLength in *.
  cbn [flp_fileSuffixNum flp_loc loc_offset loc_bytesLength] in *.
  unfold flp_unmarshal, flp_marshal, flp_offset, flp_bytesLength, NewBuffer.
  rewrite !Buffer_EncodeVarint_eq. cbn [buf index flp_fileSuffixNum flp_loc loc_offset loc_bytesLength app].
  rewrite <- app_assoc.
  pose proof (Buffer_DecodeVarint_encode [] (EncodeVarint (u64 o) ++ EncodeVarint (u64 l)) (u64 f) (u64_is_u64 f)) as E1.
  cbn [app length] in E1. rewrite E1, Nat.add_0_l.
  rewrite (Buffer_DecodeVarint_encode (EncodeVarint (u64 f)) (EncodeVarint (u64 l)) (u64 o) (u64_is_u64 o)).
  rewrite app_assoc, <- length_app.
  pose proof (Buffer_DecodeVarint_encode (EncodeVarint (u64 f) ++ EncodeVarint (u64 o)) [] (u64 l) (u64_is_u64 l)) as E3.
  rewrite app_nil_r in E3. rewrite E3. by rewrite !i64_u64.
Qed.

Lemma flp_marshal_nonempty (flp : fileLocPointer) : flp_marshal flp <> [].
Proof.
  unfold flp_marshal. rewrite !Buffer_EncodeVarint_eq. cbn [buf]. intros E. apply app_nil in E as [_ E].
  pose proof (EncodeVarint_length (u64 (flp_bytesLength flp))) as L. rewrite E in L. simpl in L. lia.
Qed.

Lemma decode_encodeBlockNum (n : Z) : is_u64 n -> decodeBlockNum (encodeBlockNum n) = n.
Proof.
  intros Hn. unfold decodeBlockNum, encodeBlockNum. rewrite <- (app_nil_r (EncodeVarint n)).
  by rewrite DecodeVarint_encode.
Qed.

(** ** Keys *)

Lemma Encode_app_inj (n m : Z) (a b : bytes) :
  is_u64 n -> is_u64 m ->
  EncodeOrderPreservingVarUint64 n ++ a = EncodeOrderPreservingVarUint64 m ++ b -> n = m /\ a = b.
Proof.
  intros Hn Hm E. pose proof (Encode_compare_app n m a b Hn Hm) as C. rewrite E, bytes_compare_refl in C.
  destruct (Z.compare_spec n m) as [->| |]; try done. split; [done|]. by apply bytes_compare_eq.
Qed.

Lemma Encode_inj (n m : Z) :
  is_u64 n -> is_u64 m -> EncodeOrderPreservingVarUint64 n = EncodeOrderPreservingVarUint64 m -> n = m.
Proof.
  intros Hn Hm E. apply (Encode_app_inj n m [] []); try done. by rewrite !app_nil_r.
Qed.

Lemma constructTxIDKey_inj (t t' : bytes) (b b' n n' : Z) :
  is_u64 (zlen t) -> is_u64 (zlen t') -> is_u64 b -> is_u64 b' -> is_u64 n -> is_u64 n' ->
  constructTxIDKey t b n = constructTxIDKey t' b' n' -> t = t' /\ b = b' /\ n = n'.
Proof.
  intros Ht Ht' Hb Hb' Hn Hn' E. unfold constructTxIDKey in E. rewrite !u64_id in E by done.
  apply cons_tail in E. apply Encode_app_inj in E as [El E]; [|done..].
  apply app_inj_1 in E as [-> E]; [|unfold zlen in El; lia].
  apply Encode_app_inj in E as [-> E]; [|done..]. split; [done|]. split; [done|]. by apply Encode_inj.
Qed.

Lemma retrieveTxID_construct (t : bytes) (b n : Z) :
  zlen t < 2 ^ 63 -> is_u64 b -> retrieveTxID (constructTxIDKey t b n) = Ret t.
Proof.
  intros Ht Hb. pose proof (zlen_nonneg t). assert (Hu : is_u64 (zlen t)) by (unfold is_u64; lia).
  unfold retrieveTxID, constructTxIDKey. rewrite bool_decide_eq_true_2 by done. cbn [negb].
  rewrite (u64_id _ Hu), Decode_Encode by done. cbn [mbind outcome_bind].
  rewrite zlen_to_nat, drop_app_length, (i64_id (zlen t)) by (unfold is_i64; lia).
  pose proof (Encode_length b Hb) as Lb.
  rewrite (proj2 (Z.leb_gt _ _)).
  - rewrite (proj2 (Z.ltb_ge _ _)) by lia. by rewrite zlen_to_nat, take_app_length.
  - rewrite !zlen_app. pose proof (zlen_nonneg (EncodeOrderPreservingVarUint64 n)).
    unfold zlen at 3. lia.
Qed.

(** The range scanned for a transaction id holds exactly the keys of that id. *)
Lemma txid_range_exact (t t' : bytes) (b n : Z) :
  is_u64 (zlen t) -> is_u64 (zlen t') -> is_u64 b ->
  let '(sk, ek) := constructTxIDRangeScan t in
  bytes_leb sk (constructTxIDKey t' b n) && bytes_ltb (constructTxIDKey t' b n) ek = true <-> t' = t.
Proof.
  intros Ht Ht' Hb. unfold constructTxIDRangeScan, constructTxIDKey. rewrite !u64_id by done.
  split.
  - intros [H1 H2]%andb_true_iff. rewrite bytes_ltb_leb in H2. apply negb_true_iff in H2.
    set (p := txIDIdxKeyPrefix :: EncodeOrderPreservingVarUint64 (zlen t) ++ t) in *.
    destruct (bytes_between p [] [Byte.xff] (txIDIdxKeyPrefix :: EncodeOrderPreservingVarUint64 (zlen t') ++ t' ++
       EncodeOrderPreservingVarUint64 b ++ EncodeOrderPreservingVarUint64 n)) as [y E].
    + by rewrite app_nil_r.
    + match goal with |- bytes_leb ?x ?y = true => destruct (bytes_le_total x y) as [|G]; [done|] end.
      unfold bytes_le in G. congruence.
    + unfold p in E. rewrite <- app_comm_cons, <- app_assoc in E. apply cons_tail in E.
      apply Encode_app_inj in E as [El E]; [|done..].
      apply app_inj_1 in E as [-> E]; [done|]. unfold zlen in El. lia.
  - intros ->. set (p := txIDIdxKeyPrefix :: EncodeOrderPreservingVarUint64 (zlen t) ++ t).
    assert (Ek : forall z, txIDIdxKeyPrefix :: EncodeOrderPreservingVarUint64 (zlen t) ++ t ++ z = p ++ z)
      by (intros z; unfold p; by rewrite <- app_comm_cons, <- app_assoc).
    rewrite !Ek.
    rewrite bytes_ltb_app. rewrite <- (app_nil_r p) at 1. rewrite bytes_leb_app.
    apply andb_true_iff. split; [apply bytes_leb_nil|].
    rewrite (Encode_byte_size b) by done. unfold bytes_ltb. cbn [app bytes_compare].
    rewrite b2z_z2b. change (b2z Byte.xff) with 255.
    pose proof (byte_size_spec b Hb) as (Hs & _). rewrite Z.mod_small by lia.
    rewrite (proj2 (Z.compare_lt_iff _ _)) by lia. done.
Qed.

(** ** What indexing a block puts in the database *)

Section Indexing.
Context {PR : Protos} {PK : ProtosOk}.

(** Everything is indexed (the configuration of the peer's ledger). *)
Definition index_all (index : blockIndex) : Prop := forall a, isAttributeIndexed index a = true.

Record idx_wf (info : blockIdxInfo) (fl : bytes) : Prop := {
  iw_num : is_u64 (bii_blockNum info);
  iw_flp : flp_wf (bii_flp info);
  iw_flags : exists md, bii_metadata info = Some md /\ md !! BlockMetadataIndex_TRANSACTIONS_FILTER = Some fl;
  iw_len : (length (bii_txOffsets info) <= length fl)%nat /\ is_u64 (zlen (bii_txOffsets info));
  iw_txs : Forall (fun t => is_u64 (zlen (txi_txID t)) /\ is_i64 (loc_bytesLength (txi_loc t))) (bii_txOffsets info) }.

Definition tx_flp (info : blockIdxInfo) (tx : txindexInfo) : fileLocPointer :=
  newFileLocationPointer (flp_fileSuffixNum (bii_flp info)) (flp_offset (bii_flp info)) (txi_loc tx).

(** The value stored under the transaction's id, with its validation code. *)
Definition tx_value (info : blockIdxInfo) (fl : bytes) (i : nat) (tx : txindexInfo) : TxIDIndexValue :=
  mkTxIDIndexValue (flp_marshal (bii_flp info)) (flp_marshal (tx_flp info tx))
    (b2z (default Byte.x00 (fl !! i))).

Definition txid_batch (info : blockIdxInfo) (fl : bytes) : batch :=
  imap (fun i tx => (constructTxIDKey (txi_txID tx) (bii_blockNum info) (Z.of_nat i),
                     Some (Marshal (tx_value info fl i tx)))) (bii_txOffsets info).

Definition tran_batch (info : blockIdxInfo) : batch :=
  imap (fun i tx => (constructBlockNumTranNumKey (bii_blockNum info) (Z.of_nat i),
                     Some (flp_marshal (tx_flp info tx)))) (bii_txOffsets info).

Lemma txid_entries_eq (info : blockIdxInfo) (fl : bytes) (l : list txindexInfo) (i : nat) :
  (i + length l <= length fl)%nat ->
  txid_entries (bii_flp info) (bii_blockNum info) (flp_marshal (bii_flp info)) fl i l =
    Ret (imap (fun j tx => (constructTxIDKey (txi_txID tx) (bii_blockNum info) (Z.of_nat (i + j)),
                     Some (Marshal (tx_value info fl (i + j) tx)))) l).
Proof.
  revert i. induction l as [|tx l IH]; intros i Hl; [done|]. cbn [txid_entries length] in *.
  unfold flag, go_index. destruct (lookup_lt_is_Some_2 fl i) as [c Hc]; [lia|].
  rewrite Hc. cbn [mbind outcome_bind]. rewrite IH by lia. cbn [mbind outcome_bind]. f_equal.
  cbn [imap]. rewrite Nat.add_0_r. f_equal.
  - unfold tx_value. by rewrite Hc.
  - apply imap_ext. intros j tx' _. unfold compose. by rewrite <- Nat.add_succ_comm.
Qed.

Lemma trannum_entries_eq (info : blockIdxInfo) (l : list txindexInfo) (i : nat) :
  trannum_entries (bii_flp info) (bii_blockNum info) i l =
    imap (fun j tx => (constructBlockNumTranNumKey (bii_blockNum info) (Z.of_nat (i + j)),
                     Some (flp_marshal (tx_flp info tx)))) l.
Proof.
  revert i. induction l as [|tx l IH]; intros i; [done|]. cbn [trannum_entries imap].
  rewrite IH, Nat.add_0_r. f_equal. apply imap_ext. intros j tx' _. unfold compose. by rewrite <- Nat.add_succ_comm.
Qed.

Definition full_batch (info : blockIdxInfo) (fl : bytes) : batch :=
  [(constructBlockHashKey (bii_blockHash info), Some (flp_marshal (bii_flp info)))] ++
  [(constructBlockNumKey (bii_blockNum info), Some (flp_marshal (bii_flp info)))] ++
  txid_batch info fl ++ tran_batch info ++
  [(indexSavePointKey, Some (encodeBlockNum (bii_blockNum info)))].

Lemma index_batch_full (index : blockIndex) (info : blockIdxInfo) (fl : bytes) :
  index_all index -> idx_wf info fl -> index_batch index info = Ret (full_batch info fl).
Proof.
  intros Ha [Hn Hf (md & Emd & Efl) [Hl _] _]. unfold index_batch. rewrite Emd. cbn [mbind outcome_bind].
  unfold go_index. rewrite Efl. cbn [mbind outcome_bind]. rewrite !Ha.
  rewrite (txid_entries_eq info fl (bii_txOffsets info) 0) by lia. cbn [mbind outcome_bind].
  by rewrite (trannum_entries_eq info (bii_txOffsets info) 0).
Qed.

Lemma index_all_nonempty (index : blockIndex) : index_all index -> (length index =? 0)%nat = false.
Proof.
  intros Ha. destruct index as [|a index]; [|done].
  specialize (Ha IndexableAttrBlockNum). done.
Qed.

Lemma indexBlock_ok (index : blockIndex) (info : blockIdxInfo) (fl : bytes) (fs : Fs) (db : kvmap) :
  index_all index -> idx_wf info fl ->
  indexBlock index info (mkWorld fs db []) =
    (Ret tt, mkWorld fs (DB_WriteBatch (full_batch info fl) db) []).
Proof.
  intros Ha Hw. unfold indexBlock. rewrite index_all_nonempty by done.
  rewrite (index_batch_full index info fl) by done. done.
Qed.

(** A write that fails leaves the index as it was. *)
Lemma indexBlock_fault (index : blockIndex) (info : blockIdxInfo) (fl : bytes) (fs : Fs) (db : kvmap)
    (n : nat) (faults : list (option fault)) :
  index_all index -> idx_wf info fl ->
  indexBlock index info (mkWorld fs db (Some (Fails n) :: faults)) = (Err ErrIO, mkWorld fs db faults).
Proof.
  intros Ha Hw. unfold indexBlock. rewrite index_all_nonempty by done.
  rewrite (index_batch_full index info fl) by done. done.
Qed.

(** ** Distinct keys *)

Lemma tran_key_inj (b b' n n' : Z) :
  is_u64 b -> is_u64 b' -> is_u64 n -> is_u64 n' ->
  constructBlockNumTranNumKey b n = constructBlockNumTranNumKey b' n' -> b = b' /\ n = n'.
Proof.
  intros Hb Hb' Hn Hn' E. unfold constructBlockNumTranNumKey in E. apply cons_tail in E.
  apply Encode_app_inj in E as [-> E]; [|done..]. split; [done|]. by apply Encode_inj.
Qed.

Lemma num_key_inj (b b' : Z) :
  is_u64 b -> is_u64 b' -> constructBlockNumKey b = constructBlockNumKey b' -> b = b'.
Proof. intros Hb Hb' E. apply cons_tail in E. by apply Encode_inj. Qed.

(** The first byte tells the families of keys apart. *)
Lemma key_family (k : bytes) (a b : byte) (l l' : bytes) : k = a :: l -> k = b :: l' -> a = b.
Proof. intros -> E. congruence. Qed.

Lemma imap_keys {A} (f : nat -> A -> bytes * option bytes) (l : list A) (k : bytes) :
  k ∈ (imap f l).*1 <-> exists i x, l !! i = Some x /\ k = fst (f i x).
Proof.
  rewrite list_elem_of_fmap. split.
  - intros (u & -> & (i & x & -> & Hi)%elem_of_lookup_imap). eauto.
  - intros (i & x & Hi & ->). exists (f i x). split; [done|]. apply elem_of_lookup_imap. eauto.
Qed.

Lemma txid_batch_keys (info : blockIdxInfo) (fl : bytes) (k : bytes) :
  k ∈ (txid_batch info fl).*1 <->
  exists i tx, bii_txOffsets info !! i = Some tx /\ k = constructTxIDKey (txi_txID tx) (bii_blockNum info) (Z.of_nat i).
Proof.
  unfold txid_batch. apply imap_keys.
Qed.

Lemma tran_batch_keys (info : blockIdxInfo) (k : bytes) :
  k ∈ (tran_batch info).*1 <->
  exists i tx, bii_txOffsets info !! i = Some tx /\ k = constructBlockNumTranNumKey (bii_blockNum info) (Z.of_nat i).
Proof.
  unfold tran_batch. apply imap_keys.
Qed.

Lemma idx_wf_tx (info : blockIdxInfo) (fl : bytes) (i : nat) (tx : txindexInfo) :
  idx_wf info fl -> bii_txOffsets info !! i = Some tx ->
  is_u64 (Z.of_nat i) /\ is_u64 (zlen (txi_txID tx)) /\ is_i64 (loc_bytesLength (txi_loc tx)).
Proof.
  intros [_ _ _ [_ Hl] Ht] Hi. apply lookup_lt_Some in Hi as Hlt.
  unfold is_u64, zlen in Hl. split; [unfold is_u64; lia|].
  by apply (proj1 (Forall_lookup _ _) Ht i).
Qed.

Lemma NoDup_imap_keys {A} (f : nat -> A -> bytes * option bytes) (l : list A) :
  (forall i j x y, l !! i = Some x -> l !! j = Some y -> fst (f i x) = fst (f j y) -> i = j) ->
  NoDup (imap f l).*1.
Proof.
  intros Hf. apply NoDup_alt. intros i j k Hi Hj. rewrite list_lookup_fmap, list_lookup_imap in Hi, Hj.
  destruct (l !! i) as [x|] eqn:Ei; [|done]. destruct (l !! j) as [y|] eqn:Ej; [|done]. simplify_eq/=.
  by eapply Hf.
Qed.

Lemma full_batch_NoDup (info : blockIdxInfo) (fl : bytes) : idx_wf info fl -> NoDup (full_batch info fl).*1.
Proof.
  intros Hw. pose proof (iw_num _ _ Hw) as Hn. unfold full_batch. rewrite !fmap_app.
  cbn [fmap list_fmap fst app]. apply NoDup_cons. split; [|apply NoDup_cons; split; [|apply NoDup_app; split_and!; [| |apply NoDup_app; split_and!]]].
  - rewrite elem_of_cons, !elem_of_app, txid_batch_keys, tran_batch_keys, list_elem_of_singleton.
    intros [E|[(i & tx & _ & E)|[(i & tx & _ & E)|E]]]; by injection E.
  - rewrite !elem_of_app, txid_batch_keys, tran_batch_keys, list_elem_of_singleton.
    intros [(i & tx & _ & E)|[(i & tx & _ & E)|E]]; discriminate E.
  - apply NoDup_imap_keys. intros i j x y Hi Hj E. cbn [fst] in E.
    destruct (idx_wf_tx _ _ _ _ Hw Hi) as (? & ? & _), (idx_wf_tx _ _ _ _ Hw Hj) as (? & ? & _).
    apply constructTxIDKey_inj in E as (_ & _ & E); [lia|done..].
  - intros k. rewrite !elem_of_app, txid_batch_keys, tran_batch_keys, list_elem_of_singleton.
    intros (i & tx & _ & ->) [(j & tx' & _ & E)|E]; discriminate E.
  - apply NoDup_imap_keys. intros i j x y Hi Hj E. cbn [fst] in E.
    destruct (idx_wf_tx _ _ _ _ Hw Hi) as (? & ? & _), (idx_wf_tx _ _ _ _ Hw Hj) as (? & ? & _).
    apply tran_key_inj in E as (_ & E); [lia|done..].
  - intros k. rewrite tran_batch_keys, list_elem_of_singleton. intros (i & tx & _ & ->) E. discriminate E.
  - apply NoDup_singleton.
Qed.

(** ** The database after indexing a block, by family of keys *)

Lemma full_batch_keys (info : blockIdxInfo) (fl : bytes) (k : bytes) :
  k ∈ (full_batch info fl).*1 <->
  k = constructBlockHashKey (bii_blockHash info) \/ k = constructBlockNumKey (bii_blockNum info) \/
  k ∈ (txid_batch info fl).*1 \/ k ∈ (tran_batch info).*1 \/ k = indexSavePointKey.
Proof.
  unfold full_batch. rewrite !fmap_app, !elem_of_app. cbn [fmap list_fmap fst].
  by rewrite !list_elem_of_singleton.
Qed.

Section After.
Context (info : blockIdxInfo) (fl : bytes) (db : kvmap) (Hw : idx_wf info fl).

(** Decide membership of a key in the batch by its first byte. *)
Ltac not_in_batch :=
  apply write_batch_notin; rewrite full_batch_keys, txid_batch_keys, tran_batch_keys;
  intros [E|[E|[(j & tx' & Hj & E)|[(j & tx' & Hj & E)|E]]]]; try discriminate E.

Lemma after_num (n : Z) :
  is_u64 n ->
  DB_WriteBatch (full_batch info fl) db !! constructBlockNumKey n =
    if decide (n = bii_blockNum info) then Some (flp_marshal (bii_flp info)) else db !! constructBlockNumKey n.
Proof.
  intros Hn. destruct (decide _) as [->|Hne].
  - apply write_batch_in; [by apply full_batch_NoDup|]. unfold full_batch. set_solver.
  - not_in_batch. apply num_key_inj in E; [done|done|apply Hw].
Qed.

Lemma after_hash (h : bytes) :
  DB_WriteBatch (full_batch info fl) db !! constructBlockHashKey h =
    if decide (h = bii_blockHash info) then Some (flp_marshal (bii_flp info)) else db !! constructBlockHashKey h.
Proof.
  destruct (decide _) as [->|Hne].
  - apply write_batch_in; [by apply full_batch_NoDup|]. unfold full_batch. set_solver.
  - not_in_batch. by apply cons_tail in E.
Qed.

Lemma after_tran (b n : Z) :
  is_u64 b -> is_u64 n ->
  DB_WriteBatch (full_batch info fl) db !! constructBlockNumTranNumKey b n =
    match (if decide (b = bii_blockNum info) then bii_txOffsets info !! Z.to_nat n else None) with
    | Some tx => Some (flp_marshal (tx_flp info tx))
    | None => db !! constructBlockNumTranNumKey b n
    end.
Proof.
  intros Hb Hn. destruct (decide _) as [->|Hne].
  - destruct (bii_txOffsets info !! Z.to_nat n) as [tx|] eqn:Et.
    + apply write_batch_in; [by apply full_batch_NoDup|]. unfold full_batch. rewrite !elem_of_app.
      right. right. right. left. apply elem_of_lookup_imap. exists (Z.to_nat n), tx.
      split; [|done]. by rewrite Z2Nat.id by (unfold is_u64 in Hn; lia).
    + not_in_batch. destruct (idx_wf_tx _ _ _ _ Hw Hj) as (Hju & _).
      apply tran_key_inj in E as [_ ->]; [|done..]. rewrite Nat2Z.id in Et. congruence.
  - not_in_batch. destruct (idx_wf_tx _ _ _ _ Hw Hj) as (Hju & _).
    apply tran_key_inj in E as [? _]; [done|done|apply Hw|done|done].
Qed.

Lemma after_txid (t : bytes) (b n : Z) :
  is_u64 (zlen t) -> is_u64 b -> is_u64 n ->
  DB_WriteBatch (full_batch info fl) db !! constructTxIDKey t b n =
    match (if decide (b = bii_blockNum info) then bii_txOffsets info !! Z.to_nat n else None) with
    | Some tx => if decide (txi_txID tx = t) then Some (Marshal (tx_value info fl (Z.to_nat n) tx))
                 else db !! constructTxIDKey t b n
    | None => db !! constructTxIDKey t b n
    end.
Proof.
  intros Ht Hb Hn.
  assert (D : (exists tx, b = bii_blockNum info /\ bii_txOffsets info !! Z.to_nat n = Some tx /\ txi_txID tx = t) \/
    constructTxIDKey t b n ∉ (full_batch info fl).*1).
  { destruct (decide (constructTxIDKey t b n ∈ (full_batch info fl).*1)) as [Hin|]; [left|by right].
    rewrite full_batch_keys, txid_batch_keys, tran_batch_keys in Hin.
    destruct Hin as [E|[E|[(j & tx' & Hj & E)|[(j & tx' & Hj & E)|E]]]]; try discriminate E.
    destruct (idx_wf_tx _ _ _ _ Hw Hj) as (Hju & Hjt & _).
    apply constructTxIDKey_inj in E as (-> & -> & ->); [|try done; apply Hw..].
    exists tx'. by rewrite Nat2Z.id. }
  destruct D as [(tx & -> & Et & <-)|D].
  - rewrite decide_True, Et, decide_True by done. apply write_batch_in; [by apply full_batch_NoDup|].
    unfold full_batch. rewrite !elem_of_app. right. right. left. apply elem_of_lookup_imap.
    exists (Z.to_nat n), tx. split; [|done]. by rewrite Z2Nat.id by (unfold is_u64 in Hn; lia).
  - rewrite write_batch_notin by done. destruct (decide _) as [->|]; [|done].
    destruct (bii_txOffsets info !! Z.to_nat n) as [tx|] eqn:Et; [|done]. destruct (decide _) as [<-|]; [|done].
    exfalso. apply D. rewrite full_batch_keys, txid_batch_keys. right. right. left.
    exists (Z.to_nat n), tx. split; [done|]. by rewrite Z2Nat.id by (unfold is_u64 in Hn; lia).
Qed.

Lemma after_save : getLastBlockIndexed (DB_WriteBatch (full_batch info fl) db) = Ret (bii_blockNum info).
Proof.
  unfold getLastBlockIndexed. erewrite write_batch_in; [|by apply full_batch_NoDup|].
  - rewrite decode_encodeBlockNum; [done|apply Hw].
  - unfold full_batch. rewrite !elem_of_app. do 4 right. by left.
Qed.

(** Keys outside the index (the manager's checkpoint) are not touched. *)
Lemma after_other (c : byte) (k : bytes) :
  c ∉ [blockNumIdxKeyPrefix; blockHashIdxKeyPrefix; txIDIdxKeyPrefix; blockNumTranNumIdxKeyPrefix; Byte.x69] ->
  DB_WriteBatch (full_batch info fl) db !! (c :: k) = db !! (c :: k).
Proof. intros Hc. not_in_batch; apply Hc; injection E as -> _; set_solver. Qed.

(** Every transaction-id key of the new database is an old one or one of the block. *)
Lemma after_txid_keys (k : bytes) :
  is_Some (DB_WriteBatch (full_batch info fl) db !! (txIDIdxKeyPrefix :: k)) ->
  is_Some (db !! (txIDIdxKeyPrefix :: k)) \/
  exists i tx, bii_txOffsets info !! i = Some tx /\
    txIDIdxKeyPrefix :: k = constructTxIDKey (txi_txID tx) (bii_blockNum info) (Z.of_nat i).
Proof.
  intros Hk. destruct (decide (txIDIdxKeyPrefix :: k ∈ (full_batch info fl).*1)) as [Hin|Hin].
  - right. rewrite full_batch_keys, txid_batch_keys, tran_batch_keys in Hin.
    destruct Hin as [E|[E|[Hin|[(j & tx' & Hj & E)|E]]]]; try discriminate E. done.
  - left. by rewrite write_batch_notin in Hk.
Qed.

End After.

(** ** The index of a chain of blocks *)

(** The entries of the database are those of the blocks of [chain] (with their
    validation flags), oldest first. *)
Record index_ok (db : kvmap) (chain : list (blockIdxInfo * bytes)) : Prop := {
  io_wf : Forall (fun c => idx_wf (fst c) (snd c)) chain;
  io_num : forall info fl, (info, fl) ∈ chain ->
    db !! constructBlockNumKey (bii_blockNum info) = Some (flp_marshal (bii_flp info));
  io_num_none : forall n, is_u64 n -> (forall info fl, (info, fl) ∈ chain -> bii_blockNum info <> n) ->
    db !! constructBlockNumKey n = None;
  io_tran : forall info fl i tx, (info, fl) ∈ chain -> bii_txOffsets info !! i = Some tx ->
    db !! constructBlockNumTranNumKey (bii_blockNum info) (Z.of_nat i) = Some (flp_marshal (tx_flp info tx));
  io_tx : forall info fl i tx, (info, fl) ∈ chain -> bii_txOffsets info !! i = Some tx ->
    db !! constructTxIDKey (txi_txID tx) (bii_blockNum info) (Z.of_nat i) =
      Some (Marshal (tx_value info fl i tx));
  io_tx_only : forall k, is_Some (db !! (txIDIdxKeyPrefix :: k)) ->
    exists info fl i tx, (info, fl) ∈ chain /\ bii_txOffsets info !! i = Some tx /\
      txIDIdxKeyPrefix :: k = constructTxIDKey (txi_txID tx) (bii_blockNum info) (Z.of_nat i);
  io_hash : forall info fl, (info, fl) ∈ chain ->
    (forall info' fl', (info', fl') ∈ chain -> bii_blockHash info' = bii_blockHash info -> info' = info) ->
    db !! constructBlockHashKey (bii_blockHash info) = Some (flp_marshal (bii_flp info));
  io_save : getLastBlockIndexed db =
    match last chain with
    | Some (info, _) => Ret (bii_blockNum info)
    | None => Err errIndexSavePointKeyNotPresent
    end }.

Lemma index_ok_empty : index_ok ∅ [].
Proof.
  constructor; try (intros; set_solver).
  intros k [? Hk]. by rewrite lookup_empty in Hk.
Qed.

(** Indexing the next block extends the indexed chain. *)
Lemma index_ok_snoc (db : kvmap) (chain : list (blockIdxInfo * bytes)) (info : blockIdxInfo) (fl : bytes) :
  index_ok db chain -> idx_wf info fl ->
  (forall info' fl', (info', fl') ∈ chain -> bii_blockNum info' < bii_blockNum info) ->
  index_ok (DB_WriteBatch (full_batch info fl) db) (chain ++ [(info, fl)]).
Proof.
  intros [Hwf Hnum Hnone Htran Htx Honly Hhash Hsave] Hw Hlt.
  assert (Hwf' : forall i f, (i, f) ∈ chain -> idx_wf i f)
    by (intros i f Hin; by apply (proj1 (Forall_forall _ _) Hwf (i, f))).
  assert (Hsp : forall i f, (i, f) ∈ chain ++ [(info, fl)] -> (i, f) ∈ chain \/ (i = info /\ f = fl)) by set_solver.
  constructor.
  - apply Forall_app. split; [done|]. by apply Forall_singleton.
  - intros i f [Hin|[-> ->]]%Hsp.
    + rewrite after_num; [|done|apply (Hwf' _ _ Hin)]. rewrite decide_False; [eauto|].
      specialize (Hlt _ _ Hin). lia.
    + rewrite after_num; [|done|apply Hw]. by rewrite decide_True.
  - intros n Hn Hall. rewrite after_num by done. rewrite decide_False.
    + apply Hnone; [done|]. intros i f Hin. eapply Hall, elem_of_app. by left.
    + intros ->. by eapply (Hall info fl); [set_solver|].
  - intros i f j tx Hin Hj. apply Hsp in Hin as [Hin|[-> ->]].
    + destruct (idx_wf_tx _ _ _ _ (Hwf' _ _ Hin) Hj) as (Hju & _).
      rewrite after_tran; [|done|apply (Hwf' _ _ Hin)|done].
      rewrite decide_False; [by eapply Htran|]. specialize (Hlt _ _ Hin). lia.
    + destruct (idx_wf_tx _ _ _ _ Hw Hj) as (Hju & _). rewrite after_tran; [|done|apply Hw|done].
      by rewrite decide_True, Nat2Z.id, Hj.
  - intros i f j tx Hin Hj. apply Hsp in Hin as [Hin|[-> ->]].
    + destruct (idx_wf_tx _ _ _ _ (Hwf' _ _ Hin) Hj) as (Hju & Htu & _).
      rewrite after_txid; [|done|done|apply (Hwf' _ _ Hin)|done].
      rewrite decide_False; [by eapply Htx|]. specialize (Hlt _ _ Hin). lia.
    + destruct (idx_wf_tx _ _ _ _ Hw Hj) as (Hju & Htu & _). rewrite after_txid; [|done|done|apply Hw|done].
      by rewrite decide_True, Nat2Z.id, Hj, decide_True.
  - intros k Hk. apply after_txid_keys in Hk as [Hk|(i & tx & Hi & E)]; [|exists info, fl, i, tx; set_solver].
    destruct (Honly k Hk) as (i & f & j & tx & Hin & Hj & E). exists i, f, j, tx. set_solver.
  - intros i f Hin Huniq. rewrite after_hash by done. destruct (decide _) as [E|Hne].
    + rewrite (Huniq info fl); [done|set_solver|done].
    + apply Hsp in Hin as [Hin|[-> ->]]; [|done]. apply (Hhash i f); [done|].
      intros i' f' Hin'. apply (Huniq i' f'). set_solver.
  - rewrite last_snoc. by apply after_save.
Qed.

(** ** Lookups in the index of a chain *)

Section Lookups.
Context (index : blockIndex) (db : kvmap) (chain : list (blockIdxInfo * bytes))
  (Hall : index_all index) (Hok : index_ok db chain).

Lemma chain_wf (info : blockIdxInfo) (fl : bytes) : (info, fl) ∈ chain -> idx_wf info fl.
Proof. intros Hin. by apply (proj1 (Forall_forall _ _) (io_wf _ _ Hok) (info, fl)). Qed.

Lemma tx_flp_wf (info : blockIdxInfo) (fl : bytes) (i : nat) (tx : txindexInfo) :
  (info, fl) ∈ chain -> bii_txOffsets info !! i = Some tx -> flp_wf (tx_flp info tx).
Proof.
  intros Hin Hi. destruct (idx_wf_tx _ _ _ _ (chain_wf _ _ Hin) Hi) as (_ & _ & Hl).
  destruct (iw_flp _ _ (chain_wf _ _ Hin)) as (Hf & _ & _).
  split; [done|]. split; [|done]. apply i64_is_i64.
Qed.

Lemma getBlockLocByBlockNum_ok (info : blockIdxInfo) (fl : bytes) :
  (info, fl) ∈ chain -> getBlockLocByBlockNum index db (bii_blockNum info) = Ret (bii_flp info).
Proof.
  intros Hin. unfold getBlockLocByBlockNum. rewrite Hall. cbn [negb].
  rewrite (io_num _ _ Hok _ _ Hin), flp_unmarshal_marshal; [done|apply (chain_wf _ _ Hin)].
Qed.

Lemma getBlockLocByBlockNum_none (n : Z) :
  is_u64 n -> (forall info fl, (info, fl) ∈ chain -> bii_blockNum info <> n) ->
  getBlockLocByBlockNum index db n = Err ErrNotFoundInIndex.
Proof.
  intros Hn Hnone. unfold getBlockLocByBlockNum. rewrite Hall. cbn [negb].
  by rewrite (io_num_none _ _ Hok n Hn Hnone).
Qed.

Lemma getTXLocByBlockNumTranNum_ok (info : blockIdxInfo) (fl : bytes) (i : nat) (tx : txindexInfo) :
  (info, fl) ∈ chain -> bii_txOffsets info !! i = Some tx ->
  getTXLocByBlockNumTranNum index db (bii_blockNum info) (Z.of_nat i) = Ret (tx_flp info tx).
Proof.
  intros Hin Hi. unfold getTXLocByBlockNumTranNum. rewrite Hall. cbn [negb].
  rewrite (io_tran _ _ Hok _ _ _ _ Hin Hi), flp_unmarshal_marshal; [done|by eapply tx_flp_wf].
Qed.

Lemma getBlockLocByHash_ok (info : blockIdxInfo) (fl : bytes) :
  (info, fl) ∈ chain ->
  (forall info' fl', (info', fl') ∈ chain -> bii_blockHash info' = bii_blockHash info -> info' = info) ->
  getBlockLocByHash index db (bii_blockHash info) = Ret (bii_flp info).
Proof.
  intros Hin Hu. unfold getBlockLocByHash. rewrite Hall. cbn [negb].
  rewrite (io_hash _ _ Hok _ _ Hin Hu), flp_unmarshal_marshal; [done|apply (chain_wf _ _ Hin)].
Qed.

(** The transaction [i] of a block of the chain has the id [t]. *)
Definition occurs (t : bytes) (info : blockIdxInfo) (fl : bytes) (i : nat) (tx : txindexInfo) : Prop :=
  (info, fl) ∈ chain /\ bii_txOffsets info !! i = Some tx /\ txi_txID tx = t.

(** The range scan of an id sees the occurrences of the id and nothing else. *)
Lemma txid_scan_keys (t k : bytes) :
  is_u64 (zlen t) -> let '(sk, ek) := constructTxIDRangeScan t in
  is_Some (db !! k) -> bytes_leb sk k = true -> bytes_ltb k ek = true ->
  exists info fl i tx, occurs t info fl i tx /\ k = constructTxIDKey t (bii_blockNum info) (Z.of_nat i).
Proof.
  intros Ht. pose proof (txid_range_exact t) as R.
  destruct (constructTxIDRangeScan t) as [sk ek] eqn:Es. intros Hk H1 H2.
  assert (Hp : exists k', k = txIDIdxKeyPrefix :: k').
  { unfold constructTxIDRangeScan in Es. injection Es as <- <-.
    destruct (bytes_between [txIDIdxKeyPrefix] (EncodeOrderPreservingVarUint64 (u64 (zlen t)) ++ t)
      ((EncodeOrderPreservingVarUint64 (u64 (zlen t)) ++ t) ++ [Byte.xff]) k) as [y ->]; [done| |by exists y].
    rewrite bytes_ltb_leb in H2. apply negb_true_iff in H2.
    match goal with |- bytes_leb ?x ?y = true => destruct (bytes_le_total x y) as [|G]; [done|] end.
    unfold bytes_le in G. cbn [app] in *. congruence. }
  destruct Hp as [k' ->]. destruct (io_tx_only _ _ Hok k' Hk) as (info & fl & i & tx & Hin & Hi & E).
  destruct (idx_wf_tx _ _ _ _ (chain_wf _ _ Hin) Hi) as (_ & Htu & _).
  specialize (R (txi_txID tx) (bii_blockNum info) (Z.of_nat i) Ht Htu (iw_num _ _ (chain_wf _ _ Hin))).
  rewrite E in *. rewrite H1, H2 in R. destruct R as [R _]. specialize (R eq_refl).
  exists info, fl, i, tx. rewrite <- R. done.
Qed.

(** [(b, n)] comes before [(b', n')]. *)
Definition lex_le (b n b' n' : Z) : Prop := b < b' \/ (b = b' /\ n <= n').

Lemma txid_key_order (t : bytes) (b n b' n' : Z) :
  is_u64 b -> is_u64 n -> is_u64 b' -> is_u64 n' ->
  bytes_leb (constructTxIDKey t b n) (constructTxIDKey t b' n') = true -> lex_le b n b' n'.
Proof.
  intros Hb Hn Hb' Hn'. unfold constructTxIDKey, lex_le.
  change (txIDIdxKeyPrefix :: ?l) with ([txIDIdxKeyPrefix] ++ l). rewrite !bytes_leb_app.
  unfold bytes_leb. rewrite Encode_compare_app by done.
  destruct (Z.compare_spec b b') as [->| |]; try done; [|by left].
  rewrite <- (app_nil_r (EncodeOrderPreservingVarUint64 n)), <- (app_nil_r (EncodeOrderPreservingVarUint64 n')).
  rewrite Encode_compare_app by done. destruct (Z.compare_spec n n'); try done; right; lia.
Qed.

Lemma txid_scan_key_in (t : bytes) (info : blockIdxInfo) (fl : bytes) (i : nat) (tx : txindexInfo) :
  is_u64 (zlen t) -> occurs t info fl i tx ->
  let '(sk, ek) := constructTxIDRangeScan t in
  let k := constructTxIDKey t (bii_blockNum info) (Z.of_nat i) in
  is_Some (db !! k) /\ bytes_leb sk k = true /\ bytes_ltb k ek = true.
Proof.
  intros Ht (Hin & Hi & <-).
  pose proof (txid_range_exact (txi_txID tx) (txi_txID tx) (bii_blockNum info) (Z.of_nat i) Ht Ht
    (iw_num _ _ (chain_wf _ _ Hin))) as R.
  destruct (constructTxIDRangeScan _) as [sk ek]. destruct (proj1 (andb_true_iff _ _) (proj2 R eq_refl)) as [R1 R2].
  cbv zeta. rewrite (io_tx _ _ Hok _ _ _ _ Hin Hi). by eauto.
Qed.

(** A transaction id leads to its first occurrence on the chain; an id that does
    not occur is not found. *)
Lemma getTxIDVal_first (t : bytes) :
  is_u64 (zlen t) ->
  match getTxIDVal index db t with
  | Ret v => exists info fl i tx, occurs t info fl i tx /\ v = tx_value info fl i tx /\
      forall info' fl' i' tx', occurs t info' fl' i' tx' ->
        lex_le (bii_blockNum info) (Z.of_nat i) (bii_blockNum info') (Z.of_nat i')
  | Err e => e = ErrNotFoundInIndex /\ forall info fl i tx, ~ occurs t info fl i tx
  | Panic _ => False
  end.
Proof.
  intros Ht. unfold getTxIDVal. rewrite Hall. cbn [negb].
  pose proof (txid_scan_keys t) as SK. pose proof (txid_scan_key_in t) as SI.
  destruct (constructTxIDRangeScan t) as [sk ek]. pose proof (range_scan_head db sk (Some ek)) as Hh.
  destruct (range_scan db sk (Some ek)) as [|[k v] l]; cbn [below] in Hh.
  - split; [done|]. intros info fl i tx Hocc. destruct (SI info fl i tx Ht Hocc) as (Hk & H1 & H2).
    rewrite (Hh _ Hk H1) in H2. done.
  - destruct Hh as (Hk & H1 & H2 & Hmin).
    destruct (SK k Ht ltac:(by eexists) H1 H2) as (info & fl & i & tx & Hocc & ->).
    pose proof Hocc as (Hin & Hi & Et). pose proof (io_tx _ _ Hok _ _ _ _ Hin Hi) as Hv.
    rewrite Et, Hk in Hv. injection Hv as ->.
    assert (Hne : Marshal (tx_value info fl i tx) <> []).
    { apply Marshal_TxIDIndexValue_nonempty, flp_marshal_nonempty. }
    destruct (Marshal (tx_value info fl i tx)) as [|c m] eqn:Em; [done|]. rewrite <- Em.
    rewrite (proj2 (Z.eqb_neq _ _)) by (rewrite Em, zlen_cons; pose proof (zlen_nonneg m); lia).
    rewrite proto_Unmarshal_Marshal. exists info, fl, i, tx. split; [done|]. split; [done|].
    intros info' fl' i' tx' Hocc'. destruct (SI info' fl' i' tx' Ht Hocc') as (Hk' & H1' & H2').
    specialize (Hmin _ Hk' H1' H2'). destruct Hocc' as (Hin' & Hi' & _).
    destruct (idx_wf_tx _ _ _ _ (chain_wf _ _ Hin) Hi) as (? & _), (idx_wf_tx _ _ _ _ (chain_wf _ _ Hin') Hi') as (? & _).
    eapply txid_key_order; [..|exact Hmin]; try done; [apply (chain_wf _ _ Hin)|apply (chain_wf _ _ Hin')].
Qed.

Lemma txIDExists_iff (t : bytes) :
  is_u64 (zlen t) ->
  exists b, txIDExists index db t = Ret b /\ (b = true <-> exists info fl i tx, occurs t info fl i tx).
Proof.
  intros Ht. unfold txIDExists. rewrite Hall. cbn [negb].
  pose proof (txid_scan_keys t) as SK. pose proof (txid_scan_key_in t) as SI.
  destruct (constructTxIDRangeScan t) as [sk ek]. pose proof (range_scan_head db sk (Some ek)) as Hh.
  destruct (range_scan db sk (Some ek)) as [|[k v] l]; cbn [below] in Hh; eexists; (split; [done|]).
  - split; [done|]. intros (info & fl & i & tx & Hocc). destruct (SI info fl i tx Ht Hocc) as (Hk & H1 & H2).
    rewrite (Hh _ Hk H1) in H2. done.
  - split; [|done]. intros _. destruct Hh as (Hk & H1 & H2 & _).
    destruct (SK k Ht ltac:(by eexists) H1 H2) as (info & fl & i & tx & Hocc & _). eauto 10.
Qed.

End Lookups.
End Indexing.
