(* ===== verification/Redaction.v ===== *)
(** * Certificates in blocks

    The functions with which the fork inspects and rewrites the transaction of a
    block and keeps its auxiliary text files:
    src/common/ledger/blkstorage/blockfile_mgr.go ([ValidateAnalysis],
    [GetArgsFromBlock], [PutArgsInBlock], [GetRwsetFromBlock], [PutRwsetInBlock],
    [GetBlockNumberFromFile], [GetBlockOffsetFromFile], [getBlock]).

    The rewriting functions update the block they are given in place and return
    the same pointer, so the model has one block value: after [PutArgsInBlock]
    the caller's old block is the returned new one. *)

From S2P Require Import Prelude Varint OrderedCode Sha256 GoBig GoOS Proto Block BlockSerialization.
From S2P Require Import BlockStream Chameleon.

Section WithProtos.
Context {PR : Protos}.

(** ** From a block to the arguments of its first transaction *)

(** The nested messages on the way to the chaincode arguments. *)
Record tx_path := mktx_path {
  tp_env : Envelope;
  tp_payl : Payload;
  tp_tx : Transaction;
  tp_act : TransactionAction;
  tp_cap : ChaincodeActionPayload }.

Definition open_tx (envBytes : bytes) : outcome tx_path :=
  env ← GetEnvelopeFromBlock envBytes;
  payl ← UnmarshalPayload (Envelope_Payload env);
  tx ← UnmarshalTransaction (Payload_Data payl);
  act ← go_index (Transaction_Actions tx) 0;
  cap ← UnmarshalChaincodeActionPayload (TransactionAction_Payload act);
  Ret (mktx_path env payl tx act cap).

(** Marshalling back up, with the action's payload replaced. *)
Definition close_tx (p : tx_path) (cap : ChaincodeActionPayload) : bytes :=
  let act := mkTransactionAction (TransactionAction_Header (tp_act p)) (Marshal cap) in
  let tx := mkTransaction (<[0%nat := act]> (Transaction_Actions (tp_tx p))) in
  let payl := mkPayload (Payload_Header (tp_payl p)) (Marshal tx) in
  let env := mkEnvelope (Marshal payl) (Envelope_Signature (tp_env p)) in
  Marshal env.

(** The chaincode arguments: none when the spec or its input is missing. *)
Definition spec_args (cis : ChaincodeInvocationSpec) : list bytes :=
  match CIS_ChaincodeSpec cis with
  | Some spec =>
      match ChaincodeSpec_Input spec with
      | Some input => ChaincodeInput_Args input
      | None => []
      end
  | None => []
  end.

Definition open_spec (cap : ChaincodeActionPayload) :
    outcome (ChaincodeProposalPayload * ChaincodeInvocationSpec) :=
  proposalPayload ← UnmarshalChaincodeProposalPayload (CAP_ChaincodeProposalPayload cap);
  cis ← UnmarshalChaincodeInvocationSpec (CPP_Input proposalPayload);
  Ret (proposalPayload, cis).

(** A block without transactions has no arguments; an error yields none either,
    and the callers drop the error. *)
Definition ValidateAnalysis (block : Block) : outcome (list bytes) :=
  match Block_Data block with
  | [] => Ret []
  | d :: _ =>
      p ← open_tx d;
      '(_, cis) ← open_spec (tp_cap p);
      Ret (spec_args cis)
  end.

(** [args, _ := f(...)]: nil on an error, a panic goes through. *)
Definition or_nil {A} (o : outcome (list A)) : outcome (list A) :=
  match o with Err _ => Ret [] | _ => o end.

Definition GetArgsFromBlock (block : Block) : outcome (list bytes) :=
  d ← go_index (Block_Data block) 0;
  p ← open_tx d;
  '(_, cis) ← open_spec (tp_cap p);
  Ret (spec_args cis).

Definition set_data0 (block : Block) (d : bytes) : Block :=
  mkBlock (Block_Header block) (<[0%nat := d]> (Block_Data block)) (Block_Metadata block).

Definition set_args (spec : ChaincodeSpec) (input : ChaincodeInput) (args : list bytes) : ChaincodeInvocationSpec :=
  mkChaincodeInvocationSpec (Some (mkChaincodeSpec (ChaincodeSpec_Type spec) (ChaincodeSpec_ChaincodeId spec)
    (Some (mkChaincodeInput args (ChaincodeInput_Decorations input) (ChaincodeInput_IsInit input)))
    (ChaincodeSpec_Timeout spec))).

Definition PutArgsInBlock (args : list bytes) (block : Block) : outcome Block :=
  d ← go_index (Block_Data block) 0;
  p ← open_tx d;
  '(proposalPayload, cis) ← open_spec (tp_cap p);
  spec ← nil_deref (CIS_ChaincodeSpec cis);
  input ← nil_deref (ChaincodeSpec_Input spec);
  let cis := set_args spec input args in
  let proposalPayload := mkChaincodeProposalPayload (Marshal cis) (CPP_TransientMap proposalPayload) in
  let cap := mkChaincodeActionPayload (Marshal proposalPayload) (CAP_Action (tp_cap p)) in
  Ret (set_data0 block (close_tx p cap)).

(** ** The write set *)

Record rw_path := mkrw_path {
  rp_action : ChaincodeEndorsedAction;
  rp_prp : ProposalResponsePayload;
  rp_ca : ChaincodeAction;
  rp_txrws : TxReadWriteSet;
  rp_ns : NsReadWriteSet;
  rp_kv : KVRWSet }.

(** The second namespace of the transaction is the application's (the first is
    _lifecycle): the index 1 is fixed. *)
Definition open_rwset (cap : ChaincodeActionPayload) : outcome rw_path :=
  action ← nil_deref (CAP_Action cap);
  prp ← UnmarshalProposalResponsePayload (CEA_ProposalResponsePayload action);
  ca ← UnmarshalChaincodeAction (PRP_Extension prp);
  txrws ← proto_Unmarshal (A := TxReadWriteSet) (ChaincodeAction_Results ca);
  ns ← go_index (TxRWS_NsRwset txrws) 1;
  kv ← proto_Unmarshal (A := KVRWSet) (NsRWS_Rwset ns);
  Ret (mkrw_path action prp ca txrws ns kv).

Definition GetRwsetFromBlock (block : Block) : outcome bytes :=
  d ← go_index (Block_Data block) 0;
  p ← open_tx d;
  r ← open_rwset (tp_cap p);
  match KVRWSet_Writes (rp_kv r) with
  | w :: _ => Ret (KVWrite_Value w)
  | [] => Ret []
  end.

Definition PutRwsetInBlock (oldvalues : bytes) (block : Block) : outcome Block :=
  d ← go_index (Block_Data block) 0;
  p ← open_tx d;
  r ← open_rwset (tp_cap p);
  w ← go_index (KVRWSet_Writes (rp_kv r)) 0;
  let w := mkKVWrite (KVWrite_Key w) (KVWrite_IsDelete w) oldvalues in
  let kv := rp_kv r in
  let kv := mkKVRWSet (KVRWSet_Reads kv) (KVRWSet_RangeQueriesInfo kv)
              (<[0%nat := w]> (KVRWSet_Writes kv)) (KVRWSet_MetadataWrites kv) in
  let ns := mkNsReadWriteSet (NsRWS_Namespace (rp_ns r)) (Marshal kv)
              (NsRWS_CollectionHashedRwset (rp_ns r)) in
  let txrws := mkTxReadWriteSet (TxRWS_DataModel (rp_txrws r))
                 (<[1%nat := ns]> (TxRWS_NsRwset (rp_txrws r))) in
  let ca := mkChaincodeAction (Marshal txrws) (ChaincodeAction_Events (rp_ca r))
              (ChaincodeAction_Response (rp_ca r)) (ChaincodeAction_ChaincodeId (rp_ca r)) in
  let prp := mkProposalResponsePayload (PRP_ProposalHash (rp_prp r)) (Marshal ca) in
  let action := mkChaincodeEndorsedAction (Marshal prp) (CEA_Endorsements (rp_action r)) in
  let cap := mkChaincodeActionPayload (CAP_ChaincodeProposalPayload (tp_cap p)) (Some action) in
  Ret (set_data0 block (close_tx p cap)).

(** ** The text files *)

Definition certinfo_path : bytes := str "/var/hyperledger/production/certinfo_000000".
Definition blockinfo_path : bytes := str "/var/blockinfo_000000".
Definition plusplus : bytes := str "++".

(** The field after the key, on the first line that starts with the key. *)
Fixpoint find_line (lines : list bytes) (key : bytes) : option (outcome bytes) :=
  match lines with
  | [] => None
  | line :: lines' =>
      let certinfo := Split line plusplus in
      if bool_decide (head certinfo = Some key) then Some (go_index certinfo 1)
      else find_line lines' key
  end.

(** The end of the file is tested before the line. *)
Definition GetBlockNumberFromFile (certkey : bytes) (fs : Fs) : outcome bytes :=
  match files fs !! certinfo_path with
  | None => Err ErrNotExist
  | Some content =>
      match find_line (read_lines content) certkey with
      | Some r => r
      | None => Err ErrEOF
      end
  end.

(** The end of the file is tested after the line, which is then empty. *)
Definition GetBlockOffsetFromFile (blocknum : bytes) (fs : Fs) : outcome bytes :=
  match files fs !! blockinfo_path with
  | None => Err ErrNotExist
  | Some content =>
      match find_line (read_lines content ++ [[]]) blocknum with
      | Some r => r
      | None => Ret []
      end
  end.

(** [s, _ := f(...)]: the empty string on an error. *)
Definition or_empty (o : outcome bytes) : outcome bytes :=
  match o with Err _ => Ret [] | _ => o end.

Definition peer_chain_dir : bytes := str "/var/hyperledger/production/ledgersData/chains/chains/mychannel".

(** The block at an offset of file 0; the bytes read (nil when there is none) go
    to a log file too. *)
Definition getBlock (offset : bytes) : M Fs Block := fun fs =>
  let '(offsetint, _) := Atoi offset in
  let BlockBytes :=
    match ScanForLastCompleteBlock fs peer_chain_dir 0 offsetint with
    | Ret (b, _, _) => Ret (default [] b)
    | Err _ => Ret []
    | Panic msg => Panic msg
    end in
  match BlockBytes with
  | Ret b =>
      let fs := append_file (str "/var/error4.txt") b fs in
      (OrPanic (DeserializeBlock b), fs)
  | Err e => (Err e, fs)
  | Panic msg => (Panic msg, fs)
  end.

End WithProtos.

(** ** Rewriting and reading back *)

Section Rewriting.
Context {PR : Protos} {PK : ProtosOk}.

Lemma open_tx_close (d : bytes) (p : tx_path) (cap : ChaincodeActionPayload) :
  open_tx d = Ret p ->
  exists p', open_tx (close_tx p cap) = Ret p' /\ tp_cap p' = cap /\
    Envelope_Signature (tp_env p') = Envelope_Signature (tp_env p) /\
    Payload_Header (tp_payl p') = Payload_Header (tp_payl p) /\
    drop 1 (Transaction_Actions (tp_tx p')) = drop 1 (Transaction_Actions (tp_tx p)) /\
    TransactionAction_Header (tp_act p') = TransactionAction_Header (tp_act p).
Proof.
  unfold open_tx, GetEnvelopeFromBlock, UnmarshalPayload, UnmarshalTransaction, UnmarshalChaincodeActionPayload.
  intros H. inv_bind. unfold close_tx. cbn [tp_env tp_payl tp_tx tp_act tp_cap].
  unfold go_index in *. destruct a1 as [[|act acts]]; [done|]. cbn [Transaction_Actions lookup list_lookup] in *.
  simplify_eq. rewrite proto_Unmarshal_Marshal. cbn [mbind outcome_bind Envelope_Payload].
  rewrite proto_Unmarshal_Marshal. cbn [mbind outcome_bind Payload_Data].
  rewrite proto_Unmarshal_Marshal. cbn [mbind outcome_bind Transaction_Actions insert list_insert lookup list_lookup].
  cbn [TransactionAction_Payload]. rewrite proto_Unmarshal_Marshal. cbn [mbind outcome_bind].
  eexists. split; [done|]. done.
Qed.

Lemma go_index_0 {A} (l : list A) (x : A) : go_index l 0 = Ret x -> exists l', l = x :: l'.
Proof. unfold go_index. destruct l; simpl; [done|]. intros [= ->]. eauto. Qed.

(** [b'] is [b] with another first transaction: header, metadata and the other
    transactions are the same. *)
Definition same_but_first (b b' : Block) : Prop :=
  Block_Header b' = Block_Header b /\ Block_Metadata b' = Block_Metadata b /\
  drop 1 (Block_Data b') = drop 1 (Block_Data b) /\ length (Block_Data b') = length (Block_Data b).

Lemma set_data0_same (b : Block) (d : bytes) : same_but_first b (set_data0 b d).
Proof.
  unfold same_but_first, set_data0. cbn [Block_Header Block_Metadata Block_Data].
  split_and!; [done|done| |apply length_insert]. by destruct (Block_Data b).
Qed.

(** The chaincode invocation without its arguments, the write set without the value
    of its first write. *)
Definition blank_args (cis : ChaincodeInvocationSpec) : ChaincodeInvocationSpec :=
  match CIS_ChaincodeSpec cis with
  | Some spec => match ChaincodeSpec_Input spec with Some input => set_args spec input [] | None => cis end
  | None => cis
  end.

Definition blank_value (kv : KVRWSet) : KVRWSet :=
  match KVRWSet_Writes kv with
  | w :: ws => mkKVRWSet (KVRWSet_Reads kv) (KVRWSet_RangeQueriesInfo kv)
      (mkKVWrite (KVWrite_Key w) (KVWrite_IsDelete w) [] :: ws) (KVRWSet_MetadataWrites kv)
  | [] => kv
  end.

(** Everything in a certificate transaction but the chaincode arguments and the
    written value: signature, headers, the other actions, the transient data, the
    endorsements, the response and the rest of the read-write set. *)
Record tx_rest := mktx_rest {
  tr_signature : bytes;
  tr_header : option Header;
  tr_actions : list TransactionAction;
  tr_act_header : bytes;
  tr_transient : list (bytes * bytes);
  tr_spec : ChaincodeInvocationSpec;
  tr_endorsements : list Endorsement;
  tr_action : ProposalResponsePayload;
  tr_ca : ChaincodeAction;
  tr_txrws : TxReadWriteSet;
  tr_ns : NsReadWriteSet;
  tr_kv : KVRWSet }.

Definition tx_rest_of (d : bytes) : outcome tx_rest :=
  p ← open_tx d;
  '(pp, cis) ← open_spec (tp_cap p);
  r ← open_rwset (tp_cap p);
  Ret (mktx_rest (Envelope_Signature (tp_env p)) (Payload_Header (tp_payl p)) (drop 1 (Transaction_Actions (tp_tx p)))
    (TransactionAction_Header (tp_act p)) (CPP_TransientMap pp) (blank_args cis) (CEA_Endorsements (rp_action r))
    (mkProposalResponsePayload (PRP_ProposalHash (rp_prp r)) [])
    (mkChaincodeAction [] (ChaincodeAction_Events (rp_ca r)) (ChaincodeAction_Response (rp_ca r)) (ChaincodeAction_ChaincodeId (rp_ca r)))
    (mkTxReadWriteSet (TxRWS_DataModel (rp_txrws r)) (take 1 (TxRWS_NsRwset (rp_txrws r)) ++ drop 2 (TxRWS_NsRwset (rp_txrws r))))
    (mkNsReadWriteSet (NsRWS_Namespace (rp_ns r)) [] (NsRWS_CollectionHashedRwset (rp_ns r)))
    (blank_value (rp_kv r))).

(** That of the first transaction of a block. *)
Definition first_rest (b : Block) : outcome tx_rest := d ← go_index (Block_Data b) 0; tx_rest_of d.

Lemma open_rwset_action (cap cap' : ChaincodeActionPayload) : CAP_Action cap' = CAP_Action cap -> open_rwset cap' = open_rwset cap.
Proof. intros E. unfold open_rwset. by rewrite E. Qed.

Lemma open_spec_payload (cap cap' : ChaincodeActionPayload) :
  CAP_ChaincodeProposalPayload cap' = CAP_ChaincodeProposalPayload cap -> open_spec cap' = open_spec cap.
Proof. intros E. unfold open_spec. by rewrite E. Qed.

(** The read-write set of a rewritten action. *)
Lemma open_rwset_rewritten (cpp : bytes) (r : rw_path) (kv : KVRWSet) (ns0 : NsReadWriteSet) :
  TxRWS_NsRwset (rp_txrws r) !! 1%nat = Some ns0 ->
  let ns := mkNsReadWriteSet (NsRWS_Namespace (rp_ns r)) (Marshal kv) (NsRWS_CollectionHashedRwset (rp_ns r)) in
  let txrws := mkTxReadWriteSet (TxRWS_DataModel (rp_txrws r)) (<[1%nat := ns]> (TxRWS_NsRwset (rp_txrws r))) in
  let ca := mkChaincodeAction (Marshal txrws) (ChaincodeAction_Events (rp_ca r)) (ChaincodeAction_Response (rp_ca r))
    (ChaincodeAction_ChaincodeId (rp_ca r)) in
  let prp := mkProposalResponsePayload (PRP_ProposalHash (rp_prp r)) (Marshal ca) in
  let action := mkChaincodeEndorsedAction (Marshal prp) (CEA_Endorsements (rp_action r)) in
  open_rwset (mkChaincodeActionPayload cpp (Some action)) = Ret (mkrw_path action prp ca txrws ns kv).
Proof.
  intros Hl ns txrws ca prp action. unfold open_rwset, UnmarshalProposalResponsePayload, UnmarshalChaincodeAction.
  cbn [CAP_Action nil_deref mbind outcome_bind action CEA_ProposalResponsePayload].
  rewrite proto_Unmarshal_Marshal. cbn [mbind outcome_bind prp PRP_Extension].
  rewrite proto_Unmarshal_Marshal. cbn [mbind outcome_bind ca ChaincodeAction_Results].
  rewrite proto_Unmarshal_Marshal. cbn [mbind outcome_bind txrws TxRWS_NsRwset].
  unfold go_index. rewrite list_lookup_insert_eq by (by apply lookup_lt_Some in Hl).
  cbn [mbind outcome_bind ns NsRWS_Rwset]. by rewrite proto_Unmarshal_Marshal.
Qed.

Lemma open_rwset_ns (cap : ChaincodeActionPayload) (r : rw_path) :
  open_rwset cap = Ret r -> TxRWS_NsRwset (rp_txrws r) !! 1%nat = Some (rp_ns r).
Proof.
  unfold open_rwset. intros Hr. repeat (apply outcome_bind_ret_inv in Hr as (? & ? & Hr)). injection Hr as <-.
  cbn [rp_txrws rp_ns]. unfold go_index in *. by case_match; simplify_eq/=.
Qed.

Lemma PutArgsInBlock_ok (args : list bytes) (b b' : Block) :
  PutArgsInBlock args b = Ret b' ->
  GetArgsFromBlock b' = Ret args /\ GetRwsetFromBlock b' = GetRwsetFromBlock b /\ same_but_first b b' /\
  first_rest b' = first_rest b.
Proof.
  unfold PutArgsInBlock. intros H.
  apply outcome_bind_ret_inv in H as (d & Hd & H). apply outcome_bind_ret_inv in H as (p & Hp & H).
  apply outcome_bind_ret_inv in H as ([pp cis] & Hs & H). apply outcome_bind_ret_inv in H as (spec & Hspec & H).
  apply outcome_bind_ret_inv in H as (input & Hinput & H). injection H as <-.
  apply go_index_0 in Hd as (ds & Hd).
  match goal with |- context [close_tx p ?c] => set (cap := c) end.
  destruct (open_tx_close d p cap Hp) as (p' & Hp' & Hcap & Es & Eh & Ea & Eth).
  assert (Hd' : Block_Data (set_data0 b (close_tx p cap)) = close_tx p cap :: ds)
    by (unfold set_data0; cbn [Block_Data]; by rewrite Hd).
  assert (Hos : open_spec cap = Ret (mkChaincodeProposalPayload (Marshal (set_args spec input args)) (CPP_TransientMap pp), set_args spec input args)).
  { unfold open_spec, cap, UnmarshalChaincodeProposalPayload, UnmarshalChaincodeInvocationSpec. cbn [CAP_ChaincodeProposalPayload].
    rewrite proto_Unmarshal_Marshal. cbn [mbind outcome_bind CPP_Input]. by rewrite proto_Unmarshal_Marshal. }
  assert (Hor : open_rwset cap = open_rwset (tp_cap p)) by (by apply open_rwset_action).
  split_and!; [| |apply set_data0_same|].
  - unfold GetArgsFromBlock. rewrite Hd'. unfold go_index. cbn [lookup list_lookup mbind outcome_bind].
    rewrite Hp'. cbn [mbind outcome_bind]. by rewrite Hcap, Hos.
  - unfold GetRwsetFromBlock. rewrite Hd', Hd. unfold go_index at 1 2. cbn [lookup list_lookup mbind outcome_bind].
    rewrite Hp', Hp. cbn [mbind outcome_bind]. by rewrite Hcap, Hor.
  - unfold first_rest, tx_rest_of. rewrite Hd', Hd. unfold go_index at 1 2. cbn [lookup list_lookup mbind outcome_bind].
    rewrite Hp', Hp. cbn [mbind outcome_bind]. rewrite Hcap, Hos, Hs, Hor, Es, Eh, Ea, Eth. cbn [mbind outcome_bind].
    destruct (open_rwset (tp_cap p)); [|done..]. cbn [mbind outcome_bind]. do 2 f_equal. unfold blank_args.
    destruct (CIS_ChaincodeSpec cis) as [sp|] eqn:E1; [|done]. injection Hspec as ->.
    destruct (ChaincodeSpec_Input spec) as [inp|] eqn:E2; [|done]. injection Hinput as ->. done.
Qed.

Lemma PutRwsetInBlock_ok (value : bytes) (b b' : Block) :
  PutRwsetInBlock value b = Ret b' ->
  GetRwsetFromBlock b' = Ret value /\ GetArgsFromBlock b' = GetArgsFromBlock b /\ same_but_first b b' /\
  first_rest b' = first_rest b.
Proof.
  unfold PutRwsetInBlock. intros H.
  apply outcome_bind_ret_inv in H as (d & Hd & H). apply outcome_bind_ret_inv in H as (p & Hp & H).
  apply outcome_bind_ret_inv in H as (r & Hr & H). apply outcome_bind_ret_inv in H as (w & Hw & H).
  injection H as <-. apply go_index_0 in Hd as (ds & Hd). apply go_index_0 in Hw as (ws & Hw).
  pose proof (open_rwset_ns _ _ Hr) as Hns.
  match goal with |- context [close_tx p ?c] => set (cap := c) end.
  destruct (open_tx_close d p cap Hp) as (p' & Hp' & Hcap & Es & Eh & Ea & Eth).
  assert (Hd' : Block_Data (set_data0 b (close_tx p cap)) = close_tx p cap :: ds)
    by (unfold set_data0; cbn [Block_Data]; by rewrite Hd).
  pose proof (open_rwset_rewritten (CAP_ChaincodeProposalPayload (tp_cap p)) r
    (mkKVRWSet (KVRWSet_Reads (rp_kv r)) (KVRWSet_RangeQueriesInfo (rp_kv r))
      (<[0%nat := mkKVWrite (KVWrite_Key w) (KVWrite_IsDelete w) value]> (KVRWSet_Writes (rp_kv r))) (KVRWSet_MetadataWrites (rp_kv r)))
    (rp_ns r) Hns) as Hor. cbn zeta in Hor. fold cap in Hor.
  assert (Hos : open_spec cap = open_spec (tp_cap p)) by (by apply open_spec_payload).
  split_and!; [| |apply set_data0_same|].
  - unfold GetRwsetFromBlock. rewrite Hd'. unfold go_index at 1. cbn [lookup list_lookup mbind outcome_bind].
    rewrite Hp'. cbn [mbind outcome_bind]. rewrite Hcap, Hor. cbn [mbind outcome_bind rp_kv KVRWSet_Writes]. by rewrite Hw.
  - unfold GetArgsFromBlock. rewrite Hd', Hd. unfold go_index at 1 2. cbn [lookup list_lookup mbind outcome_bind].
    rewrite Hp', Hp. cbn [mbind outcome_bind]. by rewrite Hcap, Hos.
  - unfold first_rest, tx_rest_of. rewrite Hd', Hd. unfold go_index at 1 2. cbn [lookup list_lookup mbind outcome_bind].
    rewrite Hp', Hp. cbn [mbind outcome_bind]. rewrite Hcap, Hos, Hor, Hr, Es, Eh, Ea, Eth.
    destruct (open_spec (tp_cap p)) as [[pp cis]|e|msg]; [|done..]. cbn [mbind outcome_bind rp_action rp_prp rp_ca rp_txrws rp_ns rp_kv
      CEA_Endorsements PRP_ProposalHash ChaincodeAction_Events ChaincodeAction_Response ChaincodeAction_ChaincodeId
      TxRWS_DataModel TxRWS_NsRwset NsRWS_Namespace NsRWS_CollectionHashedRwset].
    rewrite take_insert_ge, drop_insert_lt by lia. do 2 f_equal. unfold blank_value. cbn [KVRWSet_Writes]. by rewrite Hw.
Qed.

(** A transaction with chaincode arguments and a write in the application's name
    space: what the edits expect of the block's first transaction. *)
Definition has_args (cap : ChaincodeActionPayload) : Prop :=
  exists pp cis spec input, open_spec cap = Ret (pp, cis) /\ CIS_ChaincodeSpec cis = Some spec /\
    ChaincodeSpec_Input spec = Some input.

Definition has_write (cap : ChaincodeActionPayload) : Prop :=
  exists r w ws, open_rwset cap = Ret r /\ KVRWSet_Writes (rp_kv r) = w :: ws.

Definition cert_tx_ok (d : bytes) : Prop :=
  exists p, open_tx d = Ret p /\ has_args (tp_cap p) /\ has_write (tp_cap p).

Lemma PutArgsInBlock_defined (args : list bytes) (b : Block) (d : bytes) (ds : list bytes) :
  Block_Data b = d :: ds -> cert_tx_ok d ->
  exists b' d', PutArgsInBlock args b = Ret b' /\ Block_Data b' = d' :: ds /\
    exists p', open_tx d' = Ret p' /\ has_write (tp_cap p').
Proof.
  intros Hd (p & Hp & (pp & cis & spec & input & Hs & Hspec & Hinput) & r & w & ws & Hr & Hw).
  unfold PutArgsInBlock. rewrite Hd. unfold go_index. cbn [lookup list_lookup mbind outcome_bind]. rewrite Hp.
  cbn [mbind outcome_bind]. rewrite Hs. cbn [mbind outcome_bind]. rewrite Hspec. cbn [nil_deref mbind outcome_bind].
  rewrite Hinput. cbn [nil_deref mbind outcome_bind].
  match goal with |- context [close_tx p ?c] => set (cap := c) end.
  exists (set_data0 b (close_tx p cap)), (close_tx p cap). split; [done|].
  split; [unfold set_data0; cbn [Block_Data]; by rewrite Hd|].
  destruct (open_tx_close d p cap Hp) as (p' & Hp' & Hcap & _). exists p'. split; [done|].
  rewrite Hcap. by exists r, w, ws.
Qed.

Lemma PutRwsetInBlock_defined (value : bytes) (b : Block) (d : bytes) (ds : list bytes) (p : tx_path) :
  Block_Data b = d :: ds -> open_tx d = Ret p -> has_write (tp_cap p) ->
  exists b', PutRwsetInBlock value b = Ret b'.
Proof.
  intros Hd Hp (r & w & ws & Hr & Hw). unfold PutRwsetInBlock. rewrite Hd. unfold go_index.
  cbn [lookup list_lookup mbind outcome_bind]. rewrite Hp. cbn [mbind outcome_bind]. rewrite Hr.
  cbn [mbind outcome_bind]. rewrite Hw. unfold go_index. cbn [lookup list_lookup mbind outcome_bind]. by eexists.
Qed.

Lemma cert_tx_rest (b : Block) (d : bytes) (ds : list bytes) :
  Block_Data b = d :: ds -> cert_tx_ok d -> exists rest, first_rest b = Ret rest.
Proof.
  intros Hd (p & Hp & (pp & cis & spec & input & Hs & _) & r & w & ws & Hr & _). unfold first_rest, tx_rest_of.
  rewrite Hd. unfold go_index. cbn [lookup list_lookup mbind outcome_bind]. rewrite Hp. cbn [mbind outcome_bind].
  rewrite Hs. cbn [mbind outcome_bind]. rewrite Hr. by eexists.
Qed.

(** C33: The two edits, in the order of the callers, succeed on a certificate
    transaction: the block then has the new arguments and the new written value,
    and everything else is as it was: header, metadata and the other transactions,
    and in the first one the signature, the headers, the other actions, the
    endorsements, the response and the rest of the read-write set ([tx_rest]). *)
Theorem edited_block_reads_back (args : list bytes) (value : bytes) (b : Block) (d : bytes) (ds : list bytes) :
  Block_Data b = d :: ds -> cert_tx_ok d ->
  exists b1 b2 rest, PutArgsInBlock args b = Ret b1 /\ PutRwsetInBlock value b1 = Ret b2 /\
    GetArgsFromBlock b2 = Ret args /\ GetRwsetFromBlock b2 = Ret value /\ same_but_first b b2 /\
    first_rest b = Ret rest /\ first_rest b2 = Ret rest.
Proof.
  intros Hd Hok. destruct (PutArgsInBlock_defined args b d ds Hd Hok) as (b1 & d1 & H1 & Hd1 & p1 & Hp1 & Hw1).
  destruct (PutRwsetInBlock_defined value b1 d1 ds p1 Hd1 Hp1 Hw1) as (b2 & H2).
  destruct (cert_tx_rest b d ds Hd Hok) as (rest & Er). exists b1, b2, rest.
  destruct (PutArgsInBlock_ok _ _ _ H1) as (Ha & _ & Hs1 & Er1), (PutRwsetInBlock_ok _ _ _ H2) as (Hv & Ha2 & Hs2 & Er2).
  split_and!; [done|done|by rewrite Ha2|done| |done|congruence]. unfold same_but_first in *.
  destruct Hs1 as (? & ? & ? & ?), Hs2 as (? & ? & ? & ?). repeat split; congruence.
Qed.

(** An endorsed certificate transaction. *)
Definition cert_cap (args : list bytes) (value : bytes) : ChaincodeActionPayload :=
  let cis := mkChaincodeInvocationSpec (Some (mkChaincodeSpec 1 None (Some (mkChaincodeInput args [] false)) 0)) in
  let cpp := mkChaincodeProposalPayload (Marshal cis) [] in
  let kv := mkKVRWSet [] [] [mkKVWrite (str "cert") false value] [] in
  let txrws := mkTxReadWriteSet 0 [mkNsReadWriteSet (str "_lifecycle") [] []; mkNsReadWriteSet (str "cc") (Marshal kv) []] in
  let ca := mkChaincodeAction (Marshal txrws) [] None None in
  let prp := mkProposalResponsePayload [] (Marshal ca) in
  mkChaincodeActionPayload (Marshal cpp) (Some (mkChaincodeEndorsedAction (Marshal prp) [])).

Definition cert_tx (args : list bytes) (value : bytes) : bytes :=
  let tx := mkTransaction [mkTransactionAction [] (Marshal (cert_cap args value))] in
  Marshal (mkEnvelope (Marshal (mkPayload None (Marshal tx))) []).

Lemma cert_tx_is_ok (args : list bytes) (value : bytes) : cert_tx_ok (cert_tx args value).
Proof.
  unfold cert_tx_ok, open_tx, cert_tx, GetEnvelopeFromBlock, UnmarshalPayload, UnmarshalTransaction,
    UnmarshalChaincodeActionPayload.
  repeat (rewrite proto_Unmarshal_Marshal; cbn [mbind outcome_bind Envelope_Payload Payload_Data Transaction_Actions
    go_index lookup list_lookup TransactionAction_Payload]).
  eexists. split; [done|]. cbn [tp_cap]. unfold cert_cap. split.
  - eexists _, _, _, _. unfold open_spec, UnmarshalChaincodeProposalPayload, UnmarshalChaincodeInvocationSpec.
    cbn [CAP_ChaincodeProposalPayload]. rewrite proto_Unmarshal_Marshal. cbn [mbind outcome_bind CPP_Input].
    rewrite proto_Unmarshal_Marshal. done.
  - eexists _, _, _. unfold open_rwset, UnmarshalProposalResponsePayload, UnmarshalChaincodeAction.
    cbn [CAP_Action nil_deref mbind outcome_bind CEA_ProposalResponsePayload].
    repeat (rewrite proto_Unmarshal_Marshal; cbn [mbind outcome_bind PRP_Extension ChaincodeAction_Results TxRWS_NsRwset
      go_index lookup list_lookup NsRWS_Rwset]). done.
Qed.

End Rewriting.

(** ** Records of the text files *)

(** [key ++ "++" ++ value ++ "\r\n"] *)
Definition record_line (kv : bytes * bytes) : bytes := fst kv ++ plusplus ++ snd kv.

Definition records (l : list (bytes * bytes)) : bytes := l ≫= fun kv => record_line kv ++ crlf.

(** Keys and values without separators or line breaks, on lines the reader takes whole. *)
Definition record_ok (kv : bytes * bytes) : Prop :=
  Byte.x2b ∉ fst kv /\ Byte.x2b ∉ snd kv /\ Byte.x0a ∉ fst kv /\ Byte.x0a ∉ snd kv /\
  (length (record_line kv) + 1 < bufio_size)%nat.

Lemma cut_none (a : bytes) : Byte.x2b ∉ a -> cut plusplus a = None.
Proof.
  induction a as [|b a IH]; intros Hn; [done|]. rewrite not_elem_of_cons in Hn. destruct Hn as [Hb Hn].
  change plusplus with [Byte.x2b; Byte.x2b] in *. cbn [cut strip_prefix].
  rewrite bool_decide_eq_false_2 by congruence. by rewrite IH.
Qed.

Lemma cut_first (a b : bytes) : Byte.x2b ∉ a -> cut plusplus (a ++ plusplus ++ b) = Some (a, b).
Proof.
  change plusplus with [Byte.x2b; Byte.x2b]. induction a as [|c a IH]; intros Hn; [done|].
  rewrite not_elem_of_cons in Hn. destruct Hn as [Hc Hn]. cbn [app cut strip_prefix] in *.
  rewrite bool_decide_eq_false_2 by congruence. by rewrite IH.
Qed.

Lemma Split_record (kv : bytes * bytes) : record_ok kv -> Split (record_line kv) plusplus = [fst kv; snd kv].
Proof.
  intros (Hk & Hv & _). unfold Split, record_line.
  destruct (length (fst kv ++ plusplus ++ snd kv)) as [|[|n]] eqn:E;
    [rewrite !length_app in E; simpl in E; lia..|].
  cbn [Split_loop]. rewrite cut_first, cut_none by done. done.
Qed.

Lemma record_line_no_newline (kv : bytes * bytes) : record_ok kv -> Byte.x0a ∉ record_line kv.
Proof.
  intros (_ & _ & Hk & Hv & _). unfold record_line. rewrite !not_elem_of_app. split_and!; [done| |done].
  change plusplus with [Byte.x2b; Byte.x2b]. set_solver.
Qed.

Lemma ReadLines_records (l : list (bytes * bytes)) (fuel : nat) :
  Forall record_ok l -> (length l < fuel)%nat -> ReadLines fuel (records l) = record_line <$> l.
Proof.
  revert fuel. induction l as [|kv l IH]; intros [|fuel] Hl Hf; simpl in Hf; try lia; [done|].
  inversion Hl as [|? ? Hk Hl']; subst. cbn [ReadLines fmap list_fmap].
  change (records (kv :: l)) with ((record_line kv ++ crlf) ++ records l). rewrite <- app_assoc.
  change (crlf ++ records l) with (Byte.x0d :: Byte.x0a :: records l).
  rewrite ReadLine_crlf; [|by apply record_line_no_newline|apply Hk].
  f_equal. apply IH; [done|lia].
Qed.

Lemma records_length (l : list (bytes * bytes)) : (length l <= length (records l))%nat.
Proof.
  induction l as [|kv l IH]; [done|].
  change (records (kv :: l)) with ((record_line kv ++ crlf) ++ records l). rewrite !length_app. simpl. lia.
Qed.

Lemma read_lines_records (l : list (bytes * bytes)) :
  Forall record_ok l -> read_lines (records l) = record_line <$> l.
Proof. intros Hl. apply ReadLines_records; [done|]. pose proof (records_length l). lia. Qed.

(** The first record with the key. *)
Lemma find_line_records (l : list (bytes * bytes)) (rest : list bytes) (key : bytes) :
  Forall record_ok l ->
  find_line ((record_line <$> l) ++ rest) key =
    match list_find (fun kv => fst kv = key) l with
    | Some (_, kv) => Some (Ret (snd kv))
    | None => find_line rest key
    end.
Proof.
  induction l as [|kv l IH]; intros Hl; [done|]. inversion Hl as [|? ? Hk Hl']; subst.
  cbn [fmap list_fmap app find_line list_find]. rewrite Split_record by done. cbn [head].
  destruct (decide (fst kv = key)) as [<-|Hne].
  - by rewrite bool_decide_eq_true_2.
  - rewrite bool_decide_eq_false_2 by congruence.
    change (list_fmap _ _ record_line l) with (record_line <$> l). rewrite IH by done.
    destruct (list_find _ l) as [[i kv']|]; done.
Qed.

Lemma GetBlockOffsetFromFile_records (l : list (bytes * bytes)) (key : bytes) (fs : Fs) :
  files fs !! blockinfo_path = Some (records l) -> Forall record_ok l -> key <> [] ->
  GetBlockOffsetFromFile key fs =
    Ret (match list_find (fun kv => fst kv = key) l with Some (_, kv) => snd kv | None => [] end).
Proof.
  intros Hf Hl Hk. unfold GetBlockOffsetFromFile. rewrite Hf, read_lines_records, find_line_records by done.
  destruct (list_find _ l) as [[i kv]|]; [done|]. cbn [find_line].
  change (head (Split [] plusplus)) with (Some (@nil byte)). by rewrite bool_decide_eq_false_2 by congruence.
Qed.

(** The certificate file gives the block number of the first record with the key;
    a key without a record ends in io.EOF. *)
Theorem GetBlockNumberFromFile_records (l : list (bytes * bytes)) (key : bytes) (fs : Fs) :
  files fs !! certinfo_path = Some (records l) -> Forall record_ok l ->
  GetBlockNumberFromFile key fs =
    match list_find (fun kv => fst kv = key) l with Some (_, kv) => Ret (snd kv) | None => Err ErrEOF end.
Proof.
  intros Hf Hl. unfold GetBlockNumberFromFile. rewrite Hf, read_lines_records by done.
  rewrite <- (app_nil_r (record_line <$> l)), find_line_records by done.
  by destruct (list_find _ l) as [[i kv]|].
Qed.

(** Looking up the empty block number, which is what an unknown certificate
    gives, runs past the end of the file and indexes out of range. *)
Theorem GetBlockOffsetFromFile_empty (l : list (bytes * bytes)) (fs : Fs) :
  files fs !! blockinfo_path = Some (records l) -> Forall record_ok l ->
  Forall (fun kv => fst kv <> []) l -> is_panic (GetBlockOffsetFromFile [] fs) = true.
Proof.
  intros Hf Hl Hne. unfold GetBlockOffsetFromFile. rewrite Hf, read_lines_records, find_line_records by done.
  destruct (list_find (fun kv => fst kv = []) l) as [[i kv]|] eqn:E; [|done].
  apply list_find_Some in E as (Hi & Hkv & _).
  by pose proof (proj1 (Forall_lookup _ _) Hne _ _ Hi).
Qed.
