(* ===== verification/BlockfileMgr.v ===== *)
(** * The block file manager

    src/common/ledger/blkstorage/blockfile_mgr.go: opening a ledger's block store
    (with recovery of an append cut short by a crash), adding a block, and
    serving blocks and transactions.  [addBlock] is written in the stages of the
    source: the certificate edit of the fork ([change_cert]), the append with its
    error recovery ([append_block]), the text files of the fork
    ([record_blockinfo], [record_cert]) and the index. *)

From S2P Require Import Prelude Varint OrderedCode Sha256 GoBig GoOS LevelDB Storage Chameleon.
From S2P Require Import Proto Block BlockSerialization BlockStream BlockIndex Redaction.

(** ** State *)

Record BlockchainInfo := mkBlockchainInfo {
  Height : Z;
  CurrentBlockHash : bytes;
  PreviousBlockHash : bytes;
  LastBlockInSnapshot : option Z }.

Record blockfileMgr := mkblockfileMgr {
  m_rootDir : bytes;
  m_maxBlockfileSize : Z;
  m_index : blockIndex;
  m_info : blockfilesInfo;
  m_bsi : option BootstrappingSnapshotInfo;
  m_writer : blockfileWriter;
  m_bcInfo : BlockchainInfo;
  m_world : World }.

Definition set_world (w : World) (m : blockfileMgr) : blockfileMgr :=
  mkblockfileMgr (m_rootDir m) (m_maxBlockfileSize m) (m_index m) (m_info m) (m_bsi m) (m_writer m) (m_bcInfo m) w.

Definition set_info (i : blockfilesInfo) (m : blockfileMgr) : blockfileMgr :=
  mkblockfileMgr (m_rootDir m) (m_maxBlockfileSize m) (m_index m) i (m_bsi m) (m_writer m) (m_bcInfo m) (m_world m).

Definition set_writer (wr : blockfileWriter) (m : blockfileMgr) : blockfileMgr :=
  mkblockfileMgr (m_rootDir m) (m_maxBlockfileSize m) (m_index m) (m_info m) (m_bsi m) wr (m_bcInfo m) (m_world m).

Definition set_bcInfo (b : BlockchainInfo) (m : blockfileMgr) : blockfileMgr :=
  mkblockfileMgr (m_rootDir m) (m_maxBlockfileSize m) (m_index m) (m_info m) (m_bsi m) (m_writer m) b (m_world m).

(** Storage operations in the manager's state. *)
Definition in_world {A} (op : M World A) : M blockfileMgr A := fun m =>
  let '(r, w) := op (m_world m) in (r, set_world w m).

(** A call whose error the code turns into a panic. *)
Definition or_panic {S A} (op : M S A) : M S A := fun s =>
  match op s with
  | (Err _, s') => (Panic "err", s')
  | r => r
  end.

(** ** The summary in the database *)

Definition blkMgrInfoKey : bytes := str "blkMgrInfo".

Definition blockfilesInfo_marshal (i : blockfilesInfo) : bytes :=
  let buffer := NewBuffer [] in
  let buffer := Buffer_EncodeVarint (u64 (latestFileNumber i)) buffer in
  let buffer := Buffer_EncodeVarint (u64 (latestFileSize i)) buffer in
  let buffer := Buffer_EncodeVarint (lastPersistedBlock i) buffer in
  let noBlockFilesMarker := if noBlockFiles i then 1 else 0 in
  let buffer := Buffer_EncodeVarint noBlockFilesMarker buffer in
  buf buffer.

Definition blockfilesInfo_unmarshal (b : bytes) : outcome blockfilesInfo :=
  let buffer := NewBuffer b in
  '(val, buffer) ← Buffer_DecodeVarint buffer;
  let latestFileNumber := i64 val in
  '(val, buffer) ← Buffer_DecodeVarint buffer;
  let latestFileSize := i64 val in
  '(lastPersistedBlock, buffer) ← Buffer_DecodeVarint buffer;
  '(noBlockFilesMarker, buffer) ← Buffer_DecodeVarint buffer;
  Ret (mkblockfilesInfo latestFileNumber latestFileSize (noBlockFilesMarker =? 1) lastPersistedBlock).

Definition loadBlkfilesInfo (db : kvmap) : outcome (option blockfilesInfo) :=
  match db !! blkMgrInfoKey with
  | None => Ret None
  | Some b => i ← blockfilesInfo_unmarshal b; Ret (Some i)
  end.

Definition saveBlkfilesInfo (i : blockfilesInfo) : M World unit :=
  db_Put blkMgrInfoKey (blockfilesInfo_marshal i).

(** [noBlockFiles] is not copied. *)
Definition moveToNextFile : M blockfileMgr unit :=
  m ← get_state;
  let info := mkblockfilesInfo (latestFileNumber (m_info m) + 1) 0 false (lastPersistedBlock (m_info m)) in
  nextFileWriter ← or_panic (in_world (newBlockfileWriter (deriveBlockfilePath (m_rootDir m) (latestFileNumber info))));
  _ ← or_panic (in_world (saveBlkfilesInfo info));
  _ ← modify_state (set_writer nextFileWriter);
  modify_state (set_info info).

Definition firstPossibleBlockNumberInBlockFiles (m : blockfileMgr) : Z :=
  match m_bsi m with
  | None => 0
  | Some bsi => u64 (BSI_LastBlockNum bsi + 1)
  end.

Definition bootstrappedFromSnapshot (m : blockfileMgr) : bool :=
  0 <? firstPossibleBlockNumberInBlockFiles m.

Definition updateBlockchainInfo (latestBlockHash : bytes) (latestBlock : Block) (m : blockfileMgr) : blockfileMgr :=
  set_bcInfo (mkBlockchainInfo (u64 (Height (m_bcInfo m) + 1)) latestBlockHash
    (PreviousHash (Block_Header latestBlock)) (LastBlockInSnapshot (m_bcInfo m))) m.

Section WithProtos.
Context {PR : Protos}.

(** ** Adding a block: the certificate edit *)

(** The old block and the new one are the same object after [PutArgsInBlock], so
    the collision is asked for the new data twice. *)
Definition change_cert (certkey : list bytes) (kBig : Z) : M blockfileMgr unit :=
  key1 ← lift_outcome (go_index certkey 1);
  fs ← in_world get_fs;
  blocknumstr ← lift_outcome (or_empty (GetBlockNumberFromFile key1 fs));
  if bool_decide (blocknumstr = []) then mret tt else
  let offset := GetBlockOffsetFromFile blocknumstr fs in
  offsetstr ← lift_outcome (or_empty offset);
  oldblock ← in_world (on_fs (getBlock offsetstr));
  _ ← lift_outcome (match offset with Err _ => Panic "error find old block in the blockfile" | _ => Ret tt end);
  args ← lift_outcome (or_nil (GetArgsFromBlock oldblock));
  oldvalues ← lift_outcome (or_empty (GetRwsetFromBlock oldblock));
  arg11 ← lift_outcome (go_index args 11);
  key2 ← lift_outcome (go_index certkey 2);
  let oldvalues := Replace1 oldvalues arg11 key2 in
  let args := <[11%nat := key2]> args in
  newblock ← lift_outcome (OrPanic (PutArgsInBlock args oldblock));
  newblock ← lift_outcome (OrPanic (PutRwsetInBlock oldvalues newblock));
  '(newblockBytes, _) ← lift_outcome (OrPanic (SerializeBlock newblock));
  _ ← in_world (update_fs (append_file (str "/var/error3.txt") newblockBytes));
  m ← get_state;
  _ ← (if bool_decide (offsetstr = []) then mret tt else
       let '(offsetint, _) := Atoi offsetstr in
       _ ← try (in_world (writeat (m_writer m) newblockBytes offsetint));
       mret tt);
  '(r2, s2) ← lift_outcome (GetCollision (Block_Data newblock) (Block_Data newblock) kBig);
  in_world (update_fs (store_randomness (Number (Block_Header newblock)) r2 s2)).

Definition ChangeCert : bytes := str "ChangeCert".
Definition CreatCert : bytes := str "CreatCert".
Definition Creatdelhashtimelock : bytes := str "Creatdelhashtimelock".
Definition CreatTimeHashlock : bytes := str "CreatTimeHashlock".
Definition ExeTimeHashlock : bytes := str "ExeTimeHashlock".
Definition ExedelTimeHashlock : bytes := str "ExedelTimeHashlock".
Definition DelCert : bytes := str "DelCert".

(** The edit runs only where the peer's chain directory exists; the block that
    asked for it loses its first transaction. *)
Definition redact (block : Block) (kBig : Z) : M blockfileMgr Block :=
  certkey ← lift_outcome (or_nil (ValidateAnalysis block));
  fs ← in_world get_fs;
  if path_exists peer_chain_dir fs && bool_decide (head certkey = Some ChangeCert) then
    _ ← change_cert certkey kBig;
    mret (set_data0 block [])
  else mret block.

(** ** Adding a block: the append *)

(** Append the length and the block, save the summary; a failure of either cuts
    the file back.  The caller gets the new summary, the location pointer of the
    block and the transaction places relative to the start of the frame. *)
Definition append_frame (block : Block) (blockBytes : bytes) (info : serializedBlockInfo) (currentOffset : Z) :
    M blockfileMgr (blockfilesInfo * fileLocPointer * list txindexInfo) :=
  let blockBytesLen := zlen blockBytes in
  let blockBytesEncodedLen := EncodeVarint (u64 blockBytesLen) in
  let totalBytesToAppend := blockBytesLen + zlen blockBytesEncodedLen in
  m ← get_state;
  appended ← try (_ ← in_world (append (m_writer m) blockBytesEncodedLen);
                  in_world (append (m_writer m) blockBytes));
  match appended with
  | inr e =>
      _ ← or_panic (in_world (truncateFile (m_writer m) (latestFileSize (m_info m))));
      throw e
  | inl _ =>
      let newBlkfilesInfo := mkblockfilesInfo (latestFileNumber (m_info m))
        (latestFileSize (m_info m) + totalBytesToAppend) false (Number (Block_Header block)) in
      saved ← try (in_world (saveBlkfilesInfo newBlkfilesInfo));
      match saved with
      | inr e =>
          _ ← or_panic (in_world (truncateFile (m_writer m) (latestFileSize (m_info m))));
          throw e
      | inl _ =>
          let blockFLP := mkfileLocPointer (latestFileNumber newBlkfilesInfo) (mklocPointer currentOffset 0) in
          let txOffsets :=
            (fun t => mktxindexInfo (txi_txID t)
               (mklocPointer (loc_offset (txi_loc t) + zlen blockBytesEncodedLen) (loc_bytesLength (txi_loc t))))
            <$> sbi_txOffsets info in
          mret (newBlkfilesInfo, blockFLP, txOffsets)
      end
  end.

(** A block that does not fit in what is left of the current file starts the next
    one. *)
Definition append_block (block : Block) : M blockfileMgr (blockfilesInfo * fileLocPointer * list txindexInfo) :=
  '(blockBytes, info) ← lift_outcome (SerializeBlock block);
  m ← get_state;
  let blockBytesLen := zlen blockBytes in
  let totalBytesToAppend := blockBytesLen + zlen (EncodeVarint (u64 blockBytesLen)) in
  currentOffset ←
    (if m_maxBlockfileSize m <? latestFileSize (m_info m) + totalBytesToAppend then
       _ ← moveToNextFile; mret 0
     else mret (latestFileSize (m_info m)));
  append_frame block blockBytes info currentOffset.

(** ** Adding a block: the text files of the fork *)

(** Open for appending or [logger.Panicf]. *)
Definition append_or_panic (path b : bytes) : M Fs unit := fun fs =>
  if can_create path fs then (Ret tt, append_file path b fs)
  else (Panic "can not open the file", fs).

Definition record_blockinfo (block : Block) (currentOffset : Z) : M Fs unit :=
  append_or_panic blockinfo_path
    (FormatUint (Number (Block_Header block)) ++ plusplus ++ Itoa currentOffset ++ crlf).

(** certificate, hash, start time, end time *)
Definition lock_text (stringnum : list bytes) : outcome bytes :=
  s2 ← go_index stringnum 2;
  s3 ← go_index stringnum 3;
  s4 ← go_index stringnum 4;
  s5 ← go_index stringnum 5;
  Ret (s2 ++ plusplus ++ s3 ++ plusplus ++ s4 ++ plusplus ++ s5).

(** The two times and the two hashes are compared; only the first comparison of
    [ExeTimeHashlock] has an effect. *)
Definition exe_lock (prefix : bytes) (panics : bool) (stringnum : list bytes) : M Fs unit :=
  s2 ← lift_outcome (go_index stringnum 2);
  let path := prefix ++ s2 in
  fs ← get_state;
  match files fs !! path with
  | None => mret tt
  | Some content =>
      _ ← (if panics then mret tt else
           match ReadLine content with None => throw ErrEOF | Some _ => mret tt end);
      s5 ← lift_outcome (go_index stringnum 5);
      s4 ← lift_outcome (go_index stringnum 4);
      let time1 := fst (Atoi s5) in
      let time2 := fst (Atoi s4) in
      _ ← (if panics && (time2 <? time1) then panic "the time of time_hash lock is error" else mret tt);
      _ ← lift_outcome (go_index stringnum 3);
      _ ← lift_outcome (go_index stringnum 6);
      modify_state (remove_file path)
  end.

Definition record_cert (stringnum : list bytes) (blocknum : bytes) : M Fs unit :=
  match stringnum with
  | [] => mret tt
  | op :: _ =>
      if bool_decide (op = CreatCert) then
        s2 ← lift_outcome (go_index stringnum 2);
        append_or_panic (str "/var/" ++ s2) (blocknum ++ plusplus)
      else if bool_decide (op = Creatdelhashtimelock) then
        s2 ← lift_outcome (go_index stringnum 2);
        _ ← append_or_panic (str "/var/del" ++ s2) [];
        text ← lift_outcome (lock_text stringnum);
        append_or_panic (str "/var/del" ++ s2) text
      else if bool_decide (op = CreatTimeHashlock) then
        s2 ← lift_outcome (go_index stringnum 2);
        _ ← append_or_panic (str "/var/bugu" ++ s2) [];
        text ← lift_outcome (lock_text stringnum);
        append_or_panic (str "/var/bugu" ++ s2) text
      else if bool_decide (op = ExeTimeHashlock) then exe_lock (str "/var/bugu") true stringnum
      else if bool_decide (op = ExedelTimeHashlock) then exe_lock (str "/var/del") false stringnum
      else if bool_decide (op = DelCert) then
        _ ← lift_outcome (go_index stringnum 1); mret tt  (* a lock on the certificate is only logged *)
      else if bool_decide (op = ChangeCert) then
        _ ← lift_outcome (go_index stringnum 1); mret tt
      else mret tt
  end.

(** ** Adding a block *)

(** Returns the block, whose data the edit may have changed. *)
Definition addBlock (block : Block) (kBig : Z) : M blockfileMgr Block :=
  m ← get_state;
  let bcInfo := m_bcInfo m in
  if negb (Number (Block_Header block) =? Height bcInfo) then
    throw (Errorf "block number should have been %d but was %d") else
  block ← redact block kBig;
  if negb (bool_decide (PreviousHash (Block_Header block) = CurrentBlockHash bcInfo)) then
    throw (Errorf "unexpected Previous block hash") else
  '(newBlkfilesInfo, blockFLP, txOffsets) ← append_block block;
  let blockHash := BlockHeaderHash (Block_Header block) in
  _ ← in_world (on_text (record_blockinfo block (flp_offset blockFLP)));
  stringnum ← lift_outcome (or_nil (ValidateAnalysis block));
  _ ← in_world (on_text (record_cert stringnum (FormatUint (Number (Block_Header block)))));
  _ ← in_world (indexBlock (m_index m)
        (mkblockIdxInfo (Number (Block_Header block)) blockHash blockFLP txOffsets (Block_Metadata block)));
  _ ← modify_state (set_info newBlkfilesInfo);
  _ ← modify_state (updateBlockchainInfo blockHash block);
  mret block.

(** ** Serving blocks and transactions *)

Definition fetchBlockBytes (m : blockfileMgr) (lp : fileLocPointer) : outcome (option bytes) :=
  stream ← newBlockfileStream (w_fs (m_world m)) (m_rootDir m) (flp_fileSuffixNum lp) (flp_offset lp);
  fst (nextBlockBytes (w_fs (m_world m)) stream).

Definition fetchBlock (m : blockfileMgr) (lp : fileLocPointer) : outcome Block :=
  blockBytes ← fetchBlockBytes m lp;
  DeserializeBlock (default [] blockBytes).

Definition fetchRawBytes (m : blockfileMgr) (lp : fileLocPointer) : outcome bytes :=
  let filePath := deriveBlockfilePath (m_rootDir m) (flp_fileSuffixNum lp) in
  reader ← newBlockfileReader filePath (w_fs (m_world m));
  blockfileReader_read reader (flp_offset lp) (flp_bytesLength lp) (w_fs (m_world m)).

Definition fetchTransactionEnvelope (m : blockfileMgr) (lp : fileLocPointer) : outcome Envelope :=
  txEnvelopeBytes ← fetchRawBytes m lp;
  let '(_, n) := DecodeVarint txEnvelopeBytes in
  GetEnvelopeFromBlock (drop n txEnvelopeBytes).

Definition snapshot_guard (m : blockfileMgr) (blockNum : Z) : outcome unit :=
  if blockNum <? firstPossibleBlockNumberInBlockFiles m then
    Err (Errorf "cannot serve block [%d]. The ledger is bootstrapped from a snapshot")
  else Ret tt.

Definition retrieveBlockByHash (m : blockfileMgr) (blockHash : bytes) : outcome Block :=
  loc ← getBlockLocByHash (m_index m) (w_db (m_world m)) blockHash;
  fetchBlock m loc.

Definition retrieveBlockByNumber (m : blockfileMgr) (blockNum : Z) : outcome Block :=
  let blockNum := if blockNum =? MaxUint64 then u64 (Height (m_bcInfo m) - 1) else blockNum in
  _ ← snapshot_guard m blockNum;
  loc ← getBlockLocByBlockNum (m_index m) (w_db (m_world m)) blockNum;
  fetchBlock m loc.

(** The entry of a transaction imported from a snapshot has no value. *)
Definition not_available {A} (o : outcome A) : outcome A :=
  match o with
  | Err errNilValue => Err (Errorf "details for the TXID [%s] not available. Ledger bootstrapped from a snapshot")
  | _ => o
  end.

Definition retrieveBlockByTxID (m : blockfileMgr) (txID : bytes) : outcome Block :=
  loc ← not_available (getBlockLocByTxID (m_index m) (w_db (m_world m)) txID);
  fetchBlock m loc.

Definition retrieveTxValidationCodeByTxID (m : blockfileMgr) (txID : bytes) : outcome Z :=
  not_available (getTxValidationCodeByTxID (m_index m) (w_db (m_world m)) txID).

Definition retrieveBlockHeaderByNumber (m : blockfileMgr) (blockNum : Z) : outcome BlockHeader :=
  _ ← snapshot_guard m blockNum;
  loc ← getBlockLocByBlockNum (m_index m) (w_db (m_world m)) blockNum;
  blockBytes ← fetchBlockBytes m loc;
  info ← extractSerializedBlockInfo (default [] blockBytes);
  Ret (sbi_blockHeader info).

Definition retrieveTransactionByID (m : blockfileMgr) (txID : bytes) : outcome Envelope :=
  loc ← not_available (getTxLoc (m_index m) (w_db (m_world m)) txID);
  fetchTransactionEnvelope m loc.

Definition retrieveTransactionByBlockNumTranNum (m : blockfileMgr) (blockNum tranNum : Z) : outcome Envelope :=
  _ ← snapshot_guard m blockNum;
  loc ← getTXLocByBlockNumTranNum (m_index m) (w_db (m_world m)) blockNum tranNum;
  fetchTransactionEnvelope m loc.

(** ** Opening *)

(** [fileutil.FileExists]: the size of an existing regular file. *)
Definition FileExists (fs : Fs) (path : bytes) : outcome (option Z) :=
  match files fs !! path with
  | Some content => Ret (Some (zlen content))
  | None => if bool_decide (path ∈ dirs fs) then Err (Errorf "the supplied path [%s] is a dir") else Ret None
  end.

Definition syncBlockfilesInfoFromFS (fs : Fs) (rootDir : bytes) (info : blockfilesInfo) : outcome blockfilesInfo :=
  let filePath := deriveBlockfilePath rootDir (latestFileNumber info) in
  size ← OrPanic (FileExists fs filePath);
  match size with
  | None => Ret info
  | Some size =>
      if size =? latestFileSize info then Ret info else
      '(_, endOffsetLastBlock, numBlocks) ←
        OrPanic (scanForLastCompleteBlock fs rootDir (latestFileNumber info) (latestFileSize info));
      if numBlocks =? 0 then
        Ret (mkblockfilesInfo (latestFileNumber info) endOffsetLastBlock (noBlockFiles info) (lastPersistedBlock info))
      else
        let last := if noBlockFiles info then u64 (numBlocks - 1) else u64 (lastPersistedBlock info + u64 numBlocks) in
        Ret (mkblockfilesInfo (latestFileNumber info) endOffsetLastBlock false last)
  end.

(** The index entry of a block read back from its file. *)
Definition idx_of_placed (info : serializedBlockInfo) (p : blockPlacementInfo) : blockIdxInfo :=
  let numBytesToShift := bpi_blockBytesOffset p - bpi_blockStartOffset p in
  let txOffsets :=
    (fun t => mktxindexInfo (txi_txID t)
       (mklocPointer (loc_offset (txi_loc t) + numBytesToShift) (loc_bytesLength (txi_loc t))))
    <$> sbi_txOffsets info in
  mkblockIdxInfo (Number (sbi_blockHeader info)) (BlockHeaderHash (sbi_blockHeader info))
    (mkfileLocPointer (bpi_fileNum p) (mklocPointer (bpi_blockStartOffset p) 0)) txOffsets (sbi_metadata info).

(** The loop of [syncIndex]: a block per round.  Each round consumes bytes of the
    block files, whose total length bounds the rounds. *)
Fixpoint syncIndex_loop (fuel ffuel : nat) (index : blockIndex) (stream : blockStream) : M World unit :=
  match fuel with
  | O => panic "out of fuel"
  | S fuel' => fun w =>
      match blockStream_nextBlockBytesAndPlacementInfo ffuel (w_fs w) stream with
      | (Ret None, _) => (Ret tt, w)
      | (Ret (Some (blockBytes, placement)), stream) =>
          (info ← lift_outcome (extractSerializedBlockInfo blockBytes);
           _ ← indexBlock index (idx_of_placed info placement);
           syncIndex_loop fuel' ffuel index stream) w
      | (Err e, _) => (Err e, w)
      | (Panic msg, _) => (Panic msg, w)
      end
  end.

Definition total_size (fs : Fs) : nat := map_fold (fun _ c n => (length c + n)%nat) 0%nat (files fs).

(** (last block indexed, next block to index) *)
Definition next_indexable (db : kvmap) : outcome (Z * Z) :=
  match getLastBlockIndexed db with
  | Ret lastBlockIndexed => Ret (lastBlockIndexed, u64 (lastBlockIndexed + 1))
  | Err errIndexSavePointKeyNotPresent => Ret (0, 0)
  | Err e => Err e
  | Panic msg => Panic msg
  end.

(** Where the stream starts: (file, offset, whether to skip the block there). *)
Definition sync_start (m : blockfileMgr) (fs : Fs) (db : kvmap) (lastBlockIndexed nextIndexableBlock : Z) :
    outcome (Z * Z * bool) :=
  firstAvailableBlkNum ← retrieveFirstBlockNumFromFile fs (m_rootDir m) 0;
  if firstAvailableBlkNum <? nextIndexableBlock then
    flp ← getBlockLocByBlockNum (m_index m) db lastBlockIndexed;
    Ret (flp_fileSuffixNum flp, flp_offset flp, true)
  else Ret (0, 0, false).

Definition skip_block (ffuel : nat) (fs : Fs) (stream : blockStream) : outcome blockStream :=
  match blockStream_nextBlockBytesAndPlacementInfo ffuel fs stream with
  | (Ret (Some _), stream) => Ret stream
  | (Ret None, _) => Err (Errorf "block bytes for block num = [%d] should not be nil here")
  | (Err e, _) => Err e
  | (Panic msg, _) => Panic msg
  end.

Definition syncIndex (m : blockfileMgr) : M World unit :=
  fs ← get_fs;
  db ← get_db;
  '(lastBlockIndexed, nextIndexableBlock) ← lift_outcome (next_indexable db);
  if (nextIndexableBlock =? 0) && bootstrappedFromSnapshot m then
    throw (Errorf "cannot sync index with block files. blockstore is bootstrapped from a snapshot") else
  if noBlockFiles (m_info m) then mret tt else
  if nextIndexableBlock =? u64 (lastPersistedBlock (m_info m) + 1) then mret tt else
  let endFileNum := latestFileNumber (m_info m) in
  let ffuel := S (Z.to_nat endFileNum) in
  '(startFileNum, startOffset, skipFirstBlock) ←
    lift_outcome (sync_start m fs db lastBlockIndexed nextIndexableBlock);
  stream ← lift_outcome (newBlockStream fs (m_rootDir m) startFileNum startOffset endFileNum);
  stream ← lift_outcome (if skipFirstBlock : bool then skip_block ffuel fs stream else Ret stream);
  syncIndex_loop (S (total_size fs)) ffuel (m_index m) stream.

Definition newBlockfileMgr (rootDir : bytes) (maxBlockfileSize : Z) (indexConfig : list IndexableAttr) :
    M World blockfileMgr :=
  _ ← update_fs (fun fs => mkFs (files fs) ({[rootDir]} ∪ dirs fs));
  db ← get_db;
  fs ← get_fs;
  loaded ← lift_outcome (OrPanic (loadBlkfilesInfo db));
  info ← lift_outcome (OrPanic
    match loaded with
    | None => constructBlockfilesInfo fs rootDir
    | Some info => syncBlockfilesInfoFromFS fs rootDir info
    end);
  _ ← or_panic (saveBlkfilesInfo info);
  currentFileWriter ← or_panic (newBlockfileWriter (deriveBlockfilePath rootDir (latestFileNumber info)));
  _ ← or_panic (truncateFile currentFileWriter (latestFileSize info));
  fs ← get_fs;
  bsi ← lift_outcome (loadBootstrappingSnapshotInfo fs rootDir);
  w ← get_state;
  let bcInfo :=
    match bsi with
    | Some b => mkBlockchainInfo (u64 (BSI_LastBlockNum b + 1)) (BSI_LastBlockHash b)
                  (BSI_PreviousBlockHash b) (Some (BSI_LastBlockNum b))
    | None => mkBlockchainInfo 0 [] [] None
    end in
  let m := mkblockfileMgr rootDir maxBlockfileSize (newBlockIndex indexConfig) info bsi currentFileWriter bcInfo w in
  _ ← syncIndex m;
  w ← get_state;
  let m := set_world w m in
  if noBlockFiles info then mret m else
  lastBlockHeader ← lift_outcome (OrPanic (retrieveBlockHeaderByNumber m (lastPersistedBlock info)));
  mret (set_bcInfo (mkBlockchainInfo (u64 (lastPersistedBlock info + 1)) (BlockHeaderHash lastBlockHeader)
          (PreviousHash lastBlockHeader) (LastBlockInSnapshot bcInfo)) m).

End WithProtos.
