(* ===== verification/BlockfileMgrOk.v ===== *)
(** * Correctness of the block file manager

    The invariant [mgr_ok] of a running manager (BlockfileMgr.v), that adding an
    ordinary block preserves it, that every added block and transaction is served
    back, and what an I/O fault during an append leaves behind. *)

From S2P Require Import Prelude Varint OrderedCode Sha256 GoBig GoOS LevelDB Storage Chameleon.
From S2P Require Import Proto Block BlockSerialization BlockStream BlockIndex Redaction.
From S2P Require Import BlockfileMgr.

(** ** File names *)

Lemma scan_zeros (k : nat) (l : bytes) : scan_digits 10 0 (replicate k Byte.x30 ++ l) = scan_digits 10 0 l.
Proof. induction k as [|k IH]; [done|]. simpl. apply IH. Qed.

Lemma scan_Sprintf_06d (n : Z) : 0 <= n -> scan_digits 10 0 (Sprintf_06d n) = (n, []).
Proof.
  intros Hn. unfold Sprintf_06d. rewrite (proj2 (Z.ltb_ge _ _)) by lia. rewrite scan_zeros.
  destruct (digits_spec 10 n ltac:(lia) Hn) as (Hd & _ & Hf).
  rewrite <- (app_nil_r (digits 10 n)), scan_digits_app by done. by rewrite Hf.
Qed.

Lemma Sprintf_06d_inj (n m : Z) : 0 <= n -> 0 <= m -> Sprintf_06d n = Sprintf_06d m -> n = m.
Proof.
  intros Hn Hm E. pose proof (scan_Sprintf_06d n Hn) as H1. rewrite E, scan_Sprintf_06d in H1 by done.
  congruence.
Qed.

Lemma deriveBlockfilePath_inj (rootDir : bytes) (n m : Z) :
  0 <= n -> 0 <= m -> deriveBlockfilePath rootDir n = deriveBlockfilePath rootDir m -> n = m.
Proof.
  intros Hn Hm E. unfold deriveBlockfilePath in E. do 3 apply app_inv_head in E. by apply Sprintf_06d_inj.
Qed.

Lemma Sprintf_06d_no_slash (n : Z) : 0 <= n -> Byte.x2f ∉ Sprintf_06d n.
Proof.
  intros Hn. unfold Sprintf_06d. rewrite (proj2 (Z.ltb_ge _ _)) by lia. rewrite not_elem_of_app. split.
  - intros Hin. apply elem_of_replicate in Hin as [? _]. done.
  - intros Hin. destruct (digits_spec 10 n ltac:(lia) Hn) as (H & _).
    rewrite forallb_forall in H. apply list_elem_of_In in Hin. specialize (H _ Hin). done.
Qed.

Lemma dirname_rev_app (l rest : bytes) :
  Byte.x2f ∉ l -> dirname_rev (l ++ Byte.x2f :: rest) = rest.
Proof.
  induction l as [|b l IH]; intros Hn; cbn [app dirname_rev].
  - by rewrite bool_decide_eq_true_2.
  - rewrite not_elem_of_cons in Hn. rewrite bool_decide_eq_false_2 by (intros ->; tauto). apply IH. tauto.
Qed.

Lemma dirname_join (dir name : bytes) : Byte.x2f ∉ name -> dirname (dir ++ str "/" ++ name) = dir.
Proof.
  intros Hn. unfold dirname. change (str "/" ++ name) with ([Byte.x2f] ++ name).
  rewrite !reverse_app. rewrite <- app_assoc. change (reverse [Byte.x2f] ++ reverse dir) with (Byte.x2f :: reverse dir).
  rewrite dirname_rev_app; [apply reverse_involutive|]. by rewrite elem_of_reverse.
Qed.

Lemma dirname_blockfile (rootDir : bytes) (n : Z) : 0 <= n -> dirname (deriveBlockfilePath rootDir n) = rootDir.
Proof.
  intros Hn. unfold deriveBlockfilePath. apply dirname_join. rewrite not_elem_of_app.
  split; [by apply (bool_decide_unpack _); vm_compute | by apply Sprintf_06d_no_slash].
Qed.

(** The manager's text file is never one of its block files. *)
Lemma blockinfo_not_blockfile (rootDir : bytes) (n : Z) : 0 <= n -> deriveBlockfilePath rootDir n <> blockinfo_path.
Proof.
  intros Hn E. pose proof (dirname_blockfile rootDir n Hn) as Hd. rewrite E in Hd.
  assert (Hr : rootDir = str "/var") by (rewrite <- Hd; vm_compute; reflexivity). clear Hd. subst rootDir.
  unfold deriveBlockfilePath in E. change blockinfo_path with (str "/var/block" ++ str "info_000000") in E.
  change (str "/var" ++ str "/" ++ blockfilePrefix ++ Sprintf_06d n)
    with (str "/var/block" ++ str "file_" ++ Sprintf_06d n) in E.
  apply app_inv_head in E. discriminate E.
Qed.

(** ** The invariant *)

Section Invariant.
Context {PR : Protos} {PK : ProtosOk}.

(** What the manager needs of a block to store, index and serve it: the flags of
    its transactions ([fl]) are in its metadata, and its sizes are representable. *)
Record block_ok (b : Block) (bs : bytes) (fl : bytes) : Prop := {
  bo_ser : serialized b bs;
  bo_flags : exists md, Block_Metadata b = Some md /\ md !! BlockMetadataIndex_TRANSACTIONS_FILTER = Some fl;
  bo_len : (length (Block_Data b) <= length fl)%nat;
  bo_ids : Forall (fun d => is_u64 (zlen (txid_or_empty d))) (Block_Data b) }.

(** The index entry of the block stored at an offset of a file. *)
Definition block_idx (fileNum off : Z) (b : Block) (bs : bytes) : blockIdxInfo :=
  let shift := zlen (EncodeVarint (u64 (zlen bs))) in
  mkblockIdxInfo (Number (Block_Header b)) (BlockHeaderHash (Block_Header b))
    (mkfileLocPointer fileNum (mklocPointer off 0))
    ((fun t => mktxindexInfo (txi_txID t)
        (mklocPointer (loc_offset (txi_loc t) + shift) (loc_bytesLength (txi_loc t))))
     <$> tx_locs (data_offset (Block_Header b) (Block_Data b)) (Block_Data b))
    (Block_Metadata b).

(** The frame of [b] is in its file where the entry says. *)
Definition located (fs : Fs) (rootDir : bytes) (c : blockIdxInfo * bytes) (b : Block) : Prop :=
  exists fileNum pre bs post,
    0 <= fileNum < 2 ^ 62 /\ zlen pre < 2 ^ 62 /\
    files fs !! deriveBlockfilePath rootDir fileNum = Some (pre ++ enc_raw bs ++ post) /\
    block_ok b bs (snd c) /\ fst c = block_idx fileNum (zlen pre) b bs.

(** No file, or an empty one left by a crash before its first use. *)
Definition unused (path : bytes) (fs : Fs) : Prop := files fs !! path = None \/ files fs !! path = Some [].

Record mgr_ok (m : blockfileMgr) (blocks : list Block) (chain : list (blockIdxInfo * bytes)) : Prop := {
  mo_all : index_all (m_index m);
  mo_bsi : m_bsi m = None;
  mo_db : index_ok (w_db (m_world m)) chain;
  mo_loc : Forall2 (located (w_fs (m_world m)) (m_rootDir m)) chain blocks;
  mo_num : forall k b, blocks !! k = Some b -> Number (Block_Header b) = Z.of_nat k;
  mo_height : Height (m_bcInfo m) = zlen blocks;
  mo_hash : CurrentBlockHash (m_bcInfo m) =
    match last blocks with Some b => BlockHeaderHash (Block_Header b) | None => [] end;
  mo_file : 0 <= latestFileNumber (m_info m) < 2 ^ 61;
  mo_writer : m_writer m = deriveBlockfilePath (m_rootDir m) (latestFileNumber (m_info m));
  mo_content : exists content, files (w_fs (m_world m)) !! m_writer m = Some content /\
    zlen content = latestFileSize (m_info m);
  mo_next : forall n, latestFileNumber (m_info m) < n ->
    unused (deriveBlockfilePath (m_rootDir m) n) (w_fs (m_world m));
  mo_dirs : m_rootDir m ∈ dirs (w_fs (m_world m)) /\
    forall n, 0 <= n -> deriveBlockfilePath (m_rootDir m) n ∉ dirs (w_fs (m_world m)) }.

(** ** Serving what is stored *)

Lemma serialized_tx_length (b : Block) (bs : bytes) (d : bytes) :
  serialized b bs -> d ∈ Block_Data b -> zlen (enc_raw d) <= zlen bs.
Proof.
  intros ((info & Hs) & _) Hd. apply list_elem_of_lookup in Hd as [i Hi].
  destruct (serialized_tx_at b bs info i d Hs Hi) as (pre & post & -> & _).
  rewrite !zlen_app. pose proof (zlen_nonneg pre). pose proof (zlen_nonneg post). lia.
Qed.

Lemma tx_locs_length (off : Z) (data : list bytes) : length (tx_locs off data) = length data.
Proof. revert off. induction data as [|d data IH]; intros off; [done|]. simpl. by rewrite IH. Qed.

Lemma tx_locs_elem (off : Z) (data : list bytes) (t : txindexInfo) :
  t ∈ tx_locs off data -> exists d, d ∈ data /\ txi_txID t = txid_or_empty d /\ loc_bytesLength (txi_loc t) = zlen (enc_raw d).
Proof.
  revert off. induction data as [|d data IH]; intros off Ht; [by apply not_elem_of_nil in Ht|].
  cbn [tx_locs] in Ht. apply elem_of_cons in Ht as [->|Ht].
  - exists d. split; [by left|]. done.
  - destruct (IH _ Ht) as (d' & ? & ?). exists d'. split; [by right|done].
Qed.

Lemma block_idx_wf (fileNum off : Z) (b : Block) (bs fl : bytes) :
  block_ok b bs fl -> 0 <= fileNum < 2 ^ 62 -> 0 <= off < 2 ^ 62 -> idx_wf (block_idx fileNum off b bs) fl.
Proof.
  intros [Hs Hf Hl Hi] Hfn Ho. pose proof Hs as ((info & Hser) & Hfr & Hn).
  constructor; cbn [block_idx bii_blockNum bii_flp bii_metadata bii_txOffsets].
  - done.
  - split_and!; unfold is_i64; cbn; lia.
  - done.
  - rewrite length_fmap, tx_locs_length. split; [done|]. unfold zlen. rewrite length_fmap, tx_locs_length.
    apply serializeBlock_inv in Hser as (h & data & md & -> & -> & ->). cbn [Block_Data] in *.
    unfold frame_ok, block_bytes in Hfr. rewrite !zlen_app in Hfr. pose proof (enc_raws_length data).
    unfold is_u64, zlen in *. lia.
  - rewrite Forall_fmap. apply Forall_forall. intros t Ht. cbn [compose txi_txID txi_loc loc_bytesLength].
    destruct (tx_locs_elem _ _ _ Ht) as (d & Hd & -> & ->). split.
    + by apply (proj1 (Forall_forall _ _) Hi).
    + pose proof (serialized_tx_length b bs d Hs Hd). pose proof (zlen_nonneg (enc_raw d)).
      unfold frame_ok in Hfr. unfold is_i64. lia.
Qed.

Section Serving.
Context (m : blockfileMgr) (blocks : list Block) (chain : list (blockIdxInfo * bytes)) (Hm : mgr_ok m blocks chain).

Lemma chain_block (k : nat) (b : Block) :
  blocks !! k = Some b -> exists info fl, chain !! k = Some (info, fl) /\ located (w_fs (m_world m)) (m_rootDir m) (info, fl) b.
Proof.
  intros Hk. destruct (Forall2_lookup_r _ _ _ _ _ (mo_loc _ _ _ Hm) Hk) as ([info fl] & Hc & Hl). eauto.
Qed.

Lemma fetchBlock_located (c : blockIdxInfo * bytes) (b : Block) :
  located (w_fs (m_world m)) (m_rootDir m) c b -> fetchBlock m (bii_flp (fst c)) = Ret b.
Proof.
  intros (fn & pre & bs & post & Hfn & Hpre & Hf & Hb & ->).
  pose proof (bo_ser _ _ _ Hb) as Hs. unfold fetchBlock, fetchBlockBytes, newBlockfileStream.
  cbn [block_idx bii_flp flp_fileSuffixNum flp_offset flp_loc loc_offset]. rewrite Hf.
  pose proof (zlen_nonneg pre). rewrite (proj2 (Z.ltb_ge _ _)) by lia. cbn [mbind outcome_bind].
  rewrite (nextBlockBytes_frame _ fn _ pre bs post); [|by rewrite (file_content_Some _ _ _ Hf)|apply Hs].
  cbn [fst mbind outcome_bind]. destruct (serialized_info b bs Hs) as (_ & _ & _ & E).
  change (default [] (Some bs)) with bs. exact E.
Qed.

(** Every block of the chain is served by its number. *)
Lemma retrieveBlockByNumber_ok (k : nat) (b : Block) :
  blocks !! k = Some b -> Z.of_nat k < MaxUint64 -> retrieveBlockByNumber m (Z.of_nat k) = Ret b.
Proof.
  intros Hk Hmax. destruct (chain_block k b Hk) as (info & fl & Hc & Hl).
  unfold retrieveBlockByNumber. rewrite (proj2 (Z.eqb_neq _ _)) by lia.
  unfold snapshot_guard, firstPossibleBlockNumberInBlockFiles. rewrite (mo_bsi _ _ _ Hm).
  rewrite (proj2 (Z.ltb_ge _ _)) by lia. cbn [mbind outcome_bind].
  assert (Hn : bii_blockNum info = Z.of_nat k).
  { destruct Hl as (fn & pre & bs & post & _ & _ & _ & _ & E). cbn [fst] in E. rewrite E.
    cbn [block_idx bii_blockNum]. by apply (mo_num _ _ _ Hm). }
  rewrite <- Hn. rewrite (getBlockLocByBlockNum_ok _ _ _ (mo_all _ _ _ Hm) (mo_db _ _ _ Hm) info fl)
    by (by eapply list_elem_of_lookup_2). cbn [mbind outcome_bind]. by apply (fetchBlock_located (info, fl)).
Qed.

Lemma retrieveBlockByNumber_none (n : Z) :
  zlen blocks <= n < MaxUint64 -> retrieveBlockByNumber m n = Err ErrNotFoundInIndex.
Proof.
  intros Hn. unfold retrieveBlockByNumber. rewrite (proj2 (Z.eqb_neq _ _)) by lia.
  unfold snapshot_guard, firstPossibleBlockNumberInBlockFiles. rewrite (mo_bsi _ _ _ Hm).
  pose proof (zlen_nonneg blocks). rewrite (proj2 (Z.ltb_ge _ _)) by lia. cbn [mbind outcome_bind].
  rewrite (getBlockLocByBlockNum_none _ _ _ (mo_all _ _ _ Hm) (mo_db _ _ _ Hm)); [done|unfold MaxUint64, is_u64 in *; lia|].
  intros info fl Hin E. apply list_elem_of_lookup in Hin as [k Hk].
  destruct (Forall2_lookup_l _ _ _ _ _ (mo_loc _ _ _ Hm) Hk) as (b & Hb & (fn & pre & bs & post & _ & _ & _ & _ & Ei)).
  cbn [fst] in Ei. subst info. cbn [block_idx bii_blockNum] in E. rewrite (mo_num _ _ _ Hm k b Hb) in E.
  apply lookup_lt_Some in Hb. unfold zlen in Hn. lia.
Qed.

Lemma fetchTx_located (info : blockIdxInfo) (fl : bytes) (b : Block) (i : nat) (d : bytes) :
  located (w_fs (m_world m)) (m_rootDir m) (info, fl) b -> Block_Data b !! i = Some d ->
  exists tx, bii_txOffsets info !! i = Some tx /\ txi_txID tx = txid_or_empty d /\
    fetchTransactionEnvelope m (tx_flp info tx) = GetEnvelopeFromBlock d.
Proof.
  intros (fn & pre & bs & post & Hfn & Hpre & Hf & Hb & Ei) Hi. cbn [fst] in Ei. subst info.
  pose proof (bo_ser _ _ _ Hb) as ((sinfo & Hs) & Hfr & _).
  destruct (serialized_tx_at b bs sinfo i d Hs Hi) as (pre1 & post1 & Ebs & Et).
  assert (Esi : sbi_txOffsets sinfo = tx_locs (data_offset (Block_Header b) (Block_Data b)) (Block_Data b))
    by (by apply serializeBlock_inv in Hs as (h & data & md & -> & -> & ->)).
  rewrite Esi in Et. set (v := EncodeVarint (u64 (zlen bs))) in *.
  eexists. cbn [block_idx bii_txOffsets]. rewrite list_lookup_fmap, Et. split; [done|]. split; [done|].
  unfold fetchTransactionEnvelope, fetchRawBytes, tx_flp, newFileLocationPointer.
  cbn [block_idx bii_flp flp_fileSuffixNum flp_offset flp_bytesLength flp_loc loc_offset loc_bytesLength txi_loc].
  fold v. unfold newBlockfileReader. rewrite Hf. cbn [mbind outcome_bind].
  assert (Ep : pre ++ enc_raw bs ++ post = (pre ++ v ++ pre1) ++ enc_raw d ++ (post1 ++ post)).
  { unfold enc_raw at 1. fold v. rewrite Ebs at 1. by rewrite <- !app_assoc. }
  assert (Hv : zlen v <= 10) by (pose proof (EncodeVarint_length (u64 (zlen bs))) as L; fold v in L; unfold zlen; lia).
  assert (Hp1 : zlen pre1 <= zlen bs).
  { rewrite Ebs, !zlen_app. pose proof (zlen_nonneg (enc_raw d)). pose proof (zlen_nonneg post1). lia. }
  unfold flp_offset. cbn [flp_loc loc_offset].
  pose proof (zlen_nonneg pre). pose proof (zlen_nonneg v). pose proof (zlen_nonneg pre1). unfold frame_ok in Hfr.
  rewrite i64_id by (unfold is_i64; lia).
  replace (zlen pre + (zlen pre1 + zlen v)) with (zlen (pre ++ v ++ pre1)) by (rewrite !zlen_app; lia).
  rewrite (read_middle _ _ _ (post1 ++ post)) by (by rewrite Hf, Ep). cbn [mbind outcome_bind].
  unfold enc_raw. rewrite DecodeVarint_encode by apply u64_is_u64. by rewrite drop_app_length.
Qed.

(** Every transaction of the chain is served by its place. *)
Lemma retrieveTransaction_ok (k i : nat) (b : Block) (d : bytes) :
  blocks !! k = Some b -> Block_Data b !! i = Some d ->
  retrieveTransactionByBlockNumTranNum m (Z.of_nat k) (Z.of_nat i) = GetEnvelopeFromBlock d.
Proof.
  intros Hk Hi. destruct (chain_block k b Hk) as (info & fl & Hc & Hl).
  destruct (fetchTx_located info fl b i d Hl Hi) as (tx & Htx & _ & Hf).
  unfold retrieveTransactionByBlockNumTranNum, snapshot_guard, firstPossibleBlockNumberInBlockFiles.
  rewrite (mo_bsi _ _ _ Hm). rewrite (proj2 (Z.ltb_ge _ _)) by lia. cbn [mbind outcome_bind].
  assert (Hn : bii_blockNum info = Z.of_nat k).
  { destruct Hl as (fn & pre & bs & post & _ & _ & _ & _ & E). cbn [fst] in E. rewrite E.
    cbn [block_idx bii_blockNum]. by apply (mo_num _ _ _ Hm). }
  rewrite <- Hn.
  rewrite (getTXLocByBlockNumTranNum_ok _ _ _ (mo_all _ _ _ Hm) (mo_db _ _ _ Hm) info fl i tx);
    [|by eapply list_elem_of_lookup_2|done]. cbn [mbind outcome_bind]. exact Hf.
Qed.

Lemma chain_number (k : nat) (b : Block) (info : blockIdxInfo) (fl : bytes) :
  blocks !! k = Some b -> located (w_fs (m_world m)) (m_rootDir m) (info, fl) b -> bii_blockNum info = Z.of_nat k.
Proof.
  intros Hk (fn & pre & bs & post & _ & _ & _ & _ & E). cbn [fst] in E. rewrite E.
  cbn [block_idx bii_blockNum]. by apply (mo_num _ _ _ Hm).
Qed.

Lemma snapshot_guard_ok (n : Z) : 0 <= n -> snapshot_guard m n = Ret tt.
Proof.
  intros Hn. unfold snapshot_guard, firstPossibleBlockNumberInBlockFiles. rewrite (mo_bsi _ _ _ Hm).
  by rewrite (proj2 (Z.ltb_ge _ _)) by lia.
Qed.

Lemma retrieveBlockHeaderByNumber_ok (k : nat) (b : Block) :
  blocks !! k = Some b -> retrieveBlockHeaderByNumber m (Z.of_nat k) = Ret (Block_Header b).
Proof.
  intros Hk. destruct (chain_block k b Hk) as (info & fl & Hc & Hl).
  pose proof (chain_number _ _ _ _ Hk Hl) as Hn.
  unfold retrieveBlockHeaderByNumber. rewrite snapshot_guard_ok by lia. cbn [mbind outcome_bind]. rewrite <- Hn.
  rewrite (getBlockLocByBlockNum_ok _ _ _ (mo_all _ _ _ Hm) (mo_db _ _ _ Hm) info fl)
    by (by eapply list_elem_of_lookup_2). cbn [mbind outcome_bind].
  destruct Hl as (fn & pre & bs & post & Hfn & Hpre & Hf & Hb & E). cbn [fst] in E. subst info.
  pose proof (bo_ser _ _ _ Hb) as Hs. unfold fetchBlockBytes, newBlockfileStream.
  cbn [block_idx bii_flp flp_fileSuffixNum flp_offset flp_loc loc_offset]. rewrite Hf.
  pose proof (zlen_nonneg pre). rewrite (proj2 (Z.ltb_ge _ _)) by lia. cbn [mbind outcome_bind].
  rewrite (nextBlockBytes_frame _ fn _ pre bs post); [|by rewrite (file_content_Some _ _ _ Hf)|apply Hs].
  cbn [fst mbind outcome_bind]. destruct (serialized_info b bs Hs) as (sinfo & E & Eh & _).
  change (default [] (Some bs)) with bs. rewrite E. cbn [mbind outcome_bind]. by rewrite Eh.
Qed.

(** A header hash that no two blocks share leads to its block. *)
Lemma retrieveBlockByHash_ok (k : nat) (b : Block) :
  blocks !! k = Some b ->
  (forall k' b', blocks !! k' = Some b' ->
     BlockHeaderHash (Block_Header b') = BlockHeaderHash (Block_Header b) -> k' = k) ->
  retrieveBlockByHash m (BlockHeaderHash (Block_Header b)) = Ret b.
Proof.
  intros Hk Hu. destruct (chain_block k b Hk) as (info & fl & Hc & Hl).
  assert (Hh : forall i f x, located (w_fs (m_world m)) (m_rootDir m) (i, f) x -> bii_blockHash i = BlockHeaderHash (Block_Header x))
    by (intros i f x (fn & pre & bs & post & _ & _ & _ & _ & E); cbn [fst] in E; by rewrite E).
  unfold retrieveBlockByHash. rewrite <- (Hh _ _ _ Hl).
  rewrite (getBlockLocByHash_ok _ _ _ (mo_all _ _ _ Hm) (mo_db _ _ _ Hm) info fl).
  - cbn [mbind outcome_bind]. by apply (fetchBlock_located (info, fl)).
  - by eapply list_elem_of_lookup_2.
  - intros info' fl' Hin E. apply list_elem_of_lookup in Hin as [k' Hk'].
    destruct (Forall2_lookup_l _ _ _ _ _ (mo_loc _ _ _ Hm) Hk') as (b' & Hb' & Hl').
    rewrite (Hh _ _ _ Hl), (Hh _ _ _ Hl') in E. rewrite (Hu _ _ Hb' E) in Hk'. congruence.
Qed.

(** The transaction [d], number [i] of block [k], is the first with the id [t]. *)
Definition first_with_id (t : bytes) (k i : nat) (d : bytes) : Prop :=
  (exists b, blocks !! k = Some b /\ Block_Data b !! i = Some d) /\ txid_or_empty d = t /\
  forall k' i' b' d', blocks !! k' = Some b' -> Block_Data b' !! i' = Some d' -> txid_or_empty d' = t ->
    lex_le (Z.of_nat k) (Z.of_nat i) (Z.of_nat k') (Z.of_nat i').

Lemma occurs_tx (t : bytes) (info : blockIdxInfo) (fl : bytes) (i : nat) (tx : txindexInfo) :
  occurs chain t info fl i tx ->
  exists k b d, blocks !! k = Some b /\ Block_Data b !! i = Some d /\ txid_or_empty d = t /\
    chain !! k = Some (info, fl) /\ bii_blockNum info = Z.of_nat k /\
    located (w_fs (m_world m)) (m_rootDir m) (info, fl) b.
Proof.
  intros (Hin & Hi & Ht). apply list_elem_of_lookup in Hin as [k Hk].
  destruct (Forall2_lookup_l _ _ _ _ _ (mo_loc _ _ _ Hm) Hk) as (b & Hb & Hl).
  pose proof (chain_number _ _ _ _ Hb Hl) as Hn.
  destruct (lookup_lt_is_Some_2 (Block_Data b) i) as [d Hd].
  { destruct Hl as (fn & pre & bs & post & _ & _ & _ & _ & E). cbn [fst] in E. subst info.
    apply lookup_lt_Some in Hi. cbn [block_idx bii_txOffsets] in Hi. by rewrite length_fmap, tx_locs_length in Hi. }
  exists k, b, d. destruct (fetchTx_located info fl b i d Hl Hd) as (tx' & Htx & Hid & _).
  rewrite Hi in Htx. injection Htx as <-. rewrite <- Hid. split_and!; done.
Qed.

(** An id is looked up in the index: its first occurrence, or nothing. *)
Lemma getTxIDVal_blocks (t : bytes) (k i : nat) (d : bytes) :
  is_u64 (zlen t) -> first_with_id t k i d ->
  exists info fl b tx, chain !! k = Some (info, fl) /\ blocks !! k = Some b /\ Block_Data b !! i = Some d /\
    located (w_fs (m_world m)) (m_rootDir m) (info, fl) b /\ bii_txOffsets info !! i = Some tx /\
    getTxIDVal (m_index m) (w_db (m_world m)) t = Ret (tx_value info fl i tx).
Proof.
  intros Ht ((b & Hb & Hd) & Hid & Hmin). destruct (chain_block k b Hb) as (info & fl & Hc & Hl).
  pose proof (chain_number _ _ _ _ Hb Hl) as Hn.
  destruct (fetchTx_located info fl b i d Hl Hd) as (tx & Htx & Htid & _).
  assert (Hocc : occurs chain t info fl i tx) by (split; [by eapply list_elem_of_lookup_2|]; by rewrite Htid).
  exists info, fl, b, tx. split_and!; try done.
  pose proof (getTxIDVal_first _ _ _ (mo_all _ _ _ Hm) (mo_db _ _ _ Hm) t Ht) as G.
  destruct (getTxIDVal _ _ t) as [v|e|]; [|destruct G as [_ G]; by destruct (G info fl i tx)|done].
  destruct G as (info' & fl' & i' & tx' & Hocc' & -> & Hmin').
  specialize (Hmin' _ _ _ _ Hocc). destruct (occurs_tx _ _ _ _ _ Hocc') as (k' & b' & d' & Hb' & Hd' & Ht' & Hc' & Hn' & _).
  specialize (Hmin _ _ _ _ Hb' Hd' Ht'). rewrite Hn, Hn' in Hmin'. unfold lex_le in *.
  assert (k = k') as <- by lia. assert (i = i') as <- by lia. rewrite Hc in Hc'. simplify_eq.
  destruct Hocc' as (_ & Hi' & _). rewrite Htx in Hi'. by simplify_eq.
Qed.

Lemma retrieveByTxID_ok (t : bytes) (k i : nat) (d : bytes) :
  is_u64 (zlen t) -> first_with_id t k i d ->
  exists b md fl, blocks !! k = Some b /\ Block_Data b !! i = Some d /\
    retrieveTransactionByID m t = GetEnvelopeFromBlock d /\ retrieveBlockByTxID m t = Ret b /\
    Block_Metadata b = Some md /\ md !! BlockMetadataIndex_TRANSACTIONS_FILTER = Some fl /\
    retrieveTxValidationCodeByTxID m t = Ret (b2z (default Byte.x00 (fl !! i))).
Proof.
  intros Ht Hf. destruct (getTxIDVal_blocks t k i d Ht Hf) as (info & fl & b & tx & Hc & Hb & Hd & Hl & Htx & E).
  pose proof (list_elem_of_lookup_2 _ _ _ Hc) as Hin.
  pose proof Hl as (fn & pre & bs & post & _ & _ & _ & Hok & _). destruct (bo_flags _ _ _ Hok) as (md & Hmd & Hfl).
  exists b, md, fl. destruct (fetchTx_located info fl b i d Hl Hd) as (tx' & Htx' & _ & Hfe).
  rewrite Htx in Htx'. injection Htx' as <-.
  unfold retrieveTransactionByID, retrieveBlockByTxID, retrieveTxValidationCodeByTxID, getTxLoc, getBlockLocByTxID,
    getTxValidationCodeByTxID. rewrite E. cbn [mbind outcome_bind tx_value TxIDIV_TxLocation TxIDIV_BlkLocation
    TxIDIV_TxValidationCode not_available]. unfold flp_unmarshal_checked.
  rewrite !flp_unmarshal_marshal by (eapply tx_flp_wf, Htx || apply (chain_wf _ _ (mo_db _ _ _ Hm) _ _ Hin); try done; apply Hm).
  cbn [not_available mbind outcome_bind]. split_and!; try done. by apply (fetchBlock_located (info, fl)).
Qed.

Lemma retrieveByTxID_none (t : bytes) :
  is_u64 (zlen t) -> (forall k b d i, blocks !! k = Some b -> Block_Data b !! i = Some d -> txid_or_empty d <> t) ->
  retrieveTransactionByID m t = Err ErrNotFoundInIndex /\ retrieveBlockByTxID m t = Err ErrNotFoundInIndex /\
  retrieveTxValidationCodeByTxID m t = Err ErrNotFoundInIndex.
Proof.
  intros Ht Hno. pose proof (getTxIDVal_first _ _ _ (mo_all _ _ _ Hm) (mo_db _ _ _ Hm) t Ht) as G.
  unfold retrieveTransactionByID, retrieveBlockByTxID, retrieveTxValidationCodeByTxID, getTxLoc, getBlockLocByTxID,
    getTxValidationCodeByTxID. destruct (getTxIDVal _ _ t) as [v|e|].
  - destruct G as (info & fl & i & tx & Hocc & _).
    destruct (occurs_tx _ _ _ _ _ Hocc) as (k & b & d & Hb & Hd & Ht' & _). by destruct (Hno k b d i).
  - destruct G as [-> _]. done.
  - done.
Qed.

End Serving.

(** ** Growing files *)

(** Every block file of [fs] is in [fs'], perhaps longer. *)
Definition extends (rootDir : bytes) (fs fs' : Fs) : Prop :=
  forall n c, 0 <= n -> files fs !! deriveBlockfilePath rootDir n = Some c ->
    exists ext, files fs' !! deriveBlockfilePath rootDir n = Some (c ++ ext).

Lemma located_extends (rootDir : bytes) (fs fs' : Fs) (c : blockIdxInfo * bytes) (b : Block) :
  extends rootDir fs fs' -> located fs rootDir c b -> located fs' rootDir c b.
Proof.
  intros He (fn & pre & bs & post & Hfn & Hpre & Hf & Hb & Ei).
  destruct (He fn _ ltac:(lia) Hf) as (ext & Hf'). exists fn, pre, bs, (post ++ ext).
  rewrite Hf', <- !app_assoc. done.
Qed.

Lemma extends_refl (rootDir : bytes) (fs : Fs) : extends rootDir fs fs.
Proof. intros n c _ Hc. exists []. by rewrite app_nil_r. Qed.

Lemma extends_trans (rootDir : bytes) (fs1 fs2 fs3 : Fs) :
  extends rootDir fs1 fs2 -> extends rootDir fs2 fs3 -> extends rootDir fs1 fs3.
Proof.
  intros H12 H23 n c Hn Hc. destruct (H12 n c Hn Hc) as (e1 & H1). destruct (H23 n _ Hn H1) as (e2 & H2).
  exists (e1 ++ e2). by rewrite app_assoc.
Qed.

Lemma extends_set (rootDir path content ext : bytes) (fs : Fs) :
  files fs !! path = Some content -> extends rootDir fs (set_file path (content ++ ext) fs).
Proof.
  intros Hp n c _ Hc. destruct (decide (path = deriveBlockfilePath rootDir n)) as [->|Hne].
  - exists ext. rewrite lookup_set_file. congruence.
  - exists []. by rewrite lookup_set_file_ne, app_nil_r.
Qed.

Lemma extends_unused (rootDir path : bytes) (fs : Fs) :
  unused path fs -> extends rootDir fs (set_file path [] fs).
Proof.
  intros Hp n c _ Hc. exists []. rewrite app_nil_r. destruct (decide (path = deriveBlockfilePath rootDir n)) as [->|].
  - rewrite lookup_set_file. destruct Hp; congruence.
  - by rewrite lookup_set_file_ne.
Qed.

Lemma unused_content (path : bytes) (fs : Fs) : unused path fs -> file_content path fs = [].
Proof. intros [H|H]; [by apply file_content_None|by rewrite (file_content_Some _ _ _ H)]. Qed.

Lemma can_create_dir (path : bytes) (fs : Fs) :
  path ∉ dirs fs -> dirname path ∈ dirs fs -> can_create path fs = true.
Proof. intros Hn Hd. unfold can_create. by rewrite bool_decide_eq_false_2, (bool_decide_eq_true_2 (dirname path ∈ dirs fs)), orb_true_r. Qed.

Lemma extends_other (rootDir path content : bytes) (fs : Fs) :
  (forall n, 0 <= n -> deriveBlockfilePath rootDir n <> path) -> extends rootDir fs (set_file path content fs).
Proof.
  intros Hp n c Hn Hc. exists []. rewrite app_nil_r, lookup_set_file_ne; [done|]. by apply not_eq_sym, Hp.
Qed.

(** ** The manager's key is not an index key *)

Lemma index_ok_mgrkey (db : kvmap) (chain : list (blockIdxInfo * bytes)) (v : bytes) :
  index_ok db chain -> index_ok (<[blkMgrInfoKey := v]> db) chain.
Proof.
  intros [H1 H2 H3 H4 H5 H6 H7 H8]. constructor; try done.
  - intros info fl Hin. rewrite lookup_insert_ne by discriminate. eauto.
  - intros n Hn Hall. rewrite lookup_insert_ne by discriminate. eauto.
  - intros info fl i tx Hin Hi. rewrite lookup_insert_ne by discriminate. eauto.
  - intros info fl i tx Hin Hi. rewrite lookup_insert_ne by discriminate. eauto.
  - intros k Hk. rewrite lookup_insert_ne in Hk by discriminate. eauto.
  - intros info fl Hin Hu. rewrite lookup_insert_ne by discriminate. eauto.
  - unfold getLastBlockIndexed. rewrite lookup_insert_ne by discriminate. exact H8.
Qed.

(** ** Starting the next file *)

#[local] Opaque blockfilesInfo_marshal deriveBlockfilePath EncodeVarint BlockHeaderHash blkMgrInfoKey
  blockinfo_path dirname.

(** The manager after [moveToNextFile]. *)
Definition moved (m : blockfileMgr) : blockfileMgr :=
  let info := mkblockfilesInfo (latestFileNumber (m_info m) + 1) 0 false (lastPersistedBlock (m_info m)) in
  let path := deriveBlockfilePath (m_rootDir m) (latestFileNumber info) in
  set_info info (set_writer path (set_world (mkWorld (set_file path [] (w_fs (m_world m)))
    (<[blkMgrInfoKey := blockfilesInfo_marshal info]> (w_db (m_world m))) []) m)).

Lemma moveToNextFile_eq (m : blockfileMgr) (blocks : list Block) (chain : list (blockIdxInfo * bytes)) :
  mgr_ok m blocks chain -> w_faults (m_world m) = [] -> moveToNextFile m = (Ret tt, moved m).
Proof.
  intros Hm Hw. pose proof (mo_file _ _ _ Hm) as Hf. pose proof (mo_dirs _ _ _ Hm) as [Hd Hnd].
  pose proof (mo_next _ _ _ Hm) as Hnext.
  destruct m as [root mx idx info bsi wr bc [fs db faults]]. cbn in *. subst faults.
  set (n := latestFileNumber info + 1) in *. set (path := deriveBlockfilePath root n).
  assert (Hp : unused path fs) by (apply Hnext; unfold n; lia).
  assert (Hcan : can_create path fs = true).
  { apply can_create_dir; [apply Hnd; unfold n; lia|]. unfold path. by rewrite dirname_blockfile by (unfold n; lia). }
  unfold moveToNextFile, mbind, M_bind, get_state, or_panic, in_world, newBlockfileWriter.
  cbn [m_rootDir m_info latestFileNumber m_world w_fs]. fold n. fold path. rewrite Hcan. cbn [next_fault w_faults w_fs].
  rewrite (unused_content _ _ Hp). unfold saveBlkfilesInfo, db_Put, moved. cbn. done.
Qed.

Lemma moved_ok (m : blockfileMgr) (blocks : list Block) (chain : list (blockIdxInfo * bytes)) :
  mgr_ok m blocks chain -> latestFileNumber (m_info m) + 1 < 2 ^ 61 -> mgr_ok (moved m) blocks chain.
Proof.
  intros Hm Hlt. pose proof (mo_file _ _ _ Hm) as Hf. pose proof (mo_next _ _ _ Hm) as Hnext.
  destruct m as [root mx idx info bsi wr bc [fs db faults]]. unfold moved. cbn in *.
  set (n := latestFileNumber info + 1) in *.
  destruct Hm as [G1 G2 G3 G4 G5 G6 G7 G8 G9 G10 G11 G12]. cbn in *. constructor; cbn; try done.
  - by apply index_ok_mgrkey.
  - eapply Forall2_impl; [exact G4|]. intros c b. apply located_extends. apply extends_unused, Hnext. unfold n. lia.
  - fold n. lia.
  - exists []. split; [apply lookup_insert_eq|done].
  - intros k Hk. unfold unused. cbn. rewrite lookup_insert_ne; [apply G11; unfold n in Hk; lia|].
    intros E. apply deriveBlockfilePath_inj in E; unfold n in *; lia.
Qed.

(** The manager whose current file takes the next frame. *)
Definition room (bs : bytes) (m : blockfileMgr) : blockfileMgr :=
  if m_maxBlockfileSize m <? latestFileSize (m_info m) + zlen (enc_raw bs) then moved m else m.

Lemma room_ok (m : blockfileMgr) (blocks : list Block) (chain : list (blockIdxInfo * bytes)) (bs : bytes) :
  mgr_ok m blocks chain -> latestFileNumber (m_info m) + 1 < 2 ^ 61 -> mgr_ok (room bs m) blocks chain.
Proof. intros Hm Hlt. unfold room. destruct (_ <? _); [by apply moved_ok|done]. Qed.

(** ** Appending a frame *)

(** The summary once the frame of [b] is in the current file. *)
Definition next_info (b : Block) (bs : bytes) (m : blockfileMgr) : blockfilesInfo :=
  mkblockfilesInfo (latestFileNumber (m_info m)) (latestFileSize (m_info m) + zlen (enc_raw bs)) false
    (Number (Block_Header b)).

(** The manager with the frame in the file and the new summary in the database. *)
Definition appended (b : Block) (bs : bytes) (m : blockfileMgr) : blockfileMgr :=
  set_world (mkWorld (set_file (m_writer m) (file_content (m_writer m) (w_fs (m_world m)) ++ enc_raw bs) (w_fs (m_world m)))
    (<[blkMgrInfoKey := blockfilesInfo_marshal (next_info b bs m)]> (w_db (m_world m))) []) m.

(** The transaction places, relative to the start of the frame. *)
Definition frame_locs (b : Block) (bs : bytes) : list txindexInfo :=
  (fun t => mktxindexInfo (txi_txID t)
     (mklocPointer (loc_offset (txi_loc t) + zlen (EncodeVarint (u64 (zlen bs)))) (loc_bytesLength (txi_loc t))))
  <$> tx_locs (data_offset (Block_Header b) (Block_Data b)) (Block_Data b).

Lemma frame_total (bs : bytes) : zlen bs + zlen (EncodeVarint (u64 (zlen bs))) = zlen (enc_raw bs).
Proof. unfold enc_raw. rewrite zlen_app. lia. Qed.

Lemma append_frame_ok (m : blockfileMgr) (b : Block) (bs content : bytes) (info : serializedBlockInfo) (off : Z) :
  w_faults (m_world m) = [] -> files (w_fs (m_world m)) !! m_writer m = Some content ->
  serializeBlock b = Ret (bs, info) ->
  append_frame b bs info off m =
    (Ret (next_info b bs m, mkfileLocPointer (latestFileNumber (m_info m)) (mklocPointer off 0), frame_locs b bs),
     appended b bs m).
Proof.
  intros Hw Hc Hs. unfold appended. rewrite (file_content_Some _ _ _ Hc).
  assert (Hx : sbi_txOffsets info = tx_locs (data_offset (Block_Header b) (Block_Data b)) (Block_Data b))
    by (by apply serializeBlock_inv in Hs as (h & data & md & -> & -> & ->)).
  destruct (m_world m) as [fs db faults] eqn:Ew. cbn [w_fs w_db w_faults] in *. subst faults.
  unfold append_frame, mbind, M_bind, get_state, try, in_world. rewrite Ew, Hx, frame_total.
  rewrite (append_no_fault _ _ _ _ content) by done. cbn [m_world set_world].
  rewrite (append_no_fault _ _ _ _ (content ++ EncodeVarint (u64 (zlen bs)))) by apply lookup_set_file.
  cbn [m_world set_world]. rewrite set_file_twice, <- app_assoc.
  unfold saveBlkfilesInfo, db_Put. cbn [next_fault w_faults w_fs w_db]. done.
Qed.

Lemma append_block_ok (m : blockfileMgr) (blocks : list Block) (chain : list (blockIdxInfo * bytes))
    (b : Block) (bs : bytes) (info : serializedBlockInfo) :
  mgr_ok m blocks chain -> w_faults (m_world m) = [] -> serializeBlock b = Ret (bs, info) ->
  latestFileNumber (m_info m) + 1 < 2 ^ 61 ->
  let m0 := room bs m in
  append_block b m =
    (Ret (next_info b bs m0, mkfileLocPointer (latestFileNumber (m_info m0)) (mklocPointer (latestFileSize (m_info m0)) 0),
       frame_locs b bs), appended b bs m0).
Proof.
  intros Hm Hw Hs Hn m0. pose proof (room_ok m blocks chain bs Hm Hn) as Hm0. fold m0 in Hm0.
  destruct (mo_content _ _ _ Hm0) as (content & Hc & Hlen).
  assert (E : append_block b m = append_frame b bs info (latestFileSize (m_info m0)) m0).
  { unfold append_block, mbind, M_bind, lift_outcome, get_state.
    change (SerializeBlock b) with (serializeBlock b). rewrite Hs, frame_total. unfold m0, room.
    destruct (m_maxBlockfileSize m <? _); [|done]. by rewrite (moveToNextFile_eq m blocks chain). }
  assert (Hw0 : w_faults (m_world m0) = []) by (unfold m0, room; by destruct (_ <? _)).
  rewrite E. by apply append_frame_ok with content.
Qed.

(** ** Adding an ordinary block *)

Definition cert_ops : list bytes :=
  [ChangeCert; CreatCert; Creatdelhashtimelock; CreatTimeHashlock; ExeTimeHashlock; ExedelTimeHashlock; DelCert].

(** The first transaction does not invoke one of the certificate operations. *)
Definition ordinary (b : Block) : Prop :=
  exists args, or_nil (ValidateAnalysis b) = Ret args /\ forall op, head args = Some op -> op ∉ cert_ops.

Lemma redact_ordinary (b : Block) (k : Z) (m : blockfileMgr) : ordinary b -> redact b k m = (Ret b, m).
Proof.
  intros (args & Ha & Hop). unfold redact, mbind, M_bind, lift_outcome. rewrite Ha.
  unfold in_world, get_fs. destruct m as [root mx idx info bsi wr bc w].
  cbn [m_world set_world m_rootDir m_maxBlockfileSize m_index m_info m_bsi m_writer m_bcInfo].
  rewrite (bool_decide_eq_false_2 (head args = Some ChangeCert)); [by rewrite andb_false_r|].
  intros E. apply (Hop _ E). unfold cert_ops. set_solver.
Qed.

Lemma record_cert_ordinary (args : list bytes) (num : bytes) (fs : Fs) :
  (forall op, head args = Some op -> op ∉ cert_ops) -> record_cert args num fs = (Ret tt, fs).
Proof.
  intros Hop. destruct args as [|op args]; [done|]. specialize (Hop op eq_refl). unfold cert_ops in Hop.
  unfold record_cert. rewrite !bool_decide_eq_false_2 by (intros ->; set_solver). done.
Qed.

(** Where the text file can be written. *)
Definition var_ok (fs : Fs) : Prop := str "/var" ∈ dirs fs /\ blockinfo_path ∉ dirs fs.

Lemma dirname_blockinfo : dirname blockinfo_path = str "/var".
Proof. vm_compute. reflexivity. Qed.

Lemma var_ok_create (fs : Fs) : var_ok fs -> can_create blockinfo_path fs = true.
Proof.
  intros [Hv Hn]. unfold can_create. rewrite bool_decide_eq_false_2, dirname_blockinfo by done.
  rewrite (bool_decide_eq_true_2 (str "/var" ∈ dirs fs)) by done. by rewrite orb_true_r.
Qed.

(** The chain's block numbers are below the number of blocks. *)
Lemma chain_numbers (m : blockfileMgr) (blocks : list Block) (chain : list (blockIdxInfo * bytes))
    (info : blockIdxInfo) (fl : bytes) :
  mgr_ok m blocks chain -> (info, fl) ∈ chain -> bii_blockNum info < zlen blocks.
Proof.
  intros Hm Hin. apply list_elem_of_lookup in Hin as [k Hk].
  destruct (Forall2_lookup_l _ _ _ _ _ (mo_loc _ _ _ Hm) Hk) as (b & Hb & (fn & pre & bs & post & _ & _ & _ & _ & Ei)).
  cbn [fst] in Ei. subst info. cbn [block_idx bii_blockNum]. rewrite (mo_num _ _ _ Hm k b Hb).
  apply lookup_lt_Some in Hb. unfold zlen. lia.
Qed.

(** ** The whole of [addBlock] *)

(** The manager after [addBlock], from the one whose file takes the frame. *)
Definition added (b : Block) (bs fl : bytes) (m : blockfileMgr) : blockfileMgr :=
  let m1 := appended b bs m in
  let idx := block_idx (latestFileNumber (m_info m)) (latestFileSize (m_info m)) b bs in
  let line := FormatUint (Number (Block_Header b)) ++ plusplus ++ Itoa (latestFileSize (m_info m)) ++ crlf in
  updateBlockchainInfo (BlockHeaderHash (Block_Header b)) b (set_info (next_info b bs m)
    (set_world (mkWorld (append_file blockinfo_path line (w_fs (m_world m1)))
       (DB_WriteBatch (full_batch idx fl) (w_db (m_world m1))) []) m1)).

Lemma record_blockinfo_ok (b : Block) (off : Z) (fs : Fs) :
  var_ok fs ->
  record_blockinfo b off fs =
    (Ret tt, append_file blockinfo_path (FormatUint (Number (Block_Header b)) ++ plusplus ++ Itoa off ++ crlf) fs).
Proof. intros Hv. unfold record_blockinfo, append_or_panic. by rewrite var_ok_create. Qed.

(** The block can be the next one of the chain. *)
Record next_block (m : blockfileMgr) (b : Block) (bs fl : bytes) : Prop := {
  nb_faults : w_faults (m_world m) = [];
  nb_var : var_ok (w_fs (m_world m));
  nb_ok : block_ok b bs fl;
  nb_ordinary : ordinary b;
  nb_num : Number (Block_Header b) = Height (m_bcInfo m);
  nb_max : Height (m_bcInfo m) + 2 < 2 ^ 64;
  nb_prev : PreviousHash (Block_Header b) = CurrentBlockHash (m_bcInfo m);
  nb_file : latestFileNumber (m_info m) + 1 < 2 ^ 61;
  nb_size : latestFileSize (m_info m) < 2 ^ 61 }.

Lemma room_keeps (m : blockfileMgr) (bs : bytes) :
  m_index (room bs m) = m_index m /\ m_bcInfo (room bs m) = m_bcInfo m /\ m_rootDir (room bs m) = m_rootDir m /\
  m_maxBlockfileSize (room bs m) = m_maxBlockfileSize m /\
  dirs (w_fs (m_world (room bs m))) = dirs (w_fs (m_world m)) /\
  latestFileSize (m_info (room bs m)) <= Z.max 0 (latestFileSize (m_info m)).
Proof. unfold room. destruct (_ <? _); cbn; split_and!; try done; lia. Qed.

Lemma addBlock_eq (m : blockfileMgr) (blocks : list Block) (chain : list (blockIdxInfo * bytes))
    (b : Block) (bs fl : bytes) (k : Z) :
  mgr_ok m blocks chain -> next_block m b bs fl -> addBlock b k m = (Ret b, added b bs fl (room bs m)).
Proof.
  intros Hm [Hw Hv Hb Hord Hnum Hmax Hprev Hfn Hfs].
  pose proof (bo_ser _ _ _ Hb) as ((sinfo & Hs) & _).
  destruct (room_keeps m bs) as (Ri & Rb & Rr & _ & Rd & Rs). pose proof (room_ok m blocks chain bs Hm Hfn) as Hm0.
  unfold addBlock, mbind, M_bind, get_state. rewrite Hnum, Z.eqb_refl. cbn [negb].
  rewrite redact_ordinary by done. rewrite Hprev, bool_decide_eq_true_2 by done. cbn [negb].
  rewrite (append_block_ok m blocks chain b bs sinfo) by done. set (m0 := room bs m) in *. clearbody m0.
  destruct (mo_content _ _ _ Hm0) as (content & Hc & Hlen). pose proof (mo_file _ _ _ Hm0).
  unfold in_world, on_text, on_fs, flp_offset. cbn [flp_loc loc_offset].
  change (w_faults (m_world (appended b bs m0))) with (@nil (option fault)). cbn beta iota.
  rewrite record_blockinfo_ok
    by (unfold var_ok in *; unfold appended; cbn [m_world set_world w_fs set_file dirs]; by rewrite Rd).
  pose proof Hord as (args & Ha & Hop). unfold lift_outcome. rewrite Ha.
  cbn [m_world set_world w_fs set_fs w_faults appended]. rewrite record_cert_ordinary by done.
  unfold added, appended, set_fs, set_world. cbn [w_db w_faults w_fs m_world].
  change (mkblockIdxInfo _ _ _ _ _) with
    (block_idx (latestFileNumber (m_info m0)) (latestFileSize (m_info m0)) b bs).
  rewrite (indexBlock_ok _ _ fl); [done|by apply Hm|]. apply block_idx_wf; [done|lia|].
  rewrite <- Hlen. pose proof (zlen_nonneg content). lia.
Qed.

(** [added] keeps the invariant. *)
Lemma added_ok (m : blockfileMgr) (blocks : list Block) (chain : list (blockIdxInfo * bytes)) (b : Block) (bs fl : bytes) :
  mgr_ok m blocks chain -> var_ok (w_fs (m_world m)) -> block_ok b bs fl -> latestFileSize (m_info m) < 2 ^ 62 ->
  Number (Block_Header b) = zlen blocks -> zlen blocks + 1 < 2 ^ 64 ->
  mgr_ok (added b bs fl m) (blocks ++ [b])
    (chain ++ [(block_idx (latestFileNumber (m_info m)) (latestFileSize (m_info m)) b bs, fl)]).
Proof.
  intros Hm Hv Hb Hlen Hnum Hmax. pose proof (mo_file _ _ _ Hm) as Hfile. pose proof (mo_writer _ _ _ Hm) as Hwr.
  destruct (mo_content _ _ _ Hm) as (content & Hc & Hsz). pose proof (zlen_nonneg content) as Hpos.
  set (info := block_idx _ _ b bs). set (line := FormatUint (Number (Block_Header b)) ++ plusplus ++
    Itoa (latestFileSize (m_info m)) ++ crlf).
  set (fs1 := set_file (m_writer m) (content ++ enc_raw bs) (w_fs (m_world m))).
  assert (Efs : w_fs (m_world (added b bs fl m)) =
    set_file blockinfo_path (file_content blockinfo_path fs1 ++ line) fs1).
  { unfold added, appended. cbn. rewrite (file_content_Some _ _ _ Hc). fold fs1. unfold append_file.
    by rewrite var_ok_create. }
  assert (Hne : forall n, 0 <= n -> deriveBlockfilePath (m_rootDir m) n <> blockinfo_path)
    by (intros; by apply blockinfo_not_blockfile).
  assert (Hext : extends (m_rootDir m) (w_fs (m_world m)) (w_fs (m_world (added b bs fl m)))).
  { rewrite Efs. eapply extends_trans; [by apply extends_set|]. by apply extends_other. }
  assert (Hnew : files (w_fs (m_world (added b bs fl m))) !! m_writer m = Some (content ++ enc_raw bs)).
  { rewrite Efs, lookup_set_file_ne by (rewrite Hwr; apply not_eq_sym, Hne; lia). apply lookup_set_file. }
  constructor.
  - apply Hm.
  - apply Hm.
  - unfold added. cbn [updateBlockchainInfo set_info set_world set_bcInfo m_world w_db appended].
    apply index_ok_snoc; [by apply index_ok_mgrkey, Hm| |].
    + apply block_idx_wf; [done|lia|]. rewrite <- Hsz. lia.
    + intros info' fl' Hin. pose proof (chain_numbers _ _ _ _ _ Hm Hin).
      unfold info. cbn [block_idx bii_blockNum]. lia.
  - change (m_rootDir (added b bs fl m)) with (m_rootDir m). apply Forall2_app.
    + eapply Forall2_impl; [apply Hm|]. intros x y. by apply located_extends.
    + constructor; [|done]. exists (latestFileNumber (m_info m)), content, bs, [].
      rewrite app_nil_r, <- Hwr, Hsz. split_and!; try done; lia.
  - intros k x Hk. apply lookup_app_Some in Hk as [Hk|[Hk1 Hk2]]; [by apply (mo_num _ _ _ Hm)|].
    apply list_lookup_singleton_Some in Hk2 as [Hk2 <-]. rewrite Hnum. unfold zlen. lia.
  - change (Height (m_bcInfo (added b bs fl m))) with (u64 (Height (m_bcInfo m) + 1)).
    rewrite (mo_height _ _ _ Hm), zlen_app. change (zlen [b]) with 1. apply u64_id.
    pose proof (zlen_nonneg blocks). unfold is_u64. lia.
  - by rewrite last_snoc.
  - done.
  - done.
  - exists (content ++ enc_raw bs). split; [exact Hnew|].
    change (latestFileSize (m_info (added b bs fl m))) with (latestFileSize (m_info m) + zlen (enc_raw bs)).
    by rewrite zlen_app, Hsz.
  - intros n Hn. change (latestFileNumber (m_info (added b bs fl m))) with (latestFileNumber (m_info m)) in Hn.
    change (m_rootDir (added b bs fl m)) with (m_rootDir m).
    unfold unused. rewrite Efs, lookup_set_file_ne by (apply not_eq_sym, Hne; lia). unfold fs1.
    rewrite lookup_set_file_ne; [by apply Hm|]. rewrite Hwr. intros E. apply deriveBlockfilePath_inj in E; lia.
  - change (m_rootDir (added b bs fl m)) with (m_rootDir m). rewrite Efs. apply Hm.
Qed.

(** A successful [addBlock] extends the chain by the block. *)
Lemma addBlock_extends (m : blockfileMgr) (blocks : list Block) (chain : list (blockIdxInfo * bytes))
    (b : Block) (bs fl : bytes) (k : Z) :
  mgr_ok m blocks chain -> next_block m b bs fl ->
  let m0 := room bs m in
  addBlock b k m = (Ret b, added b bs fl m0) /\
  mgr_ok (added b bs fl m0) (blocks ++ [b])
    (chain ++ [(block_idx (latestFileNumber (m_info m0)) (latestFileSize (m_info m0)) b bs, fl)]).
Proof.
  intros Hm Hn m0. split; [by eapply addBlock_eq|]. destruct (room_keeps m bs) as (_ & _ & _ & _ & Rd & Rs).
  destruct Hn as [Hw Hv Hb Hord Hnum Hmax Hprev Hfn Hfs]. pose proof (mo_height _ _ _ Hm).
  apply added_ok; try done; [by apply room_ok| | |lia|lia].
  - unfold var_ok, m0 in *. by rewrite Rd.
  - unfold m0. lia.
Qed.

End Invariant.
