(* ===== verification/BlockfileMgrRecover.v ===== *)
(** * Recovery of a block store

    What [newBlockfileMgr] (src/common/ledger/blkstorage/blockfile_mgr.go) makes
    of a ledger directory in which an append, the save of the summary or the
    update of the index was cut short: the blocks that were completely written
    are all served again, and the torn rest of the last file is cut off. *)

From Stdlib Require Import ZifyNat.
From S2P Require Import Prelude Varint OrderedCode Sha256 GoBig GoOS LevelDB Storage Proto Block.
From S2P Require Import BlockSerialization BlockStream BlockIndex Redaction BlockfileMgr.
From S2P Require Import BlockfileMgrOk.

(** ** The summary's encoding *)

Lemma decode_at (full pre post : bytes) (x : Z) (n : nat) :
  is_u64 x -> full = pre ++ EncodeVarint x ++ post -> n = length pre ->
  Buffer_DecodeVarint (mkBuffer full n) = Ret (x, mkBuffer full (length (pre ++ EncodeVarint x))).
Proof. intros Hx -> ->. rewrite length_app. by apply Buffer_DecodeVarint_encode. Qed.

Definition info_wf (i : blockfilesInfo) : Prop :=
  is_i64 (latestFileNumber i) /\ is_i64 (latestFileSize i) /\ is_u64 (lastPersistedBlock i).

Lemma blockfilesInfo_unmarshal_marshal (i : blockfilesInfo) :
  info_wf i -> blockfilesInfo_unmarshal (blockfilesInfo_marshal i) = Ret i.
Proof.
  intros (H1 & H2 & H3). destruct i as [fn sz nb lp]. cbn [latestFileNumber latestFileSize lastPersistedBlock] in *.
  unfold blockfilesInfo_marshal, blockfilesInfo_unmarshal, NewBuffer. rewrite !Buffer_EncodeVarint_eq.
  cbn [buf latestFileNumber latestFileSize lastPersistedBlock noBlockFiles].
  assert (Hm : is_u64 (if nb then 1 else 0)) by (destruct nb; unfold is_u64; lia).
  set (a := u64 fn). set (c := u64 sz). set (d := if nb then 1 else 0).
  set (full := ((([] ++ EncodeVarint a) ++ EncodeVarint c) ++ EncodeVarint lp) ++ EncodeVarint d).
  rewrite (decode_at full [] (EncodeVarint c ++ EncodeVarint lp ++ EncodeVarint d) a);
    [|apply u64_is_u64|unfold full; by rewrite <- !app_assoc|done]. cbn [mbind outcome_bind].
  rewrite (decode_at full ([] ++ EncodeVarint a) (EncodeVarint lp ++ EncodeVarint d) c);
    [|apply u64_is_u64|unfold full; by rewrite <- !app_assoc|done]. cbn [mbind outcome_bind].
  rewrite (decode_at full (([] ++ EncodeVarint a) ++ EncodeVarint c) (EncodeVarint d) lp);
    [|done|unfold full; by rewrite <- !app_assoc|done]. cbn [mbind outcome_bind].
  rewrite (decode_at full ((([] ++ EncodeVarint a) ++ EncodeVarint c) ++ EncodeVarint lp) [] d);
    [|done|unfold full; by rewrite app_nil_r|done]. cbn [mbind outcome_bind].
  unfold a, c, d. rewrite !i64_u64 by done. by destruct nb.
Qed.

(** ** The layout of the block files *)

Section Recovery.
Context {PR : Protos} {PK : ProtosOk}.

(** A stored block, its bytes and the flags of its transactions. *)
Record entry := mkentry { e_block : Block; e_bytes : bytes; e_flags : bytes }.

Definition entry_ok (e : entry) : Prop := block_ok (e_block e) (e_bytes e) (e_flags e).

(** The frames of a file. *)
Definition frames (es : list entry) : bytes := enc_raws (e_bytes <$> es).

(** The index entries of the blocks of a file, from an offset on. *)
Fixpoint file_idx (fileNum off : Z) (es : list entry) : list (blockIdxInfo * bytes) :=
  match es with
  | [] => []
  | e :: es' => (block_idx fileNum off (e_block e) (e_bytes e), e_flags e)
                  :: file_idx fileNum (off + zlen (enc_raw (e_bytes e))) es'
  end.

(** The files [n], [n + 1], ... hold [chunks]. *)
Fixpoint chain_from (n : Z) (chunks : list (list entry)) : list (blockIdxInfo * bytes) :=
  match chunks with
  | [] => []
  | es :: chunks' => file_idx n 0 es ++ chain_from (n + 1) chunks'
  end.

Definition chain_of (chunks : list (list entry)) : list (blockIdxInfo * bytes) := chain_from 0 chunks.
Definition blocks_of (chunks : list (list entry)) : list Block := e_block <$> mjoin chunks.

(** The summary of a directory. *)
Definition summary (chunks : list (list entry)) : blockfilesInfo :=
  mkblockfilesInfo (zlen chunks - 1) (zlen (frames (default [] (last chunks))))
    (bool_decide (mjoin chunks = [])) (Z.max 0 (zlen (mjoin chunks) - 1)).

Lemma frames_app (es1 es2 : list entry) : frames (es1 ++ es2) = frames es1 ++ frames es2.
Proof.
  unfold frames. rewrite fmap_app. induction (e_bytes <$> es1) as [|b l IH]; [done|].
  cbn [app]. by rewrite !enc_raws_cons, IH, app_assoc.
Qed.

Lemma file_idx_app (fileNum off : Z) (es1 es2 : list entry) :
  file_idx fileNum off (es1 ++ es2) = file_idx fileNum off es1 ++ file_idx fileNum (off + zlen (frames es1)) es2.
Proof.
  revert off. induction es1 as [|e es1 IH]; intros off; [by rewrite Z.add_0_r|].
  cbn [app file_idx]. rewrite IH. do 3 f_equal. change (e :: es1) with ([e] ++ es1).
  rewrite frames_app, zlen_app. unfold frames at 2. cbn [fmap list_fmap].
  rewrite enc_raws_cons, app_nil_r. lia.
Qed.

Lemma chain_from_app (n : Z) (cs1 cs2 : list (list entry)) :
  chain_from n (cs1 ++ cs2) = chain_from n cs1 ++ chain_from (n + zlen cs1) cs2.
Proof.
  revert n. induction cs1 as [|c cs1 IH]; intros n; [by rewrite Z.add_0_r|].
  cbn [app chain_from]. rewrite IH, app_assoc, zlen_cons. do 2 f_equal. lia.
Qed.

Lemma file_idx_length (fileNum off : Z) (es : list entry) : length (file_idx fileNum off es) = length es.
Proof. revert off. induction es as [|e es IH]; intros off; [done|]. cbn [file_idx length]. by rewrite IH. Qed.

Lemma chain_from_length (n : Z) (chunks : list (list entry)) : length (chain_from n chunks) = length (mjoin chunks).
Proof.
  revert n. induction chunks as [|c cs IH]; intros n; [done|]. cbn [chain_from mjoin list_join].
  by rewrite !length_app, file_idx_length, IH.
Qed.

Lemma summary_snoc (cs : list (list entry)) (c : list entry) :
  summary (cs ++ [c]) = mkblockfilesInfo (zlen cs) (zlen (frames c)) (bool_decide (mjoin cs ++ c = []))
    (Z.max 0 (zlen (mjoin cs) + zlen c - 1)).
Proof.
  unfold summary. rewrite last_snoc, zlen_app, join_app. change (mjoin [c]) with (c ++ []).
  change (zlen [c]) with 1. rewrite app_nil_r, zlen_app. f_equal. lia.
Qed.

(** ** The directory *)

(** The files hold [chunks] and the last one has [tail] after its frames. *)
Record disk_ok (fs : Fs) (rootDir : bytes) (chunks : list (list entry)) (tail : bytes) : Prop := {
  dk_last : chunks <> [] /\ zlen chunks < 2 ^ 61;
  dk_files : forall i es, chunks !! i = Some es ->
    files fs !! deriveBlockfilePath rootDir (Z.of_nat i) =
      Some (frames es ++ if bool_decide (S i = length chunks) then tail else []);
  dk_tail : torn tail;
  dk_after : forall n, zlen chunks <= n -> unused (deriveBlockfilePath rootDir n) fs;
  dk_first : mjoin chunks = [] -> zlen chunks = 1;
  dk_head : mjoin chunks <> [] -> head chunks <> Some [];
  dk_entries : Forall (Forall entry_ok) chunks;
  dk_sizes : Forall (fun es => zlen (frames es) < 2 ^ 62) chunks;
  dk_numbers : forall k b, blocks_of chunks !! k = Some b -> Number (Block_Header b) = Z.of_nat k;
  dk_max : zlen (mjoin chunks) + 1 < 2 ^ 64;
  dk_dirs : rootDir ∈ dirs fs /\ forall n, 0 <= n -> deriveBlockfilePath rootDir n ∉ dirs fs;
  dk_bsi : files fs !! (rootDir ++ str "/" ++ bootstrappingSnapshotInfoFile) = None }.

(** ** Every stored block is where its index entry says *)

Lemma file_located (fs : Fs) (rootDir : bytes) (n : Z) (es : list entry) :
  forall pre post,
  files fs !! deriveBlockfilePath rootDir n = Some (pre ++ frames es ++ post) ->
  0 <= n < 2 ^ 62 -> Forall entry_ok es -> zlen (pre ++ frames es) < 2 ^ 62 ->
  Forall2 (located fs rootDir) (file_idx n (zlen pre) es) (e_block <$> es).
Proof.
  induction es as [|e es IH]; intros pre post Hf Hn Hes Hsz; [constructor|].
  inversion Hes as [|? ? He Hes']; subst. change (e :: es) with ([e] ++ es) in Hf, Hsz.
  rewrite frames_app in Hf, Hsz. rewrite !zlen_app in Hsz.
  assert (Ee : frames [e] = enc_raw (e_bytes e)) by (unfold frames; cbn [fmap list_fmap]; by rewrite enc_raws_cons, app_nil_r).
  rewrite Ee in Hf, Hsz. pose proof (zlen_nonneg (frames es)). pose proof (zlen_nonneg (enc_raw (e_bytes e))).
  cbn [file_idx fmap list_fmap]. constructor.
  - exists n, pre, (e_bytes e), (frames es ++ post). cbn [fst snd]. rewrite Hf, <- app_assoc.
    split_and!; try done; lia.
  - rewrite <- zlen_app. apply (IH (pre ++ enc_raw (e_bytes e)) post); try done.
    + by rewrite Hf, <- !app_assoc.
    + rewrite !zlen_app. lia.
Qed.

Lemma chain_located (fs : Fs) (rootDir : bytes) (chunks : list (list entry)) :
  forall n, 0 <= n -> n + zlen chunks < 2 ^ 62 ->
  (forall i es, chunks !! i = Some es ->
     exists post, files fs !! deriveBlockfilePath rootDir (n + Z.of_nat i) = Some (frames es ++ post)) ->
  Forall (Forall entry_ok) chunks -> Forall (fun es => zlen (frames es) < 2 ^ 62) chunks ->
  Forall2 (located fs rootDir) (chain_from n chunks) (blocks_of chunks).
Proof.
  induction chunks as [|es chunks IH]; intros n Hn Hmax Hf Hes Hsz; [constructor|].
  inversion Hes as [|? ? He Hes']; subst. inversion Hsz as [|? ? Hz Hsz']; subst.
  rewrite zlen_cons in Hmax. pose proof (zlen_nonneg chunks).
  unfold blocks_of. cbn [chain_from mjoin list_join]. rewrite fmap_app. apply Forall2_app.
  - destruct (Hf 0%nat es eq_refl) as (post & Hp). rewrite Z.add_0_r in Hp.
    apply (file_located fs rootDir n es [] post); try done. lia.
  - apply IH; try done; [lia..|]. intros i c Hi. destruct (Hf (S i) c Hi) as (post & Hp).
    exists post. by replace (n + 1 + Z.of_nat i) with (n + Z.of_nat (S i)) by lia.
Qed.

Lemma disk_located (fs : Fs) (rootDir : bytes) (chunks : list (list entry)) (tail : bytes) :
  disk_ok fs rootDir chunks tail -> Forall2 (located fs rootDir) (chain_of chunks) (blocks_of chunks).
Proof.
  intros Hd. destruct (dk_last _ _ _ _ Hd) as [_ Hl]. apply chain_located; try apply Hd; try lia.
  intros i es Hi. eexists. by apply (dk_files _ _ _ _ Hd).
Qed.

(** ** Bringing the summary up to date *)

Lemma torn_nil : torn [].
Proof.
  exists [], (enc_raw []). split; [by unfold frame_ok; rewrite zlen_nil|]. split; [|done].
  intros E. pose proof (enc_raw_nonempty []) as L. rewrite E in L. simpl in L. lia.
Qed.

Lemma entries_frames (es : list entry) : Forall entry_ok es -> Forall frame_ok (e_bytes <$> es).
Proof. intros H. apply Forall_fmap. eapply Forall_impl; [exact H|]. intros e He. apply He. Qed.

(** A summary that is behind the file (the crash came before its save) is caught
    up to the complete frames of the file. *)
Lemma syncBlockfilesInfo_ok (fs : Fs) (rootDir : bytes) (cs : list (list entry)) (c1 c2 : list entry) (tail : bytes) :
  disk_ok fs rootDir (cs ++ [c1 ++ c2]) tail ->
  syncBlockfilesInfoFromFS fs rootDir (summary (cs ++ [c1])) = Ret (summary (cs ++ [c1 ++ c2])).
Proof.
  intros Hd. unfold syncBlockfilesInfoFromFS. rewrite !summary_snoc.
  cbn [latestFileNumber latestFileSize noBlockFiles lastPersistedBlock]. rewrite frames_app, !zlen_app.
  pose proof (dk_files _ _ _ _ Hd (length cs) (c1 ++ c2)) as Hf.
  rewrite lookup_app_r, Nat.sub_diag, length_app, bool_decide_eq_true_2 in Hf by (simpl; lia).
  specialize (Hf eq_refl). fold (zlen cs) in Hf. rewrite frames_app, <- app_assoc in Hf.
  unfold FileExists. rewrite Hf. cbn [OrPanic mbind outcome_bind]. rewrite !zlen_app.
  pose proof (dk_entries _ _ _ _ Hd) as [_ Hes]%Forall_app. rewrite Forall_singleton in Hes.
  apply Forall_app in Hes as [Hes1 Hes2]. pose proof (dk_max _ _ _ _ Hd) as Hmax.
  rewrite join_app, !zlen_app in Hmax. cbn [mjoin list_join] in Hmax. rewrite app_nil_r, zlen_app in Hmax.
  pose proof (zlen_nonneg (mjoin cs)). pose proof (zlen_nonneg c1). pose proof (zlen_nonneg c2).
  assert (Hc2 : (zlen c2 <= zlen (frames c2))).
  { unfold zlen, frames. pose proof (enc_raws_length (e_bytes <$> c2)) as L. rewrite length_fmap in L. lia. }
  pose proof (zlen_nonneg tail). destruct (Z.eqb_spec (zlen (frames c1) + (zlen (frames c2) + zlen tail)) (zlen (frames c1))) as [E|E].
  { assert (c2 = []) as -> by (destruct c2; [done|rewrite zlen_cons in *; pose proof (zlen_nonneg c2); lia]).
    rewrite app_nil_r. change (frames []) with (@nil byte). rewrite (zlen_nil (A:=byte)), (zlen_nil (A:=entry)), !Z.add_0_r. done. }
  rewrite (scanForLastCompleteBlock_from fs rootDir (zlen cs) (frames c1) (e_bytes <$> c2) tail);
    [|done|by apply entries_frames|apply Hd]. cbn [OrPanic mbind outcome_bind].
  fold (frames c2). rewrite zlen_app. replace (zlen (e_bytes <$> c2)) with (zlen c2) by (unfold zlen; by rewrite length_fmap).
  destruct (Z.eqb_spec (zlen c2) 0) as [E2|E2].
  { apply nil_length_inv in E2 || (destruct c2; [|rewrite zlen_cons in E2; pose proof (zlen_nonneg c2); lia]).
    rewrite app_nil_r. change (frames []) with (@nil byte). rewrite (zlen_nil (A:=byte)), (zlen_nil (A:=entry)), !Z.add_0_r. done. }
  rewrite (bool_decide_eq_false_2 (mjoin cs ++ c1 ++ c2 = [])) by (destruct c2; [done|]; by destruct (mjoin cs), c1).
  f_equal. f_equal. case_bool_decide as Hn.
  - apply app_eq_nil in Hn as [Hn1 ->]. rewrite Hn1, (zlen_nil (A:=entry)). rewrite u64_id by (unfold is_u64; lia). lia.
  - assert (1 <= zlen (mjoin cs) + zlen c1).
    { rewrite <- zlen_app. destruct (mjoin cs ++ c1) as [|x l]; [done|]. rewrite zlen_cons. pose proof (zlen_nonneg l). lia. }
    rewrite (u64_id (zlen c2)) by (unfold is_u64; lia). rewrite u64_id by (unfold is_u64; lia). lia.
Qed.

(** ** Reading the stored blocks back *)

Definition stream_at (rootDir : bytes) (n endn off : Z) : blockStream :=
  mkblockStream rootDir n endn (mkblockfileStream n (deriveBlockfilePath rootDir n) off).

(** The files [n], [n + 1], ... hold exactly [chunks]. *)
Definition holds (fs : Fs) (rootDir : bytes) (n : Z) (chunks : list (list entry)) : Prop :=
  forall i es, chunks !! i = Some es -> files fs !! deriveBlockfilePath rootDir (n + Z.of_nat i) = Some (frames es).

Lemma holds_tail (fs : Fs) (rootDir : bytes) (n : Z) (c : list entry) (cs : list (list entry)) :
  holds fs rootDir n (c :: cs) -> holds fs rootDir (n + 1) cs.
Proof. intros H i es Hi. specialize (H (S i) es Hi). by replace (n + 1 + Z.of_nat i) with (n + Z.of_nat (S i)) by lia. Qed.

Lemma holds_head (fs : Fs) (rootDir : bytes) (n : Z) (c : list entry) (cs : list (list entry)) :
  holds fs rootDir n (c :: cs) -> files fs !! deriveBlockfilePath rootDir n = Some (frames c).
Proof. intros H. specialize (H 0%nat c eq_refl). by rewrite Z.add_0_r in H. Qed.

Lemma frames_cons (e : entry) (es : list entry) : frames (e :: es) = enc_raw (e_bytes e) ++ frames es.
Proof. unfold frames. cbn [fmap list_fmap]. apply enc_raws_cons. Qed.

Definition placement (n off : Z) (e : entry) : blockPlacementInfo :=
  mkblockPlacementInfo n off (off + zlen (EncodeVarint (zlen (e_bytes e)))).

(** The index entries still to come at a place of the stream. *)
Definition left_idx (n : Z) (c1 c2 : list entry) (rest : list (list entry)) : list (blockIdxInfo * bytes) :=
  file_idx n (zlen (frames c1)) c2 ++ chain_from (n + 1) rest.

Lemma left_idx_cons (n : Z) (c1 c2 : list entry) (e : entry) (rest : list (list entry)) :
  left_idx n c1 (e :: c2) rest =
    (block_idx n (zlen (frames c1)) (e_block e) (e_bytes e), e_flags e) :: left_idx n (c1 ++ [e]) c2 rest.
Proof.
  unfold left_idx. cbn [file_idx app]. do 2 f_equal. rewrite frames_app, zlen_app, frames_cons.
  change (frames []) with (@nil byte). by rewrite app_nil_r.
Qed.

Lemma stream_here (fs : Fs) (rootDir : bytes) (fuel : nat) (n endn : Z) (c1 c2 : list entry) (e : entry) :
  files fs !! deriveBlockfilePath rootDir n = Some (frames (c1 ++ e :: c2)) -> entry_ok e ->
  blockStream_nextBlockBytesAndPlacementInfo fuel fs (stream_at rootDir n endn (zlen (frames c1))) =
    (Ret (Some (e_bytes e, placement n (zlen (frames c1)) e)), stream_at rootDir n endn (zlen (frames (c1 ++ [e])))).
Proof.
  intros Hf He. destruct fuel; cbn [blockStream_nextBlockBytesAndPlacementInfo stream_at bs_currentFileStream];
    (erewrite next_frame; [|rewrite (file_content_Some _ _ _ Hf), frames_app, frames_cons; reflexivity|apply He]);
    cbn [stream_at bs_rootDir bs_currentFileNum bs_endFileNum];
    rewrite frames_app, frames_cons; change (frames []) with (@nil byte); by rewrite app_nil_r.
Qed.

(** A read at the end of a file goes on with the next file. *)
Lemma stream_cross (fs : Fs) (rootDir : bytes) (fuel : nat) (n endn : Z) (c c' : list entry) :
  files fs !! deriveBlockfilePath rootDir n = Some (frames c) -> n < endn ->
  files fs !! deriveBlockfilePath rootDir (n + 1) = Some (frames c') ->
  blockStream_nextBlockBytesAndPlacementInfo (S fuel) fs (stream_at rootDir n endn (zlen (frames c))) =
    blockStream_nextBlockBytesAndPlacementInfo fuel fs (stream_at rootDir (n + 1) endn 0).
Proof.
  intros Hf Hn Hf'. cbn [blockStream_nextBlockBytesAndPlacementInfo stream_at bs_currentFileStream].
  pose proof (next_end fs n (deriveBlockfilePath rootDir n)) as E. rewrite (file_content_Some _ _ _ Hf) in E. rewrite E.
  cbn [stream_at bs_rootDir bs_currentFileNum bs_endFileNum]. rewrite (proj2 (Z.ltb_lt _ _) Hn). cbn [orb].
  unfold moveToNextBlockfileStream. cbn [stream_at bs_rootDir bs_currentFileNum bs_endFileNum].
  unfold newBlockfileStream. rewrite Hf'. done.
Qed.

Lemma stream_end (fs : Fs) (rootDir : bytes) (fuel : nat) (n : Z) (c : list entry) :
  files fs !! deriveBlockfilePath rootDir n = Some (frames c) -> 0 <= n ->
  blockStream_nextBlockBytesAndPlacementInfo fuel fs (stream_at rootDir n n (zlen (frames c))) =
    (Ret None, stream_at rootDir n n (zlen (frames c))).
Proof.
  intros Hf Hn. destruct fuel; cbn [blockStream_nextBlockBytesAndPlacementInfo stream_at bs_currentFileStream];
    pose proof (next_end fs n (deriveBlockfilePath rootDir n)) as E; rewrite (file_content_Some _ _ _ Hf) in E; rewrite E;
    cbn [stream_at bs_rootDir bs_currentFileNum bs_endFileNum];
    rewrite Z.ltb_irrefl, (proj2 (Z.ltb_ge _ _)) by done; done.
Qed.

(** One read: the next stored block, in this file or a later one. *)
Lemma stream_next (fs : Fs) (rootDir : bytes) (rest : list (list entry)) :
  forall fuel n c1 c2,
  holds fs rootDir n ((c1 ++ c2) :: rest) -> Forall entry_ok (c2 ++ mjoin rest) -> 0 <= n -> (length rest <= fuel)%nat ->
  let endn := n + zlen rest in
  match c2 ++ mjoin rest with
  | [] => exists s, blockStream_nextBlockBytesAndPlacementInfo fuel fs (stream_at rootDir n endn (zlen (frames c1))) = (Ret None, s)
  | e :: es => exists n' c1' c2' rest',
      blockStream_nextBlockBytesAndPlacementInfo fuel fs (stream_at rootDir n endn (zlen (frames c1))) =
        (Ret (Some (e_bytes e, placement n' (zlen (frames c1')) e)), stream_at rootDir n' endn (zlen (frames (c1' ++ [e])))) /\
      holds fs rootDir n' (((c1' ++ [e]) ++ c2') :: rest') /\ es = c2' ++ mjoin rest' /\ endn = n' + zlen rest' /\
      0 <= n' /\ (length rest' <= length rest)%nat /\ left_idx n c1 c2 rest = left_idx n' c1' (e :: c2') rest'
  end.
Proof.
  induction rest as [|c rest IH]; intros fuel n c1 c2 Hh Hes Hn Hfuel endn; pose proof (holds_head _ _ _ _ _ Hh) as Hf.
  - destruct c2 as [|e c2].
    + cbn [app mjoin list_join]. rewrite app_nil_r in Hf. eexists. unfold endn. rewrite Z.add_0_r.
      by apply stream_end.
    + cbn [app mjoin list_join]. exists n, c1, c2, []. rewrite (stream_here _ _ _ _ _ _ c2 e) by (done || by inversion Hes).
      rewrite <- app_assoc. split_and!; done.
  - destruct c2 as [|e c2].
    + cbn [app mjoin list_join]. rewrite app_nil_r in Hf. destruct fuel as [|fuel]; [simpl in Hfuel; lia|].
      pose proof (holds_tail _ _ _ _ _ Hh) as Ht.
      specialize (IH fuel (n + 1) [] c Ht Hes ltac:(lia) ltac:(simpl in Hfuel; lia)).
      rewrite (stream_cross _ _ _ _ _ _ c Hf); [|unfold endn; rewrite zlen_cons; pose proof (zlen_nonneg rest); lia|
        by apply (holds_head _ _ _ _ _ Ht)].
      unfold endn. rewrite zlen_cons. replace (n + (1 + zlen rest)) with (n + 1 + zlen rest) by lia.
      change 0 with (zlen (frames [])). cbn zeta in IH. destruct (c ++ mjoin rest) as [|e es]; [done|].
      destruct IH as (n' & c1' & c2' & rest' & E & H1 & H2 & H3 & H4 & H5 & H6). exists n', c1', c2', rest'.
      split_and!; try done. simpl. lia.
    + cbn [app]. exists n, c1, c2, (c :: rest). rewrite (stream_here _ _ _ _ _ _ c2 e) by (done || by inversion Hes).
      rewrite <- app_assoc. split_and!; done.
Qed.

(** ** Indexing what the index misses *)

Lemma placed_idx (e : entry) (n off : Z) :
  entry_ok e -> exists info, extractSerializedBlockInfo (e_bytes e) = Ret info /\
    sbi_blockHeader info = Block_Header (e_block e) /\
    idx_of_placed info (placement n off e) = block_idx n off (e_block e) (e_bytes e).
Proof.
  destruct e as [b bs fl]. intros He. unfold placement. cbn [e_bytes e_block].
  pose proof (bo_ser _ _ _ He) as ((info & Hs) & Hfr & Hn). cbn [e_bytes e_block] in *. exists info.
  destruct (deserialize_serialize _ _ _ Hs Hn) as [_ Hx]; [unfold frame_ok in Hfr; lia|]. split; [done|].
  pose proof (frame_ok_u64 _ Hfr) as Hu. clear He Hx Hfr.
  apply serializeBlock_inv in Hs as (h & data & md & -> & Ebs & ->). split; [done|].
  unfold idx_of_placed, block_idx.
  cbn [sbi_blockHeader sbi_txOffsets sbi_metadata bpi_fileNum bpi_blockStartOffset bpi_blockBytesOffset
       Block_Header Block_Data Block_Metadata].
  rewrite (u64_id _ Hu). set (z := zlen (EncodeVarint (zlen bs))). replace (off + z - off) with z by lia. done.
Qed.

(** The chain's entries are numbered from zero. *)
Definition numbered (chain : list (blockIdxInfo * bytes)) : Prop :=
  forall k c, chain !! k = Some c -> bii_blockNum (fst c) = Z.of_nat k.

Lemma numbered_lt (chain : list (blockIdxInfo * bytes)) (x : blockIdxInfo * bytes) (rest : list (blockIdxInfo * bytes)) :
  numbered (chain ++ x :: rest) -> forall info fl, (info, fl) ∈ chain -> bii_blockNum info < bii_blockNum (fst x).
Proof.
  intros Hn info fl Hin. apply list_elem_of_lookup in Hin as [k Hk]. pose proof (lookup_lt_Some _ _ _ Hk).
  rewrite (Hn (length chain) x) by (by rewrite lookup_app_r, Nat.sub_diag by lia).
  pose proof (Hn k (info, fl) ltac:(by apply lookup_app_l_Some)) as E. cbn [fst] in E. lia.
Qed.

(** The databases agree on the manager's key. *)
Lemma batch_keeps_info (info : blockIdxInfo) (fl : bytes) (db : kvmap) :
  idx_wf info fl -> DB_WriteBatch (full_batch info fl) db !! blkMgrInfoKey = db !! blkMgrInfoKey.
Proof. intros Hw. apply (after_other info fl db Hw (z2b 98)). vm_compute. set_solver. Qed.

Lemma syncIndex_loop_ok (index : blockIndex) (fs : Fs) (rootDir : bytes) (ffuel : nat) (todo : list entry) :
  index_all index ->
  forall fuel n c1 c2 rest endn db done,
  todo = c2 ++ mjoin rest -> endn = n + zlen rest ->
  holds fs rootDir n ((c1 ++ c2) :: rest) -> Forall entry_ok todo -> 0 <= n -> (length rest <= ffuel)%nat ->
  (length todo < fuel)%nat -> index_ok db done ->
  numbered (done ++ left_idx n c1 c2 rest) -> Forall (fun c => idx_wf (fst c) (snd c)) (left_idx n c1 c2 rest) ->
  exists db', syncIndex_loop fuel ffuel index (stream_at rootDir n endn (zlen (frames c1))) (mkWorld fs db []) =
      (Ret tt, mkWorld fs db' []) /\
    index_ok db' (done ++ left_idx n c1 c2 rest) /\ db' !! blkMgrInfoKey = db !! blkMgrInfoKey.
Proof.
  intros Hidx. induction todo as [|e es IH]; intros fuel n c1 c2 rest endn db dn Et -> Hh Hes Hn Hff Hfuel Hok Hnum Hwf;
    (destruct fuel as [|fuel]; [simpl in Hfuel; lia|]); cbn [syncIndex_loop w_fs];
    pose proof (stream_next fs rootDir rest ffuel n c1 c2 Hh) as Hs; rewrite <- Et in Hs; specialize (Hs Hes Hn Hff).
  - destruct Hs as (s' & E). rewrite E. exists db. split; [done|]. split; [|done].
    assert (L : left_idx n c1 c2 rest = []); [|by rewrite L, app_nil_r].
    apply length_zero_iff_nil. unfold left_idx. rewrite length_app, file_idx_length, chain_from_length, <- length_app, <- Et. done.
  - destruct Hs as (n' & c1' & c2' & rest' & E & Hh' & -> & Een & Hn' & Hr' & El). rewrite E, El in *. clear E.
    inversion Hes as [|? ? He Hes']; subst. destruct (placed_idx e n' (zlen (frames c1')) He) as (info & Ex & _ & Ep).
    rewrite left_idx_cons in *. set (x := block_idx n' (zlen (frames c1')) (e_block e) (e_bytes e)) in *.
    inversion Hwf as [|? ? Hx Hwf']; subst. cbn [fst snd] in Hx.
    unfold mbind, M_bind, lift_outcome. rewrite Ex, Ep.
    rewrite (indexBlock_ok _ _ (e_flags e)) by done.
    destruct (IH fuel n' (c1' ++ [e]) c2' rest' (n + zlen rest) (DB_WriteBatch (full_batch x (e_flags e)) db)
      (dn ++ [(x, e_flags e)])) as (db' & E' & Hok' & Hk); try done.
    + lia.
    + simpl in Hfuel. lia.
    + apply index_ok_snoc; [done|done|]. by eapply (numbered_lt dn (x, e_flags e)).
    + by rewrite <- app_assoc.
    + exists db'. rewrite E', <- app_assoc in *. split; [done|]. split; [done|]. rewrite Hk. by apply batch_keeps_info.
Qed.

(** The rounds of the loop are fewer than the bytes of the block files. *)
Lemma total_size_holds (rootDir : bytes) (chunks : list (list entry)) :
  forall (m : gmap bytes bytes) n, 0 <= n ->
  (forall i es, chunks !! i = Some es -> m !! deriveBlockfilePath rootDir (n + Z.of_nat i) = Some (frames es)) ->
  (length (mjoin chunks) <= map_fold (fun _ c k => (length c + k)%nat) 0%nat m)%nat.
Proof.
  induction chunks as [|c cs IH]; intros m n Hn Hm; [simpl; lia|].
  pose proof (Hm 0%nat c eq_refl) as H0. rewrite Z.add_0_r in H0.
  rewrite (map_fold_delete_L _ _ (deriveBlockfilePath rootDir n) (frames c)); [|intros; lia|done].
  change (mjoin (c :: cs)) with (c ++ mjoin cs). rewrite length_app.
  assert (length c <= length (frames c))%nat.
  { unfold frames. pose proof (enc_raws_length (e_bytes <$> c)) as L. by rewrite length_fmap in L. }
  enough (length (mjoin cs) <= map_fold (fun _ c k => (length c + k)%nat) 0%nat
    (delete (deriveBlockfilePath rootDir n) m))%nat by lia.
  apply (IH _ (n + 1)); [lia|]. intros i es Hi. rewrite lookup_delete_ne.
  - specialize (Hm (S i) es Hi). by replace (n + 1 + Z.of_nat i) with (n + Z.of_nat (S i)) by lia.
  - intros E. apply deriveBlockfilePath_inj in E; lia.
Qed.

(** Where an entry of the chain is stored. *)
Lemma chain_position (chunks : list (list entry)) :
  forall n k x, chain_from n chunks !! k = Some x ->
  exists pre c1 e c2 rest, chunks = pre ++ (c1 ++ e :: c2) :: rest /\
    x = (block_idx (n + zlen pre) (zlen (frames c1)) (e_block e) (e_bytes e), e_flags e) /\
    take k (chain_from n chunks) = chain_from n pre ++ file_idx (n + zlen pre) 0 c1 /\
    drop (S k) (chain_from n chunks) = left_idx (n + zlen pre) (c1 ++ [e]) c2 rest.
Proof.
  assert (Hfile : forall es n off k x, file_idx n off es !! k = Some x ->
    exists c1 e c2, es = c1 ++ e :: c2 /\ x = (block_idx n (off + zlen (frames c1)) (e_block e) (e_bytes e), e_flags e) /\
      k = length c1).
  { induction es as [|e es IH]; intros n off k x Hk; [done|]. destruct k as [|k]; cbn [file_idx] in Hk.
    - injection Hk as <-. exists [], e, es. change (frames []) with (@nil byte).
      rewrite (zlen_nil (A:=byte)), Z.add_0_r. done.
    - destruct (IH n _ k x Hk) as (c1 & e' & c2 & -> & -> & ->). exists (e :: c1), e', c2.
      split; [done|]. split; [|done]. rewrite frames_cons, zlen_app, Z.add_assoc. done. }
  induction chunks as [|c cs IH]; intros n k x Hk; [done|]. cbn [chain_from] in *.
  destruct (decide (k < length (file_idx n 0 c))%nat) as [Hlt|Hge].
  - rewrite lookup_app_l in Hk by done. destruct (Hfile c n 0 k x Hk) as (c1 & e & c2 & -> & -> & ->).
    exists [], c1, e, c2, cs. rewrite (zlen_nil (A:=list entry)), Z.add_0_r, Z.add_0_l.
    rewrite file_idx_app, Z.add_0_l, <- app_assoc. split_and!; try done.
    + rewrite take_app_length'; [done|by rewrite file_idx_length].
    + cbn [file_idx app]. unfold left_idx.
      rewrite <- (file_idx_length n 0 c1), <- Nat.add_1_r, <- drop_drop, drop_app_length. cbn [drop].
      rewrite frames_app, zlen_app, frames_cons. change (frames []) with (@nil byte). by rewrite app_nil_r.
  - rewrite lookup_app_r in Hk by lia. destruct (IH (n + 1) _ x Hk) as (pre & c1 & e & c2 & rest & -> & -> & Ht & Hd).
    exists (c :: pre), c1, e, c2, rest. rewrite zlen_cons. replace (n + (1 + zlen pre)) with (n + 1 + zlen pre) by lia.
    split_and!; try done.
    + rewrite take_app_ge, Ht, app_assoc by lia. done.
    + rewrite drop_app_ge by lia. rewrite <- Hd. f_equal. lia.
Qed.

Section Disk.
Context (fs : Fs) (rootDir : bytes) (chunks : list (list entry)) (Hd : disk_ok fs rootDir chunks []).

Lemma disk_holds : holds fs rootDir 0 chunks.
Proof.
  intros i es Hi. rewrite Z.add_0_l, (dk_files _ _ _ _ Hd i es Hi). by case_bool_decide; rewrite app_nil_r.
Qed.

Lemma disk_numbered : numbered (chain_of chunks).
Proof.
  intros k c Hk. destruct (Forall2_lookup_l _ _ _ _ _ (disk_located _ _ _ _ Hd) Hk) as (b & Hb & Hl).
  destruct Hl as (fn & pre & bs & post & _ & _ & _ & _ & ->). by apply (dk_numbers _ _ _ _ Hd).
Qed.

Lemma disk_wf : Forall (fun c => idx_wf (fst c) (snd c)) (chain_of chunks).
Proof.
  apply Forall_forall. intros c Hc. apply list_elem_of_lookup in Hc as [k Hk].
  destruct (Forall2_lookup_l _ _ _ _ _ (disk_located _ _ _ _ Hd) Hk) as (b & _ & Hl).
  destruct Hl as (fn & pre & bs & post & Hfn & Hpre & _ & Hb & ->). pose proof (zlen_nonneg pre).
  by apply block_idx_wf.
Qed.

Lemma disk_all_ok : Forall entry_ok (mjoin chunks).
Proof. apply Forall_join, Hd. Qed.

Lemma disk_first : mjoin chunks <> [] -> retrieveFirstBlockNumFromFile fs rootDir 0 = Ret 0.
Proof.
  intros Hne. pose proof (dk_head _ _ _ _ Hd Hne) as Hh. pose proof disk_holds as Hf.
  destruct (dk_last _ _ _ _ Hd) as [Hcs _]. destruct chunks as [|[|e c] cs] eqn:Ec; [done|done|].
  pose proof (holds_head _ _ _ _ _ Hf) as H0. pose proof (dk_entries _ _ _ _ Hd) as He. inversion He as [|? ? Hec _]; subst.
  rewrite (retrieveFirst_holds fs rootDir 0 (e_block e) (e_block <$> c)).
  - f_equal. apply (dk_numbers _ _ _ _ Hd 0%nat). done.
  - exists (e_bytes <$> e :: c), []. rewrite app_nil_r. split; [done|]. split; [apply torn_nil|].
    change (e_block e :: (e_block <$> c)) with (e_block <$> e :: c). apply Forall2_fmap, Forall_Forall2_diag.
    eapply Forall_impl; [exact Hec|]. intros x Hx. apply Hx.
Qed.

End Disk.

(** How far the index has come. *)
Lemma next_indexable_ok (db : kvmap) (chain : list (blockIdxInfo * bytes)) (j : nat) :
  numbered chain -> (j <= length chain)%nat -> Z.of_nat j < 2 ^ 64 -> index_ok db (take j chain) ->
  next_indexable db = Ret (Z.max 0 (Z.of_nat j - 1), Z.of_nat j).
Proof.
  intros Hn Hj Hm Hok. unfold next_indexable. rewrite (io_save _ _ Hok). destruct j as [|j]; [done|].
  destruct (lookup_lt_is_Some_2 chain j) as [x Hx]; [lia|]. rewrite (take_S_r _ _ _ Hx), last_snoc.
  destruct x as [info fl]. pose proof (Hn j (info, fl) Hx) as E. cbn [fst] in E. rewrite E. f_equal. f_equal; [lia|].
  rewrite u64_id by (unfold is_u64; lia). lia.
Qed.

(** An index that is behind: the stream starts at the first file, or after the
    last indexed block. *)
Lemma syncIndex_start (m : blockfileMgr) (fs : Fs) (db : kvmap) (chunks : list (list entry)) (j : nat) :
  disk_ok fs (m_rootDir m) chunks [] -> index_all (m_index m) -> m_bsi m = None -> m_info m = summary chunks ->
  (j < length (mjoin chunks))%nat -> index_ok db (take j (chain_of chunks)) ->
  exists n c1 c2 rest,
    syncIndex m (mkWorld fs db []) =
      syncIndex_loop (S (total_size fs)) (S (Z.to_nat (zlen chunks - 1))) (m_index m)
        (stream_at (m_rootDir m) n (zlen chunks - 1) (zlen (frames c1))) (mkWorld fs db []) /\
    (exists pre, chunks = pre ++ (c1 ++ c2) :: rest /\ n = zlen pre) /\
    chain_of chunks = take j (chain_of chunks) ++ left_idx n c1 c2 rest.
Proof.
  intros Hd Hidx Hbsi Hinfo Hj Hok. pose proof (dk_max _ _ _ _ Hd) as Hmax.
  assert (Hlen : length (chain_of chunks) = length (mjoin chunks)) by apply chain_from_length.
  assert (HN : zlen (mjoin chunks) = Z.of_nat (length (mjoin chunks))) by done.
  assert (Hne : mjoin chunks <> []) by (intros E; rewrite E in Hj; simpl in Hj; lia).
  pose proof (disk_holds _ _ _ Hd) as Hh.
  unfold syncIndex, get_fs, get_db, mbind, M_bind, lift_outcome. cbn [w_fs w_db].
  rewrite (next_indexable_ok db (chain_of chunks) j); [|by eapply disk_numbered|lia|lia|done].
  unfold bootstrappedFromSnapshot, firstPossibleBlockNumberInBlockFiles. rewrite Hbsi, andb_false_r, Hinfo.
  cbn [summary noBlockFiles lastPersistedBlock latestFileNumber].
  rewrite bool_decide_eq_false_2 by done. rewrite u64_id by (unfold is_u64; lia).
  rewrite (proj2 (Z.eqb_neq _ _)) by lia. unfold sync_start. rewrite (disk_first _ _ _ Hd Hne). cbn [mbind outcome_bind].
  destruct j as [|j].
  - destruct (dk_last _ _ _ _ Hd) as [Hcs _]. destruct chunks as [|c cs] eqn:Ec; [done|].
    exists 0, [], c, cs. change (0 <? Z.of_nat 0) with false. unfold newBlockStream, newBlockfileStream.
    rewrite (holds_head _ _ _ _ _ Hh). cbn [Z.ltb Z.compare mbind outcome_bind].
    split; [done|]. split; [by exists []|done].
  - rewrite (proj2 (Z.ltb_lt _ _)) by lia. replace (Z.max 0 (Z.of_nat (S j) - 1)) with (Z.of_nat j) by lia.
    destruct (lookup_lt_is_Some_2 (chain_of chunks) j) as [[x fl] Hx]; [lia|].
    destruct (chain_position chunks 0 j (x, fl) Hx) as (pre & c1 & e & c2 & rest & Ec & Ex & Ht & Hdr).
    pose proof (disk_numbered _ _ _ Hd j (x, fl) Hx) as En. cbn [fst] in En. rewrite <- En.
    rewrite (getBlockLocByBlockNum_ok _ _ _ Hidx Hok x fl)
      by (rewrite (take_S_r _ _ _ Hx); apply elem_of_app; right; by left).
    injection Ex as -> ->. rewrite Z.add_0_l in *.
    cbn [mbind outcome_bind block_idx bii_flp flp_fileSuffixNum flp_offset flp_loc loc_offset].
    pose proof (Hh (length pre) (c1 ++ e :: c2) ltac:(by rewrite Ec, lookup_app_r, Nat.sub_diag by lia)) as Hf.
    rewrite Z.add_0_l in Hf. fold (zlen pre) in Hf.
    unfold newBlockStream, newBlockfileStream, skip_block, flp_offset. cbn [flp_loc loc_offset]. rewrite Hf.
    rewrite (proj2 (Z.ltb_ge _ _)) by apply zlen_nonneg. cbn [mbind outcome_bind].
    fold (stream_at (m_rootDir m) (zlen pre) (zlen chunks - 1) (zlen (frames c1))).
    rewrite (stream_here _ _ _ _ _ _ c2 e);
      [|done|eapply (proj1 (Forall_forall _ _) (disk_all_ok _ _ _ Hd)); rewrite Ec, join_app; set_solver].
    exists (zlen pre), (c1 ++ [e]), c2, rest. split; [done|]. split; [exists pre; by rewrite <- app_assoc|].
    rewrite <- Hdr. symmetry. apply take_drop.
Qed.

Lemma syncIndex_ok (m : blockfileMgr) (fs : Fs) (db : kvmap) (chunks : list (list entry)) (j : nat) :
  disk_ok fs (m_rootDir m) chunks [] -> index_all (m_index m) -> m_bsi m = None -> m_info m = summary chunks ->
  (j <= length (mjoin chunks))%nat -> index_ok db (take j (chain_of chunks)) ->
  exists db', syncIndex m (mkWorld fs db []) = (Ret tt, mkWorld fs db' []) /\
    index_ok db' (chain_of chunks) /\ db' !! blkMgrInfoKey = db !! blkMgrInfoKey.
Proof.
  intros Hd Hidx Hbsi Hinfo Hj Hok. pose proof (dk_max _ _ _ _ Hd) as Hmax.
  assert (Hlen : length (chain_of chunks) = length (mjoin chunks)) by apply chain_from_length.
  assert (HN : zlen (mjoin chunks) = Z.of_nat (length (mjoin chunks))) by done.
  destruct (decide (j = length (mjoin chunks))) as [->|Hlt].
  { exists db. rewrite take_ge in Hok by lia. split; [|done].
    unfold syncIndex, get_fs, get_db, mbind, M_bind, lift_outcome. cbn [w_fs w_db].
    rewrite (next_indexable_ok db (chain_of chunks) (length (mjoin chunks)));
      [|by eapply disk_numbered|lia|lia|by rewrite take_ge by lia].
    unfold bootstrappedFromSnapshot, firstPossibleBlockNumberInBlockFiles. rewrite Hbsi, andb_false_r, Hinfo.
    cbn [summary noBlockFiles lastPersistedBlock latestFileNumber]. case_bool_decide as Hn; [done|].
    assert (length (mjoin chunks) <> 0)%nat by (by rewrite length_zero_iff_nil).
    rewrite u64_id, (proj2 (Z.eqb_eq _ _)) by (unfold is_u64; lia). done. }
  destruct (syncIndex_start m fs db chunks j Hd Hidx Hbsi Hinfo ltac:(lia) Hok)
    as (n & c1 & c2 & rest & E & (pre & Ec & ->) & El). rewrite E.
  pose proof (disk_all_ok _ _ _ Hd) as Hes. pose proof (disk_holds _ _ _ Hd) as Hh.
  pose proof (disk_numbered _ _ _ Hd) as Hnum. pose proof (disk_wf _ _ _ Hd) as Hwf. rewrite El in Hnum, Hwf.
  assert (Ej : mjoin chunks = mjoin pre ++ c1 ++ c2 ++ mjoin rest)
    by (rewrite Ec, join_app; cbn [mjoin list_join]; by rewrite <- app_assoc).
  destruct (syncIndex_loop_ok (m_index m) fs (m_rootDir m) (S (Z.to_nat (zlen chunks - 1))) (c2 ++ mjoin rest) Hidx
    (S (total_size fs)) (zlen pre) c1 c2 rest (zlen chunks - 1) db (take j (chain_of chunks)))
    as (db' & E' & Hok' & Hk); try done.
  - rewrite Ec, zlen_app, zlen_cons. lia.
  - intros i es Hi. specialize (Hh (length pre + i)%nat es). rewrite Ec, lookup_app_r in Hh by lia.
    replace (length pre + i - length pre)%nat with i in Hh by lia. specialize (Hh Hi).
    by replace (zlen pre + Z.of_nat i) with (0 + Z.of_nat (length pre + i)) by (unfold zlen; lia).
  - rewrite Ej in Hes. apply Forall_app in Hes as [_ Hes]. by apply Forall_app in Hes as [_ Hes].
  - apply zlen_nonneg.
  - rewrite Ec, zlen_app, zlen_cons. unfold zlen. lia.
  - pose proof (total_size_holds (m_rootDir m) chunks (files fs) 0 ltac:(lia) Hh) as Ht. rewrite Ej in Ht.
    unfold total_size. rewrite !length_app in *. lia.
  - apply Forall_app in Hwf. tauto.
  - exists db'. rewrite E'. split; [done|]. by rewrite El.
Qed.

(** ** Opening the store *)

(** A manager in step with its directory and database. *)
Record store_ok (m : blockfileMgr) (chunks : list (list entry)) : Prop := {
  so_mgr : mgr_ok m (blocks_of chunks) (chain_of chunks);
  so_disk : disk_ok (w_fs (m_world m)) (m_rootDir m) chunks [];
  so_info : m_info m = summary chunks;
  so_saved : w_db (m_world m) !! blkMgrInfoKey = Some (blockfilesInfo_marshal (summary chunks));
  so_faults : w_faults (m_world m) = [] }.

Lemma summary_wf (fs : Fs) (rootDir : bytes) (chunks : list (list entry)) (tail : bytes) :
  disk_ok fs rootDir chunks tail -> info_wf (summary chunks).
Proof.
  intros Hd. destruct (dk_last _ _ _ _ Hd) as [Hne Hl]. pose proof (dk_max _ _ _ _ Hd).
  destruct chunks as [|c cs _] using rev_ind; [done|]. rewrite summary_snoc.
  pose proof (dk_sizes _ _ _ _ Hd) as Hs. apply Forall_app in Hs as [_ Hs]. rewrite Forall_singleton in Hs.
  rewrite zlen_app in Hl. rewrite join_app, zlen_app in H. change (mjoin [c]) with (c ++ []) in H. rewrite app_nil_r in H.
  pose proof (zlen_nonneg cs). pose proof (zlen_nonneg (frames c)). pose proof (zlen_nonneg (mjoin cs)). pose proof (zlen_nonneg c).
  change (zlen [c]) with 1 in Hl. unfold info_wf, is_i64, is_u64. cbn [latestFileNumber latestFileSize lastPersistedBlock]. lia.
Qed.

Lemma blocks_of_length (chunks : list (list entry)) : zlen (blocks_of chunks) = zlen (mjoin chunks).
Proof. unfold zlen, blocks_of. by rewrite length_fmap. Qed.

Lemma deriveBlockfilePath_eq (rootDir : bytes) (n : Z) :
  deriveBlockfilePath rootDir n = rootDir ++ str "/" ++ blockfilePrefix ++ Sprintf_06d n.
Proof. done. Qed.

Lemma bsi_not_blockfile (rootDir : bytes) (n : Z) :
  deriveBlockfilePath rootDir n <> rootDir ++ str "/" ++ bootstrappingSnapshotInfoFile.
Proof.
  intros E. unfold deriveBlockfilePath in E. apply app_inv_head, app_inv_head in E.
  change (str "b" ++ str "lockfile_" ++ Sprintf_06d n = str "b" ++ str "ootstrappingSnapshot.info") in E.
  apply app_inv_head in E. discriminate E.
Qed.

Lemma blockinfo_not_bsi (rootDir : bytes) : blockinfo_path <> rootDir ++ str "/" ++ bootstrappingSnapshotInfoFile.
Proof. intros E. apply (f_equal reverse) in E. rewrite reverse_app in E. discriminate E. Qed.

(** The file system after the torn tail is cut off. *)
Lemma disk_truncated (fs : Fs) (rootDir : bytes) (cs : list (list entry)) (c : list entry) (tail : bytes) :
  disk_ok fs rootDir (cs ++ [c]) tail ->
  disk_ok (set_file (deriveBlockfilePath rootDir (zlen cs)) (frames c) fs) rootDir (cs ++ [c]) [].
Proof.
  intros [H1 H2 H3 H4 H5 H6 H7 H8 H9 H10 H11 H12]. constructor; try done.
  - intros i es Hi. pose proof (H2 i es Hi) as Hf.
    apply lookup_app_Some in Hi as [Hi|[Hi1 Hi2]].
    + pose proof (lookup_lt_Some _ _ _ Hi). rewrite length_app in *. rewrite bool_decide_eq_false_2 in * by (simpl; lia).
      rewrite lookup_set_file_ne; [done|]. intros E. apply deriveBlockfilePath_inj in E; unfold zlen in *; lia.
    + apply list_lookup_singleton_Some in Hi2 as [Hi2 <-]. replace i with (length cs) by lia.
      fold (zlen cs). rewrite lookup_set_file. clear Hf. by case_bool_decide; rewrite app_nil_r.
  - apply torn_nil.
  - intros n Hn. rewrite zlen_app in Hn. change (zlen [c]) with 1 in Hn. unfold unused. pose proof (zlen_nonneg cs).
    rewrite lookup_set_file_ne; [apply H4; by rewrite zlen_app|]. intros E. apply deriveBlockfilePath_inj in E; lia.
  - rewrite lookup_set_file_ne; [done|apply bsi_not_blockfile].
Qed.

(** A manager over such a directory, with the right blockchain information. *)
Lemma mgr_of_disk (m : blockfileMgr) (chunks : list (list entry)) :
  disk_ok (w_fs (m_world m)) (m_rootDir m) chunks [] -> m_info m = summary chunks ->
  index_all (m_index m) -> m_bsi m = None -> index_ok (w_db (m_world m)) (chain_of chunks) ->
  m_writer m = deriveBlockfilePath (m_rootDir m) (zlen chunks - 1) ->
  Height (m_bcInfo m) = zlen (mjoin chunks) ->
  CurrentBlockHash (m_bcInfo m) =
    match last (blocks_of chunks) with Some b => BlockHeaderHash (Block_Header b) | None => [] end ->
  mgr_ok m (blocks_of chunks) (chain_of chunks).
Proof.
  intros Hd Hi Hidx Hbsi Hdb Hw Hh Hhash. destruct (dk_last _ _ _ _ Hd) as [Hne Hl].
  pose proof (disk_holds _ _ _ Hd) as Hf. constructor; try done.
  - by eapply disk_located.
  - apply Hd.
  - by rewrite Hh, blocks_of_length.
  - rewrite Hi. cbn [summary latestFileNumber]. destruct chunks; [done|]. rewrite zlen_cons in *. pose proof (zlen_nonneg chunks). lia.
  - rewrite Hi. done.
  - destruct chunks as [|c cs _] using rev_ind; [done|]. exists (frames c). rewrite Hi, summary_snoc, Hw. split; [|done].
    rewrite zlen_app. change (zlen [c]) with 1. replace (zlen cs + 1 - 1) with (0 + Z.of_nat (length cs)) by (unfold zlen; lia).
    apply Hf. by rewrite lookup_app_r, Nat.sub_diag by lia.
  - intros n Hn. apply Hd. rewrite Hi in Hn. cbn [summary latestFileNumber] in Hn. lia.
  - apply Hd.
Qed.

(** The summary the manager starts from. *)
Definition initial_info (fs : Fs) (db : kvmap) (rootDir : bytes) : outcome blockfilesInfo :=
  loaded ← OrPanic (loadBlkfilesInfo db);
  OrPanic match loaded with
          | None => constructBlockfilesInfo fs rootDir
          | Some info => syncBlockfilesInfoFromFS fs rootDir info
          end.

(** The manager before its blockchain information is filled in. *)
Definition bare (rootDir : bytes) (mx : Z) (cfg : list IndexableAttr) (info : blockfilesInfo) (w : World) : blockfileMgr :=
  mkblockfileMgr rootDir mx (newBlockIndex cfg) info None (deriveBlockfilePath rootDir (latestFileNumber info))
    (mkBlockchainInfo 0 [] [] None) w.

Lemma truncate_tail (path content tail : bytes) (fs : Fs) (db : kvmap) :
  files fs !! path = Some (content ++ tail) ->
  truncateFile path (zlen content) (mkWorld fs db []) = (Ret tt, mkWorld (set_file path content fs) db []).
Proof.
  intros Hf. unfold truncateFile. cbn [w_fs next_fault w_faults w_db]. rewrite (file_content_Some _ _ _ Hf), zlen_app.
  pose proof (zlen_nonneg tail). pose proof (zlen_nonneg content).
  destruct (Z.ltb_spec (zlen content) (zlen content + zlen tail)).
  - rewrite (proj2 (Z.ltb_ge _ _)) by lia. by rewrite zlen_to_nat, take_app_length.
  - assert (tail = []) as -> by (destruct tail; [done|]; rewrite zlen_cons in *; pose proof (zlen_nonneg tail); lia).
    rewrite app_nil_r in Hf. unfold set_file. rewrite insert_id by done. by destruct fs.
Qed.

(** Opening up to the synchronisation of the index. *)
Lemma open_bare (fs : Fs) (db : kvmap) (rootDir : bytes) (mx : Z) (cfg : list IndexableAttr)
    (cs : list (list entry)) (c : list entry) (tail : bytes) :
  let chunks := cs ++ [c] in
  let info := summary chunks in
  let fs' := set_file (deriveBlockfilePath rootDir (zlen cs)) (frames c) fs in
  let w1 := mkWorld fs' (<[blkMgrInfoKey := blockfilesInfo_marshal info]> db) [] in
  disk_ok fs rootDir chunks tail -> initial_info fs db rootDir = Ret info ->
  newBlockfileMgr rootDir mx cfg (mkWorld fs db []) =
    (_ ← syncIndex (bare rootDir mx cfg info w1);
     w ← get_state;
     let m := bare rootDir mx cfg info w in
     if noBlockFiles info then mret m else
     lastBlockHeader ← lift_outcome (OrPanic (retrieveBlockHeaderByNumber m (lastPersistedBlock info)));
     mret (set_bcInfo (mkBlockchainInfo (u64 (lastPersistedBlock info + 1)) (BlockHeaderHash lastBlockHeader)
             (PreviousHash lastBlockHeader) None) m)) w1.
Proof.
  intros chunks info fs' w1 Hd Hinfo. set (path := deriveBlockfilePath rootDir (zlen cs)) in *.
  pose proof (disk_truncated _ _ _ _ _ Hd) as Hd'. fold path chunks fs' in Hd'.
  assert (Efs : mkFs (files fs) ({[rootDir]} ∪ dirs fs) = fs).
  { destruct (dk_dirs _ _ _ _ Hd) as [Hr _]. destruct fs as [f d]. cbn [files dirs] in *. f_equal. set_solver. }
  pose proof (dk_files _ _ _ _ Hd (length cs) c ltac:(unfold chunks; by rewrite lookup_app_r, Nat.sub_diag by lia)) as Hf.
  unfold chunks in Hf. rewrite length_app, bool_decide_eq_true_2 in Hf by (simpl; lia). fold (zlen cs) in Hf. fold path in Hf.
  assert (Hnum : latestFileNumber info = zlen cs) by (unfold info, chunks; by rewrite summary_snoc).
  assert (Hsz : latestFileSize info = zlen (frames c)) by (unfold info, chunks; by rewrite summary_snoc).
  assert (Hcan : can_create path fs = true) by (eapply can_create_file; [done|]; apply Hd, zlen_nonneg).
  unfold newBlockfileMgr, mbind, M_bind, update_fs, get_fs, get_db, lift_outcome, or_panic, set_fs.
  cbn [w_fs w_db w_faults]. rewrite Efs. unfold initial_info in Hinfo.
  destruct (OrPanic (loadBlkfilesInfo db)) as [l| |]; [|done..]. cbn [mbind outcome_bind] in Hinfo. rewrite Hinfo.
  unfold saveBlkfilesInfo, db_Put. cbn [next_fault w_faults w_fs w_db]. unfold newBlockfileWriter.
  rewrite Hnum. fold path. cbn [w_fs]. rewrite Hcan. cbn [next_fault w_faults w_fs]. rewrite (file_content_Some _ _ _ Hf).
  unfold set_fs. cbn [w_db w_faults]. replace (set_file path (frames c ++ tail) fs) with fs
    by (unfold set_file; rewrite insert_id by done; by destruct fs).
  rewrite Hsz, (truncate_tail _ _ _ _ _ Hf). cbn [w_fs]. fold fs'.
  unfold loadBootstrappingSnapshotInfo. rewrite (dk_bsi _ _ _ _ Hd'). unfold get_state.
  unfold bare. rewrite Hnum. fold path w1. done.
Qed.

Lemma last_block (chunks : list (list entry)) :
  mjoin chunks <> [] -> exists b, last (blocks_of chunks) = Some b /\
    blocks_of chunks !! (length (mjoin chunks) - 1)%nat = Some b.
Proof.
  intros Hne. unfold blocks_of. destruct (mjoin chunks) as [|e l _] using rev_ind; [done|].
  exists (e_block e). rewrite fmap_app. change (e_block <$> [e]) with [e_block e]. rewrite last_snoc. split; [done|]. rewrite length_app. cbn [length].
  rewrite lookup_app_r by (rewrite length_fmap; lia). rewrite length_fmap.
  by replace (length l + 1 - 1 - length l)%nat with 0%nat by lia.
Qed.

(** Opening, once the summary is known. *)
Lemma open_from_summary (fs : Fs) (db : kvmap) (rootDir : bytes) (mx : Z) (cfg : list IndexableAttr)
    (cs : list (list entry)) (c : list entry) (tail : bytes) (j : nat) :
  let chunks := cs ++ [c] in
  disk_ok fs rootDir chunks tail -> index_all (newBlockIndex cfg) ->
  initial_info fs db rootDir = Ret (summary chunks) ->
  (j <= length (mjoin chunks))%nat -> index_ok db (take j (chain_of chunks)) ->
  exists m, newBlockfileMgr rootDir mx cfg (mkWorld fs db []) = (Ret m, m_world m) /\ store_ok m chunks /\
    m_rootDir m = rootDir /\ m_maxBlockfileSize m = mx /\
    w_fs (m_world m) = set_file (deriveBlockfilePath rootDir (zlen cs)) (frames c) fs.
Proof.
  intros chunks Hd Hidx Hinfo Hj Hok. rewrite (open_bare _ _ _ _ _ cs c tail) by done.
  pose proof (disk_truncated _ _ _ _ _ Hd) as Hd'. fold chunks in Hd' |- *.
  set (fs' := set_file _ (frames c) fs) in *. set (info := summary chunks) in *.
  set (db1 := <[blkMgrInfoKey := blockfilesInfo_marshal info]> db).
  destruct (syncIndex_ok (bare rootDir mx cfg info (mkWorld fs' db1 [])) fs' db1 chunks j)
    as (db2 & Esync & Hok2 & Hk2); try done; [by apply index_ok_mgrkey|].
  unfold db1 in Hk2. rewrite lookup_insert_eq in Hk2.
  unfold mbind, M_bind, get_state, lift_outcome. rewrite Esync. set (m1 := bare rootDir mx cfg info (mkWorld fs' db2 [])).
  assert (Hmk : forall bc, Height bc = zlen (mjoin chunks) ->
    CurrentBlockHash bc = match last (blocks_of chunks) with Some b => BlockHeaderHash (Block_Header b) | None => [] end ->
    store_ok (set_bcInfo bc m1) chunks).
  { intros bc Hh Hc. constructor; try done. by apply mgr_of_disk. }
  unfold info at 1. cbn [summary noBlockFiles]. case_bool_decide as Hn.
  - exists (set_bcInfo (mkBlockchainInfo 0 [] [] None) m1). split; [done|]. split; [|done].
    apply Hmk; cbn [Height CurrentBlockHash]; [by rewrite Hn|]. unfold blocks_of. by rewrite Hn.
  - destruct (last_block chunks Hn) as (b & Hl & Hb). pose proof (dk_max _ _ _ _ Hd) as Hmax.
    assert (length (mjoin chunks) <> 0)%nat by (by rewrite length_zero_iff_nil).
    set (bc := mkBlockchainInfo (zlen (mjoin chunks)) (BlockHeaderHash (Block_Header b)) (PreviousHash (Block_Header b)) None).
    pose proof (Hmk bc eq_refl ltac:(by rewrite Hl)) as Hst.
    pose proof (retrieveBlockHeaderByNumber_ok _ _ _ (so_mgr _ _ Hst) _ _ Hb) as Eh.
    unfold info at 1 2. cbn [summary lastPersistedBlock].
    replace (Z.max 0 (zlen (mjoin chunks) - 1)) with (Z.of_nat (length (mjoin chunks) - 1)) by (unfold zlen; lia).
    change (retrieveBlockHeaderByNumber m1 ?n) with (retrieveBlockHeaderByNumber (set_bcInfo bc m1) n).
    rewrite Eh. cbn [OrPanic]. replace (u64 (Z.of_nat (length (mjoin chunks) - 1) + 1)) with (zlen (mjoin chunks))
      by (rewrite u64_id; unfold is_u64, zlen in *; lia).
    exists (set_bcInfo bc m1). done.
Qed.

(** ** Crash recovery *)

(** After a crash: the summary in the database is that of the files without the
    last complete frames [c2], the index has some first part of the chain, and a
    torn frame [tail] ends the last file. *)
Record crashed (fs : Fs) (db : kvmap) (rootDir : bytes) (cs : list (list entry)) (c1 c2 : list entry)
    (tail : bytes) : Prop := {
  cr_disk : disk_ok fs rootDir (cs ++ [c1 ++ c2]) tail;
  cr_saved : db !! blkMgrInfoKey = Some (blockfilesInfo_marshal (summary (cs ++ [c1])));
  cr_index : exists j, (j <= length (mjoin (cs ++ [c1 ++ c2])))%nat /\
    index_ok db (take j (chain_of (cs ++ [c1 ++ c2]))) }.

Lemma crashed_info (fs : Fs) (db : kvmap) (rootDir : bytes) (cs : list (list entry)) (c1 c2 : list entry) (tail : bytes) :
  crashed fs db rootDir cs c1 c2 tail -> initial_info fs db rootDir = Ret (summary (cs ++ [c1 ++ c2])).
Proof.
  intros [Hd Hs _]. unfold initial_info, loadBlkfilesInfo. rewrite Hs.
  assert (Hwf : info_wf (summary (cs ++ [c1]))).
  { pose proof (summary_wf _ _ _ _ Hd) as Hwf. rewrite summary_snoc in *. unfold info_wf, is_i64, is_u64 in *.
    cbn [latestFileNumber latestFileSize lastPersistedBlock] in *. rewrite frames_app, !zlen_app in Hwf.
    pose proof (zlen_nonneg (frames c1)). pose proof (zlen_nonneg (frames c2)).
    pose proof (zlen_nonneg (mjoin cs)). pose proof (zlen_nonneg c1). pose proof (zlen_nonneg c2). lia. }
  rewrite blockfilesInfo_unmarshal_marshal by done. cbn [OrPanic mbind outcome_bind].
  by rewrite (syncBlockfilesInfo_ok _ _ _ _ _ _ Hd).
Qed.

Lemma newBlockfileMgr_crashed (fs : Fs) (db : kvmap) (rootDir : bytes) (mx : Z) (cfg : list IndexableAttr)
    (cs : list (list entry)) (c1 c2 : list entry) (tail : bytes) :
  crashed fs db rootDir cs c1 c2 tail -> index_all (newBlockIndex cfg) ->
  exists m, newBlockfileMgr rootDir mx cfg (mkWorld fs db []) = (Ret m, m_world m) /\
    store_ok m (cs ++ [c1 ++ c2]) /\ m_rootDir m = rootDir /\
    w_fs (m_world m) = set_file (deriveBlockfilePath rootDir (zlen cs)) (frames (c1 ++ c2)) fs.
Proof.
  intros Hc Hidx. pose proof (crashed_info _ _ _ _ _ _ _ Hc) as Hi. destruct Hc as [Hd Hs (j & Hj & Hok)].
  destruct (open_from_summary fs db rootDir mx cfg cs (c1 ++ c2) tail j Hd Hidx Hi Hj Hok) as (m & E & Hst & Hr & _ & Hf).
  exists m. done.
Qed.

End Recovery.
