(* ===== verification/BlockStoreOk.v ===== *)
(** * The block store as a log of blocks

    What the manager promises to its clients: the store is a list of blocks;
    [addBlock] of an ordinary next block appends to it, whatever files it has to
    start ([addBlock_store]); blocks and transactions are served from it.  What an
    interrupted [addBlock] leaves is in BlockStoreCrash. *)

From S2P Require Import Prelude Varint OrderedCode Sha256 GoBig GoOS LevelDB Storage Chameleon.
From S2P Require Import Proto Block BlockSerialization BlockStream BlockIndex Redaction.
From S2P Require Import BlockfileMgr BlockfileMgrOk BlockfileMgrRecover.

Section Store.
Context {PR : Protos} {PK : ProtosOk}.

#[local] Opaque blockfilesInfo_marshal deriveBlockfilePath EncodeVarint BlockHeaderHash blkMgrInfoKey
  blockinfo_path dirname.

(** ** Growing the directory *)

Lemma disk_last_file (fs : Fs) (rootDir : bytes) (cs : list (list entry)) (c : list entry) :
  disk_ok fs rootDir (cs ++ [c]) [] -> files fs !! deriveBlockfilePath rootDir (zlen cs) = Some (frames c).
Proof.
  intros Hd. pose proof (disk_holds _ _ _ Hd (length cs) c) as Hf. rewrite Z.add_0_l in Hf. apply Hf.
  by rewrite lookup_app_r, Nat.sub_diag by lia.
Qed.

(** A rewrite of the last file that keeps its frames. *)
Lemma disk_set_last (fs : Fs) (rootDir : bytes) (cs : list (list entry)) (c c' : list entry) (tail : bytes) :
  disk_ok fs rootDir (cs ++ [c]) [] -> torn tail ->
  (c' = c \/ exists e, c' = c ++ [e] /\ entry_ok e /\ zlen (frames c') < 2 ^ 62 /\
    Number (Block_Header (e_block e)) = zlen (mjoin (cs ++ [c])) /\ zlen (mjoin (cs ++ [c])) + 2 < 2 ^ 64) ->
  disk_ok (set_file (deriveBlockfilePath rootDir (zlen cs)) (frames c' ++ tail) fs) rootDir (cs ++ [c']) tail.
Proof.
  intros [H1 H2 H3 H4 H5 H6 H7 H8 H9 H10 H11 H12] Ht Hc. pose proof (zlen_nonneg cs).
  assert (Hj : forall x : list entry, mjoin (cs ++ [x]) = mjoin cs ++ x)
    by (intros x; rewrite join_app; change (mjoin [x]) with (x ++ []); by rewrite app_nil_r).
  rewrite Hj in *. apply Forall_app in H7 as [H7 H7c]. apply Forall_app in H8 as [H8 H8c].
  rewrite Forall_singleton in H7c, H8c. rewrite !zlen_app in *.
  constructor; rewrite ?Hj, ?zlen_app.
  - split; [by destruct cs|apply H1].
  - intros i es Hi. rewrite length_app. cbn [length]. apply lookup_app_Some in Hi as [Hi|[Hi1 Hi2]].
    + pose proof (lookup_lt_Some _ _ _ Hi). rewrite lookup_set_file_ne
        by (intros E; apply deriveBlockfilePath_inj in E; unfold zlen in *; lia).
      rewrite (H2 i es) by (by apply lookup_app_l_Some). rewrite length_app. cbn [length].
      by rewrite !bool_decide_eq_false_2 by lia.
    + apply list_lookup_singleton_Some in Hi2 as [Hi2 <-]. replace i with (length cs) by lia.
      fold (zlen cs). rewrite lookup_set_file, bool_decide_eq_true_2 by lia. done.
  - done.
  - intros n Hn. unfold unused. rewrite lookup_set_file_ne; [by apply H4|].
    change (zlen [c']) with 1 in Hn. intros E. apply deriveBlockfilePath_inj in E; lia.
  - intros E. apply app_eq_nil in E as [E ->]. change (zlen [[]]) with (zlen [c]). apply H5.
    destruct Hc as [<-|(e & Ec & _)]; [by rewrite E|]. by destruct c.
  - intros E. destruct cs as [|c0 cs].
    + destruct Hc as [->|(e & -> & _)]; [by apply H6|]. by destruct c.
    + cbn [app head]. apply H6. intros E'. specialize (H5 E'). rewrite zlen_cons in H5. change (zlen [c]) with 1 in H5.
      pose proof (zlen_nonneg cs). lia.
  - apply Forall_app. split; [done|]. apply Forall_singleton. destruct Hc as [->|(e & -> & He & _)]; [done|].
    apply Forall_app. split; [done|by apply Forall_singleton].
  - apply Forall_app. split; [done|]. apply Forall_singleton. by destruct Hc as [->|(e & -> & _ & Hs & _)].
  - intros k b. unfold blocks_of in *. rewrite Hj in *. destruct Hc as [->|(e & -> & _ & _ & Hn & _)]; [apply H9|].
    rewrite app_assoc, fmap_app. intros Hk. apply lookup_app_Some in Hk as [Hk|[Hk1 Hk2]]; [by apply H9|].
    apply list_lookup_singleton_Some in Hk2 as [Hk2 <-]. rewrite length_fmap, length_app in Hk1, Hk2.
    rewrite Hn. unfold zlen. lia.
  - destruct Hc as [->|(e & -> & _ & _ & _ & Hm)]; [done|]. rewrite zlen_app. change (zlen [e]) with 1. lia.
  - done.
  - rewrite lookup_set_file_ne; [done|apply bsi_not_blockfile].
Qed.

Lemma disk_new_file (fs : Fs) (rootDir : bytes) (chunks : list (list entry)) :
  disk_ok fs rootDir chunks [] -> mjoin chunks <> [] -> zlen chunks + 1 < 2 ^ 61 ->
  disk_ok (set_file (deriveBlockfilePath rootDir (zlen chunks)) [] fs) rootDir (chunks ++ [[]]) [].
Proof.
  intros Hd Hne Hlt. pose proof (disk_holds _ _ _ Hd) as Hh. destruct Hd as [H1 H2 H3 H4 H5 H6 H7 H8 H9 H10 H11 H12].
  pose proof (zlen_nonneg chunks).
  assert (Hj : mjoin (chunks ++ [[]]) = mjoin chunks) by (rewrite join_app; apply app_nil_r).
  constructor; unfold blocks_of; rewrite ?Hj, ?zlen_app; change (zlen [@nil entry]) with 1; try done.
  - split; [by destruct chunks|lia].
  - intros i es Hi. destruct (bool_decide _); rewrite app_nil_r; apply lookup_app_Some in Hi as [Hi|[Hi1 Hi2]].
    1, 3: pose proof (lookup_lt_Some _ _ _ Hi); rewrite lookup_set_file_ne
        by (intros E; apply deriveBlockfilePath_inj in E; unfold zlen in *; lia); by apply Hh.
    all: apply list_lookup_singleton_Some in Hi2 as [Hi2 <-]; replace i with (length chunks) by lia;
      fold (zlen chunks); by rewrite lookup_set_file.
  - intros n Hn. unfold unused. rewrite lookup_set_file_ne; [apply H4; lia|].
    intros E. apply deriveBlockfilePath_inj in E; lia.
  - intros _. destruct chunks; [by destruct H1|]. by apply H6.
  - apply Forall_app. split; [done|]. by apply Forall_singleton.
  - apply Forall_app. split; [done|]. by apply Forall_singleton.
  - rewrite lookup_set_file_ne; [done|apply bsi_not_blockfile].
Qed.

(** A file outside the store. *)
Lemma disk_other_file (fs : Fs) (rootDir path content : bytes) (chunks : list (list entry)) (tail : bytes) :
  disk_ok fs rootDir chunks tail -> (forall n, 0 <= n -> deriveBlockfilePath rootDir n <> path) ->
  path <> rootDir ++ str "/" ++ bootstrappingSnapshotInfoFile -> disk_ok (set_file path content fs) rootDir chunks tail.
Proof.
  intros [H1 H2 H3 H4 H5 H6 H7 H8 H9 H10 H11 H12] Hp Hb. constructor; try done.
  - intros i es Hi. rewrite lookup_set_file_ne; [by apply H2|]. apply not_eq_sym, Hp. lia.
  - intros n Hn. unfold unused. rewrite lookup_set_file_ne; [by apply H4|]. pose proof (zlen_nonneg chunks).
    apply not_eq_sym, Hp. lia.
  - by rewrite lookup_set_file_ne.
Qed.

(** ** Adding a block *)

Lemma chain_of_snoc (cs : list (list entry)) (c : list entry) (e : entry) :
  chain_of (cs ++ [c ++ [e]]) =
    chain_of (cs ++ [c]) ++ [(block_idx (zlen cs) (zlen (frames c)) (e_block e) (e_bytes e), e_flags e)].
Proof.
  unfold chain_of. rewrite !chain_from_app. cbn [chain_from]. rewrite file_idx_app, !Z.add_0_l, !app_nil_r, app_assoc. done.
Qed.

Lemma blocks_of_snoc (cs : list (list entry)) (c : list entry) (e : entry) :
  blocks_of (cs ++ [c ++ [e]]) = blocks_of (cs ++ [c]) ++ [e_block e].
Proof.
  unfold blocks_of. rewrite !join_app. change (mjoin [c ++ [e]]) with ((c ++ [e]) ++ []).
  change (mjoin [c]) with (c ++ []). rewrite !app_nil_r, !fmap_app, app_assoc. done.
Qed.

Lemma chain_of_nil (chunks : list (list entry)) : chain_of (chunks ++ [[]]) = chain_of chunks.
Proof. unfold chain_of. rewrite chain_from_app. apply app_nil_r. Qed.

Lemma blocks_of_nil (chunks : list (list entry)) : blocks_of (chunks ++ [[]]) = blocks_of chunks.
Proof. unfold blocks_of. rewrite join_app. by rewrite app_nil_r. Qed.

Lemma store_chunks (m : blockfileMgr) (chunks : list (list entry)) :
  store_ok m chunks -> exists cs c, chunks = cs ++ [c] /\ latestFileNumber (m_info m) = zlen cs /\
    latestFileSize (m_info m) = zlen (frames c) /\ m_writer m = deriveBlockfilePath (m_rootDir m) (zlen cs).
Proof.
  intros Hs. destruct (dk_last _ _ _ _ (so_disk _ _ Hs)) as [Hne _].
  destruct chunks as [|c cs _] using rev_ind; [done|]. exists cs, c.
  rewrite (mo_writer _ _ _ (so_mgr _ _ Hs)), (so_info _ _ Hs), summary_snoc. done.
Qed.

(** Starting the next file keeps the store. *)
Lemma store_moved (m : blockfileMgr) (chunks : list (list entry)) :
  store_ok m chunks -> mjoin chunks <> [] -> latestFileNumber (m_info m) + 2 < 2 ^ 61 ->
  store_ok (moved m) (chunks ++ [[]]).
Proof.
  intros Hs Hne Hlt. destruct (store_chunks _ _ Hs) as (cs & c & Ec & Hnum & _).
  assert (Hz : zlen chunks = zlen cs + 1) by (by rewrite Ec, zlen_app).
  assert (Hi : m_info (moved m) = summary (chunks ++ [[]])).
  { rewrite summary_snoc, app_nil_r, bool_decide_eq_false_2 by done. rewrite (zlen_nil (A:=entry)), Z.add_0_r.
    unfold moved. cbn. rewrite Hnum, (so_info _ _ Hs). cbn [summary lastPersistedBlock]. rewrite Hz. done. }
  constructor.
  - rewrite blocks_of_nil, chain_of_nil. apply moved_ok; [apply Hs|lia].
  - unfold moved. cbn. rewrite Hnum, <- Hz. apply disk_new_file; [apply Hs|done|lia].
  - done.
  - rewrite <- Hi. unfold moved. cbn. by rewrite lookup_insert_eq.
  - done.
Qed.

(** The first block has to fit in the first file. *)
Definition first_fits (m : blockfileMgr) (bs : bytes) : Prop :=
  Height (m_bcInfo m) = 0 -> zlen (enc_raw bs) <= m_maxBlockfileSize m.

(** The block does not fit in what is left of the current file. *)
Definition overflows (m : blockfileMgr) (bs : bytes) : bool :=
  m_maxBlockfileSize m <? latestFileSize (m_info m) + zlen (enc_raw bs).

Lemma store_room (m : blockfileMgr) (chunks : list (list entry)) (bs : bytes) :
  store_ok m chunks -> first_fits m bs -> latestFileNumber (m_info m) + 2 < 2 ^ 61 ->
  exists cs c, store_ok (room bs m) (cs ++ [c]) /\ blocks_of (cs ++ [c]) = blocks_of chunks /\
    chain_of (cs ++ [c]) = chain_of chunks /\
    (if overflows m bs then cs = chunks /\ c = [] else cs ++ [c] = chunks).
Proof.
  intros Hs Hfit Hlt. unfold room, overflows.
  destruct (Z.ltb_spec (m_maxBlockfileSize m) (latestFileSize (m_info m) + zlen (enc_raw bs))).
  - exists chunks, []. rewrite blocks_of_nil, chain_of_nil. split; [|done]. apply store_moved; [done| |done].
    intros Hn. pose proof (so_info _ _ Hs) as Hi. pose proof (mo_height _ _ _ (so_mgr _ _ Hs)) as Hh.
    rewrite blocks_of_length, Hn in Hh. specialize (Hfit Hh).
    destruct (store_chunks _ _ Hs) as (cs & c & Ec & _ & Hsz & _). rewrite Ec, join_app in Hn.
    apply app_eq_nil in Hn as [_ Hn]. change (mjoin [c]) with (c ++ []) in Hn. rewrite app_nil_r in Hn. subst c.
    rewrite Hsz in H. change (frames []) with (@nil byte) in H. rewrite (zlen_nil (A:=byte)) in H. lia.
  - destruct (store_chunks _ _ Hs) as (cs & c & -> & _). by exists cs, c.
Qed.

Lemma frames_snoc (c : list entry) (e : entry) : frames (c ++ [e]) = frames c ++ enc_raw (e_bytes e).
Proof. rewrite frames_app, frames_cons. change (frames []) with (@nil byte). by rewrite app_nil_r. Qed.

(** The summary [addBlock] saves is that of the longer file. *)
Lemma next_info_summary (m : blockfileMgr) (cs : list (list entry)) (c : list entry) (b : Block) (bs fl : bytes) :
  store_ok m (cs ++ [c]) -> Number (Block_Header b) = zlen (blocks_of (cs ++ [c])) ->
  next_info b bs m = summary (cs ++ [c ++ [mkentry b bs fl]]).
Proof.
  intros Hs Hn. pose proof (so_info _ _ Hs) as Hi. rewrite summary_snoc in Hi.
  rewrite summary_snoc, frames_snoc. unfold next_info. rewrite Hi. cbn [latestFileNumber latestFileSize e_bytes].
  rewrite blocks_of_length, join_app, zlen_app in Hn. change (mjoin [c]) with (c ++ []) in Hn. rewrite app_nil_r in Hn.
  rewrite zlen_app, (zlen_app c), bool_decide_eq_false_2 by (by destruct (mjoin cs), c). f_equal.
  change (zlen [_]) with 1. pose proof (zlen_nonneg c). pose proof (zlen_nonneg (mjoin cs)). lia.
Qed.

Lemma enc_raw_bound (b : Block) (bs fl : bytes) : block_ok b bs fl -> zlen (enc_raw bs) < 2 ^ 57.
Proof.
  intros Hb. destruct (bo_ser _ _ _ Hb) as (_ & Hok & _). unfold frame_ok, enc_raw in *. rewrite zlen_app.
  pose proof (EncodeVarint_length (u64 (zlen bs))). unfold zlen in *. lia.
Qed.

(** The directory once the frame of the next block is complete. *)
Lemma store_frame (m : blockfileMgr) (cs : list (list entry)) (c : list entry) (b : Block) (bs fl : bytes) :
  store_ok m (cs ++ [c]) -> block_ok b bs fl -> latestFileSize (m_info m) < 2 ^ 61 ->
  Number (Block_Header b) = zlen (blocks_of (cs ++ [c])) -> zlen (blocks_of (cs ++ [c])) + 2 < 2 ^ 64 ->
  disk_ok (set_file (m_writer m) (file_content (m_writer m) (w_fs (m_world m)) ++ enc_raw bs) (w_fs (m_world m)))
    (m_rootDir m) (cs ++ [c ++ [mkentry b bs fl]]) [].
Proof.
  intros Hs Hb Hsz Hn Hmax. pose proof (so_disk _ _ Hs) as Hd. pose proof (disk_last_file _ _ _ _ Hd) as Hf.
  pose proof (mo_writer _ _ _ (so_mgr _ _ Hs)) as Hw. pose proof (enc_raw_bound _ _ _ Hb).
  rewrite (so_info _ _ Hs), summary_snoc in Hsz, Hw. cbn [latestFileNumber latestFileSize] in Hsz, Hw.
  rewrite Hw, (file_content_Some _ _ _ Hf).
  replace (frames c ++ enc_raw bs) with (frames (c ++ [mkentry b bs fl]) ++ []) by (by rewrite app_nil_r, frames_snoc).
  apply disk_set_last with c; [done|apply torn_nil|]. right. eexists. rewrite blocks_of_length in Hn, Hmax.
  split_and!; try done. rewrite frames_snoc, zlen_app. cbn [e_bytes]. lia.
Qed.

Lemma store_added (m : blockfileMgr) (cs : list (list entry)) (c : list entry) (b : Block) (bs fl : bytes) :
  store_ok m (cs ++ [c]) -> var_ok (w_fs (m_world m)) -> block_ok b bs fl -> latestFileSize (m_info m) < 2 ^ 61 ->
  Number (Block_Header b) = zlen (blocks_of (cs ++ [c])) -> zlen (blocks_of (cs ++ [c])) + 2 < 2 ^ 64 ->
  store_ok (added b bs fl m) (cs ++ [c ++ [mkentry b bs fl]]).
Proof.
  intros Hs Hv Hb Hsz Hn Hmax. set (e := mkentry b bs fl). pose proof (so_disk _ _ Hs) as Hd.
  pose proof (so_info _ _ Hs) as Hi. rewrite summary_snoc in Hi.
  pose proof (mo_writer _ _ _ (so_mgr _ _ Hs)) as Hw. pose proof (disk_last_file _ _ _ _ Hd) as Hf.
  rewrite Hi in Hsz, Hw. cbn [latestFileNumber latestFileSize] in Hsz, Hw.
  assert (Hsum : m_info (added b bs fl m) = summary (cs ++ [c ++ [e]])) by (by apply next_info_summary).
  constructor.
  - rewrite blocks_of_snoc, chain_of_snoc. pose proof (added_ok m _ _ b bs fl (so_mgr _ _ Hs) Hv Hb) as Ha.
    rewrite Hi in Ha. cbn [latestFileNumber latestFileSize] in Ha. apply Ha; [lia|done|lia].
  - change (w_fs (m_world (added b bs fl m))) with (append_file blockinfo_path
      (FormatUint (Number (Block_Header b)) ++ plusplus ++ Itoa (latestFileSize (m_info m)) ++ crlf)
      (set_file (m_writer m) (file_content (m_writer m) (w_fs (m_world m)) ++ enc_raw bs) (w_fs (m_world m)))).
    unfold append_file. rewrite var_ok_create by done. change (m_rootDir (added b bs fl m)) with (m_rootDir m).
    apply disk_other_file; [|intros; by apply blockinfo_not_blockfile|apply blockinfo_not_bsi].
    apply store_frame; try done. by rewrite Hi.
  - done.
  - rewrite <- Hsum. unfold added, appended. cbn [updateBlockchainInfo set_info set_world set_bcInfo m_world m_info w_db].
    rewrite batch_keeps_info; [by rewrite lookup_insert_eq|].
    pose proof (mo_file _ _ _ (so_mgr _ _ Hs)). rewrite Hi in *. cbn [latestFileNumber latestFileSize] in *.
    pose proof (zlen_nonneg (frames c)). apply block_idx_wf; [done|lia|lia].
  - done.
Qed.

(** [addBlock] of an ordinary next block. *)
Lemma addBlock_store (m : blockfileMgr) (chunks : list (list entry)) (b : Block) (bs fl : bytes) (k : Z) :
  store_ok m chunks -> next_block m b bs fl -> first_fits m bs -> latestFileNumber (m_info m) + 2 < 2 ^ 61 ->
  exists cs c, blocks_of (cs ++ [c]) = blocks_of chunks /\ store_ok (room bs m) (cs ++ [c]) /\
    addBlock b k m = (Ret b, added b bs fl (room bs m)) /\
    store_ok (added b bs fl (room bs m)) (cs ++ [c ++ [mkentry b bs fl]]) /\
    (if overflows m bs then cs = chunks /\ c = [] else cs ++ [c] = chunks).
Proof.
  intros Hs Hn Hfit Hlt. destruct (store_room m chunks bs Hs Hfit Hlt) as (cs & c & Hs0 & Eb & _ & Ho).
  exists cs, c. split; [done|]. split; [done|]. split; [eapply addBlock_eq; [apply Hs|done]|]. split; [|done].
  destruct (room_keeps m bs) as (_ & _ & _ & _ & Rd & Rs). pose proof (mo_height _ _ _ (so_mgr _ _ Hs)) as Hh.
  destruct Hn as [_ Hv Hb _ Hnum Hmax _ _ Hsz]. apply store_added; try done; rewrite ?Eb, <- ?Hh; try done; [|lia].
  unfold var_ok in *. by rewrite Rd.
Qed.

(** ** Directories after a crash *)

(** A store whose manager is gone opens again as it was. *)
Lemma store_crashed (m : blockfileMgr) (cs : list (list entry)) (c : list entry) :
  store_ok m (cs ++ [c]) -> crashed (w_fs (m_world m)) (w_db (m_world m)) (m_rootDir m) cs c [] [].
Proof.
  intros Hs. constructor; rewrite ?app_nil_r; [apply Hs|apply Hs|].
  exists (length (mjoin (cs ++ [c]))). split; [lia|]. rewrite take_ge by (unfold chain_of; by rewrite chain_from_length).
  apply (so_mgr _ _ Hs).
Qed.

Lemma disk_unused_file (fs : Fs) (rootDir : bytes) (chunks : list (list entry)) (n : Z) :
  disk_ok fs rootDir chunks [] -> zlen chunks <= n ->
  disk_ok (set_file (deriveBlockfilePath rootDir n) [] fs) rootDir chunks [].
Proof.
  intros [H1 H2 H3 H4 H5 H6 H7 H8 H9 H10 H11 H12] Hn. pose proof (zlen_nonneg chunks). constructor; try done.
  - intros i es Hi. pose proof (lookup_lt_Some _ _ _ Hi). rewrite lookup_set_file_ne; [by apply H2|].
    intros E. apply deriveBlockfilePath_inj in E; unfold zlen in *; lia.
  - intros k Hk. unfold unused. destruct (decide (n = k)) as [<-|Hne]; [right; apply lookup_set_file|].
    rewrite lookup_set_file_ne; [by apply H4|]. intros E. apply deriveBlockfilePath_inj in E; lia.
  - rewrite lookup_set_file_ne; [done|apply bsi_not_blockfile].
Qed.

Lemma torn_prefix (bs : bytes) (n : nat) : frame_ok bs -> (n < length (enc_raw bs))%nat -> torn (take n (enc_raw bs)).
Proof.
  intros Hf Hn. exists bs, (drop n (enc_raw bs)). split; [done|]. split; [|by rewrite take_drop].
  intros E. apply (f_equal length) in E. rewrite length_drop in E. simpl in E. lia.
Qed.

Lemma take_chain (cs : list (list entry)) (c : list entry) (e : entry) :
  take (length (mjoin (cs ++ [c]))) (chain_of (cs ++ [c ++ [e]])) = chain_of (cs ++ [c]).
Proof. rewrite chain_of_snoc. apply take_app_length'. unfold chain_of. by rewrite chain_from_length. Qed.

(** ** A new store *)

(** No file and no directory below [rootDir], nothing in the database. *)
Record fresh (fs : Fs) (rootDir : bytes) : Prop := {
  fr_files : forall p, is_Some (files fs !! p) -> strip_prefix (rootDir ++ str "/") p = None;
  fr_dirs : forall p, p ∈ dirs fs -> strip_prefix (rootDir ++ str "/") p = None }.

Lemma strip_prefix_app (p l : bytes) : strip_prefix p (p ++ l) = Some l.
Proof. induction p as [|x p IH]; [by destruct l|]. cbn [app strip_prefix]. by rewrite bool_decide_eq_true_2. Qed.

Lemma strip_prefix_length (p l r : bytes) : strip_prefix p l = Some r -> (length p <= length l)%nat.
Proof.
  revert l. induction p as [|x p IH]; intros [|y l] E; simpl in *; try lia; try done.
  case_bool_decide; [|done]. specialize (IH _ E). lia.
Qed.

Lemma omap_none {A B} (f : A -> option B) (l : list A) : (forall x, x ∈ l -> f x = None) -> omap f l = [].
Proof. induction l as [|x l IH]; intros H; [done|]. cbn. rewrite (H x) by set_solver. apply IH. set_solver. Qed.

Lemma fresh_suffix (fs : Fs) (rootDir : bytes) :
  fresh fs rootDir -> rootDir ∈ dirs fs -> retrieveLastFileSuffix fs rootDir = Ret (-1).
Proof.
  intros [Hf Hd] Hr. unfold retrieveLastFileSuffix, ReadDir. rewrite bool_decide_eq_true_2 by done.
  assert (He : forall p, strip_prefix (rootDir ++ str "/") p = None -> entry_name rootDir p = None)
    by (intros p E; unfold entry_name; by rewrite E).
  rewrite !omap_none; [done| |].
  - intros p Hp. apply He, Hd. by apply elem_of_elements.
  - intros p Hp. apply He, Hf. by apply elem_of_dom, elem_of_elements.
Qed.

Lemma fresh_disk (fs : Fs) (rootDir : bytes) :
  fresh fs rootDir -> rootDir ∈ dirs fs ->
  disk_ok (set_file (deriveBlockfilePath rootDir 0) [] fs) rootDir [[]] [].
Proof.
  intros [Hf Hd] Hr.
  assert (Hs : forall l, strip_prefix (rootDir ++ str "/") (rootDir ++ str "/" ++ l) = Some l)
    by (intros l; rewrite app_assoc; apply strip_prefix_app).
  assert (Hnf : forall l, files fs !! (rootDir ++ str "/" ++ l) = None).
  { intros l. destruct (files fs !! _) eqn:E; [|done]. specialize (Hf (rootDir ++ str "/" ++ l)). rewrite E, Hs in Hf.
    by specialize (Hf ltac:(eauto)). }
  constructor; try done.
  - intros i es Hi. apply list_lookup_singleton_Some in Hi as [-> <-]. rewrite lookup_set_file. by case_bool_decide.
  - apply torn_nil.
  - intros n Hn. change (zlen [@nil entry]) with 1 in Hn. left. rewrite lookup_set_file_ne; [rewrite deriveBlockfilePath_eq; apply Hnf|].
    intros E. apply deriveBlockfilePath_inj in E; lia.
  - by apply Forall_singleton, Forall_nil.
  - by apply Forall_singleton.
  - split; [done|]. intros n _ Hin. apply Hd in Hin. by rewrite deriveBlockfilePath_eq, Hs in Hin.
  - rewrite lookup_set_file_ne; [apply Hnf|apply bsi_not_blockfile].
Qed.

Lemma open_fresh (fs : Fs) (rootDir : bytes) (mx : Z) (cfg : list IndexableAttr) :
  fresh fs rootDir -> index_all (newBlockIndex cfg) ->
  exists m, newBlockfileMgr rootDir mx cfg (mkWorld fs ∅ []) = (Ret m, m_world m) /\ store_ok m [[]] /\
    m_rootDir m = rootDir /\ m_maxBlockfileSize m = mx /\ dirs (w_fs (m_world m)) = {[rootDir]} ∪ dirs fs /\
    files (w_fs (m_world m)) = <[deriveBlockfilePath rootDir 0 := []]> (files fs).
Proof.
  intros Hf Hidx. set (fs0 := mkFs (files fs) ({[rootDir]} ∪ dirs fs)).
  assert (Hf0 : fresh fs0 rootDir).
  { destruct Hf as [H1 H2]. constructor; [done|]. intros p [Hp|Hp]%elem_of_union; [|by apply H2].
    apply elem_of_singleton in Hp as ->. destruct (strip_prefix _ _) eqn:E; [|done]. exfalso.
    apply strip_prefix_length in E. rewrite length_app in E. simpl in E. lia. }
  assert (Hr0 : rootDir ∈ dirs fs0) by (cbn [fs0 dirs]; set_solver).
  pose proof (fresh_disk fs0 rootDir Hf0 Hr0) as Hd. set (path := deriveBlockfilePath rootDir 0) in *.
  set (info := mkblockfilesInfo 0 0 true 0). set (db1 := <[blkMgrInfoKey := blockfilesInfo_marshal info]> (∅ : kvmap)).
  set (fs1 := set_file path [] fs0) in *. set (m := bare rootDir mx cfg info (mkWorld fs1 db1 [])).
  assert (Hi : info = summary [[]]) by done.
  assert (Hp : files fs0 !! path = None).
  { destruct (files fs0 !! path) eqn:E; [|done]. destruct Hf0 as [H1 _]. specialize (H1 path).
    rewrite E in H1. unfold path in H1. rewrite deriveBlockfilePath_eq, (app_assoc rootDir), strip_prefix_app in H1.
    by specialize (H1 ltac:(eauto)). }
  assert (Hcan : can_create path fs0 = true).
  { apply can_create_dir; [by apply Hd|]. unfold path. by rewrite dirname_blockfile. }
  destruct (syncIndex_ok m fs1 db1 [[]] 0) as (db2 & Es & Hok & Hk); try done.
  { apply index_ok_mgrkey, index_ok_empty. }
  unfold db1 in Hk. rewrite lookup_insert_eq in Hk. exists (set_world (mkWorld fs1 db2 []) m).
  split; [|split; [|done]].
  - unfold newBlockfileMgr, mbind, M_bind, update_fs, get_fs, get_db, lift_outcome, or_panic, set_fs.
    cbn [w_fs w_db w_faults]. fold fs0. unfold loadBlkfilesInfo. rewrite lookup_empty. cbn [OrPanic].
    assert (Ei : constructBlockfilesInfo fs0 rootDir = Ret info)
      by (unfold constructBlockfilesInfo; by rewrite (fresh_suffix fs0 rootDir) by done).
    rewrite Ei. cbn [OrPanic].
    unfold saveBlkfilesInfo, db_Put. cbn [next_fault w_faults w_fs w_db]. fold db1.
    unfold newBlockfileWriter. change (deriveBlockfilePath rootDir (latestFileNumber info)) with path.
    cbn [w_fs]. rewrite Hcan. cbn [next_fault w_faults w_fs]. rewrite (file_content_None _ _ Hp). unfold set_fs. cbn [w_db w_faults]. fold fs1.
    change (latestFileSize info) with (zlen (@nil byte)). rewrite (truncate_tail path [] []) by apply lookup_set_file.
    replace (set_file path [] fs1) with fs1 by (unfold fs1; by rewrite set_file_twice).
    unfold loadBootstrappingSnapshotInfo. cbn [w_fs].
    rewrite (dk_bsi _ _ _ _ Hd). unfold get_state.
    change (mkblockfileMgr _ _ _ _ _ _ _ _) with m. rewrite Es. done.
  - constructor; try done. by apply mgr_of_disk.
Qed.

(** ** Adding a chain of blocks *)

(** [addBlock] for each block (with its random number), stopping at an error. *)
Fixpoint addBlocks (l : list (entry * Z)) : M blockfileMgr unit :=
  match l with
  | [] => mret tt
  | (e, k) :: l' => _ ← addBlock (e_block e) k; addBlocks l'
  end.

(** The blocks continue a chain of [n] blocks whose last header hash is [prev]. *)
Fixpoint linked (prev : bytes) (n : Z) (l : list (entry * Z)) : Prop :=
  match l with
  | [] => True
  | (e, _) :: l' =>
      entry_ok e /\ ordinary (e_block e) /\ Number (Block_Header (e_block e)) = n /\
      PreviousHash (Block_Header (e_block e)) = prev /\
      linked (BlockHeaderHash (Block_Header (e_block e))) (n + 1) l'
  end.

Lemma room_file (bs : bytes) (m : blockfileMgr) : latestFileNumber (m_info (room bs m)) <= latestFileNumber (m_info m) + 1.
Proof. unfold room. destruct (_ <? _); cbn; lia. Qed.

Lemma addBlocks_ok (l : list (entry * Z)) :
  forall m chunks, store_ok m chunks -> var_ok (w_fs (m_world m)) ->
  linked (CurrentBlockHash (m_bcInfo m)) (Height (m_bcInfo m)) l ->
  Height (m_bcInfo m) + zlen l + 2 < 2 ^ 64 -> latestFileNumber (m_info m) + zlen l + 2 < 2 ^ 61 ->
  latestFileSize (m_info m) + zlen (frames l.*1) < 2 ^ 61 ->
  (forall e, head l.*1 = Some e -> first_fits m (e_bytes e)) ->
  exists m' chunks', addBlocks l m = (Ret tt, m') /\ store_ok m' chunks' /\
    blocks_of chunks' = blocks_of chunks ++ (e_block <$> l.*1) /\ m_rootDir m' = m_rootDir m.
Proof.
  induction l as [|[e k] l IH]; intros m chunks Hs Hv Hl Hh Hn Hz Hfit.
  { exists m, chunks. rewrite app_nil_r. done. }
  destruct Hl as (He & Ho & Hnum & Hprev & Hl). change (((e, k) :: l).*1) with (e :: l.*1) in *.
  rewrite zlen_cons in *. rewrite frames_cons, zlen_app in Hz. pose proof (zlen_nonneg l).
  pose proof (zlen_nonneg (frames l.*1)). pose proof (zlen_nonneg (enc_raw (e_bytes e))).
  assert (Hsz0 : 0 <= latestFileSize (m_info m)).
  { destruct (mo_content _ _ _ (so_mgr _ _ Hs)) as (c & _ & <-). apply zlen_nonneg. }
  assert (Hnb : next_block m (e_block e) (e_bytes e) (e_flags e)) by (constructor; try done; try apply Hs; lia).
  destruct (addBlock_store m chunks _ _ _ k Hs Hnb (Hfit e eq_refl) ltac:(lia)) as (cs & c & Eb & Hs0 & Ea & Hs1 & _).
  destruct (room_keeps m (e_bytes e)) as (_ & Rb & Rr & _ & Rd & Rs). pose proof (room_file (e_bytes e) m) as Rf.
  set (m1 := added (e_block e) (e_bytes e) (e_flags e) (room (e_bytes e) m)) in *.
  assert (Hh1 : Height (m_bcInfo m1) = Height (m_bcInfo m) + 1).
  { unfold m1. change (Height (m_bcInfo (added ?b ?bs ?fl ?x))) with (u64 (Height (m_bcInfo x) + 1)). rewrite Rb.
    pose proof (mo_height _ _ _ (so_mgr _ _ Hs)) as E. pose proof (zlen_nonneg (blocks_of chunks)).
    apply u64_id. unfold is_u64. lia. }
  assert (Hd1 : dirs (w_fs (m_world m1)) = dirs (w_fs (m_world m))).
  { unfold m1, added. cbn [updateBlockchainInfo set_info set_world set_bcInfo m_world w_fs appended]. unfold append_file.
    destruct (can_create _ _); cbn [set_file dirs]; exact Rd. }
  destruct (IH m1 _ Hs1) as (m' & chunks' & E & Hs' & Eb' & Er').
  - unfold var_ok in *. by rewrite Hd1.
  - by rewrite Hh1.
  - lia.
  - change (latestFileNumber (m_info m1)) with (latestFileNumber (m_info (room (e_bytes e) m))). lia.
  - change (latestFileSize (m_info m1)) with (latestFileSize (m_info (room (e_bytes e) m)) + zlen (enc_raw (e_bytes e))). lia.
  - intros e' _ E0. rewrite Hh1 in E0. pose proof (mo_height _ _ _ (so_mgr _ _ Hs)). pose proof (zlen_nonneg (blocks_of chunks)). lia.
  - exists m', chunks'. cbn [addBlocks]. unfold mbind, M_bind. rewrite Ea. fold m1. rewrite E. split; [done|]. split; [done|].
    rewrite Eb', blocks_of_snoc, Eb, <- app_assoc, Er'. done.
Qed.

(** ** Properties *)

(** What a log of blocks answers: the block with the number, the last block for
    the largest number, nothing beyond the end. *)
Definition log_block (log : list Block) (n : Z) : outcome Block :=
  let n := if n =? MaxUint64 then zlen log - 1 else n in
  match log !! Z.to_nat n with
  | Some b => Ret b
  | None => Err ErrNotFoundInIndex
  end.

Lemma store_bound (m : blockfileMgr) (chunks : list (list entry)) : store_ok m chunks -> zlen (blocks_of chunks) + 1 < 2 ^ 64.
Proof. intros Hs. rewrite blocks_of_length. apply (dk_max _ _ _ _ (so_disk _ _ Hs)). Qed.

(** C13: The store answers queries by number the way the log of its blocks does. *)
Theorem store_refines_log (m : blockfileMgr) (chunks : list (list entry)) (n : Z) :
  store_ok m chunks -> is_u64 n -> blocks_of chunks <> [] ->
  retrieveBlockByNumber m n = log_block (blocks_of chunks) n.
Proof.
  intros Hs Hn Hne. pose proof (so_mgr _ _ Hs) as Hm. pose proof (store_bound _ _ Hs) as Hb.
  assert (Hq : forall k, 0 <= k < MaxUint64 -> retrieveBlockByNumber m k =
    match blocks_of chunks !! Z.to_nat k with Some b => Ret b | None => Err ErrNotFoundInIndex end).
  { intros k Hk. destruct (blocks_of chunks !! Z.to_nat k) as [b|] eqn:E.
    - rewrite <- (Z2Nat.id k) at 1 by lia. apply (retrieveBlockByNumber_ok _ _ _ Hm); [done|lia].
    - apply (retrieveBlockByNumber_none _ _ _ Hm). apply lookup_ge_None in E. unfold zlen. lia. }
  unfold log_block. destruct (Z.eqb_spec n MaxUint64) as [->|Hmx].
  - assert (1 <= zlen (blocks_of chunks)).
    { destruct (blocks_of chunks) as [|b l]; [done|]. rewrite zlen_cons. pose proof (zlen_nonneg l). lia. }
    rewrite <- Hq by (unfold MaxUint64; lia). unfold retrieveBlockByNumber. rewrite Z.eqb_refl, (mo_height _ _ _ Hm).
    rewrite u64_id by (unfold is_u64; lia). rewrite (proj2 (Z.eqb_neq _ _)) by (unfold MaxUint64; lia). done.
  - apply Hq. unfold is_u64, MaxUint64 in *. lia.
Qed.

(** Opening a new ledger and adding any chain of ordinary blocks, over as many
    files as they need, gives a store that serves exactly these blocks. *)
Theorem new_store_holds_chain (fs : Fs) (rootDir : bytes) (mx : Z) (cfg : list IndexableAttr) (l : list (entry * Z)) :
  fresh fs rootDir -> index_all (newBlockIndex cfg) -> var_ok fs -> rootDir <> blockinfo_path ->
  linked [] 0 l -> zlen l < 2 ^ 60 -> zlen (frames l.*1) < 2 ^ 61 ->
  (forall e, head l.*1 = Some e -> zlen (enc_raw (e_bytes e)) <= mx) ->
  exists m0 m chunks,
    newBlockfileMgr rootDir mx cfg (mkWorld fs ∅ []) = (Ret m0, m_world m0) /\ addBlocks l m0 = (Ret tt, m) /\
    store_ok m chunks /\ blocks_of chunks = e_block <$> l.*1 /\
    forall k e, l.*1 !! k = Some e -> retrieveBlockByNumber m (Z.of_nat k) = Ret (e_block e).
Proof.
  intros Hf Hidx Hv Hr Hl Hn Hz Hfit. destruct (open_fresh fs rootDir mx cfg Hf Hidx) as (m0 & E0 & Hs & Hr0 & Hmx & Hd & _).
  pose proof (mo_height _ _ _ (so_mgr _ _ Hs)) as Hh. pose proof (mo_hash _ _ _ (so_mgr _ _ Hs)) as Hc.
  change (blocks_of [[]]) with (@nil Block) in Hh, Hc. cbn [last] in Hc. rewrite (zlen_nil (A:=Block)) in Hh.
  pose proof (so_info _ _ Hs) as Hi. pose proof (zlen_nonneg l).
  destruct (addBlocks_ok l m0 [[]] Hs) as (m & chunks & E & Hs' & Eb & _).
  - unfold var_ok in *. rewrite Hd. set_solver.
  - by rewrite Hc, Hh.
  - lia.
  - rewrite Hi. change (latestFileNumber (summary [[]])) with 0. lia.
  - rewrite Hi. change (latestFileSize (summary [[]])) with 0. lia.
  - intros e He _. rewrite Hmx. by apply Hfit.
  - change (blocks_of [[]]) with (@nil Block) in Eb. cbn [app] in Eb. exists m0, m, chunks. split_and!; try done. intros k e Hk.
    apply (retrieveBlockByNumber_ok _ _ _ (so_mgr _ _ Hs')); [by rewrite Eb, list_lookup_fmap, Hk|].
    apply lookup_lt_Some in Hk. rewrite length_fmap in Hk. unfold MaxUint64, zlen in *. lia.
Qed.

(** No file is larger than the configured size, but for files of a single block. *)
Definition files_bounded (mx : Z) (chunks : list (list entry)) : Prop :=
  Forall (fun es => zlen (frames es) <= mx \/ (length es <= 1)%nat) chunks.

(** C14: Adding an ordinary next block succeeds and appends it to the log: to the
    current file when it fits there, and otherwise as the first block of a new
    file, so that no file with more than one block grows over the configured size.
    The first block of the chain has to fit in a file. *)
Theorem addBlock_appends (m : blockfileMgr) (chunks : list (list entry)) (b : Block) (bs fl : bytes) (k : Z) :
  store_ok m chunks -> next_block m b bs fl -> first_fits m bs -> latestFileNumber (m_info m) + 2 < 2 ^ 61 ->
  exists m' chunks', addBlock b k m = (Ret b, m') /\ store_ok m' chunks' /\
    blocks_of chunks' = blocks_of chunks ++ [b] /\ retrieveBlockByNumber m' (Number (Block_Header b)) = Ret b /\
    (if overflows m bs then chunks' = chunks ++ [[mkentry b bs fl]]
     else exists cs c, chunks = cs ++ [c] /\ chunks' = cs ++ [c ++ [mkentry b bs fl]]) /\
    (files_bounded (m_maxBlockfileSize m) chunks -> files_bounded (m_maxBlockfileSize m) chunks').
Proof.
  intros Hs Hn Hfit Hlt. destruct (addBlock_store m chunks b bs fl k Hs Hn Hfit Hlt) as (cs & c & Eb & Hs0 & Ea & Hs1 & Ho).
  eexists _, _. split; [exact Ea|]. split; [exact Hs1|]. rewrite blocks_of_snoc, Eb. split; [done|]. split; [|split].
  - rewrite (nb_num _ _ _ _ Hn), (mo_height _ _ _ (so_mgr _ _ Hs)).
    apply (retrieveBlockByNumber_ok _ _ _ (so_mgr _ _ Hs1)).
    + rewrite blocks_of_snoc, Eb, lookup_app_r, Nat.sub_diag by lia. done.
    + pose proof (store_bound _ _ Hs). unfold MaxUint64, zlen in *. lia.
  - destruct (overflows m bs); [by destruct Ho as [-> ->]|]. by exists cs, c.
  - unfold files_bounded, overflows in *. destruct (Z.ltb_spec (m_maxBlockfileSize m) (latestFileSize (m_info m) + zlen (enc_raw bs))).
    + destruct Ho as [-> ->]. rewrite !Forall_app. intros Hb. split; [done|]. apply Forall_singleton. right. done.
    + subst chunks. rewrite !Forall_app, !Forall_singleton. intros [Hb _]. split; [done|]. left.
      rewrite frames_snoc, zlen_app. cbn [e_bytes]. rewrite (so_info _ _ Hs), summary_snoc in H.
      cbn [latestFileSize] in H. done.
Qed.

(** C19: An index that lost its newest entries, or all of them, is rebuilt from the
    block files when the store is opened. *)
Theorem reopen_rebuilds_index (m : blockfileMgr) (chunks : list (list entry)) (db : kvmap) (j : nat) (mx : Z)
    (cfg : list IndexableAttr) :
  store_ok m chunks -> index_all (newBlockIndex cfg) -> (j <= length (blocks_of chunks))%nat ->
  index_ok db (take j (chain_of chunks)) -> db !! blkMgrInfoKey = Some (blockfilesInfo_marshal (summary chunks)) ->
  exists m', newBlockfileMgr (m_rootDir m) mx cfg (mkWorld (w_fs (m_world m)) db []) = (Ret m', m_world m') /\
    store_ok m' chunks.
Proof.
  intros Hs Hidx Hj Hok Hsv. destruct (store_chunks _ _ Hs) as (cs & c & -> & _).
  assert (Hc : crashed (w_fs (m_world m)) db (m_rootDir m) cs c [] []).
  { constructor; rewrite ?app_nil_r; [apply Hs|done|]. exists j. unfold blocks_of in Hj. rewrite length_fmap in Hj. done. }
  destruct (newBlockfileMgr_crashed _ _ _ mx cfg _ _ _ _ Hc Hidx) as (m' & E & Hs' & _). rewrite app_nil_r in *. eauto.
Qed.


(** A block with another number than the height, or another previous hash than
    the head's, is refused and changes nothing. *)
Theorem addBlock_refused (m : blockfileMgr) (b : Block) (k : Z) :
  ordinary b ->
  Number (Block_Header b) <> Height (m_bcInfo m) \/ PreviousHash (Block_Header b) <> CurrentBlockHash (m_bcInfo m) ->
  exists e, addBlock b k m = (Err e, m).
Proof.
  intros Hord Hne. unfold addBlock, mbind, M_bind, get_state.
  destruct (Z.eqb_spec (Number (Block_Header b)) (Height (m_bcInfo m))) as [E|E]; cbn [negb]; [|by eexists].
  rewrite redact_ordinary by done. rewrite bool_decide_eq_false_2 by (destruct Hne; [lia|done]). by eexists.
Qed.

End Store.
