(* ===== verification/BlockStoreCrash.v ===== *)
(** * Interrupted additions of a block

    What [addBlock] leaves on disk when its writes fail or the process stops at any
    of them ([Fails] and [Stops] of Storage), whatever the order of such faults: the
    store opens again with the old blocks, or with these and the new one.  When a
    write of the frame fails and the file can be cut back, the store goes on as if
    nothing had happened. *)

From S2P Require Import Prelude Varint OrderedCode Sha256 GoBig GoOS LevelDB Storage Chameleon.
From S2P Require Import Proto Block BlockSerialization BlockStream BlockIndex Redaction.
From S2P Require Import BlockfileMgr BlockfileMgrOk BlockfileMgrRecover BlockStoreOk.

(** ** What holds however a computation ends *)

Definition ends {S A} (m : M S A) (s : S) (Q : outcome A -> S -> Prop) : Prop := Q (fst (m s)) (snd (m s)).

Lemma ends_bind {S A B} (m : M S A) (f : A -> M S B) (s : S) (Q : outcome B -> S -> Prop) :
  ends m s (fun r s' => match r with
                        | Ret a => ends (f a) s' Q
                        | Err e => Q (Err e) s'
                        | Panic msg => Q (Panic msg) s'
                        end) -> ends (mbind f m) s Q.
Proof. unfold ends, mbind, M_bind. by destruct (m s) as [[a|e|msg] s']. Qed.

Lemma ends_impl {S A} (m : M S A) (s : S) (P Q : outcome A -> S -> Prop) :
  ends m s P -> (forall r s', P r s' -> Q r s') -> ends m s Q.
Proof. unfold ends. eauto. Qed.

Lemma ends_eq {S A} (m : M S A) (s s' : S) (r : outcome A) (Q : outcome A -> S -> Prop) :
  m s = (r, s') -> Q r s' -> ends m s Q.
Proof. unfold ends. by intros ->. Qed.

(** A result other than a value. *)
Definition fails {A} (r : outcome A) : Prop := forall a, r <> Ret a.

(** ** Files outside the store *)

(** [fs'] is [fs] but for files that are not of the store. *)
Record elsewhere (rootDir : bytes) (fs fs' : Fs) : Prop := {
  ew_files : forall n, 0 <= n ->
    files fs' !! deriveBlockfilePath rootDir n = files fs !! deriveBlockfilePath rootDir n;
  ew_bsi : files fs' !! (rootDir ++ str "/" ++ bootstrappingSnapshotInfoFile) =
    files fs !! (rootDir ++ str "/" ++ bootstrappingSnapshotInfoFile);
  ew_dirs : dirs fs' = dirs fs }.

(** The path of a text file is not that of a file of the store. *)
Definition outside (rootDir path : bytes) : Prop :=
  (forall n, 0 <= n -> deriveBlockfilePath rootDir n <> path) /\
  path <> rootDir ++ str "/" ++ bootstrappingSnapshotInfoFile.

Lemma elsewhere_refl (rootDir : bytes) (fs : Fs) : elsewhere rootDir fs fs.
Proof. done. Qed.

Lemma elsewhere_trans (rootDir : bytes) (fs1 fs2 fs3 : Fs) :
  elsewhere rootDir fs1 fs2 -> elsewhere rootDir fs2 fs3 -> elsewhere rootDir fs1 fs3.
Proof.
  intros [F1 B1 D1] [F2 B2 D2]. constructor; [|congruence..]. intros n Hn. by rewrite F2, F1.
Qed.

Lemma elsewhere_set (rootDir path content : bytes) (fs : Fs) :
  outside rootDir path -> elsewhere rootDir fs (set_file path content fs).
Proof.
  intros [Hf Hb]. constructor; [| |done].
  - intros n Hn. rewrite lookup_set_file_ne; [done|]. by apply not_eq_sym, Hf.
  - by rewrite lookup_set_file_ne.
Qed.

Lemma elsewhere_remove (rootDir path : bytes) (fs : Fs) :
  outside rootDir path -> elsewhere rootDir fs (remove_file path fs).
Proof.
  intros [Hf Hb]. constructor; [| |done]; cbn [remove_file files].
  - intros n Hn. rewrite lookup_delete_ne; [done|]. by apply not_eq_sym, Hf.
  - by rewrite lookup_delete_ne.
Qed.

Lemma elsewhere_append (rootDir path b : bytes) (fs : Fs) :
  outside rootDir path -> elsewhere rootDir fs (append_file path b fs).
Proof. intros Ho. unfold append_file. destruct (can_create _ _); [by apply elsewhere_set|done]. Qed.

#[export] Hint Resolve elsewhere_refl elsewhere_set elsewhere_remove elsewhere_append : hicert.

Section Crash.
Context {PR : Protos} {PK : ProtosOk}.

#[local] Opaque blockfilesInfo_marshal deriveBlockfilePath EncodeVarint BlockHeaderHash blkMgrInfoKey
  blockinfo_path dirname enc_raw.

Lemma disk_elsewhere (fs fs' : Fs) (rootDir : bytes) (chunks : list (list entry)) (tail : bytes) :
  elsewhere rootDir fs fs' -> disk_ok fs rootDir chunks tail -> disk_ok fs' rootDir chunks tail.
Proof.
  intros [Hf Hb Hd] [H1 H2 H3 H4 H5 H6 H7 H8 H9 H10 H11 H12]. pose proof (zlen_nonneg chunks).
  constructor; try done; [..|by rewrite Hd|by rewrite Hb].
  - intros i es Hi. rewrite Hf by lia. by apply H2.
  - intros n Hn. unfold unused. rewrite Hf by lia. by apply H4.
Qed.

(** ** The text files of the fork *)

(** The files that a certificate operation with the arguments [args] writes or
    removes. *)
Definition text_paths (args : list bytes) : list bytes :=
  match args !! 2%nat with
  | Some s => [str "/var/" ++ s; str "/var/del" ++ s; str "/var/bugu" ++ s]
  | None => []
  end.

Lemma append_or_panic_elsewhere (rootDir path b : bytes) (fs : Fs) :
  outside rootDir path -> ends (append_or_panic path b) fs (fun _ fs' => elsewhere rootDir fs fs').
Proof. intros Ho. unfold ends, append_or_panic. destruct (can_create _ _); cbn [snd]; auto with hicert. Qed.

Lemma record_blockinfo_elsewhere (rootDir : bytes) (b : Block) (off : Z) (fs : Fs) :
  ends (record_blockinfo b off) fs (fun _ fs' => elsewhere rootDir fs fs').
Proof.
  apply append_or_panic_elsewhere. split; [intros; by apply blockinfo_not_blockfile|apply blockinfo_not_bsi].
Qed.

(** Opening a text file twice. *)
Lemma write_lock_elsewhere (rootDir path : bytes) (text : outcome bytes) (fs : Fs) :
  outside rootDir path ->
  ends (_ ← append_or_panic path []; t ← lift_outcome text; append_or_panic path t) fs (fun _ fs' => elsewhere rootDir fs fs').
Proof.
  intros Ho. apply ends_bind. eapply ends_impl; [by apply (append_or_panic_elsewhere rootDir)|]. intros [[]|e|msg] fs1 H1; try done.
  apply ends_bind. destruct text as [t|e|msg]; try done. unfold lift_outcome, ends at 1. cbn [fst snd].
  eapply ends_impl; [by apply (append_or_panic_elsewhere rootDir)|]. intros r fs2 H2. by eapply elsewhere_trans.
Qed.

Lemma exe_lock_elsewhere (rootDir prefix : bytes) (panics : bool) (args : list bytes) (fs : Fs) :
  (forall s, args !! 2%nat = Some s -> outside rootDir (prefix ++ s)) ->
  ends (exe_lock prefix panics args) fs (fun _ fs' => elsewhere rootDir fs fs').
Proof.
  intros Ho. unfold exe_lock, ends, mbind, M_bind, lift_outcome, get_state, go_index.
  destruct (args !! 2%nat) as [s|]; [|done]. specialize (Ho s eq_refl). cbn beta iota.
  destruct (files fs !! _); [|done]. destruct panics; cbn [andb].
  - unfold mret, M_ret. destruct (args !! 5%nat); [|done]. destruct (args !! 4%nat); [|done]. cbn beta iota.
    destruct (_ <? _); [done|]. destruct (args !! 3%nat); [|done]. destruct (args !! 6%nat); [|done]. cbn. auto with hicert.
  - destruct (ReadLine _); [|done]. unfold mret, M_ret. destruct (args !! 5%nat); [|done]. destruct (args !! 4%nat); [|done].
    cbn beta iota. destruct (args !! 3%nat); [|done]. destruct (args !! 6%nat); [|done]. cbn. auto with hicert.
Qed.

Lemma record_cert_elsewhere (rootDir : bytes) (args : list bytes) (num : bytes) (fs : Fs) :
  Forall (outside rootDir) (text_paths args) ->
  ends (record_cert args num) fs (fun _ fs' => elsewhere rootDir fs fs').
Proof.
  intros Hp. unfold text_paths in Hp. destruct args as [|op args]; [done|]. unfold record_cert.
  assert (H2 : forall s, (op :: args) !! 2%nat = Some s -> outside rootDir (str "/var/" ++ s) /\
    outside rootDir (str "/var/del" ++ s) /\ outside rootDir (str "/var/bugu" ++ s)).
  { intros s E. rewrite E in Hp. apply Forall_cons in Hp as [? Hp]. apply Forall_cons in Hp as [? Hp].
    by apply Forall_cons in Hp as [? _]. }
  assert (Hs : forall f : bytes -> M Fs unit,
    (forall s, (op :: args) !! 2%nat = Some s -> ends (f s) fs (fun _ fs' => elsewhere rootDir fs fs')) ->
    ends (s2 ← lift_outcome (go_index (op :: args) 2); f s2) fs (fun _ fs' => elsewhere rootDir fs fs')).
  { intros f Hf. apply ends_bind. unfold lift_outcome, go_index, ends at 1. cbn [fst snd].
    destruct ((op :: args) !! 2%nat) as [s|]; [by apply Hf|done]. }
  repeat case_bool_decide.
  - apply Hs. intros s E. apply append_or_panic_elsewhere. by apply H2.
  - apply Hs. intros s E. apply write_lock_elsewhere. by apply H2.
  - apply Hs. intros s E. apply write_lock_elsewhere. by apply H2.
  - apply exe_lock_elsewhere. intros s E. by apply H2.
  - apply exe_lock_elsewhere. intros s E. by apply H2.
  - apply ends_bind. unfold lift_outcome, go_index, ends at 1. cbn [fst snd]. by destruct ((op :: args) !! 1%nat).
  - apply ends_bind. unfold lift_outcome, go_index, ends at 1. cbn [fst snd]. by destruct ((op :: args) !! 1%nat).
  - done.
Qed.

Lemma on_text_elsewhere {A} (rootDir : bytes) (op : M Fs A) (m : blockfileMgr) :
  (forall fs, ends op fs (fun _ fs' => elsewhere rootDir fs fs')) ->
  ends (in_world (on_text op)) m (fun _ m' => exists fs' f',
    elsewhere rootDir (w_fs (m_world m)) fs' /\ m' = set_world (mkWorld fs' (w_db (m_world m)) f') m).
Proof.
  intros Hop. specialize (Hop (w_fs (m_world m))). unfold ends, in_world, on_text, on_fs in *.
  destruct (m_world m) as [fs db faults]. cbn [w_fs w_db w_faults] in *.
  destruct faults as [|[[n|n]|] rest]; destruct (op fs) as [r fs1]; cbn [fst snd] in *; unfold set_fs;
    cbn [w_db w_faults]; eauto using elsewhere_refl.
Qed.

(** ** The stages of [addBlock] under any faults *)

Definition with_faults (f : list (option fault)) (m : blockfileMgr) : blockfileMgr :=
  set_world (mkWorld (w_fs (m_world m)) (w_db (m_world m)) f) m.

Lemma set_world_id (m : blockfileMgr) : set_world (m_world m) m = m.
Proof. by destruct m. Qed.

Lemma set_world_twice (w w' : World) (m : blockfileMgr) : set_world w (set_world w' m) = set_world w m.
Proof. done. Qed.

(** Starting the next file: the new file may be there already when it is
    interrupted. *)
Lemma moveToNextFile_ends (m : blockfileMgr) (blocks : list Block) (chain : list (blockIdxInfo * bytes)) (f : list (option fault)) :
  mgr_ok m blocks chain ->
  ends moveToNextFile (with_faults f m) (fun r m' =>
    (exists f', r = Ret tt /\ m' = with_faults f' (moved m)) \/
    (fails r /\ exists fs' f', m' = set_world (mkWorld fs' (w_db (m_world m)) f') m /\
      (fs' = w_fs (m_world m) \/
       fs' = set_file (deriveBlockfilePath (m_rootDir m) (latestFileNumber (m_info m) + 1)) [] (w_fs (m_world m))))).
Proof.
  intros Hm. pose proof (mo_file _ _ _ Hm) as Hf. pose proof (mo_dirs _ _ _ Hm) as [Hd Hnd].
  pose proof (mo_next _ _ _ Hm) as Hnext. destruct m as [root mx idx info bsi wr bc [fs db faults]]. cbn in *.
  set (n := latestFileNumber info + 1) in *. set (path := deriveBlockfilePath root n) in *.
  assert (Hp : unused path fs) by (apply Hnext; unfold n; lia).
  assert (Hcan : can_create path fs = true).
  { apply can_create_dir; [apply Hnd; unfold n; lia|]. unfold path. by rewrite dirname_blockfile by (unfold n; lia). }
  unfold ends, moveToNextFile, mbind, M_bind, get_state, or_panic, in_world, newBlockfileWriter, with_faults.
  cbn [m_rootDir m_info latestFileNumber m_world w_fs set_world w_db]. fold n path. rewrite Hcan.
  destruct f as [|[[k|k]|] f]; cbn [next_fault w_faults w_fs w_db].
  - left. exists []. rewrite (unused_content _ _ Hp). done.
  - right. split; [done|]. exists fs, f. by split; [|left].
  - right. split; [done|]. exists fs, f. by split; [|left].
  - rewrite (unused_content _ _ Hp). unfold saveBlkfilesInfo, db_Put, set_fs. cbn [m_world set_world w_fs w_db w_faults].
    destruct f as [|[[k'|k']|] f]; cbn [next_fault w_faults w_fs w_db].
    + left. by exists [].
    + right. split; [done|]. eexists _, f. by split; [|right].
    + right. split; [done|]. eexists _, f. by split; [|right].
    + left. by exists f.
Qed.

(** One write at the end of a file. *)
Lemma append_any (wr b : bytes) (fs : Fs) (db : kvmap) (f : list (option fault)) (content : bytes) :
  files fs !! wr = Some content -> exists f',
  append wr b (mkWorld fs db f) = (Ret tt, mkWorld (set_file wr (content ++ b) fs) db f') \/
  exists n r, (r = Err ErrIO \/ r = Panic stopped) /\
    append wr b (mkWorld fs db f) = (r, mkWorld (set_file wr (content ++ take n b) fs) db f').
Proof.
  intros Hf. unfold append, writeat. cbn [w_fs]. rewrite (file_content_Some _ _ _ Hf).
  rewrite (proj2 (Z.ltb_ge _ _)) by apply zlen_nonneg. rewrite zlen_to_nat.
  destruct f as [|[[n|n]|] f]; cbn [next_fault w_faults w_fs w_db]; rewrite write_at_end; unfold set_fs; cbn [w_db w_faults w_fs].
  - exists []. by left.
  - exists f. right. eauto.
  - exists f. right. eauto.
  - exists f. by left.
Qed.

(** Cutting a file back may do nothing, and never returns an error. *)
Lemma truncate_any (wr content ext : bytes) (fs : Fs) (db : kvmap) (f : list (option fault)) :
  files fs !! wr = Some (content ++ ext) -> exists r fs' f',
  truncateFile wr (zlen content) (mkWorld fs db f) = (r, mkWorld fs' db f') /\ (forall e, r <> Err e) /\
  (fs' = fs \/ fs' = set_file wr content fs).
Proof.
  intros Hf. unfold truncateFile. cbn [w_fs]. rewrite (file_content_Some _ _ _ Hf).
  destruct (_ <? _); [|eexists _, fs, f; split; [done|]; by split; [|left]].
  destruct f as [|[[n|n]|] f]; cbn [next_fault w_faults w_fs w_db]; unfold set_fs; cbn [w_db w_faults w_fs].
  2, 3: eexists _, fs, f; split; [done|]; by split; [|left].
  all: rewrite (proj2 (Z.ltb_ge _ _)) by apply zlen_nonneg; rewrite zlen_to_nat, take_app_length; eexists _, _, _;
    split; [done|]; by split; [|right].
Qed.

(** The file of the manager after some part of the frame has been written. *)
Definition torn_file (m : blockfileMgr) (content bs : bytes) (n : nat) : Fs :=
  set_file (m_writer m) (content ++ take n (enc_raw bs)) (w_fs (m_world m)).

(** The file is cut back, or not, after a failed write. *)
Lemma undo_ends {A} (m : blockfileMgr) (content bs : bytes) (n : nat) (f : list (option fault)) (e : error) :
  files (w_fs (m_world m)) !! m_writer m = Some content -> zlen content = latestFileSize (m_info m) ->
  ends (S := blockfileMgr) (A := A) (_ ← or_panic (in_world (truncateFile (m_writer m) (latestFileSize (m_info m)))); throw e)
    (set_world (mkWorld (torn_file m content bs n) (w_db (m_world m)) f) m)
    (fun r m' => fails r /\ exists n f', m' = set_world (mkWorld (torn_file m content bs n) (w_db (m_world m)) f') m).
Proof.
  intros Hc Hsz. unfold ends, mbind, M_bind, or_panic, in_world. cbn [m_world set_world].
  destruct (truncate_any (m_writer m) content (take n (enc_raw bs)) (torn_file m content bs n) (w_db (m_world m)) f)
    as (r & fs' & f' & E & Hr & Hfs); [apply lookup_set_file|]. rewrite <- Hsz, E.
  assert (Hfs' : exists n, fs' = torn_file m content bs n).
  { destruct Hfs as [->| ->]; [by exists n|]. exists 0%nat. unfold torn_file. by rewrite set_file_twice, app_nil_r. }
  destruct Hfs' as (n' & ->). destruct r as [[]|e'|msg]; [|by destruct (Hr e')|]; cbn [fst snd throw]; split; try done; eauto.
Qed.

(** The two writes of a frame. *)
Lemma append_frame_writes (m : blockfileMgr) (bs content : bytes) (f : list (option fault)) :
  files (w_fs (m_world m)) !! m_writer m = Some content ->
  ends (try (_ ← in_world (append (m_writer m) (EncodeVarint (u64 (zlen bs)))); in_world (append (m_writer m) bs)))
    (with_faults f m) (fun r m' => exists n f',
      m' = set_world (mkWorld (torn_file m content bs n) (w_db (m_world m)) f') m /\
      (r = Ret (inl tt) /\ n = length (enc_raw bs) \/ r = Ret (inr ErrIO) \/ r = Panic stopped)).
Proof.
  intros Hc. set (v := EncodeVarint (u64 (zlen bs))). set (fs := w_fs (m_world m)) in *.
  assert (Ev : enc_raw bs = v ++ bs) by done.
  assert (T1 : forall n, set_file (m_writer m) (content ++ take n v) fs = torn_file m content bs (n `min` length v)).
  { intros n. unfold torn_file. rewrite Ev, take_app_le by lia. destruct (Nat.le_ge_cases n (length v)).
    - by rewrite Nat.min_l by done.
    - by rewrite Nat.min_r, !take_ge by lia. }
  assert (T2 : forall n, set_file (m_writer m) ((content ++ v) ++ take n bs) fs = torn_file m content bs (length v + n)).
  { intros n. unfold torn_file. by rewrite Ev, take_app_add, app_assoc. }
  unfold ends, try, mbind, M_bind, in_world, with_faults. cbn [m_world set_world m_writer]. fold fs v.
  destruct (append_any (m_writer m) v fs (w_db (m_world m)) f content Hc) as (f1 & [E|(n & r & Hr & E)]); rewrite E.
  - cbn [m_world set_world]. destruct (append_any (m_writer m) bs (set_file (m_writer m) (content ++ v) fs) (w_db (m_world m)) f1 (content ++ v)
      (lookup_set_file _ _ _)) as (f2 & [E2|(n & r & Hr & E2)]); rewrite E2, set_file_twice; clear E E2.
    + exists (length (enc_raw bs)), f2. split; [|by left]. rewrite <- (take_ge bs (length bs)) at 1 by done.
      by rewrite T2, Ev, length_app.
    + exists (length v + n)%nat, f2. rewrite T2. by destruct Hr as [-> | ->]; cbn [fst snd]; split; [|auto|..]; auto.
  - exists (n `min` length v)%nat, f1. rewrite T1. by destruct Hr as [-> | ->]; cbn [fst snd]; split; [|auto|..]; auto.
Qed.

Lemma append_frame_ends (m : blockfileMgr) (b : Block) (bs content : bytes) (info : serializedBlockInfo) (off : Z)
    (f : list (option fault)) :
  files (w_fs (m_world m)) !! m_writer m = Some content -> zlen content = latestFileSize (m_info m) ->
  serializeBlock b = Ret (bs, info) ->
  ends (append_frame b bs info off) (with_faults f m) (fun r m' =>
    (exists f', r = Ret (next_info b bs m, mkfileLocPointer (latestFileNumber (m_info m)) (mklocPointer off 0), frame_locs b bs) /\
       m' = with_faults f' (appended b bs m)) \/
    (fails r /\ exists n f', m' = set_world (mkWorld (torn_file m content bs n) (w_db (m_world m)) f') m)).
Proof.
  intros Hc Hsz Hs.
  assert (Hx : sbi_txOffsets info = tx_locs (data_offset (Block_Header b) (Block_Data b)) (Block_Data b))
    by (by apply serializeBlock_inv in Hs as (h & data & md & -> & -> & ->)).
  unfold append_frame. apply ends_bind. eapply ends_eq; [done|]. cbn beta iota. apply ends_bind.
  change (m_writer (with_faults f m)) with (m_writer m). change (m_info (with_faults f m)) with (m_info m).
  eapply ends_impl; [by apply (append_frame_writes m bs content)|]. intros r m1 (n & f1 & -> & Hr).
  destruct Hr as [(-> & ->)|[-> | ->]].
  2: eapply ends_impl; [by apply undo_ends|]; intros; by right.
  2: right; split; [done|by eauto].
  apply ends_bind. unfold ends at 1, try, in_world, saveBlkfilesInfo, db_Put. cbn [m_world set_world].
  rewrite Hx, frame_total. fold (next_info b bs m).
  destruct f1 as [|[[n|n]|] f1]; cbn [next_fault w_faults w_fs w_db fst snd].
  2: eapply ends_impl; [by apply (undo_ends m content bs)|]; intros; by right.
  2: right; split; [done|by eauto].
  all: left; eexists; split; [done|]; unfold with_faults, appended, torn_file; rewrite (file_content_Some _ _ _ Hc), take_ge by done; done.
Qed.

(** ** What each stage leaves on disk *)

(** The file written to has the whole frame after its old content. *)
Definition frame_written (bs : bytes) (m m1 : blockfileMgr) : bool :=
  bool_decide (file_content (m_writer m1) (w_fs (m_world m1)) = file_content (m_writer m1) (w_fs (m_world m)) ++ enc_raw bs).

Section Stages.
Context (m : blockfileMgr) (chunks : list (list entry)) (b : Block) (bs fl : bytes).
Context (Hs : store_ok m chunks) (Hb : block_ok b bs fl) (Hfit : first_fits m bs).
Context (Hnum : Number (Block_Header b) = Height (m_bcInfo m)) (Hmax : Height (m_bcInfo m) + 2 < 2 ^ 64).
Context (Hfile : latestFileNumber (m_info m) + 2 < 2 ^ 61) (Hsize : latestFileSize (m_info m) < 2 ^ 61).

(** The files and the database of [m1] are those of the old blocks, or of these
    and [b], after a crash. *)
Definition old_or_new (m1 : blockfileMgr) : Prop :=
  exists cs c1 c2 tail, crashed (w_fs (m_world m1)) (w_db (m_world m1)) (m_rootDir m) cs c1 c2 tail /\
    blocks_of (cs ++ [c1 ++ c2]) = blocks_of chunks ++ (if frame_written bs m m1 then [b] else []).

Lemma app_enc_ne (l : bytes) : l <> l ++ enc_raw bs.
Proof.
  intros E. apply (f_equal length) in E. rewrite length_app in E. pose proof (enc_raw_nonempty bs). lia.
Qed.

Lemma frame_not_written (m1 : blockfileMgr) :
  file_content (m_writer m1) (w_fs (m_world m1)) = file_content (m_writer m1) (w_fs (m_world m)) ->
  frame_written bs m m1 = false.
Proof. intros E. unfold frame_written. rewrite E. apply bool_decide_eq_false_2, app_enc_ne. Qed.

Lemma untouched_old (f : list (option fault)) : old_or_new (with_faults f m).
Proof.
  destruct (store_chunks _ _ Hs) as (cs & c & E & _). exists cs, c, [], [].
  rewrite frame_not_written, !app_nil_r by done. split; [|by rewrite E]. apply (store_crashed m cs c). by rewrite <- E.
Qed.

Lemma created_old (f : list (option fault)) :
  old_or_new (set_world (mkWorld (set_file (deriveBlockfilePath (m_rootDir m) (latestFileNumber (m_info m) + 1)) [] (w_fs (m_world m)))
    (w_db (m_world m)) f) m).
Proof.
  destruct (store_chunks _ _ Hs) as (cs & c & E & Hn & _ & Hw). exists cs, c, [], [].
  pose proof (zlen_nonneg cs). rewrite frame_not_written, !app_nil_r.
  - split; [|by rewrite E]. pose proof Hs as Hs1. rewrite E in Hs1.
    destruct (store_crashed _ _ _ Hs1) as [Hd1 Hd2 Hd3]. constructor; [|done|done].
    rewrite app_nil_r. apply disk_unused_file; [apply Hs1|]. rewrite Hn, zlen_app. done.
  - unfold file_content. cbn [m_writer m_world set_world w_fs]. rewrite lookup_set_file_ne; [done|].
    rewrite Hw, Hn. intros E'. apply deriveBlockfilePath_inj in E'; lia.
Qed.

(** The content of the file that takes the frame. *)
Lemma room_content (content : bytes) :
  files (w_fs (m_world (room bs m))) !! m_writer (room bs m) = Some content ->
  file_content (m_writer (room bs m)) (w_fs (m_world m)) = content.
Proof.
  unfold room. destruct (_ <? _); [|apply file_content_Some]. unfold moved. cbn [m_writer m_world set_info set_writer set_world w_fs].
  rewrite lookup_set_file. intros [= <-]. apply unused_content, (mo_next _ _ _ (so_mgr _ _ Hs)). cbn. lia.
Qed.

Lemma room_number (cs : list (list entry)) (c : list entry) :
  blocks_of (cs ++ [c]) = blocks_of chunks ->
  Number (Block_Header b) = zlen (blocks_of (cs ++ [c])) /\ zlen (blocks_of (cs ++ [c])) + 2 < 2 ^ 64.
Proof. intros ->. pose proof (mo_height _ _ _ (so_mgr _ _ Hs)) as Hh. lia. Qed.

(** The directory with the whole frame. *)
Lemma room_frame (cs : list (list entry)) (c : list entry) :
  store_ok (room bs m) (cs ++ [c]) -> blocks_of (cs ++ [c]) = blocks_of chunks ->
  disk_ok (w_fs (m_world (appended b bs (room bs m)))) (m_rootDir m) (cs ++ [c ++ [mkentry b bs fl]]) [].
Proof.
  intros Hs0 Eb. destruct (room_keeps m bs) as (_ & _ & Rr & _ & _ & Rs). destruct (room_number cs c Eb) as [Hn1 Hn2].
  rewrite <- Rr. apply (store_frame (room bs m) cs c b bs fl); try done. lia.
Qed.

Lemma blocks_of_new (cs : list (list entry)) (c : list entry) :
  blocks_of (cs ++ [c]) = blocks_of chunks -> blocks_of (cs ++ [c ++ [mkentry b bs fl]]) = blocks_of chunks ++ [b].
Proof. intros Eb. by rewrite blocks_of_snoc, Eb. Qed.

Lemma mjoin_snoc_length (cs : list (list entry)) (c : list entry) (e : entry) :
  (length (mjoin (cs ++ [c])) <= length (mjoin (cs ++ [c ++ [e]])))%nat.
Proof.
  rewrite !join_app, !length_app. change (mjoin [c ++ [e]]) with ((c ++ [e]) ++ []). change (mjoin [c]) with (c ++ []).
  rewrite !app_nil_r, length_app. lia.
Qed.

Lemma torn_old_or_new (content : bytes) (n : nat) (f : list (option fault)) :
  files (w_fs (m_world (room bs m))) !! m_writer (room bs m) = Some content ->
  old_or_new (set_world (mkWorld (torn_file (room bs m) content bs n) (w_db (m_world (room bs m))) f) (room bs m)).
Proof.
  intros Hc. destruct (store_room m chunks bs Hs Hfit Hfile) as (cs & c & Hs0 & Eb & _).
  pose proof (room_frame cs c Hs0 Eb) as Hfr. destruct (store_crashed _ _ _ Hs0) as [_ Hd2 Hd3].
  destruct (room_keeps m bs) as (_ & _ & Rr & _). unfold old_or_new, frame_written, torn_file.
  cbn [m_world set_world w_fs w_db m_writer]. rewrite (room_content content Hc).
  rewrite (file_content_Some _ _ _ (lookup_set_file _ _ _)). set (e := mkentry b bs fl) in *.
  destruct (decide (length (enc_raw bs) <= n)%nat) as [Hn|Hn].
  - exists cs, c, [e], []. rewrite take_ge by done. rewrite bool_decide_eq_true_2 by done. split; [|by apply blocks_of_new].
    unfold appended in Hfr. cbn [m_world set_world w_fs] in Hfr. rewrite (file_content_Some _ _ _ Hc) in Hfr.
    constructor; [done|done|]. exists (length (mjoin (cs ++ [c]))). split; [apply mjoin_snoc_length|].
    rewrite take_chain. apply (so_mgr _ _ Hs0).
  - exists cs, c, [], (take n (enc_raw bs)). rewrite bool_decide_eq_false_2, !app_nil_r.
    2: { intros E. apply app_inv_head, (f_equal length) in E. rewrite length_take in E. lia. }
    split; [|done]. pose proof (mo_writer _ _ _ (so_mgr _ _ Hs0)) as Hw. pose proof (disk_last_file _ _ _ _ (so_disk _ _ Hs0)) as Hf.
    rewrite (so_info _ _ Hs0), summary_snoc in Hw. cbn [latestFileNumber] in Hw.
    rewrite <- Hw in Hf. assert (content = frames c) as -> by (eapply (inj Some), eq_trans; [symmetry; exact Hc|exact Hf]).
    constructor; rewrite ?app_nil_r in *; [|done|done]. pose proof (so_disk _ _ Hs0) as Hd0.
    rewrite Rr in Hd0, Hw. rewrite Hw. apply disk_set_last with c; [done| |by left]. apply torn_prefix; [apply Hb|lia].
Qed.

(** The index entry of the block in the file that takes it. *)
Definition new_idx : blockIdxInfo :=
  block_idx (latestFileNumber (m_info (room bs m))) (latestFileSize (m_info (room bs m))) b bs.

Lemma new_idx_wf : idx_wf new_idx fl.
Proof.
  destruct (store_room m chunks bs Hs Hfit Hfile) as (cs & c & Hs0 & _). destruct (room_keeps m bs) as (_ & _ & _ & _ & _ & Rs).
  pose proof (mo_file _ _ _ (so_mgr _ _ Hs0)). destruct (mo_content _ _ _ (so_mgr _ _ Hs0)) as (content & _ & Hlen).
  pose proof (zlen_nonneg content). apply block_idx_wf; [done|lia|lia].
Qed.

(** After the summary is saved the block stays, with or without its index. *)
Lemma saved_new (m1 : blockfileMgr) (indexed : bool) :
  let m0 := appended b bs (room bs m) in
  m_writer m1 = m_writer (room bs m) -> elsewhere (m_rootDir m) (w_fs (m_world m0)) (w_fs (m_world m1)) ->
  w_db (m_world m1) = (if indexed then DB_WriteBatch (full_batch new_idx fl) (w_db (m_world m0)) else w_db (m_world m0)) ->
  frame_written bs m m1 = true /\ old_or_new m1.
Proof.
  intros m0 Hw Hew Hdb. destruct (store_room m chunks bs Hs Hfit Hfile) as (cs & c & Hs0 & Eb & _).
  pose proof (room_frame cs c Hs0 Eb) as Hfr. destruct (room_keeps m bs) as (_ & _ & Rr & _). set (e := mkentry b bs fl) in *.
  destruct (mo_content _ _ _ (so_mgr _ _ Hs0)) as (content & Hc & _).
  assert (Hwr : frame_written bs m m1 = true).
  { apply bool_decide_eq_true_2. rewrite Hw, (room_content content Hc).
    pose proof (mo_writer _ _ _ (so_mgr _ _ Hs0)) as Hw'. pose proof (mo_file _ _ _ (so_mgr _ _ Hs0)).
    unfold file_content. rewrite Hw', Rr, (ew_files _ _ _ Hew) by lia. rewrite <- Rr, <- Hw'. unfold m0, appended.
    cbn [m_world set_world w_fs]. rewrite lookup_set_file. cbn [default]. by rewrite (file_content_Some _ _ _ Hc). }
  split; [done|]. exists cs, (c ++ [e]), [], []. rewrite Hwr, app_nil_r. split; [|by apply blocks_of_new].
  assert (Hsum : w_db (m_world m0) !! blkMgrInfoKey = Some (blockfilesInfo_marshal (summary (cs ++ [c ++ [e]])))).
  { unfold m0, appended. cbn [m_world set_world w_db]. rewrite lookup_insert_eq.
    rewrite (next_info_summary _ cs c b bs fl); [done|done|]. by apply room_number. }
  assert (Hix : index_ok (w_db (m_world m0)) (chain_of (cs ++ [c]))) by (apply index_ok_mgrkey, (so_mgr _ _ Hs0)).
  constructor; rewrite ?app_nil_r.
  - by eapply disk_elsewhere.
  - rewrite Hdb. destruct indexed; [|done]. rewrite batch_keeps_info; [done|apply new_idx_wf].
  - rewrite Hdb. destruct indexed.
    + exists (length (mjoin (cs ++ [c ++ [e]]))). split; [done|].
      rewrite take_ge by (unfold chain_of; by rewrite chain_from_length). rewrite chain_of_snoc.
      pose proof (so_info _ _ Hs0) as Hi. rewrite summary_snoc in Hi.
      replace (block_idx (zlen cs) (zlen (frames c)) (e_block e) (e_bytes e)) with new_idx
        by (unfold new_idx; by rewrite Hi).
      apply index_ok_snoc; [done|apply new_idx_wf|]. intros info' fl' Hin.
      pose proof (chain_numbers _ _ _ _ _ (so_mgr _ _ Hs0) Hin). destruct (room_number cs c Eb). cbn [new_idx block_idx bii_blockNum]. lia.
    + exists (length (mjoin (cs ++ [c]))). split; [apply mjoin_snoc_length|]. by rewrite take_chain.
Qed.

Lemma append_block_ends (f : list (option fault)) :
  ends (append_block b) (with_faults f m) (fun r m' =>
    (exists f', r = Ret (next_info b bs (room bs m), mkfileLocPointer (latestFileNumber (m_info (room bs m)))
       (mklocPointer (latestFileSize (m_info (room bs m))) 0), frame_locs b bs) /\
       m' = with_faults f' (appended b bs (room bs m))) \/
    (fails r /\ old_or_new m')).
Proof.
  destruct (store_room m chunks bs Hs Hfit Hfile) as (cs & c & Hs0 & Eb & _).
  destruct (mo_content _ _ _ (so_mgr _ _ Hs0)) as (content & Hc & Hlen). pose proof (bo_ser _ _ _ Hb) as ((sinfo & Hser) & _).
  unfold append_block. apply ends_bind. change (SerializeBlock b) with (serializeBlock b).
  unfold lift_outcome, ends at 1. cbn [fst snd]. rewrite Hser. apply ends_bind. eapply ends_eq; [done|]. cbn beta iota.
  change (m_maxBlockfileSize (with_faults f m)) with (m_maxBlockfileSize m).
  change (m_info (with_faults f m)) with (m_info m). rewrite frame_total. apply ends_bind.
  assert (Hframe : forall f', ends (append_frame b bs sinfo (latestFileSize (m_info (room bs m)))) (with_faults f' (room bs m))
    (fun r m' => (exists f', r = Ret (next_info b bs (room bs m), mkfileLocPointer (latestFileNumber (m_info (room bs m)))
       (mklocPointer (latestFileSize (m_info (room bs m))) 0), frame_locs b bs) /\
       m' = with_faults f' (appended b bs (room bs m))) \/ (fails r /\ old_or_new m'))).
  { intros f'. eapply ends_impl; [by apply (append_frame_ends (room bs m) b bs content)|].
    intros r m1 [?|(Hr & n & f1 & ->)]; [by left|]. right. split; [done|]. by apply torn_old_or_new. }
  unfold room in Hframe. destruct (m_maxBlockfileSize m <? latestFileSize (m_info m) + zlen (enc_raw bs)) eqn:Ho.
  - apply ends_bind. eapply ends_impl; [by eapply moveToNextFile_ends, Hs|].
    intros r m1 [(f1 & -> & ->)|(Hr & fs' & f1 & -> & Hfs)].
    + eapply ends_eq; [done|]. cbn beta iota. unfold room. rewrite Ho. apply Hframe.
    + assert (Ho1 : old_or_new (set_world (mkWorld fs' (w_db (m_world m)) f1) m)).
      { destruct Hfs as [-> | ->]; [apply untouched_old|apply created_old]. }
      destruct r as [[]|e|msg]; [by destruct (Hr tt)|..]; right; by split.
  - eapply ends_eq; [done|]. cbn beta iota. unfold room. rewrite Ho. apply Hframe.
Qed.

Lemma indexBlock_batch (w : World) : indexBlock (m_index m) new_idx w = db_WriteBatch (full_batch new_idx fl) w.
Proof.
  unfold indexBlock. rewrite index_all_nonempty by apply (so_mgr _ _ Hs).
  rewrite (index_batch_full _ new_idx fl); [done|apply (so_mgr _ _ Hs)|apply new_idx_wf].
Qed.

Lemma write_batch_ends (batch : batch) (w : World) :
  ends (db_WriteBatch batch) w (fun r w' => w_fs w' = w_fs w /\
    (r = Ret tt /\ w_db w' = DB_WriteBatch batch (w_db w) \/ fails r /\ w_db w' = w_db w)).
Proof.
  unfold ends, db_WriteBatch. destruct batch as [|u batch]; [cbn; by auto|]. cbn [length Nat.eqb].
  destruct w as [fs db [|[[n|n]|] f]]; cbn [next_fault w_faults w_fs w_db fst snd]; split; auto; by right.
Qed.

(** [addBlock] of a block that asks for no certificate change. *)
Definition no_edit : Prop :=
  path_exists peer_chain_dir (w_fs (m_world m)) = false \/ forall l, or_nil (ValidateAnalysis b) <> Ret (ChangeCert :: l).

Lemma redact_skipped (k : Z) (f : list (option fault)) (args : list bytes) :
  no_edit -> or_nil (ValidateAnalysis b) = Ret args -> redact b k (with_faults f m) = (Ret b, with_faults f m).
Proof.
  intros Hne Ea. unfold redact, mbind, M_bind, lift_outcome, in_world, get_fs. rewrite Ea.
  change (w_fs (m_world (with_faults f m))) with (w_fs (m_world m)). destruct Hne as [-> | Hne]; [done|].
  rewrite (bool_decide_eq_false_2 (head args = Some ChangeCert)); [by rewrite andb_false_r|].
  intros E. destruct args as [|op args]; [done|]. injection E as ->. by destruct (Hne args).
Qed.

Lemma redact_no_edit (k : Z) (f : list (option fault)) :
  no_edit -> redact b k (with_faults f m) = (Ret b, with_faults f m) \/
    exists msg, redact b k (with_faults f m) = (Panic msg, with_faults f m).
Proof.
  intros Hne. destruct (or_nil (ValidateAnalysis b)) as [args|e|msg] eqn:Ea.
  - left. by apply redact_skipped with args.
  - by destruct (ValidateAnalysis b).
  - right. exists msg. unfold redact, mbind, M_bind, lift_outcome. by rewrite Ea.
Qed.

Lemma addBlock_ends (k : Z) (f : list (option fault)) :
  no_edit -> (forall args, or_nil (ValidateAnalysis b) = Ret args -> Forall (outside (m_rootDir m)) (text_paths args)) ->
  ends (addBlock b k) (with_faults f m) (fun r m' =>
    old_or_new m' /\ (is_ret r = true -> frame_written bs m m' = true)).
Proof.
  intros Hne Htext. pose proof (untouched_old f) as Hold.
  unfold addBlock. apply ends_bind. eapply ends_eq; [done|]. cbn beta iota.
  destruct (negb _); [done|]. apply ends_bind.
  destruct (redact_no_edit k f Hne) as [E|(msg & E)]; (eapply ends_eq; [exact E|]); [|done]. cbn beta iota.
  destruct (negb _); [done|]. apply ends_bind. eapply ends_impl; [apply append_block_ends|].
  intros r m1 [(f1 & -> & ->)|(Hr & Ho)]; [|destruct r as [x|e|msg]; [by destruct (Hr x)|done..]].
  set (m0 := appended b bs (room bs m)). set (Q := fun m' => frame_written bs m m' = true /\ old_or_new m').
  assert (Hplain : forall fs' f', elsewhere (m_rootDir m) (w_fs (m_world m0)) fs' -> Q (set_world (mkWorld fs' (w_db (m_world m0)) f') m0))
    by (intros; by apply (saved_new _ false)).
  assert (HQ : forall (r : outcome Block) m', Q m' -> old_or_new m' /\ (is_ret r = true -> frame_written bs m m' = true)) by (intros ? ? []; done).
  apply ends_bind. eapply ends_impl; [apply on_text_elsewhere; intros; apply record_blockinfo_elsewhere|].
  intros r m2 (fs2 & f2 & He2 & ->). destruct r as [[]|e|msg]; [|apply HQ, Hplain; exact He2..].
  apply ends_bind. unfold lift_outcome, ends at 1. cbn [fst snd].
  destruct (or_nil (ValidateAnalysis b)) as [args|e|msg] eqn:Ea; [|apply HQ, Hplain; exact He2..].
  apply ends_bind. eapply ends_impl; [apply on_text_elsewhere; intros; apply record_cert_elsewhere; by apply Htext|].
  intros r m3 (fs3 & f3 & He3 & ->). cbn [m_world set_world w_fs w_db] in He3 |- *.
  assert (He : elsewhere (m_rootDir m) (w_fs (m_world m0)) fs3) by (by eapply elsewhere_trans).
  destruct r as [[]|e|msg]; [|apply HQ, Hplain; exact He..].
  apply ends_bind. change (mkblockIdxInfo _ _ _ _ _) with new_idx. unfold ends at 1, in_world.
  change (m_index (with_faults f m)) with (m_index m). rewrite indexBlock_batch.
  pose proof (write_batch_ends (full_batch new_idx fl) (mkWorld fs3 (w_db (m_world m0)) f3)) as Hwb. unfold ends in Hwb.
  cbn [m_world set_world w_db w_fs with_faults] in Hwb |- *.
  destruct (db_WriteBatch _ _) as [r w]; cbn [fst snd] in *. destruct Hwb as (Hfs & Hwb).
  destruct Hwb as [(-> & Hdb)|(Hr & Hdb)].
  - apply HQ, (saved_new _ true); [done|change (elsewhere (m_rootDir m) (w_fs (m_world m0)) (w_fs w)); by rewrite Hfs|done].
  - assert (HQ' : Q (set_world w m0)) by (apply (saved_new _ false); [done|change (elsewhere (m_rootDir m) (w_fs (m_world m0)) (w_fs w)); by rewrite Hfs|done]).
    destruct r as [[]|e|msg]; [by destruct (Hr tt)|..]; by apply HQ.
Qed.

End Stages.

(** ** Properties *)

(** C1: Whatever happens to the writes of an [addBlock] (every one of them can
    succeed, fail after some bytes, or be where the process stops) and whether it
    returns, fails, panics or stops: the store opens again from the files and the
    database that are left.  It has the old blocks, and the new one exactly when its
    whole frame is in the file; a block whose addition has returned is there.  The
    block asks for no certificate change on this peer, and the text files of its
    certificate operation are not those of the store. *)
Theorem reopen_after_crash (m : blockfileMgr) (chunks : list (list entry)) (b : Block) (bs fl : bytes) (k : Z)
    (faults : list (option fault)) (mx : Z) (cfg : list IndexableAttr) :
  store_ok m chunks -> block_ok b bs fl -> first_fits m bs -> no_edit m b ->
  (forall args, or_nil (ValidateAnalysis b) = Ret args -> Forall (outside (m_rootDir m)) (text_paths args)) ->
  Height (m_bcInfo m) + 2 < 2 ^ 64 -> latestFileNumber (m_info m) + 2 < 2 ^ 61 -> latestFileSize (m_info m) < 2 ^ 61 ->
  index_all (newBlockIndex cfg) ->
  let '(r, m1) := addBlock b k (with_faults faults m) in
  exists m' chunks',
    newBlockfileMgr (m_rootDir m) mx cfg (mkWorld (w_fs (m_world m1)) (w_db (m_world m1)) []) = (Ret m', m_world m') /\
    store_ok m' chunks' /\
    blocks_of chunks' = blocks_of chunks ++ (if frame_written bs m m1 then [b] else []) /\
    (is_ret r = true -> frame_written bs m m1 = true).
Proof.
  intros Hs Hb Hfit Hne Htext Hmax Hfile Hsize Hidx.
  assert (He : ends (addBlock b k) (with_faults faults m) (fun r m' =>
    old_or_new m chunks b bs m' /\ (is_ret r = true -> frame_written bs m m' = true))).
  { destruct (decide (Number (Block_Header b) = Height (m_bcInfo m))) as [Hn|Hn]; [by apply (addBlock_ends m chunks b bs fl)|].
    unfold ends, addBlock, mbind, M_bind, get_state. change (m_bcInfo (with_faults faults m)) with (m_bcInfo m).
    rewrite (proj2 (Z.eqb_neq _ _)) by done. split; [by apply untouched_old|done]. }
  unfold ends in He. destruct (addBlock b k _) as [r m1]. destruct He as ((cs & c1 & c2 & tail & Hc & Eb) & Hr).
  destruct (newBlockfileMgr_crashed _ _ _ mx cfg _ _ _ _ Hc Hidx) as (m' & E & Hs' & _).
  exists m', (cs ++ [c1 ++ c2]). split_and!; done.
Qed.

(** ** Failed writes *)

(** The next write succeeds. *)
Definition fine (faults : list (option fault)) : Prop := faults = [] \/ exists rest, faults = None :: rest.

Lemma truncate_fine (path content ext : bytes) (fs : Fs) (db : kvmap) (faults : list (option fault)) :
  files fs !! path = Some (content ++ ext) -> fine faults ->
  exists faults', truncateFile path (zlen content) (mkWorld fs db faults) =
    (Ret tt, mkWorld (set_file path content fs) db faults').
Proof.
  intros Hf Hfine. unfold truncateFile. cbn [w_fs next_fault w_faults w_db]. rewrite (file_content_Some _ _ _ Hf), zlen_app.
  pose proof (zlen_nonneg ext). pose proof (zlen_nonneg content).
  destruct (Z.ltb_spec (zlen content) (zlen content + zlen ext)).
  - destruct Hfine as [->|(rest & ->)]; rewrite (proj2 (Z.ltb_ge _ _)) by lia; rewrite zlen_to_nat, take_app_length; eauto.
  - assert (ext = []) as -> by (destruct ext; [done|]; rewrite zlen_cons in *; pose proof (zlen_nonneg ext); lia).
    rewrite app_nil_r in Hf. unfold set_file. rewrite insert_id by done. exists faults. by destruct fs.
Qed.

(** Which write fails, after how many bytes: the length of the frame, the block,
    the summary; the write after it, which cuts the file back, succeeds. *)
Definition append_fault_at (faults : list (option fault)) : Prop :=
  exists n rest, fine rest /\
    (faults = Some (Fails n) :: rest \/ faults = None :: Some (Fails n) :: rest \/
     faults = None :: None :: Some (Fails n) :: rest).

Lemma set_file_back (path content ext : bytes) (fs : Fs) :
  files fs !! path = Some content -> set_file path content (set_file path (content ++ ext) fs) = fs.
Proof. intros Hf. rewrite set_file_twice. unfold set_file. rewrite insert_id by done. by destruct fs. Qed.

Lemma append_frame_fault (m : blockfileMgr) (b : Block) (bs content : bytes) (info : serializedBlockInfo) (off : Z)
    (faults : list (option fault)) :
  append_fault_at faults -> files (w_fs (m_world m)) !! m_writer m = Some content ->
  zlen content = latestFileSize (m_info m) ->
  exists faults', append_frame b bs info off (with_faults faults m) = (Err ErrIO, with_faults faults' m).
Proof.
  intros (n & rest & Hfine & Hf) Hc Hsz. unfold with_faults. set (fs := w_fs (m_world m)) in *. set (db := w_db (m_world m)).
  set (v := EncodeVarint (u64 (zlen bs))).
  unfold append_frame, mbind, M_bind, get_state, try, in_world, or_panic. cbn [m_world set_world m_info m_writer].
  rewrite <- Hsz. fold v. destruct Hf as [->|[->| ->]].
  - rewrite (append_fault _ _ _ _ _ _ content) by done. cbn [m_world set_world].
    destruct (truncate_fine (m_writer m) content (take n v) (set_file (m_writer m) (content ++ take n v) fs) db rest)
      as (f' & E); [apply lookup_set_file|done|]. rewrite E, set_file_back by done. by exists f'.
  - rewrite (append_ok _ _ _ _ _ content) by done. cbn [m_world set_world].
    rewrite (append_fault _ _ _ _ _ _ (content ++ v)) by apply lookup_set_file. cbn [m_world set_world].
    rewrite set_file_twice, <- app_assoc.
    destruct (truncate_fine (m_writer m) content (v ++ take n bs) (set_file (m_writer m) (content ++ v ++ take n bs) fs) db rest)
      as (f' & E); [apply lookup_set_file|done|]. rewrite E, set_file_back by done. by exists f'.
  - rewrite (append_ok _ _ _ _ _ content) by done. cbn [m_world set_world].
    rewrite (append_ok _ _ _ _ _ (content ++ v)) by apply lookup_set_file. cbn [m_world set_world].
    rewrite set_file_twice, <- app_assoc. unfold saveBlkfilesInfo, db_Put. cbn [next_fault w_faults w_fs w_db].
    destruct (truncate_fine (m_writer m) content (v ++ bs) (set_file (m_writer m) (content ++ v ++ bs) fs) db rest)
      as (f' & E); [apply lookup_set_file|done|]. cbn [m_world set_world]. rewrite E, set_file_back by done. by exists f'.
Qed.

Lemma moveToNextFile_fine (m : blockfileMgr) (blocks : list Block) (chain : list (blockIdxInfo * bytes)) (f : list (option fault)) :
  mgr_ok m blocks chain -> moveToNextFile (with_faults (None :: None :: f) m) = (Ret tt, with_faults f (moved m)).
Proof.
  intros Hm. pose proof (mo_file _ _ _ Hm) as Hf. pose proof (mo_dirs _ _ _ Hm) as [Hd Hnd].
  pose proof (mo_next _ _ _ Hm) as Hnext. destruct m as [root mx idx info bsi wr bc [fs db faults]]. cbn in *.
  set (n := latestFileNumber info + 1) in *. set (path := deriveBlockfilePath root n) in *.
  assert (Hp : unused path fs) by (apply Hnext; unfold n; lia).
  assert (Hcan : can_create path fs = true).
  { apply can_create_dir; [apply Hnd; unfold n; lia|]. unfold path. by rewrite dirname_blockfile by (unfold n; lia). }
  unfold moveToNextFile, mbind, M_bind, get_state, or_panic, in_world, newBlockfileWriter, with_faults.
  cbn [m_rootDir m_info latestFileNumber m_world w_fs set_world w_db]. fold n path. rewrite Hcan.
  cbn [next_fault w_faults w_fs w_db]. by rewrite (unused_content _ _ Hp).
Qed.

(** C20: An error of one of the two writes of the frame or of the save of the
    summary, after any number of bytes: [addBlock] reports it, and when the file can
    be cut back (its error is dropped) the store has the blocks it had.  It is the
    manager, the files and the database of before, or, when the block did not fit in
    the current file, these with the next file started. *)
Theorem addBlock_io_error_undone (m : blockfileMgr) (chunks : list (list entry)) (b : Block) (bs fl : bytes) (k : Z)
    (args : list bytes) (faults : list (option fault)) :
  store_ok m chunks -> block_ok b bs fl -> first_fits m bs -> no_edit m b -> or_nil (ValidateAnalysis b) = Ret args ->
  Number (Block_Header b) = Height (m_bcInfo m) -> PreviousHash (Block_Header b) = CurrentBlockHash (m_bcInfo m) ->
  latestFileNumber (m_info m) + 2 < 2 ^ 61 -> append_fault_at faults ->
  exists m' chunks' faults',
    addBlock b k (with_faults (if overflows m bs then None :: None :: faults else faults) m) = (Err ErrIO, with_faults faults' m') /\
    store_ok m' chunks' /\ blocks_of chunks' = blocks_of chunks /\
    (if overflows m bs then m' = moved m /\ chunks' = chunks ++ [[]] else m' = m).
Proof.
  intros Hs Hb Hfit Hne Hargs Hnum Hprev Hfile Hf. pose proof (bo_ser _ _ _ Hb) as ((sinfo & Hser) & _).
  destruct (store_room m chunks bs Hs Hfit Hfile) as (cs & c & Hs0 & Eb & _ & Ho).
  destruct (mo_content _ _ _ (so_mgr _ _ Hs0)) as (content & Hc & Hsz).
  destruct (append_frame_fault (room bs m) b bs content sinfo (latestFileSize (m_info (room bs m))) faults Hf Hc Hsz) as (f' & E).
  exists (room bs m), (cs ++ [c]), f'. split; [|split; [done|split; [done|]]].
  - set (f0 := if overflows m bs then _ else _). unfold addBlock, mbind, M_bind, get_state.
    change (m_bcInfo (with_faults f0 m)) with (m_bcInfo m). rewrite Hnum, Z.eqb_refl. cbn [negb].
    rewrite (redact_skipped m b k f0 args) by done.
    rewrite Hprev, bool_decide_eq_true_2 by done. cbn [negb].
    assert (Ea : append_block b (with_faults f0 m) = (Err ErrIO, with_faults f' (room bs m))).
    { rewrite <- E. unfold append_block, mbind, M_bind, lift_outcome, get_state. change (SerializeBlock b) with (serializeBlock b).
      rewrite Hser, frame_total. unfold f0, room, overflows. cbn [m_maxBlockfileSize m_info with_faults set_world].
      destruct (m_maxBlockfileSize m <? _); [|done]. by erewrite moveToNextFile_fine by apply Hs. }
    by rewrite Ea.
  - unfold room, overflows in *. destruct (_ <? _); [|done]. by destruct Ho as [-> ->].
Qed.

End Crash.
