(* ===== verification/CertOps.v ===== *)
(** * The certificate operations inside [addBlock]

    The branches of src/common/ledger/blkstorage/blockfile_mgr.go that the fork
    adds for the chaincode functions ChangeCert, CreatTimeHashlock,
    ExeTimeHashlock and so on: what they do to the old block, to the text files
    under /var and to the block being added. *)

From S2P Require Import Prelude Varint OrderedCode Sha256 GoBig GoOS LevelDB Storage Chameleon.
From S2P Require Import Proto Block BlockSerialization BlockStream BlockIndex Redaction.
From S2P Require Import BlockfileMgr BlockfileMgrOk.

Section CertOps.
Context {PR : Protos} {PK : ProtosOk}.

(** ** A block whose first transaction was blanked *)

Lemma ValidateAnalysis_blank (b : Block) (rest : list bytes) :
  Block_Data b = [] :: rest -> exists msg, ValidateAnalysis b = Panic msg.
Proof.
  intros E. unfold ValidateAnalysis. rewrite E. unfold open_tx, GetEnvelopeFromBlock, UnmarshalPayload, UnmarshalTransaction, proto_Unmarshal.
  rewrite Unmarshal_nil_Envelope. cbn [mbind outcome_bind Envelope_Payload].
  rewrite Unmarshal_nil_Payload. cbn [mbind outcome_bind Payload_Data].
  rewrite Unmarshal_nil_Transaction. cbn. by eexists.
Qed.

Lemma ValidateAnalysis_data (b : Block) (x : bytes) (l : list bytes) :
  or_nil (ValidateAnalysis b) = Ret (x :: l) -> exists d rest, Block_Data b = d :: rest.
Proof. unfold ValidateAnalysis. destruct (Block_Data b) as [|d rest]; [done|eauto]. Qed.

(** The block that asks for the edit loses its first transaction. *)
Lemma redact_ChangeCert (m : blockfileMgr) (b b' : Block) (k : Z) (m' : blockfileMgr) (l : list bytes) :
  path_exists peer_chain_dir (w_fs (m_world m)) = true -> or_nil (ValidateAnalysis b) = Ret (ChangeCert :: l) ->
  redact b k m = (Ret b', m') -> exists rest, Block_Data b' = [] :: rest.
Proof.
  intros Hp Hv. unfold redact. intros E. apply bind_ret_inv in E as (c & m1 & E1 & E).
  unfold lift_outcome in E1. rewrite Hv in E1. injection E1 as <- <-.
  apply bind_ret_inv in E as (fs & m1 & E1 & E). unfold in_world, get_fs in E1. injection E1 as <- <-.
  rewrite Hp in E. cbn [andb head] in E. rewrite bool_decide_eq_true_2 in E by done.
  apply bind_ret_inv in E as (u & m2 & _ & E). injection E as <- _.
  destruct (ValidateAnalysis_data _ _ _ Hv) as (d & rest & Hd). exists rest. unfold set_data0. cbn [Block_Data].
  by rewrite Hd.
Qed.

(** Reading a frame whose length field was overwritten by the block itself: the
    stream takes the block's number for the length. *)
Lemma edited_frame (fs : Fs) (path pre post : bytes) (fileNum : Z) (b : Block) (bs : bytes) (info : serializedBlockInfo) :
  serializeBlock b = Ret (bs, info) -> 0 <= Number (Block_Header b) < 2 ^ 56 ->
  file_content path fs = pre ++ bs ++ post ->
  let body := drop (length (EncodeVarint (Number (Block_Header b)))) bs ++ post in
  Number (Block_Header b) <= zlen body ->
  fst (nextBlockBytes fs (mkblockfileStream fileNum path (zlen pre))) =
    Ret (Some (take (Z.to_nat (Number (Block_Header b))) body)).
Proof.
  intros Hs Hn Hf body Hle. apply serializeBlock_inv in Hs as (h & data & md & -> & -> & ->). cbn [Block_Header] in *.
  set (n := Z.to_nat (Number h)).
  assert (Hz : zlen (take n body) = Number h) by (unfold zlen, n in *; rewrite length_take; lia).
  assert (Hfr : frame_ok (take n body)) by (unfold frame_ok; rewrite Hz; lia).
  assert (Eb : block_bytes h data md ++ post = EncodeVarint (Number h) ++ body).
  { unfold body, block_bytes, header_bytes. rewrite <- !app_assoc, drop_app_length. by rewrite <- !app_assoc. }
  rewrite (nextBlockBytes_frame fs fileNum path pre (take n body) (drop n body)); [done| |done].
  rewrite Hf, Eb, (enc_raw_ok _ Hfr), Hz, <- app_assoc, take_drop. done.
Qed.

(** ** Invocations *)

(** The envelope of an invocation with the given arguments. *)
Definition invoke_tx (args : list bytes) : bytes :=
  let cis := mkChaincodeInvocationSpec (Some (mkChaincodeSpec 1 None (Some (mkChaincodeInput args [] false)) 0)) in
  let cpp := mkChaincodeProposalPayload (Marshal cis) [] in
  let cap := mkChaincodeActionPayload (Marshal cpp) None in
  let tx := mkTransaction [mkTransactionAction [] (Marshal cap)] in
  let payl := mkPayload None (Marshal tx) in
  Marshal (mkEnvelope (Marshal payl) []).

Lemma ValidateAnalysis_invoke (b : Block) (args : list bytes) (rest : list bytes) :
  Block_Data b = invoke_tx args :: rest -> ValidateAnalysis b = Ret args.
Proof.
  intros E. unfold ValidateAnalysis. rewrite E. unfold invoke_tx, open_tx, open_spec, GetEnvelopeFromBlock, UnmarshalPayload,
    UnmarshalTransaction, UnmarshalChaincodeActionPayload, UnmarshalChaincodeProposalPayload, UnmarshalChaincodeInvocationSpec.
  repeat (rewrite proto_Unmarshal_Marshal; cbn [mbind outcome_bind Envelope_Payload Payload_Data Transaction_Actions
    go_index nth_error lookup list_lookup TransactionAction_Payload CAP_ChaincodeProposalPayload CPP_Input tp_cap]).
  done.
Qed.

(** ** Locks *)

(** The arguments of a lock: function, owner, certificate, hash, start, end, hash. *)
Definition lock_args (op owner cert hash start stop hash2 : bytes) : list bytes :=
  [op; owner; cert; hash; start; stop; hash2].

Definition lock_line (cert hash start stop : bytes) : bytes :=
  cert ++ plusplus ++ hash ++ plusplus ++ start ++ plusplus ++ stop.

Lemma create_lock (owner cert hash start stop hash2 num : bytes) (fs : Fs) :
  let path := str "/var/bugu" ++ cert in
  path ∉ dirs fs -> str "/var" ∈ dirs fs -> files fs !! path = None -> Byte.x2f ∉ cert ->
  record_cert (lock_args CreatTimeHashlock owner cert hash start stop hash2) num fs =
    (Ret tt, set_file path (lock_line cert hash start stop) fs).
Proof.
  intros path Hn Hd Hf Hs. unfold record_cert, lock_args.
  rewrite !(bool_decide_eq_false_2 (CreatTimeHashlock = _)) by (vm_compute; discriminate).
  rewrite bool_decide_eq_true_2 by done.
  assert (Edir : dirname path = str "/var").
  { unfold path. change (str "/var/bugu" ++ cert) with (str "/var" ++ str "/" ++ str "bugu" ++ cert).
    apply dirname_join. rewrite elem_of_app. intros [H|H]; [|done]. by apply (bool_decide_unpack _) in H || (vm_compute in H; set_solver). }
  assert (Hc : can_create path fs = true) by (apply can_create_dir; [done|by rewrite Edir]).
  assert (Hc1 : can_create path (set_file path [] fs) = true) by (by eapply can_create_file; [apply lookup_set_file|]).
  unfold mbind, M_bind, lift_outcome, append_or_panic, append_file. cbn [go_index lookup list_lookup].
  fold path. rewrite Hc, (file_content_None _ _ Hf). cbn [app]. rewrite Hc1.
  rewrite (file_content_Some path [] (set_file path [] fs)) by apply lookup_set_file.
  change (lock_text _) with (Ret (lock_line cert hash start stop)). cbn [app]. by rewrite set_file_twice.
Qed.

(** Executing an existing lock: the time test panics when the end is after the
    start; otherwise the lock file is removed. *)
Lemma execute_lock (owner cert hash start stop hash2 num content : bytes) (fs : Fs) :
  let path := str "/var/bugu" ++ cert in
  files fs !! path = Some content ->
  record_cert (lock_args ExeTimeHashlock owner cert hash start stop hash2) num fs =
    if fst (Atoi start) <? fst (Atoi stop) then (Panic "the time of time_hash lock is error", fs)
    else (Ret tt, remove_file path fs).
Proof.
  intros path Hf. unfold record_cert, lock_args.
  rewrite !(bool_decide_eq_false_2 (ExeTimeHashlock = _)) by (vm_compute; discriminate).
  rewrite bool_decide_eq_true_2 by done.
  unfold exe_lock, mbind, M_bind, lift_outcome, get_state. cbn [go_index lookup list_lookup]. fold path. rewrite Hf.
  cbn [andb]. unfold mret, M_ret. destruct (_ <? _); done.
Qed.

Lemma execute_del_lock (owner cert hash start stop hash2 num content : bytes) (fs : Fs) :
  let path := str "/var/del" ++ cert in
  files fs !! path = Some content -> content <> [] ->
  record_cert (lock_args ExedelTimeHashlock owner cert hash start stop hash2) num fs =
    (Ret tt, remove_file path fs).
Proof.
  intros path Hf Hc. unfold record_cert, lock_args.
  rewrite !(bool_decide_eq_false_2 (ExedelTimeHashlock = _)) by (vm_compute; discriminate).
  rewrite bool_decide_eq_true_2 by done.
  unfold exe_lock, mbind, M_bind, lift_outcome, get_state. cbn [go_index lookup list_lookup]. fold path. rewrite Hf.
  destruct (ReadLine content) eqn:E; [done|]. exfalso. unfold ReadLine in E. destruct content; [done|].
  destruct (split_newline _ _) as [[? ?]|]; [done|]. by destruct (_ <? _)%nat.
Qed.

Lemma remove_set_file (path c : bytes) (fs : Fs) : files fs !! path = None -> remove_file path (set_file path c fs) = fs.
Proof. intros Hf. unfold remove_file, set_file. cbn [files dirs]. rewrite delete_insert_id by done. by destruct fs. Qed.

(** ** The offsets of the blocks *)

Lemma digits_not (n : Z) (c : byte) : 0 <= n -> is_digit 10 c = false -> c ∉ digits 10 n.
Proof.
  intros Hn Hc Hin. destruct (digits_spec 10 n ltac:(lia) Hn) as (H & _).
  rewrite forallb_forall in H. apply list_elem_of_In in Hin. specialize (H _ Hin). congruence.
Qed.

Lemma FormatUint_inj (n m : Z) : 0 <= n -> 0 <= m -> FormatUint n = FormatUint m -> n = m.
Proof.
  unfold FormatUint. intros Hn Hm E. destruct (digits_spec 10 n ltac:(lia) Hn) as (_ & _ & <-).
  destruct (digits_spec 10 m ltac:(lia) Hm) as (_ & _ & <-). by rewrite E.
Qed.

(** A line of /var/blockinfo_000000: block number and offset. *)
Definition offset_record (r : Z * Z) : bytes * bytes := (FormatUint (fst r), Itoa (snd r)).
Definition offset_ok (r : Z * Z) : Prop := is_u64 (fst r) /\ 0 <= snd r < 2 ^ 62.

Lemma Itoa_nonneg (n : Z) : 0 <= n -> Itoa n = FormatUint n.
Proof. intros Hn. unfold Itoa. by rewrite (proj2 (Z.ltb_ge _ _)). Qed.

Lemma offset_record_ok (r : Z * Z) : offset_ok r -> record_ok (offset_record r).
Proof.
  intros [Hn Ho]. unfold record_ok, offset_record, record_line. cbn [fst snd]. rewrite Itoa_nonneg by lia. unfold FormatUint.
  assert (0 <= fst r < 2 ^ 64) by (unfold is_u64 in Hn; lia).
  pose proof (digits_length 10 (fst r) 64 ltac:(lia) ltac:(lia)). pose proof (digits_length 10 (snd r) 62 ltac:(lia) ltac:(lia)).
  repeat split; try (apply digits_not; [lia|done]). rewrite !length_app. change (length plusplus) with 2%nat. unfold bufio_size. lia.
Qed.

Lemma list_find_key (l : list (bytes * bytes)) (k v : bytes) :
  NoDup l.*1 -> (k, v) ∈ l -> exists i, list_find (fun kv => fst kv = k) l = Some (i, (k, v)).
Proof.
  induction l as [|[k' v'] l IH]; intros Hnd Hin; [by apply not_elem_of_nil in Hin|].
  change (((k', v') :: l).*1) with (k' :: l.*1) in Hnd. apply NoDup_cons in Hnd as [Hk Hnd].
  cbn [list_find]. destruct (decide (fst (k', v') = k)) as [E|E]; cbn [fst] in E.
  - apply elem_of_cons in Hin as [E'|Hin]; [injection E' as -> ->; eauto|]. exfalso. apply Hk. subst k'.
    apply list_elem_of_fmap. by exists (k, v).
  - apply elem_of_cons in Hin as [E'|Hin]; [congruence|]. destruct (IH Hnd Hin) as (i & ->). cbn. eauto.
Qed.

Lemma lookup_offset (recs : list (Z * Z)) (n o : Z) (fs : Fs) :
  files fs !! blockinfo_path = Some (records (offset_record <$> recs)) -> Forall offset_ok recs -> NoDup recs.*1 ->
  (n, o) ∈ recs -> GetBlockOffsetFromFile (FormatUint n) fs = Ret (Itoa o).
Proof.
  intros Hf Hok Hnd Hin. pose proof (proj1 (Forall_forall _ _) Hok _ Hin) as [Hn _]. cbn [fst] in Hn.
  rewrite (GetBlockOffsetFromFile_records (offset_record <$> recs)); [|done| |].
  - destruct (list_find_key (offset_record <$> recs) (FormatUint n) (Itoa o)) as (i & E).
    + rewrite <- list_fmap_compose. change (fst ∘ offset_record) with (FormatUint ∘ (fst : Z * Z -> Z)).
      rewrite list_fmap_compose. apply NoDup_fmap_2_strong; [|done]. intros x y Hx Hy E.
      assert (Hp : forall z, z ∈ recs.*1 -> 0 <= z).
      { intros z Hz. apply list_elem_of_fmap in Hz as (r & -> & Hr).
        pose proof (proj1 (Forall_forall _ _) Hok _ Hr) as [H _]. unfold is_u64 in H. lia. }
      apply FormatUint_inj in E; [done|by apply Hp..].
    + apply list_elem_of_fmap. by exists (n, o).
    + rewrite E. done.
  - apply Forall_fmap. eapply Forall_impl; [exact Hok|]. intros r. apply offset_record_ok.
  - unfold FormatUint. apply digits_spec; [lia|]. unfold is_u64 in Hn. lia.
Qed.

(** ** Properties *)

(** C31: On a peer (its chain directory exists) a block that invokes ChangeCert is
    never added: after the edit its first transaction is blanked, and the second
    analysis of the block indexes the missing actions of an empty transaction. *)
Theorem addBlock_ChangeCert_never_succeeds (m m' : blockfileMgr) (b b' : Block) (k : Z) (l : list bytes) :
  path_exists peer_chain_dir (w_fs (m_world m)) = true -> or_nil (ValidateAnalysis b) = Ret (ChangeCert :: l) ->
  addBlock b k m <> (Ret b', m').
Proof.
  intros Hp Hv E. unfold addBlock in E. apply bind_ret_inv in E as (? & ? & [= <- <-] & E).
  destruct (negb _) in E; [done|]. apply bind_ret_inv in E as (b1 & m1 & Er & E).
  destruct (redact_ChangeCert _ _ _ _ _ _ Hp Hv Er) as (rest & Hd).
  destruct (ValidateAnalysis_blank _ _ Hd) as (msg & Eb).
  destruct (negb _) in E; [done|]. apply bind_ret_inv in E as ([[info flp] txs] & m2 & _ & E).
  apply bind_ret_inv in E as (u & m3 & _ & E). apply bind_ret_inv in E as (args & m4 & Ea & _).
  unfold lift_outcome in Ea. rewrite Eb in Ea. done.
Qed.

(** C34: A certificate lock: creating it writes the lock file; executing it gives the
    file system back, but only when the end time is not after the start time: in
    the ordinary case the peer panics. *)
Theorem time_lock_roundtrip (owner cert hash start stop hash2 num : bytes) (fs : Fs) :
  let path := str "/var/bugu" ++ cert in
  path ∉ dirs fs -> str "/var" ∈ dirs fs -> files fs !! path = None -> Byte.x2f ∉ cert ->
  exists fs1,
    record_cert (lock_args CreatTimeHashlock owner cert hash start stop hash2) num fs = (Ret tt, fs1) /\
    file_content path fs1 = lock_line cert hash start stop /\
    record_cert (lock_args ExeTimeHashlock owner cert hash start stop hash2) num fs1 =
      if fst (Atoi start) <? fst (Atoi stop) then (Panic "the time of time_hash lock is error", fs1)
      else (Ret tt, fs).
Proof.
  intros path Hn Hd Hf Hs. eexists. split; [by apply create_lock|].
  split; [apply file_content_Some, lookup_set_file|].
  rewrite (execute_lock _ _ _ _ _ _ _ (lock_line cert hash start stop)) by apply lookup_set_file.
  rewrite remove_set_file by done. done.
Qed.

(** The offset [addBlock] records in /var/blockinfo_000000 is the one the edit
    looks up later, for the new block and for all the earlier ones. *)
Theorem recorded_offsets_found (recs : list (Z * Z)) (b : Block) (off : Z) (fs : Fs) :
  let new := recs ++ [(Number (Block_Header b), off)] in
  files fs !! blockinfo_path = Some (records (offset_record <$> recs)) -> blockinfo_path ∉ dirs fs ->
  Forall offset_ok new -> NoDup new.*1 ->
  exists fs', record_blockinfo b off fs = (Ret tt, fs') /\
    forall n o, (n, o) ∈ new ->
      GetBlockOffsetFromFile (FormatUint n) fs' = Ret (Itoa o) /\ Atoi (Itoa o) = (o, None).
Proof.
  intros new Hf Hd Hok Hnd. unfold record_blockinfo, append_or_panic, append_file.
  rewrite (can_create_file _ _ _ Hf Hd), (file_content_Some _ _ _ Hf). eexists. split; [done|]. intros n o Hin.
  pose proof (proj1 (Forall_forall _ _) Hok _ Hin) as [_ Ho]. cbn [snd] in Ho.
  split; [|rewrite Itoa_nonneg by lia; apply Atoi_Itoa; lia].
  apply (lookup_offset new); try done. rewrite lookup_set_file. f_equal. unfold new, records.
  rewrite fmap_app, bind_app. f_equal. cbn [fmap list_fmap offset_record]. unfold mbind, list_bind, record_line.
  cbn [fst snd]. rewrite app_nil_r, <- !app_assoc. done.
Qed.

End CertOps.
