(* ===== verification/CertEdit.v ===== *)
(** * The edit of a certificate in a block that is on the chain

    What adding a ChangeCert block does to the block that holds the certificate: the
    stages of [addBlock] (src/common/ledger/blkstorage/blockfile_mgr.go) from the text
    files that lead to the block, over the rewriting of its transaction, to the write
    into the block file, and what the store reads there afterwards. *)

From S2P Require Import Prelude Varint OrderedCode Sha256 GoBig GoOS LevelDB Storage Chameleon.
From S2P Require Import Proto Block BlockSerialization BlockStream BlockIndex Redaction.
From S2P Require Import BlockfileMgr BlockfileMgrOk BlockfileMgrRecover BlockStoreOk BlockStoreCrash CertOps.

Section CertEdit.
Context {PR : Protos} {PK : ProtosOk}.

#[local] Opaque blockfilesInfo_marshal EncodeVarint BlockHeaderHash blkMgrInfoKey generateCollision.

(** ** The files beside the block files *)

Lemma outside_peer (path : bytes) (k : nat) :
  take k path <> take k (peer_chain_dir ++ str "/") -> (k <= length (peer_chain_dir ++ str "/"))%nat ->
  outside peer_chain_dir path.
Proof.
  intros Hne Hk. assert (H : forall x, path <> (peer_chain_dir ++ str "/") ++ x).
  { intros x E. apply Hne. rewrite E. by rewrite take_app_le. }
  split.
  - intros n _ E. apply (H (blockfilePrefix ++ Sprintf_06d n)). rewrite <- E. unfold deriveBlockfilePath. by rewrite <- app_assoc.
  - intros E. apply (H bootstrappingSnapshotInfoFile). rewrite E. by rewrite <- app_assoc.
Qed.

Lemma outside_error3 : outside peer_chain_dir (str "/var/error3.txt").
Proof. apply (outside_peer _ 6); [by vm_compute|]. by apply (bool_decide_unpack _). Qed.

Lemma outside_error4 : outside peer_chain_dir (str "/var/error4.txt").
Proof. apply (outside_peer _ 6); [by vm_compute|]. by apply (bool_decide_unpack _). Qed.

Lemma outside_randomness (num : Z) : outside peer_chain_dir (randomness_path num).
Proof.
  apply (outside_peer _ 2); [|by apply (bool_decide_unpack _)]. unfold randomness_path.
  change (take 2 (str "/opt/gopath/blockfile" ++ FormatUint num)) with (str "/o"). by vm_compute.
Qed.

Lemma overwrite_elsewhere (rootDir path b : bytes) (fs : Fs) : outside rootDir path -> elsewhere rootDir fs (overwrite_file path b fs).
Proof. intros Ho. unfold overwrite_file. destruct (can_create _ _); [by apply elsewhere_set|done]. Qed.

Lemma FormatUint_ne (num : Z) : 0 <= num -> FormatUint num <> [].
Proof. intros Hn. unfold FormatUint. apply digits_spec; lia. Qed.

(** ** The block that is edited *)

Section Edit.
Context (m : blockfileMgr) (c1 c2 : list entry) (e : entry).
Context (Hs : store_ok m [c1 ++ e :: c2]) (Hroot : m_rootDir m = peer_chain_dir).

Let fs0 : Fs := w_fs (m_world m).
Let n : Z := zlen c1.

Let path0 : bytes := deriveBlockfilePath peer_chain_dir 0.

Lemma edit_writer : m_writer m = path0.
Proof.
  destruct (store_chunks _ _ Hs) as (cs & c & E & _ & _ & Hw). unfold path0. rewrite <- Hroot, Hw.
  destruct cs; [done|]. apply (f_equal length) in E. rewrite length_app in E. simpl in E. lia.
Qed.

Lemma edit_file : files fs0 !! path0 = Some (frames c1 ++ enc_raw (e_bytes e) ++ frames c2).
Proof.
  pose proof (disk_last_file _ _ [] (c1 ++ e :: c2) (so_disk _ _ Hs)) as Hf. unfold fs0, path0. rewrite <- Hroot.
  rewrite <- frames_cons, <- frames_app. exact Hf.
Qed.

Lemma edit_entry : entry_ok e.
Proof.
  pose proof (dk_entries _ _ _ _ (so_disk _ _ Hs)) as H. apply Forall_singleton, Forall_app in H as [_ H].
  by apply Forall_cons in H as [H _].
Qed.

Lemma edit_number : Number (Block_Header (e_block e)) = n.
Proof.
  apply (dk_numbers _ _ _ _ (so_disk _ _ Hs) (length c1)). unfold blocks_of. change (mjoin [c1 ++ e :: c2]) with ((c1 ++ e :: c2) ++ []).
  rewrite app_nil_r, fmap_app, lookup_app_r by (by rewrite length_fmap). by rewrite length_fmap, Nat.sub_diag.
Qed.

Lemma edit_offset : 0 <= zlen (frames c1) < 2 ^ 62.
Proof.
  pose proof (dk_sizes _ _ _ _ (so_disk _ _ Hs)) as H. rewrite Forall_singleton, frames_app, zlen_app in H.
  pose proof (zlen_nonneg (frames c1)). pose proof (zlen_nonneg (frames (e :: c2))). lia.
Qed.

(** The peer reads the block back from the recorded offset. *)
Lemma getBlock_edit :
  getBlock (Itoa (zlen (frames c1))) fs0 = (Ret (e_block e), append_file (str "/var/error4.txt") (e_bytes e) fs0).
Proof.
  pose proof edit_offset as Ho. pose proof edit_entry as He. pose proof (bo_ser _ _ _ He) as Hser.
  unfold getBlock. rewrite Itoa_nonneg, Atoi_Itoa by lia. unfold ScanForLastCompleteBlock, newBlockfileStream.
  fold path0. rewrite edit_file. rewrite (proj2 (Z.ltb_ge _ _)) by lia. cbn [mbind outcome_bind].
  rewrite (nextBlockBytes_frame fs0 0 _ (frames c1) (e_bytes e) (frames c2)); [|by rewrite (file_content_Some _ _ _ edit_file)|apply Hser].
  cbn beta iota. change (default [] (Some (e_bytes e))) with (e_bytes e).
  change (DeserializeBlock (e_bytes e)) with (deserializeBlock (e_bytes e)).
  destruct (serialized_info _ _ Hser) as (_ & _ & _ & E). by rewrite E.
Qed.

(** The files after the edit: the block file with [bs] written at the offset of the
    old frame, and text files. *)
Lemma edited_files (bs r2 s2 : bytes) (num : Z) (old : bytes) :
  let fs2 := append_file (str "/var/error3.txt") bs (append_file (str "/var/error4.txt") old fs0) in
  let fs3 := set_file path0 (write_at (file_content path0 fs2) bs (length (frames c1))) fs2 in
  let fs4 := store_randomness num r2 s2 fs3 in
  files fs4 !! path0 = Some (frames c1 ++ bs ++ drop (length bs) (enc_raw (e_bytes e) ++ frames c2)).
Proof.
  intros fs2 fs3 fs4. pose proof outside_error3 as O3. pose proof outside_error4 as O4. pose proof (outside_randomness num) as Or.
  assert (E2 : files fs2 !! path0 = files fs0 !! path0).
  { unfold fs2, path0. rewrite (ew_files _ _ _ (elsewhere_append peer_chain_dir _ _ _ O3)) by lia.
    by rewrite (ew_files _ _ _ (elsewhere_append peer_chain_dir _ _ _ O4)) by lia. }
  unfold fs4, store_randomness, path0. rewrite (ew_files _ _ _ (overwrite_elsewhere _ _ _ _ Or)) by lia. fold path0.
  unfold fs3. rewrite lookup_set_file. f_equal. rewrite edit_file in E2. rewrite (file_content_Some _ _ _ E2). unfold write_at.
  rewrite take_app_length, (proj2 (Nat.sub_0_le _ _)) by (rewrite length_app; lia). cbn [replicate app].
  by rewrite <- drop_drop, drop_app_length.
Qed.

(** The old block with the new argument and the new value: the block that is written. *)
Lemma edited_block (d key2 a11 : bytes) (ds args : list bytes) :
  Block_Data (e_block e) = d :: ds -> cert_tx_ok d -> GetArgsFromBlock (e_block e) = Ret args -> args !! 11%nat = Some a11 ->
  exists value nb1 nb bs info,
    GetRwsetFromBlock (e_block e) = Ret value /\
    PutArgsInBlock (<[11%nat := key2]> args) (e_block e) = Ret nb1 /\
    PutRwsetInBlock (Replace1 value a11 key2) nb1 = Ret nb /\
    serializeBlock nb = Ret (bs, info) /\ same_but_first (e_block e) nb /\
    GetArgsFromBlock nb = Ret (<[11%nat := key2]> args) /\ GetRwsetFromBlock nb = Ret (Replace1 value a11 key2).
Proof.
  intros Hd Hok Hargs Ha. pose proof (bo_flags _ _ _ edit_entry) as (md & Hmd & _).
  pose proof Hok as (p & Hp & _ & r & w & ws & Hr & Hws). exists (KVWrite_Value w).
  destruct (PutArgsInBlock_defined (<[11%nat := key2]> args) _ d ds Hd Hok) as (b1 & d1 & H1 & Hd1 & p1 & Hp1 & Hw1).
  destruct (PutRwsetInBlock_defined (Replace1 (KVWrite_Value w) a11 key2) b1 d1 ds p1 Hd1 Hp1 Hw1) as (nb & H2).
  destruct (PutArgsInBlock_ok _ _ _ H1) as (Ga & _ & Sa & _), (PutRwsetInBlock_ok _ _ _ H2) as (Gv & Ga2 & Sb & _).
  assert (Hsame : same_but_first (e_block e) nb).
  { unfold same_but_first in *. destruct Sa as (? & ? & ? & ?), Sb as (? & ? & ? & ?). repeat split; congruence. }
  assert (Hmd' : Block_Metadata nb = Some md) by (destruct Hsame as (_ & E & _); by rewrite E).
  eexists b1, nb, _, _. split_and!; try done; [|by apply serializeBlock_eq|by rewrite Ga2].
  unfold GetRwsetFromBlock. rewrite Hd. unfold go_index. cbn [lookup list_lookup mbind outcome_bind]. rewrite Hp.
  cbn [mbind outcome_bind]. rewrite Hr. cbn [mbind outcome_bind]. by rewrite Hws.
Qed.

(** The whole edit. *)
Lemma change_cert_eq (cmd key1 key2 a11 value bs : bytes) (keys args : list bytes) (k : Z) (nb1 nb : Block)
    (info : serializedBlockInfo) :
  GetBlockNumberFromFile key1 fs0 = Ret (FormatUint n) ->
  GetBlockOffsetFromFile (FormatUint n) fs0 = Ret (Itoa (zlen (frames c1))) ->
  GetArgsFromBlock (e_block e) = Ret args -> args !! 11%nat = Some a11 -> 0 <= k < SetString16 param_q ->
  GetRwsetFromBlock (e_block e) = Ret value -> PutArgsInBlock (<[11%nat := key2]> args) (e_block e) = Ret nb1 ->
  PutRwsetInBlock (Replace1 value a11 key2) nb1 = Ret nb -> serializeBlock nb = Ret (bs, info) ->
  exists fs4, files fs4 !! path0 = Some (frames c1 ++ bs ++ drop (length bs) (enc_raw (e_bytes e) ++ frames c2)) /\
    change_cert (cmd :: key1 :: key2 :: keys) k m = (Ret tt, set_world (mkWorld fs4 (w_db (m_world m)) []) m).
Proof.
  intros Hnum Hoff Hargs Ha Hk Hv H1 H2 Hser. pose proof edit_offset as Ho. pose proof getBlock_edit as Hget.
  destruct (generateCollision_hash _ _ _ _ _ (mjoin (Block_Data nb)) (mjoin (Block_Data nb)) [] [] k production_params Hk)
    as (r2 & s2 & Ec & _).
  eexists. split; [apply (edited_files bs r2 s2 (Number (Block_Header nb)) (e_bytes e))|].
  pose proof edit_writer as Hwr. pose proof (so_faults _ _ Hs) as Hnf.
  unfold change_cert. unfold fs0 in *. destruct m as [root mx idx inf bsi wr bc [fs db faults]].
  cbn [m_world w_fs w_db w_faults m_writer] in *. subst faults wr.
  unfold mbind, M_bind, in_world, lift_outcome, get_fs, get_state, mret, M_ret, update_fs, on_fs, try.
  cbn [go_index lookup list_lookup m_world w_fs]. rewrite Hnum. cbn [or_empty].
  rewrite bool_decide_eq_false_2 by (apply FormatUint_ne; unfold n, zlen in *; lia). rewrite Hoff.
  cbn [or_empty m_world w_fs set_world]. rewrite Hget.
  cbn [m_world set_world set_fs]. rewrite Hargs. cbn [or_nil]. rewrite Hv. cbn [or_empty]. unfold go_index. rewrite Ha.
  cbn [lookup list_lookup]. rewrite H1. cbn [OrPanic]. rewrite H2. cbn [OrPanic].
  change (SerializeBlock nb) with (serializeBlock nb). rewrite Hser. cbn [OrPanic m_world w_fs set_world set_fs].
  rewrite Itoa_nonneg by lia. rewrite bool_decide_eq_false_2 by (apply FormatUint_ne; unfold n, zlen in *; lia). rewrite Atoi_Itoa by lia.
  unfold writeat. rewrite (proj2 (Z.ltb_ge _ _)) by lia. cbn [m_world w_fs set_world set_fs next_fault w_faults m_writer].
  unfold GetCollision. rewrite Ec. rewrite zlen_to_nat. reflexivity.
Qed.

(** ** The rest of [addBlock] *)

(** The stages after the edit only extend the block file and leave the index alone. *)
Record grown (content : bytes) (m' : blockfileMgr) : Prop := {
  gr_file : exists ext, files (w_fs (m_world m')) !! path0 = Some (content ++ ext);
  gr_db : index_ok (w_db (m_world m')) (chain_of [c1 ++ e :: c2]);
  gr_index : m_index m' = m_index m;
  gr_root : m_rootDir m' = peer_chain_dir;
  gr_bsi : m_bsi m' = None;
  gr_faults : w_faults (m_world m') = [];
  gr_info : 0 <= latestFileNumber (m_info m') }.

Lemma grown_write (content wr ext : bytes) (m' : blockfileMgr) (i : blockfilesInfo) :
  grown content m' ->
  grown content (set_world (mkWorld (set_file wr (file_content wr (w_fs (m_world m')) ++ ext) (w_fs (m_world m')))
    (<[blkMgrInfoKey := blockfilesInfo_marshal i]> (w_db (m_world m'))) []) m').
Proof.
  intros [(x & Hx) Hd ????]. constructor; try done; [|by apply index_ok_mgrkey]. cbn [m_world set_world w_fs].
  destruct (decide (wr = path0)) as [->|Hne]; [|exists x; by rewrite lookup_set_file_ne].
  exists (x ++ ext). by rewrite lookup_set_file, (file_content_Some _ _ _ Hx), app_assoc.
Qed.

Lemma append_frame_grown (content : bytes) (m' : blockfileMgr) (b : Block) (bs : bytes) (info : serializedBlockInfo) (off : Z) :
  grown content m' -> ends (append_frame b bs info off) m' (fun _ m2 => grown content m2).
Proof.
  intros Hg. pose proof (gr_faults _ _ Hg) as Hf.
  pose proof (grown_write content (m_writer m') (EncodeVarint (u64 (zlen bs)) ++ bs) m'
    (mkblockfilesInfo (latestFileNumber (m_info m')) (latestFileSize (m_info m') + (zlen bs + zlen (EncodeVarint (u64 (zlen bs)))))
      false (Number (Block_Header b))) Hg) as Hw.
  destruct m' as [root mx idx inf bsi wr bc [fs db faults]]. cbn in Hf. subst faults.
  unfold ends, append_frame, mbind, M_bind, get_state, try, in_world, append, writeat.
  cbn [m_writer m_world w_fs]. rewrite (proj2 (Z.ltb_ge _ _)) by apply zlen_nonneg.
  cbn [next_fault w_faults m_world set_world w_fs set_fs]. rewrite (proj2 (Z.ltb_ge _ _)) by apply zlen_nonneg.
  cbn [next_fault w_faults m_world set_world w_fs set_fs].
  rewrite !zlen_to_nat, !write_at_end, (file_content_Some _ _ _ (lookup_set_file _ _ _)), set_file_twice, <- app_assoc.
  exact Hw.
Qed.

Lemma moveToNextFile_grown (content : bytes) (m' : blockfileMgr) :
  grown content m' -> ends moveToNextFile m' (fun _ m2 => grown content m2).
Proof.
  intros Hg. pose proof (gr_faults _ _ Hg) as Hf. pose proof (gr_info _ _ Hg) as Hi. pose proof (gr_root _ _ Hg) as Hr.
  set (i := mkblockfilesInfo (latestFileNumber (m_info m') + 1) 0 false (lastPersistedBlock (m_info m'))).
  pose proof (grown_write content (deriveBlockfilePath (m_rootDir m') (latestFileNumber i)) [] m' i Hg) as Hw.
  destruct m' as [root mx idx inf bsi wr bc [fs db faults]]. cbn in Hf, Hi, Hr. subst faults root.
  unfold ends, moveToNextFile, mbind, M_bind, get_state, or_panic, in_world, newBlockfileWriter. cbn [m_rootDir m_info m_world w_fs].
  fold i. destruct (can_create _ _); [|exact Hg]. rewrite app_nil_r in Hw. destruct Hw. constructor; try done. cbn in *. lia.
Qed.

Lemma append_block_grown (content : bytes) (m' : blockfileMgr) (b : Block) :
  grown content m' -> ends (append_block b) m' (fun _ m2 => grown content m2).
Proof.
  intros Hg. unfold append_block. apply ends_bind. unfold ends at 1, lift_outcome. cbn [fst snd].
  destruct (SerializeBlock b) as [[bs info]|err|msg]; [|done|done]. apply ends_bind. eapply ends_eq; [done|]. cbn beta iota.
  apply ends_bind. destruct (_ <? _).
  - apply ends_bind. eapply ends_impl; [by apply moveToNextFile_grown|]. intros [[]|err|msg] m2 H2; [|done|done].
    eapply ends_eq; [done|]. by apply append_frame_grown.
  - eapply ends_eq; [done|]. by apply append_frame_grown.
Qed.

(** Reading the edited block by its number. *)
Lemma retrieve_grown (bs post : bytes) (nb : Block) (info : serializedBlockInfo) (m' : blockfileMgr) :
  grown (frames c1 ++ bs ++ post) m' -> serializeBlock nb = Ret (bs, info) -> same_but_first (e_block e) nb -> n < 2 ^ 56 ->
  exists post', files (w_fs (m_world m')) !! path0 = Some (frames c1 ++ bs ++ post') /\
    let body := drop (length (EncodeVarint n)) bs ++ post' in
    (n <= zlen body -> retrieveBlockByNumber m' n = deserializeBlock (take (Z.to_nat n) body)).
Proof.
  intros [(ext & Hx) Hdb Hidx Hr Hb _ _] Hser (Hh & _) Hlt. rewrite <- !app_assoc in Hx. exists (post ++ ext). split; [done|].
  intros body Hle. unfold body in *. clear body. pose proof edit_number as Hn. rewrite <- Hh in Hn. pose proof (zlen_nonneg c1) as H0. fold n in H0.
  unfold retrieveBlockByNumber. rewrite (proj2 (Z.eqb_neq _ _)) by (unfold MaxUint64; lia).
  unfold snapshot_guard, firstPossibleBlockNumberInBlockFiles. rewrite Hb, (proj2 (Z.ltb_ge _ _)) by lia. cbn [mbind outcome_bind].
  assert (Hin : (block_idx 0 (zlen (frames c1)) (e_block e) (e_bytes e), e_flags e) ∈ chain_of [c1 ++ e :: c2]).
  { unfold chain_of. cbn [chain_from]. rewrite app_nil_r, file_idx_app, Z.add_0_l. cbn [file_idx]. set_solver. }
  pose proof (getBlockLocByBlockNum_ok (m_index m') _ _ ltac:(rewrite Hidx; apply (mo_all _ _ _ (so_mgr _ _ Hs))) Hdb _ _ Hin) as Hloc.
  cbn [block_idx bii_blockNum] in Hloc. rewrite edit_number in Hloc. rewrite Hloc. cbn [mbind outcome_bind block_idx bii_flp].
  unfold fetchBlock, fetchBlockBytes, newBlockfileStream. cbn [flp_fileSuffixNum flp_offset flp_loc loc_offset]. rewrite Hr.
  fold path0. rewrite Hx, (proj2 (Z.ltb_ge _ _)) by apply zlen_nonneg. cbn [mbind outcome_bind]. rewrite <- Hn in Hle |- *.
  rewrite (edited_frame _ path0 (frames c1) (post ++ ext) 0 nb bs info); [|done|rewrite Hn; lia|by apply file_content_Some|done].
  done.
Qed.

Lemma on_text_grown {A} (content : bytes) (op : M Fs A) (m' : blockfileMgr) :
  (forall fs, ends op fs (fun _ fs' => elsewhere peer_chain_dir fs fs')) ->
  grown content m' -> ends (in_world (on_text op)) m' (fun _ m2 => grown content m2).
Proof.
  intros Hop [(ext & Hx) ??? Hb Hf ?]. destruct m' as [root mx idx inf bsi wr bc [fs db faults]]. cbn in Hf. subst faults.
  specialize (Hop fs). unfold ends, in_world, on_text, on_fs in *. cbn [m_world w_faults w_fs].
  destruct (op fs) as [r fs1]. cbn [fst snd] in *. constructor; try done. exists ext. cbn [m_world set_world set_fs w_fs] in *.
  unfold path0 in *. by rewrite (ew_files _ _ _ Hop) by lia.
Qed.

(** [addBlock] of the block that asks for the edit: whatever stops it, the edit is on
    disk. *)
Lemma addBlock_grown (content : bytes) (b : Block) (k : Z) (l : list bytes) (m1 : blockfileMgr) :
  Number (Block_Header b) = Height (m_bcInfo m) -> or_nil (ValidateAnalysis b) = Ret (ChangeCert :: l) ->
  change_cert (ChangeCert :: l) k m = (Ret tt, m1) -> grown content m1 ->
  ends (addBlock b k) m (fun r m' => fails r /\ grown content m').
Proof.
  intros Hnum Hv Hc Hg. destruct (ValidateAnalysis_data _ _ _ Hv) as (d & rest & Hd).
  pose proof (mo_dirs _ _ _ (so_mgr _ _ Hs)) as [Hdir _]. rewrite Hroot in Hdir.
  assert (Hred : redact b k m = (Ret (set_data0 b []), m1)).
  { unfold redact, mbind, M_bind, lift_outcome, in_world, get_fs. rewrite Hv, set_world_id. unfold path_exists.
    rewrite (bool_decide_eq_true_2 (_ ∈ _)), orb_true_r by done. cbn [andb head]. rewrite bool_decide_eq_true_2 by done. by rewrite Hc. }
  unfold addBlock. apply ends_bind. eapply ends_eq; [done|]. cbn beta iota. rewrite Hnum, Z.eqb_refl. cbn [negb].
  apply ends_bind. eapply ends_eq; [exact Hred|]. cbn beta iota. destruct (negb _); [by split|].
  apply ends_bind. eapply ends_impl; [by apply append_block_grown|]. intros [[[i p] o]|err|msg] m2 H2; [|by split|by split].
  apply ends_bind. eapply ends_impl; [apply on_text_grown; [intros; apply record_blockinfo_elsewhere|exact H2]|].
  intros [[]|err|msg] m3 H3; [|by split|by split]. apply ends_bind. unfold ends, lift_outcome. cbn [fst snd].
  destruct (ValidateAnalysis_blank (set_data0 b []) rest) as (msg & Em); [unfold set_data0; cbn [Block_Data]; by rewrite Hd|].
  rewrite Em. by split.
Qed.

End Edit.

(** C32: A ChangeCert edit overwrites the length field of the old block.  Take a sound
    store in its first block file, in the peer's chain directory, and a block that asks
    for the change of a certificate whose text files lead to block n of the store, with a
    certificate transaction of more than 11 arguments first.  However [addBlock] ends (it
    returns no block), the file then holds, at the offset of the old frame, the
    serialized edited block itself, which has the new certificate as argument 11 and no
    length before it.  A reader that comes back to block n takes the first field of the
    serialized block, its number, for the length: when that many bytes follow, block n
    reads as what the n bytes after the number decode to. *)
Theorem edit_overwrites_frame_length (m : blockfileMgr) (c1 c2 : list entry) (e : entry) (b : Block)
    (key1 key2 d : bytes) (keys ds args : list bytes) (k : Z) :
  let n := zlen c1 in
  store_ok m [c1 ++ e :: c2] -> m_rootDir m = peer_chain_dir ->
  Number (Block_Header b) = Height (m_bcInfo m) ->
  or_nil (ValidateAnalysis b) = Ret (ChangeCert :: key1 :: key2 :: keys) ->
  GetBlockNumberFromFile key1 (w_fs (m_world m)) = Ret (FormatUint n) ->
  GetBlockOffsetFromFile (FormatUint n) (w_fs (m_world m)) = Ret (Itoa (zlen (frames c1))) ->
  Block_Data (e_block e) = d :: ds -> cert_tx_ok d -> GetArgsFromBlock (e_block e) = Ret args -> (11 < length args)%nat ->
  0 <= k < SetString16 param_q -> n < 2 ^ 56 ->
  exists nb bs info post, serializeBlock nb = Ret (bs, info) /\ same_but_first (e_block e) nb /\
    GetArgsFromBlock nb = Ret (<[11%nat := key2]> args) /\
    let '(r, m') := addBlock b k m in
    (forall b', r <> Ret b') /\
    files (w_fs (m_world m')) !! deriveBlockfilePath peer_chain_dir 0 = Some (frames c1 ++ bs ++ post) /\
    let body := drop (length (EncodeVarint n)) bs ++ post in
    (n <= zlen body -> retrieveBlockByNumber m' n = deserializeBlock (take (Z.to_nat n) body)).
Proof.
  intros n Hs Hroot Hnum Hv Hk1 Hoff Hd Hok Hargs Hlen Hk Hlt. destruct (lookup_lt_is_Some_2 args 11 Hlen) as (a11 & Ha).
  destruct (edited_block m c1 c2 e Hs d key2 a11 ds args Hd Hok Hargs Ha)
    as (value & nb1 & nb & bs & info & Hrw & H1 & H2 & Hser & Hsame & Hga & _).
  destruct (change_cert_eq m c1 c2 e Hs Hroot ChangeCert key1 key2 a11 value bs keys args k nb1 nb info) as (fs4 & Hf & Hc);
    try done.
  assert (Hg : grown m c1 c2 e (frames c1 ++ bs ++ drop (length bs) (enc_raw (e_bytes e) ++ frames c2))
    (set_world (mkWorld fs4 (w_db (m_world m)) []) m)).
  { constructor; try done; [exists []; by rewrite app_nil_r|apply (mo_db _ _ _ (so_mgr _ _ Hs))|apply (mo_bsi _ _ _ (so_mgr _ _ Hs))|].
    apply (mo_file _ _ _ (so_mgr _ _ Hs)). }
  pose proof (addBlock_grown m c1 c2 e Hs Hroot _ b k _ _ Hnum Hv Hc Hg) as Hend. unfold ends in Hend.
  destruct (addBlock b k m) as [r m']. cbn [fst snd] in Hend. destruct Hend as [Hr Hg'].
  destruct (retrieve_grown m c1 c2 e Hs Hroot bs _ nb info m' Hg' Hser Hsame Hlt) as (post & Hp & Hbody).
  exists nb, bs, info, post. done.
Qed.

End CertEdit.
