(* ===== verification/CertQuery.v ===== *)
(** * Finding the block of a certificate

    src/core/ledger/kvledger/kv_ledger.go: [GetBlockByCA] reads the block numbers that
    [addBlock] has recorded in the file of a certificate authority, and looks for the
    block that carries a certificate.  The file system and the blocks are those of the
    block file manager.

    A certificate is found where it is the one of the first transaction of its block
    ([GetBlockByCA_ok]); adding the block that creates it makes it so
    ([created_found]). *)

From S2P Require Import Prelude GoBig GoOS LevelDB Storage Proto Block BlockSerialization BlockStream BlockIndex Redaction.
From S2P Require Import BlockfileMgr BlockfileMgrOk BlockfileMgrRecover BlockStoreOk CertOps.

Definition ca_path (CA : bytes) : bytes := str "/var/" ++ CA.

(** The first line is split; a path that is a directory opens, and its read error is
    not the end of the file. *)
Definition GetBlockNumberFromFile2 (path : bytes) (fs : Fs) : outcome (list bytes) :=
  match files fs !! path with
  | Some content =>
      match ReadLine content with
      | None => Err ErrEOF
      | Some (line, _) => Ret (Split line plusplus)
      end
  | None => if bool_decide (path ∈ dirs fs) then Ret (Split [] plusplus) else Err ErrNotExist
  end.

Section Query.
Context {PR : Protos}.

(** The loop over the transactions.  The arguments of a transaction are appended to
    those of the transactions before it. *)
Fixpoint analyse_txs (cert : bytes) (args : list bytes) (data : list bytes) : outcome Z :=
  match data with
  | [] => Ret 0
  | d :: data' =>
      env ← GetEnvelopeFromBlock d;
      payl ← UnmarshalPayload (Envelope_Payload env);
      tx ← UnmarshalTransaction (Payload_Data payl);
      match Transaction_Actions tx with
      | [] => Ret 0
      | act :: _ =>
          cap ← UnmarshalChaincodeActionPayload (TransactionAction_Payload act);
          '(_, chaincodeInvocationSpec) ← open_spec cap;
          match CIS_ChaincodeSpec chaincodeInvocationSpec with
          | None => analyse_txs cert args data'
          | Some chaincodeSpec =>
              match ChaincodeSpec_Input chaincodeSpec with
              | None => analyse_txs cert args data'
              | Some input =>
                  let args := args ++ ChaincodeInput_Args input in
                  arg1 ← go_index args 1;
                  if bool_decide (arg1 = cert) then Ret 1 else analyse_txs cert args data'
              end
          end
      end
  end.

Definition ValidateAnalysis2 (cert : bytes) (block : Block) : outcome Z := analyse_txs cert [] (Block_Data block).

Fixpoint search_blocks (m : blockfileMgr) (CAID : bytes) (nums : list bytes) : outcome (option Block) :=
  match nums with
  | [] => Ret None
  | strnum :: nums' =>
      let '(int_num, err) := Atoi strnum in
      match err with
      | Some e => Err e
      | None =>
          block ← retrieveBlockByNumber m (u64 int_num);
          numtest ← ValidateAnalysis2 CAID block;
          if numtest =? 1 then Ret (Some block) else search_blocks m CAID nums'
      end
  end.

Definition GetBlockByCA (m : blockfileMgr) (CA CAID : bytes) : outcome (option Block) :=
  nums ← GetBlockNumberFromFile2 (ca_path CA) (w_fs (m_world m));
  search_blocks m CAID nums.

(** ** The certificate of a block *)

(** The transaction invokes a chaincode with the arguments. *)
Definition invokes (d : bytes) (args : list bytes) : Prop :=
  exists p pp cis spec input, open_tx d = Ret p /\ open_spec (tp_cap p) = Ret (pp, cis) /\ CIS_ChaincodeSpec cis = Some spec /\
    ChaincodeSpec_Input spec = Some input /\ ChaincodeInput_Args input = args.

(** All transactions invoke a chaincode; [cert] is the second argument of the first. *)
Definition carries (b : Block) (cert : bytes) : Prop :=
  exists d ds op rest, Block_Data b = d :: ds /\ invokes d (op :: cert :: rest) /\ Forall (fun d => exists args, invokes d args) ds.

Lemma analyse_step (cert : bytes) (args0 args : list bytes) (d : bytes) (ds : list bytes) :
  invokes d args -> analyse_txs cert args0 (d :: ds) =
    (arg1 ← go_index (args0 ++ args) 1; if bool_decide (arg1 = cert) then Ret 1 else analyse_txs cert (args0 ++ args) ds).
Proof.
  intros (p & pp & cis & spec & input & Ho & Hs & Hspec & Hin & <-). cbn [analyse_txs]. unfold open_tx in Ho.
  apply outcome_bind_ret_inv in Ho as (env & -> & Ho). cbn [mbind outcome_bind]. apply outcome_bind_ret_inv in Ho as (payl & -> & Ho). cbn [mbind outcome_bind].
  apply outcome_bind_ret_inv in Ho as (tx & -> & Ho). cbn [mbind outcome_bind]. apply outcome_bind_ret_inv in Ho as (act & Ha & Ho).
  apply go_index_0 in Ha as (acts & ->). apply outcome_bind_ret_inv in Ho as (cap & -> & Ho). injection Ho as <-. cbn [mbind outcome_bind tp_cap] in *.
  rewrite Hs. cbn [mbind outcome_bind]. by rewrite Hspec, Hin.
Qed.

(** Only the first transaction counts. *)
Lemma analyse_rest (cert a0 a1 : bytes) (rest : list bytes) (ds : list bytes) :
  Forall (fun d => exists args, invokes d args) ds -> a1 <> cert -> analyse_txs cert (a0 :: a1 :: rest) ds = Ret 0.
Proof.
  intros Hf Hne. revert rest. induction Hf as [|d ds [args Hd] _ IH]; intros rest; [done|]. rewrite (analyse_step _ _ _ _ _ Hd).
  change (go_index ((a0 :: a1 :: rest) ++ args) 1) with (Ret a1). cbn [mbind outcome_bind]. rewrite bool_decide_eq_false_2 by done. apply IH.
Qed.

Lemma ValidateAnalysis2_ok (b : Block) (cert c : bytes) : carries b c -> ValidateAnalysis2 cert b = Ret (if bool_decide (c = cert) then 1 else 0).
Proof.
  intros (d & ds & op & rest & Hd & Hi & Hf). unfold ValidateAnalysis2. rewrite Hd, (analyse_step _ _ _ _ _ Hi).
  change (go_index ([] ++ op :: c :: rest) 1) with (Ret c). cbn [mbind outcome_bind]. case_bool_decide; [done|]. by apply analyse_rest.
Qed.

(** ** The file of an authority *)

Definition ca_text (nums : list nat) : bytes := nums ≫= fun n => FormatUint (Z.of_nat n) ++ plusplus.

Lemma ca_text_snoc (nums : list nat) (n : nat) : ca_text (nums ++ [n]) = ca_text nums ++ FormatUint (Z.of_nat n) ++ plusplus.
Proof. unfold ca_text. rewrite bind_app. cbn. by rewrite app_nil_r. Qed.

Lemma FormatUint_not (n : nat) (c : byte) : c ∈ [Byte.x2b; Byte.x0a; Byte.x0d] -> c ∉ FormatUint (Z.of_nat n).
Proof. intros Hc. unfold FormatUint. apply digits_not; [lia|]. repeat (apply elem_of_cons in Hc as [->|Hc]; [done|]). by apply not_elem_of_nil in Hc. Qed.

Lemma Split_ca_text (nums : list nat) : Split (ca_text nums) plusplus = (FormatUint ∘ Z.of_nat <$> nums) ++ [[]].
Proof.
  unfold Split. assert (H : forall fuel, (length nums <= fuel)%nat -> Split_loop fuel plusplus (ca_text nums) = (FormatUint ∘ Z.of_nat <$> nums) ++ [[]]).
  { induction nums as [|n nums IH]; intros fuel Hf; [by destruct fuel|]. destruct fuel as [|fuel]; simpl in Hf; [lia|].
    change (ca_text (n :: nums)) with ((FormatUint (Z.of_nat n) ++ plusplus) ++ ca_text nums). rewrite <- app_assoc. cbn [Split_loop].
    rewrite cut_first by (apply FormatUint_not; by left). cbn. f_equal. apply IH. lia. }
  apply H. clear H. induction nums as [|n nums IH]; [done|]. change (ca_text (n :: nums)) with ((FormatUint (Z.of_nat n) ++ plusplus) ++ ca_text nums).
  rewrite !length_app. simpl. lia.
Qed.

Lemma ca_text_newline (nums : list nat) : Byte.x0a ∉ ca_text nums.
Proof.
  intros (n & [Hin|Hin]%elem_of_app & _)%list_elem_of_bind; [revert Hin; apply FormatUint_not; set_solver|].
  change plusplus with [Byte.x2b; Byte.x2b] in Hin. set_solver.
Qed.

Lemma split_newline_none (n : nat) (l : bytes) : Byte.x0a ∉ l -> split_newline n l = None.
Proof.
  revert n. induction l as [|b l IH]; intros [|n] Hl; [done..|]. apply not_elem_of_cons in Hl as [Hb Hl]. cbn [split_newline].
  rewrite bool_decide_eq_false_2 by congruence. by rewrite IH.
Qed.

Lemma ReadLine_ca_text (nums : list nat) :
  nums <> [] -> (length (ca_text nums) < bufio_size)%nat -> ReadLine (ca_text nums) = Some (ca_text nums, []).
Proof.
  intros Hne Hl. unfold ReadLine. rewrite split_newline_none by apply ca_text_newline. rewrite (proj2 (Nat.ltb_lt _ _)) by done.
  destruct (ca_text nums) eqn:E; [|done]. destruct nums as [|n nums]; [done|]. apply (f_equal length) in E.
  change (ca_text (n :: nums)) with ((FormatUint (Z.of_nat n) ++ plusplus) ++ ca_text nums) in E. rewrite !length_app in E. simpl in E. lia.
Qed.

(** ** The search *)

(** The recorded blocks, with the certificates they carry. *)
Definition recorded_certs (blocks : list Block) (nums : list nat) (certs : list bytes) : Prop :=
  Forall2 (fun n c => exists b, blocks !! n = Some b /\ carries b c) nums certs.

(** The number of the first recorded block with the certificate. *)
Fixpoint first_cert (CAID : bytes) (nums : list nat) (certs : list bytes) : option nat :=
  match nums, certs with
  | n :: nums', c :: certs' => if bool_decide (c = CAID) then Some n else first_cert CAID nums' certs'
  | _, _ => None
  end.

Lemma search_blocks_ok (m : blockfileMgr) (blocks : list Block) (chain : list (blockIdxInfo * bytes)) (CAID : bytes) (nums : list nat) (certs : list bytes) :
  mgr_ok m blocks chain -> zlen blocks < 2 ^ 63 -> recorded_certs blocks nums certs ->
  search_blocks m CAID ((FormatUint ∘ Z.of_nat <$> nums) ++ [[]]) =
    match first_cert CAID nums certs with
    | Some n => match blocks !! n with Some b => Ret (Some b) | None => Ret None end
    | None => Err (Errorf "invalid syntax")
    end.
Proof.
  intros Hm Hlen. induction 1 as [|n c nums certs (b & Hb & Hc) _ IH]; [done|]. cbn [fmap list_fmap app search_blocks first_cert compose].
  pose proof (lookup_lt_Some _ _ _ Hb). unfold zlen in Hlen. rewrite Atoi_Itoa by lia.
  rewrite u64_id by (unfold is_u64; lia). rewrite (retrieveBlockByNumber_ok m blocks chain Hm n b Hb) by (unfold MaxUint64; lia).
  cbn [mbind outcome_bind]. rewrite (ValidateAnalysis2_ok b CAID c Hc). cbn [mbind outcome_bind].
  case_bool_decide; [by rewrite Hb|]. apply IH.
Qed.

Lemma GetBlockByCA_ok (m : blockfileMgr) (blocks : list Block) (chain : list (blockIdxInfo * bytes)) (CA CAID : bytes) (nums : list nat) (certs : list bytes) :
  mgr_ok m blocks chain -> zlen blocks < 2 ^ 63 -> recorded_certs blocks nums certs -> nums <> [] ->
  files (w_fs (m_world m)) !! ca_path CA = Some (ca_text nums) -> (length (ca_text nums) < bufio_size)%nat ->
  GetBlockByCA m CA CAID =
    match first_cert CAID nums certs with
    | Some n => match blocks !! n with Some b => Ret (Some b) | None => Ret None end
    | None => Err (Errorf "invalid syntax")
    end.
Proof.
  intros Hm Hlen Hr Hne Hf Hl. unfold GetBlockByCA, GetBlockNumberFromFile2. rewrite Hf, ReadLine_ca_text by done. cbn [mbind outcome_bind].
  rewrite Split_ca_text. by eapply search_blocks_ok.
Qed.

(** ** Issuing a certificate *)

(** The file of an authority can be written and is not one of the store's own. *)
Record ca_ok (m : blockfileMgr) (CA : bytes) : Prop := {
  co_create : can_create (ca_path CA) (w_fs (m_world m)) = true;
  co_info : ca_path CA <> blockinfo_path;
  co_blockfile : forall n, 0 <= n -> deriveBlockfilePath (m_rootDir m) n <> ca_path CA;
  co_snapshot : ca_path CA <> m_rootDir m ++ str "/" ++ bootstrappingSnapshotInfoFile }.

(** The block can be the next one, and its first transaction creates a certificate. *)
Record issue_block (m : blockfileMgr) (b : Block) (bs fl id CA : bytes) (rest : list bytes) : Prop := {
  ib_faults : w_faults (m_world m) = [];
  ib_var : var_ok (w_fs (m_world m));
  ib_ok : block_ok b bs fl;
  ib_args : or_nil (ValidateAnalysis b) = Ret (CreatCert :: id :: CA :: rest);
  ib_num : Number (Block_Header b) = Height (m_bcInfo m);
  ib_max : Height (m_bcInfo m) + 2 < 2 ^ 64;
  ib_prev : PreviousHash (Block_Header b) = CurrentBlockHash (m_bcInfo m);
  ib_file : latestFileNumber (m_info m) + 1 < 2 ^ 61;
  ib_size : latestFileSize (m_info m) < 2 ^ 61 }.

(** The store with another text file. *)
Definition with_file (path text : bytes) (m : blockfileMgr) : blockfileMgr :=
  set_world (mkWorld (append_file path text (w_fs (m_world m))) (w_db (m_world m)) (w_faults (m_world m))) m.

Lemma redact_issue (b : Block) (k : Z) (m : blockfileMgr) (args : list bytes) :
  or_nil (ValidateAnalysis b) = Ret args -> head args <> Some ChangeCert -> redact b k m = (Ret b, m).
Proof.
  intros Ha Hop. unfold redact, mbind, M_bind, lift_outcome. rewrite Ha.
  unfold in_world, get_fs. destruct m as [root mx idx info bsi wr bc w].
  cbn [m_world set_world m_rootDir m_maxBlockfileSize m_index m_info m_bsi m_writer m_bcInfo].
  by rewrite (bool_decide_eq_false_2 (head args = Some ChangeCert)), andb_false_r.
Qed.

Lemma record_cert_create (id CA num : bytes) (rest : list bytes) (fs : Fs) :
  can_create (ca_path CA) fs = true -> record_cert (CreatCert :: id :: CA :: rest) num fs = (Ret tt, append_file (ca_path CA) (num ++ plusplus) fs).
Proof.
  intros Hc. unfold record_cert. rewrite bool_decide_eq_true_2 by done. unfold mbind, M_bind, lift_outcome.
  change (go_index (CreatCert :: id :: CA :: rest) 2) with (Ret CA). cbn beta iota. unfold append_or_panic. fold (ca_path CA). by rewrite Hc.
Qed.

Lemma can_create_mono (path path' c : bytes) (fs : Fs) : can_create path fs = true -> can_create path (set_file path' c fs) = true.
Proof.
  unfold can_create. intros [H1 H2]%andb_true_iff. apply andb_true_iff. split; [done|]. apply orb_true_iff in H2 as [H2|H2]; apply orb_true_iff; [left|by right].
  apply bool_decide_eq_true in H2. apply bool_decide_eq_true. destruct (decide (path = path')) as [->|Hne]; [rewrite lookup_set_file; by eexists|by rewrite lookup_set_file_ne].
Qed.

Lemma room_create (path bs : bytes) (m : blockfileMgr) : can_create path (w_fs (m_world m)) = true -> can_create path (w_fs (m_world (room bs m))) = true.
Proof. intros H. unfold room. destruct (_ <? _); [|done]. by apply can_create_mono. Qed.

Lemma addBlock_issue (m : blockfileMgr) (blocks : list Block) (chain : list (blockIdxInfo * bytes)) (b : Block) (bs fl id CA : bytes) (rest : list bytes) (k : Z) :
  mgr_ok m blocks chain -> issue_block m b bs fl id CA rest -> can_create (ca_path CA) (w_fs (m_world m)) = true ->
  addBlock b k m = (Ret b, with_file (ca_path CA) (FormatUint (Number (Block_Header b)) ++ plusplus) (added b bs fl (room bs m))).
Proof.
  intros Hm [Hw Hv Hb Hargs Hnum Hmax Hprev Hfn Hfs] Hcc. pose proof (bo_ser _ _ _ Hb) as ((sinfo & Hs) & _).
  destruct (room_keeps m bs) as (Ri & Rb & Rr & _ & Rd & Rs). pose proof (room_ok m blocks chain bs Hm Hfn) as Hm0.
  pose proof (room_create (ca_path CA) bs m Hcc) as Hc0.
  unfold addBlock, mbind, M_bind, get_state. rewrite (proj2 (Z.eqb_eq _ _) Hnum). cbn [negb].
  rewrite (redact_issue b k m _ Hargs) by done. rewrite Hprev, bool_decide_eq_true_2 by done. cbn [negb].
  rewrite (append_block_ok m blocks chain b bs sinfo) by done. set (m0 := room bs m) in *. clearbody m0.
  destruct (mo_content _ _ _ Hm0) as (content & Hc & Hlen). pose proof (mo_file _ _ _ Hm0).
  unfold in_world, on_text, on_fs, flp_offset. cbn [flp_loc loc_offset].
  assert (Hv0 : var_ok (w_fs (m_world (appended b bs m0)))) by (unfold var_ok in *; unfold appended; cbn [m_world set_world w_fs set_file dirs]; by rewrite Rd).
  change (w_faults (m_world (appended b bs m0))) with (@nil (option fault)). cbn beta iota.
  rewrite record_blockinfo_ok by done. unfold lift_outcome. rewrite Hargs. cbn [m_world set_world w_fs set_fs w_faults appended].
  rewrite record_cert_create by (unfold append_file; rewrite var_ok_create by done; unfold appended; cbn [m_world set_world w_fs]; by repeat apply can_create_mono).
  unfold with_file, added, appended, set_fs, set_world. cbn [w_db w_faults w_fs m_world].
  change (mkblockIdxInfo _ _ _ _ _) with (block_idx (latestFileNumber (m_info m0)) (latestFileSize (m_info m0)) b bs).
  rewrite (indexBlock_ok _ _ fl); [done|by apply Hm|]. apply block_idx_wf; [done|lia|].
  rewrite <- Hlen. pose proof (zlen_nonneg content). lia.
Qed.

(** A text file of its own does not matter to the store. *)
Lemma mgr_ok_with_file (path text : bytes) (m : blockfileMgr) (blocks : list Block) (chain : list (blockIdxInfo * bytes)) :
  (forall n, 0 <= n -> deriveBlockfilePath (m_rootDir m) n <> path) -> mgr_ok m blocks chain -> mgr_ok (with_file path text m) blocks chain.
Proof.
  intros Hp [H1 H2 H3 H4 H5 H6 H7 H8 H9 H10 H11 H12]. unfold with_file, append_file. destruct (can_create path _); [|by constructor].
  constructor; try done; cbn [set_world m_world w_fs m_rootDir m_writer m_info].
  - eapply Forall2_impl; [exact H4|]. intros c b. apply located_extends. by apply extends_other.
  - destruct H10 as (content & Hc & Hl). exists content. split; [|done]. rewrite lookup_set_file_ne; [done|]. rewrite H9. apply not_eq_sym, Hp. lia.
  - intros n Hn. unfold unused. rewrite lookup_set_file_ne; [by apply H11|]. apply not_eq_sym, Hp. lia.
Qed.

Lemma store_ok_with_file (path text : bytes) (m : blockfileMgr) (chunks : list (list entry)) :
  (forall n, 0 <= n -> deriveBlockfilePath (m_rootDir m) n <> path) -> path <> m_rootDir m ++ str "/" ++ bootstrappingSnapshotInfoFile ->
  store_ok m chunks -> store_ok (with_file path text m) chunks.
Proof.
  intros Hp Hb [H1 H2 H3 H4 H5]. constructor; [by apply mgr_ok_with_file| |done..]. unfold with_file, append_file. destruct (can_create path _); [|done].
  by apply disk_other_file.
Qed.

Context {PK : ProtosOk}.

(** The block is in the store, and its number in the file of the authority. *)
Lemma issue_store (m : blockfileMgr) (chunks : list (list entry)) (b : Block) (bs fl id CA : bytes) (rest : list bytes) (k : Z) :
  store_ok m chunks -> issue_block m b bs fl id CA rest -> ca_ok m CA -> first_fits m bs -> latestFileNumber (m_info m) + 2 < 2 ^ 61 ->
  exists m' chunks', addBlock b k m = (Ret b, m') /\ store_ok m' chunks' /\ blocks_of chunks' = blocks_of chunks ++ [b] /\ m_rootDir m' = m_rootDir m /\
    files (w_fs (m_world m')) !! ca_path CA = Some (file_content (ca_path CA) (w_fs (m_world m)) ++ FormatUint (Number (Block_Header b)) ++ plusplus).
Proof.
  intros Hs Hi [Hcc Hci Hcb Hcs] Hfit Hlt. destruct (store_room m chunks bs Hs Hfit Hlt) as (cs & c & Hs0 & Eb & _).
  destruct (room_keeps m bs) as (_ & _ & Rr & _ & Rd & Rs). pose proof (mo_height _ _ _ (so_mgr _ _ Hs)) as Hh.
  pose proof (addBlock_issue m _ _ b bs fl id CA rest k (so_mgr _ _ Hs) Hi Hcc) as E.
  destruct Hi as [Hw Hv Hb _ Hnum Hmax _ Hfn Hsz].
  assert (Hv0 : var_ok (w_fs (m_world (room bs m)))) by (unfold var_ok in *; by rewrite Rd).
  assert (Hs1 : store_ok (added b bs fl (room bs m)) (cs ++ [c ++ [mkentry b bs fl]])).
  { apply store_added; try done; rewrite ?Eb, <- ?Hh; try done. lia. }
  eexists _, (cs ++ [c ++ [mkentry b bs fl]]). split; [exact E|]. change (m_rootDir (with_file _ _ ?x)) with (m_rootDir x).
  change (m_rootDir (added b bs fl ?x)) with (m_rootDir x). rewrite Rr. split; [|split; [|split; [done|]]].
  - apply store_ok_with_file; [| |done]; change (m_rootDir (added b bs fl ?x)) with (m_rootDir x); by rewrite Rr.
  - by rewrite blocks_of_snoc, Eb.
  - pose proof (mo_writer _ _ _ (so_mgr _ _ Hs0)) as Hwr. rewrite Rr in Hwr. pose proof (mo_file _ _ _ (so_mgr _ _ Hs0)).
    assert (Hfc : file_content (ca_path CA) (w_fs (m_world (added b bs fl (room bs m)))) = file_content (ca_path CA) (w_fs (m_world m))).
    { unfold added, appended, append_file. cbn [updateBlockchainInfo set_info set_world set_bcInfo m_world w_fs]. rewrite var_ok_create by done.
      unfold file_content. rewrite lookup_set_file_ne by (by apply not_eq_sym). rewrite lookup_set_file_ne by (rewrite Hwr; apply Hcb; lia).
      unfold room. destruct (_ <? _); [|done]. unfold moved. cbn. rewrite lookup_insert_ne; [done|]. apply Hcb. pose proof (mo_file _ _ _ (so_mgr _ _ Hs)). lia. }
    unfold with_file. cbn [set_world m_world w_fs]. unfold append_file. rewrite Hfc.
    assert (can_create (ca_path CA) (w_fs (m_world (added b bs fl (room bs m)))) = true) as ->.
    { unfold added, appended, append_file. cbn [updateBlockchainInfo set_info set_world set_bcInfo m_world w_fs]. rewrite var_ok_create by done.
      repeat apply can_create_mono. by apply room_create. }
    apply lookup_set_file.
Qed.

Lemma first_cert_snoc (CAID c : bytes) (nums : list nat) (certs : list bytes) (n : nat) :
  length nums = length certs ->
  first_cert CAID (nums ++ [n]) (certs ++ [c]) = match first_cert CAID nums certs with Some k => Some k | None => if bool_decide (c = CAID) then Some n else None end.
Proof.
  revert certs. induction nums as [|k nums IH]; intros [|c' certs] Hl; [by cbn; case_bool_decide|done..|]. cbn [app first_cert]. destruct (bool_decide (c' = CAID)); [done|]. apply IH. by injection Hl.
Qed.

Lemma recorded_certs_snoc (blocks : list Block) (b : Block) (nums : list nat) (certs : list bytes) (c : bytes) :
  recorded_certs blocks nums certs -> carries b c -> recorded_certs (blocks ++ [b]) (nums ++ [length blocks]) (certs ++ [c]).
Proof.
  intros Hr Hc. apply Forall2_app.
  - eapply Forall2_impl; [exact Hr|]. intros n c' (b' & Hb & Hc'). exists b'. split; [|done]. by apply lookup_app_l_Some.
  - constructor; [|constructor]. exists b. split; [|done]. rewrite lookup_app_r, Nat.sub_diag by lia. done.
Qed.

(** After the block is added, a query for a certificate of the authority gives the block
    it gave before, or the new block where it is the certificate of that. *)
Lemma created_found (m : blockfileMgr) (chunks : list (list entry)) (nums : list nat) (certs : list bytes) (b : Block) (bs fl id CA CAID : bytes) (rest : list bytes) (k : Z) :
  store_ok m chunks -> zlen (blocks_of chunks) + 1 < 2 ^ 63 -> recorded_certs (blocks_of chunks) nums certs -> file_content (ca_path CA) (w_fs (m_world m)) = ca_text nums ->
  issue_block m b bs fl id CA rest -> carries b id -> ca_ok m CA -> first_fits m bs -> latestFileNumber (m_info m) + 2 < 2 ^ 61 ->
  (length (ca_text (nums ++ [length (blocks_of chunks)])) < bufio_size)%nat ->
  exists m' chunks', addBlock b k m = (Ret b, m') /\ store_ok m' chunks' /\ blocks_of chunks' = blocks_of chunks ++ [b] /\
    file_content (ca_path CA) (w_fs (m_world m')) = ca_text (nums ++ [length (blocks_of chunks)]) /\
    GetBlockByCA m' CA CAID =
      match first_cert CAID nums certs with
      | Some n => match blocks_of chunks !! n with Some b' => Ret (Some b') | None => Ret None end
      | None => if bool_decide (id = CAID) then Ret (Some b) else Err (Errorf "invalid syntax")
      end.
Proof.
  intros Hs Hlen Hr Hf Hi Hc Hca Hfit Hlt Hl. destruct (issue_store m chunks b bs fl id CA rest k Hs Hi Hca Hfit Hlt) as (m' & chunks' & E & Hs' & Eb & _ & Hf').
  pose proof (mo_height _ _ _ (so_mgr _ _ Hs)) as Hh. assert (Hn : Number (Block_Header b) = Z.of_nat (length (blocks_of chunks))) by (rewrite (ib_num _ _ _ _ _ _ _ Hi), Hh; done).
  rewrite Hf, Hn, <- ca_text_snoc in Hf'. exists m', chunks'. split; [done|]. split; [done|]. split; [done|]. split; [by apply file_content_Some|].
  pose proof (recorded_certs_snoc _ b nums certs id Hr Hc) as Hr'.
  rewrite (GetBlockByCA_ok m' (blocks_of chunks ++ [b]) (chain_of chunks') CA CAID (nums ++ [length (blocks_of chunks)]) (certs ++ [id])); try done.
  - rewrite first_cert_snoc by (by eapply Forall2_length). destruct (first_cert CAID nums certs) as [n|] eqn:Ef.
    + assert (Hin : is_Some (blocks_of chunks !! n)).
      { clear -Hr Ef. induction Hr as [|n' c nums certs (b' & Hb & _) _ IH]; [done|]. cbn [first_cert] in Ef. case_bool_decide; [injection Ef as <-; by eexists|by apply IH]. }
      destruct Hin as [b' Hb']. by rewrite (lookup_app_l_Some _ _ _ _ Hb'), Hb'.
    + case_bool_decide; [|done]. by rewrite lookup_app_r, Nat.sub_diag by lia.
  - rewrite <- Eb. apply (so_mgr _ _ Hs').
  - rewrite zlen_app. change (zlen [b]) with 1. lia.
  - by destruct nums.
Qed.

End Query.
