(* ===== verification/Examples.v ===== *)
(** * Concrete stores

    A small ledger with a concrete message codec, on which the hypotheses of the
    properties of the block store and of the certificate operations hold. *)

From S2P Require Import Prelude Varint OrderedCode Sha256 GoBig GoOS LevelDB Storage Chameleon.
From S2P Require Import Proto Block BlockSerialization BlockStream BlockIndex Redaction.
From S2P Require Import BlockfileMgr BlockfileMgrOk BlockfileMgrRecover BlockStoreOk BlockStoreCrash CertOps CertEdit.

#[local] Existing Instances wire_protos wire_protos_ok.

Definition ex_root : bytes := str "/ledger".
Definition ex_fs : Fs := mkFs ∅ {[str "/var"]}.
Definition ex_cfg : list IndexableAttr :=
  [IndexableAttrBlockNum; IndexableAttrBlockHash; IndexableAttrTxID; IndexableAttrBlockNumTranNum].
Definition ex_md : list bytes := [[]; []; [Byte.x00]; []; []].

Definition ex_block (n : Z) (prev : bytes) (data : list bytes) : Block :=
  mkBlock (mkBlockHeader n prev (str "dh")) data (Some ex_md).

Definition ex_bytes (b : Block) : bytes := block_bytes (Block_Header b) (Block_Data b) ex_md.
Definition ex_entry (b : Block) : entry := mkentry b (ex_bytes b) [Byte.x00].

(** A transaction with an id. *)
Definition ex_tx (id : bytes) : bytes :=
  let chdr := mkChannelHeader 3 0 None (str "ch") id 0 [] [] in
  Marshal (mkEnvelope (Marshal (mkPayload (Some (mkHeader (Marshal chdr) [])) (str "x"))) []).

Definition ex_b0 : Block := ex_block 0 [] [ex_tx (str "t0")].
Definition ex_b1 : Block := ex_block 1 (BlockHeaderHash (Block_Header ex_b0)) [ex_tx (str "t1")].

Lemma ex_index_all : index_all (newBlockIndex ex_cfg).
Proof. intros a. by destruct a. Qed.

Lemma ex_fresh : fresh ex_fs ex_root.
Proof.
  constructor.
  - intros p [x Hx]. cbn [ex_fs files] in Hx. by rewrite lookup_empty in Hx.
  - intros p Hp. cbn [ex_fs dirs] in Hp. apply elem_of_singleton in Hp as ->. vm_compute. reflexivity.
Qed.

Lemma ex_var : var_ok ex_fs.
Proof. unfold var_ok. cbn [ex_fs dirs]. split; [by apply elem_of_singleton|]. intros E%elem_of_singleton. vm_compute in E. discriminate. Qed.

(** What has to be evaluated of a block. *)
Lemma ex_entry_ok (n : Z) (prev d : bytes) :
  let b := ex_block n prev [d] in
  is_u64 n -> (zlen (ex_bytes b) <? 2 ^ 56) = true -> (zlen (txid_or_empty d) <? 2 ^ 64) = true -> entry_ok (ex_entry b).
Proof.
  intros b Hn Hl Hid. apply Z.ltb_lt in Hl, Hid. constructor.
  - split; [|split; [exact Hl|exact Hn]]. eexists. by apply serializeBlock_eq.
  - by exists ex_md.
  - done.
  - apply Forall_singleton. pose proof (zlen_nonneg (txid_or_empty d)). unfold is_u64. lia.
Qed.

Lemma ex_ordinary (n : Z) (prev d : bytes) :
  or_nil (ValidateAnalysis (ex_block n prev [d])) = Ret [] -> ordinary (ex_block n prev [d]).
Proof. intros E. by exists []. Qed.

Lemma ex_b0_ok : entry_ok (ex_entry ex_b0) /\ ordinary ex_b0.
Proof.
  split; [apply ex_entry_ok; [done|vm_compute; reflexivity..]|].
  apply ex_ordinary. vm_compute. reflexivity.
Qed.

Lemma ex_b1_ok : entry_ok (ex_entry ex_b1) /\ ordinary ex_b1.
Proof.
  split; [apply ex_entry_ok; [done|vm_compute; reflexivity..]|].
  apply ex_ordinary. vm_compute. reflexivity.
Qed.

(** ** The new store, and the store with one block *)

#[local] Opaque BlockHeaderHash block_bytes enc_raw ex_tx.

Lemma ex_store0 (mx : Z) (Hmx : zlen (enc_raw (ex_bytes ex_b0)) <= mx) :
  exists m, newBlockfileMgr ex_root mx ex_cfg (mkWorld ex_fs ∅ []) = (Ret m, m_world m) /\ store_ok m [[]] /\
    m_rootDir m = ex_root /\ m_maxBlockfileSize m = mx /\
    next_block m ex_b0 (ex_bytes ex_b0) [Byte.x00] /\ first_fits m (ex_bytes ex_b0) /\
    m_info m = mkblockfilesInfo 0 0 true 0 /\ dirs (w_fs (m_world m)) = {[ex_root]} ∪ {[str "/var"]}.
Proof.
  destruct (open_fresh ex_fs ex_root mx ex_cfg ex_fresh ex_index_all) as (m & E & Hs & Hr & Hx & Hd & _).
  exists m. pose proof (so_info _ _ Hs) as Hi. change (summary [[]]) with (mkblockfilesInfo 0 0 true 0) in Hi.
  pose proof (mo_height _ _ _ (so_mgr _ _ Hs)) as Hh. pose proof (mo_hash _ _ _ (so_mgr _ _ Hs)) as Hc.
  change (zlen (blocks_of [[]])) with 0 in Hh. change (last (blocks_of [[]])) with (@None Block) in Hc.
  split; [exact E|]. split; [exact Hs|]. split; [exact Hr|]. split; [exact Hx|].
  split; [|split; [intros _; by rewrite Hx|split; [exact Hi|exact Hd]]].
  constructor; [apply Hs| |apply ex_b0_ok|apply ex_b0_ok|by rewrite Hh|by rewrite Hh|by rewrite Hc|by rewrite Hi|by rewrite Hi].
  pose proof ex_var as [Hv1 Hv2]. unfold var_ok. rewrite Hd. split; [set_solver|].
  rewrite elem_of_union, elem_of_singleton. intros [E1|E1]; [vm_compute in E1; discriminate|exact (Hv2 E1)].
Qed.

(** The state after the first block, and the second block as the next one; [mx]
    decides whether it starts a new file. *)
Lemma ex_store1 (mx : Z) (Hmx : zlen (enc_raw (ex_bytes ex_b0)) <= mx) :
  exists m, store_ok m [[ex_entry ex_b0]] /\ m_rootDir m = ex_root /\ m_maxBlockfileSize m = mx /\
    next_block m ex_b1 (ex_bytes ex_b1) [Byte.x00] /\ first_fits m (ex_bytes ex_b1) /\
    latestFileNumber (m_info m) = 0.
Proof.
  destruct (ex_store0 mx Hmx) as (m & _ & Hs & Hr & Hx & Hn & Hfit & Hi & Hd).
  assert (Hroom : room (ex_bytes ex_b0) m = m).
  { unfold room. rewrite Hx, Hi. cbn [latestFileSize]. by rewrite (proj2 (Z.ltb_ge _ _)) by lia. }
  pose proof (store_added m [] [] ex_b0 (ex_bytes ex_b0) [Byte.x00] Hs (nb_var _ _ _ _ Hn) (nb_ok _ _ _ _ Hn)) as Hs1.
  rewrite Hi in Hs1. specialize (Hs1 ltac:(done) ltac:(done) ltac:(done)).
  set (m1 := added ex_b0 (ex_bytes ex_b0) [Byte.x00] m) in *. exists m1.
  pose proof (mo_height _ _ _ (so_mgr _ _ Hs1)) as Hh. pose proof (mo_hash _ _ _ (so_mgr _ _ Hs1)) as Hc.
  change (zlen (blocks_of _)) with 1 in Hh. change (last (blocks_of _)) with (Some ex_b0) in Hc.
  pose proof (so_info _ _ Hs1) as Hi1.
  assert (Hd1 : dirs (w_fs (m_world m1)) = dirs (w_fs (m_world m))).
  { unfold m1, added. cbn [updateBlockchainInfo set_info set_world set_bcInfo m_world w_fs appended]. unfold append_file.
    by destruct (can_create _ _). }
  split; [exact Hs1|]. split; [exact Hr|]. split; [exact Hx|].
  split; [|split; [intros E; rewrite Hh in E; discriminate E|rewrite Hi1; vm_compute; reflexivity]].
  constructor; [apply Hs1| |apply ex_b1_ok|apply ex_b1_ok|rewrite Hh; reflexivity|rewrite Hh; reflexivity|
    rewrite Hc; unfold ex_b1; cbn [ex_block Block_Header PreviousHash]; reflexivity|rewrite Hi1; vm_compute; reflexivity|].
  - unfold var_ok. rewrite Hd1. apply Hn.
  - rewrite Hi1. vm_compute. reflexivity.
Qed.

(** ** The properties at these stores *)

Definition ex_mx : Z := zlen (enc_raw (ex_bytes ex_b0)).

(** Two blocks, the second one in a second file. *)
Lemma new_store_holds_chain_witness :
  let l := [(ex_entry ex_b0, 0); (ex_entry ex_b1, 0)] in
  exists m0 m, newBlockfileMgr ex_root ex_mx ex_cfg (mkWorld ex_fs ∅ []) = (Ret m0, m_world m0) /\
    addBlocks l m0 = (Ret tt, m) /\ retrieveBlockByNumber m 0 = Ret ex_b0 /\ retrieveBlockByNumber m 1 = Ret ex_b1.
Proof.
  intros l.
  destruct (new_store_holds_chain ex_fs ex_root ex_mx ex_cfg l) as (m0 & m & chunks & E0 & E & _ & _ & Hr).
  - exact ex_fresh.
  - exact ex_index_all.
  - exact ex_var.
  - vm_compute. discriminate.
  - split; [apply ex_b0_ok|]. split; [apply ex_b0_ok|]. split; [reflexivity|]. split; [reflexivity|].
    split; [apply ex_b1_ok|]. split; [apply ex_b1_ok|]. split; [reflexivity|]. split; [|exact I].
    unfold ex_b1. cbn [ex_entry e_block ex_block Block_Header PreviousHash]. reflexivity.
  - reflexivity.
  - vm_compute. reflexivity.
  - intros e [= <-]. unfold ex_mx. cbn [ex_entry e_bytes]. lia.
  - exists m0, m. split; [exact E0|]. split; [exact E|].
    split; [exact (Hr 0%nat (ex_entry ex_b0) eq_refl)|exact (Hr 1%nat (ex_entry ex_b1) eq_refl)].
Defined.

Lemma addBlock_appends_witness :
  exists m m', m_rootDir m = ex_root /\ addBlock ex_b1 0 m = (Ret ex_b1, m') /\ retrieveBlockByNumber m' 1 = Ret ex_b1.
Proof.
  destruct (ex_store1 ex_mx (Z.le_refl _)) as (m & Hs & Hr & _ & Hn & Hfit & Hi).
  destruct (addBlock_appends m [[ex_entry ex_b0]] ex_b1 (ex_bytes ex_b1) [Byte.x00] 0 Hs Hn Hfit) as (m' & ch & E & _ & _ & Hb & _).
  - rewrite Hi. reflexivity.
  - exists m, m'. split; [exact Hr|]. split; [exact E|exact Hb].
Defined.

Lemma store_refines_log_witness :
  exists m, m_rootDir m = ex_root /\ retrieveBlockByNumber m 0 = Ret ex_b0 /\
    retrieveBlockByNumber m 1 = Err ErrNotFoundInIndex /\ retrieveBlockByNumber m MaxUint64 = Ret ex_b0.
Proof.
  destruct (ex_store1 ex_mx (Z.le_refl _)) as (m & Hs & Hr & _). exists m. split; [exact Hr|].
  assert (Hne : blocks_of [[ex_entry ex_b0]] <> []) by discriminate.
  rewrite (store_refines_log m [[ex_entry ex_b0]] 0 Hs ltac:(done) Hne).
  rewrite (store_refines_log m [[ex_entry ex_b0]] 1 Hs ltac:(done) Hne).
  rewrite (store_refines_log m [[ex_entry ex_b0]] MaxUint64 Hs ltac:(done) Hne). done.
Defined.

Lemma ex_args : or_nil (ValidateAnalysis ex_b1) = Ret [].
Proof. vm_compute. reflexivity. Qed.

Lemma ex_no_edit (m : blockfileMgr) : no_edit m ex_b1.
Proof. right. intros l. rewrite ex_args. discriminate. Qed.

(** The process stops after three bytes of the second write of the frame. *)
Lemma reopen_after_crash_witness :
  exists m r m1 m' chunks', addBlock ex_b1 0 (with_faults [None; Some (Stops 3)] m) = (r, m1) /\
    newBlockfileMgr ex_root ex_mx ex_cfg (mkWorld (w_fs (m_world m1)) (w_db (m_world m1)) []) = (Ret m', m_world m') /\
    store_ok m' chunks' /\ blocks_of chunks' = [ex_b0] ++ (if frame_written (ex_bytes ex_b1) m m1 then [ex_b1] else []).
Proof.
  destruct (ex_store1 1000 ltac:(vm_compute; discriminate)) as (m & Hs & Hr & Hx & Hn & Hfit & Hi).
  pose proof (reopen_after_crash m [[ex_entry ex_b0]] ex_b1 (ex_bytes ex_b1) [Byte.x00] 0 [None; Some (Stops 3)] ex_mx ex_cfg
    Hs (nb_ok _ _ _ _ Hn) Hfit (ex_no_edit m)) as H.
  destruct (addBlock ex_b1 0 (with_faults [None; Some (Stops 3)] m)) as [r m1] eqn:E.
  destruct H as (m' & chunks' & E' & Hs' & Eb & _).
  - intros args. rewrite ex_args. intros [= <-]. constructor.
  - apply Hn.
  - rewrite Hi. reflexivity.
  - apply Hn.
  - exact ex_index_all.
  - rewrite Hr in E'. exists m, r, m1, m', chunks'. split; [exact E|]. split; [exact E'|]. split; [exact Hs'|exact Eb].
Defined.

(** The index of the block was lost, the summary was not. *)
Lemma reopen_rebuilds_index_witness :
  exists fs m', newBlockfileMgr ex_root ex_mx ex_cfg
      (mkWorld fs {[blkMgrInfoKey := blockfilesInfo_marshal (summary [[ex_entry ex_b0]])]} []) = (Ret m', m_world m') /\
    store_ok m' [[ex_entry ex_b0]].
Proof.
  destruct (ex_store1 ex_mx (Z.le_refl _)) as (m & Hs & Hr & _).
  destruct (reopen_rebuilds_index m [[ex_entry ex_b0]] {[blkMgrInfoKey := blockfilesInfo_marshal (summary [[ex_entry ex_b0]])]} 0
    ex_mx ex_cfg Hs ex_index_all) as (m' & E & Hs').
  - simpl. lia.
  - apply index_ok_mgrkey, index_ok_empty.
  - apply lookup_insert_eq.
  - rewrite Hr in E. eauto.
Defined.

(** The second write of the frame fails after three bytes. *)
Lemma addBlock_io_error_undone_witness :
  exists m faults, addBlock ex_b1 0 (with_faults [None; Some (Fails 3)] m) = (Err ErrIO, with_faults faults m).
Proof.
  destruct (ex_store1 1000 ltac:(vm_compute; discriminate)) as (m & Hs & Hr & Hx & Hn & Hfit & Hi).
  assert (Ho : overflows m (ex_bytes ex_b1) = false).
  { unfold overflows. rewrite Hx, (so_info _ _ Hs). vm_compute. reflexivity. }
  destruct (addBlock_io_error_undone m _ ex_b1 (ex_bytes ex_b1) [Byte.x00] 0 [] [None; Some (Fails 3)] Hs) as (m' & ch & f & E & _ & _ & Em).
  - apply Hn.
  - exact Hfit.
  - apply ex_no_edit.
  - exact ex_args.
  - apply Hn.
  - apply Hn.
  - rewrite Hi. reflexivity.
  - exists 3%nat, []. split; [by left|]. right. by left.
  - rewrite Ho in E, Em. subst m'. exists m, f. exact E.
Defined.


Lemma addBlock_refused_witness :
  exists m e, m_rootDir m = ex_root /\ addBlock ex_b0 0 m = (Err e, m).
Proof.
  destruct (ex_store1 ex_mx (Z.le_refl _)) as (m & Hs & Hr & _).
  destruct (addBlock_refused m ex_b0 0 (proj2 ex_b0_ok)) as (e & E).
  - left. rewrite (mo_height _ _ _ (so_mgr _ _ Hs)). discriminate.
  - exists m, e. split; [exact Hr|exact E].
Defined.

(** ** The certificate operations *)

Definition ex_change : Block := ex_block 1 (BlockHeaderHash (Block_Header ex_b0)) [invoke_tx [ChangeCert; str "c"; str "v"]].

Lemma addBlock_ChangeCert_never_succeeds_witness :
  exists m, path_exists peer_chain_dir (w_fs (m_world m)) = true /\ Height (m_bcInfo m) = 1 /\
    forall b' m', addBlock ex_change 0 m <> (Ret b', m').
Proof.
  destruct (ex_store1 ex_mx (Z.le_refl _)) as (m & Hs & _).
  set (fs := mkFs (files (w_fs (m_world m))) ({[peer_chain_dir]} ∪ dirs (w_fs (m_world m)))).
  exists (set_world (mkWorld fs (w_db (m_world m)) []) m).
  assert (Hp : path_exists peer_chain_dir fs = true).
  { unfold path_exists. apply orb_true_iff. right. apply bool_decide_eq_true_2. cbn [fs dirs]. set_solver. }
  split; [exact Hp|]. split; [exact (mo_height _ _ _ (so_mgr _ _ Hs))|].
  intros b' m'. apply (addBlock_ChangeCert_never_succeeds _ m' ex_change b' 0 [str "c"; str "v"]); [exact Hp|].
  rewrite (ValidateAnalysis_invoke ex_change [ChangeCert; str "c"; str "v"] [] eq_refl). reflexivity.
Defined.

Lemma time_lock_roundtrip_witness :
  let args op := lock_args op (str "me") (str "cert1") (str "h") (str "10") (str "20") (str "h") in
  exists fs1, record_cert (args CreatTimeHashlock) (str "1") ex_fs = (Ret tt, fs1) /\
    record_cert (args ExeTimeHashlock) (str "1") fs1 = (Panic "the time of time_hash lock is error", fs1).
Proof.
  intros args.
  destruct (time_lock_roundtrip (str "me") (str "cert1") (str "h") (str "10") (str "20") (str "h") (str "1") ex_fs)
    as (fs1 & E1 & _ & E2).
  - cbn [ex_fs dirs]. intros E%elem_of_singleton. vm_compute in E. discriminate.
  - cbn [ex_fs dirs]. by apply elem_of_singleton.
  - apply lookup_empty.
  - by apply (bool_decide_unpack _); vm_compute.
  - exists fs1. split; [exact E1|exact E2].
Defined.

(** A store in the peer's chain directory with the certificate of alice in block 1, and
    the text files that lead there. *)
Definition ex_cert_args : list bytes := replicate 11 (str "a") ++ [str "old"].
Definition ex_cert_tx : bytes := cert_tx ex_cert_args (str "old").
Definition ex_cert_block : Block := ex_block 1 (BlockHeaderHash (Block_Header ex_b0)) [ex_cert_tx].
Definition ex_edit_chunk : list entry := [ex_entry ex_b0; ex_entry ex_cert_block].
Definition ex_edit_fs : Fs :=
  mkFs {[deriveBlockfilePath peer_chain_dir 0 := frames ex_edit_chunk;
         certinfo_path := records [(str "alice", FormatUint 1)];
         blockinfo_path := records (offset_record <$> [(0, 0); (1, zlen (frames [ex_entry ex_b0]))])]} {[peer_chain_dir]}.
Definition ex_edit_db : kvmap := {[blkMgrInfoKey := blockfilesInfo_marshal (summary [ex_edit_chunk])]}.
Definition ex_edit : Block :=
  ex_block 2 (BlockHeaderHash (Block_Header ex_cert_block)) [invoke_tx [ChangeCert; str "alice"; str "new"]].

Lemma ex_cert_ok : entry_ok (ex_entry ex_cert_block).
Proof. apply ex_entry_ok; [done|vm_compute; reflexivity..]. Qed.

Lemma ex_var_outside : outside peer_chain_dir certinfo_path /\ outside peer_chain_dir blockinfo_path.
Proof. split; (apply (outside_peer _ 29); [by vm_compute|by apply (bool_decide_unpack _)]). Qed.

Lemma ex_edit_file (path : bytes) : outside peer_chain_dir certinfo_path -> outside peer_chain_dir blockinfo_path ->
  (exists n, 0 <= n /\ path = deriveBlockfilePath peer_chain_dir n) \/ path = peer_chain_dir ++ str "/" ++ bootstrappingSnapshotInfoFile ->
  files ex_edit_fs !! path = ({[deriveBlockfilePath peer_chain_dir 0 := frames ex_edit_chunk]} : gmap bytes bytes) !! path.
Proof.
  intros [C1 C2] [B1 B2] Hp. cbn [ex_edit_fs files]. destruct (decide (path = deriveBlockfilePath peer_chain_dir 0)) as [->|Hne].
  - by rewrite lookup_insert_eq, lookup_singleton_eq.
  - rewrite lookup_insert_ne, (lookup_singleton_ne (deriveBlockfilePath _ _)) by done.
    assert (path <> certinfo_path /\ path <> blockinfo_path) as [N1 N2].
    { destruct Hp as [(n & Hn & ->)| ->]; split; intros E; try (by apply (C2 (eq_sym E))); try (by apply (B2 (eq_sym E))).
      - by apply (C1 n Hn).
      - by apply (B1 n Hn). }
    rewrite lookup_insert_ne, lookup_singleton_ne by done. done.
Qed.

Lemma ex_edit_disk : disk_ok ex_edit_fs peer_chain_dir [ex_edit_chunk] [].
Proof.
  destruct ex_var_outside as [O1 O2]. constructor.
  - done.
  - intros i es. destruct i; [|done]. intros [= <-]. rewrite ex_edit_file; [|done|done|left; by exists 0].
    change (Z.of_nat 0) with 0. rewrite lookup_singleton_eq. by rewrite app_nil_r.
  - apply torn_nil.
  - intros n Hn. change (zlen [ex_edit_chunk]) with 1 in Hn. left. rewrite ex_edit_file; [|done|done|left; exists n; split; [lia|done]].
    apply lookup_singleton_ne. intros E%deriveBlockfilePath_inj; lia.
  - done.
  - done.
  - apply Forall_singleton, Forall_cons. split; [apply ex_b0_ok|]. apply Forall_singleton, ex_cert_ok.
  - apply Forall_singleton. vm_compute. reflexivity.
  - intros [|[|k]] b; [intros [= <-]; done..|done].
  - done.
  - split; [cbn [ex_edit_fs dirs]; by apply elem_of_singleton|]. intros n Hn. cbn [ex_edit_fs dirs]. rewrite elem_of_singleton.
    intros E%(f_equal length). unfold deriveBlockfilePath in E. rewrite !length_app in E. change (length (str "/")) with 1%nat in E. lia.
  - rewrite ex_edit_file by auto. apply lookup_singleton_ne. by apply bsi_not_blockfile.
Qed.

(** One byte comes back for block 1, not the block. *)
Lemma edit_overwrites_frame_length_witness :
  exists m nb bs info post, Height (m_bcInfo m) = 2 /\ serializeBlock nb = Ret (bs, info) /\
    GetArgsFromBlock nb = Ret (replicate 11 (str "a") ++ [str "new"]) /\
    let '(r, m') := addBlock ex_edit 5 m in
    (forall b', r <> Ret b') /\
    files (w_fs (m_world m')) !! deriveBlockfilePath peer_chain_dir 0 = Some (frames [ex_entry ex_b0] ++ bs ++ post).
Proof.
  destruct (newBlockfileMgr_crashed ex_edit_fs ex_edit_db peer_chain_dir 1000 ex_cfg [] ex_edit_chunk [] []) as (m & _ & Hs & Hr & Hf).
  - constructor; [exact ex_edit_disk|apply lookup_singleton_eq|]. exists 0%nat. split; [lia|].
    apply index_ok_mgrkey, index_ok_empty.
  - exact ex_index_all.
  - assert (Hfs : w_fs (m_world m) = ex_edit_fs).
    { rewrite Hf. unfold set_file. rewrite insert_id; [reflexivity|]. cbn [ex_edit_fs files]. apply lookup_insert_eq. }
    pose proof (mo_height _ _ _ (so_mgr _ _ Hs)) as Hh. change (zlen (blocks_of _)) with 2 in Hh.
    destruct (edit_overwrites_frame_length m [ex_entry ex_b0] [] (ex_entry ex_cert_block) ex_edit (str "alice") (str "new")
      ex_cert_tx [] [] ex_cert_args 5) as (nb & bs & info & post & H1 & _ & H2 & H3).
    + exact Hs.
    + exact Hr.
    + rewrite Hh. reflexivity.
    + rewrite (ValidateAnalysis_invoke ex_edit [ChangeCert; str "alice"; str "new"] [] eq_refl). reflexivity.
    + rewrite Hfs.
      rewrite (GetBlockNumberFromFile_records [(str "alice", FormatUint 1)]); [vm_compute; reflexivity|vm_compute; reflexivity|].
      by apply (bool_decide_unpack _); vm_compute.
    + rewrite Hfs. vm_compute. reflexivity.
    + reflexivity.
    + apply cert_tx_is_ok.
    + vm_compute. reflexivity.
    + apply (bool_decide_unpack _). vm_compute. exact I.
    + split; [discriminate|vm_compute; reflexivity].
    + reflexivity.
    + exists m, nb, bs, info, post. split; [exact Hh|]. split; [exact H1|]. split; [exact H2|].
      destruct (addBlock ex_edit 5 m) as [r m']. destruct H3 as (Hr3 & Hf3 & _). split; [exact Hr3|exact Hf3].
Defined.

Lemma recorded_offsets_found_witness :
  exists fs', record_blockinfo ex_b1 117 (mkFs {[blockinfo_path := records (offset_record <$> [(0, 0)])]} ∅) = (Ret tt, fs') /\
    GetBlockOffsetFromFile (FormatUint 1) fs' = Ret (Itoa 117).
Proof.
  destruct (recorded_offsets_found [(0, 0)] ex_b1 117 (mkFs {[blockinfo_path := records (offset_record <$> [(0, 0)])]} ∅))
    as (fs' & E & H).
  - apply lookup_singleton_eq.
  - apply not_elem_of_empty.
  - by apply (bool_decide_unpack _); vm_compute.
  - by apply (bool_decide_unpack _); vm_compute.
  - exists fs'. split; [exact E|]. apply (H 1 117). by apply (bool_decide_unpack _); vm_compute.
Defined.

Lemma edited_block_reads_back_witness :
  let b := ex_block 3 [] [cert_tx [str "put"; str "k"; str "old"] (str "old")] in
  exists b2, GetArgsFromBlock b2 = Ret [str "put"; str "k"; str "new"] /\ GetRwsetFromBlock b2 = Ret (str "new") /\
    same_but_first b b2.
Proof.
  intros b. destruct (edited_block_reads_back [str "put"; str "k"; str "new"] (str "new") b
    (cert_tx [str "put"; str "k"; str "old"] (str "old")) []) as (b1 & b2 & rest & _ & _ & E1 & E2 & E3 & _).
  - reflexivity.
  - apply cert_tx_is_ok.
  - exists b2. split; [exact E1|]. split; [exact E2|exact E3].
Defined.

Lemma GetBlockNumberFromFile_records_witness :
  let fs := mkFs {[certinfo_path := records [(str "alice", str "4"); (str "bob", str "7")]]} ∅ in
  GetBlockNumberFromFile (str "bob") fs = Ret (str "7") /\ GetBlockNumberFromFile (str "eve") fs = Err ErrEOF.
Proof.
  intros fs. assert (Hl : Forall record_ok [(str "alice", str "4"); (str "bob", str "7")])
    by (by apply (bool_decide_unpack _); vm_compute).
  rewrite !(GetBlockNumberFromFile_records [(str "alice", str "4"); (str "bob", str "7")] _ fs (lookup_singleton_eq _ _) Hl).
  by vm_compute.
Defined.

Lemma GetBlockOffsetFromFile_empty_witness :
  is_panic (GetBlockOffsetFromFile [] (mkFs {[blockinfo_path := records [(str "0", str "0")]]} ∅)) = true.
Proof.
  apply (GetBlockOffsetFromFile_empty [(str "0", str "0")]).
  - apply lookup_singleton_eq.
  - by apply (bool_decide_unpack _); vm_compute.
  - by apply (bool_decide_unpack _); vm_compute.
Defined.

(** ** Serialized blocks and directories of block files *)

Lemma serialization_roundtrip_witness :
  exists bs info, serializeBlock ex_b0 = Ret (bs, info) /\ deserializeBlock bs = Ret ex_b0 /\
    exists loc, sbi_txOffsets info !! 0%nat = Some loc.
Proof.
  destruct (serialization_roundtrip ex_b0 ex_md) as (bs & info & E1 & E2 & _ & H).
  - reflexivity.
  - done.
  - vm_compute. reflexivity.
  - exists bs, info. split; [exact E1|]. split; [exact E2|].
    destruct (H 0%nat (ex_tx (str "t0")) eq_refl) as (pre & post & _ & E). eauto.
Defined.

Lemma deserializeBlock_no_panic_witness : is_panic (deserializeBlock (replicate 20 Byte.xff)) = false.
Proof. apply deserializeBlock_no_panic. reflexivity. Defined.

(** Blocks 3 and 4 in a file each, the last one followed by three bytes of a
    frame of length 100. *)
Definition ex_two : Fs :=
  mkFs {[deriveBlockfilePath ex_root 0 := enc_raw (ex_bytes (ex_block 3 [] []));
         deriveBlockfilePath ex_root 1 := enc_raw (ex_bytes (ex_block 4 [] [])) ++ [z2b 100; Byte.x00; Byte.x00]]} {[ex_root]}.

Lemma binarySearch_finds_file_witness : binarySearchFileNumForBlock ex_two ex_root 4 = Ret 1.
Proof.
  destruct (binarySearch_finds_file ex_two ex_root 3 [[ex_block 3 [] []]; [ex_block 4 [] []]] 1 (ex_block 4 [] []))
    as (f & blocks & E & Hf & Hin).
  - constructor.
    + vm_compute. reflexivity.
    + split; [done|]. by repeat constructor.
    + assert (Hser : forall n, is_u64 n -> (zlen (ex_bytes (ex_block n [] [])) <? 2 ^ 56) = true ->
        serialized (ex_block n [] []) (ex_bytes (ex_block n [] []))).
      { intros n Hn Hl. split; [eexists; by apply serializeBlock_eq|]. split; [by apply Z.ltb_lt|exact Hn]. }
      intros [|[|i]] blocks Hi; [..|done]; injection Hi as <-.
      * exists [ex_bytes (ex_block 3 [] [])], []. split; [|split].
        -- vm_compute. reflexivity.
        -- exists [], (enc_raw []). split; [done|]. split; [vm_compute; discriminate|reflexivity].
        -- repeat constructor. all: apply Hser; [done|vm_compute; reflexivity].
      * exists [ex_bytes (ex_block 4 [] [])], [z2b 100; Byte.x00; Byte.x00]. split; [|split].
        -- vm_compute. reflexivity.
        -- exists (replicate 100 Byte.x00), (replicate 98 Byte.x00). split; [done|]. split; [discriminate|vm_compute; reflexivity].
        -- repeat constructor. all: apply Hser; [done|vm_compute; reflexivity].
    + intros [|[|k]] b Hk; [..|done]; injection Hk as <-; reflexivity.
  - reflexivity.
  - destruct f as [|[|f]]; [|exact E|done]. injection Hf as <-. apply list_elem_of_singleton in Hin. discriminate.
Defined.
