(* ===== verification/StateProto.v ===== *)
(** * Messages of the state database and of private read-write sets

    The messages of kvrwset, rwset and stateleveldb that transaction validation
    and the state database use beyond those of [Proto], and their codecs as a
    second bundle.  A bytes field that is not set decodes to nil; the model writes
    both nil and the empty string as the empty list, which is what a canonical
    encoding distinguishes. *)

From S2P Require Import Prelude Wire Proto.

Record KVReadHash := mkKVReadHash {
  KVReadHash_KeyHash : bytes;
  KVReadHash_Version : option Version }.

Record KVWriteHash := mkKVWriteHash {
  KVWriteHash_KeyHash : bytes;
  KVWriteHash_IsDelete : bool;
  KVWriteHash_ValueHash : bytes }.

Record KVMetadataWriteHash := mkKVMetadataWriteHash {
  KVMetadataWriteHash_KeyHash : bytes;
  KVMetadataWriteHash_Entries : list KVMetadataEntry }.

Record HashedRWSet := mkHashedRWSet {
  HashedRWSet_HashedReads : list KVReadHash;
  HashedRWSet_HashedWrites : list KVWriteHash;
  HashedRWSet_MetadataWrites : list KVMetadataWriteHash }.

Record QueryReads := mkQueryReads {
  QueryReads_KvReads : list KVRead }.

Record CollectionPvtReadWriteSet := mkCollectionPvtReadWriteSet {
  CollectionPvtReadWriteSet_CollectionName : bytes;
  CollectionPvtReadWriteSet_Rwset : bytes }.

Record NsPvtReadWriteSet := mkNsPvtReadWriteSet {
  NsPvtReadWriteSet_Namespace : bytes;
  NsPvtReadWriteSet_CollectionPvtRwset : list CollectionPvtReadWriteSet }.

Record TxPvtReadWriteSet := mkTxPvtReadWriteSet {
  TxPvtReadWriteSet_DataModel : Z;
  TxPvtReadWriteSet_NsPvtRwset : list NsPvtReadWriteSet }.

Record DBValue := mkDBValue {
  DBValue_Version : bytes;
  DBValue_Value : bytes;
  DBValue_Metadata : bytes }.

Class StateProtos : Type := {
  #[global] StateProtos_HashedRWSet :: Codec HashedRWSet;
  #[global] StateProtos_QueryReads :: Codec QueryReads;
  #[global] StateProtos_KVMetadataWrite :: Codec KVMetadataWrite;
  #[global] StateProtos_DBValue :: Codec DBValue;
  #[global] StateProtos_TxPvtReadWriteSet :: Codec TxPvtReadWriteSet }.

Class StateProtosOk `{!StateProtos} : Prop := {
  #[global] StateProtosOk_HashedRWSet :: CodecOk HashedRWSet;
  #[global] StateProtosOk_QueryReads :: CodecOk QueryReads;
  #[global] StateProtosOk_KVMetadataWrite :: CodecOk KVMetadataWrite;
  #[global] StateProtosOk_DBValue :: CodecOk DBValue;
  #[global] StateProtosOk_TxPvtReadWriteSet :: CodecOk TxPvtReadWriteSet }.

(** ** The concrete codec *)

#[global] Instance KVReadHash_eq_dec : EqDecision KVReadHash.
Proof. solve_decision. Defined.

#[global] Instance KVReadHash_wire : Wire KVReadHash.
Proof.
  refine (wire_iso (fun m => (KVReadHash_KeyHash m, KVReadHash_Version m)) (fun '(a0, a1) => mkKVReadHash a0 a1) _).
  by intros [].
Defined.

#[global] Instance KVWriteHash_eq_dec : EqDecision KVWriteHash.
Proof. solve_decision. Defined.

#[global] Instance KVWriteHash_wire : Wire KVWriteHash.
Proof.
  refine (wire_iso (fun m => (KVWriteHash_KeyHash m, KVWriteHash_IsDelete m, KVWriteHash_ValueHash m)) (fun '(a0, a1, a2) => mkKVWriteHash a0 a1 a2) _).
  by intros [].
Defined.

#[global] Instance KVMetadataWriteHash_eq_dec : EqDecision KVMetadataWriteHash.
Proof. solve_decision. Defined.

#[global] Instance KVMetadataWriteHash_wire : Wire KVMetadataWriteHash.
Proof.
  refine (wire_iso (fun m => (KVMetadataWriteHash_KeyHash m, KVMetadataWriteHash_Entries m)) (fun '(a0, a1) => mkKVMetadataWriteHash a0 a1) _).
  by intros [].
Defined.

#[global] Instance HashedRWSet_eq_dec : EqDecision HashedRWSet.
Proof. solve_decision. Defined.

#[global] Instance HashedRWSet_wire : Wire HashedRWSet.
Proof.
  refine (wire_iso (fun m => (HashedRWSet_HashedReads m, HashedRWSet_HashedWrites m, HashedRWSet_MetadataWrites m)) (fun '(a0, a1, a2) => mkHashedRWSet a0 a1 a2) _).
  by intros [].
Defined.

#[global] Instance QueryReads_eq_dec : EqDecision QueryReads.
Proof. solve_decision. Defined.

#[global] Instance QueryReads_wire : Wire QueryReads.
Proof.
  refine (wire_iso QueryReads_KvReads mkQueryReads _).
  by intros [].
Defined.

#[global] Instance CollectionPvtReadWriteSet_eq_dec : EqDecision CollectionPvtReadWriteSet.
Proof. solve_decision. Defined.

#[global] Instance CollectionPvtReadWriteSet_wire : Wire CollectionPvtReadWriteSet.
Proof.
  refine (wire_iso (fun m => (CollectionPvtReadWriteSet_CollectionName m, CollectionPvtReadWriteSet_Rwset m)) (fun '(a0, a1) => mkCollectionPvtReadWriteSet a0 a1) _).
  by intros [].
Defined.

#[global] Instance NsPvtReadWriteSet_eq_dec : EqDecision NsPvtReadWriteSet.
Proof. solve_decision. Defined.

#[global] Instance NsPvtReadWriteSet_wire : Wire NsPvtReadWriteSet.
Proof.
  refine (wire_iso (fun m => (NsPvtReadWriteSet_Namespace m, NsPvtReadWriteSet_CollectionPvtRwset m)) (fun '(a0, a1) => mkNsPvtReadWriteSet a0 a1) _).
  by intros [].
Defined.

#[global] Instance TxPvtReadWriteSet_eq_dec : EqDecision TxPvtReadWriteSet.
Proof. solve_decision. Defined.

#[global] Instance TxPvtReadWriteSet_wire : Wire TxPvtReadWriteSet.
Proof.
  refine (wire_iso (fun m => (TxPvtReadWriteSet_DataModel m, TxPvtReadWriteSet_NsPvtRwset m)) (fun '(a0, a1) => mkTxPvtReadWriteSet a0 a1) _).
  by intros [].
Defined.

#[global] Instance DBValue_eq_dec : EqDecision DBValue.
Proof. solve_decision. Defined.

#[global] Instance DBValue_wire : Wire DBValue.
Proof.
  refine (wire_iso (fun m => (DBValue_Version m, DBValue_Value m, DBValue_Metadata m)) (fun '(a0, a1, a2) => mkDBValue a0 a1 a2) _).
  by intros [].
Defined.

Definition wire_state_protos : StateProtos := {|
  StateProtos_HashedRWSet := wire_codec HashedRWSet None;
  StateProtos_QueryReads := wire_codec QueryReads None;
  StateProtos_KVMetadataWrite := wire_codec KVMetadataWrite None;
  StateProtos_DBValue := wire_codec DBValue None;
  StateProtos_TxPvtReadWriteSet := wire_codec TxPvtReadWriteSet None |}.

#[global] Instance wire_state_protos_ok : @StateProtosOk wire_state_protos.
Proof. constructor; apply wire_codec_ok. Qed.
