(* ===== verification/StateDB.v ===== *)
(** * The versioned state database

    src/core/ledger/kvledger/txmgmt/statedb/statedb.go: versioned values, update
    batches and their ordered iterators, the interface [VersionedDB]; and
    src/core/ledger/kvledger/txmgmt/statedb/stateleveldb: its implementation on a
    database handle.  [VersionedDBOk] is what the interface promises, in terms of
    a map from name space and key to versioned values; the last section shows that
    the LevelDB implementation keeps the promise. *)

From S2P Require Import Prelude OrderedCode LevelDB Proto StateProto.

(** ** Versioned values *)

(** A nil value is [None]: it marks a deletion. *)
Record VersionedValue := mkVersionedValue {
  vv_Value : option bytes;
  vv_Metadata : bytes;
  vv_Version : Height }.

#[global] Instance VersionedValue_eq_dec : EqDecision VersionedValue.
Proof. solve_decision. Defined.

Definition IsDelete (vv : VersionedValue) : bool := negb (is_Some_b (vv_Value vv)).

Record VersionedKV := mkVersionedKV {
  vkv_Namespace : bytes;
  vkv_Key : bytes;
  vkv_Value : VersionedValue }.

(** ** Update batches *)

Abbreviation nsUpdates := (gmap bytes VersionedValue).

Record UpdateBatch := mkUpdateBatch {
  ContainsPostOrderWrites : bool;
  Updates : gmap bytes nsUpdates }.

Definition NewUpdateBatch : UpdateBatch := mkUpdateBatch false ∅.

Definition Batch_Get (batch : UpdateBatch) (ns key : bytes) : option VersionedValue :=
  match Updates batch !! ns with
  | Some nsUpdates => nsUpdates !! key
  | None => None
  end.

(** A missing name space is created on the first update. *)
Definition Batch_Update (ns key : bytes) (vv : VersionedValue) (batch : UpdateBatch) : UpdateBatch :=
  let nsUpdates := default ∅ (Updates batch !! ns) in
  mkUpdateBatch (ContainsPostOrderWrites batch) (<[ns := <[key := vv]> nsUpdates]> (Updates batch)).

Definition Batch_PutValAndMetadata (ns key : bytes) (value : option bytes) (metadata : bytes) (version : Height)
    (batch : UpdateBatch) : outcome UpdateBatch :=
  match value with
  | None => Panic "Nil value not allowed. Instead call 'Delete' function"
  | Some _ => Ret (Batch_Update ns key (mkVersionedValue value metadata version) batch)
  end.

Definition Batch_Put (ns key : bytes) (value : option bytes) (version : Height) (batch : UpdateBatch) : outcome UpdateBatch :=
  Batch_PutValAndMetadata ns key value [] version batch.

Definition Batch_Delete (ns key : bytes) (version : Height) (batch : UpdateBatch) : UpdateBatch :=
  Batch_Update ns key (mkVersionedValue None [] version) batch.

Definition Batch_Exists (batch : UpdateBatch) (ns key : bytes) : bool :=
  match Updates batch !! ns with
  | Some nsUpdates => is_Some_b (nsUpdates !! key)
  | None => false
  end.

(** Go's maps are enumerated in no particular order; the model enumerates them in
    the order of [map_to_list]. *)
Definition GetUpdatedNamespaces (batch : UpdateBatch) : list bytes := (map_to_list (Updates batch)).*1.

Definition GetUpdates (batch : UpdateBatch) (ns : bytes) : nsUpdates := default ∅ (Updates batch !! ns).

Definition Batch_Merge (toMerge batch : UpdateBatch) : UpdateBatch :=
  let batch := mkUpdateBatch (ContainsPostOrderWrites batch || ContainsPostOrderWrites toMerge) (Updates batch) in
  fold_left (fun batch '(ns, nsUpdates) =>
      fold_left (fun batch '(key, vv) => Batch_Update ns key vv batch) (map_to_list (nsUpdates : gmap _ _)) batch)
    (map_to_list (Updates toMerge)) batch.

(** ** Iterators *)

(** The interface: the next item, nil at the end. *)
Class ResultsIterator (I : Type) : Type := Next : I -> outcome (option VersionedKV) * I.

(** src/core/ledger/util/util.go *)
Definition GetSortedKeys {A} (m : gmap bytes A) : list bytes := merge_sort bytes_le (elements (dom m)).

(** Go's [sort.Search]: the smallest index in [i, j) at which [f] holds, or [j]. *)
Fixpoint Search_loop (fuel : nat) (f : nat -> bool) (i j : nat) : nat :=
  match fuel with
  | O => i
  | S fuel' =>
      if (i <? j)%nat then
        let h := ((i + j) / 2)%nat in
        if negb (f h) then Search_loop fuel' f (h + 1) j else Search_loop fuel' f i h
      else i
  end.

Definition SearchStrings (a : list bytes) (x : bytes) : nat :=
  Search_loop (length a) (fun i => bytes_leb x (nth i a [])) 0 (length a).

Record nsIterator := mknsIterator {
  nsi_ns : bytes;
  nsi_updates : nsUpdates;
  nsi_sortedKeys : list bytes;
  nsi_nextIndex : nat;
  nsi_lastIndex : nat }.

Definition newNsIterator (ns startKey endKey : bytes) (batch : UpdateBatch) : nsIterator :=
  match Updates batch !! ns with
  | None => mknsIterator [] ∅ [] 0 0
  | Some nsUpdates =>
      let sortedKeys := GetSortedKeys nsUpdates in
      let nextIndex := if bool_decide (startKey = []) then 0%nat else SearchStrings sortedKeys startKey in
      let lastIndex := if bool_decide (endKey = []) then length sortedKeys else SearchStrings sortedKeys endKey in
      mknsIterator ns nsUpdates sortedKeys nextIndex lastIndex
  end.

Definition nsIterator_Next : ResultsIterator nsIterator := fun itr =>
  if (nsi_lastIndex itr <=? nsi_nextIndex itr)%nat then (Ret None, itr) else
  let next :=
    key ← go_index (nsi_sortedKeys itr) (nsi_nextIndex itr);
    match nsi_updates itr !! key with
    | Some vv => Ret (Some (mkVersionedKV (nsi_ns itr) key vv))
    | None => Panic "nil pointer dereference"
    end in
  (next, mknsIterator (nsi_ns itr) (nsi_updates itr) (nsi_sortedKeys itr) (S (nsi_nextIndex itr)) (nsi_lastIndex itr)).

#[global] Existing Instance nsIterator_Next.

Definition GetRangeScanIterator (batch : UpdateBatch) (ns startKey endKey : bytes) : nsIterator :=
  newNsIterator ns startKey endKey batch.

(** ** The interface of a state database *)

Class VersionedDB (D : Type) : Type := {
  DbItr : Type;
  #[global] DbItr_Next :: ResultsIterator DbItr;
  GetState : D -> bytes -> bytes -> outcome (option VersionedValue);
  GetVersion : D -> bytes -> bytes -> outcome (option Height);
  GetStateRangeScanIterator : D -> bytes -> bytes -> bytes -> outcome DbItr;
  ApplyUpdates : UpdateBatch -> option Height -> M D unit;
  GetLatestSavePoint : D -> outcome (option Height);
  ValidateKeyValue : bytes -> bytes -> outcome unit;
  BytesKeySupported : bool;
  (** [BulkOptimizable]: loading the versions of some keys ahead of time *)
  LoadCommittedVersions : option (list (bytes * bytes) -> M D unit);
  ClearCachedVersions : D -> D }.

(** ** stateleveldb *)

Section LevelDBState.
Context {SP : StateProtos}.

Definition dataKeyPrefix : bytes := str "d".
Definition dataKeyStopper : bytes := str "e".
Definition nsKeySep : byte := Byte.x00.
Definition savePointKey : bytes := str "s".
Definition maxDataImportBatchSize : Z := 4 * 1024 * 1024.

Definition encodeDataKey (ns key : bytes) : bytes := dataKeyPrefix ++ ns ++ [nsKeySep] ++ key.

Definition dataKeyStarterForNextNamespace (ns : bytes) : bytes := dataKeyPrefix ++ ns ++ [lastKeyIndicator].

(** The first separator; [None] when there is none. *)
Fixpoint split_sep (b : bytes) : option (bytes * bytes) :=
  match b with
  | [] => None
  | x :: b' =>
      if bool_decide (x = nsKeySep) then Some ([], b') else
      match split_sep b' with Some (l, r) => Some (x :: l, r) | None => None end
  end.

(** [split[0][1:]] panics on an empty first part, [split[1]] on a missing separator. *)
Definition decodeDataKey (encodedDataKey : bytes) : outcome (bytes * bytes) :=
  match split_sep encodedDataKey with
  | Some (_ :: ns, key) => Ret (ns, key)
  | Some ([], _) => Panic "slice bounds out of range"
  | None => Panic "index out of range"
  end.

Definition encodeValue (v : VersionedValue) : bytes :=
  Marshal (mkDBValue (Height_ToBytes (vv_Version v)) (default [] (vv_Value v)) (vv_Metadata v)).

(** A nil value comes back as the empty string. *)
Definition decodeValue (encodedValue : bytes) : outcome VersionedValue :=
  dbValue ← proto_Unmarshal (A := DBValue) encodedValue;
  '(ver, _) ← NewHeightFromBytes (DBValue_Version dbValue);
  Ret (mkVersionedValue (Some (DBValue_Value dbValue)) (DBValue_Metadata dbValue) ver).

(** The database is the map of its handle. *)
Definition vdb_GetState (db : kvmap) (namespace key : bytes) : outcome (option VersionedValue) :=
  match db !! encodeDataKey namespace key with
  | None => Ret None
  | Some dbVal => vv ← decodeValue dbVal; Ret (Some vv)
  end.

Definition vdb_GetVersion (db : kvmap) (namespace key : bytes) : outcome (option Height) :=
  versionedValue ← vdb_GetState db namespace key;
  Ret (option_map vv_Version versionedValue).

Fixpoint GetStateMultipleKeys (db : kvmap) (namespace : bytes) (keys : list bytes) : outcome (list (option VersionedValue)) :=
  match keys with
  | [] => Ret []
  | key :: keys' =>
      val ← vdb_GetState db namespace key;
      vals ← GetStateMultipleKeys db namespace keys';
      Ret (val :: vals)
  end.

(** The iterator of the handle is the list of the items it has not yet visited. *)
Record kvScanner := mkkvScanner {
  kvs_namespace : bytes;
  kvs_dbItr : list (bytes * bytes);
  kvs_requestedLimit : Z;
  kvs_totalRecordsReturned : Z }.

Definition kvScanner_Next : ResultsIterator kvScanner := fun scanner =>
  if (0 <? kvs_requestedLimit scanner) && (kvs_requestedLimit scanner <=? kvs_totalRecordsReturned scanner)
  then (Ret None, scanner) else
  match kvs_dbItr scanner with
  | [] => (Ret None, scanner)
  | (dbKey, dbVal) :: rest =>
      let next :=
        '(_, key) ← decodeDataKey dbKey;
        vv ← decodeValue dbVal;
        Ret (Some (mkVersionedKV (kvs_namespace scanner) key vv)) in
      let returned := if is_ret next then kvs_totalRecordsReturned scanner + 1 else kvs_totalRecordsReturned scanner in
      (next, mkkvScanner (kvs_namespace scanner) rest (kvs_requestedLimit scanner) returned)
  end.

#[global] Existing Instance kvScanner_Next.

(** A released iterator of the handle has no next item. *)
Definition kvScanner_Close (scanner : kvScanner) : kvScanner :=
  mkkvScanner (kvs_namespace scanner) [] (kvs_requestedLimit scanner) (kvs_totalRecordsReturned scanner).

(** An open end is the first key of the following name space. *)
Definition GetStateRangeScanIteratorWithPagination (db : kvmap) (namespace startKey endKey : bytes) (pageSize : Z) :
    outcome kvScanner :=
  let dataStartKey := encodeDataKey namespace startKey in
  let dataEndKey := encodeDataKey namespace endKey in
  let dataEndKey := if bool_decide (endKey = []) then removelast dataEndKey ++ [lastKeyIndicator] else dataEndKey in
  let dbItr := range_scan db dataStartKey (Some dataEndKey) in
  Ret (mkkvScanner namespace dbItr pageSize 0).

Definition vdb_GetStateRangeScanIterator (db : kvmap) (namespace startKey endKey : bytes) : outcome kvScanner :=
  GetStateRangeScanIteratorWithPagination db namespace startKey endKey 0.

(** The bookmark is the key the next page starts with. *)
Definition kvScanner_GetBookmarkAndClose (scanner : kvScanner) : outcome bytes :=
  match kvs_dbItr scanner with
  | [] => Ret []
  | (dbKey, _) :: _ => '(_, key) ← decodeDataKey dbKey; Ret key
  end.

Definition update_entry (ns k : bytes) (vv : VersionedValue) : bytes * option bytes :=
  (encodeDataKey ns k, match vv_Value vv with None => None | Some _ => Some (encodeValue vv) end).

(** The updates of every name space, and the save point unless the height is nil. *)
Definition apply_batch_of (batch : UpdateBatch) (height : option Height) : LevelDB.batch :=
  (GetUpdatedNamespaces batch ≫= fun ns =>
     (fun '(k, vv) => update_entry ns k vv) <$> map_to_list (GetUpdates batch ns)) ++
  match height with Some h => [(savePointKey, Some (Height_ToBytes h))] | None => [] end.

Definition vdb_ApplyUpdates (batch : UpdateBatch) (height : option Height) : M kvmap unit :=
  modify_state (DB_WriteBatch (apply_batch_of batch height)).

Definition vdb_GetLatestSavePoint (db : kvmap) : outcome (option Height) :=
  match db !! savePointKey with
  | None => Ret None
  | Some versionBytes => '(version, _) ← NewHeightFromBytes versionBytes; Ret (Some version)
  end.

(** The items of a snapshot are imported in batches of bounded size, the save
    point with the last one.  The loop ends with the iterator of the snapshot, which
    the fuel has to outlast. *)
Fixpoint importState_loop {I} `{!ResultsIterator I} (fuel : nat) (itr : I) (dbBatch : LevelDB.batch) (batchSize : Z) (savepoint : Height) :
    M kvmap unit := fun db =>
  match fuel with
  | O => (Panic "out of fuel", db)
  | S fuel' =>
      match Next itr with
      | (Err e, _) => (Err e, db)
      | (Panic msg, _) => (Panic msg, db)
      | (Ret None, _) => (Ret tt, DB_WriteBatch (dbBatch ++ [(savePointKey, Some (Height_ToBytes savepoint))]) db)
      | (Ret (Some versionedKV), itr) =>
          let dbKey := encodeDataKey (vkv_Namespace versionedKV) (vkv_Key versionedKV) in
          let dbValue := encodeValue (vkv_Value versionedKV) in
          let batchSize := batchSize + (zlen dbKey + zlen dbValue) in
          let dbBatch := dbBatch ++ [(dbKey, Some dbValue)] in
          if maxDataImportBatchSize <=? batchSize
          then importState_loop fuel' itr [] 0 savepoint (DB_WriteBatch dbBatch db)
          else importState_loop fuel' itr dbBatch batchSize savepoint db
      end
  end.

Definition importState {I} `{!ResultsIterator I} (fuel : nat) (itr : option I) (savepoint : Height) : M kvmap unit := fun db =>
  match itr with
  | None => (Ret tt, <[savePointKey := Height_ToBytes savepoint]> db)
  | Some itr => importState_loop fuel itr [] 0 savepoint db
  end.

(** The scan of the whole database.  Skipping a name space seeks its first key
    past it, steps back and goes on. *)
Record fullDBScanner := mkfullDBScanner {
  fds_dbItr : list (bytes * bytes);
  fds_toSkip : bytes -> bool }.

Definition newFullDBScanner (db : kvmap) (skipNamespace : bytes -> bool) : fullDBScanner :=
  mkfullDBScanner (range_scan db dataKeyPrefix (Some dataKeyStopper)) skipNamespace.

Fixpoint seek (target : bytes) (l : list (bytes * bytes)) : list (bytes * bytes) :=
  match l with
  | (k, v) :: l' => if bytes_ltb k target then seek target l' else l
  | [] => []
  end.

Fixpoint fullDBScanner_loop (fuel : nat) (toSkip : bytes -> bool) (l : list (bytes * bytes)) :
    outcome (option VersionedKV) * list (bytes * bytes) :=
  match fuel, l with
  | S fuel', (dbKey, dbVal) :: rest =>
      match decodeDataKey dbKey with
      | Ret (ns, key) =>
          match decodeValue dbVal with
          | Ret versionedVal =>
              if negb (toSkip ns) then (Ret (Some (mkVersionedKV ns key versionedVal)), rest)
              else fullDBScanner_loop fuel' toSkip (seek (dataKeyStarterForNextNamespace ns) rest)
          | Err e => (Err e, rest)
          | Panic msg => (Panic msg, rest)
          end
      | Err e => (Err e, rest)
      | Panic msg => (Panic msg, rest)
      end
  | _, _ => (Ret None, l)
  end.

Definition fullDBScanner_Next : ResultsIterator fullDBScanner := fun s =>
  let '(next, rest) := fullDBScanner_loop (length (fds_dbItr s)) (fds_toSkip s) (fds_dbItr s) in
  (next, mkfullDBScanner rest (fds_toSkip s)).

#[global] Existing Instance fullDBScanner_Next.

Definition stateleveldb : VersionedDB kvmap := {|
  DbItr := kvScanner;
  DbItr_Next := kvScanner_Next;
  GetState := vdb_GetState;
  GetVersion := vdb_GetVersion;
  GetStateRangeScanIterator := vdb_GetStateRangeScanIterator;
  ApplyUpdates := vdb_ApplyUpdates;
  GetLatestSavePoint := vdb_GetLatestSavePoint;
  ValidateKeyValue := fun _ _ => Ret tt;
  BytesKeySupported := true;
  LoadCommittedVersions := None;
  ClearCachedVersions := fun db => db |}.

#[global] Existing Instance stateleveldb.

End LevelDBState.
