(* ===== verification/StateDBOk.v ===== *)
(** * What a state database promises

    The abstract state is a map from name space and key to versioned values.  An
    update batch acts on it, a range query is its sorted slice.  [VersionedDBOk]
    states the promise of a [VersionedDB] implementation in these terms; the batch
    iterator and stateleveldb are shown to keep it. *)

From S2P Require Import Prelude OrderedCode LevelDB Proto StateProto StateDB.

(** ** The abstract state *)

Abbreviation state := (gmap (bytes * bytes) VersionedValue).

(** The updates of a batch as one map, delete markers included. *)
Definition batch_map (batch : UpdateBatch) : state := map_uncurry (M1 := gmap bytes) (M2 := gmap bytes) (M12 := gmap (bytes * bytes)) (Updates batch).

Lemma batch_map_lookup (batch : UpdateBatch) (ns key : bytes) :
  batch_map batch !! (ns, key) = Batch_Get batch ns key.
Proof.
  unfold batch_map, Batch_Get. rewrite lookup_map_uncurry. by destruct (Updates batch !! ns).
Qed.

Definition live (vv : VersionedValue) : option VersionedValue := if IsDelete vv then None else Some vv.

(** The state after the updates [u]. *)
Definition apply_updates (u σ : state) : state :=
  merge (fun new old => match new with Some vv => live vv | None => old end) u σ.

Lemma apply_updates_lookup (u σ : state) (k : bytes * bytes) :
  apply_updates u σ !! k = match u !! k with Some vv => live vv | None => σ !! k end.
Proof. unfold apply_updates. rewrite lookup_merge. by destruct (u !! k), (σ !! k). Qed.

(** The keys of a name space. *)
Definition slice (σ : state) (ns : bytes) : nsUpdates := default ∅ (map_curry (M1 := gmap bytes) (M2 := gmap bytes) (M12 := gmap (bytes * bytes)) σ !! ns).

Lemma slice_lookup (σ : state) (ns key : bytes) : slice σ ns !! key = σ !! (ns, key).
Proof.
  unfold slice. rewrite <- (lookup_map_curry σ ns key).
  destruct (map_curry σ !! ns) eqn:E; rewrite ?E; [done|]. cbn. apply lookup_empty.
Qed.

(** The empty end key is no end. *)
Definition limit_of (endKey : bytes) : option bytes := if bool_decide (endKey = []) then None else Some endKey.

Definition scan (σ : state) (ns startKey endKey : bytes) : list VersionedKV :=
  (fun '(k, vv) => mkVersionedKV ns k vv) <$> range_scan (slice σ ns) startKey (limit_of endKey).

(** The items an iterator gives until it ends. *)
Inductive yields {I} `{!ResultsIterator I} : I -> list VersionedKV -> Prop :=
| yields_nil (i i' : I) : Next i = (Ret None, i') -> yields i []
| yields_cons (i i' : I) (kv : VersionedKV) (l : list VersionedKV) :
    Next i = (Ret (Some kv), i') -> yields i' l -> yields i (kv :: l).

(** Name spaces do not contain the separator of the data keys. *)
Definition ns_ok (ns : bytes) : Prop := nsKeySep ∉ ns.

Definition batch_ok (batch : UpdateBatch) : Prop :=
  forall ns key vv, Batch_Get batch ns key = Some vv -> ns_ok ns /\ Height_wf (vv_Version vv).

Class VersionedDBOk (D : Type) `{!VersionedDB D} : Type := {
  state_view : D -> state -> Prop;
  view_GetState : forall d σ ns key, state_view d σ -> ns_ok ns -> GetState d ns key = Ret (σ !! (ns, key));
  view_GetVersion : forall d σ ns key, state_view d σ -> ns_ok ns ->
    GetVersion d ns key = Ret (option_map vv_Version (σ !! (ns, key)));
  view_scan : forall d σ ns s e, state_view d σ -> ns_ok ns ->
    exists itr, GetStateRangeScanIterator d ns s e = Ret itr /\ yields itr (scan σ ns s e);
  view_ApplyUpdates : forall d σ batch h, state_view d σ -> batch_ok batch ->
    exists d', ApplyUpdates batch h d = (Ret tt, d') /\ state_view d' (apply_updates (batch_map batch) σ);
  view_LoadCommittedVersions : forall d σ load keys, state_view d σ -> LoadCommittedVersions = Some load ->
    exists d', load keys d = (Ret tt, d') /\ state_view d' σ;
  view_ClearCachedVersions : forall d σ, state_view d σ -> state_view (ClearCachedVersions d) σ;
  view_LoadSavePoint : forall d load keys, LoadCommittedVersions = Some load -> GetLatestSavePoint (snd (load keys d)) = GetLatestSavePoint d;
  view_ClearSavePoint : forall d, GetLatestSavePoint (ClearCachedVersions d) = GetLatestSavePoint d;
  (** the save point is the last height that came with updates *)
  view_SavePoint : forall d d' batch h, ApplyUpdates batch h d = (Ret tt, d') ->
    match h with
    | Some h => Height_wf h -> GetLatestSavePoint d' = Ret (Some h)
    | None => GetLatestSavePoint d' = GetLatestSavePoint d
    end;
  (** stored values are not delete markers *)
  view_live : forall d σ k vv, state_view d σ -> σ !! k = Some vv -> live vv = Some vv;
  view_wf : forall d σ k vv, state_view d σ -> σ !! k = Some vv -> Height_wf (vv_Version vv) }.

(** ** Updates of a batch *)

Lemma Batch_Get_Update (batch : UpdateBatch) (ns key ns' key' : bytes) (vv : VersionedValue) :
  Batch_Get (Batch_Update ns key vv batch) ns' key' =
    if decide ((ns', key') = (ns, key)) then Some vv else Batch_Get batch ns' key'.
Proof.
  unfold Batch_Get, Batch_Update. cbn [Updates]. destruct (decide (ns' = ns)) as [->|Hn].
  - rewrite lookup_insert_eq. destruct (decide (key' = key)) as [->|Hk].
    + by rewrite lookup_insert_eq, decide_True.
    + rewrite lookup_insert_ne, decide_False by congruence. destruct (Updates batch !! ns); cbn; [done|apply lookup_empty].
  - by rewrite lookup_insert_ne, decide_False by congruence.
Qed.

Lemma batch_map_Update (batch : UpdateBatch) (ns key : bytes) (vv : VersionedValue) :
  batch_map (Batch_Update ns key vv batch) = <[(ns, key) := vv]> (batch_map batch).
Proof.
  apply map_eq. intros [n k]. rewrite batch_map_lookup, Batch_Get_Update.
  destruct (decide _) as [->|Hne]; [by rewrite lookup_insert_eq|].
  by rewrite lookup_insert_ne, batch_map_lookup by congruence.
Qed.

Lemma Batch_Exists_Get (batch : UpdateBatch) (ns key : bytes) :
  Batch_Exists batch ns key = is_Some_b (Batch_Get batch ns key).
Proof. unfold Batch_Exists, Batch_Get. by destruct (Updates batch !! ns). Qed.

(** ** Binary search *)

Lemma Search_loop_spec (f : nat -> bool) (fuel i j : nat) :
  (j - i <= fuel)%nat -> (forall a b, (a <= b)%nat -> f a = true -> f b = true) -> (i <= j)%nat ->
  exists n, Search_loop fuel f i j = n /\ (i <= n <= j)%nat /\
    (forall k, (i <= k < n)%nat -> f k = false) /\ (forall k, (n <= k < j)%nat -> f k = true).
Proof.
  intros Hf Hm. revert i j Hf. induction fuel as [|fuel IH]; intros i j Hf Hij; cbn [Search_loop].
  - exists i. split; [done|]. split; [lia|]. split; intros; lia.
  - destruct (Nat.ltb_spec i j) as [Hlt|Hge].
    2:{ exists i. split; [done|]. split; [lia|]. split; intros; lia. }
    set (h := ((i + j) / 2)%nat). assert (Hh : (i <= h < j)%nat) by (unfold h; split; [apply Nat.div_le_lower_bound|apply Nat.Div0.div_lt_upper_bound]; lia).
    destruct (f h) eqn:Eh; cbn [negb].
    + destruct (IH i h) as (n & E & Hn & Hl & Hu); [lia|lia|]. exists n. split; [done|]. split; [lia|]. split; [done|].
      intros k Hk. destruct (decide (k < h)%nat); [apply Hu; lia|]. apply (Hm h); [lia|done].
    + destruct (IH (h + 1)%nat j) as (n & E & Hn & Hl & Hu); [lia|lia|]. exists n. split; [done|]. split; [lia|].
      split; [|done]. intros k Hk. destruct (decide (k <= h)%nat); [|apply Hl; lia].
      destruct (f k) eqn:Ek; [|done]. rewrite (Hm k h) in Eh; [done|lia|done].
Qed.

(** In a sorted list the search finds the boundary below [x]. *)
Lemma SearchStrings_spec (a : list bytes) (x : bytes) (i : nat) (k : bytes) :
  StronglySorted bytes_le a -> a !! i = Some k ->
  (SearchStrings a x <= length a)%nat /\ ((i < SearchStrings a x)%nat <-> bytes_ltb k x = true).
Proof.
  intros Hs Hi. pose proof (lookup_lt_Some _ _ _ Hi) as Hlt. unfold SearchStrings.
  set (f := fun i => (length a <=? i)%nat || bytes_leb x (nth i a [])).
  assert (Hm : forall p q, (p <= q)%nat -> f p = true -> f q = true).
  { intros p q Hpq. unfold f. destruct (Nat.leb_spec (length a) q) as [|Hq]; [done|].
    destruct (Nat.leb_spec (length a) p) as [|Hp]; [lia|]. cbn [orb]. intros Hx.
    destruct (lookup_lt_is_Some_2 a p Hp) as [kp Ep], (lookup_lt_is_Some_2 a q Hq) as [kq Eq].
    rewrite (nth_lookup_Some _ _ _ _ Ep) in Hx. rewrite (nth_lookup_Some _ _ _ _ Eq).
    destruct (decide (p = q)) as [->|Hne]; [congruence|].
    apply (transitivity (R := bytes_le) (y := kp)); [done|].
    apply (StronglySorted_app_1_elem_of bytes_le (take q a) (drop q a)); [by rewrite take_drop| |].
    - apply list_elem_of_lookup. exists p. by rewrite lookup_take_lt by lia.
    - apply list_elem_of_lookup. exists 0%nat. rewrite lookup_drop. by rewrite Nat.add_0_r. }
  assert (Hext : forall fuel i j, (j <= length a)%nat ->
    Search_loop fuel (fun i => bytes_leb x (nth i a [])) i j = Search_loop fuel f i j).
  { intros fuel. induction fuel as [|fuel IH]; intros p q Hq; [done|]. cbn [Search_loop].
    destruct (Nat.ltb_spec p q); [|done].
    assert ((p + q) / 2 < q)%nat by (apply Nat.Div0.div_lt_upper_bound; lia).
    unfold f at 1. rewrite (proj2 (Nat.leb_gt _ _)) by lia. cbn [orb]. rewrite !IH by lia. done. }
  rewrite Hext by done.
  destruct (Search_loop_spec f (length a) 0 (length a)) as (n & -> & Hn & Hl & Hu); [lia|done|lia|].
  split; [lia|]. rewrite bytes_ltb_leb. specialize (Hl i). specialize (Hu i). unfold f in Hl, Hu.
  rewrite (proj2 (Nat.leb_gt _ _)), (nth_lookup_Some _ _ _ _ Hi) in Hl, Hu by lia. cbn [orb] in *.
  destruct (decide (i < n)%nat).
  - rewrite Hl by lia. done.
  - rewrite Hu by lia. split; [lia|done].
Qed.

Lemma sorted_keys_elem {A} (m : gmap bytes A) (k : bytes) : k ∈ GetSortedKeys m <-> is_Some (m !! k).
Proof. unfold GetSortedKeys. by rewrite merge_sort_Permutation, elem_of_elements, elem_of_dom. Qed.

Lemma sorted_keys_sorted {A} (m : gmap bytes A) : StronglySorted bytes_le (GetSortedKeys m).
Proof. apply StronglySorted_merge_sort; apply _. Qed.

Lemma sorted_keys_NoDup {A} (m : gmap bytes A) : NoDup (GetSortedKeys m).
Proof. unfold GetSortedKeys. rewrite merge_sort_Permutation. apply NoDup_elements. Qed.

Lemma StronglySorted_window {A} (R : relation A) (n m : nat) (l : list A) :
  StronglySorted R l -> StronglySorted R (drop n (take m l)).
Proof.
  intros HS. rewrite <- (take_drop m l) in HS. apply StronglySorted_app_1_l in HS.
  rewrite <- (take_drop n (take m l)) in HS. by apply StronglySorted_app_1_r in HS.
Qed.

(** The window of the sorted keys between the two searches is the range. *)
Lemma window_range {A} (m : gmap bytes A) (s e : bytes) :
  let keys := GetSortedKeys m in
  let n := if bool_decide (s = []) then 0%nat else SearchStrings keys s in
  let l := if bool_decide (e = []) then length keys else SearchStrings keys e in
  drop n (take l keys) = range_keys m s (limit_of e).
Proof.
  intros keys n l. pose proof (sorted_keys_sorted m) as Hs. fold keys in Hs.
  assert (Hn : forall i k, keys !! i = Some k -> (n <= i)%nat <-> bytes_leb s k = true).
  { intros i k Hi. unfold n. case_bool_decide as Es; [subst s; rewrite bytes_leb_nil; lia|].
    pose proof (SearchStrings_spec keys s i k Hs Hi) as [_ H]. rewrite bytes_ltb_leb, negb_true_iff in H.
    rewrite <- not_false_iff_true, <- H. lia. }
  assert (Hl : forall i k, keys !! i = Some k -> (i < l)%nat <-> below k (limit_of e) = true).
  { intros i k Hi. unfold l, limit_of. case_bool_decide as Ee; cbn [below].
    - split; [done|]. intros _. by eapply lookup_lt_Some.
    - apply (SearchStrings_spec keys e i k Hs Hi). }
  assert (Hsub : sublist (drop n (take l keys)) keys).
  { transitivity (take l keys); [apply sublist_drop|apply sublist_take]. }
  apply sorted_ext.
  - by apply StronglySorted_window.
  - apply range_keys_sorted.
  - exact (sublist_NoDup _ _ (sorted_keys_NoDup m) Hsub).
  - apply range_keys_NoDup.
  - intros k. rewrite range_keys_elem, <- (sorted_keys_elem m k). fold keys. split.
    + intros Hk. apply list_elem_of_lookup in Hk as [i Hi]. rewrite lookup_drop in Hi.
      apply lookup_take_Some in Hi as [Hi Hil]. split; [by apply list_elem_of_lookup_2 in Hi|].
      split; [apply (Hn _ _ Hi); lia|apply (Hl _ _ Hi); lia].
    + intros (Hk & H1 & H2). apply list_elem_of_lookup in Hk as [i Hi]. apply list_elem_of_lookup.
      apply (Hn _ _ Hi) in H1. apply (Hl _ _ Hi) in H2. exists (i - n)%nat.
      rewrite lookup_drop, lookup_take_lt by lia. by replace (n + (i - n))%nat with i by lia.
Qed.

(** ** The iterator of a batch *)

Lemma nsIterator_yields (ns : bytes) (u : nsUpdates) (keys : list bytes) (l : nat) (fuel i : nat) :
  (forall k, k ∈ keys -> is_Some (u !! k)) -> (l <= length keys)%nat -> (l - i <= fuel)%nat ->
  yields (mknsIterator ns u keys i l)
    ((fun '(k, vv) => mkVersionedKV ns k vv) <$> omap (fun k => pair k <$> u !! k) (drop i (take l keys))).
Proof.
  intros Hk Hl. revert i. induction fuel as [|fuel IH]; intros i Hf.
  { rewrite drop_ge by (rewrite length_take; lia). apply (yields_nil _ (mknsIterator ns u keys i l)).
    unfold Next, nsIterator_Next. cbn [nsi_lastIndex nsi_nextIndex]. by rewrite (proj2 (Nat.leb_le _ _)) by lia. }
  destruct (decide (l <= i)%nat) as [Hli|Hli].
  { rewrite drop_ge by (rewrite length_take; lia). apply (yields_nil _ (mknsIterator ns u keys i l)).
    unfold Next, nsIterator_Next. cbn [nsi_lastIndex nsi_nextIndex]. by rewrite (proj2 (Nat.leb_le _ _)) by lia. }
  destruct (lookup_lt_is_Some_2 keys i) as [k Ei]; [lia|].
  destruct (Hk k) as [vv Ev]; [by eapply list_elem_of_lookup_2|].
  rewrite (drop_S (take l keys) k i) by (rewrite lookup_take_lt by lia; done).
  cbn [omap list_omap]. rewrite Ev. cbn [fmap option_fmap option_map list_fmap].
  apply (yields_cons _ (mknsIterator ns u keys (S i) l)); [|apply IH; lia].
  unfold Next, nsIterator_Next. cbn [nsi_lastIndex nsi_nextIndex nsi_ns nsi_updates nsi_sortedKeys].
  rewrite (proj2 (Nat.leb_gt _ _)) by lia. unfold go_index. rewrite Ei. cbn [mbind outcome_bind]. by rewrite Ev.
Qed.

(** The iterator of a batch gives the slice of its updates, delete markers included. *)
Lemma GetRangeScanIterator_yields (batch : UpdateBatch) (ns s e : bytes) :
  yields (GetRangeScanIterator batch ns s e) (scan (batch_map batch) ns s e).
Proof.
  unfold GetRangeScanIterator, newNsIterator. destruct (Updates batch !! ns) as [u|] eqn:Eu.
  - assert (Es : slice (batch_map batch) ns = u).
    { apply map_eq. intros k. rewrite slice_lookup, batch_map_lookup. unfold Batch_Get. by rewrite Eu. }
    unfold scan, range_scan. rewrite Es, <- window_range.
    apply nsIterator_yields with (fuel := length (GetSortedKeys u)).
    + intros k. apply sorted_keys_elem.
    + case_bool_decide; [done|]. destruct (GetSortedKeys u) as [|k keys] eqn:Ek; [done|].
      apply (SearchStrings_spec (k :: keys) e 0 k); [|done]. rewrite <- Ek. apply sorted_keys_sorted.
    + case_bool_decide; [lia|]. destruct (GetSortedKeys u) as [|k keys] eqn:Ek; [cbn; lia|].
      pose proof (SearchStrings_spec (k :: keys) e 0 k) as [? _]; [rewrite <- Ek; apply sorted_keys_sorted|done|].
      lia.
  - assert (Es : slice (batch_map batch) ns = ∅).
    { apply map_eq. intros k. rewrite slice_lookup, batch_map_lookup, lookup_empty. unfold Batch_Get. by rewrite Eu. }
    unfold scan. rewrite Es. by apply (yields_nil _ (mknsIterator [] ∅ [] 0 0)).
Qed.

(** ** stateleveldb keeps the promise *)

Lemma range_scan_fmap {A B} (f : A -> B) (m : gmap bytes A) (s : bytes) (e : option bytes) :
  range_scan (f <$> m) s e = (fun '(k, v) => (k, f v)) <$> range_scan m s e.
Proof.
  unfold range_scan. assert (Ek : range_keys (f <$> m) s e = range_keys m s e) by (unfold range_keys; by rewrite dom_fmap_L).
  rewrite Ek. clear Ek. induction (range_keys m s e) as [|k ks IH]; [done|].
  cbn [omap list_omap]. rewrite lookup_fmap.
  destruct (m !! k); cbn [fmap option_fmap option_map list_fmap]; [f_equal|]; apply IH.
Qed.

Section LevelDBOk.
Context {SP : StateProtos} {SK : StateProtosOk}.

Definition value_ok (vv : VersionedValue) : Prop := live vv = Some vv /\ Height_wf (vv_Version vv).

Lemma decodeValue_encodeValue (vv : VersionedValue) : value_ok vv -> decodeValue (encodeValue vv) = Ret vv.
Proof.
  intros [Hl Hh]. unfold decodeValue, encodeValue. rewrite proto_Unmarshal_Marshal. cbn [mbind outcome_bind DBValue_Version].
  rewrite <- (app_nil_r (Height_ToBytes _)), NewHeightFromBytes_ToBytes by done. cbn [mbind outcome_bind DBValue_Value DBValue_Metadata].
  destruct vv as [[v|] md ver]; [done|]. discriminate Hl.
Qed.

Lemma encodeDataKey_level (ns key : bytes) : encodeDataKey ns key = constructLevelKey (dataKeyPrefix ++ ns) key.
Proof. unfold encodeDataKey, constructLevelKey. by rewrite <- app_assoc. Qed.

Lemma ns_ok_name (ns : bytes) : ns_ok ns -> name_ok (dataKeyPrefix ++ ns).
Proof.
  unfold ns_ok, name_ok. change (dataKeyPrefix ++ ns) with (Byte.x64 :: ns). change dbNameKeySep with nsKeySep.
  rewrite not_elem_of_cons. intros H. split; [discriminate|done].
Qed.

Lemma encodeDataKey_inj (ns ns' key key' : bytes) :
  ns_ok ns -> ns_ok ns' -> encodeDataKey ns key = encodeDataKey ns' key' -> ns = ns' /\ key = key'.
Proof.
  intros Hn Hn' E. rewrite !encodeDataKey_level in E.
  pose proof (constructLevelKey_names _ _ _ _ (ns_ok_name _ Hn) (ns_ok_name _ Hn') E) as En.
  apply app_inv_head in En as ->. split; [done|]. by apply constructLevelKey_inj in E.
Qed.

Lemma decodeDataKey_encode (ns key : bytes) : ns_ok ns -> decodeDataKey (encodeDataKey ns key) = Ret (ns, key).
Proof.
  intros Hn. unfold decodeDataKey, encodeDataKey.
  assert (E : forall l, nsKeySep ∉ l -> split_sep (l ++ [nsKeySep] ++ key) = Some (l, key)).
  { induction l as [|x l IH]; intros Hl; [done|]. rewrite not_elem_of_cons in Hl. destruct Hl as [Hx Hl].
    cbn [app split_sep]. rewrite bool_decide_eq_false_2 by congruence. cbn [app] in IH. by rewrite IH. }
  rewrite app_assoc, E; [done|]. by apply ns_ok_name.
Qed.

Record leveldb_view (m : kvmap) (σ : state) : Prop := {
  lv_data : forall ns key, ns_ok ns -> m !! encodeDataKey ns key = encodeValue <$> σ !! (ns, key);
  lv_ok : forall k vv, σ !! k = Some vv -> ns_ok (fst k) /\ value_ok vv;
  lv_keys : forall x, is_Some (m !! x) -> x = savePointKey \/ exists ns key, ns_ok ns /\ x = encodeDataKey ns key }.

Lemma leveldb_GetState (m : kvmap) (σ : state) (ns key : bytes) :
  leveldb_view m σ -> ns_ok ns -> vdb_GetState m ns key = Ret (σ !! (ns, key)).
Proof.
  intros Hv Hn. unfold vdb_GetState. rewrite (lv_data _ _ Hv ns key Hn). destruct (σ !! (ns, key)) as [vv|] eqn:E; [|done].
  cbn [fmap option_fmap option_map]. by rewrite decodeValue_encodeValue by (eapply lv_ok; eauto).
Qed.

Lemma kvScanner_yields (ns : bytes) (l : list (bytes * VersionedValue)) (t : Z) :
  ns_ok ns -> Forall (fun kv => value_ok (snd kv)) l ->
  yields (mkkvScanner ns ((fun '(k, vv) => (encodeDataKey ns k, encodeValue vv)) <$> l) 0 t)
    ((fun '(k, vv) => mkVersionedKV ns k vv) <$> l).
Proof.
  intros Hn Hl. revert t. induction Hl as [|[k vv] l Hv Hl IH]; intros t.
  - by apply (yields_nil _ (mkkvScanner ns [] 0 t)).
  - apply (yields_cons _ (mkkvScanner ns ((fun '(k, vv) => (encodeDataKey ns k, encodeValue vv)) <$> l) 0 (t + 1))); [|apply IH].
    unfold Next, kvScanner_Next. cbn [kvs_requestedLimit kvs_dbItr fmap list_fmap]. cbn [Z.ltb andb].
    rewrite decodeDataKey_encode by done. cbn [mbind outcome_bind]. by rewrite decodeValue_encodeValue.
Qed.

Lemma leveldb_scan (m : kvmap) (σ : state) (ns s e : bytes) :
  leveldb_view m σ -> ns_ok ns ->
  exists itr, vdb_GetStateRangeScanIterator m ns s e = Ret itr /\ yields itr (scan σ ns s e).
Proof.
  intros [Hv Hok _] Hn. unfold vdb_GetStateRangeScanIterator, GetStateRangeScanIteratorWithPagination. eexists. split; [done|].
  assert (Hview : handle_view (dataKeyPrefix ++ ns) m (encodeValue <$> slice σ ns)).
  { intros k. rewrite <- encodeDataKey_level, Hv by done. by rewrite lookup_fmap, slice_lookup. }
  pose proof (view_iterator _ _ _ (Some s) (limit_of e) Hview) as E. unfold Handle_GetIterator, iterator_range in E.
  assert (Ee : (if bool_decide (e = []) then removelast (encodeDataKey ns e) ++ [lastKeyIndicator] else encodeDataKey ns e) =
    match limit_of e with Some e => constructLevelKey (dataKeyPrefix ++ ns) e | None => (dataKeyPrefix ++ ns) ++ [lastKeyIndicator] end).
  { unfold limit_of. case_bool_decide as He; [subst e|apply encodeDataKey_level].
    unfold encodeDataKey. rewrite app_nil_r, app_assoc, removelast_last. done. }
  rewrite Ee, encodeDataKey_level. cbn [default] in E. unfold id in E. rewrite E, range_scan_fmap, <- list_fmap_compose.
  erewrite list_fmap_ext; [apply kvScanner_yields; [done|]|].
  - apply Forall_forall. intros [k vv] Hin. apply range_scan_elem in Hin as [Hin _]. rewrite slice_lookup in Hin. by eapply Hok.
  - intros i [k vv] _. cbn [compose fst snd]. by rewrite encodeDataKey_level.
Qed.

(** The entries of a batch. *)
Lemma batch_entries (batch : UpdateBatch) (x : bytes * option bytes) :
  x ∈ (GetUpdatedNamespaces batch ≫= fun ns => (fun '(k, vv) => update_entry ns k vv) <$> map_to_list (GetUpdates batch ns)) <->
  exists ns k vv, Batch_Get batch ns k = Some vv /\ x = update_entry ns k vv.
Proof.
  rewrite list_elem_of_bind. unfold GetUpdatedNamespaces, GetUpdates, Batch_Get. split.
  - intros (ns & Hx & Hns). apply list_elem_of_fmap in Hns as ([ns' u] & -> & Hu). apply elem_of_map_to_list in Hu.
    cbn [fst] in *. rewrite Hu in Hx. apply list_elem_of_fmap in Hx as ([k vv] & -> & Hk). apply elem_of_map_to_list in Hk.
    exists ns', k, vv. by rewrite Hu.
  - intros (ns & k & vv & Hg & ->). destruct (Updates batch !! ns) as [u|] eqn:Eu; [|done]. exists ns. split.
    + apply list_elem_of_fmap. exists (k, vv). split; [done|]. rewrite Eu. by apply elem_of_map_to_list.
    + apply list_elem_of_fmap. exists (ns, u). split; [done|]. by apply elem_of_map_to_list.
Qed.

Lemma savePoint_not_data (ns key : bytes) : encodeDataKey ns key <> savePointKey.
Proof. unfold encodeDataKey. change dataKeyPrefix with [Byte.x64]. discriminate. Qed.

Lemma apply_batch_lookup (batch : UpdateBatch) (h : option Height) (m : kvmap) (ns key : bytes) :
  batch_ok batch -> ns_ok ns ->
  DB_WriteBatch (apply_batch_of batch h) m !! encodeDataKey ns key =
    match Batch_Get batch ns key with Some vv => snd (update_entry ns key vv) | None => m !! encodeDataKey ns key end.
Proof.
  intros Hb Hn. unfold apply_batch_of.
  assert (Hsp : forall o, (encodeDataKey ns key, o) ∉ match h with Some h => [(savePointKey, Some (Height_ToBytes h))] | None => [] end).
  { intros o. destruct h; [|apply not_elem_of_nil]. rewrite list_elem_of_singleton. intros E. by apply (f_equal fst), savePoint_not_data in E. }
  assert (Hin : forall o, (encodeDataKey ns key, o) ∈ apply_batch_of batch h ->
    exists vv, Batch_Get batch ns key = Some vv /\ o = snd (update_entry ns key vv)).
  { intros o Hin. apply elem_of_app in Hin as [Hin|Hin]; [|by apply Hsp in Hin].
    apply batch_entries in Hin as (ns' & k' & vv & Hg & E). pose proof (f_equal fst E) as Ek. pose proof (f_equal snd E) as Eo. unfold update_entry in Ek. cbn [fst] in Ek.
    apply encodeDataKey_inj in Ek as [<- <-]; [|done|by apply (Hb _ _ _ Hg)]. exists vv. done. }
  destruct (Batch_Get batch ns key) as [vv|] eqn:Eg.
  - apply write_batch_same.
    + intros o Ho. destruct (Hin o Ho) as (vv' & [= <-] & ->). done.
    + apply elem_of_app. left. apply batch_entries. by exists ns, key, vv.
  - apply write_batch_notin. intros Hk. apply list_elem_of_fmap in Hk as ([k o] & E & Hk). cbn [fst] in E. subst k.
    by destruct (Hin o Hk) as (vv & ? & _).
Qed.

Lemma leveldb_ApplyUpdates (m : kvmap) (σ : state) (batch : UpdateBatch) (h : option Height) :
  leveldb_view m σ -> batch_ok batch ->
  exists m', vdb_ApplyUpdates batch h m = (Ret tt, m') /\ leveldb_view m' (apply_updates (batch_map batch) σ).
Proof.
  intros [Hv Hok Hk] Hb. eexists. split; [done|]. constructor.
  - intros ns key Hn. rewrite apply_batch_lookup, apply_updates_lookup, batch_map_lookup by done.
    destruct (Batch_Get batch ns key) as [vv|]; [|by apply Hv].
    unfold live, IsDelete, update_entry. cbn [snd]. by destruct (vv_Value vv).
  - intros [ns key] vv. rewrite apply_updates_lookup, batch_map_lookup.
    destruct (Batch_Get batch ns key) as [vv'|] eqn:Eg; [|apply Hok]. intros El.
    assert (vv' = vv) as -> by (unfold live in El; by destruct (IsDelete vv'); simplify_eq).
    split; [by apply (Hb _ _ _ Eg)|]. split; [done|]. by apply (Hb _ _ _ Eg).
  - intros x Hx. destruct (decide (x ∈ (apply_batch_of batch h).*1)) as [Hin|Hin].
    + apply list_elem_of_fmap in Hin as (u & -> & Hin). apply elem_of_app in Hin as [Hin|Hin].
      * apply batch_entries in Hin as (ns & k & vv & Hg & ->). right. exists ns, k. split; [by apply (Hb _ _ _ Hg)|done].
      * left. destruct h; [|by apply not_elem_of_nil in Hin]. apply list_elem_of_singleton in Hin as ->. done.
    + cbn [modify_state snd] in Hx. rewrite write_batch_notin in Hx by done. by apply Hk.
Qed.

Lemma leveldb_SavePoint (m : kvmap) (batch : UpdateBatch) (h : option Height) :
  match h with
  | Some h => Height_wf h -> vdb_GetLatestSavePoint (DB_WriteBatch (apply_batch_of batch (Some h)) m) = Ret (Some h)
  | None => vdb_GetLatestSavePoint (DB_WriteBatch (apply_batch_of batch None) m) = vdb_GetLatestSavePoint m
  end.
Proof.
  unfold vdb_GetLatestSavePoint, apply_batch_of. set (b := GetUpdatedNamespaces batch ≫= _).
  assert (Hn : savePointKey ∉ b.*1).
  { intros (x & E & Hx)%list_elem_of_fmap. apply batch_entries in Hx as (ns & k & vv & _ & ->). by apply (savePoint_not_data ns k). }
  destruct h as [h|].
  - intros Hwf. unfold DB_WriteBatch. rewrite fold_left_app. cbn [fold_left apply_update fst snd]. rewrite lookup_insert_eq.
    rewrite <- (app_nil_r (Height_ToBytes h)), NewHeightFromBytes_ToBytes by done. done.
  - rewrite app_nil_r. by rewrite write_batch_notin.
Qed.

#[global] Instance stateleveldb_ok : VersionedDBOk kvmap.
Proof.
  refine {| state_view := leveldb_view |}.
  - intros d σ ns key. apply leveldb_GetState.
  - intros d σ ns key Hv Hn. change (GetVersion d ns key) with (vdb_GetVersion d ns key). unfold vdb_GetVersion.
    by rewrite (leveldb_GetState d σ).
  - intros d σ ns s e. apply leveldb_scan.
  - intros d σ batch h. apply leveldb_ApplyUpdates.
  - done.
  - done.
  - done.
  - done.
  - intros d d' batch h [= <-]. pose proof (leveldb_SavePoint d batch h) as H. by destruct h.
  - intros d σ k vv Hv E. by apply (lv_ok _ _ Hv _ _ E).
  - intros d σ k vv Hv E. by apply (lv_ok _ _ Hv _ _ E).
Defined.

(** ** Snapshots *)

Definition entry_of (kv : VersionedKV) : bytes * bytes :=
  (encodeDataKey (vkv_Namespace kv) (vkv_Key kv), encodeValue (vkv_Value kv)).

Definition item_ok (kv : VersionedKV) : Prop := ns_ok (vkv_Namespace kv) /\ value_ok (vkv_Value kv).

(** Between a key of a name space and the start of the next one there are only
    keys of the name space. *)
Lemma next_namespace (ns ns' k k' : bytes) :
  ns_ok ns -> ns_ok ns' -> bytes_leb (encodeDataKey ns k) (encodeDataKey ns' k') = true ->
  bytes_ltb (encodeDataKey ns' k') (dataKeyStarterForNextNamespace ns) = true -> ns' = ns.
Proof.
  intros Hn Hn' H1 H2. rewrite !encodeDataKey_level in *. unfold dataKeyStarterForNextNamespace in H2. rewrite app_assoc in H2.
  pose proof (iterator_range_view (dataKeyPrefix ++ ns) (Some k) None (constructLevelKey (dataKeyPrefix ++ ns') k')) as R.
  cbn in R. destruct (R H1 H2) as (y & E & _).
  pose proof (constructLevelKey_names _ _ _ _ (ns_ok_name _ Hn') (ns_ok_name _ Hn) E) as En. by apply app_inv_head in En.
Qed.

Lemma seek_skips (ns k : bytes) (skip : bytes -> bool) (l : list VersionedKV) :
  ns_ok ns -> skip ns = true -> Forall item_ok l ->
  Forall (fun kv => bytes_leb (encodeDataKey ns k) (encodeDataKey (vkv_Namespace kv) (vkv_Key kv)) = true) l ->
  exists l', seek (dataKeyStarterForNextNamespace ns) (entry_of <$> l) = entry_of <$> l' /\ l' `suffix_of` l /\
    filter (fun kv => skip (vkv_Namespace kv) = false) l' = filter (fun kv => skip (vkv_Namespace kv) = false) l.
Proof.
  intros Hn Hs Hok Hle. induction l as [|kv l IH]; [by exists []|]. apply Forall_cons in Hok as [Hkv Hok], Hle as [Hlt Hle].
  cbn [fmap list_fmap seek]. destruct (bytes_ltb (fst (entry_of kv)) (dataKeyStarterForNextNamespace ns)) eqn:E.
  - destruct (IH Hok Hle) as (l' & E1 & E2 & E3). exists l'. cbn [entry_of fst] in *. unfold entry_of at 1. rewrite E.
    split; [done|]. split; [by apply suffix_cons_r|]. rewrite E3, filter_cons_False; [done|].
    rewrite (next_namespace ns (vkv_Namespace kv) k (vkv_Key kv) Hn (proj1 Hkv) Hlt E). congruence.
  - exists (kv :: l). unfold entry_of at 1. cbn [entry_of fst] in E. by rewrite E.
Qed.

Definition dkey (kv : VersionedKV) : bytes := encodeDataKey (vkv_Namespace kv) (vkv_Key kv).
Definition dkey_le (a b : VersionedKV) : Prop := bytes_le (dkey a) (dkey b).

(** The items that are not skipped. *)
Definition kept (skip : bytes -> bool) (l : list VersionedKV) : list VersionedKV :=
  filter (fun kv => skip (vkv_Namespace kv) = false) l.

Lemma fullDBScanner_loop_spec (skip : bytes -> bool) (fuel : nat) (l : list VersionedKV) :
  (length l <= fuel)%nat -> Forall item_ok l -> StronglySorted dkey_le l ->
  match kept skip l with
  | [] => exists rest, fullDBScanner_loop fuel skip (entry_of <$> l) = (Ret None, rest)
  | kv :: _ => exists rest, fullDBScanner_loop fuel skip (entry_of <$> l) = (Ret (Some kv), entry_of <$> rest) /\
      kept skip l = kv :: kept skip rest /\ (length rest < length l)%nat /\ rest `suffix_of` l
  end.
Proof.
  revert l. induction fuel as [|fuel IH]; intros [|kv l] Hf Hok Hs; cbn [length] in Hf; try lia; try (by eexists).
  pose proof Hok as Hok'. apply Forall_cons in Hok' as [[Hn Hv] Hok']. pose proof Hs as Hs'. apply StronglySorted_inv in Hs' as [Hs' Hle].
  assert (E0 : entry_of <$> (kv :: l) = (dkey kv, encodeValue (vkv_Value kv)) :: (entry_of <$> l)) by done.
  rewrite E0. clear E0. cbn [fullDBScanner_loop]. unfold dkey at 1 2.
  rewrite decodeDataKey_encode, decodeValue_encodeValue by done.
  destruct (skip (vkv_Namespace kv)) eqn:Ek; cbn [negb].
  - destruct (seek_skips (vkv_Namespace kv) (vkv_Key kv) skip l Hn Ek Hok' Hle) as (l' & El & [p Hp] & Efl).
    assert (Ekl : kept skip (kv :: l) = kept skip l').
    { unfold kept. rewrite filter_cons_False by congruence. by rewrite <- Efl. }
    rewrite Ekl, El. specialize (IH l'). subst l.
    rewrite length_app in *. rewrite Forall_app in Hok'. apply StronglySorted_app_1_r in Hs'.
    specialize (IH ltac:(lia) (proj2 Hok') Hs'). destruct (kept skip l') as [|kv' k'] eqn:Ek'; [done|].
    destruct IH as (rest & E1 & E2 & E3 & E4). exists rest. split; [done|]. split; [done|]. split; [cbn; rewrite length_app; lia|].
    apply suffix_cons_r. by apply suffix_app_r.
  - unfold kept. rewrite filter_cons_True by done. exists l. destruct kv. split; [done|]. split; [done|].
    split; [cbn; lia|]. by apply suffix_cons_r.
Qed.

Lemma fullDBScanner_yields (skip : bytes -> bool) (n : nat) (l : list VersionedKV) :
  (length l <= n)%nat -> Forall item_ok l -> StronglySorted dkey_le l ->
  yields (mkfullDBScanner (entry_of <$> l) skip) (kept skip l).
Proof.
  revert l. induction n as [|n IH]; intros l Hl Hok Hs;
    pose proof (fullDBScanner_loop_spec skip (length (entry_of <$> l)) l ltac:(rewrite length_fmap; lia) Hok Hs) as H;
    destruct (kept skip l) as [|kv k] eqn:Ek.
  - destruct H as [rest E]. eapply yields_nil. unfold Next, fullDBScanner_Next. cbn [fds_dbItr fds_toSkip]. by rewrite E.
  - destruct H as (rest & _ & _ & H & _). lia.
  - destruct H as [rest E]. eapply yields_nil. unfold Next, fullDBScanner_Next. cbn [fds_dbItr fds_toSkip]. by rewrite E.
  - destruct H as (rest & E1 & E2 & H & [p ->]). injection E2 as ->. eapply yields_cons.
    + unfold Next, fullDBScanner_Next. cbn [fds_dbItr fds_toSkip]. by rewrite E1.
    + apply IH; [lia|by apply Forall_app in Hok as [_ ?]|by apply StronglySorted_app_1_r in Hs].
Qed.

(** Importing in batches writes what one batch would. *)
Lemma importState_loop_eq {I} `{!ResultsIterator I} (itr : I) (items : list VersionedKV) (fuel : nat) (b : LevelDB.batch) (size : Z) (sp : Height) (db : kvmap) :
  yields itr items -> (length items < fuel)%nat ->
  importState_loop fuel itr b size sp db =
    (Ret tt, DB_WriteBatch (b ++ ((fun kv => (dkey kv, Some (encodeValue (vkv_Value kv)))) <$> items) ++
                   [(savePointKey, Some (Height_ToBytes sp))]) db).
Proof.
  assert (Happ : forall x y d, DB_WriteBatch (x ++ y) d = DB_WriteBatch y (DB_WriteBatch x d))
    by (intros; unfold DB_WriteBatch; apply fold_left_app).
  intros Hy. revert fuel b size db. induction Hy as [itr itr' En|itr itr' kv l En Hy IH]; intros fuel b size db Hf;
    (destruct fuel as [|fuel]; [lia|]); cbn [importState_loop]; rewrite En; [done|]. cbn [length] in Hf.
  destruct (_ <=? _); rewrite IH by lia.
  - cbn [app]. rewrite <- Happ, <- !app_assoc. done.
  - by rewrite <- !app_assoc.
Qed.

Lemma data_range (ns key : bytes) :
  bytes_leb dataKeyPrefix (encodeDataKey ns key) = true /\ below (encodeDataKey ns key) (Some dataKeyStopper) = true.
Proof.
  unfold encodeDataKey. split; [|reflexivity]. rewrite <- (app_nil_r dataKeyPrefix) at 1. rewrite bytes_leb_app. apply bytes_leb_nil.
Qed.

(** The data entries of a database are its items, in order. *)
Lemma data_items (m : kvmap) (σ : state) :
  leveldb_view m σ ->
  exists l, range_scan m dataKeyPrefix (Some dataKeyStopper) = entry_of <$> l /\ Forall item_ok l /\ StronglySorted dkey_le l /\
    forall kv, kv ∈ l <-> σ !! (vkv_Namespace kv, vkv_Key kv) = Some (vkv_Value kv).
Proof.
  intros [Hv Hok Hk].
  assert (Hin : forall x v, (x, v) ∈ range_scan m dataKeyPrefix (Some dataKeyStopper) ->
    exists kv, entry_of kv = (x, v) /\ item_ok kv /\ σ !! (vkv_Namespace kv, vkv_Key kv) = Some (vkv_Value kv)).
  { intros x v Hx. apply range_scan_elem in Hx as (Hx & H1 & H2). destruct (Hk x ltac:(eauto)) as [->|(ns & key & Hn & ->)]; [done|].
    rewrite (Hv ns key Hn) in Hx. destruct (σ !! (ns, key)) as [vv|] eqn:E; [|done]. injection Hx as <-.
    exists (mkVersionedKV ns key vv). split; [done|]. split; [|done]. split; [done|]. by apply (Hok _ _ E). }
  assert (Hl : exists l, range_scan m dataKeyPrefix (Some dataKeyStopper) = entry_of <$> l /\
    Forall (fun kv => item_ok kv /\ σ !! (vkv_Namespace kv, vkv_Key kv) = Some (vkv_Value kv)) l).
  { induction (range_scan m dataKeyPrefix (Some dataKeyStopper)) as [|[x v] r IH]; [by exists []|].
    destruct IH as (l & -> & Hl); [intros; apply Hin; by right|]. destruct (Hin x v) as (kv & E & H1 & H2); [by left|].
    exists (kv :: l). split; [cbn; by rewrite E|]. by constructor. }
  destruct Hl as (l & El & Hl). exists l. split; [done|].
  split; [eapply Forall_impl; [exact Hl|]; by intros kv []|]. split.
  - pose proof (range_keys_sorted m dataKeyPrefix (Some dataKeyStopper)) as Hs.
    assert (Ek : range_keys m dataKeyPrefix (Some dataKeyStopper) = dkey <$> l).
    { rewrite <- (range_scan_keys m), El, <- list_fmap_compose. by apply list_fmap_ext. }
    rewrite Ek in Hs. clear -Hs. induction l as [|kv l IH]; [constructor|]. cbn in Hs. apply StronglySorted_inv in Hs as [Hs Hf].
    constructor; [by apply IH|]. by rewrite Forall_fmap in Hf.
  - intros kv. split.
    + intros Hkv. rewrite Forall_forall in Hl. by apply Hl.
    + intros Hkv. destruct (Hok _ _ Hkv) as [Hn Hv']. cbn [fst] in Hn.
      assert (Hi : entry_of kv ∈ range_scan m dataKeyPrefix (Some dataKeyStopper)).
      { unfold entry_of. apply range_scan_elem. rewrite (Hv _ _ Hn), Hkv. split; [done|apply data_range]. }
      rewrite El in Hi. apply list_elem_of_fmap in Hi as (kv' & E & Hi). rewrite Forall_forall in Hl.
      destruct (Hl _ Hi) as [[Hn' _] Hkv']. pose proof (f_equal fst E) as Ek. unfold entry_of in Ek. cbn [fst] in Ek.
      apply encodeDataKey_inj in Ek as [E1 E2]; [|done|done]. rewrite E1, E2 in Hkv.
      destruct kv, kv'. simpl in *. congruence.
Qed.

(** C38: a full scan that skips some name spaces, imported into an empty database,
    restores the state without those name spaces and has the given save point; the
    import ends, and any fuel over the number of items is enough for it. *)
Theorem snapshot_roundtrip (m : kvmap) (σ : state) (skip : bytes -> bool) (sp : Height) :
  leveldb_view m σ -> Height_wf sp ->
  exists items db, yields (newFullDBScanner m skip) items /\
    (forall fuel, (length items < fuel)%nat -> importState fuel (Some (newFullDBScanner m skip)) sp ∅ = (Ret tt, db)) /\
    leveldb_view db (filter (fun x => skip (fst (fst x)) = false) σ) /\ vdb_GetLatestSavePoint db = Ret (Some sp).
Proof.
  intros Hv Hsp. destruct (data_items m σ Hv) as (l & El & Hok & Hs & Hl). 
  assert (Hy : yields (newFullDBScanner m skip) (kept skip l)) by (unfold newFullDBScanner; rewrite El; by eapply fullDBScanner_yields).
  eexists (kept skip l), _. split; [exact Hy|].
  split; [intros fuel Hf; cbn [importState]; by apply importState_loop_eq|].
  assert (Hk : forall kv, kv ∈ kept skip l <->
    filter (fun x => skip (fst (fst x)) = false) σ !! (vkv_Namespace kv, vkv_Key kv) = Some (vkv_Value kv)).
  { intros kv. unfold kept. rewrite list_elem_of_filter, map_lookup_filter_Some, Hl. naive_solver. }
  rewrite Forall_forall in Hok. cbn [app]. set (b := _ ++ _).
  assert (Hb : forall x o, (x, o) ∈ b -> (x = savePointKey /\ o = Some (Height_ToBytes sp)) \/
    exists kv, kv ∈ kept skip l /\ item_ok kv /\ x = dkey kv /\ o = Some (encodeValue (vkv_Value kv))).
  { intros x o Hin. apply elem_of_app in Hin as [Hin|Hin].
    - apply list_elem_of_fmap in Hin as (kv & [= -> ->] & Hin). right. exists kv. split; [done|].
      split; [|done]. apply Hok. by apply list_elem_of_filter in Hin as [_ ?].
    - apply list_elem_of_singleton in Hin as [= -> ->]. by left. }
  assert (Hd : forall kv, item_ok kv -> dkey kv <> savePointKey) by (intros kv _; apply savePoint_not_data).
  assert (Hlook : forall kv, kv ∈ kept skip l -> DB_WriteBatch b ∅ !! dkey kv = Some (encodeValue (vkv_Value kv))).
  { intros kv Hin. assert (Hi : item_ok kv) by (apply Hok; by apply list_elem_of_filter in Hin as [_ ?]).
    apply write_batch_same; [|apply elem_of_app; left; apply list_elem_of_fmap; by exists kv].
    intros o Ho. destruct (Hb _ _ Ho) as [[E _]|(kv' & Hin' & [Hn' _] & E & ->)]; [by apply Hd in E|].
    apply encodeDataKey_inj in E as [E1 E2]; [|apply Hi|done]. apply Hk in Hin, Hin'. rewrite E1, E2 in Hin. congruence. }
  split; [constructor|].
  - intros ns key Hn. destruct (filter _ σ !! (ns, key)) as [vv|] eqn:E.
    + exact (Hlook (mkVersionedKV ns key vv) (proj2 (Hk (mkVersionedKV ns key vv)) E)).
    + rewrite write_batch_notin; [apply lookup_empty|]. intros Hin. apply list_elem_of_fmap in Hin as ([x o] & Ex & Hin).
      cbn [fst] in Ex. subst x. destruct (Hb _ _ Hin) as [[Ex _]|(kv & Hkv & [Hn' _] & Ex & _)]; [by apply savePoint_not_data in Ex|].
      apply encodeDataKey_inj in Ex as [-> ->]; [|done|done]. apply Hk in Hkv. congruence.
  - intros k vv E. apply map_lookup_filter_Some in E as [E _]. by apply (lv_ok _ _ Hv).
  - intros x Hx. destruct (decide (x ∈ b.*1)) as [Hin|Hin]; [|rewrite write_batch_notin, lookup_empty in Hx by done; by destruct Hx].
    apply list_elem_of_fmap in Hin as ([y o] & -> & Hin). destruct (Hb _ _ Hin) as [[E _]|(kv & _ & [Hn' _] & E & _)].
    + by left.
    + right. exists (vkv_Namespace kv), (vkv_Key kv). done.
  - unfold vdb_GetLatestSavePoint. rewrite (write_batch_same b ∅ savePointKey (Some (Height_ToBytes sp))).
    + rewrite <- (app_nil_r (Height_ToBytes _)), NewHeightFromBytes_ToBytes by done. done.
    + intros o Ho. destruct (Hb _ _ Ho) as [[_ E]|(kv & _ & Hi & E & _)]; [done|]. symmetry in E. by apply Hd in E.
    + apply elem_of_app. right. by left.
Qed.

End LevelDBOk.
