(* ===== verification/PrivState.v ===== *)
(** * Public, hashed and private state

    src/core/ledger/kvledger/txmgmt/privacyenabledstate: one state database holds
    the public keys and, in derived name spaces, the private keys and the hashes
    of the private keys (types.go, db.go), with a hint that saves metadata lookups
    for name spaces that never used metadata (optimization.go). *)

From S2P Require Import Prelude OrderedCode LevelDB Sha256 GoOS Proto StateProto StateDB.

(** ** encoding/base64, standard alphabet *)

Definition base64_alphabet : bytes := str "ABCDEFGHIJKLMNOPQRSTUVWXYZabcdefghijklmnopqrstuvwxyz0123456789+/".

Definition base64_char (n : Z) : byte := nth (Z.to_nat n) base64_alphabet Byte.x00.

Fixpoint base64_EncodeToString (src : bytes) : bytes :=
  match src with
  | a :: b :: c :: rest =>
      let val := Z.lor (Z.lor (Z.shiftl (b2z a) 16) (Z.shiftl (b2z b) 8)) (b2z c) in
      base64_char (Z.land (Z.shiftr val 18) 63) :: base64_char (Z.land (Z.shiftr val 12) 63) ::
      base64_char (Z.land (Z.shiftr val 6) 63) :: base64_char (Z.land val 63) :: base64_EncodeToString rest
  | [a; b] =>
      let val := Z.lor (Z.shiftl (b2z a) 16) (Z.shiftl (b2z b) 8) in
      [base64_char (Z.land (Z.shiftr val 18) 63); base64_char (Z.land (Z.shiftr val 12) 63);
       base64_char (Z.land (Z.shiftr val 6) 63); Byte.x3d]
  | [a] =>
      let val := Z.shiftl (b2z a) 16 in
      [base64_char (Z.land (Z.shiftr val 18) 63); base64_char (Z.land (Z.shiftr val 12) 63); Byte.x3d; Byte.x3d]
  | [] => []
  end.

(** ** Update batches by collection (types.go) *)

(** A batch per name space, whose own name spaces are the collections. *)
Abbreviation UpdateMap := (gmap bytes UpdateBatch).

Definition getOrCreateNsBatch (b : UpdateMap) (ns : bytes) : UpdateBatch := default NewUpdateBatch (b !! ns).

Definition UpdateMap_PutValAndMetadata (ns coll key : bytes) (value : option bytes) (metadata : bytes) (version : Height)
    (b : UpdateMap) : outcome UpdateMap :=
  batch ← Batch_PutValAndMetadata coll key value metadata version (getOrCreateNsBatch b ns);
  Ret (<[ns := batch]> b).

Definition UpdateMap_Put (ns coll key : bytes) (value : option bytes) (version : Height) (b : UpdateMap) : outcome UpdateMap :=
  UpdateMap_PutValAndMetadata ns coll key value [] version b.

Definition UpdateMap_Delete (ns coll key : bytes) (version : Height) (b : UpdateMap) : UpdateMap :=
  <[ns := Batch_Delete coll key version (getOrCreateNsBatch b ns)]> b.

Definition UpdateMap_Get (b : UpdateMap) (ns coll key : bytes) : option VersionedValue :=
  match b !! ns with
  | Some nsPvtBatch => Batch_Get nsPvtBatch coll key
  | None => None
  end.

Definition UpdateMap_Contains (b : UpdateMap) (ns coll key : bytes) : bool :=
  match b !! ns with
  | Some nsBatch => Batch_Exists nsBatch coll key
  | None => false
  end.

(** The updates to public, hashed and private data of a block. *)
Record PrivUpdateBatch := mkPrivUpdateBatch {
  PubUpdates : UpdateBatch;
  HashUpdates : UpdateMap;
  PvtUpdates : UpdateMap }.

Definition NewPrivUpdateBatch : PrivUpdateBatch := mkPrivUpdateBatch NewUpdateBatch ∅ ∅.

(** All updates of an update map, as (name space, collection, key). *)
Definition update_list (b : UpdateMap) : list (bytes * bytes * bytes * VersionedValue) :=
  map_to_list b ≫= fun '(ns, nsBatch) =>
  GetUpdatedNamespaces nsBatch ≫= fun coll =>
  (fun '(key, vv) => (ns, coll, key, vv)) <$> map_to_list (GetUpdates nsBatch coll).

Definition ToCompositeKeyMap (b : UpdateMap) : gmap (bytes * bytes * bytes) VersionedValue :=
  fold_left (fun m '(k, vv) => <[k := vv]> m) (update_list b) ∅.

(** ** Derived name spaces (db.go) *)

Definition nsJoiner : bytes := str "$$".
Definition pvtDataPrefix : bytes := str "p".
Definition hashDataPrefix : bytes := str "h".

Definition derivePvtDataNs (namespace collection : bytes) : bytes := namespace ++ nsJoiner ++ pvtDataPrefix ++ collection.

Definition deriveHashedDataNs (namespace collection : bytes) : bytes := namespace ++ nsJoiner ++ hashDataPrefix ++ collection.

Definition decodeHashedDataNsColl (hashedDataNs : bytes) : outcome (bytes * bytes) :=
  match Split hashedDataNs (nsJoiner ++ hashDataPrefix) with
  | [ns; coll] => Ret (ns, coll)
  | _ => Err (Errorf "not a valid hashedDataNs [%s]")
  end.

Definition isPvtdataNs (namespace : bytes) : bool := is_Some_b (cut (nsJoiner ++ pvtDataPrefix) namespace).
Definition isHashedDataNs (namespace : bytes) : bool := is_Some_b (cut (nsJoiner ++ hashDataPrefix) namespace).

Definition addPvtUpdates (pvtUpdateBatch : UpdateMap) (pubUpdateBatch : UpdateBatch) : UpdateBatch :=
  fold_left (fun batch '(ns, coll, key, vv) => Batch_Update (derivePvtDataNs ns coll) key vv batch)
    (update_list pvtUpdateBatch) pubUpdateBatch.

Definition addHashedUpdates (hashedUpdateBatch : UpdateMap) (base64Key : bool) (pubUpdateBatch : UpdateBatch) : UpdateBatch :=
  fold_left (fun batch '(ns, coll, key, vv) =>
      let key := if base64Key then base64_EncodeToString key else key in
      Batch_Update (deriveHashedDataNs ns coll) key vv batch)
    (update_list hashedUpdateBatch) pubUpdateBatch.

(** ** The metadata hint (optimization.go) *)

Record metadataHint := mkmetadataHint {
  mh_cache : gset bytes;
  mh_bookkeeper : kvmap }.

Definition newMetadataHint (bookkeeper : kvmap) : metadataHint :=
  mkmetadataHint (list_to_set (range_scan bookkeeper [] None).*1) bookkeeper.

Definition metadataEverUsedFor (h : metadataHint) (namespace : bytes) : bool := bool_decide (namespace ∈ mh_cache h).

(** Nil metadata is the empty string. *)
Definition filterNamespacesThatHasMetadata (updates : PrivUpdateBatch) : list bytes :=
  (GetUpdatedNamespaces (PubUpdates updates) ≫= fun ns =>
     map_to_list (GetUpdates (PubUpdates updates) ns) ≫= fun '(_, vv) =>
     if bool_decide (vv_Metadata vv = []) then [] else [ns]) ++
  (update_list (HashUpdates updates) ≫= fun '(ns, _, _, vv) =>
     if bool_decide (vv_Metadata vv = []) then [] else [ns]).

(** A name space that is not yet in the cache is added, and recorded. *)
Definition set_flag (acc : gset bytes * batch) (ns : bytes) : gset bytes * batch :=
  let '(cache, batch) := acc in
  if bool_decide (ns ∈ cache) then (cache, batch) else ({[ns]} ∪ cache, batch ++ [(ns, Some [])]).

Definition setMetadataUsedFlag (updates : PrivUpdateBatch) (h : metadataHint) : metadataHint :=
  let '(cache, batch) := fold_left set_flag (filterNamespacesThatHasMetadata updates) (mh_cache h, []) in
  mkmetadataHint cache (DB_WriteBatch batch (mh_bookkeeper h)).

(** ** The database (db.go) *)

Section PrivDB.
Context {D : Type} {VD : VersionedDB D}.

Record DB := mkDB {
  db_vdb : D;
  db_hint : metadataHint }.

(** A key hash as a key: in base64 where the database wants valid strings. *)
Definition hash_key (keyHash : bytes) : bytes :=
  if BytesKeySupported then keyHash else base64_EncodeToString keyHash.

Definition GetPrivateData (s : DB) (namespace collection key : bytes) : outcome (option VersionedValue) :=
  GetState (db_vdb s) (derivePvtDataNs namespace collection) key.

Definition GetValueHash (s : DB) (namespace collection keyHash : bytes) : outcome (option VersionedValue) :=
  GetState (db_vdb s) (deriveHashedDataNs namespace collection) (hash_key keyHash).

Definition GetPrivateDataHash (s : DB) (namespace collection key : bytes) : outcome (option VersionedValue) :=
  GetValueHash s namespace collection (Sum256 key).

Definition GetKeyHashVersion (s : DB) (namespace collection keyHash : bytes) : outcome (option Height) :=
  GetVersion (db_vdb s) (deriveHashedDataNs namespace collection) (hash_key keyHash).

Definition metadata_of (vv : option VersionedValue) : bytes :=
  match vv with Some vv => vv_Metadata vv | None => [] end.

Definition GetStateMetadata (s : DB) (namespace key : bytes) : outcome bytes :=
  if negb (metadataEverUsedFor (db_hint s) namespace) then Ret [] else
  vv ← GetState (db_vdb s) namespace key;
  Ret (metadata_of vv).

Definition GetPrivateDataMetadataByHash (s : DB) (namespace collection keyHash : bytes) : outcome bytes :=
  if negb (metadataEverUsedFor (db_hint s) namespace) then Ret [] else
  vv ← GetValueHash s namespace collection keyHash;
  Ret (metadata_of vv).

(** The hashed keys are loaded together with the public ones. *)
Definition LoadCommittedVersionsOfPubAndHashedKeys (pubKeys : list (bytes * bytes)) (hashedKeys : list (bytes * bytes * bytes)) :
    M DB unit := fun s =>
  match LoadCommittedVersions with
  | None => (Ret tt, s)
  | Some load =>
      let keys := pubKeys ++ ((fun '(ns, coll, keyHash) => (deriveHashedDataNs ns coll, hash_key keyHash)) <$> hashedKeys) in
      let '(r, d) := load keys (db_vdb s) in (r, mkDB d (db_hint s))
  end.

(** The private and hashed updates are added to the public batch itself, so the
    hint sees the derived name spaces as well. *)
Definition ApplyPrivacyAwareUpdates (updates : PrivUpdateBatch) (height : option Height) : M DB unit := fun s =>
  let combinedUpdates :=
    addHashedUpdates (HashUpdates updates) (negb BytesKeySupported) (addPvtUpdates (PvtUpdates updates) (PubUpdates updates)) in
  let updates := mkPrivUpdateBatch combinedUpdates (HashUpdates updates) (PvtUpdates updates) in
  let hint := setMetadataUsedFlag updates (db_hint s) in
  let '(r, d) := ApplyUpdates combinedUpdates height (db_vdb s) in
  (r, mkDB d hint).

End PrivDB.

Arguments DB D : clear implicits.
