(* ===== verification/PrivStateOk.v ===== *)
(** * Public, hashed and private data do not interfere

    The three kinds of keys live in one database, at locations that differ as long
    as name spaces contain no dollar sign.  Applying a batch acts on each kind on
    its own, and the metadata hint never hides metadata that is stored. *)

From S2P Require Import Prelude Varint OrderedCode LevelDB Sha256 GoOS Proto StateProto StateDB StateDBOk PrivState.

(** ** base64 is injective *)

Lemma base64_char_inj (a b : Z) : 0 <= a < 64 -> 0 <= b < 64 -> base64_char a = base64_char b -> a = b.
Proof.
  intros Ha Hb E.
  assert (H : forallb (fun i => forallb (fun j => implb (bool_decide (base64_char (Z.of_nat i) = base64_char (Z.of_nat j))) (i =? j)%nat)
    (seq 0 64)) (seq 0 64) = true) by (vm_compute; reflexivity).
  rewrite forallb_forall in H. specialize (H (Z.to_nat a)). rewrite forallb_forall in H.
  specialize (H ltac:(apply in_seq; lia) (Z.to_nat b) ltac:(apply in_seq; lia)).
  rewrite !Z2Nat.id, bool_decide_eq_true_2 in H by (lia || done). cbn [implb] in H. apply Nat.eqb_eq in H. lia.
Qed.

Lemma base64_char_pad (a : Z) : 0 <= a < 64 -> base64_char a <> Byte.x3d.
Proof.
  intros Ha E. assert (H : forallb (fun i => negb (bool_decide (base64_char (Z.of_nat i) = Byte.x3d))) (seq 0 64) = true)
    by (vm_compute; reflexivity).
  rewrite forallb_forall in H. specialize (H (Z.to_nat a) ltac:(apply in_seq; lia)). rewrite Z2Nat.id in H by lia.
  by rewrite bool_decide_eq_true_2 in H.
Qed.

(** The 24 bits of a group and its four digits. *)
Lemma group_value (a b c : byte) :
  Z.lor (Z.lor (Z.shiftl (b2z a) 16) (Z.shiftl (b2z b) 8)) (b2z c) = b2z a * 65536 + b2z b * 256 + b2z c.
Proof.
  pose proof (b2z_range a). pose proof (b2z_range b). pose proof (b2z_range c).
  rewrite Z.lor_comm, Z.lor_assoc, (Z.lor_comm _ (Z.shiftl (b2z b) 8)), Z.lor_assoc, (Z.lor_comm _ (b2z c)).
  rewrite (lor_add_shiftl (b2z c)) by lia. rewrite Z.shiftl_mul_pow2 by lia. rewrite lor_add_shiftl by lia.
  rewrite Z.shiftl_mul_pow2 by lia. lia.
Qed.

Definition digit (v n : Z) : Z := Z.land (Z.shiftr v n) 63.

Lemma digit_mod (v n : Z) : 0 <= n -> digit v n = (v / 2 ^ n) mod 64.
Proof. intros Hn. unfold digit. change 63 with (Z.ones 6). by rewrite Z.land_ones, Z.shiftr_div_pow2 by lia. Qed.

Lemma digit_0 (v : Z) : Z.land v 63 = digit v 0.
Proof. unfold digit. by rewrite Z.shiftr_0_r. Qed.

Lemma digit_range (v n : Z) : 0 <= n -> 0 <= digit v n < 64.
Proof. intros Hn. rewrite digit_mod by done. apply Z.mod_pos_bound. lia. Qed.

Lemma digits_value (v : Z) : 0 <= v < 2 ^ 24 -> v = digit v 18 * 262144 + digit v 12 * 4096 + digit v 6 * 64 + v mod 64.
Proof.
  intros Hv. rewrite !digit_mod by lia.
  change (2 ^ 18) with 262144. change (2 ^ 12) with 4096. change (2 ^ 6) with 64. Z.to_euclidean_division_equations. lia.
Qed.

Lemma digit_char_inj (v w n : Z) : 0 <= n -> base64_char (digit v n) = base64_char (digit w n) -> digit v n = digit w n.
Proof. intros Hn. apply base64_char_inj; by apply digit_range. Qed.

(** The bytes of a group are those of its value. *)
Lemma group_inj (a b c a' b' c' : byte) :
  b2z a * 65536 + b2z b * 256 + b2z c = b2z a' * 65536 + b2z b' * 256 + b2z c' -> a = a' /\ b = b' /\ c = c'.
Proof.
  intros E. pose proof (b2z_range a). pose proof (b2z_range b). pose proof (b2z_range c).
  pose proof (b2z_range a'). pose proof (b2z_range b'). pose proof (b2z_range c').
  repeat split; apply b2z_inj; lia.
Qed.

Lemma group_range (a b c : byte) : 0 <= b2z a * 65536 + b2z b * 256 + b2z c < 2 ^ 24.
Proof. pose proof (b2z_range a). pose proof (b2z_range b). pose proof (b2z_range c). lia. Qed.

(** Groups with the same digits above the lowest one. *)
Lemma group_digits (a b c a' b' c' : byte) :
  let v := b2z a * 65536 + b2z b * 256 + b2z c in let w := b2z a' * 65536 + b2z b' * 256 + b2z c' in
  base64_char (digit v 18) = base64_char (digit w 18) -> base64_char (digit v 12) = base64_char (digit w 12) ->
  base64_char (digit v 6) = base64_char (digit w 6) -> v mod 64 = w mod 64 -> a = a' /\ b = b' /\ c = c'.
Proof.
  intros v w E1%digit_char_inj E2%digit_char_inj E3%digit_char_inj E4; [|lia..]. apply group_inj. fold v w.
  rewrite (digits_value v), (digits_value w) by apply group_range. congruence.
Qed.

Lemma group2_value (a b : byte) : Z.lor (Z.shiftl (b2z a) 16) (Z.shiftl (b2z b) 8) = b2z a * 65536 + b2z b * 256 + b2z Byte.x00.
Proof. rewrite <- group_value. change (b2z Byte.x00) with 0. by rewrite Z.lor_0_r. Qed.

Lemma group1_value (a : byte) : Z.shiftl (b2z a) 16 = b2z a * 65536 + b2z Byte.x00 * 256 + b2z Byte.x00.
Proof. rewrite Z.shiftl_mul_pow2 by lia. change (b2z Byte.x00) with 0. lia. Qed.

Lemma group1_low (a : byte) : digit (b2z a * 65536 + b2z Byte.x00 * 256 + b2z Byte.x00) 6 = 0.
Proof.
  rewrite digit_mod by lia. change (b2z Byte.x00) with 0. change (2 ^ 6) with 64.
  replace (b2z a * 65536 + 0 * 256 + 0) with (b2z a * 16 * 64 * 64) by lia. by rewrite Z.div_mul, Z.mod_mul by lia.
Qed.

Lemma base64_inj (x y : bytes) : base64_EncodeToString x = base64_EncodeToString y -> x = y.
Proof.
  assert (Hp : forall v n, 0 <= n -> base64_char (digit v n) <> Byte.x3d) by (intros; by apply base64_char_pad, digit_range).
  revert y. induction x as [x IH] using (induction_ltof1 _ (@length byte)). intros y. unfold ltof in IH.
  destruct x as [|a [|b [|c x]]], y as [|a' [|b' [|c' y]]]; cbn [base64_EncodeToString]; try done;
    rewrite ?group_value, ?group2_value, ?group1_value, ?digit_0;
    repeat change (Z.land (Z.shiftr ?v ?k) 63) with (digit v k).
  - intros [= E1 E2]. destruct (group_digits a Byte.x00 Byte.x00 a' Byte.x00 Byte.x00) as (-> & _); [done|done| | |done].
    + by rewrite !group1_low.
    + change (b2z Byte.x00) with 0. Z.to_euclidean_division_equations. lia.
  - intros [= _ _ E]. symmetry in E. by apply Hp in E.
  - intros [= _ _ E]. symmetry in E. by apply Hp in E.
  - intros [= _ _ E]. by apply Hp in E.
  - intros [= E1 E2 E3]. destruct (group_digits a b Byte.x00 a' b' Byte.x00) as (-> & -> & _); [done..| |done].
    change (b2z Byte.x00) with 0. Z.to_euclidean_division_equations. lia.
  - intros [= _ _ _ E]. symmetry in E. by apply Hp in E.
  - intros [= _ _ E]. by apply Hp in E.
  - intros [= _ _ _ E]. by apply Hp in E.
  - intros [= E1 E2 E3 E4 Et]. apply digit_char_inj in E4; [|lia]. rewrite !digit_mod in E4 by lia. change (2 ^ 0) with 1 in E4. rewrite !Z.div_1_r in E4.
    destruct (group_digits a b c a' b' c') as (-> & -> & ->); [done..|]. do 3 f_equal. apply IH; [cbn; lia|done].
Qed.

(** ** Where the data is *)

Inductive data_key : Type :=
| PubKey (ns key : bytes)
| HashKey (ns coll keyHash : bytes)
| PvtKey (ns coll key : bytes).

Definition dk_ns (k : data_key) : bytes := match k with PubKey ns _ | HashKey ns _ _ | PvtKey ns _ _ => ns end.
Definition dk_coll (k : data_key) : bytes := match k with PubKey _ _ => [] | HashKey _ coll _ | PvtKey _ coll _ => coll end.

Definition dollar : byte := Byte.x24.

(** Names of chaincodes and collections: no separator, and no dollar sign in the
    name of a chaincode. *)
Definition dk_ok (k : data_key) : Prop := (dollar ∉ dk_ns k) /\ ns_ok (dk_ns k) /\ ns_ok (dk_coll k).

Lemma clean_prefix (n n' a b : bytes) : (dollar ∉ n) -> (dollar ∉ n') -> n ++ dollar :: a = n' ++ dollar :: b -> n = n' /\ a = b.
Proof.
  revert n'. induction n as [|x n IH]; intros [|y n'] Hn Hn'; cbn [app].
  - by intros [= ->].
  - intros E. injection E as E _. subst y. destruct Hn'. by left.
  - intros E. injection E as E _. subst x. destruct Hn. by left.
  - rewrite not_elem_of_cons in Hn, Hn'. destruct Hn as [_ Hn], Hn' as [_ Hn']. intros [= -> E].
    by destruct (IH n' Hn Hn' E) as [-> ->].
Qed.

Lemma hashedNs_dollar (ns coll : bytes) : deriveHashedDataNs ns coll = ns ++ dollar :: [dollar; Byte.x68] ++ coll.
Proof. done. Qed.

Lemma pvtNs_dollar (ns coll : bytes) : derivePvtDataNs ns coll = ns ++ dollar :: [dollar; Byte.x70] ++ coll.
Proof. done. Qed.

Lemma elem_dollar (ns a : bytes) : dollar ∈ ns ++ dollar :: a.
Proof. rewrite elem_of_app, elem_of_cons. auto. Qed.

Section Locations.
Context {D : Type} {VD : VersionedDB D}.

Lemma hash_key_inj (a b : bytes) : hash_key (D := D) a = hash_key (D := D) b -> a = b.
Proof. unfold hash_key. destruct BytesKeySupported; [done|apply base64_inj]. Qed.

Definition loc (k : data_key) : bytes * bytes :=
  match k with
  | PubKey ns key => (ns, key)
  | HashKey ns coll keyHash => (deriveHashedDataNs ns coll, hash_key (D := D) keyHash)
  | PvtKey ns coll key => (derivePvtDataNs ns coll, key)
  end.

Lemma loc_inj (k k' : data_key) : (dollar ∉ dk_ns k) -> (dollar ∉ dk_ns k') -> loc k = loc k' -> k = k'.
Proof.
  destruct k as [n a|n c a|n c a], k' as [n' a'|n' c' a'|n' c' a']; cbn [dk_ns loc]; rewrite ?hashedNs_dollar, ?pvtNs_dollar; intros Hn Hn' E;
    injection E as En Ek; try (exfalso; revert Hn Hn'; rewrite ?En, <- ?En; pose proof elem_dollar; naive_solver);
    try (apply clean_prefix in En as [-> Ec]; [|done..]; cbn in Ec; try discriminate Ec; injection Ec as ->).
  - congruence.
  - apply hash_key_inj in Ek. congruence.
  - congruence.
Qed.

Lemma loc_ns_ok (k : data_key) : dk_ok k -> ns_ok (fst (loc k)).
Proof.
  intros (_ & Hn & Hc). destruct k; cbn [loc fst dk_ns dk_coll] in *; [done| |];
    unfold ns_ok, deriveHashedDataNs, derivePvtDataNs in *; rewrite !not_elem_of_app;
    (split; [done|]); (split; [apply (bool_decide_unpack _); vm_compute; exact I|]);
    (split; [apply (bool_decide_unpack _); vm_compute; exact I|done]).
Qed.

(** ** Updates of the three kinds *)

Definition upd_get (b : PrivUpdateBatch) (k : data_key) : option VersionedValue :=
  match k with
  | PubKey ns key => Batch_Get (PubUpdates b) ns key
  | HashKey ns coll keyHash => UpdateMap_Get (HashUpdates b) ns coll keyHash
  | PvtKey ns coll key => UpdateMap_Get (PvtUpdates b) ns coll key
  end.

Definition updates_ok (b : PrivUpdateBatch) : Prop :=
  forall k vv, upd_get b k = Some vv -> dk_ok k /\ Height_wf (vv_Version vv).

Lemma update_list_elem (b : UpdateMap) (ns coll key : bytes) (vv : VersionedValue) :
  (ns, coll, key, vv) ∈ update_list b <-> UpdateMap_Get b ns coll key = Some vv.
Proof.
  unfold update_list, UpdateMap_Get, Batch_Get, GetUpdatedNamespaces, GetUpdates. rewrite list_elem_of_bind. split.
  - intros ([ns' nb] & Hin & Hb). apply elem_of_map_to_list in Hb. apply list_elem_of_bind in Hin as (coll' & Hin & Hc).
    apply list_elem_of_fmap in Hin as ([key' vv'] & [= -> -> -> ->] & Hk). apply elem_of_map_to_list in Hk.
    rewrite Hb. destruct (Updates nb !! coll'); [done|]. cbn in Hk. by rewrite lookup_empty in Hk.
  - destruct (b !! ns) as [nb|] eqn:Eb; [|done]. destruct (Updates nb !! coll) as [u|] eqn:Eu; [|done]. intros Hk.
    exists (ns, nb). split; [|by apply elem_of_map_to_list]. apply list_elem_of_bind. exists coll. split.
    + apply list_elem_of_fmap. exists (key, vv). split; [done|]. apply elem_of_map_to_list. by rewrite Eu.
    + apply list_elem_of_fmap. exists (coll, u). split; [done|]. by apply elem_of_map_to_list.
Qed.

(** A loop of updates at the locations [f]. *)
Lemma fold_insert_notin {A} (f : A -> bytes * bytes) (g : A -> VersionedValue) (l : list A) (m : state) (k : bytes * bytes) :
  (forall x, x ∈ l -> f x <> k) -> fold_left (fun m x => <[f x := g x]> m) l m !! k = m !! k.
Proof.
  revert m. induction l as [|x l IH]; intros m H; [done|]. cbn [fold_left]. rewrite IH by (intros; apply H; by right).
  apply lookup_insert_ne, H. by left.
Qed.

Lemma fold_insert_in {A} (f : A -> bytes * bytes) (g : A -> VersionedValue) (l : list A) (m : state) (x : A) :
  x ∈ l -> (forall y, y ∈ l -> f y = f x -> g y = g x) -> fold_left (fun m x => <[f x := g x]> m) l m !! f x = Some (g x).
Proof.
  revert m x. induction l as [|y l IH]; intros m x Hx Hs; [by apply not_elem_of_nil in Hx|]. cbn [fold_left].
  destruct (decide (Exists (fun z => f z = f x) l)) as [He|Hn].
  - apply Exists_exists in He as (z & Hz & Ez). rewrite <- Ez, IH; [|done|].
    + f_equal. apply Hs; [by right|done].
    + intros w Hw Ew. rewrite (Hs w), (Hs z); [done|by right|done|by right|congruence].
  - rewrite fold_insert_notin by (intros z Hz Ez; apply Hn, Exists_exists; eauto).
    apply elem_of_cons in Hx as [->|Hx]; [by rewrite lookup_insert_eq|]. destruct Hn. apply Exists_exists. eauto.
Qed.

Definition combined (b : PrivUpdateBatch) : UpdateBatch :=
  addHashedUpdates (HashUpdates b) (negb (BytesKeySupported (D := D))) (addPvtUpdates (PvtUpdates b) (PubUpdates b)).

(** The combined batch as a map: first the public updates, then the others at their locations. *)
Definition entries (b : PrivUpdateBatch) : list (data_key * VersionedValue) :=
  ((fun '(ns, coll, key, vv) => (PvtKey ns coll key, vv)) <$> update_list (PvtUpdates b)) ++
  ((fun '(ns, coll, key, vv) => (HashKey ns coll key, vv)) <$> update_list (HashUpdates b)).

Lemma addPvtUpdates_map (p : UpdateMap) (b : UpdateBatch) :
  batch_map (addPvtUpdates p b) = fold_left (fun m x => <[loc (fst x) := snd x]> m)
    ((fun '(ns, coll, key, vv) => (PvtKey ns coll key, vv)) <$> update_list p) (batch_map b).
Proof.
  unfold addPvtUpdates. revert b. induction (update_list p) as [|[[[ns coll] key] vv] l IH]; intros b; [done|].
  cbn [fold_left fmap list_fmap fst snd loc]. by rewrite IH, batch_map_Update.
Qed.

Lemma addHashedUpdates_map (p : UpdateMap) (b : UpdateBatch) :
  batch_map (addHashedUpdates p (negb (BytesKeySupported (D := D))) b) = fold_left (fun m x => <[loc (fst x) := snd x]> m)
    ((fun '(ns, coll, key, vv) => (HashKey ns coll key, vv)) <$> update_list p) (batch_map b).
Proof.
  unfold addHashedUpdates. revert b. induction (update_list p) as [|[[[ns coll] key] vv] l IH]; intros b; [done|].
  cbn [fold_left fmap list_fmap fst snd loc]. rewrite IH, batch_map_Update. unfold hash_key. by destruct BytesKeySupported.
Qed.

Lemma combined_map (b : PrivUpdateBatch) :
  batch_map (combined b) = fold_left (fun m x => <[loc (fst x) := snd x]> m) (entries b) (batch_map (PubUpdates b)).
Proof. unfold combined, entries. by rewrite addHashedUpdates_map, addPvtUpdates_map, fold_left_app. Qed.

Lemma entries_elem (b : PrivUpdateBatch) (k : data_key) (vv : VersionedValue) :
  (k, vv) ∈ entries b <-> upd_get b k = Some vv /\ match k with PubKey _ _ => False | _ => True end.
Proof.
  unfold entries. rewrite elem_of_app, !list_elem_of_fmap. split.
  - intros [([[[ns coll] key] vv'] & [= -> ->] & H)|([[[ns coll] key] vv'] & [= -> ->] & H)]; by apply update_list_elem in H.
  - intros [H Hk]. destruct k as [|ns coll key|ns coll key]; [done|right|left];
      exists (ns, coll, key, vv); split; [done|by apply update_list_elem|done|by apply update_list_elem].
Qed.

(** The combined batch updates exactly the locations of the updated keys. *)
Lemma combined_lookup (b : PrivUpdateBatch) (k : data_key) :
  updates_ok b -> dk_ok k -> batch_map (combined b) !! loc k = upd_get b k.
Proof.
  intros Hb [Hk _]. rewrite combined_map.
  assert (Hinj : forall x, x ∈ entries b -> loc (fst x) = loc k -> fst x = k).
  { intros [k' vv'] Hx E. apply entries_elem in Hx as [Hx _]. apply loc_inj; [by apply Hb in Hx as [[? _] _]|done|done]. }
  destruct (decide (Exists (fun x => loc (fst x) = loc k) (entries b))) as [He|Hn].
  - apply Exists_exists in He as ([k' vv] & Hx & E). pose proof (Hinj _ Hx E) as Ek. cbn [fst] in Ek. subst k'.
    pose proof (fold_insert_in (fun x => loc (fst x)) snd (entries b) (batch_map (PubUpdates b)) (k, vv) Hx) as F.
    cbn [fst snd] in F. rewrite F; [by apply entries_elem in Hx as [-> _]|].
    intros [k2 vv2] Hy Ey. pose proof (Hinj _ Hy Ey) as E2. cbn [fst snd] in *. subst k2.
    apply entries_elem in Hx as [Hx _], Hy as [Hy _]. congruence.
  - rewrite (fold_insert_notin (fun x => loc (fst x)) snd) by (intros x Hx E; apply Hn, Exists_exists; eauto).
    assert (Hpub : forall n a x, Batch_Get (PubUpdates b) (n ++ dollar :: a) x = None).
    { intros n a x. destruct (Batch_Get (PubUpdates b) (n ++ dollar :: a) x) as [vv|] eqn:Ep; [exfalso|done].
      apply (Hb (PubKey _ _)) in Ep as [[Hd _] _]. apply Hd, elem_dollar. }
    assert (Hnone : match k with PubKey _ _ => False | _ => True end -> upd_get b k = None).
    { intros Hp. destruct (upd_get b k) as [vv|] eqn:Eg; [|done]. destruct Hn. apply Exists_exists. exists (k, vv).
      split; [by apply entries_elem|done]. }
    destruct k as [ns key|ns coll key|ns coll key]; [apply batch_map_lookup| |]; rewrite Hnone by done; cbn [loc];
      rewrite batch_map_lookup, ?hashedNs_dollar, ?pvtNs_dollar; apply Hpub.
Qed.

Lemma combined_inv (b : PrivUpdateBatch) (l : bytes * bytes) (vv : VersionedValue) :
  updates_ok b -> batch_map (combined b) !! l = Some vv -> exists k, l = loc k /\ upd_get b k = Some vv.
Proof.
  intros Hb E. destruct (decide (Exists (fun x => loc (fst x) = l) (entries b))) as [He|Hn].
  - apply Exists_exists in He as ([k v] & Hx & <-). apply entries_elem in Hx as [Hx _]. exists k. split; [done|].
    rewrite <- E. symmetry. apply combined_lookup; [done|]. by apply Hb in Hx as [? _].
  - rewrite combined_map, (fold_insert_notin (fun x => loc (fst x)) snd) in E by (intros x Hx Ex; apply Hn, Exists_exists; eauto).
    destruct l as [ns key]. exists (PubKey ns key). split; [done|]. by rewrite batch_map_lookup in E.
Qed.

Lemma combined_batch_ok (b : PrivUpdateBatch) : updates_ok b -> batch_ok (combined b).
Proof.
  intros Hb ns key vv E. rewrite <- batch_map_lookup in E. destruct (combined_inv _ _ _ Hb E) as (k & El & Ek).
  destruct (Hb _ _ Ek) as [Hk Hv]. split; [|done]. change ns with (fst (ns, key)). rewrite El. by apply loc_ns_ok.
Qed.

(** ** The metadata hint *)

Definition is_pvt (k : data_key) : bool := match k with PvtKey _ _ _ => true | _ => false end.

(** Name spaces with metadata in the state are in the hint, and the hint is what a
    restart would read back. *)
Record hint_ok (h : metadataHint) (σ : state) : Prop := {
  ho_sound : forall k vv, is_pvt k = false -> σ !! loc k = Some vv -> vv_Metadata vv <> [] -> dk_ok k -> dk_ns k ∈ mh_cache h;
  ho_durable : mh_cache h = dom (mh_bookkeeper h) }.

Lemma newMetadataHint_durable (bk : kvmap) : mh_cache (newMetadataHint bk) = dom (mh_bookkeeper (newMetadataHint bk)).
Proof.
  cbn [newMetadataHint mh_cache mh_bookkeeper]. apply set_eq. intros ns.
  rewrite elem_of_list_to_set, range_scan_keys, range_keys_elem, elem_of_dom, bytes_leb_nil. cbn. tauto.
Qed.

Lemma dom_write_puts (b : batch) (m : kvmap) :
  Forall (fun kv => snd kv = Some []) b -> dom (DB_WriteBatch b m) = list_to_set b.*1 ∪ dom m.
Proof.
  intros Hb. unfold DB_WriteBatch. revert m. induction Hb as [|[k o] b Ho Hb IH]; intros m; [cbn; set_solver|].
  cbn [snd] in Ho. subst o. cbn [fold_left]. rewrite IH. unfold apply_update. cbn [fst snd]. rewrite dom_insert_L. cbn. set_solver.
Qed.

(** The flags that are set, and what is written for them. *)
Lemma setMetadataUsedFlag_spec (b : PrivUpdateBatch) (h : metadataHint) :
  mh_cache h = dom (mh_bookkeeper h) ->
  let h' := setMetadataUsedFlag b h in
  mh_cache h' = list_to_set (filterNamespacesThatHasMetadata b) ∪ mh_cache h /\ mh_cache h' = dom (mh_bookkeeper h').
Proof.
  intros Hd. unfold setMetadataUsedFlag. generalize (filterNamespacesThatHasMetadata b) as l. intros l.
  assert (H : forall l (acc : gset bytes * batch), fst acc = list_to_set (snd acc).*1 ∪ mh_cache h -> Forall (fun kv => snd kv = Some []) (snd acc) ->
    fst (fold_left set_flag l acc) = list_to_set l ∪ fst acc /\
    fst (fold_left set_flag l acc) = list_to_set (snd (fold_left set_flag l acc)).*1 ∪ mh_cache h /\
    Forall (fun kv => snd kv = Some []) (snd (fold_left set_flag l acc))).
  { clear l. induction l as [|ns l IH]; intros [cache b'] Hc Hb; [cbn; split; [set_solver|done]|]. cbn [fold_left].
    assert (Ha : fst (set_flag (cache, b') ns) = {[ns]} ∪ cache).
    { unfold set_flag. case_bool_decide; cbn [fst]; [set_solver|done]. }
    destruct (IH (set_flag (cache, b') ns)) as (H1 & H2 & H3).
    - rewrite Ha. unfold set_flag. cbn [fst snd] in Hc. case_bool_decide; cbn [snd]; [set_solver|].
      rewrite fmap_app, list_to_set_app_L, Hc. cbn. set_solver.
    - unfold set_flag. cbn [snd] in Hb. case_bool_decide; cbn [snd]; [done|]. apply Forall_app. split; [done|]. by constructor.
    - split; [|done]. rewrite H1, Ha. cbn [fst list_to_set]. set_solver. }
  destruct (H l (mh_cache h, [])) as (H1 & H2 & H3); [cbn; set_solver|constructor|]. destruct (fold_left _ _ _) as [cache batch].
  cbn [fst snd mh_cache mh_bookkeeper] in *. split; [done|]. by rewrite H2, Hd, dom_write_puts.
Qed.

Lemma filter_pub (b : PrivUpdateBatch) (ns key : bytes) (vv : VersionedValue) :
  Batch_Get (PubUpdates b) ns key = Some vv -> vv_Metadata vv <> [] -> ns ∈ filterNamespacesThatHasMetadata b.
Proof.
  intros E Hm. unfold filterNamespacesThatHasMetadata, GetUpdatedNamespaces, GetUpdates. apply elem_of_app. left.
  unfold Batch_Get in E. destruct (Updates (PubUpdates b) !! ns) as [u|] eqn:Eu; [|done].
  apply list_elem_of_bind. exists ns. split.
  - apply list_elem_of_bind. exists (key, vv). rewrite Eu. split; [|by apply elem_of_map_to_list].
    rewrite bool_decide_eq_false_2 by done. by left.
  - apply list_elem_of_fmap. exists (ns, u). split; [done|]. by apply elem_of_map_to_list.
Qed.

Lemma filter_hash (b : PrivUpdateBatch) (ns coll key : bytes) (vv : VersionedValue) :
  UpdateMap_Get (HashUpdates b) ns coll key = Some vv -> vv_Metadata vv <> [] -> ns ∈ filterNamespacesThatHasMetadata b.
Proof.
  intros E%update_list_elem Hm. unfold filterNamespacesThatHasMetadata. apply elem_of_app. right.
  apply list_elem_of_bind. exists (ns, coll, key, vv). split; [|done]. rewrite bool_decide_eq_false_2 by done. by left.
Qed.

(** ** The database *)

Context {VO : VersionedDBOk D}.

Record db_view (s : DB D) (σ : state) : Prop := {
  dv_state : state_view (db_vdb s) σ;
  dv_hint : hint_ok (db_hint s) σ }.

Lemma ApplyPrivacyAwareUpdates_ok (s : DB D) (σ : state) (b : PrivUpdateBatch) (h : option Height) :
  db_view s σ -> updates_ok b ->
  exists s', ApplyPrivacyAwareUpdates b h s = (Ret tt, s') /\ db_view s' (apply_updates (batch_map (combined b)) σ).
Proof.
  intros [Hv Hh] Hb. unfold ApplyPrivacyAwareUpdates. fold (combined b).
  destruct (view_ApplyUpdates _ _ (combined b) h Hv (combined_batch_ok b Hb)) as (d' & -> & Hv'). eexists. split; [done|].
  constructor; [done|]. cbn [db_hint].
  destruct (setMetadataUsedFlag_spec (mkPrivUpdateBatch (combined b) (HashUpdates b) (PvtUpdates b)) (db_hint s) (ho_durable _ _ Hh)) as [Hc Hd].
  constructor; [|done]. intros k vv Hp Hk Hm Hok. rewrite Hc, elem_of_union, elem_of_list_to_set.
  rewrite apply_updates_lookup in Hk. destruct (batch_map (combined b) !! loc k) as [w|] eqn:Ew; [|right; by eapply ho_sound].
  assert (w = vv) as -> by (unfold live in Hk; destruct (IsDelete w); congruence). left.
  destruct k as [ns key|ns coll key|]; [| |done].
  - cbn [loc] in Ew. rewrite batch_map_lookup in Ew. by apply (filter_pub _ ns key vv).
  - rewrite combined_lookup in Ew by done. by apply (filter_hash _ ns coll key vv).
Qed.

(** The state after a batch, key by key. *)
Lemma combined_apply (b : PrivUpdateBatch) (σ : state) (k : data_key) :
  updates_ok b -> dk_ok k ->
  apply_updates (batch_map (combined b)) σ !! loc k = match upd_get b k with Some vv => live vv | None => σ !! loc k end.
Proof. intros Hb Hk. by rewrite apply_updates_lookup, combined_lookup. Qed.

(** What the database answers. *)
Lemma view_GetValueHash (s : DB D) (σ : state) (ns coll kh : bytes) :
  db_view s σ -> dk_ok (HashKey ns coll kh) -> GetValueHash s ns coll kh = Ret (σ !! loc (HashKey ns coll kh)).
Proof. intros [Hv _] Hk. apply view_GetState; [done|]. by apply (loc_ns_ok (HashKey ns coll kh)). Qed.

Lemma metadata_hint_exact (s : DB D) (σ : state) (k : data_key) :
  db_view s σ -> dk_ok k -> is_pvt k = false -> metadataEverUsedFor (db_hint s) (dk_ns k) = false -> metadata_of (σ !! loc k) = [].
Proof.
  intros [_ Hh] Hk Hp Hu. unfold metadataEverUsedFor in Hu. apply bool_decide_eq_false in Hu.
  destruct (σ !! loc k) as [vv|] eqn:E; [|done]. cbn. destruct (vv_Metadata vv) eqn:Em; [done|]. destruct Hu.
  apply (ho_sound _ _ Hh k vv); [done|done|by rewrite Em|done].
Qed.

Lemma view_GetStateMetadata (s : DB D) (σ : state) (ns key : bytes) :
  db_view s σ -> dk_ok (PubKey ns key) -> GetStateMetadata s ns key = Ret (metadata_of (σ !! loc (PubKey ns key))).
Proof.
  intros Hv Hk. unfold GetStateMetadata. destruct (metadataEverUsedFor (db_hint s) ns) eqn:E; cbn [negb].
  - rewrite (view_GetState _ _ _ _ (dv_state _ _ Hv)) by apply (loc_ns_ok (PubKey ns key) Hk). done.
  - by rewrite (metadata_hint_exact s σ (PubKey ns key)).
Qed.

Lemma view_GetPrivateDataMetadataByHash (s : DB D) (σ : state) (ns coll kh : bytes) :
  db_view s σ -> dk_ok (HashKey ns coll kh) ->
  GetPrivateDataMetadataByHash s ns coll kh = Ret (metadata_of (σ !! loc (HashKey ns coll kh))).
Proof.
  intros Hv Hk. unfold GetPrivateDataMetadataByHash. destruct (metadataEverUsedFor (db_hint s) ns) eqn:E; cbn [negb].
  - by rewrite (view_GetValueHash _ σ).
  - by rewrite (metadata_hint_exact s σ (HashKey ns coll kh)).
Qed.

Lemma LoadCommittedVersions_ok (s : DB D) (σ : state) (pubKeys : list (bytes * bytes)) (hashedKeys : list (bytes * bytes * bytes)) :
  db_view s σ -> exists s', LoadCommittedVersionsOfPubAndHashedKeys pubKeys hashedKeys s = (Ret tt, s') /\ db_view s' σ.
Proof.
  intros [Hv Hh]. unfold LoadCommittedVersionsOfPubAndHashedKeys. destruct LoadCommittedVersions as [load|] eqn:E; [|by exists s].
  match goal with |- context [load ?k _] => destruct (view_LoadCommittedVersions _ _ _ k Hv E) as (d' & -> & Hv') end.
  eexists. split; [done|]. by constructor.
Qed.

End Locations.
