(* ===== verification/RwSet.v ===== *)
(** * Read-write sets and the summaries of range queries

    src/core/ledger/kvledger/txmgmt/rwsetutil: the read-write sets of a
    transaction and their conversion from and to messages (rwset_proto_util.go),
    and the helper that condenses the results of a range query into the upper
    levels of a Merkle tree, incrementally (query_results_helper.go). *)

From S2P Require Import Prelude OrderedCode Sha256 Proto StateProto.

(** ** The structures *)

Record CollHashedRwSet := mkCollHashedRwSet {
  CHR_CollectionName : bytes;
  CHR_HashedRwSet : HashedRWSet;
  CHR_PvtRwSetHash : bytes }.

Record NsRwSet := mkNsRwSet {
  NsRwSet_NameSpace : bytes;
  NsRwSet_KvRwSet : KVRWSet;
  NsRwSet_CollHashedRwSets : list CollHashedRwSet }.

Record TxRwSet := mkTxRwSet { TxRwSet_NsRwSets : list NsRwSet }.

Record CollPvtRwSet := mkCollPvtRwSet {
  CPR_CollectionName : bytes;
  CPR_KvRwSet : KVRWSet }.

Record NsPvtRwSet := mkNsPvtRwSet {
  NsPvtRwSet_NameSpace : bytes;
  NsPvtRwSet_CollPvtRwSets : list CollPvtRwSet }.

Record TxPvtRwSet := mkTxPvtRwSet { TxPvtRwSet_NsPvtRwSet : list NsPvtRwSet }.

(** The first name space, and in it the first collection, of that name. *)
Definition getPvtDataHash (coll : bytes) (nsRwSet : NsRwSet) : bytes :=
  match filter (fun c => CHR_CollectionName c = coll) (NsRwSet_CollHashedRwSets nsRwSet) with
  | c :: _ => CHR_PvtRwSetHash c
  | [] => []
  end.

Definition GetPvtDataHash (txRwSet : TxRwSet) (ns coll : bytes) : bytes :=
  match filter (fun n => NsRwSet_NameSpace n = ns) (TxRwSet_NsRwSets txRwSet) with
  | n :: _ => getPvtDataHash coll n
  | [] => []
  end.

(** A nil set has none. *)
Definition NumCollections (txRwSet : option TxRwSet) : Z :=
  match txRwSet with
  | None => 0
  | Some t => fold_left (fun n ns => n + zlen (NsRwSet_CollHashedRwSets ns)) (TxRwSet_NsRwSets t) 0
  end.

(** A loop that stops at the first error. *)
Fixpoint traverse {A B} (f : A -> outcome B) (l : list A) : outcome (list B) :=
  match l with
  | [] => Ret []
  | a :: l' => b ← f a; bs ← traverse f l'; Ret (b :: bs)
  end.

(** ** Versions *)

Definition NewVersion (protoVersion : option Version) : option Height :=
  match protoVersion with
  | None => None
  | Some v => Some (NewHeight (Version_BlockNum v) (Version_TxNum v))
  end.

Definition newProtoVersion (height : option Height) : option Version :=
  match height with
  | None => None
  | Some h => Some (mkVersion (BlockNum h) (TxNum h))
  end.

Definition NewKVRead (key : bytes) (version : option Height) : KVRead := mkKVRead key (newProtoVersion version).

(** A nil value is a deletion. *)
Definition newKVWrite (key : bytes) (value : option bytes) : KVWrite :=
  mkKVWrite key (negb (is_Some_b value)) (default [] value).

Definition newPvtKVReadHash (key : bytes) (version : option Height) : KVReadHash :=
  mkKVReadHash (Sum256 key) (newProtoVersion version).

Definition newPvtKVWriteAndHash (key : bytes) (value : option bytes) : KVWrite * KVWriteHash :=
  let kvWrite := newKVWrite key value in
  let keyHash := Sum256 key in
  let valueHash := if KVWrite_IsDelete kvWrite then [] else Sum256 (KVWrite_Value kvWrite) in
  (kvWrite, mkKVWriteHash keyHash (KVWrite_IsDelete kvWrite) valueHash).

(** ** Messages *)

Section Messages.
Context {PR : Protos} {SP : StateProtos}.

Definition CollHashedRwSet_toProtoMsg (c : CollHashedRwSet) : CollectionHashedReadWriteSet :=
  mkCollectionHashedReadWriteSet (CHR_CollectionName c) (Marshal (CHR_HashedRwSet c)) (CHR_PvtRwSetHash c).

Definition collHashedRwSetFromProtoMsg (m : CollectionHashedReadWriteSet) : outcome CollHashedRwSet :=
  h ← proto_Unmarshal (A := HashedRWSet) (CHRWS_HashedRwset m);
  Ret (mkCollHashedRwSet (CHRWS_CollectionName m) h (CHRWS_PvtRwsetHash m)).

Definition NsRwSet_toProtoMsg (n : NsRwSet) : NsReadWriteSet :=
  mkNsReadWriteSet (NsRwSet_NameSpace n) (Marshal (NsRwSet_KvRwSet n))
    (CollHashedRwSet_toProtoMsg <$> NsRwSet_CollHashedRwSets n).

Definition nsRwSetFromProtoMsg (m : NsReadWriteSet) : outcome NsRwSet :=
  kv ← proto_Unmarshal (A := KVRWSet) (NsRWS_Rwset m);
  colls ← traverse collHashedRwSetFromProtoMsg (NsRWS_CollectionHashedRwset m);
  Ret (mkNsRwSet (NsRWS_Namespace m) kv colls).

(** The data model is the key-value one. *)
Definition TxReadWriteSet_KV : Z := 0.

Definition TxRwSet_toProtoMsg (t : TxRwSet) : TxReadWriteSet :=
  mkTxReadWriteSet TxReadWriteSet_KV (NsRwSet_toProtoMsg <$> TxRwSet_NsRwSets t).

Definition TxRwSetFromProtoMsg (m : TxReadWriteSet) : outcome TxRwSet :=
  nss ← traverse nsRwSetFromProtoMsg (TxRWS_NsRwset m);
  Ret (mkTxRwSet nss).

Definition TxRwSet_ToProtoBytes (t : TxRwSet) : bytes := Marshal (TxRwSet_toProtoMsg t).

Definition TxRwSet_FromProtoBytes (protoBytes : bytes) : outcome TxRwSet :=
  protoMsg ← proto_Unmarshal (A := TxReadWriteSet) protoBytes;
  TxRwSetFromProtoMsg protoMsg.

Definition CollPvtRwSet_toProtoMsg (c : CollPvtRwSet) : CollectionPvtReadWriteSet :=
  mkCollectionPvtReadWriteSet (CPR_CollectionName c) (Marshal (CPR_KvRwSet c)).

Definition collPvtRwSetFromProtoMsg (m : CollectionPvtReadWriteSet) : outcome CollPvtRwSet :=
  kv ← proto_Unmarshal (A := KVRWSet) (CollectionPvtReadWriteSet_Rwset m);
  Ret (mkCollPvtRwSet (CollectionPvtReadWriteSet_CollectionName m) kv).

Definition NsPvtRwSet_toProtoMsg (n : NsPvtRwSet) : NsPvtReadWriteSet :=
  mkNsPvtReadWriteSet (NsPvtRwSet_NameSpace n) (CollPvtRwSet_toProtoMsg <$> NsPvtRwSet_CollPvtRwSets n).

Definition nsPvtRwSetFromProtoMsg (m : NsPvtReadWriteSet) : outcome NsPvtRwSet :=
  colls ← traverse collPvtRwSetFromProtoMsg (NsPvtReadWriteSet_CollectionPvtRwset m);
  Ret (mkNsPvtRwSet (NsPvtReadWriteSet_Namespace m) colls).

Definition TxPvtRwSet_ToProtoMsg (t : TxPvtRwSet) : TxPvtReadWriteSet :=
  mkTxPvtReadWriteSet TxReadWriteSet_KV (NsPvtRwSet_toProtoMsg <$> TxPvtRwSet_NsPvtRwSet t).

Definition TxPvtRwSetFromProtoMsg (m : TxPvtReadWriteSet) : outcome TxPvtRwSet :=
  nss ← traverse nsPvtRwSetFromProtoMsg (TxPvtReadWriteSet_NsPvtRwset m);
  Ret (mkTxPvtRwSet nss).

Definition TxPvtRwSet_ToProtoBytes (t : TxPvtRwSet) : bytes := Marshal (TxPvtRwSet_ToProtoMsg t).

Definition TxPvtRwSet_FromProtoBytes (protoBytes : bytes) : outcome TxPvtRwSet :=
  protoMsg ← proto_Unmarshal (A := TxPvtReadWriteSet) protoBytes;
  TxPvtRwSetFromProtoMsg protoMsg.

End Messages.

(** ** The Merkle tree *)

Section Merkle.
Context {SP : StateProtos}.
(** [HashFunc] of the crypto provider. *)
Variable hashFunc : bytes -> outcome bytes.

Definition leafLevel : Z := 1.

(** A level that is not in the map has no hashes. *)
Record merkleTree := mkmerkleTree {
  mt_tree : gmap Z (list bytes);
  mt_maxLevel : Z;
  mt_maxDegree : Z }.

Definition level (m : merkleTree) (l : Z) : list bytes := default [] (mt_tree m !! l).

Definition newMerkleTree (maxDegree : Z) : outcome merkleTree :=
  if maxDegree <? 2 then Err (Errorf "maxDegree [%d] should not be less than 2 in the merkle tree")
  else Ret (mkmerkleTree ∅ 1 maxDegree).

Definition computeCombinedHash (hashes : list bytes) : outcome bytes := hashFunc (mjoin hashes).

(** Append to a level. *)
Definition add_hash (l : Z) (h : bytes) (m : merkleTree) : merkleTree :=
  mkmerkleTree (<[l := level m l ++ [h]]> (mt_tree m)) (mt_maxLevel m) (mt_maxDegree m).

Definition drop_level (l : Z) (m : merkleTree) : merkleTree :=
  mkmerkleTree (delete l (mt_tree m)) (mt_maxLevel m) (mt_maxDegree m).

Definition set_maxLevel (l : Z) (m : merkleTree) : merkleTree := mkmerkleTree (mt_tree m) l (mt_maxDegree m).

(** The levels above an overfull one; each round goes one level up, and above the
    highest level there is at most the one hash just added. *)
Fixpoint merkle_update_loop (fuel : nat) (currentLevel : Z) (m : merkleTree) : outcome merkleTree :=
  match fuel with
  | O => Panic "out of fuel"
  | S fuel' =>
      let currentLevelHashes := level m currentLevel in
      if u32 (zlen currentLevelHashes) <=? mt_maxDegree m then Ret m else
      nextLevelHash ← computeCombinedHash currentLevelHashes;
      let m := drop_level currentLevel m in
      let nextLevel := currentLevel + 1 in
      let m := add_hash nextLevel nextLevelHash m in
      let m := if mt_maxLevel m <? nextLevel then set_maxLevel nextLevel m else m in
      merkle_update_loop fuel' nextLevel m
  end.

Definition merkle_update (nextLeafLevelHash : bytes) (m : merkleTree) : outcome merkleTree :=
  merkle_update_loop (S (S (Z.to_nat (mt_maxLevel m)))) leafLevel (add_hash leafLevel nextLeafLevelHash m).

(** The nodes below the highest level are completed upwards. *)
Fixpoint merkle_done_loop (fuel : nat) (currentLevel : Z) (m : merkleTree) : outcome merkleTree :=
  match fuel with
  | O => Ret m
  | S fuel' =>
      if currentLevel <? mt_maxLevel m then
        match level m currentLevel with
        | [] => merkle_done_loop fuel' (currentLevel + 1) m
        | [h] => merkle_done_loop fuel' (currentLevel + 1) (add_hash (currentLevel + 1) h (drop_level currentLevel m))
        | currentLevelHashes =>
            h ← computeCombinedHash currentLevelHashes;
            merkle_done_loop fuel' (currentLevel + 1) (add_hash (currentLevel + 1) h (drop_level currentLevel m))
        end
      else Ret m
  end.

Definition merkle_done (m : merkleTree) : outcome merkleTree :=
  m ← merkle_done_loop (Z.to_nat (mt_maxLevel m)) leafLevel m;
  let finalHashes := level m (mt_maxLevel m) in
  if mt_maxDegree m <? u32 (zlen finalHashes) then
    let m := drop_level (mt_maxLevel m) m in
    let m := set_maxLevel (mt_maxLevel m + 1) m in
    combinedHash ← computeCombinedHash finalHashes;
    Ret (mkmerkleTree (<[mt_maxLevel m := [combinedHash]]> (mt_tree m)) (mt_maxLevel m) (mt_maxDegree m))
  else Ret m.

Definition getSummery (m : merkleTree) : QueryReadsMerkleSummary :=
  mkQueryReadsMerkleSummary (mt_maxDegree m) (mt_maxLevel m) (level m (mt_maxLevel m)).

Definition merkle_isEmpty (m : merkleTree) : bool := (mt_maxLevel m =? 1) && (zlen (level m (mt_maxLevel m)) =? 0).

(** ** The helper *)

Record RangeQueryResultsHelper := mkRangeQueryResultsHelper {
  rqh_pendingResults : list KVRead;
  rqh_mt : option merkleTree;
  rqh_maxDegree : Z;
  rqh_hashingEnabled : bool }.

Definition NewRangeQueryResultsHelper (enableHashing : bool) (maxDegree : Z) : outcome RangeQueryResultsHelper :=
  if enableHashing then
    mt ← newMerkleTree maxDegree;
    Ret (mkRangeQueryResultsHelper [] (Some mt) maxDegree true)
  else Ret (mkRangeQueryResultsHelper [] None maxDegree false).

Definition serializeKVReads (kvReads : list KVRead) : bytes := Marshal (mkQueryReads kvReads).

Definition get_mt (h : RangeQueryResultsHelper) : outcome merkleTree :=
  match rqh_mt h with Some mt => Ret mt | None => Panic "nil pointer dereference" end.

Definition processPendingResults (h : RangeQueryResultsHelper) : outcome RangeQueryResultsHelper :=
  let b := serializeKVReads (rqh_pendingResults h) in
  hash ← hashFunc b;
  mt ← get_mt h;
  mt ← merkle_update hash mt;
  Ret (mkRangeQueryResultsHelper [] (Some mt) (rqh_maxDegree h) (rqh_hashingEnabled h)).

Definition AddResult (kvRead : KVRead) (h : RangeQueryResultsHelper) : outcome RangeQueryResultsHelper :=
  let h := mkRangeQueryResultsHelper (rqh_pendingResults h ++ [kvRead]) (rqh_mt h) (rqh_maxDegree h) (rqh_hashingEnabled h) in
  if rqh_hashingEnabled h && (rqh_maxDegree h <? u32 (zlen (rqh_pendingResults h))) then processPendingResults h else Ret h.

(** The raw results, or the summary of the completed tree. *)
Definition Done (h : RangeQueryResultsHelper) : outcome (list KVRead * option QueryReadsMerkleSummary) :=
  if negb (rqh_hashingEnabled h) then Ret (rqh_pendingResults h, None) else
  mt ← get_mt h;
  if merkle_isEmpty mt then Ret (rqh_pendingResults h, None) else
  h ← (if negb (zlen (rqh_pendingResults h) =? 0) then processPendingResults h else Ret h);
  mt ← get_mt h;
  mt ← merkle_done mt;
  Ret (rqh_pendingResults h, Some (getSummery mt)).

Definition GetMerkleSummary (h : RangeQueryResultsHelper) : outcome (option QueryReadsMerkleSummary) :=
  if negb (rqh_hashingEnabled h) then Ret None else
  mt ← get_mt h;
  Ret (Some (getSummery mt)).

End Merkle.
