(* ===== verification/RwSetOk.v ===== *)
(** * The summaries of range queries grow monotonically

    The Merkle tree of a range query keeps at most [maxDegree] hashes per level, and
    the hashes of its highest level are only ever extended until the level itself
    rises.  This is what makes it sound to compare an unfinished tree with a
    recorded summary. *)

From S2P Require Import Prelude OrderedCode Sha256 Proto StateProto RwSet.

(** The loop of an update takes a list of results one after the other. *)
Fixpoint foldM {S A} (f : A -> S -> outcome S) (l : list A) (s : S) : outcome S :=
  match l with
  | [] => Ret s
  | a :: l' => s ← f a s; foldM f l' s
  end.

(** ** Levels *)

Lemma level_add (l l' : Z) (h : bytes) (m : merkleTree) :
  level (add_hash l h m) l' = if decide (l = l') then level m l ++ [h] else level m l'.
Proof.
  unfold level at 1, add_hash. cbn [mt_tree]. destruct (decide (l = l')) as [->|Hne].
  - by rewrite lookup_insert_eq.
  - by rewrite lookup_insert_ne.
Qed.

Lemma level_drop (l l' : Z) (m : merkleTree) :
  level (drop_level l m) l' = if decide (l = l') then [] else level m l'.
Proof.
  unfold level, drop_level. cbn [mt_tree]. destruct (decide (l = l')) as [->|Hne].
  - by rewrite lookup_delete_eq.
  - by rewrite lookup_delete_ne.
Qed.

Lemma level_set_max (l l' : Z) (m : merkleTree) : level (set_maxLevel l m) l' = level m l'.
Proof. done. Qed.

Definition top (m : merkleTree) : list bytes := level m (mt_maxLevel m).

(** A degree for which the counters do not overflow. *)
Definition degree_ok (d : Z) : Prop := 2 <= d < 2 ^ 32 - 1.

(** No level is overfull, none above the highest one is used. *)
Record tree_ok (m : merkleTree) : Prop := {
  tk_degree : degree_ok (mt_maxDegree m);
  tk_max : 1 <= mt_maxLevel m;
  tk_level : forall l, zlen (level m l) <= mt_maxDegree m;
  tk_above : forall l, mt_maxLevel m < l -> level m l = [] }.

(** The same within a loop that has just added to level [cl]. *)
Record filling (cl : Z) (m : merkleTree) : Prop := {
  fl_degree : degree_ok (mt_maxDegree m);
  fl_current : 1 <= cl <= mt_maxLevel m;
  fl_level : forall l, l <> cl -> zlen (level m l) <= mt_maxDegree m;
  fl_one_more : zlen (level m cl) <= mt_maxDegree m + 1;
  fl_above : forall l, mt_maxLevel m < l -> level m l = [] }.

Lemma tree_ok_filling (m : merkleTree) (cl : Z) :
  filling cl m -> zlen (level m cl) <= mt_maxDegree m -> tree_ok m.
Proof.
  intros [Hd Hc Hl _ Ha] Hcl. constructor; [done|lia| |done]. intros l. destruct (decide (l = cl)) as [->|]; auto.
Qed.

Lemma filling_u32 (m : merkleTree) (cl : Z) : filling cl m -> u32 (zlen (level m cl)) = zlen (level m cl).
Proof.
  intros [[_ Hd] _ _ Ho _]. unfold u32. apply Z.mod_small. pose proof (zlen_nonneg (level m cl)). lia.
Qed.

(** ** How the highest level changes *)

(** One more result: nothing, one more hash, or a new level with one hash above a
    full one. *)
Inductive top_step (m m' : merkleTree) : Prop :=
| top_same : mt_maxLevel m' = mt_maxLevel m -> top m' = top m -> top_step m m'
| top_more (h : bytes) : mt_maxLevel m' = mt_maxLevel m -> top m' = top m ++ [h] -> top_step m m'
| top_rise (h : bytes) : mt_maxLevel m' = mt_maxLevel m + 1 -> top m' = [h] -> zlen (top m) = mt_maxDegree m -> top_step m m'.

(** Any number of results. *)
Definition top_le (lv : Z) (hs : list bytes) (lv' : Z) (hs' : list bytes) : Prop :=
  lv < lv' \/ lv = lv' /\ hs `prefix_of` hs'.

Definition tree_le (m m' : merkleTree) : Prop := top_le (mt_maxLevel m) (top m) (mt_maxLevel m') (top m').

#[global] Instance tree_le_refl : Reflexive tree_le.
Proof. intros m. by right. Qed.

#[global] Instance tree_le_trans : Transitive tree_le.
Proof.
  intros a b c [H1|[H1 P1]] [H2|[H2 P2]]; [left; lia|left; lia|left; lia|]. right. split; [lia|]. by transitivity (top b).
Qed.

Lemma top_step_le (m m' : merkleTree) : top_step m m' -> tree_le m m'.
Proof.
  intros [E Et|h E Et|h E Et _]; [right; rewrite Et; auto|right; rewrite Et; split; [done|by apply prefix_app_r]|left; lia].
Qed.

Section Total.
Context {SP : StateProtos}.
Variable hashFunc : bytes -> outcome bytes.
(** The hash function of the provider does not fail. *)
Hypothesis hash_total : forall b, exists h, hashFunc b = Ret h.

(** Combining the overfull level [cl] below the highest one. *)
Lemma combine_below (cl : Z) (m : merkleTree) (h : bytes) :
  filling cl m -> cl < mt_maxLevel m -> filling (cl + 1) (add_hash (cl + 1) h (drop_level cl m)).
Proof.
  intros [Hd Hc Hl Ho Ha] Hlt. constructor; cbn [mt_maxDegree mt_maxLevel add_hash drop_level]; [done|lia| | |].
  - intros l Hne. rewrite level_add, decide_False, level_drop by lia. case_decide as E; [rewrite zlen_nil; destruct Hd; lia|]. apply Hl. congruence.
  - rewrite level_add, decide_True, level_drop, decide_False, zlen_app by lia. rewrite zlen_cons, zlen_nil.
    specialize (Hl (cl + 1)). lia.
  - intros l Hgt. rewrite level_add, decide_False, level_drop, decide_False by lia. by apply Ha.
Qed.

(** Combining the overfull highest level. *)
Lemma combine_top (m : merkleTree) (h : bytes) :
  filling (mt_maxLevel m) m ->
  let m' := set_maxLevel (mt_maxLevel m + 1) (add_hash (mt_maxLevel m + 1) h (drop_level (mt_maxLevel m) m)) in
  filling (mt_maxLevel m') m' /\ top m' = [h].
Proof.
  intros [Hd Hc Hl Ho Ha] m'. assert (Et : top m' = [h]).
  { unfold top, m'. cbn [mt_maxLevel set_maxLevel]. rewrite level_set_max, level_add, decide_True, level_drop, decide_False by lia.
    by rewrite Ha by lia. }
  split; [|done]. constructor; [done|cbn; lia| | |].
  - intros l Hne. unfold m' in *. cbn [mt_maxLevel mt_maxDegree set_maxLevel add_hash drop_level] in *.
    rewrite level_set_max, level_add, decide_False, level_drop by lia. case_decide as E; [rewrite zlen_nil; destruct Hd; lia|].
    apply Hl. congruence.
  - unfold top in Et. rewrite Et. change (zlen [h]) with 1. destruct Hd. cbn. lia.
  - intros l Hgt. unfold m' in *. cbn [mt_maxLevel set_maxLevel] in Hgt. rewrite level_set_max, level_add, decide_False, level_drop, decide_False by lia.
    apply Ha. lia.
Qed.

(** The loop ends within the fuel, at a well-formed tree.  [k] stands for the tree
    before the hash was added. *)
Lemma update_loop_ok (fuel : nat) (cl : Z) (m k : merkleTree) :
  filling cl m -> tree_ok k -> mt_maxDegree k = mt_maxDegree m -> mt_maxLevel k = mt_maxLevel m ->
  (cl < mt_maxLevel m /\ top m = top k \/ cl = mt_maxLevel m /\ exists h, top m = top k ++ [h]) ->
  mt_maxLevel m - cl + 2 <= Z.of_nat fuel ->
  exists m', merkle_update_loop hashFunc fuel cl m = Ret m' /\ tree_ok m' /\ top_step k m' /\ mt_maxDegree m' = mt_maxDegree k.
Proof.
  revert cl m. induction fuel as [|fuel IH]; intros cl m Hf Hk Ed El Ht Hfu; [pose proof (fl_current _ _ Hf); lia|].
  cbn [merkle_update_loop]. rewrite (filling_u32 _ _ Hf).
  destruct (Z.leb_spec (zlen (level m cl)) (mt_maxDegree m)) as [Hle|Hgt].
  { exists m. split; [done|]. split; [by eapply tree_ok_filling|]. split; [|done].
    destruct Ht as [[_ E]|[_ [h E]]]; [by apply top_same|by apply (top_more _ _ h)]. }
  unfold computeCombinedHash. destruct (hash_total (mjoin (level m cl))) as [h ->]. cbn [mbind outcome_bind].
  cbn [mt_maxLevel add_hash drop_level]. destruct Ht as [[Hlt Et]|[-> [h0 Et]]].
  - destruct (Z.ltb_spec (mt_maxLevel m) (cl + 1)); [lia|]. apply IH; [by apply combine_below|done|done|done| |cbn; lia].
    cbn [mt_maxLevel add_hash drop_level]. unfold top in *. cbn [mt_maxLevel add_hash drop_level].
    destruct (decide (cl + 1 = mt_maxLevel m)) as [E|E].
    + right. split; [done|]. exists h. by rewrite level_add, decide_True, level_drop, decide_False, E, Et by lia.
    + left. split; [pose proof (fl_current _ _ Hf); lia|]. by rewrite level_add, decide_False, level_drop, decide_False, Et by lia.
  - rewrite (proj2 (Z.ltb_lt _ _)) by lia. destruct (combine_top m h Hf) as [Hf' Et']. cbv zeta in Hf', Et'.
    set (m' := set_maxLevel _ _) in *. destruct fuel as [|fuel]; [lia|]. cbn [merkle_update_loop].
    change (mt_maxLevel m + 1) with (mt_maxLevel m'). rewrite (filling_u32 _ _ Hf'). unfold top in Et' at 1. rewrite Et'.
    assert (Hd : degree_ok (mt_maxDegree m)) by apply (fl_degree _ _ Hf). destruct Hd.
    rewrite (proj2 (Z.leb_le _ _)) by (change (zlen [h]) with 1; cbn; lia). exists m'. split; [done|].
    split; [eapply tree_ok_filling; [exact Hf'|]; rewrite Et'; change (zlen [h]) with 1; cbn; lia|]. split; [|done].
    apply (top_rise _ _ h); [cbn; lia|done|]. pose proof (tk_level _ Hk (mt_maxLevel k)) as Hb. fold (top k) in Hb.
    fold (top m) in Hgt. rewrite Et, zlen_app in Hgt. change (zlen [h0]) with 1 in Hgt. lia.
Qed.

Lemma merkle_update_ok (h : bytes) (m : merkleTree) :
  tree_ok m ->
  exists m', merkle_update hashFunc h m = Ret m' /\ tree_ok m' /\ top_step m m' /\ mt_maxDegree m' = mt_maxDegree m.
Proof.
  intros Hm. pose proof Hm as [Hd H1 Hl Ha]. unfold merkle_update. apply update_loop_ok; [|done|done|done| |unfold leafLevel; cbn; lia].
  - constructor; [done|unfold leafLevel; cbn; lia| | |].
    + intros l Hne. cbn [mt_maxDegree add_hash]. by rewrite level_add, decide_False by congruence.
    + cbn [mt_maxDegree add_hash]. rewrite level_add, decide_True, zlen_app by done. change (zlen [h]) with 1. specialize (Hl leafLevel). lia.
    + intros l Hgt. cbn [mt_maxLevel add_hash] in Hgt. rewrite level_add, decide_False by (unfold leafLevel; lia). by apply Ha.
  - unfold top. cbn [mt_maxLevel add_hash]. destruct (decide (leafLevel = mt_maxLevel m)) as [E|E].
    + right. split; [done|]. exists h. by rewrite level_add, decide_True, E by done.
    + left. split; [unfold leafLevel in *; lia|]. by rewrite level_add, decide_False.
Qed.

(** Completing the tree extends its highest level as well. *)
Lemma done_loop_le (fuel : nat) (cl : Z) (m : merkleTree) :
  exists m', merkle_done_loop hashFunc fuel cl m = Ret m' /\ tree_le m m' /\ mt_maxDegree m' = mt_maxDegree m.
Proof.
  revert cl m. induction fuel as [|fuel IH]; intros cl m; [by exists m|]. cbn [merkle_done_loop].
  destruct (Z.ltb_spec cl (mt_maxLevel m)) as [Hlt|Hge]; [|by exists m].
  assert (Hup : forall h, exists m', merkle_done_loop hashFunc fuel (cl + 1) (add_hash (cl + 1) h (drop_level cl m)) = Ret m' /\
    tree_le m m' /\ mt_maxDegree m' = mt_maxDegree m).
  { intros h. destruct (IH (cl + 1) (add_hash (cl + 1) h (drop_level cl m))) as (m' & E & Hle & Ed). exists m'. split; [done|].
    split; [|done]. etransitivity; [|exact Hle]. right. split; [done|]. unfold top. cbn [mt_maxLevel add_hash drop_level].
    rewrite level_add. case_decide as Ec; rewrite level_drop, decide_False by lia; [|done]. rewrite Ec. by apply prefix_app_r. }
  destruct (level m cl) as [|h [|h' hs]]; [apply IH|apply Hup|].
  unfold computeCombinedHash. destruct (hash_total (mjoin (h :: h' :: hs))) as [c ->]. apply Hup.
Qed.

Lemma merkle_done_le (m : merkleTree) :
  exists m', merkle_done hashFunc m = Ret m' /\ tree_le m m' /\ mt_maxDegree m' = mt_maxDegree m.
Proof.
  unfold merkle_done. destruct (done_loop_le (Z.to_nat (mt_maxLevel m)) leafLevel m) as (m1 & -> & Hle & Ed). cbn [mbind outcome_bind].
  destruct (mt_maxDegree m1 <? u32 (zlen (level m1 (mt_maxLevel m1)))); [|by exists m1].
  unfold computeCombinedHash. destruct (hash_total (mjoin (level m1 (mt_maxLevel m1)))) as [c ->]. cbn [mbind outcome_bind].
  eexists. split; [done|]. split; [|done]. etransitivity; [exact Hle|]. left. cbn. lia.
Qed.

(** ** The helper *)

Record helper_ok (h : RangeQueryResultsHelper) (m : merkleTree) : Prop := {
  hk_mt : rqh_mt h = Some m;
  hk_tree : tree_ok m;
  hk_degree : rqh_maxDegree h = mt_maxDegree m;
  hk_enabled : rqh_hashingEnabled h = true }.

Lemma helper_new (d : Z) : degree_ok d ->
  exists h m, NewRangeQueryResultsHelper true d = Ret h /\ helper_ok h m /\ mt_maxDegree m = d /\ mt_maxLevel m = 1 /\ top m = [].
Proof.
  intros Hd. pose proof Hd as [H2 _]. unfold NewRangeQueryResultsHelper, newMerkleTree. rewrite (proj2 (Z.ltb_ge _ _)) by lia.
  cbn [mbind outcome_bind]. eexists _, (mkmerkleTree ∅ 1 d). split; [done|].
  assert (He : forall l, level (mkmerkleTree ∅ 1 d) l = []) by (intros l; unfold level; cbn; by rewrite lookup_empty).
  split; [|split; [done|split; [done|apply He]]]. constructor; [done| |done|done].
  constructor; [done|cbn; lia| |]; intros l; [rewrite He, zlen_nil; cbn; lia|by rewrite He].
Qed.

Lemma processPendingResults_ok (h : RangeQueryResultsHelper) (m : merkleTree) :
  helper_ok h m ->
  exists h' m', processPendingResults hashFunc h = Ret h' /\ helper_ok h' m' /\ top_step m m' /\ mt_maxDegree m' = mt_maxDegree m.
Proof.
  intros [Em Hm Hd He]. unfold processPendingResults, get_mt. destruct (hash_total (serializeKVReads (rqh_pendingResults h))) as [x ->].
  cbn [mbind outcome_bind]. rewrite Em. cbn [mbind outcome_bind].
  destruct (merkle_update_ok x m Hm) as (m' & -> & Hm' & Hs & Ed). cbn [mbind outcome_bind]. eexists _, m'. split; [done|].
  split; [|done]. constructor; [done|done|cbn; congruence|done].
Qed.

Lemma AddResult_ok (r : KVRead) (h : RangeQueryResultsHelper) (m : merkleTree) :
  helper_ok h m ->
  exists h' m', AddResult hashFunc r h = Ret h' /\ helper_ok h' m' /\ top_step m m' /\ mt_maxDegree m' = mt_maxDegree m.
Proof.
  intros [Em Hm Hd He]. unfold AddResult. cbn [rqh_hashingEnabled rqh_maxDegree rqh_pendingResults].
  assert (Hk : helper_ok (mkRangeQueryResultsHelper (rqh_pendingResults h ++ [r]) (rqh_mt h) (rqh_maxDegree h) (rqh_hashingEnabled h)) m) by done.
  destruct (_ && _); [by apply processPendingResults_ok|]. eexists _, m. split; [done|]. split; [done|]. split; [by apply top_same|done].
Qed.

Lemma AddResults_ok (l : list KVRead) (h : RangeQueryResultsHelper) (m : merkleTree) :
  helper_ok h m ->
  exists h' m', foldM (AddResult hashFunc) l h = Ret h' /\ helper_ok h' m' /\ tree_le m m' /\ mt_maxDegree m' = mt_maxDegree m.
Proof.
  revert h m. induction l as [|r l IH]; intros h m Hh; [by exists h, m|]. cbn [foldM].
  destruct (AddResult_ok r h m Hh) as (h1 & m1 & -> & Hh1 & Hs & Ed1). cbn [mbind outcome_bind].
  destruct (IH h1 m1 Hh1) as (h2 & m2 & -> & Hh2 & Hle & Ed2). exists h2, m2. split; [done|]. split; [done|].
  split; [|congruence]. transitivity m1; [by apply top_step_le|done].
Qed.

(** The summary at the end, if there is one, extends the tree. *)
Lemma Done_ok (h : RangeQueryResultsHelper) (m : merkleTree) :
  helper_ok h m ->
  exists rs s, Done hashFunc h = Ret (rs, s) /\
    match s with
    | None => True
    | Some s => top_le (mt_maxLevel m) (top m) (QRMS_MaxLevel s) (QRMS_MaxLevelHashes s) /\ QRMS_MaxDegree s = mt_maxDegree m
    end.
Proof.
  intros Hh. pose proof Hh as [Em Hm Hd He]. unfold Done, get_mt. rewrite He, Em. cbn [negb mbind outcome_bind].
  destruct (merkle_isEmpty m); [by eexists _, None|].
  assert (Hp : exists h' m', (if negb (zlen (rqh_pendingResults h) =? 0) then processPendingResults hashFunc h else Ret h) = Ret h' /\
    helper_ok h' m' /\ tree_le m m' /\ mt_maxDegree m' = mt_maxDegree m).
  { destruct (negb _); [|by exists h, m]. destruct (processPendingResults_ok h m Hh) as (h' & m' & E & Hh' & Hs & Ed).
    exists h', m'. split; [done|]. split; [done|]. split; [by apply top_step_le|done]. }
  destruct Hp as (h' & m' & -> & Hh' & Hle & Ed). cbn [mbind outcome_bind]. rewrite (hk_mt _ _ Hh'). cbn [mbind outcome_bind].
  destruct (merkle_done_le m') as (m2 & -> & Hle2 & Ed2). cbn [mbind outcome_bind]. eexists _, (Some _). split; [done|].
  split; [exact (transitivity Hle Hle2)|]. cbn. congruence.
Qed.

(** The summary of a list of results, as a simulation records it. *)
Definition summarize (maxDegree : Z) (l : list KVRead) : outcome (option QueryReadsMerkleSummary) :=
  h ← NewRangeQueryResultsHelper true maxDegree;
  h ← foldM (AddResult hashFunc) l h;
  '(_, s) ← Done hashFunc h;
  Ret s.

End Total.

(** ** Messages *)

Section Roundtrip.
Context {PR : Protos} {PO : ProtosOk} {SP : StateProtos} {SO : StateProtosOk}.

Lemma traverse_fmap {A B : Type} (f : B -> outcome A) (g : A -> B) (l : list A) :
  (forall a, f (g a) = Ret a) -> traverse f (g <$> l) = Ret l.
Proof. intros H. induction l as [|a l IH]; [done|]. cbn. by rewrite H, IH. Qed.

Lemma nsRwSet_roundtrip (n : NsRwSet) : nsRwSetFromProtoMsg (NsRwSet_toProtoMsg n) = Ret n.
Proof.
  unfold nsRwSetFromProtoMsg. cbn [NsRwSet_toProtoMsg NsRWS_Rwset NsRWS_CollectionHashedRwset NsRWS_Namespace].
  rewrite proto_Unmarshal_Marshal. cbn [mbind outcome_bind]. rewrite traverse_fmap; [by destruct n|].
  intros c. unfold collHashedRwSetFromProtoMsg. cbn. rewrite proto_Unmarshal_Marshal. by destruct c.
Qed.

Lemma TxRwSet_roundtrip (t : TxRwSet) : TxRwSetFromProtoMsg (TxRwSet_toProtoMsg t) = Ret t.
Proof. unfold TxRwSetFromProtoMsg. cbn. rewrite traverse_fmap by apply nsRwSet_roundtrip. by destruct t. Qed.

Lemma nsPvtRwSet_roundtrip (n : NsPvtRwSet) : nsPvtRwSetFromProtoMsg (NsPvtRwSet_toProtoMsg n) = Ret n.
Proof.
  unfold nsPvtRwSetFromProtoMsg. cbn [NsPvtRwSet_toProtoMsg NsPvtReadWriteSet_CollectionPvtRwset NsPvtReadWriteSet_Namespace].
  rewrite traverse_fmap; [by destruct n|]. intros c. unfold collPvtRwSetFromProtoMsg. cbn. rewrite proto_Unmarshal_Marshal. by destruct c.
Qed.

Lemma TxPvtRwSet_roundtrip (t : TxPvtRwSet) : TxPvtRwSetFromProtoMsg (TxPvtRwSet_ToProtoMsg t) = Ret t.
Proof. unfold TxPvtRwSetFromProtoMsg. cbn. rewrite traverse_fmap by apply nsPvtRwSet_roundtrip. by destruct t. Qed.

End Roundtrip.
