(* ===== verification/Validation.v ===== *)
(** * Transaction validation

    src/core/ledger/kvledger/txmgmt/validation: the multi-version concurrency
    check of the transactions of a block and the updates the valid ones make.
    [combinedIterator] merges a range of the database with the updates of the
    preceding transactions (combined_iterator.go), the two range query validators
    replay a query on it (rangequery_validator.go), [prepareTxOps] turns a write
    set into one operation per key (tx_ops.go), and [validateAndPrepareBatch] goes
    through the block (validator.go, types.go). *)

From S2P Require Import Prelude OrderedCode LevelDB Proto StateProto StateDB PrivState RwSet.

(** A bytes field that is not set decodes to nil. *)
Definition bytes_or_nil (b : bytes) : option bytes := match b with [] => None | _ => Some b end.

(** ** types.go *)

(** The codes of peer.TxValidationCode the validator gives. *)
Definition TxValidationCode_VALID : Z := 0.
Definition TxValidationCode_MVCC_READ_CONFLICT : Z := 11.
Definition TxValidationCode_PHANTOM_READ_CONFLICT : Z := 12.

Record transaction := mktransaction {
  tx_indexInBlock : Z;
  tx_id : bytes;
  tx_rwset : TxRwSet;
  tx_validationCode : Z;
  tx_containsPostOrderWrites : bool }.

Record block := mkblock {
  blk_num : Z;
  blk_txs : list transaction }.

Record publicAndHashUpdates := mkpublicAndHashUpdates {
  publicUpdates : UpdateBatch;
  hashUpdates : UpdateMap }.

Definition newPubAndHashUpdates : publicAndHashUpdates := mkpublicAndHashUpdates NewUpdateBatch ∅.

Definition containsPvtWrites (t : transaction) : bool :=
  existsb (fun ns => existsb (fun coll => negb (bool_decide (CHR_PvtRwSetHash coll = []))) (NsRwSet_CollHashedRwSets ns))
    (TxRwSet_NsRwSets (tx_rwset t)).

Fixpoint find_coll (coll : bytes) (l : list CollHashedRwSet) : option bytes :=
  match l with
  | [] => None
  | c :: l' => if bool_decide (CHR_CollectionName c = coll) then Some (CHR_PvtRwSetHash c) else find_coll coll l'
  end.

Fixpoint find_ns (ns coll : bytes) (l : list NsRwSet) : bytes :=
  match l with
  | [] => []
  | n :: l' =>
      if bool_decide (NsRwSet_NameSpace n = ns) then
        match find_coll coll (NsRwSet_CollHashedRwSets n) with Some h => h | None => find_ns ns coll l' end
      else find_ns ns coll l'
  end.

(** Unlike [GetPvtDataHash], a second entry of the name space is searched as well. *)
Definition retrieveHash (t : transaction) (ns coll : bytes) : bytes := find_ns ns coll (TxRwSet_NsRwSets (tx_rwset t)).

(** ** Operations on keys (tx_ops.go) *)

Definition upsertVal : Z := 1.
Definition metadataUpdate : Z := 2.
Definition metadataDelete : Z := 4.
Definition keyDelete : Z := 8.

(** Name space, collection (empty for public keys) and key or key hash. *)
Abbreviation compositeKey := (bytes * bytes * bytes)%type.

Record keyOps := mkkeyOps {
  ko_flag : Z;
  ko_value : option bytes;
  ko_metadata : bytes }.

Abbreviation txOps := (gmap compositeKey keyOps).

Definition getOrCreateKeyEntry (txops : txOps) (k : compositeKey) : keyOps := default (mkkeyOps 0 None []) (txops !! k).

Definition txOps_upsert (k : compositeKey) (val : option bytes) (txops : txOps) : txOps :=
  let keyops := getOrCreateKeyEntry txops k in
  <[k := mkkeyOps (u8 (ko_flag keyops + upsertVal)) val (ko_metadata keyops)]> txops.

Definition txOps_delete (k : compositeKey) (txops : txOps) : txOps :=
  let keyops := getOrCreateKeyEntry txops k in
  <[k := mkkeyOps (u8 (ko_flag keyops + keyDelete)) (ko_value keyops) (ko_metadata keyops)]> txops.

Definition txOps_metadataUpdate (k : compositeKey) (metadata : bytes) (txops : txOps) : txOps :=
  let keyops := getOrCreateKeyEntry txops k in
  <[k := mkkeyOps (u8 (ko_flag keyops + metadataUpdate)) (ko_value keyops) metadata]> txops.

Definition txOps_metadataDelete (k : compositeKey) (txops : txOps) : txOps :=
  let keyops := getOrCreateKeyEntry txops k in
  <[k := mkkeyOps (u8 (ko_flag keyops + metadataDelete)) (ko_value keyops) (ko_metadata keyops)]> txops.

Definition ko_isDelete (keyops : keyOps) : bool := Z.land (ko_flag keyops) keyDelete =? keyDelete.

Definition isUpsertAndMetadataUpdate (keyops : keyOps) : bool :=
  if Z.land (ko_flag keyops) upsertVal =? upsertVal then
    (Z.land (ko_flag keyops) metadataUpdate =? metadataUpdate) || (Z.land (ko_flag keyops) metadataDelete =? metadataDelete)
  else false.

Definition isOnlyUpsert (keyops : keyOps) : bool := Z.lor (ko_flag keyops) upsertVal =? upsertVal.

Definition applyKVWrite (ns coll : bytes) (kvWrite : KVWrite) (txops : txOps) : txOps :=
  if KVWrite_IsDelete kvWrite then txOps_delete (ns, coll, KVWrite_Key kvWrite) txops
  else txOps_upsert (ns, coll, KVWrite_Key kvWrite) (bytes_or_nil (KVWrite_Value kvWrite)) txops.

Section Ops.
Context {SP : StateProtos}.

(** statemetadata/metadata.go *)
Definition Serialize (metadataEntries : list KVMetadataEntry) : bytes := Marshal (mkKVMetadataWrite [] metadataEntries).

(** Nil metadata has no entries; the last entry of a name counts. *)
Definition Deserialize (metadataBytes : bytes) : outcome (option (gmap bytes bytes)) :=
  match metadataBytes with
  | [] => Ret None
  | _ =>
      metadata ← proto_Unmarshal (A := KVMetadataWrite) metadataBytes;
      Ret (Some (fold_left (fun m e => <[KVMetadataEntry_Name e := KVMetadataEntry_Value e]> m) (KVMetadataWrite_Entries metadata) ∅))
  end.

Definition applyMetadata (ns coll : bytes) (metadataWrite : KVMetadataWrite) (txops : txOps) : txOps :=
  match KVMetadataWrite_Entries metadataWrite with
  | [] => txOps_metadataDelete (ns, coll, KVMetadataWrite_Key metadataWrite) txops
  | entries => txOps_metadataUpdate (ns, coll, KVMetadataWrite_Key metadataWrite) (Serialize entries) txops
  end.

Definition apply_coll (ns : bytes) (txops : txOps) (collHashRWset : CollHashedRwSet) : txOps :=
  let coll := CHR_CollectionName collHashRWset in
  let txops := fold_left (fun txops w =>
      applyKVWrite ns coll (mkKVWrite (KVWriteHash_KeyHash w) (KVWriteHash_IsDelete w) (KVWriteHash_ValueHash w)) txops)
    (HashedRWSet_HashedWrites (CHR_HashedRwSet collHashRWset)) txops in
  fold_left (fun txops w =>
      applyMetadata ns coll (mkKVMetadataWrite (KVMetadataWriteHash_KeyHash w) (KVMetadataWriteHash_Entries w)) txops)
    (HashedRWSet_MetadataWrites (CHR_HashedRwSet collHashRWset)) txops.

Definition apply_ns (txops : txOps) (nsRWSet : NsRwSet) : txOps :=
  let ns := NsRwSet_NameSpace nsRWSet in
  let txops := fold_left (fun txops w => applyKVWrite ns [] w txops) (KVRWSet_Writes (NsRwSet_KvRwSet nsRWSet)) txops in
  let txops := fold_left (fun txops w => applyMetadata ns [] w txops) (KVRWSet_MetadataWrites (NsRwSet_KvRwSet nsRWSet)) txops in
  fold_left (apply_coll ns) (NsRwSet_CollHashedRwSets nsRWSet) txops.

Definition applyTxRwset (rwset : TxRwSet) (txops : txOps) : txOps := fold_left apply_ns (TxRwSet_NsRwSets rwset) txops.

End Ops.

Section Validator.
Context {SP : StateProtos} {D : Type} {VD : VersionedDB D}.

Definition retrieveLatestState (ck : compositeKey) (precedingUpdates : publicAndHashUpdates) (db : DB D) :
    outcome (option VersionedValue) :=
  let '(ns, coll, key) := ck in
  if bool_decide (coll = []) then
    match Batch_Get (publicUpdates precedingUpdates) ns key with
    | Some vv => Ret (Some vv)
    | None => GetState (db_vdb db) ns key
    end
  else
    match UpdateMap_Get (hashUpdates precedingUpdates) ns coll key with
    | Some vv => Ret (Some vv)
    | None => GetValueHash db ns coll key
    end.

Definition retrieveLatestMetadata (ck : compositeKey) (precedingUpdates : publicAndHashUpdates) (db : DB D) : outcome bytes :=
  let '(ns, coll, key) := ck in
  if bool_decide (coll = []) then
    match Batch_Get (publicUpdates precedingUpdates) ns key with
    | Some vv => Ret (vv_Metadata vv)
    | None => GetStateMetadata db ns key
    end
  else
    match UpdateMap_Get (hashUpdates precedingUpdates) ns coll key with
    | Some vv => Ret (vv_Metadata vv)
    | None => GetPrivateDataMetadataByHash db ns coll key
    end.

(** The body of the loop over the operations: the operation completed from the
    latest state, or none where only metadata of a missing key is written. *)
Definition complete_op (precedingUpdates : publicAndHashUpdates) (db : DB D) (ck : compositeKey) (keyop : keyOps) :
    outcome (option keyOps) :=
  if ko_isDelete keyop || isUpsertAndMetadataUpdate keyop then Ret (Some keyop) else
  if isOnlyUpsert keyop then
    latestMetadata ← retrieveLatestMetadata ck precedingUpdates db;
    Ret (Some (mkkeyOps (ko_flag keyop) (ko_value keyop) latestMetadata))
  else
    latestVal ← retrieveLatestState ck precedingUpdates db;
    match latestVal with
    | Some vv => Ret (Some (mkkeyOps (ko_flag keyop) (vv_Value vv) (ko_metadata keyop)))
    | None => Ret None
    end.

Fixpoint complete_ops (precedingUpdates : publicAndHashUpdates) (db : DB D) (ops : list (compositeKey * keyOps)) : outcome txOps :=
  match ops with
  | [] => Ret ∅
  | (ck, keyop) :: ops' =>
      op ← complete_op precedingUpdates db ck keyop;
      txops ← complete_ops precedingUpdates db ops';
      Ret (match op with Some keyop => <[ck := keyop]> txops | None => txops end)
  end.

Definition prepareTxOps (rwset : TxRwSet) (precedingUpdates : publicAndHashUpdates) (db : DB D) : outcome txOps :=
  complete_ops precedingUpdates db (map_to_list (applyTxRwset rwset ∅)).

(** One operation of [applyWriteSet]. *)
Definition apply_op (txHeight : Height) (ck : compositeKey) (keyops : keyOps) (u : publicAndHashUpdates) : outcome publicAndHashUpdates :=
  let '(ns, coll, key) := ck in
  if bool_decide (coll = []) then
    if ko_isDelete keyops then Ret (mkpublicAndHashUpdates (Batch_Delete ns key txHeight (publicUpdates u)) (hashUpdates u)) else
    pub ← Batch_PutValAndMetadata ns key (ko_value keyops) (ko_metadata keyops) txHeight (publicUpdates u);
    Ret (mkpublicAndHashUpdates pub (hashUpdates u))
  else
    if ko_isDelete keyops then Ret (mkpublicAndHashUpdates (publicUpdates u) (UpdateMap_Delete ns coll key txHeight (hashUpdates u))) else
    hash ← UpdateMap_PutValAndMetadata ns coll key (ko_value keyops) (ko_metadata keyops) txHeight (hashUpdates u);
    Ret (mkpublicAndHashUpdates (publicUpdates u) hash).

Fixpoint apply_ops (txHeight : Height) (ops : list (compositeKey * keyOps)) (u : publicAndHashUpdates) : outcome publicAndHashUpdates :=
  match ops with
  | [] => Ret u
  | (ck, keyops) :: ops' => u ← apply_op txHeight ck keyops u; apply_ops txHeight ops' u
  end.

Definition applyWriteSet (txRWSet : TxRwSet) (txHeight : Height) (db : DB D) (containsPostOrderWrites : bool)
    (u : publicAndHashUpdates) : outcome publicAndHashUpdates :=
  let pub := publicUpdates u in
  let u := mkpublicAndHashUpdates (mkUpdateBatch (ContainsPostOrderWrites pub || containsPostOrderWrites) (Updates pub)) (hashUpdates u) in
  txops ← prepareTxOps txRWSet u db;
  apply_ops txHeight (map_to_list txops) u.

(** ** The combined iterator *)

Record combinedIterator := mkcombinedIterator {
  ci_ns : bytes;
  ci_db : D;
  ci_updates : UpdateBatch;
  ci_endKey : bytes;
  ci_includeEndKey : bool;
  ci_dbItr : DbItr;
  ci_updatesItr : nsIterator;
  ci_dbItem : option VersionedKV;
  ci_updatesItem : option VersionedKV;
  ci_endKeyServed : bool }.

Definition newCombinedIterator (db : D) (updates : UpdateBatch) (ns startKey endKey : bytes) (includeEndKey : bool) :
    outcome combinedIterator :=
  dbItr ← GetStateRangeScanIterator db ns startKey endKey;
  let updatesItr := GetRangeScanIterator updates ns startKey endKey in
  let '(r, dbItr) := Next dbItr in
  dbItem ← r;
  let '(r, updatesItr) := Next updatesItr in
  updatesItem ← r;
  Ret (mkcombinedIterator ns db updates endKey includeEndKey dbItr updatesItr dbItem updatesItem false).

Definition compareKeys (item1 item2 : option VersionedKV) : comparison :=
  match item1, item2 with
  | None, None => Eq
  | None, Some _ => Gt
  | Some _, None => Lt
  | Some i1, Some i2 => bytes_compare (vkv_Key i1) (vkv_Key i2)
  end.

Definition serveEndKeyIfNeeded : M combinedIterator (option VersionedKV) := fun itr =>
  if negb (ci_includeEndKey itr) || ci_endKeyServed itr then (Ret None, itr) else
  match
    match Batch_Get (ci_updates itr) (ci_ns itr) (ci_endKey itr) with
    | Some vv => Ret (Some vv)
    | None => GetState (ci_db itr) (ci_ns itr) (ci_endKey itr)
    end
  with
  | Ret vv =>
      let itr := mkcombinedIterator (ci_ns itr) (ci_db itr) (ci_updates itr) (ci_endKey itr) (ci_includeEndKey itr)
        (ci_dbItr itr) (ci_updatesItr itr) (ci_dbItem itr) (ci_updatesItem itr) true in
      match vv with
      | None => (Ret None, itr)
      | Some vv =>
          let vkv := mkVersionedKV (ci_ns itr) (ci_endKey itr) (mkVersionedValue (vv_Value vv) [] (vv_Version vv)) in
          if IsDelete (vkv_Value vkv) then (Ret None, itr) else (Ret (Some vkv), itr)
      end
  | Err e => (Err e, itr)
  | Panic msg => (Panic msg, itr)
  end.

Definition move_db : M combinedIterator unit := fun itr =>
  let '(r, dbItr) := Next (ci_dbItr itr) in
  (_ ← r; Ret tt,
   mkcombinedIterator (ci_ns itr) (ci_db itr) (ci_updates itr) (ci_endKey itr) (ci_includeEndKey itr)
     dbItr (ci_updatesItr itr) (match r with Ret item => item | _ => None end) (ci_updatesItem itr) (ci_endKeyServed itr)).

Definition move_updates : M combinedIterator unit := fun itr =>
  let '(r, updatesItr) := Next (ci_updatesItr itr) in
  (_ ← r; Ret tt,
   mkcombinedIterator (ci_ns itr) (ci_db itr) (ci_updates itr) (ci_endKey itr) (ci_includeEndKey itr)
     (ci_dbItr itr) updatesItr (ci_dbItem itr) (match r with Ret item => item | _ => None end) (ci_endKeyServed itr)).

(** The item of the smaller key, the update where the keys are the same; a deleted
    key is skipped by calling [Next] again. *)
Fixpoint combined_Next (fuel : nat) : M combinedIterator (option VersionedKV) := fun itr =>
  match fuel with
  | O => (Panic "out of fuel", itr)
  | S fuel' =>
      match ci_dbItem itr, ci_updatesItem itr with
      | None, None => serveEndKeyIfNeeded itr
      | dbItem, updatesItem =>
          let '(selectedItem, moveDBItr, moveUpdatesItr) :=
            match compareKeys dbItem updatesItem with
            | Lt => (dbItem, true, false)
            | Eq => (updatesItem, true, true)
            | Gt => (updatesItem, false, true)
            end in
          (_ ← (if moveDBItr : bool then move_db else mret tt);
           _ ← (if moveUpdatesItr : bool then move_updates else mret tt);
           match selectedItem with
           | None => panic "nil pointer dereference"
           | Some item => if IsDelete (vkv_Value item) then combined_Next fuel' else mret (Some item)
           end) itr
      end
  end.

(** Every skipped item is an update. *)
Definition combinedIterator_Next : ResultsIterator combinedIterator := fun itr =>
  combined_Next (S (S (length (nsi_sortedKeys (ci_updatesItr itr))))) itr.

#[global] Existing Instance combinedIterator_Next.

(** ** Range queries *)

(** A missing version is a nil pointer. *)
Definition convertToVersionHeight (v : option Version) : outcome Height :=
  match v with
  | Some v => Ret (NewHeight (Version_BlockNum v) (Version_TxNum v))
  | None => Panic "nil pointer dereference"
  end.

Definition GetRawReads (rqInfo : RangeQueryInfo) : list KVRead :=
  match RQI_ReadsInfo rqInfo with Some (RawReads reads) => reads | _ => [] end.

Definition GetReadsMerkleHashes (rqInfo : RangeQueryInfo) : option QueryReadsMerkleSummary :=
  match RQI_ReadsInfo rqInfo with Some (ReadsMerkleHashes s) => Some s | _ => None end.

Fixpoint validate_results {I} `{!ResultsIterator I} (rqResults : list KVRead) (result : option VersionedKV) (itr : I) : outcome bool :=
  match rqResults with
  | [] => Ret (negb (is_Some_b result))
  | kvRead :: rqResults' =>
      match result with
      | None => Ret false
      | Some kv =>
          if negb (bool_decide (vkv_Key kv = KVRead_Key kvRead)) then Ret false else
          v ← convertToVersionHeight (KVRead_Version kvRead);
          if negb (AreSame (Some (vv_Version (vkv_Value kv))) (Some v)) then Ret false else
          let '(r, itr) := Next itr in
          result ← r;
          validate_results rqResults' result itr
      end
  end.

Definition rangeQueryResultsValidator_validate {I} `{!ResultsIterator I} (rqInfo : RangeQueryInfo) (itr : I) : outcome bool :=
  let '(r, itr) := Next itr in
  result ← r;
  validate_results (GetRawReads rqInfo) result itr.

Definition merkleSummariesEqual (ms : QueryReadsMerkleSummary) (anotherMS : option QueryReadsMerkleSummary) : bool :=
  match anotherMS with
  | None => false
  | Some a =>
      (QRMS_MaxDegree ms =? QRMS_MaxDegree a) && (QRMS_MaxLevel ms =? QRMS_MaxLevel a) &&
      bool_decide (QRMS_MaxLevelHashes ms = QRMS_MaxLevelHashes a)
  end.

Variable hashFunc : bytes -> outcome bytes.

(** The loop takes one round per result. *)
Fixpoint validate_hashes {I} `{!ResultsIterator I} (fuel : nat) (inMerkle : QueryReadsMerkleSummary) (resultsHelper : RangeQueryResultsHelper)
    (lastMatchedIndex : Z) (itr : I) : outcome bool :=
  match fuel with
  | O => Panic "out of fuel"
  | S fuel' =>
      let '(r, itr) := Next itr in
      result ← r;
      match result with
      | None =>
          '(_, merkle) ← Done hashFunc resultsHelper;
          Ret (merkleSummariesEqual inMerkle merkle)
      | Some kv =>
          resultsHelper ← AddResult hashFunc (NewKVRead (vkv_Key kv) (Some (vv_Version (vkv_Value kv)))) resultsHelper;
          merkle ← GetMerkleSummary resultsHelper;
          match merkle with
          | None => Panic "nil pointer dereference"
          | Some merkle =>
              if QRMS_MaxLevel merkle <? QRMS_MaxLevel inMerkle then
                validate_hashes fuel' inMerkle resultsHelper lastMatchedIndex itr else
              if lastMatchedIndex =? zlen (QRMS_MaxLevelHashes merkle) - 1 then
                validate_hashes fuel' inMerkle resultsHelper lastMatchedIndex itr else
              if zlen (QRMS_MaxLevelHashes inMerkle) <? zlen (QRMS_MaxLevelHashes merkle) then Ret false else
              let lastMatchedIndex := lastMatchedIndex + 1 in
              h ← go_index (QRMS_MaxLevelHashes merkle) (Z.to_nat lastMatchedIndex);
              h' ← go_index (QRMS_MaxLevelHashes inMerkle) (Z.to_nat lastMatchedIndex);
              if negb (bool_decide (h = h')) then Ret false else
              validate_hashes fuel' inMerkle resultsHelper lastMatchedIndex itr
          end
      end
  end.

Definition rangeQueryHashValidator_validate {I} `{!ResultsIterator I} (fuel : nat) (inMerkle : QueryReadsMerkleSummary) (itr : I) : outcome bool :=
  resultsHelper ← NewRangeQueryResultsHelper true (QRMS_MaxDegree inMerkle);
  validate_hashes fuel inMerkle resultsHelper (-1) itr.

(** ** The validator *)

(** A check of every element that stops at the first one that fails. *)
Fixpoint forall_valid {A} (f : A -> outcome bool) (l : list A) : outcome bool :=
  match l with
  | [] => Ret true
  | a :: l' => valid ← f a; if valid : bool then forall_valid f l' else Ret false
  end.

Definition validateKVRead (db : DB D) (updates : UpdateBatch) (ns : bytes) (kvRead : KVRead) : outcome bool :=
  if Batch_Exists updates ns (KVRead_Key kvRead) then Ret false else
  committedVersion ← GetVersion (db_vdb db) ns (KVRead_Key kvRead);
  Ret (AreSame committedVersion (NewVersion (KVRead_Version kvRead))).

Definition validateReadSet (db : DB D) (updates : UpdateBatch) (ns : bytes) (kvReads : list KVRead) : outcome bool :=
  forall_valid (validateKVRead db updates ns) kvReads.

Definition validateRangeQuery (fuel : nat) (db : DB D) (updates : UpdateBatch) (ns : bytes) (rangeQueryInfo : RangeQueryInfo) : outcome bool :=
  let includeEndKey := negb (RQI_ItrExhausted rangeQueryInfo) in
  combinedItr ← newCombinedIterator (db_vdb db) updates ns (RQI_StartKey rangeQueryInfo) (RQI_EndKey rangeQueryInfo) includeEndKey;
  match GetReadsMerkleHashes rangeQueryInfo with
  | Some inMerkle => rangeQueryHashValidator_validate fuel inMerkle combinedItr
  | None => rangeQueryResultsValidator_validate rangeQueryInfo combinedItr
  end.

Definition validateRangeQueries (fuel : nat) (db : DB D) (updates : UpdateBatch) (ns : bytes) (rangeQueriesInfo : list RangeQueryInfo) : outcome bool :=
  forall_valid (validateRangeQuery fuel db updates ns) rangeQueriesInfo.

Definition validateKVReadHash (db : DB D) (updates : UpdateMap) (ns coll : bytes) (kvReadHash : KVReadHash) : outcome bool :=
  if UpdateMap_Contains updates ns coll (KVReadHash_KeyHash kvReadHash) then Ret false else
  committedVersion ← GetKeyHashVersion db ns coll (KVReadHash_KeyHash kvReadHash);
  Ret (AreSame committedVersion (NewVersion (KVReadHash_Version kvReadHash))).

Definition validateCollHashedReadSet (db : DB D) (updates : UpdateMap) (ns coll : bytes) (kvReadHashes : list KVReadHash) : outcome bool :=
  forall_valid (validateKVReadHash db updates ns coll) kvReadHashes.

Definition validateNsHashedReadSets (db : DB D) (updates : UpdateMap) (ns : bytes) (collHashedRWSets : list CollHashedRwSet) : outcome bool :=
  forall_valid (fun c => validateCollHashedReadSet db updates ns (CHR_CollectionName c) (HashedRWSet_HashedReads (CHR_HashedRwSet c)))
    collHashedRWSets.

Fixpoint validateTx (fuel : nat) (db : DB D) (updates : publicAndHashUpdates) (nsRwSets : list NsRwSet) : outcome Z :=
  match nsRwSets with
  | [] => Ret TxValidationCode_VALID
  | nsRWSet :: nsRwSets' =>
      let ns := NsRwSet_NameSpace nsRWSet in
      valid ← validateReadSet db (publicUpdates updates) ns (KVRWSet_Reads (NsRwSet_KvRwSet nsRWSet));
      if negb valid then Ret TxValidationCode_MVCC_READ_CONFLICT else
      valid ← validateRangeQueries fuel db (publicUpdates updates) ns (KVRWSet_RangeQueriesInfo (NsRwSet_KvRwSet nsRWSet));
      if negb valid then Ret TxValidationCode_PHANTOM_READ_CONFLICT else
      valid ← validateNsHashedReadSets db (hashUpdates updates) ns (NsRwSet_CollHashedRwSets nsRWSet);
      if negb valid then Ret TxValidationCode_MVCC_READ_CONFLICT else
      validateTx fuel db updates nsRwSets'
  end.

Definition validateEndorserTX (fuel : nat) (db : DB D) (txRWSet : TxRwSet) (doMVCCValidation : bool) (updates : publicAndHashUpdates) : outcome Z :=
  if doMVCCValidation then validateTx fuel db updates (TxRwSet_NsRwSets txRWSet) else Ret TxValidationCode_VALID.

Definition set_code (code : Z) (tx : transaction) : transaction :=
  mktransaction (tx_indexInBlock tx) (tx_id tx) (tx_rwset tx) code (tx_containsPostOrderWrites tx).

(** The loop over the transactions: the updates, and the transactions with their codes. *)
Fixpoint validate_txs (fuel : nat) (db : DB D) (num : Z) (doMVCCValidation : bool) (updates : publicAndHashUpdates)
    (txs : list transaction) : outcome (publicAndHashUpdates * list transaction) :=
  match txs with
  | [] => Ret (updates, [])
  | tx :: txs' =>
      validationCode ← validateEndorserTX fuel db (tx_rwset tx) doMVCCValidation updates;
      updates ←
        (if validationCode =? TxValidationCode_VALID then
           applyWriteSet (tx_rwset tx) (NewHeight num (u64 (tx_indexInBlock tx))) db (tx_containsPostOrderWrites tx) updates
         else Ret updates);
      '(updates, txs') ← validate_txs fuel db num doMVCCValidation updates txs';
      Ret (updates, set_code validationCode tx :: txs')
  end.

(** Every key once, at its first occurrence. *)
Definition first_occurrences {A} `{!EqDecision A} (l : list A) : list A := reverse (remove_dups (reverse l)).

(** The keys of all read sets. *)
Definition pub_read_keys (blk : block) : list (bytes * bytes) :=
  first_occurrences (blk_txs blk ≫= fun tx => TxRwSet_NsRwSets (tx_rwset tx) ≫= fun ns =>
    (fun r => (NsRwSet_NameSpace ns, KVRead_Key r)) <$> KVRWSet_Reads (NsRwSet_KvRwSet ns)).

Definition hashed_read_keys (blk : block) : list (bytes * bytes * bytes) :=
  first_occurrences (blk_txs blk ≫= fun tx => TxRwSet_NsRwSets (tx_rwset tx) ≫= fun ns =>
    NsRwSet_CollHashedRwSets ns ≫= fun c =>
    (fun r => (NsRwSet_NameSpace ns, CHR_CollectionName c, KVReadHash_KeyHash r)) <$> HashedRWSet_HashedReads (CHR_HashedRwSet c)).

Definition preLoadCommittedVersionOfRSet (blk : block) : M (DB D) unit :=
  let pubKeys := pub_read_keys blk in
  let hashedKeys := hashed_read_keys blk in
  if (0 <? zlen pubKeys) || (0 <? zlen hashedKeys) then LoadCommittedVersionsOfPubAndHashedKeys pubKeys hashedKeys
  else mret tt.

Definition IsBulkOptimizable : bool := is_Some_b (LoadCommittedVersions (D := D)).

Definition validateAndPrepareBatch (fuel : nat) (blk : block) (doMVCCValidation : bool) : M (DB D) (publicAndHashUpdates * block) :=
  _ ← (if IsBulkOptimizable then preLoadCommittedVersionOfRSet blk else mret tt);
  db ← get_state;
  '(updates, txs) ← lift_outcome (validate_txs fuel db (blk_num blk) doMVCCValidation newPubAndHashUpdates (blk_txs blk));
  mret (updates, mkblock (blk_num blk) txs).

End Validator.
