(* ===== verification/CombinedItr.v ===== *)
(** * Range queries on the state a block is building

    The combined iterator of transaction validation gives the range of the state
    after the updates of the preceding transactions, so the two validators compare
    a recorded range query with its result on that state. *)

From S2P Require Import Prelude OrderedCode LevelDB Proto StateProto StateDB StateDBOk PrivState RwSet Validation.

(** ** Merging two sorted lists *)

Abbreviation item := (bytes * VersionedValue)%type.

Definition key_lt {A} (a b : bytes * A) : Prop := bytes_compare (fst a) (fst b) = Lt.

#[global] Instance key_lt_trans {A} : Transitive (key_lt (A := A)).
Proof. intros a b c. apply bytes_compare_lt_trans. Qed.

Lemma key_lt_irrefl {A} (a b : bytes * A) : key_lt a b -> fst a <> fst b.
Proof. unfold key_lt. intros H E. by rewrite E, bytes_compare_refl in H. Qed.

#[global] Instance key_lt_antisymm {A} : AntiSymm (=) (key_lt (A := A)).
Proof. intros a b H1 H2. by destruct (key_lt_irrefl a a (transitivity H1 H2)). Qed.

Lemma key_lt_NoDup {A} (l : list (bytes * A)) : StronglySorted key_lt l -> NoDup l.*1.
Proof.
  induction 1 as [|x l Hs IH Hf]; [constructor|]. cbn. constructor; [|done].
  intros (y & E & Hy)%list_elem_of_fmap. rewrite Forall_forall in Hf. by apply (key_lt_irrefl x y (Hf y Hy)).
Qed.

Lemma key_lt_ext {A} (l1 l2 : list (bytes * A)) :
  StronglySorted key_lt l1 -> StronglySorted key_lt l2 -> (forall x, x ∈ l1 <-> x ∈ l2) -> l1 = l2.
Proof.
  intros H1 H2 He. apply (StronglySorted_unique key_lt); [done|done|].
  apply NoDup_Permutation; [apply (NoDup_fmap_1 fst)..|done]; by apply key_lt_NoDup.
Qed.

Lemma range_scan_key_lt {A} (m : gmap bytes A) (s : bytes) (e : option bytes) : StronglySorted key_lt (range_scan m s e).
Proof.
  pose proof (range_keys_sorted m s e) as Hs. pose proof (range_keys_NoDup m s e) as Hn. rewrite <- range_scan_keys in Hs, Hn.
  induction (range_scan m s e) as [|[k v] l IH]; [constructor|]. cbn in Hs, Hn.
  apply StronglySorted_inv in Hs as [Hs Hf]. apply NoDup_cons in Hn as [Hk Hn]. constructor; [by apply IH|].
  rewrite Forall_forall in Hf. rewrite Forall_forall. intros [k' v'] Hin. apply (list_elem_of_fmap_2 fst) in Hin. cbn in Hin.
  specialize (Hf k' Hin). unfold key_lt. cbn [fst]. unfold bytes_le, bytes_leb in Hf.
  destruct (bytes_compare k k') eqn:E; [|done|done]. apply bytes_compare_eq in E as ->. done.
Qed.

(** The items of both lists in order, those of [lu] where the keys are the same,
    without delete markers. *)
Definition live_item (x : item) : list item := if IsDelete (snd x) then [] else [x].

Fixpoint comb (ld : list item) : list item -> list item :=
  fix go lu :=
    match ld, lu with
    | [], [] => []
    | [], y :: lu' => live_item y ++ go lu'
    | x :: ld', [] => live_item x ++ comb ld' []
    | x :: ld', y :: lu' =>
        match bytes_compare (fst x) (fst y) with
        | Lt => live_item x ++ comb ld' lu
        | Eq => live_item y ++ comb ld' lu'
        | Gt => live_item y ++ go lu'
        end
    end.

Lemma comb_eq (ld lu : list item) :
  comb ld lu =
    match ld, lu with
    | [], [] => []
    | [], y :: lu' => live_item y ++ comb [] lu'
    | x :: ld', [] => live_item x ++ comb ld' []
    | x :: ld', y :: lu' =>
        match bytes_compare (fst x) (fst y) with
        | Lt => live_item x ++ comb ld' lu
        | Eq => live_item y ++ comb ld' lu'
        | Gt => live_item y ++ comb ld lu'
        end
    end.
Proof. by destruct ld, lu. Qed.

Lemma live_item_elem (x y : item) : x ∈ live_item y <-> x = y /\ live (snd x) = Some (snd x).
Proof.
  unfold live_item, live. destruct (IsDelete (snd y)) eqn:E.
  - split; [by intros ?%not_elem_of_nil|]. intros [-> H]. by rewrite E in H.
  - rewrite list_elem_of_singleton. split; [intros ->; by rewrite E|by intros [-> _]].
Qed.

(** A non-empty step of [comb]: the least item and what is left. *)
Lemma comb_keys (ld lu : list item) (x : item) : x ∈ comb ld lu -> x ∈ ld \/ x ∈ lu.
Proof.
  revert lu. induction ld as [|a ld IHd]; intros lu; induction lu as [|b lu IHu]; rewrite comb_eq; [by intros ?%not_elem_of_nil| | |].
  - intros [[-> _]%live_item_elem|H]%elem_of_app; [right; left|]. apply IHu in H as [H|H]; [left|right; right]; done.
  - intros [[-> _]%live_item_elem|H]%elem_of_app; [left; left|]. apply IHd in H as [H|H]; [left; right|right]; done.
  - destruct (bytes_compare (fst a) (fst b)); intros [[-> _]%live_item_elem|H]%elem_of_app; rewrite ?elem_of_cons; auto.
    + apply IHd in H as [H|H]; auto.
    + apply IHd in H as [H|H]; rewrite ?elem_of_cons in H; tauto.
    + apply IHu in H as [H|H]; rewrite ?elem_of_cons in H; tauto.
Qed.

Lemma live_item_sorted (x : item) (l : list item) :
  StronglySorted key_lt l -> Forall (key_lt x) l -> StronglySorted key_lt (live_item x ++ l).
Proof. intros Hs Hf. unfold live_item. destruct (IsDelete (snd x)); [done|]. by constructor. Qed.

Lemma Forall_comb (P : item -> Prop) (ld lu : list item) : Forall P ld -> Forall P lu -> Forall P (comb ld lu).
Proof.
  intros Hd Hu. rewrite Forall_forall in *. intros x Hx. apply comb_keys in Hx as [Hx|Hx]; auto.
Qed.

Lemma comb_sorted (ld lu : list item) : StronglySorted key_lt ld -> StronglySorted key_lt lu -> StronglySorted key_lt (comb ld lu).
Proof.
  assert (Hlt : forall (a b : item) l, key_lt a b -> Forall (key_lt b) l -> Forall (key_lt a) l).
  { intros a b l Hab Hl. eapply Forall_impl; [exact Hl|]. intros c Hc. by transitivity b. }
  revert lu. induction ld as [|a ld IHd]; intros lu; induction lu as [|b lu IHu]; rewrite comb_eq; [done| | |]; intros Hd Hu.
  - apply StronglySorted_inv in Hu as [Hu Hb]. apply live_item_sorted; [by apply IHu|]. by apply Forall_comb.
  - apply StronglySorted_inv in Hd as [Hd Ha]. apply live_item_sorted; [by apply IHd|]. by apply Forall_comb.
  - pose proof Hd as [Hd' Ha]%StronglySorted_inv. pose proof Hu as [Hu' Hb]%StronglySorted_inv.
    destruct (bytes_compare (fst a) (fst b)) eqn:E; apply live_item_sorted.
    + by apply IHd.
    + apply Forall_comb; [|done]. apply bytes_compare_eq in E. eapply Forall_impl; [exact Ha|]. intros c. unfold key_lt. by rewrite E.
    + by apply IHd.
    + apply Forall_comb; [done|]. constructor; [done|]. by apply (Hlt a b).
    + by apply IHu.
    + assert (Hba : key_lt b a) by (unfold key_lt; by rewrite (bytes_compare_antisym (fst a)), E).
      apply (Forall_comb (key_lt b) (a :: ld) lu); [|done]. constructor; [done|]. by apply (Hlt b a).
Qed.

Lemma key_lt_notin (x : item) (l : list item) : Forall (key_lt x) l -> fst x ∉ l.*1.
Proof.
  intros Hf (y & E & Hy)%list_elem_of_fmap. rewrite Forall_forall in Hf. by apply (key_lt_irrefl x y (Hf y Hy)).
Qed.

(** What [comb] keeps: live updates, and live items that are not updated. *)
Lemma comb_elem (ld lu : list item) (x : item) :
  StronglySorted key_lt ld -> StronglySorted key_lt lu ->
  x ∈ comb ld lu <-> live (snd x) = Some (snd x) /\ (x ∈ lu \/ x ∈ ld /\ fst x ∉ lu.*1).
Proof.
  revert lu. induction ld as [|a ld IHd]; intros lu; induction lu as [|b lu IHu]; rewrite comb_eq; intros Hd Hu.
  - set_solver.
  - apply StronglySorted_inv in Hu as [Hu Hb]. rewrite elem_of_app, live_item_elem.
    rewrite (IHu Hd Hu). set_solver.
  - apply StronglySorted_inv in Hd as [Hd Ha]. rewrite elem_of_app, live_item_elem, (IHd [] Hd Hu). set_solver.
  - pose proof Hd as [Hd' Ha]%StronglySorted_inv. pose proof Hu as [Hu' Hb]%StronglySorted_inv.
    pose proof (key_lt_notin _ _ Ha) as Na. pose proof (key_lt_notin _ _ Hb) as Nb.
    destruct (bytes_compare (fst a) (fst b)) eqn:E; rewrite elem_of_app, live_item_elem.
    + apply bytes_compare_eq in E. rewrite (IHd lu Hd' Hu'). rewrite fmap_cons, !not_elem_of_cons, !elem_of_cons.
      assert (x ∈ ld -> fst x <> fst b) by (intros Hx Ex; apply Na; rewrite E, <- Ex; by apply list_elem_of_fmap_2).
      assert (x = a -> fst x = fst b) by (by intros ->). tauto.
    + rewrite (IHd (b :: lu) Hd' Hu). rewrite fmap_cons, !not_elem_of_cons, !elem_of_cons.
      assert (x = a -> fst x <> fst b) by (intros ->; by apply (key_lt_irrefl a b)).
      assert (x = a -> fst x ∉ lu.*1).
      { intros ->. apply (key_lt_notin a). eapply Forall_impl; [exact Hb|]. intros c Hc. by apply (transitivity (y := b)). }
      tauto.
    + assert (Hba : key_lt b a) by (unfold key_lt; by rewrite (bytes_compare_antisym (fst a)), E).
      rewrite (IHu Hd Hu'). rewrite fmap_cons, !not_elem_of_cons, !elem_of_cons.
      assert (x = a -> fst x <> fst b) by (intros ->; by apply not_eq_sym, (key_lt_irrefl b a)).
      assert (x ∈ ld -> fst x <> fst b).
      { intros Hx. rewrite Forall_forall in Ha. apply not_eq_sym, (key_lt_irrefl b x). by apply (transitivity Hba), Ha. }
      tauto.
Qed.

(** Merging the ranges of the state and of the updates gives the range of the
    updated state. *)
Lemma comb_range_scan (u σ : state) (ns s : bytes) (e : option bytes) :
  (forall k vv, σ !! k = Some vv -> live vv = Some vv) ->
  comb (range_scan (slice σ ns) s e) (range_scan (slice u ns) s e) = range_scan (slice (apply_updates u σ) ns) s e.
Proof.
  intros Hl. apply key_lt_ext; [apply comb_sorted; apply range_scan_key_lt|apply range_scan_key_lt|].
  intros [k v]. rewrite comb_elem by apply range_scan_key_lt. rewrite range_scan_keys, range_keys_elem, !range_scan_elem, !slice_lookup, apply_updates_lookup.
  cbn [fst snd]. generalize (bytes_leb s k = true /\ below k e = true) as P. intros P.
  destruct (u !! (ns, k)) as [w|] eqn:Eu.
  - split.
    + intros [Hv [[[= ->] HP]|[[_ HP] Hn]]]; [done|]. destruct Hn. by split.
    + intros [Hw HP]. assert (w = v) as -> by (unfold live in Hw; destruct (IsDelete w); congruence). auto.
  - split; [intros [_ [[? _]|[? _]]]; done|]. intros [Hv HP]. split; [by eapply Hl|]. right. split; [done|]. by intros [[? ?] _].
Qed.

(** ** The combined iterator *)

Definition to_kv (ns : bytes) (x : item) : VersionedKV := mkVersionedKV ns (fst x) (snd x).

Definition live_items (l : list item) : Prop := Forall (fun x => live (snd x) = Some (snd x)) l.

(** [cur] is the current item and [it] the iterator behind it, with [l] to come. *)
Definition pos {I} `{!ResultsIterator I} (ns : bytes) (l : list item) (cur : option VersionedKV) (it : I) : Prop :=
  match l with
  | [] => cur = None
  | x :: l' => cur = Some (to_kv ns x) /\ yields it (to_kv ns <$> l')
  end.

Lemma yields_pos {I} `{!ResultsIterator I} (ns : bytes) (l : list item) (it : I) :
  yields it (to_kv ns <$> l) -> exists r it', Next it = (Ret r, it') /\ pos ns l r it'.
Proof.
  intros H. destruct l as [|x l]; inversion H; subst; [by exists None, i'|]. by exists (Some (to_kv ns x)), i'.
Qed.

Lemma nsIterator_Next_keys (it : nsIterator) : nsi_sortedKeys (snd (Next it)) = nsi_sortedKeys it.
Proof. unfold Next, nsIterator_Next. by destruct (_ <=? _)%nat. Qed.

Section Combined.
Context {D : Type} {VD : VersionedDB D}.

Record at_items (c : combinedIterator) (ld lu : list item) : Prop := {
  ai_db : pos (ci_ns c) ld (ci_dbItem c) (ci_dbItr c);
  ai_updates : pos (ci_ns c) lu (ci_updatesItem c) (ci_updatesItr c);
  ai_live : live_items ld;
  ai_length : (length lu <= length (nsi_sortedKeys (ci_updatesItr c)))%nat }.

(** The parts of the iterator that moving does not change. *)
Record same_frame (c c' : combinedIterator (D := D)) : Prop := {
  sf_ns : ci_ns c' = ci_ns c;
  sf_db : ci_db c' = ci_db c;
  sf_updates : ci_updates c' = ci_updates c;
  sf_endKey : ci_endKey c' = ci_endKey c;
  sf_include : ci_includeEndKey c' = ci_includeEndKey c;
  sf_served : ci_endKeyServed c' = ci_endKeyServed c }.

#[global] Instance same_frame_refl : Reflexive same_frame.
Proof. by constructor. Qed.

#[global] Instance same_frame_trans : Transitive same_frame.
Proof. intros a b c [] []. constructor; congruence. Qed.

Lemma move_db_items (c : combinedIterator) (x : item) (ld lu : list item) :
  at_items c (x :: ld) lu -> exists c', move_db c = (Ret tt, c') /\ at_items c' ld lu /\ same_frame c c'.
Proof.
  intros [[_ Hd] Hu Hl Hn]. destruct (yields_pos _ _ _ Hd) as (r & it' & E & Hp). unfold move_db. rewrite E.
  eexists. split; [done|]. split; [|done]. constructor; [done|done| |done]. by apply Forall_cons in Hl as [_ Hl].
Qed.

Lemma move_updates_items (c : combinedIterator) (y : item) (ld lu : list item) :
  at_items c ld (y :: lu) -> exists c', move_updates c = (Ret tt, c') /\ at_items c' ld lu /\ same_frame c c'.
Proof.
  intros [Hd [_ Hu] Hl Hn]. destruct (yields_pos _ _ _ Hu) as (r & it' & E & Hp). unfold move_updates. rewrite E.
  eexists. split; [done|]. split; [|done]. constructor; [done|done|done|].
  cbn [ci_updatesItr]. pose proof (nsIterator_Next_keys (ci_updatesItr c)) as K. rewrite E in K. cbn [snd] in K. rewrite K.
  cbn [length] in Hn. lia.
Qed.

(** One call gives the first item of [comb], or goes on to the end key. *)
Lemma combined_Next_items (fuel : nat) (c : combinedIterator) (ld lu : list item) :
  at_items c ld lu -> (length lu < fuel)%nat ->
  match comb ld lu with
  | [] => exists c', combined_Next fuel c = serveEndKeyIfNeeded c' /\ at_items c' [] [] /\ same_frame c c'
  | x :: l => exists c' ld' lu', combined_Next fuel c = (Ret (Some (to_kv (ci_ns c) x)), c') /\
      at_items c' ld' lu' /\ same_frame c c' /\ comb ld' lu' = l
  end.
Proof.
  revert c ld lu. induction fuel as [|fuel IH]; intros c ld lu Hc Hf; [lia|].
  assert (Hskip : forall (y : item) c1 ld' lu', IsDelete (snd y) = true -> at_items c1 ld' lu' -> same_frame c c1 ->
    (length lu' < fuel)%nat ->
    match live_item y ++ comb ld' lu' with
    | [] => exists c', combined_Next fuel c1 = serveEndKeyIfNeeded c' /\ at_items c' [] [] /\ same_frame c c'
    | x :: l => exists c' ld'' lu'', combined_Next fuel c1 = (Ret (Some (to_kv (ci_ns c) x)), c') /\
        at_items c' ld'' lu'' /\ same_frame c c' /\ comb ld'' lu'' = l
    end).
  { intros y c1 ld' lu' Hy H1 F1 Hlen. unfold live_item. rewrite Hy. cbn [app]. specialize (IH c1 ld' lu' H1 Hlen).
    rewrite (sf_ns _ _ F1) in IH. destruct (comb ld' lu').
    - destruct IH as (c' & E & Ha & F). exists c'. split; [done|]. split; [done|]. by transitivity c1.
    - destruct IH as (c' & ld'' & lu'' & E & Ha & F & El). exists c', ld'', lu''. split; [done|]. split; [done|].
      split; [|done]. by transitivity c1. }
  cbn [combined_Next]. rewrite comb_eq. destruct ld as [|x ld], lu as [|y lu].
  - pose proof (ai_db _ _ _ Hc) as Ed. pose proof (ai_updates _ _ _ Hc) as Eu. cbn in Ed, Eu. rewrite Ed, Eu. by exists c.
  - pose proof (ai_db _ _ _ Hc) as Ed. pose proof (ai_updates _ _ _ Hc) as [Eu _]. cbn in Ed. rewrite Ed, Eu.
    destruct (move_updates_items _ _ _ _ Hc) as (c1 & E1 & H1 & F1). cbn [compareKeys]. unfold mbind, M_bind, mret, M_ret.
    rewrite E1. cbn [to_kv vkv_Value]. destruct (IsDelete (snd y)) eqn:Ey; [apply Hskip; [done..|cbn in Hf; lia]|].
    unfold live_item. rewrite Ey. by exists c1, [], lu.
  - pose proof (ai_db _ _ _ Hc) as [Ed _]. pose proof (ai_updates _ _ _ Hc) as Eu. cbn in Eu. rewrite Ed, Eu.
    destruct (move_db_items _ _ _ _ Hc) as (c1 & E1 & H1 & F1). cbn [compareKeys]. unfold mbind, M_bind, mret, M_ret.
    rewrite E1. cbn [to_kv vkv_Value]. pose proof (ai_live _ _ _ Hc) as [Hx _]%Forall_cons. unfold live in Hx.
    destruct (IsDelete (snd x)) eqn:Ex; [done|]. unfold live_item. rewrite Ex. by exists c1, ld, [].
  - pose proof (ai_db _ _ _ Hc) as [Ed _]. pose proof (ai_updates _ _ _ Hc) as [Eu _]. rewrite Ed, Eu.
    cbn [compareKeys to_kv vkv_Key]. destruct (bytes_compare (fst x) (fst y)) eqn:E.
    + destruct (move_db_items _ _ _ _ Hc) as (c1 & E1 & H1 & F1).
      destruct (move_updates_items _ _ _ _ H1) as (c2 & E2 & H2 & F2). unfold mbind, M_bind, mret, M_ret. rewrite E1, E2.
      cbn [to_kv vkv_Value]. destruct (IsDelete (snd y)) eqn:Ey.
      * apply (Hskip y c2 ld lu); [done|done|by transitivity c1|cbn in Hf; lia].
      * unfold live_item. rewrite Ey. exists c2, ld, lu. split; [done|]. split; [done|]. split; [by transitivity c1|done].
    + destruct (move_db_items _ _ _ _ Hc) as (c1 & E1 & H1 & F1). unfold mbind, M_bind, mret, M_ret. rewrite E1.
      pose proof (ai_live _ _ _ Hc) as [Hx _]%Forall_cons. unfold live in Hx. cbn [to_kv vkv_Value].
      destruct (IsDelete (snd x)) eqn:Ex; [done|]. unfold live_item. rewrite Ex. by exists c1, ld, (y :: lu).
    + destruct (move_updates_items _ _ _ _ Hc) as (c1 & E1 & H1 & F1). unfold mbind, M_bind, mret, M_ret. rewrite E1.
      cbn [to_kv vkv_Value]. destruct (IsDelete (snd y)) eqn:Ey; [apply Hskip; [done..|cbn in Hf; lia]|].
      unfold live_item. rewrite Ey. by exists c1, (x :: ld), lu.
Qed.

(** ** The range of the updated state *)

(** The end key is served last, where it is asked for and exists, without its metadata. *)
Definition end_item (σ : state) (ns endKey : bytes) (includeEndKey : bool) : list VersionedKV :=
  if includeEndKey then
    match σ !! (ns, endKey) with
    | Some vv => [mkVersionedKV ns endKey (mkVersionedValue (vv_Value vv) [] (vv_Version vv))]
    | None => []
    end
  else [].

Definition query_results (σ : state) (ns startKey endKey : bytes) (includeEndKey : bool) : list VersionedKV :=
  scan σ ns startKey endKey ++ end_item σ ns endKey includeEndKey.

Lemma scan_to_kv (σ : state) (ns s e : bytes) : scan σ ns s e = to_kv ns <$> range_scan (slice σ ns) s (limit_of e).
Proof. unfold scan. apply list_fmap_ext. by intros ? [] _. Qed.

Lemma combined_Next_end (c : combinedIterator) :
  at_items c [] [] -> Next c = serveEndKeyIfNeeded c.
Proof. intros [Ed Eu _ _]. cbn in Ed, Eu. unfold Next, combinedIterator_Next. cbn [combined_Next]. by rewrite Ed, Eu. Qed.

Context {VO : VersionedDBOk D}.

Lemma serveEndKey_yields (c : combinedIterator) (σ : state) :
  at_items c [] [] -> ci_endKeyServed c = false -> state_view (ci_db c) σ -> ns_ok (ci_ns c) ->
  (forall i, Next i = Next c -> yields i
    (end_item (apply_updates (batch_map (ci_updates c)) σ) (ci_ns c) (ci_endKey c) (ci_includeEndKey c))).
Proof.
  intros Hc Hs Hv Hn i Hi. rewrite (combined_Next_end _ Hc) in Hi. unfold serveEndKeyIfNeeded, end_item in *. rewrite Hs in Hi.
  destruct (ci_includeEndKey c) eqn:Ei; cbn [negb orb] in Hi; [|by apply yields_nil with c].
  rewrite apply_updates_lookup, batch_map_lookup.
  assert (Hend : forall c', at_items c' [] [] -> ci_endKeyServed c' = true -> yields c' []).
  { intros c' H' S'. apply yields_nil with c'. rewrite (combined_Next_end _ H'). unfold serveEndKeyIfNeeded. by rewrite S', orb_true_r. }
  destruct (Batch_Get (ci_updates c) (ci_ns c) (ci_endKey c)) as [vv|].
  - cbn [vkv_Value] in Hi. change (IsDelete (mkVersionedValue (vv_Value vv) [] (vv_Version vv))) with (IsDelete vv) in Hi.
    unfold live. destruct (IsDelete vv); [by eapply yields_nil|]. eapply yields_cons; [exact Hi|]. apply Hend; [|done]. by destruct Hc.
  - rewrite (view_GetState _ _ _ _ Hv Hn) in Hi. destruct (σ !! _) as [vv|] eqn:Eσ; [|by eapply yields_nil].
    cbn [vkv_Value] in Hi. change (IsDelete (mkVersionedValue (vv_Value vv) [] (vv_Version vv))) with (IsDelete vv) in Hi.
    pose proof (view_live _ _ _ _ Hv Eσ) as Hl. unfold live in Hl. destruct (IsDelete vv); [done|].
    eapply yields_cons; [exact Hi|]. apply Hend; [|done]. by destruct Hc.
Qed.

Lemma combined_yields (c : combinedIterator) (σ : state) (ld lu : list item) :
  at_items c ld lu -> ci_endKeyServed c = false -> state_view (ci_db c) σ -> ns_ok (ci_ns c) ->
  yields c ((to_kv (ci_ns c) <$> comb ld lu) ++
    end_item (apply_updates (batch_map (ci_updates c)) σ) (ci_ns c) (ci_endKey c) (ci_includeEndKey c)).
Proof.
  remember (comb ld lu) as l eqn:El. revert c ld lu El. induction l as [|x l IH]; intros c ld lu El Hc Hs Hv Hn.
  - pose proof (combined_Next_items (S (S (length (nsi_sortedKeys (ci_updatesItr c))))) c ld lu Hc) as H.
    rewrite <- El in H. destruct H as (c' & E & H' & F); [pose proof (ai_length _ _ _ Hc); lia|].
    cbn [fmap list_fmap app]. rewrite <- (sf_updates _ _ F), <- (sf_ns _ _ F), <- (sf_endKey _ _ F), <- (sf_include _ _ F).
    apply serveEndKey_yields; [done|by rewrite (sf_served _ _ F)|by rewrite (sf_db _ _ F)|by rewrite (sf_ns _ _ F)|].
    rewrite (combined_Next_end c') by done. exact E.
  - pose proof (combined_Next_items (S (S (length (nsi_sortedKeys (ci_updatesItr c))))) c ld lu Hc) as H.
    rewrite <- El in H. destruct H as (c' & ld' & lu' & E & H' & F & El'); [pose proof (ai_length _ _ _ Hc); lia|].
    cbn [fmap list_fmap app]. apply yields_cons with c'; [exact E|].
    rewrite <- (sf_updates _ _ F), <- (sf_ns _ _ F), <- (sf_endKey _ _ F), <- (sf_include _ _ F).
    apply (IH c' ld' lu'); [done|done|by rewrite (sf_served _ _ F)|by rewrite (sf_db _ _ F)|by rewrite (sf_ns _ _ F)].
Qed.

Lemma batch_scan_length (batch : UpdateBatch) (ns s e : bytes) :
  (length (range_scan (slice (batch_map batch) ns) s (limit_of e)) <= length (nsi_sortedKeys (GetRangeScanIterator batch ns s e)))%nat.
Proof.
  unfold GetRangeScanIterator, newNsIterator. rewrite <- (length_fmap fst), range_scan_keys.
  destruct (Updates batch !! ns) as [u|] eqn:Eu.
  - assert (slice (batch_map batch) ns = u) as ->.
    { apply map_eq. intros k. rewrite slice_lookup, batch_map_lookup. unfold Batch_Get. by rewrite Eu. }
    rewrite <- window_range, length_drop, length_take. cbn [nsi_sortedKeys]. lia.
  - assert (slice (batch_map batch) ns = ∅) as ->; [|by cbn].
    apply map_eq. intros k. rewrite slice_lookup, batch_map_lookup, lookup_empty. unfold Batch_Get. by rewrite Eu.
Qed.

Lemma newCombinedIterator_yields (d : D) (σ : state) (updates : UpdateBatch) (ns s e : bytes) (incl : bool) :
  state_view d σ -> ns_ok ns ->
  exists c, newCombinedIterator d updates ns s e incl = Ret c /\ yields c (query_results (apply_updates (batch_map updates) σ) ns s e incl).
Proof.
  intros Hv Hn. destruct (view_scan _ _ ns s e Hv Hn) as (itr & Ei & Hy). rewrite scan_to_kv in Hy.
  pose proof (GetRangeScanIterator_yields updates ns s e) as Hu. rewrite scan_to_kv in Hu.
  destruct (yields_pos _ _ _ Hy) as (r1 & i1 & E1 & P1), (yields_pos _ _ _ Hu) as (r2 & i2 & E2 & P2).
  unfold newCombinedIterator. rewrite Ei. cbn [mbind outcome_bind]. rewrite E1. cbn [mbind outcome_bind]. rewrite E2.
  cbn [mbind outcome_bind]. eexists. split; [done|]. unfold query_results. rewrite scan_to_kv, <- comb_range_scan by (intros; by eapply view_live).
  match goal with |- yields ?c _ => apply (combined_yields c σ) end; [|done..].
  constructor; [done|done| |].
  - apply Forall_forall. intros [k vv] (Hin & _)%range_scan_elem. rewrite slice_lookup in Hin. by eapply view_live.
  - cbn [ci_updatesItr]. pose proof (nsIterator_Next_keys (GetRangeScanIterator updates ns s e)) as K. rewrite E2 in K. cbn [snd] in K.
    rewrite K. apply batch_scan_length.
Qed.

End Combined.
