(* ===== verification/RangeQuery.v ===== *)
(** * Validation of range queries

    The two validators of rangequery_validator.go decide whether a recorded range
    query still has the recorded results: the raw one compares the results one by
    one, the hash one compares summaries and gives up at the first difference. *)

From S2P Require Import Prelude OrderedCode LevelDB Sha256 Proto StateProto StateDB StateDBOk PrivState RwSet RwSetOk Validation CombinedItr.

(** What a query records of a result. *)
Definition read_of (kv : VersionedKV) : KVRead := NewKVRead (vkv_Key kv) (Some (vv_Version (vkv_Value kv))).

(** ** Raw results *)

Definition has_version (r : KVRead) : Prop := is_Some (KVRead_Version r).

Lemma validate_results_ok {I} `{!ResultsIterator I} (reads : list KVRead) (l : list VersionedKV) (itr itr' : I) (r : option VersionedKV) :
  Forall has_version reads -> yields itr l -> Next itr = (Ret r, itr') ->
  validate_results reads r itr' = Ret (bool_decide (read_of <$> l = reads)).
Proof.
  intros Hr. revert l itr itr' r. induction Hr as [|x reads [v Hv] Hr IH]; intros l itr itr' r Hy E.
  - destruct Hy as [i i' E'|i i' kv l' E' Hy']; rewrite E' in E; injection E as <- <-; by cbn.
  - cbn [validate_results]. destruct Hy as [i i' E'|i i' kv l' E' Hy']; rewrite E' in E; injection E as <- <-; [done|].
    rewrite Hv. cbn [convertToVersionHeight mbind outcome_bind]. destruct x as [k ov]. cbn [KVRead_Key KVRead_Version] in *. subst ov.
    case_bool_decide as Ek; cbn [negb].
    2:{ rewrite bool_decide_eq_false_2; [done|]. intros [= E1 _ _]. by apply Ek. }
    destruct (AreSame _ _) eqn:Es; cbn [negb].
    2:{ rewrite bool_decide_eq_false_2; [done|]. intros [= E1 E2 E3].
        assert (AreSame (Some (vv_Version (vkv_Value kv))) (Some (NewHeight (Version_BlockNum v) (Version_TxNum v))) = true); [|congruence].
        apply AreSame_eq. f_equal. subst v. by destruct (vv_Version (vkv_Value kv)). }
    apply AreSame_eq in Es. injection Es as Es.
    assert (Ex : read_of kv = mkKVRead k (Some v)).
    { unfold read_of, NewKVRead. rewrite Ek, Es. by destruct v. }
    assert (Hn : exists r2 itr2, Next i' = (Ret r2, itr2)) by (destruct Hy'; eauto).
    destruct Hn as (r2 & itr2 & En). rewrite En. cbn [mbind outcome_bind]. rewrite (IH l' i' itr2 r2 Hy' En). f_equal.
    cbn [fmap list_fmap]. rewrite Ex. apply bool_decide_ext. split; [by intros ->|by intros [= ->]].
Qed.

Lemma rangeQueryResultsValidator_ok {I} `{!ResultsIterator I} (rq : RangeQueryInfo) (l : list VersionedKV) (itr : I) :
  Forall has_version (GetRawReads rq) -> yields itr l ->
  rangeQueryResultsValidator_validate rq itr = Ret (bool_decide (read_of <$> l = GetRawReads rq)).
Proof.
  intros Hr Hy. unfold rangeQueryResultsValidator_validate.
  assert (Hn : exists r itr', Next itr = (Ret r, itr')) by (destruct Hy; eauto). destruct Hn as (r & itr' & E). rewrite E.
  cbn [mbind outcome_bind]. by apply (validate_results_ok _ _ itr).
Qed.

(** ** Summaries *)

Lemma merkleSummariesEqual_spec (ms : QueryReadsMerkleSummary) (s : option QueryReadsMerkleSummary) :
  merkleSummariesEqual ms s = true <-> s = Some ms.
Proof.
  unfold merkleSummariesEqual. destruct s as [[d l h]|], ms as [d' l' h']; cbn; [|done].
  rewrite !andb_true_iff, !Z.eqb_eq, bool_decide_eq_true. naive_solver.
Qed.

Section Hashes.
Context {SP : StateProtos}.
Variable hashFunc : bytes -> outcome bytes.
Hypothesis hash_total : forall b, exists h, hashFunc b = Ret h.

(** What the loop has compared so far. *)
Inductive compared (inMerkle : QueryReadsMerkleSummary) (m : merkleTree) (i : Z) : Prop :=
| compared_not_yet : mt_maxLevel m < QRMS_MaxLevel inMerkle -> i = -1 -> compared inMerkle m i
| compared_all : QRMS_MaxLevel inMerkle <= mt_maxLevel m -> i = zlen (top m) - 1 ->
    zlen (top m) <= zlen (QRMS_MaxLevelHashes inMerkle) -> compared inMerkle m i.

(** A tree that has grown beyond the recorded summary cannot come back to it. *)
Lemma beyond_differs (inMerkle : QueryReadsMerkleSummary) (lv : Z) (hs : list bytes) (s : option QueryReadsMerkleSummary) :
  match s with None => True | Some s => top_le lv hs (QRMS_MaxLevel s) (QRMS_MaxLevelHashes s) end ->
  QRMS_MaxLevel inMerkle <= lv ->
  (QRMS_MaxLevel inMerkle < lv \/ ~ hs `prefix_of` QRMS_MaxLevelHashes inMerkle) ->
  merkleSummariesEqual inMerkle s = false.
Proof.
  intros Hs Hl Hd. apply not_true_iff_false. rewrite merkleSummariesEqual_spec. intros ->. destruct Hs as [|[? ?]]; [lia|].
  destruct Hd; [lia|done].
Qed.

Definition hash_outcome (inMerkle : QueryReadsMerkleSummary) (s : option QueryReadsMerkleSummary) (o : outcome bool) : Prop :=
  o = Ret (merkleSummariesEqual inMerkle s) \/
  merkleSummariesEqual inMerkle s = false /\ QRMS_MaxDegree inMerkle <= zlen (QRMS_MaxLevelHashes inMerkle) /\ is_panic o = true.

Lemma prefix_zlen {A} (l k : list A) : l `prefix_of` k -> zlen l <= zlen k.
Proof. intros H. apply prefix_length in H. unfold zlen. lia. Qed.

(** One more hash at the compared level, after the hashes [old]: it is compared, or
    there are too many; [k] is the rest of the loop. *)
Lemma compare_next (inMerkle : QueryReadsMerkleSummary) (m : merkleTree) (old : list bytes) (x : bytes) (i : Z)
    (s : option QueryReadsMerkleSummary) (k : Z -> outcome bool) :
  top m = old ++ [x] -> i = zlen old - 1 -> QRMS_MaxLevel inMerkle <= mt_maxLevel m ->
  match s with None => True | Some s => top_le (mt_maxLevel m) (top m) (QRMS_MaxLevel s) (QRMS_MaxLevelHashes s) end ->
  (forall j, compared inMerkle m j -> hash_outcome inMerkle s (k j)) ->
  hash_outcome inMerkle s
    (if i =? zlen (top m) - 1 then k i else
     if zlen (QRMS_MaxLevelHashes inMerkle) <? zlen (top m) then Ret false else
     h ← go_index (top m) (Z.to_nat (i + 1));
     h' ← go_index (QRMS_MaxLevelHashes inMerkle) (Z.to_nat (i + 1));
     if negb (bool_decide (h = h')) then Ret false else k (i + 1)).
Proof.
  intros Et Hi Hge Hle Hgo. assert (El : zlen (top m) = zlen old + 1) by (rewrite Et, zlen_app; done).
  assert (Ei : Z.to_nat (i + 1) = length old) by (unfold zlen in Hi; lia).
  assert (Ex : top m !! length old = Some x) by (by rewrite Et, list_lookup_middle).
  rewrite (proj2 (Z.eqb_neq _ _)) by lia. destruct (Z.ltb_spec (zlen (QRMS_MaxLevelHashes inMerkle)) (zlen (top m))) as [Hx|Hx].
  { left. f_equal. symmetry. apply (beyond_differs _ _ _ _ Hle); [done|]. right. intros Hp%prefix_zlen. lia. }
  rewrite Ei. unfold go_index. rewrite Ex. cbn [mbind outcome_bind].
  destruct (lookup_lt_is_Some_2 (QRMS_MaxLevelHashes inMerkle) (length old)) as [y Ey]; [unfold zlen in *; lia|].
  rewrite Ey. cbn [mbind outcome_bind]. case_bool_decide as Exy; cbn [negb].
  - apply Hgo. right; [done|lia|lia].
  - left. f_equal. symmetry. apply (beyond_differs _ _ _ _ Hle); [done|]. right. intros [t Ht]. apply Exy.
    rewrite Ht, (lookup_app_l_Some _ _ _ _ Ex) in Ey. congruence.
Qed.

Lemma validate_hashes_ok {I} `{!ResultsIterator I} (inMerkle : QueryReadsMerkleSummary) (l : list VersionedKV) (fuel : nat)
    (h h' : RangeQueryResultsHelper) (m : merkleTree) (i : Z) (itr : I) (rs : list KVRead) (s : option QueryReadsMerkleSummary) :
  yields itr l -> (length l < fuel)%nat -> helper_ok h m -> mt_maxDegree m = QRMS_MaxDegree inMerkle -> compared inMerkle m i ->
  foldM (AddResult hashFunc) (read_of <$> l) h = Ret h' -> Done hashFunc h' = Ret (rs, s) ->
  hash_outcome inMerkle s (validate_hashes hashFunc fuel inMerkle h i itr).
Proof.
  intros Hy. revert fuel h m i. induction Hy as [itr itr' E|itr itr' kv l E Hy IH]; intros fuel h m i Hf Hh Ed Hc Efold Edone.
  { destruct fuel as [|fuel]; [cbn in Hf; lia|]. cbn [validate_hashes]. rewrite E. cbn [mbind outcome_bind].
    cbn in Efold. injection Efold as ->. rewrite Edone. by left. }
  destruct fuel as [|fuel]; [lia|]. cbn [validate_hashes]. rewrite E. cbn [mbind outcome_bind].
  cbn [fmap list_fmap foldM] in Efold. fold (read_of kv).
  destruct (AddResult_ok hashFunc hash_total (read_of kv) h m Hh) as (h1 & m1 & E1 & Hh1 & Hs & Ed1). rewrite E1 in Efold |- *.
  cbn [mbind outcome_bind] in Efold |- *. unfold GetMerkleSummary, get_mt. rewrite (hk_enabled _ _ Hh1), (hk_mt _ _ Hh1).
  cbn [negb mbind outcome_bind getSummery QRMS_MaxLevel QRMS_MaxLevelHashes]. fold (top m1).
  assert (Hle : match s with None => True | Some s => top_le (mt_maxLevel m1) (top m1) (QRMS_MaxLevel s) (QRMS_MaxLevelHashes s) end).
  { destruct (AddResults_ok hashFunc hash_total (read_of <$> l) h1 m1 Hh1) as (h2 & m2 & E2 & Hh2 & Hle2 & _).
    rewrite Efold in E2. injection E2 as <-. destruct (Done_ok hashFunc hash_total h' m2 Hh2) as (rs' & s' & E3 & H3).
    rewrite Edone in E3. injection E3 as <- <-. destruct s as [s|]; [|done]. destruct H3 as [H3 _].
    destruct Hle2 as [?|[? ?]], H3 as [?|[? ?]]; [left; lia..|]. right. split; [lia|]. by transitivity (top m2). }
  cbn [length] in Hf.
  assert (Hgo : forall j, compared inMerkle m1 j -> hash_outcome inMerkle s (validate_hashes hashFunc fuel inMerkle h1 j itr')).
  { intros j Hj. apply (IH fuel h1 m1 j); [lia|done|congruence|done|done|done]. }
  destruct (Z.ltb_spec (mt_maxLevel m1) (QRMS_MaxLevel inMerkle)) as [Hlt|Hge].
  { apply Hgo. left; [done|]. destruct Hc as [_ Hi|H _ _]; [done|]. destruct (top_step_le _ _ Hs) as [?|[? _]]; lia. }
  destruct Hc as [Hn Hi|Hl Hi Hb].
  - (* the level has just been reached *)
    destruct Hs as [E2 Et|x E2 Et|x E2 Et _]; [lia|lia|].
    apply (compare_next inMerkle m1 [] x i s (fun j => validate_hashes hashFunc fuel inMerkle h1 j itr')); done.
  - destruct Hs as [E2 Et|x E2 Et|x E2 Et Hfull].
    + rewrite (proj2 (Z.eqb_eq i _)) by (rewrite Et; lia). apply Hgo. right; [done|by rewrite Et|by rewrite Et].
    + apply (compare_next inMerkle m1 (top m) x i s (fun j => validate_hashes hashFunc fuel inMerkle h1 j itr')); done.
    + (* the level rises above the recorded one *)
      pose proof (tk_degree _ (hk_tree _ _ Hh)) as [Hd2 _]. subst i. rewrite Et. change (zlen [x]) with 1.
      rewrite (proj2 (Z.eqb_neq _ _)) by lia. rewrite (proj2 (Z.ltb_ge _ _)) by lia. right.
      split; [apply (beyond_differs _ _ _ _ Hle); [done|left; lia]|]. split; [lia|].
      assert (go_index [x] (Z.to_nat (zlen (top m) - 1 + 1)) = Panic "index out of range") as ->; [|done].
      unfold go_index. rewrite lookup_ge_None_2; [done|]. cbn [length]. lia.
Qed.

(** The summary of an unfinished tree. *)
Lemma helper_summary (h : RangeQueryResultsHelper) (m : merkleTree) : helper_ok h m -> GetMerkleSummary h = Ret (Some (getSummery m)).
Proof. intros Hh. unfold GetMerkleSummary, get_mt. by rewrite (hk_enabled _ _ Hh), (hk_mt _ _ Hh). Qed.

(** The level rises with the hashes compared so far all equal. *)
Lemma validate_hashes_panics {I} `{!ResultsIterator I} (inMerkle : QueryReadsMerkleSummary) (l1 l2 : list VersionedKV) (kv : VersionedKV) (fuel : nat)
    (h h1 h2 : RangeQueryResultsHelper) (m m1 m2 : merkleTree) (i : Z) (itr : I) :
  yields itr (l1 ++ kv :: l2) -> (length l1 < fuel)%nat -> helper_ok h m -> compared inMerkle m i ->
  foldM (AddResult hashFunc) (read_of <$> l1) h = Ret h1 -> helper_ok h1 m1 -> mt_maxLevel m1 = QRMS_MaxLevel inMerkle -> top m1 `prefix_of` QRMS_MaxLevelHashes inMerkle ->
  AddResult hashFunc (read_of kv) h1 = Ret h2 -> helper_ok h2 m2 -> mt_maxLevel m1 < mt_maxLevel m2 ->
  is_panic (validate_hashes hashFunc fuel inMerkle h i itr) = true.
Proof.
  revert fuel h m i itr. induction l1 as [|kv1 l1 IH]; intros fuel h m i itr Hy Hf Hh Hc E1 Hh1 Hlv Hpre E2 Hh2 Hrise;
    cbn [app] in Hy; inversion Hy as [|? itr' ? ? En Hy']; subst; (destruct fuel as [|fuel]; [cbn in Hf; lia|]); cbn [validate_hashes]; rewrite En; cbn [mbind outcome_bind].
  - injection E1 as ->. fold (read_of kv). rewrite E2. cbn [mbind outcome_bind]. rewrite (helper_summary _ _ Hh2). cbn [mbind outcome_bind getSummery QRMS_MaxLevel QRMS_MaxLevelHashes].
    fold (top m2). assert (m = m1) as -> by (pose proof (hk_mt _ _ Hh); pose proof (hk_mt _ _ Hh1); congruence). destruct Hc as [?|_ -> _]; [lia|].
    destruct (AddResult_ok hashFunc hash_total (read_of kv) h1 m1 Hh1) as (h2' & m2' & E2' & Hh2' & Hs & _). rewrite E2 in E2'. injection E2' as <-.
    assert (m2' = m2) as -> by (pose proof (hk_mt _ _ Hh2); pose proof (hk_mt _ _ Hh2'); congruence). destruct Hs as [?|?|x _ Et Hfull]; [lia..|].
    pose proof (tk_degree _ (hk_tree _ _ Hh1)) as [Hd2 _]. apply prefix_zlen in Hpre. rewrite (proj2 (Z.ltb_ge _ _)) by lia. rewrite Et. change (zlen [x]) with 1.
    rewrite (proj2 (Z.eqb_neq _ _)) by lia. rewrite (proj2 (Z.ltb_ge _ _)) by lia.
    assert (go_index [x] (Z.to_nat (zlen (top m1) - 1 + 1)) = Panic "index out of range") as ->; [|done].
    unfold go_index. rewrite lookup_ge_None_2; [done|]. cbn [length]. lia.
  - cbn [fmap list_fmap foldM] in E1. fold (read_of kv1). destruct (AddResult_ok hashFunc hash_total (read_of kv1) h m Hh) as (h0 & m0 & E0 & Hh0 & Hs & _).
    rewrite E0 in E1 |- *. cbn [mbind outcome_bind] in E1 |- *. rewrite (helper_summary _ _ Hh0). cbn [mbind outcome_bind getSummery QRMS_MaxLevel QRMS_MaxLevelHashes]. fold (top m0).
    destruct (AddResults_ok hashFunc hash_total (read_of <$> l1) h0 m0 Hh0) as (h1' & m1' & E1' & Hh1' & Hle & _). rewrite E1 in E1'. injection E1' as <-.
    assert (m1' = m1) as -> by (pose proof (hk_mt _ _ Hh1); pose proof (hk_mt _ _ Hh1'); congruence). cbn [length] in Hf.
    assert (Hgo : forall j, compared inMerkle m0 j -> is_panic (validate_hashes hashFunc fuel inMerkle h0 j itr') = true) by (intros j Hj; by apply (IH fuel h0 m0 j itr'); [|lia|..]).
    clear IH. destruct (Z.ltb_spec (mt_maxLevel m0) (QRMS_MaxLevel inMerkle)) as [Hlt|Hge].
    { apply Hgo. left; [done|]. destruct Hc as [_ Hi|? _ _]; [done|]. destruct (top_step_le _ _ Hs) as [?|[? _]]; lia. }
    destruct Hle as [?|[Hl0 Hp0]]; [lia|]. assert (Hp : top m0 `prefix_of` QRMS_MaxLevelHashes inMerkle) by (by transitivity (top m1)). pose proof (prefix_zlen _ _ Hp) as Hz.
    assert (Hstep : forall old x, top m0 = old ++ [x] -> i = zlen old - 1 -> is_panic
      (if i =? zlen (top m0) - 1 then validate_hashes hashFunc fuel inMerkle h0 i itr' else
       if zlen (QRMS_MaxLevelHashes inMerkle) <? zlen (top m0) then Ret false else
       a ← go_index (top m0) (Z.to_nat (i + 1)); b ← go_index (QRMS_MaxLevelHashes inMerkle) (Z.to_nat (i + 1));
       if negb (bool_decide (a = b)) then Ret false else validate_hashes hashFunc fuel inMerkle h0 (i + 1) itr') = true).
    { intros old x Et Hi. assert (El : zlen (top m0) = zlen old + 1) by (rewrite Et, zlen_app; done). rewrite (proj2 (Z.eqb_neq _ _)), (proj2 (Z.ltb_ge _ _)) by lia.
      replace (Z.to_nat (i + 1)) with (length old) by (unfold zlen in Hi; lia). unfold go_index.
      assert (Ex : top m0 !! length old = Some x) by (by rewrite Et, list_lookup_middle). rewrite Ex, (prefix_lookup_Some _ _ _ _ Ex Hp). cbn [mbind outcome_bind].
      rewrite bool_decide_eq_true_2 by done. cbn [negb]. apply Hgo. right; lia. }
    destruct Hc as [Hn ->|Hl -> Hb].
    + destruct Hs as [? _|x ? _|x _ Et _]; [lia|lia|]. by apply (Hstep [] x).
    + destruct Hs as [_ Et|x _ Et|x ? _ _]; [|by apply (Hstep (top m) x)|lia].
      rewrite Et, Z.eqb_refl. apply Hgo. right; [done|by rewrite Et|by rewrite Et].
Qed.

(** With enough fuel the hash validator gives the comparison of the recorded summary
    with that of the current results; it can panic only where they differ and the
    recorded level is full. *)
Lemma rangeQueryHashValidator_ok {I} `{!ResultsIterator I} (fuel : nat) (inMerkle : QueryReadsMerkleSummary) (l : list VersionedKV) (itr : I) :
  degree_ok (QRMS_MaxDegree inMerkle) -> yields itr l -> (length l < fuel)%nat ->
  exists s, summarize hashFunc (QRMS_MaxDegree inMerkle) (read_of <$> l) = Ret s /\
    hash_outcome inMerkle s (rangeQueryHashValidator_validate hashFunc fuel inMerkle itr).
Proof.
  intros Hd Hy Hf. unfold summarize, rangeQueryHashValidator_validate.
  destruct (helper_new _ Hd) as (h & m & -> & Hh & Em & El & Et). cbn [mbind outcome_bind].
  destruct (AddResults_ok hashFunc hash_total (read_of <$> l) h m Hh) as (h' & m' & E1 & Hh' & _).
  destruct (Done_ok hashFunc hash_total h' m' Hh') as (rs & s & E2 & _). exists s. rewrite E1. cbn [mbind outcome_bind]. rewrite E2.
  split; [done|]. apply (validate_hashes_ok inMerkle l fuel h h' m (-1) itr rs s); [done|done|done|done| |done|done].
  destruct (decide (1 < QRMS_MaxLevel inMerkle)); [left; [lia|done]|right; [lia|by rewrite Et|]].
  rewrite Et, zlen_nil. apply zlen_nonneg.
Qed.

End Hashes.
