(* ===== verification/Serial.v ===== *)
(** * Serial execution

    The reference for transaction validation: a transaction's writes applied to the
    state one after the other, and what it means that a transaction has read the
    current state.  [prepareTxOps] collapses the writes to one operation per key;
    the second half of the file shows that the operations have the same effect. *)

From S2P Require Import Prelude OrderedCode LevelDB Sha256 Proto StateProto StateDB StateDBOk PrivState PrivStateOk RwSet RwSetOk Validation CombinedItr RangeQuery.

(** ** Writes *)

(** Set a value, delete the key, set the metadata or delete it. *)
Inductive write : Type :=
| WValue (v : bytes)
| WDelete
| WMetadata (md : option bytes).

#[global] Instance write_eq_dec : EqDecision write.
Proof. solve_decision. Defined.

Definition is_metadata (w : write) : bool := match w with WMetadata _ => true | _ => false end.

(** A collection that is not named is the public data. *)
Definition key_of (ck : compositeKey) : data_key :=
  let '(ns, coll, key) := ck in if bool_decide (coll = []) then PubKey ns key else HashKey ns coll key.

Lemma key_of_inj (a b : compositeKey) : key_of a = key_of b -> a = b.
Proof. destruct a as [[n c] k], b as [[n' c'] k']. cbn. repeat case_bool_decide; subst; congruence. Qed.

Lemma key_of_not_pvt (ck : compositeKey) : is_pvt (key_of ck) = false.
Proof. destruct ck as [[n c] k]. cbn. by case_bool_decide. Qed.

Definition write_of (w : KVWrite) : write := if KVWrite_IsDelete w then WDelete else WValue (KVWrite_Value w).

Section Writes.
Context {SP : StateProtos}.

Definition metadata_write_of (entries : list KVMetadataEntry) : write :=
  WMetadata (match entries with [] => None | _ => Some (Serialize entries) end).

Definition coll_writes (ns : bytes) (c : CollHashedRwSet) : list (compositeKey * write) :=
  let coll := CHR_CollectionName c in
  ((fun w => ((ns, coll, KVWriteHash_KeyHash w),
      write_of (mkKVWrite (KVWriteHash_KeyHash w) (KVWriteHash_IsDelete w) (KVWriteHash_ValueHash w))))
    <$> HashedRWSet_HashedWrites (CHR_HashedRwSet c)) ++
  ((fun w => ((ns, coll, KVMetadataWriteHash_KeyHash w), metadata_write_of (KVMetadataWriteHash_Entries w)))
    <$> HashedRWSet_MetadataWrites (CHR_HashedRwSet c)).

Definition ns_writes (n : NsRwSet) : list (compositeKey * write) :=
  let ns := NsRwSet_NameSpace n in
  ((fun w => ((ns, [], KVWrite_Key w), write_of w)) <$> KVRWSet_Writes (NsRwSet_KvRwSet n)) ++
  ((fun w => ((ns, [], KVMetadataWrite_Key w), metadata_write_of (KVMetadataWrite_Entries w))) <$> KVRWSet_MetadataWrites (NsRwSet_KvRwSet n)) ++
  (NsRwSet_CollHashedRwSets n ≫= coll_writes ns).

Definition tx_writes (rwset : TxRwSet) : list (compositeKey * write) := TxRwSet_NsRwSets rwset ≫= ns_writes.

End Writes.

(** The effect of one write on what is stored at a key. *)
Definition write_value (h : Height) (w : write) (cur : option VersionedValue) : option VersionedValue :=
  match w with
  | WValue v => Some (mkVersionedValue (Some v) (metadata_of cur) h)
  | WDelete => None
  | WMetadata md => match cur with Some vv => Some (mkVersionedValue (vv_Value vv) (default [] md) h) | None => None end
  end.

Section Exec.
Context {D : Type} {VD : VersionedDB D}.

Definition exec_write (h : Height) (x : compositeKey * write) (σ : state) : state :=
  partial_alter (write_value h (snd x)) (loc (D := D) (key_of (fst x))) σ.

Definition exec_writes (h : Height) (l : list (compositeKey * write)) (σ : state) : state :=
  fold_left (fun σ x => exec_write h x σ) l σ.

Definition keys_ok (l : list (compositeKey * write)) : Prop := Forall (fun x => dk_ok (key_of (fst x))) l.

(** A key has at most one value or deletion and at most one metadata write, in this
    order, and values are not empty. *)
Fixpoint writes_ordered (l : list (compositeKey * write)) : bool :=
  match l with
  | [] => true
  | (ck, w) :: l' =>
      (if is_metadata w then forallb (fun x => negb (bool_decide (fst x = ck))) l'
       else forallb (fun x => negb (bool_decide (fst x = ck)) || is_metadata (snd x)) l') &&
      match w with WValue [] => false | _ => true end && writes_ordered l'
  end.

(** ** Locality: a key depends on its own writes only *)

Definition writes_at (ck : compositeKey) (l : list (compositeKey * write)) : list write :=
  snd <$> filter (fun x => fst x = ck) l.

Lemma writes_at_cons (ck : compositeKey) (x : compositeKey * write) (l : list (compositeKey * write)) :
  writes_at ck (x :: l) = (if decide (fst x = ck) then [snd x] else []) ++ writes_at ck l.
Proof. unfold writes_at. rewrite filter_cons. by destruct (decide _). Qed.

Lemma exec_at (h : Height) (l : list (compositeKey * write)) (σ : state) (ck : compositeKey) :
  keys_ok l -> dk_ok (key_of ck) ->
  exec_writes h l σ !! loc (D := D) (key_of ck) = fold_left (fun cur w => write_value h w cur) (writes_at ck l) (σ !! loc (D := D) (key_of ck)).
Proof.
  intros Hl Hk. revert σ. induction Hl as [|x l Hx Hl IH]; intros σ; [done|]. rewrite writes_at_cons, fold_left_app.
  unfold exec_writes. cbn [fold_left]. fold (exec_writes h l (exec_write h x σ)). rewrite IH. f_equal.
  unfold exec_write. destruct (decide (fst x = ck)) as [<-|Hne]; cbn [fold_left].
  - by rewrite lookup_partial_alter_eq.
  - rewrite lookup_partial_alter_ne; [done|]. intros E. apply Hne, key_of_inj.
    apply (loc_inj (D := D)); [by destruct Hx|by destruct Hk|done].
Qed.

Lemma exec_other (h : Height) (l : list (compositeKey * write)) (σ : state) (k : bytes * bytes) :
  (forall x, x ∈ l -> loc (D := D) (key_of (fst x)) <> k) -> exec_writes h l σ !! k = σ !! k.
Proof.
  revert σ. induction l as [|x l IH]; intros σ H; [done|]. unfold exec_writes. cbn [fold_left].
  fold (exec_writes h l (exec_write h x σ)). rewrite IH by (intros; apply H; by right).
  unfold exec_write. apply lookup_partial_alter_ne, H. by left.
Qed.

End Exec.

(** The writes of a key are a value, or a deletion, or metadata, or one of the
    first two followed by metadata. *)
Inductive key_writes : list write -> Prop :=
| kw_none : key_writes []
| kw_value (v : bytes) : v <> [] -> key_writes [WValue v]
| kw_delete : key_writes [WDelete]
| kw_metadata (md : option bytes) : key_writes [WMetadata md]
| kw_value_metadata (v : bytes) (md : option bytes) : v <> [] -> key_writes [WValue v; WMetadata md]
| kw_delete_metadata (md : option bytes) : key_writes [WDelete; WMetadata md].

Lemma writes_at_none (ck : compositeKey) (l : list (compositeKey * write)) :
  forallb (fun x => negb (bool_decide (fst x = ck))) l = true -> writes_at ck l = [].
Proof.
  induction l as [|x l IH]; [done|]. cbn [forallb]. rewrite andb_true_iff, negb_true_iff, bool_decide_eq_false. intros [Hx Hl].
  by rewrite writes_at_cons, decide_False, IH.
Qed.

Lemma writes_at_metadata (ck : compositeKey) (l : list (compositeKey * write)) :
  forallb (fun x => negb (bool_decide (fst x = ck)) || is_metadata (snd x)) l = true ->
  Forall (fun w => is_metadata w = true) (writes_at ck l).
Proof.
  induction l as [|x l IH]; [constructor|]. cbn [forallb]. rewrite andb_true_iff, orb_true_iff, negb_true_iff, bool_decide_eq_false.
  intros [Hx Hl]. rewrite writes_at_cons. destruct (decide _) as [E|E]; cbn [app]; [|by apply IH].
  constructor; [|by apply IH]. by destruct Hx.
Qed.

Lemma key_writes_ok (ck : compositeKey) (l : list (compositeKey * write)) : writes_ordered l = true -> key_writes (writes_at ck l).
Proof.
  induction l as [|[ck' w] l IH]; [constructor|]. cbn [writes_ordered]. rewrite !andb_true_iff. intros [[H1 H2] H3].
  specialize (IH H3). rewrite writes_at_cons. cbn [fst snd]. destruct (decide (ck' = ck)) as [->|Hne]; [|done]. cbn [app].
  destruct w as [v| |md]; cbn [is_metadata] in H1.
  - apply writes_at_metadata in H1. assert (v <> []) by (by intros ->).
    destruct IH as [|v' Hv'| |md|v' md Hv'|md]; try (by apply Forall_cons in H1 as [? _]); by constructor.
  - apply writes_at_metadata in H1.
    destruct IH as [|v' Hv'| |md|v' md Hv'|md]; try (by apply Forall_cons in H1 as [? _]); by constructor.
  - rewrite writes_at_none by done. constructor.
Qed.

(** ** Operations have the effect of the writes *)

Section Ops.
Context {SP : StateProtos}.

Definition apply_write (txops : txOps) (x : compositeKey * write) : txOps :=
  let '(ck, w) := x in
  match w with
  | WValue v => txOps_upsert ck (bytes_or_nil v) txops
  | WDelete => txOps_delete ck txops
  | WMetadata (Some md) => txOps_metadataUpdate ck md txops
  | WMetadata None => txOps_metadataDelete ck txops
  end.

Lemma fold_left_bind {A B C} (f : A -> B -> A) (g : C -> list B) (l : list C) (a : A) :
  fold_left f (l ≫= g) a = fold_left (fun a c => fold_left f (g c) a) l a.
Proof. revert a. induction l as [|c l IH]; intros a; [done|]. cbn [mbind list_bind]. rewrite fold_left_app. apply IH. Qed.

Lemma fold_left_fmap {A B C} (f : A -> B -> A) (g : C -> B) (l : list C) (a : A) :
  fold_left f (g <$> l) a = fold_left (fun a c => f a (g c)) l a.
Proof. revert a. induction l as [|c l IH]; intros a; [done|]. apply IH. Qed.

Lemma fold_left_ext {A B} (f g : A -> B -> A) (l : list B) (a : A) :
  (forall a b, f a b = g a b) -> fold_left f l a = fold_left g l a.
Proof. intros H. revert a. induction l as [|b l IH]; intros a; [done|]. cbn. rewrite H. apply IH. Qed.

Lemma applyKVWrite_write (ns coll : bytes) (w : KVWrite) (txops : txOps) :
  applyKVWrite ns coll w txops = apply_write txops ((ns, coll, KVWrite_Key w), write_of w).
Proof. unfold applyKVWrite, write_of. by destruct (KVWrite_IsDelete w). Qed.

Lemma applyMetadata_write (ns coll : bytes) (w : KVMetadataWrite) (txops : txOps) :
  applyMetadata ns coll w txops = apply_write txops ((ns, coll, KVMetadataWrite_Key w), metadata_write_of (KVMetadataWrite_Entries w)).
Proof. unfold applyMetadata, metadata_write_of. by destruct (KVMetadataWrite_Entries w). Qed.

Lemma applyTxRwset_writes (rwset : TxRwSet) (txops : txOps) :
  applyTxRwset rwset txops = fold_left apply_write (tx_writes rwset) txops.
Proof.
  unfold applyTxRwset, tx_writes. rewrite fold_left_bind. apply fold_left_ext. clear txops. intros txops n.
  unfold apply_ns, ns_writes. rewrite !fold_left_app, !fold_left_fmap, fold_left_bind.
  rewrite (fold_left_ext _ (fun a c => apply_write a ((NsRwSet_NameSpace n, [], KVWrite_Key c), write_of c))) by (intros; apply applyKVWrite_write).
  rewrite (fold_left_ext _ (fun a c => apply_write a ((NsRwSet_NameSpace n, [], KVMetadataWrite_Key c), metadata_write_of (KVMetadataWrite_Entries c))))
    by (intros; apply applyMetadata_write).
  apply fold_left_ext. intros a c. unfold apply_coll, coll_writes. rewrite fold_left_app, !fold_left_fmap.
  rewrite (fold_left_ext _ (fun a w => apply_write a ((NsRwSet_NameSpace n, CHR_CollectionName c, KVWriteHash_KeyHash w),
    write_of (mkKVWrite (KVWriteHash_KeyHash w) (KVWriteHash_IsDelete w) (KVWriteHash_ValueHash w))))) by (intros; apply applyKVWrite_write).
  apply fold_left_ext. intros. apply applyMetadata_write.
Qed.

(** One write on the operation of its key. *)
Definition op_step (o : option keyOps) (w : write) : option keyOps :=
  let ko := default (mkkeyOps 0 None []) o in
  Some match w with
  | WValue v => mkkeyOps (u8 (ko_flag ko + upsertVal)) (bytes_or_nil v) (ko_metadata ko)
  | WDelete => mkkeyOps (u8 (ko_flag ko + keyDelete)) (ko_value ko) (ko_metadata ko)
  | WMetadata (Some md) => mkkeyOps (u8 (ko_flag ko + metadataUpdate)) (ko_value ko) md
  | WMetadata None => mkkeyOps (u8 (ko_flag ko + metadataDelete)) (ko_value ko) (ko_metadata ko)
  end.

Lemma apply_write_lookup (txops : txOps) (x : compositeKey * write) (ck : compositeKey) :
  apply_write txops x !! ck = if decide (fst x = ck) then op_step (txops !! ck) (snd x) else txops !! ck.
Proof.
  destruct x as [k w]. cbn [fst snd apply_write]. unfold txOps_upsert, txOps_delete, txOps_metadataUpdate, txOps_metadataDelete, getOrCreateKeyEntry.
  destruct (decide (k = ck)) as [->|Hne]; destruct w as [v| |[md|]]; by rewrite ?lookup_insert_eq, ?lookup_insert_ne.
Qed.

Lemma apply_writes_at (l : list (compositeKey * write)) (txops : txOps) (ck : compositeKey) :
  fold_left apply_write l txops !! ck = fold_left op_step (writes_at ck l) (txops !! ck).
Proof.
  revert txops. induction l as [|x l IH]; intros txops; [done|]. cbn [fold_left].
  rewrite IH, writes_at_cons, fold_left_app, apply_write_lookup. by destruct (decide _).
Qed.

(** The update a key gets: [raw] is what the block or the database has for it, the
    markers of deleted keys included. *)
Definition new_update (h : Height) (ws : list write) (raw : option VersionedValue) : option VersionedValue :=
  match ws with
  | [WValue v] => Some (mkVersionedValue (Some v) (metadata_of raw) h)
  | [WValue v; WMetadata md] => Some (mkVersionedValue (Some v) (default [] md) h)
  | WDelete :: _ => Some (mkVersionedValue None [] h)
  | [WMetadata md] => match raw with Some vv => Some (mkVersionedValue (vv_Value vv) (default [] md) h) | None => None end
  | _ => None
  end.

(** On live data the update is the effect of the writes. *)
Lemma new_update_write (h : Height) (ws : list write) (raw : option VersionedValue) :
  key_writes ws -> (forall vv, raw = Some vv -> IsDelete vv = true -> vv_Metadata vv = []) ->
  (forall md vv, ws = [WMetadata md] -> raw = Some vv -> IsDelete vv = false) ->
  fold_left (fun cur w => write_value h w cur) ws (raw ≫= live) =
    match new_update h ws raw with Some vv => live vv | None => raw ≫= live end.
Proof.
  intros Hw Hd Hm. destruct Hw as [|v Hv| |md|v md Hv|md]; cbn; try done.
  - f_equal. f_equal. destruct raw as [vv|]; [|done]. cbn. unfold live. destruct (IsDelete vv) eqn:E; [|done]. symmetry. by apply Hd.
  - destruct raw as [vv|]; [|done]. cbn. specialize (Hm md vv eq_refl eq_refl). unfold live. rewrite Hm.
    unfold IsDelete in *. cbn [vv_Value]. by rewrite Hm.
Qed.

End Ops.
