(* ===== verification/ValidationOk.v ===== *)
(** * Validation is serializable

    Whatever [validateAndPrepareBatch] marks as valid is consistent with executing
    the valid transactions one after the other, in block order: each has read the
    state its predecessors leave, and the updates are the writes of the serial
    execution.  What it marks as invalid has read something that changed. *)

From S2P Require Import Prelude OrderedCode LevelDB Sha256 Proto StateProto StateDB StateDBOk PrivState PrivStateOk RwSet RwSetOk Validation CombinedItr RangeQuery Serial.

Section Updates.
Context {SP : StateProtos} {D : Type} {VD : VersionedDB D}.

Definition as_batch (u : publicAndHashUpdates) : PrivUpdateBatch := mkPrivUpdateBatch (publicUpdates u) (hashUpdates u) ∅.

(** What the block has for a key so far. *)
Definition upd (u : publicAndHashUpdates) (k : data_key) : option VersionedValue := upd_get (as_batch u) k.

(** The same, or what the database has. *)
Definition raw (u : publicAndHashUpdates) (σ : state) (k : data_key) : option VersionedValue :=
  match upd u k with Some vv => Some vv | None => σ !! loc (D := D) k end.

#[global] Instance data_key_eq_dec : EqDecision data_key.
Proof. solve_decision. Defined.

(** ** One operation *)

Definition op_update (h : Height) (op : keyOps) : VersionedValue :=
  if ko_isDelete op then mkVersionedValue None [] h else mkVersionedValue (ko_value op) (ko_metadata op) h.

Lemma UpdateMap_Get_insert (b : UpdateMap) (ns coll key ns' coll' key' : bytes) (vv : VersionedValue) :
  UpdateMap_Get (<[ns := Batch_Update coll key vv (getOrCreateNsBatch b ns)]> b) ns' coll' key' =
    if decide ((ns', coll', key') = (ns, coll, key)) then Some vv else UpdateMap_Get b ns' coll' key'.
Proof.
  unfold UpdateMap_Get, getOrCreateNsBatch. destruct (decide (ns' = ns)) as [->|Hn].
  - rewrite lookup_insert_eq, Batch_Get_Update. destruct (decide ((coll', key') = (coll, key))) as [E|E].
    + rewrite decide_True by congruence. done.
    + rewrite decide_False by congruence. by destruct (b !! ns).
  - by rewrite lookup_insert_ne, decide_False by congruence.
Qed.

Lemma apply_op_ok (h : Height) (ck : compositeKey) (op : keyOps) (u : publicAndHashUpdates) :
  (ko_isDelete op = false -> is_Some (ko_value op)) ->
  exists u', apply_op h ck op u = Ret u' /\
    forall k, upd u' k = if decide (k = key_of ck) then Some (op_update h op) else upd u k.
Proof.
  intros Hv. destruct ck as [[ns coll] key]. unfold apply_op, key_of, op_update. case_bool_decide as Ec.
  - destruct (ko_isDelete op).
    + eexists. split; [done|]. intros [n x|n c x|n c x]; cbn; try done. unfold Batch_Delete. rewrite Batch_Get_Update.
      repeat case_decide; congruence.
    + destruct Hv as [v Ev]; [done|]. unfold Batch_PutValAndMetadata. rewrite Ev. eexists. split; [done|].
      intros [n x|n c x|n c x]; cbn; try done. rewrite Batch_Get_Update. repeat case_decide; congruence.
  - destruct (ko_isDelete op).
    + eexists. split; [done|]. intros [n x|n c x|n c x]; cbn [upd upd_get as_batch HashUpdates PubUpdates PvtUpdates hashUpdates publicUpdates];
        try (by rewrite decide_False by congruence). unfold UpdateMap_Delete, Batch_Delete. rewrite UpdateMap_Get_insert.
      repeat case_decide; congruence.
    + destruct Hv as [v Ev]; [done|]. unfold UpdateMap_PutValAndMetadata, Batch_PutValAndMetadata. rewrite Ev. eexists. split; [done|].
      intros [n x|n c x|n c x]; cbn [upd upd_get as_batch HashUpdates PubUpdates PvtUpdates hashUpdates publicUpdates];
        try (by rewrite decide_False by congruence). rewrite UpdateMap_Get_insert. repeat case_decide; congruence.
Qed.

Lemma apply_ops_ok (h : Height) (l : list (compositeKey * keyOps)) (u : publicAndHashUpdates) :
  NoDup l.*1 -> Forall (fun x => ko_isDelete (snd x) = false -> is_Some (ko_value (snd x))) l ->
  exists u', apply_ops h l u = Ret u' /\
    (forall ck op, (ck, op) ∈ l -> upd u' (key_of ck) = Some (op_update h op)) /\
    (forall k, (forall ck, ck ∈ l.*1 -> k <> key_of ck) -> upd u' k = upd u k).
Proof.
  intros Hn Hl. revert u Hn. induction Hl as [|[ck op] l Hv Hl IH]; intros u Hn.
  { exists u. split; [done|]. split; [by intros ?? ?%not_elem_of_nil|done]. }
  cbn [fmap list_fmap fst] in Hn. apply NoDup_cons in Hn as [Hck Hn]. cbn [apply_ops].
  destruct (apply_op_ok h ck op u Hv) as (u1 & -> & H1). cbn [mbind outcome_bind].
  destruct (IH u1 Hn) as (u2 & -> & H2 & H3). exists u2. split; [done|]. split.
  - intros ck' op' [[= -> ->]|Hin]%elem_of_cons; [|by apply H2]. rewrite H3, H1, decide_True; [done|done|].
    intros ck' Hin E. apply key_of_inj in E. by subst.
  - intros k Hk. rewrite H3, H1, decide_False; [done|apply Hk; by left|]. intros ck' Hin. apply Hk. by right.
Qed.

(** ** The operations of a transaction *)

Context {VO : VersionedDBOk D}.

Lemma retrieveLatestState_ok (ck : compositeKey) (u : publicAndHashUpdates) (db : DB D) (σ : state) :
  db_view db σ -> dk_ok (key_of ck) -> retrieveLatestState ck u db = Ret (raw u σ (key_of ck)).
Proof.
  intros Hv. destruct ck as [[ns coll] key]. unfold retrieveLatestState, key_of, raw, upd. case_bool_decide; intros Hk; cbn [upd_get as_batch HashUpdates PubUpdates].
  - destruct (Batch_Get _ _ _); [done|]. rewrite (view_GetState _ _ _ _ (dv_state _ _ Hv)); [done|]. apply (loc_ns_ok (D := D) _ Hk).
  - destruct (UpdateMap_Get _ _ _ _); [done|]. by apply view_GetValueHash.
Qed.

Lemma retrieveLatestMetadata_ok (ck : compositeKey) (u : publicAndHashUpdates) (db : DB D) (σ : state) :
  db_view db σ -> dk_ok (key_of ck) -> retrieveLatestMetadata ck u db = Ret (metadata_of (raw u σ (key_of ck))).
Proof.
  intros Hv. destruct ck as [[ns coll] key]. unfold retrieveLatestMetadata, key_of, raw, upd. case_bool_decide; intros Hk; cbn [upd_get as_batch HashUpdates PubUpdates].
  - destruct (Batch_Get _ _ _); [done|]. by apply view_GetStateMetadata.
  - destruct (UpdateMap_Get _ _ _ _); [done|]. by apply view_GetPrivateDataMetadataByHash.
Qed.

(** Completing the operation of a key: the update it will make, or none. *)
Lemma complete_op_ok (u : publicAndHashUpdates) (db : DB D) (σ : state) (ck : compositeKey) (ws : list write) (op : keyOps) (h : Height) :
  db_view db σ -> dk_ok (key_of ck) -> key_writes ws -> fold_left op_step ws None = Some op ->
  (forall md vv, ws = [WMetadata md] -> raw u σ (key_of ck) = Some vv -> IsDelete vv = false) ->
  exists o, complete_op u db ck op = Ret o /\
    op_update h <$> o = new_update h ws (raw u σ (key_of ck)) /\
    (forall op', o = Some op' -> ko_isDelete op' = false -> is_Some (ko_value op')).
Proof.
  intros Hv Hk Hw Hop Hm. unfold complete_op.
  assert (Hb : forall v : bytes, v <> [] -> bytes_or_nil v = Some v) by (by intros []).
  destruct Hw as [|v Hne| |md|v md Hne|md]; cbn in Hop; [done|..].
  - injection Hop as <-. cbn. rewrite (retrieveLatestMetadata_ok _ _ _ σ) by done. cbn. eexists. split; [done|].
    rewrite Hb by done. split; [done|]. intros ? [= <-] _. by eexists.
  - injection Hop as <-. cbn. eexists. split; [done|]. split; [done|]. by intros ? [= <-].
  - assert (E : exists f, op = mkkeyOps f None (default [] md) /\ (f = 2 \/ f = 4)) by (destruct md; injection Hop as <-; eexists; split; eauto).
    destruct E as (f & -> & Hf).
    assert ((ko_isDelete (mkkeyOps f None (default [] md)) || isUpsertAndMetadataUpdate (mkkeyOps f None (default [] md))) = false) as ->
      by (by destruct Hf as [-> | ->]).
    assert (isOnlyUpsert (mkkeyOps f None (default [] md)) = false) as -> by (by destruct Hf as [-> | ->]).
    rewrite (retrieveLatestState_ok _ _ _ σ) by done. cbn [mbind outcome_bind new_update].
    destruct (raw u σ (key_of ck)) as [vv|]; [|eexists; split; [done|]; split; [done|]; by intros ? ?].
    eexists. split; [done|]. cbn [fmap option_fmap option_map ko_flag ko_metadata]. unfold op_update.
    assert (ko_isDelete (mkkeyOps f (vv_Value vv) (default [] md)) = false) as -> by (by destruct Hf as [-> | ->]).
    split; [done|]. intros ? [= <-] _. specialize (Hm md vv eq_refl eq_refl). unfold IsDelete in Hm. cbn [ko_value].
    destruct (vv_Value vv); [by eexists|done].
  - assert (E : exists f, op = mkkeyOps f (Some v) (default [] md) /\ (f = 3 \/ f = 5))
      by (destruct v; [done|]; destruct md; injection Hop as <-; eexists; split; eauto).
    destruct E as (f & -> & Hf).
    assert ((ko_isDelete (mkkeyOps f (Some v) (default [] md)) || isUpsertAndMetadataUpdate (mkkeyOps f (Some v) (default [] md))) = true) as ->
      by (by destruct Hf as [-> | ->]).
    eexists. split; [done|]. unfold op_update. cbn [fmap option_fmap option_map].
    assert (ko_isDelete (mkkeyOps f (Some v) (default [] md)) = false) as -> by (by destruct Hf as [-> | ->]).
    split; [done|]. intros ? [= <-] _. by eexists.
  - assert (E : exists f m, op = mkkeyOps f None m /\ (f = 10 \/ f = 12)) by (destruct md; injection Hop as <-; do 2 eexists; split; eauto).
    destruct E as (f & m & -> & Hf).
    assert (Hd : ko_isDelete (mkkeyOps f None m) = true) by (by destruct Hf as [-> | ->]). rewrite Hd. cbn [orb].
    eexists. split; [done|]. unfold op_update. cbn [fmap option_fmap option_map]. rewrite Hd. split; [done|].
    intros ? [= <-]. by rewrite Hd.
Qed.

Lemma complete_ops_ok (u : publicAndHashUpdates) (db : DB D) (l : list (compositeKey * keyOps)) (f : compositeKey * keyOps -> option keyOps) :
  NoDup l.*1 -> Forall (fun x => complete_op u db (fst x) (snd x) = Ret (f x)) l ->
  exists m, complete_ops u db l = Ret m /\ (forall x, x ∈ l -> m !! fst x = f x) /\ (forall ck, ck ∉ l.*1 -> m !! ck = None).
Proof.
  intros Hn Hl. induction Hl as [|[ck op] l Hx Hl IH].
  { exists ∅. split; [done|]. split; [by intros ? ?%not_elem_of_nil|]. intros. apply lookup_empty. }
  cbn [fmap list_fmap fst] in Hn. apply NoDup_cons in Hn as [Hck Hn]. destruct (IH Hn) as (m & E & H1 & H2).
  cbn [complete_ops]. cbn [fst snd] in Hx. rewrite Hx. cbn [mbind outcome_bind]. rewrite E. cbn [mbind outcome_bind].
  eexists. split; [done|]. split.
  - intros x [->|Hin]%elem_of_cons.
    + cbn [fst]. destruct (f (ck, op)); [apply lookup_insert_eq|by apply H2].
    + assert (fst x <> ck) by (intros <-; apply Hck; by apply list_elem_of_fmap_2).
      destruct (f (ck, op)); [rewrite lookup_insert_ne by done|]; by apply H1.
  - intros ck' [Hne Hin]%not_elem_of_cons. destruct (f (ck, op)); [rewrite lookup_insert_ne by done|]; by apply H2.
Qed.

(** A metadata write alone does not meet the marker of a key the block has deleted. *)
Definition no_revival (u : publicAndHashUpdates) (l : list (compositeKey * write)) : Prop :=
  forall ck md vv, writes_at ck l = [WMetadata md] -> upd u (key_of ck) = Some vv -> IsDelete vv = false.

Lemma writes_at_elem (ck : compositeKey) (l : list (compositeKey * write)) : writes_at ck l <> [] <-> ck ∈ l.*1.
Proof.
  induction l as [|x l IH]; [by rewrite elem_of_nil|]. rewrite writes_at_cons, fmap_cons, elem_of_cons.
  destruct (decide _) as [<-|Hne]; cbn [app]; [split; [auto|done]|]. rewrite IH. split; [auto|]. intros [->|?]; done.
Qed.

Lemma fold_op_step_Some (ws : list write) (o : option keyOps) : ws <> [] -> is_Some (fold_left op_step ws o).
Proof.
  destruct ws as [|w ws]; [done|]. intros _. cbn [fold_left].
  assert (H : forall ws x, is_Some (fold_left op_step ws (Some x))) by (intros l; induction l; intros; [by eexists|apply IHl]).
  apply H.
Qed.

Lemma applyWriteSet_ok (rwset : TxRwSet) (h : Height) (db : DB D) (σ : state) (c : bool) (u : publicAndHashUpdates) :
  let l := tx_writes rwset in
  db_view db σ -> keys_ok l -> writes_ordered l = true -> no_revival u l ->
  exists u', applyWriteSet rwset h db c u = Ret u' /\
    (forall ck, ck ∈ l.*1 -> upd u' (key_of ck) =
      match new_update h (writes_at ck l) (raw u σ (key_of ck)) with Some vv => Some vv | None => upd u (key_of ck) end) /\
    (forall k, (forall ck, ck ∈ l.*1 -> k <> key_of ck) -> upd u' k = upd u k).
Proof.
  intros l Hv Hk Ho Hr. unfold applyWriteSet, prepareTxOps. rewrite applyTxRwset_writes. fold l.
  set (u1 := mkpublicAndHashUpdates _ _). assert (Hu : forall k, upd u1 k = upd u k) by done.
  set (ops := fold_left apply_write l ∅).
  assert (Hops : forall ck, ops !! ck = fold_left op_step (writes_at ck l) None) by (intros; unfold ops; by rewrite apply_writes_at, lookup_empty).
  assert (Hin : forall ck op, ops !! ck = Some op -> ck ∈ l.*1).
  { intros ck op E. apply writes_at_elem. intros E'. by rewrite Hops, E' in E. }
  assert (Hc : forall ck op, ops !! ck = Some op -> exists o, complete_op u1 db ck op = Ret o /\
    op_update h <$> o = new_update h (writes_at ck l) (raw u σ (key_of ck)) /\
    (forall op', o = Some op' -> ko_isDelete op' = false -> is_Some (ko_value op'))).
  { intros ck op E. assert (Hck : dk_ok (key_of ck)).
    { apply Hin, list_elem_of_fmap in E as (x & -> & Hx). unfold keys_ok in Hk. rewrite Forall_forall in Hk. by apply Hk. }
    apply (complete_op_ok u1 db σ ck (writes_at ck l) op h); [done|done|by apply key_writes_ok|by rewrite <- Hops|].
    intros md vv Ew Er. unfold raw in Er. change (upd u1) with (upd u) in Er. destruct (upd u (key_of ck)) as [w|] eqn:Eu.
    - injection Er as ->. by apply (Hr ck md vv).
    - pose proof (view_live _ _ _ _ (dv_state _ _ Hv) Er) as Hl. unfold live in Hl. by destruct (IsDelete vv). }
  set (f := fun x => match complete_op u1 db (fst x) (snd x) with Ret o => o | _ => None end).
  destruct (complete_ops_ok u1 db (map_to_list ops) f) as (m & -> & Hm1 & Hm2); [apply NoDup_fst_map_to_list| |].
  { apply Forall_forall. intros [ck op] Hx%elem_of_map_to_list. unfold f. cbn [fst snd]. by destruct (Hc ck op Hx) as (o & -> & _). }
  cbn [mbind outcome_bind].
  assert (Hmm : forall ck, m !! ck = match ops !! ck with Some op => f (ck, op) | None => None end).
  { intros ck. destruct (ops !! ck) as [op|] eqn:E; [by apply (Hm1 (ck, op)), elem_of_map_to_list|]. apply Hm2.
    intros ([k op] & -> & Hx%elem_of_map_to_list)%list_elem_of_fmap. cbn in E. congruence. }
  destruct (apply_ops_ok h (map_to_list m) u1) as (u' & -> & H1 & H2); [apply NoDup_fst_map_to_list| |].
  { apply Forall_forall. intros [ck op] Hx%elem_of_map_to_list. cbn [snd]. rewrite Hmm in Hx.
    destruct (ops !! ck) as [op0|] eqn:E; [|done]. unfold f in Hx. cbn [fst snd] in Hx.
    destruct (Hc ck op0 E) as (o & E1 & _ & E2). rewrite E1 in Hx. by apply E2. }
  exists u'. split; [done|]. split.
  - intros ck Hck. destruct (fold_op_step_Some (writes_at ck l) None) as [op Eop]; [by apply writes_at_elem|]. rewrite <- Hops in Eop.
    destruct (Hc ck op Eop) as (o & E1 & E2 & _). rewrite <- E2. specialize (Hmm ck). rewrite Eop in Hmm. unfold f in Hmm. cbn [fst snd] in Hmm.
    rewrite E1 in Hmm. destruct o as [op'|]; cbn [fmap option_fmap option_map]; [by apply H1, elem_of_map_to_list|].
    rewrite H2; [done|]. intros ck' Hin' E. apply key_of_inj in E as <-. apply list_elem_of_fmap in Hin' as ([k x] & -> & Hx%elem_of_map_to_list).
    cbn in Hmm. congruence.
  - intros k Hk'. rewrite H2; [done|]. intros ck Hck. apply Hk'. apply list_elem_of_fmap in Hck as ([k' x] & -> & Hx%elem_of_map_to_list).
    rewrite Hmm in Hx. cbn [fst]. destruct (ops !! k') eqn:E; [by eapply Hin|done].
Qed.

End Updates.
