(* ===== verification/Serializable.v ===== *)
(** * Blocks are validated and committed serially

    The composition: the verdict on each transaction of a block, the state its
    updates describe, and the commit of the updates to the database. *)

From S2P Require Import Prelude OrderedCode LevelDB Sha256 Proto StateProto StateDB StateDBOk PrivState PrivStateOk RwSet RwSetOk Validation CombinedItr RangeQuery Serial ValidationOk.

Section Block.
Context {SP : StateProtos} {D : Type} {VD : VersionedDB D} {VO : VersionedDBOk D}.
Variable hashFunc : bytes -> outcome bytes.
Hypothesis hash_total : forall b, exists h, hashFunc b = Ret h.

(** ** The state the updates describe *)

Definition deleted_keys (l : list (compositeKey * write)) : list compositeKey :=
  fst <$> filter (fun x => snd x = WDelete) l.

(** [written] and [deleted] are keys that transactions of the block have written and deleted. *)
Record updates_inv (u : publicAndHashUpdates) (σ0 σ : state) (written deleted : list compositeKey) : Prop := {
  ui_written : forall k vv, upd u k = Some vv -> exists ck, k = key_of ck /\ ck ∈ written;
  ui_keys : forall k vv, upd u k = Some vv -> dk_ok k /\ Height_wf (vv_Version vv);
  ui_deleted : forall ck vv, upd u (key_of ck) = Some vv -> IsDelete vv = true -> vv_Metadata vv = [] /\ ck ∈ deleted;
  ui_state : σ = apply_updates (batch_map (combined (D := D) (as_batch u))) σ0 }.

Lemma updates_inv_new (σ : state) : updates_inv newPubAndHashUpdates σ σ [] [].
Proof.
  assert (Hn : forall k, upd newPubAndHashUpdates k = None) by (intros []; done).
  constructor; [intros k vv; by rewrite Hn..|intros ck vv; by rewrite Hn|]. apply map_eq. intros l. rewrite apply_updates_lookup.
  destruct (batch_map _ !! l) as [vv|] eqn:E; [|done]. apply combined_inv in E as (k & _ & E); [|intros k vv']; [by destruct k|].
  intros E'. by destruct k.
Qed.

Lemma updates_inv_ok (u : publicAndHashUpdates) (σ0 σ : state) (wr del : list compositeKey) :
  updates_inv u σ0 σ wr del -> updates_ok (as_batch u).
Proof. intros Hi k vv. apply (ui_keys _ _ _ _ _ Hi). Qed.

Lemma updates_inv_mono (u : publicAndHashUpdates) (σ0 σ : state) (wr del del' : list compositeKey) :
  updates_inv u σ0 σ wr del -> updates_inv u σ0 σ wr (del ++ del').
Proof.
  intros [H1 H2 H3 H4]. constructor; [done|done| |done]. intros ck vv E Ed. destruct (H3 ck vv E Ed). rewrite elem_of_app. auto.
Qed.

Lemma state_at (u : publicAndHashUpdates) (σ0 σ : state) (wr del : list compositeKey) (k : data_key) :
  updates_inv u σ0 σ wr del -> dk_ok k -> (forall l vv, σ0 !! l = Some vv -> live vv = Some vv) ->
  σ !! loc (D := D) k = raw (D := D) u σ0 k ≫= live.
Proof.
  intros Hi Hk Hl. rewrite (ui_state _ _ _ _ _ Hi), combined_apply; [|by eapply updates_inv_ok|done].
  unfold raw, upd. destruct (upd_get (as_batch u) k); [done|]. destruct (σ0 !! loc k) as [vv|] eqn:E; [|done]. cbn. symmetry. by eapply Hl.
Qed.

Lemma writes_at_delete (ck : compositeKey) (l : list (compositeKey * write)) (ws : list write) :
  writes_at ck l = WDelete :: ws -> ck ∈ deleted_keys l.
Proof.
  intros E. assert (H : WDelete ∈ writes_at ck l) by (rewrite E; by left).
  apply list_elem_of_fmap in H as ([k w] & Ew & Hx). apply list_elem_of_filter in Hx as [Ek Hx]. cbn in Ek, Ew. subst k w.
  apply list_elem_of_fmap. exists (ck, WDelete). split; [done|]. by apply list_elem_of_filter.
Qed.

(** What an update of the block consists of. *)
Lemma new_update_fields (h : Height) (l : list (compositeKey * write)) (ck : compositeKey) (r : option VersionedValue) (vv : VersionedValue) :
  writes_ordered l = true -> (forall md w, writes_at ck l = [WMetadata md] -> r = Some w -> IsDelete w = false) ->
  new_update h (writes_at ck l) r = Some vv ->
  vv_Version vv = h /\ (IsDelete vv = true -> vv_Metadata vv = [] /\ ck ∈ deleted_keys l).
Proof.
  intros Ho Hm E. pose proof (key_writes_ok ck l Ho) as Hw.
  destruct (writes_at ck l) as [|w ws] eqn:Ew; [done|]. inversion Hw; subst; cbn in E.
  - by injection E as <-.
  - injection E as <-. split; [done|]. intros _. split; [done|]. by eapply writes_at_delete.
  - destruct r as [w|]; [|done]. injection E as <-. split; [done|]. intros E. specialize (Hm _ w eq_refl eq_refl).
    unfold IsDelete in *. cbn in E. congruence.
  - by injection E as <-.
  - injection E as <-. split; [done|]. intros _. split; [done|]. by eapply writes_at_delete.
Qed.

(** Batches that agree on the keys of a location agree on the location. *)
Lemma combined_same (b b' : PrivUpdateBatch) (x : bytes * bytes) :
  updates_ok b -> updates_ok b' -> (forall k, x = loc (D := D) k -> upd_get b' k = upd_get b k) ->
  batch_map (combined (D := D) b') !! x = batch_map (combined (D := D) b) !! x.
Proof.
  intros Hb Hb' Hn. destruct (batch_map (combined b') !! x) as [vv|] eqn:E'.
  { destruct (combined_inv _ _ _ Hb' E') as (k & -> & Ek). rewrite Hn in Ek by done.
    rewrite combined_lookup; [by symmetry|done|]. by apply Hb in Ek as [? _]. }
  destruct (batch_map (combined b) !! x) as [vv|] eqn:E; [|done]. destruct (combined_inv _ _ _ Hb E) as (k & -> & Ek).
  pose proof Ek as Hk. rewrite <- Hn in Hk by done. rewrite combined_lookup in E'; [congruence|done|]. by apply Hb in Ek as [? _].
Qed.

(** A valid transaction takes the state to the one after its writes. *)
Lemma updates_inv_step (rwset : TxRwSet) (h : Height) (db : DB D) (σ0 σ : state) (c : bool) (u : publicAndHashUpdates) (wr del : list compositeKey) :
  let l := tx_writes rwset in
  db_view db σ0 -> updates_inv u σ0 σ wr del -> keys_ok l -> writes_ordered l = true -> Height_wf h ->
  (forall ck md, writes_at ck l = [WMetadata md] -> ck ∉ del) ->
  exists u', applyWriteSet rwset h db c u = Ret u' /\ updates_inv u' σ0 (exec_writes (D := D) h l σ) (wr ++ l.*1) (del ++ deleted_keys l) /\
    forall k vv, upd u' k = Some vv -> upd u k = Some vv \/ vv_Version vv = h.
Proof.
  intros l Hv Hi Hk Ho Hh Hd.
  assert (Hlive : forall k vv, σ0 !! k = Some vv -> live vv = Some vv) by (intros; by eapply view_live; [apply Hv|]).
  assert (Hr : no_revival u l).
  { intros ck md vv Ew Eu. destruct (IsDelete vv) eqn:E; [|done]. destruct (ui_deleted _ _ _ _ _ Hi ck vv Eu E) as [_ Hin].
    by apply Hd in Ew. }
  assert (Hraw : forall ck vv, raw (D := D) u σ0 (key_of ck) = Some vv ->
    (IsDelete vv = true -> vv_Metadata vv = []) /\ forall md, writes_at ck l = [WMetadata md] -> IsDelete vv = false).
  { intros ck vv E. unfold raw in E. destruct (upd u (key_of ck)) as [w|] eqn:Ew.
    - injection E as ->. split; [intros Ed; by apply (ui_deleted _ _ _ _ _ Hi ck vv)|]. intros md Em. by apply (Hr ck md).
    - apply Hlive in E. unfold live in E. by destruct (IsDelete vv). }
  destruct (applyWriteSet_ok rwset h db σ0 c u Hv Hk Ho Hr) as (u' & Eu & H1 & H2). fold l in H1, H2. exists u'. split; [done|].
  assert (Hkey : forall ck, ck ∈ l.*1 -> dk_ok (key_of ck)).
  { intros ck (x & -> & Hx)%list_elem_of_fmap. unfold keys_ok in Hk. rewrite Forall_forall in Hk. by apply Hk. }
  (* an update of the block is an old one or that of a key the transaction writes *)
  assert (Hcase : forall k vv, upd u' k = Some vv -> upd u k = Some vv \/ exists ck, ck ∈ l.*1 /\ k = key_of ck /\
    vv_Version vv = h /\ (IsDelete vv = true -> vv_Metadata vv = [] /\ ck ∈ deleted_keys l)).
  { intros k vv E. destruct (decide (Exists (fun ck => k = key_of ck) l.*1)) as [He|Hn].
    - apply Exists_exists in He as (ck & Hck & ->). rewrite H1 in E by done. destruct (new_update _ _ _) as [w|] eqn:En; [|by left].
      injection E as ->. right. exists ck. split; [done|]. split; [done|]. eapply new_update_fields; [done| |exact En].
      intros md w Em Er. by apply (Hraw ck w Er) in Em.
    - left. rewrite <- H2; [done|]. intros ck Hck ->. apply Hn, Exists_exists. eauto. }
  assert (Hkeys : forall k vv, upd u' k = Some vv -> dk_ok k /\ Height_wf (vv_Version vv)).
  { intros k vv E. destruct (Hcase k vv E) as [E'|(ck & Hck & -> & -> & _)]; [by eapply ui_keys|]. split; [by apply Hkey|done]. }
  split; [|intros k vv E; destruct (Hcase k vv E) as [?|(? & _ & _ & ? & _)]; auto].
  constructor; [|done| |].
  - intros k vv E. setoid_rewrite elem_of_app. destruct (Hcase k vv E) as [E'|(ck & Hck & -> & _)]; [|eauto].
    destruct (ui_written _ _ _ _ _ Hi k vv E') as (ck & -> & Hck). eauto.
  - intros ck vv E Ed. rewrite elem_of_app. destruct (Hcase _ vv E) as [E'|(ck' & _ & Ek & _ & Hf)].
    + destruct (ui_deleted _ _ _ _ _ Hi ck vv E' Ed). auto.
    + apply key_of_inj in Ek as ->. destruct (Hf Ed). auto.
  - apply map_eq. intros x. destruct (decide (x ∈ (fun ck => loc (D := D) (key_of ck)) <$> l.*1)) as [Hx|Hx].
    + apply list_elem_of_fmap in Hx as (ck & -> & Hck). specialize (Hkey ck Hck).
      rewrite exec_at, combined_apply by done. fold (upd u' (key_of ck)). rewrite (state_at _ _ _ _ _ _ Hi) by done.
      rewrite new_update_write; [|by apply key_writes_ok|intros vv E; exact (proj1 (Hraw ck vv E))|intros md vv Em E; exact (proj2 (Hraw ck vv E) md Em)].
      rewrite H1 by done. destruct (new_update _ _ _); [done|]. unfold raw. destruct (upd u (key_of ck)); [done|].
      destruct (σ0 !! _) as [vv|] eqn:E; [|done]. cbn. by eapply Hlive.
    + rewrite exec_other, (ui_state _ _ _ _ _ Hi), !apply_updates_lookup.
      2:{ intros [ck w] Hin E. apply Hx, list_elem_of_fmap. exists ck. split; [done|]. by apply (list_elem_of_fmap_2 fst) in Hin. }
      rewrite (combined_same (as_batch u) (as_batch u')); [done|by eapply updates_inv_ok|done|].
      intros k ->. apply H2. intros ck Hck ->. apply Hx, list_elem_of_fmap. eauto.
Qed.

(** ** Reads *)

Definition version_at (σ : state) (k : data_key) : option Height := option_map vv_Version (σ !! loc (D := D) k).

(** The keys a transaction has read, with the versions it saw. *)
Definition ns_reads (n : NsRwSet) : list (data_key * option Height) :=
  let ns := NsRwSet_NameSpace n in
  ((fun r => (PubKey ns (KVRead_Key r), NewVersion (KVRead_Version r))) <$> KVRWSet_Reads (NsRwSet_KvRwSet n)) ++
  (NsRwSet_CollHashedRwSets n ≫= fun c =>
     (fun r => (HashKey ns (CHR_CollectionName c) (KVReadHash_KeyHash r), NewVersion (KVReadHash_Version r)))
       <$> HashedRWSet_HashedReads (CHR_HashedRwSet c)).

Definition tx_reads (rwset : TxRwSet) : list (data_key * option Height) := TxRwSet_NsRwSets rwset ≫= ns_reads.

Definition tx_ranges (rwset : TxRwSet) : list (bytes * RangeQueryInfo) :=
  TxRwSet_NsRwSets rwset ≫= fun n => pair (NsRwSet_NameSpace n) <$> KVRWSet_RangeQueriesInfo (NsRwSet_KvRwSet n).

(** A range query gives the recorded results, or results with the recorded summary. *)
Definition range_current (σ : state) (x : bytes * RangeQueryInfo) : bool :=
  let '(ns, rq) := x in
  let reads := read_of <$> query_results σ ns (RQI_StartKey rq) (RQI_EndKey rq) (negb (RQI_ItrExhausted rq)) in
  match GetReadsMerkleHashes rq with
  | Some inMerkle =>
      match summarize hashFunc (QRMS_MaxDegree inMerkle) reads with
      | Ret s => merkleSummariesEqual inMerkle s
      | _ => false
      end
  | None => bool_decide (reads = GetRawReads rq)
  end.

(** Recorded results have versions; a recorded level is not full. *)
Definition range_ok (x : bytes * RangeQueryInfo) : Prop :=
  (dollar ∉ fst x) /\ ns_ok (fst x) /\
  match GetReadsMerkleHashes (snd x) with
  | Some s => degree_ok (QRMS_MaxDegree s) /\ zlen (QRMS_MaxLevelHashes s) < QRMS_MaxDegree s
  | None => Forall has_version (GetRawReads (snd x))
  end.

(** A key the block has not updated, at the version that was read. *)
Definition fresh (u : publicAndHashUpdates) (σ0 : state) (x : data_key * option Height) : bool :=
  negb (is_Some_b (upd u (fst x))) && bool_decide (version_at σ0 (fst x) = snd x).

Lemma AreSame_decide (a b : option Height) : AreSame a b = bool_decide (a = b).
Proof. apply eq_true_iff_eq. by rewrite AreSame_eq, bool_decide_eq_true. Qed.

Lemma validateKVRead_ok (db : DB D) (σ0 : state) (u : publicAndHashUpdates) (ns : bytes) (r : KVRead) :
  db_view db σ0 -> dk_ok (PubKey ns (KVRead_Key r)) ->
  validateKVRead db (publicUpdates u) ns r = Ret (fresh u σ0 (PubKey ns (KVRead_Key r), NewVersion (KVRead_Version r))).
Proof.
  intros Hv Hk. unfold validateKVRead, fresh. rewrite Batch_Exists_Get. cbn [fst snd upd upd_get as_batch PubUpdates].
  destruct (Batch_Get _ _ _); [done|]. cbn [is_Some_b negb andb].
  rewrite (view_GetVersion _ _ _ _ (dv_state _ _ Hv)) by apply (loc_ns_ok (D := D) _ Hk). cbn [mbind outcome_bind].
  by rewrite AreSame_decide.
Qed.

Lemma validateKVReadHash_ok (db : DB D) (σ0 : state) (u : publicAndHashUpdates) (ns coll : bytes) (r : KVReadHash) :
  db_view db σ0 -> dk_ok (HashKey ns coll (KVReadHash_KeyHash r)) ->
  validateKVReadHash db (hashUpdates u) ns coll r =
    Ret (fresh u σ0 (HashKey ns coll (KVReadHash_KeyHash r), NewVersion (KVReadHash_Version r))).
Proof.
  intros Hv Hk. unfold validateKVReadHash, fresh. cbn [fst snd upd upd_get as_batch HashUpdates].
  assert (UpdateMap_Contains (hashUpdates u) ns coll (KVReadHash_KeyHash r) =
    is_Some_b (UpdateMap_Get (hashUpdates u) ns coll (KVReadHash_KeyHash r))) as ->.
  { unfold UpdateMap_Contains, UpdateMap_Get. destruct (_ !! ns); [apply Batch_Exists_Get|done]. }
  destruct (UpdateMap_Get _ _ _ _); [done|]. cbn [is_Some_b negb andb]. unfold GetKeyHashVersion.
  rewrite (view_GetVersion _ _ _ _ (dv_state _ _ Hv)) by apply (loc_ns_ok (D := D) _ Hk). cbn [mbind outcome_bind].
  by rewrite AreSame_decide.
Qed.

(** A loop of checks decides whether they all hold. *)
Lemma forall_valid_ok {A} (f : A -> outcome bool) (g : A -> bool) (l : list A) :
  Forall (fun a => f a = Ret (g a)) l -> forall_valid f l = Ret (forallb g l).
Proof.
  induction 1 as [|a l Ha Hl IH]; [done|]. cbn [forall_valid forallb]. rewrite Ha. cbn [mbind outcome_bind].
  by destruct (g a).
Qed.

Lemma query_results_ext (σ σ' : state) (ns s e : bytes) (incl : bool) :
  (forall key, σ !! (ns, key) = σ' !! (ns, key)) -> query_results σ ns s e incl = query_results σ' ns s e incl.
Proof.
  intros H. unfold query_results, scan, end_item. rewrite H.
  assert (slice σ ns = slice σ' ns) as ->; [|done]. apply map_eq. intros key. by rewrite !slice_lookup.
Qed.

(** The iterator of the validation gives the range of the current state. *)
Lemma range_query_iterator (db : DB D) (σ0 σ : state) (u : publicAndHashUpdates) (wr del : list compositeKey) (ns s e : bytes) (incl : bool) :
  db_view db σ0 -> updates_inv u σ0 σ wr del -> (dollar ∉ ns) -> ns_ok ns ->
  exists c, newCombinedIterator (db_vdb db) (publicUpdates u) ns s e incl = Ret c /\ yields c (query_results σ ns s e incl).
Proof.
  intros Hv Hi Hdl Hns. destruct (newCombinedIterator_yields (db_vdb db) σ0 (publicUpdates u) ns s e incl) as (c & E & Hy); [apply Hv|done|].
  exists c. split; [done|]. rewrite (query_results_ext _ σ) in Hy; [done|].
  intros key. rewrite apply_updates_lookup, batch_map_lookup. assert (Hk : dk_ok (PubKey ns key)) by (split; [done|split; [done|apply not_elem_of_nil]]).
  change (ns, key) with (loc (D := D) (PubKey ns key)). rewrite (ui_state _ _ _ _ _ Hi), combined_apply; [done|by eapply updates_inv_ok|done].
Qed.

Lemma validateRangeQuery_ok (fuel : nat) (db : DB D) (σ0 σ : state) (u : publicAndHashUpdates) (wr del : list compositeKey) (ns : bytes) (rq : RangeQueryInfo) :
  db_view db σ0 -> updates_inv u σ0 σ wr del -> range_ok (ns, rq) ->
  (length (query_results σ ns (RQI_StartKey rq) (RQI_EndKey rq) (negb (RQI_ItrExhausted rq))) < fuel)%nat ->
  validateRangeQuery hashFunc fuel db (publicUpdates u) ns rq = Ret (range_current σ (ns, rq)).
Proof.
  intros Hv Hi (Hdl & Hns & Hrq) Hf. cbn [fst snd] in *. unfold validateRangeQuery, range_current.
  destruct (range_query_iterator db σ0 σ u wr del ns (RQI_StartKey rq) (RQI_EndKey rq) (negb (RQI_ItrExhausted rq))) as (c & -> & Hy); [done..|].
  cbn [mbind outcome_bind]. destruct (GetReadsMerkleHashes rq) as [s|]; [|by apply rangeQueryResultsValidator_ok].
  destruct Hrq as [Hd Hlen].
  destruct (rangeQueryHashValidator_ok hashFunc hash_total fuel s _ c Hd Hy Hf) as (s' & -> & [E|(_ & Hle & _)]); [done|lia].
Qed.

(** A query that is current passes, also where its highest level is full. *)
Definition range_wf (x : bytes * RangeQueryInfo) : Prop :=
  (dollar ∉ fst x) /\ ns_ok (fst x) /\ forall s, GetReadsMerkleHashes (snd x) = Some s -> degree_ok (QRMS_MaxDegree s).

Lemma validateRangeQuery_current (fuel : nat) (db : DB D) (σ0 σ : state) (u : publicAndHashUpdates) (wr del : list compositeKey) (ns : bytes) (rq : RangeQueryInfo) :
  db_view db σ0 -> updates_inv u σ0 σ wr del -> range_wf (ns, rq) -> range_current σ (ns, rq) = true ->
  (length (query_results σ ns (RQI_StartKey rq) (RQI_EndKey rq) (negb (RQI_ItrExhausted rq))) < fuel)%nat ->
  validateRangeQuery hashFunc fuel db (publicUpdates u) ns rq = Ret true.
Proof.
  intros Hv Hi (Hdl & Hns & Hrq) Hcur Hf. cbn [fst snd] in *. unfold validateRangeQuery, range_current in *.
  destruct (range_query_iterator db σ0 σ u wr del ns (RQI_StartKey rq) (RQI_EndKey rq) (negb (RQI_ItrExhausted rq))) as (c & -> & Hy); [done..|].
  cbn [mbind outcome_bind]. destruct (GetReadsMerkleHashes rq) as [s|].
  - destruct (rangeQueryHashValidator_ok hashFunc hash_total fuel s _ c (Hrq s eq_refl) Hy Hf) as (s' & Es & Ho). rewrite Es in Hcur.
    destruct Ho as [E|(E & _)]; congruence.
  - rewrite <- Hcur. apply rangeQueryResultsValidator_ok; [|done]. apply bool_decide_eq_true in Hcur. rewrite <- Hcur.
    apply Forall_fmap, Forall_forall. intros kv _. by eexists.
Qed.

(** ** The verdict on a transaction *)

Inductive verdict (u : publicAndHashUpdates) (σ0 σ : state) (reads : list (data_key * option Height)) (ranges : list (bytes * RangeQueryInfo)) : Z -> Prop :=
| verdict_valid : Forall (fun x => fresh u σ0 x = true) reads -> Forall (fun x => range_current σ x = true) ranges ->
    verdict u σ0 σ reads ranges TxValidationCode_VALID
| verdict_stale : Exists (fun x => fresh u σ0 x = false) reads -> verdict u σ0 σ reads ranges TxValidationCode_MVCC_READ_CONFLICT
| verdict_phantom : Exists (fun x => range_current σ x = false) ranges -> verdict u σ0 σ reads ranges TxValidationCode_PHANTOM_READ_CONFLICT.

Definition reads_ok (rwset : TxRwSet) : Prop := Forall (fun x => dk_ok (fst x)) (tx_reads rwset) /\ Forall range_ok (tx_ranges rwset).

Lemma forallb_Forall {A} (f : A -> bool) (l : list A) : forallb f l = true <-> Forall (fun a => f a = true) l.
Proof. rewrite forallb_forall, Forall_forall. setoid_rewrite list_elem_of_In. done. Qed.

Lemma forallb_Exists {A} (f : A -> bool) (l : list A) : forallb f l = false <-> Exists (fun a => f a = false) l.
Proof.
  induction l as [|a l IH]; cbn; [split; [done|by intros ?%Exists_nil]|]. rewrite andb_false_iff, Exists_cons, IH. done.
Qed.

Lemma forallb_fmap {A B} (f : B -> bool) (g : A -> B) (l : list A) : forallb f (g <$> l) = forallb (fun a => f (g a)) l.
Proof. induction l as [|a l IH]; [done|]. cbn. by rewrite <- IH. Qed.

Lemma forallb_bind {A B} (f : B -> bool) (g : A -> list B) (l : list A) : forallb f (l ≫= g) = forallb (fun a => forallb f (g a)) l.
Proof. induction l as [|a l IH]; [done|]. cbn. rewrite forallb_app. by rewrite <- IH. Qed.

(** The bound on the results of the range queries of a list of name spaces. *)
Definition ranges_fuel (σ : state) (l : list (bytes * RangeQueryInfo)) (fuel : nat) : Prop :=
  Forall (fun '(ns, rq) => (length (query_results σ ns (RQI_StartKey rq) (RQI_EndKey rq) (negb (RQI_ItrExhausted rq))) < fuel)%nat) l.

Lemma ranges_fuel_exists (σ : state) (l : list (bytes * RangeQueryInfo)) : exists f0, forall fuel, (f0 <= fuel)%nat -> ranges_fuel σ l fuel.
Proof.
  induction l as [|[ns rq] l [f0 IH]]; [exists 0%nat; constructor|].
  set (n := length (query_results σ ns (RQI_StartKey rq) (RQI_EndKey rq) (negb (RQI_ItrExhausted rq)))).
  exists (f0 + S n)%nat. intros fuel Hf. constructor; [unfold n in *; lia|]. apply IH. lia.
Qed.

(** The three checks of a name space. *)
Lemma validate_ns_ok (fuel : nat) (db : DB D) (σ0 σ : state) (u : publicAndHashUpdates) (wr del : list compositeKey) (n : NsRwSet) :
  let ns := NsRwSet_NameSpace n in
  let pub := (fun r => (PubKey ns (KVRead_Key r), NewVersion (KVRead_Version r))) <$> KVRWSet_Reads (NsRwSet_KvRwSet n) in
  let ranges := pair ns <$> KVRWSet_RangeQueriesInfo (NsRwSet_KvRwSet n) in
  let hashed := NsRwSet_CollHashedRwSets n ≫= fun c =>
     (fun r => (HashKey ns (CHR_CollectionName c) (KVReadHash_KeyHash r), NewVersion (KVReadHash_Version r))) <$> HashedRWSet_HashedReads (CHR_HashedRwSet c) in
  db_view db σ0 -> updates_inv u σ0 σ wr del ->
  Forall (fun x => dk_ok (fst x)) (ns_reads n) -> Forall range_ok ranges -> ranges_fuel σ ranges fuel ->
  validateReadSet db (publicUpdates u) ns (KVRWSet_Reads (NsRwSet_KvRwSet n)) = Ret (forallb (fresh u σ0) pub) /\
  validateRangeQueries hashFunc fuel db (publicUpdates u) ns (KVRWSet_RangeQueriesInfo (NsRwSet_KvRwSet n)) = Ret (forallb (range_current σ) ranges) /\
  validateNsHashedReadSets db (hashUpdates u) ns (NsRwSet_CollHashedRwSets n) = Ret (forallb (fresh u σ0) hashed).
Proof.
  intros ns pub ranges hashed Hv Hi Hr Hq Hf. unfold ns_reads in Hr. fold ns pub hashed in Hr. apply Forall_app in Hr as [Hp Hh]. split; [|split].
  - unfold validateReadSet, pub. rewrite forallb_fmap. apply forall_valid_ok. unfold pub in Hp. rewrite Forall_fmap in Hp. eapply Forall_impl; [exact Hp|].
    intros r Hk. by apply validateKVRead_ok.
  - unfold validateRangeQueries, ranges. rewrite forallb_fmap. apply forall_valid_ok. unfold ranges_fuel in Hf. unfold ranges in Hq, Hf.
    rewrite Forall_fmap in Hq, Hf. pose proof (conj Hq Hf) as H%Forall_and. eapply Forall_impl; [exact H|].
    intros rq [H1 H2]. by apply (validateRangeQuery_ok _ _ σ0 _ _ wr del).
  - unfold validateNsHashedReadSets, hashed. rewrite forallb_bind. apply forall_valid_ok. rewrite Forall_forall. intros c Hc.
    unfold validateCollHashedReadSet. rewrite forallb_fmap. apply forall_valid_ok. rewrite Forall_forall. intros r Hin.
    apply validateKVReadHash_ok; [done|]. rewrite Forall_forall in Hh. apply (Hh (HashKey ns (CHR_CollectionName c) (KVReadHash_KeyHash r), NewVersion (KVReadHash_Version r))).
    apply list_elem_of_bind. exists c. split; [|done]. apply list_elem_of_fmap. eauto.
Qed.

Lemma verdict_app (u : publicAndHashUpdates) (σ0 σ : state) reads ranges reads' ranges' (code : Z) :
  Forall (fun x => fresh u σ0 x = true) reads -> Forall (fun x => range_current σ x = true) ranges ->
  verdict u σ0 σ reads' ranges' code -> verdict u σ0 σ (reads ++ reads') (ranges ++ ranges') code.
Proof.
  intros H1 H2 []; constructor; rewrite ?Forall_app, ?Exists_app; auto.
Qed.

Lemma validateTx_ok (db : DB D) (σ0 σ : state) (u : publicAndHashUpdates) (wr del : list compositeKey) (nss : list NsRwSet) :
  db_view db σ0 -> updates_inv u σ0 σ wr del -> reads_ok (mkTxRwSet nss) ->
  exists code, verdict u σ0 σ (tx_reads (mkTxRwSet nss)) (tx_ranges (mkTxRwSet nss)) code /\
    forall fuel, ranges_fuel σ (tx_ranges (mkTxRwSet nss)) fuel -> validateTx hashFunc fuel db u nss = Ret code.
Proof.
  intros Hv Hi. induction nss as [|n nss IH]; intros [Hr Hq]; [eexists; split; [by constructor|done]|].
  unfold tx_reads, tx_ranges, ranges_fuel in Hr, Hq |- *. cbn [TxRwSet_NsRwSets mbind list_bind] in Hr, Hq |- *.
  apply Forall_app in Hr as [Hr Hr'], Hq as [Hq Hq']. destruct IH as (code & Hc & IH); [by split|].
  pose proof (fun fuel => validate_ns_ok fuel db σ0 σ u wr del n Hv Hi Hr Hq) as H. cbv zeta in H.
  set (pub := (fun r => _) <$> KVRWSet_Reads _) in H. set (hashed := _ ≫= _) in H.
  assert (En : ns_reads n = pub ++ hashed) by done. rewrite En.
  assert (Hrun : forall code', (if negb (forallb (fresh u σ0) pub) then TxValidationCode_MVCC_READ_CONFLICT else
      if negb (forallb (range_current σ) (pair (NsRwSet_NameSpace n) <$> KVRWSet_RangeQueriesInfo (NsRwSet_KvRwSet n))) then TxValidationCode_PHANTOM_READ_CONFLICT else
      if negb (forallb (fresh u σ0) hashed) then TxValidationCode_MVCC_READ_CONFLICT else code) = code' ->
    forall fuel, ranges_fuel σ ((pair (NsRwSet_NameSpace n) <$> KVRWSet_RangeQueriesInfo (NsRwSet_KvRwSet n)) ++ tx_ranges (mkTxRwSet nss)) fuel ->
    validateTx hashFunc fuel db u (n :: nss) = Ret code').
  { intros code' <- fuel [Hf Hf']%Forall_app. destruct (H fuel Hf) as (E1 & E2 & E3). cbn [validateTx].
    rewrite E1, E2, E3. cbn [mbind outcome_bind]. by repeat (case_match; [done|]); apply IH. }
  destruct (forallb (fresh u σ0) pub) eqn:H1; cbn [negb] in Hrun.
  2:{ eexists. split; [|by apply Hrun]. apply verdict_stale. apply forallb_Exists in H1. rewrite !Exists_app. auto. }
  destruct (forallb (range_current σ) _) eqn:H2; cbn [negb] in Hrun.
  2:{ eexists. split; [|by apply Hrun]. apply verdict_phantom. apply forallb_Exists in H2. rewrite !Exists_app. auto. }
  destruct (forallb (fresh u σ0) hashed) eqn:H3; cbn [negb] in Hrun.
  2:{ eexists. split; [|by apply Hrun]. apply verdict_stale. apply forallb_Exists in H3. rewrite !Exists_app. auto. }
  exists code. split; [|by apply Hrun]. apply forallb_Forall in H1, H2, H3. apply verdict_app; [by apply Forall_app|done|done].
Qed.

(** ** The block *)

(** The keys whose metadata alone is written, among those in [deleted]. *)
Definition revives (deleted : list compositeKey) (l : list (compositeKey * write)) : bool :=
  existsb (fun x => is_metadata (snd x) && bool_decide (fst x ∈ deleted) && bool_decide (writes_at (fst x) l = [snd x])) l.

Lemma revives_none (deleted : list compositeKey) (l : list (compositeKey * write)) (ck : compositeKey) (md : option bytes) :
  revives deleted l = false -> writes_at ck l = [WMetadata md] -> ck ∉ deleted.
Proof.
  intros Hr Ew Hin. apply not_true_iff_false in Hr. apply Hr, existsb_exists. exists (ck, WMetadata md). split.
  - apply list_elem_of_In. assert (H : WMetadata md ∈ writes_at ck l) by (rewrite Ew; by left).
    apply list_elem_of_fmap in H as ([k w] & E & Hx). apply list_elem_of_filter in Hx as [Ek Hx]. cbn in E, Ek. by subst.
  - cbn [fst snd is_metadata andb]. by rewrite !bool_decide_eq_true_2.
Qed.

(** No transaction writes only the metadata of a key that an earlier one deletes. *)
Fixpoint revival_free (deleted : list compositeKey) (txs : list transaction) : bool :=
  match txs with
  | [] => true
  | tx :: txs' => negb (revives deleted (tx_writes (tx_rwset tx))) && revival_free (deleted ++ deleted_keys (tx_writes (tx_rwset tx))) txs'
  end.

Record tx_ok (tx : transaction) : Prop := {
  to_reads : reads_ok (tx_rwset tx);
  to_keys : keys_ok (tx_writes (tx_rwset tx));
  to_ordered : writes_ordered (tx_writes (tx_rwset tx)) = true }.

Definition tx_height (num : Z) (tx : transaction) : Height := NewHeight num (u64 (tx_indexInBlock tx)).

(** Executing the valid transactions one after the other from [σ] ends in [σ'];
    each of them has read the state it is executed in, and each of the others has
    read a key that changed, or a range that changed. *)
Inductive serial (num : Z) : list compositeKey -> state -> list transaction -> state -> Prop :=
| serial_nil written σ : serial num written σ [] σ
| serial_valid written σ σ' tx txs :
    tx_validationCode tx = TxValidationCode_VALID ->
    Forall (fun x => version_at σ (fst x) = snd x) (tx_reads (tx_rwset tx)) ->
    Forall (fun x => range_current σ x = true) (tx_ranges (tx_rwset tx)) ->
    serial num (written ++ (tx_writes (tx_rwset tx)).*1) (exec_writes (D := D) (tx_height num tx) (tx_writes (tx_rwset tx)) σ) txs σ' ->
    serial num written σ (tx :: txs) σ'
| serial_stale written σ σ' tx txs :
    tx_validationCode tx = TxValidationCode_MVCC_READ_CONFLICT ->
    Exists (fun x => (exists ck, ck ∈ written /\ fst x = key_of ck) \/ version_at σ (fst x) <> snd x) (tx_reads (tx_rwset tx)) ->
    serial num written σ txs σ' -> serial num written σ (tx :: txs) σ'
| serial_phantom written σ σ' tx txs :
    tx_validationCode tx = TxValidationCode_PHANTOM_READ_CONFLICT ->
    Exists (fun x => range_current σ x = false) (tx_ranges (tx_rwset tx)) ->
    serial num written σ txs σ' -> serial num written σ (tx :: txs) σ'.

Lemma fresh_current (u : publicAndHashUpdates) (σ0 σ : state) (wr del : list compositeKey) (x : data_key * option Height) :
  updates_inv u σ0 σ wr del -> dk_ok (fst x) -> (forall l vv, σ0 !! l = Some vv -> live vv = Some vv) ->
  if fresh u σ0 x then version_at σ (fst x) = snd x
  else (exists ck, ck ∈ wr /\ fst x = key_of ck) \/ version_at σ (fst x) <> snd x.
Proof.
  intros Hi Hk Hl. unfold fresh, version_at. rewrite (state_at _ _ _ _ _ _ Hi Hk Hl). unfold raw.
  destruct (upd u (fst x)) as [vv|] eqn:Eu; cbn [is_Some_b negb andb].
  - left. destruct (ui_written _ _ _ _ _ Hi _ _ Eu) as (ck & -> & Hck). eauto.
  - destruct (σ0 !! loc (fst x)) as [vv|] eqn:E; cbn [mbind option_bind]; [rewrite (Hl _ _ E)|]; case_bool_decide; auto.
Qed.

(** The updates have versions of the block. *)
Definition of_block (num : Z) (u : publicAndHashUpdates) : Prop := forall k vv, upd u k = Some vv -> BlockNum (vv_Version vv) = num.

Lemma of_block_new (num : Z) : of_block num newPubAndHashUpdates.
Proof. by intros []. Qed.

Lemma validate_txs_ok (db : DB D) (num : Z) (σ0 : state) (txs : list transaction) (u : publicAndHashUpdates) (σ : state) (wr del : list compositeKey) :
  db_view db σ0 -> is_u64 num -> updates_inv u σ0 σ wr del -> of_block num u -> Forall tx_ok txs -> revival_free del txs = true ->
  exists f0 u' txs' σ' wr' del', (forall fuel, (f0 <= fuel)%nat -> validate_txs hashFunc fuel db num true u txs = Ret (u', txs')) /\
    serial num wr σ txs' σ' /\ updates_inv u' σ0 σ' wr' del' /\ set_code 0 <$> txs' = set_code 0 <$> txs /\ of_block num u'.
Proof.
  intros Hv Hn Hi Hb Ht. revert u σ wr del Hi Hb.
  assert (Hlive : forall k vv, σ0 !! k = Some vv -> live vv = Some vv) by (intros; by eapply view_live; [apply Hv|]).
  induction Ht as [|tx txs [Hr Hk Ho] Ht IH]; intros u σ wr del Hi Hb Hrf.
  { exists 0%nat, u, [], σ, wr, del. split; [done|]. split; [constructor|]. done. }
  cbn [revival_free] in Hrf. apply andb_true_iff in Hrf as [Hrv Hrf]. apply negb_true_iff in Hrv.
  destruct (ranges_fuel_exists σ (tx_ranges (tx_rwset tx))) as [f1 Hf1].
  assert (Hrw : mkTxRwSet (TxRwSet_NsRwSets (tx_rwset tx)) = tx_rwset tx) by (by destruct (tx_rwset tx)).
  destruct (validateTx_ok db σ0 σ u wr del (TxRwSet_NsRwSets (tx_rwset tx)) Hv Hi) as (code & Hc & Hrun); [by rewrite Hrw|].
  rewrite Hrw in Hc, Hrun.
  assert (Hu : exists u1 σ1 wr1, updates_inv u1 σ0 σ1 wr1 (del ++ deleted_keys (tx_writes (tx_rwset tx))) /\
    (if code =? TxValidationCode_VALID then
       applyWriteSet (tx_rwset tx) (tx_height num tx) db (tx_containsPostOrderWrites tx) u else Ret u) = Ret u1 /\
    of_block num u1 /\
    forall txs' σ', serial num wr1 σ1 txs' σ' -> serial num wr σ (set_code code tx :: txs') σ').
  { destruct Hr as [Hr _]. rewrite Forall_forall in Hr. destruct Hc as [Hc1 Hc2|Hc1|Hc1].
    - destruct (updates_inv_step (tx_rwset tx) (tx_height num tx) db σ0 σ (tx_containsPostOrderWrites tx) u wr del) as (u1 & E & Hi1 & Hver); [done..| | |].
      + split; [done|apply u64_is_u64].
      + intros ck md. by apply revives_none.
      + do 3 eexists. split; [exact Hi1|]. split; [done|]. split; [intros k vv Ek; destruct (Hver k vv Ek) as [?| ->]; [by eapply Hb|done]|].
        intros txs' σ' Hs. apply serial_valid; [done| |done|done].
        cbn [tx_rwset set_code]. rewrite Forall_forall in Hc1. rewrite Forall_forall. intros x Hx.
        pose proof (fresh_current u σ0 σ wr del x Hi (Hr x Hx) Hlive) as Hf. by rewrite (Hc1 x Hx) in Hf.
    - exists u, σ, wr. split; [by apply updates_inv_mono|]. split; [done|]. split; [done|]. intros txs' σ' Hs. apply serial_stale; [done| |done].
      cbn [tx_rwset set_code]. rewrite Exists_exists in Hc1. destruct Hc1 as (x & Hx & Hf). rewrite Exists_exists. exists x. split; [done|].
      pose proof (fresh_current u σ0 σ wr del x Hi (Hr x Hx) Hlive) as Hf'. by rewrite Hf in Hf'.
    - exists u, σ, wr. split; [by apply updates_inv_mono|]. split; [done|]. split; [done|]. intros txs' σ' Hs. by apply serial_phantom. }
  destruct Hu as (u1 & σ1 & wr1 & Hi1 & Eu & Hb1 & Hs1).
  destruct (IH u1 σ1 wr1 _ Hi1 Hb1 Hrf) as (f2 & u2 & txs' & σ' & wr' & del' & Hall & Hs & Hi2 & Hc2 & Hb2).
  exists (Nat.max f1 f2), u2, (set_code code tx :: txs'), σ', wr', del'. split; [|split; [by apply Hs1|split; [done|split; [|done]]]].
  - intros fuel Hf. cbn [validate_txs]. unfold validateEndorserTX. rewrite Hrun by (apply Hf1; lia). cbn [mbind outcome_bind].
    fold (tx_height num tx). rewrite Eu. cbn [mbind outcome_bind]. by rewrite Hall by lia.
  - cbn [fmap list_fmap]. by rewrite Hc2.
Qed.

Record block_ok (blk : block) : Prop := {
  bo_num : is_u64 (blk_num blk);
  bo_txs : Forall tx_ok (blk_txs blk);
  bo_revival : revival_free [] (blk_txs blk) = true }.

Lemma preLoad_ok (blk : block) (db : DB D) (σ : state) :
  db_view db σ -> exists db', (if IsBulkOptimizable (D := D) then preLoadCommittedVersionOfRSet blk else mret tt) db = (Ret tt, db') /\ db_view db' σ.
Proof.
  intros Hv. case_match; [|by exists db]. unfold preLoadCommittedVersionOfRSet.
  destruct (_ || _); [by apply LoadCommittedVersions_ok|by exists db].
Qed.

(** The validation of a block and its commit: the final state is that of the serial
    execution, for public keys and for hashes of private keys; the private keys are
    those of the private updates. *)
Lemma validate_block_ok (blk : block) (db : DB D) (σ : state) :
  db_view db σ -> block_ok blk ->
  exists f0 u txs' σ' db', (forall fuel, (f0 <= fuel)%nat ->
      validateAndPrepareBatch hashFunc fuel blk true db = (Ret (u, mkblock (blk_num blk) txs'), db')) /\
    db_view db' σ /\ set_code 0 <$> txs' = set_code 0 <$> blk_txs blk /\ serial (blk_num blk) [] σ txs' σ' /\
    updates_ok (as_batch u) /\ σ' = apply_updates (batch_map (combined (D := D) (as_batch u))) σ /\ of_block (blk_num blk) u.
Proof.
  intros Hv [Hn Ht Hr]. destruct (preLoad_ok blk db σ Hv) as (db' & E & Hv').
  destruct (validate_txs_ok db' (blk_num blk) σ (blk_txs blk) newPubAndHashUpdates σ [] []) as (f0 & u & txs' & σ' & wr' & del' & Hall & Hs & Hi & Hc & Hb);
    [done|done|apply updates_inv_new|apply of_block_new|done|done|].
  exists f0, u, txs', σ', db'. split; [|split; [done|split; [done|split; [done|split; [by eapply updates_inv_ok|split; [by eapply ui_state|done]]]]]].
  intros fuel Hf. unfold validateAndPrepareBatch. unfold mbind, M_bind. rewrite E. cbn. by rewrite Hall.
Qed.

(** ** A transaction that has read the committed state *)

Record tx_current (σ : state) (rwset : TxRwSet) : Prop := {
  tc_reads : Forall (fun x => dk_ok (fst x) /\ version_at σ (fst x) = snd x) (tx_reads rwset);
  tc_ranges : Forall (fun x => range_wf x /\ range_current σ x = true) (tx_ranges rwset);
  tc_keys : keys_ok (tx_writes rwset);
  tc_ordered : writes_ordered (tx_writes rwset) = true }.

Lemma fresh_new (σ : state) (x : data_key * option Height) : version_at σ (fst x) = snd x -> fresh newPubAndHashUpdates σ x = true.
Proof.
  intros E. unfold fresh. assert (upd newPubAndHashUpdates (fst x) = None) as -> by (by destruct (fst x)). cbn. by apply bool_decide_eq_true.
Qed.

Lemma forall_valid_true {A} (f : A -> outcome bool) (l : list A) : Forall (fun a => f a = Ret true) l -> forall_valid f l = Ret true.
Proof. induction 1 as [|a l Ha Hl IH]; [done|]. cbn [forall_valid]. rewrite Ha. cbn [mbind outcome_bind]. apply IH. Qed.

Lemma validateTx_current (fuel : nat) (db : DB D) (σ : state) (nss : list NsRwSet) :
  db_view db σ -> Forall (fun x => dk_ok (fst x) /\ version_at σ (fst x) = snd x) (tx_reads (mkTxRwSet nss)) ->
  Forall (fun x => range_wf x /\ range_current σ x = true) (tx_ranges (mkTxRwSet nss)) -> ranges_fuel σ (tx_ranges (mkTxRwSet nss)) fuel ->
  validateTx hashFunc fuel db newPubAndHashUpdates nss = Ret TxValidationCode_VALID.
Proof.
  intros Hv. induction nss as [|n nss IH]; [done|]. unfold tx_reads, tx_ranges, ranges_fuel. cbn [TxRwSet_NsRwSets mbind list_bind].
  intros [Hr Hr']%Forall_app [Hq Hq']%Forall_app [Hf Hf']%Forall_app. unfold ns_reads in Hr. apply Forall_app in Hr as [Hp Hh].
  rewrite Forall_fmap in Hp. rewrite Forall_fmap in Hq, Hf. cbn [validateTx].
  unfold validateReadSet. rewrite forall_valid_true.
  2:{ eapply Forall_impl; [exact Hp|]. intros r [Hk E]. rewrite (validateKVRead_ok db σ newPubAndHashUpdates) by done. by rewrite fresh_new. }
  cbn [mbind outcome_bind negb]. unfold validateRangeQueries. rewrite forall_valid_true.
  2:{ pose proof (conj Hq Hf) as H%Forall_and. eapply Forall_impl; [exact H|]. intros rq [[Hw Hc] Hl].
      by apply (validateRangeQuery_current fuel db σ σ _ [] [] _ rq Hv (updates_inv_new σ)). }
  cbn [mbind outcome_bind negb]. unfold validateNsHashedReadSets. rewrite forall_valid_true.
  2:{ apply Forall_forall. intros c Hc. apply forall_valid_true, Forall_forall. intros r Hin. rewrite Forall_forall in Hh.
      destruct (Hh (HashKey (NsRwSet_NameSpace n) (CHR_CollectionName c) (KVReadHash_KeyHash r), NewVersion (KVReadHash_Version r))) as [Hk E].
      - apply list_elem_of_bind. exists c. split; [|done]. apply list_elem_of_fmap. eauto.
      - rewrite (validateKVReadHash_ok db σ newPubAndHashUpdates) by done. by rewrite fresh_new. }
  cbn [mbind outcome_bind negb]. by apply IH.
Qed.

Lemma tx_current_valid (num : Z) (tx : transaction) (db : DB D) (σ : state) (doMVCCValidation : bool) :
  db_view db σ -> is_u64 num -> tx_current σ (tx_rwset tx) ->
  exists f0 u db',
    (forall fuel, (f0 <= fuel)%nat ->
       validateAndPrepareBatch hashFunc fuel (mkblock num [tx]) doMVCCValidation db =
         (Ret (u, mkblock num [set_code TxValidationCode_VALID tx]), db')) /\
    db_view db' σ /\
    updates_inv u σ (exec_writes (D := D) (tx_height num tx) (tx_writes (tx_rwset tx)) σ)
      (tx_writes (tx_rwset tx)).*1 (deleted_keys (tx_writes (tx_rwset tx))) /\
    forall k vv, upd u k = Some vv -> vv_Version vv = tx_height num tx.
Proof.
  intros Hv Hn [Hr Hq Hk Ho]. destruct (preLoad_ok (mkblock num [tx]) db σ Hv) as (db' & E & Hv').
  destruct (ranges_fuel_exists σ (tx_ranges (tx_rwset tx))) as [f0 Hf0].
  destruct (updates_inv_step (tx_rwset tx) (tx_height num tx) db' σ σ (tx_containsPostOrderWrites tx) newPubAndHashUpdates [] [])
    as (u & Eu & Hi & Hver); [done|apply updates_inv_new|done|done|split; [done|apply u64_is_u64]|intros ck md _; apply not_elem_of_nil|].
  exists f0, u, db'. split; [|split; [done|split; [done|]]].
  - intros fuel Hf. unfold validateAndPrepareBatch, mbind, M_bind. rewrite E. cbn [get_state blk_txs blk_num].
    assert (Hrw : mkTxRwSet (TxRwSet_NsRwSets (tx_rwset tx)) = tx_rwset tx) by (by destruct (tx_rwset tx)).
    cbn [validate_txs]. assert (validateEndorserTX hashFunc fuel db' (tx_rwset tx) doMVCCValidation newPubAndHashUpdates = Ret TxValidationCode_VALID) as ->.
    { unfold validateEndorserTX. destruct doMVCCValidation; [|done]. apply (validateTx_current fuel db' σ); [done|by rewrite Hrw..|rewrite Hrw; by apply Hf0]. }
    cbn [mbind outcome_bind]. rewrite Z.eqb_refl. fold (tx_height num tx). rewrite Eu. done.
  - intros k vv Ek. destruct (Hver k vv Ek) as [E'|]; [by destruct k|done].
Qed.

(** ** Progress *)

(** A read of a key that is not among [keys], at its version in [σ]. *)
Definition unaffected (σ : state) (keys : list compositeKey) (x : data_key * option Height) : Prop :=
  dk_ok (fst x) /\ version_at σ (fst x) = snd x /\ forall ck, ck ∈ keys -> fst x <> key_of ck.

Definition tx_keys (tx : transaction) : list compositeKey := (tx_writes (tx_rwset tx)).*1.

Lemma unaffected_exec (h : Height) (tx : transaction) (σ : state) (keys : list compositeKey) (x : data_key * option Height) :
  keys_ok (tx_writes (tx_rwset tx)) -> tx_keys tx ⊆ keys -> unaffected σ keys x ->
  unaffected (exec_writes (D := D) h (tx_writes (tx_rwset tx)) σ) keys x.
Proof.
  intros Hk Hs (Hd & Hx & Hn). split; [done|]. split; [|done]. rewrite <- Hx. unfold version_at. f_equal. apply exec_other.
  intros y Hy E. apply (loc_inj (D := D)) in E.
  - apply (Hn (fst y)); [|by symmetry]. apply Hs. unfold tx_keys. by apply list_elem_of_fmap_2.
  - unfold keys_ok in Hk. rewrite Forall_forall in Hk. by apply (Hk y Hy).
  - by apply Hd.
Qed.

Lemma serial_progress (num : Z) (wr : list compositeKey) (σ σ' : state) (txs pre post : list transaction) (tx : transaction) :
  serial num wr σ txs σ' -> set_code 0 <$> txs = set_code 0 <$> pre ++ tx :: post -> Forall tx_ok pre ->
  tx_ranges (tx_rwset tx) = [] -> Forall (unaffected σ (wr ++ (pre ≫= tx_keys))) (tx_reads (tx_rwset tx)) ->
  exists t, txs !! length pre = Some t /\ tx_validationCode t = TxValidationCode_VALID.
Proof.
  intros Hs. revert pre. induction Hs as [wr σ|wr σ σ' t txs Hc _ _ _ IH|wr σ σ' t txs _ He _ IH|wr σ σ' t txs _ He _ IH]; intros [|p pre] E Hp Hq Hr.
  - done.
  - done.
  - by exists t.
  - cbn [app fmap list_fmap] in E. injection E as Et E. apply Forall_cons in Hp as [[_ Hk _] Hp].
    cbn [length lookup list_lookup]. assert (Hw : tx_rwset t = tx_rwset p) by congruence. apply IH; [done|done|done|].
    rewrite Hw in *. cbn [mbind list_bind] in Hr. rewrite app_assoc in Hr. eapply Forall_impl; [exact Hr|]. intros x Hx.
    apply unaffected_exec; [done| |done]. unfold tx_keys. intros ck Hck. rewrite !elem_of_app. auto.
  - exfalso. cbn [app fmap list_fmap] in E. injection E as _ _ Ew _ _. rewrite Ew in He. rewrite Exists_exists in He. destruct He as (x & Hx & Hf).
    rewrite Forall_forall in Hr. destruct (Hr x Hx) as (_ & Hv & Hn). destruct Hf as [(ck & Hck & Ek)|Hf]; [|done].
    apply (Hn ck); [|done]. rewrite elem_of_app. auto.
  - cbn [app fmap list_fmap] in E. injection E as Et E. apply Forall_cons in Hp as [_ Hp]. cbn [length lookup list_lookup]. apply IH; [done|done|done|].
    eapply Forall_impl; [exact Hr|]. intros x (Hd & Hv & Hn). split; [done|]. split; [done|]. intros ck Hck. apply Hn.
    cbn [mbind list_bind]. rewrite !elem_of_app in *. tauto.
  - exfalso. cbn [app fmap list_fmap] in E. injection E as _ _ Ew _ _. rewrite Ew, Hq in He. by apply Exists_nil in He.
  - cbn [app fmap list_fmap] in E. injection E as Et E. apply Forall_cons in Hp as [_ Hp]. cbn [length lookup list_lookup]. apply IH; [done|done|done|].
    eapply Forall_impl; [exact Hr|]. intros x (Hd & Hv & Hn). split; [done|]. split; [done|]. intros ck Hck. apply Hn.
    cbn [mbind list_bind]. rewrite !elem_of_app in *. tauto.
Qed.

End Block.
