(* ===== verification/StateTheorems.v ===== *)
(** * Properties of the state database and of transaction validation

    The statements about the components of transaction management, each with a
    concrete ledger state on which its hypotheses hold, and two defects of the
    validation code shown on concrete blocks. *)

From S2P Require Import Prelude OrderedCode LevelDB Sha256 Proto StateProto StateDB StateDBOk PrivState PrivStateOk RwSet RwSetOk Validation CombinedItr RangeQuery Serial ValidationOk Serializable.

Section Statements.
Context {SP : StateProtos} {D : Type} {VD : VersionedDB D} {VO : VersionedDBOk D}.
Variable hashFunc : bytes -> outcome bytes.

(** C2: validating a block and committing its updates is serializable. With enough
    fuel validation returns; the transactions it marks as valid have read, keys and
    ranges alike, the state left by the valid ones before them; those it marks as
    invalid have read a key or a range that has changed; and committing the updates
    takes the database to the state of executing the valid transactions one write
    after the other, in block order. *)
Theorem block_serializable (blk : block) (db : DB D) (σ : state) (h : option Height) :
  (forall b, exists x, hashFunc b = Ret x) -> db_view db σ -> block_ok blk ->
  exists f0 u txs σ' db' db'',
    (forall fuel, (f0 <= fuel)%nat ->
       validateAndPrepareBatch hashFunc fuel blk true db = (Ret (u, mkblock (blk_num blk) txs), db')) /\
    set_code 0 <$> txs = set_code 0 <$> blk_txs blk /\
    serial (D := D) hashFunc (blk_num blk) [] σ txs σ' /\
    ApplyPrivacyAwareUpdates (mkPrivUpdateBatch (publicUpdates u) (hashUpdates u) ∅) h db' = (Ret tt, db'') /\
    db_view db'' σ'.
Proof.
  intros Hh Hv Hb. destruct (validate_block_ok hashFunc Hh blk db σ Hv Hb) as (f0 & u & txs & σ' & db' & Hall & Hv' & Hc & Hs & Hok & Es & _).
  destruct (ApplyPrivacyAwareUpdates_ok db' σ (as_batch u) h Hv' Hok) as (db'' & Ha & Hv''). rewrite <- Es in Hv''.
  by exists f0, u, txs, σ', db', db''.
Qed.

(** C15: the hash validator of range queries, which compares an unfinished Merkle
    tree with the recorded summary and stops at the first difference, returns what
    the comparison of the complete summaries gives; the exception is a panic, which
    needs a recorded level that is full and results that differ. *)
Theorem hash_validation_equivalence {I} `{!ResultsIterator I} (fuel : nat) (inMerkle : QueryReadsMerkleSummary) (l : list VersionedKV) (itr : I) :
  (forall b, exists x, hashFunc b = Ret x) -> degree_ok (QRMS_MaxDegree inMerkle) -> yields itr l -> (length l < fuel)%nat ->
  exists s, summarize hashFunc (QRMS_MaxDegree inMerkle) (read_of <$> l) = Ret s /\
    let o := rangeQueryHashValidator_validate hashFunc fuel inMerkle itr in
    o = Ret (merkleSummariesEqual inMerkle s) \/
    merkleSummariesEqual inMerkle s = false /\ QRMS_MaxDegree inMerkle <= zlen (QRMS_MaxLevelHashes inMerkle) /\ is_panic o = true.
Proof. intros Hh Hd Hy Hf. by apply rangeQueryHashValidator_ok. Qed.

(** C40: a recorded summary whose highest level is full makes validation panic when the
    range has grown: if the hashes of the first results, before they are complete, are
    at the recorded level and agree with the recorded ones, and the next result raises
    the level, the validator does not report a difference but indexes beyond the hashes
    of the new level. *)
Theorem full_summary_panics {I} `{!ResultsIterator I} (fuel : nat) (inMerkle s1 s2 : QueryReadsMerkleSummary) (l1 l2 : list VersionedKV) (kv : VersionedKV) (itr : I)
    (h0 h1 h2 : RangeQueryResultsHelper) :
  (forall b, exists x, hashFunc b = Ret x) -> degree_ok (QRMS_MaxDegree inMerkle) -> yields itr (l1 ++ kv :: l2) -> (length l1 < fuel)%nat ->
  NewRangeQueryResultsHelper true (QRMS_MaxDegree inMerkle) = Ret h0 ->
  foldM (AddResult hashFunc) (read_of <$> l1) h0 = Ret h1 -> GetMerkleSummary h1 = Ret (Some s1) ->
  QRMS_MaxLevel s1 = QRMS_MaxLevel inMerkle -> QRMS_MaxLevelHashes s1 `prefix_of` QRMS_MaxLevelHashes inMerkle ->
  AddResult hashFunc (read_of kv) h1 = Ret h2 -> GetMerkleSummary h2 = Ret (Some s2) -> QRMS_MaxLevel inMerkle < QRMS_MaxLevel s2 ->
  is_panic (rangeQueryHashValidator_validate hashFunc fuel inMerkle itr) = true.
Proof.
  intros Hh Hd Hy Hf E0 E1 G1 Hlv Hp E2 G2 Hr. destruct (helper_new _ Hd) as (h & m & E & Hm & _ & El & Et). rewrite E in E0. injection E0 as ->.
  destruct (AddResults_ok hashFunc Hh (read_of <$> l1) h0 m Hm) as (h1' & m1 & E1' & Hm1 & _). rewrite E1 in E1'. injection E1' as <-.
  destruct (AddResult_ok hashFunc Hh (read_of kv) h1 m1 Hm1) as (h2' & m2 & E2' & Hm2 & _). rewrite E2 in E2'. injection E2' as <-.
  rewrite (helper_summary _ _ Hm1) in G1. rewrite (helper_summary _ _ Hm2) in G2. injection G1 as <-. injection G2 as <-.
  unfold rangeQueryHashValidator_validate. rewrite E. cbn [mbind outcome_bind].
  apply (validate_hashes_panics hashFunc Hh inMerkle l1 l2 kv fuel h0 h1 h2 m m1 m2 (-1) itr); try done; [|cbn in *; lia].
  destruct (decide (1 < QRMS_MaxLevel inMerkle)); [left; [lia|done]|right; [lia|by rewrite Et|]]. rewrite Et, zlen_nil. apply zlen_nonneg.
Qed.

(** C16: the combined iterator gives the range of the state after the updates of the
    preceding transactions, deleted keys left out and updated ones at their new
    version, and then the end key where it is to be included. *)
Theorem combined_iterator_range (d : D) (σ : state) (updates : UpdateBatch) (ns s e : bytes) (incl : bool) :
  state_view d σ -> ns_ok ns ->
  exists c, newCombinedIterator d updates ns s e incl = Ret c /\
    yields c (scan (apply_updates (batch_map updates) σ) ns s e ++ end_item (apply_updates (batch_map updates) σ) ns e incl).
Proof. intros Hv Hn. by apply newCombinedIterator_yields. Qed.

(** public data, hashes and private data do not interfere: a batch changes a
    key of one kind exactly by its own update, whatever it does to the others. *)
Theorem data_kinds_independent (s : DB D) (σ : state) (b : PrivUpdateBatch) (h : option Height) :
  db_view s σ -> updates_ok b ->
  exists s' σ', ApplyPrivacyAwareUpdates b h s = (Ret tt, s') /\ db_view s' σ' /\
    forall k, dk_ok k -> σ' !! loc (D := D) k = match upd_get b k with Some vv => live vv | None => σ !! loc (D := D) k end.
Proof.
  intros Hv Hb. destruct (ApplyPrivacyAwareUpdates_ok s σ b h Hv Hb) as (s' & E & Hv'). do 2 eexists. split; [done|]. split; [done|].
  intros k Hk. by apply combined_apply.
Qed.

(** Databases reached from [s0] by applying batches. *)
Inductive committed (s0 : DB D) (σ0 : state) : DB D -> state -> Prop :=
| committed_start : committed s0 σ0 s0 σ0
| committed_batch s s' σ b h : committed s0 σ0 s σ -> updates_ok b -> ApplyPrivacyAwareUpdates b h s = (Ret tt, s') ->
    committed s0 σ0 s' (apply_updates (batch_map (combined (D := D) b)) σ).

(** C18: over any sequence of batches the metadata hint stays sound and equal to what
    a restart reads back, so a metadata query, for a public key or for the hash of a
    private key, which trusts it to skip the database, gives the metadata of the key. *)
Theorem metadata_hint_invariant (s0 s : DB D) (σ0 σ : state) :
  db_view s0 σ0 -> committed s0 σ0 s σ ->
  (forall ns key, dk_ok (PubKey ns key) -> GetStateMetadata s ns key = Ret (metadata_of (σ !! (ns, key)))) /\
  (forall ns coll keyHash, dk_ok (HashKey ns coll keyHash) ->
    GetPrivateDataMetadataByHash s ns coll keyHash = Ret (metadata_of (σ !! (deriveHashedDataNs ns coll, hash_key (D := D) keyHash)))) /\
  mh_cache (newMetadataHint (mh_bookkeeper (db_hint s))) = mh_cache (db_hint s).
Proof.
  intros Hv Hc. assert (Hv' : db_view s σ).
  { induction Hc as [|s s' σ b h Hc IH Hb E]; [done|]. destruct (ApplyPrivacyAwareUpdates_ok s σ b h IH Hb) as (s2 & E2 & Hv2). congruence. }
  split; [intros; by apply view_GetStateMetadata|]. split; [intros; by apply view_GetPrivateDataMetadataByHash|].
  rewrite newMetadataHint_durable. symmetry. apply (ho_durable _ _ (dv_hint _ _ Hv')).
Qed.

(** the helper that condenses the results of a range query takes any number of
    results without an error, and its tree never holds more than [maxDegree] hashes
    at a level, nor any above its highest level. *)
Theorem query_summary_bounded (maxDegree : Z) (l : list KVRead) :
  (forall b, exists x, hashFunc b = Ret x) -> degree_ok maxDegree ->
  exists h0 h m, NewRangeQueryResultsHelper true maxDegree = Ret h0 /\ foldM (AddResult hashFunc) l h0 = Ret h /\
    rqh_mt h = Some m /\ 1 <= mt_maxLevel m /\
    (forall lv, zlen (level m lv) <= maxDegree) /\ (forall lv, mt_maxLevel m < lv -> level m lv = []).
Proof.
  intros Hh Hd. destruct (helper_new maxDegree Hd) as (h0 & m0 & E0 & Hk0 & Ed & _).
  destruct (AddResults_ok hashFunc Hh l h0 m0 Hk0) as (h & m & E & [Em [_ H1 H2 H3] _ _] & _ & Ed'). exists h0, h, m.
  split; [done|]. split; [done|]. rewrite <- Ed, <- Ed'. done.
Qed.

(** C17: a transaction without range queries that has read the committed state, at
    keys no earlier transaction of the block writes, is marked as valid, whatever
    the verdict on the others. *)
Theorem unaffected_transaction_commits (num : Z) (pre post : list transaction) (tx : transaction) (db : DB D) (σ : state) :
  (forall b, exists x, hashFunc b = Ret x) -> db_view db σ -> block_ok (mkblock num (pre ++ tx :: post)) ->
  tx_ranges (tx_rwset tx) = [] -> Forall (unaffected (D := D) σ (pre ≫= tx_keys)) (tx_reads (tx_rwset tx)) ->
  exists f0 u txs db' t,
    (forall fuel, (f0 <= fuel)%nat ->
       validateAndPrepareBatch hashFunc fuel (mkblock num (pre ++ tx :: post)) true db = (Ret (u, mkblock num txs), db')) /\
    txs !! length pre = Some t /\ tx_validationCode t = TxValidationCode_VALID.
Proof.
  intros Hh Hv Hb Hq Hr. destruct (validate_block_ok hashFunc Hh _ db σ Hv Hb) as (f0 & u & txs & σ' & db' & Hall & _ & Hc & Hs & _).
  destruct (serial_progress hashFunc num [] σ σ' txs pre post tx Hs Hc) as (t & Et & Hcode); [|done|done|].
  { pose proof (bo_txs _ Hb) as Ht. cbn in Ht. by apply Forall_app in Ht as [? _]. }
  by exists f0, u, txs, db', t.
Qed.

End Statements.

(** ** A concrete ledger state *)

#[local] Existing Instances wire_state_protos wire_state_protos_ok.

Definition ex_hash (b : bytes) : outcome bytes := Ret (Sum256 b).

Lemma ex_hash_total (b : bytes) : exists x, ex_hash b = Ret x.
Proof. by eexists. Qed.

Definition ex_ns : bytes := str "cc".

Definition ex_empty : DB kvmap := mkDB ∅ (newMetadataHint ∅).

Lemma ex_empty_view : db_view ex_empty ∅.
Proof.
  constructor.
  - constructor.
    + intros ns key _. by rewrite !lookup_empty.
    + intros k vv E. by rewrite lookup_empty in E.
    + intros x [y E]. cbn in E. by rewrite lookup_empty in E.
  - constructor; [|apply newMetadataHint_durable]. intros k vv _ E. by rewrite lookup_empty in E.
Qed.

Definition ex_kv (writes : list KVWrite) (metadata : list KVMetadataWrite) (reads : list KVRead) (ranges : list RangeQueryInfo) : TxRwSet :=
  mkTxRwSet [mkNsRwSet ex_ns (mkKVRWSet reads ranges writes metadata) []].

Definition ex_tx (i : Z) (rwset : TxRwSet) : transaction := mktransaction i [z2b i] rwset 254 false.

Definition ex_write (k : string) : KVWrite := mkKVWrite (str k) false (str "v").

(** Three transactions: the first writes [a], the second has read [a] as missing, the
    third has found no key at all. *)
Definition ex_block : block := mkblock 1
  [ex_tx 0 (ex_kv [ex_write "a"] [] [] []);
   ex_tx 1 (ex_kv [ex_write "b"] [] [mkKVRead (str "a") None] []);
   ex_tx 2 (ex_kv [ex_write "c"] [] [] [mkRangeQueryInfo (str "a") (str "z") true (Some (RawReads []))])].

Example ex_block_codes :
  (fun r => tx_validationCode <$> blk_txs (snd r)) <$>
    match fst (validateAndPrepareBatch ex_hash 10 ex_block true ex_empty) with Ret r => Some r | _ => None end =
  Some [TxValidationCode_VALID; TxValidationCode_MVCC_READ_CONFLICT; TxValidationCode_PHANTOM_READ_CONFLICT].
Proof. vm_compute. reflexivity. Qed.

Lemma ex_pub_ok (k : bytes) : dk_ok (PubKey ex_ns k).
Proof. split; [|split]; [apply (bool_decide_unpack _); vm_compute; exact I..|apply not_elem_of_nil]. Qed.

Lemma ex_block_ok : block_ok ex_block.
Proof.
  constructor; [by split|repeat constructor|vm_compute; reflexivity]; try (by apply ex_pub_ok).
  all: apply (bool_decide_unpack _); vm_compute; exact I.
Qed.

Lemma block_serializable_witness :
  exists f0 u txs σ' db' db'',
    (forall fuel, (f0 <= fuel)%nat -> validateAndPrepareBatch ex_hash fuel ex_block true ex_empty = (Ret (u, mkblock 1 txs), db')) /\
    set_code 0 <$> txs = set_code 0 <$> blk_txs ex_block /\
    serial (D := kvmap) ex_hash 1 [] ∅ txs σ' /\
    ApplyPrivacyAwareUpdates (mkPrivUpdateBatch (publicUpdates u) (hashUpdates u) ∅) (Some (mkHeight 1 2)) db' = (Ret tt, db'') /\
    db_view db'' σ'.
Proof. exact (block_serializable ex_hash ex_block ex_empty ∅ (Some (mkHeight 1 2)) ex_hash_total ex_empty_view ex_block_ok). Defined.

(** The first transaction and one that has read another key. *)
Definition ex_pre : list transaction := take 1 (blk_txs ex_block).
Definition ex_reader : transaction := ex_tx 1 (ex_kv [ex_write "b"] [] [mkKVRead (str "b") None] []).

Lemma unaffected_transaction_commits_witness :
  exists f0 u txs db' t,
    (forall fuel, (f0 <= fuel)%nat ->
       validateAndPrepareBatch ex_hash fuel (mkblock 1 (ex_pre ++ [ex_reader])) true ex_empty = (Ret (u, mkblock 1 txs), db')) /\
    txs !! 1%nat = Some t /\ tx_validationCode t = TxValidationCode_VALID.
Proof.
  apply (unaffected_transaction_commits ex_hash 1 ex_pre [] ex_reader ex_empty ∅ ex_hash_total ex_empty_view).
  - constructor; [by split|repeat constructor|vm_compute; reflexivity]; by apply ex_pub_ok.
  - reflexivity.
  - constructor; [|constructor]. split; [apply ex_pub_ok|]. split; [reflexivity|]. intros ck Hck.
    apply list_elem_of_singleton in Hck as ->. discriminate.
Defined.

(** The updates of a block that has put [a] and [c] and deleted [b]. *)
Definition ex_updates : UpdateBatch :=
  let put k v batch := Batch_Update ex_ns (str k) (mkVersionedValue v [] (mkHeight 1 0)) batch in
  put "a"%string (Some (str "1")) (put "b"%string None (put "c"%string (Some (str "3")) NewUpdateBatch)).

Lemma combined_iterator_range_witness :
  exists c, newCombinedIterator (∅ : kvmap) ex_updates ex_ns (str "a") (str "c") true = Ret c /\
    yields c (scan (apply_updates (batch_map ex_updates) ∅) ex_ns (str "a") (str "c") ++
      end_item (apply_updates (batch_map ex_updates) ∅) ex_ns (str "c") true).
Proof.
  apply (combined_iterator_range (∅ : kvmap) ∅ ex_updates ex_ns (str "a") (str "c") true); [apply (dv_state _ _ ex_empty_view)|].
  apply (ex_pub_ok []).
Defined.

(** The iterator of the updates, and the summary of its results as recorded. *)
Definition ex_itr : nsIterator := GetRangeScanIterator ex_updates ex_ns (str "a") (str "z").
Definition ex_summary : QueryReadsMerkleSummary :=
  match summarize ex_hash 2 (read_of <$> scan (batch_map ex_updates) ex_ns (str "a") (str "z")) with
  | Ret (Some s) => s
  | _ => mkQueryReadsMerkleSummary 2 0 []
  end.

Lemma hash_validation_equivalence_witness :
  exists s, summarize ex_hash (QRMS_MaxDegree ex_summary) (read_of <$> scan (batch_map ex_updates) ex_ns (str "a") (str "z")) = Ret s /\
    let o := rangeQueryHashValidator_validate ex_hash 10 ex_summary ex_itr in
    o = Ret (merkleSummariesEqual ex_summary s) \/
    merkleSummariesEqual ex_summary s = false /\ QRMS_MaxDegree ex_summary <= zlen (QRMS_MaxLevelHashes ex_summary) /\ is_panic o = true.
Proof.
  apply (hash_validation_equivalence ex_hash 10 ex_summary _ ex_itr ex_hash_total);
    [by split; vm_compute|apply GetRangeScanIterator_yields|apply Nat.ltb_lt; vm_compute; reflexivity].
Defined.

Definition ex_priv : PrivUpdateBatch :=
  let vv v := mkVersionedValue (Some (str v)) (str "m") (mkHeight 1 0) in
  mkPrivUpdateBatch (Batch_Update ex_ns (str "k") (vv "pub"%string) NewUpdateBatch)
    {[ex_ns := Batch_Update (str "coll") (str "k") (vv "hash"%string) NewUpdateBatch]}
    {[ex_ns := Batch_Update (str "coll") (str "k") (vv "pvt"%string) NewUpdateBatch]}.

Lemma ex_priv_ok : updates_ok ex_priv.
Proof.
  assert (Hh : Height_wf (mkHeight 1 0)) by (by split; split).
  assert (Hc : ns_ok (str "coll")) by (apply (bool_decide_unpack _); vm_compute; exact I).
  assert (Hb : forall n k n' k' vv, Batch_Get (Batch_Update n k vv NewUpdateBatch) n' k' = if decide ((n', k') = (n, k)) then Some vv else None)
    by (intros; by rewrite Batch_Get_Update).
  destruct (ex_pub_ok []) as (Hd & Hn & _).
  intros [n k|n c k|n c k] vv; cbn [upd_get ex_priv PubUpdates HashUpdates PvtUpdates].
  - rewrite Hb. case_decide as E; [|done]. injection E as -> ->. intros [= <-]. split; [apply ex_pub_ok|done].
  - unfold UpdateMap_Get. destruct (decide (n = ex_ns)) as [->|Hne]; [|by rewrite lookup_singleton_ne].
    rewrite lookup_singleton_eq, Hb. case_decide as E; [|done]. injection E as -> ->. intros [= <-]. by split.
  - unfold UpdateMap_Get. destruct (decide (n = ex_ns)) as [->|Hne]; [|by rewrite lookup_singleton_ne].
    rewrite lookup_singleton_eq, Hb. case_decide as E; [|done]. injection E as -> ->. intros [= <-]. by split.
Qed.

Lemma data_kinds_independent_witness :
  exists s' σ', ApplyPrivacyAwareUpdates ex_priv None ex_empty = (Ret tt, s') /\ db_view s' σ' /\
    forall k, dk_ok k -> σ' !! loc (D := kvmap) k = match upd_get ex_priv k with Some vv => live vv | None => (∅ : state) !! loc (D := kvmap) k end.
Proof. apply (data_kinds_independent ex_empty ∅ ex_priv None ex_empty_view ex_priv_ok). Defined.

Definition ex_committed : DB kvmap := snd (ApplyPrivacyAwareUpdates ex_priv None ex_empty).

Lemma ex_committed_run : ApplyPrivacyAwareUpdates ex_priv None ex_empty = (Ret tt, ex_committed).
Proof.
  unfold ex_committed. destruct (ApplyPrivacyAwareUpdates_ok ex_empty ∅ ex_priv None ex_empty_view ex_priv_ok) as (s' & E & _). by rewrite E.
Qed.

Lemma metadata_hint_invariant_witness :
  GetStateMetadata ex_committed ex_ns (str "k") =
    Ret (metadata_of (apply_updates (batch_map (combined (D := kvmap) ex_priv)) ∅ !! (ex_ns, str "k"))) /\
  mh_cache (newMetadataHint (mh_bookkeeper (db_hint ex_committed))) = mh_cache (db_hint ex_committed).
Proof.
  destruct (metadata_hint_invariant ex_empty ex_committed ∅ (apply_updates (batch_map (combined (D := kvmap) ex_priv)) ∅) ex_empty_view) as (H1 & _ & H3).
  - eapply committed_batch; [apply committed_start|apply ex_priv_ok|apply ex_committed_run].
  - split; [apply H1, ex_pub_ok|exact H3].
Defined.

Lemma query_summary_bounded_witness :
  exists h0 h m, NewRangeQueryResultsHelper true 2 = Ret h0 /\
    foldM (AddResult ex_hash) (read_of <$> scan (batch_map ex_updates) ex_ns [] []) h0 = Ret h /\
    rqh_mt h = Some m /\ 1 <= mt_maxLevel m /\
    (forall lv, zlen (level m lv) <= 2) /\ (forall lv, mt_maxLevel m < lv -> level m lv = []).
Proof. apply (query_summary_bounded ex_hash 2 _ ex_hash_total). by split. Defined.

Lemma ex_committed_view : db_view ex_committed (apply_updates (batch_map (combined (D := kvmap) ex_priv)) ∅).
Proof.
  destruct (ApplyPrivacyAwareUpdates_ok ex_empty ∅ ex_priv None ex_empty_view ex_priv_ok) as (s' & E & Hv).
  rewrite ex_committed_run in E. injection E as <-. exact Hv.
Qed.

(** The export of a state leaves out the private data. *)
Lemma snapshot_roundtrip_witness :
  exists items db, yields (newFullDBScanner (db_vdb ex_committed) isPvtdataNs) items /\
    (forall fuel, (length items < fuel)%nat ->
       importState fuel (Some (newFullDBScanner (db_vdb ex_committed) isPvtdataNs)) (mkHeight 5 0) ∅ = (Ret tt, db)) /\
    leveldb_view db
      (filter (fun x => isPvtdataNs (fst (fst x)) = false) (apply_updates (batch_map (combined (D := kvmap) ex_priv)) ∅)) /\
    vdb_GetLatestSavePoint db = Ret (Some (mkHeight 5 0)).
Proof.
  apply (snapshot_roundtrip (db_vdb ex_committed) _ isPvtdataNs (mkHeight 5 0)); [apply (dv_state _ _ ex_committed_view)|by split; split].
Defined.

(** ** Blocks that stop the peer *)

(** A block whose first transaction deletes the key the second one writes the
    metadata of. *)
Definition ex_revival : block := mkblock 2
  [ex_tx 0 (ex_kv [mkKVWrite (str "k") true []] [] [] []);
   ex_tx 1 (ex_kv [] [mkKVMetadataWrite (str "k") [mkKVMetadataEntry (str "VALIDATION_PARAMETER") (str "p")]] [] [])].

(** a transaction that writes only the metadata of a key which an earlier
    transaction of the same block has deleted makes validation panic, where the same
    transaction in a block of its own is valid. *)
Theorem metadata_of_deleted_key_panics :
  is_panic (fst (validateAndPrepareBatch ex_hash 10 ex_revival true ex_committed)) = true /\
  is_ret (fst (validateAndPrepareBatch ex_hash 10 (mkblock 2 (drop 1 (blk_txs ex_revival))) true ex_committed)) = true.
Proof. split; vm_compute; reflexivity. Qed.

(** a transaction that writes an empty value makes validation panic: the value
    is decoded as nil, which [PutValAndMetadata] refuses. *)
Theorem empty_value_panics :
  is_panic (fst (validateAndPrepareBatch ex_hash 10
    (mkblock 2 [ex_tx 0 (ex_kv [newKVWrite (str "k") (Some [])] [] [] [])]) true ex_empty)) = true.
Proof. vm_compute. reflexivity. Qed.

(** A state with six keys, the summary of a query for all of them with at most two
    hashes to a level, and a block that adds three keys and then replays the query. *)
Definition ex_six : UpdateBatch :=
  fold_left (fun batch k => Batch_Update ex_ns (str k) (mkVersionedValue (Some (str "v")) [] (mkHeight 1 0)) batch)
    ["a"; "b"; "c"; "d"; "e"; "f"]%string NewUpdateBatch.

Definition ex_six_db : DB kvmap := snd (ApplyPrivacyAwareUpdates (mkPrivUpdateBatch ex_six ∅ ∅) None ex_empty).

Definition ex_six_query : RangeQueryInfo :=
  mkRangeQueryInfo (str "a") (str "z") true
    match summarize ex_hash 2 (read_of <$> scan (batch_map ex_six) ex_ns (str "a") (str "z")) with
    | Ret (Some s) => Some (ReadsMerkleHashes s)
    | _ => None
    end.

Definition ex_growth (keys : list string) : block := mkblock 2
  [ex_tx 0 (ex_kv (ex_write <$> keys) [] [] []); ex_tx 1 (ex_kv [] [] [] [ex_six_query])].

(** The query in a block: without new keys it is valid, with one new key it is a phantom
    read, and with three validation panics. *)
Lemma full_summary_stops_block :
  let codes b := match fst (validateAndPrepareBatch ex_hash 20 b true ex_six_db) with
    | Ret r => Some (tx_validationCode <$> blk_txs (snd r)) | _ => None end in
  codes (ex_growth []) = Some [TxValidationCode_VALID; TxValidationCode_VALID] /\
  codes (ex_growth ["g"%string]) = Some [TxValidationCode_VALID; TxValidationCode_PHANTOM_READ_CONFLICT] /\
  is_panic (fst (validateAndPrepareBatch ex_hash 20 (ex_growth ["g"; "h"; "i"]%string) true ex_six_db)) = true.
Proof. split; [|split]; vm_compute; reflexivity. Qed.

(** The results of the query when the three keys are there, after the first [k]. *)
Definition ex_nine : UpdateBatch :=
  fold_left (fun batch k => Batch_Update ex_ns (str k) (mkVersionedValue (Some (str "v")) [] (mkHeight 1 0)) batch) ["g"; "h"; "i"]%string ex_six.
Definition ex_nine_results : list VersionedKV := scan (batch_map ex_nine) ex_ns (str "a") (str "z").
Definition ex_six_summary : QueryReadsMerkleSummary := default (mkQueryReadsMerkleSummary 2 0 []) (GetReadsMerkleHashes ex_six_query).
Definition ex_ninth : VersionedKV := default (mkVersionedKV [] [] (mkVersionedValue None [] (mkHeight 0 0))) (ex_nine_results !! 8%nat).

Definition ex_helper (k : nat) : RangeQueryResultsHelper :=
  match NewRangeQueryResultsHelper true 2 with
  | Ret h => match foldM (AddResult ex_hash) (read_of <$> take k ex_nine_results) h with Ret h' => h' | _ => h end
  | _ => mkRangeQueryResultsHelper [] None 0 false
  end.

Definition ex_helper_summary (k : nat) : QueryReadsMerkleSummary :=
  match GetMerkleSummary (ex_helper k) with Ret (Some s) => s | _ => mkQueryReadsMerkleSummary 0 0 [] end.

Lemma full_summary_panics_witness :
  QRMS_MaxLevelHashes (ex_helper_summary 8) = QRMS_MaxLevelHashes ex_six_summary /\
  is_panic (rangeQueryHashValidator_validate ex_hash 10 ex_six_summary (GetRangeScanIterator ex_nine ex_ns (str "a") (str "z"))) = true.
Proof.
  split; [vm_compute; reflexivity|].
  apply (full_summary_panics ex_hash 10 ex_six_summary (ex_helper_summary 8) (ex_helper_summary 9) (take 8 ex_nine_results) [] ex_ninth _ (ex_helper 0) (ex_helper 8) (ex_helper 9) ex_hash_total).
  - by split; vm_compute.
  - replace (take 8 ex_nine_results ++ [ex_ninth]) with ex_nine_results by (vm_compute; reflexivity). apply GetRangeScanIterator_yields.
  - apply Nat.ltb_lt. vm_compute. reflexivity.
  - vm_compute. reflexivity.
  - vm_compute. reflexivity.
  - vm_compute. reflexivity.
  - vm_compute. reflexivity.
  - replace (QRMS_MaxLevelHashes (ex_helper_summary 8)) with (QRMS_MaxLevelHashes ex_six_summary) by (vm_compute; reflexivity). reflexivity.
  - vm_compute. reflexivity.
  - vm_compute. reflexivity.
  - vm_compute. reflexivity.
Defined.
