(* ===== verification/RwSetBuilder.v ===== *)
(** * The builder of read-write sets

    src/core/ledger/kvledger/txmgmt/rwsetutil/rwset_builder.go: what a transaction
    reads and writes is collected in maps, per name space and collection, and laid
    out in the order of the keys when the simulation ends.  [GetValuesBySortedKeys]
    is from src/core/ledger/util/util.go. *)

From S2P Require Import Prelude OrderedCode LevelDB Sha256 Proto StateProto StateDB RwSet.

Definition GetValuesBySortedKeys {A} (m : gmap bytes A) : list A := omap (fun k => m !! k) (GetSortedKeys m).

(** ** The structures *)

Abbreviation rangeQueryKey := (bytes * bytes * bool)%type.

Record collHashRwBuilder := mkcollHashRwBuilder {
  chb_collName : bytes;
  chb_readMap : gmap bytes KVReadHash;
  chb_writeMap : gmap bytes KVWriteHash;
  chb_metadataWriteMap : gmap bytes KVMetadataWriteHash;
  chb_pvtDataHash : bytes }.

Record nsPubRwBuilder := mknsPubRwBuilder {
  npb_namespace : bytes;
  npb_readMap : gmap bytes KVRead;
  npb_writeMap : gmap bytes KVWrite;
  npb_metadataWriteMap : gmap bytes KVMetadataWrite;
  npb_rangeQueriesMap : gmap rangeQueryKey RangeQueryInfo;
  npb_rangeQueriesKeys : list rangeQueryKey;
  npb_collHashRwBuilder : gmap bytes collHashRwBuilder }.

Record collPvtRwBuilder := mkcollPvtRwBuilder {
  cpb_collectionName : bytes;
  cpb_writeMap : gmap bytes KVWrite;
  cpb_metadataWriteMap : gmap bytes KVMetadataWrite }.

Record nsPvtRwBuilder := mknsPvtRwBuilder {
  nvb_namespace : bytes;
  nvb_collPvtRwBuilders : gmap bytes collPvtRwBuilder }.

Record RWSetBuilder := mkRWSetBuilder {
  pubRwBuilderMap : gmap bytes nsPubRwBuilder;
  pvtRwBuilderMap : gmap bytes nsPvtRwBuilder }.

Definition NewRWSetBuilder : RWSetBuilder := mkRWSetBuilder ∅ ∅.

Definition newNsPubRwBuilder (namespace : bytes) : nsPubRwBuilder := mknsPubRwBuilder namespace ∅ ∅ ∅ ∅ [] ∅.
Definition newNsPvtRwBuilder (namespace : bytes) : nsPvtRwBuilder := mknsPvtRwBuilder namespace ∅.
Definition newCollHashRwBuilder (collName : bytes) : collHashRwBuilder := mkcollHashRwBuilder collName ∅ ∅ ∅ [].
Definition newCollPvtRwBuilder (collName : bytes) : collPvtRwBuilder := mkcollPvtRwBuilder collName ∅ ∅.

(** ** Getting or creating a part

    Go hands out pointers into the maps; here the part is changed by a function. *)

Definition getOrCreateNsPubRwBuilder (b : RWSetBuilder) (ns : bytes) : nsPubRwBuilder :=
  default (newNsPubRwBuilder ns) (pubRwBuilderMap b !! ns).

Definition getOrCreateNsPvtRwBuilder (b : RWSetBuilder) (ns : bytes) : nsPvtRwBuilder :=
  default (newNsPvtRwBuilder ns) (pvtRwBuilderMap b !! ns).

Definition on_ns_pub (ns : bytes) (f : nsPubRwBuilder -> nsPubRwBuilder) (b : RWSetBuilder) : RWSetBuilder :=
  mkRWSetBuilder (<[ns := f (getOrCreateNsPubRwBuilder b ns)]> (pubRwBuilderMap b)) (pvtRwBuilderMap b).

Definition on_ns_pvt (ns : bytes) (f : nsPvtRwBuilder -> nsPvtRwBuilder) (b : RWSetBuilder) : RWSetBuilder :=
  mkRWSetBuilder (pubRwBuilderMap b) (<[ns := f (getOrCreateNsPvtRwBuilder b ns)]> (pvtRwBuilderMap b)).

Definition getOrCreateCollHashedRwBuilder (n : nsPubRwBuilder) (coll : bytes) : collHashRwBuilder :=
  default (newCollHashRwBuilder coll) (npb_collHashRwBuilder n !! coll).

Definition getOrCreateCollPvtRwBuilder (n : nsPvtRwBuilder) (coll : bytes) : collPvtRwBuilder :=
  default (newCollPvtRwBuilder coll) (nvb_collPvtRwBuilders n !! coll).

Definition set_coll (coll : bytes) (f : collHashRwBuilder -> collHashRwBuilder) (n : nsPubRwBuilder) : nsPubRwBuilder :=
  mknsPubRwBuilder (npb_namespace n) (npb_readMap n) (npb_writeMap n) (npb_metadataWriteMap n) (npb_rangeQueriesMap n)
    (npb_rangeQueriesKeys n) (<[coll := f (getOrCreateCollHashedRwBuilder n coll)]> (npb_collHashRwBuilder n)).

Definition on_coll_hash (ns coll : bytes) (f : collHashRwBuilder -> collHashRwBuilder) (b : RWSetBuilder) : RWSetBuilder :=
  on_ns_pub ns (set_coll coll f) b.

Definition on_coll_pvt (ns coll : bytes) (f : collPvtRwBuilder -> collPvtRwBuilder) (b : RWSetBuilder) : RWSetBuilder :=
  on_ns_pvt ns (fun n => mknsPvtRwBuilder (nvb_namespace n)
    (<[coll := f (getOrCreateCollPvtRwBuilder n coll)]> (nvb_collPvtRwBuilders n))) b.

(** ** Adding reads and writes *)

Definition AddToReadSet (ns key : bytes) (version : option Height) (b : RWSetBuilder) : RWSetBuilder :=
  on_ns_pub ns (fun n => mknsPubRwBuilder (npb_namespace n) (<[key := NewKVRead key version]> (npb_readMap n)) (npb_writeMap n)
    (npb_metadataWriteMap n) (npb_rangeQueriesMap n) (npb_rangeQueriesKeys n) (npb_collHashRwBuilder n)) b.

Definition AddToWriteSet (ns key : bytes) (value : option bytes) (b : RWSetBuilder) : RWSetBuilder :=
  on_ns_pub ns (fun n => mknsPubRwBuilder (npb_namespace n) (npb_readMap n) (<[key := newKVWrite key value]> (npb_writeMap n))
    (npb_metadataWriteMap n) (npb_rangeQueriesMap n) (npb_rangeQueriesKeys n) (npb_collHashRwBuilder n)) b.

(** A nil map has no keys. *)
Definition metadata_entries (m : gmap bytes bytes) : list KVMetadataEntry :=
  (fun name => mkKVMetadataEntry name (default [] (m !! name))) <$> GetSortedKeys m.

Definition mapToMetadataWrite (key : bytes) (m : gmap bytes bytes) : KVMetadataWrite :=
  mkKVMetadataWrite key (metadata_entries m).

Definition mapToMetadataWriteHash (key : bytes) (m : gmap bytes bytes) : KVMetadataWriteHash :=
  mkKVMetadataWriteHash (Sum256 key) (metadata_entries m).

Definition AddToMetadataWriteSet (ns key : bytes) (metadata : gmap bytes bytes) (b : RWSetBuilder) : RWSetBuilder :=
  on_ns_pub ns (fun n => mknsPubRwBuilder (npb_namespace n) (npb_readMap n) (npb_writeMap n)
    (<[key := mapToMetadataWrite key metadata]> (npb_metadataWriteMap n))
    (npb_rangeQueriesMap n) (npb_rangeQueriesKeys n) (npb_collHashRwBuilder n)) b.

(** A second query with the same bounds is not recorded again. *)
Definition AddToRangeQuerySet (ns : bytes) (rqi : RangeQueryInfo) (b : RWSetBuilder) : RWSetBuilder :=
  on_ns_pub ns (fun n =>
    let key := (RQI_StartKey rqi, RQI_EndKey rqi, RQI_ItrExhausted rqi) in
    match npb_rangeQueriesMap n !! key with
    | Some _ => n
    | None => mknsPubRwBuilder (npb_namespace n) (npb_readMap n) (npb_writeMap n) (npb_metadataWriteMap n)
        (<[key := rqi]> (npb_rangeQueriesMap n)) (npb_rangeQueriesKeys n ++ [key]) (npb_collHashRwBuilder n)
    end) b.

Definition AddToHashedReadSet (ns coll key : bytes) (version : option Height) (b : RWSetBuilder) : RWSetBuilder :=
  on_coll_hash ns coll (fun c => mkcollHashRwBuilder (chb_collName c) (<[key := newPvtKVReadHash key version]> (chb_readMap c))
    (chb_writeMap c) (chb_metadataWriteMap c) (chb_pvtDataHash c)) b.

Definition AddToPvtAndHashedWriteSet (ns coll key : bytes) (value : option bytes) (b : RWSetBuilder) : RWSetBuilder :=
  let '(kvWrite, kvWriteHash) := newPvtKVWriteAndHash key value in
  let b := on_coll_pvt ns coll (fun c =>
    mkcollPvtRwBuilder (cpb_collectionName c) (<[key := kvWrite]> (cpb_writeMap c)) (cpb_metadataWriteMap c)) b in
  on_coll_hash ns coll (fun c => mkcollHashRwBuilder (chb_collName c) (chb_readMap c) (<[key := kvWriteHash]> (chb_writeMap c))
    (chb_metadataWriteMap c) (chb_pvtDataHash c)) b.

(** The private part only names the key. *)
Definition AddToHashedMetadataWriteSet (ns coll key : bytes) (metadata : gmap bytes bytes) (b : RWSetBuilder) : RWSetBuilder :=
  let b := on_coll_pvt ns coll (fun c =>
    mkcollPvtRwBuilder (cpb_collectionName c) (cpb_writeMap c) (<[key := mkKVMetadataWrite key []]> (cpb_metadataWriteMap c))) b in
  on_coll_hash ns coll (fun c => mkcollHashRwBuilder (chb_collName c) (chb_readMap c) (chb_writeMap c)
    (<[key := mapToMetadataWriteHash key metadata]> (chb_metadataWriteMap c)) (chb_pvtDataHash c)) b.

(** ** Building the sets *)

Definition collHashRwBuilder_build (b : collHashRwBuilder) : CollHashedRwSet :=
  mkCollHashedRwSet (chb_collName b)
    (mkHashedRWSet (GetValuesBySortedKeys (chb_readMap b)) (GetValuesBySortedKeys (chb_writeMap b))
      (GetValuesBySortedKeys (chb_metadataWriteMap b)))
    (chb_pvtDataHash b).

(** Every key of the list is in the map. *)
Definition nsPubRwBuilder_build (b : nsPubRwBuilder) : NsRwSet :=
  mkNsRwSet (npb_namespace b)
    (mkKVRWSet (GetValuesBySortedKeys (npb_readMap b))
      (omap (fun key => npb_rangeQueriesMap b !! key) (npb_rangeQueriesKeys b))
      (GetValuesBySortedKeys (npb_writeMap b)) (GetValuesBySortedKeys (npb_metadataWriteMap b)))
    (collHashRwBuilder_build <$> GetValuesBySortedKeys (npb_collHashRwBuilder b)).

Definition collPvtRwBuilder_build (b : collPvtRwBuilder) : CollPvtRwSet :=
  mkCollPvtRwSet (cpb_collectionName b)
    (mkKVRWSet [] [] (GetValuesBySortedKeys (cpb_writeMap b)) (GetValuesBySortedKeys (cpb_metadataWriteMap b))).

Definition nsPvtRwBuilder_build (b : nsPvtRwBuilder) : NsPvtRwSet :=
  mkNsPvtRwSet (nvb_namespace b) (collPvtRwBuilder_build <$> GetValuesBySortedKeys (nvb_collPvtRwBuilders b)).

Definition GetTxReadWriteSet (b : RWSetBuilder) : TxRwSet :=
  mkTxRwSet (nsPubRwBuilder_build <$> GetValuesBySortedKeys (pubRwBuilderMap b)).

(** Nil where no private data is written. *)
Definition getTxPvtReadWriteSet (b : RWSetBuilder) : option TxPvtRwSet :=
  match nsPvtRwBuilder_build <$> GetValuesBySortedKeys (pvtRwBuilderMap b) with
  | [] => None
  | nsPvtRwSets => Some (mkTxPvtRwSet nsPvtRwSets)
  end.

Record TxSimulationResults := mkTxSimulationResults {
  PubSimulationResults : TxReadWriteSet;
  PvtSimulationResults : option TxPvtReadWriteSet }.

Definition setPvtCollectionHash (ns coll pvtDataProto : bytes) (b : RWSetBuilder) : RWSetBuilder :=
  on_coll_hash ns coll (fun c =>
    mkcollHashRwBuilder (chb_collName c) (chb_readMap c) (chb_writeMap c) (chb_metadataWriteMap c) (Sum256 pvtDataProto)) b.

Section Results.
Context {PR : Protos} {SP : StateProtos}.

Definition set_ns_hashes (b : RWSetBuilder) (ns : NsPvtReadWriteSet) : RWSetBuilder :=
  fold_left (fun b coll => setPvtCollectionHash (NsPvtReadWriteSet_Namespace ns)
      (CollectionPvtReadWriteSet_CollectionName coll) (CollectionPvtReadWriteSet_Rwset coll) b)
    (NsPvtReadWriteSet_CollectionPvtRwset ns) b.

(** The hashes of the private sets go into the public set before it is built. *)
Definition builder_GetTxSimulationResults (b : RWSetBuilder) : TxSimulationResults * RWSetBuilder :=
  let pvtDataProto := TxPvtRwSet_ToProtoMsg <$> getTxPvtReadWriteSet b in
  let b := match pvtDataProto with
    | Some p => fold_left set_ns_hashes (TxPvtReadWriteSet_NsPvtRwset p) b
    | None => b
    end in
  (mkTxSimulationResults (TxRwSet_toProtoMsg (GetTxReadWriteSet b)) pvtDataProto, b).

End Results.
