(* ===== verification/RwSetBuilderOk.v ===== *)
(** * What a builder of read-write sets holds

    The set a builder lays out has one write and one metadata write per key, the
    last ones added, and the reads that were added.  [builder_ok] is the invariant;
    [log] is the sequence of writes as they were made. *)

From S2P Require Import Prelude OrderedCode LevelDB Sha256 Proto StateProto StateDB StateDBOk PrivState PrivStateOk RwSet RwSetOk Validation CombinedItr RangeQuery Serial ValidationOk Serializable RwSetBuilder.

(** ** Values in the order of the keys *)

Lemma values_elem {A : Type} (m : gmap bytes A) (a : A) : a ∈ GetValuesBySortedKeys m <-> exists k, m !! k = Some a.
Proof.
  unfold GetValuesBySortedKeys. rewrite list_elem_of_omap. split.
  - intros (k & _ & E). by exists k.
  - intros (k & E). exists k. by rewrite sorted_keys_elem, E.
Qed.

(** A function that is empty on all values but one. *)
Lemma values_bind_single {A B : Type} (m : gmap bytes A) (f : A -> list B) (k : bytes) :
  (forall k' a, m !! k' = Some a -> k' <> k -> f a = []) ->
  GetValuesBySortedKeys m ≫= f = match m !! k with Some a => f a | None => [] end.
Proof.
  intros Hf. unfold GetValuesBySortedKeys.
  assert (H : forall l, NoDup l -> (forall k', k' ∈ l -> is_Some (m !! k')) ->
    omap (fun k => m !! k) l ≫= f = if decide (k ∈ l) then match m !! k with Some a => f a | None => [] end else []).
  { induction l as [|k' l IH]; intros Hn Hs; [done|]. apply NoDup_cons in Hn as [Hk' Hn].
    destruct (Hs k') as [a Ea]; [by left|]. cbn [omap list_omap]. rewrite Ea. cbn [mbind list_bind].
    assert (IH' := IH Hn (fun x Hx => Hs x (list_elem_of_further _ _ _ Hx))). clear IH.
    change (list_omap _ _ _ l) with (omap (fun k => m !! k) l). change (list_bind ?x ?y ?f ?l) with (l ≫= f). rewrite IH'.
    destruct (decide (k' = k)) as [->|Hne].
    - rewrite decide_False by done. rewrite app_nil_r, decide_True by (by left). by rewrite Ea.
    - rewrite (Hf k' a Ea Hne). cbn [app]. destruct (decide (k ∈ l)) as [Hk|Hk].
      + rewrite decide_True by (by right). done.
      + rewrite decide_False; [done|]. by rewrite not_elem_of_cons. }
  rewrite H; [|apply sorted_keys_NoDup|intros; by apply sorted_keys_elem].
  case_decide as Hk; [done|]. rewrite sorted_keys_elem in Hk. destruct (m !! k) eqn:E; [|done]. destruct Hk. by eexists.
Qed.

(** ** The writes of a key *)

Lemma writes_at_app (ck : compositeKey) (l l' : list (compositeKey * write)) :
  writes_at ck (l ++ l') = writes_at ck l ++ writes_at ck l'.
Proof. unfold writes_at. by rewrite filter_app, fmap_app. Qed.

Lemma writes_at_bind {A} (ck : compositeKey) (f : A -> list (compositeKey * write)) (l : list A) :
  writes_at ck (l ≫= f) = l ≫= (fun a => writes_at ck (f a)).
Proof. induction l as [|a l IH]; [done|]. cbn [mbind list_bind]. rewrite writes_at_app. by f_equal. Qed.

Definition at_key (ck : compositeKey) (x : compositeKey * write) : list write := if decide (fst x = ck) then [snd x] else [].

Lemma writes_at_fmap {A} (ck : compositeKey) (g : A -> compositeKey * write) (l : list A) :
  writes_at ck (g <$> l) = l ≫= (fun a => at_key ck (g a)).
Proof. induction l as [|a l IH]; [done|]. cbn [fmap list_fmap mbind list_bind]. rewrite writes_at_cons. f_equal. apply IH. Qed.

Lemma key_writes_tail (w : write) (ws : list write) :
  key_writes (w :: ws) -> is_metadata w = false -> Forall (fun w => is_metadata w = true) ws.
Proof. intros H Hw. inversion H; subst; try done; by repeat constructor. Qed.

(** A list of writes is in order when those of every key are. *)
Lemma key_writes_ordered (l : list (compositeKey * write)) : (forall ck, key_writes (writes_at ck l)) -> writes_ordered l = true.
Proof.
  induction l as [|[ck w] l IH]; intros H; [done|]. cbn [writes_ordered]. rewrite !andb_true_iff.
  assert (Hck := H ck). rewrite writes_at_cons in Hck. cbn [fst snd] in Hck. rewrite decide_True in Hck by done. cbn [app] in Hck.
  assert (Hnone : forall y, writes_at ck l = [] -> y ∈ l -> fst y <> ck).
  { intros y E Hy <-. assert (Hin : snd y ∈ writes_at (fst y) l).
    { unfold writes_at. apply list_elem_of_fmap. exists y. split; [done|]. by apply list_elem_of_filter. }
    rewrite E in Hin. by apply not_elem_of_nil in Hin. }
  split; [split|].
  - destruct (is_metadata w) eqn:Em; apply forallb_Forall, Forall_forall; intros y Hy.
    + rewrite negb_true_iff, bool_decide_eq_false. apply Hnone; [|done]. inversion Hck; subst; done.
    + rewrite orb_true_iff, negb_true_iff, bool_decide_eq_false. destruct (decide (fst y = ck)) as [Ey|]; [|by left]. right.
      assert (Hin : snd y ∈ writes_at ck l).
      { unfold writes_at. apply list_elem_of_fmap. exists y. split; [done|]. by apply list_elem_of_filter. }
      pose proof (key_writes_tail _ _ Hck Em) as Ht. rewrite Forall_forall in Ht. by apply Ht.
  - destruct w as [[|b v]| |md]; try done. inversion Hck; subst; done.
  - apply IH. intros ck'. specialize (H ck'). rewrite writes_at_cons in H. cbn [fst snd] in H. destruct (decide (ck = ck')) as [<-|Hne]; [|done].
    cbn [app] in H. inversion H; constructor.
Qed.

(** The last value or deletion, and the last metadata, in this order. *)
Definition last_list {A} (l : list A) : list A := match last l with Some a => [a] | None => [] end.

Definition collapse (ws : list write) : list write :=
  last_list (filter (fun w => is_metadata w = false) ws) ++ last_list (filter (fun w => is_metadata w = true) ws).

Lemma last_list_snoc {A} (l : list A) (a : A) : last_list (l ++ [a]) = [a].
Proof. unfold last_list. by rewrite last_snoc. Qed.

Lemma collapse_snoc (ws : list write) (w : write) :
  collapse (ws ++ [w]) =
    if is_metadata w then last_list (filter (fun w => is_metadata w = false) ws) ++ [w]
    else w :: last_list (filter (fun w => is_metadata w = true) ws).
Proof.
  unfold collapse. rewrite !filter_app. destruct (is_metadata w) eqn:Em.
  - rewrite (filter_cons_False _ w []) by congruence. rewrite filter_nil, app_nil_r.
    by rewrite (filter_cons_True (fun w => is_metadata w = true)), filter_nil, last_list_snoc.
  - rewrite (filter_cons_True (fun w => is_metadata w = false)), filter_nil, last_list_snoc by done.
    by rewrite (filter_cons_False (fun w => is_metadata w = true)), filter_nil, app_nil_r by congruence.
Qed.

(** On a key that exists and is not deleted it makes no difference whether all the
    writes are made in order or these two. *)
Lemma collapse_in_order (h : Height) (ws : list write) (vv : VersionedValue) :
  WDelete ∉ ws ->
  fold_left (fun cur w => write_value h w cur) (collapse ws) (Some vv) = fold_left (fun cur w => write_value h w cur) ws (Some vv).
Proof.
  induction ws as [|w ws IH] using rev_ind; [done|]. rewrite elem_of_app, list_elem_of_singleton. intros Hd.
  rewrite fold_left_app. cbn [fold_left]. rewrite <- IH by tauto. rewrite collapse_snoc. unfold collapse.
  assert (HV : exists o, last_list (filter (fun w => is_metadata w = false) ws) = match o with Some v => [WValue v] | None => [] end).
  { unfold last_list. destruct (last _) as [x|] eqn:E; [|by exists None]. apply last_Some_elem_of, list_elem_of_filter in E as [Ex Hx].
    destruct x as [v| |]; [by exists (Some v)| |done]. tauto. }
  assert (HM : exists o, last_list (filter (fun w => is_metadata w = true) ws) = match o with Some m => [WMetadata m] | None => [] end).
  { unfold last_list. destruct (last _) as [x|] eqn:E; [|by exists None]. apply last_Some_elem_of, list_elem_of_filter in E as [Ex Hx].
    destruct x as [| |m]; [done..|by exists (Some m)]. }
  destruct HV as [ov ->], HM as [om ->]. destruct w as [v| |md]; cbn [is_metadata]; [|tauto|]; by destruct ov, om.
Qed.

Lemma last_list_spec {A} (P : A -> Prop) `{!forall a, Decision (P a)} (l : list A) :
  last_list (filter P l) = [] \/ exists a, last_list (filter P l) = [a] /\ P a /\ a ∈ l.
Proof.
  unfold last_list. destruct (last (filter P l)) as [a|] eqn:E; [|by left]. right. exists a.
  apply last_Some_elem_of, list_elem_of_filter in E as [? ?]. done.
Qed.

Lemma collapse_elem (w : write) (ws : list write) : w ∈ collapse ws -> w ∈ ws.
Proof.
  unfold collapse. rewrite elem_of_app.
  destruct (last_list_spec (fun w => is_metadata w = false) ws) as [->|(a & -> & _ & Ha)];
    destruct (last_list_spec (fun w => is_metadata w = true) ws) as [->|(b & -> & _ & Hb)];
    rewrite ?elem_of_nil, ?list_elem_of_singleton; intuition congruence.
Qed.

Lemma collapse_key_writes (ws : list write) : Forall (fun w => w <> WValue []) ws -> key_writes (collapse ws).
Proof.
  intros Hv. unfold collapse. rewrite Forall_forall in Hv.
  destruct (last_list_spec (fun w => is_metadata w = false) ws) as [->|(a & -> & Ha & Hin)];
    destruct (last_list_spec (fun w => is_metadata w = true) ws) as [->|(b & -> & Hb & _)]; cbn [app];
    repeat match goal with H : is_metadata ?x = _ |- _ => destruct x; cbn in H; try discriminate H; clear H end;
    constructor; intros ->; by apply (Hv _ Hin).
Qed.

(** ** The log of writes *)

Definition value_at (ck : compositeKey) (log : list (compositeKey * write)) : option write :=
  last (filter (fun w => is_metadata w = false) (writes_at ck log)).

Definition metadata_at (ck : compositeKey) (log : list (compositeKey * write)) : option write :=
  last (filter (fun w => is_metadata w = true) (writes_at ck log)).

(** One more write of the kind [P]. *)
Lemma last_at_snoc (P : write -> Prop) `{!forall w, Decision (P w)} (ck ck' : compositeKey) (w : write) (log : list (compositeKey * write)) :
  last (filter P (writes_at ck (log ++ [(ck', w)]))) = if decide (ck' = ck /\ P w) then Some w else last (filter P (writes_at ck log)).
Proof.
  rewrite writes_at_app, writes_at_cons, filter_app. cbn [fst snd]. change (writes_at ck []) with (@nil write). rewrite app_nil_r.
  destruct (decide (ck' = ck)) as [Hc|Hc], (decide (P w)) as [Hw|Hw].
  - rewrite filter_cons_True, filter_nil, last_snoc by done. by rewrite decide_True.
  - rewrite filter_cons_False, filter_nil, app_nil_r by done. by rewrite decide_False by (by intros [_ ?]).
  - rewrite filter_nil, app_nil_r. by rewrite decide_False by (by intros [? _]).
  - rewrite filter_nil, app_nil_r. by rewrite decide_False by (by intros [? _]).
Qed.

Lemma value_at_snoc (ck ck' : compositeKey) (w : write) (log : list (compositeKey * write)) :
  value_at ck (log ++ [(ck', w)]) = if decide (ck' = ck /\ is_metadata w = false) then Some w else value_at ck log.
Proof. exact (last_at_snoc (fun w => is_metadata w = false) ck ck' w log). Qed.

Lemma metadata_at_snoc (ck ck' : compositeKey) (w : write) (log : list (compositeKey * write)) :
  metadata_at ck (log ++ [(ck', w)]) = if decide (ck' = ck /\ is_metadata w = true) then Some w else metadata_at ck log.
Proof. exact (last_at_snoc (fun w => is_metadata w = true) ck ck' w log). Qed.

Lemma collapse_at (ck : compositeKey) (log : list (compositeKey * write)) :
  collapse (writes_at ck log) = option_list (value_at ck log) ++ option_list (metadata_at ck log).
Proof. unfold collapse, last_list, value_at, metadata_at. by repeat case_match. Qed.

Section BuilderOk.
Context {SP : StateProtos}.

(** What is known of the reads and of the range queries. *)
Variable Pread : data_key -> option Height -> Prop.
Variable Pquery : bytes -> RangeQueryInfo -> Prop.
(** The private keys in use, which have different hashes. *)
Variable keys : list bytes.

Definition hash_write (w : KVWriteHash) : write :=
  write_of (mkKVWrite (KVWriteHash_KeyHash w) (KVWriteHash_IsDelete w) (KVWriteHash_ValueHash w)).

Record coll_builder_ok (ns coll : bytes) (c : collHashRwBuilder) : Prop := {
  cb_name : chb_collName c = coll;
  cb_reads : forall key r, chb_readMap c !! key = Some r ->
    Pread (HashKey ns coll (KVReadHash_KeyHash r)) (NewVersion (KVReadHash_Version r));
  cb_writes : forall key w, chb_writeMap c !! key = Some w -> key ∈ keys /\ KVWriteHash_KeyHash w = Sum256 key;
  cb_metadata : forall key w, chb_metadataWriteMap c !! key = Some w -> key ∈ keys /\ KVMetadataWriteHash_KeyHash w = Sum256 key }.

Record ns_builder_ok (ns : bytes) (n : nsPubRwBuilder) : Prop := {
  nb_name : npb_namespace n = ns;
  nb_reads : forall key r, npb_readMap n !! key = Some r -> Pread (PubKey ns (KVRead_Key r)) (NewVersion (KVRead_Version r));
  nb_writes : forall key w, npb_writeMap n !! key = Some w -> KVWrite_Key w = key /\ (KVWrite_IsDelete w = true -> KVWrite_Value w = []);
  nb_metadata : forall key w, npb_metadataWriteMap n !! key = Some w -> KVMetadataWrite_Key w = key;
  nb_queries : forall k rq, npb_rangeQueriesMap n !! k = Some rq -> Pquery ns rq;
  nb_colls : forall coll c, npb_collHashRwBuilder n !! coll = Some c -> coll <> [] /\ coll_builder_ok ns coll c }.

Definition builder_ok (b : RWSetBuilder) : Prop := forall ns n, pubRwBuilderMap b !! ns = Some n -> ns_builder_ok ns n.

Definition coll_of (n : nsPubRwBuilder) (coll : bytes) : collHashRwBuilder := getOrCreateCollHashedRwBuilder n coll.

(** The maps hold the last write of every key. *)
Record logged (b : RWSetBuilder) (log : list (compositeKey * write)) : Prop := {
  lg_value : forall ns key, write_of <$> npb_writeMap (getOrCreateNsPubRwBuilder b ns) !! key = value_at (ns, [], key) log;
  lg_metadata : forall ns key,
    (fun w => metadata_write_of (KVMetadataWrite_Entries w)) <$> npb_metadataWriteMap (getOrCreateNsPubRwBuilder b ns) !! key
    = metadata_at (ns, [], key) log;
  lg_hash_value : forall ns coll key, coll <> [] -> key ∈ keys ->
    hash_write <$> chb_writeMap (coll_of (getOrCreateNsPubRwBuilder b ns) coll) !! key = value_at (ns, coll, Sum256 key) log;
  lg_hash_metadata : forall ns coll key, coll <> [] -> key ∈ keys ->
    (fun w => metadata_write_of (KVMetadataWriteHash_Entries w)) <$> chb_metadataWriteMap (coll_of (getOrCreateNsPubRwBuilder b ns) coll) !! key
    = metadata_at (ns, coll, Sum256 key) log;
  lg_keys : forall ns coll kh w, ((ns, coll, kh), w) ∈ log -> coll <> [] -> exists key, key ∈ keys /\ kh = Sum256 key }.

(** ** The reads of the set *)

Lemma tx_reads_ok (b : RWSetBuilder) : builder_ok b -> Forall (fun x => Pread (fst x) (snd x)) (tx_reads (GetTxReadWriteSet b)).
Proof.
  intros Hb. apply Forall_forall. intros x (n & Hx & Hn)%list_elem_of_bind.
  apply list_elem_of_fmap in Hn as (nb & -> & (ns & En)%values_elem). specialize (Hb ns nb En).
  unfold ns_reads in Hx. cbn [nsPubRwBuilder_build NsRwSet_NameSpace NsRwSet_KvRwSet NsRwSet_CollHashedRwSets KVRWSet_Reads] in Hx.
  rewrite (nb_name _ _ Hb) in Hx. apply elem_of_app in Hx as [Hx|Hx].
  - apply list_elem_of_fmap in Hx as (r & -> & (key & Er)%values_elem). by eapply (nb_reads _ _ Hb).
  - apply list_elem_of_bind in Hx as (c & Hx & Hc). apply list_elem_of_fmap in Hc as (cb & -> & (coll & Ec)%values_elem).
    destruct (nb_colls _ _ Hb coll cb Ec) as [_ Hcb]. cbn in Hx. rewrite (cb_name _ _ _ Hcb) in Hx.
    apply list_elem_of_fmap in Hx as (r & -> & (key & Er)%values_elem). by eapply (cb_reads _ _ _ Hcb).
Qed.

Lemma tx_ranges_ok (b : RWSetBuilder) : builder_ok b -> Forall (fun x => Pquery (fst x) (snd x)) (tx_ranges (GetTxReadWriteSet b)).
Proof.
  intros Hb. apply Forall_forall. intros x (n & Hx & Hn)%list_elem_of_bind.
  apply list_elem_of_fmap in Hn as (nb & -> & (ns & En)%values_elem). specialize (Hb ns nb En).
  apply list_elem_of_fmap in Hx as (rq & -> & Hrq). cbn in Hrq |- *. rewrite (nb_name _ _ Hb).
  apply list_elem_of_omap in Hrq as (k & _ & Ek). by eapply (nb_queries _ _ Hb).
Qed.

(** ** The writes of the set *)

Lemma at_key_list {A} (ck : compositeKey) (g : A -> compositeKey * write) (o : option A) :
  (forall a, o = Some a -> fst (g a) = ck) -> match o with Some a => at_key ck (g a) | None => [] end = option_list ((fun a => snd (g a)) <$> o).
Proof. intros H. destruct o as [a|]; [|done]. unfold at_key. by rewrite decide_True by auto. Qed.

Lemma at_key_ne (ck : compositeKey) (x : compositeKey * write) : fst x <> ck -> at_key ck x = [].
Proof. intros H. unfold at_key. by rewrite decide_False. Qed.

Lemma list_bind_nil {A B : Type} (f : A -> list B) (l : list A) : (forall a, a ∈ l -> f a = []) -> l ≫= f = [].
Proof.
  induction l as [|a l IH]; intros H; [done|]. cbn [mbind list_bind]. rewrite H by (by left). apply IH.
  intros a' Ha'. apply H. by right.
Qed.

Lemma list_fmap_bind {A B C : Type} (g : A -> B) (f : B -> list C) (l : list A) : (g <$> l) ≫= f = l ≫= (fun a => f (g a)).
Proof. induction l as [|a l IH]; [done|]. cbn [fmap list_fmap mbind list_bind]. f_equal. apply IH. Qed.

(** A name space has no writes elsewhere. *)
Lemma ns_writes_other (ns : bytes) (n : nsPubRwBuilder) (ck : compositeKey) :
  ns_builder_ok ns n -> fst (fst ck) <> ns -> writes_at ck (ns_writes (nsPubRwBuilder_build n)) = [].
Proof.
  intros Hn Hck. unfold ns_writes. cbn [nsPubRwBuilder_build NsRwSet_NameSpace]. rewrite (nb_name _ _ Hn).
  rewrite !writes_at_app, !writes_at_fmap, writes_at_bind. rewrite !list_bind_nil; [done|..].
  - intros c _. unfold coll_writes. rewrite writes_at_app, !writes_at_fmap. rewrite !list_bind_nil; [done|..];
      intros w _; apply at_key_ne; intros <-; by apply Hck.
  - intros w _. apply at_key_ne. intros <-. by apply Hck.
  - intros w _. apply at_key_ne. intros <-. by apply Hck.
Qed.

Lemma coll_writes_other (ns : bytes) (c : CollHashedRwSet) (ck : compositeKey) :
  snd (fst ck) <> CHR_CollectionName c -> writes_at ck (coll_writes ns c) = [].
Proof.
  intros Hck. unfold coll_writes. rewrite writes_at_app, !writes_at_fmap. rewrite !list_bind_nil; [done|..];
    intros w _; apply at_key_ne; intros <-; by apply Hck.
Qed.

Lemma set_writes_ns (b : RWSetBuilder) (ck : compositeKey) :
  builder_ok b -> writes_at ck (tx_writes (GetTxReadWriteSet b)) =
    writes_at ck (ns_writes (nsPubRwBuilder_build (getOrCreateNsPubRwBuilder b (fst (fst ck))))).
Proof.
  intros Hb. unfold tx_writes, GetTxReadWriteSet. cbn [TxRwSet_NsRwSets]. rewrite writes_at_bind.
  rewrite list_fmap_bind. rewrite (values_bind_single _ _ (fst (fst ck))).
  - unfold getOrCreateNsPubRwBuilder. by destruct (pubRwBuilderMap b !! _).
  - intros ns' n En Hne. apply (ns_writes_other ns'); [by apply Hb|]. congruence.
Qed.

Lemma builder_get (b : RWSetBuilder) (ns : bytes) : builder_ok b -> ns_builder_ok ns (getOrCreateNsPubRwBuilder b ns).
Proof.
  intros Hb. unfold getOrCreateNsPubRwBuilder. destruct (pubRwBuilderMap b !! ns) as [n|] eqn:E; [by apply Hb|].
  constructor; [done|..]; cbn; intros *; by rewrite lookup_empty.
Qed.

Lemma set_writes_public (b : RWSetBuilder) (ns key : bytes) (log : list (compositeKey * write)) :
  builder_ok b -> logged b log -> writes_at (ns, [], key) (tx_writes (GetTxReadWriteSet b)) = collapse (writes_at (ns, [], key) log).
Proof.
  intros Hb Hl. rewrite set_writes_ns by done. cbn [fst]. rewrite collapse_at, <- (lg_value _ _ Hl), <- (lg_metadata _ _ Hl).
  pose proof (builder_get b ns Hb) as Hn. set (n := getOrCreateNsPubRwBuilder b ns) in *.
  unfold ns_writes. cbn [nsPubRwBuilder_build NsRwSet_NameSpace NsRwSet_KvRwSet KVRWSet_Writes KVRWSet_MetadataWrites NsRwSet_CollHashedRwSets].
  rewrite (nb_name _ _ Hn), !writes_at_app, !writes_at_fmap, writes_at_bind.
  rewrite !(values_bind_single _ _ key). 2,3: intros k w Ew Hne; apply at_key_ne; cbn; intros [= E]; apply Hne.
  2:{ by rewrite <- E, (nb_metadata _ _ Hn _ _ Ew). }
  2:{ by rewrite <- E, (proj1 (nb_writes _ _ Hn _ _ Ew)). }
  rewrite (at_key_list _ (fun w => (ns, [], KVWrite_Key w, write_of w))), (at_key_list _ (fun w => (ns, [], KVMetadataWrite_Key w, metadata_write_of (KVMetadataWrite_Entries w)))).
  - rewrite list_bind_nil; [by rewrite app_nil_r|]. intros c Hc. apply coll_writes_other. cbn.
    apply list_elem_of_fmap in Hc as (cb & -> & (coll & Ec)%values_elem). destruct (nb_colls _ _ Hn _ _ Ec) as [Hne Hcb].
    cbn. rewrite (cb_name _ _ _ Hcb). congruence.
  - intros w Ew. cbn. by rewrite (nb_metadata _ _ Hn _ _ Ew).
  - intros w Ew. cbn. by rewrite (proj1 (nb_writes _ _ Hn _ _ Ew)).
Qed.

Hypothesis keys_distinct : forall k k', k ∈ keys -> k' ∈ keys -> Sum256 k = Sum256 k' -> k = k'.

(** The writes of a collection of the set. *)
Lemma set_writes_coll (b : RWSetBuilder) (ns coll kh : bytes) :
  builder_ok b -> coll <> [] ->
  writes_at (ns, coll, kh) (tx_writes (GetTxReadWriteSet b)) =
    writes_at (ns, coll, kh) (coll_writes ns (collHashRwBuilder_build (coll_of (getOrCreateNsPubRwBuilder b ns) coll))).
Proof.
  intros Hb Hc. rewrite set_writes_ns by done. cbn [fst]. pose proof (builder_get b ns Hb) as Hn.
  set (n := getOrCreateNsPubRwBuilder b ns) in *.
  unfold ns_writes. cbn [nsPubRwBuilder_build NsRwSet_NameSpace NsRwSet_KvRwSet NsRwSet_CollHashedRwSets].
  rewrite (nb_name _ _ Hn), !writes_at_app, !writes_at_fmap, writes_at_bind.
  rewrite !list_bind_nil by (intros w _; apply at_key_ne; cbn; congruence). cbn [app].
  rewrite list_fmap_bind, (values_bind_single _ _ coll).
  - unfold coll_of, getOrCreateCollHashedRwBuilder. by destruct (npb_collHashRwBuilder n !! coll).
  - intros coll' c Ec Hne. apply coll_writes_other. cbn. destruct (nb_colls _ _ Hn _ _ Ec) as [_ Hcb].
    rewrite (cb_name _ _ _ Hcb). congruence.
Qed.

Lemma coll_get (b : RWSetBuilder) (ns coll : bytes) :
  builder_ok b -> coll_builder_ok ns coll (coll_of (getOrCreateNsPubRwBuilder b ns) coll).
Proof.
  intros Hb. pose proof (builder_get b ns Hb) as Hn. unfold coll_of, getOrCreateCollHashedRwBuilder.
  destruct (npb_collHashRwBuilder _ !! coll) as [c|] eqn:E; [by apply (nb_colls _ _ Hn _ _ E)|].
  constructor; [done|..]; cbn; intros *; by rewrite lookup_empty.
Qed.

Lemma set_writes_hashed (b : RWSetBuilder) (ns coll key : bytes) (log : list (compositeKey * write)) :
  builder_ok b -> logged b log -> coll <> [] -> key ∈ keys ->
  writes_at (ns, coll, Sum256 key) (tx_writes (GetTxReadWriteSet b)) = collapse (writes_at (ns, coll, Sum256 key) log).
Proof.
  intros Hb Hl Hc Hk. rewrite set_writes_coll by done. rewrite collapse_at, <- (lg_hash_value _ _ Hl), <- (lg_hash_metadata _ _ Hl) by done.
  pose proof (coll_get b ns coll Hb) as Hcb. set (c := coll_of _ coll) in *.
  unfold coll_writes. cbn [collHashRwBuilder_build CHR_CollectionName CHR_HashedRwSet HashedRWSet_HashedWrites HashedRWSet_MetadataWrites].
  rewrite (cb_name _ _ _ Hcb), writes_at_app, !writes_at_fmap.
  rewrite !(values_bind_single _ _ key). 2,3: intros k w Ew Hne; apply at_key_ne; cbn; intros [= E]; apply Hne.
  2:{ destruct (cb_metadata _ _ _ Hcb _ _ Ew) as [Hin Ek]. rewrite Ek in E. by apply keys_distinct. }
  2:{ destruct (cb_writes _ _ _ Hcb _ _ Ew) as [Hin Ek]. rewrite Ek in E. by apply keys_distinct. }
  rewrite (at_key_list _ (fun w => (ns, coll, KVWriteHash_KeyHash w, hash_write w))),
    (at_key_list _ (fun w => (ns, coll, KVMetadataWriteHash_KeyHash w, metadata_write_of (KVMetadataWriteHash_Entries w)))); [done|..].
  - intros w Ew. cbn. by destruct (cb_metadata _ _ _ Hcb _ _ Ew) as [_ ->].
  - intros w Ew. cbn. by destruct (cb_writes _ _ _ Hcb _ _ Ew) as [_ ->].
Qed.

(** Hashes of no key in use. *)
Lemma set_writes_unused (b : RWSetBuilder) (ns coll kh : bytes) :
  builder_ok b -> coll <> [] -> (forall key, key ∈ keys -> kh <> Sum256 key) ->
  writes_at (ns, coll, kh) (tx_writes (GetTxReadWriteSet b)) = [].
Proof.
  intros Hb Hc Hk. rewrite set_writes_coll by done. pose proof (coll_get b ns coll Hb) as Hcb. set (c := coll_of _ coll) in *.
  unfold coll_writes. rewrite writes_at_app, !writes_at_fmap. rewrite !list_bind_nil; [done|..];
    intros w (k & Ew)%values_elem; apply at_key_ne; cbn; intros [= _ E].
  - destruct (cb_metadata _ _ _ Hcb _ _ Ew) as [Hin Ek]. by apply (Hk k Hin); rewrite <- E.
  - destruct (cb_writes _ _ _ Hcb _ _ Ew) as [Hin Ek]. by apply (Hk k Hin); rewrite <- E.
Qed.

(** The set has, for every key, the last value and the last metadata written. *)
Lemma set_writes (b : RWSetBuilder) (log : list (compositeKey * write)) (ck : compositeKey) :
  builder_ok b -> logged b log -> writes_at ck (tx_writes (GetTxReadWriteSet b)) = collapse (writes_at ck log).
Proof.
  intros Hb Hl. destruct ck as [[ns coll] key]. destruct (decide (coll = [])) as [->|Hc]; [by apply set_writes_public|].
  destruct (decide (Exists (fun k => key = Sum256 k) keys)) as [(k & Hk & ->)%Exists_exists|Hn]; [by apply set_writes_hashed|].
  assert (Hk : forall k, k ∈ keys -> key <> Sum256 k) by (intros k Hk ->; apply Hn, Exists_exists; eauto).
  rewrite set_writes_unused by done. assert (writes_at (ns, coll, key) log = []) as ->; [|done].
  unfold writes_at. destruct (filter _ log) as [|[ck w] l] eqn:E; [done|].
  assert (Hin : (ck, w) ∈ filter (fun x : compositeKey * write => fst x = (ns, coll, key)) log) by (rewrite E; by left).
  apply list_elem_of_filter in Hin as [Eck Hin]. cbn in Eck. subst ck. destruct (lg_keys _ _ Hl _ _ _ _ Hin Hc) as (k & Hk' & ->).
  by destruct (Hk k Hk').
Qed.

(** A public write of the set is the last one that was logged for its key. *)
Lemma set_public_writes (b : RWSetBuilder) (log : list (compositeKey * write)) (n : NsRwSet) (w : KVWrite) :
  builder_ok b -> logged b log -> n ∈ TxRwSet_NsRwSets (GetTxReadWriteSet b) -> w ∈ KVRWSet_Writes (NsRwSet_KvRwSet n) ->
  ((NsRwSet_NameSpace n, [], KVWrite_Key w), write_of w) ∈ log /\ (KVWrite_IsDelete w = true -> KVWrite_Value w = []).
Proof.
  intros Hb Hl (nb & -> & (ns & En)%values_elem)%list_elem_of_fmap (key & Ew)%values_elem. pose proof (Hb ns nb En) as Hn.
  cbn [nsPubRwBuilder_build NsRwSet_NameSpace]. destruct (nb_writes _ _ Hn _ _ Ew) as [-> Hd]. rewrite (nb_name _ _ Hn). split; [|done].
  pose proof (lg_value _ _ Hl ns key) as E. unfold getOrCreateNsPubRwBuilder in E. rewrite En in E. cbn in E. rewrite Ew in E. symmetry in E.
  apply last_Some_elem_of, list_elem_of_filter in E as [_ E]. apply list_elem_of_fmap in E as ([ck w'] & -> & [Ec Hin]%list_elem_of_filter).
  cbn in Ec. by subst ck.
Qed.

Lemma set_writes_ordered (b : RWSetBuilder) (log : list (compositeKey * write)) :
  builder_ok b -> logged b log -> Forall (fun x => snd x <> WValue []) log -> writes_ordered (tx_writes (GetTxReadWriteSet b)) = true.
Proof.
  intros Hb Hl Hv. apply key_writes_ordered. intros ck. rewrite (set_writes b log) by done. apply collapse_key_writes.
  apply Forall_forall. intros w (x & -> & Hx)%list_elem_of_fmap. apply list_elem_of_filter in Hx as [_ Hx].
  rewrite Forall_forall in Hv. by apply Hv.
Qed.

(** ** Adding *)

Lemma on_ns_pub_get (ns ns' : bytes) (f : nsPubRwBuilder -> nsPubRwBuilder) (b : RWSetBuilder) :
  getOrCreateNsPubRwBuilder (on_ns_pub ns f b) ns' =
    if decide (ns = ns') then f (getOrCreateNsPubRwBuilder b ns) else getOrCreateNsPubRwBuilder b ns'.
Proof.
  unfold getOrCreateNsPubRwBuilder at 1, on_ns_pub. cbn [pubRwBuilderMap]. destruct (decide (ns = ns')) as [->|Hne].
  - by rewrite lookup_insert_eq.
  - by rewrite lookup_insert_ne.
Qed.

Lemma on_ns_pvt_get (ns ns' : bytes) (f : nsPvtRwBuilder -> nsPvtRwBuilder) (b : RWSetBuilder) :
  getOrCreateNsPubRwBuilder (on_ns_pvt ns f b) ns' = getOrCreateNsPubRwBuilder b ns'.
Proof. done. Qed.

Lemma builder_ok_on (ns : bytes) (f : nsPubRwBuilder -> nsPubRwBuilder) (b : RWSetBuilder) :
  builder_ok b -> (forall n, ns_builder_ok ns n -> ns_builder_ok ns (f n)) -> builder_ok (on_ns_pub ns f b).
Proof.
  intros Hb Hf ns' n. unfold on_ns_pub. cbn [pubRwBuilderMap]. destruct (decide (ns = ns')) as [->|Hne].
  - rewrite lookup_insert_eq. intros [= <-]. by apply Hf, builder_get.
  - rewrite lookup_insert_ne by done. apply Hb.
Qed.

Lemma builder_ok_new : builder_ok NewRWSetBuilder.
Proof. intros ns n. cbn. by rewrite lookup_empty. Qed.

Lemma logged_new : logged NewRWSetBuilder [].
Proof. constructor; try done. intros ns coll kh w H. by apply not_elem_of_nil in H. Qed.

(** Reads, range queries and hashes do not change the writes. *)
Record same_writes (n n' : nsPubRwBuilder) : Prop := {
  sw_writes : npb_writeMap n' = npb_writeMap n;
  sw_metadata : npb_metadataWriteMap n' = npb_metadataWriteMap n;
  sw_coll_writes : forall coll, chb_writeMap (coll_of n' coll) = chb_writeMap (coll_of n coll);
  sw_coll_metadata : forall coll, chb_metadataWriteMap (coll_of n' coll) = chb_metadataWriteMap (coll_of n coll) }.

Lemma logged_on_same (ns : bytes) (f : nsPubRwBuilder -> nsPubRwBuilder) (b : RWSetBuilder) (log : list (compositeKey * write)) :
  (forall n, same_writes n (f n)) -> logged b log -> logged (on_ns_pub ns f b) log.
Proof.
  intros Hf [H1 H2 H3 H4 H5]. constructor; [..|done]; intros ns'; intros; rewrite on_ns_pub_get; case_decide as E; subst; auto;
    destruct (Hf (getOrCreateNsPubRwBuilder b ns')) as [E1 E2 E3 E4]; rewrite ?E1, ?E2, ?E3, ?E4; auto.
Qed.

Lemma set_coll_get (coll coll' : bytes) (f : collHashRwBuilder -> collHashRwBuilder) (n : nsPubRwBuilder) :
  coll_of (set_coll coll f n) coll' = if decide (coll = coll') then f (coll_of n coll) else coll_of n coll'.
Proof.
  unfold coll_of, getOrCreateCollHashedRwBuilder, set_coll. cbn [npb_collHashRwBuilder]. destruct (decide (coll = coll')) as [->|Hne].
  - by rewrite lookup_insert_eq.
  - by rewrite lookup_insert_ne.
Qed.

Lemma same_writes_coll (coll : bytes) (f : collHashRwBuilder -> collHashRwBuilder) (n : nsPubRwBuilder) :
  (forall c, chb_writeMap (f c) = chb_writeMap c /\ chb_metadataWriteMap (f c) = chb_metadataWriteMap c) -> same_writes n (set_coll coll f n).
Proof.
  intros Hf. constructor; [done|done|..]; intros coll'; rewrite set_coll_get; case_decide as E; subst; try done; apply Hf.
Qed.

Lemma ns_builder_ok_coll (ns coll : bytes) (f : collHashRwBuilder -> collHashRwBuilder) (n : nsPubRwBuilder) :
  coll <> [] -> (forall c, coll_builder_ok ns coll c -> coll_builder_ok ns coll (f c)) ->
  ns_builder_ok ns n -> ns_builder_ok ns (set_coll coll f n).
Proof.
  intros Hc Hf [H1 H2 H3 H4 H5 H6]. constructor; [done..|]. intros coll' c. unfold set_coll. cbn [npb_collHashRwBuilder].
  destruct (decide (coll = coll')) as [<-|Hne].
  - rewrite lookup_insert_eq. intros [= <-]. split; [done|]. apply Hf. unfold getOrCreateCollHashedRwBuilder.
    destruct (npb_collHashRwBuilder n !! coll) as [c|] eqn:E; [by apply (H6 _ _ E)|].
    constructor; [done|..]; cbn; intros *; by rewrite lookup_empty.
  - rewrite lookup_insert_ne by done. apply H6.
Qed.

(** *** Reads *)

Lemma AddToReadSet_ok (ns key : bytes) (v : option Height) (b : RWSetBuilder) (log : list (compositeKey * write)) :
  Pread (PubKey ns key) (NewVersion (newProtoVersion v)) -> builder_ok b -> logged b log ->
  builder_ok (AddToReadSet ns key v b) /\ logged (AddToReadSet ns key v b) log.
Proof.
  intros HP Hb Hl. split; [|apply logged_on_same; [|done]].
  - apply builder_ok_on; [done|]. intros n [H1 H2 H3 H4 H5 H6]. constructor; try done. intros k r. cbn.
    destruct (decide (key = k)) as [<-|Hne]; [rewrite lookup_insert_eq; by intros [= <-]|]. rewrite lookup_insert_ne by done. apply H2.
  - intros n. by constructor.
Qed.

Lemma AddToHashedReadSet_ok (ns coll key : bytes) (v : option Height) (b : RWSetBuilder) (log : list (compositeKey * write)) :
  coll <> [] -> Pread (HashKey ns coll (Sum256 key)) (NewVersion (newProtoVersion v)) -> builder_ok b -> logged b log ->
  builder_ok (AddToHashedReadSet ns coll key v b) /\ logged (AddToHashedReadSet ns coll key v b) log.
Proof.
  intros Hc HP Hb Hl. split; [apply builder_ok_on; [done|]|apply logged_on_same; [|done]].
  - intros n. apply ns_builder_ok_coll; [done|]. intros c [H1 H2 H3 H4]. constructor; try done. intros k r. cbn.
    destruct (decide (key = k)) as [<-|Hne]; [rewrite lookup_insert_eq; by intros [= <-]|]. rewrite lookup_insert_ne by done. apply H2.
  - intros n. by apply same_writes_coll.
Qed.

Lemma AddToRangeQuerySet_ok (ns : bytes) (rqi : RangeQueryInfo) (b : RWSetBuilder) (log : list (compositeKey * write)) :
  Pquery ns rqi -> builder_ok b -> logged b log ->
  builder_ok (AddToRangeQuerySet ns rqi b) /\ logged (AddToRangeQuerySet ns rqi b) log.
Proof.
  intros HP Hb Hl. split; [apply builder_ok_on; [done|]|apply logged_on_same; [|done]]; intros n.
  - intros [H1 H2 H3 H4 H5 H6]. cbv zeta. destruct (npb_rangeQueriesMap n !! _); [done|]. constructor; try done. intros k rq. cbn.
    rewrite lookup_insert. case_decide; [by intros [= <-]|apply H5].
  - cbv zeta. destruct (npb_rangeQueriesMap n !! (RQI_StartKey rqi, RQI_EndKey rqi, RQI_ItrExhausted rqi)); by constructor.
Qed.

Lemma setPvtCollectionHash_ok (ns coll p : bytes) (b : RWSetBuilder) (log : list (compositeKey * write)) :
  coll <> [] -> builder_ok b -> logged b log ->
  builder_ok (setPvtCollectionHash ns coll p b) /\ logged (setPvtCollectionHash ns coll p b) log.
Proof.
  intros Hc Hb Hl. split; [apply builder_ok_on; [done|]|apply logged_on_same; [|done]].
  - intros n. apply ns_builder_ok_coll; [done|]. by intros c [H1 H2 H3 H4].
  - intros n. by apply same_writes_coll.
Qed.

(** *** Writes *)

Lemma AddToWriteSet_ok (ns key : bytes) (v : option bytes) (b : RWSetBuilder) (log : list (compositeKey * write)) :
  builder_ok b -> logged b log ->
  builder_ok (AddToWriteSet ns key v b) /\ logged (AddToWriteSet ns key v b) (log ++ [((ns, [], key), write_of (newKVWrite key v))]).
Proof.
  intros Hb [H1 H2 H3 H4 H5]. assert (Ew : is_metadata (write_of (newKVWrite key v)) = false) by (by destruct v). split.
  - apply builder_ok_on; [done|]. intros n [N1 N2 N3 N4 N5 N6]. constructor; try done. intros k w. cbn.
    destruct (decide (key = k)) as [<-|Hne]; [rewrite lookup_insert_eq; intros [= <-]; by destruct v|]. rewrite lookup_insert_ne by done. apply N3.
  - constructor; intros ns'.
    + intros k. unfold AddToWriteSet. rewrite on_ns_pub_get, value_at_snoc. destruct (decide (ns = ns')) as [<-|Hne]; cbn [npb_writeMap].
      * rewrite lookup_insert. destruct (decide (key = k)) as [<-|Hk]; [by rewrite decide_True|].
        rewrite decide_False by (intros [E _]; congruence). apply H1.
      * rewrite decide_False by (intros [E _]; congruence). apply H1.
    + intros k. unfold AddToWriteSet. rewrite metadata_at_snoc, Ew, decide_False by (intros [_ E]; first [congruence|discriminate E]). rewrite on_ns_pub_get. case_decide; subst; apply H2.
    + intros coll k Hc Hk. unfold AddToWriteSet. rewrite value_at_snoc, decide_False by (intros [E _]; congruence). rewrite on_ns_pub_get.
      case_decide; subst; by apply H3.
    + intros coll k Hc Hk. unfold AddToWriteSet. rewrite metadata_at_snoc, decide_False by (intros [E _]; congruence). rewrite on_ns_pub_get.
      case_decide; subst; by apply H4.
    + intros coll kh w [Hin|Hin%list_elem_of_singleton]%elem_of_app Hc; [by eapply H5|]. injection Hin as -> -> _ _. done.
Qed.

Lemma AddToMetadataWriteSet_ok (ns key : bytes) (m : gmap bytes bytes) (b : RWSetBuilder) (log : list (compositeKey * write)) :
  builder_ok b -> logged b log ->
  builder_ok (AddToMetadataWriteSet ns key m b) /\
  logged (AddToMetadataWriteSet ns key m b) (log ++ [((ns, [], key), metadata_write_of (metadata_entries m))]).
Proof.
  intros Hb [H1 H2 H3 H4 H5]. split.
  - apply builder_ok_on; [done|]. intros n [N1 N2 N3 N4 N5 N6]. constructor; try done. intros k w. cbn.
    destruct (decide (key = k)) as [<-|Hne]; [rewrite lookup_insert_eq; by intros [= <-]|]. rewrite lookup_insert_ne by done. apply N4.
  - constructor; intros ns'.
    + intros k. unfold AddToMetadataWriteSet. rewrite value_at_snoc, decide_False by (intros [_ E]; first [congruence|discriminate E]). rewrite on_ns_pub_get. case_decide; subst; apply H1.
    + intros k. unfold AddToMetadataWriteSet. rewrite on_ns_pub_get, metadata_at_snoc. destruct (decide (ns = ns')) as [<-|Hne]; cbn [npb_metadataWriteMap].
      * rewrite lookup_insert. destruct (decide (key = k)) as [<-|Hk]; [by rewrite decide_True|].
        rewrite decide_False by (intros [E _]; congruence). apply H2.
      * rewrite decide_False by (intros [E _]; congruence). apply H2.
    + intros coll k Hc Hk. unfold AddToMetadataWriteSet. rewrite value_at_snoc, decide_False by (intros [_ E]; first [congruence|discriminate E]). rewrite on_ns_pub_get.
      case_decide; subst; by apply H3.
    + intros coll k Hc Hk. unfold AddToMetadataWriteSet. rewrite metadata_at_snoc, decide_False by (intros [E _]; congruence). rewrite on_ns_pub_get.
      case_decide; subst; by apply H4.
    + intros coll kh w [Hin|Hin%list_elem_of_singleton]%elem_of_app Hc; [by eapply H5|]. injection Hin as -> -> _ _. done.
Qed.

(** The private part is beside the public one. *)
Lemma logged_pvt (ns : bytes) (f : nsPvtRwBuilder -> nsPvtRwBuilder) (b : RWSetBuilder) (log : list (compositeKey * write)) :
  logged b log -> logged (on_ns_pvt ns f b) log.
Proof. by intros [H1 H2 H3 H4 H5]. Qed.

Lemma AddToPvtAndHashedWriteSet_ok (ns coll key : bytes) (v : option bytes) (b : RWSetBuilder) (log : list (compositeKey * write)) :
  coll <> [] -> key ∈ keys -> builder_ok b -> logged b log ->
  builder_ok (AddToPvtAndHashedWriteSet ns coll key v b) /\
  logged (AddToPvtAndHashedWriteSet ns coll key v b) (log ++ [((ns, coll, Sum256 key), hash_write (snd (newPvtKVWriteAndHash key v)))]).
Proof.
  intros Hc Hk Hb Hl. unfold AddToPvtAndHashedWriteSet. destruct (newPvtKVWriteAndHash key v) as [kw kh] eqn:E.
  assert (Ek : KVWriteHash_KeyHash kh = Sum256 key) by (unfold newPvtKVWriteAndHash in E; by simplify_eq).
  assert (Ew : is_metadata (hash_write kh) = false) by (unfold hash_write, write_of; cbn; by destruct (KVWriteHash_IsDelete kh)).
  cbn [snd]. set (b1 := on_coll_pvt _ _ _ b). assert (Hb1 : builder_ok b1) by done.
  assert (Hl1 : logged b1 log) by (by apply logged_pvt). clearbody b1. clear b Hb Hl E kw. destruct Hl1 as [H1 H2 H3 H4 H5]. split.
  - apply builder_ok_on; [done|]. intros n. apply ns_builder_ok_coll; [done|]. intros c [C1 C2 C3 C4]. constructor; try done. intros k w. cbn.
    destruct (decide (key = k)) as [<-|Hne]; [rewrite lookup_insert_eq; by intros [= <-]|]. rewrite lookup_insert_ne by done. apply C3.
  - constructor; intros ns'.
    + intros k. unfold on_coll_hash. rewrite value_at_snoc, decide_False by (intros [E _]; congruence). rewrite on_ns_pub_get. case_decide; subst; apply H1.
    + intros k. unfold on_coll_hash. rewrite metadata_at_snoc, decide_False by (intros [E _]; congruence). rewrite on_ns_pub_get. case_decide; subst; apply H2.
    + intros coll' k Hc' Hk'. unfold on_coll_hash. rewrite on_ns_pub_get, value_at_snoc, Ew.
      destruct (decide (ns = ns')) as [<-|Hne]; [rewrite set_coll_get; destruct (decide (coll = coll')) as [<-|Hne]|]; cbn [chb_writeMap].
      * rewrite lookup_insert. destruct (decide (key = k)) as [<-|Hn]; [by rewrite decide_True|].
        rewrite decide_False; [by apply H3|]. intros [[= E] _]. by apply Hn, keys_distinct.
      * rewrite decide_False by (intros [E _]; congruence). by apply H3.
      * rewrite decide_False by (intros [E _]; congruence). by apply H3.
    + intros coll' k Hc' Hk'. unfold on_coll_hash. rewrite metadata_at_snoc, Ew, decide_False by (intros [_ E]; first [congruence|discriminate E]). rewrite on_ns_pub_get.
      case_decide; subst; [rewrite set_coll_get; case_decide; subst|]; by apply H4.
    + intros coll' kh' w [Hin|Hin%list_elem_of_singleton]%elem_of_app Hc'; [by eapply H5|]. injection Hin as -> -> -> _. by exists key.
Qed.

Lemma AddToHashedMetadataWriteSet_ok (ns coll key : bytes) (m : gmap bytes bytes) (b : RWSetBuilder) (log : list (compositeKey * write)) :
  coll <> [] -> key ∈ keys -> builder_ok b -> logged b log ->
  builder_ok (AddToHashedMetadataWriteSet ns coll key m b) /\
  logged (AddToHashedMetadataWriteSet ns coll key m b) (log ++ [((ns, coll, Sum256 key), metadata_write_of (metadata_entries m))]).
Proof.
  intros Hc Hk Hb Hl. unfold AddToHashedMetadataWriteSet. set (b1 := on_coll_pvt _ _ _ b). assert (Hb1 : builder_ok b1) by done.
  assert (Hl1 : logged b1 log) by (by apply logged_pvt). clearbody b1. clear b Hb Hl. destruct Hl1 as [H1 H2 H3 H4 H5]. split.
  - apply builder_ok_on; [done|]. intros n. apply ns_builder_ok_coll; [done|]. intros c [C1 C2 C3 C4]. constructor; try done. intros k w. cbn.
    destruct (decide (key = k)) as [<-|Hne]; [rewrite lookup_insert_eq; by intros [= <-]|]. rewrite lookup_insert_ne by done. apply C4.
  - constructor; intros ns'.
    + intros k. unfold on_coll_hash. rewrite value_at_snoc, decide_False by (intros [E _]; congruence). rewrite on_ns_pub_get. case_decide; subst; apply H1.
    + intros k. unfold on_coll_hash. rewrite metadata_at_snoc, decide_False by (intros [E _]; congruence). rewrite on_ns_pub_get. case_decide; subst; apply H2.
    + intros coll' k Hc' Hk'. unfold on_coll_hash. rewrite value_at_snoc, decide_False by (intros [_ E]; first [congruence|discriminate E]). rewrite on_ns_pub_get.
      case_decide; subst; [rewrite set_coll_get; case_decide; subst|]; by apply H3.
    + intros coll' k Hc' Hk'. unfold on_coll_hash. rewrite on_ns_pub_get, metadata_at_snoc.
      destruct (decide (ns = ns')) as [<-|Hne]; [rewrite set_coll_get; destruct (decide (coll = coll')) as [<-|Hne]|]; cbn [chb_metadataWriteMap].
      * rewrite lookup_insert. destruct (decide (key = k)) as [<-|Hn]; [by rewrite decide_True|].
        rewrite decide_False; [by apply H4|]. intros [[= E] _]. by apply Hn, keys_distinct.
      * rewrite decide_False by (intros [E _]; congruence). by apply H4.
      * rewrite decide_False by (intros [E _]; congruence). by apply H4.
    + intros coll' kh' w [Hin|Hin%list_elem_of_singleton]%elem_of_app Hc'; [by eapply H5|]. injection Hin as -> -> -> _. by exists key.
Qed.

End BuilderOk.

(** ** The private part *)

Definition pvt_coll (b : RWSetBuilder) (ns coll : bytes) : collPvtRwBuilder :=
  getOrCreateCollPvtRwBuilder (getOrCreateNsPvtRwBuilder b ns) coll.

(** The value of a write, none where the key is deleted. *)
Definition pvt_value (w : KVWrite) : option bytes := if KVWrite_IsDelete w then None else Some (KVWrite_Value w).

(** The last private write of a key. *)
Definition pvt_at (k : bytes * bytes * bytes) (plog : list (bytes * bytes * bytes * option bytes)) : option (option bytes) :=
  last (snd <$> filter (fun x => fst x = k) plog).

Lemma pvt_at_snoc (k k' : bytes * bytes * bytes) (v : option bytes) (plog : list (bytes * bytes * bytes * option bytes)) :
  pvt_at k (plog ++ [(k', v)]) = if decide (k' = k) then Some v else pvt_at k plog.
Proof.
  unfold pvt_at. rewrite filter_app, fmap_app. destruct (decide (k' = k)) as [->|Hne].
  - rewrite filter_cons_True, filter_nil by done. cbn. by rewrite last_snoc.
  - rewrite filter_cons_False, filter_nil by done. by rewrite app_nil_r.
Qed.

Section PvtLogged.
(** What is known of the collections. *)
Variable Pcoll : bytes -> bytes -> Prop.

(** The parts are filed under their names, and hold the last write of every key. *)
Record pvt_logged (b : RWSetBuilder) (plog : list (bytes * bytes * bytes * option bytes)) : Prop := {
  pl_names : forall ns n, pvtRwBuilderMap b !! ns = Some n -> nvb_namespace n = ns /\
    forall coll c, nvb_collPvtRwBuilders n !! coll = Some c -> Pcoll ns coll /\ cpb_collectionName c = coll;
  pl_values : forall ns coll key, pvt_value <$> cpb_writeMap (pvt_coll b ns coll) !! key = pvt_at (ns, coll, key) plog;
  pl_keys : forall ns coll key w, cpb_writeMap (pvt_coll b ns coll) !! key = Some w -> KVWrite_Key w = key;
  pl_mdkeys : forall ns coll key w, cpb_metadataWriteMap (pvt_coll b ns coll) !! key = Some w -> KVMetadataWrite_Key w = key }.

Lemma pvt_logged_new : pvt_logged NewRWSetBuilder [].
Proof. by constructor. Qed.

(** Only the private maps count. *)
Lemma pvt_logged_same (b b' : RWSetBuilder) (plog : list (bytes * bytes * bytes * option bytes)) :
  pvtRwBuilderMap b' = pvtRwBuilderMap b -> pvt_logged b plog -> pvt_logged b' plog.
Proof.
  intros E [H1 H2 H3 H4]. assert (Ec : forall ns coll, pvt_coll b' ns coll = pvt_coll b ns coll).
  { intros. unfold pvt_coll, getOrCreateNsPvtRwBuilder. by rewrite E. }
  constructor; [by rewrite E|..]; intros ns coll key; rewrite Ec; [apply H2|apply H3|apply H4].
Qed.

Lemma on_coll_pvt_get (ns coll ns' coll' : bytes) (f : collPvtRwBuilder -> collPvtRwBuilder) (b : RWSetBuilder) :
  pvt_coll (on_coll_pvt ns coll f b) ns' coll' = if decide (ns = ns' /\ coll = coll') then f (pvt_coll b ns coll) else pvt_coll b ns' coll'.
Proof.
  unfold pvt_coll, on_coll_pvt, on_ns_pvt. set (n := getOrCreateNsPvtRwBuilder b ns). unfold getOrCreateNsPvtRwBuilder. cbn [pvtRwBuilderMap].
  destruct (decide (ns = ns')) as [<-|Hne].
  - rewrite lookup_insert_eq. cbn [default from_option id]. set (c := getOrCreateCollPvtRwBuilder n coll).
    unfold getOrCreateCollPvtRwBuilder. cbn [nvb_collPvtRwBuilders]. destruct (decide (coll = coll')) as [<-|Hne'].
    + by rewrite lookup_insert_eq, decide_True.
    + rewrite lookup_insert_ne by done. rewrite decide_False by (by intros [_ ?]). done.
  - rewrite lookup_insert_ne by done. rewrite decide_False by (by intros [? _]). done.
Qed.

Lemma pvt_names_on (ns coll : bytes) (f : collPvtRwBuilder -> collPvtRwBuilder) (b : RWSetBuilder) (plog : list (bytes * bytes * bytes * option bytes)) :
  Pcoll ns coll -> (forall c, cpb_collectionName (f c) = cpb_collectionName c) -> pvt_logged b plog ->
  forall ns' n, pvtRwBuilderMap (on_coll_pvt ns coll f b) !! ns' = Some n -> nvb_namespace n = ns' /\
    forall coll' c, nvb_collPvtRwBuilders n !! coll' = Some c -> Pcoll ns' coll' /\ cpb_collectionName c = coll'.
Proof.
  intros Hc Hf [Hb _ _ _]. assert (Hn : nvb_namespace (getOrCreateNsPvtRwBuilder b ns) = ns /\
    forall coll c, nvb_collPvtRwBuilders (getOrCreateNsPvtRwBuilder b ns) !! coll = Some c -> Pcoll ns coll /\ cpb_collectionName c = coll).
  { unfold getOrCreateNsPvtRwBuilder. destruct (pvtRwBuilderMap b !! ns) eqn:E; [by apply Hb|]. split; [done|]. intros coll' c. cbn. by rewrite lookup_empty. }
  destruct Hn as [Hn1 Hn2]. intros ns' n. cbn [on_coll_pvt on_ns_pvt pvtRwBuilderMap]. destruct (decide (ns = ns')) as [<-|Hne].
  - rewrite lookup_insert_eq. intros [= <-]. split; [done|]. intros coll' c. cbn. destruct (decide (coll = coll')) as [<-|Hne'].
    + rewrite lookup_insert_eq. intros [= <-]. split; [done|]. rewrite Hf. unfold getOrCreateCollPvtRwBuilder.
      destruct (_ !! coll) as [c|] eqn:E; [|done]. by apply Hn2 in E as [_ ?].
    + rewrite lookup_insert_ne by done. apply Hn2.
  - rewrite lookup_insert_ne by done. apply Hb.
Qed.

Lemma AddToPvtAndHashedWriteSet_pvt (ns coll key : bytes) (v : option bytes) (b : RWSetBuilder) (plog : list (bytes * bytes * bytes * option bytes)) :
  Pcoll ns coll -> pvt_logged b plog -> pvt_logged (AddToPvtAndHashedWriteSet ns coll key v b) (plog ++ [((ns, coll, key), v)]).
Proof.
  intros Hc Hb. unfold AddToPvtAndHashedWriteSet. destruct (newPvtKVWriteAndHash key v) as [w wh] eqn:E.
  assert (Ew : pvt_value w = v /\ KVWrite_Key w = key) by (unfold newPvtKVWriteAndHash in E; injection E as <- _; by destruct v).
  destruct Ew as [Ew Ek]. apply (pvt_logged_same (on_coll_pvt ns coll (fun c => mkcollPvtRwBuilder (cpb_collectionName c) (<[key := w]> (cpb_writeMap c)) (cpb_metadataWriteMap c)) b)); [done|].
  pose proof (pvt_names_on ns coll (fun c => mkcollPvtRwBuilder (cpb_collectionName c) (<[key := w]> (cpb_writeMap c)) (cpb_metadataWriteMap c))
    b plog Hc (fun _ => eq_refl) Hb) as Hn. destruct Hb as [_ H2 H3 H4]. constructor; [exact Hn|..]; intros ns' coll' key'; rewrite on_coll_pvt_get.
  - rewrite pvt_at_snoc. destruct (decide (ns = ns' /\ coll = coll')) as [[<- <-]|Hne]; cbn [cpb_writeMap].
    + destruct (decide (key = key')) as [<-|Hk]; [rewrite lookup_insert_eq, decide_True by done; cbn; by rewrite Ew|].
      rewrite lookup_insert_ne, decide_False by congruence. apply H2.
    + rewrite decide_False by (intros [= -> -> _]; by apply Hne). apply H2.
  - case_decide as Hd; [|apply H3]. destruct Hd as [<- <-]. cbn [cpb_writeMap]. intros w'. destruct (decide (key = key')) as [<-|Hk].
    + rewrite lookup_insert_eq. by intros [= <-].
    + rewrite lookup_insert_ne by done. apply H3.
  - case_decide as Hd; [|apply H4]. destruct Hd as [<- <-]. apply H4.
Qed.

Lemma AddToHashedMetadataWriteSet_pvt (ns coll key : bytes) (m : gmap bytes bytes) (b : RWSetBuilder) (plog : list (bytes * bytes * bytes * option bytes)) :
  Pcoll ns coll -> pvt_logged b plog -> pvt_logged (AddToHashedMetadataWriteSet ns coll key m b) plog.
Proof.
  intros Hc Hb. unfold AddToHashedMetadataWriteSet. apply (pvt_logged_same (on_coll_pvt ns coll (fun c => mkcollPvtRwBuilder (cpb_collectionName c) (cpb_writeMap c)
    (<[key := mkKVMetadataWrite key []]> (cpb_metadataWriteMap c))) b)); [done|].
  pose proof (pvt_names_on ns coll (fun c => mkcollPvtRwBuilder (cpb_collectionName c) (cpb_writeMap c)
    (<[key := mkKVMetadataWrite key []]> (cpb_metadataWriteMap c))) b plog Hc (fun _ => eq_refl) Hb) as Hn.
  destruct Hb as [_ H2 H3 H4]. constructor; [exact Hn|..]; intros ns' coll' key'; rewrite on_coll_pvt_get.
  - rewrite <- H2. case_decide as Hd; [|done]. by destruct Hd as [<- <-].
  - case_decide as Hd; [|apply H3]. destruct Hd as [<- <-]. apply H3.
  - case_decide as Hd; [|apply H4]. destruct Hd as [<- <-]. cbn [cpb_metadataWriteMap]. intros w. destruct (decide (key = key')) as [<-|Hk].
    + rewrite lookup_insert_eq. by intros [= <-].
    + rewrite lookup_insert_ne by done. apply H4.
Qed.

End PvtLogged.
