(* ===== verification/Simulator.v ===== *)
(** * Transaction simulation

    src/core/ledger/kvledger/txmgmt/txmgr: the query executor (query_executor.go),
    the check of collection names (collection_val.go) and the transaction simulator
    (tx_simulator.go).  A simulator holds the read lock of the transaction manager
    from its creation to [Done], so the database is the same for all its operations:
    it is the parameter [db].  Iterators are objects the client holds a reference to;
    the executor lists them, and the reference is the place in the list. *)

From S2P Require Import Prelude OrderedCode LevelDB Sha256 Proto StateProto StateDB PrivState RwSet RwSetBuilder Validation.

(** ** The rest of the interface of a state database *)

Class QueryDB (D : Type) `{!VersionedDB D} : Type := {
  db_GetStateMultipleKeys : D -> bytes -> list bytes -> outcome (list (option VersionedValue));
  db_GetStateRangeScanIteratorWithPagination : D -> bytes -> bytes -> bytes -> Z -> outcome DbItr;
  db_ExecuteQuery : D -> bytes -> bytes -> outcome DbItr;
  db_ExecuteQueryWithPagination : D -> bytes -> bytes -> bytes -> Z -> outcome DbItr;
  (** [Close] of an iterator *)
  db_Close : DbItr -> DbItr }.

Section LevelDBQueries.
Context {SP : StateProtos}.

Definition ExecuteQuery (db : kvmap) (namespace query : bytes) : outcome kvScanner :=
  Err (Errorf "ExecuteQuery not supported for leveldb").

Definition ExecuteQueryWithPagination (db : kvmap) (namespace query bookmark : bytes) (pageSize : Z) : outcome kvScanner :=
  Err (Errorf "ExecuteQueryWithMetadata not supported for leveldb").

Definition stateleveldb_queries : QueryDB kvmap := {|
  db_GetStateMultipleKeys := GetStateMultipleKeys;
  db_GetStateRangeScanIteratorWithPagination := GetStateRangeScanIteratorWithPagination;
  db_ExecuteQuery := ExecuteQuery;
  db_ExecuteQueryWithPagination := ExecuteQueryWithPagination;
  db_Close := kvScanner_Close |}.

#[global] Existing Instance stateleveldb_queries.

End LevelDBQueries.

Section PrivQueries.
Context {D : Type} {VD : VersionedDB D} {QD : QueryDB D}.

Definition db_GetPrivateDataMultipleKeys (s : DB D) (namespace collection : bytes) (keys : list bytes) : outcome (list (option VersionedValue)) :=
  db_GetStateMultipleKeys (db_vdb s) (derivePvtDataNs namespace collection) keys.

Definition db_GetPrivateDataRangeScanIterator (s : DB D) (namespace collection startKey endKey : bytes) : outcome DbItr :=
  GetStateRangeScanIterator (db_vdb s) (derivePvtDataNs namespace collection) startKey endKey.

Definition db_ExecuteQueryOnPrivateData (s : DB D) (namespace collection query : bytes) : outcome DbItr :=
  db_ExecuteQuery (db_vdb s) (derivePvtDataNs namespace collection) query.

End PrivQueries.

(** ** Collections *)

(** A configuration is static or of a kind this code does not know. *)
Abbreviation CollectionConfigPackage := (list (option bytes)).

(** Code that reads the state through the [GetState] of the executor it is given:
    what [AllCollectionsConfigPkg] of a [DeployedChaincodeInfoProvider] is. *)
Inductive reader (A : Type) : Type :=
| ReaderDone (r : outcome A)
| ReaderGetState (ns key : bytes) (k : outcome (option bytes) -> reader A).
Arguments ReaderDone {A} r.
Arguments ReaderGetState {A} ns key k.

Class DeployedChaincodeInfoProvider : Type :=
  AllCollectionsConfigPkg : bytes -> reader (option CollectionConfigPackage).

Abbreviation collConfigCache := (gset (bytes * bytes)).

(** The entry with the empty name marks a populated name space. *)
Definition cache_populate (ns : bytes) (pkg : CollectionConfigPackage) (c : collConfigCache) : collConfigCache :=
  list_to_set ((fun name => (ns, name)) <$> omap id pkg) ∪ ({[(ns, [])]} ∪ c).

Definition isPopulatedFor (ns : bytes) (c : collConfigCache) : bool := bool_decide ((ns, []) ∈ c).

Definition containsCollName (ns coll : bytes) (c : collConfigCache) : bool := bool_decide ((ns, coll) ∈ c).

(** ** The query executor *)

Definition queryReadsHashingEnabled : bool := true.
Definition maxDegreeQueryReadsHashing : Z := 50.

(** src/vendor/github.com/hyperledger/fabric-protos-go/ledger/queryresult *)
Record KV := mkKV {
  KV_Namespace : bytes;
  KV_Key : bytes;
  KV_Value : option bytes }.

Section Executor.
Context {PR : Protos} {SP : StateProtos} {D : Type} {VD : VersionedDB D} {QD : QueryDB D} {CC : DeployedChaincodeInfoProvider}.
Variable hashFunc : bytes -> outcome bytes.
Variable db : DB D.

(** Nothing is captured for a query executor that is not a simulator. *)
Record resultsItr := mkresultsItr {
  ri_ns : bytes;
  ri_endKey : bytes;
  ri_dbItr : DbItr (D := D);
  ri_capture : option (RangeQueryInfo * RangeQueryResultsHelper) }.

(** Iterators over query results and over private data, which the executor does not
    keep itself. *)
Inductive openItr : Type :=
| queryResultsItr (itr : DbItr (D := D))
| pvtdataResultsItr (ns coll : bytes) (itr : DbItr (D := D)).

Record queryExecutor := mkqueryExecutor {
  qe_collectReadset : bool;
  qe_rwsetBuilder : RWSetBuilder;
  qe_itrs : list resultsItr;
  qe_openItrs : list openItr;
  qe_err : option error;
  qe_doneInvoked : bool;
  qe_noop : bool;
  qe_cache : collConfigCache }.

Definition newQueryExecutor (collect performCollCheck : bool) : queryExecutor :=
  mkqueryExecutor collect NewRWSetBuilder [] [] None false (negb performCollCheck) ∅.

Definition set_builder (f : RWSetBuilder -> RWSetBuilder) : M queryExecutor unit := modify_state (fun q =>
  mkqueryExecutor (qe_collectReadset q) (f (qe_rwsetBuilder q)) (qe_itrs q) (qe_openItrs q) (qe_err q) (qe_doneInvoked q)
    (qe_noop q) (qe_cache q)).

Definition set_cache (f : collConfigCache -> collConfigCache) : M queryExecutor unit := modify_state (fun q =>
  mkqueryExecutor (qe_collectReadset q) (qe_rwsetBuilder q) (qe_itrs q) (qe_openItrs q) (qe_err q) (qe_doneInvoked q)
    (qe_noop q) (f (qe_cache q))).

Definition set_itrs (l : list resultsItr) : M queryExecutor unit := modify_state (fun q =>
  mkqueryExecutor (qe_collectReadset q) (qe_rwsetBuilder q) l (qe_openItrs q) (qe_err q) (qe_doneInvoked q)
    (qe_noop q) (qe_cache q)).

Definition set_openItrs (l : list openItr) : M queryExecutor unit := modify_state (fun q =>
  mkqueryExecutor (qe_collectReadset q) (qe_rwsetBuilder q) (qe_itrs q) l (qe_err q) (qe_doneInvoked q)
    (qe_noop q) (qe_cache q)).

Definition checkDone : M queryExecutor unit := fun q =>
  if qe_doneInvoked q then (Err (Errorf "this instance should not be used after calling Done()"), q) else (Ret tt, q).

(** A read is recorded by a simulator only. *)
Definition record (f : RWSetBuilder -> RWSetBuilder) : M queryExecutor unit :=
  q ← get_state;
  if qe_collectReadset q then set_builder f else mret tt.

Definition decomposeVersionedValue (versionedValue : option VersionedValue) : option bytes * bytes * option Height :=
  match versionedValue with
  | Some vv => (vv_Value vv, vv_Metadata vv, Some (vv_Version vv))
  | None => (None, [], None)
  end.

Definition qe_getState (ns key : bytes) : M queryExecutor (option bytes * bytes) :=
  _ ← checkDone;
  versionedValue ← lift_outcome (GetState (db_vdb db) ns key);
  let '(val, metadata, ver) := decomposeVersionedValue versionedValue in
  _ ← record (AddToReadSet ns key ver);
  mret (val, metadata).

Definition qe_GetState (ns key : bytes) : M queryExecutor (option bytes) :=
  '(val, _) ← qe_getState ns key;
  mret val.

Definition qe_GetStateMetadata (ns key : bytes) : M queryExecutor (option (gmap bytes bytes)) :=
  _ ← checkDone;
  q ← get_state;
  metadata ←
    (if negb (qe_collectReadset q) then lift_outcome (GetStateMetadata db ns key)
     else ('(_, metadata) ← qe_getState ns key; mret metadata));
  lift_outcome (Deserialize metadata).

(** The values of the keys, each read recorded. *)
Fixpoint record_values (add : bytes -> option Height -> RWSetBuilder -> RWSetBuilder) (l : list (bytes * option VersionedValue)) :
    M queryExecutor (list (option bytes)) :=
  match l with
  | [] => mret []
  | (key, versionedValue) :: l' =>
      let '(val, _, ver) := decomposeVersionedValue versionedValue in
      _ ← record (add key ver);
      vals ← record_values add l';
      mret (val :: vals)
  end.

(** An error of the database is answered with nil and no error. *)
Definition qe_GetStateMultipleKeys (ns : bytes) (keys : list bytes) : M queryExecutor (list (option bytes)) :=
  _ ← checkDone;
  match db_GetStateMultipleKeys (db_vdb db) ns keys with
  | Ret versionedValues => record_values (AddToReadSet ns) (zip keys versionedValues)
  | Err _ => mret []
  | Panic msg => panic msg
  end.

(** *** Range queries *)

Definition newResultsItr (collect : bool) (ns startKey endKey : bytes) (pageSize : Z) (enableHashing : bool) (maxDegree : Z) :
    outcome resultsItr :=
  dbItr ← (if pageSize =? 0 then GetStateRangeScanIterator (db_vdb db) ns startKey endKey
           else db_GetStateRangeScanIteratorWithPagination (db_vdb db) ns startKey endKey pageSize);
  if collect then
    resultsHelper ← NewRangeQueryResultsHelper enableHashing maxDegree;
    Ret (mkresultsItr ns endKey dbItr (Some (mkRangeQueryInfo startKey [] false None, resultsHelper)))
  else Ret (mkresultsItr ns [] dbItr None).

Definition open_range (namespace startKey endKey : bytes) (pageSize : Z) : M queryExecutor nat :=
  _ ← checkDone;
  q ← get_state;
  itr ← lift_outcome (newResultsItr (qe_collectReadset q) namespace startKey endKey pageSize
                        queryReadsHashingEnabled maxDegreeQueryReadsHashing);
  _ ← set_itrs (qe_itrs q ++ [itr]);
  mret (length (qe_itrs q)).

Definition qe_GetStateRangeScanIterator (namespace startKey endKey : bytes) : M queryExecutor nat :=
  open_range namespace startKey endKey 0.

Definition qe_GetStateRangeScanIteratorWithPagination (namespace startKey endKey : bytes) (pageSize : Z) : M queryExecutor nat :=
  open_range namespace startKey endKey pageSize.

Definition updateRangeQueryInfo (endKey : bytes) (queryResult : option VersionedKV) (capture : option (RangeQueryInfo * RangeQueryResultsHelper)) :
    outcome (option (RangeQueryInfo * RangeQueryResultsHelper)) :=
  match capture with
  | None => Ret None
  | Some (info, helper) =>
      match queryResult with
      | None => Ret (Some (mkRangeQueryInfo (RQI_StartKey info) endKey true (RQI_ReadsInfo info), helper))
      | Some kv =>
          helper ← AddResult hashFunc (NewKVRead (vkv_Key kv) (Some (vv_Version (vkv_Value kv)))) helper;
          Ret (Some (mkRangeQueryInfo (RQI_StartKey info) (vkv_Key kv) (RQI_ItrExhausted info) (RQI_ReadsInfo info), helper))
      end
  end.

Definition kv_of (kv : VersionedKV) : KV := mkKV (vkv_Namespace kv) (vkv_Key kv) (vv_Value (vkv_Value kv)).

(** The iterator has moved also where the capture fails. *)
Definition resultsItr_Next (itr : resultsItr) : outcome (option KV) * resultsItr :=
  let '(r, dbItr) := Next (ri_dbItr itr) in
  match r with
  | Ret queryResult =>
      match updateRangeQueryInfo (ri_endKey itr) queryResult (ri_capture itr) with
      | Ret capture => (Ret (kv_of <$> queryResult), mkresultsItr (ri_ns itr) (ri_endKey itr) dbItr capture)
      | Err e => (Err e, mkresultsItr (ri_ns itr) (ri_endKey itr) dbItr (ri_capture itr))
      | Panic msg => (Panic msg, mkresultsItr (ri_ns itr) (ri_endKey itr) dbItr (ri_capture itr))
      end
  | Err e => (Err e, mkresultsItr (ri_ns itr) (ri_endKey itr) dbItr (ri_capture itr))
  | Panic msg => (Panic msg, mkresultsItr (ri_ns itr) (ri_endKey itr) dbItr (ri_capture itr))
  end.

(** [Next] of the range iterator with the reference [i]. *)
Definition range_Next (i : nat) : M queryExecutor (option KV) :=
  q ← get_state;
  itr ← lift_outcome (go_index (qe_itrs q) i);
  let '(r, itr) := resultsItr_Next itr in
  _ ← set_itrs (<[i := itr]> (qe_itrs q));
  lift_outcome r.

(** *** Other queries *)

Definition open_query (o : outcome (DbItr (D := D))) (mk : DbItr -> openItr) : M queryExecutor nat :=
  dbItr ← lift_outcome o;
  q ← get_state;
  _ ← set_openItrs (qe_openItrs q ++ [mk dbItr]);
  mret (length (qe_openItrs q)).

Definition qe_ExecuteQuery (namespace query : bytes) : M queryExecutor nat :=
  _ ← checkDone;
  open_query (db_ExecuteQuery (db_vdb db) namespace query) queryResultsItr.

Definition qe_ExecuteQueryWithPagination (namespace query bookmark : bytes) (pageSize : Z) : M queryExecutor nat :=
  _ ← checkDone;
  open_query (db_ExecuteQueryWithPagination (db_vdb db) namespace query bookmark pageSize) queryResultsItr.

Definition queryResultsItr_Next (queryResult : option VersionedKV) : M queryExecutor (option KV) :=
  match queryResult with
  | None => mret None
  | Some kv =>
      _ ← record (AddToReadSet (vkv_Namespace kv) (vkv_Key kv) (Some (vv_Version (vkv_Value kv))));
      mret (Some (kv_of kv))
  end.

Definition pvtdataResultsItr_Next (ns : bytes) (queryResult : option VersionedKV) : M queryExecutor (option KV) :=
  mret ((fun kv => mkKV ns (vkv_Key kv) (vv_Value (vkv_Value kv))) <$> queryResult).

(** [Next] of the other iterators. *)
Definition open_Next (i : nat) : M queryExecutor (option KV) :=
  q ← get_state;
  itr ← lift_outcome (go_index (qe_openItrs q) i);
  match itr with
  | queryResultsItr dbItr =>
      let '(r, dbItr) := Next dbItr in
      _ ← set_openItrs (<[i := queryResultsItr dbItr]> (qe_openItrs q));
      queryResult ← lift_outcome r;
      queryResultsItr_Next queryResult
  | pvtdataResultsItr ns coll dbItr =>
      let '(r, dbItr) := Next dbItr in
      _ ← set_openItrs (<[i := pvtdataResultsItr ns coll dbItr]> (qe_openItrs q));
      queryResult ← lift_outcome r;
      pvtdataResultsItr_Next ns queryResult
  end.

(** *** Private data *)

(** The outcome of a call the reader goes on with. *)
Fixpoint run_reader {A} (p : reader A) : M queryExecutor A := fun q =>
  match p with
  | ReaderDone r => (r, q)
  | ReaderGetState ns key k =>
      match qe_GetState ns key q with
      | (Panic msg, q) => (Panic msg, q)
      | (r, q) => run_reader (k r) q
      end
  end.

Definition retrieveCollConfigFromStateDB (ns : bytes) : M queryExecutor CollectionConfigPackage :=
  confPkg ← run_reader (AllCollectionsConfigPkg ns);
  match confPkg with
  | None => throw (Errorf "collection config not defined for chaincode [%s]")
  | Some confPkg => mret confPkg
  end.

Definition validateCollName (ns coll : bytes) : M queryExecutor unit :=
  q ← get_state;
  if qe_noop q then mret tt else
  _ ← (if negb (isPopulatedFor ns (qe_cache q)) then
         (conf ← retrieveCollConfigFromStateDB ns; set_cache (cache_populate ns conf))
       else mret tt);
  q ← get_state;
  if negb (containsCollName ns coll (qe_cache q)) then throw (Errorf "collection [%s] not defined in the collection config for chaincode [%s]")
  else mret tt.

Definition qe_GetPrivateData (ns coll key : bytes) : M queryExecutor (option bytes) :=
  _ ← validateCollName ns coll;
  _ ← checkDone;
  versionedValue ← lift_outcome (GetPrivateData db ns coll key);
  let '(val, _, ver) := decomposeVersionedValue versionedValue in
  let keyHash := Sum256 key in
  hashVersion ← lift_outcome (GetKeyHashVersion db ns coll keyHash);
  if negb (AreSame hashVersion ver) then throw (Errorf "private data matching public hash version is not available") else
  _ ← record (AddToHashedReadSet ns coll key ver);
  mret val.

Definition qe_GetPrivateDataHash (ns coll key : bytes) : M queryExecutor (option bytes) :=
  _ ← validateCollName ns coll;
  _ ← checkDone;
  versionedValue ← lift_outcome (GetPrivateDataHash db ns coll key);
  let '(valHash, _, ver) := decomposeVersionedValue versionedValue in
  _ ← record (AddToHashedReadSet ns coll key ver);
  mret valHash.

Definition getPrivateDataValueHash (ns coll key : bytes) : M queryExecutor (option bytes * bytes) :=
  _ ← validateCollName ns coll;
  _ ← checkDone;
  versionedValue ← lift_outcome (GetPrivateDataHash db ns coll key);
  let '(valHash, metadata, ver) := decomposeVersionedValue versionedValue in
  _ ← record (AddToHashedReadSet ns coll key ver);
  mret (valHash, metadata).

Definition qe_getPrivateDataMetadataByHash (ns coll keyhash : bytes) : M queryExecutor (option (gmap bytes bytes)) :=
  _ ← validateCollName ns coll;
  _ ← checkDone;
  q ← get_state;
  if qe_collectReadset q then throw (Errorf "retrieving private data metadata by keyhash is not supported in simulation") else
  metadataBytes ← lift_outcome (GetPrivateDataMetadataByHash db ns coll keyhash);
  lift_outcome (Deserialize metadataBytes).

Definition qe_GetPrivateDataMetadata (ns coll key : bytes) : M queryExecutor (option (gmap bytes bytes)) :=
  q ← get_state;
  if negb (qe_collectReadset q) then qe_getPrivateDataMetadataByHash ns coll (Sum256 key) else
  _ ← validateCollName ns coll;
  _ ← checkDone;
  '(_, metadataBytes) ← getPrivateDataValueHash ns coll key;
  lift_outcome (Deserialize metadataBytes).

(** Unlike [GetPrivateData], the version of the value is not compared with that of
    the hash. *)
Definition qe_GetPrivateDataMultipleKeys (ns coll : bytes) (keys : list bytes) : M queryExecutor (list (option bytes)) :=
  _ ← validateCollName ns coll;
  _ ← checkDone;
  match db_GetPrivateDataMultipleKeys db ns coll keys with
  | Ret versionedValues => record_values (AddToHashedReadSet ns coll) (zip keys versionedValues)
  | Err _ => mret []
  | Panic msg => panic msg
  end.

Definition qe_GetPrivateDataRangeScanIterator (ns coll startKey endKey : bytes) : M queryExecutor nat :=
  _ ← validateCollName ns coll;
  _ ← checkDone;
  open_query (db_GetPrivateDataRangeScanIterator db ns coll startKey endKey) (pvtdataResultsItr ns coll).

Definition qe_ExecuteQueryOnPrivateData (ns coll query : bytes) : M queryExecutor nat :=
  _ ← validateCollName ns coll;
  _ ← checkDone;
  open_query (db_ExecuteQueryOnPrivateData db ns coll query) (pvtdataResultsItr ns coll).

(** *** Closing *)

Definition resultsItr_Close (itr : resultsItr) : resultsItr :=
  mkresultsItr (ri_ns itr) (ri_endKey itr) (db_Close (ri_dbItr itr)) (ri_capture itr).

(** [Close] of the range iterator with the reference [i]. *)
Definition range_Close (i : nat) : M queryExecutor unit :=
  q ← get_state;
  itr ← lift_outcome (go_index (qe_itrs q) i);
  set_itrs (<[i := resultsItr_Close itr]> (qe_itrs q)).

(** [Close] of the other iterators. *)
Definition open_Close (i : nat) : M queryExecutor unit :=
  q ← get_state;
  itr ← lift_outcome (go_index (qe_openItrs q) i);
  set_openItrs (<[i := match itr with
                       | queryResultsItr dbItr => queryResultsItr (db_Close dbItr)
                       | pvtdataResultsItr ns coll dbItr => pvtdataResultsItr ns coll (db_Close dbItr)
                       end]> (qe_openItrs q)).

(** The range iterators are closed; the others are not the executor's.  The release
    of the lock has no effect on the model. *)
Definition qe_Done : M queryExecutor unit := modify_state (fun q =>
  if qe_doneInvoked q then q else
  mkqueryExecutor (qe_collectReadset q) (qe_rwsetBuilder q) (resultsItr_Close <$> qe_itrs q) (qe_openItrs q) (qe_err q) true
    (qe_noop q) (qe_cache q)).

(** *** The range queries of the read set *)

Definition SetRawReads (rqi : RangeQueryInfo) (kvReads : list KVRead) : RangeQueryInfo :=
  mkRangeQueryInfo (RQI_StartKey rqi) (RQI_EndKey rqi) (RQI_ItrExhausted rqi) (Some (RawReads kvReads)).

Definition SetMerkelSummary (rqi : RangeQueryInfo) (merkleSummary : QueryReadsMerkleSummary) : RangeQueryInfo :=
  mkRangeQueryInfo (RQI_StartKey rqi) (RQI_EndKey rqi) (RQI_ItrExhausted rqi) (Some (ReadsMerkleHashes merkleSummary)).

(** A nil slice of results is the empty list. *)
Definition query_info (rqi : RangeQueryInfo) (results : list KVRead) (hash : option QueryReadsMerkleSummary) : RangeQueryInfo :=
  let rqi := match results with [] => rqi | _ => SetRawReads rqi results end in
  match hash with Some s => SetMerkelSummary rqi s | None => rqi end.

(** The loop over the iterators: the builder, and the error at which it stops. *)
Fixpoint add_queries (itrs : list resultsItr) (b : RWSetBuilder) : outcome (RWSetBuilder * option error) :=
  match itrs with
  | [] => Ret (b, None)
  | itr :: itrs' =>
      match ri_capture itr with
      | None => Panic "nil pointer dereference"
      | Some (info, helper) =>
          match Done hashFunc helper with
          | Ret (results, hash) => add_queries itrs' (AddToRangeQuerySet (ri_ns itr) (query_info info results hash) b)
          | Err e => Ret (b, Some e)
          | Panic msg => Panic msg
          end
      end
  end.

Definition addRangeQueryInfo : M queryExecutor unit := fun q =>
  if negb (qe_collectReadset q) then (Ret tt, q) else
  match add_queries (qe_itrs q) (qe_rwsetBuilder q) with
  | Ret (b, err) =>
      (Ret tt, mkqueryExecutor (qe_collectReadset q) b (qe_itrs q) (qe_openItrs q)
         (match err with Some e => Some e | None => qe_err q end) (qe_doneInvoked q) (qe_noop q) (qe_cache q))
  | Err e => (Err e, q)
  | Panic msg => (Panic msg, q)
  end.

(** ** The simulator *)

Record txSimulator := mktxSimulator {
  s_queryExecutor : queryExecutor;
  s_writePerformed : bool;
  s_pvtdataQueriesPerformed : bool;
  s_simulationResultsComputed : bool;
  s_paginatedQueriesPerformed : bool }.

Definition newTxSimulator : txSimulator := mktxSimulator (newQueryExecutor true true) false false false false.

(** An operation of the embedded executor. *)
Definition on_qe {A} (m : M queryExecutor A) : M txSimulator A := fun s =>
  let '(r, q) := m (s_queryExecutor s) in
  (r, mktxSimulator q (s_writePerformed s) (s_pvtdataQueriesPerformed s) (s_simulationResultsComputed s) (s_paginatedQueriesPerformed s)).

Definition set_writePerformed : M txSimulator unit := modify_state (fun s =>
  mktxSimulator (s_queryExecutor s) true (s_pvtdataQueriesPerformed s) (s_simulationResultsComputed s) (s_paginatedQueriesPerformed s)).

Definition checkPvtdataQueryPerformed : M txSimulator unit := fun s =>
  if s_pvtdataQueriesPerformed s
  then (Err (Errorf "txid [%s]: Transaction has already performed queries on pvt data. Writes are not allowed"), s) else (Ret tt, s).

Definition checkPaginatedQueryPerformed : M txSimulator unit := fun s =>
  if s_paginatedQueriesPerformed s
  then (Err (Errorf "txid [%s]: Transaction has already performed a paginated query. Writes are not allowed"), s) else (Ret tt, s).

Definition checkBeforePvtdataQueries : M txSimulator unit := fun s =>
  if s_writePerformed s
  then (Err (Errorf "txid [%s]: Queries on pvt data is supported only in a read-only transaction"), s)
  else (Ret tt, mktxSimulator (s_queryExecutor s) (s_writePerformed s) true (s_simulationResultsComputed s) (s_paginatedQueriesPerformed s)).

Definition checkBeforePaginatedQueries : M txSimulator unit := fun s =>
  if s_writePerformed s
  then (Err (Errorf "txid [%s]: Paginated queries are supported only in a read-only transaction"), s)
  else (Ret tt, mktxSimulator (s_queryExecutor s) (s_writePerformed s) (s_pvtdataQueriesPerformed s) (s_simulationResultsComputed s) true).

Definition checkWritePrecondition (key : bytes) (value : option bytes) : M txSimulator unit :=
  _ ← on_qe checkDone;
  _ ← checkPvtdataQueryPerformed;
  _ ← checkPaginatedQueryPerformed;
  _ ← set_writePerformed;
  lift_outcome (ValidateKeyValue (D := D) key (default [] value)).

Definition SetState (ns key : bytes) (value : option bytes) : M txSimulator unit :=
  _ ← checkWritePrecondition key value;
  on_qe (set_builder (AddToWriteSet ns key value)).

Definition DeleteState (ns key : bytes) : M txSimulator unit := SetState ns key None.

(** A loop over the entries of a map that stops at the first error. *)
Fixpoint for_each {A} (f : A -> M txSimulator unit) (l : list A) : M txSimulator unit :=
  match l with
  | [] => mret tt
  | a :: l' => _ ← f a; for_each f l'
  end.

Definition SetStateMultipleKeys (namespace : bytes) (kvs : gmap bytes (option bytes)) : M txSimulator unit :=
  for_each (fun '(k, v) => SetState namespace k v) (map_to_list kvs).

Definition SetStateMetadata (namespace key : bytes) (metadata : gmap bytes bytes) : M txSimulator unit :=
  _ ← checkWritePrecondition key None;
  on_qe (set_builder (AddToMetadataWriteSet namespace key metadata)).

Definition DeleteStateMetadata (namespace key : bytes) : M txSimulator unit := SetStateMetadata namespace key ∅.

Definition SetPrivateData (ns coll key : bytes) (value : option bytes) : M txSimulator unit :=
  _ ← on_qe (validateCollName ns coll);
  _ ← checkWritePrecondition key value;
  _ ← set_writePerformed;
  on_qe (set_builder (AddToPvtAndHashedWriteSet ns coll key value)).

Definition DeletePrivateData (ns coll key : bytes) : M txSimulator unit := SetPrivateData ns coll key None.

Definition SetPrivateDataMultipleKeys (ns coll : bytes) (kvs : gmap bytes (option bytes)) : M txSimulator unit :=
  for_each (fun '(k, v) => SetPrivateData ns coll k v) (map_to_list kvs).

Definition SetPrivateDataMetadata (namespace collection key : bytes) (metadata : gmap bytes bytes) : M txSimulator unit :=
  _ ← on_qe (validateCollName namespace collection);
  _ ← checkWritePrecondition key None;
  on_qe (set_builder (AddToHashedMetadataWriteSet namespace collection key metadata)).

Definition DeletePrivateDataMetadata (namespace collection key : bytes) : M txSimulator unit :=
  SetPrivateDataMetadata namespace collection key ∅.

Definition sim_GetPrivateDataRangeScanIterator (namespace collection startKey endKey : bytes) : M txSimulator nat :=
  _ ← checkBeforePvtdataQueries;
  on_qe (qe_GetPrivateDataRangeScanIterator namespace collection startKey endKey).

Definition sim_ExecuteQueryOnPrivateData (namespace collection query : bytes) : M txSimulator nat :=
  _ ← checkBeforePvtdataQueries;
  on_qe (qe_ExecuteQueryOnPrivateData namespace collection query).

Definition sim_GetStateRangeScanIteratorWithPagination (namespace startKey endKey : bytes) (pageSize : Z) : M txSimulator nat :=
  _ ← checkBeforePaginatedQueries;
  on_qe (qe_GetStateRangeScanIteratorWithPagination namespace startKey endKey pageSize).

Definition sim_ExecuteQueryWithPagination (namespace query bookmark : bytes) (pageSize : Z) : M txSimulator nat :=
  _ ← checkBeforePaginatedQueries;
  on_qe (qe_ExecuteQueryWithPagination namespace query bookmark pageSize).

Definition ExecuteUpdate (query : bytes) : M txSimulator unit := throw (Errorf "not supported").

Definition set_computed (s : txSimulator) : txSimulator :=
  mktxSimulator (s_queryExecutor s) (s_writePerformed s) (s_pvtdataQueriesPerformed s) true (s_paginatedQueriesPerformed s).

(** The builder's results; the private hashes stay in the builder. *)
Definition builder_results : M queryExecutor TxSimulationResults :=
  q ← get_state;
  let '(results, b) := builder_GetTxSimulationResults (qe_rwsetBuilder q) in
  _ ← set_builder (fun _ => b);
  mret results.

(** The deferred assignment happens on every path but the first. *)
Definition sim_GetTxSimulationResults : M txSimulator TxSimulationResults := fun s =>
  if s_simulationResultsComputed s
  then (Err (Errorf "this function should only be called once on a transaction simulator instance"), s) else
  match qe_err (s_queryExecutor s) with
  | Some e => (Err e, set_computed s)
  | None =>
      let '(r, s) := (_ ← on_qe addRangeQueryInfo; on_qe builder_results) s in
      (r, set_computed s)
  end.

(** ** A client of the simulator

    The calls a chaincode makes, through the interface [TxSimulator] and the
    iterators it is given.  The calls on several keys and the deletions are made of
    these. *)
Inductive call : Type :=
| CGetState (ns key : bytes)
| CGetStateMetadata (ns key : bytes)
| CGetStateMultipleKeys (ns : bytes) (keys : list bytes)
| CGetStateRangeScanIterator (ns startKey endKey : bytes)
| CGetStateRangeScanIteratorWithPagination (ns startKey endKey : bytes) (pageSize : Z)
| CRangeNext (i : nat)
| CRangeClose (i : nat)
| CExecuteQuery (ns query : bytes)
| CExecuteQueryWithPagination (ns query bookmark : bytes) (pageSize : Z)
| CQueryNext (i : nat)
| CQueryClose (i : nat)
| CGetPrivateData (ns coll key : bytes)
| CGetPrivateDataHash (ns coll key : bytes)
| CGetPrivateDataMetadata (ns coll key : bytes)
| CGetPrivateDataMultipleKeys (ns coll : bytes) (keys : list bytes)
| CGetPrivateDataRangeScanIterator (ns coll startKey endKey : bytes)
| CExecuteQueryOnPrivateData (ns coll query : bytes)
| CSetState (ns key : bytes) (value : option bytes)
| CSetStateMetadata (ns key : bytes) (metadata : gmap bytes bytes)
| CSetPrivateData (ns coll key : bytes) (value : option bytes)
| CSetPrivateDataMetadata (ns coll key : bytes) (metadata : gmap bytes bytes)
| CExecuteUpdate (query : bytes)
| CDone.

Definition discard {S A} (m : M S A) : M S unit := _ ← m; mret tt.

Definition exec_call (c : call) : M txSimulator unit :=
  match c with
  | CGetState ns key => discard (on_qe (qe_GetState ns key))
  | CGetStateMetadata ns key => discard (on_qe (qe_GetStateMetadata ns key))
  | CGetStateMultipleKeys ns keys => discard (on_qe (qe_GetStateMultipleKeys ns keys))
  | CGetStateRangeScanIterator ns startKey endKey => discard (on_qe (qe_GetStateRangeScanIterator ns startKey endKey))
  | CGetStateRangeScanIteratorWithPagination ns startKey endKey pageSize =>
      discard (sim_GetStateRangeScanIteratorWithPagination ns startKey endKey pageSize)
  | CRangeNext i => discard (on_qe (range_Next i))
  | CRangeClose i => on_qe (range_Close i)
  | CExecuteQuery ns query => discard (on_qe (qe_ExecuteQuery ns query))
  | CExecuteQueryWithPagination ns query bookmark pageSize => discard (sim_ExecuteQueryWithPagination ns query bookmark pageSize)
  | CQueryNext i => discard (on_qe (open_Next i))
  | CQueryClose i => on_qe (open_Close i)
  | CGetPrivateData ns coll key => discard (on_qe (qe_GetPrivateData ns coll key))
  | CGetPrivateDataHash ns coll key => discard (on_qe (qe_GetPrivateDataHash ns coll key))
  | CGetPrivateDataMetadata ns coll key => discard (on_qe (qe_GetPrivateDataMetadata ns coll key))
  | CGetPrivateDataMultipleKeys ns coll keys => discard (on_qe (qe_GetPrivateDataMultipleKeys ns coll keys))
  | CGetPrivateDataRangeScanIterator ns coll startKey endKey => discard (sim_GetPrivateDataRangeScanIterator ns coll startKey endKey)
  | CExecuteQueryOnPrivateData ns coll query => discard (sim_ExecuteQueryOnPrivateData ns coll query)
  | CSetState ns key value => SetState ns key value
  | CSetStateMetadata ns key metadata => SetStateMetadata ns key metadata
  | CSetPrivateData ns coll key value => SetPrivateData ns coll key value
  | CSetPrivateDataMetadata ns coll key metadata => SetPrivateDataMetadata ns coll key metadata
  | CExecuteUpdate query => ExecuteUpdate query
  | CDone => on_qe qe_Done
  end.

End Executor.
