(* ===== verification/SimulatorOk.v ===== *)
(** * A simulation records what it has read

    Whatever a client does with a simulator, the read-write set it ends with has the
    versions and range query results of the state it was simulated on, and the last
    write of every key: the invariant [sim_ok] of the simulator, kept by every call.
    A transaction validated on the same state is therefore valid, and committing it
    changes the state as the calls asked for. *)

From S2P Require Import Prelude OrderedCode LevelDB Sha256 Proto StateProto StateDB StateDBOk PrivState PrivStateOk RwSet RwSetOk Validation CombinedItr RangeQuery Serial ValidationOk Serializable RwSetBuilder RwSetBuilderOk Simulator.

(** ** Captured results *)

Section Capture.
Context {SP : StateProtos}.
Variable hashFunc : bytes -> outcome bytes.
Hypothesis hash_total : forall b, exists h, hashFunc b = Ret h.

Lemma not_empty_step (m m' : merkleTree) (x : bytes) :
  tree_ok m -> merkle_update hashFunc x m = Ret m' -> merkle_isEmpty m' = false.
Proof.
  intros Hm E. pose proof Hm as [[Hd _] Hmax _ _]. destruct (merkle_update_ok hashFunc hash_total x m Hm) as (m2 & E2 & Hm2 & Hs & _).
  rewrite E in E2. injection E2 as <-. unfold merkle_isEmpty. fold (top m').
  destruct (Z.eqb_spec (mt_maxLevel m') 1) as [H1|]; [|done]. cbn [andb]. apply Z.eqb_neq.
  destruct Hs as [El Et|h El Et|h El Et _]; [|rewrite Et, zlen_app; pose proof (zlen_nonneg (top m)); rewrite zlen_cons, zlen_nil; lia|lia].
  destruct (top m) as [|y l] eqn:Etop; [|rewrite Et, zlen_cons; pose proof (zlen_nonneg l); lia].
  exfalso. unfold merkle_update in E. cbn [merkle_update_loop] in E.
  assert (El1 : level (add_hash leafLevel x m) leafLevel = [x]).
  { rewrite level_add, decide_True by done. unfold top in Etop. unfold leafLevel. rewrite <- El, H1 in Etop. by rewrite Etop. }
  rewrite El1 in E. change (u32 (zlen [x])) with 1 in E. cbn [mt_maxDegree add_hash] in E. rewrite (proj2 (Z.leb_le _ _)) in E by lia.
  injection E as <-. unfold top in Et. rewrite H1 in Et. unfold leafLevel in *. congruence.
Qed.

(** The results that have been added, as long as nothing is hashed. *)
Definition pending_all (h : RangeQueryResultsHelper) (l : list KVRead) : Prop :=
  forall m, rqh_mt h = Some m -> merkle_isEmpty m = true -> rqh_pendingResults h = l.

Lemma AddResult_pending (r : KVRead) (h h' : RangeQueryResultsHelper) (m : merkleTree) (l : list KVRead) :
  helper_ok h m -> pending_all h l -> AddResult hashFunc r h = Ret h' -> pending_all h' (l ++ [r]).
Proof.
  intros Hh Hp E m' Em' Hempty. unfold AddResult in E. cbn [rqh_hashingEnabled rqh_maxDegree rqh_pendingResults] in E.
  destruct (_ && _).
  - exfalso. unfold processPendingResults, get_mt in E. cbn [rqh_mt rqh_pendingResults] in E.
    apply outcome_bind_ret_inv in E as (x & _ & E). rewrite (hk_mt _ _ Hh) in E. cbn [mbind outcome_bind] in E.
    apply outcome_bind_ret_inv in E as (m2 & E2 & E). injection E as <-. cbn in Em'. injection Em' as <-.
    by rewrite (not_empty_step m m2 x (hk_tree _ _ Hh) E2) in Hempty.
  - injection E as <-. cbn [rqh_mt rqh_pendingResults] in Em' |- *. by rewrite (Hp m' Em' Hempty).
Qed.

Lemma AddResults_pending (l l0 : list KVRead) (h h' : RangeQueryResultsHelper) (m : merkleTree) :
  helper_ok h m -> pending_all h l0 -> foldM (AddResult hashFunc) l h = Ret h' -> pending_all h' (l0 ++ l).
Proof.
  revert l0 h m. induction l as [|r l IH]; intros l0 h m Hh Hp E.
  - injection E as <-. by rewrite app_nil_r.
  - cbn [foldM] in E. destruct (AddResult_ok hashFunc hash_total r h m Hh) as (h1 & m1 & E1 & Hh1 & _). rewrite E1 in E. cbn [mbind outcome_bind] in E.
    rewrite cons_middle, app_assoc. apply (IH (l0 ++ [r]) h1 m1 Hh1); [|done]. by apply (AddResult_pending r h h1 m).
Qed.

Lemma Done_raw (h : RangeQueryResultsHelper) (m : merkleTree) (rs : list KVRead) (s : option QueryReadsMerkleSummary) :
  helper_ok h m -> Done hashFunc h = Ret (rs, s) ->
  match s with Some _ => True | None => merkle_isEmpty m = true /\ rs = rqh_pendingResults h end.
Proof.
  intros [Em Hm Hd He]. unfold Done, get_mt. rewrite He, Em. cbn [negb mbind outcome_bind].
  destruct (merkle_isEmpty m); [by intros [= <- <-]|]. intros E. apply outcome_bind_ret_inv in E as (h1 & _ & E).
  apply outcome_bind_ret_inv in E as (m1 & _ & E). apply outcome_bind_ret_inv in E as (m2 & _ & E). by injection E as <- <-.
Qed.

(** The info made of the captured results is current where a query gives them. *)
Lemma query_info_current (d : Z) (l : list KVRead) (h0 h : RangeQueryResultsHelper) :
  degree_ok d -> NewRangeQueryResultsHelper true d = Ret h0 -> foldM (AddResult hashFunc) l h0 = Ret h ->
  exists rs s, Done hashFunc h = Ret (rs, s) /\
    (forall info s', RQI_ReadsInfo info = None -> GetReadsMerkleHashes (query_info info rs s) = Some s' -> degree_ok (QRMS_MaxDegree s')) /\
    forall σ ns info, RQI_ReadsInfo info = None ->
      read_of <$> query_results σ ns (RQI_StartKey info) (RQI_EndKey info) (negb (RQI_ItrExhausted info)) = l ->
      range_current hashFunc σ (ns, query_info info rs s) = true.
Proof.
  intros Hd E0 E. destruct (helper_new d Hd) as (h0' & m0 & E0' & Hh0 & Em0 & El0 & Et0). rewrite E0 in E0'. injection E0' as <-.
  destruct (AddResults_ok hashFunc hash_total l h0 m0 Hh0) as (h' & m & E' & Hh & _ & Ed). rewrite E in E'. injection E' as <-.
  destruct (Done_ok hashFunc hash_total h m Hh) as (rs & s & Es & Hs). exists rs, s. split; [done|]. split.
  { intros info s' Hn. destruct s as [s|].
    - intros [= <-]. destruct Hs as [_ ->]. by rewrite Ed, Em0.
    - unfold query_info, GetReadsMerkleHashes. destruct rs; [by rewrite Hn|done]. }
  intros σ ns info Hn Hq.
  assert (Hf : RQI_StartKey (query_info info rs s) = RQI_StartKey info /\ RQI_EndKey (query_info info rs s) = RQI_EndKey info /\
    RQI_ItrExhausted (query_info info rs s) = RQI_ItrExhausted info) by (unfold query_info; by destruct rs, s).
  destruct Hf as (E1 & E2 & E3). unfold range_current. rewrite E1, E2, E3, Hq. destruct s as [s|].
  - assert (GetReadsMerkleHashes (query_info info rs (Some s)) = Some s) as -> by done. destruct Hs as [_ Hdeg].
    assert (summarize hashFunc (QRMS_MaxDegree s) l = Ret (Some s)) as ->; [|by apply merkleSummariesEqual_spec].
    unfold summarize. rewrite Hdeg, Ed, Em0, E0. cbn [mbind outcome_bind]. rewrite E. cbn [mbind outcome_bind]. by rewrite Es.
  - destruct (Done_raw h m rs None Hh Es) as [Hempty Ers].
    assert (Hp : pending_all h l).
    { apply (AddResults_pending l [] h0 h m0 Hh0); [|done]. intros m' Em' _. unfold NewRangeQueryResultsHelper in E0.
      apply outcome_bind_ret_inv in E0 as (mt & _ & E0). by injection E0 as <-. }
    rewrite (Hp m (hk_mt _ _ Hh) Hempty) in Ers. subst rs.
    assert (GetReadsMerkleHashes (query_info info l None) = None) as ->.
    { unfold query_info, GetReadsMerkleHashes. destruct l; [by rewrite Hn|done]. }
    apply bool_decide_eq_true. unfold query_info, GetRawReads. destruct l; [by rewrite Hn|done].
Qed.

End Capture.

(** ** The part of a range up to a key *)

Lemma read_of_end (σ : state) (ns k : bytes) (vv : VersionedValue) :
  σ !! (ns, k) = Some vv -> read_of <$> end_item σ ns k true = [read_of (mkVersionedKV ns k vv)].
Proof. intros E. unfold end_item. by rewrite E. Qed.

Lemma scan_upto (σ : state) (ns s e : bytes) (l l2 : list VersionedKV) (kv : VersionedKV) :
  scan σ ns s e = l ++ kv :: l2 -> vkv_Key kv <> [] ->
  read_of <$> query_results σ ns s (vkv_Key kv) true = read_of <$> (l ++ [kv]).
Proof.
  intros E Hk. unfold query_results. rewrite !fmap_app. rewrite scan_to_kv in E.
  apply fmap_app_inv in E as (r1 & r2 & -> & E2 & E). symmetry in E2. apply fmap_cons_inv in E2 as ([k vv] & r3 & -> & -> & ->).
  cbn [to_kv fst snd vkv_Key] in *. pose proof (range_scan_key_lt (slice σ ns) s (limit_of e)) as Hs. rewrite E in Hs.
  assert (Hel : forall x, x ∈ r1 ++ (k, vv) :: r3 <-> slice σ ns !! fst x = Some (snd x) /\ bytes_leb s (fst x) = true /\ below (fst x) (limit_of e) = true).
  { intros [k' v']. rewrite <- E. apply range_scan_elem. }
  assert (Hkv : slice σ ns !! k = Some vv /\ bytes_leb s k = true /\ below k (limit_of e) = true) by (apply (Hel (k, vv)), elem_of_app; right; by left).
  rewrite read_of_end with (vv := vv) by (rewrite <- slice_lookup; apply Hkv). f_equal. f_equal. rewrite scan_to_kv. f_equal.
  assert (Elim : limit_of k = Some k) by (unfold limit_of; by rewrite bool_decide_eq_false_2). rewrite Elim.
  apply StronglySorted_app in Hs as (Hlt & Hr1 & Hrest).
  apply key_lt_ext; [apply range_scan_key_lt|done|]. intros [k' v']. rewrite range_scan_elem. cbn [below].
  unfold bytes_ltb. split.
  - intros (H1 & H2 & H3). assert (Hin : (k', v') ∈ r1 ++ (k, vv) :: r3).
    { apply Hel. cbn [fst snd]. split; [done|]. split; [done|]. destruct Hkv as (_ & _ & Hb). destruct (limit_of e) as [e'|]; [|done].
      cbn [below] in Hb |- *. unfold bytes_ltb in Hb |- *. destruct (bytes_compare k e') eqn:Eb; try done.
      destruct (bytes_compare k' k) eqn:Ec; try done. by rewrite (bytes_compare_lt_trans _ _ _ Ec Eb). }
    apply elem_of_app in Hin as [Hin|Hin]; [done|]. exfalso. apply elem_of_cons in Hin as [[= -> ->]|Hin].
    + by rewrite bytes_compare_refl in H3.
    + apply StronglySorted_inv in Hrest as [_ Hf]. rewrite Forall_forall in Hf. specialize (Hf _ Hin). unfold key_lt in Hf. cbn in Hf.
      rewrite bytes_compare_antisym, Hf in H3. done.
  - intros Hin. assert (Hin' : (k', v') ∈ r1 ++ (k, vv) :: r3) by (apply elem_of_app; by left). apply Hel in Hin' as (H1 & H2 & _).
    cbn [fst snd] in *. split; [done|]. split; [done|]. specialize (Hlt (k', v') (k, vv) Hin ltac:(by left)). unfold key_lt in Hlt. cbn in Hlt.
    by rewrite Hlt.
Qed.

(** ** What the queries of a database promise *)

Class QueryDBOk (D : Type) `{!VersionedDB D, !QueryDB D, !VersionedDBOk D} : Prop := {
  view_multiple : forall d σ ns keys, state_view d σ -> ns_ok ns ->
    db_GetStateMultipleKeys d ns keys = Ret ((fun k => σ !! (ns, k)) <$> keys);
  (** results are current keys of the name space *)
  view_query : forall d σ ns query itr, state_view d σ -> ns_ok ns -> db_ExecuteQuery d ns query = Ret itr ->
    exists l, yields itr l /\
      Forall (fun kv => vkv_Namespace kv = ns /\ option_map vv_Version (σ !! (ns, vkv_Key kv)) = Some (vv_Version (vkv_Value kv))) l;
  (** an iterator that has ended stays at its end *)
  query_end : forall itr itr' : DbItr (D := D), Next itr = (Ret None, itr') -> Next itr' = (Ret None, itr');
  (** an iterator that is closed has no more items, or is as before *)
  query_close : forall (itr : DbItr (D := D)) (l : list VersionedKV), yields itr l -> yields (db_Close itr) [] \/ yields (db_Close itr) l }.

#[global] Instance stateleveldb_queries_ok `{!StateProtos, !StateProtosOk} : QueryDBOk kvmap.
Proof.
  constructor.
  - intros m σ ns keys Hv Hn. cbn. induction keys as [|k keys IH]; [done|]. cbn [GetStateMultipleKeys].
    rewrite (leveldb_GetState m σ) by done. cbn [mbind outcome_bind]. by rewrite IH.
  - done.
  - intros itr itr'. unfold Next, DbItr_Next. cbn. unfold kvScanner_Next at 1. destruct (_ && _) eqn:El.
    + intros [= <-]. unfold kvScanner_Next. by rewrite El.
    + destruct (kvs_dbItr itr) as [|[k v] rest] eqn:Ed.
      * intros [= <-]. unfold kvScanner_Next. by rewrite El, Ed.
      * intros [= E _]. by destruct (decodeDataKey k) as [[? ?]| |], (decodeValue v).
  - intros itr l _. left. apply (yields_nil _ (kvScanner_Close itr)). unfold Next. cbn. unfold kvScanner_Next. cbn. by destruct (_ && _).
Qed.

Section SimOk.
Context {PR : Protos} {SP : StateProtos} {D : Type} {VD : VersionedDB D} {QD : QueryDB D} {VO : VersionedDBOk D} {QO : QueryDBOk D}.
Context {CC : DeployedChaincodeInfoProvider}.
Variable hashFunc : bytes -> outcome bytes.
Hypothesis hash_total : forall b, exists h, hashFunc b = Ret h.
Variable db : DB D.
Variable σ : state.
Hypothesis Hview : db_view db σ.
(** No key is the empty string: the end key of a range would be taken for no end. *)
Hypothesis no_empty_key : forall ns, σ !! (ns, []) = None.
Variable keys : list bytes.
Hypothesis keys_distinct : forall k k', k ∈ keys -> k' ∈ keys -> Sum256 k = Sum256 k' -> k = k'.

Definition name_space_ok (ns : bytes) : Prop := (dollar ∉ ns) /\ ns_ok ns.

(** The configuration is read from proper name spaces. *)
Fixpoint reader_ok {A} (p : reader A) : Prop :=
  match p with
  | ReaderDone _ => True
  | ReaderGetState ns key k => name_space_ok ns /\ forall r, reader_ok (k r)
  end.

Hypothesis provider_ok : forall ns, reader_ok (AllCollectionsConfigPkg ns).

Definition coll_ok (ns coll : bytes) : Prop := coll <> [] /\ name_space_ok ns /\ ns_ok coll.

(** ** What the calls write *)

Definition put_write (value : option bytes) : write := match value with Some v => WValue v | None => WDelete end.

(** What a call writes when it succeeds: the hash of a private value is public. *)
Definition call_writes (c : call) : list (compositeKey * write) :=
  match c with
  | CSetState ns key value => [((ns, [], key), put_write value)]
  | CSetStateMetadata ns key metadata => [((ns, [], key), metadata_write_of (metadata_entries metadata))]
  | CSetPrivateData ns coll key value => [((ns, coll, Sum256 key), put_write (Sum256 <$> value))]
  | CSetPrivateDataMetadata ns coll key metadata => [((ns, coll, Sum256 key), metadata_write_of (metadata_entries metadata))]
  | _ => []
  end.

(** What it writes to the private data. *)
Definition call_pvt (c : call) : list (bytes * bytes * bytes * option bytes) :=
  match c with
  | CSetPrivateData ns coll key value => [((ns, coll, key), value)]
  | _ => []
  end.

(** ** The invariant *)

Definition read_current (k : data_key) (v : option Height) : Prop := dk_ok k /\ version_at (D := D) σ k = v.

Definition query_current (ns : bytes) (rq : RangeQueryInfo) : Prop := range_wf (ns, rq) /\ range_current hashFunc σ (ns, rq) = true.

(** How far the client has read a range [l1 ++ l2]. *)
Inductive progress (endKey : bytes) (l1 l2 : list VersionedKV) (info : RangeQueryInfo) : Prop :=
| not_started : l1 = [] -> RQI_ItrExhausted info = false -> RQI_EndKey info = [] -> progress endKey l1 l2 info
| read_upto l kv : l1 = l ++ [kv] -> RQI_ItrExhausted info = false -> RQI_EndKey info = vkv_Key kv -> progress endKey l1 l2 info
| ended : l2 = [] -> RQI_ItrExhausted info = true -> RQI_EndKey info = endKey -> progress endKey l1 l2 info.

Record itr_ok (itr : resultsItr (D := D)) (info : RangeQueryInfo) (helper : RangeQueryResultsHelper) (l1 l2 : list VersionedKV) : Prop := {
  io_ns : name_space_ok (ri_ns itr);
  io_capture : ri_capture itr = Some (info, helper);
  io_raw : RQI_ReadsInfo info = None;
  io_scan : scan σ (ri_ns itr) (RQI_StartKey info) (ri_endKey itr) = l1 ++ l2;
  io_results : exists h0, NewRangeQueryResultsHelper true maxDegreeQueryReadsHashing = Ret h0 /\
    foldM (AddResult hashFunc) (read_of <$> l1) h0 = Ret helper;
  io_progress : progress (ri_endKey itr) l1 l2 info }.

(** The call closes the range iterator with the reference [i]. *)
Definition closes (i : nat) (c : call) : bool :=
  match c with CDone => true | CRangeClose j => bool_decide (j = i) | _ => false end.

Definition closed_by (acc : list call) (i : nat) : Prop := Exists (fun c => closes i c = true) acc.

(** An iterator that is not closed gives the rest of the range. *)
Definition range_itr_ok (closed : Prop) (itr : resultsItr (D := D)) : Prop :=
  exists info helper l1 l2, itr_ok itr info helper l1 l2 /\ (closed \/ yields (ri_dbItr itr) l2).

Definition item_current (kv : VersionedKV) : Prop :=
  read_current (PubKey (vkv_Namespace kv) (vkv_Key kv)) (Some (vv_Version (vkv_Value kv))).

Definition open_itr_ok (itr : openItr (D := D)) : Prop :=
  match itr with
  | queryResultsItr i => exists l, yields i l /\ Forall item_current l
  | pvtdataResultsItr _ _ _ => True
  end.

Definition entry_ok (x : compositeKey * write) : Prop := dk_ok (key_of (fst x)) /\ snd x <> WValue [].

(** The executor after the calls [acc] have succeeded. *)
Record qe_ok (acc : list call) (q : queryExecutor (D := D)) : Prop := {
  qo_collect : qe_collectReadset q = true;
  qo_err : qe_err q = None;
  qo_builder : builder_ok read_current query_current keys (qe_rwsetBuilder q);
  qo_logged : logged keys (qe_rwsetBuilder q) (acc ≫= call_writes);
  qo_pvt : pvt_logged coll_ok (qe_rwsetBuilder q) (acc ≫= call_pvt);
  qo_log : Forall entry_ok (acc ≫= call_writes);
  qo_itrs : forall i itr, qe_itrs q !! i = Some itr -> range_itr_ok (closed_by acc i) itr;
  qo_open : Forall open_itr_ok (qe_openItrs q) }.

(** ** Queries keep it *)

Section Keeps.
Variable acc : list call.

Definition keeps {A} (m : M queryExecutor A) : Prop := forall q, qe_ok acc q -> qe_ok acc (snd (m q)).

Lemma keeps_ret {A} (a : A) : keeps (mret a).
Proof. by intros q. Qed.

Lemma keeps_throw {A} (e : error) : keeps (throw (A := A) e).
Proof. by intros q. Qed.

Lemma keeps_lift {A} (o : outcome A) : keeps (lift_outcome o).
Proof. by intros q. Qed.

Lemma keeps_panic {A} (msg : string) : keeps (panic (A := A) msg).
Proof. by intros q. Qed.

Lemma keeps_bind {A B} (m : M queryExecutor A) (f : A -> M queryExecutor B) : keeps m -> (forall a, keeps (f a)) -> keeps (mbind f m).
Proof.
  intros Hm Hf q Hq. unfold mbind, M_bind. specialize (Hm q Hq). destruct (m q) as [[a|e|msg] q']; [by apply Hf|done..].
Qed.

(** The value of a call of the database is known. *)
Lemma keeps_bind_lift {A B} (o : outcome A) (f : A -> M queryExecutor B) :
  (forall a, o = Ret a -> keeps (f a)) -> keeps (mbind f (lift_outcome o)).
Proof. intros Hf q Hq. unfold mbind, M_bind, lift_outcome. destruct o as [a|e|msg]; [by apply Hf|done..]. Qed.

Lemma lift_bind {S A B} (o : outcome A) (f : A -> M S B) (s : S) :
  mbind f (lift_outcome o) s = match o with Ret a => f a s | Err e => (Err e, s) | Panic msg => (Panic msg, s) end.
Proof. by destruct o. Qed.

Lemma keeps_bind_get {B} (f : queryExecutor -> M queryExecutor B) :
  (forall q, qe_ok acc q -> qe_ok acc (snd (f q q))) -> keeps (mbind f get_state).
Proof. intros Hf q Hq. by apply Hf. Qed.

Lemma keeps_checkDone : keeps checkDone.
Proof. intros q Hq. unfold checkDone. by destruct (qe_doneInvoked q). Qed.

Lemma keeps_record (f : RWSetBuilder -> RWSetBuilder) :
  (forall b log, builder_ok read_current query_current keys b -> logged keys b log ->
     builder_ok read_current query_current keys (f b) /\ logged keys (f b) log) ->
  (forall b, pvtRwBuilderMap (f b) = pvtRwBuilderMap b) -> keeps (record f).
Proof.
  intros Hf Hp q [H1 H2 H3 H4 H0 H5 H6 H7]. unfold record, mbind, M_bind, get_state. rewrite H1. destruct (Hf _ _ H3 H4). constructor; try done.
  eapply pvt_logged_same; [apply Hp|done].
Qed.

Lemma version_roundtrip (v : option Height) : NewVersion (newProtoVersion v) = v.
Proof. by destruct v as [[]|]. Qed.

Lemma keeps_record_pub (ns key : bytes) (v : option Height) :
  name_space_ok ns -> option_map vv_Version (σ !! (ns, key)) = v -> keeps (record (AddToReadSet ns key v)).
Proof.
  intros [Hd Hn] Hv. apply keeps_record; [|done]. intros b log Hb Hl. apply AddToReadSet_ok; [|done|done]. rewrite version_roundtrip.
  split; [|done]. split; [done|]. split; [done|]. apply not_elem_of_nil.
Qed.

Lemma keeps_record_hash (ns coll key : bytes) (v : option Height) :
  coll <> [] -> dk_ok (HashKey ns coll (Sum256 key)) -> version_at (D := D) σ (HashKey ns coll (Sum256 key)) = v ->
  keeps (record (AddToHashedReadSet ns coll key v)).
Proof.
  intros Hc Hk Hv. apply keeps_record; [|done]. intros b log Hb Hl. apply AddToHashedReadSet_ok; [done| |done|done]. by rewrite version_roundtrip.
Qed.

Lemma decompose_version (vv : option VersionedValue) : snd (decomposeVersionedValue vv) = option_map vv_Version vv.
Proof. by destruct vv. Qed.

Lemma keeps_getState (ns key : bytes) : name_space_ok ns -> keeps (qe_getState db ns key).
Proof.
  intros Hn. unfold qe_getState. apply keeps_bind; [apply keeps_checkDone|]. intros _. apply keeps_bind_lift. intros vv E.
  rewrite (view_GetState _ _ _ _ (dv_state _ _ Hview)) in E by apply Hn. injection E as <-.
  pose proof (decompose_version (σ !! (ns, key))) as Ev. destruct (decomposeVersionedValue _) as [[val md] ver]. cbn in Ev.
  apply keeps_bind; [by apply keeps_record_pub|]. intros _. apply keeps_ret.
Qed.

Lemma keeps_GetState (ns key : bytes) : name_space_ok ns -> keeps (qe_GetState db ns key).
Proof. intros Hn. apply keeps_bind; [by apply keeps_getState|]. intros [v md]. apply keeps_ret. Qed.

Lemma keeps_GetStateMetadata (ns key : bytes) : name_space_ok ns -> keeps (qe_GetStateMetadata db ns key).
Proof.
  intros Hn. apply keeps_bind; [apply keeps_checkDone|]. intros _. apply keeps_bind_get. intros q Hq. rewrite (qo_collect _ _ Hq). cbn [negb].
  revert q Hq. apply keeps_bind; [|intros md; apply keeps_lift].
  apply keeps_bind; [by apply keeps_getState|]. intros [v md]. apply keeps_ret.
Qed.

Lemma keeps_record_values (add : bytes -> option Height -> RWSetBuilder -> RWSetBuilder) (ver : bytes -> option VersionedValue) (ks : list bytes) :
  (forall k, k ∈ ks -> keeps (record (add k (option_map vv_Version (ver k))))) -> keeps (record_values add (zip ks (ver <$> ks))).
Proof.
  induction ks as [|k ks IH]; intros H; [apply keeps_ret|]. cbn [fmap list_fmap zip zip_with record_values].
  pose proof (decompose_version (ver k)) as Ev. destruct (decomposeVersionedValue _) as [[val md] v]. cbn in Ev. subst v.
  apply keeps_bind; [apply H; by left|]. intros _. apply keeps_bind; [apply IH; intros; apply H; by right|]. intros vals. apply keeps_ret.
Qed.

Lemma keeps_GetStateMultipleKeys (ns : bytes) (ks : list bytes) : name_space_ok ns -> keeps (qe_GetStateMultipleKeys db ns ks).
Proof.
  intros Hn. apply keeps_bind; [apply keeps_checkDone|]. intros _. rewrite (view_multiple _ _ _ _ (dv_state _ _ Hview)) by apply Hn.
  apply (keeps_record_values (AddToReadSet ns) (fun k => σ !! (ns, k))). intros k _. by apply keeps_record_pub.
Qed.

(** *** Range queries *)

Lemma keeps_set_itrs (q : queryExecutor) (itrs : list resultsItr) :
  qe_ok acc q -> (forall i itr, itrs !! i = Some itr -> range_itr_ok (closed_by acc i) itr) -> qe_ok acc (snd (set_itrs itrs q)).
Proof. intros [H1 H2 H3 H4 H0 H5 H6 H7] Hi. by constructor. Qed.

Lemma keeps_set_openItrs (q : queryExecutor) (itrs : list openItr) :
  qe_ok acc q -> Forall open_itr_ok itrs -> qe_ok acc (snd (set_openItrs itrs q)).
Proof. intros [H1 H2 H3 H4 H0 H5 H6 H7] Hi. by constructor. Qed.

Lemma degree_default : degree_ok maxDegreeQueryReadsHashing.
Proof. unfold degree_ok, maxDegreeQueryReadsHashing. lia. Qed.

Lemma range_itr_weaken (P Q : Prop) (itr : resultsItr) : (P -> Q) -> range_itr_ok P itr -> range_itr_ok Q itr.
Proof. intros HPQ (info & h & l1 & l2 & Hi & Hy). exists info, h, l1, l2. split; [done|]. destruct Hy; auto. Qed.

Lemma newResultsItr_ok (ns startKey endKey : bytes) (itr : resultsItr) :
  name_space_ok ns -> newResultsItr db true ns startKey endKey 0 queryReadsHashingEnabled maxDegreeQueryReadsHashing = Ret itr ->
  range_itr_ok False itr.
Proof.
  intros Hn E. unfold newResultsItr in E. rewrite Z.eqb_refl in E.
  destruct (view_scan _ _ ns startKey endKey (dv_state _ _ Hview) (proj2 Hn)) as (dbItr & Es & Hy). rewrite Es in E.
  cbn [mbind outcome_bind] in E. apply outcome_bind_ret_inv in E as (h0 & E0 & E). injection E as <-.
  eexists _, h0, [], (scan σ ns startKey endKey). split; [|by right]. constructor; try done; [by exists h0|by apply not_started].
Qed.

Lemma keeps_range (ns startKey endKey : bytes) : name_space_ok ns -> keeps (qe_GetStateRangeScanIterator db ns startKey endKey).
Proof.
  intros Hn. apply keeps_bind; [apply keeps_checkDone|]. intros _. apply keeps_bind_get. intros q Hq. rewrite (qo_collect _ _ Hq).
  rewrite lift_bind. destruct (newResultsItr _ _ _ _ _ _ _ _) as [itr| |] eqn:E; [|done..].
  apply keeps_set_itrs; [done|]. intros i itr' [Hi|[_ Hi]]%lookup_app_Some; [by apply Hq|].
  apply list_lookup_singleton_Some in Hi as [_ <-]. eapply range_itr_weaken; [|by eapply newResultsItr_ok]. done.
Qed.

Lemma foldM_snoc {S A} (f : A -> S -> outcome S) (l : list A) (a : A) (s s' : S) :
  foldM f l s = Ret s' -> foldM f (l ++ [a]) s = f a s'.
Proof.
  revert s. induction l as [|b l IH]; intros s; cbn [foldM app].
  - intros [= ->]. by destruct (f a s').
  - intros E. apply outcome_bind_ret_inv in E as (s1 & E1 & E). rewrite E1. cbn [mbind outcome_bind]. by apply IH.
Qed.

Lemma next_result (l : list KVRead) (r : KVRead) (h0 h : RangeQueryResultsHelper) :
  NewRangeQueryResultsHelper true maxDegreeQueryReadsHashing = Ret h0 -> foldM (AddResult hashFunc) l h0 = Ret h ->
  exists h', AddResult hashFunc r h = Ret h' /\ foldM (AddResult hashFunc) (l ++ [r]) h0 = Ret h'.
Proof.
  intros E0 E. destruct (helper_new _ degree_default) as (h1 & m0 & E1 & Hh0 & _). rewrite E0 in E1. injection E1 as <-.
  destruct (AddResults_ok hashFunc hash_total (l ++ [r]) h0 m0 Hh0) as (h' & m & E' & _). exists h'. split; [|done].
  by rewrite (foldM_snoc _ _ _ _ _ E) in E'.
Qed.

Lemma resultsItr_Next_ok (itr : resultsItr) : range_itr_ok False itr -> range_itr_ok False (snd (resultsItr_Next hashFunc itr)).
Proof.
  intros (info & h & l1 & l2 & [Hns Hc Hraw Hs (h0 & E0 & Ef) Hp] & [[]|Hy]). unfold resultsItr_Next.
  inversion Hy as [i i' En|i i' kv l En Hy' E1 E2]; subst; rewrite En, Hc; cbn [updateRangeQueryInfo].
  - eexists _, h, l1, []. split; [|right; apply (yields_nil i' i'); by eapply query_end].
    constructor; cbn; try done; [by exists h0|by apply ended].
  - change (NewKVRead (vkv_Key kv) (Some (vv_Version (vkv_Value kv)))) with (read_of kv).
    destruct (next_result _ (read_of kv) h0 h E0 Ef) as (h' & -> & Ef'). cbn [mbind outcome_bind snd].
    eexists _, h', (l1 ++ [kv]), l. split; [|by right]. constructor; cbn; try done.
    + etrans; [exact Hs|]. by rewrite <- app_assoc.
    + exists h0. by rewrite fmap_app.
    + apply (read_upto _ _ _ _ l1 kv); [done| |done]. cbn. by destruct Hp.
Qed.

Lemma keeps_range_Next (i : nat) : ~ closed_by acc i -> keeps (range_Next hashFunc i).
Proof.
  intros Hopen. apply keeps_bind_get. intros q Hq. rewrite lift_bind. unfold go_index.
  destruct (qe_itrs q !! i) as [itr|] eqn:E; [|done].
  pose proof (resultsItr_Next_ok itr (range_itr_weaken _ _ _ Hopen (qo_itrs _ _ Hq _ _ E))) as Hn.
  destruct (resultsItr_Next hashFunc itr) as [r itr'].
  cbn [snd] in Hn. assert (Hq' : qe_ok acc (snd (set_itrs (<[i := itr']> (qe_itrs q)) q))).
  { apply keeps_set_itrs; [done|]. intros j itr2 [(<- & <- & _)|(_ & Hj)]%list_lookup_insert_Some; [|by apply Hq].
    by apply (range_itr_weaken False). }
  destruct r; exact Hq'.
Qed.

(** *** Other queries *)

Lemma keeps_open_query (o : outcome (DbItr (D := D))) (mk : DbItr (D := D) -> openItr) :
  (forall itr, o = Ret itr -> open_itr_ok (mk itr)) -> keeps (open_query o mk).
Proof.
  intros Ho. apply keeps_bind_lift. intros itr E. apply keeps_bind_get. intros q Hq. apply keeps_set_openItrs; [done|].
  apply Forall_app. split; [apply Hq|]. constructor; [by apply Ho|done].
Qed.

Lemma keeps_ExecuteQuery (ns query : bytes) : name_space_ok ns -> keeps (qe_ExecuteQuery db ns query).
Proof.
  intros Hn. apply keeps_bind; [apply keeps_checkDone|]. intros _. apply keeps_open_query. intros itr E.
  destruct (view_query _ _ _ _ _ (dv_state _ _ Hview) (proj2 Hn) E) as (l & Hy & Hl). exists l. split; [done|].
  eapply Forall_impl; [exact Hl|]. cbn. intros kv [<- Hv]. split; [|done]. split; [apply Hn|]. split; [apply Hn|apply not_elem_of_nil].
Qed.

Lemma keeps_open_Next (i : nat) : keeps (open_Next i).
Proof.
  apply keeps_bind_get. intros q Hq. rewrite lift_bind. unfold go_index.
  destruct (qe_openItrs q !! i) as [itr|] eqn:E; [|done]. pose proof (qo_open _ _ Hq) as Hi.
  pose proof (Forall_lookup_1 _ _ _ _ Hi E) as Ho. destruct itr as [dbItr|ns coll dbItr].
  - destruct Ho as (l & Hy & Hl). inversion Hy as [i1 i' En|i1 i' kv l' En Hy' E1 E2]; subst; rewrite En.
    + apply (keeps_set_openItrs _ _ Hq). apply Forall_insert; [done|]. exists []. split; [|done].
      apply (yields_nil i' i'). by eapply query_end.
    + apply Forall_cons in Hl as [Hkv Hl].
      assert (Hq' : qe_ok acc (snd (set_openItrs (<[i := queryResultsItr i']> (qe_openItrs q)) q))).
      { apply keeps_set_openItrs; [done|]. apply Forall_insert; [done|]. by exists l'. }
      revert Hq'. refine (keeps_bind (record _) (fun _ => mret _) _ _ _); [|intros _; apply keeps_ret].
      destruct Hkv as [(Hd & Hn & _) Hv]. by apply keeps_record_pub.
  - destruct (Next dbItr) as [r dbItr'].
    assert (Hq' : qe_ok acc (snd (set_openItrs (<[i := pvtdataResultsItr ns coll dbItr']> (qe_openItrs q)) q))).
    { apply keeps_set_openItrs; [done|]. by apply Forall_insert. }
    destruct r; exact Hq'.
Qed.

Lemma keeps_open_Close (i : nat) : keeps (open_Close i).
Proof.
  apply keeps_bind_get. intros q Hq. rewrite lift_bind. unfold go_index.
  destruct (qe_openItrs q !! i) as [itr|] eqn:E; [|done]. apply keeps_set_openItrs; [done|]. pose proof (qo_open _ _ Hq) as Hi.
  apply Forall_insert; [done|]. pose proof (Forall_lookup_1 _ _ _ _ Hi E) as Ho. destruct itr as [dbItr|ns coll dbItr]; [|done].
  destruct Ho as (l & Hy & Hl). destruct (query_close _ _ Hy); [by exists []|by exists l].
Qed.

(** *** Private data *)

Lemma keeps_run_reader {A} (p : reader A) : reader_ok p -> keeps (run_reader db p).
Proof.
  induction p as [r|ns key k IH]; intros Hp q Hq; [done|]. destruct Hp as [Hn Hk]. cbn [run_reader].
  pose proof (keeps_GetState ns key Hn q Hq) as Hg. destruct (qe_GetState db ns key q) as [[v|e|msg] q']; [by apply IH|by apply IH|done].
Qed.

Lemma keeps_set_cache (f : collConfigCache -> collConfigCache) : keeps (set_cache f).
Proof. intros q [H1 H2 H3 H4 H0 H5 H6 H7]. by constructor. Qed.

Lemma keeps_validateCollName (ns coll : bytes) : keeps (validateCollName db ns coll).
Proof.
  apply keeps_bind_get. intros q Hq. destruct (qe_noop q); [done|]. destruct (negb _).
  all: revert q Hq; apply keeps_bind; [|intros _; apply keeps_bind_get; intros q Hq; by destruct (negb _)].
  - apply keeps_bind; [|intros conf; apply keeps_set_cache].
    apply keeps_bind; [by apply keeps_run_reader|]. intros [pkg|]; [apply keeps_ret|apply keeps_throw].
  - apply keeps_ret.
Qed.

(** What the operations on a collection begin with. *)
Lemma keeps_coll {A} (ns coll : bytes) (m : M queryExecutor A) :
  keeps m -> keeps (mbind (fun _ => mbind (fun _ => m) checkDone) (validateCollName db ns coll)).
Proof.
  intros Hm. apply keeps_bind; [apply keeps_validateCollName|]. intros _. apply keeps_bind; [apply keeps_checkDone|]. by intros _.
Qed.

Lemma keeps_GetPrivateData (ns coll key : bytes) :
  coll <> [] -> dk_ok (HashKey ns coll (Sum256 key)) -> keeps (qe_GetPrivateData db ns coll key).
Proof.
  intros Hc Hk. apply keeps_coll. apply keeps_bind_lift. intros vv _. destruct (decomposeVersionedValue vv) as [[val md] ver].
  apply keeps_bind_lift. intros hv E. destruct (AreSame hv ver) eqn:Es; [|apply keeps_throw]. apply AreSame_eq in Es. subst ver.
  apply keeps_bind; [|intros _; apply keeps_ret]. apply keeps_record_hash; [done..|].
  unfold GetKeyHashVersion in E. rewrite (view_GetVersion _ σ) in E; [|apply Hview|apply (loc_ns_ok (D := D) _ Hk)]. by injection E as <-.
Qed.

Lemma keeps_value_hash {A} (ns coll key : bytes) (f : option bytes -> bytes -> A) :
  coll <> [] -> dk_ok (HashKey ns coll (Sum256 key)) ->
  keeps (versionedValue ← lift_outcome (GetPrivateDataHash db ns coll key);
         let '(valHash, metadata, ver) := decomposeVersionedValue versionedValue in
         _ ← record (AddToHashedReadSet ns coll key ver);
         mret (f valHash metadata)).
Proof.
  intros Hc Hk. apply keeps_bind_lift. intros vv E. pose proof (decompose_version vv) as Ev.
  destruct (decomposeVersionedValue vv) as [[val md] ver]. cbn in Ev. subst ver.
  apply keeps_bind; [|intros _; apply keeps_ret]. apply keeps_record_hash; [done..|].
  unfold GetPrivateDataHash in E. rewrite (view_GetValueHash _ σ) in E by done. by injection E as <-.
Qed.

Lemma keeps_GetPrivateDataHash (ns coll key : bytes) :
  coll <> [] -> dk_ok (HashKey ns coll (Sum256 key)) -> keeps (qe_GetPrivateDataHash db ns coll key).
Proof. intros Hc Hk. apply keeps_coll. by apply (keeps_value_hash ns coll key (fun v _ => v)). Qed.

Lemma keeps_GetPrivateDataMetadata (ns coll key : bytes) :
  coll <> [] -> dk_ok (HashKey ns coll (Sum256 key)) -> keeps (qe_GetPrivateDataMetadata db ns coll key).
Proof.
  intros Hc Hk. apply keeps_bind_get. intros q Hq. rewrite (qo_collect _ _ Hq). cbn [negb]. revert q Hq.
  apply (keeps_coll ns coll). apply keeps_bind; [|intros [v md]; apply keeps_lift].
  apply keeps_coll. by apply (keeps_value_hash ns coll key pair).
Qed.

(** The private values have to be those of the hashes. *)
Lemma keeps_GetPrivateDataMultipleKeys (ns coll : bytes) (ks : list bytes) :
  coll <> [] -> (forall kh, dk_ok (HashKey ns coll kh)) ->
  (forall k, k ∈ ks -> version_at (D := D) σ (PvtKey ns coll k) = version_at (D := D) σ (HashKey ns coll (Sum256 k))) ->
  keeps (qe_GetPrivateDataMultipleKeys db ns coll ks).
Proof.
  intros Hc Hk Hv. apply keeps_coll. unfold db_GetPrivateDataMultipleKeys.
  rewrite (view_multiple _ σ); [|apply Hview|apply (loc_ns_ok (D := D) (PvtKey ns coll [])), (Hk [])].
  apply (keeps_record_values (AddToHashedReadSet ns coll) (fun k => σ !! (derivePvtDataNs ns coll, k))). intros k Hin.
  apply keeps_record_hash; [done..|]. by rewrite <- Hv.
Qed.

Lemma keeps_private_query (ns coll : bytes) (o : outcome (DbItr (D := D))) :
  keeps (_ ← validateCollName db ns coll; _ ← checkDone; open_query o (pvtdataResultsItr ns coll)).
Proof. apply keeps_coll, keeps_open_query. done. Qed.

End Keeps.
(** ** The calls of a client *)

(** A client goes on after an error; a panic ends the process.  The calls that have
    succeeded are returned. *)
Fixpoint run_calls (calls : list call) (s : txSimulator (D := D)) : outcome (txSimulator (D := D) * list call) :=
  match calls with
  | [] => Ret (s, [])
  | c :: calls' =>
      match exec_call hashFunc db c s with
      | (Ret _, s') => '(s', acc) ← run_calls calls' s'; Ret (s', c :: acc)
      | (Err _, s') => run_calls calls' s'
      | (Panic msg, _) => Panic msg
      end
  end.

(** Well-named keys, values that are not empty slices, no paginated query, and
    private values that are in step with their hashes. *)
Definition call_ok (c : call) : Prop :=
  match c with
  | CGetState ns _ | CGetStateMetadata ns _ | CGetStateMultipleKeys ns _ | CGetStateRangeScanIterator ns _ _ | CExecuteQuery ns _ => name_space_ok ns
  | CGetStateRangeScanIteratorWithPagination _ _ _ _ | CExecuteQueryWithPagination _ _ _ _ => False
  | CRangeNext _ | CRangeClose _ | CQueryNext _ | CQueryClose _ | CExecuteUpdate _ | CDone => True
  | CGetPrivateData ns coll _ | CGetPrivateDataHash ns coll _ | CGetPrivateDataMetadata ns coll _ => coll_ok ns coll
  | CGetPrivateDataMultipleKeys ns coll ks => coll_ok ns coll /\
      forall k, k ∈ ks -> version_at (D := D) σ (PvtKey ns coll k) = version_at (D := D) σ (HashKey ns coll (Sum256 k))
  | CGetPrivateDataRangeScanIterator _ _ _ _ | CExecuteQueryOnPrivateData _ _ _ => True
  | CSetState ns _ value => name_space_ok ns /\ value <> Some []
  | CSetStateMetadata ns _ _ => name_space_ok ns
  | CSetPrivateData ns coll key value => coll_ok ns coll /\ key ∈ keys /\ value <> Some []
  | CSetPrivateDataMetadata ns coll key _ => coll_ok ns coll /\ key ∈ keys
  end.

Definition sim_ok (acc : list call) (s : txSimulator (D := D)) : Prop :=
  qe_ok acc (s_queryExecutor s) /\ s_simulationResultsComputed s = false.

Definition sim_keeps {A} (m : M txSimulator A) : Prop := forall acc s, sim_ok acc s -> sim_ok acc (snd (m s)).

Lemma sim_keeps_bind {A B} (m : M txSimulator A) (f : A -> M txSimulator B) : sim_keeps m -> (forall a, sim_keeps (f a)) -> sim_keeps (mbind f m).
Proof.
  intros Hm Hf log s Hs. unfold mbind, M_bind. specialize (Hm log s Hs). destruct (m s) as [[a|e|msg] s']; [by apply Hf|done..].
Qed.

Lemma sim_keeps_on {A} (m : M queryExecutor A) : (forall log, keeps log m) -> sim_keeps (on_qe m).
Proof. intros Hm log s [Hs Hc]. specialize (Hm log _ Hs). unfold on_qe. by destruct (m (s_queryExecutor s)). Qed.

Lemma sim_keeps_discard {A} (m : M txSimulator A) : sim_keeps m -> sim_keeps (discard m).
Proof. intros Hm. apply sim_keeps_bind; [done|]. by intros a log s. Qed.

Lemma sim_keeps_before_pvt : sim_keeps checkBeforePvtdataQueries.
Proof. intros log s Hs. unfold checkBeforePvtdataQueries. by destruct (s_writePerformed s). Qed.

Lemma sim_keeps_precondition (key : bytes) (value : option bytes) : sim_keeps (checkWritePrecondition key value).
Proof.
  apply sim_keeps_bind; [apply sim_keeps_on; intros; apply keeps_checkDone|]. intros _.
  apply sim_keeps_bind; [intros log s Hs; unfold checkPvtdataQueryPerformed; by destruct (s_pvtdataQueriesPerformed s)|]. intros _.
  apply sim_keeps_bind; [intros log s Hs; unfold checkPaginatedQueryPerformed; by destruct (s_paginatedQueriesPerformed s)|]. intros _.
  apply sim_keeps_bind; [by intros log s|]. by intros _ log s.
Qed.

(** The last step of a writing call adds the write to the log. *)
Definition adds (c : call) (f : RWSetBuilder -> RWSetBuilder) : Prop :=
  Forall entry_ok (call_writes c) /\ forall b log plog, builder_ok read_current query_current keys b -> logged keys b log -> pvt_logged coll_ok b plog ->
    builder_ok read_current query_current keys (f b) /\ logged keys (f b) (log ++ call_writes c) /\ pvt_logged coll_ok (f b) (plog ++ call_pvt c).

(** The iterator that is read has not been closed. *)
Definition reads_open (acc : list call) (c : call) : Prop :=
  match c with CRangeNext i => ~ closed_by acc i | _ => True end.

Definition steps (m : M txSimulator unit) (c : call) : Prop :=
  forall acc s, reads_open acc c -> sim_ok acc s ->
    match m s with
    | (Ret _, s') => sim_ok (acc ++ [c]) s'
    | (_, s') => sim_ok acc s'
    end.

Lemma bind_snoc {A B : Type} (f : A -> list B) (l : list A) (a : A) : (l ++ [a]) ≫= f = (l ≫= f) ++ f a.
Proof. rewrite bind_app. cbn. by rewrite app_nil_r. Qed.

Lemma closed_snoc (acc : list call) (c : call) (i : nat) : closed_by acc i -> closed_by (acc ++ [c]) i.
Proof. intros H. apply Exists_app. by left. Qed.

(** A call that writes nothing has succeeded. *)
Lemma sim_ok_more (acc : list call) (c : call) (s : txSimulator) :
  call_writes c = [] -> call_pvt c = [] -> sim_ok acc s -> sim_ok (acc ++ [c]) s.
Proof.
  intros E1 E2 [[H1 H2 H3 H4 H0 H5 H6 H7] Hc]. split; [|done].
  constructor; try done; try (rewrite bind_snoc; rewrite ?E1, ?E2, app_nil_r; done).
  intros i itr Hi. eapply range_itr_weaken; [|by apply H6]. apply closed_snoc.
Qed.

Lemma steps_query {A} (m : M queryExecutor A) (c : call) :
  call_writes c = [] -> call_pvt c = [] -> (forall acc, reads_open acc c -> keeps acc m) -> steps (discard (on_qe m)) c.
Proof.
  intros E1 E2 Hm acc s Hr [Hs Hc]. specialize (Hm acc Hr _ Hs). unfold discard, mbind, M_bind, on_qe.
  destruct (m (s_queryExecutor s)) as [[a|e|msg] q]; [|by split..]. apply sim_ok_more; [done|done|]. by split.
Qed.

Lemma steps_none (m : M txSimulator unit) (c : call) : call_writes c = [] -> call_pvt c = [] -> sim_keeps m -> steps m c.
Proof.
  intros E1 E2 Hm acc s _ Hs. specialize (Hm acc s Hs). destruct (m s) as [[]]; [|done..]. by apply sim_ok_more.
Qed.

Lemma itr_Close_ok (P : Prop) (itr : resultsItr) : range_itr_ok P itr -> range_itr_ok True (resultsItr_Close itr).
Proof.
  intros (info & h & l1 & l2 & [Hns Hc Hraw Hs Hf Hp] & _). exists info, h, l1, l2. split; [|by left]. by constructor.
Qed.

(** Closing some of the range iterators. *)
Lemma sim_ok_close (acc : list call) (c : call) (s : txSimulator) (itrs : list resultsItr) (done : bool) :
  call_writes c = [] -> call_pvt c = [] -> sim_ok acc s ->
  (forall i itr, itrs !! i = Some itr -> exists itr0, qe_itrs (s_queryExecutor s) !! i = Some itr0 /\
     (itr = itr0 \/ (closes i c = true /\ itr = resultsItr_Close itr0))) ->
  let q := s_queryExecutor s in
  sim_ok (acc ++ [c]) (mktxSimulator (mkqueryExecutor (qe_collectReadset q) (qe_rwsetBuilder q) itrs (qe_openItrs q) (qe_err q) done
    (qe_noop q) (qe_cache q)) (s_writePerformed s) (s_pvtdataQueriesPerformed s) (s_simulationResultsComputed s) (s_paginatedQueriesPerformed s)).
Proof.
  intros E1 E2 Hs Hi q. destruct (sim_ok_more acc c s E1 E2 Hs) as [[H1 H2 H3 H4 H0 H5 H6 H7] Hc]. split; [|done]. constructor; try done.
  intros i itr (itr0 & E & H)%Hi. specialize (H6 i itr0 E). destruct H as [->|[Hcl ->]]; [done|].
  eapply range_itr_weaken; [|by apply (itr_Close_ok (closed_by (acc ++ [c]) i))]. intros _. apply Exists_app. right. by left.
Qed.

Lemma steps_Done : steps (on_qe qe_Done) CDone.
Proof.
  intros acc s _ Hs. unfold on_qe, qe_Done, modify_state. destruct (qe_doneInvoked (s_queryExecutor s)).
  - destruct s. by apply (sim_ok_more acc CDone).
  - apply (sim_ok_close acc CDone s); [done|done|done|]. intros i itr Hi. apply list_lookup_fmap_Some in Hi as (itr0 & -> & E).
    exists itr0. split; [done|]. by right.
Qed.

Lemma steps_RangeClose (i : nat) : steps (on_qe (range_Close i)) (CRangeClose i).
Proof.
  intros acc s _ Hs. unfold on_qe, range_Close, mbind, M_bind, get_state, lift_outcome, go_index, set_itrs, modify_state.
  destruct (qe_itrs (s_queryExecutor s) !! i) as [itr|] eqn:E; [|by destruct s].
  apply (sim_ok_close acc (CRangeClose i) s); [done|done|done|].
  intros j itr2 [(<- & <- & _)|(Hne & Hj)]%list_lookup_insert_Some.
  - exists itr. split; [done|]. right. split; [|done]. cbn. by rewrite bool_decide_eq_true_2.
  - exists itr2. split; [done|]. by left.
Qed.

Lemma steps_bind (m : M txSimulator unit) (m' : M txSimulator unit) (c : call) :
  sim_keeps m -> steps m' c -> steps (_ ← m; m') c.
Proof.
  intros Hm Hm' log s Hr Hs. specialize (Hm log s Hs). unfold mbind, M_bind. destruct (m s) as [[a|e|msg] s']; [by apply Hm'|done..].
Qed.

Lemma steps_add (c : call) (f : RWSetBuilder -> RWSetBuilder) : adds c f -> steps (on_qe (set_builder f)) c.
Proof.
  intros [Hx Hf] acc s _ [[H1 H2 H3 H4 H0 H5 H6 H7] Hc]. destruct (Hf _ _ _ H3 H4 H0) as (Hb & Hl & Hp). split; [|done].
  constructor; try done; try (rewrite bind_snoc; done).
  - rewrite bind_snoc. by apply Forall_app.
  - intros i itr Hi. eapply range_itr_weaken; [|by apply H6]. apply closed_snoc.
Qed.

Lemma pub_key_ok (ns key : bytes) : name_space_ok ns -> dk_ok (key_of (ns, [], key)).
Proof. intros [Hd Hn]. split; [done|]. split; [done|apply not_elem_of_nil]. Qed.

Lemma hash_key_ok (ns coll kh : bytes) : coll_ok ns coll -> dk_ok (HashKey ns coll kh).
Proof. intros (_ & [Hd Hn] & Hc). split; [done|]. by split. Qed.

Lemma coll_key_ok (ns coll kh : bytes) : coll_ok ns coll -> dk_ok (key_of (ns, coll, kh)).
Proof. intros Hc. cbn. rewrite bool_decide_eq_false_2 by apply Hc. by apply hash_key_ok. Qed.

Lemma adds_SetState (ns key : bytes) (value : option bytes) :
  name_space_ok ns -> value <> Some [] -> adds (CSetState ns key value) (AddToWriteSet ns key value).
Proof.
  intros Hn Hv. split.
  - repeat constructor; [apply pub_key_ok, Hn..|]. destruct value; cbn; congruence.
  - intros b log plog Hb Hl Hp. destruct (AddToWriteSet_ok read_current query_current keys ns key value b log Hb Hl) as [? Hl'].
    split; [done|]. cbn [call_writes call_pvt]. rewrite app_nil_r. split; [by destruct value|]. by apply (pvt_logged_same coll_ok b).
Qed.

Lemma adds_SetStateMetadata (ns key : bytes) (m : gmap bytes bytes) :
  name_space_ok ns -> adds (CSetStateMetadata ns key m) (AddToMetadataWriteSet ns key m).
Proof.
  intros Hn. split; [repeat constructor; try apply pub_key_ok, Hn; done|]. intros b log plog Hb Hl Hp.
  destruct (AddToMetadataWriteSet_ok read_current query_current keys ns key m b log Hb Hl) as [? ?].
  split; [done|]. cbn [call_writes call_pvt]. rewrite app_nil_r. split; [done|]. by apply (pvt_logged_same coll_ok b).
Qed.

Lemma Sum256_not_empty (v : bytes) : Sum256 v <> [].
Proof. intros E. pose proof (Sum256_length v) as H. by rewrite E in H. Qed.

Lemma adds_SetPrivateData (ns coll key : bytes) (value : option bytes) :
  coll_ok ns coll -> key ∈ keys -> adds (CSetPrivateData ns coll key value) (AddToPvtAndHashedWriteSet ns coll key value).
Proof.
  intros Hc Hk. split.
  - constructor; [|done]. split; [by apply coll_key_ok|]. destruct value; [|done]. cbn. intros [= E]. by apply Sum256_not_empty in E.
  - intros b log plog Hb Hl Hp.
    destruct (AddToPvtAndHashedWriteSet_ok read_current query_current keys keys_distinct ns coll key value b log) as [? Hl']; [apply Hc|done..|].
    split; [done|]. split; [by destruct value|]. by apply AddToPvtAndHashedWriteSet_pvt.
Qed.

Lemma adds_SetPrivateDataMetadata (ns coll key : bytes) (m : gmap bytes bytes) :
  coll_ok ns coll -> key ∈ keys -> adds (CSetPrivateDataMetadata ns coll key m) (AddToHashedMetadataWriteSet ns coll key m).
Proof.
  intros Hc Hk. split; [constructor; [|done]; split; [by apply coll_key_ok|done]|]. intros b log plog Hb Hl Hp.
  destruct (AddToHashedMetadataWriteSet_ok read_current query_current keys keys_distinct ns coll key m b log) as [? ?]; [apply Hc|done..|].
  split; [done|]. split; [done|]. cbn [call_pvt]. rewrite app_nil_r. by apply AddToHashedMetadataWriteSet_pvt.
Qed.

Lemma exec_call_ok (c : call) : call_ok c -> steps (exec_call hashFunc db c) c.
Proof.
  assert (Hv : forall ns coll, sim_keeps (on_qe (validateCollName db ns coll))) by (intros; apply sim_keeps_on; intros; apply keeps_validateCollName).
  destruct c; cbn [call_ok exec_call]; intros Hc; try done.
  all: try (apply steps_query; [done|done|]; intros log Hr).
  - by apply keeps_GetState.
  - by apply keeps_GetStateMetadata.
  - by apply keeps_GetStateMultipleKeys.
  - by apply keeps_range.
  - by apply keeps_range_Next.
  - apply steps_RangeClose.
  - by apply keeps_ExecuteQuery.
  - apply keeps_open_Next.
  - apply steps_none; [done|done|]. apply sim_keeps_on. intros log. apply keeps_open_Close.
  - apply keeps_GetPrivateData; [apply Hc|by apply hash_key_ok].
  - apply keeps_GetPrivateDataHash; [apply Hc|by apply hash_key_ok].
  - apply keeps_GetPrivateDataMetadata; [apply Hc|by apply hash_key_ok].
  - apply keeps_GetPrivateDataMultipleKeys; [apply Hc|intros; apply hash_key_ok, Hc|apply Hc].
  - apply steps_none; [done|done|]. apply sim_keeps_discard, sim_keeps_bind; [apply sim_keeps_before_pvt|]. intros _. apply sim_keeps_on. intros log. apply keeps_private_query.
  - apply steps_none; [done|done|]. apply sim_keeps_discard, sim_keeps_bind; [apply sim_keeps_before_pvt|]. intros _. apply sim_keeps_on. intros log. apply keeps_private_query.
  - apply steps_bind; [apply sim_keeps_precondition|]. apply steps_add, adds_SetState; apply Hc.
  - apply steps_bind; [apply sim_keeps_precondition|]. by apply steps_add, adds_SetStateMetadata.
  - apply steps_bind; [apply Hv|]. apply steps_bind; [apply sim_keeps_precondition|]. apply steps_bind; [intros log s Hs; exact Hs|].
    apply steps_add, adds_SetPrivateData; apply Hc.
  - apply steps_bind; [apply Hv|]. apply steps_bind; [apply sim_keeps_precondition|]. apply steps_add, adds_SetPrivateDataMetadata; apply Hc.
  - apply steps_none; [done|done|]. by intros log s Hs.
  - apply steps_Done.
Qed.

(** No range iterator is read after it has been closed, by [Close] or by [Done]. *)
Fixpoint reads_before_close (calls : list call) : Prop :=
  match calls with
  | [] => True
  | c :: calls' => (forall i, closes i c = true -> CRangeNext i ∉ calls') /\ reads_before_close calls'
  end.

Lemma run_calls_ok (calls acc0 acc : list call) (s s' : txSimulator) :
  Forall call_ok calls -> reads_before_close calls -> (forall i, CRangeNext i ∈ calls -> ~ closed_by acc0 i) ->
  sim_ok acc0 s -> run_calls calls s = Ret (s', acc) -> sim_ok (acc0 ++ acc) s'.
Proof.
  intros Hc. revert s acc0 acc. induction Hc as [|c calls Hc _ IH]; intros s acc0 acc Hb Ho Hs; cbn [run_calls]; [intros [= <- <-]; by rewrite app_nil_r|].
  destruct Hb as [Hc0 Hb]. assert (Hr : reads_open acc0 c) by (destruct c; try done; apply Ho; by left).
  pose proof (exec_call_ok c Hc acc0 s Hr Hs) as H. destruct (exec_call hashFunc db c s) as [[u|e|msg] s1]; [| |done].
  - intros E. apply outcome_bind_ret_inv in E as ([s2 acc1] & E & E'). injection E' as <- <-.
    rewrite cons_middle, app_assoc. apply (IH s1); try done. intros i Hi [Hx|Hx]%Exists_app; [by apply (Ho i); [right|]|].
    apply Exists_cons in Hx as [Hx|Hx%Exists_nil]; [|done]. by apply (Hc0 i).
  - apply IH; try done. intros i Hi. apply Ho. by right.
Qed.

(** A write that succeeded has passed the validation of the database. *)
Definition call_valid (c : call) : Prop :=
  match c with
  | CSetState _ key value | CSetPrivateData _ _ key value => ValidateKeyValue (D := D) key (default [] value) = Ret tt
  | _ => True
  end.

Lemma precondition_valid (key : bytes) (value : option bytes) (s s' : txSimulator (D := D)) :
  checkWritePrecondition key value s = (Ret tt, s') -> ValidateKeyValue (D := D) key (default [] value) = Ret tt.
Proof.
  unfold checkWritePrecondition, mbind, M_bind. destruct (on_qe _ s) as [[] s1]; [|done..].
  destruct (checkPvtdataQueryPerformed s1) as [[] s2]; [|done..]. destruct (checkPaginatedQueryPerformed s2) as [[] s3]; [|done..].
  destruct (set_writePerformed s3) as [[] s4]; [|done..]. unfold lift_outcome. by intros [= -> _].
Qed.

Lemma exec_call_valid (c : call) (s s' : txSimulator (D := D)) : exec_call hashFunc db c s = (Ret tt, s') -> call_valid c.
Proof.
  destruct c; try done; cbn [exec_call call_valid]; unfold SetState, SetPrivateData, mbind, M_bind.
  - destruct (checkWritePrecondition key value s) as [[[]| |] s1] eqn:E; [|done..]. intros _. by eapply precondition_valid.
  - destruct (on_qe _ s) as [[] s0]; [|done..].
    destruct (checkWritePrecondition key value s0) as [[[]| |] s1] eqn:E; [|done..]. intros _. by eapply precondition_valid.
Qed.

Lemma run_calls_valid (calls acc : list call) (s s' : txSimulator) :
  run_calls calls s = Ret (s', acc) -> Forall call_valid acc /\ acc ⊆ calls.
Proof.
  revert s acc. induction calls as [|c calls IH]; intros s acc; cbn [run_calls]; [by intros [= _ <-]|].
  destruct (exec_call hashFunc db c s) as [[[]|e|msg] s1] eqn:E; [| |done].
  - intros Er. apply outcome_bind_ret_inv in Er as ([s2 acc1] & Er & E'). injection E' as -> <-. destruct (IH _ _ Er) as [H1 H2].
    split; [constructor; [by eapply exec_call_valid|done]|]. intros x [->|Hx]%elem_of_cons; [by left|right; by apply H2].
  - intros Er. destruct (IH _ _ Er) as [H1 H2]. split; [done|]. intros x Hx. right. by apply H2.
Qed.

Lemma sim_ok_new : sim_ok [] newTxSimulator.
Proof. split; [|done]. constructor; [done|done|apply builder_ok_new|apply logged_new|apply pvt_logged_new|by constructor|done|by constructor]. Qed.

(** ** The results *)

(** The client has called [Next] on the iterator. *)
Definition itr_started (itr : resultsItr (D := D)) : bool :=
  match ri_capture itr with
  | Some (info, _) => RQI_ItrExhausted info || negb (bool_decide (RQI_EndKey info = []))
  | None => false
  end.

Lemma scan_key_not_empty (ns s e : bytes) (kv : VersionedKV) : kv ∈ scan σ ns s e -> vkv_Key kv <> [].
Proof.
  rewrite scan_to_kv. intros ([k vv] & -> & Hin)%list_elem_of_fmap. cbn. intros ->. apply range_scan_elem in Hin as [E _].
  rewrite slice_lookup in E. by rewrite no_empty_key in E.
Qed.

Lemma captured_current (itr : resultsItr) : range_itr_ok True itr -> itr_started itr = true ->
  exists info helper rs s, ri_capture itr = Some (info, helper) /\ Done hashFunc helper = Ret (rs, s) /\ query_current (ri_ns itr) (query_info info rs s).
Proof.
  intros (info & h & l1 & l2 & [Hns Hc Hraw Hs (h0 & E0 & Ef) Hp] & _) Hst.
  destruct (query_info_current hashFunc hash_total _ _ h0 h degree_default E0 Ef) as (rs & s & Ed & Hdeg & Hcur). exists info, h, rs, s.
  split; [done|]. split; [done|]. split; [split; [apply Hns|]; split; [apply Hns|]; intros s'; by apply Hdeg|]. apply Hcur; [done|].
  destruct Hp as [El Hx Ek|l kv El Hx Ek|El Hx Ek]; subst; rewrite Hx, ?Ek; cbn [negb].
  - unfold itr_started in Hst. by rewrite Hc, Hx, Ek in Hst.
  - rewrite <- app_assoc in Hs. rewrite (scan_upto _ _ _ _ l l2 kv Hs); [done|]. apply (scan_key_not_empty (ri_ns itr) (RQI_StartKey info) (ri_endKey itr)).
    rewrite Hs, elem_of_app. right. by left.
  - unfold query_results, end_item. by rewrite Hs, !app_nil_r.
Qed.

Lemma add_queries_ok (itrs : list resultsItr) (log : list (compositeKey * write)) (b : RWSetBuilder) :
  Forall (range_itr_ok True) itrs -> forallb itr_started itrs = true ->
  builder_ok read_current query_current keys b -> logged keys b log ->
  exists b', add_queries hashFunc itrs b = Ret (b', None) /\ builder_ok read_current query_current keys b' /\ logged keys b' log /\
    pvtRwBuilderMap b' = pvtRwBuilderMap b.
Proof.
  intros Hi. revert b. induction Hi as [|itr itrs Hi _ IH]; intros b Hst Hb Hl; [by exists b|].
  cbn [forallb] in Hst. apply andb_true_iff in Hst as [H1 H2]. cbn [add_queries].
  destruct (captured_current itr Hi H1) as (info & h & rs & s & -> & -> & Hq).
  destruct (AddToRangeQuerySet_ok read_current query_current keys _ _ b log Hq Hb Hl) as [Hb' Hl'].
  destruct (IH _ H2 Hb' Hl') as (b' & E & ? & ? & Ep). exists b'. by rewrite E, Ep.
Qed.

(** Setting the hashes of the private sets. *)
Lemma set_ns_hashes_ok (log : list (compositeKey * write)) (l : list NsPvtReadWriteSet) (b : RWSetBuilder) :
  Forall (fun n => Forall (fun c => CollectionPvtReadWriteSet_CollectionName c <> []) (NsPvtReadWriteSet_CollectionPvtRwset n)) l ->
  builder_ok read_current query_current keys b -> logged keys b log ->
  builder_ok read_current query_current keys (fold_left set_ns_hashes l b) /\ logged keys (fold_left set_ns_hashes l b) log.
Proof.
  intros Hl. revert b. induction Hl as [|n l Hn _ IH]; intros b Hb Hg; [done|]. cbn [fold_left]. apply IH; unfold set_ns_hashes.
  all: revert b Hb Hg; induction Hn as [|c cs Hc _ IHc]; intros b Hb Hg; [done|]; cbn [fold_left].
  all: destruct (setPvtCollectionHash_ok read_current query_current keys (NsPvtReadWriteSet_Namespace n) _
    (CollectionPvtReadWriteSet_Rwset c) b log Hc Hb Hg); by apply IHc.
Qed.

Lemma pvt_set_names (b : RWSetBuilder) (plog : list (bytes * bytes * bytes * option bytes)) (t : TxPvtRwSet) :
  pvt_logged coll_ok b plog -> getTxPvtReadWriteSet b = Some t ->
  Forall (fun n => Forall (fun c => CollectionPvtReadWriteSet_CollectionName c <> []) (NsPvtReadWriteSet_CollectionPvtRwset n))
    (TxPvtReadWriteSet_NsPvtRwset (TxPvtRwSet_ToProtoMsg t)).
Proof.
  intros [Hb _ _ _] E. assert (Et : TxPvtRwSet_NsPvtRwSet t = nsPvtRwBuilder_build <$> GetValuesBySortedKeys (pvtRwBuilderMap b)).
  { unfold getTxPvtReadWriteSet in E. destruct (nsPvtRwBuilder_build <$> _); [done|]. by injection E as <-. }
  cbn. rewrite Et. rewrite !Forall_fmap. apply Forall_forall. intros n (ns & En)%values_elem. cbn. rewrite !Forall_fmap.
  apply Forall_forall. intros c (coll & Ec)%values_elem. cbn. destruct (Hb _ _ En) as [_ Hn]. by destruct (Hn _ _ Ec) as [[? _] ->].
Qed.

(** The builder [b] of the results, with the hashes of its private sets. *)
Lemma results_ok (acc : list call) (s : txSimulator) :
  sim_ok acc s -> forallb itr_started (qe_itrs (s_queryExecutor s)) = true ->
  exists b s', sim_GetTxSimulationResults hashFunc s = (Ret (fst (builder_GetTxSimulationResults b)), s') /\
    builder_ok read_current query_current keys b /\ logged keys b (acc ≫= call_writes) /\ pvt_logged coll_ok b (acc ≫= call_pvt).
Proof.
  intros [[H1 H2 H3 H4 H0 H5 H6 H7] Hc] Hst. unfold sim_GetTxSimulationResults. rewrite Hc, H2.
  assert (H6' : Forall (range_itr_ok True) (qe_itrs (s_queryExecutor s))).
  { apply Forall_lookup. intros i itr Hi. eapply range_itr_weaken; [|by apply (H6 i)]. done. }
  destruct (add_queries_ok _ _ _ H6' Hst H3 H4) as (b1 & Ea & Hb1 & Hl1 & Ep).
  unfold mbind, M_bind, on_qe, addRangeQueryInfo. rewrite H1. cbn [negb]. rewrite Ea. unfold builder_results, mbind, M_bind, get_state.
  cbn [s_queryExecutor qe_rwsetBuilder]. destruct (builder_GetTxSimulationResults b1) as [r b2] eqn:Eb. exists b1. eexists.
  rewrite Eb. split; [reflexivity|]. split; [done|]. split; [done|]. by eapply (pvt_logged_same coll_ok (qe_rwsetBuilder (s_queryExecutor s))).
Qed.

Definition with_hashes (b : RWSetBuilder) : RWSetBuilder := snd (builder_GetTxSimulationResults b).

Lemma with_hashes_ok (b : RWSetBuilder) (log : list (compositeKey * write)) (plog : list (bytes * bytes * bytes * option bytes)) :
  builder_ok read_current query_current keys b -> logged keys b log -> pvt_logged coll_ok b plog ->
  builder_ok read_current query_current keys (with_hashes b) /\ logged keys (with_hashes b) log.
Proof.
  intros Hb Hl Hp. unfold with_hashes, builder_GetTxSimulationResults. cbn [snd].
  destruct (getTxPvtReadWriteSet b) as [t|] eqn:Et; [|done]. apply set_ns_hashes_ok; [|done|done]. by eapply pvt_set_names.
Qed.

(** The set of a simulation reads the state and writes what the calls wrote. *)
Lemma builder_current (acc : list call) (b : RWSetBuilder) :
  builder_ok read_current query_current keys b -> logged keys b (acc ≫= call_writes) -> Forall entry_ok (acc ≫= call_writes) ->
  tx_current (D := D) hashFunc σ (GetTxReadWriteSet b) /\
  forall ck, writes_at ck (tx_writes (GetTxReadWriteSet b)) = collapse (writes_at ck (acc ≫= call_writes)).
Proof.
  intros Hb Hl Hlog. assert (Hw : forall ck, writes_at ck (tx_writes (GetTxReadWriteSet b)) = collapse (writes_at ck (acc ≫= call_writes))).
  { intros ck. by apply (set_writes read_current query_current keys keys_distinct). }
  rewrite Forall_forall in Hlog. split; [|done]. constructor.
  - by apply (tx_reads_ok read_current query_current keys).
  - eapply Forall_impl; [by apply (tx_ranges_ok read_current query_current keys)|]. by intros [ns rq].
  - apply Forall_forall. intros [ck w] Hx. cbn [fst]. assert (Hin : w ∈ collapse (writes_at ck (acc ≫= call_writes))).
    { rewrite <- Hw. apply list_elem_of_fmap. exists (ck, w). split; [done|]. by apply list_elem_of_filter. }
    apply collapse_elem, list_elem_of_fmap in Hin as ([ck' w'] & -> & [Ec Hin]%list_elem_of_filter). cbn in Ec. subst ck'. by apply (Hlog _ Hin).
  - apply (set_writes_ordered read_current query_current keys keys_distinct b (acc ≫= call_writes)); [done|done|].
    apply Forall_forall. intros x Hx. by apply Hlog.
Qed.

(** A simulation from the start to its results. *)
Lemma simulation_ok (calls acc : list call) (s : txSimulator) :
  Forall call_ok calls -> reads_before_close calls -> run_calls calls newTxSimulator = Ret (s, acc) ->
  forallb itr_started (qe_itrs (s_queryExecutor s)) = true ->
  exists b s', sim_GetTxSimulationResults hashFunc s = (Ret (fst (builder_GetTxSimulationResults b)), s') /\
    pvt_logged coll_ok b (acc ≫= call_pvt) /\ builder_ok read_current query_current keys (with_hashes b) /\
    logged keys (with_hashes b) (acc ≫= call_writes) /\
    tx_current (D := D) hashFunc σ (GetTxReadWriteSet (with_hashes b)) /\
    forall ck, writes_at ck (tx_writes (GetTxReadWriteSet (with_hashes b))) = collapse (writes_at ck (acc ≫= call_writes)).
Proof.
  intros Hc Hrd Hr Hst.
  pose proof (run_calls_ok calls [] acc _ s Hc Hrd ltac:(intros i _ Hx; by apply Exists_nil in Hx) sim_ok_new Hr) as Hs.
  destruct (results_ok acc s Hs Hst) as (b & s' & E & Hb & Hl & Hp). exists b, s'. split; [done|]. split; [done|].
  destruct (with_hashes_ok b _ _ Hb Hl Hp) as [Hb' Hl']. split; [done|]. split; [done|]. apply builder_current; [done|done|]. apply (qo_log _ _ (proj1 Hs)).
Qed.

End SimOk.
