(* ===== verification/SimProtocol.v ===== *)
(** * The protocol of a simulator

    A simulator is either writing or making queries that are not repeated by the
    validation, never both, and it is of no use after [Done].  The flags that enforce
    this are set and tested in different calls; here they are related to the calls that
    have succeeded ([protocol], kept by every call of a client). *)

From S2P Require Import Prelude OrderedCode LevelDB Sha256 Proto StateProto StateDB StateDBOk PrivState RwSet RwSetOk RwSetBuilder RwSetBuilderOk Simulator SimulatorOk.

(** ** The kinds of calls *)

Definition is_write (c : call) : bool :=
  match c with CSetState _ _ _ | CSetStateMetadata _ _ _ | CSetPrivateData _ _ _ _ | CSetPrivateDataMetadata _ _ _ _ => true | _ => false end.

(** Queries whose results are not recorded in a form that can be validated. *)
Definition is_query_only (c : call) : bool :=
  match c with
  | CGetStateRangeScanIteratorWithPagination _ _ _ _ | CExecuteQueryWithPagination _ _ _ _
  | CGetPrivateDataRangeScanIterator _ _ _ _ | CExecuteQueryOnPrivateData _ _ _ => true
  | _ => false
  end.

(** Calls on iterators that were made before, and [Done] itself. *)
Definition after_done (c : call) : bool := match c with CRangeNext _ | CQueryNext _ | CRangeClose _ | CQueryClose _ | CDone => true | _ => false end.

(** ** A builder without writes *)

Record no_writes_ns (n : nsPubRwBuilder) : Prop := {
  nn_write : npb_writeMap n = ∅;
  nn_metadata : npb_metadataWriteMap n = ∅;
  nn_coll : forall coll c, npb_collHashRwBuilder n !! coll = Some c -> chb_writeMap c = ∅ /\ chb_metadataWriteMap c = ∅ }.

Record no_writes (b : RWSetBuilder) : Prop := {
  nw_pub : forall ns n, pubRwBuilderMap b !! ns = Some n -> no_writes_ns n;
  nw_pvt : pvtRwBuilderMap b = ∅ }.

Lemma no_writes_new : no_writes NewRWSetBuilder.
Proof. constructor; [|done]. intros ns n. cbn. by rewrite lookup_empty. Qed.

Lemma no_writes_on_ns (ns : bytes) (f : nsPubRwBuilder -> nsPubRwBuilder) (b : RWSetBuilder) :
  (forall n, no_writes_ns n -> no_writes_ns (f n)) -> no_writes b -> no_writes (on_ns_pub ns f b).
Proof.
  intros Hf [H1 H2]. constructor; [|done]. intros ns' n. cbn [on_ns_pub pubRwBuilderMap]. rewrite lookup_insert_Some. intros [[<- <-]|[_ E]]; [|by eapply H1].
  apply Hf. unfold getOrCreateNsPubRwBuilder. destruct (pubRwBuilderMap b !! ns) as [n|] eqn:E; [by eapply H1|].
  constructor; [done|done|]. intros coll c. cbn. by rewrite lookup_empty.
Qed.

Lemma no_writes_read (ns key : bytes) (v : option Height) (b : RWSetBuilder) : no_writes b -> no_writes (AddToReadSet ns key v b).
Proof. apply no_writes_on_ns. intros n []. by constructor. Qed.

Lemma no_writes_range (ns : bytes) (rqi : RangeQueryInfo) (b : RWSetBuilder) : no_writes b -> no_writes (AddToRangeQuerySet ns rqi b).
Proof. apply no_writes_on_ns. intros n Hn. cbv zeta. case_match; [done|]. destruct Hn. by constructor. Qed.

Lemma no_writes_hashed_read (ns coll key : bytes) (v : option Height) (b : RWSetBuilder) : no_writes b -> no_writes (AddToHashedReadSet ns coll key v b).
Proof.
  apply no_writes_on_ns. intros n [H1 H2 H3]. constructor; [done|done|]. intros coll' c. cbn [set_coll npb_collHashRwBuilder]. rewrite lookup_insert_Some.
  intros [[<- <-]|[_ E]]; [|by eapply H3]. unfold getOrCreateCollHashedRwBuilder. cbn. destruct (npb_collHashRwBuilder n !! coll) as [c|] eqn:E; [by eapply H3|done].
Qed.

(** What is built from it. *)
Definition set_without_writes (n : NsRwSet) : Prop :=
  KVRWSet_Writes (NsRwSet_KvRwSet n) = [] /\ KVRWSet_MetadataWrites (NsRwSet_KvRwSet n) = [] /\
  forall c, c ∈ NsRwSet_CollHashedRwSets n ->
    HashedRWSet_HashedWrites (CHR_HashedRwSet c) = [] /\ HashedRWSet_MetadataWrites (CHR_HashedRwSet c) = [].

Lemma no_values {A} (m : gmap bytes A) : m = ∅ -> GetValuesBySortedKeys m = [].
Proof. intros ->. apply elem_of_nil_inv. intros a (k & E)%values_elem. by rewrite lookup_empty in E. Qed.

Lemma no_writes_built (b : RWSetBuilder) (n : NsRwSet) : no_writes b -> n ∈ TxRwSet_NsRwSets (GetTxReadWriteSet b) -> set_without_writes n.
Proof.
  intros [H1 _] (nb & -> & (ns & E)%values_elem)%list_elem_of_fmap. destruct (H1 _ _ E) as [Hw Hm Hc]. split; [by apply no_values|]. split; [by apply no_values|].
  intros c (cb & -> & (coll & Ec)%values_elem)%list_elem_of_fmap. destruct (Hc _ _ Ec). split; by apply no_values.
Qed.

Section Protocol.
Context {PR : Protos} {SP : StateProtos} {D : Type} {VD : VersionedDB D} {QD : QueryDB D} {CC : DeployedChaincodeInfoProvider}.
Variable hashFunc : bytes -> outcome bytes.
Variable db : DB D.

(** ** Calls of the embedded executor *)

(** They add no writes, and do not forget [Done]. *)
Definition reading {A} (m : M (queryExecutor (D := D)) A) : Prop := forall q,
  (no_writes (qe_rwsetBuilder q) -> no_writes (qe_rwsetBuilder (snd (m q)))) /\ (qe_doneInvoked q = true -> qe_doneInvoked (snd (m q)) = true).

(** They fail once [Done] has been called. *)
Definition refused {A} (m : M (queryExecutor (D := D)) A) : Prop := forall q, qe_doneInvoked q = true -> is_ret (fst (m q)) = false.

Lemma reading_bind {A B} (m : M queryExecutor A) (f : A -> M queryExecutor B) : reading m -> (forall a, reading (f a)) -> reading (mbind f m).
Proof.
  intros Hm Hf q. unfold mbind, M_bind. destruct (Hm q) as [H1 H2]. destruct (m q) as [[a|e|msg] q']; [|done..].
  destruct (Hf a q') as [H3 H4]. split; auto.
Qed.

Lemma reading_ret {A} (a : A) : reading (mret a).
Proof. by intros q. Qed.

Lemma reading_throw {A} (e : error) : reading (throw (A := A) e).
Proof. by intros q. Qed.

Lemma reading_panic {A} (msg : string) : reading (panic (A := A) msg).
Proof. by intros q. Qed.

Lemma reading_lift {A} (o : outcome A) : reading (lift_outcome o).
Proof. by intros q. Qed.

Lemma reading_get : reading get_state.
Proof. by intros q. Qed.

Lemma reading_checkDone : reading checkDone.
Proof. intros q. unfold checkDone. by destruct (qe_doneInvoked q) eqn:E; rewrite ?E. Qed.

Lemma reading_cache f : reading (set_cache f).
Proof. by intros q. Qed.

Lemma reading_itrs l : reading (set_itrs l).
Proof. by intros q. Qed.

Lemma reading_openItrs l : reading (set_openItrs l).
Proof. by intros q. Qed.

Lemma reading_Done : reading qe_Done.
Proof. intros q. unfold qe_Done, modify_state. cbn [snd]. destruct (qe_doneInvoked q) eqn:E; [by rewrite E|done]. Qed.

Lemma reading_builder (f : RWSetBuilder -> RWSetBuilder) : (forall b, no_writes b -> no_writes (f b)) -> reading (set_builder f).
Proof. intros Hf q. split; [apply Hf|done]. Qed.

Create HintDb reading.
#[local] Hint Resolve reading_ret reading_throw reading_panic reading_lift reading_get reading_checkDone reading_cache reading_itrs reading_openItrs reading_Done : reading.
#[local] Hint Resolve reading_builder no_writes_read no_writes_range no_writes_hashed_read : reading.

Ltac reading := repeat (first [apply reading_bind; [|intros]|case_match]); auto with reading.

Lemma reading_getState (ns key : bytes) : reading (qe_getState db ns key).
Proof. unfold qe_getState. reading. Qed.
#[local] Hint Resolve reading_getState : reading.

Lemma reading_GetState (ns key : bytes) : reading (qe_GetState db ns key).
Proof. unfold qe_GetState. reading. Qed.
#[local] Hint Resolve reading_GetState : reading.

Lemma reading_values (add : bytes -> option Height -> RWSetBuilder -> RWSetBuilder) (l : list (bytes * option VersionedValue)) :
  (forall k v b, no_writes b -> no_writes (add k v b)) -> reading (record_values add l).
Proof. intros Ha. induction l as [|[k v] l IH]; cbn [record_values]; reading. Qed.
#[local] Hint Resolve reading_values : reading.

Lemma reading_reader {A} (p : reader A) : reading (run_reader db p).
Proof.
  induction p as [r|ns key k IH]; [by intros q|]. intros q. cbn [run_reader]. destruct (reading_GetState ns key q) as [H1 H2].
  destruct (qe_GetState db ns key q) as [[a|e|msg] q']; [destruct (IH (Ret a) q')|destruct (IH (Err e) q')|done]; split; auto.
Qed.
#[local] Hint Resolve reading_reader : reading.

Lemma reading_collName (ns coll : bytes) : reading (validateCollName db ns coll).
Proof. unfold validateCollName, retrieveCollConfigFromStateDB. reading. Qed.
#[local] Hint Resolve reading_collName : reading.

Lemma refused_bind {A B} (m : M queryExecutor A) (f : A -> M queryExecutor B) : reading m -> refused m \/ (forall a, refused (f a)) -> refused (mbind f m).
Proof.
  intros Hm Hr q Hd. unfold mbind, M_bind. destruct (Hm q) as [_ H2]. destruct Hr as [Hr|Hr].
  - specialize (Hr q Hd). by destruct (m q) as [[] q'].
  - destruct (m q) as [[a|e|msg] q']; [|done..]. apply (Hr a q'). auto.
Qed.

Lemma refused_checkDone : refused checkDone.
Proof. intros q Hd. unfold checkDone. by rewrite Hd. Qed.

Lemma refused_done {B} (f : unit -> M queryExecutor B) : refused (mbind f checkDone).
Proof. apply refused_bind; [apply reading_checkDone|]. left. apply refused_checkDone. Qed.

Lemma refused_coll {B} (ns coll : bytes) (f : unit -> M queryExecutor B) : (forall u, refused (f u)) -> refused (mbind f (validateCollName db ns coll)).
Proof. intros Hf. apply refused_bind; [apply reading_collName|]. by right. Qed.

(** ** Calls of the simulator *)

Abbreviation sim := (txSimulator (D := D)).
Abbreviation builder s := (qe_rwsetBuilder (s_queryExecutor s)).
Abbreviation queried s := (s_pvtdataQueriesPerformed s || s_paginatedQueriesPerformed s).

Record protocol (acc : list call) (s : sim) : Prop := {
  pr_write : Exists (fun c => is_write c = true) acc -> s_writePerformed s = true;
  pr_query : Exists (fun c => is_query_only c = true) acc -> queried s = true;
  pr_exclusive : s_writePerformed s = true -> queried s = true -> False;
  pr_builder : s_writePerformed s = false -> no_writes (builder s);
  pr_done : CDone ∈ acc -> qe_doneInvoked (s_queryExecutor s) = true }.

Lemma protocol_on_qe {A} (acc : list call) (m : M queryExecutor A) (s : sim) : reading m -> protocol acc s -> protocol acc (snd (on_qe m s)).
Proof.
  intros Hm [H1 H2 H3 H4 H5]. unfold on_qe. destruct (Hm (s_queryExecutor s)) as [Hb Hd]. destruct (m (s_queryExecutor s)) as [r q]. cbn in *.
  constructor; cbn; auto.
Qed.

(** A call that succeeds joins the others. *)
Lemma protocol_snoc (acc : list call) (c : call) (s : sim) :
  protocol acc s -> (is_write c = true -> s_writePerformed s = true) -> (is_query_only c = true -> queried s = true) ->
  (c = CDone -> qe_doneInvoked (s_queryExecutor s) = true) -> protocol (acc ++ [c]) s.
Proof.
  intros [H1 H2 H3 H4 H5] Hw Hq Hd. constructor; [..|done|done|].
  - rewrite Exists_app, Exists_cons, Exists_nil. naive_solver.
  - rewrite Exists_app, Exists_cons, Exists_nil. naive_solver.
  - rewrite elem_of_app, list_elem_of_singleton. naive_solver.
Qed.

(** A step of the simulator: what is true of the calls stays true, and [P] holds of the
    state after a success. *)
Definition step {A} (m : M sim A) (P : sim -> Prop) : Prop := forall acc s, protocol acc s ->
  protocol acc (snd (m s)) /\ (is_ret (fst (m s)) = true -> P (snd (m s))).

Lemma step_bind {A B} (m : M sim A) (f : A -> M sim B) (P Q : sim -> Prop) :
  step m P -> (forall a acc s, P s -> protocol acc s -> protocol acc (snd (f a s)) /\ (is_ret (fst (f a s)) = true -> Q (snd (f a s)))) -> step (mbind f m) Q.
Proof.
  intros Hm Hf acc s Hs. unfold mbind, M_bind. destruct (Hm acc s Hs) as [H1 H2]. destruct (m s) as [[a|e|msg] s']; [|done..]. apply Hf; [|done]. by apply H2.
Qed.

Lemma step_then {A B} (m : M sim A) (f : A -> M sim B) (P Q : sim -> Prop) : step m P -> (forall a, step (f a) Q) -> step (mbind f m) Q.
Proof. intros Hm Hf. eapply step_bind; [done|]. intros a acc s _. apply Hf. Qed.

Lemma step_on_qe {A} (m : M queryExecutor A) : reading m -> step (on_qe m) (fun _ => True).
Proof. intros Hm acc s Hs. split; [by apply protocol_on_qe|done]. Qed.

Lemma step_precondition (key : bytes) (value : option bytes) : step (checkWritePrecondition key value) (fun s => s_writePerformed s = true).
Proof.
  unfold checkWritePrecondition. eapply step_bind; [apply step_on_qe, reading_checkDone|]. intros _ acc s _ Hs.
  unfold mbind, M_bind, checkPvtdataQueryPerformed, checkPaginatedQueryPerformed, set_writePerformed, modify_state, lift_outcome.
  destruct (s_pvtdataQueriesPerformed s) eqn:E1; [done|]. destruct (s_paginatedQueriesPerformed s) eqn:E2; [done|]. cbn [fst snd].
  split; [|done]. destruct Hs as [H1 H2 H3 H4 H5]. constructor; cbn; [done| |by rewrite E1, E2|done|done].
  intros He. specialize (H2 He). by rewrite E1, E2 in H2 |- *.
Qed.

(** Anything may be written once the flag is up. *)
Lemma write_builder (f : RWSetBuilder -> RWSetBuilder) (acc : list call) (s : sim) :
  s_writePerformed s = true -> protocol acc s ->
  protocol acc (snd (on_qe (set_builder f) s)) /\ (is_ret (fst (on_qe (set_builder f) s)) = true -> s_writePerformed (snd (on_qe (set_builder f) s)) = true).
Proof. intros Hw [H1 H2 H3 H4 H5]. split; [|done]. constructor; cbn; auto. intros E. by rewrite Hw in E. Qed.

Lemma step_collName (ns coll : bytes) : step (on_qe (validateCollName db ns coll)) (fun _ => True).
Proof. apply step_on_qe, reading_collName. Qed.

Lemma step_write (c : call) : is_write c = true -> step (exec_call hashFunc db c) (fun s => s_writePerformed s = true).
Proof.
  intros Hw. destruct c; try done; cbn [exec_call].
  - eapply step_bind; [apply step_precondition|]. intros _ acc s. apply write_builder.
  - eapply step_bind; [apply step_precondition|]. intros _ acc s. apply write_builder.
  - eapply step_then; [apply step_collName|]. intros _. eapply step_bind; [apply step_precondition|]. intros _ acc s Hp Hs. unfold mbind at 1 2 3, M_bind, set_writePerformed, modify_state.
    apply (write_builder _ acc (mktxSimulator (s_queryExecutor s) true (s_pvtdataQueriesPerformed s) (s_simulationResultsComputed s) (s_paginatedQueriesPerformed s))); [done|].
    rewrite <- Hp. by destruct s.
  - eapply step_then; [apply step_collName|]. intros _. eapply step_bind; [apply step_precondition|]. intros _ acc s. apply write_builder.
Qed.

Lemma step_discard {A} (m : M sim A) (P : sim -> Prop) : step m P -> step (discard m) P.
Proof. intros Hm. eapply step_bind; [done|]. by intros _ acc s HP Hs. Qed.

Lemma protocol_queries (acc : list call) (s : sim) (pvt pag : bool) :
  s_writePerformed s = false -> pvt || pag = true -> protocol acc s -> protocol acc (mktxSimulator (s_queryExecutor s) (s_writePerformed s) pvt (s_simulationResultsComputed s) pag).
Proof. intros Hw Hq [H1 H2 H3 H4 H5]. constructor; cbn; try done. by rewrite Hw. Qed.

Lemma step_checkBeforePvtdataQueries : step checkBeforePvtdataQueries (fun s => queried s = true).
Proof.
  intros acc s Hs. unfold checkBeforePvtdataQueries. destruct (s_writePerformed s) eqn:E; [done|]. split; [|done]. rewrite <- E. by apply protocol_queries.
Qed.

Lemma step_checkBeforePaginatedQueries : step checkBeforePaginatedQueries (fun s => queried s = true).
Proof.
  intros acc s Hs. unfold checkBeforePaginatedQueries. destruct (s_writePerformed s) eqn:E; [done|]. rewrite <- E.
  split; [apply protocol_queries; [done|by rewrite orb_true_r|done]|]. intros _. cbn. by rewrite orb_true_r.
Qed.

Lemma query_on_qe {A} (m : M queryExecutor A) (acc : list call) (s : sim) : reading m -> queried s = true -> protocol acc s ->
  protocol acc (snd (on_qe m s)) /\ (is_ret (fst (on_qe m s)) = true -> queried (snd (on_qe m s)) = true).
Proof. intros Hm Hq Hs. split; [by apply protocol_on_qe|]. intros _. unfold on_qe. by destruct (m _). Qed.

Lemma reading_open (o : outcome (DbItr (D := D))) (mk : DbItr -> openItr) : reading (open_query o mk).
Proof. unfold open_query. reading. Qed.
#[local] Hint Resolve reading_open : reading.

Lemma step_query (c : call) : is_query_only c = true -> step (exec_call hashFunc db c) (fun s => queried s = true).
Proof.
  intros Hq. destruct c; try done; cbn [exec_call]; apply step_discard.
  - eapply step_bind; [apply step_checkBeforePaginatedQueries|]. intros _ acc s. apply query_on_qe. unfold qe_GetStateRangeScanIteratorWithPagination, open_range. reading.
  - eapply step_bind; [apply step_checkBeforePaginatedQueries|]. intros _ acc s. apply query_on_qe. unfold qe_ExecuteQueryWithPagination. reading.
  - eapply step_bind; [apply step_checkBeforePvtdataQueries|]. intros _ acc s. apply query_on_qe. unfold qe_GetPrivateDataRangeScanIterator. reading.
  - eapply step_bind; [apply step_checkBeforePvtdataQueries|]. intros _ acc s. apply query_on_qe. unfold qe_ExecuteQueryOnPrivateData. reading.
Qed.

(** The other calls are those of the executor. *)
Lemma step_other (c : call) : is_write c = false -> is_query_only c = false -> step (exec_call hashFunc db c) (fun _ => True).
Proof.
  intros Hw Hq. destruct c; try done; cbn [exec_call]; try apply step_discard; try apply step_on_qe; try (by intros acc s Hs).
  - reading.
  - unfold qe_GetStateMetadata. reading.
  - unfold qe_GetStateMultipleKeys. reading.
  - unfold qe_GetStateRangeScanIterator, open_range. reading.
  - unfold range_Next. reading.
  - unfold range_Close. reading.
  - unfold qe_ExecuteQuery. reading.
  - unfold open_Next, queryResultsItr_Next, pvtdataResultsItr_Next. reading.
  - unfold open_Close. reading.
  - unfold qe_GetPrivateData. reading.
  - unfold qe_GetPrivateDataHash. reading.
  - unfold qe_GetPrivateDataMetadata, qe_getPrivateDataMetadataByHash, getPrivateDataValueHash. reading.
  - unfold qe_GetPrivateDataMultipleKeys. reading.
  - reading.
Qed.

Lemma exec_call_protocol (c : call) (acc : list call) (s s' : sim) (r : outcome unit) :
  protocol acc s -> exec_call hashFunc db c s = (r, s') -> protocol acc s' /\ (is_ret r = true -> protocol (acc ++ [c]) s').
Proof.
  intros Hs E. destruct (is_write c) eqn:Ew; [|destruct (is_query_only c) eqn:Eq].
  - destruct (step_write c Ew acc s Hs) as [H1 H2]. rewrite E in H1, H2. split; [done|]. intros Hr. apply protocol_snoc; [done|by intros _; apply H2|by destruct c|by intros ->].
  - destruct (step_query c Eq acc s Hs) as [H1 H2]. rewrite E in H1, H2. split; [done|]. intros Hr. apply protocol_snoc; [done|by rewrite Ew|by intros _; apply H2|by intros ->].
  - destruct (step_other c Ew Eq acc s Hs) as [H1 _]. rewrite E in H1. split; [done|]. intros Hr. apply protocol_snoc; [done|by rewrite Ew|by rewrite Eq|].
    intros ->. cbn in E. unfold on_qe, qe_Done, modify_state in E. injection E as _ <-. cbn.
    by destruct (qe_doneInvoked (s_queryExecutor s)) eqn:Ed.
Qed.

Lemma run_calls_protocol (calls acc0 acc : list call) (s s' : sim) :
  protocol acc0 s -> run_calls hashFunc db calls s = Ret (s', acc) -> protocol (acc0 ++ acc) s'.
Proof.
  revert acc0 acc s. induction calls as [|c calls IH]; intros acc0 acc s Hs; cbn [run_calls]; [intros [= -> <-]; by rewrite app_nil_r|].
  destruct (exec_call hashFunc db c s) as [[[]|e|msg] s1] eqn:E; [| |done]; destruct (exec_call_protocol c acc0 s s1 _ Hs E) as [H1 H2].
  - intros Er. apply outcome_bind_ret_inv in Er as ([s2 acc1] & Er & E'). injection E' as -> <-. rewrite cons_middle, app_assoc. by apply (IH _ _ s1); [apply H2|].
  - intros Er. by apply (IH _ _ s1).
Qed.

Lemma protocol_new : protocol [] newTxSimulator.
Proof. constructor; [by intros ?%Exists_nil..|done|intros _; apply no_writes_new|by intros ?%not_elem_of_nil]. Qed.

(** ** After [Done] *)

Lemma done_on_qe {A} (m : M queryExecutor A) (s : sim) : refused m -> qe_doneInvoked (s_queryExecutor s) = true -> is_ret (fst (on_qe m s)) = false.
Proof. intros Hm Hd. specialize (Hm _ Hd). unfold on_qe. by destruct (m _). Qed.

Lemma bind_refused {A B} (m : M sim A) (f : A -> M sim B) (s : sim) :
  (forall a s', m s = (Ret a, s') -> is_ret (fst (f a s')) = false) -> is_ret (fst (mbind f m s)) = false.
Proof. intros H. unfold mbind, M_bind. destruct (m s) as [[a|e|msg] s'] eqn:E; [by apply H|done..]. Qed.

Lemma discard_refused {A} (m : M sim A) (s : sim) : is_ret (fst (m s)) = false -> is_ret (fst (discard m s)) = false.
Proof. intros H. apply bind_refused. intros a s' E. by rewrite E in H. Qed.

Lemma precondition_refused (key : bytes) (value : option bytes) (s : sim) : qe_doneInvoked (s_queryExecutor s) = true -> is_ret (fst (checkWritePrecondition key value s)) = false.
Proof.
  intros Hd. apply bind_refused. intros u s' E. pose proof (done_on_qe checkDone s refused_checkDone Hd) as H. by rewrite E in H.
Qed.

Lemma write_refused {B} (key : bytes) (value : option bytes) (f : unit -> M sim B) (s : sim) :
  qe_doneInvoked (s_queryExecutor s) = true -> is_ret (fst (mbind f (checkWritePrecondition key value) s)) = false.
Proof. intros Hd. apply bind_refused. intros u s' E. pose proof (precondition_refused key value s Hd) as H. by rewrite E in H. Qed.

(** The executor of the simulator still knows that [Done] was called. *)
Lemma bind_done {A B} (m : M queryExecutor A) (f : A -> M sim B) (s : sim) : reading m -> qe_doneInvoked (s_queryExecutor s) = true ->
  (forall a s', qe_doneInvoked (s_queryExecutor s') = true -> is_ret (fst (f a s')) = false) -> is_ret (fst (mbind f (on_qe m) s)) = false.
Proof.
  intros Hm Hd Hf. apply bind_refused. intros a s'. unfold on_qe. destruct (Hm (s_queryExecutor s)) as [_ Hd']. destruct (m _) as [r q].
  intros [= -> <-]. apply Hf. by apply Hd'.
Qed.

Lemma exec_call_done (c : call) (s : sim) :
  qe_doneInvoked (s_queryExecutor s) = true -> after_done c = false -> is_ret (fst (exec_call hashFunc db c s)) = false.
Proof.
  intros Hd Ha. destruct c; try done; cbn [exec_call].
  all: try (apply write_refused; done).
  all: try (apply bind_done; [apply reading_collName|done|]; intros ? ? ?; by apply write_refused).
  all: apply discard_refused.
  all: try (apply done_on_qe; [|done]; try apply refused_done; try (apply refused_coll; intros; apply refused_done)).
  - unfold qe_GetState. apply refused_bind; [apply reading_getState|]. left. apply refused_done.
  - apply bind_refused. unfold checkBeforePaginatedQueries. intros u s'. destruct (s_writePerformed s); [done|]. intros [= _ <-]. apply done_on_qe; [apply refused_done|done].
  - apply bind_refused. unfold checkBeforePaginatedQueries. intros u s'. destruct (s_writePerformed s); [done|]. intros [= _ <-]. apply done_on_qe; [apply refused_done|done].
  - apply refused_bind; [apply reading_get|]. right. intros q. unfold qe_getPrivateDataMetadataByHash. destruct (negb _); apply refused_coll; intros; apply refused_done.
  - apply bind_refused. unfold checkBeforePvtdataQueries. intros u s'. destruct (s_writePerformed s); [done|]. intros [= _ <-]. apply done_on_qe; [apply refused_coll; intros; apply refused_done|done].
  - apply bind_refused. unfold checkBeforePvtdataQueries. intros u s'. destruct (s_writePerformed s); [done|]. intros [= _ <-]. apply done_on_qe; [apply refused_coll; intros; apply refused_done|done].
Qed.

Lemma run_calls_done (calls acc0 acc : list call) (s s' : sim) :
  protocol acc0 s -> CDone ∈ acc0 -> run_calls hashFunc db calls s = Ret (s', acc) -> Forall (fun c => after_done c = true) acc.
Proof.
  revert acc0 acc s. induction calls as [|c calls IH]; intros acc0 acc s Hs Hin; cbn [run_calls]; [by intros [= _ <-]|].
  destruct (exec_call hashFunc db c s) as [[[]|e|msg] s1] eqn:E; [| |done]; destruct (exec_call_protocol c acc0 s s1 _ Hs E) as [H1 H2].
  - intros Er. apply outcome_bind_ret_inv in Er as ([s2 acc1] & Er & E'). injection E' as -> <-. constructor; [|by apply (IH _ _ s1 H1)].
    destruct (after_done c) eqn:Ea; [done|]. pose proof (exec_call_done c s (pr_done _ _ Hs Hin) Ea) as H. by rewrite E in H.
  - intros Er. by apply (IH _ _ s1 H1).
Qed.

Lemma run_calls_after (calls acc0 acc1 acc2 : list call) (s s' : sim) :
  protocol acc0 s -> run_calls hashFunc db calls s = Ret (s', acc1 ++ CDone :: acc2) -> Forall (fun c => after_done c = true) acc2.
Proof.
  revert acc0 acc1 s. induction calls as [|c calls IH]; intros acc0 acc1 s Hs; cbn [run_calls]; [by destruct acc1|].
  destruct (exec_call hashFunc db c s) as [[[]|e|msg] s1] eqn:E; [| |done]; destruct (exec_call_protocol c acc0 s s1 _ Hs E) as [H1 H2].
  - intros Er. apply outcome_bind_ret_inv in Er as ([s2 acc] & Er & E'). specialize (H2 eq_refl). destruct acc1 as [|c1 acc1]; injection E' as -> -> ->.
    + apply (run_calls_done calls (acc0 ++ [CDone]) _ s1 s'); [done| |done]. apply elem_of_app. right. by left.
    + by apply (IH (acc0 ++ [c1]) acc1 s1).
  - intros Er. by apply (IH acc0 acc1 s1).
Qed.

(** ** The results *)

Lemma no_writes_queries (itrs : list resultsItr) (b b' : RWSetBuilder) (err : option error) :
  no_writes b -> add_queries (D := D) hashFunc itrs b = Ret (b', err) -> no_writes b'.
Proof.
  revert b. induction itrs as [|itr itrs IH]; intros b Hb; cbn [add_queries]; [by intros [= <- _]|].
  destruct (ri_capture itr) as [[info helper]|]; [|done]. destruct (Done hashFunc helper) as [[rs h]| |]; [|by intros [= <- _]|done].
  intros E. eapply IH; [|done]. by apply no_writes_range.
Qed.

Lemma results_without_writes (s s' : sim) (res : TxSimulationResults) :
  no_writes (builder s) -> sim_GetTxSimulationResults hashFunc s = (Ret res, s') ->
  PvtSimulationResults res = None /\ exists set, PubSimulationResults res = TxRwSet_toProtoMsg set /\ forall n, n ∈ TxRwSet_NsRwSets set -> set_without_writes n.
Proof.
  intros Hb. unfold sim_GetTxSimulationResults. destruct (s_simulationResultsComputed s); [done|]. destruct (qe_err _); [done|].
  unfold mbind, M_bind, on_qe, addRangeQueryInfo.
  assert (Hres : forall q r q', no_writes (qe_rwsetBuilder q) -> builder_results (D := D) q = (Ret r, q') ->
    PvtSimulationResults r = None /\ exists set, PubSimulationResults r = TxRwSet_toProtoMsg set /\ forall n, n ∈ TxRwSet_NsRwSets set -> set_without_writes n).
  { intros q r q' Hq. unfold builder_results, mbind, M_bind, get_state, builder_GetTxSimulationResults.
    assert (getTxPvtReadWriteSet (qe_rwsetBuilder q) = None) as -> by (unfold getTxPvtReadWriteSet; by rewrite (no_values _ (nw_pvt _ Hq))).
    intros [= <- _]. split; [done|]. eexists. split; [done|]. intros n. by apply no_writes_built. }
  destruct (negb _).
  - destruct (builder_results _) as [r q'] eqn:E. cbn. intros [= -> _]. by eapply Hres.
  - destruct (add_queries hashFunc _ _) as [[b err]| |] eqn:Ea; [|done..]. destruct (builder_results _) as [r q'] eqn:E. cbn. intros [= -> _].
    eapply Hres; [|done]. cbn. by eapply no_writes_queries.
Qed.

End Protocol.
