(* ===== verification/BatchPreparer.v ===== *)
(** * The batch of a block

    src/core/ledger/kvledger/txmgmt/validation/batch_preparer.go and types.go: the
    transactions of a block are parsed, validated, and turned into the updates of
    the public, hashed and private state; the verdicts go into the flags of the
    block's metadata.  [txflags] is src/internal/pkg/txflags, [GetPayloads] and
    [GetActionFromEnvelope] are from src/protoutil. *)

From S2P Require Import Prelude OrderedCode LevelDB Sha256 Proto Block StateProto StateDB PrivState RwSet Validation RwSetBuilder Simulator.

(** ** Validation flags *)

Definition TxValidationCode_NIL_TXACTION : Z := 16.
Definition TxValidationCode_INVALID_WRITESET : Z := 24.
Definition TxValidationCode_NOT_VALIDATED : Z := 254.
Definition TxValidationCode_INVALID_OTHER_REASON : Z := 255.

Definition HeaderType_ENDORSER_TRANSACTION : Z := 3.

Definition NewWithValues (size : nat) (value : Z) : bytes := replicate size (z2b value).

Definition txflags_New (size : nat) : bytes := NewWithValues size TxValidationCode_NOT_VALIDATED.

(** The flags are a slice of the block's metadata, which is changed in place. *)
Definition SetFlag (txIndex : nat) (flag : Z) : M bytes unit := fun obj =>
  match obj !! txIndex with
  | Some _ => (Ret tt, <[txIndex := z2b flag]> obj)
  | None => (Panic "index out of range", obj)
  end.

Definition Flag (obj : bytes) (txIndex : nat) : outcome Z :=
  code ← go_index obj txIndex;
  Ret (b2z code).

Definition IsSetTo (obj : bytes) (txIndex : nat) (flag : Z) : outcome bool :=
  code ← Flag obj txIndex;
  Ret (code =? flag).

Definition IsValid (obj : bytes) (txIndex : nat) : outcome bool := IsSetTo obj txIndex TxValidationCode_VALID.

Definition IsInvalid (obj : bytes) (txIndex : nat) : outcome bool :=
  valid ← IsValid obj txIndex;
  Ret (negb valid).

(** ** Structures *)

Record TxStatInfo := mkTxStatInfo {
  si_ValidationCode : Z;
  si_TxType : Z;
  si_ChaincodeID : option ChaincodeID;
  si_NumCollections : Z }.

Record TxPvtData := mkTxPvtData {
  SeqInBlock : Z;
  WriteSet : option TxPvtReadWriteSet }.

Record BlockAndPvtData := mkBlockAndPvtData {
  bp_Block : Block;
  bp_PvtData : gmap Z TxPvtData }.

(** ** Private data *)

Definition requiresPvtdataValidation (tx : TxPvtData) : bool := true.

Fixpoint check_colls (tx : transaction) (ns : bytes) (colls : list CollectionPvtReadWriteSet) : outcome unit :=
  match colls with
  | [] => Ret tt
  | c :: colls' =>
      let collPvtdataHash := Sum256 (CollectionPvtReadWriteSet_Rwset c) in
      let hashInPubdata := retrieveHash tx ns (CollectionPvtReadWriteSet_CollectionName c) in
      if bool_decide (collPvtdataHash = hashInPubdata) then check_colls tx ns colls'
      else Err (Errorf "hash of pvt data for collection [%s:%s] does not match with the corresponding hash in the public data")
  end.

Fixpoint check_nss (tx : transaction) (nss : list NsPvtReadWriteSet) : outcome unit :=
  match nss with
  | [] => Ret tt
  | n :: nss' =>
      _ ← check_colls tx (NsPvtReadWriteSet_Namespace n) (NsPvtReadWriteSet_CollectionPvtRwset n);
      check_nss tx nss'
  end.

Definition validatePvtdata (tx : transaction) (pvtdata : TxPvtData) : outcome unit :=
  match WriteSet pvtdata with
  | None => Ret tt
  | Some ws => check_nss tx (TxPvtReadWriteSet_NsPvtRwset ws)
  end.

Definition addPvtRWSetToPvtUpdateBatch (pvtRWSet : TxPvtRwSet) (ver : Height) (pvtUpdateBatch : UpdateMap) : outcome UpdateMap :=
  for_range (fun ns => for_range (fun coll => for_range (fun kvwrite b =>
      if negb (KVWrite_IsDelete kvwrite)
      then UpdateMap_Put (NsPvtRwSet_NameSpace ns) (CPR_CollectionName coll) (KVWrite_Key kvwrite) (bytes_or_nil (KVWrite_Value kvwrite)) ver b
      else Ret (UpdateMap_Delete (NsPvtRwSet_NameSpace ns) (CPR_CollectionName coll) (KVWrite_Key kvwrite) ver b))
    (KVRWSet_Writes (CPR_KvRwSet coll))) (NsPvtRwSet_CollPvtRwSets ns)) (TxPvtRwSet_NsPvtRwSet pvtRWSet) pvtUpdateBatch.

Abbreviation metadataUpdates := (gset (bytes * bytes * bytes)).

Definition addEntriesToMetadataUpdates (pvtRWSet : TxPvtRwSet) (m : metadataUpdates) : metadataUpdates :=
  list_to_set (TxPvtRwSet_NsPvtRwSet pvtRWSet ≫= fun ns => NsPvtRwSet_CollPvtRwSets ns ≫= fun coll =>
    (fun w => (NsPvtRwSet_NameSpace ns, CPR_CollectionName coll, KVMetadataWrite_Key w)) <$> KVRWSet_MetadataWrites (CPR_KvRwSet coll)) ∪ m.

Section Preparer.
Context {PR : Protos} {SP : StateProtos} {D : Type} {VD : VersionedDB D} {QD : QueryDB D} {CC : DeployedChaincodeInfoProvider}.
Variable hashFunc : bytes -> outcome bytes.

Definition retrieveLatestVal (ns coll key : bytes) (pvtUpdateBatch : UpdateMap) (db : DB D) : outcome (option VersionedValue) :=
  match UpdateMap_Get pvtUpdateBatch ns coll key with
  | Some val => Ret (Some val)
  | None => GetPrivateData db ns coll key
  end.

(** One key of the metadata updates. *)
Definition incrementPvtdataVersion (pubAndHashUpdates : publicAndHashUpdates) (db : DB D) (collKey : bytes * bytes * bytes)
    (pvtUpdateBatch : UpdateMap) : outcome UpdateMap :=
  let '(ns, coll, key) := collKey in
  let keyHash := Sum256 key in
  match UpdateMap_Get (hashUpdates pubAndHashUpdates) ns coll keyHash with
  | None => Ret pvtUpdateBatch
  | Some hashedVal =>
      latestVal ← retrieveLatestVal ns coll key pvtUpdateBatch db;
      match latestVal with
      | None => Ret pvtUpdateBatch
      | Some latestVal =>
          if AreSame (Some (vv_Version latestVal)) (Some (vv_Version hashedVal)) then Ret pvtUpdateBatch else
          let latestValHash := Sum256 (default [] (vv_Value latestVal)) in
          if bool_decide (latestValHash = default [] (vv_Value hashedVal))
          then UpdateMap_Put ns coll key (vv_Value latestVal) (vv_Version hashedVal) pvtUpdateBatch
          else Ret pvtUpdateBatch
      end
  end.

Definition incrementPvtdataVersionIfNeeded (m : metadataUpdates) (pubAndHashUpdates : publicAndHashUpdates) (db : DB D)
    (pvtUpdateBatch : UpdateMap) : outcome UpdateMap :=
  for_range (incrementPvtdataVersion pubAndHashUpdates db) (elements m) pvtUpdateBatch.

(** The private writes of one transaction.  A nil write set is dereferenced. *)
Definition add_tx_pvtdata (num : Z) (pvtdata : gmap Z TxPvtData) (tx : transaction) (acc : UpdateMap * metadataUpdates) :
    outcome (UpdateMap * metadataUpdates) :=
  let '(pvtUpdates, m) := acc in
  if negb (tx_validationCode tx =? TxValidationCode_VALID) then Ret acc else
  if negb (containsPvtWrites tx) then Ret acc else
  match pvtdata !! u64 (tx_indexInBlock tx) with
  | None => Ret acc
  | Some txPvtdata =>
      _ ← (if requiresPvtdataValidation txPvtdata then validatePvtdata tx txPvtdata else Ret tt);
      pvtRWSet ← match WriteSet txPvtdata with
        | Some ws => TxPvtRwSetFromProtoMsg ws
        | None => Panic "nil pointer dereference"
        end;
      pvtUpdates ← addPvtRWSetToPvtUpdateBatch pvtRWSet (NewHeight num (u64 (tx_indexInBlock tx))) pvtUpdates;
      Ret (pvtUpdates, addEntriesToMetadataUpdates pvtRWSet m)
  end.

Definition validateAndPreparePvtBatch (blk : block) (db : DB D) (pubAndHashUpdates : publicAndHashUpdates) (pvtdata : gmap Z TxPvtData) :
    outcome UpdateMap :=
  '(pvtUpdates, m) ← for_range (add_tx_pvtdata (blk_num blk) pvtdata) (blk_txs blk) (∅, ∅);
  incrementPvtdataVersionIfNeeded m pubAndHashUpdates db pvtUpdates.

(** ** Parsing the block *)

(** [protoutil.GetPayloads]; nil fields of a message are empty. *)
Definition GetPayloads (txActions : TransactionAction) : outcome (ChaincodeActionPayload * ChaincodeAction) :=
  ccPayload ← UnmarshalChaincodeActionPayload (TransactionAction_Payload txActions);
  match CAP_Action ccPayload with
  | None => Err (Errorf "no payload in ChaincodeActionPayload")
  | Some action =>
      if bool_decide (CEA_ProposalResponsePayload action = []) then Err (Errorf "no payload in ChaincodeActionPayload") else
      pRespPayload ← UnmarshalProposalResponsePayload (CEA_ProposalResponsePayload action);
      if bool_decide (PRP_Extension pRespPayload = []) then Err (Errorf "response payload is missing extension") else
      respPayload ← UnmarshalChaincodeAction (PRP_Extension pRespPayload);
      Ret (ccPayload, respPayload)
  end.

Definition GetActionFromEnvelopeMsg (env : Envelope) : outcome ChaincodeAction :=
  payl ← UnmarshalPayload (Envelope_Payload env);
  tx ← UnmarshalTransaction (Payload_Data payl);
  match Transaction_Actions tx with
  | [] => Err (Errorf "at least one TransactionAction required")
  | act :: _ => '(_, respPayload) ← GetPayloads act; Ret respPayload
  end.

Definition GetActionFromEnvelope (envBytes : bytes) : outcome ChaincodeAction :=
  env ← GetEnvelopeFromBlock envBytes;
  GetActionFromEnvelopeMsg env.

(** Processors are registered by the peer for the other types of transactions. *)
Definition CustomTxProcessor : Type := Envelope -> bool -> M (txSimulator (D := D)) unit.

Variable customTxProcessors : Z -> option CustomTxProcessor.

Definition processNonEndorserTx (txEnv : Envelope) (txType : Z) (synchingState : bool) : outcome (option TxReadWriteSet) :=
  match customTxProcessors txType with
  | None => Ret None
  | Some processor =>
      let '(r, sim) := processor txEnv synchingState newTxSimulator in
      _ ← r;
      simRes ← fst (sim_GetTxSimulationResults hashFunc sim);
      Ret (Some (PubSimulationResults simRes))
  end.

Definition validateWriteset (txRWSet : TxRwSet) : outcome unit :=
  for_range (fun nsRwSet => for_range (fun kvwrite _ => ValidateKeyValue (D := D) (KVWrite_Key kvwrite) (KVWrite_Value kvwrite))
    (KVRWSet_Writes (NsRwSet_KvRwSet nsRwSet))) (TxRwSet_NsRwSets txRWSet) tt.

Definition tx_header (envBytes : bytes) : outcome (Envelope * ChannelHeader) :=
  env ← GetEnvelopeFromBlock envBytes;
  payload ← UnmarshalPayload (Envelope_Payload env);
  match Payload_Header payload with
  | None => Panic "nil pointer dereference"
  | Some header =>
      chdr ← UnmarshalChannelHeader (Header_ChannelHeader header);
      Ret (env, chdr)
  end.

Definition empty_stat : TxStatInfo := mkTxStatInfo TxValidationCode_VALID (-1) None 0.

(** The read-write set of a transaction: [inl code] where the transaction is marked
    as invalid with the code. *)
Definition tx_rwset_of (envBytes : bytes) (env : Envelope) (txType : Z) (doMVCCValidation : bool) (stat : TxStatInfo) :
    outcome (TxStatInfo * (Z + option (TxRwSet * bool))) :=
  if txType =? HeaderType_ENDORSER_TRANSACTION then
    match GetActionFromEnvelope envBytes with
    | Panic msg => Panic msg
    | Err _ => Ret (stat, inl TxValidationCode_NIL_TXACTION)
    | Ret respPayload =>
        let stat := mkTxStatInfo (si_ValidationCode stat) (si_TxType stat) (ChaincodeAction_ChaincodeId respPayload) (si_NumCollections stat) in
        match TxRwSet_FromProtoBytes (ChaincodeAction_Results respPayload) with
        | Panic msg => Panic msg
        | Err _ => Ret (stat, inl TxValidationCode_INVALID_OTHER_REASON)
        | Ret txRWSet => Ret (stat, inr (Some (txRWSet, false)))
        end
    end
  else
    match processNonEndorserTx env txType (negb doMVCCValidation) with
    | Panic msg => Panic msg
    | Err InvalidTxError => Ret (stat, inl TxValidationCode_INVALID_OTHER_REASON)
    | Err e => Err e
    | Ret None => Ret (stat, inr None)
    | Ret (Some rwsetProto) =>
        txRWSet ← TxRwSetFromProtoMsg rwsetProto;
        Ret (stat, inr (Some (txRWSet, true)))
    end.

(** One transaction: its statistics, and what the block keeps of it. *)
Definition preprocess_tx (doMVCCValidation : bool) (txIndex : nat) (envBytes : bytes) : M bytes (TxStatInfo * option transaction) :=
  match tx_header envBytes with
  | Panic msg => panic msg
  | hdr =>
      txsFilter ← get_state;
      invalid ← lift_outcome (IsInvalid txsFilter txIndex);
      if (invalid : bool) then mret (empty_stat, None) else
      '(env, chdr) ← lift_outcome hdr;
      let txType := ChannelHeader_Type chdr in
      let stat := mkTxStatInfo (si_ValidationCode empty_stat) txType None 0 in
      '(stat, r) ← lift_outcome (tx_rwset_of envBytes env txType doMVCCValidation stat);
      match r with
      | inl code => _ ← SetFlag txIndex code; mret (stat, None)
      | inr None => mret (stat, None)
      | inr (Some (txRWSet, containsPostOrderWrites)) =>
          let stat := mkTxStatInfo (si_ValidationCode stat) (si_TxType stat) (si_ChaincodeID stat) (NumCollections (Some txRWSet)) in
          match validateWriteset txRWSet with
          | Panic msg => panic msg
          | Err _ => _ ← SetFlag txIndex TxValidationCode_INVALID_WRITESET; mret (stat, None)
          | Ret _ =>
              mret (stat, Some (mktransaction (Z.of_nat txIndex) (ChannelHeader_TxId chdr) txRWSet
                TxValidationCode_VALID containsPostOrderWrites))
          end
      end
  end.

Fixpoint preprocess_txs (doMVCCValidation : bool) (txIndex : nat) (data : list bytes) : M bytes (list TxStatInfo * list transaction) :=
  match data with
  | [] => mret ([], [])
  | envBytes :: data' =>
      '(stat, tx) ← preprocess_tx doMVCCValidation txIndex envBytes;
      '(stats, txs) ← preprocess_txs doMVCCValidation (S txIndex) data';
      mret (stat :: stats, option_list tx ++ txs)
  end.

(** The flags of the block's metadata. *)
Definition block_flags (blk : Block) : outcome bytes :=
  match Block_Metadata blk with
  | None => Panic "nil pointer dereference"
  | Some md => go_index md BlockMetadataIndex_TRANSACTIONS_FILTER
  end.

Definition set_block_flags (flags : bytes) (blk : Block) : Block :=
  mkBlock (Block_Header blk) (Block_Data blk) ((fun md => <[BlockMetadataIndex_TRANSACTIONS_FILTER := flags]> md) <$> Block_Metadata blk).

Definition preprocessProtoBlock (blk : Block) (doMVCCValidation : bool) : outcome (block * list TxStatInfo * Block) :=
  txsFilter ← block_flags blk;
  let '(r, txsFilter) := preprocess_txs doMVCCValidation 0 (Block_Data blk) txsFilter in
  '(stats, txs) ← r;
  Ret (mkblock (Number (Block_Header blk)) txs, stats, set_block_flags txsFilter blk).

Fixpoint set_flags (txs : list transaction) : M bytes unit :=
  match txs with
  | [] => mret tt
  | tx :: txs' => _ ← SetFlag (Z.to_nat (tx_indexInBlock tx)) (tx_validationCode tx); set_flags txs'
  end.

Definition postprocessProtoBlock (blk : Block) (validatedBlock : block) : outcome Block :=
  txsFilter ← block_flags blk;
  let '(r, txsFilter) := set_flags (blk_txs validatedBlock) txsFilter in
  _ ← r;
  Ret (set_block_flags txsFilter blk).

(** The flags as the codes of the statistics: there is one for every flag. *)
Fixpoint stat_codes (flags : bytes) (stats : list TxStatInfo) : outcome (list TxStatInfo) :=
  match flags, stats with
  | [], _ => Ret stats
  | _ :: _, [] => Panic "index out of range"
  | f :: flags', s :: stats' =>
      stats' ← stat_codes flags' stats';
      Ret (mkTxStatInfo (b2z f) (si_TxType s) (si_ChaincodeID s) (si_NumCollections s) :: stats')
  end.

(** ** The whole of it

    The block is returned with the flags that were set in it. *)
Definition ValidateAndPrepareBatch (fuel : nat) (blockAndPvtdata : BlockAndPvtData) (doMVCCValidation : bool) :
    M (DB D) (PrivUpdateBatch * list TxStatInfo * Block) :=
  '(internalBlock, txsStatInfo, blk) ← lift_outcome (preprocessProtoBlock (bp_Block blockAndPvtdata) doMVCCValidation);
  '(pubAndHashUpdates, internalBlock) ← validateAndPrepareBatch hashFunc fuel internalBlock doMVCCValidation;
  db ← get_state;
  pvtUpdates ← lift_outcome (validateAndPreparePvtBatch internalBlock db pubAndHashUpdates (bp_PvtData blockAndPvtdata));
  blk ← lift_outcome (postprocessProtoBlock blk internalBlock);
  txsFilter ← lift_outcome (block_flags blk);
  txsStatInfo ← lift_outcome (stat_codes txsFilter txsStatInfo);
  mret (mkPrivUpdateBatch (publicUpdates pubAndHashUpdates) (hashUpdates pubAndHashUpdates) pvtUpdates, txsStatInfo, blk).

End Preparer.
