(* ===== verification/BatchPreparerOk.v ===== *)
(** * From a simulation to the committed block

    The results of a simulation pass the validation of a block: the public set is
    parsed as it was built, the private sets have the hashes the public set records,
    and the batch of the block brings about what the calls of the simulation wrote,
    to public, hashed and private keys. *)

From S2P Require Import Prelude OrderedCode LevelDB Sha256 Proto Block StateProto StateDB StateDBOk PrivState PrivStateOk RwSet RwSetOk Validation CombinedItr RangeQuery Serial ValidationOk Serializable RwSetBuilder RwSetBuilderOk Simulator SimulatorOk BatchPreparer.

(** ** Hashes of private sets *)

Definition hash_at (b : RWSetBuilder) (ns coll : bytes) : bytes := chb_pvtDataHash (coll_of (getOrCreateNsPubRwBuilder b ns) coll).

Lemma hash_at_set (ns coll p ns' coll' : bytes) (b : RWSetBuilder) :
  hash_at (setPvtCollectionHash ns coll p b) ns' coll' = if decide (ns = ns' /\ coll = coll') then Sum256 p else hash_at b ns' coll'.
Proof.
  unfold hash_at, setPvtCollectionHash, on_coll_hash. rewrite on_ns_pub_get. destruct (decide (ns = ns')) as [<-|Hn].
  - rewrite set_coll_get. destruct (decide (coll = coll')) as [<-|Hc].
    + by rewrite decide_True.
    + by rewrite decide_False by (by intros [_ ?]).
  - by rewrite decide_False by (by intros [? _]).
Qed.

(** The collections of a private message. *)
Definition pvt_colls (nss : list NsPvtReadWriteSet) : list (bytes * bytes * bytes) :=
  nss ≫= fun n => (fun c => (NsPvtReadWriteSet_Namespace n, CollectionPvtReadWriteSet_CollectionName c, CollectionPvtReadWriteSet_Rwset c))
    <$> NsPvtReadWriteSet_CollectionPvtRwset n.

Lemma set_hashes_flat (nss : list NsPvtReadWriteSet) (b : RWSetBuilder) :
  fold_left set_ns_hashes nss b = fold_left (fun b '(ns, coll, p) => setPvtCollectionHash ns coll p b) (pvt_colls nss) b.
Proof.
  revert b. induction nss as [|n nss IH]; intros b; [done|]. cbn [fold_left pvt_colls mbind list_bind]. rewrite fold_left_app, IH. f_equal.
  unfold set_ns_hashes. generalize (NsPvtReadWriteSet_CollectionPvtRwset n). intros l. revert b.
  induction l as [|c l IHl]; intros b; [done|]. cbn [fold_left fmap list_fmap]. apply IHl.
Qed.

Lemma hash_at_fold (P : bytes -> bytes -> bytes) (l : list (bytes * bytes * bytes)) (b : RWSetBuilder) (ns coll : bytes) :
  (forall ns coll p, (ns, coll, p) ∈ l -> p = P ns coll) ->
  hash_at (fold_left (fun b '(ns, coll, p) => setPvtCollectionHash ns coll p b) l b) ns coll =
    if decide ((ns, coll) ∈ (fst <$> l)) then Sum256 (P ns coll) else hash_at b ns coll.
Proof.
  revert b. induction l as [|[[n c] p] l IH]; intros b HP; cbn [fold_left fmap list_fmap fst].
  { rewrite decide_False by apply not_elem_of_nil. done. }
  rewrite IH by (intros; apply HP; by right). rewrite hash_at_set. assert (Hp : p = P n c) by (apply HP; by left). subst p.
  destruct (decide ((ns, coll) ∈ fst <$> l)) as [Hin|Hn]; [by rewrite decide_True by (by right)|].
  destruct (decide (n = ns /\ c = coll)) as [[-> ->]|Hne]; [by rewrite decide_True by (by left)|].
  rewrite decide_False; [done|]. rewrite elem_of_cons. intros [[= -> ->]|?]; [by apply Hne|done].
Qed.

(** *** Looking up a hash in the public set *)

Lemma find_coll_values (m : gmap bytes collHashRwBuilder) (coll : bytes) :
  (forall k c, m !! k = Some c -> chb_collName c = k) ->
  find_coll coll (collHashRwBuilder_build <$> GetValuesBySortedKeys m) = chb_pvtDataHash <$> m !! coll.
Proof.
  intros Hm. unfold GetValuesBySortedKeys.
  assert (H : forall l, (forall k, k ∈ l -> is_Some (m !! k)) ->
    find_coll coll (collHashRwBuilder_build <$> omap (fun k => m !! k) l) = if decide (coll ∈ l) then chb_pvtDataHash <$> m !! coll else None).
  { induction l as [|k l IH]; intros Hl; [done|]. destruct (Hl k) as [c Ec]; [by left|]. cbn [omap list_omap]. rewrite Ec. cbn [fmap list_fmap find_coll].
    cbn [collHashRwBuilder_build CHR_CollectionName CHR_PvtRwSetHash]. rewrite (Hm k c Ec). destruct (decide (k = coll)) as [->|Hk].
    - rewrite bool_decide_eq_true_2, decide_True by (done || by left). by rewrite Ec.
    - rewrite bool_decide_eq_false_2 by done. rewrite IH by (intros; apply Hl; by right). destruct (decide (coll ∈ l)) as [Hin|Hn].
      + by rewrite decide_True by (by right).
      + rewrite decide_False; [done|]. rewrite elem_of_cons. naive_solver. }
  rewrite H by (intros k; by rewrite sorted_keys_elem). case_decide as Hd; [done|]. rewrite sorted_keys_elem in Hd.
  destruct (m !! coll); [|done]. exfalso. by apply Hd.
Qed.

Lemma find_ns_values (m : gmap bytes nsPubRwBuilder) (ns coll : bytes) :
  (forall k n, m !! k = Some n -> npb_namespace n = k) ->
  find_ns ns coll (nsPubRwBuilder_build <$> GetValuesBySortedKeys m) =
    match m !! ns with Some n => default [] (find_coll coll (NsRwSet_CollHashedRwSets (nsPubRwBuilder_build n))) | None => [] end.
Proof.
  intros Hm. unfold GetValuesBySortedKeys.
  assert (H : forall l, (forall k, k ∈ l -> is_Some (m !! k)) ->
    find_ns ns coll (nsPubRwBuilder_build <$> omap (fun k => m !! k) l) = if decide (ns ∈ l) then
      match m !! ns with Some n => default [] (find_coll coll (NsRwSet_CollHashedRwSets (nsPubRwBuilder_build n))) | None => [] end else []).
  { induction l as [|k l IH]; intros Hl; [done|]. destruct (Hl k) as [n En]; [by left|]. cbn [omap list_omap]. rewrite En. cbn [fmap list_fmap find_ns].
    assert (Ek : NsRwSet_NameSpace (nsPubRwBuilder_build n) = k) by (by apply Hm). rewrite Ek. rewrite IH by (intros; apply Hl; by right).
    destruct (decide (k = ns)) as [->|Hk].
    - rewrite bool_decide_eq_true_2, (decide_True (P := ns ∈ ns :: l)) by (done || by left). rewrite En.
      destruct (find_coll _ _); [done|]. by case_decide.
    - rewrite bool_decide_eq_false_2 by done. destruct (decide (ns ∈ l)) as [Hin|Hn].
      + by rewrite decide_True by (by right).
      + rewrite decide_False; [done|]. rewrite elem_of_cons. naive_solver. }
  rewrite H by (intros k; by rewrite sorted_keys_elem). case_decide as Hd; [done|]. rewrite sorted_keys_elem in Hd.
  destruct (m !! ns); [|done]. exfalso. by apply Hd.
Qed.

Lemma retrieveHash_builder `{!StateProtos} Pread Pquery (keys : list bytes) (b : RWSetBuilder) (tx : transaction) (ns coll : bytes) :
  builder_ok Pread Pquery keys b -> tx_rwset tx = GetTxReadWriteSet b -> retrieveHash tx ns coll = hash_at b ns coll.
Proof.
  intros Hb E. unfold retrieveHash. rewrite E. cbn [GetTxReadWriteSet TxRwSet_NsRwSets].
  rewrite find_ns_values by (intros k n En; by apply (nb_name _ _ _ _ _ (Hb k n En))).
  unfold hash_at, getOrCreateNsPubRwBuilder. destruct (pubRwBuilderMap b !! ns) as [n|] eqn:En; [|done]. cbn [default from_option id].
  cbn [nsPubRwBuilder_build NsRwSet_CollHashedRwSets]. rewrite find_coll_values.
  - unfold coll_of, getOrCreateCollHashedRwBuilder. by destruct (npb_collHashRwBuilder n !! coll).
  - intros k c Ec. by apply (cb_name _ _ _ _ _ (proj2 (nb_colls _ _ _ _ _ (Hb ns n En) k c Ec))).
Qed.

Lemma validatePvtdata_ok (tx : transaction) (pvtdata : TxPvtData) :
  (forall ws, WriteSet pvtdata = Some ws -> forall ns coll p, (ns, coll, p) ∈ pvt_colls (TxPvtReadWriteSet_NsPvtRwset ws) ->
     retrieveHash tx ns coll = Sum256 p) ->
  validatePvtdata tx pvtdata = Ret tt.
Proof.
  intros H. unfold validatePvtdata. destruct (WriteSet pvtdata) as [ws|]; [|done]. specialize (H ws eq_refl).
  induction (TxPvtReadWriteSet_NsPvtRwset ws) as [|n nss IH]; [done|]. cbn [check_nss].
  cbn [pvt_colls mbind list_bind] in H. rewrite IH by (intros; apply H, elem_of_app; by right).
  assert (Hc : forall l, l ⊆ NsPvtReadWriteSet_CollectionPvtRwset n -> check_colls tx (NsPvtReadWriteSet_Namespace n) l = Ret tt).
  { induction l as [|c l IHl]; intros Hl; [done|]. cbn [check_colls]. rewrite bool_decide_eq_true_2; [apply IHl; set_solver|].
    symmetry. apply H, elem_of_app. left. apply list_elem_of_fmap. exists c. split; [done|]. apply Hl. by left. }
  by rewrite Hc.
Qed.

Lemma retrieveHash_contains (tx : transaction) (ns coll : bytes) : retrieveHash tx ns coll <> [] -> containsPvtWrites tx = true.
Proof.
  unfold retrieveHash, containsPvtWrites. induction (TxRwSet_NsRwSets (tx_rwset tx)) as [|n nss IH]; [done|]. cbn [find_ns existsb].
  rewrite orb_true_iff. case_bool_decide; [|intros Hr; right; by apply IH].
  assert (Hf : forall l, match find_coll coll l with Some h => h <> [] -> existsb (fun c => negb (bool_decide (CHR_PvtRwSetHash c = []))) l = true | None => True end).
  { induction l as [|c l IHl]; [done|]. cbn [find_coll existsb]. destruct (bool_decide (CHR_CollectionName c = coll)).
    - intros Hne. by rewrite bool_decide_eq_false_2.
    - destruct (find_coll coll l); [|done]. intros Hne. apply orb_true_iff. right. by apply IHl. }
  specialize (Hf (NsRwSet_CollHashedRwSets n)). destruct (find_coll coll _); intros Hh; [left; by apply Hf|right; by apply IH].
Qed.

(** ** Private writes *)

(** The writes of a private set. *)
Definition pvt_list (t : TxPvtRwSet) : list (bytes * bytes * bytes * option bytes) :=
  TxPvtRwSet_NsPvtRwSet t ≫= fun ns => NsPvtRwSet_CollPvtRwSets ns ≫= fun coll =>
    (fun w => ((NsPvtRwSet_NameSpace ns, CPR_CollectionName coll, KVWrite_Key w), pvt_value w)) <$> KVRWSet_Writes (CPR_KvRwSet coll).

Lemma pvt_at_spec (k : bytes * bytes * bytes) (o : option (option bytes)) (l : list (bytes * bytes * bytes * option bytes)) :
  (forall v, (k, v) ∈ l <-> o = Some v) -> pvt_at k l = o.
Proof.
  intros H. unfold pvt_at. destruct (last (snd <$> filter (fun x => fst x = k) l)) as [v|] eqn:E.
  - apply last_Some_elem_of, list_elem_of_fmap in E as ([k' v'] & -> & [Ek Hin]%list_elem_of_filter). cbn in Ek. subst k'. symmetry. by apply H.
  - apply last_None in E. destruct o as [v|]; [|done]. exfalso. assert (Hin : (k, v) ∈ l) by (by apply H).
    assert (Hx : v ∈ snd <$> filter (fun x => fst x = k) l).
    { apply list_elem_of_fmap. exists (k, v). split; [done|]. by apply list_elem_of_filter. }
    rewrite E in Hx. by apply not_elem_of_nil in Hx.
Qed.

Lemma pvt_at_cons (k k' : bytes * bytes * bytes) (v : option bytes) (l : list (bytes * bytes * bytes * option bytes)) :
  pvt_at k ((k', v) :: l) = match pvt_at k l with Some x => Some x | None => if decide (k' = k) then Some v else None end.
Proof.
  unfold pvt_at. rewrite filter_cons. cbn [fst]. destruct (decide (k' = k)) as [<-|Hne]; [|by destruct (last _)].
  cbn [fmap list_fmap snd]. rewrite last_cons. by destruct (last _).
Qed.

Definition put_pvt (ver : Height) (x : bytes * bytes * bytes * option bytes) (b : UpdateMap) : outcome UpdateMap :=
  let '(ns, coll, key, v) := x in
  match v with
  | Some v => UpdateMap_Put ns coll key (bytes_or_nil v) ver b
  | None => Ret (UpdateMap_Delete ns coll key ver b)
  end.

Lemma for_range_ext {A S} (f g : A -> S -> outcome S) (l : list A) (s : S) :
  (forall a s, f a s = g a s) -> for_range f l s = for_range g l s.
Proof.
  intros H. revert s. induction l as [|a l IH]; intros s; [done|]. cbn [for_range]. rewrite H. by destruct (g a s); cbn.
Qed.

Lemma for_range_app {A S} (f : A -> S -> outcome S) (l l' : list A) (s : S) :
  for_range f (l ++ l') s = (s ← for_range f l s; for_range f l' s).
Proof. revert s. induction l as [|a l IH]; intros s; [done|]. cbn [app for_range]. destruct (f a s); cbn; [apply IH|done..]. Qed.

Lemma for_range_bind {A B S} (f : B -> S -> outcome S) (g : A -> list B) (l : list A) (s : S) :
  for_range (fun a => for_range f (g a)) l s = for_range f (l ≫= g) s.
Proof.
  revert s. induction l as [|a l IH]; intros s; [done|]. cbn [for_range mbind list_bind]. rewrite for_range_app.
  destruct (for_range f (g a) s); cbn; [apply IH|done..].
Qed.

Lemma for_range_fmap {A B S} (f : B -> S -> outcome S) (g : A -> B) (l : list A) (s : S) :
  for_range (fun a => f (g a)) l s = for_range f (g <$> l) s.
Proof. revert s. induction l as [|a l IH]; intros s; [done|]. cbn. destruct (f (g a) s); cbn; [apply IH|done..]. Qed.

Lemma addPvtRWSet_flat (t : TxPvtRwSet) (ver : Height) (b : UpdateMap) :
  addPvtRWSetToPvtUpdateBatch t ver b = for_range (put_pvt ver) (pvt_list t) b.
Proof.
  unfold addPvtRWSetToPvtUpdateBatch, pvt_list. rewrite <- for_range_bind. apply for_range_ext. intros ns s. rewrite <- for_range_bind.
  apply for_range_ext. intros coll s'. rewrite <- for_range_fmap. apply for_range_ext. intros w s''. unfold put_pvt, pvt_value.
  by destruct (KVWrite_IsDelete w).
Qed.

Lemma UpdateMap_Get_Put (ns coll key v : bytes) (ver : Height) (b : UpdateMap) :
  exists b', UpdateMap_Put ns coll key (Some v) ver b = Ret b' /\
    forall n c k, UpdateMap_Get b' n c k = if decide ((n, c, k) = (ns, coll, key)) then Some (mkVersionedValue (Some v) [] ver) else UpdateMap_Get b n c k.
Proof. unfold UpdateMap_Put, UpdateMap_PutValAndMetadata, Batch_PutValAndMetadata. cbn. eexists. split; [done|]. intros. apply UpdateMap_Get_insert. Qed.

Lemma put_pvt_list (ver : Height) (l : list (bytes * bytes * bytes * option bytes)) (b : UpdateMap) :
  Forall (fun x => snd x <> Some []) l ->
  exists b', for_range (put_pvt ver) l b = Ret b' /\
    forall ns coll key, UpdateMap_Get b' ns coll key =
      match pvt_at (ns, coll, key) l with Some v => Some (mkVersionedValue v [] ver) | None => UpdateMap_Get b ns coll key end.
Proof.
  intros Hl. revert b. induction Hl as [|[[[n c] k] v] l Hv _ IH]; intros b; [by exists b|]. cbn [snd] in Hv.
  assert (H1 : exists b1, put_pvt ver (n, c, k, v) b = Ret b1 /\ forall ns coll key, UpdateMap_Get b1 ns coll key =
    if decide ((ns, coll, key) = (n, c, k)) then Some (mkVersionedValue v [] ver) else UpdateMap_Get b ns coll key).
  { destruct v as [[|x v]|]; [done| |].
    - apply UpdateMap_Get_Put.
    - eexists. split; [done|]. intros. apply UpdateMap_Get_insert. }
  destruct H1 as (b1 & E1 & H1). cbn [for_range]. rewrite E1. cbn [mbind outcome_bind]. destruct (IH b1) as (b' & E & H). exists b'.
  split; [done|]. intros ns coll key. rewrite H, H1, pvt_at_cons. destruct (pvt_at (ns, coll, key) l); [done|].
  destruct (decide ((ns, coll, key) = (n, c, k))) as [E2|E2]; [by rewrite decide_True|by rewrite decide_False by congruence].
Qed.

(** ** The private set of a builder *)

Section PvtSet.
Context {PR : Protos} {SP : StateProtos}.
Variable Pcoll : bytes -> bytes -> Prop.
Variable b : RWSetBuilder.
Variable plog : list (bytes * bytes * bytes * option bytes).
Hypothesis Hp : pvt_logged Pcoll b plog.

Lemma pvt_set_nss (t : TxPvtRwSet) : getTxPvtReadWriteSet b = Some t ->
  TxPvtRwSet_NsPvtRwSet t = nsPvtRwBuilder_build <$> GetValuesBySortedKeys (pvtRwBuilderMap b).
Proof. unfold getTxPvtReadWriteSet. destruct (nsPvtRwBuilder_build <$> _); [done|]. by intros [= <-]. Qed.

(** The collections of the set are those of the builder. *)
Lemma pvt_set_coll (t : TxPvtRwSet) (n : NsPvtRwSet) (c : CollPvtRwSet) :
  getTxPvtReadWriteSet b = Some t -> n ∈ TxPvtRwSet_NsPvtRwSet t -> c ∈ NsPvtRwSet_CollPvtRwSets n ->
  Pcoll (NsPvtRwSet_NameSpace n) (CPR_CollectionName c) /\
  c = collPvtRwBuilder_build (pvt_coll b (NsPvtRwSet_NameSpace n) (CPR_CollectionName c)).
Proof.
  intros Et Hn Hc. rewrite (pvt_set_nss t Et) in Hn. apply list_elem_of_fmap in Hn as (nb & -> & (ns & En)%values_elem).
  cbn [nsPvtRwBuilder_build NsPvtRwSet_CollPvtRwSets] in Hc. apply list_elem_of_fmap in Hc as (cb & -> & (coll & Ec)%values_elem).
  destruct (pl_names _ _ _ Hp ns nb En) as [Hns Hcs]. destruct (Hcs coll cb Ec) as [HP Hcn].
  cbn [nsPvtRwBuilder_build NsPvtRwSet_NameSpace collPvtRwBuilder_build CPR_CollectionName]. rewrite Hns, Hcn. split; [done|].
  unfold pvt_coll, getOrCreateNsPvtRwBuilder. rewrite En. cbn [default from_option id]. unfold getOrCreateCollPvtRwBuilder. rewrite Ec. done.
Qed.

Lemma pvt_set_coll_in (t : TxPvtRwSet) (ns coll key : bytes) (w : KVWrite) :
  getTxPvtReadWriteSet b = Some t -> cpb_writeMap (pvt_coll b ns coll) !! key = Some w ->
  exists n, n ∈ TxPvtRwSet_NsPvtRwSet t /\ NsPvtRwSet_NameSpace n = ns /\
    collPvtRwBuilder_build (pvt_coll b ns coll) ∈ NsPvtRwSet_CollPvtRwSets n /\ cpb_collectionName (pvt_coll b ns coll) = coll.
Proof.
  intros Et Ew. rewrite (pvt_set_nss t Et). unfold pvt_coll, getOrCreateNsPvtRwBuilder in Ew |- *.
  destruct (pvtRwBuilderMap b !! ns) as [nb|] eqn:En; [|discriminate Ew]. cbn [default from_option id] in Ew |- *.
  unfold getOrCreateCollPvtRwBuilder in Ew |- *. destruct (nvb_collPvtRwBuilders nb !! coll) as [cb|] eqn:Ec; [|discriminate Ew].
  cbn [default from_option id] in Ew |- *. destruct (pl_names _ _ _ Hp ns nb En) as [Hns Hcs]. exists (nsPvtRwBuilder_build nb).
  split; [apply list_elem_of_fmap; exists nb; split; [done|]; apply values_elem; eauto|]. split; [done|]. split; [|by apply Hcs].
  apply list_elem_of_fmap. exists cb. split; [done|]. apply values_elem. eauto.
Qed.

Lemma pvt_list_elem (t : TxPvtRwSet) (ns coll key : bytes) (v : option bytes) :
  getTxPvtReadWriteSet b = Some t -> ((ns, coll, key), v) ∈ pvt_list t <-> pvt_at (ns, coll, key) plog = Some v.
Proof.
  intros Et. rewrite <- (pl_values _ _ _ Hp). unfold pvt_list. rewrite list_elem_of_bind. setoid_rewrite list_elem_of_bind. split.
  - intros (n & (c & Hx & Hc) & Hn). destruct (pvt_set_coll t n c Et Hn Hc) as [_ Ec].
    apply list_elem_of_fmap in Hx as (w & E & Hw). injection E as -> -> -> ->. rewrite Ec in Hw. cbn in Hw.
    apply values_elem in Hw as (key' & Ew). rewrite (pl_keys _ _ _ Hp _ _ _ _ Ew). by rewrite Ew.
  - intros (w & Ew & ->)%fmap_Some_1. destruct (pvt_set_coll_in t ns coll key w Et Ew) as (n & Hn & Hns & Hc & Hcn).
    exists n. split; [|done]. exists (collPvtRwBuilder_build (pvt_coll b ns coll)). split; [|done].
    apply list_elem_of_fmap. exists w. rewrite Hns, (pl_keys _ _ _ Hp _ _ _ _ Ew). cbn. rewrite Hcn. split; [done|]. apply values_elem. eauto.
Qed.

Lemma pvt_list_builder (t : TxPvtRwSet) (k : bytes * bytes * bytes) :
  getTxPvtReadWriteSet b = Some t -> pvt_at k (pvt_list t) = pvt_at k plog.
Proof. intros Et. destruct k as [[ns coll] key]. apply pvt_at_spec. intros v. by apply pvt_list_elem. Qed.

Lemma pvt_at_log (k : bytes * bytes * bytes) (v : option bytes) : pvt_at k plog = Some v -> (k, v) ∈ plog.
Proof. intros ([k' v'] & -> & [Ek Hx]%list_elem_of_filter)%last_Some_elem_of%list_elem_of_fmap. cbn in Ek. by subst k'. Qed.

Lemma pvt_list_values (t : TxPvtRwSet) : getTxPvtReadWriteSet b = Some t -> Forall (fun x => snd x <> Some []) plog ->
  Forall (fun x => snd x <> Some []) (pvt_list t).
Proof.
  rewrite !Forall_forall. intros Et Hne [[[ns coll] key] v] Hin. apply (pvt_list_elem t) in Hin; [|done]. by apply pvt_at_log, Hne in Hin.
Qed.

Lemma pvt_at_set (k : bytes * bytes * bytes) (v : option bytes) : pvt_at k plog = Some v -> exists t, getTxPvtReadWriteSet b = Some t.
Proof.
  destruct k as [[ns coll] key]. rewrite <- (pl_values _ _ _ Hp). intros (w & Ew & _)%fmap_Some_1.
  unfold pvt_coll, getOrCreateNsPvtRwBuilder in Ew. destruct (pvtRwBuilderMap b !! ns) as [nb|] eqn:En; [|discriminate Ew].
  unfold getTxPvtReadWriteSet. assert (Hin : nb ∈ GetValuesBySortedKeys (pvtRwBuilderMap b)) by (apply values_elem; eauto).
  destruct (GetValuesBySortedKeys _); [by apply not_elem_of_nil in Hin|]. by eexists.
Qed.

Lemma pvt_at_coll (ns coll key : bytes) (v : option bytes) : pvt_at (ns, coll, key) plog = Some v -> Pcoll ns coll.
Proof.
  intros Hv. destruct (pvt_at_set _ _ Hv) as [t Et]. apply (pvt_list_elem t) in Hv; [|done]. unfold pvt_list in Hv. apply list_elem_of_bind in Hv as (n & Hv & Hn).
  apply list_elem_of_bind in Hv as (c & Hx & Hc). apply list_elem_of_fmap in Hx as (w & E & _). injection E as -> -> _ _.
  by apply (pvt_set_coll t n c Et Hn Hc).
Qed.

Lemma pvt_colls_builder (t : TxPvtRwSet) (ns coll p : bytes) :
  getTxPvtReadWriteSet b = Some t -> (ns, coll, p) ∈ pvt_colls (TxPvtReadWriteSet_NsPvtRwset (TxPvtRwSet_ToProtoMsg t)) ->
  p = Marshal (CPR_KvRwSet (collPvtRwBuilder_build (pvt_coll b ns coll))).
Proof.
  intros Et. unfold pvt_colls. cbn [TxPvtRwSet_ToProtoMsg TxPvtReadWriteSet_NsPvtRwset]. rewrite list_elem_of_bind.
  intros (nm & Hc & Hn). apply list_elem_of_fmap in Hn as (n & -> & Hn). apply list_elem_of_fmap in Hc as (cm & E & Hc).
  cbn [NsPvtRwSet_toProtoMsg NsPvtReadWriteSet_CollectionPvtRwset] in Hc. apply list_elem_of_fmap in Hc as (c & -> & Hc).
  cbn in E. injection E as -> -> ->. destruct (pvt_set_coll t n c Et Hn Hc) as [_ Ec]. by rewrite <- Ec.
Qed.

(** The public set has the hashes of the private ones. *)
Lemma with_hashes_at (t : TxPvtRwSet) (ns coll p : bytes) :
  getTxPvtReadWriteSet b = Some t -> (ns, coll, p) ∈ pvt_colls (TxPvtReadWriteSet_NsPvtRwset (TxPvtRwSet_ToProtoMsg t)) ->
  hash_at (with_hashes b) ns coll = Sum256 p.
Proof.
  intros Et Hin. unfold with_hashes, builder_GetTxSimulationResults. rewrite Et. cbn [fmap option_fmap option_map snd].
  rewrite set_hashes_flat. rewrite (hash_at_fold (fun ns coll => Marshal (CPR_KvRwSet (collPvtRwBuilder_build (pvt_coll b ns coll))))).
  - rewrite decide_True; [|by apply (list_elem_of_fmap_2 fst) in Hin]. f_equal. symmetry. by eapply pvt_colls_builder.
  - intros ns' coll' p'. by apply pvt_colls_builder.
Qed.

(** A collection with a write is in the message. *)
Lemma pvt_colls_in (t : TxPvtRwSet) (ns coll key : bytes) (v : option bytes) :
  getTxPvtReadWriteSet b = Some t -> pvt_at (ns, coll, key) plog = Some v ->
  exists p, (ns, coll, p) ∈ pvt_colls (TxPvtReadWriteSet_NsPvtRwset (TxPvtRwSet_ToProtoMsg t)).
Proof.
  intros Et. rewrite <- (pl_values _ _ _ Hp). intros (w & Ew & _)%fmap_Some_1.
  destruct (pvt_set_coll_in t ns coll key w Et Ew) as (n & Hn & Hns & Hc & Hcn). eexists. unfold pvt_colls. apply list_elem_of_bind.
  exists (NsPvtRwSet_toProtoMsg n). split; [|apply list_elem_of_fmap; by exists n]. apply list_elem_of_fmap.
  exists (CollPvtRwSet_toProtoMsg (collPvtRwBuilder_build (pvt_coll b ns coll))). split; [|apply list_elem_of_fmap; eauto].
  cbn. by rewrite Hns, Hcn.
Qed.

(** The keys of the metadata writes are in known collections. *)
Lemma pvt_metadata_keys (t : TxPvtRwSet) (ns coll key : bytes) :
  getTxPvtReadWriteSet b = Some t -> (ns, coll, key) ∈ addEntriesToMetadataUpdates t ∅ -> Pcoll ns coll.
Proof.
  intros Et. unfold addEntriesToMetadataUpdates. rewrite elem_of_union, elem_of_empty, elem_of_list_to_set, list_elem_of_bind.
  setoid_rewrite list_elem_of_bind. intros [(n & (c & Hx & Hc) & Hn)|[]]. apply list_elem_of_fmap in Hx as (w & E & _).
  injection E as -> -> _. by apply (pvt_set_coll t n c Et Hn Hc).
Qed.

End PvtSet.

(** ** The private updates of a transaction *)

Lemma coll_pvt_ok (ns coll key : bytes) : coll_ok ns coll -> dk_ok (PvtKey ns coll key).
Proof. intros (_ & [Hd Hn] & Hc). split; [done|]. by split. Qed.

Section PvtUpdates.
Context {PR : Protos} {SP : StateProtos} {D : Type} {VD : VersionedDB D} {VO : VersionedDBOk D}.
Variable db : DB D.
Variable σ : state.
Hypothesis Hview : db_view db σ.
(** The updates are those of one transaction. *)
Variable u : publicAndHashUpdates.
Variable h : Height.
Hypothesis Hu : forall k vv, upd u k = Some vv -> vv_Version vv = h.
Variable plog : list (bytes * bytes * bytes * option bytes).

Record pvt_updates_ok (p : UpdateMap) : Prop := {
  pu_written : forall ns coll key v, pvt_at (ns, coll, key) plog = Some v -> UpdateMap_Get p ns coll key = Some (mkVersionedValue v [] h);
  pu_keys : forall ns coll key vv, UpdateMap_Get p ns coll key = Some vv -> coll_ok ns coll /\ vv_Version vv = h }.

Lemma increment_ok (ns coll key : bytes) (p : UpdateMap) :
  coll_ok ns coll -> pvt_updates_ok p -> exists p', incrementPvtdataVersion u db (ns, coll, key) p = Ret p' /\ pvt_updates_ok p'.
Proof.
  intros Hc Hp. unfold incrementPvtdataVersion, retrieveLatestVal.
  destruct (UpdateMap_Get (hashUpdates u) ns coll (Sum256 key)) as [hv|] eqn:Eh; [|by exists p].
  assert (Hv : vv_Version hv = h) by (by apply (Hu (HashKey ns coll (Sum256 key)))).
  destruct (UpdateMap_Get p ns coll key) as [vv|] eqn:Ep; cbn [mbind outcome_bind].
  { destruct (pu_keys _ Hp _ _ _ _ Ep) as [_ Ev]. rewrite (proj2 (AreSame_eq _ _)) by congruence. by exists p. }
  unfold GetPrivateData. rewrite (view_GetState _ σ) by (first [apply Hview|apply (loc_ns_ok (D := D) (PvtKey ns coll key)), coll_pvt_ok, Hc]).
  cbn [mbind outcome_bind]. destruct (σ !! (derivePvtDataNs ns coll, key)) as [vv|] eqn:Eσ; [|by exists p].
  destruct (AreSame _ _); [by exists p|]. case_bool_decide; [|by exists p].
  assert (Hl : live vv = Some vv) by (by eapply view_live; [apply Hview|]). unfold live, IsDelete in Hl.
  destruct (vv_Value vv) as [v|]; [|done]. destruct (UpdateMap_Get_Put ns coll key v (vv_Version hv) p) as (p' & -> & Hg).
  exists p'. split; [done|]. constructor.
  - intros n c k v' Hw. rewrite Hg. case_decide as E; [|by apply Hp]. injection E as -> -> ->. by rewrite (pu_written _ Hp _ _ _ _ Hw) in Ep.
  - intros n c k vv'. rewrite Hg. case_decide as E; [|by apply Hp]. injection E as -> -> ->. by intros [= <-].
Qed.

Lemma increments_ok (l : list (bytes * bytes * bytes)) (p : UpdateMap) :
  (forall ns coll key, (ns, coll, key) ∈ l -> coll_ok ns coll) -> pvt_updates_ok p ->
  exists p', for_range (incrementPvtdataVersion u db) l p = Ret p' /\ pvt_updates_ok p'.
Proof.
  revert p. induction l as [|[[ns coll] key] l IH]; intros p Hl Hp; [by exists p|]. cbn [for_range].
  destruct (increment_ok ns coll key p) as (p1 & -> & H1); [apply (Hl ns coll key); by left|done|]. cbn [mbind outcome_bind].
  apply IH; [|done]. intros n c k Hin. apply (Hl n c k). by right.
Qed.

(** The batch of the transaction, and the state it leads to. *)
Lemma tx_batch_applied (σ' : state) (wr del : list compositeKey) (p : UpdateMap) (hh : option Height) :
  updates_inv u σ σ' wr del -> Height_wf h -> pvt_updates_ok p ->
  exists db' σ'', ApplyPrivacyAwareUpdates (mkPrivUpdateBatch (publicUpdates u) (hashUpdates u) p) hh db = (Ret tt, db') /\ db_view db' σ'' /\
    (forall ck, dk_ok (key_of ck) -> σ'' !! loc (D := D) (key_of ck) = σ' !! loc (D := D) (key_of ck)) /\
    (forall ns coll key v, pvt_at (ns, coll, key) plog = Some v ->
       σ'' !! loc (D := D) (PvtKey ns coll key) = (fun v => mkVersionedValue (Some v) [] h) <$> v).
Proof.
  intros Hi Hh Hp. set (b := mkPrivUpdateBatch _ _ _).
  assert (Hb : updates_ok b).
  { intros k vv E. destruct k as [ns key|ns coll key|ns coll key]; cbn [upd_get b PubUpdates HashUpdates PvtUpdates] in E.
    - by apply (ui_keys _ _ _ _ _ Hi (PubKey ns key)).
    - by apply (ui_keys _ _ _ _ _ Hi (HashKey ns coll key)).
    - destruct (pu_keys _ Hp _ _ _ _ E) as [Hc ->]. split; [by apply coll_pvt_ok|done]. }
  destruct (ApplyPrivacyAwareUpdates_ok db σ b hh Hview Hb) as (db' & Ea & Hv'). exists db'. eexists. split; [exact Ea|]. split; [exact Hv'|]. split.
  - intros ck Hk. rewrite combined_apply by done. rewrite (ui_state _ _ _ _ _ Hi), combined_apply by (done || by eapply updates_inv_ok).
    pose proof (key_of_not_pvt ck) as Hn. by destruct (key_of ck).
  - intros ns coll key v Hw. pose proof (pu_written _ Hp _ _ _ _ Hw) as Eg. destruct (pu_keys _ Hp _ _ _ _ Eg) as [Hc _].
    rewrite combined_apply by (done || by apply coll_pvt_ok). cbn [upd_get b PvtUpdates]. rewrite Eg. by destruct v.
Qed.

End PvtUpdates.

(** ** A block with one endorser transaction *)

Section Pipeline.
Context {PR : Protos} {PO : ProtosOk} {SP : StateProtos} {SO : StateProtosOk}.
Context {D : Type} {VD : VersionedDB D} {QD : QueryDB D} {VO : VersionedDBOk D} {QO : QueryDBOk D} {CC : DeployedChaincodeInfoProvider}.
Variable hashFunc : bytes -> outcome bytes.
Hypothesis hash_total : forall b, exists h, hashFunc b = Ret h.
Variable processors : Z -> option (CustomTxProcessor (D := D)).

(** The block [blk] carries one endorser transaction, not marked as invalid, with the
    results [results]. *)
Record endorser_block (blk : Block) (results : bytes) : Prop := {
  eb_num : is_u64 (Number (Block_Header blk));
  eb_flags : block_flags blk = Ret [Byte.x00];
  eb_tx : exists d env chdr act, Block_Data blk = [d] /\ tx_header d = Ret (env, chdr) /\
    ChannelHeader_Type chdr = HeaderType_ENDORSER_TRANSACTION /\ GetActionFromEnvelope d = Ret act /\ ChaincodeAction_Results act = results }.

Lemma set_block_flags_same (blk : Block) (flags : bytes) : block_flags blk = Ret flags -> set_block_flags flags blk = blk.
Proof.
  unfold block_flags, set_block_flags, go_index. destruct blk as [hd data [md|]]; [|done]. cbn.
  destruct (md !! BlockMetadataIndex_TRANSACTIONS_FILTER) eqn:E; [|done]. intros [= ->]. by rewrite list_insert_id.
Qed.

Lemma preprocess_endorser_tx (d : bytes) (env : Envelope) (chdr : ChannelHeader) (act : ChaincodeAction) (rwset : TxRwSet) (doMVCCValidation : bool) :
  tx_header d = Ret (env, chdr) -> ChannelHeader_Type chdr = HeaderType_ENDORSER_TRANSACTION ->
  GetActionFromEnvelope d = Ret act -> ChaincodeAction_Results act = TxRwSet_ToProtoBytes rwset -> validateWriteset (D := D) rwset = Ret tt ->
  exists stat, preprocess_tx hashFunc processors doMVCCValidation 0 d [Byte.x00] =
    (Ret (stat, Some (mktransaction 0 (ChannelHeader_TxId chdr) rwset TxValidationCode_VALID false)), [Byte.x00]).
Proof.
  intros Eh Et Ea Er Hw. eexists. unfold preprocess_tx. rewrite Eh.
  unfold mbind at 1, M_bind at 1, get_state, lift_outcome. cbn [IsInvalid IsValid IsSetTo Flag go_index lookup list_lookup mbind outcome_bind].
  unfold mbind, M_bind. change (negb (b2z Byte.x00 =? TxValidationCode_VALID)) with false. cbn [fst snd]. unfold tx_rwset_of. rewrite Et, Z.eqb_refl, Ea, Er.
  unfold TxRwSet_ToProtoBytes, TxRwSet_FromProtoBytes. rewrite proto_Unmarshal_Marshal. cbn [mbind outcome_bind]. rewrite TxRwSet_roundtrip.
  cbn [mret M_ret]. rewrite Hw. reflexivity.
Qed.

Lemma preprocess_endorser (blk : Block) (rwset : TxRwSet) (doMVCCValidation : bool) :
  endorser_block blk (TxRwSet_ToProtoBytes rwset) -> validateWriteset (D := D) rwset = Ret tt ->
  exists id stat, preprocessProtoBlock hashFunc processors blk doMVCCValidation =
    Ret (mkblock (Number (Block_Header blk)) [mktransaction 0 id rwset TxValidationCode_VALID false], [stat], blk).
Proof.
  intros [Hn Hf (d & env & chdr & act & Ed & Eh & Et & Ea & Er)] Hw.
  destruct (preprocess_endorser_tx d env chdr act rwset doMVCCValidation Eh Et Ea Er Hw) as (stat & E).
  exists (ChannelHeader_TxId chdr), stat. unfold preprocessProtoBlock. rewrite Hf, Ed. cbn [mbind outcome_bind preprocess_txs].
  unfold mbind, M_bind. rewrite E. cbn. by rewrite set_block_flags_same.
Qed.

(** The flag of the valid transaction is already set. *)
Lemma postprocess_endorser (blk : Block) (results : bytes) (num : Z) (id : bytes) (rwset : TxRwSet) (stat : TxStatInfo) :
  endorser_block blk results ->
  postprocessProtoBlock blk (mkblock num [mktransaction 0 id rwset TxValidationCode_VALID false]) = Ret blk /\
  exists stat', stat_codes [Byte.x00] [stat] = Ret [stat'] /\ si_ValidationCode stat' = TxValidationCode_VALID.
Proof.
  intros [_ Hf _]. split.
  - pose proof (set_block_flags_same blk _ Hf) as Hs. unfold postprocessProtoBlock. rewrite Hf.
    cbn [mbind outcome_bind]. change (_ = Ret blk) with (Ret (set_block_flags [Byte.x00] blk) = Ret blk). by rewrite Hs.
  - eexists. by split.
Qed.

(** The private data of the results, as gossip would supply it. *)
Definition supplied (pvt : option TxPvtReadWriteSet) : gmap Z TxPvtData :=
  match pvt with Some ws => {[0 := mkTxPvtData 0 (Some ws)]} | None => ∅ end.

Lemma for_range_single {A S} (f : A -> S -> outcome S) (a : A) (s s' : S) : f a s = Ret s' -> for_range f [a] s = Ret s'.
Proof. intros E. cbn. by rewrite E. Qed.

Lemma pvt_batch_ok (db : DB D) (σ : state) (u : publicAndHashUpdates) (num : Z) (id : bytes) (b : RWSetBuilder) (keys : list bytes)
    (plog : list (bytes * bytes * bytes * option bytes)) Pread Pquery :
  let tx := mktransaction 0 id (GetTxReadWriteSet (with_hashes b)) TxValidationCode_VALID false in
  db_view db σ -> (forall k vv, upd u k = Some vv -> vv_Version vv = mkHeight num 0) ->
  pvt_logged coll_ok b plog -> builder_ok Pread Pquery keys (with_hashes b) -> Forall (fun x => snd x <> Some []) plog ->
  exists p, validateAndPreparePvtBatch (mkblock num [tx]) db u (supplied (PvtSimulationResults (fst (builder_GetTxSimulationResults b)))) = Ret p /\
    pvt_updates_ok (mkHeight num 0) plog p.
Proof.
  intros tx Hv Hu Hp Hb Hne. unfold validateAndPreparePvtBatch. cbn [blk_num blk_txs].
  assert (Hstep : exists p m, add_tx_pvtdata num (supplied (PvtSimulationResults (fst (builder_GetTxSimulationResults b)))) tx (∅, ∅) = Ret (p, m) /\
    pvt_updates_ok (mkHeight num 0) plog p /\ forall ns coll key, (ns, coll, key) ∈ m -> coll_ok ns coll).
  { unfold add_tx_pvtdata. cbn [tx_validationCode tx]. rewrite Z.eqb_refl. cbn [negb]. fold tx. change (u64 (tx_indexInBlock tx)) with 0.
    unfold builder_GetTxSimulationResults. cbn [fst PvtSimulationResults]. destruct (getTxPvtReadWriteSet b) as [t|] eqn:Et.
    - assert (Hhash : forall ns coll p, (ns, coll, p) ∈ pvt_colls (TxPvtReadWriteSet_NsPvtRwset (TxPvtRwSet_ToProtoMsg t)) -> retrieveHash tx ns coll = Sum256 p).
      { intros ns coll p Hin. rewrite (retrieveHash_builder Pread Pquery keys (with_hashes b)) by done. by eapply with_hashes_at. }
      destruct (containsPvtWrites tx) eqn:Ec; cbn [negb].
      + cbn [fmap option_fmap option_map supplied]. rewrite lookup_singleton_eq. cbn [requiresPvtdataValidation WriteSet].
        rewrite validatePvtdata_ok by (cbn; intros ws [= <-]; done). cbn [mbind outcome_bind]. rewrite TxPvtRwSet_roundtrip. cbn [mbind outcome_bind].
        rewrite addPvtRWSet_flat. destruct (put_pvt_list (NewHeight num 0) (pvt_list t) ∅) as (p & -> & Hg).
        { by eapply (pvt_list_values coll_ok b plog). }
        cbn [mbind outcome_bind]. exists p. eexists. split; [reflexivity|]. split.
        * constructor; intros ns coll key v; rewrite Hg, (pvt_list_builder coll_ok b plog Hp t _ Et); [by intros ->|].
          destruct (pvt_at (ns, coll, key) plog) as [x|] eqn:Ex; [|done]. intros [= <-]. split; [|done]. by apply (pvt_at_coll coll_ok b plog Hp _ _ key x).
        * intros ns coll key. by apply (pvt_metadata_keys coll_ok b plog Hp).
      + exists ∅, ∅. split; [done|]. split; [|intros ns coll key Hin; by apply elem_of_empty in Hin].
        constructor; intros ns coll key v; [|done]. intros Hw. exfalso.
        destruct (pvt_colls_in coll_ok b plog Hp t ns coll key v Et Hw) as (p & Hin). apply Hhash in Hin.
        assert (Hc : containsPvtWrites tx = true); [|congruence]. apply (retrieveHash_contains tx ns coll). rewrite Hin. apply Sum256_not_empty.
    - cbn [fmap option_fmap option_map supplied]. rewrite lookup_empty. exists ∅, ∅. split; [by destruct (negb _)|].
      split; [|intros ns coll key Hin; by apply elem_of_empty in Hin]. constructor; intros ns coll key v; [|done]. intros Hw. exfalso.
      destruct (pvt_at_set coll_ok b plog Hp _ _ Hw) as (t & E). congruence. }
  destruct Hstep as (p & m & Es & Hpu & Hm). rewrite (for_range_single _ _ _ _ Es). cbn [mbind outcome_bind].
  apply (increments_ok db σ Hv u (mkHeight num 0) Hu plog); [|done]. intros ns coll key Hin%elem_of_elements. by eapply Hm.
Qed.

(** *** A simulation and its block *)

(** The database and the calls are as the simulator expects them. *)
Record simulation (db : DB D) (σ : state) (keys : list bytes) (calls : list call) : Prop := {
  sm_view : db_view db σ;
  sm_keys : forall ns, σ !! (ns, []) = None;
  sm_distinct : forall k k', k ∈ keys -> k' ∈ keys -> Sum256 k = Sum256 k' -> k = k';
  sm_provider : forall ns, reader_ok (AllCollectionsConfigPkg ns);
  sm_calls : Forall (call_ok (D := D) σ keys) calls;
  sm_closed : reads_before_close calls }.

Lemma for_range_unit {A} (f : A -> unit -> outcome unit) (l : list A) : (forall a, a ∈ l -> f a tt = Ret tt) -> for_range f l tt = Ret tt.
Proof.
  induction l as [|a l IH]; intros H; [done|]. cbn [for_range]. rewrite H by (by left). cbn [mbind outcome_bind]. apply IH. intros; apply H. by right.
Qed.

Lemma validateWriteset_sim (Pread : data_key -> option Height -> Prop) (Pquery : bytes -> RangeQueryInfo -> Prop) (σ : state) (keys : list bytes) (acc : list call) (b : RWSetBuilder) :
  Forall (call_valid (D := D)) acc -> Forall (call_ok (D := D) σ keys) acc -> builder_ok Pread Pquery keys b -> logged keys b (acc ≫= call_writes) ->
  validateWriteset (D := D) (GetTxReadWriteSet b) = Ret tt.
Proof.
  intros Hv Hok Hb Hl. rewrite Forall_forall in Hv, Hok. apply for_range_unit. intros n Hn. apply for_range_unit. intros w Hw.
  destruct (set_public_writes Pread Pquery keys b _ n w Hb Hl Hn Hw) as [Hin Hd]. apply list_elem_of_bind in Hin as (c & Hx & Hc).
  specialize (Hv c Hc). specialize (Hok c Hc). unfold write_of in Hx.
  destruct c; cbn [call_writes] in Hx; try (by apply not_elem_of_nil in Hx); apply list_elem_of_singleton in Hx.
  - injection Hx as E1 E2 E3. subst key. cbn in Hv. destruct (KVWrite_IsDelete w); destruct value as [v|]; cbn in E3; try done.
    + by rewrite Hd.
    + by injection E3 as ->.
  - injection Hx as E1 E2 E3. by destruct (KVWrite_IsDelete w).
  - injection Hx as _ E2 _ _. by destruct Hok as [[Hne _] _].
  - injection Hx as _ E2 _ _. by destruct Hok as [[Hne _] _].
Qed.

Lemma pvt_values_ok (σ : state) (keys : list bytes) (acc : list call) :
  Forall (call_ok (D := D) σ keys) acc -> Forall (fun x => snd x <> Some []) (acc ≫= call_pvt).
Proof.
  rewrite !Forall_forall. intros Hok x (c & Hx & Hc)%list_elem_of_bind. specialize (Hok c Hc).
  destruct c; cbn [call_pvt] in Hx; try (by apply not_elem_of_nil in Hx). apply list_elem_of_singleton in Hx as ->. apply Hok.
Qed.

Lemma simulation_commits (db : DB D) (σ : state) (keys : list bytes) (calls acc : list call) (s : txSimulator) :
  simulation db σ keys calls -> run_calls hashFunc db calls newTxSimulator = Ret (s, acc) ->
  forallb itr_started (qe_itrs (s_queryExecutor s)) = true ->
  exists res s', sim_GetTxSimulationResults hashFunc s = (Ret res, s') /\
  forall (blk : Block) (doMVCCValidation : bool) (h : option Height), endorser_block blk (Marshal (PubSimulationResults res)) ->
  exists f0 batch stat db' db'' σ',
    (forall fuel, (f0 <= fuel)%nat ->
       ValidateAndPrepareBatch hashFunc processors fuel (mkBlockAndPvtData blk (supplied (PvtSimulationResults res))) doMVCCValidation db =
         (Ret (batch, [stat], blk), db')) /\
    si_ValidationCode stat = TxValidationCode_VALID /\
    ApplyPrivacyAwareUpdates batch h db' = (Ret tt, db'') /\ db_view db'' σ' /\
    (forall ck, dk_ok (key_of ck) -> σ' !! loc (D := D) (key_of ck) =
       fold_left (fun cur w => write_value (mkHeight (Number (Block_Header blk)) 0) w cur) (collapse (writes_at ck (acc ≫= call_writes)))
         (σ !! loc (D := D) (key_of ck))) /\
    (forall ns coll key v, pvt_at (ns, coll, key) (acc ≫= call_pvt) = Some v ->
       σ' !! loc (D := D) (PvtKey ns coll key) = (fun v => mkVersionedValue (Some v) [] (mkHeight (Number (Block_Header blk)) 0)) <$> v).
Proof.
  intros [Hv Hk Hd Hpr Hc Hcl] Hrun Hst.
  destruct (simulation_ok hashFunc hash_total db σ Hv Hk keys Hd Hpr calls acc s Hc Hcl Hrun Hst) as (b & s' & E & Hp & Hb & Hl & Hcur & Hw).
  destruct (run_calls_valid hashFunc db calls acc newTxSimulator s Hrun) as [Hval Hsub].
  assert (Hacc : Forall (call_ok (D := D) σ keys) acc) by (apply Forall_forall; intros c Hin; rewrite Forall_forall in Hc; by apply Hc, Hsub).
  exists (fst (builder_GetTxSimulationResults b)), s'. split; [done|]. intros blk doMVCCValidation h Hblk.
  destruct (preprocess_endorser blk (GetTxReadWriteSet (with_hashes b)) doMVCCValidation Hblk) as (id & stat & Epre).
  { by eapply validateWriteset_sim. }
  set (num := Number (Block_Header blk)) in *. set (tx := mktransaction 0 id _ _ _) in Epre.
  destruct (tx_current_valid hashFunc hash_total num tx db σ doMVCCValidation Hv (eb_num _ _ Hblk) Hcur) as (f0 & u & db' & Hval' & Hv' & Hi & Hver).
  destruct (pvt_batch_ok db' σ u num id b keys (acc ≫= call_pvt) _ _ Hv' Hver Hp Hb) as (p & Epvt & Hpu).
  { by eapply pvt_values_ok. }
  destruct (postprocess_endorser blk _ num id (GetTxReadWriteSet (with_hashes b)) stat Hblk) as [Epost (stat' & Est & Hcode)].
  destruct (tx_batch_applied db' σ Hv' u (mkHeight num 0) (acc ≫= call_pvt) _ _ _ p h Hi) as (db'' & σ' & Ea & Hv'' & Hpub & Hpvt); [|done|].
  { split; [apply Hblk|by split]. }
  exists f0, (mkPrivUpdateBatch (publicUpdates u) (hashUpdates u) p), stat', db', db'', σ'. split; [|split; [done|split; [done|split; [done|split; [|done]]]]].
  - intros fuel Hf. unfold ValidateAndPrepareBatch, mbind, M_bind, lift_outcome, get_state. cbn [bp_Block bp_PvtData].
    rewrite Epre. rewrite Hval' by done. change (set_code TxValidationCode_VALID tx) with (mktransaction 0 id (GetTxReadWriteSet (with_hashes b)) TxValidationCode_VALID false).
    rewrite Epvt, Epost, (eb_flags _ _ Hblk), Est. done.
  - intros ck Hck. rewrite Hpub by done. rewrite exec_at by (done || apply Hcur). by rewrite Hw.
Qed.

End Pipeline.
