(* ===== verification/PurgeMgr.v ===== *)
(** * Expiry of private data

    src/core/ledger/pvtdatapolicy/btlpolicy.go and
    src/core/ledger/kvledger/txmgmt/pvtstatepurgemgmt: private data and their hashes
    live for the number of blocks their collection is configured with.  A schedule in
    the bookkeeping database (expiry_keeper.go) records what was committed with which
    block (expiry_schedule_builder.go, pvtdata_key_helper.go); with the commit of the
    block at which they expire, the keys are deleted (purge_mgr.go). *)

From S2P Require Import Prelude Wire OrderedCode LevelDB Sha256 Proto StateProto StateDB PrivState.

(** ** The block-to-live policy *)

Definition ComputeExpiringBlock (committingBlock btl : Z) : Z :=
  let expiryBlk := u64 (committingBlock + btl + 1) in
  if expiryBlk <=? committingBlock then MaxUint64 else expiryBlk.

Class BTLPolicy : Type := GetBTL : bytes -> bytes -> outcome Z.

Definition GetExpiringBlock `{!BTLPolicy} (namespace collection : bytes) (committingBlock : Z) : outcome Z :=
  btl ← GetBTL namespace collection;
  Ret (ComputeExpiringBlock committingBlock btl).

Definition defaultBTL : Z := MaxUint64.

(** [LSCCBasedBTLPolicy]: the configured value of a collection, [None] where there is
    no such collection, is asked for once and kept in a cache. *)
Section LSCC.
Variable CollectionInfo : bytes -> bytes -> outcome (option Z).

Definition btl_configured (btlConfigured : Z) : Z := if 0 <? btlConfigured then btlConfigured else defaultBTL.

Definition lscc_GetBTL (namespace collection : bytes) : M (gmap (bytes * bytes) Z) Z := fun cache =>
  match cache !! (namespace, collection) with
  | Some btl => (Ret btl, cache)
  | None =>
      match CollectionInfo namespace collection with
      | Panic msg => (Panic msg, cache)
      | Err e => (Err e, cache)
      | Ret None => (Err (Errorf "collection not defined"), cache)
      | Ret (Some btlConfigured) =>
          let btl := btl_configured btlConfigured in
          (Ret btl, <[(namespace, collection) := btl]> cache)
      end
  end.

Definition lscc_GetExpiringBlock (namespace collection : bytes) (committingBlock : Z) : M (gmap (bytes * bytes) Z) Z :=
  btl ← lscc_GetBTL namespace collection;
  mret (ComputeExpiringBlock committingBlock btl).

(** The policy without the cache. *)
Definition lscc_policy : BTLPolicy := fun namespace collection =>
  btlConfigured ← CollectionInfo namespace collection;
  match btlConfigured with
  | None => Err (Errorf "collection not defined")
  | Some btlConfigured => Ret (btl_configured btlConfigured)
  end.

End LSCC.

(** ** Keys of private data (pvtdata_key.proto, pvtdata_key_helper.go) *)

Record KeyAndHash := mkKeyAndHash {
  kh_Key : bytes;
  kh_Hash : bytes }.

#[global] Instance KeyAndHash_eq_dec : EqDecision KeyAndHash.
Proof. solve_decision. Defined.

#[global] Instance KeyAndHash_wire : Wire KeyAndHash.
Proof. refine (wire_iso (fun m => (kh_Key m, kh_Hash m)) (fun '(a, b) => mkKeyAndHash a b) _). by intros []. Defined.

(** What goes over the wire: the keys by name space and collection. *)
Abbreviation PvtdataKeysMsg := (gmap bytes (gmap bytes (list KeyAndHash))).

(** In memory a map can be nil, which can be read but not written. *)
Abbreviation Collections := (option (gmap bytes (list KeyAndHash))).
Abbreviation PvtdataKeys := (option (gmap bytes Collections)).

(** A map without entries is decoded as nil. *)
Definition go_map_of {A} (m : gmap bytes A) : option (gmap bytes A) := if bool_decide (dom m = ∅) then None else Some m.

Definition of_wire (m : PvtdataKeysMsg) : PvtdataKeys := go_map_of (go_map_of <$> m).
Definition to_wire (m : PvtdataKeys) : PvtdataKeysMsg := default ∅ <$> default ∅ m.

Definition newPvtdataKeys : PvtdataKeys := Some ∅.
Definition newCollections : Collections := Some ∅.

Definition PvtdataKeys_add (ns coll key keyhash : bytes) (pvtdataKeys : PvtdataKeys) : outcome PvtdataKeys :=
  match pvtdataKeys with
  | None => Panic "assignment to entry in nil map"
  | Some m =>
      match default newCollections (m !! ns) with
      | None => Panic "assignment to entry in nil map"
      | Some colls =>
          let keysAndHashes := default [] (colls !! coll) in
          Ret (Some (<[ns := Some (<[coll := keysAndHashes ++ [mkKeyAndHash key keyhash]]> colls)]> m))
      end
  end.

(** The entries, name space by name space and collection by collection. *)
Definition PvtdataKeys_list (m : PvtdataKeys) : list (bytes * bytes * KeyAndHash) :=
  map_to_list (to_wire m) ≫= fun '(ns, colls) => map_to_list colls ≫= fun '(coll, l) => (fun k => (ns, coll, k)) <$> l.

Definition PvtdataKeys_addAll (toAdd : PvtdataKeys) (pvtdataKeys : PvtdataKeys) : outcome PvtdataKeys :=
  for_range (fun '(ns, coll, k) m => PvtdataKeys_add ns coll (kh_Key k) (kh_Hash k) m) (PvtdataKeys_list toAdd) pvtdataKeys.

(** ** The schedule of a batch (expiry_schedule_builder.go) *)

Record expiryInfoKey := mkexpiryInfoKey {
  ek_committingBlk : Z;
  ek_expiryBlk : Z }.

#[global] Instance expiryInfoKey_eq_dec : EqDecision expiryInfoKey.
Proof. solve_decision. Defined.

#[global] Instance expiryInfoKey_countable : Countable expiryInfoKey.
Proof. refine (inj_countable' (fun m => (ek_committingBlk m, ek_expiryBlk m)) (fun '(a, b) => mkexpiryInfoKey a b) _). by intros []. Defined.

Abbreviation expiryInfo := (expiryInfoKey * PvtdataKeys)%type.

Definition neverExpires (expiryBlk : Z) : bool := expiryBlk =? MaxUint64.

Section Builder.
Context {BP : BTLPolicy}.

Abbreviation scheduleEntries := (gmap expiryInfoKey PvtdataKeys).

Definition schedule_add (ns coll key keyHash : bytes) (versionedValue : VersionedValue) (b : scheduleEntries) : outcome scheduleEntries :=
  let committingBlk := BlockNum (vv_Version versionedValue) in
  expiryBlk ← GetExpiringBlock ns coll committingBlk;
  if IsDelete versionedValue || neverExpires expiryBlk then Ret b else
  let expinfoKey := mkexpiryInfoKey committingBlk expiryBlk in
  pvtdataKeys ← PvtdataKeys_add ns coll key keyHash (default newPvtdataKeys (b !! expinfoKey));
  Ret (<[expinfoKey := pvtdataKeys]> b).

Definition getExpiryInfo (b : scheduleEntries) : list expiryInfo := map_to_list b.

(** The private keys, whose hashes need no entry of their own. *)
Definition schedule_pvt (k : bytes * bytes * bytes) (vv : VersionedValue) (acc : scheduleEntries * gmap (bytes * bytes * bytes) VersionedValue) :
    outcome (scheduleEntries * gmap (bytes * bytes * bytes) VersionedValue) :=
  let '(ns, coll, key) := k in
  let '(b, hashedUpdateKeys) := acc in
  let keyHash := Sum256 key in
  b ← schedule_add ns coll key keyHash vv b;
  Ret (b, delete (ns, coll, keyHash) hashedUpdateKeys).

Definition buildExpirySchedule (pvtUpdates hashedUpdates : UpdateMap) : outcome (list expiryInfo) :=
  '(b, hashedUpdateKeys) ← for_range (fun '(k, vv) => schedule_pvt k vv) (map_to_list (ToCompositeKeyMap pvtUpdates)) (∅, ToCompositeKeyMap hashedUpdates);
  b ← for_range (fun '((ns, coll, keyHash), vv) => schedule_add ns coll [] keyHash vv) (map_to_list hashedUpdateKeys) b;
  Ret (getExpiryInfo b).

End Builder.

(** ** The schedule in the bookkeeping database (expiry_keeper.go) *)

Definition expiryPrefix : byte := Byte.x31.

Definition encodeExpiryInfoKey (expinfoKey : expiryInfoKey) : bytes :=
  expiryPrefix :: EncodeOrderPreservingVarUint64 (ek_expiryBlk expinfoKey) ++ EncodeOrderPreservingVarUint64 (ek_committingBlk expinfoKey).

Section Keeper.
Context {PK : Codec PvtdataKeysMsg}.

Definition encodeExpiryInfoValue (pvtdataKeys : PvtdataKeys) : bytes := Marshal (to_wire pvtdataKeys).

Definition decodeExpiryInfo (key value : bytes) : outcome expiryInfo :=
  match key with
  | [] => Panic "slice bounds out of range"
  | _ :: k =>
      '(expiryBlk, n) ← DecodeOrderPreservingVarUint64 k;
      '(committingBlk, _) ← DecodeOrderPreservingVarUint64 (drop (Z.to_nat n) k);
      pvtdataKeys ← proto_Unmarshal (A := PvtdataKeysMsg) value;
      Ret (mkexpiryInfoKey committingBlk expiryBlk, of_wire pvtdataKeys)
  end.

Definition keeper_update (toTrack : list expiryInfo) (toClear : list expiryInfoKey) (ek : kvmap) : kvmap :=
  DB_WriteBatch (((fun '(k, v) => (encodeExpiryInfoKey k, Some (encodeExpiryInfoValue v))) <$> toTrack) ++
    ((fun k => (encodeExpiryInfoKey k, None)) <$> toClear)) ek.

Fixpoint decode_all (l : list (bytes * bytes)) : outcome (list expiryInfo) :=
  match l with
  | [] => Ret []
  | (k, v) :: l' => expinfo ← decodeExpiryInfo k v; rest ← decode_all l'; Ret (expinfo :: rest)
  end.

Definition keeper_retrieve (expiringAtBlkNum : Z) (ek : kvmap) : outcome (list expiryInfo) :=
  let startKey := encodeExpiryInfoKey (mkexpiryInfoKey 0 expiringAtBlkNum) in
  let endKey := encodeExpiryInfoKey (mkexpiryInfoKey 0 (u64 (expiringAtBlkNum + 1))) in
  decode_all (range_scan ek startKey (Some endKey)).

(** A missing entry is read as the empty string. *)
Definition retrieveByExpiryKey (expiryKey : expiryInfoKey) (ek : kvmap) : outcome expiryInfo :=
  let key := encodeExpiryInfoKey expiryKey in
  decodeExpiryInfo key (default [] (ek !! key)).

(** snapshot_purge_mgr_builder.go: the hashes of an imported snapshot. *)
Definition ConsumeSnapshotData `{!BTLPolicy} (namespace coll keyHash : bytes) (version : Height) (ek : kvmap) : outcome kvmap :=
  let committingBlk := BlockNum version in
  expiringBlock ← GetExpiringBlock namespace coll committingBlk;
  if neverExpires expiringBlock then Ret ek else
  let key := mkexpiryInfoKey committingBlk expiringBlock in
  '(k, pvtdataKeys) ← retrieveByExpiryKey key ek;
  let pvtdataKeys := match pvtdataKeys with None => newPvtdataKeys | Some m => Some m end in
  pvtdataKeys ← PvtdataKeys_add namespace coll [] keyHash pvtdataKeys;
  Ret (keeper_update [(k, pvtdataKeys)] [] ek).

End Keeper.

(** ** The purge manager (purge_mgr.go) *)

Record keyAndVersion := mkkeyAndVersion {
  kv_key : bytes;
  kv_committingBlock : Z;
  kv_purgeKeyOnly : bool }.

Abbreviation expiryInfoMap := (gmap (bytes * bytes * bytes) keyAndVersion).

Record workingset := mkworkingset {
  ws_toPurge : expiryInfoMap;
  ws_toClearFromSchedule : list expiryInfoKey;
  ws_expiringBlk : Z;
  ws_err : option error }.

Record PurgeMgr := mkPurgeMgr {
  pm_expKeeper : kvmap;
  pm_workingset : option workingset }.

Definition sameVersion (version : option Height) (blockNum : Z) : bool :=
  match version with Some v => BlockNum v =? blockNum | None => false end.

Definition sameVersionFromVal (vv : option VersionedValue) (blockNum : Z) : bool :=
  match vv with Some vv => sameVersion (Some (vv_Version vv)) blockNum | None => false end.

(** A key hash that occurs again replaces the earlier entry. *)
Definition transformToExpiryInfoMap (expiryInfos : list expiryInfo) : expiryInfoMap :=
  fold_left (fun m '(k, x) => <[k := x]> m)
    (expiryInfos ≫= fun '(key, pvtdataKeys) =>
      (fun '(ns, coll, k) => ((ns, coll, kh_Hash k), mkkeyAndVersion (kh_Key k) (ek_committingBlk key) false)) <$> PvtdataKeys_list pvtdataKeys) ∅.

Section Purge.
Context {BP : BTLPolicy} {PK : Codec PvtdataKeysMsg} {D : Type} {VD : VersionedDB D}.

(** All the pointers are to the one loop variable, which ends up as the last key. *)
Definition preloadCommittedVersionsInCache (expInfoMap : expiryInfoMap) : M (DB D) unit :=
  if negb (is_Some_b (LoadCommittedVersions (D := D))) then mret tt else
  let keys := (map_to_list expInfoMap).*1 in
  LoadCommittedVersionsOfPubAndHashedKeys [] (match last keys with Some k => replicate (length keys) k | None => [] end).

(** What becomes of an entry of the purge list: kept, kept for the private key only,
    or removed. *)
Definition evaluate_entry (db : DB D) (k : bytes * bytes * bytes) (v : keyAndVersion) : outcome (option keyAndVersion) :=
  let '(ns, coll, keyHash) := k in
  currentVersion ← GetKeyHashVersion db ns coll keyHash;
  if sameVersion currentVersion (kv_committingBlock v) then Ret (Some v) else
  if bool_decide (kv_key v = []) then Ret None else
  committedPvtVerVal ← GetPrivateData db ns coll (kv_key v);
  if sameVersionFromVal committedPvtVerVal (kv_committingBlock v)
  then Ret (Some (mkkeyAndVersion (kv_key v) (kv_committingBlock v) true)) else Ret None.

(** The loop over the purge list, with the schedule entries to clear. *)
Fixpoint evaluate_entries (db : DB D) (expiringAtBlk : Z) (l : list (bytes * bytes * bytes * keyAndVersion)) :
    outcome (expiryInfoMap * list expiryInfoKey) :=
  match l with
  | [] => Ret (∅, [])
  | (k, v) :: l' =>
      r ← evaluate_entry db k v;
      '(toPurge, toClear) ← evaluate_entries db expiringAtBlk l';
      Ret (match r with Some v' => <[k := v']> toPurge | None => toPurge end,
           mkexpiryInfoKey (kv_committingBlock v) expiringAtBlk :: toClear)
  end.

(** Errors are kept in the working set. *)
Definition prepareWorkingsetFor (expiringAtBlk : Z) (expKeeper : kvmap) : M (DB D) workingset := fun db =>
  match keeper_retrieve expiringAtBlk expKeeper with
  | Panic msg => (Panic msg, db)
  | Err e => (Ret (mkworkingset ∅ [] expiringAtBlk (Some e)), db)
  | Ret expiryInfos =>
      let toPurge := transformToExpiryInfoMap expiryInfos in
      match preloadCommittedVersionsInCache toPurge db with
      | (Panic msg, db) => (Panic msg, db)
      | (Err e, db) => (Ret (mkworkingset ∅ [] expiringAtBlk (Some e)), db)
      | (Ret _, db) =>
          match evaluate_entries db expiringAtBlk (map_to_list toPurge) with
          | Panic msg => (Panic msg, db)
          | Err e => (Ret (mkworkingset ∅ [] expiringAtBlk (Some e)), db)
          | Ret (toPurge, toClear) => (Ret (mkworkingset toPurge toClear expiringAtBlk None), db)
          end
      end
  end.

(** The background routine holds the manager's lock from before the call returns
    until it is done, so its effect is there for whoever takes the lock next. *)
Definition PrepareForExpiringKeys (expiringAtBlk : Z) : M (DB D * PurgeMgr) unit := fun '(db, p) =>
  match prepareWorkingsetFor expiringAtBlk (pm_expKeeper p) db with
  | (Ret ws, db) => (Ret tt, (db, mkPurgeMgr (pm_expKeeper p) (Some ws)))
  | (Err e, db) => (Err e, (db, p))
  | (Panic msg, db) => (Panic msg, (db, p))
  end.

Definition UpdateExpiryInfo (pvtUpdates hashedUpdates : UpdateMap) (p : PurgeMgr) : outcome PurgeMgr :=
  expiryInfoUpdates ← buildExpirySchedule pvtUpdates hashedUpdates;
  Ret (mkPurgeMgr (keeper_update expiryInfoUpdates [] (pm_expKeeper p)) (pm_workingset p)).

(** A key of the purge list is deleted unless the batch updates it. *)
Definition add_expired (expiringBlk : Z) (x : bytes * bytes * bytes * keyAndVersion) (acc : UpdateMap * UpdateMap) : UpdateMap * UpdateMap :=
  let '((ns, coll, keyHash), v) := x in
  let '(pvtUpdates, hashedUpdates) := acc in
  let hashUpdated := UpdateMap_Contains hashedUpdates ns coll keyHash in
  let pvtKeyUpdated := UpdateMap_Contains pvtUpdates ns coll (kv_key v) in
  let expiringTxVersion := NewHeight expiringBlk MaxUint64 in
  let hashedUpdates :=
    if negb hashUpdated && negb (kv_purgeKeyOnly v) then UpdateMap_Delete ns coll keyHash expiringTxVersion hashedUpdates else hashedUpdates in
  let pvtUpdates :=
    if negb (bool_decide (kv_key v = [])) && negb pvtKeyUpdated then UpdateMap_Delete ns coll (kv_key v) expiringTxVersion pvtUpdates else pvtUpdates in
  (pvtUpdates, hashedUpdates).

Definition AddExpiredEntriesToUpdateBatch (p : PurgeMgr) (pvtUpdates hashedUpdates : UpdateMap) : outcome (UpdateMap * UpdateMap) :=
  match pm_workingset p with
  | None => Panic "nil pointer dereference"
  | Some ws =>
      match ws_err ws with
      | Some e => Err e
      | None => Ret (fold_left (fun acc x => add_expired (ws_expiringBlk ws) x acc) (map_to_list (ws_toPurge ws)) (pvtUpdates, hashedUpdates))
      end
  end.

Definition BlockCommitDone (p : PurgeMgr) : outcome PurgeMgr :=
  match pm_workingset p with
  | None => Panic "nil pointer dereference"
  | Some ws => Ret (mkPurgeMgr (keeper_update [] (ws_toClearFromSchedule ws) (pm_expKeeper p)) None)
  end.

Definition add_missing (k : bytes * bytes * bytes) (toPurge : expiryInfoMap) : expiryInfoMap :=
  let '(ns, coll, key) := k in
  let hashedCompositeKey := (ns, coll, Sum256 key) in
  match toPurge !! hashedCompositeKey with
  | None => toPurge
  | Some v =>
      if kv_purgeKeyOnly v then delete hashedCompositeKey toPurge
      else <[hashedCompositeKey := mkkeyAndVersion key (kv_committingBlock v) (kv_purgeKeyOnly v)]> toPurge
  end.

Definition addMissingPvtDataToWorkingSet (pvtKeys : list (bytes * bytes * bytes)) (ws : option workingset) : option workingset :=
  (fun ws => mkworkingset (fold_left (fun m k => add_missing k m) pvtKeys (ws_toPurge ws)) (ws_toClearFromSchedule ws) (ws_expiringBlk ws) (ws_err ws)) <$> ws.

(** The keys are added to the entry of their hash, which is in the schedule. *)
Fixpoint merge_entries (expKeeper : kvmap) (l : list expiryInfo) : outcome (list expiryInfo) :=
  match l with
  | [] => Ret []
  | (key, toAdd) :: l' =>
      '(k, pvtdataKeys) ← retrieveByExpiryKey key expKeeper;
      pvtdataKeys ← PvtdataKeys_addAll toAdd pvtdataKeys;
      rest ← merge_entries expKeeper l';
      Ret ((k, pvtdataKeys) :: rest)
  end.

Definition UpdateExpiryInfoOfPvtDataOfOldBlocks (pvtUpdates : UpdateMap) (p : PurgeMgr) : outcome PurgeMgr :=
  let keys := map_to_list (ToCompositeKeyMap pvtUpdates) in
  b ← for_range (fun '((ns, coll, key), vv) => schedule_add ns coll key (Sum256 key) vv) keys ∅;
  expiryInfoUpdates ← merge_entries (pm_expKeeper p) (getExpiryInfo b);
  Ret (mkPurgeMgr (keeper_update expiryInfoUpdates [] (pm_expKeeper p)) (addMissingPvtDataToWorkingSet keys.*1 (pm_workingset p))).

End Purge.
