(* ===== verification/PurgeMgrOk.v ===== *)
(** * Private data are deleted when they expire, and not before

    The schedule in the bookkeeping database lists every private key and key hash of
    the state under the block at which it expires ([expiry_inv]); the working set of
    a block is what expires with it ([ws_ok]). *)

From S2P Require Import Prelude OrderedCode LevelDB Sha256 Proto StateProto StateDB StateDBOk PrivState PrivStateOk ValidationOk PurgeMgr.

(** ** The expiring block *)

Lemma ComputeExpiringBlock_min (committingBlock btl : Z) :
  is_u64 committingBlock -> is_u64 btl -> ComputeExpiringBlock committingBlock btl = Z.min (committingBlock + btl + 1) MaxUint64.
Proof.
  unfold is_u64, ComputeExpiringBlock, MaxUint64, u64. intros Hc Hb.
  destruct (Z.lt_ge_cases (committingBlock + btl + 1) (2 ^ 64)) as [Hl|Hg].
  - rewrite Z.mod_small by lia. destruct (Z.leb_spec (committingBlock + btl + 1) committingBlock); lia.
  - rewrite (Z.mod_eq _ (2 ^ 64)) by lia. assert ((committingBlock + btl + 1) / 2 ^ 64 = 1) as -> by (Z.to_euclidean_division_equations; lia).
    destruct (Z.leb_spec (committingBlock + btl + 1 - 2 ^ 64 * 1) committingBlock); lia.
Qed.

Class BTLPolicyOk `{!BTLPolicy} : Prop := GetBTL_range : forall ns coll btl, GetBTL ns coll = Ret btl -> is_u64 btl.

Section Policy.
Context {BP : BTLPolicy} {BO : BTLPolicyOk}.

Lemma GetExpiringBlock_after (ns coll : bytes) (n e : Z) :
  is_u64 n -> GetExpiringBlock ns coll n = Ret e -> is_u64 e /\ (e = MaxUint64 \/ n < e).
Proof.
  intros Hn. unfold GetExpiringBlock. destruct (GetBTL ns coll) as [btl| |] eqn:E; [|done..]. intros [= <-].
  pose proof (GetBTL_range _ _ _ E) as Hb. rewrite ComputeExpiringBlock_min by done. unfold is_u64, MaxUint64 in *. lia.
Qed.

Lemma GetExpiringBlock_inj (ns coll : bytes) (n n' e : Z) :
  is_u64 n -> is_u64 n' -> e <> MaxUint64 -> GetExpiringBlock ns coll n = Ret e -> GetExpiringBlock ns coll n' = Ret e -> n = n'.
Proof.
  intros Hn Hn' He. unfold GetExpiringBlock. destruct (GetBTL ns coll) as [btl| |] eqn:E; [|done..].
  pose proof (GetBTL_range _ _ _ E) as Hb. cbn [mbind outcome_bind]. rewrite !ComputeExpiringBlock_min by done.
  intros [= E1] [= E2]. unfold is_u64, MaxUint64 in *. lia.
Qed.

End Policy.

(** The cache of the policy holds configured values. *)
Section LSCCOk.
Variable CollectionInfo : bytes -> bytes -> outcome (option Z).

Definition btl_cache_ok (cache : gmap (bytes * bytes) Z) : Prop :=
  forall ns coll btl, cache !! (ns, coll) = Some btl -> lscc_policy CollectionInfo ns coll = Ret btl.

Lemma lscc_GetBTL_policy (ns coll : bytes) (cache : gmap (bytes * bytes) Z) :
  btl_cache_ok cache ->
  fst (lscc_GetBTL CollectionInfo ns coll cache) = lscc_policy CollectionInfo ns coll /\ btl_cache_ok (snd (lscc_GetBTL CollectionInfo ns coll cache)).
Proof.
  intros Hc. unfold lscc_GetBTL. destruct (cache !! (ns, coll)) as [btl|] eqn:E; [by rewrite (Hc _ _ _ E)|].
  unfold lscc_policy. destruct (CollectionInfo ns coll) as [[b|]| |] eqn:Ei; cbn [fst snd mbind outcome_bind]; try done.
  split; [done|]. intros ns' coll' btl [[[= <- <-] <-]|[_ H]]%lookup_insert_Some; [|by apply Hc].
  unfold lscc_policy. by rewrite Ei.
Qed.

End LSCCOk.

(** ** Keys of private data *)

(** The entries of a collection. *)
Definition pk_at (w : PvtdataKeysMsg) (ns coll : bytes) : list KeyAndHash := default [] (w !! ns ≫= fun colls => colls !! coll).

Lemma go_map_of_default {A} (m : gmap bytes A) : default ∅ (go_map_of m) = m.
Proof.
  unfold go_map_of. case_bool_decide as E; [|done]. cbn. symmetry. by apply dom_empty_inv_L.
Qed.

Lemma to_of_wire (w : PvtdataKeysMsg) : to_wire (of_wire w) = w.
Proof.
  unfold to_wire, of_wire. rewrite go_map_of_default, <- map_fmap_compose. apply map_eq. intros ns. rewrite lookup_fmap.
  destruct (w !! ns) as [c|] eqn:E; [|done]. cbn. by rewrite go_map_of_default.
Qed.

(** No map of the value is nil. *)
Definition pk_ok (m : PvtdataKeys) : Prop := exists mm, m = Some mm /\ forall ns colls, mm !! ns = Some colls -> is_Some colls.

(** There is an entry, and no map of the message is empty. *)
Definition wire_ok (w : PvtdataKeysMsg) : Prop :=
  (exists ns coll x, x ∈ pk_at w ns coll) /\ forall ns colls, w !! ns = Some colls -> colls <> ∅.

Lemma go_map_of_Some {A} (m : gmap bytes A) : m <> ∅ -> go_map_of m = Some m.
Proof. intros H. unfold go_map_of. rewrite bool_decide_eq_false_2; [done|]. by intros ?%dom_empty_inv_L. Qed.

Lemma of_wire_ok (w : PvtdataKeysMsg) : wire_ok w -> pk_ok (of_wire w).
Proof.
  intros [(ns0 & coll0 & x & Hx) Hc]. unfold of_wire. rewrite go_map_of_Some.
  2:{ intros ->%fmap_empty_inv. unfold pk_at in Hx. rewrite lookup_empty in Hx. by apply not_elem_of_nil in Hx. }
  eexists. split; [done|].
  intros ns colls. rewrite lookup_fmap. destruct (w !! ns) as [c|] eqn:E; [|done]. intros [= <-]. rewrite go_map_of_Some by (by eapply Hc). done.
Qed.

Lemma newPvtdataKeys_ok : pk_ok newPvtdataKeys.
Proof. eexists. split; [done|]. intros ns colls. by rewrite lookup_empty. Qed.

Lemma pk_at_new (ns coll : bytes) : pk_at (to_wire newPvtdataKeys) ns coll = [].
Proof. unfold pk_at, to_wire. cbn. by rewrite fmap_empty, lookup_empty. Qed.

Lemma PvtdataKeys_add_ok (ns coll key h : bytes) (m : PvtdataKeys) :
  pk_ok m -> exists m', PvtdataKeys_add ns coll key h m = Ret m' /\ pk_ok m' /\
    (m = newPvtdataKeys \/ wire_ok (to_wire m) -> wire_ok (to_wire m')) /\
    forall ns' coll', pk_at (to_wire m') ns' coll' =
      pk_at (to_wire m) ns' coll' ++ (if decide ((ns', coll') = (ns, coll)) then [mkKeyAndHash key h] else []).
Proof.
  intros (mm & -> & Hm). unfold PvtdataKeys_add.
  assert (Hc : exists colls, default newCollections (mm !! ns) = Some colls /\
    (mm !! ns = Some (Some colls) \/ mm !! ns = None /\ colls = ∅)).
  { destruct (mm !! ns) as [c|] eqn:E; [|exists ∅; auto]. destruct (Hm _ _ E) as [colls ->]. exists colls. auto. }
  destruct Hc as (colls & -> & Hd). eexists. split; [done|]. split; [|split].
  - eexists. split; [done|]. intros ns' c [[-> <-]|[_ H]]%lookup_insert_Some; [done|by eapply Hm].
  - intros Hw. unfold to_wire. cbn [default from_option id]. rewrite fmap_insert. cbn. split.
    { exists ns, coll, (mkKeyAndHash key h). unfold pk_at. rewrite lookup_insert_eq. cbn. rewrite lookup_insert_eq. cbn. apply elem_of_app. right. by left. }
    intros ns' c [[-> <-]|[_ H]]%lookup_insert_Some; [apply insert_non_empty|].
    destruct Hw as [[= ->]|[_ Hw]]; [by rewrite fmap_empty, lookup_empty in H|]. by eapply Hw.
  - intros ns' coll'. unfold pk_at, to_wire. cbn [default from_option id]. rewrite fmap_insert. cbn [default from_option id].
    destruct (decide (ns' = ns)) as [->|Hn].
    + rewrite lookup_insert_eq. cbn [mbind option_bind]. rewrite lookup_fmap.
      assert (Hl : default [] ((default ∅ <$> mm !! ns) ≫= fun colls => colls !! coll') = default [] (colls !! coll')).
      { destruct Hd as [->|[-> ->]]; [done|]. cbn. by rewrite lookup_empty. }
      rewrite Hl. destruct (decide (coll' = coll)) as [->|Hc].
      * by rewrite lookup_insert_eq, decide_True.
      * rewrite lookup_insert_ne, decide_False by congruence. by rewrite app_nil_r.
    + rewrite lookup_insert_ne, decide_False by congruence. by rewrite app_nil_r.
Qed.

(** A loop over a map to which one entry contributes. *)
Lemma map_to_list_bind_one {K : Type} `{Countable K} {A B : Type} (m : gmap K A) (i : K) (f : K * A -> list B) :
  (forall j x, j <> i -> f (j, x) = []) -> map_to_list m ≫= f = match m !! i with Some x => f (i, x) | None => [] end.
Proof.
  intros Hf. assert (Hl : forall l, NoDup l.*1 -> l ≫= f = match (list_to_map l : gmap K A) !! i with Some x => f (i, x) | None => [] end).
  { induction l as [|[j x] l IH]; intros Hn; [done|]. cbn [fmap list_fmap fst] in Hn. apply NoDup_cons in Hn as [Hj Hn].
    cbn [mbind list_bind list_to_map foldr]. change (l ≫= f) with (mbind f l) in IH. cbn in IH |- *. rewrite IH by done.
    destruct (decide (j = i)) as [->|Hne].
    - rewrite lookup_insert_eq. apply not_elem_of_list_to_map_1 in Hj. cbn in Hj. rewrite Hj. by rewrite app_nil_r.
    - rewrite lookup_insert_ne by done. by rewrite Hf. }
  rewrite Hl by apply NoDup_fst_map_to_list. by rewrite list_to_map_to_list.
Qed.

(** The values a list of updates has for a key, in order. *)
Definition vals {K A} `{EqDecision K} (k : K) (l : list (K * A)) : list A := omap (fun '(k', x) => if decide (k' = k) then Some x else None) l.

Lemma vals_app {K A} `{EqDecision K} (k : K) (l1 l2 : list (K * A)) : vals k (l1 ++ l2) = vals k l1 ++ vals k l2.
Proof. unfold vals. apply omap_app. Qed.

Lemma vals_bind {K A B} `{EqDecision K} (k : K) (l : list B) (f : B -> list (K * A)) : vals k (l ≫= f) = l ≫= fun x => vals k (f x).
Proof. induction l as [|x l IH]; [done|]. cbn [mbind list_bind]. rewrite vals_app. by f_equal. Qed.

Lemma fmap_list_bind {A B C} (l : list A) (f : A -> list B) (g : B -> C) : g <$> (l ≫= f) = l ≫= fun x => g <$> f x.
Proof. induction l as [|x l IH]; [done|]. cbn [mbind list_bind]. rewrite fmap_app. by f_equal. Qed.

Lemma vals_elem {K A} `{EqDecision K} (k : K) (x : A) (l : list (K * A)) : x ∈ vals k l <-> (k, x) ∈ l.
Proof.
  unfold vals. rewrite list_elem_of_omap. split.
  - intros ([k' x'] & Hin & E). case_decide; [|done]. by simplify_eq.
  - intros Hin. exists (k, x). by rewrite decide_True.
Qed.

Lemma fold_insert_vals {K : Type} `{Countable K} {A : Type} (k : K) (l : list (K * A)) (m : gmap K A) :
  fold_left (fun m '(k, x) => <[k := x]> m) l m !! k = match last (vals k l) with Some x => Some x | None => m !! k end.
Proof.
  revert m. induction l as [|[k' x] l IH] using rev_ind; intros m; [done|]. rewrite fold_left_app, vals_app. cbn [fold_left].
  unfold vals at 2. cbn [omap list_omap]. destruct (decide (k' = k)) as [->|Hn].
  - by rewrite lookup_insert_eq, last_snoc.
  - by rewrite lookup_insert_ne, app_nil_r, IH.
Qed.

Lemma PvtdataKeys_list_elem (m : PvtdataKeys) (ns coll : bytes) (x : KeyAndHash) :
  (ns, coll, x) ∈ PvtdataKeys_list m <-> x ∈ pk_at (to_wire m) ns coll.
Proof.
  unfold PvtdataKeys_list, pk_at. rewrite list_elem_of_bind. split.
  - intros ([ns' colls] & Hin & Hns). apply elem_of_map_to_list in Hns. apply list_elem_of_bind in Hin as ([coll' l] & Hin & Hc).
    apply elem_of_map_to_list in Hc. apply list_elem_of_fmap in Hin as (y & [= <- <- <-] & Hy). rewrite Hns. cbn. by rewrite Hc.
  - destruct (to_wire m !! ns) as [colls|] eqn:En; [|by intros ?%not_elem_of_nil]. cbn.
    destruct (colls !! coll) as [l|] eqn:Ec; [|by intros ?%not_elem_of_nil]. cbn. intros Hx.
    exists (ns, colls). split; [|by apply elem_of_map_to_list]. apply list_elem_of_bind. exists (coll, l).
    split; [|by apply elem_of_map_to_list]. apply list_elem_of_fmap. eauto.
Qed.

(** The entries with a key hash, in the order of the list. *)
Definition with_hash (h : bytes) (l : list KeyAndHash) : list KeyAndHash := filter (fun x => kh_Hash x = h) l.

(** The entries of a collection, in the order of the list. *)
Lemma PvtdataKeys_list_at (m : PvtdataKeys) (ns coll : bytes) :
  vals (ns, coll) ((fun '(n, c, k) => ((n, c), k)) <$> PvtdataKeys_list m) = pk_at (to_wire m) ns coll.
Proof.
  unfold PvtdataKeys_list, pk_at. rewrite fmap_list_bind, vals_bind. rewrite (map_to_list_bind_one _ ns).
  2:{ intros ns' colls Hn. cbn. destruct (vals _ _) as [|x l] eqn:E; [done|]. exfalso. assert (Hx : x ∈ x :: l) by (by left). rewrite <- E in Hx.
      apply vals_elem, list_elem_of_fmap in Hx as ([[n c] k] & E1 & Hx). apply list_elem_of_bind in Hx as ([c' l'] & Hx & _).
      apply list_elem_of_fmap in Hx as (y & [= -> -> ->] & _). by simplify_eq. }
  destruct (to_wire m !! ns) as [colls|]; [|done]. cbn [mbind option_bind]. rewrite fmap_list_bind, vals_bind. rewrite (map_to_list_bind_one _ coll).
  2:{ intros c l Hc. cbn. rewrite <- list_fmap_compose. destruct (vals _ _) as [|x l'] eqn:E; [done|]. exfalso. assert (Hx : x ∈ x :: l') by (by left). rewrite <- E in Hx.
      apply vals_elem, list_elem_of_fmap in Hx as (y & E1 & Hx). unfold compose in E1. by injection E1. }
  destruct (colls !! coll) as [l|]; [|done]. rewrite <- list_fmap_compose. cbn [default from_option id]. unfold vals.
  induction l as [|x l IH]; [done|]. cbn [fmap list_fmap omap list_omap compose]. unfold compose at 1. rewrite decide_True by done. f_equal. exact IH.
Qed.

Lemma PvtdataKeys_list_vals {A} (g : KeyAndHash -> A) (m : PvtdataKeys) (ns coll h : bytes) :
  vals (ns, coll, h) ((fun '(n, c, k) => ((n, c, kh_Hash k), g k)) <$> PvtdataKeys_list m) = g <$> with_hash h (pk_at (to_wire m) ns coll).
Proof.
  rewrite <- PvtdataKeys_list_at. unfold vals, with_hash. induction (PvtdataKeys_list m) as [|[[n c] k] l IH]; [done|].
  cbn [fmap list_fmap omap list_omap]. destruct (decide ((n, c) = (ns, coll))) as [[= -> ->]|Hn].
  - rewrite filter_cons. destruct (decide (kh_Hash k = h)) as [->|Hh].
    + rewrite decide_True by done. cbn [fmap list_fmap]. f_equal. exact IH.
    + rewrite decide_False by congruence. exact IH.
  - rewrite decide_False by congruence. exact IH.
Qed.

Lemma PvtdataKeys_addAll_ok (toAdd m : PvtdataKeys) :
  pk_ok m -> wire_ok (to_wire m) -> exists m', PvtdataKeys_addAll toAdd m = Ret m' /\ pk_ok m' /\ wire_ok (to_wire m') /\
    forall ns coll, pk_at (to_wire m') ns coll = pk_at (to_wire m) ns coll ++ pk_at (to_wire toAdd) ns coll.
Proof.
  intros Hm Hw. unfold PvtdataKeys_addAll. setoid_rewrite <- (PvtdataKeys_list_at toAdd). revert m Hm Hw.
  induction (PvtdataKeys_list toAdd) as [|[[n c] k] l IH]; intros m Hm Hw.
  - exists m. split; [done|]. split; [done|]. split; [done|]. intros. by rewrite app_nil_r.
  - destruct (PvtdataKeys_add_ok n c (kh_Key k) (kh_Hash k) m Hm) as (m1 & E1 & Hm1 & Hw1 & H1). cbn [for_range]. rewrite E1. cbn [mbind outcome_bind].
    destruct (IH m1 Hm1) as (m2 & E2 & Hm2 & Hw2 & H2); [by apply Hw1; right|]. exists m2. split; [done|]. split; [done|]. split; [done|].
    intros ns coll. rewrite H2, H1, <- app_assoc. f_equal. cbn [fmap list_fmap]. unfold vals at 2. cbn [omap list_omap].
    destruct (decide ((ns, coll) = (n, c))) as [[= -> ->]|Hn]; [rewrite decide_True by done|rewrite decide_False by congruence]; by destruct k.
Qed.

(** ** The schedule in the database *)

Definition ek_wf (k : expiryInfoKey) : Prop := is_u64 (ek_committingBlk k) /\ is_u64 (ek_expiryBlk k).

Abbreviation schedule := (gmap expiryInfoKey PvtdataKeysMsg).

Lemma encodeExpiryInfoKey_compare (k k' : expiryInfoKey) :
  ek_wf k -> ek_wf k' ->
  bytes_compare (encodeExpiryInfoKey k) (encodeExpiryInfoKey k') =
    match ek_expiryBlk k ?= ek_expiryBlk k' with Eq => ek_committingBlk k ?= ek_committingBlk k' | c => c end.
Proof.
  intros [Hc He] [Hc' He']. unfold encodeExpiryInfoKey.
  change (bytes_compare (expiryPrefix :: ?a) (expiryPrefix :: ?b)) with (bytes_compare ([expiryPrefix] ++ a) ([expiryPrefix] ++ b)).
  rewrite bytes_compare_app, Encode_compare_app by done. destruct (_ ?= _); [|done..].
  rewrite <- (app_nil_r (EncodeOrderPreservingVarUint64 (ek_committingBlk k))), <- (app_nil_r (EncodeOrderPreservingVarUint64 (ek_committingBlk k'))).
  rewrite Encode_compare_app by done. by destruct (_ ?= _).
Qed.

Lemma encodeExpiryInfoKey_inj (k k' : expiryInfoKey) : ek_wf k -> ek_wf k' -> encodeExpiryInfoKey k = encodeExpiryInfoKey k' -> k = k'.
Proof.
  intros Hk Hk' E. pose proof (encodeExpiryInfoKey_compare k k' Hk Hk') as H. rewrite E, bytes_compare_refl in H.
  destruct k as [c e], k' as [c' e']. cbn in H. destruct (Z.compare_spec e e'); [|done..]. destruct (Z.compare_spec c c'); [|done..]. by subst.
Qed.

Section KeeperOk.
Context {PK : Codec PvtdataKeysMsg} {PO : CodecOk PvtdataKeysMsg}.

(** What the database stands for. *)
Record keeper_view (ek : kvmap) (f : schedule) : Prop := {
  kw_get : forall k, ek_wf k -> ek !! encodeExpiryInfoKey k = Marshal <$> f !! k;
  kw_keys : forall b v, ek !! b = Some v -> exists k, ek_wf k /\ b = encodeExpiryInfoKey k;
  kw_wf : forall k w, f !! k = Some w -> ek_wf k }.

Lemma keeper_view_empty : keeper_view ∅ ∅.
Proof. constructor; [by intros; rewrite !lookup_empty|..]; intros ? ?; by rewrite lookup_empty. Qed.

Lemma decodeExpiryInfo_encode (k : expiryInfoKey) (w : PvtdataKeysMsg) :
  ek_wf k -> decodeExpiryInfo (encodeExpiryInfoKey k) (Marshal w) = Ret (k, of_wire w).
Proof.
  intros [Hc He]. unfold decodeExpiryInfo, encodeExpiryInfoKey. rewrite Decode_Encode by done. cbn [mbind outcome_bind].
  rewrite zlen_to_nat, drop_app_length. rewrite <- (app_nil_r (EncodeOrderPreservingVarUint64 (ek_committingBlk k))), Decode_Encode by done.
  cbn [mbind outcome_bind]. rewrite proto_Unmarshal_Marshal. by destruct k.
Qed.

Lemma keeper_put (ek : kvmap) (f : schedule) (k : expiryInfoKey) (w : PvtdataKeysMsg) :
  keeper_view ek f -> ek_wf k -> keeper_view (<[encodeExpiryInfoKey k := Marshal w]> ek) (<[k := w]> f).
Proof.
  intros [Hg Hk Hf] Hw. constructor.
  - intros k' Hw'. destruct (decide (k' = k)) as [->|Hn]; [by rewrite !lookup_insert_eq|].
    rewrite !lookup_insert_ne; [by apply Hg|done|]. intros E. apply encodeExpiryInfoKey_inj in E; [by subst|done..].
  - intros b v [[<- _]|[_ H]]%lookup_insert_Some; [eauto|by eapply Hk].
  - intros k' w' [[<- _]|[_ H]]%lookup_insert_Some; [done|by eapply Hf].
Qed.

Lemma keeper_delete (ek : kvmap) (f : schedule) (k : expiryInfoKey) :
  keeper_view ek f -> ek_wf k -> keeper_view (delete (encodeExpiryInfoKey k) ek) (delete k f).
Proof.
  intros [Hg Hk Hf] Hw. constructor.
  - intros k' Hw'. destruct (decide (k' = k)) as [->|Hn]; [by rewrite !lookup_delete_eq|].
    rewrite !lookup_delete_ne; [by apply Hg|done|]. intros E. apply encodeExpiryInfoKey_inj in E; [by subst|done..].
  - intros b v [_ H]%lookup_delete_Some. by eapply Hk.
  - intros k' w' [_ H]%lookup_delete_Some. by eapply Hf.
Qed.

Definition track (toTrack : list expiryInfo) (f : schedule) : schedule := fold_left (fun f '(k, v) => <[k := to_wire v]> f) toTrack f.
Definition clear (toClear : list expiryInfoKey) (f : schedule) : schedule := fold_left (fun f k => delete k f) toClear f.

Lemma keeper_update_view (toTrack : list expiryInfo) (toClear : list expiryInfoKey) (ek : kvmap) (f : schedule) :
  keeper_view ek f -> (forall k v, (k, v) ∈ toTrack -> ek_wf k) -> (forall k, k ∈ toClear -> ek_wf k) ->
  keeper_view (keeper_update toTrack toClear ek) (clear toClear (track toTrack f)).
Proof.
  intros Hv Ht Hc. unfold keeper_update, DB_WriteBatch. rewrite fold_left_app.
  assert (Hv1 : keeper_view (fold_left apply_update ((fun '(k, v) => (encodeExpiryInfoKey k, Some (encodeExpiryInfoValue v))) <$> toTrack) ek) (track toTrack f)).
  { clear Hc. revert ek f Hv. induction toTrack as [|[k v] l IH]; intros ek f Hv; [done|]. cbn [fmap list_fmap fold_left track].
    apply IH; [intros; eapply Ht; by right|]. apply keeper_put; [done|]. eapply Ht. by left. }
  revert Hv1. generalize (track toTrack f). generalize (fold_left apply_update ((fun '(k, v) => (encodeExpiryInfoKey k, Some (encodeExpiryInfoValue v))) <$> toTrack) ek).
  clear Ht Hv ek f. induction toClear as [|k l IH]; intros ek f Hv; [done|]. cbn [fmap list_fmap fold_left clear].
  apply IH; [intros; apply Hc; by right|]. apply keeper_delete; [done|]. apply Hc. by left.
Qed.

Lemma clear_lookup (l : list expiryInfoKey) (f : schedule) (k : expiryInfoKey) :
  clear l f !! k = if decide (k ∈ l) then None else f !! k.
Proof.
  revert f. induction l as [|k' l IH]; intros f; [by rewrite decide_False by apply not_elem_of_nil|]. cbn [clear fold_left].
  change (fold_left _ l ?f) with (clear l f). rewrite IH. destruct (decide (k ∈ l)) as [Hi|Hn].
  - by rewrite decide_True by (by right).
  - destruct (decide (k' = k)) as [->|Hne].
    + rewrite lookup_delete_eq, decide_True; [done|by left].
    + rewrite lookup_delete_ne, decide_False; [done| |done]. rewrite elem_of_cons. naive_solver.
Qed.

Lemma track_list_lookup (l : list expiryInfo) (f : schedule) (k : expiryInfoKey) :
  NoDup l.*1 -> track l f !! k = match (list_to_map l : gmap expiryInfoKey PvtdataKeys) !! k with Some v => Some (to_wire v) | None => f !! k end.
Proof.
  revert f. induction l as [|[k' v] l IH]; intros f; [done|]. cbn [fmap list_fmap fst]. intros [Hk Hn]%NoDup_cons.
  cbn [track fold_left list_to_map foldr fst snd]. change (fold_left _ l ?f) with (track l f). rewrite IH by done. destruct (decide (k' = k)) as [->|Hne].
  - rewrite lookup_insert_eq. apply not_elem_of_list_to_map_1 in Hk. setoid_rewrite Hk. by rewrite lookup_insert_eq.
  - by rewrite !lookup_insert_ne by done.
Qed.

Lemma track_lookup (m : gmap expiryInfoKey PvtdataKeys) (f : schedule) (k : expiryInfoKey) :
  track (map_to_list m) f !! k = match m !! k with Some v => Some (to_wire v) | None => f !! k end.
Proof. rewrite track_list_lookup by apply NoDup_fst_map_to_list. by rewrite list_to_map_to_list. Qed.

Lemma retrieveByExpiryKey_ok (ek : kvmap) (f : schedule) (k : expiryInfoKey) (w : PvtdataKeysMsg) :
  keeper_view ek f -> f !! k = Some w -> retrieveByExpiryKey k ek = Ret (k, of_wire w).
Proof.
  intros Hv E. pose proof (kw_wf _ _ Hv _ _ E) as Hw. unfold retrieveByExpiryKey. rewrite (kw_get _ _ Hv k Hw), E. cbn.
  by apply decodeExpiryInfo_encode.
Qed.

(** What expires at a block is a range of the database. *)
Lemma expiry_range (k : expiryInfoKey) (e : Z) :
  ek_wf k -> 0 <= e < MaxUint64 ->
  (bytes_leb (encodeExpiryInfoKey (mkexpiryInfoKey 0 e)) (encodeExpiryInfoKey k) = true /\
   bytes_ltb (encodeExpiryInfoKey k) (encodeExpiryInfoKey (mkexpiryInfoKey 0 (e + 1))) = true) <-> ek_expiryBlk k = e.
Proof.
  intros [Hc Hx] He. unfold bytes_leb, bytes_ltb.
  rewrite (encodeExpiryInfoKey_compare _ k), (encodeExpiryInfoKey_compare k) by (split; unfold is_u64, MaxUint64 in *; cbn; lia).
  cbn [ek_expiryBlk ek_committingBlk]. unfold is_u64 in *.
  destruct (Z.compare_spec e (ek_expiryBlk k)), (Z.compare_spec (ek_expiryBlk k) (e + 1)), (Z.compare_spec 0 (ek_committingBlk k)),
    (Z.compare_spec (ek_committingBlk k) 0); try lia; naive_solver lia.
Qed.

Lemma decode_all_ok (l : list (bytes * bytes)) :
  (forall b v, (b, v) ∈ l -> exists k w, ek_wf k /\ b = encodeExpiryInfoKey k /\ v = Marshal w) ->
  exists l', decode_all l = Ret l' /\ forall k v, (k, v) ∈ l' <-> exists w, ek_wf k /\ (encodeExpiryInfoKey k, Marshal w) ∈ l /\ v = of_wire w.
Proof.
  induction l as [|[b v] l IH]; intros Hl.
  - exists []. split; [done|]. intros k v. split; [by intros ?%not_elem_of_nil|]. by intros (? & _ & ?%not_elem_of_nil & _).
  - destruct IH as (l' & El & Hl'); [intros; apply Hl; by right|]. destruct (Hl b v) as (k & w & Hk & -> & ->); [by left|].
    cbn [decode_all]. rewrite decodeExpiryInfo_encode by done. cbn [mbind outcome_bind]. rewrite El.
    eexists. split; [done|]. intros k' v'. rewrite elem_of_cons, Hl'. setoid_rewrite elem_of_cons. split.
    + intros [[= -> ->]|(w' & ? & ? & ?)]; [exists w|exists w']; auto.
    + intros (w' & Hk' & [E|Hin] & ->); [|right; eauto]. left. pose proof (f_equal fst E) as E1. pose proof (f_equal (Unmarshal ∘ snd) E) as E2.
      cbn in E1. unfold compose in E2. cbn [snd] in E2. rewrite !Unmarshal_Marshal in E2. injection E2 as ->.
      apply encodeExpiryInfoKey_inj in E1; [|done..]. by subst.
Qed.

Lemma keeper_retrieve_ok (ek : kvmap) (f : schedule) (e : Z) :
  keeper_view ek f -> 0 <= e < MaxUint64 ->
  exists l, keeper_retrieve e ek = Ret l /\ forall k v, (k, v) ∈ l <-> exists w, f !! k = Some w /\ ek_expiryBlk k = e /\ v = of_wire w.
Proof.
  intros Hv He. unfold keeper_retrieve. rewrite u64_id by (unfold is_u64, MaxUint64 in *; lia).
  destruct (decode_all_ok (range_scan ek (encodeExpiryInfoKey (mkexpiryInfoKey 0 e)) (Some (encodeExpiryInfoKey (mkexpiryInfoKey 0 (e + 1)))))) as (l & El & Hl).
  { intros b v (Hg & _)%range_scan_elem. destruct (kw_keys _ _ Hv b v Hg) as (k & Hk & ->). rewrite (kw_get _ _ Hv k Hk) in Hg.
    destruct (f !! k) as [w|]; [|done]. injection Hg as <-. eauto. }
  exists l. split; [done|]. intros k v. rewrite Hl. setoid_rewrite range_scan_elem. cbn [below]. split.
  - intros (w & Hk & (Hg & Hr) & ->). apply expiry_range in Hr; [|done..]. rewrite (kw_get _ _ Hv k Hk) in Hg.
    destruct (f !! k) as [w'|]; [|done]. injection Hg as Hg. apply (f_equal Unmarshal) in Hg. rewrite !Unmarshal_Marshal in Hg.
    injection Hg as ->. eauto.
  - intros (w & E & Ee & ->). pose proof (kw_wf _ _ Hv _ _ E) as Hk. exists w. split; [done|]. split; [|done].
    rewrite (kw_get _ _ Hv k Hk), E. split; [done|]. by apply expiry_range.
Qed.

End KeeperOk.

(** ** The schedule of a batch *)

Section ScheduleOk.
Context {BP : BTLPolicy} {BO : BTLPolicyOk}.

Abbreviation addition := (bytes * bytes * bytes * bytes * VersionedValue)%type.

Definition add_one : addition -> gmap expiryInfoKey PvtdataKeys -> outcome (gmap expiryInfoKey PvtdataKeys) :=
  fun '(ns, coll, key, h, vv) => schedule_add ns coll key h vv.

(** The entry an addition makes under a schedule key. *)
Definition entry_for (k : expiryInfoKey) (ns coll : bytes) (a : addition) : option KeyAndHash :=
  let '(ns', coll', key, h, vv) := a in
  match GetExpiringBlock ns' coll' (BlockNum (vv_Version vv)) with
  | Ret e =>
      if negb (IsDelete vv || neverExpires e) && bool_decide (k = mkexpiryInfoKey (BlockNum (vv_Version vv)) e) && bool_decide ((ns', coll') = (ns, coll))
      then Some (mkKeyAndHash key h) else None
  | _ => None
  end.

Definition b_at (b : gmap expiryInfoKey PvtdataKeys) (k : expiryInfoKey) (ns coll : bytes) : list KeyAndHash :=
  match b !! k with Some v => pk_at (to_wire v) ns coll | None => [] end.

Definition addition_ok (a : addition) : Prop :=
  let '(ns, coll, _, _, vv) := a in is_u64 (BlockNum (vv_Version vv)) /\ is_ret (GetExpiringBlock ns coll (BlockNum (vv_Version vv))) = true.

Definition builder_ok (b : gmap expiryInfoKey PvtdataKeys) : Prop :=
  forall k v, b !! k = Some v -> ek_wf k /\ pk_ok v /\ wire_ok (to_wire v).

Lemma add_one_ok (a : addition) (b : gmap expiryInfoKey PvtdataKeys) :
  builder_ok b -> addition_ok a ->
  exists b', add_one a b = Ret b' /\ builder_ok b' /\ forall k ns coll, b_at b' k ns coll = b_at b k ns coll ++ option_list (entry_for k ns coll a).
Proof.
  destruct a as [[[[ns coll] key] h] vv]. intros Hb [Hn He]. unfold add_one, schedule_add, entry_for.
  destruct (GetExpiringBlock ns coll _) as [e| |] eqn:Ee; [|done..]. cbn [mbind outcome_bind].
  destruct (IsDelete vv || neverExpires e); cbn [negb andb].
  { exists b. split; [done|]. split; [done|]. intros. by rewrite app_nil_r. }
  set (k0 := mkexpiryInfoKey _ e). destruct (PvtdataKeys_add_ok ns coll key h (default newPvtdataKeys (b !! k0))) as (m' & -> & Hm & Hw & Hat).
  { destruct (b !! k0) eqn:E; [by apply (Hb k0)|apply newPvtdataKeys_ok]. }
  cbn [mbind outcome_bind]. eexists. split; [done|]. split.
  - intros k v [[<- <-]|[_ H]]%lookup_insert_Some; [|by apply Hb]. split; [split; [done|by eapply GetExpiringBlock_after]|].
    split; [done|]. apply Hw. destruct (b !! k0) eqn:E; [right; by apply (Hb k0)|by left].
  - intros k ns' coll'. unfold b_at. destruct (decide (k = k0)) as [->|Hk].
    + rewrite lookup_insert_eq, Hat, bool_decide_eq_true_2 by done. cbn [andb]. f_equal.
      * destruct (b !! k0); [done|apply pk_at_new].
      * destruct (decide ((ns', coll') = (ns, coll))) as [E|E]; [rewrite bool_decide_eq_true_2 by congruence|rewrite bool_decide_eq_false_2 by congruence]; done.
    + rewrite lookup_insert_ne, (bool_decide_eq_false_2 (k = k0)) by done. by rewrite app_nil_r.
Qed.

Lemma additions_ok (l : list addition) (b : gmap expiryInfoKey PvtdataKeys) :
  builder_ok b -> Forall addition_ok l ->
  exists b', for_range add_one l b = Ret b' /\ builder_ok b' /\ forall k ns coll, b_at b' k ns coll = b_at b k ns coll ++ omap (entry_for k ns coll) l.
Proof.
  intros Hb Hl. revert b Hb. induction Hl as [|a l Ha Hl IH]; intros b Hb.
  - exists b. split; [done|]. split; [done|]. intros. by rewrite app_nil_r.
  - destruct (add_one_ok a b Hb Ha) as (b1 & E1 & Hb1 & H1). destruct (IH b1 Hb1) as (b2 & E2 & Hb2 & H2). exists b2.
    cbn [for_range]. rewrite E1. cbn [mbind outcome_bind]. split; [done|]. split; [done|]. intros k ns coll. rewrite H2, H1, <- app_assoc. f_equal.
    cbn [omap list_omap]. by destruct (entry_for k ns coll a).
Qed.

Lemma additions_keys (l : list addition) (b b' : gmap expiryInfoKey PvtdataKeys) (k : expiryInfoKey) :
  for_range add_one l b = Ret b' -> is_Some (b' !! k) ->
  is_Some (b !! k) \/ exists ns coll key h vv, (ns, coll, key, h, vv) ∈ l /\ ek_committingBlk k = BlockNum (vv_Version vv).
Proof.
  revert b. induction l as [|[[[[ns coll] key] h] vv] l IH]; intros b E Hk; [injection E as <-; by left|].
  cbn [for_range] in E. destruct (add_one _ b) as [b1| |] eqn:E1; [|done..]. cbn [mbind outcome_bind] in E.
  destruct (IH b1 E Hk) as [H1|(ns' & coll' & key' & h' & vv' & Hin & Hb)]; [|right; exists ns', coll', key', h', vv'; split; [by right|done]].
  unfold add_one, schedule_add in E1. destruct (GetExpiringBlock _ _ _) as [e| |]; [|done..]. cbn [mbind outcome_bind] in E1.
  destruct (_ || _); [injection E1 as <-; by left|]. destruct (PvtdataKeys_add _ _ _ _ _) as [m| |]; [|done..]. injection E1 as <-.
  destruct H1 as [v [[<- _]|[_ H1]]%lookup_insert_Some]; [|left; by eexists]. right. exists ns, coll, key, h, vv. split; [by left|done].
Qed.

Lemma builder_ok_empty : builder_ok ∅.
Proof. intros k v. by rewrite lookup_empty. Qed.

Lemma b_at_empty (k : expiryInfoKey) (ns coll : bytes) : b_at ∅ k ns coll = [].
Proof. unfold b_at. by rewrite lookup_empty. Qed.

Lemma ToCompositeKeyMap_lookup (b : UpdateMap) (ns coll key : bytes) : ToCompositeKeyMap b !! (ns, coll, key) = UpdateMap_Get b ns coll key.
Proof.
  unfold ToCompositeKeyMap. rewrite fold_insert_vals, lookup_empty. destruct (last _) as [vv|] eqn:El.
  - by apply last_Some_elem_of, vals_elem, update_list_elem in El.
  - apply last_None in El. destruct (UpdateMap_Get b ns coll key) as [vv|] eqn:E; [|done]. exfalso.
    apply update_list_elem, vals_elem in E. rewrite El in E. by apply not_elem_of_nil in E.
Qed.

Definition pvt_additions (pvtUpdates : UpdateMap) : list addition :=
  (fun '((ns, coll, key), vv) => (ns, coll, key, Sum256 key, vv)) <$> map_to_list (ToCompositeKeyMap pvtUpdates).

(** The hashes without a private key in the batch. *)
Definition leftover (pvtUpdates hashedUpdates : UpdateMap) : gmap (bytes * bytes * bytes) VersionedValue :=
  fold_left (fun m '((ns, coll, key), _) => delete (ns, coll, Sum256 key) m) (map_to_list (ToCompositeKeyMap pvtUpdates)) (ToCompositeKeyMap hashedUpdates).

Definition hash_additions (pvtUpdates hashedUpdates : UpdateMap) : list addition :=
  (fun '((ns, coll, h), vv) => (ns, coll, [], h, vv)) <$> map_to_list (leftover pvtUpdates hashedUpdates).

Lemma schedule_pvt_loop (l : list (bytes * bytes * bytes * VersionedValue)) b m :
  for_range (fun '(k, vv) => schedule_pvt k vv) l (b, m) =
    (b' ← for_range add_one ((fun '((ns, coll, key), vv) => (ns, coll, key, Sum256 key, vv)) <$> l) b;
     Ret (b', fold_left (fun m '((ns, coll, key), _) => delete (ns, coll, Sum256 key) m) l m)).
Proof.
  revert b m. induction l as [|[[[ns coll] key] vv] l IH]; intros b m; [done|].
  cbn [for_range fmap list_fmap fold_left schedule_pvt add_one]. destruct (schedule_add _ _ _ _ _ b) as [b'| |]; cbn [mbind outcome_bind]; [|done..]. apply IH.
Qed.

Lemma buildExpirySchedule_eq (p h : UpdateMap) :
  buildExpirySchedule p h = (b ← for_range add_one (pvt_additions p ++ hash_additions p h) ∅; Ret (map_to_list b)).
Proof.
  unfold buildExpirySchedule. rewrite schedule_pvt_loop. fold (pvt_additions p) (leftover p h).
  assert (Happ : forall l1 l2 b, for_range add_one (l1 ++ l2) b = (b ← for_range add_one l1 b; for_range add_one l2 b)).
  { induction l1 as [|a l1 IH]; intros l2 b; [done|]. cbn [app for_range]. destruct (add_one a b); cbn [mbind outcome_bind]; [apply IH|done..]. }
  rewrite Happ. destruct (for_range add_one (pvt_additions p) ∅) as [b| |]; cbn [mbind outcome_bind]; [|done..].
  assert (Hh : forall l b, for_range (fun '((ns, coll, keyHash), vv) => schedule_add ns coll [] keyHash vv) l b =
    for_range add_one ((fun '((ns, coll, h), vv) => (ns, coll, [], h, vv)) <$> l) b).
  { induction l as [|[[[ns coll] kh] vv] l IH]; intros b'; [done|]. cbn [for_range fmap list_fmap add_one].
    destruct (schedule_add ns coll [] kh vv b'); cbn [mbind outcome_bind]; [apply IH|done..]. }
  by rewrite Hh.
Qed.

Lemma leftover_lookup (p h : UpdateMap) (ns coll kh : bytes) (vv : VersionedValue) :
  leftover p h !! (ns, coll, kh) = Some vv <->
    UpdateMap_Get h ns coll kh = Some vv /\ forall key, kh = Sum256 key -> UpdateMap_Get p ns coll key = None.
Proof.
  unfold leftover. rewrite <- ToCompositeKeyMap_lookup.
  assert (H : forall l (m : gmap (bytes * bytes * bytes) VersionedValue),
    fold_left (fun m '((ns, coll, key), _) => delete (ns, coll, Sum256 key) m) l m !! (ns, coll, kh) = Some vv <->
    m !! (ns, coll, kh) = Some vv /\ forall key (x : VersionedValue), kh = Sum256 key -> (ns, coll, key, x) ∉ l).
  { induction l as [|[[[n c] key] x] l IH]; intros m.
    - cbn. split; [|tauto]. intros E. split; [done|]. intros. apply not_elem_of_nil.
    - cbn [fold_left]. rewrite IH, lookup_delete_Some. setoid_rewrite not_elem_of_cons. split.
      + intros [[Hn E] Hl]. split; [done|]. intros key' x' Ek. split; [|by apply (Hl key' x')]. intros E'. injection E' as -> -> -> ->. by destruct Hn; rewrite Ek.
      + intros [E Hl]. split; [split; [|done]|intros key' x' E'; by apply (Hl key' x')]. intros [= E1 E2 E3].
        destruct (Hl key x) as [Hx _]; [done|]. by subst. }
  rewrite H. split; intros [E Hl]; (split; [done|]).
  - intros key Hk. rewrite <- ToCompositeKeyMap_lookup. apply eq_None_not_Some. intros [x Hx]. apply (Hl key x Hk). by apply elem_of_map_to_list.
  - intros key x Hk Hx%elem_of_map_to_list. specialize (Hl key Hk). rewrite <- ToCompositeKeyMap_lookup in Hl. congruence.
Qed.

Lemma entry_for_Some (k : expiryInfoKey) (ns coll : bytes) (a : addition) (x : KeyAndHash) :
  entry_for k ns coll a = Some x <->
    exists vv, a = (ns, coll, kh_Key x, kh_Hash x, vv) /\ IsDelete vv = false /\ BlockNum (vv_Version vv) = ek_committingBlk k /\
      GetExpiringBlock ns coll (ek_committingBlk k) = Ret (ek_expiryBlk k) /\ ek_expiryBlk k <> MaxUint64.
Proof.
  destruct a as [[[[n c] key] h] vv]. cbn [entry_for]. split.
  - destruct (GetExpiringBlock n c _) as [e| |] eqn:Ee; [|done..]. destruct (negb _ && _ && _) eqn:Ec; [|done]. intros [= <-].
    apply andb_true_iff in Ec as [[Hd Ek]%andb_true_iff En]. apply bool_decide_eq_true in Ek, En. injection En as -> ->. subst k.
    apply negb_true_iff, orb_false_iff in Hd as [Hd Hx]. cbn. unfold neverExpires in Hx. apply Z.eqb_neq in Hx. exists vv. by rewrite Ee.
  - intros (vv' & [= -> -> -> -> ->] & Hd & Hb & He & Hx). rewrite Hb, He, Hd, bool_decide_eq_true_2, bool_decide_eq_true_2 by (done || by destruct k).
    unfold neverExpires. rewrite (proj2 (Z.eqb_neq _ _)) by done. by destruct x.
Qed.

End ScheduleOk.
