(* ===== verification/QueryUtil.v ===== *)
(** * Queries over several sources

    src/core/ledger/kvledger/txmgmt/queryutil: the state with the updates of a block
    that is not yet committed is read through a list of query executers, the first of
    which has the latest value of a key (query_executer_combiner.go); their range
    iterators are merged (iterator_combiner.go). *)

From S2P Require Import Prelude OrderedCode LevelDB Sha256 Proto StateProto StateDB PrivState RwSet RwSetBuilder Simulator.

(** ** The merged iterator *)

Section Combiner.
Context {I : Type} `{RI : !ResultsIterator I}.

(** An iterator with its next item in the buffer. *)
Record itrHolder := mkitrHolder {
  ih_itr : I;
  ih_kv : VersionedKV }.

Definition moveToNext (holder : itrHolder) : outcome bool * itrHolder :=
  let '(res, itr) := Next (ih_itr holder) in
  match res with
  | Ret (Some kv) => (Ret false, mkitrHolder itr kv)
  | Ret None => (Ret true, mkitrHolder itr (ih_kv holder))
  | Err e => (Err e, mkitrHolder itr (ih_kv holder))
  | Panic msg => (Panic msg, mkitrHolder itr (ih_kv holder))
  end.

Record itrCombiner := mkitrCombiner {
  ic_namespace : bytes;
  ic_holders : list itrHolder }.

(** Iterators without an item are left out. *)
Fixpoint new_holders (baseIterators : list I) : outcome (list itrHolder) :=
  match baseIterators with
  | [] => Ret []
  | itr :: rest =>
      let '(res, itr) := Next itr in
      res ← res;
      holders ← new_holders rest;
      Ret (match res with Some kv => mkitrHolder itr kv :: holders | None => holders end)
  end.

Definition newItrCombiner (namespace : bytes) (baseIterators : list I) : outcome itrCombiner :=
  holders ← new_holders baseIterators;
  Ret (mkitrCombiner namespace holders).

Definition moveItrAndRemoveIfExhausted (i : nat) : M (list itrHolder) bool := fun holders =>
  match holders !! i with
  | None => (Panic "index out of range", holders)
  | Some holder =>
      match moveToNext holder with
      | (Ret true, _) => (Ret true, take i holders ++ drop (S i) holders)
      | (r, holder) => (r, <[i := holder]> holders)
      end
  end.

Definition keyAt (holders : list itrHolder) (i : nat) : outcome bytes :=
  holder ← go_index holders i;
  Ret (vkv_Key (ih_kv holder)).

(** The loop from index [i] on; the number [n] of holders from there goes down with
    every round, by the next index or by a holder that is removed. *)
Fixpoint select_smallest (n : nat) (smallestHolderIndex i : nat) : M (list itrHolder) nat :=
  match n with
  | O => mret smallestHolderIndex
  | S n' =>
      holders ← get_state;
      smallestKey ← lift_outcome (keyAt holders smallestHolderIndex);
      holderKey ← lift_outcome (keyAt holders i);
      match bytes_compare holderKey smallestKey with
      | Eq =>
          removed ← moveItrAndRemoveIfExhausted i;
          select_smallest n' smallestHolderIndex (if (removed : bool) then i else S i)
      | Lt => select_smallest n' i (S i)
      | Gt => select_smallest n' smallestHolderIndex (S i)
      end
  end.

(** The item with the smallest key. *)
Definition take_smallest : M (list itrHolder) VersionedKV :=
  holders ← get_state;
  smallestHolderIndex ← select_smallest (length holders - 1) 0 1;
  holders ← get_state;
  holder ← lift_outcome (go_index holders smallestHolderIndex);
  _ ← moveItrAndRemoveIfExhausted smallestHolderIndex;
  mret (ih_kv holder).

(** A deleted key is passed over with a recursive call. *)
Fixpoint next_live (fuel : nat) : M (list itrHolder) (option VersionedKV) := fun holders =>
  match fuel with
  | O => (Panic "out of fuel", holders)
  | S fuel' =>
      match holders with
      | [] => (Ret None, holders)
      | _ :: _ =>
          (kv ← take_smallest;
           if IsDelete (vkv_Value kv) then next_live fuel' else mret (Some kv)) holders
      end
  end.

Definition combiner_Next (fuel : nat) : M itrCombiner (option KV) := fun combiner =>
  let '(r, holders) := next_live fuel (ic_holders combiner) in
  (next ← r; Ret (option_map (fun kv => mkKV (ic_namespace combiner) (vkv_Key kv) (vv_Value (vkv_Value kv))) next),
   mkitrCombiner (ic_namespace combiner) holders).

(** All the items, in a loop over [Next]. *)
Fixpoint combiner_all (fuel : nat) : M itrCombiner (list KV) :=
  match fuel with
  | O => panic "out of fuel"
  | S fuel' =>
      kv ← combiner_Next fuel;
      match kv with
      | None => mret []
      | Some kv => kvs ← combiner_all fuel'; mret (kv :: kvs)
      end
  end.

End Combiner.

Arguments itrHolder I : clear implicits.
Arguments itrCombiner I : clear implicits.

(** ** Query executers *)

Record QueryExecuter (I : Type) := mkQueryExecuter {
  qx_GetState : bytes -> bytes -> outcome (option VersionedValue);
  qx_GetStateRangeScanIterator : bytes -> bytes -> bytes -> outcome I;
  qx_GetPrivateDataHash : bytes -> bytes -> bytes -> outcome (option VersionedValue) }.
Arguments mkQueryExecuter {I} _ _ _.
Arguments qx_GetState {I} _ _ _.
Arguments qx_GetStateRangeScanIterator {I} _ _ _ _.
Arguments qx_GetPrivateDataHash {I} _ _ _ _.

(** The first executer with a state of the key decides. *)
Fixpoint first_value {I} (get : QueryExecuter I -> outcome (option VersionedValue)) (qes : list (QueryExecuter I)) : outcome (option bytes) :=
  match qes with
  | [] => Ret None
  | qe :: qes' =>
      vv ← get qe;
      match vv with
      | Some vv => Ret (if negb (IsDelete vv) then vv_Value vv else None)
      | None => first_value get qes'
      end
  end.

Definition combiner_GetState {I} (qes : list (QueryExecuter I)) (namespace key : bytes) : outcome (option bytes) :=
  first_value (fun qe => qx_GetState qe namespace key) qes.

Definition combiner_GetPrivateDataHash {I} (qes : list (QueryExecuter I)) (namespace collection key : bytes) : outcome (option bytes) :=
  first_value (fun qe => qx_GetPrivateDataHash qe namespace collection key) qes.

Fixpoint open_iterators {I} (qes : list (QueryExecuter I)) (namespace startKey endKey : bytes) : outcome (list I) :=
  match qes with
  | [] => Ret []
  | qe :: qes' =>
      itr ← qx_GetStateRangeScanIterator qe namespace startKey endKey;
      itrs ← open_iterators qes' namespace startKey endKey;
      Ret (itr :: itrs)
  end.

Definition combiner_GetStateRangeScanIterator {I} `{!ResultsIterator I} (qes : list (QueryExecuter I)) (namespace startKey endKey : bytes) :
    outcome (itrCombiner I) :=
  itrs ← open_iterators qes namespace startKey endKey;
  newItrCombiner namespace itrs.

(** The iterators of a batch and of the database in one type. *)
#[global] Instance sum_Next {I J} `{!ResultsIterator I, !ResultsIterator J} : ResultsIterator (I + J) := fun itr =>
  match itr with
  | inl i => let '(r, i) := Next i in (r, inl i)
  | inr j => let '(r, j) := Next j in (r, inr j)
  end.

Section Executers.
Context {D : Type} {VD : VersionedDB D}.

Abbreviation Itr := (nsIterator + DbItr (D := D))%type.

Definition UpdateBatchBackedQueryExecuter (updateBatch : UpdateBatch) (hashUpdatesBatch : UpdateMap) : QueryExecuter Itr :=
  mkQueryExecuter
    (fun ns key => Ret (Batch_Get updateBatch ns key))
    (fun ns startKey endKey => Ret (inl (GetRangeScanIterator updateBatch ns startKey endKey)))
    (fun ns coll key => Ret (UpdateMap_Get hashUpdatesBatch ns coll (Sum256 key))).

(** The database is a query executer as well. *)
Definition DB_QueryExecuter (db : DB D) : QueryExecuter Itr :=
  mkQueryExecuter
    (GetState (db_vdb db))
    (fun ns startKey endKey => itr ← GetStateRangeScanIterator (db_vdb db) ns startKey endKey; Ret (inr itr))
    (GetPrivateDataHash db).

End Executers.
