(* ===== verification/TxMgr.v ===== *)
(** * The transaction manager

    src/core/ledger/kvledger/txmgmt/txmgr/lockbased_txmgr.go: a block is validated
    and its updates are kept until they are committed, with the private data that
    expire; private data of earlier blocks are committed when they arrive late;
    lost blocks are committed again after a restart.  update_batch_bytes.go: the
    bytes of the public and hashed updates of a block that go into its commit hash.
    The operations exclude each other by the manager's locks, so a run is a sequence
    of them. *)

From S2P Require Import Prelude Wire OrderedCode LevelDB Sha256 Proto Block StateProto StateDB PrivState RwSet Validation RwSetBuilder Simulator BatchPreparer PurgeMgr QueryUtil.

(** ** The bytes of an update batch (updates.proto, update_batch_bytes.go) *)

Record UKVWrite := mkUKVWrite {
  UKVWrite_Namespace : bytes;
  UKVWrite_Collection : bytes;
  UKVWrite_Key : bytes;
  UKVWrite_IsDelete : bool;
  UKVWrite_Value : bytes;
  UKVWrite_VersionBytes : bytes }.

#[global] Instance UKVWrite_eq_dec : EqDecision UKVWrite.
Proof. solve_decision. Defined.

#[global] Instance UKVWrite_wire : Wire UKVWrite.
Proof.
  refine (wire_iso (fun m => (UKVWrite_Namespace m, UKVWrite_Collection m, UKVWrite_Key m, UKVWrite_IsDelete m, UKVWrite_Value m, UKVWrite_VersionBytes m))
    (fun '(a, b, c, d, e, f) => mkUKVWrite a b c d e f) _). by intros [].
Defined.

Abbreviation Updates_msg := (list UKVWrite).

Definition genKV (updates : nsUpdates) (key : bytes) : outcome UKVWrite :=
  match updates !! key with
  | Some val => Ret (mkUKVWrite [] [] key (IsDelete val) (default [] (vv_Value val)) (Height_ToBytes (vv_Version val)))
  | None => Panic "nil pointer dereference"
  end.

Fixpoint gen_keys (updates : nsUpdates) (keys : list bytes) : outcome (list UKVWrite) :=
  match keys with
  | [] => Ret []
  | key :: keys' => kv ← genKV updates key; kvs ← gen_keys updates keys'; Ret (kv :: kvs)
  end.

Definition genKVs (updates : nsUpdates) : outcome (list UKVWrite) := gen_keys updates (GetSortedKeys updates).

Definition genKVsFromNsUpdates (nsUpdates : nsUpdates) : outcome (list UKVWrite) := genKVs nsUpdates.

(** [kvs[0].Namespace = ns] and [kvs[0].Collection = coll] *)
Definition set_namespace (ns : bytes) (kvs : list UKVWrite) : outcome (list UKVWrite) :=
  match kvs with
  | [] => Panic "index out of range"
  | kv :: kvs' => Ret (mkUKVWrite ns (UKVWrite_Collection kv) (UKVWrite_Key kv) (UKVWrite_IsDelete kv) (UKVWrite_Value kv) (UKVWrite_VersionBytes kv) :: kvs')
  end.

Definition set_collection (coll : bytes) (kvs : list UKVWrite) : outcome (list UKVWrite) :=
  match kvs with
  | [] => Panic "index out of range"
  | kv :: kvs' => Ret (mkUKVWrite (UKVWrite_Namespace kv) coll (UKVWrite_Key kv) (UKVWrite_IsDelete kv) (UKVWrite_Value kv) (UKVWrite_VersionBytes kv) :: kvs')
  end.

Fixpoint gen_colls (collsUpdates : UpdateBatch) (collNames : list bytes) : outcome (list UKVWrite) :=
  match collNames with
  | [] => Ret []
  | collName :: collNames' =>
      kvs ← genKVs (GetUpdates collsUpdates collName);
      kvs ← set_collection collName kvs;
      rest ← gen_colls collsUpdates collNames';
      Ret (kvs ++ rest)
  end.

(** [GetCollectionNames] sorted. *)
Definition genKVsFromCollsUpdates (collsUpdates : UpdateBatch) : outcome (list UKVWrite) :=
  gen_colls collsUpdates (merge_sort bytes_le (GetUpdatedNamespaces collsUpdates)).

Definition dedupAndSort (a b : list bytes) : list bytes :=
  GetSortedKeys (list_to_map ((fun entry => (entry, tt)) <$> a ++ b) : gmap bytes unit).

(** The channel configuration, in the empty name space, is left out. *)
Fixpoint gen_namespaces (u : PrivUpdateBatch) (namespaces : list bytes) : outcome (list UKVWrite) :=
  match namespaces with
  | [] => Ret []
  | ns :: namespaces' =>
      if bool_decide (ns = []) then gen_namespaces u namespaces' else
      kvs ← genKVsFromNsUpdates (GetUpdates (PubUpdates u) ns);
      colls ← match HashUpdates u !! ns with
        | Some collsForNs => genKVsFromCollsUpdates collsForNs
        | None => Ret []
        end;
      kvs ← set_namespace ns (kvs ++ colls);
      rest ← gen_namespaces u namespaces';
      Ret (kvs ++ rest)
  end.

Definition deterministicBytesForPubAndHashUpdates `{!Codec Updates_msg} (u : PrivUpdateBatch) : outcome bytes :=
  let namespaces := dedupAndSort (GetUpdatedNamespaces (PubUpdates u)) (map_to_list (HashUpdates u)).*1 in
  kvWrites ← gen_namespaces u namespaces;
  Ret (Marshal kvWrites).

(** ** Private data of earlier blocks *)

Record PvtKVWrite := mkPvtKVWrite {
  PvtKVWrite_Key : bytes;
  PvtKVWrite_IsDelete : bool;
  PvtKVWrite_Value : bytes;
  PvtKVWrite_Version : Height }.

Abbreviation uniquePvtDataMap := (gmap (bytes * bytes * bytes) PvtKVWrite).

Definition updateUsingPvtWrite (pvtWrite : KVWrite) (hashedCompositeKey : bytes * bytes * bytes) (ver : Height) (m : uniquePvtDataMap) :
    uniquePvtDataMap :=
  let pvtData := mkPvtKVWrite (KVWrite_Key pvtWrite) (KVWrite_IsDelete pvtWrite) (KVWrite_Value pvtWrite) ver in
  match m !! hashedCompositeKey with
  | Some old => if Height_Compare (PvtKVWrite_Version old) ver <? 0 then <[hashedCompositeKey := pvtData]> m else m
  | None => <[hashedCompositeKey := pvtData]> m
  end.

Definition updateUsingCollPvtData `{!Protos, !StateProtos} (ns : bytes) (ver : Height) (collPvtData : CollectionPvtReadWriteSet) (m : uniquePvtDataMap) :
    outcome uniquePvtDataMap :=
  kvRWSet ← proto_Unmarshal (A := KVRWSet) (CollectionPvtReadWriteSet_Rwset collPvtData);
  Ret (fold_left (fun m kvWrite =>
      updateUsingPvtWrite kvWrite (ns, CollectionPvtReadWriteSet_CollectionName collPvtData, Sum256 (KVWrite_Key kvWrite)) ver m)
    (KVRWSet_Writes kvRWSet) m).

Definition updateUsingNsPvtData `{!Protos, !StateProtos} (ver : Height) (nsPvtData : NsPvtReadWriteSet) (m : uniquePvtDataMap) : outcome uniquePvtDataMap :=
  for_range (updateUsingCollPvtData (NsPvtReadWriteSet_Namespace nsPvtData) ver) (NsPvtReadWriteSet_CollectionPvtRwset nsPvtData) m.

Definition updateUsingTxPvtData `{!Protos, !StateProtos} (txPvtData : TxPvtData) (ver : Height) (m : uniquePvtDataMap) : outcome uniquePvtDataMap :=
  match WriteSet txPvtData with
  | None => Panic "nil pointer dereference"
  | Some ws => for_range (updateUsingNsPvtData ver) (TxPvtReadWriteSet_NsPvtRwset ws) m
  end.

Definition updateUsingBlockPvtdata `{!Protos, !StateProtos} (blockPvtData : list TxPvtData) (blkNum : Z) (m : uniquePvtDataMap) : outcome uniquePvtDataMap :=
  for_range (fun txPvtData => updateUsingTxPvtData txPvtData (NewHeight blkNum (SeqInBlock txPvtData))) blockPvtData m.

Definition constructUniquePvtData `{!Protos, !StateProtos} (reconciledPvtdata : gmap Z (list TxPvtData)) : outcome uniquePvtDataMap :=
  for_range (fun '(blkNum, blockPvtData) => updateUsingBlockPvtdata blockPvtData blkNum) (map_to_list reconciledPvtdata) ∅.

Section Stale.
Context {D : Type} {VD : VersionedDB D}.

(** The write as it is kept, with the version of the hash; [None] where it is stale. *)
Definition checkIfPvtWriteIsStale (db : DB D) (hashedKey : bytes * bytes * bytes) (kvWrite : PvtKVWrite) : outcome (option PvtKVWrite) :=
  let '(ns, coll, keyHashBytes) := hashedKey in
  committedVersion ← GetKeyHashVersion db ns coll keyHashBytes;
  match committedVersion with
  | None => Ret (if negb (PvtKVWrite_IsDelete kvWrite) then None else Some kvWrite)
  | Some committedVersion =>
      if AreSame (Some committedVersion) (Some (PvtKVWrite_Version kvWrite)) then Ret (Some kvWrite) else
      vv ← GetValueHash db ns coll keyHashBytes;
      match vv with
      | None => Panic "nil pointer dereference"
      | Some vv =>
          if bool_decide (default [] (vv_Value vv) = Sum256 (PvtKVWrite_Value kvWrite))
          then Ret (Some (mkPvtKVWrite (PvtKVWrite_Key kvWrite) (PvtKVWrite_IsDelete kvWrite) (PvtKVWrite_Value kvWrite) (vv_Version vv)))
          else Ret None
      end
  end.

Fixpoint remove_stale (db : DB D) (l : list (bytes * bytes * bytes * PvtKVWrite)) : outcome uniquePvtDataMap :=
  match l with
  | [] => Ret ∅
  | (hashedCompositeKey, pvtWrite) :: l' =>
      r ← checkIfPvtWriteIsStale db hashedCompositeKey pvtWrite;
      m ← remove_stale db l';
      Ret (match r with Some w => <[hashedCompositeKey := w]> m | None => m end)
  end.

Definition findAndRemoveStalePvtData (uniquePvtData : uniquePvtDataMap) : M (DB D) uniquePvtDataMap :=
  _ ← LoadCommittedVersionsOfPubAndHashedKeys [] (map_to_list uniquePvtData).*1;
  db ← get_state;
  lift_outcome (remove_stale db (map_to_list uniquePvtData)).

End Stale.

Definition transform_write (x : bytes * bytes * bytes * PvtKVWrite) (b : UpdateMap) : outcome UpdateMap :=
  let '((ns, coll, _), pvtWrite) := x in
  if PvtKVWrite_IsDelete pvtWrite
  then Ret (UpdateMap_Delete ns coll (PvtKVWrite_Key pvtWrite) (PvtKVWrite_Version pvtWrite) b)
  else UpdateMap_Put ns coll (PvtKVWrite_Key pvtWrite) (bytes_or_nil (PvtKVWrite_Value pvtWrite)) (PvtKVWrite_Version pvtWrite) b.

Definition transformToUpdateBatch (uniquePvtData : uniquePvtDataMap) : outcome PrivUpdateBatch :=
  pvtUpdates ← for_range transform_write (map_to_list uniquePvtData) ∅;
  Ret (mkPrivUpdateBatch NewUpdateBatch ∅ pvtUpdates).

(** ** State listeners *)

Record KVStateUpdates := mkKVStateUpdates {
  su_PublicUpdates : list KVWrite;
  su_CollHashUpdates : gmap bytes (list KVWriteHash) }.

Definition extractStateUpdates (batch : PrivUpdateBatch) (namespaces : list bytes) : gmap bytes KVStateUpdates :=
  fold_left (fun su namespace =>
      let pub := (fun '(key, vv) => mkKVWrite key (IsDelete vv) (default [] (vv_Value vv))) <$> map_to_list (GetUpdates (PubUpdates batch) namespace) in
      let colls := match HashUpdates batch !! namespace with
        | None => ∅
        | Some hashUpdates =>
            fold_left (fun m collName =>
                match map_to_list (GetUpdates hashUpdates collName) with
                | [] => m
                | l => <[collName := (fun '(key, vv) => mkKVWriteHash key (IsDelete vv) (default [] (vv_Value vv))) <$> l]> m
                end)
              (GetUpdatedNamespaces hashUpdates) ∅
        end in
      if 0 <? zlen pub + zlen (map_to_list colls) then <[namespace := mkKVStateUpdates pub colls]> su else su)
    namespaces ∅.

Section Manager.
Context {PR : Protos} {SP : StateProtos} {UC : Codec Updates_msg} {PK : Codec PvtdataKeysMsg} {BP : BTLPolicy}.
Context {D : Type} {VD : VersionedDB D} {QD : QueryDB D} {CC : DeployedChaincodeInfoProvider}.

Record StateUpdateTrigger := mkStateUpdateTrigger {
  tr_StateUpdates : gmap bytes KVStateUpdates;
  tr_CommittingBlockNum : Z;
  tr_CommittedStateQueryExecutor : list (QueryExecuter (nsIterator + DbItr (D := D)));
  tr_PostCommitQueryExecutor : list (QueryExecuter (nsIterator + DbItr (D := D))) }.

(** A listener is code of the peer: what it answers to a trigger. *)
Record StateListener := mkStateListener {
  sl_Name : bytes;
  InterestedInNamespaces : list bytes;
  HandleStateUpdates : StateUpdateTrigger -> outcome unit }.

Record current := mkcurrent {
  cur_block : Block;
  cur_batch : PrivUpdateBatch;
  cur_listeners : list bytes }.

Definition blockNum (c : current) : Z := Number (Block_Header (cur_block c)).

Definition maxTxNumber (c : current) : Z := u64 (zlen (Block_Data (cur_block c)) - 1).

(** [tm_notified]: the listeners that were told about a commit, in order. *)
Record LockBasedTxMgr := mkLockBasedTxMgr {
  tm_db : DB D;
  tm_pvtdataPurgeMgr : PurgeMgr;
  tm_usedOnce : bool;
  tm_current : option current;
  tm_notified : list bytes }.

Definition set_current (c : option current) (t : LockBasedTxMgr) : LockBasedTxMgr :=
  mkLockBasedTxMgr (tm_db t) (tm_pvtdataPurgeMgr t) (tm_usedOnce t) c (tm_notified t).

Definition set_db (db : DB D) (t : LockBasedTxMgr) : LockBasedTxMgr :=
  mkLockBasedTxMgr db (tm_pvtdataPurgeMgr t) (tm_usedOnce t) (tm_current t) (tm_notified t).

Definition set_purge (p : PurgeMgr) (t : LockBasedTxMgr) : LockBasedTxMgr :=
  mkLockBasedTxMgr (tm_db t) p (tm_usedOnce t) (tm_current t) (tm_notified t).

(** Running an operation of the database, or of the purge manager with it. *)
Definition on_db {A} (m : M (DB D) A) : M LockBasedTxMgr A := fun t =>
  let '(r, db) := m (tm_db t) in (r, set_db db t).

Definition on_purge {A} (m : M (DB D * PurgeMgr) A) : M LockBasedTxMgr A := fun t =>
  let '(r, (db, p)) := m (tm_db t, tm_pvtdataPurgeMgr t) in (r, set_purge p (set_db db t)).

(** [NewLockBasedTxMgr] on the databases of a ledger. *)
Definition NewLockBasedTxMgr (db : DB D) (expKeeper : kvmap) : LockBasedTxMgr :=
  mkLockBasedTxMgr db (mkPurgeMgr expKeeper None) false None [].

Variable hashFunc : bytes -> outcome bytes.
Variable customTxProcessors : Z -> option (CustomTxProcessor (D := D)).
Variable stateListeners : list StateListener.

(** ** Validation *)

Fixpoint invoke_listeners (db : DB D) (c : current) (listeners : list StateListener) : outcome (list bytes) :=
  match listeners with
  | [] => Ret []
  | listener :: rest =>
      let stateUpdatesForListener := extractStateUpdates (cur_batch c) (InterestedInNamespaces listener) in
      if bool_decide (stateUpdatesForListener = ∅) then invoke_listeners db c rest else
      let trigger := mkStateUpdateTrigger stateUpdatesForListener (blockNum c) [DB_QueryExecuter db]
        [UpdateBatchBackedQueryExecuter (PubUpdates (cur_batch c)) (HashUpdates (cur_batch c)); DB_QueryExecuter db] in
      _ ← HandleStateUpdates listener trigger;
      invoked ← invoke_listeners db c rest;
      Ret (sl_Name listener :: invoked)
  end.

(** On an error nothing is left to commit. *)
Definition ValidateAndPrepare (fuel : nat) (blockAndPvtdata : BlockAndPvtData) (doMVCCValidation : bool) :
    M LockBasedTxMgr (list TxStatInfo * bytes) := fun t =>
  match on_db (ValidateAndPrepareBatch hashFunc customTxProcessors fuel blockAndPvtdata doMVCCValidation) t with
  | (Panic msg, t) => (Panic msg, t)
  | (Err e, t) => (Err e, set_current None t)
  | (Ret (batch, txstatsInfo, blk), t) =>
      let c := mkcurrent blk batch [] in
      match invoke_listeners (tm_db t) c stateListeners with
      | Panic msg => (Panic msg, t)
      | Err e => (Err e, set_current None t)
      | Ret invoked =>
          let t := set_current (Some (mkcurrent blk batch invoked)) t in
          (updateBytes ← deterministicBytesForPubAndHashUpdates batch; Ret (txstatsInfo, updateBytes), t)
      end
  end.

(** ** Commit *)

Definition clearCache (db : DB D) : DB D :=
  if IsBulkOptimizable (D := D) then mkDB (ClearCachedVersions (db_vdb db)) (db_hint db) else db.

Definition UpdateExpiryInfo_step (b : PrivUpdateBatch) : M LockBasedTxMgr unit :=
  t ← get_state;
  p ← lift_outcome (UpdateExpiryInfo (PvtUpdates b) (HashUpdates b) (tm_pvtdataPurgeMgr t));
  modify_state (set_purge p).

(** The updates of the current block, with the deletion of what expires. *)
Definition commit_body (c : current) : M LockBasedTxMgr unit :=
  _ ← UpdateExpiryInfo_step (cur_batch c);
  t ← get_state;
  '(pvtUpdates, hashedUpdates) ← lift_outcome
    (AddExpiredEntriesToUpdateBatch (tm_pvtdataPurgeMgr t) (PvtUpdates (cur_batch c)) (HashUpdates (cur_batch c)));
  let batch := mkPrivUpdateBatch (PubUpdates (cur_batch c)) hashedUpdates pvtUpdates in
  let commitHeight := NewHeight (blockNum c) (maxTxNumber c) in
  _ ← on_db (ApplyPrivacyAwareUpdates batch (Some commitHeight));
  _ ← on_db (modify_state clearCache);
  t ← get_state;
  p ← lift_outcome (BlockCommitDone (tm_pvtdataPurgeMgr t));
  modify_state (fun t => mkLockBasedTxMgr (tm_db t) p (tm_usedOnce t) (tm_current t) (tm_notified t ++ cur_listeners c)).

(** The first commit prepares what expires with it; the deferred function prepares for
    the next block, whatever the result. *)
Definition Commit : M LockBasedTxMgr unit := fun t =>
  match tm_current t with
  | None => (Panic "nil pointer dereference", t)
  | Some c =>
      let '(r0, t) :=
        if tm_usedOnce t then (Ret tt, t) else
        match on_purge (PrepareForExpiringKeys (blockNum c)) t with
        | (Ret _, t) => (Ret tt, mkLockBasedTxMgr (tm_db t) (tm_pvtdataPurgeMgr t) true (tm_current t) (tm_notified t))
        | r => r
        end in
      match r0 with
      | Ret _ =>
          let '(r, t) := commit_body c t in
          match on_purge (PrepareForExpiringKeys (u64 (blockNum c + 1))) t with
          | (Ret _, t) => (r, set_current None t)
          | (Err e, t) => (Err e, t)
          | (Panic msg, t) => (Panic msg, t)
          end
      | _ => (r0, t)
      end
  end.

Definition Rollback : M LockBasedTxMgr unit := modify_state (set_current None).

(** ** Recovery *)

Definition GetLastSavepoint (t : LockBasedTxMgr) : outcome (option Height) := GetLatestSavePoint (db_vdb (tm_db t)).

Definition ShouldRecover (lastAvailableBlock : Z) (t : LockBasedTxMgr) : outcome (bool * Z) :=
  savepoint ← GetLastSavepoint t;
  match savepoint with
  | None => Ret (true, 0)
  | Some savepoint => Ret (negb (BlockNum savepoint =? lastAvailableBlock), u64 (BlockNum savepoint + 1))
  end.

Definition CommitLostBlock (fuel : nat) (blockAndPvtdata : BlockAndPvtData) : M LockBasedTxMgr unit :=
  _ ← ValidateAndPrepare fuel blockAndPvtdata false;
  Commit.

(** ** Late private data *)

Definition UpdateOldExpiryInfo_step (b : PrivUpdateBatch) : M LockBasedTxMgr unit :=
  t ← get_state;
  p ← lift_outcome (UpdateExpiryInfoOfPvtDataOfOldBlocks (PvtUpdates b) (tm_pvtdataPurgeMgr t));
  modify_state (set_purge p).

Definition RemoveStaleAndCommitPvtDataOfOldBlocks (reconciledPvtdata : gmap Z (list TxPvtData)) : M LockBasedTxMgr unit :=
  uniquePvtData ← lift_outcome (constructUniquePvtData reconciledPvtdata);
  if bool_decide (uniquePvtData = ∅) then mret tt else
  uniquePvtData ← on_db (findAndRemoveStalePvtData uniquePvtData);
  batch ← lift_outcome (transformToUpdateBatch uniquePvtData);
  _ ← UpdateOldExpiryInfo_step batch;
  on_db (ApplyPrivacyAwareUpdates batch None).

End Manager.
