(* ===== verification/ExpiryOk.v ===== *)
(** * Expiry of private data, block after block

    [expiry_inv] relates the state after a block to the schedule: what is in the
    state is listed under the block at which it expires, which is still to come.
    Preparing a block finds exactly what expires with it ([prepare_ok]); committing
    a block deletes exactly that, unless the block updates it ([Commit_ok]);
    private data that arrive late keep the invariant ([OldPvtDataOk]). *)

From S2P Require Import Prelude OrderedCode LevelDB Sha256 Proto Block StateProto StateDB StateDBOk PrivState PrivStateOk RwSet Validation ValidationOk RwSetBuilder Simulator BatchPreparer PurgeMgr PurgeMgrOk QueryUtil TxMgr.

Abbreviation blk vv := (BlockNum (vv_Version vv)).

(** Hashes, with the block that wrote them, that the schedule does not know: the block
    deletes their private key. *)
Abbreviation unscheduled := (gset (bytes * bytes * bytes * Z)).

Lemma last_bind_one {A B} (g : A -> list B) (l : list A) (r : list B) :
  (forall a, a ∈ l -> g a = [] \/ g a = r) -> (exists a, a ∈ l /\ g a = r) -> last (l ≫= g) = last r.
Proof.
  intros Hg (a & Ha & Er). assert (Hl : forall l', l' ⊆ l -> last (l' ≫= g) = None \/ last (l' ≫= g) = last r).
  { induction l' as [|b l' IH]; intros Hs; [by left|]. cbn [mbind list_bind]. rewrite last_app. destruct (last (mbind g l')) as [y|] eqn:E.
    - right. destruct IH as [IH|IH]; [intros z Hz; apply Hs; by right|done|done].
    - destruct (Hg b) as [->| ->]; [apply Hs; by left|by left|by right]. }
  destruct (Hl l) as [E|E]; [done| |done]. rewrite E. apply last_None in E. destruct r as [|y r]; [done|].
  assert (Hy : y ∈ l ≫= g) by (apply list_elem_of_bind; exists a; rewrite Er; split; [by left|done]). rewrite E in Hy. by apply not_elem_of_nil in Hy.
Qed.

Lemma last_of_same {A} (l : list A) (x : A) : (forall y, y ∈ l -> y = x) -> (exists y, y ∈ l) -> last l = Some x.
Proof.
  intros H (y & Hy). destruct (last l) as [z|] eqn:E; [|apply last_None in E; subst; by apply not_elem_of_nil in Hy].
  f_equal. by apply H, last_Some_elem_of.
Qed.

Section Expiry.
Context {BP : BTLPolicy} {BO : BTLPolicyOk} {PK : Codec PvtdataKeysMsg} {PO : CodecOk PvtdataKeysMsg}.
Context {D : Type} {VD : VersionedDB D} {VO : VersionedDBOk D}.

(** The private keys in play, among which there are no two with the same hash. *)
Variable keys : bytes -> Prop.
Hypothesis keys_distinct : forall k k', keys k -> keys k' -> Sum256 k = Sum256 k' -> k = k'.

Abbreviation hash_of σ ns coll h := (σ !! loc (D := D) (HashKey ns coll h)).
Abbreviation pvt_of σ ns coll key := (σ !! loc (D := D) (PvtKey ns coll key)).

Definition expires (ns coll : bytes) (vv : VersionedValue) (e : Z) : Prop := GetExpiringBlock ns coll (blk vv) = Ret e.

Definition f_at (f : schedule) (k : expiryInfoKey) (ns coll : bytes) : list KeyAndHash :=
  match f !! k with Some w => pk_at w ns coll | None => [] end.

(** The last entry of a hash is the one with the key. *)
Definition listed_key (f : schedule) (k : expiryInfoKey) (ns coll key : bytes) : Prop :=
  last (with_hash (Sum256 key) (f_at f k ns coll)) = Some (mkKeyAndHash key (Sum256 key)).

(** An entry of the schedule is of a committed block; what is in the state under the
    entry's hash or key is not older. *)
Record entry_inv (N : Z) (σ : state) (k : expiryInfoKey) (ns coll : bytes) (x : KeyAndHash) : Prop := {
  en_names : dk_ok (HashKey ns coll (kh_Hash x));
  en_expires : GetExpiringBlock ns coll (ek_committingBlk k) = Ret (ek_expiryBlk k);
  en_finite : ek_expiryBlk k <> MaxUint64;
  en_past : ek_committingBlk k <= N;
  en_hash : forall vv, hash_of σ ns coll (kh_Hash x) = Some vv -> ek_committingBlk k <= blk vv;
  en_key : kh_Key x <> [] -> keys (kh_Key x) /\ kh_Hash x = Sum256 (kh_Key x) /\
    forall vv, pvt_of σ ns coll (kh_Key x) = Some vv -> ek_committingBlk k <= blk vv }.

Record expiry_inv (N : Z) (L : unscheduled) (σ : state) (f : schedule) : Prop := {
  ei_hash : forall ns coll h vv, dk_ok (HashKey ns coll h) -> hash_of σ ns coll h = Some vv ->
    0 <= blk vv <= N /\ exists e, expires ns coll vv e /\
      (e = MaxUint64 \/ (ns, coll, h, blk vv) ∈ L \/ N < e /\ exists x, x ∈ f_at f (mkexpiryInfoKey (blk vv) e) ns coll /\ kh_Hash x = h);
  ei_past : forall ns coll h n, (ns, coll, h, n) ∈ L -> n <= N;
  ei_unlisted : forall ns coll h n e x, (ns, coll, h, n) ∈ L -> x ∈ f_at f (mkexpiryInfoKey n e) ns coll -> kh_Hash x <> h;
  ei_pvt : forall ns coll key vv, dk_ok (PvtKey ns coll key) -> key <> [] -> pvt_of σ ns coll key = Some vv ->
    keys key /\ 0 <= blk vv <= N /\ exists e, expires ns coll vv e /\
      (e = MaxUint64 \/ N < e /\ listed_key f (mkexpiryInfoKey (blk vv) e) ns coll key);
  ei_order : forall ns coll key vv hv, dk_ok (PvtKey ns coll key) -> key <> [] ->
    pvt_of σ ns coll key = Some vv -> hash_of σ ns coll (Sum256 key) = Some hv -> blk vv <= blk hv;
  ei_entry : forall k ns coll x, x ∈ f_at f k ns coll -> entry_inv N σ k ns coll x;
  ei_wire : forall k w, f !! k = Some w -> wire_ok w }.

Lemma expiry_inv_empty (N : Z) : expiry_inv N ∅ ∅ ∅.
Proof.
  constructor; unfold f_at; try (intros *; rewrite lookup_empty).
  - done.
  - by intros ns coll h n ?%not_elem_of_empty.
  - by intros ?%not_elem_of_empty.
  - done.
  - done.
  - by intros ?%not_elem_of_nil.
  - done.
Qed.

(** ** What expires with the next block *)

Record ws_ok (N : Z) (L : unscheduled) (σ : state) (ws : workingset) : Prop := {
  wo_err : ws_err ws = None;
  wo_blk : ws_expiringBlk ws = N + 1;
  wo_clear : forall k, k ∈ ws_toClearFromSchedule ws -> ek_wf k /\ ek_expiryBlk k = N + 1;
  wo_names : forall ns coll h v, ws_toPurge ws !! (ns, coll, h) = Some v -> dk_ok (HashKey ns coll h);
  wo_hash : forall ns coll h, dk_ok (HashKey ns coll h) ->
    (exists v, ws_toPurge ws !! (ns, coll, h) = Some v /\ kv_purgeKeyOnly v = false) <->
    (exists vv, hash_of σ ns coll h = Some vv /\ expires ns coll vv (N + 1) /\ (ns, coll, h, blk vv) ∉ L);
  wo_key : forall ns coll h v, ws_toPurge ws !! (ns, coll, h) = Some v -> kv_key v <> [] -> keys (kv_key v) /\ h = Sum256 (kv_key v);
  wo_pvt : forall ns coll key vv, dk_ok (PvtKey ns coll key) -> key <> [] -> pvt_of σ ns coll key = Some vv ->
    (exists h v, ws_toPurge ws !! (ns, coll, h) = Some v /\ kv_key v = key) <-> expires ns coll vv (N + 1) }.

Lemma transform_lookup (l : list expiryInfo) (ns coll h : bytes) :
  transformToExpiryInfoMap l !! (ns, coll, h) =
    last (l ≫= fun '(k, pk) => (fun x => mkkeyAndVersion (kh_Key x) (ek_committingBlk k) false) <$> with_hash h (pk_at (to_wire pk) ns coll)).
Proof.
  unfold transformToExpiryInfoMap. rewrite fold_insert_vals, vals_bind, lookup_empty.
  match goal with |- match last ?a with _ => _ end = last ?b => assert (a = b) as ->; [|by destruct (last b)] end.
  induction l as [|[k pk] l IH]; [done|]. cbn [mbind list_bind]. f_equal; [|exact IH].
  apply (PvtdataKeys_list_vals (fun x => mkkeyAndVersion (kh_Key x) (ek_committingBlk k) false)).
Qed.

(** The entries retrieved for a block, key hash by key hash: they are all of one block. *)
Lemma transform_retrieved (N : Z) (L : unscheduled) (σ : state) (f : schedule) (l : list expiryInfo) (e : Z) (ns coll h : bytes) (v : keyAndVersion) :
  expiry_inv N L σ f -> (forall k pk, (k, pk) ∈ l <-> exists w, f !! k = Some w /\ ek_expiryBlk k = e /\ pk = of_wire w) ->
  transformToExpiryInfoMap l !! (ns, coll, h) = Some v ->
  kv_purgeKeyOnly v = false /\ mkKeyAndHash (kv_key v) h ∈ f_at f (mkexpiryInfoKey (kv_committingBlock v) e) ns coll.
Proof.
  intros Hi Hl. rewrite transform_lookup. intros E. apply last_Some_elem_of, list_elem_of_bind in E as ([k pk] & Hv & Hk).
  apply list_elem_of_fmap in Hv as (x & -> & Hx). apply list_elem_of_filter in Hx as [Hh Hx]. apply Hl in Hk as (w & Ew & He & ->).
  rewrite to_of_wire in Hx. split; [done|]. cbn [kv_key kv_committingBlock]. unfold f_at. destruct k as [c e']. cbn in He |- *. subst e' h. rewrite Ew. by destruct x.
Qed.

Lemma transform_listed (N : Z) (L : unscheduled) (σ : state) (f : schedule) (l : list expiryInfo) (n e : Z) (ns coll h : bytes) (x : KeyAndHash) :
  expiry_inv N L σ f -> (forall k w, f !! k = Some w -> ek_wf k) -> (forall k pk, (k, pk) ∈ l <-> exists w, f !! k = Some w /\ ek_expiryBlk k = e /\ pk = of_wire w) ->
  last (with_hash h (f_at f (mkexpiryInfoKey n e) ns coll)) = Some x ->
  transformToExpiryInfoMap l !! (ns, coll, h) = Some (mkkeyAndVersion (kh_Key x) n false).
Proof.
  intros Hi Hf Hl E. set (k0 := mkexpiryInfoKey n e) in *. assert (Hx : x ∈ f_at f k0 ns coll) by (by apply last_Some_elem_of, list_elem_of_filter in E as [_ ?]).
  pose proof (ei_entry _ _ _ _ Hi _ _ _ _ Hx) as He. unfold f_at in E, Hx. destruct (f !! k0) as [w0|] eqn:E0; [|by apply not_elem_of_nil in Hx].
  assert (Hone : forall k w y, f !! k = Some w -> ek_expiryBlk k = e -> y ∈ pk_at w ns coll -> k = k0).
  { intros k w y Ew Ee Hy. assert (Hy' : y ∈ f_at f k ns coll) by (unfold f_at; by rewrite Ew).
    pose proof (ei_entry _ _ _ _ Hi _ _ _ _ Hy') as He'. destruct k as [n' e']. cbn in Ee. subst e'. unfold k0. f_equal.
    eapply (GetExpiringBlock_inj ns coll n' n e); [apply (Hf _ _ Ew)|apply (Hf _ _ E0)|apply (en_finite _ _ _ _ _ _ He)|apply (en_expires _ _ _ _ _ _ He')|apply (en_expires _ _ _ _ _ _ He)]. }
  rewrite transform_lookup, (last_bind_one _ _ ((fun x => mkkeyAndVersion (kh_Key x) n false) <$> with_hash h (pk_at w0 ns coll))); [by rewrite fmap_last, E| |].
  - intros [k pk] (w & Ew & Ee & ->)%Hl. rewrite to_of_wire. destruct (with_hash h (pk_at w ns coll)) as [|y ys] eqn:Ey; [by left|]. right.
    assert (Hy : y ∈ with_hash h (pk_at w ns coll)) by (rewrite Ey; by left). apply list_elem_of_filter in Hy as [_ Hy].
    pose proof (Hone k w y Ew Ee Hy) as ->. rewrite E0 in Ew. injection Ew as <-. by rewrite Ey.
  - exists (k0, of_wire w0). split; [apply Hl; eauto|]. by rewrite to_of_wire.
Qed.

(** What becomes of an entry, on the state. *)
Definition same_block (vv : option VersionedValue) (n : Z) : bool := match vv with Some vv => blk vv =? n | None => false end.

Definition judge (σ : state) (k : bytes * bytes * bytes) (v : keyAndVersion) : option keyAndVersion :=
  let '(ns, coll, h) := k in
  if same_block (hash_of σ ns coll h) (kv_committingBlock v) then Some v else
  if bool_decide (kv_key v = []) then None else
  if same_block (pvt_of σ ns coll (kv_key v)) (kv_committingBlock v) then Some (mkkeyAndVersion (kv_key v) (kv_committingBlock v) true) else None.

Lemma view_GetKeyHashVersion (db : DB D) (σ : state) (ns coll h : bytes) :
  db_view db σ -> dk_ok (HashKey ns coll h) -> GetKeyHashVersion db ns coll h = Ret (option_map vv_Version (hash_of σ ns coll h)).
Proof. intros [Hv _] Hk. apply view_GetVersion; [done|]. by apply (loc_ns_ok (HashKey ns coll h)). Qed.

Lemma view_GetPrivateData (db : DB D) (σ : state) (ns coll key : bytes) :
  db_view db σ -> dk_ok (PvtKey ns coll key) -> GetPrivateData db ns coll key = Ret (pvt_of σ ns coll key).
Proof. intros [Hv _] Hk. apply view_GetState; [done|]. by apply (loc_ns_ok (PvtKey ns coll key)). Qed.

Lemma evaluate_entry_ok (db : DB D) (σ : state) (ns coll h : bytes) (v : keyAndVersion) :
  db_view db σ -> dk_ok (HashKey ns coll h) -> evaluate_entry db (ns, coll, h) v = Ret (judge σ (ns, coll, h) v).
Proof.
  intros Hv Hk. unfold evaluate_entry, judge. rewrite (view_GetKeyHashVersion _ σ), (view_GetPrivateData _ σ) by done. cbn [mbind outcome_bind].
  assert (sameVersion (option_map vv_Version (hash_of σ ns coll h)) (kv_committingBlock v) = same_block (hash_of σ ns coll h) (kv_committingBlock v)) as ->
    by (by destruct (hash_of σ ns coll h)).
  destruct (same_block (hash_of σ ns coll h) _); [done|]. case_bool_decide; [done|].
  assert (sameVersionFromVal (pvt_of σ ns coll (kv_key v)) (kv_committingBlock v) = same_block (pvt_of σ ns coll (kv_key v)) (kv_committingBlock v)) as ->
    by (by destruct (pvt_of σ ns coll (kv_key v))).
  by destruct (same_block (pvt_of σ ns coll (kv_key v)) _).
Qed.

Lemma evaluate_entries_ok (db : DB D) (σ : state) (e : Z) (m : expiryInfoMap) :
  db_view db σ -> (forall ns coll h v, m !! (ns, coll, h) = Some v -> dk_ok (HashKey ns coll h)) ->
  exists toPurge, evaluate_entries db e (map_to_list m) = Ret (toPurge, (fun '(_, v) => mkexpiryInfoKey (kv_committingBlock v) e) <$> map_to_list m) /\
    forall k, toPurge !! k = m !! k ≫= judge σ k.
Proof.
  intros Hv Hm. assert (H : forall l, NoDup l.*1 -> (forall ns coll h v, (ns, coll, h, v) ∈ l -> dk_ok (HashKey ns coll h)) ->
    exists toPurge, evaluate_entries db e l = Ret (toPurge, (fun '(_, v) => mkexpiryInfoKey (kv_committingBlock v) e) <$> l) /\
      forall k, toPurge !! k = (list_to_map l : expiryInfoMap) !! k ≫= judge σ k).
  { induction l as [|[[[ns coll] h] v] l IH]; intros Hn Hl.
    - exists ∅. split; [done|]. intros k. by rewrite lookup_empty.
    - cbn [fmap list_fmap fst] in Hn. apply NoDup_cons in Hn as [Hk Hn]. destruct IH as (toPurge & E & Hp); [done|intros; eapply Hl; by right|].
      cbn [evaluate_entries]. rewrite (evaluate_entry_ok _ σ), E by (done || eapply Hl; by left). cbn [mbind outcome_bind]. eexists. split; [done|].
      intros k. cbn [list_to_map foldr fst snd]. destruct (decide ((ns, coll, h) = k)) as [<-|Hne].
      + rewrite lookup_insert_eq. cbn [mbind option_bind]. destruct (judge σ _ v); [by rewrite lookup_insert_eq|].
        rewrite Hp. apply not_elem_of_list_to_map_1 in Hk. by setoid_rewrite Hk.
      + rewrite (lookup_insert_ne (list_to_map l)) by done. destruct (judge σ _ v); [rewrite lookup_insert_ne by done|]; apply Hp. }
  destruct (H (map_to_list m)) as (toPurge & E & Hp); [apply NoDup_fst_map_to_list|intros *; rewrite elem_of_map_to_list; apply Hm|].
  exists toPurge. split; [done|]. intros k. by rewrite Hp, list_to_map_to_list.
Qed.

Lemma preload_ok (db : DB D) (σ : state) (m : expiryInfoMap) :
  db_view db σ -> exists db', preloadCommittedVersionsInCache m db = (Ret tt, db') /\ db_view db' σ.
Proof.
  intros Hv. unfold preloadCommittedVersionsInCache. destruct (negb _); [by exists db|]. by apply LoadCommittedVersions_ok.
Qed.

(** The judged entries are what expires. *)
Lemma judged_ok (N : Z) (L : unscheduled) (σ : state) (f : schedule) (l : list expiryInfo) (toPurge : expiryInfoMap) (toClear : list expiryInfoKey) :
  expiry_inv N L σ f -> (forall k w, f !! k = Some w -> ek_wf k) -> -1 <= N -> N + 1 < MaxUint64 ->
  (forall k pk, (k, pk) ∈ l <-> exists w, f !! k = Some w /\ ek_expiryBlk k = N + 1 /\ pk = of_wire w) ->
  (forall k, toPurge !! k = transformToExpiryInfoMap l !! k ≫= judge σ k) ->
  (forall k, k ∈ toClear -> ek_wf k /\ ek_expiryBlk k = N + 1) ->
  ws_ok N L σ (mkworkingset toPurge toClear (N + 1) None).
Proof.
  intros Hi Hf HN0 HN Hl Hp Hc.
  assert (Hin : forall ns coll h v, toPurge !! (ns, coll, h) = Some v -> exists v0, judge σ (ns, coll, h) v0 = Some v /\ kv_purgeKeyOnly v0 = false /\
    kv_key v = kv_key v0 /\ kv_committingBlock v = kv_committingBlock v0 /\
    mkKeyAndHash (kv_key v0) h ∈ f_at f (mkexpiryInfoKey (kv_committingBlock v0) (N + 1)) ns coll /\
    entry_inv N σ (mkexpiryInfoKey (kv_committingBlock v0) (N + 1)) ns coll (mkKeyAndHash (kv_key v0) h)).
  { intros ns coll h v E. rewrite Hp in E. destruct (transformToExpiryInfoMap l !! (ns, coll, h)) as [v0|] eqn:E0; [|done]. exists v0. cbn [mbind option_bind] in E.
    destruct (transform_retrieved N L σ f l (N + 1) ns coll h v0 Hi Hl E0) as [Ho Hx]. split; [done|]. split; [done|].
    assert (kv_key v = kv_key v0 /\ kv_committingBlock v = kv_committingBlock v0) as [? ?].
    { unfold judge in E. destruct (same_block _ _); [by injection E as <-|]. case_bool_decide; [done|]. destruct (same_block _ _); [by injection E as <-|done]. }
    split; [done|]. split; [done|]. split; [done|]. by apply (ei_entry _ _ _ _ Hi). }
  constructor; cbn [ws_err ws_expiringBlk ws_toClearFromSchedule ws_toPurge]; [done|done|exact Hc|..].
  - intros ns coll h v E. destruct (Hin _ _ _ _ E) as (v0 & _ & _ & _ & _ & _ & He). apply (en_names _ _ _ _ _ _ He).
  - intros ns coll h Hk. split.
    + intros (v & E & Ho). destruct (Hin _ _ _ _ E) as (v0 & Ej & Ho0 & Ek & Eb & Hlist & He). unfold judge in Ej.
      destruct (hash_of σ ns coll h) as [vv|] eqn:Eh; cbn [same_block] in Ej.
      * destruct (Z.eqb_spec (blk vv) (kv_committingBlock v0)) as [Hb|Hb].
        -- exists vv. split; [done|]. unfold expires. rewrite Hb. split; [apply (en_expires _ _ _ _ _ _ He)|].
           intros Hl0. by apply (ei_unlisted _ _ _ _ Hi _ _ _ _ _ _ Hl0 Hlist).
        -- case_bool_decide; [done|]. destruct (same_block _ _); [|done]. injection Ej as <-. done.
      * case_bool_decide; [done|]. destruct (same_block _ _); [|done]. injection Ej as <-. done.
    + intros (vv & Eh & Hx & Hnl). destruct (ei_hash _ _ _ _ Hi _ _ _ _ Hk Eh) as (Hb & e & He & Hc'). unfold expires in *. rewrite Hx in He. injection He as <-.
      destruct Hc' as [?|[?|[_ (x & Hxin & Hxh)]]]; [lia|done|].
      destruct (last (with_hash h (f_at f (mkexpiryInfoKey (blk vv) (N + 1)) ns coll))) as [y|] eqn:El.
      * exists (mkkeyAndVersion (kh_Key y) (blk vv) false). split; [|done]. rewrite Hp, (transform_listed N L σ f l (blk vv) (N + 1) ns coll h y) by done.
        cbn [mbind option_bind judge kv_committingBlock]. rewrite Eh. cbn [same_block]. by rewrite Z.eqb_refl.
      * apply last_None in El. exfalso. assert (Hw : x ∈ with_hash h (f_at f (mkexpiryInfoKey (blk vv) (N + 1)) ns coll)) by (by apply list_elem_of_filter).
        rewrite El in Hw. by apply not_elem_of_nil in Hw.
  - intros ns coll h v E Hne. destruct (Hin _ _ _ _ E) as (v0 & _ & _ & Ek & _ & _ & He). rewrite Ek in *.
    destruct (en_key _ _ _ _ _ _ He Hne) as (H1 & H2 & _). done.
  - intros ns coll key vv Hk Hne Ep. split.
    + intros (h & v & E & Hkey). destruct (Hin _ _ _ _ E) as (v0 & Ej & _ & Ek & _ & _ & He). rewrite Hkey in Ek.
      destruct (en_key _ _ _ _ _ _ He) as (_ & Hh & Hle); [cbn; by rewrite <- Ek|]. cbn [kh_Key kh_Hash] in Hh, Hle. rewrite <- Ek in Hh, Hle. subst h.
      specialize (Hle vv Ep). cbn [ek_committingBlk] in Hle. unfold expires. pose proof (en_expires _ _ _ _ _ _ He) as Hee. cbn [ek_committingBlk ek_expiryBlk] in Hee.
      assert (blk vv = kv_committingBlock v0) as ->; [|done]. unfold judge in Ej. rewrite <- Ek in Ej.
      destruct (hash_of σ ns coll (Sum256 key)) as [hv|] eqn:Eh; cbn [same_block] in Ej.
      * pose proof (ei_order _ _ _ _ Hi _ _ _ _ _ Hk Hne Ep Eh). destruct (Z.eqb_spec (blk hv) (kv_committingBlock v0)); [lia|].
        rewrite bool_decide_eq_false_2, Ep in Ej by done. cbn [same_block] in Ej. by destruct (Z.eqb_spec (blk vv) (kv_committingBlock v0)).
      * rewrite bool_decide_eq_false_2, Ep in Ej by done. cbn [same_block] in Ej. by destruct (Z.eqb_spec (blk vv) (kv_committingBlock v0)).
    + intros Hx. destruct (ei_pvt _ _ _ _ Hi _ _ _ _ Hk Hne Ep) as (_ & Hb & e & He & Hc'). unfold expires in *. rewrite Hx in He. injection He as <-.
      destruct Hc' as [?|[_ Hlk]]; [lia|]. exists (Sum256 key). unfold listed_key in Hlk.
      pose proof (transform_listed N L σ f l (blk vv) (N + 1) ns coll (Sum256 key) _ Hi Hf Hl Hlk) as Ht. cbn [kh_Key] in Ht.
      rewrite Hp, Ht. cbn [mbind option_bind judge kv_committingBlock kv_key]. destruct (same_block (hash_of σ ns coll (Sum256 key)) (blk vv)); [eauto|].
      rewrite bool_decide_eq_false_2, Ep by done. cbn [same_block]. rewrite Z.eqb_refl. eauto.
Qed.

Lemma prepare_ok (N : Z) (L : unscheduled) (σ : state) (f : schedule) (ek : kvmap) (db : DB D) :
  expiry_inv N L σ f -> keeper_view ek f -> db_view db σ -> -1 <= N -> N + 1 < MaxUint64 ->
  exists ws db', prepareWorkingsetFor (N + 1) ek db = (Ret ws, db') /\ db_view db' σ /\ ws_ok N L σ ws.
Proof.
  intros Hi Hk Hv HN0 HN. destruct (keeper_retrieve_ok ek f (N + 1) Hk) as (l & El & Hl); [lia|]. unfold prepareWorkingsetFor. rewrite El.
  destruct (preload_ok db σ (transformToExpiryInfoMap l) Hv) as (db' & -> & Hv').
  assert (Hm : forall ns coll h v, transformToExpiryInfoMap l !! (ns, coll, h) = Some v -> dk_ok (HashKey ns coll h) /\ is_u64 (kv_committingBlock v)).
  { intros ns coll h v E. destruct (transform_retrieved N L σ f l (N + 1) ns coll h v Hi Hl E) as [_ Hx].
    split; [apply (en_names _ _ _ _ _ _ (ei_entry _ _ _ _ Hi _ _ _ _ Hx))|].
    unfold f_at in Hx. destruct (f !! _) as [w|] eqn:Ew; [|by apply not_elem_of_nil in Hx]. apply (kw_wf _ _ Hk _ _ Ew). }
  destruct (evaluate_entries_ok db' σ (N + 1) (transformToExpiryInfoMap l) Hv') as (toPurge & -> & Hp); [intros; by eapply Hm|].
  eexists _, db'. split; [done|]. split; [done|]. apply (judged_ok N L σ f l); try done.
  - apply (kw_wf _ _ Hk).
  - intros k ([[[ns coll] h] v] & -> & Hin)%list_elem_of_fmap. apply elem_of_map_to_list in Hin. split; [|done].
    split; [by eapply Hm|]. unfold is_u64, MaxUint64 in *. cbn. lia.
Qed.

(** ** Committing a block *)

(** A batch of block [num]: a private key comes with its hash. *)
Record batch_of (num : Z) (b : PrivUpdateBatch) : Prop := {
  bo_ok : updates_ok b;
  bo_block : forall k vv, upd_get b k = Some vv -> blk vv = num;
  bo_btl : forall ns coll h vv, UpdateMap_Get (HashUpdates b) ns coll h = Some vv -> is_ret (GetBTL ns coll) = true;
  bo_keys : forall ns coll key vv, UpdateMap_Get (PvtUpdates b) ns coll key = Some vv -> keys key;
  bo_hash : forall ns coll key vv, UpdateMap_Get (PvtUpdates b) ns coll key = Some vv ->
    is_Some (UpdateMap_Get (HashUpdates b) ns coll (Sum256 key)) }.

(** The hashes a batch writes while it deletes their private keys: the last transaction
    that writes the hash has left its private data out, an earlier one of the block has
    deleted the key. *)
Definition unscheduled_of (num : Z) (b : PrivUpdateBatch) : unscheduled :=
  list_to_set (omap (fun '((ns, coll, key), vv) =>
    match UpdateMap_Get (HashUpdates b) ns coll (Sum256 key) with
    | Some hv => if IsDelete vv && negb (IsDelete hv) then Some (ns, coll, Sum256 key, num) else None
    | None => None
    end) (map_to_list (ToCompositeKeyMap (PvtUpdates b)))).

Lemma unscheduled_of_spec (num : Z) (b : PrivUpdateBatch) (ns coll h : bytes) (n : Z) :
  (ns, coll, h, n) ∈ unscheduled_of num b <-> n = num /\ exists key vv hv, h = Sum256 key /\
    UpdateMap_Get (PvtUpdates b) ns coll key = Some vv /\ IsDelete vv = true /\
    UpdateMap_Get (HashUpdates b) ns coll h = Some hv /\ IsDelete hv = false.
Proof.
  unfold unscheduled_of. rewrite elem_of_list_to_set, list_elem_of_omap. split.
  - intros ([[[ns' coll'] key] vv] & Hin%elem_of_map_to_list & E). rewrite ToCompositeKeyMap_lookup in Hin.
    destruct (UpdateMap_Get (HashUpdates b) ns' coll' (Sum256 key)) as [hv|] eqn:Eh; [|done].
    destruct (IsDelete vv) eqn:Ed, (IsDelete hv) eqn:Edh; try done. injection E as -> -> <- <-. split; [done|]. by exists key, vv, hv.
  - intros (-> & key & vv & hv & -> & Hp & Hd & Hh & Hdh). exists (ns, coll, key, vv). split.
    + apply elem_of_map_to_list. by rewrite ToCompositeKeyMap_lookup.
    + by rewrite Hh, Hd, Hdh.
Qed.

(** The batch with the deletion of what expires. *)
Definition purged (N : Z) (ws : workingset) (b : PrivUpdateBatch) : PrivUpdateBatch :=
  let '(p, h) := fold_left (fun acc x => add_expired (ws_expiringBlk ws) x acc) (map_to_list (ws_toPurge ws)) (PvtUpdates b, HashUpdates b) in
  mkPrivUpdateBatch (PubUpdates b) h p.

Lemma UpdateMap_Contains_Get (b : UpdateMap) (ns coll key : bytes) : UpdateMap_Contains b ns coll key = is_Some_b (UpdateMap_Get b ns coll key).
Proof. unfold UpdateMap_Contains, UpdateMap_Get. destruct (b !! ns); [apply Batch_Exists_Get|done]. Qed.

Lemma UpdateMap_Get_Delete (ns coll key : bytes) (ver : Height) (b : UpdateMap) (n c k : bytes) :
  UpdateMap_Get (UpdateMap_Delete ns coll key ver b) n c k =
    if decide ((n, c, k) = (ns, coll, key)) then Some (mkVersionedValue None [] ver) else UpdateMap_Get b n c k.
Proof. apply UpdateMap_Get_insert. Qed.

Abbreviation marker e := (mkVersionedValue None [] (NewHeight e MaxUint64)).

(** The hash, and the private key, is on the list. *)
Definition on_list_hash (l : list (bytes * bytes * bytes * keyAndVersion)) (ns coll h : bytes) : bool :=
  existsb (fun '(k, v) => bool_decide (k = (ns, coll, h)) && negb (kv_purgeKeyOnly v)) l.

Definition on_list_pvt (l : list (bytes * bytes * bytes * keyAndVersion)) (ns coll key : bytes) : bool :=
  existsb (fun '((n, c, _), v) => bool_decide ((n, c, kv_key v) = (ns, coll, key)) && negb (bool_decide (key = []))) l.

Lemma add_expired_get (e : Z) (l : list (bytes * bytes * bytes * keyAndVersion)) (p h : UpdateMap) (ns coll k : bytes) :
  let r := fold_left (fun acc x => add_expired e x acc) l (p, h) in
  UpdateMap_Get (snd r) ns coll k = match UpdateMap_Get h ns coll k with Some vv => Some vv | None => if on_list_hash l ns coll k then Some (marker e) else None end /\
  UpdateMap_Get (fst r) ns coll k = match UpdateMap_Get p ns coll k with Some vv => Some vv | None => if on_list_pvt l ns coll k then Some (marker e) else None end.
Proof.
  revert p h. induction l as [|[[[n c] kh] v] l IH]; intros p h r.
  { cbn. by destruct (UpdateMap_Get h ns coll k), (UpdateMap_Get p ns coll k). }
  subst r. cbn [fold_left add_expired]. set (p' := if negb (bool_decide (kv_key v = [])) && _ then _ else p). set (h' := if _ && negb (kv_purgeKeyOnly v) then _ else h).
  destruct (IH p' h') as [-> ->]. cbn [on_list_hash on_list_pvt existsb]. fold (on_list_hash l ns coll k) (on_list_pvt l ns coll k). split.
  - unfold h'. rewrite UpdateMap_Contains_Get. destruct (decide ((ns, coll, k) = (n, c, kh))) as [[= -> -> ->]|Hne].
    + rewrite (bool_decide_eq_true_2 (_ = _)) by done. cbn [andb]. destruct (UpdateMap_Get h n c kh) as [vv|] eqn:E; cbn [is_Some_b negb andb]; [by rewrite E|].
      destruct (kv_purgeKeyOnly v); cbn [negb orb]; [by rewrite E|]. by rewrite UpdateMap_Get_Delete, decide_True.
    + rewrite (bool_decide_eq_false_2 (_ = _)) by congruence. cbn [andb orb].
      destruct (negb (is_Some_b _) && negb (kv_purgeKeyOnly v)); [|done]. by rewrite UpdateMap_Get_Delete, decide_False.
  - unfold p'. rewrite UpdateMap_Contains_Get. destruct (decide ((ns, coll, k) = (n, c, kv_key v))) as [[= -> -> ->]|Hne].
    + rewrite (bool_decide_eq_true_2 ((n, c, kv_key v) = _)) by done. cbn [andb]. destruct (UpdateMap_Get p n c (kv_key v)) as [vv|] eqn:E; cbn [is_Some_b negb andb].
      * by rewrite andb_false_r, E.
      * rewrite andb_true_r. destruct (negb (bool_decide (kv_key v = []))); cbn [orb]; [|by rewrite E]. by rewrite UpdateMap_Get_Delete, decide_True.
    + rewrite (bool_decide_eq_false_2 ((n, c, kv_key v) = _)) by congruence. cbn [andb orb]. destruct (negb (bool_decide (kv_key v = [])) && negb (is_Some_b _)); [|done].
      by rewrite UpdateMap_Get_Delete, decide_False.
Qed.

Lemma on_list_hash_spec (N : Z) (L : unscheduled) (σ : state) (ws : workingset) (ns coll h : bytes) :
  ws_ok N L σ ws -> dk_ok (HashKey ns coll h) ->
  on_list_hash (map_to_list (ws_toPurge ws)) ns coll h = true <->
    exists vv, hash_of σ ns coll h = Some vv /\ expires ns coll vv (N + 1) /\ (ns, coll, h, blk vv) ∉ L.
Proof.
  intros Hw Hk. rewrite <- (wo_hash _ _ _ _ Hw) by done. unfold on_list_hash. rewrite existsb_exists. split.
  - intros ([k v] & Hin & [Hk1 Ho]%andb_true_iff). apply bool_decide_eq_true in Hk1. subst k. apply list_elem_of_In, elem_of_map_to_list in Hin. exists v. split; [done|]. by apply negb_true_iff.
  - intros (v & E & Ho). exists (ns, coll, h, v). split; [by apply list_elem_of_In, elem_of_map_to_list|]. by rewrite bool_decide_eq_true_2, Ho.
Qed.

Lemma on_list_pvt_spec (N : Z) (L : unscheduled) (σ : state) (ws : workingset) (ns coll key : bytes) (vv : VersionedValue) :
  ws_ok N L σ ws -> dk_ok (PvtKey ns coll key) -> pvt_of σ ns coll key = Some vv ->
  on_list_pvt (map_to_list (ws_toPurge ws)) ns coll key = true <-> key <> [] /\ expires ns coll vv (N + 1).
Proof.
  intros Hw Hk Ep. unfold on_list_pvt. rewrite existsb_exists. split.
  - intros ([[[n c] h] v] & Hin & [Hk1 Ho]%andb_true_iff). apply bool_decide_eq_true in Hk1. injection Hk1 as -> -> Ek.
    apply negb_true_iff, bool_decide_eq_false in Ho. apply list_elem_of_In, elem_of_map_to_list in Hin. split; [done|].
    apply (wo_pvt _ _ _ _ Hw _ _ _ _ Hk Ho Ep). eauto.
  - intros [Hne Hx]. apply (wo_pvt _ _ _ _ Hw _ _ _ _ Hk Hne Ep) in Hx as (h & v & E & Ek). exists (ns, coll, h, v).
    split; [by apply list_elem_of_In, elem_of_map_to_list|]. by rewrite bool_decide_eq_true_2, bool_decide_eq_false_2 by congruence.
Qed.

(** The state after the block: what the block updates, and of the rest what does not
    expire with the block.  Hashes that are not in the schedule stay, and the empty
    private key, which the schedule takes for a key that is not known. *)
Definition expired_b (N : Z) (L : unscheduled) (k : data_key) (vv : VersionedValue) : bool :=
  match k with
  | PubKey _ _ => false
  | HashKey ns coll h => negb (bool_decide ((ns, coll, h, blk vv) ∈ L)) &&
      match GetExpiringBlock ns coll (blk vv) with Ret e => e =? N + 1 | _ => false end
  | PvtKey ns coll key => negb (bool_decide (key = [])) && match GetExpiringBlock ns coll (blk vv) with Ret e => e =? N + 1 | _ => false end
  end.

Definition committed_value (N : Z) (L : unscheduled) (σ : state) (b : PrivUpdateBatch) (k : data_key) : option VersionedValue :=
  match upd_get b k with
  | Some vv => live vv
  | None => match σ !! loc (D := D) k with Some vv => if expired_b N L k vv then None else Some vv | None => None end
  end.

Lemma expires_b (ns coll : bytes) (vv : VersionedValue) (e : Z) :
  match GetExpiringBlock ns coll (blk vv) with Ret e' => e' =? e | _ => false end = true <-> expires ns coll vv e.
Proof. unfold expires. destruct (GetExpiringBlock ns coll (blk vv)) as [e'| |]; [|done..]. rewrite Z.eqb_eq. split; congruence. Qed.

Lemma purged_get (N : Z) (ws : workingset) (b : PrivUpdateBatch) (k : data_key) :
  upd_get (purged N ws b) k = match upd_get b k with
    | Some vv => Some vv
    | None => if match k with
        | PubKey _ _ => false
        | HashKey ns coll h => on_list_hash (map_to_list (ws_toPurge ws)) ns coll h
        | PvtKey ns coll key => on_list_pvt (map_to_list (ws_toPurge ws)) ns coll key
        end then Some (marker (ws_expiringBlk ws)) else None
    end.
Proof.
  unfold purged. pose proof (add_expired_get (ws_expiringBlk ws) (map_to_list (ws_toPurge ws)) (PvtUpdates b) (HashUpdates b)) as H.
  destruct (fold_left _ _ _) as [p h]. destruct k as [ns key|ns coll kh|ns coll key]; cbn [upd_get PubUpdates HashUpdates PvtUpdates].
  - by destruct (Batch_Get (PubUpdates b) ns key).
  - apply (H ns coll kh).
  - apply (H ns coll key).
Qed.

Lemma purged_ok (N : Z) (L : unscheduled) (σ : state) (ws : workingset) (b : PrivUpdateBatch) :
  -1 <= N -> N + 1 < MaxUint64 -> ws_ok N L σ ws -> updates_ok b -> updates_ok (purged N ws b).
Proof.
  intros HN0 HN Hw Hb k vv. rewrite purged_get. destruct (upd_get b k) as [vv'|] eqn:E; [intros [= <-]; by apply Hb|].
  destruct (match k with PubKey _ _ => false | _ => _ end) eqn:El; [|done]. intros [= <-].
  split; [|rewrite (wo_blk _ _ _ _ Hw); split; unfold is_u64, MaxUint64 in *; cbn; lia].
  destruct k as [|ns coll h|ns coll key]; [done|..]; apply existsb_exists in El as ([[[n c] h'] v] & Hin%list_elem_of_In%elem_of_map_to_list & [El _]%andb_true_iff);
    apply bool_decide_eq_true in El; [injection El as -> -> ->|injection El as -> -> _]; by apply (wo_names _ _ _ _ Hw) in Hin.
Qed.

Lemma purged_apply (N : Z) (L : unscheduled) (σ : state) (ws : workingset) (b : PrivUpdateBatch) (k : data_key) :
  -1 <= N -> N + 1 < MaxUint64 -> ws_ok N L σ ws -> updates_ok b -> dk_ok k ->
  apply_updates (batch_map (combined (D := D) (purged N ws b))) σ !! loc (D := D) k = committed_value N L σ b k.
Proof.
  intros HN0 HN Hw Hb Hk. rewrite combined_apply by (done || by eapply purged_ok). rewrite purged_get. unfold committed_value.
  destruct (upd_get b k) as [vv|]; [done|]. destruct k as [ns key|ns coll h|ns coll key].
  - cbn. by destruct (σ !! _).
  - pose proof (on_list_hash_spec N L σ ws ns coll h Hw Hk) as H. cbn [expired_b]. destruct (hash_of σ ns coll h) as [vv|] eqn:Eh.
    + pose proof (expires_b ns coll vv (N + 1)) as Hx. destruct (on_list_hash _ _ _ _).
      * destruct (proj1 H) as (vv' & [= <-] & Hx1%Hx & Hnl); [done|]. by rewrite Hx1, bool_decide_eq_false_2.
      * case_bool_decide as Hnl; [done|]. cbn [negb andb]. destruct (match GetExpiringBlock _ _ _ with Ret _ => _ | _ => _ end); [|done].
        assert (false = true); [|done]. apply H. exists vv. split; [done|]. split; [by apply Hx|done].
    + by destruct (on_list_hash _ _ _ _).
  - cbn [expired_b]. destruct (pvt_of σ ns coll key) as [vv|] eqn:Ep; [|by destruct (on_list_pvt _ _ _ _)].
    pose proof (on_list_pvt_spec N L σ ws ns coll key vv Hw Hk Ep) as H. rewrite <- expires_b in H.
    destruct (on_list_pvt _ _ _ _).
    + destruct (proj1 H) as [Hne Hx]; [done|]. by rewrite bool_decide_eq_false_2, Hx by done.
    + case_bool_decide as Hne; cbn [negb andb]; [done|]. destruct (match GetExpiringBlock _ _ _ with Ret _ => _ | _ => _ end); [|done].
      assert (false = true) by (by apply H). done.
Qed.

(** The schedule of the batch. *)
Lemma batch_additions_ok (num : Z) (b : PrivUpdateBatch) :
  is_u64 num -> batch_of num b -> Forall addition_ok (pvt_additions (PvtUpdates b) ++ hash_additions (PvtUpdates b) (HashUpdates b)).
Proof.
  intros Hn Hb. assert (Hh : forall ns coll h vv, UpdateMap_Get (HashUpdates b) ns coll h = Some vv -> forall n, is_ret (GetExpiringBlock ns coll n) = true).
  { intros ns coll h vv E n. unfold GetExpiringBlock. pose proof (bo_btl _ _ Hb _ _ _ _ E) as H. by destruct (GetBTL ns coll). }
  apply Forall_app. split; apply Forall_forall; intros a Ha; apply list_elem_of_fmap in Ha as ([[[ns coll] k] vv] & -> & Ha%elem_of_map_to_list).
  - rewrite ToCompositeKeyMap_lookup in Ha. rewrite <- (bo_block _ _ Hb (PvtKey ns coll k) vv Ha) in Hn. split; [done|].
    destruct (bo_hash _ _ Hb _ _ _ _ Ha) as (hv & E). by eapply Hh.
  - apply leftover_lookup in Ha as [Ha _]. rewrite <- (bo_block _ _ Hb (HashKey ns coll k) vv Ha) in Hn. split; [done|]. by eapply Hh.
Qed.

(** The schedule of a batch, entry by entry. *)
Record schedule_of (num : Z) (b : PrivUpdateBatch) (s : gmap expiryInfoKey PvtdataKeys) : Prop := {
  so_ok : PurgeMgrOk.builder_ok s;
  so_num : forall k, is_Some (s !! k) -> ek_committingBlk k = num;
  so_entry : forall k ns coll x, x ∈ b_at s k ns coll ->
    GetExpiringBlock ns coll num = Ret (ek_expiryBlk k) /\ ek_expiryBlk k <> MaxUint64 /\
    (exists vv, UpdateMap_Get (PvtUpdates b) ns coll (kh_Key x) = Some vv /\ IsDelete vv = false /\ kh_Hash x = Sum256 (kh_Key x) \/
       kh_Key x = [] /\ leftover (PvtUpdates b) (HashUpdates b) !! (ns, coll, kh_Hash x) = Some vv /\ IsDelete vv = false);
  so_pvt : forall ns coll key vv e, UpdateMap_Get (PvtUpdates b) ns coll key = Some vv -> IsDelete vv = false ->
    GetExpiringBlock ns coll num = Ret e -> e <> MaxUint64 -> mkKeyAndHash key (Sum256 key) ∈ b_at s (mkexpiryInfoKey num e) ns coll;
  so_unlisted : forall k ns coll h x, (ns, coll, h, num) ∈ unscheduled_of num b -> x ∈ b_at s k ns coll -> kh_Hash x <> h;
  so_hash : forall ns coll h vv e, UpdateMap_Get (HashUpdates b) ns coll h = Some vv -> IsDelete vv = false ->
    (ns, coll, h, num) ∉ unscheduled_of num b -> GetExpiringBlock ns coll num = Ret e -> e <> MaxUint64 -> exists x, x ∈ b_at s (mkexpiryInfoKey num e) ns coll /\ kh_Hash x = h }.

Lemma buildExpirySchedule_ok (num : Z) (b : PrivUpdateBatch) :
  is_u64 num -> batch_of num b ->
  exists s, buildExpirySchedule (PvtUpdates b) (HashUpdates b) = Ret (map_to_list s) /\ schedule_of num b s.
Proof.
  intros Hn Hb. rewrite buildExpirySchedule_eq. set (l := pvt_additions _ ++ hash_additions _ _).
  destruct (additions_ok l ∅ builder_ok_empty (batch_additions_ok num b Hn Hb)) as (s & E & Hs & Hat). rewrite E. exists s. split; [done|].
  assert (Hel : forall k ns coll x, x ∈ b_at s k ns coll <-> exists vv, (ns, coll, kh_Key x, kh_Hash x, vv) ∈ l /\ IsDelete vv = false /\
    blk vv = ek_committingBlk k /\ GetExpiringBlock ns coll (ek_committingBlk k) = Ret (ek_expiryBlk k) /\ ek_expiryBlk k <> MaxUint64).
  { intros k ns coll x. rewrite Hat, b_at_empty. cbn [app]. rewrite list_elem_of_omap. split.
    - intros (a & Ha & (vv & -> & H)%entry_for_Some). eauto.
    - intros (vv & Hin & H). eexists. split; [exact Hin|]. apply entry_for_Some. eauto. }
  assert (Hl : forall ns coll key h vv, (ns, coll, key, h, vv) ∈ l <->
    UpdateMap_Get (PvtUpdates b) ns coll key = Some vv /\ h = Sum256 key \/ key = [] /\ leftover (PvtUpdates b) (HashUpdates b) !! (ns, coll, h) = Some vv).
  { intros ns coll key h vv. unfold l. rewrite elem_of_app. unfold pvt_additions, hash_additions. rewrite !list_elem_of_fmap. split.
    - intros [([[[n c] k] v] & [= -> -> -> -> ->] & H%elem_of_map_to_list)|([[[n c] k] v] & [= -> -> -> -> ->] & H%elem_of_map_to_list)]; [left|by right].
      by rewrite ToCompositeKeyMap_lookup in H.
    - intros [[H ->]|[-> H]]; [left; exists (ns, coll, key, vv)|right; exists (ns, coll, h, vv)]; (split; [done|]); apply elem_of_map_to_list; [|done].
      by rewrite ToCompositeKeyMap_lookup. }
  assert (Hnum : forall ns coll key h vv, (ns, coll, key, h, vv) ∈ l -> blk vv = num).
  { intros ns coll key h vv [[H _]|[_ [H _]%leftover_lookup]]%Hl; [by apply (bo_block _ _ Hb (PvtKey ns coll key))|by apply (bo_block _ _ Hb (HashKey ns coll h))]. }
  constructor; [done|..].
  - intros k Hk. destruct (additions_keys l ∅ s k E Hk) as [[? ?]|(ns & coll & key & h & vv & Hin & ->)]; [by rewrite lookup_empty in *|by eapply Hnum].
  - intros k ns coll x (vv & Hin & Hd & Hk & He & Hx)%Hel. rewrite <- Hk, (Hnum _ _ _ _ _ Hin) in He. split; [done|]. split; [done|].
    exists vv. apply Hl in Hin as [[? ?]|[? ?]]; [by left|by right].
  - intros ns coll key vv e Hg Hd He Hx. apply Hel. exists vv. cbn [kh_Key kh_Hash ek_committingBlk ek_expiryBlk].
    assert (Hin : (ns, coll, key, Sum256 key, vv) ∈ l) by (apply Hl; by left). split; [done|]. split; [done|]. split; [by eapply Hnum|done].
  - intros k ns coll h x (_ & key & vv & hv & -> & Hp & Hdv & _ & _)%unscheduled_of_spec (v & Hin & Hd & _)%Hel Eh.
    apply Hl in Hin as [[Hg Hh]|[_ Hlf]].
    + assert (kh_Key x = key) as Ek by (apply keys_distinct; [by eapply bo_keys|by eapply bo_keys|congruence]). rewrite Ek, Hp in Hg. congruence.
    + rewrite Eh in Hlf. apply leftover_lookup in Hlf as [_ Hlf]. rewrite (Hlf key) in Hp by done. done.
  - intros ns coll h vv e Hg Hd Hns He Hx.
    destruct (decide (Exists (fun '((n, c, key), _) => (n, c, Sum256 key) = (ns, coll, h)) (map_to_list (ToCompositeKeyMap (PvtUpdates b))))) as [Hex|Hno].
    + apply Exists_exists in Hex as ([[[n c] key] v] & Hin%elem_of_map_to_list & [= -> -> <-]). rewrite ToCompositeKeyMap_lookup in Hin.
      exists (mkKeyAndHash key (Sum256 key)). split; [|done]. apply Hel. exists v. cbn [kh_Key kh_Hash ek_committingBlk ek_expiryBlk].
      assert (Hl' : (ns, coll, key, Sum256 key, v) ∈ l) by (apply Hl; by left). split; [done|]. split; [|split; [by eapply Hnum|done]].
      destruct (IsDelete v) eqn:Edv; [|done]. exfalso. apply Hns, unscheduled_of_spec. split; [done|]. by exists key, v, vv.
    + exists (mkKeyAndHash [] h). split; [|done]. apply Hel. exists vv. cbn [kh_Key kh_Hash ek_committingBlk ek_expiryBlk].
      assert (Hl' : (ns, coll, [], h, vv) ∈ l).
      { apply Hl. right. split; [done|]. apply leftover_lookup. split; [done|]. intros key ->. apply eq_None_not_Some. intros [v Hv]. apply Hno, Exists_exists.
        exists (ns, coll, key, v). split; [|done]. apply elem_of_map_to_list. by rewrite ToCompositeKeyMap_lookup. }
      split; [done|]. split; [done|]. split; [by eapply Hnum|done].
Qed.

(** The schedule after the block. *)
Lemma f_at_committed (N : Z) (L : unscheduled) (σ : state) (f : schedule) (s : gmap expiryInfoKey PvtdataKeys) (b : PrivUpdateBatch) (toClear : list expiryInfoKey)
    (k : expiryInfoKey) (ns coll : bytes) :
  expiry_inv N L σ f -> schedule_of (N + 1) b s -> (forall k, k ∈ toClear -> ek_wf k /\ ek_expiryBlk k = N + 1) ->
  f_at (clear toClear (track (map_to_list s) f)) k ns coll =
    if decide (k ∈ toClear) then [] else if decide (ek_committingBlk k = N + 1) then b_at s k ns coll else f_at f k ns coll.
Proof.
  intros Hi Hs Hc. unfold f_at at 1. rewrite clear_lookup, track_lookup. destruct (decide (k ∈ toClear)); [done|].
  unfold b_at. destruct (s !! k) as [v|] eqn:E.
  - rewrite decide_True by (apply (so_num _ _ _ Hs); by rewrite E). done.
  - case_decide as Hk; [|done]. destruct (f !! k) as [w|] eqn:Ew; [|done]. destruct (pk_at w ns coll) as [|x l] eqn:Ex; [done|]. exfalso.
    assert (Hx : x ∈ f_at f k ns coll) by (unfold f_at; rewrite Ew, Ex; by left). pose proof (en_past _ _ _ _ _ _ (ei_entry _ _ _ _ Hi _ _ _ _ Hx)). lia.
Qed.

Section Committed.
Variables (N : Z) (L : unscheduled) (σ σ' : state) (f : schedule) (s : gmap expiryInfoKey PvtdataKeys) (b : PrivUpdateBatch) (ws : workingset).
Hypothesis HN0 : -1 <= N.
Hypothesis HN : N + 1 < MaxUint64.
Hypothesis Hi : expiry_inv N L σ f.
Hypothesis Hw : ws_ok N L σ ws.
Hypothesis Hb : batch_of (N + 1) b.
Hypothesis Hs : schedule_of (N + 1) b s.
Hypothesis Hσ : forall k, dk_ok k -> σ' !! loc (D := D) k = committed_value N L σ b k.

Local Abbreviation L' := (L ∪ unscheduled_of (N + 1) b).
Local Abbreviation f' := (clear (ws_toClearFromSchedule ws) (track (map_to_list s) f)).

Lemma committed_old (n e : Z) (ns coll : bytes) :
  n <= N -> e <> N + 1 -> f_at f' (mkexpiryInfoKey n e) ns coll = f_at f (mkexpiryInfoKey n e) ns coll.
Proof.
  intros Hn He. rewrite (f_at_committed N L σ f s b) by (done || apply (wo_clear _ _ _ _ Hw)).
  rewrite decide_False, decide_False; [done|cbn; lia|]. by intros [_ ?]%(wo_clear _ _ _ _ Hw).
Qed.

Lemma committed_new (e : Z) (ns coll : bytes) :
  e <> N + 1 -> f_at f' (mkexpiryInfoKey (N + 1) e) ns coll = b_at s (mkexpiryInfoKey (N + 1) e) ns coll.
Proof.
  intros He. rewrite (f_at_committed N L σ f s b) by (done || apply (wo_clear _ _ _ _ Hw)).
  rewrite decide_False, decide_True; [done|done|]. by intros [_ ?]%(wo_clear _ _ _ _ Hw).
Qed.

(** A value of the new state is of the block, or an old one that does not expire. *)
Lemma committed_origin (k : data_key) (vv : VersionedValue) :
  dk_ok k -> σ' !! loc (D := D) k = Some vv ->
  upd_get b k = Some vv /\ blk vv = N + 1 /\ IsDelete vv = false \/ upd_get b k = None /\ σ !! loc (D := D) k = Some vv /\ expired_b N L k vv = false.
Proof.
  intros Hk. rewrite (Hσ k Hk). unfold committed_value. destruct (upd_get b k) as [v|] eqn:E.
  - unfold live. destruct (IsDelete v) eqn:Ed; [done|]. intros [= <-]. left. split; [done|]. split; [by eapply bo_block|done].
  - destruct (σ !! loc k) as [v|]; [|done]. destruct (expired_b N L k v) eqn:Ex; [done|]. intros [= <-]. by right.
Qed.

Lemma new_expires (ns coll h : bytes) (hv : VersionedValue) :
  UpdateMap_Get (HashUpdates b) ns coll h = Some hv -> exists e, GetExpiringBlock ns coll (N + 1) = Ret e /\ (e = MaxUint64 \/ e <> MaxUint64 /\ N + 1 < e).
Proof.
  intros Hg. pose proof (bo_btl _ _ Hb _ _ _ _ Hg) as Hbtl.
  destruct (GetExpiringBlock ns coll (N + 1)) as [e| |] eqn:Ee; [|unfold GetExpiringBlock in Ee; by destruct (GetBTL ns coll)..].
  exists e. split; [done|]. destruct (GetExpiringBlock_after ns coll (N + 1) e) as [_ [?|?]]; [unfold is_u64, MaxUint64 in *; lia|done|by left|].
  destruct (decide (e = MaxUint64)); [by left|by right].
Qed.

Lemma committed_hash (ns coll h : bytes) (vv : VersionedValue) :
  dk_ok (HashKey ns coll h) -> hash_of σ' ns coll h = Some vv ->
  0 <= blk vv <= N + 1 /\ exists e, expires ns coll vv e /\
    (e = MaxUint64 \/ (ns, coll, h, blk vv) ∈ L' \/ N + 1 < e /\ exists x, x ∈ f_at f' (mkexpiryInfoKey (blk vv) e) ns coll /\ kh_Hash x = h).
Proof.
  intros Hk [(Hg & Hbl & Hd)|(Hg & Hold & Hx)]%committed_origin; [| |done].
  - split; [lia|]. cbn [upd_get] in Hg. destruct (new_expires _ _ _ _ Hg) as (e & Ee & He). exists e. unfold expires. rewrite Hbl. split; [done|].
    destruct He as [->|[Hne He]]; [by left|]. right. destruct (decide ((ns, coll, h, N + 1) ∈ unscheduled_of (N + 1) b)) as [Hu|Hu]; [left; set_solver|].
    right. split; [done|]. rewrite committed_new by lia. by eapply so_hash.
  - destruct (ei_hash _ _ _ _ Hi _ _ _ _ Hk Hold) as (Hbl & e & He & Hc). split; [lia|]. exists e. split; [done|].
    destruct (decide ((ns, coll, h, blk vv) ∈ L)) as [Hl|Hl]; [right; left; set_solver|].
    assert (Hne : e <> N + 1). { intros ->. cbn [expired_b] in Hx. unfold expires in He. by rewrite He, Z.eqb_refl, bool_decide_eq_false_2 in Hx. }
    destruct Hc as [->|[?|[Hlt (x & Hx' & Hh)]]]; [by left|done|]. right. right. split; [lia|]. exists x. by rewrite committed_old by (lia || done).
Qed.

Lemma committed_pvt (ns coll key : bytes) (vv : VersionedValue) :
  dk_ok (PvtKey ns coll key) -> key <> [] -> pvt_of σ' ns coll key = Some vv ->
  keys key /\ 0 <= blk vv <= N + 1 /\ exists e, expires ns coll vv e /\
    (e = MaxUint64 \/ N + 1 < e /\ listed_key f' (mkexpiryInfoKey (blk vv) e) ns coll key).
Proof.
  intros Hk Hne [(Hg & Hbl & Hd)|(Hg & Hold & Hx)]%committed_origin; [| |done]; unfold listed_key.
  - cbn [upd_get] in Hg. split; [by eapply bo_keys|]. split; [lia|]. destruct (bo_hash _ _ Hb _ _ _ _ Hg) as (hv & Hhv).
    destruct (new_expires _ _ _ _ Hhv) as (e & Ee & He). exists e. unfold expires. rewrite Hbl. split; [done|].
    destruct He as [->|[Hmax He]]; [by left|]. right. split; [done|]. rewrite committed_new by lia. apply last_of_same.
    + intros x [Hh Hx]%list_elem_of_filter. destruct (so_entry _ _ _ Hs _ _ _ _ Hx) as (_ & _ & v & [(Hgx & _ & Hsx)|(_ & Hlf & _)]).
      * destruct x as [kx hx]. cbn in *. assert (kx = key) as ->; [|by subst]. apply keys_distinct; [by eapply bo_keys|by eapply bo_keys|congruence].
      * apply leftover_lookup in Hlf as [_ Hlf]. rewrite (Hlf key Hh) in Hg. done.
    + exists (mkKeyAndHash key (Sum256 key)). apply list_elem_of_filter. split; [done|]. by eapply so_pvt.
  - destruct (ei_pvt _ _ _ _ Hi _ _ _ _ Hk Hne Hold) as (Hkey & Hbl & e & He & Hc). split; [done|]. split; [lia|]. exists e. split; [done|].
    assert (Hne' : e <> N + 1). { intros ->. cbn [expired_b] in Hx. unfold expires in He. by rewrite He, Z.eqb_refl, bool_decide_eq_false_2 in Hx by done. }
    destruct Hc as [->|[Hlt Hx']]; [by left|]. right. split; [lia|]. by rewrite committed_old by (lia || done).
Qed.

Lemma committed_order (ns coll key : bytes) (vv hv : VersionedValue) :
  dk_ok (PvtKey ns coll key) -> key <> [] -> pvt_of σ' ns coll key = Some vv -> hash_of σ' ns coll (Sum256 key) = Some hv -> blk vv <= blk hv.
Proof.
  intros Hk Hne Hv Hh. destruct (committed_origin (HashKey ns coll (Sum256 key)) hv Hk Hh) as [(Hgh & Hbh & _)|(Hgh & Hoh & _)].
  - destruct (committed_origin _ _ Hk Hv) as [(_ & -> & _)|(_ & Ho & _)]; [lia|]. pose proof (ei_pvt _ _ _ _ Hi _ _ _ _ Hk Hne Ho) as (_ & ? & _). lia.
  - destruct (committed_origin _ _ Hk Hv) as [(Hg & _)|(_ & Ho & _)]; [|by eapply ei_order].
    cbn [upd_get] in Hg, Hgh. destruct (bo_hash _ _ Hb _ _ _ _ Hg) as (? & ?). congruence.
Qed.

(** Entries of the block, and of earlier ones. *)
Lemma committed_new_entry (k : expiryInfoKey) (ns coll : bytes) (x : KeyAndHash) :
  ek_committingBlk k = N + 1 -> x ∈ b_at s k ns coll -> entry_inv (N + 1) σ' k ns coll x.
Proof.
  intros Hk Hx. destruct (so_entry _ _ _ Hs _ _ _ _ Hx) as (He & Hm & v & Hv).
  assert (Hdk : dk_ok (HashKey ns coll (kh_Hash x))).
  { destruct Hv as [(Hg & _)|(_ & [Hg _]%leftover_lookup & _)]; [by apply (bo_ok _ _ Hb (PvtKey ns coll (kh_Key x)) v)|by apply (bo_ok _ _ Hb (HashKey ns coll (kh_Hash x)) v)]. }
  constructor; [done|by rewrite Hk|done|lia|..].
  - intros vv Hh. destruct (committed_origin _ _ Hdk Hh) as [(_ & Hbl & _)|(Hg & _)]; [lia|]. exfalso. cbn [upd_get] in Hg.
    destruct Hv as [(Hgp & _ & Hs')|(_ & [Hg' _]%leftover_lookup & _)]; [|congruence]. destruct (bo_hash _ _ Hb _ _ _ _ Hgp) as (? & ?). congruence.
  - intros Hne. destruct Hv as [(Hg & _ & Hh)|(? & _)]; [|done]. split; [by eapply bo_keys|]. split; [done|]. intros vv Hv.
    destruct (committed_origin (PvtKey ns coll (kh_Key x)) vv Hdk Hv) as [(_ & Hbl & _)|(Hg' & _)]; [lia|]. cbn [upd_get] in Hg'. congruence.
Qed.

Lemma committed_old_entry (k : expiryInfoKey) (ns coll : bytes) (x : KeyAndHash) :
  x ∈ f_at f k ns coll -> entry_inv (N + 1) σ' k ns coll x.
Proof.
  intros Hx. destruct (ei_entry _ _ _ _ Hi _ _ _ _ Hx) as [H1 H2 H3 H4 H5 H6]. constructor; [done|done|done|lia|..].
  - intros vv Hh. destruct (committed_origin _ _ H1 Hh) as [(_ & Hbl & _)|(_ & Ho & _)]; [lia|by apply H5].
  - intros Hne. destruct (H6 Hne) as (Hk1 & Hk2 & Hk3). split; [done|]. split; [done|]. intros vv Hv.
    destruct (committed_origin (PvtKey ns coll (kh_Key x)) vv H1 Hv) as [(_ & Hbl & _)|(_ & Ho & _)]; [lia|by apply Hk3].
Qed.

Lemma committed_inv : expiry_inv (N + 1) L' σ' f'.
Proof.
  constructor; [apply committed_hash| | |apply committed_pvt|apply committed_order|..].
  - intros ns coll h n [Hl|Hl]%elem_of_union; [apply (ei_past _ _ _ _ Hi) in Hl; lia|]. apply unscheduled_of_spec in Hl as [-> _]. lia.
  - intros ns coll h n e x Hl Hx. rewrite (f_at_committed N L σ f s b) in Hx by (done || apply (wo_clear _ _ _ _ Hw)).
    destruct (decide (_ ∈ _)); [by apply not_elem_of_nil in Hx|]. cbn [ek_committingBlk] in Hx. apply elem_of_union in Hl as [Hl|Hl].
    + pose proof (ei_past _ _ _ _ Hi _ _ _ _ Hl). rewrite decide_False in Hx by lia. by apply (ei_unlisted _ _ _ _ Hi _ _ _ _ _ _ Hl Hx).
    + pose proof Hl as [-> _]%unscheduled_of_spec. rewrite decide_True in Hx by done. by eapply so_unlisted.
  - intros k ns coll x Hx. rewrite (f_at_committed N L σ f s b) in Hx by (done || apply (wo_clear _ _ _ _ Hw)).
    destruct (decide (k ∈ _)); [by apply not_elem_of_nil in Hx|].
    destruct (decide (ek_committingBlk k = N + 1)); [by apply committed_new_entry|by apply committed_old_entry].
  - intros k w. rewrite clear_lookup, track_lookup. destruct (decide _); [done|]. destruct (s !! k) as [v|] eqn:E.
    + intros [= <-]. by apply (so_ok _ _ _ Hs k).
    + apply (ei_wire _ _ _ _ Hi).
Qed.

End Committed.

(** ** The manager *)

Context {PR : Protos} {SP : StateProtos} {UC : Codec Updates_msg} {QD : QueryDB D} {CC : DeployedChaincodeInfoProvider}.

Record tm_inv (N : Z) (L : unscheduled) (σ : state) (f : schedule) (t : LockBasedTxMgr (D := D)) : Prop := {
  tv_db : db_view (tm_db t) σ;
  tv_keeper : keeper_view (pm_expKeeper (tm_pvtdataPurgeMgr t)) f;
  tv_inv : expiry_inv N L σ f;
  tv_ws : tm_usedOnce t = true -> exists ws, pm_workingset (tm_pvtdataPurgeMgr t) = Some ws /\ ws_ok N L σ ws }.

Abbreviation savepoint t := (GetLatestSavePoint (db_vdb (tm_db t))).

Lemma load_savepoint (db : DB D) pubKeys hashedKeys :
  GetLatestSavePoint (db_vdb (snd (LoadCommittedVersionsOfPubAndHashedKeys pubKeys hashedKeys db))) = GetLatestSavePoint (db_vdb db).
Proof.
  unfold LoadCommittedVersionsOfPubAndHashedKeys. destruct LoadCommittedVersions as [load|] eqn:E; [|done].
  match goal with |- context [load ?k _] => pose proof (view_LoadSavePoint (db_vdb db) load k E) as H; destruct (load k (db_vdb db)) end. done.
Qed.

Lemma prepare_savepoint (e : Z) (ek : kvmap) (db : DB D) :
  GetLatestSavePoint (db_vdb (snd (prepareWorkingsetFor e ek db))) = GetLatestSavePoint (db_vdb db).
Proof.
  unfold prepareWorkingsetFor. destruct (keeper_retrieve e ek) as [l| |]; [|done..]. unfold preloadCommittedVersionsInCache.
  destruct (negb _).
  - cbn. by destruct (evaluate_entries _ _ _) as [[? ?]| |].
  - match goal with |- context [LoadCommittedVersionsOfPubAndHashedKeys ?a ?b db] => pose proof (load_savepoint db a b) as H;
      destruct (LoadCommittedVersionsOfPubAndHashedKeys a b db) as [[| |] db'] end; cbn in *; [|done..].
    by destruct (evaluate_entries _ _ _) as [[? ?]| |].
Qed.

Lemma PrepareForExpiringKeys_ok (N : Z) (L : unscheduled) (σ : state) (f : schedule) (t : LockBasedTxMgr (D := D)) :
  db_view (tm_db t) σ -> keeper_view (pm_expKeeper (tm_pvtdataPurgeMgr t)) f -> expiry_inv N L σ f -> -1 <= N -> N + 1 < MaxUint64 ->
  exists db' ws, on_purge (PrepareForExpiringKeys (N + 1)) t =
      (Ret tt, mkLockBasedTxMgr db' (mkPurgeMgr (pm_expKeeper (tm_pvtdataPurgeMgr t)) (Some ws)) (tm_usedOnce t) (tm_current t) (tm_notified t)) /\
    db_view db' σ /\ ws_ok N L σ ws /\ GetLatestSavePoint (db_vdb db') = savepoint t.
Proof.
  intros Hv Hk Hi H0 H1. destruct (prepare_ok N L σ f _ _ Hi Hk Hv H0 H1) as (ws & db' & E & Hv' & Hw). exists db', ws.
  pose proof (prepare_savepoint (N + 1) (pm_expKeeper (tm_pvtdataPurgeMgr t)) (tm_db t)) as Hs. rewrite E in Hs.
  unfold on_purge, PrepareForExpiringKeys. by rewrite E.
Qed.

Lemma clearCache_ok (db : DB D) (σ : state) : db_view db σ -> db_view (clearCache db) σ /\ GetLatestSavePoint (db_vdb (clearCache db)) = GetLatestSavePoint (db_vdb db).
Proof.
  intros [Hv Hh]. unfold clearCache. destruct IsBulkOptimizable; [|done]. split; [|apply view_ClearSavePoint].
  constructor; [by apply view_ClearCachedVersions|done].
Qed.

Lemma apply_savepoint (b : PrivUpdateBatch) (h : option Height) (db db' : DB D) :
  ApplyPrivacyAwareUpdates b h db = (Ret tt, db') ->
  match h with Some h => Height_wf h -> GetLatestSavePoint (db_vdb db') = Ret (Some h) | None => GetLatestSavePoint (db_vdb db') = GetLatestSavePoint (db_vdb db) end.
Proof.
  unfold ApplyPrivacyAwareUpdates. match goal with |- context [ApplyUpdates ?b ?h ?d] => pose proof (fun d' => view_SavePoint d d' b h) as H; destruct (ApplyUpdates b h d) as [r d'] eqn:E end.
  intros [= -> <-]. by apply H.
Qed.

(** The body of a commit, with a working set for the block. *)
Lemma commit_body_ok (N : Z) (L : unscheduled) (σ : state) (f : schedule) (t : LockBasedTxMgr (D := D)) (c : current) (ws : workingset) :
  db_view (tm_db t) σ -> keeper_view (pm_expKeeper (tm_pvtdataPurgeMgr t)) f -> expiry_inv N L σ f ->
  pm_workingset (tm_pvtdataPurgeMgr t) = Some ws -> ws_ok N L σ ws -> -1 <= N -> N + 1 < MaxUint64 ->
  blockNum c = N + 1 -> batch_of (N + 1) (cur_batch c) ->
  exists σ' f' db' ek', commit_body c t =
      (Ret tt, mkLockBasedTxMgr db' (mkPurgeMgr ek' None) (tm_usedOnce t) (tm_current t) (tm_notified t ++ cur_listeners c)) /\
    db_view db' σ' /\ keeper_view ek' f' /\ expiry_inv (N + 1) (L ∪ unscheduled_of (N + 1) (cur_batch c)) σ' f' /\
    (forall k, dk_ok k -> σ' !! loc (D := D) k = committed_value N L σ (cur_batch c) k) /\
    GetLatestSavePoint (db_vdb db') = Ret (Some (NewHeight (N + 1) (maxTxNumber c))).
Proof.
  intros Hv Hk Hi Ew Hw H0 H1 Hn Hb. assert (Hu : is_u64 (N + 1)) by (unfold is_u64, MaxUint64 in *; lia).
  destruct (buildExpirySchedule_ok (N + 1) (cur_batch c) Hu Hb) as (s & Es & Hs).
  set (b' := purged N ws (cur_batch c)). assert (Hb' : updates_ok b') by (eapply purged_ok; [done..|apply (bo_ok _ _ Hb)]).
  destruct (ApplyPrivacyAwareUpdates_ok (tm_db t) σ b' (Some (NewHeight (N + 1) (maxTxNumber c))) Hv Hb') as (db1 & E1 & Hv1).
  destruct (clearCache_ok db1 _ Hv1) as [Hv2 Hs2].
  assert (Hk1 : keeper_view (keeper_update (map_to_list s) [] (pm_expKeeper (tm_pvtdataPurgeMgr t))) (track (map_to_list s) f)).
  { apply (keeper_update_view (map_to_list s) [] _ f Hk); [|by intros ? ?%not_elem_of_nil]. intros k v Hin%elem_of_map_to_list. by apply (so_ok _ _ _ Hs k v). }
  assert (Hk2 : keeper_view (keeper_update [] (ws_toClearFromSchedule ws) (keeper_update (map_to_list s) [] (pm_expKeeper (tm_pvtdataPurgeMgr t))))
    (clear (ws_toClearFromSchedule ws) (track (map_to_list s) f))).
  { apply (keeper_update_view [] _ _ _ Hk1); [by intros ? ? ?%not_elem_of_nil|]. intros k Hin. by apply (wo_clear _ _ _ _ Hw). }
  eexists _, _, (clearCache db1), _. split; [|split; [exact Hv2|split; [exact Hk2|split; [|split]]]].
  - unfold commit_body, UpdateExpiryInfo_step, UpdateExpiryInfo. unfold mbind, M_bind, get_state, lift_outcome, modify_state. rewrite Es.
    cbn [mbind outcome_bind set_purge tm_pvtdataPurgeMgr pm_workingset]. unfold AddExpiredEntriesToUpdateBatch. cbn [pm_workingset]. rewrite Ew, (wo_err _ _ _ _ Hw).
    unfold b', purged in E1. destruct (fold_left _ _ _) as [p h] eqn:Ef. unfold on_db. cbn [tm_db set_purge]. rewrite Hn, E1. done.
  - apply (committed_inv N L σ _ f s (cur_batch c) ws); try done. intros k Hdk. apply purged_apply; try done. apply (bo_ok _ _ Hb).
  - intros k Hdk. apply purged_apply; try done. apply (bo_ok _ _ Hb).
  - rewrite Hs2. apply (apply_savepoint _ _ _ _ E1). split; [done|apply u64_is_u64].
Qed.

Lemma Commit_ok (N : Z) (L : unscheduled) (σ : state) (f : schedule) (t : LockBasedTxMgr (D := D)) (c : current) :
  tm_inv N L σ f t -> -1 <= N -> N + 2 < MaxUint64 -> tm_current t = Some c -> blockNum c = N + 1 -> batch_of (N + 1) (cur_batch c) ->
  exists σ' f' t', Commit t = (Ret tt, t') /\ tm_inv (N + 1) (L ∪ unscheduled_of (N + 1) (cur_batch c)) σ' f' t' /\ tm_current t' = None /\ tm_usedOnce t' = true /\
    tm_notified t' = tm_notified t ++ cur_listeners c /\
    (forall k, dk_ok k -> σ' !! loc (D := D) k = committed_value N L σ (cur_batch c) k) /\
    savepoint t' = Ret (Some (NewHeight (N + 1) (maxTxNumber c))).
Proof.
  intros [Hv Hk Hi Hws] H0 H1 Ec Hn Hb.
  assert (Hpre : exists t1 ws, (if tm_usedOnce t then (Ret tt, t) else
      match on_purge (PrepareForExpiringKeys (blockNum c)) t with
      | (Ret _, t) => (Ret tt, mkLockBasedTxMgr (tm_db t) (tm_pvtdataPurgeMgr t) true (tm_current t) (tm_notified t))
      | r => r
      end) = (Ret tt, t1) /\ db_view (tm_db t1) σ /\ pm_expKeeper (tm_pvtdataPurgeMgr t1) = pm_expKeeper (tm_pvtdataPurgeMgr t) /\
    pm_workingset (tm_pvtdataPurgeMgr t1) = Some ws /\ ws_ok N L σ ws /\ tm_usedOnce t1 = true /\ tm_current t1 = Some c /\ tm_notified t1 = tm_notified t).
  { destruct (tm_usedOnce t) eqn:Eu.
    - destruct (Hws eq_refl) as (ws & Ew & Hw). exists t, ws. done.
    - destruct (PrepareForExpiringKeys_ok N L σ f t Hv Hk Hi H0) as (db' & ws & E & Hv' & Hw & _); [lia|]. rewrite Hn, E.
      eexists _, ws. split; [done|]. done. }
  destruct Hpre as (t1 & ws & E1 & Hv1 & Ek1 & Ew1 & Hw1 & Eu1 & Ec1 & En1).
  destruct (commit_body_ok N L σ f t1 c ws) as (σ' & f' & db2 & ek2 & E2 & Hv2 & Hk2 & Hi2 & Hσ & Hs2); [done|by rewrite Ek1|done..|lia|done|done|].
  set (t2 := mkLockBasedTxMgr _ _ _ _ _) in E2.
  destruct (PrepareForExpiringKeys_ok (N + 1) (L ∪ unscheduled_of (N + 1) (cur_batch c)) σ' f' t2 Hv2 Hk2 Hi2) as (db3 & ws3 & E3 & Hv3 & Hw3 & Hs3); [lia|lia|].
  exists σ', f', (mkLockBasedTxMgr db3 (mkPurgeMgr ek2 (Some ws3)) true None (tm_notified t ++ cur_listeners c)).
  split; [|split].
  - unfold Commit. rewrite Ec. rewrite E1. rewrite E2. rewrite Hn, u64_id by (unfold is_u64, MaxUint64 in *; lia). rewrite E3. cbn. by rewrite Eu1, En1.
  - constructor; [done|done|done|]. intros _. exists ws3. done.
  - split; [done|]. split; [done|]. split; [done|]. split; [done|]. cbn. by rewrite Hs3.
Qed.

End Expiry.
