(* ===== verification/OldPvtDataOk.v ===== *)
(** * Private data that arrive late

    [RemoveStaleAndCommitPvtDataOfOldBlocks] commits the private data that still
    match the hashes of the state, at the version of the hash; what it leaves behind
    expires like data that came with their block. *)

From S2P Require Import Prelude OrderedCode LevelDB Sha256 Proto Block StateProto StateDB StateDBOk PrivState PrivStateOk RwSet Validation ValidationOk RwSetBuilder Simulator BatchPreparer BatchPreparerOk PurgeMgr PurgeMgrOk QueryUtil TxMgr ExpiryOk.

Section OldPvtData.
Context {BP : BTLPolicy} {BO : BTLPolicyOk} {PK : Codec PvtdataKeysMsg} {PO : CodecOk PvtdataKeysMsg}.
Context {D : Type} {VD : VersionedDB D} {VO : VersionedDBOk D}.
Variable keys : bytes -> Prop.
Hypothesis keys_distinct : forall k k', keys k -> keys k' -> Sum256 k = Sum256 k' -> k = k'.

Abbreviation hash_of σ ns coll h := (σ !! loc (D := D) (HashKey ns coll h)).
Abbreviation pvt_of σ ns coll key := (σ !! loc (D := D) (PvtKey ns coll key)).

Record unique_ok (m : uniquePvtDataMap) : Prop := {
  uo_names : forall ns coll h w, m !! (ns, coll, h) = Some w -> dk_ok (HashKey ns coll h);
  uo_key : forall ns coll h w, m !! (ns, coll, h) = Some w -> keys (PvtKVWrite_Key w) /\ h = Sum256 (PvtKVWrite_Key w);
  uo_value : forall ns coll h w, m !! (ns, coll, h) = Some w -> PvtKVWrite_IsDelete w = false -> PvtKVWrite_Value w <> [];
  uo_btl : forall ns coll h w, m !! (ns, coll, h) = Some w -> is_ret (GetBTL ns coll) = true;
  uo_version : forall ns coll h w, m !! (ns, coll, h) = Some w -> Height_wf (PvtKVWrite_Version w) }.

(** ** What is not stale *)

Definition fresh (σ : state) (k : bytes * bytes * bytes) (w : PvtKVWrite) : option PvtKVWrite :=
  let '(ns, coll, h) := k in
  match hash_of σ ns coll h with
  | None => if PvtKVWrite_IsDelete w then Some w else None
  | Some hv =>
      if bool_decide (vv_Version hv = PvtKVWrite_Version w) then Some w else
      if bool_decide (default [] (vv_Value hv) = Sum256 (PvtKVWrite_Value w))
      then Some (mkPvtKVWrite (PvtKVWrite_Key w) (PvtKVWrite_IsDelete w) (PvtKVWrite_Value w) (vv_Version hv)) else None
  end.

Lemma checkIfPvtWriteIsStale_ok (db : DB D) (σ : state) (ns coll h : bytes) (w : PvtKVWrite) :
  db_view db σ -> dk_ok (HashKey ns coll h) -> checkIfPvtWriteIsStale db (ns, coll, h) w = Ret (fresh σ (ns, coll, h) w).
Proof.
  intros Hv Hk. unfold checkIfPvtWriteIsStale, fresh. rewrite (view_GetKeyHashVersion db σ), (view_GetValueHash db σ) by done. cbn [mbind outcome_bind].
  destruct (hash_of σ ns coll h) as [hv|] eqn:E; cbn [option_map]; [|by destruct (PvtKVWrite_IsDelete w)].
  destruct (AreSame _ _) eqn:Ea.
  - apply AreSame_eq in Ea. injection Ea as Ea. by rewrite bool_decide_eq_true_2.
  - rewrite (bool_decide_eq_false_2 (_ = PvtKVWrite_Version w)); [by case_bool_decide|]. intros Ev. rewrite Ev in Ea.
    assert (AreSame (Some (PvtKVWrite_Version w)) (Some (PvtKVWrite_Version w)) = true) by (by apply AreSame_eq). congruence.
Qed.

Lemma remove_stale_ok (db : DB D) (σ : state) (m : uniquePvtDataMap) :
  db_view db σ -> unique_ok m -> exists m', remove_stale db (map_to_list m) = Ret m' /\ forall k, m' !! k = m !! k ≫= fresh σ k.
Proof.
  intros Hv Hm. assert (H : forall l, NoDup l.*1 -> (forall ns coll h w, (ns, coll, h, w) ∈ l -> dk_ok (HashKey ns coll h)) ->
    exists m', remove_stale db l = Ret m' /\ forall k, m' !! k = (list_to_map l : uniquePvtDataMap) !! k ≫= fresh σ k).
  { induction l as [|[[[ns coll] h] w] l IH]; intros Hn Hl.
    - exists ∅. split; [done|]. intros k. by rewrite lookup_empty.
    - cbn [fmap list_fmap fst] in Hn. apply NoDup_cons in Hn as [Hk Hn]. destruct IH as (m' & E & Hp); [done|intros; eapply Hl; by right|].
      cbn [remove_stale]. rewrite (checkIfPvtWriteIsStale_ok _ σ), E by (done || eapply Hl; by left). cbn [mbind outcome_bind]. eexists. split; [done|].
      intros k. cbn [list_to_map foldr fst snd]. destruct (decide ((ns, coll, h) = k)) as [<-|Hne].
      + rewrite lookup_insert_eq. cbn [mbind option_bind]. destruct (fresh σ _ w); [by rewrite lookup_insert_eq|].
        rewrite Hp. apply not_elem_of_list_to_map_1 in Hk. by setoid_rewrite Hk.
      + rewrite (lookup_insert_ne (list_to_map l)) by done. destruct (fresh σ _ w); [rewrite lookup_insert_ne by done|]; apply Hp. }
  destruct (H (map_to_list m)) as (m' & E & Hp); [apply NoDup_fst_map_to_list|intros *; rewrite elem_of_map_to_list; apply (uo_names _ Hm)|].
  exists m'. split; [done|]. intros k. by rewrite Hp, list_to_map_to_list.
Qed.

(** What remains is at the version of the hash, or deletes a key without one. *)
Record fresh_ok (σ : state) (m : uniquePvtDataMap) : Prop := {
  fo_unique : unique_ok m;
  fo_put : forall ns coll h w, m !! (ns, coll, h) = Some w -> PvtKVWrite_IsDelete w = false ->
    exists hv, hash_of σ ns coll h = Some hv /\ PvtKVWrite_Version w = vv_Version hv }.

Lemma fresh_unique (σ : state) (m m' : uniquePvtDataMap) :
  (forall k vv, σ !! k = Some vv -> Height_wf (vv_Version vv)) -> unique_ok m -> (forall k, m' !! k = m !! k ≫= fresh σ k) -> fresh_ok σ m'.
Proof.
  intros Hwf Hm Hm'. assert (H : forall ns coll h w, m' !! (ns, coll, h) = Some w -> exists w0, m !! (ns, coll, h) = Some w0 /\ fresh σ (ns, coll, h) w0 = Some w /\
    PvtKVWrite_Key w = PvtKVWrite_Key w0 /\ PvtKVWrite_IsDelete w = PvtKVWrite_IsDelete w0 /\ PvtKVWrite_Value w = PvtKVWrite_Value w0 /\ Height_wf (PvtKVWrite_Version w)).
  { intros ns coll h w E. rewrite Hm' in E. destruct (m !! (ns, coll, h)) as [w0|] eqn:E0; [|done]. exists w0. split; [done|]. split; [done|]. cbn [mbind option_bind fresh] in E.
    destruct (hash_of σ ns coll h) as [hv|] eqn:Eh; [|destruct (PvtKVWrite_IsDelete w0) eqn:Ed; [|done]; injection E as <-; rewrite Ed; by pose proof (uo_version _ Hm _ _ _ _ E0)].
    case_bool_decide; [injection E as <-; by pose proof (uo_version _ Hm _ _ _ _ E0)|]. case_bool_decide; [|done]. injection E as <-. by pose proof (Hwf _ _ Eh). }
  split.
  - constructor; intros ns coll h w E; destruct (H _ _ _ _ E) as (w0 & E0 & _ & Hk & Hd & Hv & Hh); rewrite ?Hk, ?Hd, ?Hv; [by eapply uo_names|by eapply uo_key|by eapply uo_value|by eapply uo_btl|done].
  - intros ns coll h w E Hd. destruct (H _ _ _ _ E) as (w0 & E0 & Ef & _ & Hd0 & _). cbn [fresh] in Ef. rewrite Hd in Hd0.
    destruct (hash_of σ ns coll h) as [hv|]; [|by rewrite <- Hd0 in Ef]. exists hv. split; [done|].
    case_bool_decide; [by injection Ef as <-|]. case_bool_decide; [by injection Ef as <-|done].
Qed.

(** ** The batch *)

Definition write_of (w : PvtKVWrite) : VersionedValue :=
  mkVersionedValue (if PvtKVWrite_IsDelete w then None else Some (PvtKVWrite_Value w)) [] (PvtKVWrite_Version w).

Lemma transform_writes_ok (m : uniquePvtDataMap) :
  unique_ok m -> exists p, for_range transform_write (map_to_list m) ∅ = Ret p /\
    forall ns coll key vv, UpdateMap_Get p ns coll key = Some vv <->
      exists w, m !! (ns, coll, Sum256 key) = Some w /\ PvtKVWrite_Key w = key /\ vv = write_of w.
Proof.
  intros Hm. assert (H : forall l p, NoDup l.*1 -> (forall ns coll h w, (ns, coll, h, w) ∈ l -> m !! (ns, coll, h) = Some w) ->
    exists p', for_range transform_write l p = Ret p' /\ forall ns coll key, UpdateMap_Get p' ns coll key =
      match (list_to_map l : uniquePvtDataMap) !! (ns, coll, Sum256 key) with
      | Some w => if decide (PvtKVWrite_Key w = key) then Some (write_of w) else UpdateMap_Get p ns coll key
      | None => UpdateMap_Get p ns coll key
      end).
  { induction l as [|[[[n c] h] w] l IH]; intros p Hn Hl; [by exists p|]. cbn [fmap list_fmap fst] in Hn. apply NoDup_cons in Hn as [Hk Hn].
    assert (Hw : m !! (n, c, h) = Some w) by (apply Hl; by left). destruct (uo_key _ Hm _ _ _ _ Hw) as [_ Hh].
    assert (Ht : exists p1, transform_write (n, c, h, w) p = Ret p1 /\
      forall ns coll key, UpdateMap_Get p1 ns coll key = if decide ((ns, coll, key) = (n, c, PvtKVWrite_Key w)) then Some (write_of w) else UpdateMap_Get p ns coll key).
    { unfold transform_write, write_of. destruct (PvtKVWrite_IsDelete w) eqn:Ed; [eexists; split; [done|]; intros; apply UpdateMap_Get_Delete|].
      pose proof (uo_value _ Hm _ _ _ _ Hw Ed) as Hv. destruct (UpdateMap_Get_Put n c (PvtKVWrite_Key w) (PvtKVWrite_Value w) (PvtKVWrite_Version w) p) as (p1 & E1 & H1).
      exists p1. split; [|done]. unfold bytes_or_nil. by destruct (PvtKVWrite_Value w). }
    destruct Ht as (p1 & E1 & H1). cbn [for_range]. rewrite E1. cbn [mbind outcome_bind].
    destruct (IH p1 Hn) as (p2 & E2 & H2); [intros; apply Hl; by right|]. exists p2. split; [done|]. intros ns coll key. rewrite H2, H1. cbn [list_to_map foldr fst snd].
    destruct (decide ((n, c, h) = (ns, coll, Sum256 key))) as [[= -> -> Eh]|Hne].
    - rewrite Eh, lookup_insert_eq. apply not_elem_of_list_to_map_1 in Hk. rewrite Eh in Hk. setoid_rewrite Hk.
      destruct (decide (PvtKVWrite_Key w = key)) as [<-|Hkey]; [by rewrite decide_True|by rewrite decide_False by congruence].
    - rewrite lookup_insert_ne by done. rewrite (decide_False (P := (ns, coll, key) = _)); [done|]. intros [= -> -> ->]. by rewrite Hh in Hne. }
  destruct (H (map_to_list m) ∅) as (p & E & Hp); [apply NoDup_fst_map_to_list|intros *; by rewrite elem_of_map_to_list|].
  exists p. split; [done|]. intros ns coll key vv. rewrite Hp, list_to_map_to_list.
  destruct (m !! (ns, coll, Sum256 key)) as [w|]; [|split; [done|by intros (? & ? & _)]].
  case_decide; [split; [intros [= <-]; eauto|by intros (? & [= <-] & _ & ->)]|split; [done|by intros (? & [= <-] & ? & _)]].
Qed.

(** ** The schedule *)

Lemma old_additions_eq (p : UpdateMap) :
  for_range (fun '((ns, coll, key), vv) => schedule_add ns coll key (Sum256 key) vv) (map_to_list (ToCompositeKeyMap p)) ∅ =
    for_range add_one (pvt_additions p) ∅.
Proof.
  unfold pvt_additions. generalize (∅ : gmap expiryInfoKey PvtdataKeys). induction (map_to_list (ToCompositeKeyMap p)) as [|[[[ns coll] key] vv] l IH]; intros b; [done|].
  cbn [for_range fmap list_fmap add_one]. destruct (schedule_add _ _ _ _ _ b); cbn [mbind outcome_bind]; [apply IH|done..].
Qed.

(** The entries are added to those of the schedule. *)
Lemma merge_entries_ok (ek : kvmap) (f : schedule) (s : gmap expiryInfoKey PvtdataKeys) :
  keeper_view ek f -> (forall k w, f !! k = Some w -> wire_ok w) -> (forall k, is_Some (s !! k) -> is_Some (f !! k)) ->
  exists l, merge_entries ek (map_to_list s) = Ret l /\ (forall k v, (k, v) ∈ l -> ek_wf k) /\
    (forall k w, track l f !! k = Some w -> wire_ok w) /\
    forall k ns coll, f_at (track l f) k ns coll = f_at f k ns coll ++ b_at s k ns coll.
Proof.
  intros Hk Hw Hs. assert (H : forall m, NoDup m.*1 -> (forall k v, (k, v) ∈ m -> s !! k = Some v) -> exists l, merge_entries ek m = Ret l /\ l.*1 = m.*1 /\
    forall k v, (k, v) ∈ m -> exists v' w, (k, v') ∈ l /\ f !! k = Some w /\ wire_ok (to_wire v') /\
      forall ns coll, pk_at (to_wire v') ns coll = pk_at w ns coll ++ pk_at (to_wire v) ns coll).
  { induction m as [|[k v] m IH]; intros Hn Hm; [exists []; split; [done|]; split; [done|]; by intros ? ? ?%not_elem_of_nil|].
    cbn [fmap list_fmap fst] in Hn. apply NoDup_cons in Hn as [_ Hn]. destruct IH as (l & El & Hkl & Hl); [done|intros; apply Hm; by right|].
    assert (Ev : s !! k = Some v) by (apply Hm; by left). destruct (Hs k) as [w Ew]; [by rewrite Ev|].
    cbn [merge_entries]. rewrite (retrieveByExpiryKey_ok ek f k w Hk Ew). cbn [mbind outcome_bind].
    destruct (PvtdataKeys_addAll_ok v (of_wire w)) as (v' & E' & _ & Hw' & Hat); [by apply of_wire_ok, (Hw k)|by rewrite to_of_wire; apply (Hw k)|].
    rewrite E'. cbn [mbind outcome_bind]. rewrite El. eexists. split; [done|]. split; [cbn [fmap list_fmap fst]; by f_equal|].
    intros k0 v0 [[= -> ->]|Hin]%elem_of_cons.
    - exists v', w. rewrite to_of_wire in Hat. split; [by left|]. done.
    - destruct (Hl k0 v0 Hin) as (v1 & w1 & H1 & H2). exists v1, w1. split; [by right|done]. }
  destruct (H (map_to_list s)) as (l & El & Hkl & Hl); [apply NoDup_fst_map_to_list|by intros k v ?%elem_of_map_to_list|]. exists l. split; [done|].
  assert (Hlk : forall k v', (k, v') ∈ l -> exists v w, s !! k = Some v /\ f !! k = Some w /\ wire_ok (to_wire v') /\
      forall ns coll, pk_at (to_wire v') ns coll = pk_at w ns coll ++ pk_at (to_wire v) ns coll).
  { intros k v' Hin. assert (Hk' : k ∈ l.*1) by (apply list_elem_of_fmap; by exists (k, v')). rewrite Hkl in Hk'.
    apply list_elem_of_fmap in Hk' as ([k0 v] & -> & Hv). destruct (Hl _ _ Hv) as (v1 & w & Hin1 & Ew & Hw1 & Hat). cbn [fst] in *.
    exists v, w. apply elem_of_map_to_list in Hv. split; [done|]. split; [done|].
    assert (v' = v1) as ->; [|done]. eapply (NoDup_fst_lookup l); [|done|done]. rewrite Hkl. apply NoDup_fst_map_to_list. }
  assert (Htr : forall k, track l f !! k = match (list_to_map l : gmap expiryInfoKey PvtdataKeys) !! k with Some v => Some (to_wire v) | None => f !! k end).
  { intros k. apply track_list_lookup. rewrite Hkl. apply NoDup_fst_map_to_list. }
  split; [intros k v Hin; destruct (Hlk _ _ Hin) as (? & w & _ & Ew & _); by eapply kw_wf|]. split.
  - intros k w. rewrite Htr. destruct (list_to_map l !! k) as [v'|] eqn:E; [|apply Hw]. intros [= <-].
    apply elem_of_list_to_map_2 in E. by destruct (Hlk _ _ E) as (? & ? & _ & _ & ? & _).
  - intros k ns coll. unfold f_at, b_at. rewrite Htr. destruct (list_to_map l !! k) as [v'|] eqn:E.
    + apply elem_of_list_to_map_2 in E. destruct (Hlk _ _ E) as (v & w & -> & -> & _ & Hat). apply Hat.
    + destruct (s !! k) as [v|] eqn:Es; [|by rewrite app_nil_r]. exfalso. apply not_elem_of_list_to_map_2 in E. apply E. rewrite Hkl.
      apply list_elem_of_fmap. exists (k, v). split; [done|]. by apply elem_of_map_to_list.
Qed.

(** The entries of late data: of the keys that are written, under the block of their hash. *)
Record old_schedule (p : UpdateMap) (s : gmap expiryInfoKey PvtdataKeys) : Prop := {
  os_ok : PurgeMgrOk.builder_ok s;
  os_entry : forall k ns coll x, x ∈ b_at s k ns coll <->
    exists vv, UpdateMap_Get p ns coll (kh_Key x) = Some vv /\ kh_Hash x = Sum256 (kh_Key x) /\ IsDelete vv = false /\ blk vv = ek_committingBlk k /\
      GetExpiringBlock ns coll (ek_committingBlk k) = Ret (ek_expiryBlk k) /\ ek_expiryBlk k <> MaxUint64 }.

Lemma old_schedule_ok (p : UpdateMap) :
  (forall ns coll key vv, UpdateMap_Get p ns coll key = Some vv -> is_u64 (blk vv) /\ is_ret (GetBTL ns coll) = true) ->
  exists s, for_range add_one (pvt_additions p) ∅ = Ret s /\ old_schedule p s.
Proof.
  intros Hp. destruct (additions_ok (pvt_additions p) ∅ builder_ok_empty) as (s & E & Hs & Hat).
  { apply Forall_forall. intros a Ha. apply list_elem_of_fmap in Ha as ([[[ns coll] key] vv] & -> & Ha%elem_of_map_to_list).
    rewrite ToCompositeKeyMap_lookup in Ha. destruct (Hp _ _ _ _ Ha) as [H1 H2]. split; [done|]. unfold GetExpiringBlock. by destruct (GetBTL ns coll). }
  exists s. split; [done|]. constructor; [done|]. intros k ns coll x. rewrite Hat, b_at_empty. cbn [app]. rewrite list_elem_of_omap. split.
  - intros (a & Ha & (vv & -> & Hd & H)%entry_for_Some). apply list_elem_of_fmap in Ha as ([[[ns' coll'] key] vv'] & Ea & Ha%elem_of_map_to_list).
    rewrite ToCompositeKeyMap_lookup in Ha. injection Ea as <- <- Ek Eh <-. exists vv. rewrite Ek. done.
  - intros (vv & Hg & Hh & Hd & H). exists (ns, coll, kh_Key x, kh_Hash x, vv). split.
    + apply list_elem_of_fmap. exists (ns, coll, kh_Key x, vv). split; [by rewrite Hh|]. apply elem_of_map_to_list. by rewrite ToCompositeKeyMap_lookup.
    + apply entry_for_Some. eauto.
Qed.

Section Late.
Variables (N : Z) (L : unscheduled) (σ σ' : state) (f f' : schedule) (m : uniquePvtDataMap) (p : UpdateMap) (s : gmap expiryInfoKey PvtdataKeys).
Hypothesis Hi : expiry_inv (D := D) keys N L σ f.
Hypothesis Hm : fresh_ok σ m.
Hypothesis Hp : forall ns coll key vv, UpdateMap_Get p ns coll key = Some vv <->
  exists w, m !! (ns, coll, Sum256 key) = Some w /\ PvtKVWrite_Key w = key /\ vv = write_of w.
Hypothesis Hs : old_schedule p s.
(** The hashes of the data are on the schedule. *)
Hypothesis Hlate : forall ns coll key vv hv, UpdateMap_Get p ns coll key = Some vv -> hash_of σ ns coll (Sum256 key) = Some hv ->
  (ns, coll, Sum256 key, blk hv) ∉ L.
Hypothesis Hf : forall k ns coll, f_at f' k ns coll = f_at f k ns coll ++ b_at s k ns coll.
Hypothesis Hw : forall k w, f' !! k = Some w -> wire_ok w.
Hypothesis Hσh : forall ns coll h, dk_ok (HashKey ns coll h) -> hash_of σ' ns coll h = hash_of σ ns coll h.
Hypothesis Hσp : forall ns coll key, dk_ok (PvtKey ns coll key) ->
  pvt_of σ' ns coll key = match UpdateMap_Get p ns coll key with Some vv => live vv | None => pvt_of σ ns coll key end.

(** A private value that is written is of the block of its hash. *)
Lemma late_put (ns coll key : bytes) (vv : VersionedValue) :
  UpdateMap_Get p ns coll key = Some vv -> IsDelete vv = false ->
  dk_ok (HashKey ns coll (Sum256 key)) /\ keys key /\ exists hv, hash_of σ ns coll (Sum256 key) = Some hv /\ vv_Version vv = vv_Version hv.
Proof.
  intros (w & Ew & <- & ->)%Hp Hd. split; [by eapply uo_names; [apply (fo_unique _ _ Hm)|]|].
  split; [by eapply uo_key; [apply (fo_unique _ _ Hm)|]|]. apply (fo_put _ _ Hm _ _ _ _ Ew). unfold write_of in Hd. by destruct (PvtKVWrite_IsDelete w).
Qed.

Lemma late_origin (ns coll key : bytes) (vv : VersionedValue) :
  dk_ok (PvtKey ns coll key) -> pvt_of σ' ns coll key = Some vv ->
  UpdateMap_Get p ns coll key = Some vv /\ IsDelete vv = false \/ UpdateMap_Get p ns coll key = None /\ pvt_of σ ns coll key = Some vv.
Proof.
  intros Hk. rewrite Hσp by done. destruct (UpdateMap_Get p ns coll key) as [v|]; [|by right]. unfold live. destruct (IsDelete v) eqn:Ed; [done|].
  intros [= <-]. by left.
Qed.

Lemma late_entry (k : expiryInfoKey) (ns coll : bytes) (x : KeyAndHash) :
  x ∈ b_at s k ns coll -> exists vv hv, UpdateMap_Get p ns coll (kh_Key x) = Some vv /\ IsDelete vv = false /\ kh_Hash x = Sum256 (kh_Key x) /\ keys (kh_Key x) /\
    dk_ok (HashKey ns coll (kh_Hash x)) /\ hash_of σ ns coll (kh_Hash x) = Some hv /\ (ns, coll, kh_Hash x, blk hv) ∉ L /\ blk vv = ek_committingBlk k /\ blk hv = ek_committingBlk k /\
    GetExpiringBlock ns coll (ek_committingBlk k) = Ret (ek_expiryBlk k) /\ ek_expiryBlk k <> MaxUint64.
Proof.
  intros (vv & Hg & Hh & Hd & Hb & He)%(os_entry _ _ Hs). destruct (late_put _ _ _ _ Hg Hd) as (H1 & H2 & hv & H3 & H4). exists vv, hv. rewrite Hh.
  pose proof (Hlate _ _ _ _ _ Hg H3) as Hnl. rewrite <- H4 in Hnl |- *. done.
Qed.

(** The hash of late data is on the schedule. *)
Lemma late_known (k : expiryInfoKey) : is_Some (s !! k) -> is_Some (f !! k).
Proof.
  intros [v Ev]. destruct (os_ok _ _ Hs k v Ev) as (_ & _ & (ns & coll & x & Hx) & _).
  assert (Hx' : x ∈ b_at s k ns coll) by (unfold b_at; by rewrite Ev).
  destruct (late_entry k ns coll x Hx') as (vv & hv & _ & _ & _ & _ & Hdk & Hhv & Hnl & _ & Hb & He & Hmax).
  destruct (ei_hash _ _ _ _ _ Hi _ _ _ _ Hdk Hhv) as (_ & e & He' & Hc). unfold expires in He'. rewrite Hb, He in He'. injection He' as <-.
  destruct Hc as [?|[?|[_ (y & Hy & _)]]]; [done|done|]. unfold f_at in Hy. rewrite Hb in Hy. destruct k as [n e]. cbn in Hy.
  destruct (f !! mkexpiryInfoKey n e); [done|by apply not_elem_of_nil in Hy].
Qed.

Lemma late_pvt (ns coll key : bytes) (vv : VersionedValue) :
  dk_ok (PvtKey ns coll key) -> key <> [] -> pvt_of σ' ns coll key = Some vv ->
  keys key /\ 0 <= blk vv <= N /\ exists e, expires ns coll vv e /\ (e = MaxUint64 \/ N < e /\ listed_key f' (mkexpiryInfoKey (blk vv) e) ns coll key).
Proof.
  intros Hk Hne [[Hg Hd]|[Hg Hv]]%late_origin; [| |done]; unfold listed_key.
  - destruct (late_put _ _ _ _ Hg Hd) as (H1 & H2 & hv & H3 & H4). destruct (ei_hash _ _ _ _ _ Hi _ _ _ _ H1 H3) as (Hb & e & He & Hc).
    pose proof (Hlate _ _ _ _ _ Hg H3) as Hnl. unfold expires in *. rewrite <- H4 in Hb, He, Hc, Hnl. split; [done|]. split; [done|]. exists e. split; [done|].
    destruct Hc as [->|[?|[Hlt _]]]; [by left|done|].
    destruct (decide (e = MaxUint64)) as [->|Hmax]; [by left|]. right. split; [done|]. rewrite Hf. unfold with_hash. rewrite filter_app, last_app.
    rewrite (last_of_same (filter _ (b_at s _ ns coll)) (mkKeyAndHash key (Sum256 key))); [done|..].
    + intros y [Hh (v & w & Hgy & _ & Hhy & Hky & _)%late_entry]%list_elem_of_filter. destruct y as [ky hy]. cbn in *.
      assert (ky = key) as ->; [|by subst]. apply keys_distinct; [done|done|congruence].
    + exists (mkKeyAndHash key (Sum256 key)). apply list_elem_of_filter. split; [done|]. apply (os_entry _ _ Hs). exists vv. done.
  - destruct (ei_pvt _ _ _ _ _ Hi _ _ _ _ Hk Hne Hv) as (Hkey & Hb & e & He & Hc). split; [done|]. split; [done|]. exists e. split; [done|].
    destruct Hc as [->|[Hlt Hl]]; [by left|]. right. split; [done|]. rewrite Hf. unfold with_hash. rewrite filter_app.
    assert (filter (fun x => kh_Hash x = Sum256 key) (b_at s (mkexpiryInfoKey (blk vv) e) ns coll) = []) as ->; [|by rewrite app_nil_r].
    destruct (filter _ (b_at s _ ns coll)) as [|y l] eqn:E; [done|]. exfalso. assert (Hy : y ∈ y :: l) by (by left). rewrite <- E in Hy.
    apply list_elem_of_filter in Hy as [Hh (v & w & Hgy & _ & Hhy & Hky & _)%late_entry].
    assert (kh_Key y = key) as Ek by (apply keys_distinct; [done|done|congruence]). rewrite Ek in Hgy. congruence.
Qed.

Lemma late_inv : expiry_inv (D := D) keys N L σ' f'.
Proof.
  constructor.
  - intros ns coll h vv Hk. rewrite Hσh by done. intros Hh. destruct (ei_hash _ _ _ _ _ Hi _ _ _ _ Hk Hh) as (Hb & e & He & Hc). split; [done|].
    exists e. split; [done|]. destruct Hc as [->|[?|[Hlt (x & Hx & Hxh)]]]; [by left|by right; left|]. right. right. split; [done|]. exists x. rewrite Hf. split; [|done]. apply elem_of_app. by left.
  - apply (ei_past _ _ _ _ _ Hi).
  - intros ns coll h n e x Hl. rewrite Hf. intros [Hx|Hx]%elem_of_app; [by apply (ei_unlisted _ _ _ _ _ Hi _ _ _ _ _ _ Hl Hx)|].
    destruct (late_entry _ _ _ _ Hx) as (vv & hv & _ & _ & _ & _ & _ & _ & Hnl & _ & Hb & _). cbn in Hb. rewrite Hb in Hnl. intros <-. done.
  - apply late_pvt.
  - intros ns coll key vv hv Hk Hne Hv. rewrite Hσh by done. intros Hh. destruct (late_origin _ _ _ _ Hk Hv) as [[Hg Hd]|[_ Hv']]; [|by eapply ei_order].
    destruct (late_put _ _ _ _ Hg Hd) as (_ & _ & hv' & Hh' & Ev). rewrite Hh in Hh'. injection Hh' as <-. by rewrite Ev.
  - intros k ns coll x Hx. rewrite Hf in Hx. apply elem_of_app in Hx as [Hx|Hx].
    + destruct (ei_entry _ _ _ _ _ Hi _ _ _ _ Hx) as [H1 H2 H3 H4 H5 H6]. constructor; [done..|by rewrite Hσh|]. intros Hne. destruct (H6 Hne) as (H7 & H8 & H9).
      split; [done|]. split; [done|]. intros vv Hv. destruct (late_origin ns coll (kh_Key x) vv H1 Hv) as [[Hg Hd]|[_ Hv']]; [|by apply H9].
      destruct (late_put _ _ _ _ Hg Hd) as (_ & _ & hv & Hh & ->). apply H5. by rewrite H8.
    + destruct (late_entry _ _ _ _ Hx) as (vv & hv & Hg & Hd & Hh & Hk & Hdk & Hhv & _ & Hb & Hbh & He & Hmax).
      destruct (ei_hash _ _ _ _ _ Hi _ _ _ _ Hdk Hhv) as (Hbn & _). constructor; [done|done|done|lia|..].
      * intros vv'. rewrite Hσh by done. rewrite Hhv. intros [= <-]. lia.
      * intros _. split; [done|]. split; [done|]. intros vv' Hv'. rewrite Hσp, Hg in Hv' by done. unfold live in Hv'. rewrite Hd in Hv'. injection Hv' as <-. lia.
  - exact Hw.
Qed.

(** ** The working set *)

Definition named (key : bytes) (v : keyAndVersion) : option keyAndVersion :=
  if kv_purgeKeyOnly v then None else Some (mkkeyAndVersion key (kv_committingBlock v) (kv_purgeKeyOnly v)).

Lemma add_missing_none (l : list (bytes * bytes * bytes)) (t : expiryInfoMap) (ns coll h : bytes) :
  (forall key, (ns, coll, key) ∈ l -> Sum256 key <> h) -> fold_left (fun m k => add_missing k m) l t !! (ns, coll, h) = t !! (ns, coll, h).
Proof.
  revert t. induction l as [|[[n c] k] l IH]; intros t Hl; [done|]. cbn [fold_left]. rewrite IH by (intros; apply Hl; by right).
  assert (Hne : (n, c, Sum256 k) <> (ns, coll, h)) by (intros [= -> -> E]; apply (Hl k); [by left|done]).
  unfold add_missing. destruct (t !! (n, c, Sum256 k)) as [v|]; [|done]. destruct (kv_purgeKeyOnly v); [by rewrite lookup_delete_ne|by rewrite lookup_insert_ne].
Qed.

Lemma add_missing_some (l : list (bytes * bytes * bytes)) (t : expiryInfoMap) (ns coll key : bytes) :
  (forall key', (ns, coll, key') ∈ l -> Sum256 key' = Sum256 key -> key' = key) -> (ns, coll, key) ∈ l ->
  fold_left (fun m k => add_missing k m) l t !! (ns, coll, Sum256 key) = t !! (ns, coll, Sum256 key) ≫= named key.
Proof.
  revert t. induction l as [|[[n c] k] l IH]; intros t Hl Hin; [by apply not_elem_of_nil in Hin|]. cbn [fold_left].
  assert (Hstep : (n, c, Sum256 k) = (ns, coll, Sum256 key) -> add_missing (n, c, k) t !! (ns, coll, Sum256 key) = t !! (ns, coll, Sum256 key) ≫= named key).
  { intros [= -> -> E]. rewrite (Hl k) by (by left || done). unfold add_missing, named. destruct (t !! (ns, coll, Sum256 key)) as [v|] eqn:Et; [|done]. cbn [mbind option_bind].
    destruct (kv_purgeKeyOnly v); [by rewrite lookup_delete_eq|by rewrite lookup_insert_eq]. }
  assert (Hother : (n, c, Sum256 k) <> (ns, coll, Sum256 key) -> add_missing (n, c, k) t !! (ns, coll, Sum256 key) = t !! (ns, coll, Sum256 key)).
  { intros Hne. unfold add_missing. destruct (t !! (n, c, Sum256 k)) as [v|]; [|done]. destruct (kv_purgeKeyOnly v); [by rewrite lookup_delete_ne|by rewrite lookup_insert_ne]. }
  destruct (decide ((ns, coll, key) ∈ l)) as [Hl'|Hno].
  - rewrite IH; [|intros; apply Hl; [by right|done]|done]. destruct (decide ((n, c, Sum256 k) = (ns, coll, Sum256 key))) as [E|E]; [|by rewrite Hother].
    rewrite Hstep by done. destruct (t !! (ns, coll, Sum256 key)) as [v|]; [|done]. cbn [mbind option_bind]. unfold named at 2. destruct (kv_purgeKeyOnly v) eqn:Eo; [unfold named; by rewrite Eo|].
    cbn [mbind option_bind named kv_purgeKeyOnly kv_committingBlock]. unfold named. by rewrite Eo.
  - apply elem_of_cons in Hin as [[= <- <- <-]|?]; [|done]. rewrite add_missing_none; [by apply Hstep|].
    intros key' Hin' E. apply Hno. rewrite <- (Hl key'); [done|by right|done].
Qed.

Local Abbreviation late_keys := ((map_to_list (ToCompositeKeyMap p)).*1).

Lemma late_keys_elem (ns coll key : bytes) : (ns, coll, key) ∈ late_keys <-> is_Some (UpdateMap_Get p ns coll key).
Proof.
  rewrite list_elem_of_fmap, <- ToCompositeKeyMap_lookup. split.
  - intros ([k vv] & -> & Hin). exists vv. by apply elem_of_map_to_list.
  - intros [vv E]. exists (ns, coll, key, vv). split; [done|]. by apply elem_of_map_to_list.
Qed.

Lemma late_keys_keys (ns coll key : bytes) : (ns, coll, key) ∈ late_keys -> keys key.
Proof. intros [vv (w & Ew & <- & _)%Hp]%late_keys_elem. by eapply uo_key; [apply (fo_unique _ _ Hm)|]. Qed.

(** The purge list with the keys that came late. *)
Lemma late_purge (t : expiryInfoMap) (ns coll h : bytes) :
  let t' := fold_left (fun m k => add_missing k m) late_keys t in
  (exists key, (ns, coll, key) ∈ late_keys /\ h = Sum256 key /\ t' !! (ns, coll, h) = t !! (ns, coll, h) ≫= named key) \/
  (forall key, (ns, coll, key) ∈ late_keys -> Sum256 key <> h) /\ t' !! (ns, coll, h) = t !! (ns, coll, h).
Proof.
  destruct (decide (Exists (fun '(n, c, key) => (n, c, Sum256 key) = (ns, coll, h)) late_keys)) as [Hex|Hno].
  - left. apply Exists_exists in Hex as ([[n c] key] & Hin & [= -> -> <-]). exists key. split; [done|]. split; [done|].
    apply add_missing_some; [|done]. intros key' Hin' E. apply keys_distinct; [by eapply late_keys_keys|by eapply late_keys_keys|done].
  - right. assert (H : forall key, (ns, coll, key) ∈ late_keys -> Sum256 key <> h). { intros key Hin <-. apply Hno, Exists_exists. by exists (ns, coll, key). }
    split; [done|]. by apply add_missing_none.
Qed.

Lemma late_ws (ws : workingset) :
  ws_ok (D := D) keys N L σ ws ->
  exists ws', addMissingPvtDataToWorkingSet late_keys (Some ws) = Some ws' /\ ws_ok (D := D) keys N L σ' ws'.
Proof.
  intros Hws. eexists. split; [done|]. pose proof (late_purge (ws_toPurge ws)) as HL. cbv zeta in HL.
  set (t' := fold_left _ late_keys (ws_toPurge ws)) in *.
  assert (Hold : forall ns coll h v, t' !! (ns, coll, h) = Some v -> exists v0, ws_toPurge ws !! (ns, coll, h) = Some v0 /\ kv_purgeKeyOnly v0 = kv_purgeKeyOnly v).
  { intros ns coll h v E. destruct (HL ns coll h) as [(key & _ & _ & H)|[_ H]]; rewrite H in E; [|eauto].
    destruct (ws_toPurge ws !! (ns, coll, h)) as [v0|]; [|done]. exists v0. split; [done|]. cbn in E. unfold named in E. destruct (kv_purgeKeyOnly v0); [done|]. by injection E as <-. }
  assert (Hnew : forall ns coll h v0, ws_toPurge ws !! (ns, coll, h) = Some v0 -> kv_purgeKeyOnly v0 = false -> exists v, t' !! (ns, coll, h) = Some v /\ kv_purgeKeyOnly v = false).
  { intros ns coll h v0 E Ho. destruct (HL ns coll h) as [(key & _ & _ & H)|[_ H]]; rewrite H, E; [|eauto]. cbn. unfold named. rewrite Ho. eauto. }
  assert (Hkey : forall ns coll h v, t' !! (ns, coll, h) = Some v -> kv_key v <> [] -> keys (kv_key v) /\ h = Sum256 (kv_key v)).
  { intros ns coll h v E Hne. destruct (HL ns coll h) as [(key & Hin & -> & H)|[_ H]]; rewrite H in E; [|by eapply wo_key].
    destruct (ws_toPurge ws !! (ns, coll, Sum256 key)) as [v0|]; [|done]. cbn in E. unfold named in E. destruct (kv_purgeKeyOnly v0); [done|]. injection E as <-.
    split; [by eapply late_keys_keys|done]. }
  constructor; cbn [ws_err ws_expiringBlk ws_toClearFromSchedule ws_toPurge]; [apply (wo_err _ _ _ _ _ Hws)|apply (wo_blk _ _ _ _ _ Hws)|apply (wo_clear _ _ _ _ _ Hws)|..].
  - intros ns coll h v (v0 & E & _)%Hold. by apply (wo_names _ _ _ _ _ Hws) in E.
  - intros ns coll h Hk. rewrite Hσh by done. rewrite <- (wo_hash _ _ _ _ _ Hws) by done. split.
    + intros (v & E & Ho). destruct (Hold _ _ _ _ E) as (v0 & E0 & Eo). exists v0. by rewrite Eo.
    + intros (v0 & E & Ho). by eapply Hnew.
  - exact Hkey.
  - intros ns coll key vv Hk Hne Hv. assert (Hsum : (exists h v, t' !! (ns, coll, h) = Some v /\ kv_key v = key) <-> exists v, t' !! (ns, coll, Sum256 key) = Some v /\ kv_key v = key).
    { split; [|by intros (v & ?); exists (Sum256 key), v]. intros (h & v & E & <-). destruct (Hkey _ _ _ _ E Hne) as [_ ->]. eauto. }
    rewrite Hsum. clear Hsum. destruct (late_origin _ _ _ _ Hk Hv) as [[Hg Hd]|[Hg Hv0]].
    + destruct (late_put _ _ _ _ Hg Hd) as (Hdk & Hky & hv & Hh & Ev).
      assert (Hexp : expires ns coll vv (N + 1) <-> exists v, ws_toPurge ws !! (ns, coll, Sum256 key) = Some v /\ kv_purgeKeyOnly v = false).
      { rewrite (wo_hash _ _ _ _ _ Hws) by done. unfold expires. rewrite Ev.
        split; [intros He; exists hv; split; [done|]; split; [done|]; by eapply Hlate|]. intros (vv' & E & ? & _). rewrite Hh in E. by injection E as <-. }
      rewrite Hexp. destruct (HL ns coll (Sum256 key)) as [(key' & Hin & E & H)|[Hno _]].
      * apply keys_distinct in E; [|done|by eapply late_keys_keys]. subst key'. rewrite H. destruct (ws_toPurge ws !! (ns, coll, Sum256 key)) as [v0|]; [|naive_solver].
        cbn [mbind option_bind]. unfold named. destruct (kv_purgeKeyOnly v0) eqn:Eo; [split; [by intros (? & ? & _)|intros (? & [= <-] & ?); congruence]|]. split; [eauto|]. intros _. eauto.
      * exfalso. apply (Hno key); [|done]. apply late_keys_elem. eauto.
    + rewrite <- (wo_pvt _ _ _ _ _ Hws ns coll key vv Hk Hne Hv0). destruct (ei_pvt _ _ _ _ _ Hi _ _ _ _ Hk Hne Hv0) as (Hky & _).
      destruct (HL ns coll (Sum256 key)) as [(key' & Hin & E & _)|[_ ->]].
      * apply keys_distinct in E; [|done|by eapply late_keys_keys]. subst key'. apply late_keys_elem in Hin as [? ?]. congruence.
      * split; [intros (v & ?); by exists (Sum256 key), v|]. intros (h & v & E & <-). destruct (wo_key _ _ _ _ _ Hws _ _ _ _ E Hne) as [_ ->]. eauto.
Qed.

End Late.

(** ** The whole of it *)

Context {PR : Protos} {SP : StateProtos} {UC : Codec Updates_msg} {QD : QueryDB D} {CC : DeployedChaincodeInfoProvider}.

Lemma for_range_inv {A S} (P : S -> Prop) (f : A -> S -> outcome S) (l : list A) (x : S) :
  (forall a y, a ∈ l -> P y -> exists z, f a y = Ret z /\ P z) -> P x -> exists z, for_range f l x = Ret z /\ P z.
Proof.
  revert x. induction l as [|a l IH]; intros x Hf Hx; [by exists x|]. destruct (Hf a x) as (y & E & Hy); [by left|done|].
  cbn [for_range]. rewrite E. apply IH; [|done]. intros; apply Hf; [by right|done].
Qed.

(** The private data of earlier blocks can be decoded, and write no empty value. *)
Definition coll_data_ok (ns : bytes) (c : CollectionPvtReadWriteSet) : Prop :=
  dk_ok (HashKey ns (CollectionPvtReadWriteSet_CollectionName c) []) /\ is_ret (GetBTL ns (CollectionPvtReadWriteSet_CollectionName c)) = true /\
  exists kv, proto_Unmarshal (A := KVRWSet) (CollectionPvtReadWriteSet_Rwset c) = Ret kv /\
    Forall (fun w => keys (KVWrite_Key w) /\ (KVWrite_IsDelete w = false -> KVWrite_Value w <> [])) (KVRWSet_Writes kv).

Definition tx_data_ok (num : Z) (tx : TxPvtData) : Prop :=
  Height_wf (NewHeight num (SeqInBlock tx)) /\ exists ws, WriteSet tx = Some ws /\
    forall n c, n ∈ TxPvtReadWriteSet_NsPvtRwset ws -> c ∈ NsPvtReadWriteSet_CollectionPvtRwset n -> coll_data_ok (NsPvtReadWriteSet_Namespace n) c.

Definition reconciled_ok (r : gmap Z (list TxPvtData)) : Prop := forall num txs, r !! num = Some txs -> Forall (tx_data_ok num) txs.

Lemma unique_ok_insert (m : uniquePvtDataMap) (ns coll : bytes) (w : KVWrite) (ver : Height) :
  unique_ok m -> dk_ok (HashKey ns coll []) -> is_ret (GetBTL ns coll) = true -> keys (KVWrite_Key w) -> (KVWrite_IsDelete w = false -> KVWrite_Value w <> []) -> Height_wf ver ->
  unique_ok (updateUsingPvtWrite w (ns, coll, Sum256 (KVWrite_Key w)) ver m).
Proof.
  intros [H1 H2 H3 H4 H5] Hdk Hb Hk Hv Hw.
  assert (H : unique_ok (<[(ns, coll, Sum256 (KVWrite_Key w)) := mkPvtKVWrite (KVWrite_Key w) (KVWrite_IsDelete w) (KVWrite_Value w) ver]> m)).
  { constructor; intros n c h w' E; apply lookup_insert_Some in E as [[[= <- <- <-] <-]|[_ E]]; eauto. }
  unfold updateUsingPvtWrite. destruct (m !! (ns, coll, Sum256 (KVWrite_Key w))); [|done]. by destruct (_ <? _).
Qed.

Lemma constructUniquePvtData_ok (r : gmap Z (list TxPvtData)) :
  reconciled_ok r -> exists m, constructUniquePvtData r = Ret m /\ unique_ok m.
Proof.
  intros Hr. apply for_range_inv; [|by constructor; intros n c h w; rewrite lookup_empty].
  intros [num txs] m Hin%elem_of_map_to_list Hm. apply for_range_inv; [|done]. intros tx m1 Htx Hm1.
  pose proof (Hr _ _ Hin) as Ht. rewrite Forall_forall in Ht. destruct (Ht tx Htx) as (Hver & ws & Ews & Hws).
  unfold updateUsingTxPvtData. rewrite Ews. apply for_range_inv; [|done]. intros n m2 Hn Hm2. apply for_range_inv; [|done]. intros c m3 Hc Hm3.
  destruct (Hws n c Hn Hc) as (Hdk & Hb & kv & Ekv & Hkv). unfold updateUsingCollPvtData. rewrite Ekv. cbn [mbind outcome_bind]. eexists. split; [done|].
  clear Ekv. revert m3 Hm3. induction Hkv as [|w l [Hk Hv] Hl IH]; intros m3 Hm3; [done|]. cbn [fold_left]. apply IH. by apply unique_ok_insert.
Qed.

(** The private value after late data. *)
Definition late_value (σ : state) (m : uniquePvtDataMap) (ns coll key : bytes) : option VersionedValue :=
  match m !! (ns, coll, Sum256 key) ≫= fresh σ (ns, coll, Sum256 key) with
  | Some w => if decide (PvtKVWrite_Key w = key) then live (write_of w) else pvt_of σ ns coll key
  | None => pvt_of σ ns coll key
  end.

Lemma old_blocks_ok (N : Z) (L : unscheduled) (σ : state) (f : schedule) (t : LockBasedTxMgr (D := D)) (r : gmap Z (list TxPvtData)) :
  tm_inv keys N L σ f t -> reconciled_ok r ->
  (forall m ns coll h w hv, constructUniquePvtData r = Ret m -> m !! (ns, coll, h) = Some w -> hash_of σ ns coll h = Some hv -> (ns, coll, h, blk hv) ∉ L) ->
  exists m σ' f' t', constructUniquePvtData r = Ret m /\ RemoveStaleAndCommitPvtDataOfOldBlocks r t = (Ret tt, t') /\ tm_inv keys N L σ' f' t' /\
    tm_current t' = tm_current t /\ tm_usedOnce t' = tm_usedOnce t /\
    (forall k, dk_ok k -> is_pvt k = false -> σ' !! loc (D := D) k = σ !! loc (D := D) k) /\
    (forall ns coll key, dk_ok (PvtKey ns coll key) -> pvt_of σ' ns coll key = late_value σ m ns coll key).
Proof.
  intros [Hv Hk Hi Hws] Hr Hnl. destruct (constructUniquePvtData_ok r Hr) as (m & Em & Hm). exists m.
  unfold RemoveStaleAndCommitPvtDataOfOldBlocks. unfold mbind, M_bind, lift_outcome. rewrite Em. case_bool_decide as Hem.
  { exists σ, f, t. split; [done|]. split; [done|]. split; [done|]. split; [done|]. split; [done|]. split; [done|].
    intros ns coll key _. unfold late_value. by rewrite Hem, lookup_empty. }
  destruct (LoadCommittedVersions_ok (tm_db t) σ [] (map_to_list m).*1 Hv) as (db1 & E1 & Hv1).
  destruct (remove_stale_ok db1 σ m Hv1 Hm) as (m1 & E2 & Hm1).
  assert (Hf1 : fresh_ok σ m1) by (apply (fresh_unique σ m); [intros k vv; apply (view_wf _ _ _ _ (dv_state _ _ Hv))|done|done]).
  destruct (transform_writes_ok m1 (fo_unique _ _ Hf1)) as (p & E3 & Hp).
  assert (Hlate : forall ns coll key vv hv, UpdateMap_Get p ns coll key = Some vv -> hash_of σ ns coll (Sum256 key) = Some hv ->
    (ns, coll, Sum256 key, blk hv) ∉ L).
  { intros ns coll key vv hv (w & Ew & _)%Hp Eh. rewrite Hm1 in Ew. destruct (m !! (ns, coll, Sum256 key)) as [w0|] eqn:E0; [|done].
    by apply (Hnl m _ _ _ w0 hv Em E0). }
  destruct (old_schedule_ok p) as (s & E4 & Hs).
  { intros ns coll key vv (w & Ew & _ & ->)%Hp. cbn. split; [|by eapply uo_btl; [apply (fo_unique _ _ Hf1)|]]. by destruct (uo_version _ (fo_unique _ _ Hf1) _ _ _ _ Ew). }
  destruct (merge_entries_ok (pm_expKeeper (tm_pvtdataPurgeMgr t)) f s Hk (ei_wire _ _ _ _ _ Hi)) as (l & E5 & Hl & Hw & Hf); [by eapply late_known|].
  set (b := mkPrivUpdateBatch NewUpdateBatch ∅ p).
  assert (Hb : updates_ok b).
  { intros [ns key|ns coll h|ns coll key] vv; [done|done|]. intros (w & Ew & _ & ->)%Hp. split; [by eapply uo_names; [apply (fo_unique _ _ Hf1)|]|]. by eapply uo_version; [apply (fo_unique _ _ Hf1)|]. }
  destruct (ApplyPrivacyAwareUpdates_ok db1 σ b None Hv1 Hb) as (db2 & E6 & Hv2).
  set (σ' := apply_updates (batch_map (combined (D := D) b)) σ) in *.
  assert (Hσ : forall k, dk_ok k -> σ' !! loc (D := D) k = match upd_get b k with Some vv => live vv | None => σ !! loc (D := D) k end) by (intros k Hdk; by apply combined_apply).
  assert (Hk' : keeper_view (keeper_update l [] (pm_expKeeper (tm_pvtdataPurgeMgr t))) (track l f)).
  { apply (keeper_update_view l [] _ f Hk Hl). by intros ? ?%not_elem_of_nil. }
  assert (Hws' : tm_usedOnce t = true -> exists ws, addMissingPvtDataToWorkingSet (map_to_list (ToCompositeKeyMap p)).*1 (pm_workingset (tm_pvtdataPurgeMgr t)) = Some ws /\ ws_ok (D := D) keys N L σ' ws).
  { intros Hu. destruct (Hws Hu) as (ws & -> & Hw0). eapply (late_ws N L σ σ' f m1 p); try done; [intros ns coll h Hdk; by rewrite Hσ|intros ns coll key Hdk; by rewrite Hσ]. }
  eexists σ', (track l f), _. split; [done|]. split; [|split; [|split; [|split; [|split]]]].
  - unfold findAndRemoveStalePvtData, on_db, mbind, M_bind, get_state, lift_outcome. rewrite E1, E2. unfold transformToUpdateBatch. rewrite E3.
    cbn [mbind outcome_bind]. unfold UpdateOldExpiryInfo_step, UpdateExpiryInfoOfPvtDataOfOldBlocks, mbind, M_bind, get_state, lift_outcome, modify_state.
    cbn [PvtUpdates set_db tm_pvtdataPurgeMgr]. rewrite old_additions_eq, E4. cbn [mbind outcome_bind]. unfold getExpiryInfo. rewrite E5. cbn [mbind outcome_bind set_purge tm_db].
    cbn [set_db tm_db]. fold b. rewrite E6. reflexivity.
  - constructor; [done|done| |exact Hws']. eapply (late_inv N L σ σ' f (track l f) m1 p s); try done; [intros ns coll h Hdk; by rewrite Hσ|intros ns coll key Hdk; by rewrite Hσ].
  - done.
  - done.
  - intros [ns key|ns coll h|ns coll key] Hdk Hpv; [by rewrite Hσ|by rewrite Hσ|done].
  - intros ns coll key Hdk. rewrite Hσ by done. cbn [upd_get b PvtUpdates]. unfold late_value. rewrite <- Hm1.
    pose proof (Hp ns coll key) as Hpk. destruct (m1 !! (ns, coll, Sum256 key)) as [w|] eqn:Ew.
    + destruct (decide (PvtKVWrite_Key w = key)) as [Ek|Ek]; [by rewrite (proj2 (Hpk (write_of w))) by eauto|].
      destruct (UpdateMap_Get p ns coll key) as [vv|]; [|done]. destruct (proj1 (Hpk vv) eq_refl) as (w' & [= <-] & ? & _). done.
    + destruct (UpdateMap_Get p ns coll key) as [vv|]; [|done]. by destruct (proj1 (Hpk vv) eq_refl) as (w' & ? & _).
Qed.

End OldPvtData.
