(* ===== verification/QueryUtilOk.v ===== *)
(** * Queries over a batch and the database

    The merged iterator gives the items of its sources in order, each key once and
    with the value of the first source that has it, and comes to an end; over the
    updates of a block and the database this is the state after the block. *)

From S2P Require Import Prelude OrderedCode LevelDB Sha256 Proto StateProto StateDB StateDBOk PrivState PrivStateOk RwSet RwSetBuilder Simulator Validation CombinedItr QueryUtil.

(** ** Sorted sources *)

(** The first source that has the key. *)
Fixpoint ul (ls : list (list item)) (k : bytes) : option VersionedValue :=
  match ls with
  | [] => None
  | l :: ls' => match (list_to_map l : nsUpdates) !! k with Some v => Some v | None => ul ls' k end
  end.

Lemma ul_app (a b : list (list item)) (k : bytes) : ul (a ++ b) k = match ul a k with Some v => Some v | None => ul b k end.
Proof. induction a as [|l a IH]; [done|]. cbn [app ul]. by destruct (list_to_map l !! k). Qed.

Definition total (ls : list (list item)) : nat := length (mjoin ls).

Lemma total_app (a b : list (list item)) : total (a ++ b) = (total a + total b)%nat.
Proof. unfold total. by rewrite join_app, length_app. Qed.

Lemma total_cons (l : list item) (ls : list (list item)) : total (l :: ls) = (length l + total ls)%nat.
Proof. unfold total. cbn. by rewrite length_app. Qed.

(** A source without items is left out. *)
Definition source (l : list item) : list (list item) := match l with [] => [] | _ => [l] end.

Lemma ul_source (l : list item) (b : list (list item)) (k : bytes) : ul (source l ++ b) k = ul (l :: b) k.
Proof. destruct l; [|done]. done. Qed.

Lemma total_source (l : list item) : total (source l) = length l.
Proof. destruct l; [done|]. cbn [source]. rewrite total_cons. unfold total. cbn. lia. Qed.

Lemma map_of_head (x : item) (l : list item) (k : bytes) :
  (list_to_map (x :: l) : nsUpdates) !! k = if decide (fst x = k) then Some (snd x) else (list_to_map l : nsUpdates) !! k.
Proof. cbn. case_decide as E; [subst; by rewrite lookup_insert_eq|by rewrite lookup_insert_ne]. Qed.

(** What an iteration gives: the live items, in order. *)
Definition enum (ls : list (list item)) (out : list item) : Prop :=
  StronglySorted key_lt out /\ forall x, x ∈ out <-> ul ls (fst x) = Some (snd x) /\ IsDelete (snd x) = false.

(** The item with the smallest key is taken from [ls], and [ls'] is left. *)
Record takes (ls : list (list item)) (x : item) (ls' : list (list item)) : Prop := {
  tk_item : ul ls (fst x) = Some (snd x);
  tk_rest : forall k, ul ls' k = if decide (k = fst x) then None else ul ls k;
  tk_least : forall k v, ul ls' k = Some v -> bytes_compare (fst x) k = Lt;
  tk_total : (total ls' < total ls)%nat }.

Lemma takes_enum (ls ls' : list (list item)) (x : item) (out : list item) :
  takes ls x ls' -> enum ls' out -> enum ls (live_item x ++ out).
Proof.
  intros [H1 H2 H3 _] [Hs Ho]. split.
  - apply live_item_sorted; [done|]. apply Forall_forall. intros y [Hy _]%Ho. by apply (H3 _ _ Hy).
  - intros y. rewrite elem_of_app, Ho, H2. unfold live_item. destruct (decide (fst y = fst x)) as [E|E].
    + rewrite E, H1. destruct (IsDelete (snd x)) eqn:Ed.
      * split; [intros [?%not_elem_of_nil|[? _]]; done|]. intros [[= E2] Hd]. congruence.
      * rewrite list_elem_of_singleton. split; [intros [->|[? _]]; done|]. intros [[= E2] _]. left. destruct x, y; cbn in *. congruence.
    + split; [intros [Hin|?]; [|done]|intros ?; by right]. destruct (IsDelete (snd x)); [by apply not_elem_of_nil in Hin|]. apply list_elem_of_singleton in Hin. by subst.
Qed.

Section CombinerOk.
Context {I : Type} `{RI : !ResultsIterator I}.
Variable ns : bytes.

Definition holds (h : itrHolder I) (l : list item) : Prop :=
  StronglySorted key_lt l /\ exists x l', l = x :: l' /\ ih_kv h = to_kv ns x /\ yields (ih_itr h) (to_kv ns <$> l').

Lemma moveToNext_ok (h : itrHolder I) (x : item) (l : list item) :
  holds h (x :: l) -> exists h', moveToNext h = (Ret (match l with [] => true | _ => false end), h') /\ (l <> [] -> holds h' l).
Proof.
  intros [Hs (y & l' & [= <- <-] & _ & Hy)]. unfold moveToNext. destruct (yields_pos _ _ _ Hy) as (r & it & -> & Hp).
  apply StronglySorted_inv in Hs as [Hs _]. destruct l as [|y l].
  - cbn in Hp. subst r. eexists. split; [done|]. by intros ?.
  - destruct Hp as [-> Hp]. eexists. split; [done|]. intros _. split; [done|]. eauto.
Qed.

(** Moving the iterator after [ha]. *)
Lemma move_ok (ha hb : list (itrHolder I)) (h : itrHolder I) (x : item) (l : list item) (a b : list (list item)) :
  Forall2 holds ha a -> Forall2 holds hb b -> holds h (x :: l) ->
  exists hs, moveItrAndRemoveIfExhausted (length ha) (ha ++ h :: hb) = (Ret (match l with [] => true | _ => false end), ha ++ hs ++ hb) /\ Forall2 holds hs (source l).
Proof.
  intros Ha Hb Hh. unfold moveItrAndRemoveIfExhausted. rewrite list_lookup_middle by done. destruct (moveToNext_ok h x l Hh) as (h' & -> & Hl). destruct l as [|y l].
  - exists []. split; [|constructor]. rewrite take_app_length, drop_app_ge by lia. by replace (S (length ha) - length ha)%nat with 1%nat by lia.
  - exists [h']. split; [|by constructor; [apply Hl|constructor]]. by rewrite insert_app_r_alt, Nat.sub_diag by lia.
Qed.

(** The item at [s] is the least of those at the heads. *)
Definition least_head (s : nat) (ls : list (list item)) (x : item) : Prop :=
  (exists l, ls !! s = Some (x :: l)) /\ forall j y l, ls !! j = Some (y :: l) -> j <> s -> key_lt x y.

Lemma least_head_snoc (s : nat) (ls : list (list item)) (x y : item) (l : list item) :
  least_head s ls x -> key_lt x y -> least_head s (ls ++ [y :: l]) x.
Proof.
  intros [(l0 & E0) Hl] Hxy. split; [exists l0; by apply lookup_app_l_Some|]. intros j z lz Ej Hj. apply lookup_app_Some in Ej as [Ej|[_ Ej]]; [by eapply Hl|].
  apply list_lookup_singleton_Some in Ej as [_ [= <- _]]. done.
Qed.

Lemma keyAt_holds (hs : list (itrHolder I)) (ls : list (list item)) (i : nat) (x : item) (l : list item) :
  Forall2 holds hs ls -> ls !! i = Some (x :: l) -> keyAt hs i = Ret (fst x) /\ exists h, hs !! i = Some h /\ ih_kv h = to_kv ns x.
Proof.
  intros Hf E. destruct (Forall2_lookup_r _ _ _ _ _ Hf E) as (h & Eh & _ & y & l' & [= <- <-] & Hk & _).
  unfold keyAt, go_index. rewrite Eh. cbn. rewrite Hk. eauto.
Qed.

Lemma select_smallest_ok (hr : list (itrHolder I)) (hp : list (itrHolder I)) (lp lr : list (list item)) (s : nat) (x : item) :
  Forall2 holds hp lp -> Forall2 holds hr lr -> least_head s lp x ->
  exists s' hs ls x', select_smallest (length hr) s (length hp) (hp ++ hr) = (Ret s', hs) /\ Forall2 holds hs ls /\ least_head s' ls x' /\
    (forall k, ul ls k = ul (lp ++ lr) k) /\ (total ls <= total (lp ++ lr))%nat.
Proof.
  revert hp lp lr s x. induction hr as [|h hr IH]; intros hp lp lr s x Hp Hr Hx.
  - apply Forall2_nil_inv_l in Hr as ->. rewrite !app_nil_r. exists s, hp, lp, x. done.
  - apply Forall2_cons_inv_l in Hr as (ly & lr' & Hh & Hr & ->). destruct (Hh) as [Hs (y & l & -> & Hkv & Hy)].
    assert (Hall : Forall2 holds (hp ++ h :: hr) (lp ++ (y :: l) :: lr')) by (apply Forall2_app; [done|by constructor]).
    pose proof (Forall2_length _ _ _ Hp) as Hlen. destruct Hx as [(lx & Ex) Hx].
    cbn [length select_smallest]. unfold mbind, M_bind, get_state, lift_outcome.
    rewrite (proj1 (keyAt_holds _ _ s x lx Hall (lookup_app_l_Some _ _ _ _ Ex))).
    rewrite (proj1 (keyAt_holds _ _ (length hp) y l Hall ltac:(rewrite Hlen; by apply list_lookup_middle))).
    destruct (bytes_compare (fst y) (fst x)) eqn:Ec.
    + apply bytes_compare_eq in Ec. destruct (move_ok hp hr h y l lp lr' Hp Hr Hh) as (hs & -> & Hhs).
      assert (Hul : forall k, ul (lp ++ source l ++ lr') k = ul (lp ++ (y :: l) :: lr') k).
      { intros k. rewrite !(ul_app lp). destruct (ul lp k) eqn:El; [done|]. rewrite ul_source. cbn [ul]. rewrite map_of_head.
        destruct (decide (fst y = k)) as [<-|Hk]; [|done]. exfalso. rewrite Ec in El. apply list_elem_of_split_length in Ex as (a & b & -> & _).
        rewrite ul_app in El. destruct (ul a (fst x)); [done|]. cbn [ul] in El. rewrite map_of_head, decide_True in El by done. done. }
      assert (Htot : (total (lp ++ source l ++ lr') <= total (lp ++ (y :: l) :: lr'))%nat) by (rewrite !total_app, total_source, total_cons; cbn [length]; lia).
      destruct l as [|z l]; cbn [source app] in *.
      * apply Forall2_nil_inv_r in Hhs as ->. cbn [app]. destruct (IH hp lp lr' s x) as (s' & hs' & ls' & x' & E & H1 & H2 & H3 & H4); [done|done|split; eauto|].
        exists s', hs', ls', x'. split; [done|]. split; [done|]. split; [done|]. split; [intros k; by rewrite H3|lia].
      * apply Forall2_cons_inv_r in Hhs as (h' & hn & Hh' & Hn & ->). apply Forall2_nil_inv_r in Hn as ->. cbn [app].
        destruct (IH (hp ++ [h']) (lp ++ [z :: l]) lr' s x) as (s' & hs' & ls' & x' & E & H1 & H2 & H3 & H4); [by apply Forall2_app; [|constructor]|done| |].
        { apply least_head_snoc; [split; eauto|]. unfold key_lt. rewrite <- Ec. apply StronglySorted_inv in Hs as [_ Hf]. by apply Forall_inv in Hf. }
        rewrite length_app in E. cbn [length] in E. rewrite Nat.add_1_r in E. rewrite <- !app_assoc in *. cbn [app] in *.
        exists s', hs', ls', x'. split; [done|]. split; [done|]. split; [done|]. split; [intros k; by rewrite H3|lia].
    + destruct (IH (hp ++ [h]) (lp ++ [y :: l]) lr' (length hp) y) as (s' & hs' & ls' & x' & E & H1 & H2 & H3 & H4); [by apply Forall2_app; [|constructor]|done| |].
      { split; [exists l; rewrite Hlen; by apply list_lookup_middle|]. intros j z lz Ej Hj.
        apply lookup_app_Some in Ej as [Ej|[Hge Ej]]; [|apply list_lookup_singleton_Some in Ej as [Ej _]; lia].
        destruct (decide (j = s)) as [->|Hjs]; [rewrite Ex in Ej; by injection Ej as <- _|]. by apply (transitivity (y := x)); [|eapply Hx]. }
      rewrite length_app in E. cbn [length] in E. rewrite Nat.add_1_r in E. rewrite <- !app_assoc in *. cbn [app] in *. exists s', hs', ls', x'. done.
    + destruct (IH (hp ++ [h]) (lp ++ [y :: l]) lr' s x) as (s' & hs' & ls' & x' & E & H1 & H2 & H3 & H4); [by apply Forall2_app; [|constructor]|done| |].
      { apply least_head_snoc; [split; eauto|]. unfold key_lt. by rewrite bytes_compare_antisym, Ec. }
      rewrite length_app in E. cbn [length] in E. rewrite Nat.add_1_r in E. rewrite <- !app_assoc in *. cbn [app] in *. exists s', hs', ls', x'. done.
Qed.

Lemma sorted_ul (l : list item) (x : item) (k : bytes) (v : VersionedValue) :
  StronglySorted key_lt l -> (forall y l', l = y :: l' -> key_lt x y) -> (list_to_map l : nsUpdates) !! k = Some v -> bytes_compare (fst x) k = Lt.
Proof.
  intros Hs Hx E%elem_of_list_to_map_2. destruct l as [|y l]; [by apply not_elem_of_nil in E|]. specialize (Hx y l eq_refl).
  apply StronglySorted_inv in Hs as [_ Hf]. rewrite Forall_forall in Hf. apply elem_of_cons in E as [<-|E]; [done|]. exact (transitivity Hx (Hf _ E)).
Qed.

Lemma ul_above (ls : list (list item)) (x : item) (k : bytes) (v : VersionedValue) :
  Forall (StronglySorted key_lt) ls -> Forall (fun l => forall y l', l = y :: l' -> key_lt x y) ls -> ul ls k = Some v -> bytes_compare (fst x) k = Lt.
Proof.
  intros Hs Hx. induction ls as [|l ls IH]; [done|]. apply Forall_cons in Hs as [Hs Hs'], Hx as [Hx Hx']. cbn [ul].
  destruct (list_to_map l !! k) as [w|] eqn:E; [|by apply IH]. intros _. by eapply sorted_ul.
Qed.

(** Taking the least head. *)
Lemma least_head_takes (s : nat) (ls : list (list item)) (x : item) :
  Forall (StronglySorted key_lt) ls -> least_head s ls x ->
  exists a l b, ls = a ++ (x :: l) :: b /\ length a = s /\ takes ls x (a ++ source l ++ b).
Proof.
  intros Hs [(l & E) Hx]. pose proof E as E'. apply list_elem_of_split_length in E as (a & b & -> & Ha). exists a, l, b. split; [done|]. split; [done|].
  apply Forall_app in Hs as [Hsa [Hsl Hsb]%Forall_cons]. apply StronglySorted_inv in Hsl as [Hsl Hfl].
  assert (Ha' : Forall (fun l => forall y l', l = y :: l' -> key_lt x y) a).
  { apply Forall_lookup. intros j z Ej y l' ->. apply (Hx j y l'); [by apply lookup_app_l_Some|]. apply lookup_lt_Some in Ej. lia. }
  assert (Hb' : Forall (fun l => forall y l', l = y :: l' -> key_lt x y) (source l ++ b)).
  { apply Forall_app. split.
    - destruct l as [|z l]; constructor; [|constructor]. intros y l' [= <- _]. by apply Forall_inv in Hfl.
    - apply Forall_lookup. intros j z Ej y l' ->. apply (Hx (S (length a + j)) y l'); [|lia]. rewrite lookup_app_r by lia. by replace (S (length a + j) - length a)%nat with (S j) by lia. }
  assert (Hsrc : Forall (StronglySorted key_lt) (source l ++ b)) by (apply Forall_app; split; [destruct l; [constructor|by constructor]|done]).
  assert (Hnone : forall ls, Forall (StronglySorted key_lt) ls -> Forall (fun l => forall y l', l = y :: l' -> key_lt x y) ls -> ul ls (fst x) = None).
  { intros ls Hls Hlx. destruct (ul ls (fst x)) as [v|] eqn:E; [|done]. pose proof (ul_above ls x (fst x) v Hls Hlx E) as H. by rewrite bytes_compare_refl in H. }
  constructor.
  - rewrite ul_app, Hnone by done. cbn [ul]. by rewrite map_of_head, decide_True.
  - intros k. rewrite !(ul_app a). case_decide as Hk.
    + subst k. by rewrite !Hnone.
    + destruct (ul a k); [done|]. rewrite ul_source. cbn [ul]. by rewrite map_of_head, decide_False by congruence.
  - intros k v. apply ul_above; by apply Forall_app.
  - rewrite !total_app, total_source, total_cons. cbn [length]. lia.
Qed.

Lemma holds_sorted (hs : list (itrHolder I)) (ls : list (list item)) : Forall2 holds hs ls -> Forall (StronglySorted key_lt) ls.
Proof. intros H. eapply Forall2_Forall_r; [exact H|]. apply Forall_forall. by intros h _ l [? _]. Qed.

Lemma takes_ext (ls0 ls ls' : list (list item)) (x : item) :
  (forall k, ul ls k = ul ls0 k) -> (total ls <= total ls0)%nat -> takes ls x ls' -> takes ls0 x ls'.
Proof. intros Hu Ht [H1 H2 H3 H4]. constructor; [by rewrite <- Hu|intros k; by rewrite H2, Hu|done|lia]. Qed.

Lemma take_smallest_ok (hs : list (itrHolder I)) (ls : list (list item)) :
  Forall2 holds hs ls -> hs <> [] -> exists x hs' ls', take_smallest hs = (Ret (to_kv ns x), hs') /\ Forall2 holds hs' ls' /\ takes ls x ls'.
Proof.
  intros Hf Hne. destruct hs as [|h hs]; [done|]. apply Forall2_cons_inv_l in Hf as (l & lr & Hh & Hr & ->). destruct (Hh) as [_ (x & l' & -> & _)].
  destruct (select_smallest_ok hs [h] [x :: l'] lr 0 x) as (s & hs1 & ls1 & x1 & E & Hf1 & Hl1 & Hu & Ht); [by constructor|done| |].
  { split; [by exists l'|]. intros j y ly Ej Hj. apply list_lookup_singleton_Some in Ej as [-> _]. done. }
  destruct (least_head_takes s ls1 x1 (holds_sorted _ _ Hf1) Hl1) as (a & l & b & -> & Ha & Htk).
  apply Forall2_app_inv_r in Hf1 as (ha & hb' & Hfa & Hfb & ->). apply Forall2_cons_inv_r in Hfb as (h1 & hb & Hh1 & Hfb & ->).
  destruct (move_ok ha hb h1 x1 l a b Hfa Hfb Hh1) as (hm & Em & Hm). pose proof (Forall2_length _ _ _ Hfa) as Hlen.
  exists x1, (ha ++ hm ++ hb), (a ++ source l ++ b). split; [|split].
  - unfold take_smallest. unfold mbind, M_bind, get_state, lift_outcome. cbn [length]. rewrite Nat.sub_succ, Nat.sub_0_r.
    change (h :: hs) with ([h] ++ hs). change 1%nat with (length [h]). rewrite E. unfold go_index. rewrite <- Ha, <- Hlen, list_lookup_middle by done.
    cbv beta iota. rewrite Em. destruct Hh1 as [_ (? & ? & [= <- <-] & -> & _)]. done.
  - apply Forall2_app; [done|]. by apply Forall2_app.
  - by eapply takes_ext.
Qed.

Lemma enum_nil (ls : list (list item)) : enum ls [] <-> forall k v, ul ls k = Some v -> IsDelete v = true.
Proof.
  split.
  - intros [_ H] k v E. destruct (IsDelete v) eqn:Ed; [done|]. exfalso. eapply (not_elem_of_nil (k, v)). by apply H.
  - intros H. split; [constructor|]. intros x. split; [by intros ?%not_elem_of_nil|]. intros [E Hd]. by rewrite (H _ _ E) in Hd.
Qed.

Lemma holders_nil (ls : list (list item)) : Forall2 holds [] ls -> ls = [].
Proof. by intros ?%Forall2_nil_inv_l. Qed.

(** [Next] returns after at most as many rounds as there are items. *)
Lemma next_live_ok (fuel : nat) (hs : list (itrHolder I)) (ls : list (list item)) :
  Forall2 holds hs ls -> (total ls < fuel)%nat ->
  exists r hs', next_live fuel hs = (Ret r, hs') /\
    match r with
    | None => enum ls []
    | Some kv => exists x ls', kv = to_kv ns x /\ Forall2 holds hs' ls' /\ (total ls' < total ls)%nat /\ forall out, enum ls' out -> enum ls (x :: out)
    end.
Proof.
  revert hs ls. induction fuel as [|fuel IH]; intros hs ls Hf Hlt; [lia|]. cbn [next_live]. destruct hs as [|h hs].
  - apply holders_nil in Hf as ->. eexists _, _. split; [done|]. apply enum_nil. done.
  - destruct (take_smallest_ok (h :: hs) ls Hf ltac:(done)) as (x & hs1 & ls1 & E & Hf1 & Htk). unfold mbind, M_bind. rewrite E.
    pose proof (tk_total _ _ _ Htk) as Ht. change (IsDelete (vkv_Value (to_kv ns x))) with (IsDelete (snd x)). destruct (IsDelete (snd x)) eqn:Ed.
    + destruct (IH hs1 ls1 Hf1 ltac:(lia)) as (r & hs2 & E2 & Hr). exists r, hs2. split; [done|].
      assert (Hen : forall out, enum ls1 out -> enum ls out).
      { intros out Ho. pose proof (takes_enum _ _ _ _ Htk Ho) as H. unfold live_item in H. by rewrite Ed in H. }
      destruct r as [kv|]; [|by apply Hen]. destruct Hr as (y & ls2 & -> & Hf2 & Ht2 & Hout). exists y, ls2. split; [done|]. split; [done|]. split; [lia|]. eauto.
    + exists (Some (to_kv ns x)), hs1. split; [done|]. exists x, ls1. split; [done|]. split; [done|]. split; [done|]. intros out Ho.
      pose proof (takes_enum _ _ _ _ Htk Ho) as H. unfold live_item in H. by rewrite Ed in H.
Qed.

Definition kv_of (x : item) : KV := mkKV ns (fst x) (vv_Value (snd x)).

Lemma combiner_all_ok (fuel : nat) (hs : list (itrHolder I)) (ls : list (list item)) :
  Forall2 holds hs ls -> (total ls < fuel)%nat ->
  exists out c', combiner_all fuel (mkitrCombiner ns hs) = (Ret (kv_of <$> out), c') /\ enum ls out.
Proof.
  revert hs ls. induction fuel as [|fuel IH]; intros hs ls Hf Hlt; [lia|]. cbn [combiner_all]. unfold mbind, M_bind, combiner_Next. cbn [ic_holders ic_namespace].
  destruct (next_live_ok (S fuel) hs ls Hf Hlt) as (r & hs' & -> & Hr). destruct r as [kv|]; cbn [mbind outcome_bind option_map].
  - destruct Hr as (x & ls' & -> & Hf' & Ht & Hout). destruct (IH hs' ls' Hf' ltac:(lia)) as (out & c' & -> & Ho). eexists (x :: out), _. split; [done|]. by apply Hout.
  - eexists [], _. done.
Qed.

Lemma new_holders_ok (itrs : list I) (ls : list (list item)) :
  Forall2 (fun it l => yields it (to_kv ns <$> l) /\ StronglySorted key_lt l) itrs ls ->
  exists hs, new_holders itrs = Ret hs /\ Forall2 holds hs (ls ≫= source).
Proof.
  induction 1 as [|it l itrs ls [Hy Hs] Hf (hs & E & IH)]; [by exists []|]. cbn [new_holders].
  destruct (yields_pos _ _ _ Hy) as (r & it' & -> & Hp). cbn [mbind outcome_bind]. rewrite E. cbn [mbind outcome_bind list_bind]. destruct l as [|x l].
  - cbn in Hp. subst r. exists hs. done.
  - destruct Hp as [-> Hp]. eexists. split; [done|]. cbn [source app]. constructor; [|done]. split; [done|]. eauto.
Qed.

End CombinerOk.

Lemma ul_sources (ls : list (list item)) (k : bytes) : ul (ls ≫= source) k = ul ls k.
Proof. induction ls as [|l ls IH]; [done|]. cbn [mbind list_bind]. rewrite ul_source. cbn [ul]. by rewrite IH. Qed.

Lemma total_sources (ls : list (list item)) : total (ls ≫= source) = total ls.
Proof. induction ls as [|l ls IH]; [done|]. cbn [mbind list_bind]. rewrite total_app, total_source, total_cons. by rewrite IH. Qed.

Lemma enum_unique (ls : list (list item)) (out out' : list item) : enum ls out -> enum ls out' -> out = out'.
Proof. intros [H1 H2] [H3 H4]. apply key_lt_ext; [done|done|]. intros x. by rewrite H2, H4. Qed.

(** ** The state after a block that is not yet committed *)

Lemma yields_inl {I J} `{!ResultsIterator I, !ResultsIterator J} (i : I) (l : list VersionedKV) : yields i l -> yields (inl i : I + J) l.
Proof.
  induction 1 as [i i' E|i i' kv l E H IH]; [apply (yields_nil _ (inl i'))|apply (yields_cons _ (inl i')); [|done]]; change (Next (inl i : I + J)) with (let '(r, i) := Next i in (r, inl i : I + J)); by rewrite E.
Qed.

Lemma yields_inr {I J} `{!ResultsIterator I, !ResultsIterator J} (j : J) (l : list VersionedKV) : yields j l -> yields (inr j : I + J) l.
Proof.
  induction 1 as [i i' E|i i' kv l E H IH]; [apply (yields_nil _ (inr i'))|apply (yields_cons _ (inr i')); [|done]]; change (Next (inr i : I + J)) with (let '(r, i) := Next i in (r, inr i : I + J)); by rewrite E.
Qed.

(** With two sources this is the merge of the validator's iterator. *)
Lemma comb_enum (ld lu : list item) : StronglySorted key_lt ld -> StronglySorted key_lt lu -> enum [lu; ld] (comb ld lu).
Proof.
  intros Hd Hu. split; [by apply comb_sorted|]. intros [k v]. rewrite comb_elem by done. cbn [ul fst snd].
  assert (Hlive : live v = Some v <-> IsDelete v = false) by (unfold live; destruct (IsDelete v); [split; done|done]). rewrite Hlive.
  assert (Hin : forall l, StronglySorted key_lt l -> (k, v) ∈ l <-> (list_to_map l : nsUpdates) !! k = Some v).
  { intros l Hl. split; [intros H; apply elem_of_list_to_map_1; [by apply key_lt_NoDup|done]|apply elem_of_list_to_map_2]. }
  assert (Hno : k ∉ lu.*1 <-> (list_to_map lu : nsUpdates) !! k = None) by (split; [apply not_elem_of_list_to_map_1|apply not_elem_of_list_to_map_2]).
  rewrite (Hin lu Hu), (Hin ld Hd), Hno. destruct (list_to_map lu !! k); [naive_solver|]. destruct (list_to_map ld !! k); naive_solver.
Qed.

Section PostCommit.
Context {D : Type} {VD : VersionedDB D} {VO : VersionedDBOk D}.
Variables (db : DB D) (σ : state) (b : PrivUpdateBatch).
Hypothesis Hv : db_view db σ.
Hypothesis Hb : updates_ok b.

Abbreviation post_commit := [UpdateBatchBackedQueryExecuter (D := D) (PubUpdates b) (HashUpdates b); DB_QueryExecuter db].
Abbreviation σ' := (apply_updates (batch_map (combined (D := D) b)) σ).

Definition value_of (vv : option VersionedValue) : option bytes := vv ≫= vv_Value.

(** The first executer with the key decides: the batch, or else the database. *)
Lemma first_value_ok (get : QueryExecuter (nsIterator + DbItr (D := D)) -> outcome (option VersionedValue)) (k : data_key) :
  dk_ok k -> get (UpdateBatchBackedQueryExecuter (PubUpdates b) (HashUpdates b)) = Ret (upd_get b k) -> get (DB_QueryExecuter db) = Ret (σ !! loc (D := D) k) ->
  first_value get post_commit = Ret (value_of (σ' !! loc (D := D) k)).
Proof.
  intros Hk E1 E2. cbn [first_value]. rewrite E1, combined_apply by done. cbn [mbind outcome_bind]. destruct (upd_get b k) as [vv|]; [unfold live; by destruct (IsDelete vv)|].
  rewrite E2. cbn [mbind outcome_bind]. destruct (σ !! loc k) as [vv|] eqn:E; [|done].
  apply (view_live _ _ _ _ (dv_state _ _ Hv)) in E. unfold live in E. by destruct (IsDelete vv).
Qed.

Lemma post_GetState (ns key : bytes) : dk_ok (PubKey ns key) -> combiner_GetState post_commit ns key = Ret (value_of (σ' !! (ns, key))).
Proof.
  intros Hk. apply (first_value_ok (fun qe => qx_GetState qe ns key) (PubKey ns key)); [done|done|]. by apply (view_GetState _ σ _ _ (dv_state _ _ Hv)), (loc_ns_ok (PubKey ns key)).
Qed.

Lemma post_GetPrivateDataHash (ns coll key : bytes) :
  dk_ok (HashKey ns coll (Sum256 key)) -> combiner_GetPrivateDataHash post_commit ns coll key = Ret (value_of (σ' !! loc (D := D) (HashKey ns coll (Sum256 key)))).
Proof.
  intros Hk. apply (first_value_ok (fun qe => qx_GetPrivateDataHash qe ns coll key) (HashKey ns coll (Sum256 key))); [done|done|]. by apply view_GetValueHash.
Qed.

Lemma post_slice (ns : bytes) : dk_ok (PubKey ns []) -> slice σ' ns = slice (apply_updates (batch_map (PubUpdates b)) σ) ns.
Proof.
  intros Hd. apply map_eq. intros key. rewrite !slice_lookup, !apply_updates_lookup.
  rewrite (combined_lookup (D := D) b (PubKey ns key)) by done. by rewrite batch_map_lookup.
Qed.

(** The range is read to its end within as many rounds as the sources have items. *)
Lemma post_scan (ns s e : bytes) :
  dk_ok (PubKey ns []) -> exists c n, combiner_GetStateRangeScanIterator post_commit ns s e = Ret c /\
    forall fuel, (n < fuel)%nat -> fst (combiner_all fuel c) = Ret ((fun kv => mkKV ns (vkv_Key kv) (vv_Value (vkv_Value kv))) <$> scan σ' ns s e).
Proof.
  intros Hd. destruct (view_scan _ _ ns s e (dv_state _ _ Hv)) as (itr & Ei & Hy); [apply Hd|].
  pose proof (GetRangeScanIterator_yields (PubUpdates b) ns s e) as Hu. rewrite scan_to_kv in Hu, Hy.
  set (lu := range_scan (slice (batch_map (PubUpdates b)) ns) s (limit_of e)) in *. set (ld := range_scan (slice σ ns) s (limit_of e)) in *.
  destruct (new_holders_ok ns [inl (GetRangeScanIterator (PubUpdates b) ns s e); inr itr] [lu; ld]) as (hs & Eh & Hf).
  { constructor; [split; [by apply yields_inl|apply range_scan_key_lt]|]. constructor; [split; [by apply yields_inr|apply range_scan_key_lt]|constructor]. }
  exists (mkitrCombiner ns hs), (total [lu; ld]). split.
  - unfold combiner_GetStateRangeScanIterator. cbn [open_iterators qx_GetStateRangeScanIterator UpdateBatchBackedQueryExecuter DB_QueryExecuter mbind outcome_bind].
    rewrite Ei. cbn [mbind outcome_bind]. unfold newItrCombiner. by rewrite Eh.
  - intros fuel Hfuel. destruct (combiner_all_ok ns fuel hs _ Hf) as (out & c' & -> & Ho); [by rewrite total_sources|]. cbn [fst]. f_equal.
    unfold scan. rewrite post_slice by done. fold (scan (apply_updates (batch_map (PubUpdates b)) σ) ns s e).
    rewrite scan_to_kv, <- list_fmap_compose, <- comb_range_scan by (intros; eapply view_live; [apply (dv_state _ _ Hv)|done]). fold lu ld.
    assert (out = comb ld lu) as ->; [|by apply list_fmap_ext; intros ? [] _].
    apply (enum_unique [lu; ld]); [|by apply comb_enum; apply range_scan_key_lt]. split; [apply Ho|]. intros x. rewrite (proj2 Ho). by rewrite ul_sources.
Qed.

End PostCommit.
