(* ===== verification/UpdateBytesOk.v ===== *)
(** * The bytes of an update batch determine its updates

    The commit hash of a block is computed over the bytes of its public and hashed
    updates (update_batch_bytes.go), in which the name space and the collection are
    only written where they change.  [parse] fills them in again. *)

From S2P Require Import Prelude OrderedCode LevelDB Sha256 Proto Block StateProto StateDB StateDBOk PrivState PrivStateOk RwSet Validation RwSetBuilder Simulator BatchPreparer PurgeMgr QueryUtil TxMgr.

(** Name space, collection, and the entry. *)
Abbreviation uentry := (bytes * bytes * (bytes * bool * bytes * bytes))%type.

Definition entry_of (kv : UKVWrite) : bytes * bool * bytes * bytes := (UKVWrite_Key kv, UKVWrite_IsDelete kv, UKVWrite_Value kv, UKVWrite_VersionBytes kv).

Fixpoint parse (ns coll : bytes) (kvs : list UKVWrite) : list uentry :=
  match kvs with
  | [] => []
  | kv :: kvs' =>
      let '(ns, coll) :=
        if bool_decide (UKVWrite_Namespace kv = []) then (ns, if bool_decide (UKVWrite_Collection kv = []) then coll else UKVWrite_Collection kv)
        else (UKVWrite_Namespace kv, UKVWrite_Collection kv) in
      (ns, coll, entry_of kv) :: parse ns coll kvs'
  end.

(** Entries without a name space and a collection of their own. *)
Definition plain (kv : UKVWrite) : Prop := UKVWrite_Namespace kv = [] /\ UKVWrite_Collection kv = [].

Lemma parse_plain (ns coll : bytes) (kvs rest : list UKVWrite) :
  Forall plain kvs -> parse ns coll (kvs ++ rest) = ((fun kv => (ns, coll, entry_of kv)) <$> kvs) ++ parse ns coll rest.
Proof. induction 1 as [|kv kvs [E1 E2] _ IH]; [done|]. cbn [app parse fmap list_fmap]. rewrite E1, E2, !bool_decide_eq_true_2 by done. by rewrite IH. Qed.

(** What begins with a name space can be parsed anywhere. *)
Definition starts (kvs : list UKVWrite) : Prop := match kvs with [] => True | kv :: _ => UKVWrite_Namespace kv <> [] end.

Lemma parse_starts (ns coll ns' coll' : bytes) (kvs : list UKVWrite) : starts kvs -> parse ns coll kvs = parse ns' coll' kvs.
Proof. destruct kvs as [|kv kvs]; [done|]. cbn. intros H. by rewrite bool_decide_eq_false_2. Qed.

(** ** The entries of a map *)

Definition entry_in (u : nsUpdates) (e : bytes * bool * bytes * bytes) : Prop :=
  exists vv, u !! e.1.1.1 = Some vv /\ e.1.1.2 = IsDelete vv /\ e.1.2 = default [] (vv_Value vv) /\ e.2 = Height_ToBytes (vv_Version vv).

Lemma genKVs_ok (u : nsUpdates) :
  exists kvs, genKVs u = Ret kvs /\ Forall plain kvs /\ (u <> ∅ -> kvs <> []) /\ forall e, e ∈ entry_of <$> kvs <-> entry_in u e.
Proof.
  unfold genKVs. assert (H : forall l, (forall k, k ∈ l -> is_Some (u !! k)) -> exists kvs, gen_keys u l = Ret kvs /\ Forall plain kvs /\ length kvs = length l /\
    forall e, e ∈ entry_of <$> kvs <-> e.1.1.1 ∈ l /\ entry_in u e).
  { induction l as [|k l IH]; intros Hl.
    - exists []. split; [done|]. split; [done|]. split; [done|]. intros e. split; [by intros ?%not_elem_of_nil|by intros [?%not_elem_of_nil _]].
    - destruct (Hl k) as [vv Ev]; [by left|]. destruct IH as (kvs & E & Hp & Hn & He); [intros; apply Hl; by right|].
      cbn [gen_keys]. unfold genKV at 1. rewrite Ev. cbn [mbind outcome_bind]. rewrite E. eexists. split; [done|]. split; [by constructor|]. split; [cbn; by rewrite Hn|].
      intros [[[k' d] v] ver]. cbn [fmap list_fmap]. rewrite elem_of_cons, He. cbn [fst snd]. rewrite elem_of_cons. unfold entry_in. cbn [fst snd]. split.
      + intros [[= -> -> -> ->]|[? ?]]; [split; [by left|eauto]|split; [by right|done]].
      + intros [[->|Hin] Hx]; [|by right]. left. destruct Hx as (vv' & E' & -> & -> & ->). rewrite Ev in E'. by injection E' as <-. }
  destruct (H (GetSortedKeys u)) as (kvs & E & Hp & Hn & He); [intros k; by rewrite sorted_keys_elem|]. exists kvs. split; [done|]. split; [done|]. split.
  - intros Hu ->. apply Hu, map_eq. intros k. rewrite lookup_empty. destruct (u !! k) eqn:Ek; [|done]. exfalso.
    assert (Hk : k ∈ GetSortedKeys u) by (rewrite sorted_keys_elem; by rewrite Ek). by destruct (GetSortedKeys u); [apply not_elem_of_nil in Hk|].
  - intros e. rewrite He, sorted_keys_elem. split; [by intros [_ ?]|]. intros Hx. split; [|done]. destruct Hx as (vv & E' & _). by rewrite E'.
Qed.

Lemma GetUpdates_lookup (b : UpdateBatch) (ns key : bytes) : GetUpdates b ns !! key = Batch_Get b ns key.
Proof. unfold GetUpdates, Batch_Get. destruct (Updates b !! ns); [done|apply lookup_empty]. Qed.

Lemma elem_of_keys {A} (m : gmap bytes A) (x : bytes) : x ∈ (map_to_list m).*1 <-> is_Some (m !! x).
Proof.
  rewrite list_elem_of_fmap. split.
  - intros ([k v] & -> & Hin%elem_of_map_to_list). cbn [fst]. by rewrite Hin.
  - intros [v E]. exists (x, v). split; [done|]. by apply elem_of_map_to_list.
Qed.

(** ** Collections and name spaces *)

Definition colls_ok (nb : UpdateBatch) : Prop := Updates nb <> ∅ /\ forall coll u, Updates nb !! coll = Some u -> u <> ∅ /\ coll <> [].

(** Batches are built by adding updates, so no map in them is empty. *)
Record maps_ok (u : PrivUpdateBatch) : Prop := {
  mo_pub : forall ns m, Updates (PubUpdates u) !! ns = Some m -> m <> ∅;
  mo_hash : forall ns nb, HashUpdates u !! ns = Some nb -> colls_ok nb }.

Definition headed (kvs : list UKVWrite) : Prop := match kvs with [] => True | kv :: _ => UKVWrite_Namespace kv = [] end.

Lemma gen_colls_ok (nb : UpdateBatch) (cs : list bytes) :
  colls_ok nb -> (forall c, c ∈ cs -> is_Some (Updates nb !! c)) ->
  exists kvs, gen_colls nb cs = Ret kvs /\ (cs <> [] -> kvs <> []) /\ headed kvs /\
    forall ns c0 rest, starts rest -> exists es, parse ns c0 (kvs ++ rest) = es ++ parse ns c0 rest /\
      forall e, e ∈ es <-> exists c, c ∈ cs /\ e.1 = (ns, c) /\ entry_in (GetUpdates nb c) e.2.
Proof.
  intros [_ Hc]. induction cs as [|c cs IH]; intros Hl.
  - exists []. split; [done|]. split; [done|]. split; [done|]. intros ns c0 rest _. exists []. split; [done|]. intros e.
    split; [by intros ?%not_elem_of_nil|by intros (? & ?%not_elem_of_nil & _)].
  - destruct IH as (rs & Er & _ & Hh & Hrs); [intros; apply Hl; by right|]. destruct (Hl c) as [u Eu]; [by left|]. destruct (Hc c u Eu) as [Hu Hne].
    assert (Egu : GetUpdates nb c = u) by (unfold GetUpdates; by rewrite Eu). cbn [gen_colls]. rewrite Egu. destruct (genKVs_ok u) as (kvs & -> & Hp & Hk & He).
    specialize (Hk Hu). destruct kvs as [|kv kvs]; [done|]. cbn [mbind outcome_bind set_collection]. rewrite Er. cbn [mbind outcome_bind]. eexists. split; [done|].
    split; [done|]. apply Forall_cons in Hp as [[Ep1 Ep2] Hp]. split; [done|]. intros ns c0 rest Hst. destruct (Hrs ns c rest Hst) as (es & Ees & Hes).
    exists (((fun kv => (ns, c, entry_of kv)) <$> kv :: kvs) ++ es). split.
    + cbn [app parse fmap list_fmap UKVWrite_Namespace UKVWrite_Collection]. rewrite Ep1, bool_decide_eq_true_2, bool_decide_eq_false_2 by done.
      rewrite <- app_assoc, parse_plain, Ees by done. rewrite (parse_starts ns c0 ns c) by done. by rewrite <- app_assoc.
    + intros e. rewrite elem_of_app, list_elem_of_fmap, Hes. split.
      * intros [(kv' & -> & Hin)|(c' & ? & ?)]; [|exists c'; split; [by right|done]]. exists c. split; [by left|]. split; [done|]. rewrite Egu. apply He, list_elem_of_fmap. eauto.
      * intros (c' & [->|Hin]%elem_of_cons & Ee & Hen); [|right; eauto]. left. rewrite Egu in Hen. apply He, list_elem_of_fmap in Hen as (kv' & E2 & Hin).
        exists kv'. destruct e as [ep e2]. cbn in *. subst. done.
Qed.

Lemma parse_set_namespace (ns n0 c0 : bytes) (kvs rest : list UKVWrite) :
  ns <> [] -> kvs <> [] -> headed kvs -> exists kvs', set_namespace ns kvs = Ret kvs' /\ kvs' <> [] /\ starts (kvs' ++ rest) /\ parse n0 c0 (kvs' ++ rest) = parse ns [] (kvs ++ rest).
Proof.
  intros Hns Hk Hh. destruct kvs as [|kv kvs]; [done|]. eexists. split; [done|]. split; [done|]. split; [done|]. cbn in Hh.
  cbn [app parse UKVWrite_Namespace UKVWrite_Collection]. rewrite bool_decide_eq_false_2, Hh, bool_decide_eq_true_2 by done.
  unfold entry_of at 1. cbn [UKVWrite_Key UKVWrite_IsDelete UKVWrite_Value UKVWrite_VersionBytes]. fold (entry_of kv). by case_bool_decide as E; [rewrite E|].
Qed.

(** An update of the batch outside of the empty name space. *)
Definition update_in (u : PrivUpdateBatch) (e : uentry) : Prop :=
  entry_in (GetUpdates (PubUpdates u) e.1.1) e.2 /\ e.1.2 = [] \/
  exists nb, HashUpdates u !! e.1.1 = Some nb /\ is_Some (Updates nb !! e.1.2) /\ entry_in (GetUpdates nb e.1.2) e.2.

(** The hashed updates of a name space. *)
Lemma hash_part_ok (u : PrivUpdateBatch) (ns : bytes) :
  maps_ok u -> exists cs, match HashUpdates u !! ns with Some collsForNs => genKVsFromCollsUpdates collsForNs | None => Ret [] end = Ret cs /\
    (is_Some (HashUpdates u !! ns) -> cs <> []) /\ headed cs /\ forall c0 rest, starts rest -> exists es, parse ns c0 (cs ++ rest) = es ++ parse ns c0 rest /\
    forall e, e ∈ es <-> exists nb, HashUpdates u !! ns = Some nb /\ e.1.1 = ns /\ is_Some (Updates nb !! e.1.2) /\ entry_in (GetUpdates nb e.1.2) e.2.
Proof.
  intros Hu. destruct (HashUpdates u !! ns) as [nb|] eqn:En.
  - pose proof (mo_hash _ Hu _ _ En) as Hnb. unfold genKVsFromCollsUpdates.
    assert (Hcs : forall c, c ∈ merge_sort bytes_le (GetUpdatedNamespaces nb) <-> is_Some (Updates nb !! c)).
    { intros c. rewrite merge_sort_Permutation. apply elem_of_keys. }
    destruct (gen_colls_ok nb (merge_sort bytes_le (GetUpdatedNamespaces nb)) Hnb) as (cs & -> & Hne & Hh & Hcs'); [intros c; apply Hcs|].
    exists cs. split; [done|]. split.
    + intros _. apply Hne. intros E0. destruct Hnb as [Hnb _]. apply Hnb, map_eq. intros c. rewrite lookup_empty.
      destruct (Updates nb !! c) eqn:Ec; [|done]. exfalso. assert (Hin : c ∈ merge_sort bytes_le (GetUpdatedNamespaces nb)) by (apply Hcs; by rewrite Ec).
      rewrite E0 in Hin. by apply not_elem_of_nil in Hin.
    + split; [done|]. intros c0 rest Hr. destruct (Hcs' ns c0 rest Hr) as (es & Ees & Hes). exists es. split; [done|]. intros [[n c] e]. rewrite Hes. cbn. split.
      * intros (c' & Hin & [= -> ->] & Hen). exists nb. split; [done|]. split; [done|]. split; [by apply Hcs|done].
      * intros (nb' & [= <-] & -> & Hs & Hen). exists c. split; [by apply Hcs|done].
  - exists []. split; [done|]. split; [by intros []|]. split; [done|]. intros c0 rest _. exists []. split; [done|]. intros e.
    split; [by intros ?%not_elem_of_nil|by intros (? & ? & _)].
Qed.

Lemma gen_namespaces_ok (u : PrivUpdateBatch) (nss : list bytes) :
  maps_ok u -> (forall ns, ns ∈ nss -> is_Some (Updates (PubUpdates u) !! ns) \/ is_Some (HashUpdates u !! ns)) ->
  exists kvs, gen_namespaces u nss = Ret kvs /\ starts kvs /\ forall n0 c0 e, e ∈ parse n0 c0 kvs <-> e.1.1 ∈ nss /\ e.1.1 <> [] /\ update_in u e.
Proof.
  intros Hu. induction nss as [|ns nss IH]; intros Hl.
  - exists []. split; [done|]. split; [done|]. intros n0 c0 e. split; [by intros ?%not_elem_of_nil|by intros [?%not_elem_of_nil _]].
  - destruct IH as (rs & Er & Hst & Hrs); [intros; apply Hl; by right|]. cbn [gen_namespaces]. case_bool_decide as Hns.
    { exists rs. split; [done|]. split; [done|]. intros n0 c0 e. rewrite Hrs, elem_of_cons. subst ns. split; [intros (? & ? & ?); split; [by right|done]|]. by intros ([?|?] & ? & ?). }
    unfold genKVsFromNsUpdates. destruct (genKVs_ok (GetUpdates (PubUpdates u) ns)) as (kvs & -> & Hp & Hk & He). cbn [mbind outcome_bind].
    destruct (hash_part_ok u ns Hu) as (cs & -> & Hcne & Hch & Hcs). cbn [mbind outcome_bind].
    assert (Hne : kvs ++ cs <> []).
    { destruct (Hl ns) as [[m Em]|Hs]; [by left|..].
      - assert (Hkn : kvs <> []) by (apply Hk; unfold GetUpdates; rewrite Em; by eapply mo_pub). by destruct kvs.
      - specialize (Hcne Hs). by destruct kvs; [|done]. }
    assert (Hh : headed (kvs ++ cs)) by (destruct kvs; [done|apply Forall_cons in Hp as [[? _] _]; done]).
    destruct (parse_set_namespace ns [] [] (kvs ++ cs) rs Hns Hne Hh) as (kvs' & Es & _ & Hst' & _). rewrite Es. cbn [mbind outcome_bind]. rewrite Er.
    eexists. split; [done|]. split; [done|]. intros n0 c0 e. destruct (parse_set_namespace ns n0 c0 (kvs ++ cs) rs Hns Hne Hh) as (kvs2 & Es2 & _ & _ & Hpar).
    rewrite Es in Es2. injection Es2 as <-. rewrite Hpar, <- app_assoc, parse_plain by done. destruct (Hcs [] rs Hst) as (es & -> & Hes).
    rewrite !elem_of_app, Hes, Hrs, elem_of_cons. unfold update_in. rewrite list_elem_of_fmap. destruct e as [[n c] e]. cbn [fst snd]. split.
    + intros [(kv & [= -> -> ->] & Hin)|[(nb & Enb & -> & Hs & Hen)|(? & ? & ?)]]; [| |split; [by right|done]].
      * split; [by left|]. split; [done|]. left. split; [|done]. apply He, list_elem_of_fmap. eauto.
      * split; [by left|]. split; [done|]. right. eauto.
    + intros ([->|Hin] & Hn & Hup); [|by right; right]. destruct Hup as [[Hen ->]|(nb & Enb & Hs & Hen)]; [left|right; left; eauto].
      apply He, list_elem_of_fmap in Hen as (kv & -> & Hin). eauto.
Qed.

(** ** The bytes *)

Section Bytes.
Context {UC : Codec Updates_msg} {UO : CodecOk Updates_msg}.

Lemma dedupAndSort_elem (a b : list bytes) (x : bytes) : x ∈ dedupAndSort a b <-> x ∈ a \/ x ∈ b.
Proof.
  unfold dedupAndSort. rewrite sorted_keys_elem, <- elem_of_app. set (l := a ++ b).
  assert (El : ((fun entry => (entry, tt)) <$> l).*1 = l) by (rewrite <- list_fmap_compose; apply list_fmap_id). split.
  - intros [[] E]. apply elem_of_list_to_map_2, (list_elem_of_fmap_2 fst) in E. by rewrite El in E.
  - intros Hx. destruct (list_to_map _ !! x) as [v|] eqn:E; [eauto|]. apply not_elem_of_list_to_map_2 in E. by rewrite El in E.
Qed.

Lemma update_bytes_entries (u : PrivUpdateBatch) :
  maps_ok u -> exists kvs, deterministicBytesForPubAndHashUpdates u = Ret (Marshal kvs) /\ forall e, e ∈ parse [] [] kvs <-> e.1.1 <> [] /\ update_in u e.
Proof.
  intros Hu. unfold deterministicBytesForPubAndHashUpdates.
  assert (Hel : forall ns, ns ∈ dedupAndSort (GetUpdatedNamespaces (PubUpdates u)) (map_to_list (HashUpdates u)).*1 <->
    is_Some (Updates (PubUpdates u) !! ns) \/ is_Some (HashUpdates u !! ns)).
  { intros ns. rewrite dedupAndSort_elem. unfold GetUpdatedNamespaces. by rewrite !elem_of_keys. }
  destruct (gen_namespaces_ok u (dedupAndSort (GetUpdatedNamespaces (PubUpdates u)) (map_to_list (HashUpdates u)).*1) Hu) as (kvs & -> & _ & He); [intros ns; apply Hel|].
  exists kvs. split; [done|]. intros e. rewrite He, Hel. split; [by intros (_ & ? & ?)|]. intros [Hn Hup]. split; [|done].
  destruct Hup as [[(vv & Ev & _) _]|(nb & -> & _)]; [left|right; eauto]. rewrite GetUpdates_lookup in Ev. unfold Batch_Get in Ev. by destruct (Updates (PubUpdates u) !! e.1.1).
Qed.

(** What the bytes say about an update: its value and its version. *)
Definition content (vv : VersionedValue) : option bytes * Height := (vv_Value vv, vv_Version vv).

Definition entry_of_update (k : data_key) (vv : VersionedValue) : uentry :=
  (dk_ns k, dk_coll k, (match k with PubKey _ key | HashKey _ _ key | PvtKey _ _ key => key end, IsDelete vv, default [] (vv_Value vv), Height_ToBytes (vv_Version vv))).

Lemma update_in_get (u : PrivUpdateBatch) (k : data_key) (vv : VersionedValue) :
  is_pvt k = false -> upd_get u k = Some vv -> update_in u (entry_of_update k vv).
Proof.
  intros Hp Hg. destruct k as [ns key|ns coll h|]; [left|right|done].
  - split; [|done]. exists vv. split; [|done]. cbn. by rewrite GetUpdates_lookup.
  - cbn in *. unfold UpdateMap_Get, Batch_Get in Hg. destruct (HashUpdates u !! ns) as [nb|] eqn:En; [|done]. exists nb. split; [done|].
    destruct (Updates nb !! coll) as [m|] eqn:Ec; [|done]. split; [done|]. exists vv. cbn. unfold GetUpdates. by rewrite Ec.
Qed.

Lemma entry_content (m : nsUpdates) (key : bytes) (vv : VersionedValue) :
  Height_wf (vv_Version vv) -> (forall k v, m !! k = Some v -> Height_wf (vv_Version v)) ->
  entry_in m (key, IsDelete vv, default [] (vv_Value vv), Height_ToBytes (vv_Version vv)) -> exists vv', m !! key = Some vv' /\ content vv' = content vv.
Proof.
  intros Hw Hm (vv' & E & Ed & Ev & Eh). cbn in E, Ed, Ev, Eh. exists vv'. split; [done|]. specialize (Hm _ _ E).
  assert (vv_Version vv = vv_Version vv') as Ever.
  { pose proof (NewHeightFromBytes_ToBytes (vv_Version vv) [] Hw) as H1. pose proof (NewHeightFromBytes_ToBytes (vv_Version vv') [] Hm) as H2.
    rewrite <- Eh, H1 in H2. by injection H2. }
  unfold content. rewrite Ever. f_equal. unfold IsDelete in Ed. destruct (vv_Value vv), (vv_Value vv'); cbn in *; congruence.
Qed.

Lemma update_in_content (u : PrivUpdateBatch) (k : data_key) (vv : VersionedValue) :
  maps_ok u -> updates_ok u -> Height_wf (vv_Version vv) -> is_pvt k = false -> (forall ns h, k <> HashKey ns [] h) -> update_in u (entry_of_update k vv) ->
  exists vv', upd_get u k = Some vv' /\ content vv' = content vv.
Proof.
  intros Hmo Hok Hw Hp Hne [[He Hc]|(nb & En & [m Em] & He)]; cbn in *.
  - destruct k as [ns key|ns coll h|]; [|by cbn in Hc; subst; edestruct Hne|done]. cbn in *. apply entry_content in He as (vv' & E & Hv); [|done|].
    + exists vv'. by rewrite GetUpdates_lookup in E.
    + intros k v E. rewrite GetUpdates_lookup in E. by apply (Hok (PubKey ns k) v).
  - destruct (proj2 (mo_hash _ Hmo _ _ En) _ _ Em) as [_ Hcne]. destruct k as [ns key|ns coll h|]; [done| |done]. cbn in *.
    unfold GetUpdates in He. rewrite Em in He. apply entry_content in He as (vv' & E & Hv); [|done|].
    + exists vv'. split; [|done]. unfold UpdateMap_Get, Batch_Get. by rewrite En, Em.
    + intros k v E. apply (Hok (HashKey ns coll k) v). cbn. unfold UpdateMap_Get, Batch_Get. by rewrite En, Em.
Qed.

(** Batches with the same bytes have the same updates. *)
Lemma update_bytes_sub (u u' : PrivUpdateBatch) (k : data_key) (vv : VersionedValue) :
  maps_ok u -> maps_ok u' -> updates_ok u -> updates_ok u' ->
  deterministicBytesForPubAndHashUpdates u = deterministicBytesForPubAndHashUpdates u' -> is_pvt k = false -> dk_ns k <> [] ->
  upd_get u k = Some vv -> exists vv', upd_get u' k = Some vv' /\ content vv' = content vv.
Proof.
  intros Hm Hm' Hok Hok' E Hp Hn Hg. destruct (update_bytes_entries u Hm) as (kvs & E1 & H1), (update_bytes_entries u' Hm') as (kvs' & E2 & H2).
  rewrite E1, E2 in E. injection E as E. apply (f_equal Unmarshal) in E. rewrite !Unmarshal_Marshal in E. injection E as <-.
  apply update_in_content; [done|done|by apply (Hok k vv)|done| |].
  - intros ns h ->. cbn in Hg. unfold UpdateMap_Get, Batch_Get in Hg. destruct (HashUpdates u !! ns) as [nb|] eqn:En; [|done].
    destruct (Updates nb !! []) as [m|] eqn:Em; [|done]. by destruct (proj2 (mo_hash _ Hm _ _ En) _ _ Em).
  - assert (Hin : entry_of_update k vv ∈ parse [] [] kvs) by (apply H1; split; [done|by apply update_in_get]). by apply H2 in Hin as [_ ?].
Qed.

End Bytes.
