(* ===== verification/TxRun.v ===== *)
(** * Runs of the transaction manager

    A manager goes through blocks: it is created on the databases of a ledger, prepares
    and commits blocks one after the other, takes private data that arrive late, drops
    a prepared block, and is created again when the peer restarts.  [tm_run] is the
    relation of what such a life can lead to, and [tm_run_inv] its invariant. *)

From S2P Require Import Prelude OrderedCode LevelDB Sha256 Proto Block StateProto StateDB StateDBOk PrivState PrivStateOk RwSet Validation ValidationOk Serializable RwSetBuilder Simulator BatchPreparer PurgeMgr PurgeMgrOk QueryUtil TxMgr ExpiryOk OldPvtDataOk.

Section Runs.
Context {BP : BTLPolicy} {BO : BTLPolicyOk} {PK : Codec PvtdataKeysMsg} {PO : CodecOk PvtdataKeysMsg}.
Context {D : Type} {VD : VersionedDB D} {VO : VersionedDBOk D}.
Context {PR : Protos} {SP : StateProtos} {UC : Codec Updates_msg} {QD : QueryDB D} {CC : DeployedChaincodeInfoProvider}.
Variable hashFunc : bytes -> outcome bytes.
Variable customTxProcessors : Z -> option (CustomTxProcessor (D := D)).
Variable stateListeners : list (StateListener (D := D)).

(** ** Reading a database *)

Definition read (db : DB D) (k : data_key) : outcome (option VersionedValue) :=
  match k with
  | PubKey ns key => GetState (db_vdb db) ns key
  | HashKey ns coll h => GetValueHash db ns coll h
  | PvtKey ns coll key => GetPrivateData db ns coll key
  end.

Lemma read_ok (db : DB D) (σ : state) (k : data_key) : db_view db σ -> dk_ok k -> read db k = Ret (σ !! loc (D := D) k).
Proof.
  intros Hv Hk. destruct k as [ns key|ns coll h|ns coll key].
  - apply (view_GetState _ σ _ _ (dv_state _ _ Hv)). by apply (loc_ns_ok (D := D) (PubKey ns key)).
  - by apply view_GetValueHash.
  - by apply view_GetPrivateData.
Qed.

(** ** Preparing a block leaves the databases as they are *)

Definition keeps_view {A} (m : M (DB D) A) : Prop := forall db σ, db_view db σ -> db_view (snd (m db)) σ.

Lemma keeps_view_bind {A B} (m : M (DB D) A) (g : A -> M (DB D) B) : keeps_view m -> (forall a, keeps_view (g a)) -> keeps_view (a ← m; g a).
Proof.
  intros Hm Hg db σ Hv. specialize (Hm db σ Hv). unfold mbind, M_bind. destruct (m db) as [[a| |] db']; [by apply Hg|done..].
Qed.

Lemma keeps_view_lift {A} (o : outcome A) : keeps_view (lift_outcome o).
Proof. intros db σ Hv. unfold lift_outcome. by destruct o. Qed.

Lemma keeps_view_get : keeps_view (get_state (S := DB D)).
Proof. by intros db σ Hv. Qed.

Lemma keeps_view_ret {A} (a : A) : keeps_view (mret a).
Proof. by intros db σ Hv. Qed.

Lemma preload_keeps (blk : block) : keeps_view (if IsBulkOptimizable (D := D) then preLoadCommittedVersionOfRSet blk else mret tt).
Proof.
  intros db σ Hv. destruct IsBulkOptimizable; [|done]. unfold preLoadCommittedVersionOfRSet. destruct (_ || _); [|done].
  by destruct (LoadCommittedVersions_ok db σ (pub_read_keys blk) (hashed_read_keys blk) Hv) as (db' & -> & ?).
Qed.

Create HintDb keeps_view.
#[local] Hint Resolve keeps_view_lift keeps_view_get keeps_view_ret preload_keeps : keeps_view.
Ltac keeps_view := repeat (apply keeps_view_bind; [auto with keeps_view|intros; repeat case_match]); auto with keeps_view.

Lemma ValidateAndPrepareBatch_keeps (fuel : nat) (bp : BlockAndPvtData) (mvcc : bool) :
  keeps_view (ValidateAndPrepareBatch hashFunc customTxProcessors fuel bp mvcc).
Proof.
  unfold ValidateAndPrepareBatch. apply keeps_view_bind; [auto with keeps_view|]. intros [[b stats] blk].
  apply keeps_view_bind; [unfold validateAndPrepareBatch; keeps_view|]. intros [u b']. keeps_view.
Qed.

Lemma ValidateAndPrepare_keeps (fuel : nat) (bp : BlockAndPvtData) (mvcc : bool) (t : LockBasedTxMgr (D := D)) (σ : state) :
  let t' := snd (ValidateAndPrepare hashFunc customTxProcessors stateListeners fuel bp mvcc t) in
  db_view (tm_db t) σ -> db_view (tm_db t') σ /\ tm_pvtdataPurgeMgr t' = tm_pvtdataPurgeMgr t /\ tm_usedOnce t' = tm_usedOnce t.
Proof.
  intros t' Hv. pose proof (ValidateAndPrepareBatch_keeps fuel bp mvcc (tm_db t) σ Hv) as Hk. subst t'. unfold ValidateAndPrepare, on_db.
  destruct (ValidateAndPrepareBatch _ _ _ _ _ _) as [[[[b stats] blk]| |] db']; [|done..]. cbn in Hk |- *. by destruct (invoke_listeners _ _ _).
Qed.

(** ** A life of the manager *)

Variable keys : bytes -> Prop.
Hypothesis keys_distinct : forall k k', keys k -> keys k' -> Sum256 k = Sum256 k' -> k = k'.

(** The databases as a restarted peer opens them: caches are empty, the metadata hint
    is read back. *)
Definition reopen (db : DB D) : DB D := mkDB (ClearCachedVersions (db_vdb db)) (newMetadataHint (mh_bookkeeper (db_hint db))).

(** A prepared block is the next one, and its updates are those of a block. *)
Definition next_block (N : Z) (c : current) : Prop := blockNum c = N + 1 /\ N + 2 < MaxUint64 /\ batch_of keys (N + 1) (cur_batch c).

(** Private data that come late and are not for a hash that the schedule does not know. *)
Definition late_ok (L : unscheduled) (db : DB D) (r : gmap Z (list TxPvtData)) : Prop :=
  reconciled_ok keys r /\
  forall m ns coll h w hv, constructUniquePvtData r = Ret m -> m !! (ns, coll, h) = Some w -> read db (HashKey ns coll h) = Ret (Some hv) ->
    (ns, coll, h, blk hv) ∉ L.

(** What a manager can be after block [N]; [-1] is before the first block.  The set
    collects the hashes that were written in a block that deletes their private key. *)
Inductive tm_run : Z -> unscheduled -> LockBasedTxMgr (D := D) -> Prop :=
| run_new db : db_view db ∅ -> tm_run (-1) ∅ (NewLockBasedTxMgr db ∅)
| run_prepare N L t fuel bp mvcc : tm_run N L t ->
    tm_run N L (snd (ValidateAndPrepare hashFunc customTxProcessors stateListeners fuel bp mvcc t))
| run_commit N L t c : tm_run N L t -> tm_current t = Some c -> next_block N c ->
    tm_run (N + 1) (L ∪ unscheduled_of (N + 1) (cur_batch c)) (snd (Commit t))
| run_late N L t r : tm_run N L t -> late_ok L (tm_db t) r -> tm_run N L (snd (RemoveStaleAndCommitPvtDataOfOldBlocks r t))
| run_rollback N L t : tm_run N L t -> tm_run N L (snd (Rollback t))
| run_restart N L t : tm_run N L t -> tm_run N L (NewLockBasedTxMgr (reopen (tm_db t)) (pm_expKeeper (tm_pvtdataPurgeMgr t))).

Lemma reopen_view (db : DB D) (σ : state) : db_view db σ -> db_view (reopen db) σ.
Proof.
  intros [Hv [Hs Hd]]. constructor; [by apply view_ClearCachedVersions|]. constructor; [|apply newMetadataHint_durable].
  intros k vv. unfold reopen. cbn [db_hint]. rewrite newMetadataHint_durable. change (mh_bookkeeper (newMetadataHint _)) with (mh_bookkeeper (db_hint db)).
  rewrite <- Hd. apply Hs.
Qed.

Lemma late_ok_state (L : unscheduled) (db : DB D) (σ : state) (r : gmap Z (list TxPvtData)) :
  db_view db σ -> late_ok L db r ->
  forall m ns coll h w hv, constructUniquePvtData r = Ret m -> m !! (ns, coll, h) = Some w -> σ !! loc (D := D) (HashKey ns coll h) = Some hv ->
    (ns, coll, h, blk hv) ∉ L.
Proof.
  intros Hv [Hr Hl] m ns coll h w hv Em Ew Eh. destruct (constructUniquePvtData_ok keys r Hr) as (m' & Em' & Hm). rewrite Em in Em'. injection Em' as <-.
  apply (Hl m _ _ _ w hv Em Ew). rewrite (read_ok _ σ) by (done || by eapply uo_names). by rewrite Eh.
Qed.

Lemma tm_run_inv (N : Z) (L : unscheduled) (t : LockBasedTxMgr (D := D)) : tm_run N L t -> -1 <= N /\ exists σ f, tm_inv keys N L σ f t.
Proof.
  induction 1 as [db Hv|N L t fuel bp mvcc _ (HN & σ & f & Hi)|N L t c _ (HN & σ & f & Hi) Hc (Hn & Hm & Hb)|N L t r _ (HN & σ & f & Hi) Hr|N L t _ (HN & σ & f & Hi)|N L t _ (HN & σ & f & Hi)].
  - split; [lia|]. exists ∅, ∅. constructor; [done|apply keeper_view_empty|apply expiry_inv_empty|done].
  - split; [done|]. exists σ, f. destruct Hi as [Hv Hk Hi Hws]. destruct (ValidateAndPrepare_keeps fuel bp mvcc t σ Hv) as (Hv' & Ep & Eu).
    constructor; [done|by rewrite Ep|done|by rewrite Eu, Ep].
  - split; [lia|]. destruct (Commit_ok keys keys_distinct N L σ f t c) as (σ' & f' & t' & -> & Hi' & _); try done. eauto.
  - split; [done|]. pose proof (late_ok_state L (tm_db t) σ r (tv_db _ _ _ _ _ _ Hi) Hr) as Hl.
    destruct (old_blocks_ok keys keys_distinct N L σ f t r Hi (proj1 Hr) Hl) as (m & σ' & f' & t' & _ & -> & Hi' & _). eauto.
  - split; [done|]. exists σ, f. by destruct Hi.
  - split; [done|]. exists σ, f. destruct Hi as [Hv Hk Hi Hws]. constructor; [by apply reopen_view|done|done|done].
Qed.

End Runs.
