(* ===== verification/History.v ===== *)
(** * The history database

    src/core/ledger/kvledger/history: for every key a transaction has written there is
    an entry whose key is made of the name space, the key and the height of the
    transaction.  A history query reads the entries of a key from the newest to the
    oldest, and finds the written values in the block store.

    The database is the map of its handle (see LevelDB.v). *)

From S2P Require Import Prelude LevelDB Proto Block BlockfileMgr OrderedCode StateProto RwSet BatchPreparer.

(** ** Keys (kv_encoding.go) *)

Definition compositeKeySep : bytes := [Byte.x00].
Definition savePointKey : bytes := str "s".
Definition emptyValue : bytes := [].

Definition constructDataKey (ns key : bytes) (blocknum trannum : Z) : bytes :=
  let k := ns ++ compositeKeySep in
  let k := k ++ EncodeOrderPreservingVarUint64 (zlen key) in
  let k := k ++ key in
  let k := k ++ compositeKeySep in
  let k := k ++ EncodeOrderPreservingVarUint64 blocknum in
  k ++ EncodeOrderPreservingVarUint64 trannum.

Record rangeScan := mkrangeScan { rs_startKey : bytes; rs_endKey : bytes }.

Definition constructRangeScan (ns key : bytes) : rangeScan :=
  let k := ns ++ compositeKeySep in
  let k := k ++ EncodeOrderPreservingVarUint64 (zlen key) in
  let k := k ++ key in
  let k := k ++ compositeKeySep in
  mkrangeScan k (k ++ [Byte.xff]).

(** [bytes.TrimPrefix] *)
Definition TrimPrefix (s prefix : bytes) : bytes :=
  if bool_decide (take (length prefix) s = prefix) then drop (length prefix) s else s.

Definition decodeBlockNumTranNum (r : rangeScan) (dataKey : bytes) : outcome (Z * Z) :=
  let blockNumTranNumBytes := TrimPrefix dataKey (rs_startKey r) in
  '(blockNum, blockBytesConsumed) ← DecodeOrderPreservingVarUint64 blockNumTranNumBytes;
  '(tranNum, tranBytesConsumed) ← DecodeOrderPreservingVarUint64 (drop (Z.to_nat blockBytesConsumed) blockNumTranNumBytes);
  if negb (blockBytesConsumed + tranBytesConsumed =? zlen blockNumTranNumBytes)
  then Err (Errorf "number of decoded bytes (%d) is not equal to the length of blockNumTranNumBytes (%d)") else
  Ret (blockNum, tranNum).

Section History.
Context {PR : Protos} {SP : StateProtos}.

(** ** Commit (db.go) *)

(** The records of the writes of a read-write set. *)
Definition write_records (blockNo tranNo : Z) (txRWSet : TxRwSet) : batch :=
  TxRwSet_NsRwSets txRWSet ≫= fun nsRWSet =>
    (fun kvWrite => (constructDataKey (NsRwSet_NameSpace nsRWSet) (KVWrite_Key kvWrite) blockNo tranNo, Some emptyValue)) <$>
      KVRWSet_Writes (NsRwSet_KvRwSet nsRWSet).

(** The records of a transaction; none for an invalid one or one of another type. *)
Definition tx_records (blockNo : Z) (txsFilter : bytes) (tranNo : nat) (envBytes : bytes) : outcome batch :=
  invalid ← IsInvalid txsFilter tranNo;
  if (invalid : bool) then Ret [] else
  '(_, chdr) ← tx_header envBytes;
  if ChannelHeader_Type chdr =? HeaderType_ENDORSER_TRANSACTION then
    respPayload ← GetActionFromEnvelope envBytes;
    txRWSet ← TxRwSet_FromProtoBytes (ChaincodeAction_Results respPayload);
    Ret (write_records blockNo (Z.of_nat tranNo) txRWSet)
  else Ret [].

Fixpoint block_records (blockNo : Z) (txsFilter : bytes) (tranNo : nat) (data : list bytes) : outcome batch :=
  match data with
  | [] => Ret []
  | envBytes :: data' =>
      records ← tx_records blockNo txsFilter tranNo envBytes;
      rest ← block_records blockNo txsFilter (S tranNo) data';
      Ret (records ++ rest)
  end.

Definition history_Commit (blk : Block) : M kvmap unit :=
  let blockNo := Number (Block_Header blk) in
  txsFilter ← lift_outcome (block_flags blk);
  dbBatch ← lift_outcome (block_records blockNo txsFilter 0 (Block_Data blk));
  let height := NewHeight blockNo (zlen (Block_Data blk)) in
  modify_state (DB_WriteBatch (dbBatch ++ [(savePointKey, Some (Height_ToBytes height))])).

Definition history_GetLastSavepoint (db : kvmap) : outcome (option Height) :=
  match db !! savePointKey with
  | None => Ret None
  | Some versionBytes => '(height, _) ← NewHeightFromBytes versionBytes; Ret (Some height)
  end.

Definition history_ShouldRecover (lastAvailableBlock : Z) (db : kvmap) : outcome (bool * Z) :=
  savepoint ← history_GetLastSavepoint db;
  match savepoint with
  | None => Ret (true, 0)
  | Some savepoint => Ret (negb (BlockNum savepoint =? lastAvailableBlock), u64 (BlockNum savepoint + 1))
  end.

Definition history_CommitLostBlock (blockAndPvtdata : BlockAndPvtData) : M kvmap unit := history_Commit (bp_Block blockAndPvtdata).

Definition MarkStartingSavepoint (savepoint : Height) (db : kvmap) : kvmap := <[savePointKey := Height_ToBytes savepoint]> db.

(** ** Queries (query_executer.go) *)

(** An iterator of goleveldb over a snapshot of a range: position [-1] is before the
    first entry, the length of the range is behind the last. *)
Record dbIterator := mkdbIterator { it_entries : list (bytes * bytes); it_pos : Z }.

Definition itr_Last (itr : dbIterator) : bool * dbIterator :=
  (negb (zlen (it_entries itr) =? 0), mkdbIterator (it_entries itr) (zlen (it_entries itr) - 1)).

Definition itr_Next (itr : dbIterator) : bool * dbIterator :=
  let pos := Z.min (it_pos itr + 1) (zlen (it_entries itr)) in
  (pos <? zlen (it_entries itr), mkdbIterator (it_entries itr) pos).

Definition itr_Prev (itr : dbIterator) : bool * dbIterator :=
  let pos := Z.max (it_pos itr - 1) (-1) in
  (0 <=? pos, mkdbIterator (it_entries itr) pos).

Definition itr_Key (itr : dbIterator) : bytes :=
  match it_entries itr !! Z.to_nat (it_pos itr) with Some (k, _) => k | None => [] end.

Record historyScanner := mkhistoryScanner {
  hs_rangeScan : rangeScan;
  hs_namespace : bytes;
  hs_key : bytes;
  hs_dbItr : dbIterator }.

Definition GetHistoryForKey (db : kvmap) (namespace key : bytes) : historyScanner :=
  let rangeScan := constructRangeScan namespace key in
  let dbItr := mkdbIterator (range_scan db (rs_startKey rangeScan) (Some (rs_endKey rangeScan))) (-1) in
  let '(found, dbItr) := itr_Last dbItr in
  let dbItr := if found then snd (itr_Next dbItr) else dbItr in
  mkhistoryScanner rangeScan namespace key dbItr.

Record KeyModification := mkKeyModification {
  KM_TxId : bytes;
  KM_Value : bytes;
  KM_Timestamp : option (Z * Z);
  KM_IsDelete : bool }.

Fixpoint find_write (key : bytes) (writes : list KVWrite) : option KVWrite :=
  match writes with
  | [] => None
  | kvWrite :: writes' => if bool_decide (KVWrite_Key kvWrite = key) then Some kvWrite else find_write key writes'
  end.

(** Only the first set of the name space is looked at. *)
Fixpoint find_ns_write (namespace key : bytes) (nsRwSets : list NsRwSet) : option KVWrite :=
  match nsRwSets with
  | [] => None
  | nsRWSet :: nsRwSets' =>
      if bool_decide (NsRwSet_NameSpace nsRWSet = namespace) then find_write key (KVRWSet_Writes (NsRwSet_KvRwSet nsRWSet))
      else find_ns_write namespace key nsRwSets'
  end.

Definition getKeyModificationFromTran (tranEnvelope : Envelope) (namespace key : bytes) : outcome (option KeyModification) :=
  payload ← UnmarshalPayload (Envelope_Payload tranEnvelope);
  tx ← UnmarshalTransaction (Payload_Data payload);
  act ← go_index (Transaction_Actions tx) 0;
  '(_, respPayload) ← GetPayloads act;
  match Payload_Header payload with
  | None => Panic "nil pointer dereference"
  | Some header =>
      chdr ← UnmarshalChannelHeader (Header_ChannelHeader header);
      txRWSet ← TxRwSet_FromProtoBytes (ChaincodeAction_Results respPayload);
      Ret ((fun kvWrite => mkKeyModification (ChannelHeader_TxId chdr) (KVWrite_Value kvWrite) (ChannelHeader_Timestamp chdr) (KVWrite_IsDelete kvWrite)) <$>
             find_ns_write namespace key (TxRwSet_NsRwSets txRWSet))
  end.

Definition historyScanner_Next (blockStore : blockfileMgr) : M historyScanner (option KeyModification) := fun scanner =>
  let '(found, dbItr) := itr_Prev (hs_dbItr scanner) in
  let scanner := mkhistoryScanner (hs_rangeScan scanner) (hs_namespace scanner) (hs_key scanner) dbItr in
  if negb found then (Ret None, scanner) else
  (let historyKey := itr_Key dbItr in
   '(blockNum, tranNum) ← decodeBlockNumTranNum (hs_rangeScan scanner) historyKey;
   tranEnvelope ← retrieveTransactionByBlockNumTranNum blockStore blockNum tranNum;
   queryResult ← getKeyModificationFromTran tranEnvelope (hs_namespace scanner) (hs_key scanner);
   match queryResult with
   | None => Err (Errorf "no namespace or key is found for namespace %s and key %s with decoded blockNum %d and tranNum %d")
   | Some m => Ret (Some m)
   end, scanner).

(** A client that reads the iterator to its end. *)
Fixpoint historyScanner_all (fuel : nat) (blockStore : blockfileMgr) (scanner : historyScanner) : outcome (list KeyModification) :=
  match fuel with
  | O => Err (Errorf "out of fuel")
  | S fuel =>
      let '(r, scanner) := historyScanner_Next blockStore scanner in
      queryResult ← r;
      match queryResult with
      | None => Ret []
      | Some m => rest ← historyScanner_all fuel blockStore scanner; Ret (m :: rest)
      end
  end.

End History.
