(* ===== verification/HistoryOk.v ===== *)
(** * History queries are exact

    The history of a key is the list of its modifications by the valid transactions of
    the chain, the newest first ([history_all_ok]): the entries of the history database
    are the heights of the writing transactions, other keys are not in the scanned
    range, the order of the entries is the order of the heights, and the transactions
    are found in the block store. *)

From S2P Require Import Prelude LevelDB Proto Block BlockIndex BlockfileMgr BlockfileMgrOk OrderedCode StateProto RwSet BatchPreparer History.

(** ** Keys *)

Abbreviation prefix ns key := (rs_startKey (constructRangeScan ns key)).

Lemma dataKey_eq (ns key : bytes) (b t : Z) : constructDataKey ns key b t = prefix ns key ++ Height_ToBytes (mkHeight b t).
Proof. unfold constructDataKey, constructRangeScan, Height_ToBytes. cbn. by rewrite !app_assoc. Qed.

Lemma prefix_level (ns key x : bytes) :
  prefix ns key ++ x = constructLevelKey ns (EncodeOrderPreservingVarUint64 (zlen key) ++ key ++ Byte.x00 :: x).
Proof. unfold constructRangeScan, constructLevelKey, compositeKeySep, dbNameKeySep. cbn. by rewrite <- !app_assoc. Qed.

(** The prefix determines the name space and the key. *)
Lemma prefix_inj (ns ns' key key' x x' : bytes) :
  name_ok ns -> name_ok ns' -> is_u64 (zlen key) -> is_u64 (zlen key') -> prefix ns key ++ x = prefix ns' key' ++ x' -> ns = ns' /\ key = key' /\ x = x'.
Proof.
  intros Hn Hn' Hk Hk' E. rewrite !prefix_level in E. pose proof (constructLevelKey_names _ _ _ _ Hn Hn' E) as <-. split; [done|].
  apply constructLevelKey_inj in E. apply Encode_app_inj in E as [El E]; [|done..]. unfold zlen in El. apply app_inj_1 in E as [-> E]; [|lia]. by injection E.
Qed.

Lemma savepoint_not_prefixed (ns key x : bytes) : savePointKey <> prefix ns key ++ x.
Proof.
  intros E. assert (Hin : Byte.x00 ∈ savePointKey).
  { rewrite E, prefix_level. unfold constructLevelKey. apply elem_of_app. right. by left. }
  apply list_elem_of_singleton in Hin. done.
Qed.

(** Heights are below the end of the range. *)
Lemma height_below (h : Height) : Height_wf h -> bytes_ltb (Height_ToBytes h) [Byte.xff] = true.
Proof.
  intros [Hb _]. unfold bytes_ltb, Height_ToBytes. rewrite Encode_byte_size by done. destruct (byte_size_spec _ Hb) as (Hs & _).
  cbn [app bytes_compare]. rewrite b2z_z2b, Z.mod_small by lia. change (b2z Byte.xff) with 255. by rewrite (proj2 (Z.compare_lt_iff _ _)) by lia.
Qed.

Lemma decode_dataKey (ns key : bytes) (b t : Z) :
  is_u64 b -> is_u64 t -> decodeBlockNumTranNum (constructRangeScan ns key) (constructDataKey ns key b t) = Ret (b, t).
Proof.
  intros Hb Ht. rewrite dataKey_eq. unfold decodeBlockNumTranNum, TrimPrefix. rewrite take_app_length, bool_decide_eq_true_2, drop_app_length by done.
  unfold Height_ToBytes. cbn [BlockNum TxNum]. rewrite Decode_Encode by done. cbn [mbind outcome_bind]. rewrite zlen_to_nat, drop_app_length.
  rewrite <- (app_nil_r (EncodeOrderPreservingVarUint64 t)) at 1. rewrite Decode_Encode by done. cbn [mbind outcome_bind]. by rewrite zlen_app, Z.eqb_refl.
Qed.

Section History.
Context {PR : Protos} {SP : StateProtos}.

(** ** What the chain says about a key *)

(** The read-write set of a valid endorser transaction. *)
Definition tx_set (flags : bytes) (i : nat) (d : bytes) : option (ChannelHeader * TxRwSet) :=
  match IsInvalid flags i, tx_header d with
  | Ret false, Ret (_, chdr) =>
      if ChannelHeader_Type chdr =? HeaderType_ENDORSER_TRANSACTION then
        match GetActionFromEnvelope d with
        | Ret act => match TxRwSet_FromProtoBytes (ChaincodeAction_Results act) with Ret set => Some (chdr, set) | _ => None end
        | _ => None
        end
      else None
  | _, _ => None
  end.

Definition writes_of (ns key : bytes) (set : TxRwSet) : list KVWrite :=
  TxRwSet_NsRwSets set ≫= fun n => if bool_decide (NsRwSet_NameSpace n = ns) then filter (fun w => KVWrite_Key w = key) (KVRWSet_Writes (NsRwSet_KvRwSet n)) else [].

Definition modification (flags : bytes) (i : nat) (d : bytes) (ns key : bytes) : option KeyModification :=
  '(chdr, set) ← tx_set flags i d;
  (fun w => mkKeyModification (ChannelHeader_TxId chdr) (KVWrite_Value w) (ChannelHeader_Timestamp chdr) (KVWrite_IsDelete w)) <$> head (writes_of ns key set).

(** The modifications of a key with their heights, the oldest first. *)
Fixpoint log_txs (ns key : bytes) (n : Z) (flags : bytes) (i : nat) (data : list bytes) : list (Height * KeyModification) :=
  match data with
  | [] => []
  | d :: data' => option_list (pair (mkHeight n (Z.of_nat i)) <$> modification flags i d ns key) ++ log_txs ns key n flags (S i) data'
  end.

Definition flags_of (b : Block) : bytes := match block_flags b with Ret fl => fl | _ => [] end.

Definition block_log (ns key : bytes) (b : Block) : list (Height * KeyModification) :=
  log_txs ns key (Number (Block_Header b)) (flags_of b) 0 (Block_Data b).

Definition key_log (ns key : bytes) (blocks : list Block) : list (Height * KeyModification) := blocks ≫= block_log ns key.

(** Name spaces have no separator and occur once in a set. *)
Record set_ok (set : TxRwSet) : Prop := {
  so_unique : NoDup (NsRwSet_NameSpace <$> TxRwSet_NsRwSets set);
  so_names : forall n, n ∈ TxRwSet_NsRwSets set -> name_ok (NsRwSet_NameSpace n) /\ Forall (fun w => is_u64 (zlen (KVWrite_Key w))) (KVRWSet_Writes (NsRwSet_KvRwSet n)) }.

Record history_block (b : Block) : Prop := {
  hb_num : is_u64 (Number (Block_Header b));
  hb_len : is_u64 (zlen (Block_Data b));
  hb_sets : forall i d chdr set, Block_Data b !! i = Some d -> tx_set (flags_of b) i d = Some (chdr, set) -> set_ok set }.

(** ** The records of a block *)

Lemma writes_of_elem (ns key : bytes) (set : TxRwSet) (w : KVWrite) :
  w ∈ writes_of ns key set <-> exists n, n ∈ TxRwSet_NsRwSets set /\ NsRwSet_NameSpace n = ns /\ w ∈ KVRWSet_Writes (NsRwSet_KvRwSet n) /\ KVWrite_Key w = key.
Proof.
  unfold writes_of. rewrite list_elem_of_bind. split.
  - intros (n & Hw & Hn). case_bool_decide; [|by apply not_elem_of_nil in Hw]. apply list_elem_of_filter in Hw as [Hk Hw]. eauto.
  - intros (n & Hn & Hns & Hw & Hk). exists n. split; [|done]. rewrite bool_decide_eq_true_2 by done. by apply list_elem_of_filter.
Qed.

Lemma head_elem {A} (l : list A) : is_Some (head l) <-> exists a, a ∈ l.
Proof.
  destruct l as [|a l]; cbn; [|by split; [exists a; left|eauto]]. split; [by intros [? ?]|]. by intros (a & ?%not_elem_of_nil).
Qed.

Lemma write_records_elem (b t : Z) (set : TxRwSet) (x : bytes) :
  x ∈ (write_records b t set).*1 <-> exists ns key w, w ∈ writes_of ns key set /\ x = constructDataKey ns key b t.
Proof.
  unfold write_records. rewrite list_elem_of_fmap. split.
  - intros ([k v] & -> & (n & (w & [= -> ->] & Hw)%list_elem_of_fmap & Hn)%list_elem_of_bind). exists (NsRwSet_NameSpace n), (KVWrite_Key w), w.
    split; [|done]. apply writes_of_elem. eauto.
  - intros (ns & key & w & (n & Hn & <- & Hw & <-)%writes_of_elem & ->). exists (constructDataKey (NsRwSet_NameSpace n) (KVWrite_Key w) b t, Some emptyValue).
    split; [done|]. apply list_elem_of_bind. exists n. split; [|done]. apply list_elem_of_fmap. eauto.
Qed.

Lemma tx_records_elem (b : Z) (flags : bytes) (i : nat) (d : bytes) (rs : batch) (x : bytes) :
  tx_records b flags i d = Ret rs ->
  x ∈ rs.*1 <-> exists ns key, is_Some (modification flags i d ns key) /\ x = constructDataKey ns key b (Z.of_nat i).
Proof.
  unfold tx_records, modification, tx_set. intros E. apply outcome_bind_ret_inv in E as (inv & -> & E).
  assert (Hnil : forall y : batch, Ret [] = Ret y -> y = []) by (intros y [= <-]; done).
  destruct inv; [apply Hnil in E as ->; split; [by intros ?%not_elem_of_nil|by intros (ns & key & [m Hm] & _)]|].
  apply outcome_bind_ret_inv in E as ([env chdr] & -> & E).
  destruct (ChannelHeader_Type chdr =? _); [|apply Hnil in E as ->; split; [by intros ?%not_elem_of_nil|by intros (ns & key & [m Hm] & _)]].
  apply outcome_bind_ret_inv in E as (act & -> & E). apply outcome_bind_ret_inv in E as (set & -> & E). injection E as <-.
  rewrite write_records_elem. cbn [mbind option_bind]. split.
  - intros (ns & key & w & Hw & ->). exists ns, key. split; [|done]. apply fmap_is_Some, head_elem. eauto.
  - intros (ns & key & (w & Hw)%fmap_is_Some%head_elem & ->). eauto.
Qed.

Lemma block_records_elem (b : Z) (flags : bytes) (data : list bytes) (i : nat) (rs : batch) (x : bytes) :
  block_records b flags i data = Ret rs ->
  x ∈ rs.*1 <-> exists j d ns key, data !! j = Some d /\ is_Some (modification flags (i + j) d ns key) /\ x = constructDataKey ns key b (Z.of_nat (i + j)).
Proof.
  revert i rs. induction data as [|d data IH]; intros i rs; cbn [block_records].
  { intros [= <-]. split; [by intros ?%not_elem_of_nil|by intros (j & d & ns & key & ? & _)]. }
  intros E. apply outcome_bind_ret_inv in E as (r1 & E1 & E). apply outcome_bind_ret_inv in E as (r2 & E2 & E). injection E as <-.
  rewrite fmap_app, elem_of_app, (tx_records_elem _ _ _ _ _ _ E1), (IH _ _ E2). split.
  - intros [(ns & key & Hm & ->)|(j & d' & ns & key & Hj & Hm & ->)].
    + exists 0%nat, d, ns, key. by rewrite Nat.add_0_r.
    + exists (S j), d', ns, key. by rewrite <- Nat.add_succ_comm.
  - intros ([|j] & d' & ns & key & Hj & Hm & ->).
    + left. injection Hj as ->. rewrite Nat.add_0_r in *. eauto.
    + right. exists j, d', ns, key. by rewrite Nat.add_succ_comm.
Qed.

Lemma puts_lookup (rs : batch) (db : kvmap) (x : bytes) :
  Forall (fun u => is_Some (snd u)) rs -> is_Some (DB_WriteBatch rs db !! x) <-> x ∈ rs.*1 \/ is_Some (db !! x).
Proof.
  intros Hr. revert db. induction Hr as [|[k [v|]] rs Hk Hr IH]; intros db; [cbn; rewrite elem_of_nil; tauto| |by destruct Hk].
  change (DB_WriteBatch ((k, Some v) :: rs) db) with (DB_WriteBatch rs (<[k := v]> db)). rewrite IH. cbn [fmap list_fmap fst]. rewrite elem_of_cons.
  destruct (decide (x = k)) as [->|Hne]; [rewrite lookup_insert_eq|rewrite lookup_insert_ne by done]; naive_solver.
Qed.

Lemma records_put (b : Z) (flags : bytes) (data : list bytes) (i : nat) (rs : batch) :
  block_records b flags i data = Ret rs -> Forall (fun u => is_Some (snd u)) rs.
Proof.
  revert i rs. induction data as [|d data IH]; intros i rs; cbn [block_records]; [by intros [= <-]|].
  intros E. apply outcome_bind_ret_inv in E as (r1 & E1 & E). apply outcome_bind_ret_inv in E as (r2 & E2 & E). injection E as <-.
  apply Forall_app. split; [|by eapply IH]. unfold tx_records in E1. apply outcome_bind_ret_inv in E1 as ([] & _ & E); [by injection E as <-|].
  apply outcome_bind_ret_inv in E as ([env chdr] & _ & E). destruct (_ =? _); [|by injection E as <-].
  apply outcome_bind_ret_inv in E as (act & _ & E). apply outcome_bind_ret_inv in E as (set & _ & E). injection E as <-.
  apply Forall_forall. intros u (n & (w & -> & _)%list_elem_of_fmap & _)%list_elem_of_bind. by eexists.
Qed.

(** ** The database after a chain of blocks *)

Fixpoint history_commits (blocks : list Block) : M kvmap unit :=
  match blocks with
  | [] => mret tt
  | b :: blocks' => _ ← history_Commit b; history_commits blocks'
  end.

(** The block at which a key was written, and by which of its transactions. *)
Definition recorded (blocks : list Block) (x : bytes) : Prop :=
  exists b i d ns key, b ∈ blocks /\ Block_Data b !! i = Some d /\ is_Some (modification (flags_of b) i d ns key) /\
    x = constructDataKey ns key (Number (Block_Header b)) (Z.of_nat i).

Lemma history_Commit_ok (b : Block) (db db' : kvmap) :
  history_Commit b db = (Ret tt, db') ->
  (forall x, x <> savePointKey -> is_Some (db' !! x) <-> recorded [b] x \/ is_Some (db !! x)) /\
  db' !! savePointKey = Some (Height_ToBytes (NewHeight (Number (Block_Header b)) (zlen (Block_Data b)))).
Proof.
  unfold history_Commit, mbind, M_bind, lift_outcome, modify_state. destruct (block_flags b) as [fl| |] eqn:Ef; [|done..].
  destruct (block_records _ _ _ _) as [rs| |] eqn:Er; [|done..]. intros [= <-].
  assert (Hfl : flags_of b = fl) by (unfold flags_of; by rewrite Ef). split.
  - intros x Hx. rewrite puts_lookup by (apply Forall_app; split; [by eapply records_put|by repeat constructor]).
    rewrite fmap_app, elem_of_app, (block_records_elem _ _ _ _ _ _ Er). cbn [fmap list_fmap fst]. rewrite list_elem_of_singleton. unfold recorded. split.
    + intros [[(j & d & ns & key & Hj & Hm & ->)|?]|?]; [|done|by right]. left. exists b, j, d, ns, key. rewrite list_elem_of_singleton, Hfl. done.
    + intros [(b' & j & d & ns & key & ->%list_elem_of_singleton & Hj & Hm & ->)|?]; [|by right]. rewrite Hfl in Hm. left. left. exists j, d, ns, key. done.
  - unfold DB_WriteBatch. rewrite fold_left_app. apply lookup_insert_eq.
Qed.

Lemma recorded_cons (b : Block) (blocks : list Block) (x : bytes) : recorded (b :: blocks) x <-> recorded [b] x \/ recorded blocks x.
Proof.
  unfold recorded. split.
  - intros (b' & i & d & ns & key & [->|Hb]%elem_of_cons & H); [left|right]; exists b', i, d, ns, key || exists b, i, d, ns, key; (split; [|done]); [by left|done].
  - intros [(b' & i & d & ns & key & Hb & H)|(b' & i & d & ns & key & Hb & H)]; exists b', i, d, ns, key; (split; [|done]); [|by right].
    apply list_elem_of_singleton in Hb as ->. by left.
Qed.

Lemma history_commits_ok (blocks : list Block) (db db' : kvmap) :
  history_commits blocks db = (Ret tt, db') -> forall x, x <> savePointKey -> is_Some (db' !! x) <-> recorded blocks x \/ is_Some (db !! x).
Proof.
  revert db. induction blocks as [|b blocks IH]; intros db; cbn [history_commits].
  { intros [= <-] x Hx. split; [by right|]. intros [(b & i & d & ns & key & Hb & _)|?]; [by apply not_elem_of_nil in Hb|done]. }
  unfold mbind, M_bind. destruct (history_Commit b db) as [[[]| |] db1] eqn:E; [|done..]. intros E2 x Hx.
  rewrite (IH _ E2 x Hx), (proj1 (history_Commit_ok b db db1 E) x Hx), (recorded_cons b blocks x). tauto.
Qed.

Lemma history_commits_savepoint (blocks : list Block) (b : Block) (db db' : kvmap) :
  history_commits (blocks ++ [b]) db = (Ret tt, db') -> Height_wf (NewHeight (Number (Block_Header b)) (zlen (Block_Data b))) ->
  history_GetLastSavepoint db' = Ret (Some (NewHeight (Number (Block_Header b)) (zlen (Block_Data b)))).
Proof.
  intros E Hw. revert db E. induction blocks as [|b0 blocks IH]; intros db; cbn [history_commits app]; unfold mbind at 1, M_bind at 1.
  - destruct (history_Commit b db) as [[[]| |] db1] eqn:E; [|done..]. intros [= <-]. unfold history_GetLastSavepoint.
    rewrite (proj2 (history_Commit_ok b db db1 E)), <- (app_nil_r (Height_ToBytes _)), NewHeightFromBytes_ToBytes by done. done.
  - destruct (history_Commit b0 db) as [[[]| |] db1]; [|done..]. apply IH.
Qed.

(** ** The log of a key is in order *)

Definition height_lt (h h' : Height) : Prop := height_compare h h' = Lt.

Lemma log_txs_elem (ns key : bytes) (n : Z) (flags : bytes) (data : list bytes) (i : nat) (h : Height) (m : KeyModification) :
  (h, m) ∈ log_txs ns key n flags i data <-> exists j d, data !! j = Some d /\ modification flags (i + j) d ns key = Some m /\ h = mkHeight n (Z.of_nat (i + j)).
Proof.
  revert i. induction data as [|d data IH]; intros i; cbn [log_txs].
  { split; [by intros ?%not_elem_of_nil|by intros (j & d & ? & _)]. }
  assert (Ho : (h, m) ∈ option_list (pair (mkHeight n (Z.of_nat i)) <$> modification flags i d ns key) <-> modification flags i d ns key = Some m /\ h = mkHeight n (Z.of_nat i)).
  { destruct (modification flags i d ns key); cbn; [rewrite list_elem_of_singleton|rewrite elem_of_nil]; naive_solver. }
  rewrite elem_of_app, IH, Ho. split.
  - intros [[Hm ->]|(j & d' & Hj & Hm & ->)].
    + exists 0%nat, d. by rewrite Nat.add_0_r.
    + exists (S j), d'. by rewrite <- Nat.add_succ_comm.
  - intros ([|j] & d' & Hj & Hm & ->).
    + left. injection Hj as ->. rewrite Nat.add_0_r in *. eauto.
    + right. exists j, d'. by rewrite Nat.add_succ_comm.
Qed.

Lemma log_txs_sorted (ns key : bytes) (n : Z) (flags : bytes) (data : list bytes) (i : nat) :
  StronglySorted height_lt (log_txs ns key n flags i data).*1.
Proof.
  revert i. induction data as [|d data IH]; intros i; cbn [log_txs]; [constructor|]. destruct (modification flags i d ns key) as [m|]; [|apply IH].
  cbn. constructor; [apply IH|]. apply Forall_forall. intros h ([h' m'] & -> & (j & d' & _ & _ & ->)%log_txs_elem)%list_elem_of_fmap.
  unfold height_lt, height_compare. cbn. rewrite Z.compare_refl. apply Z.compare_lt_iff. lia.
Qed.

Lemma key_log_sorted (ns key : bytes) (blocks : list Block) (n : nat) :
  (forall k b, blocks !! k = Some b -> Number (Block_Header b) = Z.of_nat (n + k)) ->
  StronglySorted height_lt (key_log ns key blocks).*1 /\ Forall (fun h => Z.of_nat n <= BlockNum h) (key_log ns key blocks).*1.
Proof.
  revert n. induction blocks as [|b blocks IH]; intros n Hn; [repeat constructor|]. cbn [key_log mbind list_bind]. rewrite fmap_app.
  destruct (IH (S n)) as [H1 H2]. { intros k b' Hb. rewrite (Hn (S k) b' Hb). lia. }
  assert (Hb : Number (Block_Header b) = Z.of_nat n) by (rewrite (Hn 0%nat b eq_refl); lia).
  assert (Hall : Forall (fun h => BlockNum h = Z.of_nat n) (block_log ns key b).*1).
  { apply Forall_forall. intros h ([h' m'] & -> & (j & d' & _ & _ & ->)%log_txs_elem)%list_elem_of_fmap. done. }
  unfold key_log in H1, H2. split.
  - apply StronglySorted_app_2; [|apply log_txs_sorted|done]. intros h h' Hh Hh'. rewrite Forall_forall in Hall, H2. specialize (Hall _ Hh). specialize (H2 _ Hh').
    unfold height_lt, height_compare. assert ((BlockNum h ?= BlockNum h') = Lt) as -> by (apply Z.compare_lt_iff; lia). done.
  - apply Forall_app. split; [eapply Forall_impl; [done|]; intros h; cbn; lia|]. eapply Forall_impl; [done|]. intros h; cbn; lia.
Qed.

Lemma key_log_elem (ns key : bytes) (blocks : list Block) (h : Height) (m : KeyModification) :
  (h, m) ∈ key_log ns key blocks <-> exists b i d, b ∈ blocks /\ Block_Data b !! i = Some d /\ modification (flags_of b) i d ns key = Some m /\
    h = mkHeight (Number (Block_Header b)) (Z.of_nat i).
Proof.
  unfold key_log. rewrite list_elem_of_bind. split.
  - intros (b & (j & d & Hj & Hm & ->)%log_txs_elem & Hb). by exists b, j, d.
  - intros (b & i & d & Hb & Hi & Hm & ->). exists b. split; [|done]. apply log_txs_elem. by exists i, d.
Qed.

(** ** The scanned range *)

Section Chain.
Variable blocks : list Block.
Hypothesis Hblocks : Forall history_block blocks.
Hypothesis Hnum : forall k b, blocks !! k = Some b -> Number (Block_Header b) = Z.of_nat k.

Lemma modification_names (b : Block) (i : nat) (d ns key : bytes) :
  b ∈ blocks -> Block_Data b !! i = Some d -> is_Some (modification (flags_of b) i d ns key) ->
  name_ok ns /\ is_u64 (zlen key) /\ Height_wf (mkHeight (Number (Block_Header b)) (Z.of_nat i)).
Proof.
  intros Hb Hi [m Hm]. rewrite Forall_forall in Hblocks. destruct (Hblocks b Hb) as [Hn Hl Hs]. unfold modification in Hm.
  destruct (tx_set (flags_of b) i d) as [[chdr set]|] eqn:E; [|done]. cbn in Hm. destruct (Hs i d chdr set Hi E) as [_ Hnames].
  assert (Hh : is_Some (head (writes_of ns key set))) by (destruct (head _); [by eexists|done]). apply head_elem in Hh as (w & (n & Hin & <- & Hw & <-)%writes_of_elem).
  destruct (Hnames n Hin) as [H1 H2]. rewrite Forall_forall in H2. split; [done|]. split; [by apply H2|]. split; [done|]. cbn.
  apply lookup_lt_Some in Hi. unfold is_u64, zlen in *. lia.
Qed.

Lemma log_height_wf (ns key : bytes) (h : Height) : h ∈ (key_log ns key blocks).*1 -> Height_wf h.
Proof. intros ([h' m] & -> & (b & i & d & Hb & Hi & Hm & ->)%key_log_elem)%list_elem_of_fmap. cbn [fst]. eapply modification_names; [done|done|]. by eexists. Qed.

Variable db : kvmap.
Hypothesis Hdb : history_commits blocks ∅ = (Ret tt, db).

Lemma range_elem (ns key x : bytes) :
  name_ok ns -> is_u64 (zlen key) ->
  x ∈ range_keys db (prefix ns key) (Some (rs_endKey (constructRangeScan ns key))) <-> x ∈ (fun h => prefix ns key ++ Height_ToBytes h) <$> (key_log ns key blocks).*1.
Proof.
  intros Hn Hk. change (rs_endKey (constructRangeScan ns key)) with (prefix ns key ++ [Byte.xff]). rewrite range_keys_elem. cbn [below]. split.
  - intros (Hx & H1 & H2). assert (exists y, x = prefix ns key ++ y) as [y ->].
    { apply (bytes_between _ [] [Byte.xff]); [by rewrite app_nil_r|]. rewrite bytes_ltb_leb in H2. unfold bytes_leb in *. rewrite bytes_compare_antisym in H2. by destruct (bytes_compare x _). }
    apply (history_commits_ok _ _ _ Hdb) in Hx as [Hx|[? Hx]]; [|by rewrite lookup_empty in Hx|intros E; by apply (savepoint_not_prefixed ns key y)].
    destruct Hx as (b & i & d & ns' & key' & Hb & Hi & Hm & E). pose proof (modification_names b i d ns' key' Hb Hi Hm) as (Hn' & Hk' & Hw).
    rewrite dataKey_eq in E. apply prefix_inj in E as (<- & <- & ->); [|done..]. destruct Hm as [m Hm].
    apply list_elem_of_fmap. exists (mkHeight (Number (Block_Header b)) (Z.of_nat i)). split; [done|]. apply list_elem_of_fmap.
    exists (mkHeight (Number (Block_Header b)) (Z.of_nat i), m). split; [done|]. apply key_log_elem. by exists b, i, d.
  - intros (h & -> & Hh)%list_elem_of_fmap. pose proof (log_height_wf _ _ _ Hh) as Hw. split; [|split].
    + apply list_elem_of_fmap in Hh as ([h' m] & -> & (b & i & d & Hb & Hi & Hm & ->)%key_log_elem). cbn [fst] in *.
      apply (history_commits_ok _ _ _ Hdb); [intros E; by eapply savepoint_not_prefixed|]. left. exists b, i, d, ns, key. rewrite dataKey_eq. split; [done|]. split; [done|]. split; [by eexists|done].
    + rewrite <- (app_nil_r (prefix ns key)) at 1. rewrite bytes_leb_app. apply bytes_leb_nil.
    + rewrite bytes_ltb_app. by apply height_below.
Qed.

Lemma range_keys_log (ns key : bytes) :
  name_ok ns -> is_u64 (zlen key) ->
  range_keys db (prefix ns key) (Some (rs_endKey (constructRangeScan ns key))) = (fun h => prefix ns key ++ Height_ToBytes h) <$> (key_log ns key blocks).*1.
Proof.
  intros Hn Hk. destruct (key_log_sorted ns key blocks 0 Hnum) as [Hs _].
  assert (Hlt : forall h h', h ∈ (key_log ns key blocks).*1 -> h' ∈ (key_log ns key blocks).*1 -> height_lt h h' ->
    bytes_compare (prefix ns key ++ Height_ToBytes h) (prefix ns key ++ Height_ToBytes h') = Lt).
  { intros h h' Hh Hh' Hl. rewrite bytes_compare_app. pose proof (Height_ToBytes_compare h h' [] [] (log_height_wf _ _ _ Hh) (log_height_wf _ _ _ Hh')) as Hc.
    rewrite !app_nil_r in Hc. by rewrite Hc, Hl. }
  apply sorted_ext; [apply range_keys_sorted| |apply range_keys_NoDup| |intros x; by apply range_elem].
  - induction Hs as [|h l Hl IH Hf]; [constructor|]. cbn. constructor; [apply IH; intros; apply Hlt; try done; by right|].
    apply Forall_fmap, Forall_forall. intros h' Hh'. rewrite Forall_forall in Hf. unfold compose, bytes_le, bytes_leb. rewrite Hlt; [done|by left|by right|by apply Hf].
  - induction Hs as [|h l Hl IH Hf]; [constructor|]. cbn. constructor; [|apply IH; intros; apply Hlt; try done; by right].
    intros (h' & E & Hh')%list_elem_of_fmap. rewrite Forall_forall in Hf. assert (Hc : bytes_compare (prefix ns key ++ Height_ToBytes h) (prefix ns key ++ Height_ToBytes h') = Lt)
      by (apply Hlt; [by left|by right|by apply Hf]).
    change (prefix ns key ++ Height_ToBytes h = prefix ns key ++ Height_ToBytes h') in E. by rewrite E, bytes_compare_refl in Hc.
Qed.

(** ** Reading the history *)

Lemma find_write_head (key : bytes) (l : list KVWrite) : find_write key l = head (filter (fun w => KVWrite_Key w = key) l).
Proof. induction l as [|w l IH]; [done|]. cbn [find_write]. rewrite filter_cons. case_bool_decide; [by rewrite decide_True|by rewrite decide_False]. Qed.

Lemma find_ns_write_head (ns key : bytes) (l : list NsRwSet) :
  NoDup (NsRwSet_NameSpace <$> l) -> find_ns_write ns key l = head (writes_of ns key (mkTxRwSet l)).
Proof.
  unfold writes_of. cbn [TxRwSet_NsRwSets]. induction l as [|n l IH]; intros Hd; [done|]. cbn in Hd. apply NoDup_cons in Hd as [Hni Hd].
  cbn [find_ns_write mbind list_bind]. case_bool_decide as E; [|by apply IH]. rewrite find_write_head.
  assert (mbind (fun n0 => if bool_decide (NsRwSet_NameSpace n0 = ns) then filter (fun w => KVWrite_Key w = key) (KVRWSet_Writes (NsRwSet_KvRwSet n0)) else []) l = []) as ->; [|by rewrite app_nil_r].
  apply elem_of_nil_inv. intros w (n0 & Hw & Hn0)%list_elem_of_bind. case_bool_decide as E0; [|by apply not_elem_of_nil in Hw].
  apply Hni. rewrite E, <- E0. by apply list_elem_of_fmap_2.
Qed.

Lemma modification_found (flags : bytes) (i : nat) (d ns key : bytes) (m : KeyModification) :
  (forall chdr set, tx_set flags i d = Some (chdr, set) -> set_ok set) -> modification flags i d ns key = Some m ->
  exists env, GetEnvelopeFromBlock d = Ret env /\ getKeyModificationFromTran env ns key = Ret (Some m).
Proof.
  unfold modification. intros Hs Hm. destruct (tx_set flags i d) as [[chdr set]|] eqn:E; [|done]. destruct (Hs _ _ eq_refl) as [Hu _]. cbn in Hm.
  unfold tx_set in E. destruct (IsInvalid flags i) as [[]| |]; [done| |done..]. destruct (tx_header d) as [[env chdr']| |] eqn:Eh; [|done..].
  destruct (ChannelHeader_Type chdr' =? _); [|done]. destruct (GetActionFromEnvelope d) as [act| |] eqn:Ea; [|done..].
  destruct (TxRwSet_FromProtoBytes _) as [set'| |] eqn:Es; [|done..]. injection E as -> ->. exists env.
  unfold tx_header in Eh. apply outcome_bind_ret_inv in Eh as (env' & Ee & Eh). apply outcome_bind_ret_inv in Eh as (payload & Ep & Eh).
  destruct (Payload_Header payload) as [hd|] eqn:Ehd; [|done]. apply outcome_bind_ret_inv in Eh as (ch & Ech & Eh). injection Eh as -> ->. split; [done|].
  unfold GetActionFromEnvelope in Ea. rewrite Ee in Ea. cbn [mbind outcome_bind] in Ea. unfold GetActionFromEnvelopeMsg in Ea.
  unfold getKeyModificationFromTran. rewrite Ep in Ea |- *. cbn [mbind outcome_bind] in Ea |- *.
  apply outcome_bind_ret_inv in Ea as (tx & Et & Ea). rewrite Et. cbn [mbind outcome_bind]. destruct (Transaction_Actions tx) as [|a0 acts]; [done|].
  cbn [go_index lookup list_lookup mbind outcome_bind]. apply outcome_bind_ret_inv in Ea as ([cc rp] & Eg & Ea). injection Ea as ->.
  change (go_index (a0 :: acts) 0) with (Ret a0). cbn [mbind outcome_bind]. rewrite Eg. cbn [mbind outcome_bind]. rewrite Ehd, Ech. cbn [mbind outcome_bind]. rewrite Es.
  cbn [mbind outcome_bind]. rewrite find_ns_write_head by done. destruct set. f_equal. exact Hm.
Qed.

Variables (m : blockfileMgr) (chain : list (blockIdxInfo * bytes)).
Hypothesis Hm : mgr_ok m blocks chain.

Lemma log_found (ns key : bytes) (h : Height) (km : KeyModification) :
  (h, km) ∈ key_log ns key blocks ->
  exists env, retrieveTransactionByBlockNumTranNum m (BlockNum h) (TxNum h) = Ret env /\ getKeyModificationFromTran env ns key = Ret (Some km).
Proof.
  intros (b & i & d & Hb & Hi & Hk & ->)%key_log_elem. pose proof (proj1 (Forall_forall _ _) Hblocks b Hb) as [_ _ Hs].
  destruct (modification_found (flags_of b) i d ns key km) as (env & Ee & Ek); [intros chdr set; by apply Hs|done|]. exists env. split; [|done].
  apply list_elem_of_lookup in Hb as [k Hb]. cbn [BlockNum TxNum]. rewrite (Hnum k b Hb), (retrieveTransaction_ok m blocks chain Hm k i b d) by done. done.
Qed.

(** The scanner has still the first [k] entries to give. *)
Lemma scanner_all_ok (ns key : bytes) (entries : list (bytes * bytes)) (k fuel : nat) :
  entries.*1 = (fun h => prefix ns key ++ Height_ToBytes h) <$> (key_log ns key blocks).*1 -> (k <= length (key_log ns key blocks))%nat -> (k < fuel)%nat ->
  historyScanner_all fuel m (mkhistoryScanner (constructRangeScan ns key) ns key (mkdbIterator entries (Z.of_nat k))) =
    Ret (reverse (take k (key_log ns key blocks)).*2).
Proof.
  intros He. revert fuel. induction k as [|k IH]; intros fuel Hk Hf; (destruct fuel as [|fuel]; [lia|]); cbn [historyScanner_all].
  - done.
  - destruct (key_log ns key blocks !! k) as [[h km]|] eqn:El; [|apply lookup_ge_None in El; lia].
    assert (Hin : (h, km) ∈ key_log ns key blocks) by (by eapply list_elem_of_lookup_2).
    assert (Hwf : Height_wf h) by (apply (log_height_wf ns key), list_elem_of_fmap; by exists (h, km)).
    destruct (log_found ns key h km Hin) as (env & Er & Eg).
    assert (Ek : exists v, entries !! k = Some (constructDataKey ns key (BlockNum h) (TxNum h), v)).
    { assert (E : entries.*1 !! k = Some (prefix ns key ++ Height_ToBytes h)) by (by rewrite He, !list_lookup_fmap, El). rewrite list_lookup_fmap in E.
      destruct (entries !! k) as [[x v]|]; [|done]. injection E as ->. exists v. rewrite dataKey_eq. by destruct h. }
    destruct Ek as [v Ek]. unfold historyScanner_Next, itr_Prev. cbn [hs_dbItr it_pos it_entries hs_rangeScan hs_namespace hs_key].
    assert (Z.max (Z.of_nat (S k) - 1) (-1) = Z.of_nat k) as -> by lia. rewrite (proj2 (Z.leb_le _ _)) by lia. cbn [negb].
    unfold itr_Key. cbn [it_entries it_pos]. rewrite Nat2Z.id, Ek, decode_dataKey by apply Hwf. cbn [mbind outcome_bind]. rewrite Er. cbn [mbind outcome_bind].
    rewrite Eg. cbn [mbind outcome_bind]. rewrite IH by lia. cbn [mbind outcome_bind]. by rewrite (take_S_r _ _ _ El), fmap_app, reverse_app.
Qed.

Lemma history_all_ok (ns key : bytes) (fuel : nat) :
  name_ok ns -> is_u64 (zlen key) -> (length (key_log ns key blocks) < fuel)%nat ->
  historyScanner_all fuel m (GetHistoryForKey db ns key) = Ret (reverse (key_log ns key blocks).*2).
Proof.
  intros Hn Hk Hf. set (l := key_log ns key blocks) in *. unfold GetHistoryForKey, itr_Last, itr_Next. cbn [it_entries it_pos snd].
  set (entries := range_scan db _ _). assert (He : entries.*1 = (fun h => prefix ns key ++ Height_ToBytes h) <$> l.*1).
  { unfold entries. rewrite range_scan_keys. by apply range_keys_log. }
  assert (Hl : length entries = length l) by (apply (f_equal length) in He; by rewrite !length_fmap in He).
  assert (Hg : forall pos, pos = zlen entries -> historyScanner_all fuel m (mkhistoryScanner (constructRangeScan ns key) ns key (mkdbIterator entries pos)) = Ret (reverse l.*2)).
  { intros pos ->. unfold zlen. rewrite Hl, scanner_all_ok by (done || lia). fold l. by rewrite take_ge by lia. }
  destruct (Z.eqb_spec (zlen entries) 0) as [E|E]; cbn [negb].
  - destruct fuel as [|fuel]; [lia|]. rewrite E. assert (l = []) as -> by (apply length_zero_iff_nil; unfold zlen in E; lia). done.
  - apply Hg. pose proof (zlen_nonneg entries). lia.
Qed.

End Chain.

End History.
