(* ===== verification/KvLedger.v ===== *)
(** * The ledger of a channel: commit hash and recovery

    src/core/ledger/kvledger/kv_ledger.go and recovery.go.  The ledger puts together the
    block store, the transaction manager and the history database.  When it is opened,
    the databases that are behind the block store commit the blocks they have missed;
    the hash over all committed updates, kept in the blocks, is carried on.

    The private data store is used through what it returns for a block. *)

From S2P Require Import Prelude Varint Sha256 Proto Block BlockfileMgr OrderedCode LevelDB StateProto StateDB PrivState RwSet Validation RwSetBuilder Simulator BatchPreparer PurgeMgr QueryUtil TxMgr History.

(** [hex.DecodeString] *)
Definition fromHexChar (c : byte) : option Z :=
  let n := b2z c in
  if (48 <=? n) && (n <=? 57) then Some (n - 48) else
  if (97 <=? n) && (n <=? 102) then Some (n - 97 + 10) else
  if (65 <=? n) && (n <=? 70) then Some (n - 65 + 10) else None.

Fixpoint hex_DecodeString (s : bytes) : outcome bytes :=
  match s with
  | [] => Ret []
  | [c] => Err (Errorf "encoding/hex: odd length hex string")
  | a :: b :: s' =>
      match fromHexChar a, fromHexChar b with
      | Some x, Some y => rest ← hex_DecodeString s'; Ret (z2b (16 * x + y) :: rest)
      | _, _ => Err (Errorf "encoding/hex: invalid byte")
      end
  end.

Record snapshotMetadata := mksnapshotMetadata {
  LastBlockNumber : Z;
  LastBlockCommitHashInHex : bytes }.

(** The interface of recovery.go. *)
Record recoverable (S : Type) := mkrecoverable {
  rc_ShouldRecover : Z -> S -> outcome (bool * Z);
  rc_CommitLostBlock : BlockAndPvtData -> M S unit }.
Arguments mkrecoverable {S}.
Arguments rc_ShouldRecover {S}.
Arguments rc_CommitLostBlock {S}.

Section Ledger.
Context {PR : Protos} {SP : StateProtos} {UC : Codec Updates_msg} {PK : Codec PvtdataKeysMsg} {BP : BTLPolicy}.
Context {D : Type} {VD : VersionedDB D} {QD : QueryDB D} {CC : DeployedChaincodeInfoProvider}.
Variable hashFunc : bytes -> outcome bytes.
Variable customTxProcessors : Z -> option (CustomTxProcessor (D := D)).
Variable stateListeners : list (StateListener (D := D)).
(** [pvtdataStore.GetPvtDataByBlockNum] without a filter. *)
Variable GetPvtDataByBlockNum : Z -> outcome (list TxPvtData).
(** Enough for the validation of a block. *)
Variable fuel : nat.

Record kvLedger := mkkvLedger {
  kl_blockStore : blockfileMgr;
  kl_txmgr : LockBasedTxMgr (D := D);
  kl_historyDB : option kvmap;
  kl_bootSnapshotMetadata : option snapshotMetadata;
  kl_commitHash : bytes }.

Definition set_txmgr (t : LockBasedTxMgr) (l : kvLedger) : kvLedger :=
  mkkvLedger (kl_blockStore l) t (kl_historyDB l) (kl_bootSnapshotMetadata l) (kl_commitHash l).

Definition set_historyDB (h : option kvmap) (l : kvLedger) : kvLedger :=
  mkkvLedger (kl_blockStore l) (kl_txmgr l) h (kl_bootSnapshotMetadata l) (kl_commitHash l).

(** ** The commit hash *)

Definition commit_preimage (txValidationCode updateBatchBytes commitHash : bytes) : bytes :=
  EncodeVarint (u64 (zlen txValidationCode)) ++ txValidationCode ++ updateBatchBytes ++ commitHash.

(** The block with the hash in its metadata, and the hash. *)
Definition addBlockCommitHash (block : Block) (updateBatchBytes commitHash : bytes) : outcome (Block * bytes) :=
  match Block_Metadata block with
  | None => Panic "nil pointer dereference"
  | Some md =>
      txValidationCode ← go_index md BlockMetadataIndex_TRANSACTIONS_FILTER;
      let commitHash := Sum256 (commit_preimage txValidationCode updateBatchBytes commitHash) in
      _ ← go_index md BlockMetadataIndex_COMMIT_HASH;
      Ret (mkBlock (Block_Header block) (Block_Data block)
             (Some (<[BlockMetadataIndex_COMMIT_HASH := Marshal (mkMetadata commitHash [])]> md)), commitHash)
  end.

Definition lastPersistedCommitHash (l : kvLedger) : outcome bytes :=
  let height := BlockfileMgr.Height (m_bcInfo (kl_blockStore l)) in
  if height =? 0 then Ret [] else
  let from_block :=
    block ← retrieveBlockByNumber (kl_blockStore l) (u64 (height - 1));
    match Block_Metadata block with
    | None => Panic "nil pointer dereference"
    | Some md =>
        if zlen md <? Z.of_nat BlockMetadataIndex_COMMIT_HASH + 1 then Ret [] else
        md4 ← go_index md BlockMetadataIndex_COMMIT_HASH;
        commitHash ← proto_Unmarshal (A := Metadata) md4;
        Ret (Metadata_Value commitHash)
    end in
  match kl_bootSnapshotMetadata l with
  | Some s => if LastBlockNumber s =? u64 (height - 1) then hex_DecodeString (LastBlockCommitHashInHex s) else from_block
  | None => from_block
  end.

(** ** Recovery *)

Definition constructPvtdataMap (pvtdata : list TxPvtData) : gmap Z TxPvtData :=
  fold_left (fun m pvtdatum => <[SeqInBlock pvtdatum := pvtdatum]> m) pvtdata ∅.

Definition GetPvtDataAndBlockByNum (l : kvLedger) (blockNum : Z) : outcome BlockAndPvtData :=
  block ← retrieveBlockByNumber (kl_blockStore l) blockNum;
  pvtdata ← GetPvtDataByBlockNum blockNum;
  Ret (mkBlockAndPvtData block (constructPvtdataMap pvtdata)).

Definition txmgr_recoverable : recoverable kvLedger := {|
  rc_ShouldRecover last l := ShouldRecover last (kl_txmgr l);
  rc_CommitLostBlock b l :=
    let '(r, t) := CommitLostBlock hashFunc customTxProcessors stateListeners fuel b (kl_txmgr l) in (r, set_txmgr t l) |}.

(** Only on the list where there is a history database. *)
Definition history_recoverable : recoverable kvLedger := {|
  rc_ShouldRecover last l := history_ShouldRecover last (default ∅ (kl_historyDB l));
  rc_CommitLostBlock b l :=
    let '(r, h) := history_CommitLostBlock b (default ∅ (kl_historyDB l)) in (r, set_historyDB (Some h) l) |}.

Definition recoverables (l : kvLedger) : list (recoverable kvLedger) :=
  txmgr_recoverable :: (match kl_historyDB l with Some _ => [history_recoverable] | None => [] end).

(** The blocks are read once for all the databases. *)
Fixpoint commit_lost (rs : list (recoverable kvLedger)) (b : BlockAndPvtData) : M kvLedger unit :=
  match rs with
  | [] => mret tt
  | r :: rs' => _ ← rc_CommitLostBlock r b; commit_lost rs' b
  end.

Fixpoint recommit_blocks (rs : list (recoverable kvLedger)) (nums : list Z) : M kvLedger unit :=
  match nums with
  | [] => mret tt
  | blockNumber :: nums' =>
      l ← get_state;
      blockAndPvtdata ← lift_outcome (GetPvtDataAndBlockByNum l blockNumber);
      _ ← commit_lost rs blockAndPvtdata;
      recommit_blocks rs nums'
  end.

(** The loop counts up to [lastBlockNum], which is below the height of the store. *)
Definition recommitLostBlocks (firstBlockNum lastBlockNum : Z) (rs : list (recoverable kvLedger)) : M kvLedger unit :=
  recommit_blocks rs (seqZ firstBlockNum (lastBlockNum - firstBlockNum + 1)).

(** A database that is ahead of the block store, or needs blocks of before the snapshot,
    stops the recovery. *)
Fixpoint collect_recoverers (l : kvLedger) (lastBlockInBlockStore : Z) (rs : list (recoverable kvLedger)) :
    outcome (list (Z * recoverable kvLedger)) :=
  match rs with
  | [] => Ret []
  | r :: rs' =>
      '(recoverFlag, nextRequiredBlock) ← rc_ShouldRecover r lastBlockInBlockStore l;
      _ ← match kl_bootSnapshotMetadata l with
          | Some s => if nextRequiredBlock <=? LastBlockNumber s
                      then Err (Errorf "recovery for DB [%s] not possible. Ledger [%s] is created from a snapshot") else Ret tt
          | None => Ret tt
          end;
      if u64 (lastBlockInBlockStore + 1) <? nextRequiredBlock
      then Err (Errorf "the %s database [height=%d] is ahead of the block store [height=%d]") else
      rest ← collect_recoverers l lastBlockInBlockStore rs';
      Ret (if (recoverFlag : bool) then (nextRequiredBlock, r) :: rest else rest)
  end.

Definition syncStateAndHistoryDBWithBlockstore : M kvLedger unit :=
  l ← get_state;
  let height := BlockfileMgr.Height (m_bcInfo (kl_blockStore l)) in
  if height =? 0 then mret tt else
  let lastBlockInBlockStore := u64 (height - 1) in
  recoverers ← lift_outcome (collect_recoverers l lastBlockInBlockStore (recoverables l));
  match recoverers with
  | [] => mret tt
  | [(n0, r0)] => recommitLostBlocks n0 lastBlockInBlockStore [r0]
  | (n0, r0) :: (n1, r1) :: _ =>
      let '((n0, r0), (n1, r1)) := if n1 <? n0 then ((n1, r1), (n0, r0)) else ((n0, r0), (n1, r1)) in
      _ ← (if negb (n0 =? n1) then recommitLostBlocks n0 (n1 - 1) [r0] else mret tt);
      recommitLostBlocks n1 lastBlockInBlockStore [r0; r1]
  end.

End Ledger.
