(* ===== verification/KvLedgerOk.v ===== *)
(** * The ledger after a restart

    The commit hash is carried on from the last block ([lastPersistedCommitHash_ok]) and
    binds everything committed before ([commit_hash_binds]).  Recovery brings the state
    and the history database, wherever they stopped, to the state they would have without
    the stop ([sync_ok]). *)

From S2P Require Import Prelude Varint Sha256 Proto Block BlockIndex BlockfileMgr BlockfileMgrOk OrderedCode LevelDB StateProto StateDB PrivState RwSet Validation RwSetBuilder Simulator BatchPreparer PurgeMgr QueryUtil TxMgr History HistoryOk KvLedger.

(** ** The chain of commit hashes *)

(** The hash after the blocks whose flags and update bytes are listed. *)
Definition commit_hash_of (l : list (bytes * bytes)) : bytes :=
  fold_left (fun h x => Sum256 (commit_preimage (fst x) (snd x) h)) l [].

(** What is hashed for these blocks. *)
Fixpoint preimages (h : bytes) (l : list (bytes * bytes)) : list bytes :=
  match l with
  | [] => []
  | x :: l' => let p := commit_preimage (fst x) (snd x) h in p :: preimages (Sum256 p) l'
  end.

Lemma commit_hash_snoc (l : list (bytes * bytes)) (x : bytes * bytes) :
  commit_hash_of (l ++ [x]) = Sum256 (commit_preimage (fst x) (snd x) (commit_hash_of l)).
Proof. unfold commit_hash_of. by rewrite fold_left_app. Qed.

Lemma commit_hash_length (l : list (bytes * bytes)) : length (commit_hash_of l) = match l with [] => 0%nat | _ => 32%nat end.
Proof. destruct l as [|x l] using rev_ind; [done|]. rewrite commit_hash_snoc, Sum256_length. by destruct l. Qed.

Lemma preimages_snoc (l : list (bytes * bytes)) (x : bytes * bytes) :
  preimages [] (l ++ [x]) = preimages [] l ++ [commit_preimage (fst x) (snd x) (commit_hash_of l)].
Proof.
  assert (H : forall h, preimages h (l ++ [x]) = preimages h l ++ [commit_preimage (fst x) (snd x) (fold_left (fun h x => Sum256 (commit_preimage (fst x) (snd x) h)) l h)]); [|apply H].
  induction l as [|y l IH]; intros h; [done|]. cbn [app preimages fold_left]. by rewrite IH.
Qed.

Lemma app_suffix_inj {A} (l1 l2 k1 k2 : list A) : length k1 = length k2 -> l1 ++ k1 = l2 ++ k2 -> l1 = l2 /\ k1 = k2.
Proof. intros Hl E. apply app_inj_2; done. Qed.

(** What is hashed determines its parts. *)
Lemma commit_preimage_inj (f f' u u' h h' : bytes) :
  is_u64 (zlen f) -> is_u64 (zlen f') -> length h = length h' -> commit_preimage f u h = commit_preimage f' u' h' -> f = f' /\ u = u' /\ h = h'.
Proof.
  intros Hf Hf' Hh E. unfold commit_preimage in E. rewrite !u64_id in E by done.
  assert (Hd : DecodeVarint (EncodeVarint (zlen f) ++ f ++ u ++ h) = DecodeVarint (EncodeVarint (zlen f') ++ f' ++ u' ++ h')) by (by rewrite E).
  rewrite !DecodeVarint_encode in Hd by done. injection Hd as Hz _. rewrite Hz in E. apply app_inv_head in E.
  apply app_inj_1 in E as [-> E]; [|unfold zlen in Hz; lia]. split; [done|]. by apply app_suffix_inj.
Qed.

(** Two chains of the same length with the same hash are the same, unless two different
    strings among what was hashed have the same hash. *)
Lemma commit_hash_binds (l l' : list (bytes * bytes)) :
  length l = length l' -> Forall (fun x => is_u64 (zlen (fst x))) l -> Forall (fun x => is_u64 (zlen (fst x))) l' -> commit_hash_of l = commit_hash_of l' ->
  (forall p q, p ∈ preimages [] l -> q ∈ preimages [] l' -> Sum256 p = Sum256 q -> p = q) -> l = l'.
Proof.
  revert l'. induction l as [|x l IH] using rev_ind; intros l' Hl Hf Hf' E Hc; [by destruct l'|].
  destruct l' as [|x' l' _] using rev_ind; [rewrite length_app in Hl; simpl in Hl; lia|]. rewrite !length_app in Hl. simpl in Hl.
  assert (Hl' : length l = length l') by lia. rewrite !commit_hash_snoc in E. rewrite !preimages_snoc in Hc.
  apply Forall_app in Hf as [Hf Hx%Forall_inv], Hf' as [Hf' Hx'%Forall_inv].
  assert (Ep : commit_preimage (fst x) (snd x) (commit_hash_of l) = commit_preimage (fst x') (snd x') (commit_hash_of l')).
  { apply Hc; [apply elem_of_app; right; by left..|done]. }
  apply commit_preimage_inj in Ep as (E1 & E2 & E3); [|exact Hx|exact Hx'|rewrite !commit_hash_length; by destruct l, l']. f_equal.
  - apply IH; try done. intros p q Hp Hq. apply Hc; apply elem_of_app; by left.
  - destruct x, x'. cbn in *. by subst.
Qed.

Section Ledger.
Context {PR : Protos} {PRO : ProtosOk} {SP : StateProtos} {UC : Codec Updates_msg} {PK : Codec PvtdataKeysMsg} {BP : BTLPolicy}.
Context {D : Type} {VD : VersionedDB D} {QD : QueryDB D} {CC : DeployedChaincodeInfoProvider}.
Variable hashFunc : bytes -> outcome bytes.
Variable customTxProcessors : Z -> option (CustomTxProcessor (D := D)).
Variable stateListeners : list (StateListener (D := D)).
Variable GetPvtDataByBlockNum : Z -> outcome (list TxPvtData).
Variable fuel : nat.
Abbreviation ledger := (kvLedger (D := D)).

(** The hash that was put in the last block is found again. *)
Lemma lastPersistedCommitHash_ok (l : ledger) (blocks : list Block) (chain : list (blockIdxInfo * bytes)) (b b' : Block) (upd h0 h : bytes) :
  mgr_ok (kl_blockStore l) (blocks ++ [b']) chain -> zlen blocks + 1 < 2 ^ 64 -> kl_bootSnapshotMetadata l = None ->
  addBlockCommitHash b upd h0 = Ret (b', h) -> lastPersistedCommitHash l = Ret h.
Proof.
  intros Hm Hlen Hb E. unfold addBlockCommitHash in E. destruct (Block_Metadata b) as [md|]; [|done].
  apply outcome_bind_ret_inv in E as (fl & _ & E). apply outcome_bind_ret_inv in E as (md4 & H4 & E). injection E as <- <-.
  unfold go_index in H4. destruct (md !! BlockMetadataIndex_COMMIT_HASH) as [x|] eqn:E4; [|done]. pose proof (lookup_lt_Some _ _ _ E4) as Hlt.
  unfold lastPersistedCommitHash. rewrite (mo_height _ _ _ Hm), Hb, zlen_app. change (zlen [_]) with 1. pose proof (zlen_nonneg blocks).
  rewrite (proj2 (Z.eqb_neq _ _)) by lia. rewrite Z.add_simpl_r, u64_id by (unfold is_u64; lia).
  change (zlen blocks) with (Z.of_nat (length blocks)). rewrite (retrieveBlockByNumber_ok _ _ _ Hm (length blocks) (mkBlock (Block_Header b) (Block_Data b)
    (Some (<[BlockMetadataIndex_COMMIT_HASH := Marshal (mkMetadata (Sum256 (commit_preimage fl upd h0)) [])]> md)))); [|by rewrite lookup_app_r, Nat.sub_diag by lia|unfold MaxUint64, zlen in *; lia].
  cbn [mbind outcome_bind Block_Metadata]. rewrite (proj2 (Z.ltb_ge _ _)) by (unfold zlen; rewrite length_insert; lia).
  unfold go_index. rewrite list_lookup_insert_eq by done. cbn [mbind outcome_bind]. rewrite proto_Unmarshal_Marshal. done.
Qed.

(** ** Recovery *)

(** Committing lost blocks to one of the databases. *)
Fixpoint lost_tx (bs : list BlockAndPvtData) : M (LockBasedTxMgr (D := D)) unit :=
  match bs with
  | [] => mret tt
  | b :: bs' => _ ← CommitLostBlock hashFunc customTxProcessors stateListeners fuel b; lost_tx bs'
  end.

Fixpoint lost_history (bs : list BlockAndPvtData) : M kvmap unit :=
  match bs with
  | [] => mret tt
  | b :: bs' => _ ← history_CommitLostBlock b; lost_history bs'
  end.

Abbreviation tx_r := (txmgr_recoverable hashFunc customTxProcessors stateListeners fuel).
Abbreviation h_r := (history_recoverable (D := D)).
Abbreviation recommit := (recommit_blocks GetPvtDataByBlockNum).

(** What the store and the private data store return. *)
Variable bps : Z -> BlockAndPvtData.
Definition available (l : ledger) (nums : list Z) : Prop := forall n, n ∈ nums -> GetPvtDataAndBlockByNum GetPvtDataByBlockNum l n = Ret (bps n).

Lemma recommit_cons (rs : list (recoverable ledger)) (n : Z) (nums : list Z) (l l1 : ledger) :
  available l (n :: nums) -> commit_lost rs (bps n) l = (Ret tt, l1) -> recommit rs (n :: nums) l = recommit rs nums l1.
Proof. intros Ha E. cbn [recommit_blocks]. unfold mbind, M_bind, get_state, lift_outcome. rewrite (Ha n) by (by left). by rewrite E. Qed.

Lemma recommit_tx (nums : list Z) (l : ledger) (t' : LockBasedTxMgr) :
  available l nums -> lost_tx (bps <$> nums) (kl_txmgr l) = (Ret tt, t') -> recommit [tx_r] nums l = (Ret tt, set_txmgr t' l).
Proof.
  revert l. induction nums as [|n nums IH]; intros l Ha; cbn [fmap list_fmap lost_tx].
  - intros [= <-]. by destruct l.
  - unfold mbind at 1, M_bind at 1. destruct (CommitLostBlock _ _ _ _ (bps n) (kl_txmgr l)) as [[[]| |] t1] eqn:E; [|done..]. intros E'.
    rewrite (recommit_cons [tx_r] n nums l (set_txmgr t1 l)); [|done|cbn [commit_lost rc_CommitLostBlock txmgr_recoverable]; unfold mbind, M_bind; by rewrite E].
    apply (IH (set_txmgr t1 l)); [intros k Hk; apply Ha; by right|done].
Qed.

Lemma recommit_history (nums : list Z) (l : ledger) (h h' : kvmap) :
  available l nums -> kl_historyDB l = Some h -> lost_history (bps <$> nums) h = (Ret tt, h') -> recommit [h_r] nums l = (Ret tt, set_historyDB (Some h') l).
Proof.
  revert l h. induction nums as [|n nums IH]; intros l h Ha Hh; cbn [fmap list_fmap lost_history].
  - intros [= <-]. rewrite <- Hh. by destruct l.
  - unfold mbind at 1, M_bind at 1. destruct (history_CommitLostBlock (bps n) h) as [[[]| |] h1] eqn:E; [|done..]. intros E'.
    rewrite (recommit_cons [h_r] n nums l (set_historyDB (Some h1) l)); [|done|cbn [commit_lost rc_CommitLostBlock history_recoverable]; unfold mbind, M_bind; rewrite Hh; change (default ∅ (Some h)) with h; by rewrite E].
    apply (IH (set_historyDB (Some h1) l) h1); [intros k Hk; apply Ha; by right|done..].
Qed.

(** The two databases do not disturb each other. *)
Lemma recommit_both (rs : list (recoverable ledger)) (nums : list Z) (l : ledger) (h h' : kvmap) (t' : LockBasedTxMgr) :
  rs = [tx_r; h_r] \/ rs = [h_r; tx_r] -> available l nums -> kl_historyDB l = Some h ->
  lost_tx (bps <$> nums) (kl_txmgr l) = (Ret tt, t') -> lost_history (bps <$> nums) h = (Ret tt, h') ->
  recommit rs nums l = (Ret tt, set_historyDB (Some h') (set_txmgr t' l)).
Proof.
  intros Hrs. revert l h. induction nums as [|n nums IH]; intros l h Ha Hh; cbn [fmap list_fmap lost_tx lost_history].
  - intros [= <-] [= <-]. rewrite <- Hh. by destruct l.
  - intros E1 E2. unfold mbind at 1, M_bind at 1 in E1. unfold mbind at 1, M_bind at 1 in E2.
    destruct (CommitLostBlock _ _ _ _ (bps n) (kl_txmgr l)) as [[[]| |] t1] eqn:Et; [|done..].
    destruct (history_CommitLostBlock (bps n) h) as [[[]| |] h1] eqn:Eh; [|done..].
    rewrite (recommit_cons rs n nums l (set_historyDB (Some h1) (set_txmgr t1 l))); [|done|].
    + apply (IH (set_historyDB (Some h1) (set_txmgr t1 l)) h1); [intros k Hk; apply Ha; by right|done..].
    + destruct Hrs as [-> | ->]; cbn [commit_lost rc_CommitLostBlock history_recoverable txmgr_recoverable]; unfold mbind, M_bind.
      * rewrite Et. change (kl_historyDB (set_txmgr t1 l)) with (kl_historyDB l). rewrite Hh. change (default ∅ (Some h)) with h. by rewrite Eh.
      * rewrite Hh. change (default ∅ (Some h)) with h. rewrite Eh. change (kl_txmgr (set_historyDB (Some h1) l)) with (kl_txmgr l). by rewrite Et.
Qed.

(** The next block a database needs, by its savepoint. *)
Definition next_needed (sp : option Height) : Z := match sp with None => 0 | Some h => BlockNum h + 1 end.

Lemma lost_tx_app (bs bs' : list BlockAndPvtData) (t t' : LockBasedTxMgr) :
  lost_tx (bs ++ bs') t = (Ret tt, t') -> exists t1, lost_tx bs t = (Ret tt, t1) /\ lost_tx bs' t1 = (Ret tt, t').
Proof.
  revert t. induction bs as [|b bs IH]; intros t; cbn [app lost_tx]; [intros E; by exists t|]. unfold mbind, M_bind.
  destruct (CommitLostBlock _ _ _ _ b t) as [[[]| |] t1]; [apply IH|done..].
Qed.

Lemma lost_history_app (bs bs' : list BlockAndPvtData) (h h' : kvmap) :
  lost_history (bs ++ bs') h = (Ret tt, h') -> exists h1, lost_history bs h = (Ret tt, h1) /\ lost_history bs' h1 = (Ret tt, h').
Proof.
  revert h. induction bs as [|b bs IH]; intros h; cbn [app lost_history]; [intros E; by exists h|]. unfold mbind, M_bind.
  destruct (history_CommitLostBlock b h) as [[[]| |] h1]; [apply IH|done..].
Qed.

Lemma seqZ_split (a b n : Z) : 0 <= a <= b -> b <= n -> seqZ a (n - a) = seqZ a (b - a) ++ seqZ b (n - b).
Proof. intros H1 H2. replace (n - a) with ((b - a) + (n - b)) by lia. rewrite seqZ_app by lia. f_equal. f_equal. lia. Qed.

(** The history database takes blocks one after the other. *)
Lemma lost_history_blocks (bs : list BlockAndPvtData) (h : kvmap) : lost_history bs h = history_commits (bp_Block <$> bs) h.
Proof.
  revert h. induction bs as [|b bs IH]; intros h; [done|]. cbn [lost_history fmap list_fmap history_commits]. unfold mbind, M_bind, history_CommitLostBlock.
  destruct (history_Commit (bp_Block b) h) as [[[]| |] h1]; [apply IH|done..].
Qed.

Lemma history_commits_split (bs bs' : list Block) (h h1 h2 : kvmap) :
  history_commits bs h = (Ret tt, h1) -> history_commits (bs ++ bs') h = (Ret tt, h2) -> history_commits bs' h1 = (Ret tt, h2).
Proof.
  revert h. induction bs as [|b bs IH]; intros h; cbn [app history_commits]; [by intros [= <-]|]. unfold mbind, M_bind.
  destruct (history_Commit b h) as [[[]| |] h0]; [apply IH|done..].
Qed.

(** Its savepoint names the next block. *)
Lemma history_next_needed (blocks : list Block) (h : kvmap) (j : nat) :
  Forall history_block blocks -> (forall k b, blocks !! k = Some b -> Number (Block_Header b) = Z.of_nat k) -> (j <= length blocks)%nat ->
  history_commits (take j blocks) ∅ = (Ret tt, h) -> exists sp, history_GetLastSavepoint h = Ret sp /\ next_needed sp = Z.of_nat j.
Proof.
  intros Hb Hn Hj E. destruct j as [|j].
  - injection E as <-. exists None. split; [|done]. unfold history_GetLastSavepoint. by rewrite lookup_empty.
  - destruct (lookup_lt_is_Some_2 blocks j) as [b Eb]; [lia|]. rewrite (take_S_r _ _ _ Eb) in E. rewrite Forall_forall in Hb.
    pose proof (Hb b (list_elem_of_lookup_2 _ _ _ Eb)) as [H1 H2 _]. eexists. split; [apply (history_commits_savepoint _ _ _ _ E); by split|].
    cbn [next_needed NewHeight BlockNum]. rewrite (Hn j b Eb). lia.
Qed.

Section Sync.
Variables (l : ledger) (n : Z) (h h' : kvmap) (t' : LockBasedTxMgr (D := D)) (spt sph : option Height).
Hypothesis Hheight : BlockfileMgr.Height (m_bcInfo (kl_blockStore l)) = n.
Hypothesis Hn : 0 < n < 2 ^ 64.
Hypothesis Hboot : kl_bootSnapshotMetadata l = None.
Hypothesis Hhist : kl_historyDB l = Some h.
Hypothesis Havail : available l (seqZ 0 n).
Hypothesis Hspt : GetLastSavepoint (kl_txmgr l) = Ret spt.
Hypothesis Hsph : history_GetLastSavepoint h = Ret sph.
Hypothesis Hat : 0 <= next_needed spt <= n.
Hypothesis Hah : 0 <= next_needed sph <= n.

Abbreviation a := (next_needed spt).
Abbreviation b := (next_needed sph).

Lemma should_recover_next (sp : option Height) :
  0 <= next_needed sp <= n ->
  match sp with None => Ret (true, 0) | Some s => Ret (negb (BlockNum s =? n - 1), u64 (BlockNum s + 1)) end = Ret (negb (next_needed sp =? n), next_needed sp).
Proof.
  intros Hs. destruct sp as [s|]; cbn [next_needed] in *.
  - rewrite u64_id by (unfold is_u64; lia). assert ((BlockNum s =? n - 1) = (BlockNum s + 1 =? n)) as ->; [|done].
    destruct (Z.eqb_spec (BlockNum s) (n - 1)), (Z.eqb_spec (BlockNum s + 1) n); first [done|lia].
  - by rewrite (proj2 (Z.eqb_neq _ _)) by lia.
Qed.

Lemma collect_ok : collect_recoverers l (n - 1) (recoverables hashFunc customTxProcessors stateListeners fuel l) =
  Ret ((if a =? n then [] else [(a, tx_r)]) ++ (if b =? n then [] else [(b, h_r)])).
Proof.
  unfold recoverables. rewrite Hhist. cbn [collect_recoverers rc_ShouldRecover txmgr_recoverable history_recoverable].
  unfold ShouldRecover. rewrite Hspt. cbn [mbind outcome_bind]. rewrite (should_recover_next spt Hat). cbn [mbind outcome_bind]. rewrite Hboot. cbn [mbind outcome_bind].
  rewrite Z.sub_add, u64_id by (unfold is_u64; lia). rewrite (proj2 (Z.ltb_ge n a)) by lia.
  rewrite Hhist. change (default ∅ (Some h)) with h. unfold history_ShouldRecover. rewrite Hsph. cbn [mbind outcome_bind]. rewrite (should_recover_next sph Hah).
  cbn [mbind outcome_bind]. rewrite (proj2 (Z.ltb_ge n b)) by lia. cbn [mbind outcome_bind]. by destruct (a =? n), (b =? n).
Qed.

Lemma avail_from (k j : Z) : 0 <= k -> j <= n -> available l (seqZ k (j - k)).
Proof. intros Hk Hj x Hx. apply Havail. apply elem_of_seqZ in Hx. apply elem_of_seqZ. lia. Qed.

Hypothesis Htx : lost_tx (bps <$> seqZ a (n - a)) (kl_txmgr l) = (Ret tt, t').
Hypothesis Hh : lost_history (bps <$> seqZ b (n - b)) h = (Ret tt, h').

Lemma seqZ_empty (k : Z) : k = n -> seqZ k (n - k) = [].
Proof. intros ->. rewrite Z.sub_diag. done. Qed.

(** The database that is behind catches up with the other, then both with the store. *)
Lemma sync_ok : syncStateAndHistoryDBWithBlockstore hashFunc customTxProcessors stateListeners GetPvtDataByBlockNum fuel l = (Ret tt, set_historyDB (Some h') (set_txmgr t' l)).
Proof.
  unfold syncStateAndHistoryDBWithBlockstore. unfold mbind at 1, M_bind at 1, get_state. rewrite Hheight, (proj2 (Z.eqb_neq n 0)) by lia. rewrite u64_id by (unfold is_u64; lia).
  unfold mbind at 1, M_bind at 1, lift_outcome. rewrite collect_ok. unfold recommitLostBlocks.
  assert (Hto : forall k, n - 1 - k + 1 = n - k) by (intros; lia).
  destruct (Z.eqb_spec a n) as [Ea|Ea], (Z.eqb_spec b n) as [Eb|Eb]; cbn [app].
  - rewrite (seqZ_empty a Ea) in Htx. rewrite (seqZ_empty b Eb) in Hh. injection Htx as <-. injection Hh as <-. rewrite <- Hhist. by destruct l.
  - rewrite (seqZ_empty a Ea) in Htx. injection Htx as <-. rewrite Hto, (recommit_history _ l h h'); [by destruct l|by apply avail_from; lia|done|done].
  - rewrite (seqZ_empty b Eb) in Hh. injection Hh as <-. rewrite Hto, (recommit_tx _ l t'); [rewrite <- Hhist; by destruct l|by apply avail_from; lia|done].
  - destruct (Z.ltb_spec b a) as [Hlt|Hge].
    + rewrite (proj2 (Z.eqb_neq b a)) by lia. cbn [negb]. rewrite (seqZ_split b a n), fmap_app in Hh by lia. apply lost_history_app in Hh as (h1 & Hh1 & Hh2).
      assert (a - 1 - b + 1 = a - b) as -> by lia. unfold mbind at 1, M_bind at 1. rewrite (recommit_history _ l h h1); [|by apply avail_from; lia|done|done].
      rewrite Hto. apply (recommit_both _ _ (set_historyDB (Some h1) l) h1); [by right|apply avail_from; lia|done..].
    + destruct (Z.eqb_spec a b) as [E|Hne]; cbn [negb].
      * unfold mbind at 1, M_bind at 1. rewrite Hto, <- E. rewrite <- E in Hh. apply (recommit_both _ _ l h); [by left|apply avail_from; lia|done..].
      * rewrite (seqZ_split a b n), fmap_app in Htx by lia. apply lost_tx_app in Htx as (t1 & Ht1 & Ht2).
        assert (b - 1 - a + 1 = b - a) as -> by lia. unfold mbind at 1, M_bind at 1. rewrite (recommit_tx _ l t1); [|by apply avail_from; lia|done].
        rewrite Hto. apply (recommit_both _ _ (set_txmgr t1 l) h); [by left|apply avail_from; lia|done..].
Qed.

End Sync.

End Ledger.
