(* ===== verification/RecoveryOk.v ===== *)
(** * Committing a block again

    [CommitLostBlock] of the transaction manager on the blocks of the store: a block
    that was validated and stored with its flags is prepared again, without the checks
    of the versions, to the same updates; and a manager that was opened again commits
    them as the one that went on. *)

From S2P Require Import Prelude Proto Block LevelDB StateProto StateDB PrivState PrivStateOk RwSet Validation RwSetBuilder Simulator BatchPreparer BatchPreparerOk PurgeMgr QueryUtil TxMgr KvLedger KvLedgerOk.

Definition tx_valid (tx : transaction) : Prop := tx_validationCode tx = TxValidationCode_VALID.

#[global] Instance tx_valid_dec (tx : transaction) : Decision (tx_valid tx).
Proof. unfold tx_valid. apply _. Defined.

(** A transaction with the code the validation has given it. *)
Definition tx_code (c : Z) : Prop := c = TxValidationCode_VALID \/ c = TxValidationCode_MVCC_READ_CONFLICT \/ c = TxValidationCode_PHANTOM_READ_CONFLICT.
Definition recoded (tx vtx : transaction) : Prop := exists c, tx_code c /\ vtx = set_code c tx.

(** Flags that are set in a block, and where they are not. *)
Lemma set_flags_index (txs : list transaction) (f f' : bytes) (k : nat) :
  set_flags txs f = (Ret tt, f') -> Forall (fun tx => Z.to_nat (tx_indexInBlock tx) <> k) txs -> f' !! k = f !! k.
Proof.
  revert f. induction txs as [|tx txs IH]; intros f; cbn [set_flags]; [by intros [= <-]|].
  intros (? & f1 & E & E')%bind_ret_inv [Hk Ht]%Forall_cons. rewrite (IH f1 E' Ht). unfold SetFlag in E.
  destruct (f !! _); [|done]. injection E as _ <-. by rewrite list_lookup_insert_ne.
Qed.

Lemma set_flags_code (txs : list transaction) (f f' : bytes) (tx : transaction) :
  set_flags txs f = (Ret tt, f') -> NoDup ((fun tx => Z.to_nat (tx_indexInBlock tx)) <$> txs) -> tx ∈ txs ->
  f' !! Z.to_nat (tx_indexInBlock tx) = Some (z2b (tx_validationCode tx)).
Proof.
  revert f. induction txs as [|tx' txs IH]; intros f; cbn [set_flags fmap list_fmap]; [by intros _ _ ?%not_elem_of_nil|].
  intros (? & f1 & E & E')%bind_ret_inv [Hn Hd]%NoDup_cons [->|Hin]%elem_of_cons; [|by apply (IH f1)].
  rewrite (set_flags_index txs f1 f' _ E').
  - unfold SetFlag in E. destruct (f !! _) eqn:Ef; [|done]. injection E as _ <-. apply list_lookup_insert_eq. by apply lookup_lt_Some in Ef.
  - apply Forall_forall. intros tx Htx Heq. apply Hn. rewrite <- Heq. apply list_elem_of_fmap. by exists tx.
Qed.

(** Setting again the flags that are there changes nothing. *)
Lemma set_flags_same (txs : list transaction) (f : bytes) :
  Forall (fun tx => f !! Z.to_nat (tx_indexInBlock tx) = Some (z2b (tx_validationCode tx))) txs -> set_flags txs f = (Ret tt, f).
Proof.
  induction 1 as [|tx txs Hf _ IH]; [done|]. cbn [set_flags]. unfold mbind, M_bind, SetFlag at 1. by rewrite Hf, list_insert_id.
Qed.

Lemma stat_codes_ret (f : bytes) (stats : list TxStatInfo) : (exists s, stat_codes f stats = Ret s) <-> (length f <= length stats)%nat.
Proof.
  revert stats. induction f as [|c f IH]; intros [|s stats]; cbn [stat_codes length].
  - split; [lia|eauto].
  - split; [lia|eauto].
  - split; [by intros [? ?]|lia].
  - rewrite <- Nat.succ_le_mono, <- IH. split; intros [s' E].
    + apply outcome_bind_ret_inv in E as (x & E & _). by exists x.
    + rewrite E. by eexists.
Qed.

Section Replay.
Context {PR : Protos} {SP : StateProtos} {D : Type} {VD : VersionedDB D} {QD : QueryDB D} {CC : DeployedChaincodeInfoProvider}.
Variable hashFunc : bytes -> outcome bytes.
Variable customTxProcessors : Z -> option (CustomTxProcessor (D := D)).

(** A processor gives the same writes for a transaction it has accepted when the ledger
    is synching the state; only validation may be skipped then. *)
Definition processors_replay : Prop := forall txType processor env sim sim',
  customTxProcessors txType = Some processor -> processor env false sim = (Ret tt, sim') -> processor env true sim = (Ret tt, sim').

(** ** Validation *)

Lemma validateTx_code (fuel : nat) (db : DB D) (u : publicAndHashUpdates) (nss : list NsRwSet) (c : Z) :
  validateTx hashFunc fuel db u nss = Ret c -> tx_code c.
Proof.
  induction nss as [|ns nss IH]; cbn [validateTx]; [intros [= <-]; by left|].
  intros (v1 & _ & E)%outcome_bind_ret_inv. destruct (negb v1); [injection E as <-; right; by left|].
  apply outcome_bind_ret_inv in E as (v2 & _ & E). destruct (negb v2); [injection E as <-; right; by right|].
  apply outcome_bind_ret_inv in E as (v3 & _ & E). destruct (negb v3); [injection E as <-; right; by left|]. by apply IH.
Qed.

(** The valid transactions alone have the updates of all. *)
Lemma validate_txs_replay (fuel : nat) (db : DB D) (num : Z) (txs vtxs : list transaction) (u u' : publicAndHashUpdates) :
  validate_txs hashFunc fuel db num true u txs = Ret (u', vtxs) ->
  Forall2 recoded txs vtxs /\ validate_txs hashFunc fuel db num false u (filter tx_valid vtxs) = Ret (u', filter tx_valid vtxs).
Proof.
  revert u vtxs. induction txs as [|tx txs IH]; intros u vtxs; cbn [validate_txs]; [intros [= <- <-]; by split|].
  intros (c & Ec & E)%outcome_bind_ret_inv. apply outcome_bind_ret_inv in E as (u1 & Eu & E).
  apply outcome_bind_ret_inv in E as ([u2 rest] & Er & E). injection E as <- <-. destruct (IH _ _ Er) as [Hr Hf].
  apply validateTx_code in Ec. split; [constructor; [by exists c|done]|]. rewrite filter_cons.
  destruct (decide (tx_valid _)) as [Hv|Hv]; change (c = TxValidationCode_VALID) in Hv || change (c <> TxValidationCode_VALID) in Hv.
  - subst c. cbn [validate_txs validateEndorserTX mbind outcome_bind]. change (_ =? _) with true. rewrite Z.eqb_refl in Eu. cbn in Eu |- *. rewrite Eu. cbn. by rewrite Hf.
  - rewrite (proj2 (Z.eqb_neq _ _) Hv) in Eu. injection Eu as <-. done.
Qed.

(** ** Parsing *)

Lemma preprocess_flagged (mvcc : bool) (i : nat) (d F : bytes) (c : byte) :
  (forall msg, tx_header d <> Panic msg) -> F !! i = Some c -> b2z c <> TxValidationCode_VALID ->
  preprocess_tx hashFunc customTxProcessors mvcc i d F = (Ret (empty_stat, None), F).
Proof.
  intros Hp Hc Hv. assert (Hi : IsInvalid F i = Ret true).
  { unfold IsInvalid, IsValid, IsSetTo, Flag, go_index. rewrite Hc. cbn. by rewrite (proj2 (Z.eqb_neq _ _) Hv). }
  unfold preprocess_tx. destruct (tx_header d) as [?| |msg]; [..|by destruct (Hp msg)]; unfold mbind at 1 2, M_bind at 1 2, get_state, lift_outcome; by rewrite Hi.
Qed.

Lemma tx_rwset_replay (d : bytes) (env : Envelope) (txType : Z) (stat stat' : TxStatInfo) (r : option (TxRwSet * bool)) :
  processors_replay -> tx_rwset_of hashFunc customTxProcessors d env txType true stat = Ret (stat', inr r) ->
  tx_rwset_of hashFunc customTxProcessors d env txType false stat = Ret (stat', inr r).
Proof.
  intros Hp. unfold tx_rwset_of. destruct (txType =? _); [done|]. unfold processNonEndorserTx. cbn [negb].
  destruct (customTxProcessors txType) as [p|] eqn:Ep; [|done]. destruct (p env false newTxSimulator) as [[[]|e|msg] sim] eqn:E.
  - by rewrite (Hp _ _ _ _ _ Ep E).
  - cbn. by destruct e.
  - done.
Qed.

(** A transaction that is not marked as invalid. *)
Definition parse_tx (mvcc : bool) (i : nat) (d : bytes) (env : Envelope) (chdr : ChannelHeader) : M bytes (TxStatInfo * option transaction) :=
  '(stat, r) ← lift_outcome (tx_rwset_of hashFunc customTxProcessors d env (ChannelHeader_Type chdr) mvcc
    (mkTxStatInfo TxValidationCode_VALID (ChannelHeader_Type chdr) None 0));
  match r with
  | inl code => _ ← SetFlag i code; mret (stat, None)
  | inr None => mret (stat, None)
  | inr (Some (txRWSet, containsPostOrderWrites)) =>
      let stat := mkTxStatInfo (si_ValidationCode stat) (si_TxType stat) (si_ChaincodeID stat) (NumCollections (Some txRWSet)) in
      match validateWriteset (D := D) txRWSet with
      | Panic msg => panic msg
      | Err _ => _ ← SetFlag i TxValidationCode_INVALID_WRITESET; mret (stat, None)
      | Ret _ => mret (stat, Some (mktransaction (Z.of_nat i) (ChannelHeader_TxId chdr) txRWSet TxValidationCode_VALID containsPostOrderWrites))
      end
  end.

Lemma preprocess_unflagged (mvcc : bool) (i : nat) (d F : bytes) (c : byte) :
  F !! i = Some c -> b2z c = TxValidationCode_VALID ->
  preprocess_tx hashFunc customTxProcessors mvcc i d F =
    match tx_header d with Ret (env, chdr) => parse_tx mvcc i d env chdr F | Err e => (Err e, F) | Panic msg => (Panic msg, F) end.
Proof.
  intros Hc Hv. assert (Hi : IsInvalid F i = Ret false).
  { unfold IsInvalid, IsValid, IsSetTo, Flag, go_index. rewrite Hc. cbn. by rewrite Hv. }
  unfold preprocess_tx. destruct (tx_header d) as [[env chdr]| |]; [..|done]; unfold mbind at 1 2, M_bind at 1 2, get_state, lift_outcome; by rewrite Hi.
Qed.

Lemma tx_rwset_codes (mvcc : bool) (d : bytes) (env : Envelope) (txType : Z) (stat stat' : TxStatInfo) (c : Z) :
  tx_rwset_of hashFunc customTxProcessors d env txType mvcc stat = Ret (stat', inl c) ->
  c = TxValidationCode_NIL_TXACTION \/ c = TxValidationCode_INVALID_OTHER_REASON.
Proof.
  unfold tx_rwset_of. destruct (txType =? _).
  - destruct (GetActionFromEnvelope d); [destruct (TxRwSet_FromProtoBytes _)|..]; intros [= _ <-]; auto.
  - destruct (processNonEndorserTx _ _ _ _ _) as [[ws|]|e|]; [|done| |done].
    + by intros (x & _ & [=])%outcome_bind_ret_inv.
    + destruct e; intros [= _ <-]; auto.
Qed.

Lemma set_flag_inv (i : nat) (c : Z) (f f1 : bytes) :
  SetFlag i c f = (Ret tt, f1) -> (forall k, k <> i -> f1 !! k = f !! k) /\ f1 !! i = Some (z2b c).
Proof.
  unfold SetFlag. destruct (f !! i) eqn:Ef; intros [= <-]. split; [intros k Hk; by rewrite list_lookup_insert_ne|].
  apply list_lookup_insert_eq. by apply lookup_lt_Some in Ef.
Qed.

(** What parsing one transaction does to the flags, and how it goes the second time. *)
Lemma preprocess_tx_replay (i : nat) (d f f1 : bytes) (stat : TxStatInfo) (otx : option transaction) :
  processors_replay -> preprocess_tx hashFunc customTxProcessors true i d f = (Ret (stat, otx), f1) ->
  (forall k, k <> i -> f1 !! k = f !! k) /\
  (forall F c, F !! i = Some c -> b2z c <> TxValidationCode_VALID -> preprocess_tx hashFunc customTxProcessors false i d F = (Ret (empty_stat, None), F)) /\
  match otx with
  | None => forall F, F !! i = f1 !! i -> exists stat', preprocess_tx hashFunc customTxProcessors false i d F = (Ret (stat', None), F)
  | Some tx => tx_indexInBlock tx = Z.of_nat i /\ tx_valid tx /\
      forall F, F !! i = Some (z2b TxValidationCode_VALID) -> exists stat', preprocess_tx hashFunc customTxProcessors false i d F = (Ret (stat', Some tx), F)
  end.
Proof.
  intros Hp E.
  assert (Hn : forall msg, tx_header d <> Panic msg) by (intros msg Eh; unfold preprocess_tx in E; by rewrite Eh in E).
  assert (Hf : forall F c, F !! i = Some c -> b2z c <> TxValidationCode_VALID ->
    preprocess_tx hashFunc customTxProcessors false i d F = (Ret (empty_stat, None), F)) by (intros F c Hc Hv; by apply (preprocess_flagged false i d F c)).
  destruct (f !! i) as [c|] eqn:Ec.
  2: { assert (Hi : IsInvalid f i = Panic "index out of range") by (unfold IsInvalid, IsValid, IsSetTo, Flag, go_index; by rewrite Ec).
    unfold preprocess_tx in E. destruct (tx_header d); [..|done]; unfold mbind at 1 2, M_bind at 1 2, get_state, lift_outcome in E; by rewrite Hi in E. }
  destruct (decide (b2z c = TxValidationCode_VALID)) as [Hv|Hv].
  2: { rewrite (preprocess_flagged true i d f c Hn Ec Hv) in E. injection E as <- <- <-. split; [done|]. split; [done|].
    intros F HF. rewrite Ec in HF. eexists. by apply (Hf F c). }
  assert (Hz : z2b TxValidationCode_VALID = c) by (rewrite <- Hv; apply z2b_b2z).
  assert (Hcode : forall code, 0 < code < 256 -> b2z (z2b code) <> TxValidationCode_VALID).
  { intros code Hr. rewrite b2z_z2b, Z.mod_small by lia. unfold TxValidationCode_VALID. lia. }
  rewrite (preprocess_unflagged true i d f c Ec Hv) in E. pose proof (fun F HF => preprocess_unflagged false i d F c HF Hv) as Hu.
  destruct (tx_header d) as [[env chdr]| |]; [|done..]. unfold parse_tx in E. apply bind_ret_inv in E as ([st r] & f0 & E0 & E).
  injection E0 as E0 <-. destruct r as [code|[[rw post]|]].
  - apply bind_ret_inv in E as ([] & f2 & Es & E). injection E as <- <- <-. apply set_flag_inv in Es as [Ho Hi]. split; [done|]. split; [done|].
    intros F HF. rewrite Hi in HF. eexists. apply (Hf F _ HF), Hcode. apply tx_rwset_codes in E0 as [-> | ->]; done.
  - apply (tx_rwset_replay _ _ _ _ _ _ Hp) in E0. destruct (validateWriteset rw) as [[]|e|] eqn:Ew; [| |done].
    + injection E as <- <- <-. do 2 (split; [done|]). split; [done|]. split; [done|]. intros F HF. rewrite Hz in HF. rewrite (Hu F HF). unfold parse_tx, mbind, M_bind, lift_outcome. rewrite E0, Ew. by eexists.
    + apply bind_ret_inv in E as ([] & f2 & Es & E). injection E as <- <- <-. apply set_flag_inv in Es as [Ho Hi]. split; [done|]. split; [done|].
      intros F HF. rewrite Hi in HF. eexists. by apply (Hf F _ HF), Hcode.
  - apply (tx_rwset_replay _ _ _ _ _ _ Hp) in E0. injection E as <- <- <-. split; [done|]. split; [done|]. intros F HF. rewrite Ec in HF.
    rewrite (Hu F HF). unfold parse_tx, mbind, M_bind, lift_outcome. rewrite E0. by eexists.
Qed.

Definition flag_index (tx : transaction) : nat := Z.to_nat (tx_indexInBlock tx).

Lemma recoded_index (txs vtxs : list transaction) : Forall2 recoded txs vtxs -> flag_index <$> vtxs = flag_index <$> txs.
Proof. induction 1 as [|tx vtx txs vtxs (c & _ & ->) _ IH]; [done|]. cbn. by rewrite IH. Qed.

Lemma recoded_nonneg (txs vtxs : list transaction) (v : transaction) :
  Forall2 recoded txs vtxs -> Forall (fun tx => 0 <= tx_indexInBlock tx) txs -> v ∈ vtxs -> 0 <= tx_indexInBlock v.
Proof.
  intros Hr Ht (k & Hk)%list_elem_of_lookup_1. destruct (Forall2_lookup_r _ _ _ _ _ Hr Hk) as (tx & Htx & c & _ & ->).
  apply (Forall_lookup_1 _ _ _ _ Ht Htx).
Qed.

(** The transactions are in the order of their places. *)
Lemma preprocess_txs_index (data : list bytes) (i : nat) (f f' : bytes) (stats : list TxStatInfo) (txs : list transaction) :
  processors_replay -> preprocess_txs hashFunc customTxProcessors true i data f = (Ret (stats, txs), f') ->
  (forall k, (k < i)%nat -> f' !! k = f !! k) /\ length stats = length data /\ Forall (fun tx => (i <= flag_index tx)%nat /\ 0 <= tx_indexInBlock tx) txs /\ NoDup (flag_index <$> txs).
Proof.
  intros Hp. revert i f stats txs. induction data as [|d data IH]; intros i f stats txs; cbn [preprocess_txs].
  - intros [= <- <- <-]. split; [done|]. split; [done|]. split; constructor.
  - intros ([st otx] & f1 & E1 & E)%bind_ret_inv. apply bind_ret_inv in E as ([sts txs'] & f2 & E2 & E). injection E as <- <- <-.
    destruct (preprocess_tx_replay _ _ _ _ _ _ Hp E1) as (Ho & _ & Ht). destruct (IH _ _ _ _ E2) as (Hk & Hl & Hi & Hn).
    assert (Hi' : Forall (fun tx => (i <= flag_index tx)%nat /\ 0 <= tx_indexInBlock tx) txs') by (eapply Forall_impl; [exact Hi|]; intros ? Hx; cbn beta in Hx; lia).
    split; [intros k Hk'; rewrite Hk, Ho by lia; done|]. split; [cbn; by rewrite Hl|].
    destruct otx as [tx|]; [|done]. destruct Ht as (Hx & _ & _). assert (flag_index tx = i) as Hfi by (unfold flag_index; rewrite Hx; lia).
    split; [constructor; [split; lia|done]|]. cbn. constructor; [|done]. rewrite Hfi. intros (tx' & Heq & Hin)%list_elem_of_fmap.
    rewrite Forall_forall in Hi. specialize (Hi _ Hin). lia.
Qed.

(** With the flags of the stored block only the valid transactions are left. *)
Lemma preprocess_txs_replay (data : list bytes) (i : nat) (f f' F : bytes) (stats : list TxStatInfo) (txs vtxs : list transaction) :
  processors_replay -> preprocess_txs hashFunc customTxProcessors true i data f = (Ret (stats, txs), f') -> Forall2 recoded txs vtxs ->
  Forall (fun v => F !! flag_index v = Some (z2b (tx_validationCode v))) vtxs ->
  (forall k, (i <= k)%nat -> Forall (fun v => flag_index v <> k) vtxs -> F !! k = f' !! k) ->
  exists stats', length stats' = length data /\ preprocess_txs hashFunc customTxProcessors false i data F = (Ret (stats', filter tx_valid vtxs), F).
Proof.
  intros Hp. revert i f stats txs vtxs. induction data as [|d data IH]; intros i f stats txs vtxs; cbn [preprocess_txs].
  - intros [= <- <- <-] ->%Forall2_nil_inv_l _ _. by exists [].
  - intros ([st otx] & f1 & E1 & E)%bind_ret_inv. apply bind_ret_inv in E as ([sts txs'] & f2 & E2 & E). injection E as <- <- <-.
    destruct (preprocess_tx_replay _ _ _ _ _ _ Hp E1) as (Ho & Hfl & Ht). destruct (preprocess_txs_index _ _ _ _ _ _ Hp E2) as (Hk & Hl & Hi & Hn).
    intros Hr HF Hno. unfold mbind, M_bind.
    assert (Hgt : forall vs, Forall2 recoded txs' vs -> Forall (fun v => S i <= flag_index v)%nat vs).
    { intros vs Hvs. apply Forall_forall. intros v Hv. apply (list_elem_of_fmap_2 flag_index) in Hv. rewrite (recoded_index _ _ Hvs) in Hv.
      apply list_elem_of_fmap in Hv as (tx & -> & Htx). rewrite Forall_forall in Hi. by apply Hi. }
    destruct otx as [tx|]; cbn [option_list app] in Hr.
    + apply Forall2_cons_inv_l in Hr as (v & vs & (c & Hc & ->) & Hr & ->). apply Forall_cons in HF as [HFv HF]. destruct Ht as (Hx & Hval & Ht).
      assert (flag_index (set_code c tx) = i) as Hfi by (unfold flag_index; cbn; rewrite Hx; lia). rewrite Hfi in HFv. cbn [tx_validationCode set_code] in HFv.
      destruct (IH (S i) f1 sts txs' vs E2 Hr HF) as (sts' & Hl' & E').
      { intros k Hk' Hall. apply Hno; [lia|]. constructor; [lia|done]. }
      assert (Hcase : exists st', preprocess_tx hashFunc customTxProcessors false i d F = (Ret (st', if decide (tx_valid (set_code c tx)) then Some (set_code c tx) else None), F)).
      { destruct (decide (tx_valid (set_code c tx))) as [Hv|Hv].
        - assert (set_code c tx = tx) as -> by (unfold tx_valid in Hv, Hval; cbn in Hv; subst c; destruct tx; cbn in *; by subst). apply Ht.
          unfold tx_valid in Hv. cbn in Hv. by rewrite HFv, Hv.
        - eexists. apply (Hfl F _ HFv). destruct Hc as [-> |[-> | ->]]; [by destruct Hv|done..]. }
      destruct Hcase as [st' ->]. rewrite E'. exists (st' :: sts'). split; [cbn; by rewrite Hl'|]. rewrite filter_cons. by destruct (decide _).
    + destruct (Ht F) as [st' ->].
      { rewrite (Hno i); [by rewrite Hk by lia|done|]. eapply Forall_impl; [apply (Hgt _ Hr)|]. intros; cbn in *; lia. }
      destruct (IH (S i) f1 sts txs' vtxs E2 Hr HF) as (sts' & Hl' & E').
      { intros k Hk' Hall. apply Hno; [lia|done]. }
      rewrite E'. exists (st' :: sts'). split; [cbn; by rewrite Hl'|done].
Qed.

(** ** The private data *)

(** The two maps have the same data for the valid transactions. *)
Definition same_pvtdata (vtxs : list transaction) (p p' : gmap Z TxPvtData) : Prop :=
  Forall (fun v => p' !! u64 (tx_indexInBlock v) = p !! u64 (tx_indexInBlock v)) (filter tx_valid vtxs).

Lemma add_pvtdata_replay (num : Z) (vtxs : list transaction) (p p' : gmap Z TxPvtData) (acc : UpdateMap * metadataUpdates) :
  same_pvtdata vtxs p p' -> for_range (add_tx_pvtdata num p') (filter tx_valid vtxs) acc = for_range (add_tx_pvtdata num p) vtxs acc.
Proof.
  unfold same_pvtdata. revert acc. induction vtxs as [|v vtxs IH]; intros acc; [done|]. rewrite filter_cons. destruct (decide (tx_valid v)) as [Hv|Hv].
  - intros [Hp Hs]%Forall_cons. cbn [for_range]. assert (add_tx_pvtdata num p' v acc = add_tx_pvtdata num p v acc) as -> by (unfold add_tx_pvtdata; by rewrite Hp).
    destruct (add_tx_pvtdata num p v acc); [apply IH, Hs|done..].
  - intros Hs. cbn [for_range]. assert (add_tx_pvtdata num p v acc = Ret acc) as ->.
    { unfold add_tx_pvtdata. destruct acc as [u m]. by rewrite (proj2 (Z.eqb_neq _ _) Hv). }
    by apply IH.
Qed.

(** ** The batch *)

(** The database does not read versions in bulk into a cache. *)
Hypothesis not_bulk : LoadCommittedVersions (D := D) = None.

(** The block [s] of the store is the validated block [blk], with its flags. *)
Record stored_as (blk s : Block) : Prop := {
  sa_header : Block_Header s = Block_Header blk;
  sa_data : Block_Data s = Block_Data blk;
  sa_flags : block_flags s = block_flags blk }.

(** The private data [p'] are those of [p] for the valid transactions of [s]. *)
Definition pvtdata_kept (s : Block) (p p' : gmap Z TxPvtData) : Prop := forall F i,
  block_flags s = Ret F -> F !! i = Some (z2b TxValidationCode_VALID) -> p' !! u64 (Z.of_nat i) = p !! u64 (Z.of_nat i).

Lemma block_flags_set (blk : Block) (f f' : bytes) : block_flags blk = Ret f -> block_flags (set_block_flags f' blk) = Ret f'.
Proof.
  unfold block_flags, set_block_flags, go_index. destruct blk as [hd data [md|]]; [|done]. cbn.
  destruct (md !! _) eqn:E; [|done]. intros _. rewrite list_lookup_insert_eq; [done|]. by apply lookup_lt_Some in E.
Qed.

Lemma preprocess_block_inv (b b1 : Block) (mvcc : bool) (ib : block) (stats : list TxStatInfo) :
  preprocessProtoBlock hashFunc customTxProcessors b mvcc = Ret (ib, stats, b1) ->
  exists f f' txs, block_flags b = Ret f /\ preprocess_txs hashFunc customTxProcessors mvcc 0 (Block_Data b) f = (Ret (stats, txs), f') /\
    ib = mkblock (Number (Block_Header b)) txs /\ b1 = set_block_flags f' b.
Proof.
  intros (f & Ef & E)%outcome_bind_ret_inv. destruct (preprocess_txs _ _ _ _ _ _) as [r f'] eqn:Ep.
  apply outcome_bind_ret_inv in E as ([st txs] & -> & E). injection E as <- <- <-. by exists f, f', txs.
Qed.

Lemma validate_batch_inv (fuel : nat) (ib ib' : block) (mvcc : bool) (u : publicAndHashUpdates) (db db' : DB D) :
  validateAndPrepareBatch hashFunc fuel ib mvcc db = (Ret (u, ib'), db') -> db' = db /\
  exists vtxs, validate_txs hashFunc fuel db (blk_num ib) mvcc newPubAndHashUpdates (blk_txs ib) = Ret (u, vtxs) /\ ib' = mkblock (blk_num ib) vtxs.
Proof.
  unfold validateAndPrepareBatch, IsBulkOptimizable. rewrite not_bulk. cbn [is_Some_b].
  intros (? & ? & [= <- <-] & E)%bind_ret_inv. apply bind_ret_inv in E as (db1 & ? & [= <- <-] & E).
  apply bind_ret_inv in E as ([u1 vtxs] & db2 & E1 & E). injection E1 as E1 <-. injection E as <- <- <-. split; [done|]. by exists vtxs.
Qed.

Lemma validate_batch_ret (fuel : nat) (num : Z) (mvcc : bool) (txs vtxs : list transaction) (u : publicAndHashUpdates) (db : DB D) :
  validate_txs hashFunc fuel db num mvcc newPubAndHashUpdates txs = Ret (u, vtxs) ->
  validateAndPrepareBatch hashFunc fuel (mkblock num txs) mvcc db = (Ret (u, mkblock num vtxs), db).
Proof.
  intros E. unfold validateAndPrepareBatch, IsBulkOptimizable. rewrite not_bulk. cbn [is_Some_b].
  unfold mbind, M_bind, get_state, lift_outcome. cbn [mret M_ret blk_num blk_txs]. by rewrite E.
Qed.

(** The stored block is prepared to the batch of the received one. *)
Lemma prepare_replay (fuel : nat) (b s blk : Block) (p p' : gmap Z TxPvtData) (db db' : DB D) (batch : PrivUpdateBatch) (stats : list TxStatInfo) :
  processors_replay -> ValidateAndPrepareBatch hashFunc customTxProcessors fuel (mkBlockAndPvtData b p) true db = (Ret (batch, stats, blk), db') ->
  stored_as blk s -> pvtdata_kept s p p' ->
  db' = db /\ Block_Header blk = Block_Header b /\ Block_Data blk = Block_Data b /\
  exists stats', ValidateAndPrepareBatch hashFunc customTxProcessors fuel (mkBlockAndPvtData s p') false db = (Ret (batch, stats', s), db).
Proof.
  intros Hp E [Hh Hd Hf] Hk. unfold ValidateAndPrepareBatch in E. cbn [bp_Block bp_PvtData] in E.
  apply bind_ret_inv in E as ([[ib st] b1] & ? & E1 & E). injection E1 as E1 <-. apply preprocess_block_inv in E1 as (f & f' & txs & Ef & Ep & -> & ->).
  apply bind_ret_inv in E as ([u ib'] & ? & E1 & E). apply validate_batch_inv in E1 as (-> & vtxs & Ev & ->). cbn [blk_num blk_txs] in Ev.
  apply bind_ret_inv in E as (? & ? & [= <- <-] & E). apply bind_ret_inv in E as (pu & ? & E1 & E). injection E1 as Epv <-.
  apply bind_ret_inv in E as (b2 & ? & E1 & E). injection E1 as E1 <-. unfold postprocessProtoBlock in E1. cbn [blk_txs] in E1.
  rewrite (block_flags_set b f f' Ef) in E1. cbn [mbind outcome_bind] in E1. destruct (set_flags vtxs f') as [[[]| |] F] eqn:EF; [|done..]. injection E1 as <-.
  apply bind_ret_inv in E as (F' & ? & E1 & E). injection E1 as E1 <-. rewrite (block_flags_set _ f' F) in E1 by (by apply (block_flags_set b f)). injection E1 as <-.
  apply bind_ret_inv in E as (st' & ? & E1 & E). injection E1 as Est <-. injection E as <- <- <- <-.
  split; [done|]. split; [done|]. split; [done|].
  assert (HsF : block_flags s = Ret F) by (rewrite Hf; apply (block_flags_set _ f'), (block_flags_set b f), Ef).
  destruct (validate_txs_replay _ _ _ _ _ _ _ Ev) as [Hr Ev']. destruct (preprocess_txs_index _ _ _ _ _ _ Hp Ep) as (_ & Hl & Hi & Hn).
  assert (HF : Forall (fun v => F !! flag_index v = Some (z2b (tx_validationCode v))) vtxs).
  { apply Forall_forall. intros v Hv. apply (set_flags_code vtxs f' F v EF); [|done]. change (NoDup (flag_index <$> vtxs)). by rewrite (recoded_index _ _ Hr). }
  destruct (preprocess_txs_replay _ _ _ _ F _ _ vtxs Hp Ep Hr HF) as (st2 & Hl2 & Ep').
  { intros k _ Hall. by apply (set_flags_index vtxs f' F k EF). }
  assert (HF' : Forall (fun v => F !! flag_index v = Some (z2b (tx_validationCode v))) (filter tx_valid vtxs)).
  { apply Forall_forall. intros v [_ Hv]%list_elem_of_filter. rewrite Forall_forall in HF. by apply HF. }
  assert (exists s2, stat_codes F st2 = Ret s2) as [s2 Es2] by (apply stat_codes_ret; rewrite Hl2, <- Hl; apply stat_codes_ret; eauto).
  cbn in Hh, Hd. exists s2. unfold ValidateAndPrepareBatch. cbn [bp_Block bp_PvtData]. unfold mbind at 1, M_bind at 1, lift_outcome at 1.
  unfold preprocessProtoBlock. rewrite HsF, Hd. cbn [mbind outcome_bind]. rewrite Ep', (set_block_flags_same _ _ HsF), Hh. cbn [mbind outcome_bind].
  unfold mbind at 1, M_bind at 1. rewrite (validate_batch_ret _ _ _ _ _ _ _ Ev'). unfold mbind at 1, M_bind at 1, get_state.
  unfold mbind at 1, M_bind at 1, lift_outcome at 1. unfold validateAndPreparePvtBatch in Epv |- *. cbn [blk_num blk_txs] in Epv |- *.
  rewrite (add_pvtdata_replay _ _ p p'); [rewrite Epv|].
  2: { apply Forall_forall. intros v Hv. rewrite Forall_forall in HF'. pose proof (HF' v Hv) as HFv. apply list_elem_of_filter in Hv as [Hv Hin].
    rewrite Hv in HFv. pose proof (Hk F _ HsF HFv) as Hkv. unfold flag_index in Hkv. rewrite Z2Nat.id in Hkv; [done|]. eapply recoded_nonneg; [exact Hr| |exact Hin].
    eapply Forall_impl; [exact Hi|]. by intros ? []. }
  unfold mbind at 1, M_bind at 1, lift_outcome at 1. unfold postprocessProtoBlock. rewrite HsF. cbn [mbind outcome_bind blk_txs].
  rewrite (set_flags_same _ _ HF'), (set_block_flags_same _ _ HsF). cbn [mbind outcome_bind].
  unfold mbind, M_bind, lift_outcome. by rewrite HsF, Es2.
Qed.

End Replay.

(** ** The transaction manager *)

Section Manager.
Context {PR : Protos} {SP : StateProtos} {UC : Codec Updates_msg} {PK : Codec PvtdataKeysMsg} {BP : BTLPolicy}.
Context {D : Type} {VD : VersionedDB D} {QD : QueryDB D} {CC : DeployedChaincodeInfoProvider}.
Variable hashFunc : bytes -> outcome bytes.
Variable customTxProcessors : Z -> option (CustomTxProcessor (D := D)).
Variable stateListeners : list (StateListener (D := D)).
Variable fuel : nat.
Abbreviation txmgr := (LockBasedTxMgr (D := D)).

(** What the commit of a block that comes from the network does to the transaction
    manager; the result is the block as it goes to the block store, but for the commit
    hash. *)
Definition commit_block (bp : BlockAndPvtData) : M txmgr Block :=
  _ ← ValidateAndPrepare hashFunc customTxProcessors stateListeners fuel bp true;
  t ← get_state;
  match tm_current t with
  | None => panic "nil pointer dereference"
  | Some c => _ ← Commit; mret (cur_block c)
  end.

Fixpoint commit_blocks (bps : list BlockAndPvtData) : M txmgr (list Block) :=
  match bps with
  | [] => mret []
  | bp :: bps' => b ← commit_block bp; bs ← commit_blocks bps'; mret (b :: bs)
  end.

(** The manager on the databases that a stopped one has left. *)
Definition restarted (t : txmgr) : txmgr :=
  NewLockBasedTxMgr (mkDB (db_vdb (clearCache (tm_db t))) (newMetadataHint (mh_bookkeeper (db_hint (tm_db t))))) (pm_expKeeper (tm_pvtdataPurgeMgr t)).

Hypothesis not_bulk : LoadCommittedVersions (D := D) = None.

(** What [Commit] uses of the current block. *)
Record same_current (c c' : current) : Prop := {
  sc_num : blockNum c' = blockNum c;
  sc_max : maxTxNumber c' = maxTxNumber c;
  sc_batch : cur_batch c' = cur_batch c;
  sc_listeners : cur_listeners c' = cur_listeners c }.

Lemma invoke_listeners_same (db : DB D) (c c' : current) (ls : list StateListener) :
  blockNum c' = blockNum c -> cur_batch c' = cur_batch c -> invoke_listeners db c' ls = invoke_listeners db c ls.
Proof. intros Hn Hb. induction ls as [|l ls IH]; [done|]. cbn [invoke_listeners]. by rewrite IH, Hn, Hb. Qed.

Lemma set_db_same (t : txmgr) : set_db (tm_db t) t = t.
Proof. by destruct t. Qed.

Lemma VAPB_db (bp : BlockAndPvtData) (mvcc : bool) (db db' : DB D) r :
  ValidateAndPrepareBatch hashFunc customTxProcessors fuel bp mvcc db = (Ret r, db') -> db' = db.
Proof.
  unfold ValidateAndPrepareBatch. intros ([[ib st] b1] & ? & [= _ <-] & E)%bind_ret_inv.
  apply bind_ret_inv in E as ([u ib'] & ? & E1 & E). apply validate_batch_inv in E1 as (-> & _); [|done].
  apply bind_ret_inv in E as (? & ? & [= _ <-] & E). repeat (apply bind_ret_inv in E as (? & ? & [= _ <-] & E)). by injection E.
Qed.

(** Preparing a block, and preparing it again from the store. *)
Lemma ValidateAndPrepare_inv (bp : BlockAndPvtData) (mvcc : bool) (t t1 : txmgr) r :
  ValidateAndPrepare hashFunc customTxProcessors stateListeners fuel bp mvcc t = (Ret r, t1) ->
  exists blk batch stats invoked bs, ValidateAndPrepareBatch hashFunc customTxProcessors fuel bp mvcc (tm_db t) = (Ret (batch, stats, blk), tm_db t) /\
    invoke_listeners (tm_db t) (mkcurrent blk batch []) stateListeners = Ret invoked /\ deterministicBytesForPubAndHashUpdates batch = Ret bs /\
    t1 = set_current (Some (mkcurrent blk batch invoked)) t.
Proof.
  unfold ValidateAndPrepare, on_db. destruct (ValidateAndPrepareBatch _ _ _ _ _ _) as [[[[batch stats] blk]| |] db] eqn:E; [|done..].
  pose proof (VAPB_db _ _ _ _ _ E) as ->. rewrite set_db_same. destruct (invoke_listeners _ _ _) as [invoked| |] eqn:Ei; [|done..].
  intros [= Eb <-]. apply outcome_bind_ret_inv in Eb as (bs & Eb & _). by exists blk, batch, stats, invoked, bs.
Qed.

Lemma ValidateAndPrepare_ret (bp : BlockAndPvtData) (mvcc : bool) (t : txmgr) blk batch stats invoked bs :
  ValidateAndPrepareBatch hashFunc customTxProcessors fuel bp mvcc (tm_db t) = (Ret (batch, stats, blk), tm_db t) ->
  invoke_listeners (tm_db t) (mkcurrent blk batch []) stateListeners = Ret invoked -> deterministicBytesForPubAndHashUpdates batch = Ret bs ->
  ValidateAndPrepare hashFunc customTxProcessors stateListeners fuel bp mvcc t = (Ret (stats, bs), set_current (Some (mkcurrent blk batch invoked)) t).
Proof. intros E Ei Eb. unfold ValidateAndPrepare, on_db. by rewrite E, set_db_same, Ei, Eb. Qed.

(** ** Commit *)

Lemma preload_none (m : expiryInfoMap) (db : DB D) : preloadCommittedVersionsInCache m db = (Ret tt, db).
Proof. unfold preloadCommittedVersionsInCache. by rewrite not_bulk. Qed.

Lemma prepareWorkingset_db (n : Z) (k : kvmap) (db db' : DB D) ws : prepareWorkingsetFor n k db = (Ret ws, db') -> db' = db.
Proof.
  unfold prepareWorkingsetFor. destruct (keeper_retrieve n k); [|by intros [= _ <-]|done]. rewrite preload_none.
  destruct (evaluate_entries _ _ _) as [[]| |]; [by intros [= _ <-]..|done].
Qed.

Lemma clearCache_none (db : DB D) : clearCache db = db.
Proof. unfold clearCache, IsBulkOptimizable. by rewrite not_bulk. Qed.

(** The keys that expire with block [n] are prepared. *)
Definition prepared (n : Z) (t : txmgr) : Prop := exists ws,
  pm_workingset (tm_pvtdataPurgeMgr t) = Some ws /\ prepareWorkingsetFor n (pm_expKeeper (tm_pvtdataPurgeMgr t)) (tm_db t) = (Ret ws, tm_db t).

Lemma commit_body_core (c c' : current) (t t' r : txmgr) :
  commit_body c t = (Ret tt, t') -> same_current c c' -> tm_db r = tm_db t -> tm_pvtdataPurgeMgr r = tm_pvtdataPurgeMgr t ->
  commit_body c' r = (Ret tt, mkLockBasedTxMgr (tm_db t') (tm_pvtdataPurgeMgr t') (tm_usedOnce r) (tm_current r) (tm_notified r ++ cur_listeners c)) /\
  tm_notified t' = tm_notified t ++ cur_listeners c /\ tm_usedOnce t' = tm_usedOnce t.
Proof.
  intros E [Hn Hm Hb Hl] Hd Hp. destruct t as [db p u cu no], r as [db' p' u' cu' no']. cbn in Hd, Hp. subst db' p'.
  unfold commit_body, UpdateExpiryInfo_step, on_db, mbind, M_bind, get_state, lift_outcome, modify_state, set_purge, set_db in E |- *.
  rewrite Hn, Hm, Hb, Hl. cbn [tm_db tm_pvtdataPurgeMgr tm_usedOnce tm_current tm_notified] in E |- *.
  destruct (UpdateExpiryInfo _ _ _) as [p1| |]; [|done..]. cbn [tm_db tm_pvtdataPurgeMgr tm_usedOnce tm_current tm_notified] in E |- *.
  destruct (AddExpiredEntriesToUpdateBatch _ _ _) as [[pu hu]| |]; [|done..]. cbn [tm_db tm_pvtdataPurgeMgr tm_usedOnce tm_current tm_notified] in E |- *.
  destruct (ApplyPrivacyAwareUpdates _ _ _) as [[[]| |] db1]; [|done..]. cbn [tm_db tm_pvtdataPurgeMgr tm_usedOnce tm_current tm_notified] in E |- *.
  destruct (BlockCommitDone p1) as [p2| |]; [|done..]. injection E as <-. done.
Qed.

(** The purge manager with which the updates of the current block are made. *)
Definition begins (n : Z) (t : txmgr) (p : PurgeMgr) : Prop :=
  if tm_usedOnce t then p = tm_pvtdataPurgeMgr t else
  exists ws, prepareWorkingsetFor n (pm_expKeeper (tm_pvtdataPurgeMgr t)) (tm_db t) = (Ret ws, tm_db t) /\
    p = mkPurgeMgr (pm_expKeeper (tm_pvtdataPurgeMgr t)) (Some ws).

Lemma PrepareForExpiringKeys_inv (n : Z) (t t' : txmgr) :
  on_purge (PrepareForExpiringKeys n) t = (Ret tt, t') -> exists ws,
    prepareWorkingsetFor n (pm_expKeeper (tm_pvtdataPurgeMgr t)) (tm_db t) = (Ret ws, tm_db t) /\
    t' = set_purge (mkPurgeMgr (pm_expKeeper (tm_pvtdataPurgeMgr t)) (Some ws)) t.
Proof.
  unfold on_purge, PrepareForExpiringKeys. destruct (prepareWorkingsetFor _ _ _) as [[ws| |] db] eqn:E; [|done..]. intros [= <-].
  pose proof (prepareWorkingset_db _ _ _ _ _ E) as ->. exists ws. by rewrite set_db_same.
Qed.

Lemma PrepareForExpiringKeys_ret (n : Z) (t : txmgr) (ws : workingset) :
  prepareWorkingsetFor n (pm_expKeeper (tm_pvtdataPurgeMgr t)) (tm_db t) = (Ret ws, tm_db t) ->
  on_purge (PrepareForExpiringKeys n) t = (Ret tt, set_purge (mkPurgeMgr (pm_expKeeper (tm_pvtdataPurgeMgr t)) (Some ws)) t).
Proof. intros E. unfold on_purge, PrepareForExpiringKeys. by rewrite E, set_db_same. Qed.

(** A commit that succeeds, and what a commit with the same updates does. *)
Record commit_run (c : current) (t : txmgr) (p : PurgeMgr) (db' : DB D) (k' : kvmap) (ws' : workingset) : Prop := {
  cm_body : exists t1, commit_body c (mkLockBasedTxMgr (tm_db t) p true (tm_current t) (tm_notified t)) = (Ret tt, t1) /\
    tm_db t1 = db' /\ pm_expKeeper (tm_pvtdataPurgeMgr t1) = k';
  cm_next : prepareWorkingsetFor (u64 (blockNum c + 1)) k' db' = (Ret ws', db') }.

Definition committed (c : current) (t : txmgr) (db' : DB D) (k' : kvmap) (ws' : workingset) : txmgr :=
  mkLockBasedTxMgr db' (mkPurgeMgr k' (Some ws')) true None (tm_notified t ++ cur_listeners c).

Lemma Commit_inv (t t' : txmgr) : Commit t = (Ret tt, t') -> exists c p db' k' ws',
  tm_current t = Some c /\ begins (blockNum c) t p /\ commit_run c t p db' k' ws' /\ t' = committed c t db' k' ws'.
Proof.
  unfold Commit. destruct (tm_current t) as [c|] eqn:Ec; [|done].
  assert (Hend : forall p t0, t0 = mkLockBasedTxMgr (tm_db t) p true (tm_current t) (tm_notified t) -> forall r t1,
    commit_body c t0 = (r, t1) -> match on_purge (PrepareForExpiringKeys (u64 (blockNum c + 1))) t1 with
      | (Ret _, t) => (r, set_current None t) | (Err e, t) => (Err e, t) | (Panic msg, t) => (Panic msg, t) end = (Ret tt, t') ->
    exists db' k' ws', commit_run c t p db' k' ws' /\ t' = committed c t db' k' ws').
  { intros p t0 Ht0 r t1 Eb E. destruct (on_purge _ t1) as [[[]| |] t2] eqn:Eq; [|done..]. injection E as -> <-.
    destruct (PrepareForExpiringKeys_inv _ _ _ Eq) as (ws & Ew & ->).
    destruct (commit_body_core c c t0 t1 t0 Eb) as (_ & Hno & Hu); [by split..|]. rewrite Ht0 in Hno, Hu. cbn in Hno, Hu.
    exists (tm_db t1), (pm_expKeeper (tm_pvtdataPurgeMgr t1)), ws. split; [split; [exists t1; by subst t0|done]|].
    unfold committed, set_current, set_purge. cbn. by rewrite Hno, Hu. }
  unfold begins. destruct (tm_usedOnce t) eqn:Eu.
  - destruct (commit_body c t) as [r t1] eqn:Eb. intros E. destruct (Hend (tm_pvtdataPurgeMgr t) t ltac:(by rewrite <- Eu; destruct t) r t1 Eb E) as (db' & k' & ws' & H).
    by exists c, (tm_pvtdataPurgeMgr t), db', k', ws'.
  - destruct (on_purge _ t) as [[[]| |] t0] eqn:Eq; [|done..]. destruct (PrepareForExpiringKeys_inv _ _ _ Eq) as (ws & Ew & ->).
    match goal with |- context [commit_body c ?x] => destruct (commit_body c x) as [r t1] eqn:Eb end. intros E.
    destruct (Hend _ _ eq_refl r t1 Eb E) as (db' & k' & ws' & H). by exists c, (mkPurgeMgr (pm_expKeeper (tm_pvtdataPurgeMgr t)) (Some ws)), db', k', ws'; eauto.
Qed.

Lemma Commit_ret (c c' : current) (t r : txmgr) (p : PurgeMgr) (db' : DB D) (k' : kvmap) (ws' : workingset) :
  commit_run c t p db' k' ws' -> same_current c c' -> tm_db r = tm_db t -> tm_current r = Some c' -> begins (blockNum c) r p ->
  Commit r = (Ret tt, committed c r db' k' ws').
Proof.
  intros [(t1 & Eb & <- & <-) En] Hc Hd Ec Hb. unfold Commit. rewrite Ec.
  assert (Hend : forall r0, r0 = mkLockBasedTxMgr (tm_db r) p true (tm_current r) (tm_notified r) ->
    (let '(r, t) := commit_body c' r0 in match on_purge (PrepareForExpiringKeys (u64 (blockNum c' + 1))) t with
      | (Ret _, t) => (r, set_current None t) | (Err e, t) => (Err e, t) | (Panic msg, t) => (Panic msg, t) end) =
    (Ret tt, committed c r (tm_db t1) (pm_expKeeper (tm_pvtdataPurgeMgr t1)) ws')).
  { intros r0 ->. destruct (commit_body_core c c' _ t1 (mkLockBasedTxMgr (tm_db r) p true (tm_current r) (tm_notified r)) Eb Hc) as (-> & _); [done..|].
    rewrite (sc_num _ _ Hc), (PrepareForExpiringKeys_ret _ _ ws'); done. }
  unfold begins in Hb. destruct (tm_usedOnce r) eqn:Eu.
  - apply Hend. subst p. rewrite <- Eu. by destruct r.
  - destruct Hb as (ws & Ew & ->). rewrite <- (sc_num _ _ Hc) in Ew. rewrite (PrepareForExpiringKeys_ret _ _ ws Ew). by apply Hend.
Qed.

(** ** Blocks of the store, and a manager that is opened again *)

Lemma commit_block_inv (bp : BlockAndPvtData) (t t' : txmgr) (b : Block) : commit_block bp t = (Ret b, t') -> exists batch stats invoked bs,
  ValidateAndPrepareBatch hashFunc customTxProcessors fuel bp true (tm_db t) = (Ret (batch, stats, b), tm_db t) /\
  invoke_listeners (tm_db t) (mkcurrent b batch []) stateListeners = Ret invoked /\ deterministicBytesForPubAndHashUpdates batch = Ret bs /\
  Commit (set_current (Some (mkcurrent b batch invoked)) t) = (Ret tt, t').
Proof.
  intros (r & t1 & E & E')%bind_ret_inv. apply ValidateAndPrepare_inv in E as (blk & batch & stats & invoked & bs & Ev & Ei & Eb & ->).
  apply bind_ret_inv in E' as (? & ? & [= <- <-] & E'). cbn [tm_current set_current] in E'. apply bind_ret_inv in E' as ([] & t2 & Ec & E').
  injection E' as <- <-. by exists batch, stats, invoked, bs.
Qed.

(** The block of the store brings the manager to where the received one brings it. *)
Lemma CommitLostBlock_replay (b s blk : Block) (p p' : gmap Z TxPvtData) (t t' : txmgr) :
  processors_replay customTxProcessors -> commit_block (mkBlockAndPvtData b p) t = (Ret blk, t') -> stored_as blk s -> pvtdata_kept s p p' ->
  CommitLostBlock hashFunc customTxProcessors stateListeners fuel (mkBlockAndPvtData s p') t = (Ret tt, t').
Proof.
  intros Hp (batch & stats & invoked & bs & Ev & Ei & Eb & Ec)%commit_block_inv Hs Hk.
  destruct (prepare_replay hashFunc customTxProcessors not_bulk fuel b s blk p p' _ _ batch stats Hp Ev Hs Hk) as (_ & _ & _ & stats' & Ev').
  unfold CommitLostBlock, mbind, M_bind. rewrite (ValidateAndPrepare_ret _ _ _ s batch stats' invoked bs Ev'); [|rewrite <- Ei; apply invoke_listeners_same; [unfold blockNum; cbn; by rewrite (sa_header _ _ Hs)|done]|done].
  apply Commit_inv in Ec as (c & q & db' & k' & ws' & [= <-] & Hb & Hr & ->). rewrite (Commit_ret _ (mkcurrent s batch invoked) _ _ q db' k' ws' Hr); [done| |done..].
  split; [unfold blockNum; cbn; by rewrite (sa_header _ _ Hs)|unfold maxTxNumber; cbn; by rewrite (sa_data _ _ Hs)|done|done].
Qed.

(** The manager [r] goes on from where [t] is, before block [n]. *)
Record resumes (n : Z) (t r : txmgr) : Prop := {
  rs_db : tm_db r = tm_db t;
  rs_keeper : pm_expKeeper (tm_pvtdataPurgeMgr r) = pm_expKeeper (tm_pvtdataPurgeMgr t);
  rs_begins : forall p, begins n t p -> begins n r p }.

Lemma commit_block_resumes (bp : BlockAndPvtData) (t t' r : txmgr) (b : Block) :
  commit_block bp t = (Ret b, t') -> resumes (Number (Block_Header b)) t r ->
  exists r', commit_block bp r = (Ret b, r') /\ resumes (u64 (Number (Block_Header b) + 1)) t' r' /\ prepared (u64 (Number (Block_Header b) + 1)) t' /\ tm_usedOnce t' = true.
Proof.
  intros (batch & stats & invoked & bs & Ev & Ei & Eb & Ec)%commit_block_inv [Hd Hk Hb].
  apply Commit_inv in Ec as (c & q & db' & k' & ws' & [= <-] & Hq & Hr & ->). pose proof (cm_next _ _ _ _ _ _ Hr) as Hn.
  eexists. split; [|split; [|split; [exists ws'; by split|done]]].
  - unfold commit_block, mbind, M_bind. rewrite (ValidateAndPrepare_ret bp true r b batch stats invoked bs); [|rewrite ?Hd; done..].
    cbn [get_state tm_current set_current].
    rewrite (Commit_ret _ (mkcurrent b batch invoked) _ (set_current (Some (mkcurrent b batch invoked)) r) q db' k' ws' Hr); [done|by split|done|done|]. by apply Hb.
  - by split.
Qed.

Lemma restarted_resumes (n : Z) (t : txmgr) :
  tm_usedOnce t = false \/ prepared n t -> mh_cache (db_hint (tm_db t)) = dom (mh_bookkeeper (db_hint (tm_db t))) -> resumes n t (restarted t).
Proof.
  intros Hp Hh. assert (Hdb : tm_db (restarted t) = tm_db t).
  { unfold restarted. cbn. rewrite clearCache_none. destruct (tm_db t) as [d [cache bk]]. cbn in Hh |- *. f_equal.
    pose proof (newMetadataHint_durable bk) as H. unfold newMetadataHint in H |- *. cbn [mh_cache mh_bookkeeper] in H |- *. by rewrite H, Hh. }
  split; [done|done|]. intros p. unfold begins. rewrite Hdb. cbn [tm_usedOnce restarted NewLockBasedTxMgr tm_pvtdataPurgeMgr pm_expKeeper].
  destruct (tm_usedOnce t); [|done]. intros ->. destruct Hp as [?|(ws & Hw & Hp)]; [done|]. exists ws. split; [done|].
  destruct (tm_pvtdataPurgeMgr t) as [k w]. cbn in Hw |- *. by rewrite Hw.
Qed.

(** The hint on metadata stays the one that can be read back. *)
Definition hint_durable (t : txmgr) : Prop := mh_cache (db_hint (tm_db t)) = dom (mh_bookkeeper (db_hint (tm_db t))).

Lemma commit_body_durable (c : current) (t t' : txmgr) : commit_body c t = (Ret tt, t') -> hint_durable t -> hint_durable t'.
Proof.
  intros E Hh. unfold commit_body, UpdateExpiryInfo_step in E. apply bind_ret_inv in E as ([] & t1 & E1 & E).
  apply bind_ret_inv in E1 as (? & ? & [= <- <-] & E1). apply bind_ret_inv in E1 as (p & ? & [= _ <-] & E1). injection E1 as <-.
  apply bind_ret_inv in E as (? & ? & [= <- <-] & E). apply bind_ret_inv in E as ([pu hu] & ? & [= _ <-] & E).
  apply bind_ret_inv in E as ([] & t2 & E2 & E). apply bind_ret_inv in E as ([] & t3 & E3 & E).
  assert (Hh2 : hint_durable t2).
  { unfold on_db, ApplyPrivacyAwareUpdates in E2. destruct (ApplyUpdates _ _ _) as [r d]. injection E2 as _ <-. unfold hint_durable. cbn.
    by apply setMetadataUsedFlag_spec. }
  unfold on_db, modify_state in E3. injection E3 as <-. apply bind_ret_inv in E as (? & ? & [= <- <-] & E). apply bind_ret_inv in E as (? & ? & [= _ <-] & E).
  injection E as <-. unfold hint_durable. cbn. by rewrite clearCache_none.
Qed.

Lemma commit_block_durable (bp : BlockAndPvtData) (t t' : txmgr) (b : Block) : commit_block bp t = (Ret b, t') -> hint_durable t -> hint_durable t'.
Proof.
  intros (batch & stats & invoked & bs & Ev & Ei & Eb & Ec)%commit_block_inv Hh.
  apply Commit_inv in Ec as (c & q & db' & k' & ws' & [= <-] & Hq & [(t1 & E & <- & _) _] & ->). by apply (commit_body_durable _ _ _ E).
Qed.

(** ** Runs *)

Definition numbered (n : Z) (bs : list Block) : Prop := forall i b, bs !! i = Some b -> Number (Block_Header b) = n + Z.of_nat i.

Lemma numbered_cons (n : Z) (b : Block) (bs : list Block) : numbered n (b :: bs) -> Number (Block_Header b) = n /\ numbered (n + 1) bs.
Proof. intros H. split; [specialize (H 0%nat b eq_refl); lia|]. intros i x Hx. specialize (H (S i) x Hx). lia. Qed.

(** A run with every step resumed by another manager. *)
Lemma commit_blocks_resumes (bps : list BlockAndPvtData) (n : Z) (t t' r : txmgr) (bs : list Block) :
  commit_blocks bps t = (Ret bs, t') -> numbered n bs -> 0 <= n -> n + zlen bs < 2 ^ 64 -> resumes n t r ->
  exists r', commit_blocks bps r = (Ret bs, r') /\ resumes (n + zlen bs) t' r'.
Proof.
  revert n t r bs. induction bps as [|bp bps IH]; intros n t r bs; cbn [commit_blocks].
  - intros [= <- <-] _ _ _ Hr. exists r. by rewrite Z.add_0_r.
  - intros (b & t1 & E1 & E)%bind_ret_inv. apply bind_ret_inv in E as (bs' & t2 & E2 & E). injection E as <- <-. intros [Hb Hbs]%numbered_cons Hn Hlt Hr.
    rewrite zlen_cons in Hlt |- *. pose proof (zlen_nonneg bs'). destruct (commit_block_resumes bp t t1 r b E1) as (r1 & Er1 & Hr1 & _); [by rewrite Hb|].
    rewrite Hb, u64_id in Hr1 by (unfold is_u64; lia). destruct (IH (n + 1) t1 r1 bs' E2 Hbs) as (r2 & Er2 & Hr2); [lia|lia|done|].
    exists r2. unfold mbind, M_bind. rewrite Er1, Er2. replace (n + (1 + zlen bs')) with (n + 1 + zlen bs') by lia. done.
Qed.

(** A run from a new manager leaves what a restarted one needs. *)
Lemma commit_blocks_ready (bps : list BlockAndPvtData) (n : Z) (t t' : txmgr) (bs : list Block) :
  commit_blocks bps t = (Ret bs, t') -> numbered n bs -> 0 <= n -> n + zlen bs < 2 ^ 64 -> tm_usedOnce t = false \/ prepared n t -> hint_durable t ->
  (tm_usedOnce t' = false \/ prepared (n + zlen bs) t') /\ hint_durable t'.
Proof.
  revert n t bs. induction bps as [|bp bps IH]; intros n t bs; cbn [commit_blocks].
  - intros [= <- <-] _ _ _ Hr Hh. by rewrite Z.add_0_r.
  - intros (b & t1 & E1 & E)%bind_ret_inv. apply bind_ret_inv in E as (bs' & t2 & E2 & E). injection E as <- <-. intros [Hb Hbs]%numbered_cons Hn Hlt Hr Hh.
    rewrite zlen_cons in Hlt |- *. pose proof (zlen_nonneg bs'). destruct (commit_block_resumes bp t t1 t b E1) as (r1 & _ & _ & Hp & _); [by split|].
    rewrite Hb, u64_id in Hp by (unfold is_u64; lia). replace (n + (1 + zlen bs')) with (n + 1 + zlen bs') by lia.
    apply (IH (n + 1) t1 bs' E2 Hbs); [lia|lia|by right|by apply (commit_block_durable _ _ _ _ E1)].
Qed.

Lemma commit_block_header (bp : BlockAndPvtData) (t t' : txmgr) (b : Block) : commit_block bp t = (Ret b, t') -> Block_Header b = Block_Header (bp_Block bp).
Proof.
  intros (batch & stats & invoked & bs & Ev & _)%commit_block_inv. unfold ValidateAndPrepareBatch in Ev.
  apply bind_ret_inv in Ev as ([[ib st] b1] & ? & [= E1 <-] & E). apply preprocess_block_inv in E1 as (f & f' & txs & _ & _ & _ & ->).
  apply bind_ret_inv in E as ([u ib'] & ? & _ & E). apply bind_ret_inv in E as (? & ? & _ & E). apply bind_ret_inv in E as (? & ? & _ & E).
  apply bind_ret_inv in E as (b2 & ? & [= E2 _] & E). apply bind_ret_inv in E as (? & ? & _ & E). apply bind_ret_inv in E as (? & ? & _ & E). injection E as _ _ <- _.
  unfold postprocessProtoBlock in E2. apply outcome_bind_ret_inv in E2 as (fl & _ & E2). destruct (set_flags _ _) as [[[]| |] F]; [|done..]. by injection E2 as <-.
Qed.

Lemma commit_blocks_header (bps : list BlockAndPvtData) (t t' : txmgr) (bs : list Block) :
  commit_blocks bps t = (Ret bs, t') -> Block_Header <$> bs = (fun bp => Block_Header (bp_Block bp)) <$> bps.
Proof.
  revert t bs. induction bps as [|bp bps IH]; intros t bs; cbn [commit_blocks]; [by intros [= <- _]|].
  intros (b & t1 & E1 & E)%bind_ret_inv. apply bind_ret_inv in E as (bs' & t2 & E2 & E). injection E as <- <-.
  cbn [fmap list_fmap]. by rewrite (IH t1 bs' E2), (commit_block_header _ _ _ _ E1).
Qed.

Lemma numbered_headers (n : Z) (bs bs' : list Block) : Block_Header <$> bs = Block_Header <$> bs' -> numbered n bs -> numbered n bs'.
Proof.
  intros H Hn i b Hb. apply (f_equal (fun l => l !! i)) in H. rewrite !list_lookup_fmap, Hb in H. cbn in H.
  destruct (bs !! i) as [b0|] eqn:E; [|done]. injection H as H. rewrite <- H. by apply Hn.
Qed.

(** The manager on what was left before block [n] goes on as the one that did not stop. *)
Lemma restarted_run (before after : list BlockAndPvtData) (t t1 t2 t' : txmgr) (bs0 bs1 bs : list Block) (n : Z) :
  tm_usedOnce t = false -> hint_durable t -> commit_blocks before t = (Ret bs0, t1) -> numbered 0 bs0 -> zlen bs0 = n ->
  commit_blocks after t1 = (Ret bs1, t2) -> commit_blocks after (restarted t1) = (Ret bs, t') -> numbered n bs -> n + zlen bs < 2 ^ 64 ->
  tm_db t' = tm_db t2 /\ pm_expKeeper (tm_pvtdataPurgeMgr t') = pm_expKeeper (tm_pvtdataPurgeMgr t2).
Proof.
  intros Hu Hh E0 H0 Hn E1 E Hbs Hlt. pose proof (zlen_nonneg bs0). pose proof (zlen_nonneg bs).
  assert (Heq : Block_Header <$> bs = Block_Header <$> bs1) by (by rewrite (commit_blocks_header _ _ _ _ E), (commit_blocks_header _ _ _ _ E1)).
  assert (zlen bs1 = zlen bs) as Hl by (apply (f_equal length) in Heq; rewrite !length_fmap in Heq; unfold zlen; lia).
  destruct (commit_blocks_ready before 0 t t1 bs0 E0 H0) as [Hp Hd]; [lia|lia|by left|done|]. rewrite Z.add_0_l, Hn in Hp.
  destruct (commit_blocks_resumes after n t1 t2 (restarted t1) bs1 E1 (numbered_headers _ _ _ Heq Hbs)) as (r & Er & [Hdb Hk _]); [lia|lia|by apply restarted_resumes|].
  rewrite E in Er. by injection Er as -> ->.
Qed.

(** What the stores keep of a block that was committed as [b]. *)
Definition kept (bp : BlockAndPvtData) (b : Block) (s : BlockAndPvtData) : Prop :=
  stored_as b (bp_Block s) /\ pvtdata_kept (bp_Block s) (bp_PvtData bp) (bp_PvtData s).

Lemma lost_tx_replay (bps lost : list BlockAndPvtData) (t t' : txmgr) (bs : list Block) :
  processors_replay customTxProcessors -> commit_blocks bps t = (Ret bs, t') -> Forall3 kept bps bs lost ->
  lost_tx hashFunc customTxProcessors stateListeners fuel lost t = (Ret tt, t').
Proof.
  intros Hp. revert t bs lost. induction bps as [|bp bps IH]; intros t bs lost; cbn [commit_blocks].
  - intros [= <- <-] H. by inversion H.
  - intros (b & t1 & E1 & E)%bind_ret_inv. apply bind_ret_inv in E as (bs' & t2 & E2 & E). injection E as <- <-. intros H. apply Forall3_cons_inv_l in H as (? & ? & [sb sp] & ls & [= <- <-] & -> & [Hs Hk] & Hl).
    destruct bp as [rb pd]. cbn in Hs, Hk. cbn [lost_tx]. unfold mbind, M_bind. rewrite (CommitLostBlock_replay rb sb b pd sp t t1 Hp E1 Hs Hk). by apply (IH t1 bs').
Qed.

End Manager.
