(* ===== verification/LedgerExamples.v ===== *)
(** * A concrete peer

    One name space, one collection whose data live for one block, and a transaction
    that writes a public and a private key: the inputs on which the theorems about the
    ledger are applied. *)

From S2P Require Import Prelude Wire OrderedCode LevelDB Sha256 Proto Block StateProto StateDB StateDBOk PrivState PrivStateOk RwSet RwSetOk Validation ValidationOk Serializable StateTheorems RwSetBuilder RwSetBuilderOk Simulator SimulatorOk BatchPreparer BatchPreparerOk PurgeMgr PurgeMgrOk QueryUtil TxMgr ExpiryOk OldPvtDataOk TxRun.

Lemma wire_Marshal_nonempty {A} {W : Wire A} (zero : option A) (a : A) : Marshal (Codec := wire_codec A zero) a <> [].
Proof. apply wr_nonempty. Qed.

#[global] Existing Instances wire_protos wire_protos_ok wire_state_protos wire_state_protos_ok.

#[global] Instance ex_updates_codec : Codec Updates_msg := wire_codec Updates_msg None.
#[global] Instance ex_updates_codec_ok : CodecOk Updates_msg := wire_codec_ok Updates_msg None.
#[global] Instance ex_keys_codec : Codec PvtdataKeysMsg := wire_codec PvtdataKeysMsg None.
#[global] Instance ex_keys_codec_ok : CodecOk PvtdataKeysMsg := wire_codec_ok PvtdataKeysMsg None.

Definition ex_coll : bytes := str "mc".

#[global] Instance ex_btl : BTLPolicy := fun _ _ => Ret 1.
#[global] Instance ex_btl_ok : BTLPolicyOk.
Proof. intros ns coll btl [= <-]. done. Qed.

#[global] Instance ex_provider : DeployedChaincodeInfoProvider := fun _ => ReaderDone (Ret (Some [Some ex_coll])).

(** ** A block of one endorser transaction *)

Definition endorser_envelope (results : bytes) : bytes :=
  let ca := mkChaincodeAction results [] None None in
  let cap := mkChaincodeActionPayload [] (Some (mkChaincodeEndorsedAction (Marshal (mkProposalResponsePayload [] (Marshal ca))) [])) in
  let chdr := mkChannelHeader HeaderType_ENDORSER_TRANSACTION 0 None (str "ch") (str "tx1") 0 [] [] in
  Marshal (mkEnvelope (Marshal (mkPayload (Some (mkHeader (Marshal chdr) [])) (Marshal (mkTransaction [mkTransactionAction [] (Marshal cap)])))) []).

Definition one_tx_block (num : Z) (prev results : bytes) : Block :=
  mkBlock (mkBlockHeader num prev []) [endorser_envelope results] (Some [[]; []; [Byte.x00]; []; []]).

Ltac unmarshal := repeat (rewrite proto_Unmarshal_Marshal; cbn [mbind outcome_bind Envelope_Payload Payload_Data Payload_Header Header_ChannelHeader
  Transaction_Actions TransactionAction_Payload CAP_Action CEA_ProposalResponsePayload PRP_Extension]).

Lemma endorser_envelope_ok (results : bytes) :
  exists env chdr act, tx_header (endorser_envelope results) = Ret (env, chdr) /\ ChannelHeader_Type chdr = HeaderType_ENDORSER_TRANSACTION /\
    GetActionFromEnvelope (endorser_envelope results) = Ret act /\ ChaincodeAction_Results act = results.
Proof.
  do 3 eexists. split; [|split; [|split]].
  - unfold tx_header, GetEnvelopeFromBlock, UnmarshalPayload, UnmarshalChannelHeader, endorser_envelope. unmarshal. done.
  - done.
  - unfold GetActionFromEnvelope, GetActionFromEnvelopeMsg, GetPayloads, GetEnvelopeFromBlock, UnmarshalPayload, UnmarshalTransaction, UnmarshalChaincodeActionPayload, UnmarshalProposalResponsePayload, UnmarshalChaincodeAction, endorser_envelope.
    unmarshal. rewrite !bool_decide_eq_false_2 by apply wire_Marshal_nonempty. unmarshal. done.
  - done.
Qed.

#[global] Opaque endorser_envelope.

Lemma one_tx_block_ok (num : Z) (prev results : bytes) : is_u64 num -> endorser_block (one_tx_block num prev results) results.
Proof.
  intros Hn. constructor; [done|done|]. destruct (endorser_envelope_ok results) as (env & chdr & act & H).
  exists (endorser_envelope results), env, chdr, act. split; [reflexivity|exact H].
Qed.

(** ** The simulation *)

Definition ex_pub : bytes := str "k".
Definition ex_pvt : bytes := str "p".
Definition ex_calls : list call := [CGetState ex_ns ex_pub; CSetState ex_ns ex_pub (Some (str "v")); CSetPrivateData ex_ns ex_coll ex_pvt (Some (str "s"))].

Lemma ex_ns_coll_ok : coll_ok ex_ns ex_coll.
Proof. split; [done|]. destruct (ex_pub_ok []) as (Hd & Hn & _). split; [done|]. apply (bool_decide_unpack _). vm_compute. exact I. Qed.

Lemma ex_simulation : simulation ex_empty ∅ [ex_pvt] ex_calls.
Proof.
  constructor; [apply ex_empty_view|done| |done| |by repeat split].
  - by intros k k' ->%list_elem_of_singleton ->%list_elem_of_singleton.
  - pose proof ex_ns_coll_ok as Hc. repeat constructor; try apply Hc; try done.
Qed.

(** What the simulator hands over. *)
Definition ex_simulated : TxRwSet * option TxPvtReadWriteSet := Eval vm_compute in
  match run_calls ex_hash ex_empty ex_calls newTxSimulator with
  | Ret (s, _) =>
      let b := qe_rwsetBuilder (s_queryExecutor s) in
      (GetTxReadWriteSet (with_hashes b), PvtSimulationResults (fst (builder_GetTxSimulationResults b)))
  | _ => (mkTxRwSet [], None)
  end.

Definition ex_block0 : Block := one_tx_block 0 [] (TxRwSet_ToProtoBytes (fst ex_simulated)).
Definition ex_data0 : BlockAndPvtData := mkBlockAndPvtData ex_block0 (supplied (snd ex_simulated)).

(** ** The block as it is prepared *)

Definition ex_tx0 (id : bytes) : block := mkblock 0 [mktransaction 0 id (fst ex_simulated) TxValidationCode_VALID false].

Definition ex_updates : publicAndHashUpdates := Eval vm_compute in
  match validateAndPrepareBatch ex_hash 1 (ex_tx0 []) true ex_empty with (Ret (u, _), _) => u | _ => mkpublicAndHashUpdates NewUpdateBatch ∅ end.

Definition ex_pvt_updates : UpdateMap := Eval vm_compute in
  match validateAndPreparePvtBatch (ex_tx0 []) ex_empty ex_updates (supplied (snd ex_simulated)) with Ret p => p | _ => ∅ end.

Definition ex_batch0 : PrivUpdateBatch := mkPrivUpdateBatch (publicUpdates ex_updates) (hashUpdates ex_updates) ex_pvt_updates.

Definition ex_processors (type : Z) : option (CustomTxProcessor (D := kvmap)) := None.

Lemma ex_prepared : exists stats, ValidateAndPrepareBatch ex_hash ex_processors 1 ex_data0 true ex_empty = (Ret (ex_batch0, stats, ex_block0), ex_empty).
Proof.
  assert (Hb : endorser_block ex_block0 (TxRwSet_ToProtoBytes (fst ex_simulated))) by (by apply one_tx_block_ok).
  destruct (preprocess_endorser ex_hash ex_processors ex_block0 (fst ex_simulated) true Hb) as (id & stat & E1); [vm_compute; reflexivity|].
  destruct (postprocess_endorser ex_block0 _ 0 id (fst ex_simulated) stat Hb) as (E2 & stat' & E3 & _). exists [stat'].
  unfold ValidateAndPrepareBatch, mbind, M_bind, lift_outcome, get_state. cbn [bp_Block bp_PvtData ex_data0]. rewrite E1.
  change (Number (Block_Header ex_block0)) with 0. fold (ex_tx0 id) in E2 |- *.
  assert (E4 : validateAndPrepareBatch ex_hash 1 (ex_tx0 id) true ex_empty = (Ret (ex_updates, ex_tx0 id), ex_empty))
    by (vm_cast_no_check (eq_refl (Ret (ex_updates, ex_tx0 id), ex_empty))).
  assert (E5 : validateAndPreparePvtBatch (ex_tx0 id) ex_empty ex_updates (supplied (snd ex_simulated)) = Ret ex_pvt_updates)
    by (vm_cast_no_check (eq_refl (Ret ex_pvt_updates))).
  rewrite E4, E5, E2, (eb_flags _ _ Hb), E3. done.
Qed.

Definition ex_keys (k : bytes) : Prop := k = ex_pvt.

Lemma ex_keys_distinct (k k' : bytes) : ex_keys k -> ex_keys k' -> Sum256 k = Sum256 k' -> k = k'.
Proof. by intros -> ->. Qed.

Definition ex_current0 : current := mkcurrent ex_block0 ex_batch0 [].
Definition ex_mgr : LockBasedTxMgr (D := kvmap) := NewLockBasedTxMgr ex_empty ∅.
Definition ex_mgr0 : LockBasedTxMgr (D := kvmap) := snd (ValidateAndPrepare ex_hash ex_processors [] 1 ex_data0 true ex_mgr).

Lemma ex_mgr0_current : tm_current ex_mgr0 = Some ex_current0.
Proof.
  unfold ex_mgr0, ValidateAndPrepare, on_db. cbn [ex_mgr NewLockBasedTxMgr tm_db]. destruct ex_prepared as [stats ->]. done.
Qed.

(** ** Its updates *)

#[local] Opaque Sum256.

Definition ex_value (v : bytes) : VersionedValue := mkVersionedValue (Some v) [] (mkHeight 0 0).

Definition one_update (ns coll key : bytes) (vv : VersionedValue) : UpdateMap := <[ns := Batch_Update coll key vv (getOrCreateNsBatch ∅ ns)]> ∅.

#[global] Instance UpdateBatch_eq_dec : EqDecision UpdateBatch.
Proof. solve_decision. Defined.

#[global] Instance PrivUpdateBatch_eq_dec : EqDecision PrivUpdateBatch.
Proof. solve_decision. Defined.

Lemma ex_batch0_eq :
  ex_batch0 = mkPrivUpdateBatch (Batch_Update ex_ns ex_pub (ex_value (str "v")) NewUpdateBatch)
    (one_update ex_ns ex_coll (Sum256 ex_pvt) (ex_value (Sum256 (str "s")))) (one_update ex_ns ex_coll ex_pvt (ex_value (str "s"))).
Proof. apply (bool_decide_unpack _). vm_compute. exact I. Qed.

Lemma one_update_get (ns coll key ns' coll' key' : bytes) (vv vv' : VersionedValue) :
  UpdateMap_Get (one_update ns coll key vv) ns' coll' key' = Some vv' <-> (ns', coll', key') = (ns, coll, key) /\ vv' = vv.
Proof. unfold one_update. rewrite UpdateMap_Get_insert. case_decide as E; [split; [intros [= <-]; done|intros [_ ->]; done]|]. split; [done|by intros []]. Qed.

Lemma three_updates_get (ns key coll h p : bytes) (v hv pv : VersionedValue) (k : data_key) (vv : VersionedValue) :
  upd_get (mkPrivUpdateBatch (Batch_Update ns key v NewUpdateBatch) (one_update ns coll h hv) (one_update ns coll p pv)) k = Some vv <->
  k = PubKey ns key /\ vv = v \/ k = HashKey ns coll h /\ vv = hv \/ k = PvtKey ns coll p /\ vv = pv.
Proof.
  destruct k as [ns' key'|ns' coll' h'|ns' coll' p']; cbn [upd_get PubUpdates HashUpdates PvtUpdates].
  - rewrite Batch_Get_Update. case_decide as E; [injection E as -> ->|].
    + split; [intros [= <-]; by left|]. intros [[_ ->]|[[? _]|[? _]]]; done.
    + split; [done|]. intros [[[= -> ->] _]|[[? _]|[? _]]]; done.
  - rewrite one_update_get. split; [intros [[= -> -> ->] ->]; auto|]. intros [[? _]|[[[= -> -> ->] ->]|[? _]]]; done.
  - rewrite one_update_get. split; [intros [[= -> -> ->] ->]; auto|]. intros [[? _]|[[? _]|[[= -> -> ->] ->]]]; done.
Qed.

Lemma ex_batch0_get (k : data_key) (vv : VersionedValue) : upd_get ex_batch0 k = Some vv <->
  k = PubKey ex_ns ex_pub /\ vv = ex_value (str "v") \/
  k = HashKey ex_ns ex_coll (Sum256 ex_pvt) /\ vv = ex_value (Sum256 (str "s")) \/
  k = PvtKey ex_ns ex_coll ex_pvt /\ vv = ex_value (str "s").
Proof. rewrite ex_batch0_eq. apply three_updates_get. Qed.

#[local] Opaque ex_batch0 ex_block0.

Lemma ex_names_ok : dk_ok (PubKey ex_ns ex_pub) /\ dk_ok (HashKey ex_ns ex_coll (Sum256 ex_pvt)) /\ dk_ok (PvtKey ex_ns ex_coll ex_pvt).
Proof. destruct ex_ns_coll_ok as (_ & [Hd Hn] & Hc). split; [apply ex_pub_ok|]. done. Qed.

Lemma ex_batch0_updates : updates_ok ex_batch0.
Proof. destruct ex_names_ok as (H1 & H2 & H3). intros k vv [[-> ->]|[[-> ->]|[-> ->]]]%ex_batch0_get; (split; [done|]); by split; split. Qed.

Lemma ex_batch0_of : batch_of ex_keys 0 ex_batch0.
Proof.
  constructor; [apply ex_batch0_updates| |done|..].
  - by intros k vv [[-> ->]|[[-> ->]|[-> ->]]]%ex_batch0_get.
  - intros ns coll key vv E. apply (ex_batch0_get (PvtKey ns coll key)) in E as [[? _]|[[? _]|[[= -> -> ->] _]]]; done.
  - intros ns coll key vv E. apply (ex_batch0_get (PvtKey ns coll key)) in E as [[? _]|[[? _]|[[= -> -> ->] ->]]]; [done..|].
    exists (ex_value (Sum256 (str "s"))). exact (proj2 (ex_batch0_get (HashKey ex_ns ex_coll (Sum256 ex_pvt)) _) (or_intror (or_introl (conj eq_refl eq_refl)))).
Qed.

Lemma ex_next_block : next_block ex_keys (-1) ex_current0.
Proof. split; [reflexivity|]. split; [done|]. apply ex_batch0_of. Qed.

Abbreviation ex_run := (tm_run ex_hash ex_processors [] ex_keys).

Lemma ex_run0 : ex_run (-1) ∅ ex_mgr0.
Proof. apply run_prepare, run_new, ex_empty_view. Qed.

#[local] Opaque ex_mgr0.

(** The manager after the first block. *)
Definition ex_mgr1 : LockBasedTxMgr (D := kvmap) := snd (Commit ex_mgr0).

Lemma ex_scheduled : unscheduled_of 0 ex_batch0 = ∅.
Proof.
  apply set_eq. intros [[[ns coll] h] n]. rewrite unscheduled_of_spec. split; [|by intros ?%not_elem_of_empty].
  intros (_ & key & vv & hv & _ & E & Hd & _). apply (ex_batch0_get (PvtKey ns coll key)) in E as [[? _]|[[? _]|[_ ->]]]; done.
Qed.

Lemma ex_run1 : ex_run 0 ∅ ex_mgr1.
Proof.
  pose proof (run_commit _ _ _ _ (-1) ∅ ex_mgr0 ex_current0 ex_run0 ex_mgr0_current ex_next_block) as H.
  change (-1 + 1) with 0 in H. change (cur_batch ex_current0) with ex_batch0 in H. by rewrite ex_scheduled, union_empty_l_L in H.
Qed.

(** The private value is there to be read. *)
Lemma ex_mgr1_reads : read (tm_db ex_mgr1) (PvtKey ex_ns ex_coll ex_pvt) = Ret (Some (ex_value (str "s"))).
Proof.
  destruct (tm_run_inv _ _ _ _ ex_keys_distinct _ _ _ ex_run0) as (_ & σ & f & Hi). destruct ex_next_block as (Hn & Hm & Hb).
  destruct (Commit_ok ex_keys ex_keys_distinct (-1) ∅ σ f ex_mgr0 ex_current0 Hi (Z.le_refl _) Hm ex_mgr0_current Hn Hb)
    as (σ' & f' & t' & E & Hi' & _ & _ & _ & Hσ & _).
  destruct ex_names_ok as (_ & _ & Hk). unfold ex_mgr1. rewrite E. cbn [snd]. rewrite (read_ok _ _ _ (tv_db _ _ _ _ _ _ Hi') Hk), Hσ by done. unfold committed_value.
  change (cur_batch ex_current0) with ex_batch0. by rewrite (proj2 (ex_batch0_get (PvtKey ex_ns ex_coll ex_pvt) (ex_value (str "s"))) (or_intror (or_intror (conj eq_refl eq_refl)))).
Qed.
