(* ===== verification/LedgerTheorems.v ===== *)
(** * Properties of the transaction manager

    What a client of the manager relies on, from the simulation of a transaction over
    the commit of its block to the expiry of its private data; each statement with the
    concrete peer of [LedgerExamples] on which its hypotheses hold. *)

From S2P Require Import Prelude OrderedCode LevelDB Sha256 Proto Block StateProto StateDB StateDBOk PrivState PrivStateOk RwSet RwSetOk Validation CombinedItr RangeQuery Serial ValidationOk Serializable StateTheorems RwSetBuilder RwSetBuilderOk Simulator SimulatorOk SimProtocol BatchPreparer BatchPreparerOk PurgeMgr PurgeMgrOk QueryUtil TxMgr ExpiryOk OldPvtDataOk QueryUtilOk TxRun LedgerExamples.

(** The collection whose policy a key is under; a private key is never empty. *)
Definition policy_of (k : data_key) : option (bytes * bytes) :=
  match k with
  | PubKey _ _ => None
  | HashKey ns coll _ => Some (ns, coll)
  | PvtKey ns coll key => if bool_decide (key = []) then None else Some (ns, coll)
  end.

Section Life.
Context {BP : BTLPolicy} {BO : BTLPolicyOk} {PK : Codec PvtdataKeysMsg} {PO : CodecOk PvtdataKeysMsg}.
Context {D : Type} {VD : VersionedDB D} {VO : VersionedDBOk D}.
Context {PR : Protos} {SP : StateProtos} {UC : Codec Updates_msg} {QD : QueryDB D} {CC : DeployedChaincodeInfoProvider}.
Variable hashFunc : bytes -> outcome bytes.
Variable customTxProcessors : Z -> option (CustomTxProcessor (D := D)).
Variable stateListeners : list (StateListener (D := D)).
Variable keys : bytes -> Prop.

Definition distinct_hashes : Prop := forall k k', keys k -> keys k' -> Sum256 k = Sum256 k' -> k = k'.

Abbreviation run := (tm_run hashFunc customTxProcessors stateListeners keys).

(** A hash that the schedule does not know. *)
Definition never_scheduled (L : unscheduled) (k : data_key) (vv : VersionedValue) : Prop :=
  match k with HashKey ns coll h => (ns, coll, h, BlockNum (vv_Version vv)) ∈ L | _ => False end.

(** C5: private data and their hashes are gone when they expire. Whatever a manager
    has done since it was created (blocks prepared, committed or dropped, private data
    that came late, restarts), a private value or hash that can be read after block [N]
    was written at or before [N] and expires after [N], or never. Two kinds of values
    outlive their time. A hash stays whose block has deleted its private key: [L]
    collects them, and the schedule does not list them. And the value of the empty
    private key stays, which the purge takes for a key it does not know. The private
    writes of a block come with the hashes of their keys, no two of which collide, and
    data that come late are for no hash of [L]. *)
Theorem private_data_expire (N : Z) (L : unscheduled) (t : LockBasedTxMgr (D := D)) (k : data_key) (ns coll : bytes) (vv : VersionedValue) :
  distinct_hashes -> run N L t -> dk_ok k -> policy_of k = Some (ns, coll) -> read (tm_db t) k = Ret (Some vv) ->
  0 <= BlockNum (vv_Version vv) <= N /\
  exists e, GetExpiringBlock ns coll (BlockNum (vv_Version vv)) = Ret e /\ (e = MaxUint64 \/ N < e \/ never_scheduled L k vv).
Proof.
  intros Hd Hr Hk Hp E. destruct (tm_run_inv _ _ _ _ Hd N L t Hr) as (_ & σ & f & Hi). rewrite (read_ok _ _ _ (tv_db _ _ _ _ _ _ Hi) Hk) in E.
  injection E as E. destruct k as [ns' key|ns' coll' h|ns' coll' key]; [done| |]; cbn in Hp.
  - injection Hp as -> ->. destruct (ei_hash _ _ _ _ _ (tv_inv _ _ _ _ _ _ Hi) _ _ _ _ Hk E) as (Hb & e & He & Hor). split; [done|]. exists e. cbn. tauto.
  - case_bool_decide as Hne; [done|]. injection Hp as -> ->.
    destruct (ei_pvt _ _ _ _ _ (tv_inv _ _ _ _ _ _ Hi) _ _ _ _ Hk Hne E) as (_ & Hb & e & He & Hor). split; [done|]. exists e. tauto.
Qed.

(** C4: committing the prepared block returns, tells the listeners, and leaves in the
    state, key by key, the update of the block, or else the value of before unless it
    expires with this block; the savepoint is that of the block, so that recovery asks
    for the next one. What expires ([expired_b]) is exactly what the policy of the
    collection says, but for the hashes of [L], which were written in a block that
    deletes their private key and are in no schedule, and for the empty private key. The
    private writes of a block come with the hashes of their keys, no two of which
    collide. *)
Theorem commit_purges_exactly (N : Z) (L : unscheduled) (t : LockBasedTxMgr (D := D)) (c : current) :
  distinct_hashes -> run N L t -> tm_current t = Some c -> next_block keys N c ->
  exists t', Commit t = (Ret tt, t') /\ tm_current t' = None /\ tm_notified t' = tm_notified t ++ cur_listeners c /\
    (forall k, dk_ok k -> read (tm_db t') k =
       match upd_get (cur_batch c) k with
       | Some vv => Ret (live vv)
       | None => old ← read (tm_db t) k; Ret (match old with Some vv => if expired_b N L k vv then None else Some vv | None => None end)
       end) /\
    GetLastSavepoint t' = Ret (Some (NewHeight (N + 1) (maxTxNumber c))) /\
    ShouldRecover (N + 1) t' = Ret (false, N + 2).
Proof.
  intros Hd Hr Hc (Hn & Hm & Hb). destruct (tm_run_inv _ _ _ _ Hd N L t Hr) as (HN & σ & f & Hi).
  destruct (Commit_ok keys Hd N L σ f t c Hi HN Hm Hc Hn Hb) as (σ' & f' & t' & E & Hi' & Hc' & _ & Hl & Hσ & Hs). exists t'.
  split; [done|]. split; [done|]. split; [done|]. split; [|split; [exact Hs|]].
  - intros k Hk. rewrite (read_ok _ _ _ (tv_db _ _ _ _ _ _ Hi') Hk), (read_ok _ _ _ (tv_db _ _ _ _ _ _ Hi) Hk), Hσ by done. unfold committed_value.
    by destruct (upd_get (cur_batch c) k).
  - unfold ShouldRecover. unfold GetLastSavepoint. rewrite Hs. cbn [mbind outcome_bind NewHeight BlockNum]. rewrite Z.eqb_refl.
    rewrite u64_id by (unfold is_u64, MaxUint64 in *; lia). do 2 f_equal. lia.
Qed.


End Life.

Section Reads.
Context {D : Type} {VD : VersionedDB D} {VO : VersionedDBOk D}.

Abbreviation post_commit db b := [UpdateBatchBackedQueryExecuter (D := D) (PubUpdates b) (HashUpdates b); DB_QueryExecuter db].

(** C27: what a state listener reads before the commit is what is in the database
    after it: public values and hashes through the combined query executer of the
    batch and the database are those of the database with the batch applied. *)
Theorem listener_reads_committed (db : DB D) (σ : state) (b : PrivUpdateBatch) (h : option Height) :
  db_view db σ -> updates_ok b ->
  exists db', ApplyPrivacyAwareUpdates b h db = (Ret tt, db') /\
    (forall ns key, dk_ok (PubKey ns key) ->
       combiner_GetState (post_commit db b) ns key = (vv ← read db' (PubKey ns key); Ret (value_of vv))) /\
    (forall ns coll key, dk_ok (HashKey ns coll (Sum256 key)) ->
       combiner_GetPrivateDataHash (post_commit db b) ns coll key = (vv ← read db' (HashKey ns coll (Sum256 key)); Ret (value_of vv))).
Proof.
  intros Hv Hb. destruct (ApplyPrivacyAwareUpdates_ok db σ b h Hv Hb) as (db' & E & Hv'). exists db'. split; [done|]. split.
  - intros ns key Hk. rewrite (read_ok _ _ _ Hv' Hk). cbn [mbind outcome_bind]. by apply post_GetState.
  - intros ns coll key Hk. rewrite (read_ok _ _ _ Hv' Hk). cbn [mbind outcome_bind]. by apply post_GetPrivateDataHash.
Qed.

(** C28: a range read by a listener ends. From some number of rounds on, reading the
    combined iterator to its end gives the keys and values that the scan of the
    committed database gives, each once and in order. *)
Theorem listener_scan_terminates (db : DB D) (σ : state) (b : PrivUpdateBatch) (h : option Height) (ns startKey endKey : bytes) :
  db_view db σ -> updates_ok b -> dk_ok (PubKey ns []) ->
  exists db' itr l c n, ApplyPrivacyAwareUpdates b h db = (Ret tt, db') /\
    GetStateRangeScanIterator (db_vdb db') ns startKey endKey = Ret itr /\ yields itr l /\
    combiner_GetStateRangeScanIterator (post_commit db b) ns startKey endKey = Ret c /\
    forall fuel, (n < fuel)%nat -> fst (combiner_all fuel c) = Ret ((fun kv => mkKV ns (vkv_Key kv) (vv_Value (vkv_Value kv))) <$> l).
Proof.
  intros Hv Hb Hn. destruct (ApplyPrivacyAwareUpdates_ok db σ b h Hv Hb) as (db' & E & Hv').
  destruct (view_scan _ _ ns startKey endKey (dv_state _ _ Hv')) as (itr & Ei & Hy); [apply Hn|].
  destruct (post_scan db σ b Hv Hb ns startKey endKey Hn) as (c & n & Ec & Hc). do 5 eexists. repeat split; done.
Qed.

End Reads.

Section Simulation.
Context {PR : Protos} {PO : ProtosOk} {SP : StateProtos} {SO : StateProtosOk}.
Context {D : Type} {VD : VersionedDB D} {QD : QueryDB D} {VO : VersionedDBOk D} {QO : QueryDBOk D} {CC : DeployedChaincodeInfoProvider}.
Variable hashFunc : bytes -> outcome bytes.
Variable processors : Z -> option (CustomTxProcessor (D := D)).

(** C3: simulating a transaction and committing its block executes the calls of the
    simulation. A client makes calls on a simulator, some of which may fail; the
    results, alone in a block that is validated on the same state, are found valid, the
    private data match their hashes, and after the commit every public key and every
    hash has what the successful calls make of its old value: the last of their value
    writes and deletions of it, and then the last of their metadata writes. For a key
    that exists and is not deleted this is what the calls in their order make of it; a
    deletion that is followed by a write does not take the old metadata away. Every
    private key that was written has its last value. The client opens no paginated
    query, reads every range it opens at least once and none after it has been closed,
    writes no empty value, and reads several private keys at once only where their
    values have the versions of their hashes; the state has no value at an empty key,
    and the hashes of the private keys that are written do not collide. *)
Theorem simulate_then_commit (db : DB D) (σ : state) (keys : list bytes) (calls acc : list call) (s : txSimulator) :
  (forall b, exists x, hashFunc b = Ret x) -> simulation db σ keys calls ->
  run_calls hashFunc db calls newTxSimulator = Ret (s, acc) -> forallb itr_started (qe_itrs (s_queryExecutor s)) = true ->
  exists res s', sim_GetTxSimulationResults hashFunc s = (Ret res, s') /\
  forall (blk : Block) (doMVCCValidation : bool) (h : option Height), endorser_block blk (Marshal (PubSimulationResults res)) ->
  exists f0 batch stat db' db'' σ',
    (forall fuel, (f0 <= fuel)%nat ->
       ValidateAndPrepareBatch hashFunc processors fuel (mkBlockAndPvtData blk (supplied (PvtSimulationResults res))) doMVCCValidation db =
         (Ret (batch, [stat], blk), db')) /\
    si_ValidationCode stat = TxValidationCode_VALID /\
    ApplyPrivacyAwareUpdates batch h db' = (Ret tt, db'') /\ db_view db'' σ' /\
    (forall ck, dk_ok (key_of ck) -> σ' !! loc (D := D) (key_of ck) =
       fold_left (fun cur w => write_value (mkHeight (Number (Block_Header blk)) 0) w cur) (collapse (writes_at ck (acc ≫= call_writes)))
         (σ !! loc (D := D) (key_of ck))) /\
    (forall ck vv, dk_ok (key_of ck) -> σ !! loc (D := D) (key_of ck) = Some vv -> WDelete ∉ writes_at ck (acc ≫= call_writes) ->
       σ' !! loc (D := D) (key_of ck) =
       fold_left (fun cur w => write_value (mkHeight (Number (Block_Header blk)) 0) w cur) (writes_at ck (acc ≫= call_writes)) (Some vv)) /\
    (forall ns coll key v, pvt_at (ns, coll, key) (acc ≫= call_pvt) = Some v ->
       σ' !! loc (D := D) (PvtKey ns coll key) = (fun v => mkVersionedValue (Some v) [] (mkHeight (Number (Block_Header blk)) 0)) <$> v).
Proof.
  intros Hh Hs Hr Hi. destruct (simulation_commits hashFunc Hh processors db σ keys calls acc s Hs Hr Hi) as (res & s' & E & H).
  exists res, s'. split; [done|]. intros blk doMVCC h Hb.
  destruct (H blk doMVCC h Hb) as (f0 & batch & stat & db' & db'' & σ' & H1 & H2 & H3 & H4 & Hpub & Hpvt).
  exists f0, batch, stat, db', db'', σ'. do 5 (split; [done|]). split; [|done].
  intros ck vv Hk Hv Hd. rewrite Hpub, Hv by done. by apply collapse_in_order.
Qed.


End Simulation.

(** ** The expiry of a block *)

(** the block at which data expire is the committing block, the blocks to live and
    one more, and never more than the largest number: the addition wraps around exactly
    where the code takes the result for "never". *)
Theorem expiring_block_saturates (committingBlock btl : Z) :
  is_u64 committingBlock -> is_u64 btl ->
  ComputeExpiringBlock committingBlock btl = Z.min (committingBlock + btl + 1) MaxUint64 /\
  (ComputeExpiringBlock committingBlock btl = MaxUint64 \/ committingBlock < ComputeExpiringBlock committingBlock btl).
Proof.
  intros Hc Hb. rewrite ComputeExpiringBlock_min by done. split; [done|]. unfold is_u64, MaxUint64 in *. lia.
Qed.

(** a hash that is written in the block in which its private key is deleted never
    gets into the expiry schedule, whatever its value: the private key takes the place
    of the hash, and a deletion is not scheduled. *)
Theorem hash_of_deleted_key_unscheduled `{!BTLPolicy} (pvtUpdates hashedUpdates : UpdateMap) (ns coll key : bytes) (vv hv : VersionedValue) (e : Z) :
  ToCompositeKeyMap pvtUpdates = {[(ns, coll, key) := vv]} -> ToCompositeKeyMap hashedUpdates = {[(ns, coll, Sum256 key) := hv]} ->
  IsDelete vv = true -> GetExpiringBlock ns coll (BlockNum (vv_Version vv)) = Ret e ->
  buildExpirySchedule pvtUpdates hashedUpdates = Ret [].
Proof.
  intros E1 E2 Hd He. unfold buildExpirySchedule. rewrite E1, E2, map_to_list_singleton. cbn [for_range schedule_pvt mbind outcome_bind].
  assert (schedule_add ns coll key (Sum256 key) vv ∅ = Ret ∅) as -> by (unfold schedule_add; rewrite He; cbn [mbind outcome_bind]; by rewrite Hd).
  cbn [mbind outcome_bind]. rewrite delete_singleton_eq, map_to_list_empty. done.
Qed.

(** ** The concrete peer *)

#[local] Opaque Sum256 ex_batch0 ex_mgr0 ex_block0.

(** After the block of [LedgerExamples] the private value can be read, and expires. *)
Lemma private_data_expire_witness :
  ex_run 0 ∅ ex_mgr1 /\ read (tm_db ex_mgr1) (PvtKey ex_ns ex_coll ex_pvt) = Ret (Some (ex_value (str "s"))) /\
  exists e, GetExpiringBlock ex_ns ex_coll 0 = Ret e /\ (e = MaxUint64 \/ 0 < e).
Proof.
  split; [apply ex_run1|]. split; [apply ex_mgr1_reads|]. destruct ex_names_ok as (_ & _ & Hk).
  destruct (private_data_expire ex_hash ex_processors [] ex_keys 0 ∅ ex_mgr1 (PvtKey ex_ns ex_coll ex_pvt) ex_ns ex_coll (ex_value (str "s"))
    ex_keys_distinct ex_run1 Hk eq_refl ex_mgr1_reads) as [_ (e & He & Hor)].
  exists e. split; [exact He|]. destruct Hor as [H|[H|[]]]; [left; exact H|right; exact H].
Defined.

Lemma commit_purges_exactly_witness :
  exists t', Commit ex_mgr0 = (Ret tt, t') /\ ShouldRecover 0 t' = Ret (false, 1).
Proof.
  destruct (commit_purges_exactly ex_hash ex_processors [] ex_keys (-1) ∅ ex_mgr0 ex_current0 ex_keys_distinct ex_run0 ex_mgr0_current ex_next_block)
    as (t' & E & _ & _ & _ & _ & Hr). exists t'. split; [exact E|exact Hr].
Defined.




Lemma listener_reads_committed_witness :
  exists db', ApplyPrivacyAwareUpdates ex_batch0 None ex_empty = (Ret tt, db') /\
    combiner_GetState [UpdateBatchBackedQueryExecuter (D := kvmap) (PubUpdates ex_batch0) (HashUpdates ex_batch0); DB_QueryExecuter ex_empty] ex_ns ex_pub =
      (vv ← read db' (PubKey ex_ns ex_pub); Ret (value_of vv)).
Proof.
  destruct (listener_reads_committed ex_empty ∅ ex_batch0 None ex_empty_view ex_batch0_updates) as (db' & E & Hp & _). exists db'.
  split; [exact E|]. exact (Hp ex_ns ex_pub (ex_pub_ok ex_pub)).
Defined.

Lemma listener_scan_terminates_witness :
  exists c n kvs, combiner_GetStateRangeScanIterator
      [UpdateBatchBackedQueryExecuter (D := kvmap) (PubUpdates ex_batch0) (HashUpdates ex_batch0); DB_QueryExecuter ex_empty] ex_ns [] [] = Ret c /\
    forall fuel, (n < fuel)%nat -> fst (combiner_all fuel c) = Ret kvs.
Proof.
  destruct (listener_scan_terminates ex_empty ∅ ex_batch0 None ex_ns [] [] ex_empty_view ex_batch0_updates (ex_pub_ok []))
    as (db' & itr & l & c & n & _ & _ & _ & Ec & Hc). do 3 eexists. split; [exact Ec|exact Hc].
Defined.

(** The simulator after the calls, and those that succeeded. *)
Definition ex_ran (calls : list call) : txSimulator (D := kvmap) :=
  match run_calls ex_hash ex_empty calls newTxSimulator with Ret (s, _) => s | _ => newTxSimulator end.

Lemma ex_ran_eq (calls acc : list call) :
  (x ← run_calls ex_hash ex_empty calls newTxSimulator; Ret (snd x)) = Ret acc -> run_calls ex_hash ex_empty calls newTxSimulator = Ret (ex_ran calls, acc).
Proof. unfold ex_ran. intros H. destruct (run_calls _ _ _ _) as [[s acc']| |]; [|discriminate..]. injection H as ->. reflexivity. Qed.

Abbreviation ex_simulator := (ex_ran ex_calls).

Lemma ex_simulator_runs : run_calls ex_hash ex_empty ex_calls newTxSimulator = Ret (ex_simulator, ex_calls).
Proof. apply ex_ran_eq. vm_compute. reflexivity. Qed.

Lemma ex_simulator_started : forallb itr_started (qe_itrs (s_queryExecutor ex_simulator)) = true.
Proof. vm_compute. reflexivity. Qed.

Lemma simulate_then_commit_witness :
  exists res s', sim_GetTxSimulationResults ex_hash ex_simulator = (Ret res, s') /\
  exists f0 batch stat db', forall fuel, (f0 <= fuel)%nat ->
    ValidateAndPrepareBatch ex_hash ex_processors fuel
      (mkBlockAndPvtData (one_tx_block 0 [] (Marshal (PubSimulationResults res))) (supplied (PvtSimulationResults res))) true ex_empty =
      (Ret (batch, [stat], one_tx_block 0 [] (Marshal (PubSimulationResults res))), db').
Proof.
  destruct (simulate_then_commit ex_hash ex_processors ex_empty ∅ [ex_pvt] ex_calls ex_calls ex_simulator ex_hash_total ex_simulation
    ex_simulator_runs ex_simulator_started) as (res & s' & E & H).
  exists res, s'. split; [exact E|]. destruct (H (one_tx_block 0 [] (Marshal (PubSimulationResults res))) true None) as (f0 & batch & stat & db' & _ & _ & Hv & _).
  { apply one_tx_block_ok. by split. }
  exists f0, batch, stat, db'. exact Hv.
Defined.





Lemma expiring_block_saturates_witness : ComputeExpiringBlock (MaxUint64 - 1) 5 = MaxUint64.
Proof. destruct (expiring_block_saturates (MaxUint64 - 1) 5) as [E _]; [done|done|]. exact E. Defined.

(** The private key is deleted by one transaction, and written by a later one whose
    private data have not arrived. *)
Lemma hash_of_deleted_key_unscheduled_witness :
  buildExpirySchedule (one_update ex_ns ex_coll ex_pvt (mkVersionedValue None [] (mkHeight 1 0)))
    (one_update ex_ns ex_coll (Sum256 ex_pvt) (mkVersionedValue (Some (Sum256 (str "s"))) [] (mkHeight 1 1))) = Ret [].
Proof.
  apply (hash_of_deleted_key_unscheduled _ _ ex_ns ex_coll ex_pvt (mkVersionedValue None [] (mkHeight 1 0))
    (mkVersionedValue (Some (Sum256 (str "s"))) [] (mkHeight 1 1)) 3).
  - apply (bool_decide_unpack _). vm_compute. exact I.
  - apply (bool_decide_unpack _). vm_compute. exact I.
  - reflexivity.
  - reflexivity.
Defined.
