(* ===== verification/ChainTheorems.v ===== *)
(** * Properties of the ledger of a channel

    History queries, recovery, the commit hash and the search for certificates, on the
    chain of blocks in the block store; each statement with a concrete chain on which
    its hypotheses hold. *)

From S2P Require Import LedgerExamples StateTheorems.
From S2P Require Import Prelude Varint Sha256 GoBig GoOS Storage Chameleon Proto Block BlockSerialization BlockStream BlockIndex Redaction BlockfileMgr BlockfileMgrOk BlockfileMgrRecover BlockStoreOk CertOps CertQuery Examples OrderedCode LevelDB StateProto StateDB StateDBOk PrivState PrivStateOk RwSet RwSetOk Validation RwSetBuilder Simulator BatchPreparer PurgeMgr QueryUtil TxMgr BatchPreparerOk UpdateBytesOk History HistoryOk KvLedger KvLedgerOk RecoveryOk.

(** ** History *)

Section HistoryQueries.
Context {PR : Protos} {PRO : ProtosOk} {SP : StateProtos}.

(** C25: a history query is exact. For a history database that has committed the blocks
    of the store, reading the scanner to its end gives the modifications of the key by
    the valid transactions of the chain, all of them, the newest first. *)
Theorem history_exact (m : blockfileMgr) (blocks : list Block) (chain : list (blockIdxInfo * bytes)) (db : kvmap) (ns key : bytes) (fuel : nat) :
  mgr_ok m blocks chain -> Forall history_block blocks -> history_commits blocks ∅ = (Ret tt, db) ->
  name_ok ns -> is_u64 (zlen key) -> (length (key_log ns key blocks) < fuel)%nat ->
  historyScanner_all fuel m (GetHistoryForKey db ns key) = Ret (reverse (key_log ns key blocks).*2).
Proof. intros Hm Hb Hd Hn Hk Hf. by apply (history_all_ok blocks Hb (mo_num _ _ _ Hm) db Hd m chain Hm). Qed.

End HistoryQueries.

(** ** Recovery and the commit hash *)

Section Ledger.
Context {PR : Protos} {PRO : ProtosOk} {SP : StateProtos} {UC : Codec Updates_msg} {PK : Codec PvtdataKeysMsg} {BP : BTLPolicy}.
Context {D : Type} {VD : VersionedDB D} {QD : QueryDB D} {CC : DeployedChaincodeInfoProvider}.
Variable hashFunc : bytes -> outcome bytes.
Variable customTxProcessors : Z -> option (CustomTxProcessor (D := D)).
Variable stateListeners : list (StateListener (D := D)).
Variable GetPvtDataByBlockNum : Z -> outcome (list TxPvtData).
Variable fuel : nat.

(** The blocks of the store with their private data. *)
Definition with_pvtdata (pvt : Z -> list TxPvtData) (blocks : list Block) : list BlockAndPvtData :=
  (fun b => mkBlockAndPvtData b (constructPvtdataMap (pvt (Number (Block_Header b))))) <$> blocks.

(** C6: recovery is equivalent to not having stopped. Wherever the history database
    and the transaction manager have stopped, opening the ledger commits to each of
    them exactly the blocks it lacks, in order. The history database becomes the one
    that has committed all blocks of the store. The transaction manager, which commits
    the blocks of the store again by their recorded flags and without validating them,
    becomes the one that would validate and commit the blocks as they were received
    from the network, in the state in which it was opened; and if it was opened on what
    a manager had left between two blocks, its state database with the metadata hint,
    and its expiry schedule, are in the end those of that manager going on without a
    stop. The block store keeps the header, the data and the flags of a block, and the
    private data store the private data of its valid transactions; a processor of
    custom transactions accepts again, with the same writes, what it has accepted; the
    state database has no cache of versions (it is LevelDB). *)
Theorem recovery_catches_up (l : kvLedger (D := D)) (blocks : list Block) (chain : list (blockIdxInfo * bytes)) (pvt : Z -> list TxPvtData)
    (h h' : kvmap) (j : nat) (sp : option Height) (received : list BlockAndPvtData) (flagged : list Block) (t' : LockBasedTxMgr (D := D)) :
  mgr_ok (kl_blockStore l) blocks chain -> blocks <> [] -> zlen blocks < 2 ^ 63 -> Forall history_block blocks ->
  kl_bootSnapshotMetadata l = None -> kl_historyDB l = Some h ->
  (forall n, 0 <= n < zlen blocks -> GetPvtDataByBlockNum n = Ret (pvt n)) ->
  (j <= length blocks)%nat -> history_commits (take j blocks) ∅ = (Ret tt, h) -> history_commits blocks ∅ = (Ret tt, h') ->
  GetLastSavepoint (kl_txmgr l) = Ret sp -> 0 <= next_needed sp <= zlen blocks ->
  LoadCommittedVersions (D := D) = None -> processors_replay customTxProcessors ->
  commit_blocks hashFunc customTxProcessors stateListeners fuel received (kl_txmgr l) = (Ret flagged, t') ->
  Forall3 kept received flagged (with_pvtdata pvt (drop (Z.to_nat (next_needed sp)) blocks)) ->
  syncStateAndHistoryDBWithBlockstore hashFunc customTxProcessors stateListeners GetPvtDataByBlockNum fuel l =
    (Ret tt, set_historyDB (Some h') (set_txmgr t' l)) /\
  (forall db expKeeper received0 flagged0 flagged1 t1 t2,
    mh_cache (db_hint db) = dom (mh_bookkeeper (db_hint db)) ->
    commit_blocks hashFunc customTxProcessors stateListeners fuel received0 (NewLockBasedTxMgr db expKeeper) = (Ret flagged0, t1) ->
    Forall2 stored_as flagged0 (take (Z.to_nat (next_needed sp)) blocks) -> kl_txmgr l = restarted t1 ->
    commit_blocks hashFunc customTxProcessors stateListeners fuel received t1 = (Ret flagged1, t2) ->
    tm_db t' = tm_db t2 /\ pm_expKeeper (tm_pvtdataPurgeMgr t') = pm_expKeeper (tm_pvtdataPurgeMgr t2)).
Proof.
  intros Hm Hne Hlen Hb Hboot Hh Hp Hj E1 E2 Hsp Hnx Hbulk Hpr Erun Hkept. split.
  2: { intros db ek r0 f0 f1 t1 t2 Hd E0 H0 Hr E1'. rewrite Hr in Erun. pose proof (Forall2_length _ _ _ H0) as Hl0. rewrite length_take in Hl0.
    pose proof (Forall3_length_lr _ _ _ _ Hkept) as Hl1. pose proof (Forall3_length_lm _ _ _ _ Hkept) as Hl2.
    unfold with_pvtdata in Hl1. rewrite length_fmap, length_drop in Hl1.
    apply (restarted_run hashFunc customTxProcessors stateListeners fuel Hbulk r0 received (NewLockBasedTxMgr db ek) t1 t2 t' f0 f1 flagged (next_needed sp)); try done.
    - intros i b Hib. destruct (Forall2_lookup_l _ _ _ _ _ H0 Hib) as (s & Hs & [<- _ _]). apply lookup_take_Some in Hs as [Hs _]. by apply (mo_num _ _ _ Hm).
    - unfold zlen in *. lia.
    - intros i b Hib. destruct (Forall3_lookup_m _ _ _ _ _ _ Hkept Hib) as (bp & s & _ & Hs & [[<- _ _] _]).
      unfold with_pvtdata in Hs. rewrite list_lookup_fmap, lookup_drop in Hs. destruct (blocks !! _) as [x|] eqn:Ex; [|done]. injection Hs as <-. cbn.
      rewrite (mo_num _ _ _ Hm _ _ Ex). lia.
    - unfold zlen in *. lia. }
  pose proof (lost_tx_replay hashFunc customTxProcessors stateListeners fuel Hbulk _ _ _ _ _ Hpr Erun Hkept) as Ht.
  destruct (history_next_needed blocks h j Hb (mo_num _ _ _ Hm) Hj E1) as (sph & Hsph & Hjn).
  assert (Hpos : 0 < zlen blocks) by (destruct blocks; [done|unfold zlen; cbn [length]; lia]).
  set (bps := fun n => mkBlockAndPvtData (default (mkBlock (mkBlockHeader 0 [] []) [] None) (blocks !! Z.to_nat n)) (constructPvtdataMap (pvt n))).
  assert (Hdrop : forall k, 0 <= k <= zlen blocks -> bps <$> seqZ k (zlen blocks - k) = with_pvtdata pvt (drop (Z.to_nat k) blocks)).
  { intros k Hk. apply list_eq. intros i. rewrite list_lookup_fmap. unfold with_pvtdata. rewrite list_lookup_fmap, lookup_drop.
    destruct (blocks !! (Z.to_nat k + i)%nat) as [b|] eqn:Eb.
    - pose proof (lookup_lt_Some _ _ _ Eb). rewrite lookup_seqZ_lt by (unfold zlen in *; lia). cbn. unfold bps.
      rewrite (mo_num _ _ _ Hm _ _ Eb). replace (Z.to_nat (k + Z.of_nat i)) with (Z.to_nat k + i)%nat by lia. rewrite Eb. cbn.
      by replace (Z.of_nat (Z.to_nat k + i)) with (k + Z.of_nat i) by lia.
    - apply lookup_ge_None in Eb. by rewrite lookup_seqZ_ge by (unfold zlen in *; lia). }
  apply (sync_ok hashFunc customTxProcessors stateListeners GetPvtDataByBlockNum fuel bps l (zlen blocks) h h' t' sp sph); try done.
  - apply (mo_height _ _ _ Hm).
  - lia.
  - intros n [Hn1 Hn2]%elem_of_seqZ. unfold GetPvtDataAndBlockByNum, bps. destruct (lookup_lt_is_Some_2 blocks (Z.to_nat n)) as [b Eb]; [unfold zlen in *; lia|].
    rewrite <- (Z2Nat.id n) at 1 by lia. rewrite (retrieveBlockByNumber_ok _ _ _ Hm _ _ Eb) by (unfold MaxUint64, zlen in *; lia). rewrite Eb. cbn [mbind outcome_bind].
    by rewrite Hp by lia.
  - rewrite Hjn. unfold zlen. lia.
  - by rewrite Hdrop.
  - rewrite Hdrop by (rewrite Hjn; unfold zlen; lia). rewrite lost_history_blocks, Hjn, Nat2Z.id. unfold with_pvtdata. rewrite <- list_fmap_compose, list_fmap_id.
    apply (history_commits_split (take j blocks) _ ∅ h h' E1). by rewrite take_drop.
Qed.

End Ledger.

Section CommitHash.
Context {PR : Protos} {UC : Codec Updates_msg} {UO : CodecOk Updates_msg}.

(** The commit hash over a chain of blocks and their updates, and what is hashed. *)
Fixpoint hash_chain (h : bytes) (l : list (Block * PrivUpdateBatch)) : outcome bytes :=
  match l with
  | [] => Ret h
  | (b, u) :: l' =>
      updateBytes ← deterministicBytesForPubAndHashUpdates u;
      '(_, h') ← addBlockCommitHash b updateBytes h;
      hash_chain h' l'
  end.

Definition hashed (x : Block * PrivUpdateBatch) : bytes * bytes :=
  (flags_of (fst x), match deterministicBytesForPubAndHashUpdates (snd x) with Ret bs => bs | _ => [] end).

Lemma hash_chain_ok (l : list (Block * PrivUpdateBatch)) (h h' : bytes) :
  hash_chain h l = Ret h' ->
  Forall (fun x => block_flags (fst x) = Ret (flags_of (fst x))) l /\ h' = fold_left (fun h x => Sum256 (commit_preimage (fst x) (snd x) h)) (hashed <$> l) h.
Proof.
  revert h. induction l as [|[b u] l IH]; intros h; cbn [hash_chain]; [by intros [= <-]|]. intros E.
  apply outcome_bind_ret_inv in E as (bs & Eb & E). apply outcome_bind_ret_inv in E as ([b' h1] & Ea & E). apply IH in E as [Hf ->].
  unfold addBlockCommitHash in Ea. destruct (Block_Metadata b) as [md|] eqn:Em; [|done]. apply outcome_bind_ret_inv in Ea as (fl & Efl & Ea).
  apply outcome_bind_ret_inv in Ea as (x & _ & Ea). injection Ea as _ <-.
  assert (Ebf : block_flags b = Ret fl) by (unfold block_flags; by rewrite Em). assert (Efo : flags_of b = fl) by (unfold flags_of; by rewrite Ebf).
  split; [constructor; [cbn [fst]; by rewrite Efo|done]|]. rewrite fmap_cons. cbn [fold_left].
  by assert (hashed (b, u) = (fl, bs)) as -> by (unfold hashed; cbn [fst snd]; by rewrite Eb, Efo).
Qed.

(** The updates of a batch that the hash covers: value and version of public data and
    of hashes, but not in the name space with the empty name. *)
Definition same_public (u u' : PrivUpdateBatch) : Prop :=
  forall k, is_pvt k = false -> dk_ns k <> [] -> content <$> upd_get u k = content <$> upd_get u' k.

Lemma same_bytes_public (u u' : PrivUpdateBatch) :
  maps_ok u -> maps_ok u' -> updates_ok u -> updates_ok u' -> deterministicBytesForPubAndHashUpdates u = deterministicBytesForPubAndHashUpdates u' -> same_public u u'.
Proof.
  intros Hm Hm' Hu Hu' E k Hp Hn. destruct (upd_get u k) as [vv|] eqn:E1.
  - destruct (update_bytes_sub u u' k vv Hm Hm' Hu Hu' E Hp Hn E1) as (vv' & -> & Hc). cbn. by rewrite Hc.
  - destruct (upd_get u' k) as [vv|] eqn:E2; [|done]. destruct (update_bytes_sub u' u k vv Hm' Hm Hu' Hu (eq_sym E) Hp Hn E2) as (vv' & E3 & _). congruence.
Qed.

Definition chain_ok (l : list (Block * PrivUpdateBatch)) : Prop :=
  Forall (fun x => maps_ok (snd x) /\ updates_ok (snd x) /\ is_u64 (zlen (flags_of (fst x)))) l.

(** C7: the commit hash binds the values and versions that were committed. Two peers
    that have committed the same number of blocks since the hash was first made and
    have the same commit hash have marked the same transactions as valid and have
    written the same values with the same versions to the same public keys and key
    hashes of every name space with a name, block by block; unless they know two
    different byte strings with the same SHA-256 hash, among those they have hashed.
    The hash says nothing about metadata, which are not among the hashed bytes, about
    the name space with the empty name (the channel's configuration), which is skipped,
    or about private data beyond their hashes. *)
Theorem commit_hash_binds_updates (l l' : list (Block * PrivUpdateBatch)) (h : bytes) :
  length l = length l' -> chain_ok l -> chain_ok l' -> hash_chain [] l = Ret h -> hash_chain [] l' = Ret h ->
  (forall p q, p ∈ preimages [] (hashed <$> l) -> q ∈ preimages [] (hashed <$> l') -> Sum256 p = Sum256 q -> p = q) ->
  Forall2 (fun x x' => block_flags (fst x) = block_flags (fst x') /\ same_public (snd x) (snd x')) l l'.
Proof.
  intros Hl Hok Hok' E E' Hc. apply hash_chain_ok in E as [Hf E], E' as [Hf' E'].
  assert (Hlen : forall k, chain_ok k -> Forall (fun x => is_u64 (zlen (fst x))) (hashed <$> k)).
  { intros k Hk. apply Forall_fmap. eapply Forall_impl; [exact Hk|]. by intros x (_ & _ & Hx). }
  assert (Eh : hashed <$> l = hashed <$> l').
  { apply commit_hash_binds; [by rewrite !length_fmap|by apply Hlen|by apply Hlen|unfold commit_hash_of; congruence|done]. }
  clear E E' Hc. revert l' Hl Hok' Hf' Eh. induction Hok as [|x l (Hm & Hu & _) _ IH]; intros [|x' l'] Hl Hok' Hf' Eh; try done.
  apply Forall_cons in Hok' as [(Hm' & Hu' & _) Hok'], Hf as [Hx Hf], Hf' as [Hx' Hf']. cbn [fmap list_fmap] in Eh. injection Eh as E1 E2 Eh.
  constructor; [|apply IH; [done|simpl in Hl; lia|done..]]. split; [by rewrite Hx, Hx', E1|]. apply same_bytes_public; try done.
  destruct (update_bytes_entries (snd x) Hm) as (kvs & Ek & _), (update_bytes_entries (snd x') Hm') as (kvs' & Ek' & _). by rewrite Ek, Ek' in E2 |- *; rewrite E2.
Qed.

End CommitHash.

(** ** Certificates *)

Section Certificates.
Context {PR : Protos} {PRO : ProtosOk}.

(** C30: a certificate is found once the block that creates it is added. The block is
    appended to the store, its number is recorded in the file of the authority, and
    the search by authority and certificate gives the first recorded block that carries
    the certificate: an earlier one if there is one, else the new block; a certificate
    that no recorded block carries ends in the error of parsing the empty number behind
    the last separator. The record of the authority, with the new number, has to be
    shorter than the 4096 bytes of the reader's buffer: of a longer record only the
    first 4096 bytes are searched. Besides, the block is the next one of the chain and,
    if it is the first, fits in a block file; all transactions of the recorded blocks
    and of the new one invoke a chaincode, so that they can be parsed; the file of the
    authority can be written, is none of the store's own files, and there is no I/O
    error. *)
Theorem created_certificate_found (m : blockfileMgr) (chunks : list (list entry)) (nums : list nat) (certs : list bytes) (b : Block)
    (bs fl id CA CAID : bytes) (rest : list bytes) (k : Z) :
  store_ok m chunks -> zlen (blocks_of chunks) + 1 < 2 ^ 63 -> recorded_certs (blocks_of chunks) nums certs ->
  file_content (ca_path CA) (w_fs (m_world m)) = ca_text nums ->
  issue_block m b bs fl id CA rest -> carries b id -> ca_ok m CA -> first_fits m bs -> latestFileNumber (m_info m) + 2 < 2 ^ 61 ->
  (length (ca_text (nums ++ [length (blocks_of chunks)])) < bufio_size)%nat ->
  exists m' chunks', addBlock b k m = (Ret b, m') /\ store_ok m' chunks' /\ blocks_of chunks' = blocks_of chunks ++ [b] /\
    file_content (ca_path CA) (w_fs (m_world m')) = ca_text (nums ++ [length (blocks_of chunks)]) /\
    GetBlockByCA m' CA CAID =
      match first_cert CAID nums certs with
      | Some n => match blocks_of chunks !! n with Some b' => Ret (Some b') | None => Ret None end
      | None => if bool_decide (id = CAID) then Ret (Some b) else Err (Errorf "invalid syntax")
      end.
Proof. intros. by eapply created_found. Qed.

(** only the certificate of the first transaction of a block is seen. Whatever the
    later transactions create, a block whose first transaction has another second
    argument is not recognised as carrying the certificate. *)
Theorem later_certificates_missed (b : Block) (d : bytes) (ds : list bytes) (op c cert : bytes) (rest : list bytes) :
  Block_Data b = d :: ds -> invokes d (op :: c :: rest) -> Forall (fun d' => exists args, invokes d' args) ds -> c <> cert ->
  ValidateAnalysis2 cert b = Ret 0.
Proof.
  intros Ed Hi Hf Hne. rewrite (ValidateAnalysis2_ok b cert c); [by rewrite bool_decide_eq_false_2|]. by exists d, ds, op, rest.
Qed.

End Certificates.

(** ** Concrete chains *)

#[local] Existing Instances wire_protos wire_protos_ok.

(** A transaction that creates a certificate. *)
Definition issue_tx (id : bytes) (args : list bytes) : bytes :=
  let chdr := mkChannelHeader 3 0 None (str "ch") id 0 [] [] in
  let cis := mkChaincodeInvocationSpec (Some (mkChaincodeSpec 1 None (Some (mkChaincodeInput args [] false)) 0)) in
  let cap := mkChaincodeActionPayload (Marshal (mkChaincodeProposalPayload (Marshal cis) [])) None in
  let tx := mkTransaction [mkTransactionAction [] (Marshal cap)] in
  Marshal (mkEnvelope (Marshal (mkPayload (Some (mkHeader (Marshal chdr) [])) (Marshal tx))) []).

Lemma issue_tx_invokes (id : bytes) (args : list bytes) : invokes (issue_tx id args) args.
Proof.
  do 5 eexists. split; [|split; [|split; [|split]]].
  - unfold open_tx, issue_tx, GetEnvelopeFromBlock, UnmarshalPayload, UnmarshalTransaction, UnmarshalChaincodeActionPayload.
    repeat (rewrite proto_Unmarshal_Marshal; cbn [mbind outcome_bind Envelope_Payload Payload_Data Transaction_Actions
      go_index lookup list_lookup TransactionAction_Payload]). done.
  - unfold open_spec, UnmarshalChaincodeProposalPayload, UnmarshalChaincodeInvocationSpec.
    cbn [tp_cap CAP_ChaincodeProposalPayload]. rewrite proto_Unmarshal_Marshal. cbn [mbind outcome_bind CPP_Input]. rewrite proto_Unmarshal_Marshal. done.
  - done.
  - done.
  - done.
Qed.

#[local] Opaque BlockHeaderHash block_bytes enc_raw issue_tx.

Definition ex_ca : bytes := str "ca".
Definition ex_id : bytes := str "id".
Definition ex_issue : Block := ex_block 0 [] [issue_tx (str "t0") [CreatCert; ex_id; ex_ca]].

Lemma ex_issue_carries : carries ex_issue ex_id.
Proof. exists (issue_tx (str "t0") [CreatCert; ex_id; ex_ca]), [], CreatCert, [ex_ca]. split; [reflexivity|]. split; [apply issue_tx_invokes|constructor]. Qed.

Lemma ex_issue_ok : entry_ok (ex_entry ex_issue) /\ or_nil (ValidateAnalysis ex_issue) = Ret [CreatCert; ex_id; ex_ca].
Proof. split; [apply ex_entry_ok; [done|vm_compute; reflexivity..]|vm_compute; reflexivity]. Qed.


Lemma created_certificate_found_witness :
  exists m m', addBlock ex_issue 0 m = (Ret ex_issue, m') /\ GetBlockByCA m' ex_ca ex_id = Ret (Some ex_issue).
Proof.
  destruct ex_issue_ok as [Hok Hargs]. set (mx := zlen (enc_raw (ex_bytes ex_issue))).
  destruct (open_fresh ex_fs ex_root mx ex_cfg ex_fresh ex_index_all) as (m & _ & Hs & Hr & Hx & Hd & Hf).
  pose proof (so_info _ _ Hs) as Hi. change (summary [[]]) with (mkblockfilesInfo 0 0 true 0) in Hi.
  pose proof (mo_height _ _ _ (so_mgr _ _ Hs)) as Hh. change (zlen (blocks_of [[]])) with 0 in Hh.
  pose proof (BlockfileMgrOk.mo_hash _ _ _ (so_mgr _ _ Hs)) as Hc. change (last (blocks_of [[]])) with (@None Block) in Hc.
  assert (Hvar : var_ok (w_fs (m_world m))).
  { pose proof ex_var as [Hv1 Hv2]. unfold var_ok. rewrite Hd. split; [set_solver|].
    rewrite elem_of_union, elem_of_singleton. intros [E1|E1]; [vm_compute in E1; discriminate|exact (Hv2 E1)]. }
  assert (Hib : issue_block m ex_issue (ex_bytes ex_issue) [Byte.x00] ex_id ex_ca []).
  { constructor; [apply Hs|exact Hvar|exact Hok|exact Hargs|rewrite Hh; reflexivity|rewrite Hh; reflexivity|rewrite Hc; reflexivity|rewrite Hi; reflexivity|rewrite Hi; reflexivity]. }
  assert (Hca : ca_ok m ex_ca).
  { constructor.
    - unfold can_create. rewrite Hd, Hf. apply (bool_decide_unpack _). vm_compute. exact I.
    - vm_compute. discriminate.
    - intros n Hn. rewrite Hr. intros E. apply (f_equal (take 2)) in E. discriminate E.
    - rewrite Hr. vm_compute. discriminate. }
  destruct (created_certificate_found m [[]] [] [] ex_issue (ex_bytes ex_issue) [Byte.x00] ex_id ex_ca ex_id [] 0) as (m' & chunks' & E & _ & _ & _ & Hq).
  - exact Hs.
  - reflexivity.
  - constructor.
  - unfold file_content. rewrite Hf. vm_compute. reflexivity.
  - exact Hib.
  - exact ex_issue_carries.
  - exact Hca.
  - intros _. rewrite Hx. apply Z.le_refl.
  - rewrite Hi. reflexivity.
  - apply Nat.ltb_lt. vm_compute. reflexivity.
  - exists m, m'. split; [exact E|]. rewrite Hq. cbn [first_cert]. rewrite bool_decide_eq_true_2 by reflexivity. reflexivity.
Defined.

(** The second transaction of the block creates the certificate. *)
Lemma later_certificates_missed_witness :
  let b := ex_block 0 [] [issue_tx (str "t0") [CreatCert; ex_id; ex_ca]; issue_tx (str "t1") [CreatCert; str "id2"; ex_ca]] in
  ValidateAnalysis2 (str "id2") b = Ret 0.
Proof.
  intros b. apply (later_certificates_missed b (issue_tx (str "t0") [CreatCert; ex_id; ex_ca]) [issue_tx (str "t1") [CreatCert; str "id2"; ex_ca]] CreatCert ex_id (str "id2") [ex_ca]).
  - reflexivity.
  - apply issue_tx_invokes.
  - constructor; [|constructor]. eexists. apply issue_tx_invokes.
  - vm_compute. discriminate.
Defined.

(** ** A chain of one endorsed transaction *)

Definition ex_write_set : TxRwSet := mkTxRwSet [mkNsRwSet (str "c") (mkKVRWSet [] [] [mkKVWrite (str "k") false (str "v")] []) []].

Definition ex_hblock : Block := ex_block 0 [] [endorser_envelope (TxRwSet_ToProtoBytes ex_write_set)].

Lemma ex_hblock_ok : entry_ok (ex_entry ex_hblock) /\ ordinary ex_hblock.
Proof.
  split; [apply ex_entry_ok; [done|vm_compute; reflexivity..]|]. apply ex_ordinary. vm_compute. reflexivity.
Qed.

(** A block that can be the first one of a store is in a store. *)
Lemma one_block_store (d : bytes) :
  let b := ex_block 0 [] [d] in
  entry_ok (ex_entry b) -> ordinary b -> exists m, store_ok m [[ex_entry b]].
Proof.
  intros b Hok Hord. set (mx := zlen (enc_raw (ex_bytes b))).
  destruct (open_fresh ex_fs ex_root mx ex_cfg ex_fresh ex_index_all) as (m & _ & Hs & Hr & Hx & Hd & _).
  pose proof (so_info _ _ Hs) as Hi. change (summary [[]]) with (mkblockfilesInfo 0 0 true 0) in Hi.
  pose proof (store_added m [] [] b (ex_bytes b) [Byte.x00] Hs) as Hs1. rewrite Hi in Hs1. eexists. apply Hs1; [|exact Hok|done|done|done].
  pose proof ex_var as [Hv1 Hv2]. unfold var_ok. rewrite Hd. split; [set_solver|].
  rewrite elem_of_union, elem_of_singleton. intros [E1|E1]; [vm_compute in E1; discriminate|exact (Hv2 E1)].
Qed.

Lemma endorsed_history (d : bytes) (env : Envelope) (chdr : ChannelHeader) (act : ChaincodeAction) (set : TxRwSet) :
  tx_header d = Ret (env, chdr) -> ChannelHeader_Type chdr = HeaderType_ENDORSER_TRANSACTION -> GetActionFromEnvelope d = Ret act ->
  ChaincodeAction_Results act = TxRwSet_ToProtoBytes set -> set_ok set -> history_block (ex_block 0 [] [d]).
Proof.
  intros Eh Et Ea Er Hs. constructor; [done|done|]. intros [|i] d' chdr' set' Hd Ht; [|done]. injection Hd as <-.
  unfold tx_set in Ht. change (IsInvalid _ 0) with (Ret false) in Ht. rewrite Eh, Et, Z.eqb_refl, Ea, Er in Ht.
  unfold TxRwSet_ToProtoBytes, TxRwSet_FromProtoBytes in Ht. rewrite proto_Unmarshal_Marshal in Ht. cbn [mbind outcome_bind] in Ht. rewrite TxRwSet_roundtrip in Ht.
  by injection Ht as <- <-.
Qed.

Lemma ex_write_set_ok : set_ok ex_write_set.
Proof.
  constructor; [apply (bool_decide_unpack _); vm_compute; exact I|].
  intros n ->%list_elem_of_singleton. split; [apply (bool_decide_unpack _); vm_compute; exact I|]. repeat constructor; vm_compute; congruence.
Qed.

Lemma ex_hblock_history : history_block ex_hblock.
Proof.
  destruct (endorser_envelope_ok (TxRwSet_ToProtoBytes ex_write_set)) as (env & chdr & act & Eh & Et & Ea & Er).
  exact (endorsed_history _ env chdr act ex_write_set Eh Et Ea Er ex_write_set_ok).
Qed.

Definition ex_hdb : kvmap := snd (history_commits [ex_hblock] ∅).

Lemma ex_hdb_ok : history_commits [ex_hblock] ∅ = (Ret tt, ex_hdb).
Proof.
  assert (H : fst (history_commits [ex_hblock] ∅) = Ret tt) by (vm_compute; reflexivity).
  unfold ex_hdb. destruct (history_commits [ex_hblock] ∅) as [r db]. cbn in H. by rewrite H.
Qed.

Lemma history_exact_witness :
  exists m, historyScanner_all 2 m (GetHistoryForKey ex_hdb (str "c") (str "k")) = Ret [mkKeyModification (str "tx1") (str "v") None false].
Proof.
  destruct (one_block_store (endorser_envelope (TxRwSet_ToProtoBytes ex_write_set)) (proj1 ex_hblock_ok) (proj2 ex_hblock_ok)) as (m & Hs). exists m.
  rewrite (history_exact m [ex_hblock] (chain_of [[ex_entry ex_hblock]]) ex_hdb (str "c") (str "k") 2).
  - vm_compute. reflexivity.
  - exact (so_mgr _ _ Hs).
  - constructor; [apply ex_hblock_history|constructor].
  - apply ex_hdb_ok.
  - apply (bool_decide_unpack _). vm_compute. exact I.
  - split; [discriminate|reflexivity].
  - apply Nat.ltb_lt. vm_compute. reflexivity.
Defined.

(** ** A ledger that has to recover *)

Definition ex_ledger (m : blockfileMgr) : kvLedger (D := kvmap) := mkkvLedger m LedgerExamples.ex_mgr (Some ∅) None [].

Definition ex_received : BlockAndPvtData := mkBlockAndPvtData ex_hblock ∅.

Definition ex_commits : outcome (list Block) * LockBasedTxMgr (D := kvmap) := commit_blocks ex_hash ex_processors [] 1 [ex_received] LedgerExamples.ex_mgr.

Lemma ex_commits_ok : ex_commits = (Ret [ex_hblock], snd ex_commits).
Proof.
  assert (H : fst ex_commits = Ret [ex_hblock]) by (vm_compute; reflexivity). destruct ex_commits as [r t]. cbn in H |- *. by rewrite H.
Qed.

Lemma recovery_catches_up_witness :
  exists m, syncStateAndHistoryDBWithBlockstore ex_hash ex_processors [] (fun _ => Ret []) 1 (ex_ledger m) =
    (Ret tt, set_historyDB (Some ex_hdb) (set_txmgr (snd ex_commits) (ex_ledger m))).
Proof.
  destruct (one_block_store (endorser_envelope (TxRwSet_ToProtoBytes ex_write_set)) (proj1 ex_hblock_ok) (proj2 ex_hblock_ok)) as (m & Hs). exists m.
  refine (proj1 (recovery_catches_up ex_hash ex_processors [] (fun _ => Ret []) 1 (ex_ledger m) [ex_hblock] (chain_of [[ex_entry ex_hblock]]) (fun _ => [])
    ∅ ex_hdb 0 None [ex_received] [ex_hblock] (snd ex_commits) _ _ _ _ _ _ _ _ _ _ _ _ _ _ _ _)).
  - exact (so_mgr _ _ Hs).
  - discriminate.
  - reflexivity.
  - constructor; [apply ex_hblock_history|constructor].
  - reflexivity.
  - reflexivity.
  - reflexivity.
  - apply Nat.le_0_l.
  - reflexivity.
  - exact ex_hdb_ok.
  - vm_compute. reflexivity.
  - split; discriminate.
  - reflexivity.
  - intros ty p env sim sim' E. discriminate E.
  - exact ex_commits_ok.
  - repeat constructor.
Defined.

Lemma one_batch_map (ns key : bytes) (vv : VersionedValue) (n : bytes) (m : nsUpdates) :
  Updates (Batch_Update ns key vv NewUpdateBatch) !! n = Some m -> n = ns /\ m <> ∅.
Proof.
  unfold Batch_Update. cbn [Updates NewUpdateBatch]. intros [[<- <-]|[_ E]]%lookup_insert_Some; [|by rewrite lookup_empty in E].
  split; [done|]. apply insert_non_empty.
Qed.

Lemma three_maps_ok (ns key coll h p : bytes) (v hv pv : VersionedValue) :
  coll <> [] -> maps_ok (mkPrivUpdateBatch (Batch_Update ns key v NewUpdateBatch) (one_update ns coll h hv) (one_update ns coll p pv)).
Proof.
  intros Hc. constructor; cbn [PubUpdates HashUpdates].
  - intros n m E. by apply one_batch_map in E as [_ ?].
  - unfold one_update. intros n nb [[<- <-]|[_ E]]%lookup_insert_Some; [|by rewrite lookup_empty in E].
    split; [apply insert_non_empty|]. intros c u [-> Hu]%one_batch_map. done.
Qed.

Definition ex_chain : list (Block * PrivUpdateBatch) := [(ex_hblock, ex_batch0)].

Lemma ex_chain_ok : chain_ok ex_chain.
Proof.
  constructor; [|constructor]. cbn [fst snd]. split; [|split; [apply ex_batch0_updates|done]].
  rewrite ex_batch0_eq. apply three_maps_ok. discriminate.
Qed.

Lemma commit_hash_binds_updates_witness :
  exists h, hash_chain [] ex_chain = Ret h /\
    Forall2 (fun x x' => block_flags (fst x) = block_flags (fst x') /\ same_public (snd x) (snd x')) ex_chain ex_chain.
Proof.
  assert (H : exists h, hash_chain [] ex_chain = Ret h).
  { destruct (update_bytes_entries ex_batch0 (proj1 (Forall_inv ex_chain_ok))) as (kvs & Ek & _). cbn [hash_chain ex_chain]. rewrite Ek. eexists. reflexivity. }
  destruct H as [h E]. exists h. split; [exact E|].
  apply (commit_hash_binds_updates ex_chain ex_chain h eq_refl ex_chain_ok ex_chain_ok E E).
  intros p q ->%list_elem_of_singleton ->%list_elem_of_singleton _. reflexivity.
Defined.
