(* ===== verification/BlockCutter.v ===== *)
(** * The block cutter of the orderer

    src/orderer/common/blockcutter/blockcutter.go: ordered messages are collected in
    a pending batch, which is cut when it has enough messages or would become too
    large.  Time stamps and metrics are left out: no decision depends on them. *)

From S2P Require Import Prelude Proto.

(** [BatchSize] of the orderer configuration, three [uint32]. *)
Record BatchSize := mkBatchSize {
  MaxMessageCount : Z;
  AbsoluteMaxBytes : Z;
  PreferredMaxBytes : Z }.

Record receiver := mkreceiver {
  r_pendingBatch : list Envelope;
  r_pendingBatchSizeBytes : Z }.

Definition NewReceiverImpl : receiver := mkreceiver [] 0.

Definition messageSizeBytes (message : Envelope) : Z := u32 (zlen (Envelope_Payload message) + zlen (Envelope_Signature message)).

Definition Cut : M receiver (list Envelope) := fun r => (Ret (r_pendingBatch r), mkreceiver [] 0).

(** [config] is what the configuration gives; without one the orderer panics. *)
Definition Ordered (config : option BatchSize) (msg : Envelope) : M receiver (list (list Envelope) * bool) :=
  match config with
  | None => panic "Could not retrieve orderer config to query batch parameters, block cutting is not possible"
  | Some batchSize =>
      let size := messageSizeBytes msg in
      r ← get_state;
      if PreferredMaxBytes batchSize <? size then
        messageBatches ← (if (0 <? length (r_pendingBatch r))%nat then messageBatch ← Cut; mret [messageBatch] else mret []);
        mret (messageBatches ++ [[msg]], false)
      else
        messageBatches ← (if PreferredMaxBytes batchSize <? u32 (r_pendingBatchSizeBytes r + size) then
                            messageBatch ← Cut; mret [messageBatch] else mret []);
        _ ← modify_state (fun r => mkreceiver (r_pendingBatch r ++ [msg]) (u32 (r_pendingBatchSizeBytes r + size)));
        r ← get_state;
        if MaxMessageCount batchSize <=? u32 (zlen (r_pendingBatch r)) then
          messageBatch ← Cut; mret (messageBatches ++ [messageBatch], false)
        else mret (messageBatches, true)
  end.

(** ** What the cutter keeps *)

(** The true size of a list of messages. *)
Definition total_size (l : list Envelope) : Z :=
  fold_right (fun e n => zlen (Envelope_Payload e) + zlen (Envelope_Signature e) + n) 0 l.

Lemma total_size_app (l k : list Envelope) : total_size (l ++ k) = total_size l + total_size k.
Proof. induction l as [|e l IH]; [done|]. cbn [app total_size fold_right] in *. fold (total_size (l ++ k)) (total_size l). lia. Qed.

Lemma total_size_nonneg (l : list Envelope) : 0 <= total_size l.
Proof.
  induction l as [|e l IH]; [done|]. cbn [total_size fold_right]. fold (total_size l).
  pose proof (zlen_nonneg (Envelope_Payload e)). pose proof (zlen_nonneg (Envelope_Signature e)). lia.
Qed.

(** Sizes for which the counters of 32 bits do not wrap: a message below 2^31 bytes and a
    preferred size below 2^31. *)
Definition batch_size_ok (b : BatchSize) : Prop := 1 <= MaxMessageCount b < 2 ^ 32 /\ 0 <= PreferredMaxBytes b < 2 ^ 31.

Definition message_ok (e : Envelope) : Prop := zlen (Envelope_Payload e) + zlen (Envelope_Signature e) < 2 ^ 31.

Record pending_ok (b : BatchSize) (r : receiver) : Prop := {
  po_count : zlen (r_pendingBatch r) < MaxMessageCount b;
  po_size : r_pendingBatchSizeBytes r = total_size (r_pendingBatch r);
  po_preferred : r_pendingBatchSizeBytes r <= PreferredMaxBytes b }.

(** A batch to be made a block: not empty, not too many messages, and not larger
    than preferred unless it is a single message. *)
Definition batch_ok (b : BatchSize) (batch : list Envelope) : Prop :=
  batch <> [] /\ zlen batch <= MaxMessageCount b /\ (total_size batch <= PreferredMaxBytes b \/ exists e, batch = [e]).

Lemma messageSizeBytes_ok (e : Envelope) : message_ok e -> messageSizeBytes e = total_size [e].
Proof.
  intros He. unfold messageSizeBytes, total_size, u32. cbn [fold_right]. unfold message_ok in He.
  pose proof (zlen_nonneg (Envelope_Payload e)). pose proof (zlen_nonneg (Envelope_Signature e)). rewrite Z.mod_small; lia.
Qed.

Lemma pending_ok_nil (b : BatchSize) : batch_size_ok b -> pending_ok b NewReceiverImpl.
Proof. intros [Hc Hp]. constructor; cbn; rewrite ?zlen_nil; lia. Qed.

Lemma pending_batch_ok (b : BatchSize) (r : receiver) : pending_ok b r -> r_pendingBatch r <> [] -> batch_ok b (r_pendingBatch r).
Proof. intros [H1 H2 H3] Hne. split; [done|]. split; [lia|left; lia]. Qed.

(** What one message leads to, from the pending messages [old]. *)
Record ordered_ok (b : BatchSize) (old : list Envelope) (msg : Envelope) (batches : list (list Envelope)) (pending : bool) (r' : receiver) : Prop := {
  oo_order : mjoin batches ++ r_pendingBatch r' = old ++ [msg];
  oo_pending : pending_ok b r';
  oo_batches : Forall (batch_ok b) batches;
  oo_length : (length batches <= 2)%nat;
  oo_flag : pending = negb (bool_decide (r_pendingBatch r' = [])) }.

(** The message joins [r], after the batches [cut]. *)
Lemma enqueue_ok (b : BatchSize) (msg : Envelope) (r : receiver) (cut : list (list Envelope)) (old : list Envelope) :
  batch_size_ok b -> message_ok msg -> pending_ok b r -> Forall (batch_ok b) cut -> (length cut <= 1)%nat ->
  mjoin cut ++ r_pendingBatch r = old -> r_pendingBatchSizeBytes r + total_size [msg] <= PreferredMaxBytes b ->
  let r1 := mkreceiver (r_pendingBatch r ++ [msg]) (u32 (r_pendingBatchSizeBytes r + total_size [msg])) in
  if MaxMessageCount b <=? u32 (zlen (r_pendingBatch r1))
  then ordered_ok b old msg (cut ++ [r_pendingBatch r1]) false NewReceiverImpl
  else ordered_ok b old msg cut true r1.
Proof.
  intros Hb Hm [H1 H2 H3] Hcut Hlen Hold Hfit r1. pose proof Hb as [Hc Hp]. pose proof (total_size_nonneg (r_pendingBatch r)).
  pose proof (total_size_nonneg [msg]). pose proof (zlen_nonneg (r_pendingBatch r)).
  assert (El : zlen (r_pendingBatch r ++ [msg]) = zlen (r_pendingBatch r) + 1) by (rewrite zlen_app; done).
  assert (Es : u32 (r_pendingBatchSizeBytes r + total_size [msg]) = total_size (r_pendingBatch r ++ [msg])).
  { rewrite total_size_app, <- H2. apply Z.mod_small. lia. }
  assert (Eu : u32 (zlen (r_pendingBatch r ++ [msg])) = zlen (r_pendingBatch r) + 1) by (rewrite El; apply Z.mod_small; lia).
  unfold r1. cbn [r_pendingBatch]. rewrite Eu. destruct (Z.leb_spec (MaxMessageCount b) (zlen (r_pendingBatch r) + 1)) as [Hfull|Hroom].
  - constructor; [|by apply pending_ok_nil| |rewrite length_app; cbn; lia|done].
    + rewrite join_app. cbn. rewrite !app_nil_r, <- Hold. by rewrite app_assoc.
    + apply Forall_app. split; [done|]. apply Forall_singleton. split; [by destruct (r_pendingBatch r)|]. split; [lia|].
      left. rewrite total_size_app. lia.
  - constructor; [| |done|lia|].
    + cbn. rewrite <- Hold. by rewrite app_assoc.
    + constructor; cbn [r_pendingBatch r_pendingBatchSizeBytes]; rewrite ?Es, ?total_size_app; lia.
    + cbn. rewrite bool_decide_eq_false_2; [done|]. by destruct (r_pendingBatch r).
Qed.

(** One message: what comes out followed by what is pending is what was pending
    followed by the message. *)
Lemma Ordered_step (b : BatchSize) (msg : Envelope) (r : receiver) :
  batch_size_ok b -> message_ok msg -> pending_ok b r ->
  exists batches pending r', Ordered (Some b) msg r = (Ret (batches, pending), r') /\
    ordered_ok b (r_pendingBatch r) msg batches pending r'.
Proof.
  intros Hb Hm Hr. pose proof Hb as [Hc Hp]. pose proof Hr as [H1 H2 H3]. pose proof (total_size_nonneg (r_pendingBatch r)).
  pose proof (total_size_nonneg [msg]). assert (Hms : total_size [msg] < 2 ^ 31) by (unfold message_ok in Hm; cbn [total_size fold_right]; lia).
  unfold Ordered. rewrite messageSizeBytes_ok by done. unfold mbind, M_bind, get_state, mret, M_ret, modify_state, Cut.
  destruct (Z.ltb_spec (PreferredMaxBytes b) (total_size [msg])) as [Hbig|Hsmall].
  - assert (Hone : batch_ok b [msg]) by (split; [done|]; split; [rewrite zlen_cons, zlen_nil; lia|right; eauto]).
    destruct (r_pendingBatch r) as [|e l] eqn:E; cbn [length Nat.ltb Nat.leb].
    + do 3 eexists. split; [done|]. constructor; [by cbn; rewrite E|done|by apply Forall_singleton|cbn; lia|by rewrite E].
    + do 3 eexists. split; [done|]. constructor; [by cbn; rewrite !app_nil_r, E|by apply pending_ok_nil| |cbn; lia|done].
      apply Forall_cons. split; [apply pending_batch_ok; [done|by rewrite E]|by apply Forall_singleton].
  - assert (Hu : u32 (r_pendingBatchSizeBytes r + total_size [msg]) = r_pendingBatchSizeBytes r + total_size [msg]) by (apply Z.mod_small; lia).
    rewrite Hu. destruct (Z.ltb_spec (PreferredMaxBytes b) (r_pendingBatchSizeBytes r + total_size [msg])) as [Hover|Hfit].
    + assert (Hne : r_pendingBatch r <> []) by (intros E; rewrite H2, E in Hover; change (total_size []) with 0 in Hover; lia).
      pose proof (enqueue_ok b msg NewReceiverImpl [r_pendingBatch r] (r_pendingBatch r) Hb Hm (pending_ok_nil b Hb)) as Hq.
      cbv zeta in Hq. cbn [NewReceiverImpl r_pendingBatch r_pendingBatchSizeBytes] in Hq |- *.
      destruct (MaxMessageCount b <=? _); do 3 eexists; (split; [done|]); apply Hq;
        (apply Forall_singleton, pending_batch_ok; done) || (cbn; rewrite ?app_nil_r; done) || (cbn; lia).
    + pose proof (enqueue_ok b msg r [] (r_pendingBatch r) Hb Hm Hr) as Hq. cbv zeta in Hq. rewrite Hu in Hq. cbn [r_pendingBatch] in Hq |- *.
      rewrite Hu. destruct (MaxMessageCount b <=? _); do 3 eexists; (split; [done|]); apply Hq; done || (cbn; lia).
Qed.

(** A sequence of messages. *)
Fixpoint ordered_all (config : option BatchSize) (msgs : list Envelope) : M receiver (list (list Envelope)) :=
  match msgs with
  | [] => mret []
  | msg :: msgs' =>
      '(batches, _) ← Ordered config msg;
      rest ← ordered_all config msgs';
      mret (batches ++ rest)
  end.

(** C37: Whatever the sequence of messages, the batches that are cut, followed by what is
    still pending, are these messages in their order, none lost and none repeated;
    every batch is non-empty, has at most the configured number of messages, and is
    not larger than preferred unless it is a single message; and fewer messages than
    make a batch stay pending. *)
Theorem cutter_preserves_order (b : BatchSize) (msgs : list Envelope) :
  batch_size_ok b -> Forall message_ok msgs ->
  exists batches r, ordered_all (Some b) msgs NewReceiverImpl = (Ret batches, r) /\
    mjoin batches ++ r_pendingBatch r = msgs /\ Forall (batch_ok b) batches /\
    zlen (r_pendingBatch r) < MaxMessageCount b.
Proof.
  intros Hb Hm. assert (H : forall r, pending_ok b r -> exists batches r', ordered_all (Some b) msgs r = (Ret batches, r') /\
    mjoin batches ++ r_pendingBatch r' = r_pendingBatch r ++ msgs /\ Forall (batch_ok b) batches /\ pending_ok b r').
  { induction Hm as [|msg msgs Hmsg Hm IH]; intros r Hr; [exists [], r; by rewrite app_nil_r|].
    destruct (Ordered_step b msg r Hb Hmsg Hr) as (bs & pd & r1 & E1 & [Ho Hp Hbs _ _]).
    destruct (IH r1 Hp) as (rest & r2 & E2 & Ho2 & Hbs2 & Hp2). exists (bs ++ rest), r2. cbn [ordered_all].
    unfold mbind, M_bind, mret, M_ret. rewrite E1, E2. split; [done|].
    split; [rewrite join_app, <- app_assoc, Ho2, app_assoc, Ho, <- app_assoc; done|]. split; [by apply Forall_app|done]. }
  destruct (H NewReceiverImpl (pending_ok_nil b Hb)) as (batches & r & E & Ho & Hbs & [Hp _ _]). by exists batches, r.
Qed.

Lemma cutter_preserves_order_witness :
  exists batches r, ordered_all (Some (mkBatchSize 2 100 10)) [mkEnvelope (str "a") []; mkEnvelope (str "longer than ten") []; mkEnvelope (str "b") []] NewReceiverImpl = (Ret batches, r) /\
    mjoin batches ++ r_pendingBatch r = [mkEnvelope (str "a") []; mkEnvelope (str "longer than ten") []; mkEnvelope (str "b") []] /\
    Forall (batch_ok (mkBatchSize 2 100 10)) batches /\ zlen (r_pendingBatch r) < 2.
Proof. apply (cutter_preserves_order (mkBatchSize 2 100 10)); [by split; cbn|by repeat constructor]. Defined.
