(* ===== verification/PvtStore.v ===== *)
(** * The store of private data

    src/core/ledger/pvtdatastorage.  Next to the block store a peer keeps the private
    write sets of the blocks, collection by collection, in a database of its own,
    together with what is missing of them (kv_encoding.go).  Every entry is listed
    under the block at which it expires; from time to time a background routine
    deletes what has expired (store.go, helper.go).  Write sets that arrive late take
    the place of their missing entries (reconcile_missing_pvtdata.go).

    The database is the map behind a handle of [LevelDB].  A bit set of transaction
    numbers is the set of its bits; its encoding, like that of the messages, is a
    codec.  The time is an argument. *)

From S2P Require Import Prelude Wire Varint OrderedCode GoOS LevelDB Proto StateProto BatchPreparer PurgeMgr.

(** ** Messages (persistent_msgs.proto) *)

Record NamespaceExpiryData := mkNamespaceExpiryData {
  PresentData : gmap bytes (list Z);
  MissingData : gmap bytes bool;
  BootKVHashes : gmap bytes (list Z) }.

Record BootKVHash := mkBootKVHash {
  BootKVHash_KeyHash : bytes;
  BootKVHash_ValueHash : bytes }.

Abbreviation ExpiryDataMsg := (gmap bytes NamespaceExpiryData).
Abbreviation BootKVHashesMsg := (list BootKVHash).
Abbreviation CollElgInfo := (gmap bytes (list bytes)).
Abbreviation BitSet := (gset Z).

(** In memory the map of an entry can be nil. *)
Abbreviation ExpiryData := (option (gmap bytes NamespaceExpiryData)).

Class PvtStoreProtos : Type := {
  #[global] PSP_Coll :: Codec CollectionPvtReadWriteSet;
  #[global] PSP_Tx :: Codec TxPvtReadWriteSet;
  #[global] PSP_Expiry :: Codec ExpiryDataMsg;
  #[global] PSP_Boot :: Codec BootKVHashesMsg;
  #[global] PSP_Elg :: Codec CollElgInfo;
  #[global] PSP_Bits :: Codec BitSet }.

Class PvtStoreProtosOk `{!PvtStoreProtos} : Prop := {
  #[global] PSPOk_Coll :: CodecOk CollectionPvtReadWriteSet;
  #[global] PSPOk_Tx :: CodecOk TxPvtReadWriteSet;
  #[global] PSPOk_Expiry :: CodecOk ExpiryDataMsg;
  #[global] PSPOk_Boot :: CodecOk BootKVHashesMsg;
  #[global] PSPOk_Elg :: CodecOk CollElgInfo;
  #[global] PSPOk_Bits :: CodecOk BitSet }.

(** ** Keys (store.go) *)

Record nsCollBlk := mknsCollBlk {
  nc_ns : bytes;
  nc_coll : bytes;
  nc_blkNum : Z }.

#[global] Instance nsCollBlk_eq_dec : EqDecision nsCollBlk.
Proof. solve_decision. Defined.

#[global] Instance nsCollBlk_countable : Countable nsCollBlk.
Proof. refine (inj_countable' (fun m => (nc_ns m, nc_coll m, nc_blkNum m)) (fun '(a, b, c) => mknsCollBlk a b c) _). by intros []. Defined.

(** [missingDataKey] has no other field. *)
Abbreviation missingDataKey := nsCollBlk.

Record dataKey := mkdataKey {
  dt_nsCollBlk : nsCollBlk;
  dt_txNum : Z }.

#[global] Instance dataKey_eq_dec : EqDecision dataKey.
Proof. solve_decision. Defined.

#[global] Instance dataKey_countable : Countable dataKey.
Proof. refine (inj_countable' (fun m => (dt_nsCollBlk m, dt_txNum m)) (fun '(a, b) => mkdataKey a b) _). by intros []. Defined.

Record expiryKey := mkexpiryKey {
  xk_expiringBlk : Z;
  xk_committingBlk : Z }.

#[global] Instance expiryKey_eq_dec : EqDecision expiryKey.
Proof. solve_decision. Defined.

#[global] Instance expiryKey_countable : Countable expiryKey.
Proof. refine (inj_countable' (fun m => (xk_expiringBlk m, xk_committingBlk m)) (fun '(a, b) => mkexpiryKey a b) _). by intros []. Defined.

Record bootKVHashesKey := mkbootKVHashesKey {
  bk_blkNum : Z;
  bk_txNum : Z;
  bk_ns : bytes;
  bk_coll : bytes }.

(** ** Encodings (kv_encoding.go) *)

Definition pendingCommitKey : bytes := [Byte.x00].
Definition lastCommittedBlkkey : bytes := [Byte.x01].
Definition pvtDataKeyPrefix : bytes := [Byte.x02].
Definition expiryKeyPrefix : bytes := [Byte.x03].
Definition elgPrioritizedMissingDataGroup : bytes := [Byte.x04].
Definition inelgMissingDataGroup : bytes := [Byte.x05].
Definition collElgKeyPrefix : bytes := [Byte.x06].
Definition lastUpdatedOldBlocksKey : bytes := [Byte.x07].
Definition elgDeprioritizedMissingDataGroup : bytes := [Byte.x08].
Definition bootKVHashesKeyPrefix : bytes := [Byte.x09].
Definition lastBlockInBootSnapshotKey : bytes := str "a".
Definition nilByte : byte := Byte.x00.

Definition getDataKeysForRangeScanByBlockNum (blockNum : Z) : bytes * bytes :=
  (pvtDataKeyPrefix ++ Height_ToBytes (NewHeight blockNum 0), pvtDataKeyPrefix ++ Height_ToBytes (NewHeight (u64 (blockNum + 1)) 0)).

Definition getExpiryKeysForRangeScan (minBlkNum maxBlkNum : Z) : bytes * bytes :=
  (expiryKeyPrefix ++ Height_ToBytes (NewHeight minBlkNum 0), expiryKeyPrefix ++ Height_ToBytes (NewHeight (u64 (maxBlkNum + 1)) 0)).

Definition encodeLastCommittedBlockVal (blockNum : Z) : bytes := EncodeVarint blockNum.

Definition decodeLastCommittedBlockVal (blockNumBytes : bytes) : Z := fst (DecodeVarint blockNumBytes).

Definition encodeDataKey (key : dataKey) : bytes :=
  pvtDataKeyPrefix ++ Height_ToBytes (NewHeight (nc_blkNum (dt_nsCollBlk key)) (dt_txNum key)) ++
    nc_ns (dt_nsCollBlk key) ++ nilByte :: nc_coll (dt_nsCollBlk key).

Definition encodeExpiryKey (key : expiryKey) : bytes :=
  expiryKeyPrefix ++ Height_ToBytes (NewHeight (xk_expiringBlk key) (xk_committingBlk key)).

(** [b[1:]] *)
Definition slice1 (b : bytes) : outcome bytes :=
  match b with [] => Panic "slice bounds out of range" | _ :: b' => Ret b' end.

Definition decodeExpiryKey (expiryKeyBytes : bytes) : outcome expiryKey :=
  b ← slice1 expiryKeyBytes;
  '(height, _) ← NewHeightFromBytes b;
  Ret (mkexpiryKey (BlockNum height) (TxNum height)).

(** [bytes.IndexByte], [None] for -1. *)
Fixpoint IndexByte (b : bytes) (c : byte) : option nat :=
  match b with
  | [] => None
  | x :: b' => if bool_decide (x = c) then Some 0%nat else S <$> IndexByte b' c
  end.

Definition decodeDatakey (datakeyBytes : bytes) : outcome dataKey :=
  b ← slice1 datakeyBytes;
  '(v, n) ← NewHeightFromBytes b;
  let remainingBytes := drop (Z.to_nat n) b in
  match IndexByte remainingBytes nilByte with
  | None => Panic "slice bounds out of range"
  | Some nilByteIndex =>
      Ret (mkdataKey (mknsCollBlk (take nilByteIndex remainingBytes) (drop (S nilByteIndex) remainingBytes) (BlockNum v)) (TxNum v))
  end.

Fixpoint count_ff (l : bytes) : nat :=
  match l with
  | [] => 0
  | b :: l' => if bool_decide (b = Byte.xff) then S (count_ff l') else 0
  end.

Definition encodeReverseOrderVarUint64 (number : Z) : bytes :=
  let bs := be_bytes 8 (MaxUint64 - number) in
  let numFFBytes := count_ff bs in
  take 1 (EncodeVarint (Z.of_nat numFFBytes)) ++ drop numFFBytes bs.

Definition decodeReverseOrderVarUint64 (bs : bytes) : outcome (Z * nat) :=
  let '(s, _) := DecodeVarint bs in
  let numFFBytes := i64 s in
  let realBytesNum := 8 - numFFBytes in
  if (numFFBytes <? 0) || (8 <? numFFBytes) || (zlen bs <? realBytesNum + 1) then Panic "slice bounds out of range" else
  let decodedBytes := replicate (Z.to_nat numFFBytes) Byte.xff ++ take (Z.to_nat realBytesNum) (drop 1 bs) in
  Ret (MaxUint64 - be_val decodedBytes, Z.to_nat (realBytesNum + 1)).

Definition encodeElgMissingDataKey (group : bytes) (key : missingDataKey) : bytes :=
  group ++ encodeReverseOrderVarUint64 (nc_blkNum key) ++ nc_ns key ++ nilByte :: nc_coll key.

Definition encodeElgPrioMissingDataKey : missingDataKey -> bytes := encodeElgMissingDataKey elgPrioritizedMissingDataGroup.
Definition encodeElgDeprioMissingDataKey : missingDataKey -> bytes := encodeElgMissingDataKey elgDeprioritizedMissingDataGroup.

Definition decodeElgMissingDataKey (keyBytes : bytes) : outcome missingDataKey :=
  b ← slice1 keyBytes;
  '(blkNum, numBytesConsumed) ← decodeReverseOrderVarUint64 b;
  let splittedKey := Split (drop numBytesConsumed b) [nilByte] in
  ns ← go_index splittedKey 0;
  coll ← go_index splittedKey 1;
  Ret (mknsCollBlk ns coll blkNum).

Definition encodeInelgMissingDataKey (key : missingDataKey) : bytes :=
  inelgMissingDataGroup ++ nc_ns key ++ nilByte :: nc_coll key ++ nilByte :: encodeReverseOrderVarUint64 (nc_blkNum key).

(** [bytes.SplitN] with 3: the number of the block may contain the separator. *)
Definition decodeInelgMissingDataKey (keyBytes : bytes) : outcome missingDataKey :=
  b ← slice1 keyBytes;
  match cut [nilByte] b with
  | None => Panic "index out of range"
  | Some (ns, rest) =>
      match cut [nilByte] rest with
      | None => Panic "index out of range"
      | Some (coll, blk) => '(blkNum, _) ← decodeReverseOrderVarUint64 blk; Ret (mknsCollBlk ns coll blkNum)
      end
  end.

Definition encodeCollElgKey (blkNum : Z) : bytes := collElgKeyPrefix ++ encodeReverseOrderVarUint64 blkNum.

Definition decodeCollElgKey (b : bytes) : outcome Z :=
  b ← slice1 b; '(blkNum, _) ← decodeReverseOrderVarUint64 b; Ret blkNum.

Definition encodeBootKVHashesKey (key : bootKVHashesKey) : bytes :=
  bootKVHashesKeyPrefix ++ Height_ToBytes (NewHeight (bk_blkNum key) (bk_txNum key)) ++ bk_ns key ++ nilByte :: bk_coll key.

Definition encodeLastBlockInBootSnapshotVal (blockNum : Z) : bytes := EncodeVarint blockNum.

Definition decodeLastBlockInBootSnapshotVal (blockNumBytes : bytes) : outcome Z :=
  let '(s, n) := DecodeVarint blockNumBytes in
  if (n =? 0)%nat then Err (Errorf "unexpected bytes for interpreting as varint") else Ret s.

Definition createRangeScanKeysForElgMissingData (blkNum : Z) (group : bytes) : bytes * bytes :=
  (group ++ encodeReverseOrderVarUint64 blkNum, group ++ encodeReverseOrderVarUint64 0).

Definition createRangeScanKeysForInelgMissingData (maxBlkNum : Z) (ns coll : bytes) : bytes * bytes :=
  (encodeInelgMissingDataKey (mknsCollBlk ns coll maxBlkNum), encodeInelgMissingDataKey (mknsCollBlk ns coll 0)).

Definition createRangeScanKeysForCollElg : bytes * bytes := (encodeCollElgKey MaxUint64, encodeCollElgKey 0).

(** ** Expiry data (persistent_msgs_helper.go) *)

Definition newExpiryData : ExpiryData := Some ∅.

Definition getOrCreateCollections (ns : bytes) (m : gmap bytes NamespaceExpiryData) : NamespaceExpiryData :=
  default (mkNamespaceExpiryData ∅ ∅ ∅) (m !! ns).

Definition addPresentData (ns coll : bytes) (txNum : Z) (e : ExpiryData) : outcome ExpiryData :=
  match e with
  | None => Panic "assignment to entry in nil map"
  | Some m =>
      let d := getOrCreateCollections ns m in
      Ret (Some (<[ns := mkNamespaceExpiryData (<[coll := default [] (PresentData d !! coll) ++ [txNum]]> (PresentData d)) (MissingData d) (BootKVHashes d)]> m))
  end.

Definition addMissingData (ns coll : bytes) (e : ExpiryData) : outcome ExpiryData :=
  match e with
  | None => Panic "assignment to entry in nil map"
  | Some m =>
      let d := getOrCreateCollections ns m in
      Ret (Some (<[ns := mkNamespaceExpiryData (PresentData d) (<[coll := true]> (MissingData d)) (BootKVHashes d)]> m))
  end.

Definition BootKVHashes_toMap (h : BootKVHashesMsg) : gmap bytes bytes :=
  fold_left (fun m kv => <[BootKVHash_KeyHash kv := BootKVHash_ValueHash kv]> m) h ∅.

Definition newCollElgInfo (nsCollMap : gmap bytes (list bytes)) : CollElgInfo := nsCollMap.

(** ** What is missing (src/core/ledger/ledger_interface.go) *)

Record MissingPvtData := mkMissingPvtData {
  mp_Namespace : bytes;
  mp_Collection : bytes;
  mp_IsEligible : bool }.

Abbreviation TxMissingPvtData := (gmap Z (list MissingPvtData)).

(** By block and transaction, the collections. *)
Abbreviation MissingPvtDataInfo := (gmap Z (gmap Z (list (bytes * bytes)))).

Definition MissingPvtDataInfo_Add (blkNum txNum : Z) (ns coll : bytes) (info : MissingPvtDataInfo) : MissingPvtDataInfo :=
  let b := default ∅ (info !! blkNum) in
  <[blkNum := <[txNum := default [] (b !! txNum) ++ [(ns, coll)]]> b]> info.

Abbreviation PvtNsCollFilter := (gmap bytes (gmap bytes bool)).

Definition Filter_Has (filter : PvtNsCollFilter) (ns coll : bytes) : bool :=
  match filter !! ns with
  | None => false
  | Some collFilter => default false (collFilter !! coll)
  end.

(** ** The entries of a block (helper.go) *)

Section Helper.
Context {BP : BTLPolicy}.

Abbreviation dataEntry := (dataKey * CollectionPvtReadWriteSet)%type.
Abbreviation expiryEntry := (expiryKey * ExpiryData)%type.
Abbreviation missingEntries := (gmap missingDataKey BitSet).

Record storeEntries := mkstoreEntries {
  se_dataEntries : list dataEntry;
  se_expiryEntries : list expiryEntry;
  se_elgMissingDataEntries : missingEntries;
  se_inelgMissingDataEntries : missingEntries }.

Fixpoint prepareDataEntries (blockNum : Z) (pvtData : list TxPvtData) : outcome (list dataEntry) :=
  match pvtData with
  | [] => Ret []
  | txPvtdata :: pvtData' =>
      match WriteSet txPvtdata with
      | None => Panic "nil pointer dereference"
      | Some ws =>
          rest ← prepareDataEntries blockNum pvtData';
          Ret ((TxPvtReadWriteSet_NsPvtRwset ws ≫= fun nsPvtdata =>
                  (fun collPvtdata => (mkdataKey (mknsCollBlk (NsPvtReadWriteSet_Namespace nsPvtdata)
                     (CollectionPvtReadWriteSet_CollectionName collPvtdata) blockNum) (SeqInBlock txPvtdata), collPvtdata)) <$>
                  NsPvtReadWriteSet_CollectionPvtRwset nsPvtdata) ++ rest)
      end
  end.

Definition add_missing_bit (key : missingDataKey) (txNum : Z) (m : missingEntries) : missingEntries :=
  <[key := {[txNum]} ∪ default ∅ (m !! key)]> m.

Definition prepareMissingDataEntries (committingBlk : Z) (missingPvtData : TxMissingPvtData) : missingEntries * missingEntries :=
  fold_left (fun acc '(txNum, missingData) =>
      fold_left (fun '(elg, inelg) nsColl =>
          let key := mknsCollBlk (mp_Namespace nsColl) (mp_Collection nsColl) committingBlk in
          if mp_IsEligible nsColl then (add_missing_bit key txNum elg, inelg) else (elg, add_missing_bit key txNum inelg))
        missingData acc)
    (map_to_list missingPvtData) (∅, ∅).

Definition prepareExpiryEntriesForPresentData (key : dataKey) (mapByExpiringBlk : gmap Z ExpiryData) : outcome (gmap Z ExpiryData) :=
  let k := dt_nsCollBlk key in
  expiringBlk ← GetExpiringBlock (nc_ns k) (nc_coll k) (nc_blkNum k);
  if neverExpires expiringBlk then Ret mapByExpiringBlk else
  expiryData ← addPresentData (nc_ns k) (nc_coll k) (dt_txNum key) (default newExpiryData (mapByExpiringBlk !! expiringBlk));
  Ret (<[expiringBlk := expiryData]> mapByExpiringBlk).

Definition prepareExpiryEntriesForMissingData (k : missingDataKey) (mapByExpiringBlk : gmap Z ExpiryData) : outcome (gmap Z ExpiryData) :=
  expiringBlk ← GetExpiringBlock (nc_ns k) (nc_coll k) (nc_blkNum k);
  if neverExpires expiringBlk then Ret mapByExpiringBlk else
  expiryData ← addMissingData (nc_ns k) (nc_coll k) (default newExpiryData (mapByExpiringBlk !! expiringBlk));
  Ret (<[expiringBlk := expiryData]> mapByExpiringBlk).

Definition prepareExpiryEntries (committingBlk : Z) (dataEntries : list dataEntry) (elg inelg : missingEntries) : outcome (list expiryEntry) :=
  m ← for_range prepareExpiryEntriesForPresentData dataEntries.*1 ∅;
  m ← for_range prepareExpiryEntriesForMissingData (map_to_list elg).*1 m;
  m ← for_range prepareExpiryEntriesForMissingData (map_to_list inelg).*1 m;
  Ret ((fun '(expiryBlk, expiryData) => (mkexpiryKey expiryBlk committingBlk, expiryData)) <$> map_to_list m).

Definition prepareStoreEntries (blockNum : Z) (pvtData : list TxPvtData) (missingPvtData : TxMissingPvtData) : outcome storeEntries :=
  dataEntries ← prepareDataEntries blockNum pvtData;
  let '(elg, inelg) := prepareMissingDataEntries blockNum missingPvtData in
  expiryEntries ← prepareExpiryEntries blockNum dataEntries elg inelg;
  Ret (mkstoreEntries dataEntries expiryEntries elg inelg).

Definition present_keys (committingBlk : Z) (ns : bytes) (colls : gmap bytes (list Z)) : list dataKey :=
  map_to_list colls ≫= fun '(coll, txNums) => (fun txNum => mkdataKey (mknsCollBlk ns coll committingBlk) txNum) <$> txNums.

Definition deriveKeys (e : expiryEntry) : list dataKey * list missingDataKey * list bootKVHashesKey :=
  let committingBlk := xk_committingBlk (fst e) in
  let m := map_to_list (default ∅ (snd e)) in
  (m ≫= fun '(ns, colls) => present_keys committingBlk ns (PresentData colls),
   m ≫= fun '(ns, colls) => (fun '(coll, _) => mknsCollBlk ns coll committingBlk) <$> map_to_list (MissingData colls),
   m ≫= fun '(ns, colls) => map_to_list (BootKVHashes colls) ≫= fun '(coll, txNums) =>
     (fun txNum => mkbootKVHashesKey committingBlk txNum ns coll) <$> txNums).

Definition passesFilter (key : dataKey) (filter : option PvtNsCollFilter) : bool :=
  match filter with
  | None => true
  | Some f => Filter_Has f (nc_ns (dt_nsCollBlk key)) (nc_coll (dt_nsCollBlk key))
  end.

Definition isExpired (key : nsCollBlk) (latestBlkNum : Z) : outcome bool :=
  expiringBlk ← GetExpiringBlock (nc_ns key) (nc_coll key) (nc_blkNum key);
  Ret (expiringBlk <=? latestBlkNum).

(** [as_current] is nil exactly before the first call of [add]. *)
Record txPvtdataAssembler := mktxPvtdataAssembler {
  as_txNum : Z;
  as_txWset : list NsPvtReadWriteSet;
  as_current : option NsPvtReadWriteSet }.

Definition newTxPvtdataAssembler (txNum : Z) : txPvtdataAssembler := mktxPvtdataAssembler txNum [] None.

Definition assembler_add (ns : bytes) (collPvtWset : CollectionPvtReadWriteSet) (a : txPvtdataAssembler) : txPvtdataAssembler :=
  let current := default (mkNsPvtReadWriteSet ns []) (as_current a) in
  let '(txWset, current) :=
    if bool_decide (NsPvtReadWriteSet_Namespace current <> ns) then (as_txWset a ++ [current], mkNsPvtReadWriteSet ns []) else (as_txWset a, current) in
  mktxPvtdataAssembler (as_txNum a) txWset
    (Some (mkNsPvtReadWriteSet (NsPvtReadWriteSet_Namespace current) (NsPvtReadWriteSet_CollectionPvtRwset current ++ [collPvtWset]))).

Definition getTxPvtdata (a : txPvtdataAssembler) : TxPvtData :=
  mkTxPvtData (as_txNum a) (Some (mkTxPvtReadWriteSet 0 (as_txWset a ++ match as_current a with Some n => [n] | None => [] end))).

End Helper.

(** ** Data of version 1.1 (v11.go) *)

Section V11.
Context {PP : PvtStoreProtos}.

Definition v11Format (datakeyBytes : bytes) : outcome bool :=
  b ← slice1 datakeyBytes;
  '(_, n) ← NewHeightFromBytes b;
  Ret (bool_decide (drop (Z.to_nat n) b = [])).

Definition v11DecodePK (key : bytes) : outcome (Z * Z) :=
  b ← slice1 key;
  '(height, _) ← NewHeightFromBytes b;
  Ret (BlockNum height, TxNum height).

Definition v11TrimPvtWSet (pvtWSet : TxPvtReadWriteSet) (filter : option PvtNsCollFilter) : option TxPvtReadWriteSet :=
  match filter with
  | None => Some pvtWSet
  | Some f =>
      let filteredNsRwSet := TxPvtReadWriteSet_NsPvtRwset pvtWSet ≫= fun ns =>
        match List.filter (fun coll => Filter_Has f (NsPvtReadWriteSet_Namespace ns) (CollectionPvtReadWriteSet_CollectionName coll))
                (NsPvtReadWriteSet_CollectionPvtRwset ns) with
        | [] => []
        | filteredCollRwSet => [mkNsPvtReadWriteSet (NsPvtReadWriteSet_Namespace ns) filteredCollRwSet]
        end in
      match filteredNsRwSet with
      | [] => None
      | _ => Some (mkTxPvtReadWriteSet (TxPvtReadWriteSet_DataModel pvtWSet) filteredNsRwSet)
      end
  end.

Definition v11DecodeKV (k v : bytes) (filter : option PvtNsCollFilter) : outcome TxPvtData :=
  '(bNum, tNum) ← v11DecodePK k;
  pvtWSet ← proto_Unmarshal (A := TxPvtReadWriteSet) v;
  Ret (mkTxPvtData tNum (v11TrimPvtWSet pvtWSet filter)).

(** From the current position of the iterator on. *)
Fixpoint v11RetrievePvtdata (itr : list (bytes * bytes)) (filter : option PvtNsCollFilter) : outcome (list TxPvtData) :=
  match itr with
  | [] => Ret []
  | (k, v) :: itr' =>
      pvtDatum ← v11DecodeKV k v filter;
      rest ← v11RetrievePvtdata itr' filter;
      Ret (pvtDatum :: rest)
  end.

End V11.

(** ** The store (store.go) *)

Section Store.
Context {PP : PvtStoreProtos} {BP : BTLPolicy}.

(** [ps_purger] lists the purge routines that have been started and wait for the lock. *)
Record Store := mkStore {
  ps_db : kvmap;
  ps_maxBatchSize : Z;
  ps_purgeInterval : Z;
  ps_isEmpty : bool;
  ps_lastCommittedBlock : Z;
  ps_createdFromSnapshot : bool;
  ps_lastBlockInSnapshot : Z;
  ps_isLastUpdatedOldBlocksSet : bool;
  ps_deprioritizedDataReconcilerInterval : Z;
  ps_accessDeprioMissingDataAfter : Z;
  ps_purger : list Z }.

Definition with_db (db : kvmap) (s : Store) : Store :=
  mkStore db (ps_maxBatchSize s) (ps_purgeInterval s) (ps_isEmpty s) (ps_lastCommittedBlock s) (ps_createdFromSnapshot s) (ps_lastBlockInSnapshot s)
    (ps_isLastUpdatedOldBlocksSet s) (ps_deprioritizedDataReconcilerInterval s) (ps_accessDeprioMissingDataAfter s) (ps_purger s).

Definition set_last (n : Z) (s : Store) : Store :=
  mkStore (ps_db s) (ps_maxBatchSize s) (ps_purgeInterval s) false n (ps_createdFromSnapshot s) (ps_lastBlockInSnapshot s)
    (ps_isLastUpdatedOldBlocksSet s) (ps_deprioritizedDataReconcilerInterval s) (ps_accessDeprioMissingDataAfter s) (ps_purger s).

Definition set_oldBlocksSet (b : bool) (s : Store) : Store :=
  mkStore (ps_db s) (ps_maxBatchSize s) (ps_purgeInterval s) (ps_isEmpty s) (ps_lastCommittedBlock s) (ps_createdFromSnapshot s) (ps_lastBlockInSnapshot s)
    b (ps_deprioritizedDataReconcilerInterval s) (ps_accessDeprioMissingDataAfter s) (ps_purger s).

Definition set_accessAfter (t : Z) (s : Store) : Store :=
  mkStore (ps_db s) (ps_maxBatchSize s) (ps_purgeInterval s) (ps_isEmpty s) (ps_lastCommittedBlock s) (ps_createdFromSnapshot s) (ps_lastBlockInSnapshot s)
    (ps_isLastUpdatedOldBlocksSet s) (ps_deprioritizedDataReconcilerInterval s) t (ps_purger s).

Definition set_purger (l : list Z) (s : Store) : Store :=
  mkStore (ps_db s) (ps_maxBatchSize s) (ps_purgeInterval s) (ps_isEmpty s) (ps_lastCommittedBlock s) (ps_createdFromSnapshot s) (ps_lastBlockInSnapshot s)
    (ps_isLastUpdatedOldBlocksSet s) (ps_deprioritizedDataReconcilerInterval s) (ps_accessDeprioMissingDataAfter s) l.

Definition nextBlockNum (s : Store) : Z := if ps_isEmpty s then 0 else u64 (ps_lastCommittedBlock s + 1).

Definition LastCommittedBlockHeight (s : Store) : Z := if ps_isEmpty s then 0 else u64 (ps_lastCommittedBlock s + 1).

Definition hasPendingCommit (db : kvmap) : bool := is_Some_b (db !! pendingCommitKey).

Definition getLastCommittedBlockNum (db : kvmap) : bool * Z :=
  match db !! lastCommittedBlkkey with
  | None => (true, 0)
  | Some v => (false, decodeLastCommittedBlockVal v)
  end.

Definition fetchBootSnapshotInfo (db : kvmap) : outcome (bool * Z) :=
  match db !! lastBlockInBootSnapshotKey with
  | None => Ret (false, 0)
  | Some v => lastBlkInSnapshot ← decodeLastBlockInBootSnapshotVal v; Ret (true, lastBlkInSnapshot)
  end.

(** Every round reads at least one byte, so there are no more rounds than bytes. *)
Fixpoint decode_numbers (fuel : nat) (n : Z) (p : Buffer) : outcome (list Z) :=
  match fuel with
  | O => Panic "out of fuel"
  | S fuel' =>
      if n <=? 0 then Ret [] else
      '(blkNum, p) ← Buffer_DecodeVarint p;
      rest ← decode_numbers fuel' (n - 1) p;
      Ret (blkNum :: rest)
  end.

Definition getLastUpdatedOldBlocksList (db : kvmap) : outcome (list Z) :=
  match db !! lastUpdatedOldBlocksKey with
  | None => Ret []
  | Some v =>
      '(numBlks, p) ← Buffer_DecodeVarint (NewBuffer v);
      decode_numbers (S (length v)) (i64 numBlks) p
  end.

Definition initState : M Store unit := fun s =>
  let '(isEmpty, last) := getLastCommittedBlockNum (ps_db s) in
  (let s := mkStore (ps_db s) (ps_maxBatchSize s) (ps_purgeInterval s) isEmpty last false 0 (ps_isLastUpdatedOldBlocksSet s)
       (ps_deprioritizedDataReconcilerInterval s) (ps_accessDeprioMissingDataAfter s) (ps_purger s) in
   match fetchBootSnapshotInfo (ps_db s) with
   | Err e => (Err e, s)
   | Panic msg => (Panic msg, s)
   | Ret (created, lastInSnapshot) =>
       let s := mkStore (ps_db s) (ps_maxBatchSize s) (ps_purgeInterval s) (ps_isEmpty s) (ps_lastCommittedBlock s) created lastInSnapshot
           (ps_isLastUpdatedOldBlocksSet s) (ps_deprioritizedDataReconcilerInterval s) (ps_accessDeprioMissingDataAfter s) (ps_purger s) in
       let s :=
         if hasPendingCommit (ps_db s) then
           let committingBlockNum := nextBlockNum s in
           set_last committingBlockNum
             (with_db (DB_WriteBatch [(lastCommittedBlkkey, Some (encodeLastCommittedBlockVal committingBlockNum)); (pendingCommitKey, None)] (ps_db s)) s)
         else s in
       match getLastUpdatedOldBlocksList (ps_db s) with
       | Err e => (Err e, s)
       | Panic msg => (Panic msg, s)
       | Ret [] => (Ret tt, s)
       | Ret (_ :: _) => (Ret tt, set_oldBlocksSet true s)
       end
   end).

Definition OpenStore (maxBatchSize purgeInterval reconcilerInterval now : Z) (db : kvmap) : outcome Store :=
  match initState (mkStore db maxBatchSize purgeInterval false 0 false 0 false reconcilerInterval (now + reconcilerInterval) []) with
  | (Ret _, s) => Ret s
  | (Err e, _) => Err e
  | (Panic msg, _) => Panic msg
  end.

(** The routine waits for the lock. *)
Definition performPurgeIfScheduled (latestCommittedBlk : Z) : M Store unit := fun s =>
  if ps_purgeInterval s =? 0 then (Panic "integer divide by zero", s) else
  if negb (latestCommittedBlk mod ps_purgeInterval s =? 0) then (Ret tt, s) else
  (Ret tt, set_purger (ps_purger s ++ [latestCommittedBlk]) s).

Definition data_puts (l : list (dataKey * CollectionPvtReadWriteSet)) : batch := (fun '(k, v) => (encodeDataKey k, Some (Marshal v))) <$> l.
Definition expiry_puts (l : list (expiryKey * ExpiryData)) : batch := (fun '(k, v) => (encodeExpiryKey k, Some (Marshal (default ∅ v)))) <$> l.

Definition Store_Commit (blockNum : Z) (pvtData : list TxPvtData) (missingPvtData : TxMissingPvtData) : M Store unit :=
  s ← get_state;
  let expectedBlockNum := nextBlockNum s in
  if negb (expectedBlockNum =? blockNum) then throw (Errorf "Expected block number=%d, received block number=%d") else
  e ← lift_outcome (prepareStoreEntries blockNum pvtData missingPvtData);
  let batch := data_puts (se_dataEntries e) ++ expiry_puts (se_expiryEntries e) ++
    ((fun '(k, v) => (encodeElgPrioMissingDataKey k, Some (Marshal v))) <$> map_to_list (se_elgMissingDataEntries e)) ++
    ((fun '(k, v) => (encodeInelgMissingDataKey k, Some (Marshal v))) <$> map_to_list (se_inelgMissingDataEntries e)) ++
    [(lastCommittedBlkkey, Some (encodeLastCommittedBlockVal expectedBlockNum))] in
  _ ← put_state (set_last expectedBlockNum (with_db (DB_WriteBatch batch (ps_db s)) s));
  performPurgeIfScheduled expectedBlockNum.

(** The loop of [GetPvtDataByBlockNum]; there is an assembler from the first entry on. *)
Fixpoint retrieve_loop (lastCommittedBlock : Z) (filter : option PvtNsCollFilter) (itr : list (bytes * bytes))
    (blockPvtdata : list TxPvtData) (current : option txPvtdataAssembler) : outcome (list TxPvtData) :=
  match itr with
  | [] => Ret (blockPvtdata ++ match current with Some a => [getTxPvtdata a] | None => [] end)
  | (dataKeyBytes, dataValueBytes) :: itr' =>
      v11Fmt ← v11Format dataKeyBytes;
      if (v11Fmt : bool) then v11RetrievePvtdata itr filter else
      key ← decodeDatakey dataKeyBytes;
      expired ← isExpired (dt_nsCollBlk key) lastCommittedBlock;
      if (expired : bool) || negb (passesFilter key filter) then retrieve_loop lastCommittedBlock filter itr' blockPvtdata current else
      dataValue ← proto_Unmarshal (A := CollectionPvtReadWriteSet) dataValueBytes;
      let a := default (newTxPvtdataAssembler (dt_txNum key)) current in
      let '(blockPvtdata, a) :=
        if negb (dt_txNum key =? as_txNum a) then (blockPvtdata ++ [getTxPvtdata a], newTxPvtdataAssembler (dt_txNum key)) else (blockPvtdata, a) in
      retrieve_loop lastCommittedBlock filter itr' blockPvtdata (Some (assembler_add (nc_ns (dt_nsCollBlk key)) dataValue a))
  end.

Definition GetPvtDataByBlockNum (s : Store) (blockNum : Z) (filter : option PvtNsCollFilter) : outcome (list TxPvtData) :=
  if ps_isEmpty s then Err (Errorf "The store is empty") else
  let lastCommittedBlock := ps_lastCommittedBlock s in
  if lastCommittedBlock <? blockNum then Err (Errorf "Last committed block=%d, block requested=%d") else
  let '(startKey, endKey) := getDataKeysForRangeScanByBlockNum blockNum in
  retrieve_loop lastCommittedBlock filter (range_scan (ps_db s) startKey (Some endKey)) [] None.

Fixpoint get_blocks (s : Store) (l : list Z) : outcome (gmap Z (list TxPvtData)) :=
  match l with
  | [] => Ret ∅
  | blkNum :: l' => d ← GetPvtDataByBlockNum s blkNum None; rest ← get_blocks s l'; Ret (<[blkNum := d]> rest)
  end.

Definition GetLastUpdatedOldBlocksPvtData (s : Store) : outcome (gmap Z (list TxPvtData)) :=
  if negb (ps_isLastUpdatedOldBlocksSet s) then Ret ∅ else
  updatedBlksList ← getLastUpdatedOldBlocksList (ps_db s);
  get_blocks s updatedBlksList.

Definition ResetLastUpdatedOldBlocksList (s : Store) : Store :=
  set_oldBlocksSet false (with_db (DB_WriteBatch [(lastUpdatedOldBlocksKey, None)] (ps_db s)) s).

Definition bits (b : BitSet) : list Z := merge_sort Z.le (elements b).

(** The loop of [getMissingData]: the blocks counted so far, and the last one once
    there are enough. *)
Fixpoint missing_loop (lastCommittedBlock : Z) (maxBlock : Z) (itr : list (bytes * bytes)) (info : MissingPvtDataInfo)
    (numberOfBlockProcessed : Z) (lastProcessedBlock : option Z) : outcome MissingPvtDataInfo :=
  match itr with
  | [] => Ret info
  | (missingDataKeyBytes, valueBytes) :: itr' =>
      key ← decodeElgMissingDataKey missingDataKeyBytes;
      if match lastProcessedBlock with Some n => negb (nc_blkNum key =? n) | None => false end then Ret info else
      expired ← isExpired key lastCommittedBlock;
      if (expired : bool) then missing_loop lastCommittedBlock maxBlock itr' info numberOfBlockProcessed lastProcessedBlock else
      let '(number, lastProcessedBlock) :=
        match info !! nc_blkNum key with
        | Some _ => (numberOfBlockProcessed, lastProcessedBlock)
        | None => (numberOfBlockProcessed + 1, if numberOfBlockProcessed + 1 =? maxBlock then Some (nc_blkNum key) else lastProcessedBlock)
        end in
      bitmap ← proto_Unmarshal (A := BitSet) valueBytes;
      let info := fold_left (fun info txNum => MissingPvtDataInfo_Add (nc_blkNum key) txNum (nc_ns key) (nc_coll key) info) (bits bitmap) info in
      missing_loop lastCommittedBlock maxBlock itr' info number lastProcessedBlock
  end.

Definition getMissingData (s : Store) (group : bytes) (maxBlock : Z) : outcome MissingPvtDataInfo :=
  let '(startKey, endKey) := createRangeScanKeysForElgMissingData (ps_lastCommittedBlock s) group in
  missing_loop (ps_lastCommittedBlock s) maxBlock (range_scan (ps_db s) startKey (Some endKey)) ∅ 0 None.

(** [now1] and [now2] are the results of the two calls of [time.Now]. *)
Definition GetMissingPvtDataInfoForMostRecentBlocks (now1 now2 maxBlock : Z) : M Store MissingPvtDataInfo := fun s =>
  if maxBlock <? 1 then (Ret ∅, s) else
  if ps_accessDeprioMissingDataAfter s <? now1 then
    let s := set_accessAfter (now2 + ps_deprioritizedDataReconcilerInterval s) s in
    (getMissingData s elgDeprioritizedMissingDataGroup maxBlock, s)
  else (getMissingData s elgPrioritizedMissingDataGroup maxBlock, s).

Definition FetchBootKVHashes (s : Store) (blkNum txNum : Z) (ns coll : bytes) : outcome (gmap bytes bytes) :=
  if ps_createdFromSnapshot s && (ps_lastBlockInSnapshot s <? blkNum)
  then Err (Errorf "unexpected call. Boot KV Hashes are persisted only for the data imported from snapshot") else
  match ps_db s !! encodeBootKVHashesKey (mkbootKVHashesKey blkNum txNum ns coll) with
  | None => Ret ∅
  | Some encVal => bootKVHashes ← proto_Unmarshal (A := BootKVHashesMsg) encVal; Ret (BootKVHashes_toMap bootKVHashes)
  end.

(** *** Purging *)

Fixpoint decode_expiry_entries (itr : list (bytes * bytes)) : outcome (list (expiryKey * ExpiryData)) :=
  match itr with
  | [] => Ret []
  | (expiryKeyBytes, expiryValueBytes) :: itr' =>
      key ← decodeExpiryKey expiryKeyBytes;
      value ← proto_Unmarshal (A := ExpiryDataMsg) expiryValueBytes;
      rest ← decode_expiry_entries itr';
      Ret ((key, go_map_of value) :: rest)
  end.

Definition retrieveExpiryEntries (db : kvmap) (minBlkNum maxBlkNum : Z) : outcome (list (expiryKey * ExpiryData)) :=
  let '(startKey, endKey) := getExpiryKeysForRangeScan minBlkNum maxBlkNum in
  decode_expiry_entries (range_scan db startKey (Some endKey)).

(** The batch for one entry. *)
Definition purge_batch (e : expiryKey * ExpiryData) : batch :=
  let '(dataKeys, missingDataKeys, bootKVHashesKeys) := deriveKeys e in
  (encodeExpiryKey (fst e), None) ::
  ((fun k => (encodeDataKey k, None)) <$> dataKeys) ++
  (missingDataKeys ≫= fun k => [(encodeElgPrioMissingDataKey k, None); (encodeElgDeprioMissingDataKey k, None); (encodeInelgMissingDataKey k, None)]) ++
  ((fun k => (encodeBootKVHashesKey k, None)) <$> bootKVHashesKeys).

Definition purgeExpiredData (minBlkNum maxBlkNum : Z) (db : kvmap) : outcome kvmap :=
  expiryEntries ← retrieveExpiryEntries db minBlkNum maxBlkNum;
  Ret (fold_left (fun db e => DB_WriteBatch (purge_batch e) db) expiryEntries db).

(** A purge routine that has got the lock; its errors are logged. *)
Definition run_purger (latestCommittedBlk : Z) : M Store unit := fun s =>
  match purgeExpiredData 0 latestCommittedBlk (ps_db s) with
  | Ret db => (Ret tt, with_db db s)
  | Err _ => (Ret tt, s)
  | Panic msg => (Panic msg, s)
  end.

(** *** Eligibility *)

Definition ProcessCollsEligibilityEnabled (committingBlk : Z) (nsCollMap : gmap bytes (list bytes)) (s : Store) : Store :=
  with_db (DB_WriteBatch [(encodeCollElgKey committingBlk, Some (Marshal (newCollElgInfo nsCollMap)))] (ps_db s)) s.

(** The entries of a collection; the batch is written when it gets too large, and the
    lock is released for a while: [others] is what the other routines do then. *)
Fixpoint convert_entries (others : kvmap -> kvmap) (maxBatchSize : Z) (itr : list (bytes * bytes)) (b : batch) (db : kvmap) : outcome (batch * kvmap) :=
  match itr with
  | [] => Ret (b, db)
  | (originalKey, originalVal) :: itr' =>
      modifiedKey ← decodeInelgMissingDataKey originalKey;
      let b := b ++ [(originalKey, None); (encodeElgPrioMissingDataKey modifiedKey, Some originalVal)] in
      if maxBatchSize <? zlen b then convert_entries others maxBatchSize itr' [] (others (DB_WriteBatch b db)) else convert_entries others maxBatchSize itr' b db
  end.

Fixpoint convert_colls (others : kvmap -> kvmap) (maxBatchSize blkNum : Z) (colls : list (bytes * bytes)) (b : batch) (db : kvmap) : outcome (batch * kvmap) :=
  match colls with
  | [] => Ret (b, db)
  | (ns, coll) :: colls' =>
      let '(startKey, endKey) := createRangeScanKeysForInelgMissingData blkNum ns coll in
      '(b, db) ← convert_entries others maxBatchSize (range_scan db startKey (Some endKey)) b db;
      convert_colls others maxBatchSize blkNum colls' b db
  end.

(** An event that cannot be decoded is skipped, and stays. *)
Fixpoint process_events (others : kvmap -> kvmap) (maxBatchSize : Z) (events : list (bytes * bytes)) (b : batch) (db : kvmap) : outcome (batch * kvmap) :=
  match events with
  | [] => Ret (b, db)
  | (collElgKey, collElgVal) :: events' =>
      blkNum ← decodeCollElgKey collElgKey;
      match Unmarshal (A := CollElgInfo) collElgVal with
      | None => process_events others maxBatchSize events' b db
      | Some info =>
          '(b, db) ← convert_colls others maxBatchSize blkNum (map_to_list info ≫= fun '(ns, colls) => (fun coll => (ns, coll)) <$> colls) b db;
          process_events others maxBatchSize events' (b ++ [(collElgKey, None)]) db
      end
  end.

Definition processCollElgEvents (others : kvmap -> kvmap) (s : Store) : outcome Store :=
  let '(collElgStartKey, collElgEndKey) := createRangeScanKeysForCollElg in
  '(b, db) ← process_events others (ps_maxBatchSize s) (range_scan (ps_db s) collElgStartKey (Some collElgEndKey)) [] (ps_db s);
  Ret (with_db (DB_WriteBatch b db) s).

(** ** Late private data (reconcile_missing_pvtdata.go) *)

Definition constructExpiryKey (key : dataKey) : outcome expiryKey :=
  let k := dt_nsCollBlk key in
  expiringBlk ← GetExpiringBlock (nc_ns k) (nc_coll k) (nc_blkNum k);
  Ret (mkexpiryKey expiringBlk (nc_blkNum k)).

(** [None] where there is no entry. *)
Definition getExpiryDataFromEntriesOrStore (db : kvmap) (entries : gmap expiryKey ExpiryData) (expKey : expiryKey) : outcome (option ExpiryData) :=
  match entries !! expKey with
  | Some expiryData => Ret (Some expiryData)
  | None =>
      match db !! encodeExpiryKey expKey with
      | None => Ret None
      | Some expData => value ← proto_Unmarshal (A := ExpiryDataMsg) expData; Ret (Some (go_map_of value))
      end
  end.

Definition prepare_old_entry (db : kvmap) (x : dataKey * CollectionPvtReadWriteSet)
    (acc : gmap dataKey CollectionPvtReadWriteSet * gmap expiryKey ExpiryData) : outcome (gmap dataKey CollectionPvtReadWriteSet * gmap expiryKey ExpiryData) :=
  let '(key, value) := x in
  let '(dataEntries, expiryEntries) := acc in
  expKey ← constructExpiryKey key;
  if neverExpires (xk_expiringBlk expKey) then Ret (<[key := value]> dataEntries, expiryEntries) else
  expData ← getExpiryDataFromEntriesOrStore db expiryEntries expKey;
  match expData with
  | None => Ret (dataEntries, expiryEntries)
  | Some e =>
      e ← addPresentData (nc_ns (dt_nsCollBlk key)) (nc_coll (dt_nsCollBlk key)) (dt_txNum key) e;
      Ret (<[key := value]> dataEntries, <[expKey := e]> expiryEntries)
  end.

Fixpoint old_data_entries (l : list (Z * list TxPvtData)) : outcome (list (dataKey * CollectionPvtReadWriteSet)) :=
  match l with
  | [] => Ret []
  | (blkNum, pvtData) :: l' => d ← prepareDataEntries blkNum pvtData; rest ← old_data_entries l'; Ret (d ++ rest)
  end.

Definition prepareDataAndExpiryEntries (db : kvmap) (blocksPvtData : gmap Z (list TxPvtData)) :
    outcome (gmap dataKey CollectionPvtReadWriteSet * gmap expiryKey ExpiryData) :=
  dataEntries ← old_data_entries (map_to_list blocksPvtData);
  for_range (prepare_old_entry db) dataEntries (∅, ∅).

Definition getMissingDataFromEntriesOrStore (group : bytes) (db : kvmap) (entries : gmap nsCollBlk BitSet) (key : nsCollBlk) : outcome (option BitSet) :=
  match entries !! key with
  | Some missingData => Ret (Some missingData)
  | None =>
      match db !! encodeElgMissingDataKey group key with
      | None => Ret None
      | Some encMissingData => b ← proto_Unmarshal (A := BitSet) encMissingData; Ret (Some b)
      end
  end.

Abbreviation bothMissing := (gmap nsCollBlk BitSet * gmap nsCollBlk BitSet)%type.

Definition reflect_reconciled (db : kvmap) (dk : dataKey) (acc : bothMissing) : outcome bothMissing :=
  let '(prio, deprio) := acc in
  let key := dt_nsCollBlk dk in
  prioMissingData ← getMissingDataFromEntriesOrStore elgPrioritizedMissingDataGroup db prio key;
  if match prioMissingData with Some b => bool_decide (dt_txNum dk ∈ b) | None => false end
  then Ret (<[key := default ∅ prioMissingData ∖ {[dt_txNum dk]}]> prio, deprio) else
  deprioMissingData ← getMissingDataFromEntriesOrStore elgDeprioritizedMissingDataGroup db deprio key;
  if match deprioMissingData with Some d => bool_decide (dt_txNum dk ∈ d) | None => false end
  then Ret (prio, <[key := default ∅ deprioMissingData ∖ {[dt_txNum dk]}]> deprio) else Ret (prio, deprio).

Definition reflect_priority (db : kvmap) (x : nsCollBlk * Z) (acc : bothMissing) : outcome bothMissing :=
  let '(key, txNum) := x in
  let '(prio, deprio) := acc in
  prioMissingData ← getMissingDataFromEntriesOrStore elgPrioritizedMissingDataGroup db prio key;
  match prioMissingData with
  | None => Ret (prio, deprio)
  | Some b =>
      let prio := <[key := b ∖ {[txNum]}]> prio in
      deprioMissingData ← getMissingDataFromEntriesOrStore elgDeprioritizedMissingDataGroup db deprio key;
      Ret (prio, <[key := {[txNum]} ∪ default ∅ deprioMissingData]> deprio)
  end.

Definition prioritized_list (deprioritizedList : MissingPvtDataInfo) : list (nsCollBlk * Z) :=
  map_to_list deprioritizedList ≫= fun '(blkNum, blkMissingData) =>
    map_to_list blkMissingData ≫= fun '(txNum, txMissingData) =>
      (fun '(ns, coll) => (mknsCollBlk ns coll blkNum, txNum)) <$> txMissingData.

Definition missing_updates (group : bytes) (m : gmap nsCollBlk BitSet) : batch :=
  (fun '((key, missingData) : nsCollBlk * BitSet) => (encodeElgMissingDataKey group key, if bool_decide (missingData = ∅) then None else Some (Marshal missingData))) <$> map_to_list m.

Definition boot_deletions (s : Store) (dataEntries : gmap dataKey CollectionPvtReadWriteSet) : batch :=
  if negb (ps_createdFromSnapshot s) then [] else
  (map_to_list dataEntries).*1 ≫= fun k =>
    let n := dt_nsCollBlk k in
    if nc_blkNum n <=? ps_lastBlockInSnapshot s
    then [(encodeBootKVHashesKey (mkbootKVHashesKey (nc_blkNum n) (dt_txNum k) (nc_ns n) (nc_coll n)), None)] else [].

Definition Store_CommitPvtDataOfOldBlocks (blocksPvtData : gmap Z (list TxPvtData)) (unreconciledMissingData : MissingPvtDataInfo) : M Store unit :=
  s ← get_state;
  if ps_isLastUpdatedOldBlocksSet s then throw (Errorf "The lastUpdatedOldBlocksList is set") else
  let db := ps_db s in
  '(dataEntries, expiryEntries) ← lift_outcome (prepareDataAndExpiryEntries db blocksPvtData);
  acc ← lift_outcome (for_range (reflect_reconciled db) (map_to_list dataEntries).*1 (∅, ∅));
  '(prio, deprio) ← lift_outcome (for_range (reflect_priority db) (prioritized_list unreconciledMissingData) acc);
  let batch := data_puts (map_to_list dataEntries) ++ expiry_puts (map_to_list expiryEntries) ++
    missing_updates elgPrioritizedMissingDataGroup prio ++ missing_updates elgDeprioritizedMissingDataGroup deprio ++ boot_deletions s dataEntries in
  put_state (with_db (DB_WriteBatch batch db) s).

End Store.
