(* ===== verification/PvtStoreOk.v ===== *)
(** * The keys of the private data store

    The encodings of [PvtStore] as the database needs them: block numbers in reverse
    order, keys that can be read back, kinds of keys that do not meet, and ranges that
    contain exactly the keys they are meant for. *)

From S2P Require Import Prelude Wire Varint OrderedCode GoOS LevelDB Proto StateProto BatchPreparer PurgeMgr PurgeMgrOk PvtStore.

(** ** Block numbers in reverse order *)

Lemma byte_size_unique (n : Z) (s : nat) : is_u64 n -> (0 < s)%nat -> 256 ^ (Z.of_nat s - 1) <= n < 256 ^ Z.of_nat s -> byte_size n = s.
Proof.
  intros Hn Hs Hr. destruct (byte_size_spec n Hn) as (_ & Hr' & Hz & _).
  assert (0 < 256 ^ (Z.of_nat s - 1)) by (apply Z.pow_pos_nonneg; lia). destruct Hz as [[-> _]|[Hp Hz]]; [lia|].
  destruct (Nat.lt_trichotomy (byte_size n) s) as [Hlt|[->|Hgt]]; [|done|]; exfalso.
  - pose proof (Z.pow_le_mono_r 256 (Z.of_nat (byte_size n)) (Z.of_nat s - 1) ltac:(lia) ltac:(lia)). lia.
  - pose proof (Z.pow_le_mono_r 256 (Z.of_nat s) (Z.of_nat (byte_size n) - 1) ltac:(lia) ltac:(lia)). lia.
Qed.

Lemma count_ff_be_bytes (k : nat) (n : Z) :
  0 <= n < 256 ^ Z.of_nat k ->
  (n = 0 /\ count_ff (be_bytes k (256 ^ Z.of_nat k - 1 - n)) = k) \/
  exists s, (0 < s <= k)%nat /\ 256 ^ (Z.of_nat s - 1) <= n < 256 ^ Z.of_nat s /\ count_ff (be_bytes k (256 ^ Z.of_nat k - 1 - n)) = (k - s)%nat.
Proof.
  revert n. induction k as [|k IH]; intros n Hn; [left; simpl in Hn; split; [lia|done]|].
  set (P := 256 ^ Z.of_nat k) in *. assert (HP : 0 < P) by (apply Z.pow_pos_nonneg; lia).
  assert (HS : 256 ^ Z.of_nat (S k) = 256 * P) by (rewrite Nat2Z.inj_succ, Z.pow_succ_r by lia; done). rewrite HS in *.
  assert (Hd : 0 <= n / P < 256) by (split; [apply Z.div_pos; lia|apply Z.div_lt_upper_bound; lia]).
  pose proof (Z.div_mod n P ltac:(lia)) as Hdm. pose proof (Z.mod_pos_bound n P HP) as Hm.
  assert (Hsh : Z.shiftr (256 * P - 1 - n) (8 * Z.of_nat k) = 255 - n / P).
  { rewrite Z.shiftr_div_pow2, Z.pow_mul_r by lia. change (2 ^ 8) with 256. fold P. symmetry. apply (Z.div_unique _ _ _ (P - 1 - n mod P)); lia. }
  cbn [be_bytes count_ff]. rewrite Hsh. case_bool_decide as Hb.
  - apply (f_equal b2z) in Hb. rewrite b2z_z2b, Z.mod_small in Hb by lia. change (b2z Byte.xff) with 255 in Hb.
    assert (Hlt : n < P) by nia.
    rewrite be_bytes_mod. fold P. replace ((256 * P - 1 - n) mod P) with (P - 1 - n) by (apply (Z.mod_unique _ _ 255); lia).
    destruct (IH n ltac:(lia)) as [[-> E]|(s & Hs & Hr & E)]; [left; by rewrite E|right]. exists s. rewrite E. split; [lia|]. split; [done|lia].
  - right. exists (S k). split; [lia|]. split; [|lia]. replace (Z.of_nat (S k) - 1) with (Z.of_nat k) by lia. fold P. split; [|lia].
    destruct (Z.lt_ge_cases n P) as [Hlt|]; [|done]. exfalso. apply Hb. by rewrite Z.div_small by lia.
Qed.

(** The encoding keeps the bytes below the leading ones of the complement. *)
Lemma reverse_byte_size (n : Z) :
  is_u64 n -> encodeReverseOrderVarUint64 n = z2b (Z.of_nat (8 - byte_size n)) :: be_bytes (byte_size n) (256 ^ Z.of_nat (byte_size n) - 1 - n).
Proof.
  intros Hn. destruct (byte_size_spec n Hn) as (Hs & Hr & Hz & _). unfold encodeReverseOrderVarUint64.
  assert (Hc : count_ff (be_bytes 8 (MaxUint64 - n)) = (8 - byte_size n)%nat).
  { change MaxUint64 with (256 ^ Z.of_nat 8 - 1). destruct (count_ff_be_bytes 8 n (u64_256 n Hn)) as [[-> E]|(s & Hs' & Hr' & E)]; rewrite E.
    - by destruct Hz as [[_ ->]|[? Hz]]; [|pose proof (Z.pow_pos_nonneg 256 (Z.of_nat (byte_size 0) - 1)); lia].
    - by rewrite (byte_size_unique n s) by (done || lia). }
  rewrite Hc, EncodeVarint_small by lia. cbn [take app]. f_equal.
  replace 8%nat with ((8 - byte_size n) + byte_size n)%nat at 2 by lia. rewrite drop_be_bytes, be_bytes_mod. f_equal.
  set (P := 256 ^ Z.of_nat (byte_size n)) in *. change MaxUint64 with (256 ^ Z.of_nat 8 - 1).
  replace (Z.of_nat 8) with (Z.of_nat (8 - byte_size n) + Z.of_nat (byte_size n)) by lia. rewrite Z.pow_add_r by lia. fold P.
  symmetry. apply (Z.mod_unique _ _ (256 ^ Z.of_nat (8 - byte_size n) - 1)); lia.
Qed.

(** Encoded numbers sort in reverse, whatever follows them. *)
Lemma reverse_compare_app (n m : Z) (a b : bytes) :
  is_u64 n -> is_u64 m ->
  bytes_compare (encodeReverseOrderVarUint64 n ++ a) (encodeReverseOrderVarUint64 m ++ b) = match m ?= n with Eq => bytes_compare a b | c => c end.
Proof.
  intros Hn Hm. rewrite !reverse_byte_size by done. destruct (byte_size_spec n Hn) as (Hs & Hr & _ & _), (byte_size_spec m Hm) as (Hs' & Hr' & _ & _).
  cbn [app bytes_compare]. rewrite !b2z_z2b, !Z.mod_small by lia.
  destruct (Z.compare_spec (Z.of_nat (8 - byte_size n)) (Z.of_nat (8 - byte_size m))) as [E|E|E].
  - assert (byte_size n = byte_size m) as Es by lia. rewrite Es in *. rewrite be_bytes_compare by lia.
    destruct (Z.compare_spec m n), (Z.compare_spec (256 ^ Z.of_nat (byte_size m) - 1 - n) (256 ^ Z.of_nat (byte_size m) - 1 - m)); try done; lia.
  - destruct (Z.compare_spec m n) as [->| |Hgt]; [lia|done|]. pose proof (byte_size_mono n m Hn Hm ltac:(lia)). lia.
  - destruct (Z.compare_spec m n) as [->|Hlt|]; [lia| |done]. pose proof (byte_size_mono m n Hm Hn ltac:(lia)). lia.
Qed.

Lemma be_val_app_be (l : bytes) (k : nat) (n : Z) : 0 <= n < 256 ^ Z.of_nat k -> be_val (l ++ be_bytes k n) = be_val l * 256 ^ Z.of_nat k + n.
Proof.
  revert n. induction k as [|k IH]; intros n Hn; [simpl in Hn |- *; rewrite app_nil_r; lia|].
  rewrite Nat2Z.inj_succ, Z.pow_succ_r in Hn by lia. rewrite be_bytes_snoc, app_assoc, be_val_app, b2z_z2b.
  pose proof (Z.div_mod n 256 ltac:(lia)). rewrite IH by (split; [apply Z.div_pos; lia|apply Z.div_lt_upper_bound; lia]).
  rewrite Nat2Z.inj_succ, Z.pow_succ_r by lia. lia.
Qed.

Lemma be_val_ff (k : nat) : be_val (replicate k Byte.xff) = 256 ^ Z.of_nat k - 1.
Proof.
  induction k as [|k IH]; [done|]. rewrite replicate_S_end, be_val_app, IH. change (b2z Byte.xff) with 255.
  rewrite Nat2Z.inj_succ, Z.pow_succ_r by lia. lia.
Qed.

(** A number is read back, whatever follows it. *)
Lemma reverse_decode (n : Z) (rest : bytes) :
  is_u64 n -> decodeReverseOrderVarUint64 (encodeReverseOrderVarUint64 n ++ rest) = Ret (n, length (encodeReverseOrderVarUint64 n)).
Proof.
  intros Hn. rewrite reverse_byte_size by done. destruct (byte_size_spec n Hn) as (Hs & Hr & _ & _). set (s := byte_size n) in *.
  unfold decodeReverseOrderVarUint64. cbn [app].
  pose proof (DecodeVarint_encode (Z.of_nat (8 - s)) (be_bytes s (256 ^ Z.of_nat s - 1 - n) ++ rest)) as D.
  rewrite EncodeVarint_small in D by lia. cbn [app length] in D. rewrite D by (unfold is_u64; lia). cbv zeta.
  assert (i64 (Z.of_nat (8 - s)) = Z.of_nat (8 - s)) as -> by (unfold i64; rewrite Z.mod_small by lia; lia).
  rewrite zlen_cons, zlen_app. unfold zlen at 1. rewrite be_bytes_length.
  assert ((Z.of_nat (8 - s) <? 0) || (8 <? Z.of_nat (8 - s)) || (1 + (Z.of_nat s + zlen rest) <? 8 - Z.of_nat (8 - s) + 1) = false) as ->.
  { rewrite !orb_false_iff, !Z.ltb_ge. pose proof (zlen_nonneg rest). lia. }
  replace (8 - Z.of_nat (8 - s)) with (Z.of_nat s) by lia. rewrite !Nat2Z.id. cbn [drop]. rewrite drop_0, take_app_le, take_ge by (rewrite be_bytes_length; lia).
  rewrite be_val_app_be, be_val_ff by lia. cbn [length]. rewrite be_bytes_length. do 2 f_equal; [|lia].
  change MaxUint64 with (256 ^ Z.of_nat 8 - 1). replace (Z.of_nat 8) with (Z.of_nat (8 - s) + Z.of_nat s) by lia. rewrite Z.pow_add_r by lia. lia.
Qed.

(** ** Keys that can be read back *)

Lemma IndexByte_first (a b : bytes) (c : byte) : c ∉ a -> IndexByte (a ++ c :: b) c = Some (length a).
Proof.
  induction a as [|x a IH]; intros Hc; cbn [app IndexByte]; [by rewrite bool_decide_eq_true_2|].
  rewrite not_elem_of_cons in Hc. destruct Hc as [Hx Hc]. rewrite bool_decide_eq_false_2 by done. by rewrite IH.
Qed.

Lemma cut_byte (a b : bytes) (c : byte) : c ∉ a -> cut [c] (a ++ c :: b) = Some (a, b).
Proof.
  induction a as [|x a IH]; intros Hc; cbn [app cut strip_prefix]; [by rewrite bool_decide_eq_true_2|].
  rewrite not_elem_of_cons in Hc. destruct Hc as [Hx Hc]. rewrite bool_decide_eq_false_2 by done. by rewrite IH.
Qed.

Lemma cut_byte_none (a : bytes) (c : byte) : c ∉ a -> cut [c] a = None.
Proof.
  induction a as [|x a IH]; intros Hc; cbn [cut strip_prefix]; [done|].
  rewrite not_elem_of_cons in Hc. destruct Hc as [Hx Hc]. rewrite bool_decide_eq_false_2 by done. by rewrite IH.
Qed.

Lemma Split_byte (a b : bytes) (c : byte) : c ∉ a -> c ∉ b -> Split (a ++ c :: b) [c] = [a; b].
Proof.
  intros Ha Hb. unfold Split. rewrite length_app. cbn [length]. rewrite Nat.add_succ_r. cbn [Split_loop]. rewrite cut_byte by done.
  f_equal. destruct (length a + length b)%nat; cbn [Split_loop]; [done|]. by rewrite cut_byte_none.
Qed.

(** The names of chaincodes and collections do not contain the separator. *)
Definition nc_wf (k : nsCollBlk) : Prop := nilByte ∉ nc_ns k /\ nilByte ∉ nc_coll k /\ is_u64 (nc_blkNum k).
Definition dt_wf (k : dataKey) : Prop := nc_wf (dt_nsCollBlk k) /\ is_u64 (dt_txNum k).
Definition xk_wf (k : expiryKey) : Prop := is_u64 (xk_expiringBlk k) /\ is_u64 (xk_committingBlk k).
Definition bk_wf (k : bootKVHashesKey) : Prop := nilByte ∉ bk_ns k /\ nilByte ∉ bk_coll k /\ is_u64 (bk_blkNum k) /\ is_u64 (bk_txNum k).

Lemma decodeDatakey_encode (k : dataKey) : dt_wf k -> decodeDatakey (encodeDataKey k) = Ret k.
Proof.
  destruct k as [[ns coll n] tx]. intros [(Hns & Hcoll & Hn) Ht]. cbn in *. unfold decodeDatakey, encodeDataKey, pvtDataKeyPrefix. cbn [app slice1 mbind outcome_bind].
  rewrite NewHeightFromBytes_ToBytes by done. cbn [mbind outcome_bind nc_ns nc_coll dt_nsCollBlk]. rewrite zlen_to_nat, drop_app_length.
  rewrite IndexByte_first by done. rewrite take_app_length. do 3 f_equal. cbn [NewHeight BlockNum nc_blkNum].
  rewrite drop_app_ge by lia. by replace (S (length ns) - length ns)%nat with 1%nat by lia.
Qed.

Lemma v11Format_encode (k : dataKey) : dt_wf k -> v11Format (encodeDataKey k) = Ret false.
Proof.
  destruct k as [[ns coll n] tx]. intros [(Hns & Hcoll & Hn) Ht]. cbn in *. unfold v11Format, encodeDataKey, pvtDataKeyPrefix. cbn [app slice1 mbind outcome_bind].
  rewrite NewHeightFromBytes_ToBytes by done. cbn [mbind outcome_bind nc_ns nc_coll dt_nsCollBlk]. rewrite zlen_to_nat, drop_app_length.
  rewrite bool_decide_eq_false_2; [done|]. by destruct ns.
Qed.

Lemma decodeExpiryKey_encode (k : expiryKey) : xk_wf k -> decodeExpiryKey (encodeExpiryKey k) = Ret k.
Proof.
  destruct k as [e c]. intros [He Hc]. unfold decodeExpiryKey, encodeExpiryKey, expiryKeyPrefix. cbn [app slice1 mbind outcome_bind xk_expiringBlk xk_committingBlk].
  pose proof (NewHeightFromBytes_ToBytes (NewHeight e c) [] (conj He Hc)) as E. rewrite app_nil_r in E. by rewrite E.
Qed.

Lemma decodeElg_parts (g : byte) (b ns coll : bytes) (blk : Z) (n : nat) :
  decodeReverseOrderVarUint64 b = Ret (blk, n) -> Split (drop n b) [nilByte] = [ns; coll] -> decodeElgMissingDataKey (g :: b) = Ret (mknsCollBlk ns coll blk).
Proof. intros E1 E2. unfold decodeElgMissingDataKey. cbn [slice1 mbind outcome_bind]. rewrite E1. cbn [mbind outcome_bind]. by rewrite E2. Qed.

Lemma decodeElg_encode (g : byte) (k : nsCollBlk) : nc_wf k -> decodeElgMissingDataKey (encodeElgMissingDataKey [g] k) = Ret k.
Proof.
  destruct k as [ns coll n]. intros (Hns & Hcoll & Hn). apply (decodeElg_parts g _ ns coll n _ (reverse_decode n _ Hn)).
  rewrite drop_app_length. by apply Split_byte.
Qed.

Lemma decodeInelg_parts (b ns coll blkBytes : bytes) (blk : Z) (n : nat) :
  cut [nilByte] b = Some (ns, coll ++ nilByte :: blkBytes) -> nilByte ∉ coll -> decodeReverseOrderVarUint64 blkBytes = Ret (blk, n) ->
  decodeInelgMissingDataKey (Byte.x05 :: b) = Ret (mknsCollBlk ns coll blk).
Proof. intros E1 Hc E2. unfold decodeInelgMissingDataKey. cbn [slice1 mbind outcome_bind]. rewrite E1, cut_byte by done. by rewrite E2. Qed.

Lemma decodeInelg_encode (k : nsCollBlk) : nc_wf k -> decodeInelgMissingDataKey (encodeInelgMissingDataKey k) = Ret k.
Proof.
  destruct k as [ns coll n]. intros (Hns & Hcoll & Hn). pose proof (reverse_decode n [] Hn) as E. rewrite app_nil_r in E.
  apply (decodeInelg_parts _ ns coll _ n _ (cut_byte ns _ nilByte Hns) Hcoll E).
Qed.

Lemma decodeCollElg_encode (n : Z) : is_u64 n -> decodeCollElgKey (encodeCollElgKey n) = Ret n.
Proof.
  intros Hn. pose proof (reverse_decode n [] Hn) as E. rewrite app_nil_r in E.
  unfold decodeCollElgKey, encodeCollElgKey, collElgKeyPrefix. cbn [app slice1 mbind outcome_bind]. by rewrite E.
Qed.

(** ** The kinds of keys *)

Inductive skey :=
  | SPending | SLast | SOld | SSnap
  | SData (k : dataKey)
  | SExpiry (k : expiryKey)
  | SPrio (k : nsCollBlk)
  | SDeprio (k : nsCollBlk)
  | SInelg (k : nsCollBlk)
  | SElg (n : Z)
  | SBoot (k : bootKVHashesKey).

#[global] Instance bootKVHashesKey_eq_dec : EqDecision bootKVHashesKey.
Proof. solve_decision. Defined.

#[global] Instance bootKVHashesKey_countable : Countable bootKVHashesKey.
Proof. refine (inj_countable' (fun m => (bk_blkNum m, bk_txNum m, bk_ns m, bk_coll m)) (fun '(a, b, c, d) => mkbootKVHashesKey a b c d) _). by intros []. Defined.

#[global] Instance skey_eq_dec : EqDecision skey.
Proof. solve_decision. Defined.

#[global] Instance skey_countable : Countable skey.
Proof.
  refine (inj_countable'
    (fun k => match k with
      | SPending => inl 0%nat | SLast => inl 1%nat | SOld => inl 2%nat | SSnap => inl 3%nat
      | SData k => inr (inl k) | SExpiry k => inr (inr (inl k))
      | SPrio k => inr (inr (inr (inl (0%nat, k)))) | SDeprio k => inr (inr (inr (inl (1%nat, k)))) | SInelg k => inr (inr (inr (inl (2%nat, k))))
      | SElg n => inr (inr (inr (inr (inl n)))) | SBoot k => inr (inr (inr (inr (inr k)))) end)
    (fun x => match x with
      | inl 0%nat => SPending | inl 1%nat => SLast | inl 2%nat => SOld | inl _ => SSnap
      | inr (inl k) => SData k | inr (inr (inl k)) => SExpiry k
      | inr (inr (inr (inl (0%nat, k)))) => SPrio k | inr (inr (inr (inl (1%nat, k)))) => SDeprio k | inr (inr (inr (inl (_, k)))) => SInelg k
      | inr (inr (inr (inr (inl n)))) => SElg n | inr (inr (inr (inr (inr k)))) => SBoot k end) _).
  by intros [].
Defined.

Definition enc (k : skey) : bytes :=
  match k with
  | SPending => pendingCommitKey
  | SLast => lastCommittedBlkkey
  | SOld => lastUpdatedOldBlocksKey
  | SSnap => lastBlockInBootSnapshotKey
  | SData k => encodeDataKey k
  | SExpiry k => encodeExpiryKey k
  | SPrio k => encodeElgPrioMissingDataKey k
  | SDeprio k => encodeElgDeprioMissingDataKey k
  | SInelg k => encodeInelgMissingDataKey k
  | SElg n => encodeCollElgKey n
  | SBoot k => encodeBootKVHashesKey k
  end.

Definition skey_wf (k : skey) : Prop :=
  match k with
  | SPending | SLast | SOld | SSnap => True
  | SData k => dt_wf k
  | SExpiry k => xk_wf k
  | SPrio k | SDeprio k | SInelg k => nc_wf k
  | SElg n => is_u64 n
  | SBoot k => bk_wf k
  end.

Definition boot_data (k : bootKVHashesKey) : dataKey := mkdataKey (mknsCollBlk (bk_ns k) (bk_coll k) (bk_blkNum k)) (bk_txNum k).

(** A left inverse on each kind of key. *)
Lemma decode_inj {A B} (f : A -> bytes) (g : bytes -> outcome B) (h : A -> B) (P : A -> Prop) :
  (forall a, P a -> g (f a) = Ret (h a)) -> (forall a b, h a = h b -> a = b) -> forall a b, P a -> P b -> f a = f b -> a = b.
Proof. intros Hg Hh a b Ha Hb E. apply Hh. apply (f_equal g) in E. rewrite !Hg in E by done. by injection E. Qed.

Lemma enc_inj (a b : skey) : skey_wf a -> skey_wf b -> enc a = enc b -> a = b.
Proof.
  destruct a, b; cbn [enc skey_wf]; intros Ha Hb E; try discriminate E; try reflexivity.
  - f_equal. revert E. by apply (decode_inj encodeDataKey decodeDatakey id dt_wf decodeDatakey_encode).
  - f_equal. revert E. by apply (decode_inj encodeExpiryKey decodeExpiryKey id xk_wf decodeExpiryKey_encode).
  - f_equal. revert E. by apply (decode_inj _ decodeElgMissingDataKey id nc_wf (decodeElg_encode _)).
  - f_equal. revert E. by apply (decode_inj _ decodeElgMissingDataKey id nc_wf (decodeElg_encode _)).
  - f_equal. revert E. by apply (decode_inj _ decodeInelgMissingDataKey id nc_wf decodeInelg_encode).
  - f_equal. revert E. by apply (decode_inj _ decodeCollElgKey id is_u64 decodeCollElg_encode).
  - f_equal. assert (E' : encodeDataKey (boot_data k) = encodeDataKey (boot_data k0)).
    { change (pvtDataKeyPrefix ++ tail (encodeBootKVHashesKey k) = pvtDataKeyPrefix ++ tail (encodeBootKVHashesKey k0)). by rewrite E. }
    apply (decode_inj encodeDataKey decodeDatakey id dt_wf decodeDatakey_encode) in E'; [|done| |].
    + destruct k, k0. by injection E' as -> -> -> ->.
    + destruct k, Ha as (? & ? & ? & ?). done.
    + destruct k0, Hb as (? & ? & ? & ?). done.
Qed.

(** ** The database as a map from keys to values *)

Record store_map (db : kvmap) (m : gmap skey bytes) : Prop := {
  sm_lookup : forall k, skey_wf k -> db !! enc k = m !! k;
  sm_wf : forall k v, m !! k = Some v -> skey_wf k;
  sm_keys : forall b v, db !! b = Some v -> exists k, skey_wf k /\ b = enc k }.

Lemma store_map_empty : store_map ∅ ∅.
Proof. split; intros *; rewrite ?lookup_empty; done. Qed.

Abbreviation sbatch := (list (skey * option bytes)).

Definition enc_batch (us : sbatch) : batch := (fun '(k, o) => (enc k, o)) <$> us.

Definition upd1 (m : gmap skey bytes) (u : skey * option bytes) : gmap skey bytes :=
  match snd u with Some v => <[fst u := v]> m | None => delete (fst u) m end.

Definition upd (us : sbatch) (m : gmap skey bytes) : gmap skey bytes := fold_left upd1 us m.

Lemma enc_batch_app (us us' : sbatch) : enc_batch (us ++ us') = enc_batch us ++ enc_batch us'.
Proof. apply fmap_app. Qed.

Lemma store_map_upd1 (db : kvmap) (m : gmap skey bytes) (k : skey) (o : option bytes) :
  store_map db m -> skey_wf k -> store_map (apply_update db (enc k, o)) (upd1 m (k, o)).
Proof.
  intros [Hl Hw Hk] Hwf. unfold apply_update, upd1. cbn [fst snd]. destruct o as [v|]; split.
  - intros k' Hk'. destruct (decide (k = k')) as [<-|Hne]; [by rewrite !lookup_insert_eq|]. rewrite !lookup_insert_ne; [by apply Hl|done|].
    intros E. by apply enc_inj in E.
  - intros k' v' [[<- _]|[_ E]]%lookup_insert_Some; [done|]. by eapply Hw.
  - intros b v' [[<- _]|[_ E]]%lookup_insert_Some; [by exists k|]. by eapply Hk.
  - intros k' Hk'. destruct (decide (k = k')) as [<-|Hne]; [by rewrite !lookup_delete_eq|]. rewrite !lookup_delete_ne; [by apply Hl|done|].
    intros E. by apply enc_inj in E.
  - intros k' v' [_ E]%lookup_delete_Some. by eapply Hw.
  - intros b v' [_ E]%lookup_delete_Some. by eapply Hk.
Qed.

Lemma store_map_batch (us : sbatch) (db : kvmap) (m : gmap skey bytes) :
  store_map db m -> Forall (fun u => skey_wf (fst u)) us -> store_map (DB_WriteBatch (enc_batch us) db) (upd us m).
Proof.
  intros Hs Hf. revert db m Hs. induction Hf as [|[k o] us Hk _ IH]; intros db m Hs; [done|].
  apply (IH (apply_update db (enc k, o)) (upd1 m (k, o))). by apply store_map_upd1.
Qed.

Lemma upd_app (us us' : sbatch) (m : gmap skey bytes) : upd (us ++ us') m = upd us' (upd us m).
Proof. apply fold_left_app. Qed.

(** What a batch leaves at a key: the last update, if there is one. *)
Lemma upd_lookup (us : sbatch) (m : gmap skey bytes) (k : skey) : upd us m !! k = default (m !! k) (last (vals k us)).
Proof.
  revert m. induction us as [|[k' o] us IH] using rev_ind; intros m; [done|]. rewrite upd_app, vals_app, last_app. cbn. unfold upd1. cbn [fst snd].
  destruct (decide (k' = k)) as [->|Hne]; cbn.
  - destruct o; [apply lookup_insert_eq|apply lookup_delete_eq].
  - destruct o; [rewrite lookup_insert_ne by done|rewrite lookup_delete_ne by done]; apply IH.
Qed.

Lemma upd_notin (us : sbatch) (m : gmap skey bytes) (k : skey) : (forall o, (k, o) ∉ us) -> upd us m !! k = m !! k.
Proof.
  intros H. rewrite upd_lookup. destruct (last (vals k us)) as [o|] eqn:E; [|done]. exfalso. apply last_Some_elem_of in E. by apply vals_elem, H in E.
Qed.

(** Updates that agree on a key. *)
Lemma upd_same (us : sbatch) (m : gmap skey bytes) (k : skey) (o : option bytes) :
  (k, o) ∈ us -> (forall o', (k, o') ∈ us -> o' = o) -> upd us m !! k = o.
Proof.
  intros Hin Hs. rewrite upd_lookup. destruct (last (vals k us)) as [o'|] eqn:E.
  - apply last_Some_elem_of, vals_elem, Hs in E. by subst.
  - apply last_None in E. apply vals_elem in Hin. rewrite E in Hin. by apply not_elem_of_nil in Hin.
Qed.

(** ** Ranges *)

(** A range whose keys are of one kind, as a list of that kind. *)
Lemma store_scan {A} (f : A -> skey) (P : A -> bool) (db : kvmap) (m : gmap skey bytes) (s e : bytes) :
  store_map db m ->
  (forall k, skey_wf k -> bytes_leb s (enc k) && bytes_ltb (enc k) e = true <-> exists a, k = f a /\ P a = true) ->
  exists l : list (A * bytes), range_scan db s (Some e) = (fun '(a, v) => (enc (f a), v)) <$> l /\
    (forall a v, (a, v) ∈ l -> m !! f a = Some v /\ P a = true /\ skey_wf (f a)) /\
    (forall a v, m !! f a = Some v -> P a = true -> exists a', f a' = f a /\ (a', v) ∈ l) /\
    StronglySorted bytes_le ((fun a => enc (f a)) <$> l.*1) /\ NoDup ((fun a => enc (f a)) <$> l.*1).
Proof.
  intros Hs Hr. assert (H : forall l0, (forall b v, (b, v) ∈ l0 -> (b, v) ∈ range_scan db s (Some e)) ->
    exists l : list (A * bytes), l0 = (fun '(a, v) => (enc (f a), v)) <$> l /\ (forall a v, (a, v) ∈ l -> m !! f a = Some v /\ P a = true /\ skey_wf (f a))).
  { induction l0 as [|[b v] l0 IH]; intros Hl; [exists []; split; [done|]; intros a v Hin; by apply not_elem_of_nil in Hin|].
    destruct IH as (l & -> & Hin); [intros b' v' Hb; apply Hl; by right|].
    destruct (proj1 (range_scan_elem _ _ _ _ _) (Hl b v ltac:(by left))) as (Hb & H1 & H2). destruct (sm_keys _ _ Hs _ _ Hb) as (k & Hk & ->).
    destruct (proj1 (Hr k Hk)) as (a & -> & Pa); [by apply andb_true_iff|]. exists ((a, v) :: l). split; [done|].
    intros a' v' [[= -> ->]|Hin']%elem_of_cons; [|by apply Hin]. rewrite <- (sm_lookup _ _ Hs) by done. done. }
  destruct (H (range_scan db s (Some e))) as (l & El & Hin); [done|]. exists l. split; [done|]. split; [done|].
  assert (Ek : (fun a => enc (f a)) <$> l.*1 = range_keys db s (Some e)).
  { rewrite <- range_scan_keys, El, <- !list_fmap_compose. apply list_fmap_ext. by intros ? [? ?] _. }
  split; [|rewrite Ek; split; [apply range_keys_sorted|apply range_keys_NoDup]].
  intros a v Hm Pa. pose proof (sm_wf _ _ Hs _ _ Hm) as Hwf. pose proof (proj2 (Hr (f a) Hwf) (ex_intro _ a (conj eq_refl Pa))) as Hb.
  apply andb_true_iff in Hb as [H1 H2]. rewrite <- (sm_lookup _ _ Hs) in Hm by done.
  assert (Hx : (enc (f a), v) ∈ range_scan db s (Some e)) by (by apply range_scan_elem). rewrite El in Hx.
  apply list_elem_of_fmap in Hx as ([a' v'] & [= E ->] & Hx). exists a'. split; [|done]. apply enc_inj in E; [done|done|]. by apply (Hin a' v').
Qed.

Lemma other_prefix (p c : byte) (s e b : bytes) : c <> p -> bytes_leb (p :: s) (c :: b) && bytes_ltb (c :: b) (p :: e) = false.
Proof.
  intros Hne. unfold bytes_leb, bytes_ltb. cbn [bytes_compare].
  destruct (Z.compare_spec (b2z p) (b2z c)) as [E|E|E]; [by apply b2z_inj in E| |done].
  by rewrite (proj2 (Z.compare_gt_iff (b2z c) (b2z p))).
Qed.

(** The bounds of a range of heights. *)
Lemma height_leb (n : Z) (h : Height) (rest : bytes) :
  is_u64 n -> Height_wf h -> bytes_leb (Height_ToBytes (NewHeight n 0)) (Height_ToBytes h ++ rest) = (n <=? BlockNum h).
Proof.
  intros Hn [Hb Ht]. unfold bytes_leb. pose proof (Height_ToBytes_compare (NewHeight n 0) h [] rest) as E. rewrite app_nil_r in E.
  rewrite E by (split; unfold is_u64 in *; cbn; lia || done). unfold height_compare. cbn [NewHeight BlockNum TxNum].
  destruct (Z.compare_spec n (BlockNum h)), (Z.leb_spec n (BlockNum h)); try lia; try done.
  destruct (Z.compare_spec 0 (TxNum h)); [by destruct rest|done|]. unfold is_u64 in Ht. lia.
Qed.

Lemma height_ltb (n : Z) (h : Height) (rest : bytes) :
  is_u64 n -> Height_wf h -> bytes_ltb (Height_ToBytes h ++ rest) (Height_ToBytes (NewHeight n 0)) = (BlockNum h <? n).
Proof.
  intros Hn [Hb Ht]. unfold bytes_ltb. pose proof (Height_ToBytes_compare h (NewHeight n 0) rest []) as E. rewrite app_nil_r in E.
  rewrite E by (split; unfold is_u64 in *; cbn; lia || done). unfold height_compare. cbn [NewHeight BlockNum TxNum].
  destruct (Z.compare_spec (BlockNum h) n), (Z.ltb_spec (BlockNum h) n); try lia; try done.
  destruct (Z.compare_spec (TxNum h) 0); [by destruct rest| |done]. unfold is_u64 in Ht. lia.
Qed.

(** The bounds of a range of block numbers in reverse order, up to block 1. *)
Lemma reverse_leb (n m : Z) (rest : bytes) :
  is_u64 n -> is_u64 m -> bytes_leb (encodeReverseOrderVarUint64 n) (encodeReverseOrderVarUint64 m ++ rest) = (m <=? n).
Proof.
  intros Hn Hm. unfold bytes_leb. pose proof (reverse_compare_app n m [] rest Hn Hm) as E. rewrite app_nil_r in E. rewrite E.
  destruct (Z.compare_spec m n), (Z.leb_spec m n); try lia; try done. by destruct rest.
Qed.

Lemma reverse_ltb (m : Z) (rest : bytes) :
  is_u64 m -> bytes_ltb (encodeReverseOrderVarUint64 m ++ rest) (encodeReverseOrderVarUint64 0) = (0 <? m).
Proof.
  intros Hm. unfold bytes_ltb. pose proof (reverse_compare_app m 0 rest [] Hm ltac:(done)) as E. rewrite app_nil_r in E. rewrite E.
  destruct (Z.compare_spec 0 m), (Z.ltb_spec 0 m); try lia; try done. by destruct rest.
Qed.

Lemma u64_succ (n : Z) : 0 <= n < MaxUint64 -> u64 (n + 1) = n + 1 /\ is_u64 n /\ is_u64 (n + 1).
Proof. unfold u64, is_u64, MaxUint64. intros H. split; [apply Z.mod_small; lia|lia]. Qed.

(** A key of another kind is not in the range. *)
Ltac other_kind := split; [intros E; exfalso; revert E|by intros (? & [=] & _)];
  cbn [enc app encodeDataKey encodeExpiryKey encodeElgPrioMissingDataKey encodeElgDeprioMissingDataKey
    encodeElgMissingDataKey encodeInelgMissingDataKey encodeCollElgKey encodeBootKVHashesKey pvtDataKeyPrefix expiryKeyPrefix elgPrioritizedMissingDataGroup
    elgDeprioritizedMissingDataGroup inelgMissingDataGroup collElgKeyPrefix bootKVHashesKeyPrefix];
  change pendingCommitKey with [Byte.x00]; change lastCommittedBlkkey with [Byte.x01]; change lastUpdatedOldBlocksKey with [Byte.x07];
  change lastBlockInBootSnapshotKey with [Byte.x61]; rewrite other_prefix by discriminate; discriminate.

(** The data of a block. *)
Lemma block_data_range (n : Z) (k : skey) :
  0 <= n < MaxUint64 -> skey_wf k ->
  bytes_leb (fst (getDataKeysForRangeScanByBlockNum n)) (enc k) && bytes_ltb (enc k) (snd (getDataKeysForRangeScanByBlockNum n)) = true <->
  exists d, k = SData d /\ (nc_blkNum (dt_nsCollBlk d) =? n) = true.
Proof.
  intros Hn Hk. destruct (u64_succ n Hn) as (Eu & Hu & Hu').
  destruct k as [ | | | |d| | | | | |]; cbn [fst snd getDataKeysForRangeScanByBlockNum]; [other_kind..| |other_kind|other_kind|other_kind|other_kind|other_kind|other_kind].
  destruct Hk as [(_ & _ & Hb) Ht]. cbn [enc]. unfold encodeDataKey. rewrite bytes_leb_app, bytes_ltb_app, Eu, height_leb, height_ltb by (done || by split).
  cbn [NewHeight BlockNum]. rewrite andb_true_iff, Z.leb_le, Z.ltb_lt. split.
  - intros H. exists d. split; [done|]. apply Z.eqb_eq. lia.
  - intros (d' & [= <-] & E). apply Z.eqb_eq in E. lia.
Qed.

(** What expires up to a block. *)
Lemma expiry_range_keys (n : Z) (k : skey) :
  0 <= n < MaxUint64 -> skey_wf k ->
  bytes_leb (fst (getExpiryKeysForRangeScan 0 n)) (enc k) && bytes_ltb (enc k) (snd (getExpiryKeysForRangeScan 0 n)) = true <->
  exists x, k = SExpiry x /\ (xk_expiringBlk x <=? n) = true.
Proof.
  intros Hn Hk. destruct (u64_succ n Hn) as (Eu & Hu & Hu').
  destruct k as [ | | | | |x| | | | |]; cbn [fst snd getExpiryKeysForRangeScan]; [other_kind..| |other_kind|other_kind|other_kind|other_kind|other_kind].
  destruct Hk as [He Hc]. cbn [enc]. unfold encodeExpiryKey. rewrite bytes_leb_app, bytes_ltb_app, Eu.
  pose proof (height_leb 0 (NewHeight (xk_expiringBlk x) (xk_committingBlk x)) [] ltac:(done) (conj He Hc)) as E1. rewrite app_nil_r in E1.
  pose proof (height_ltb (n + 1) (NewHeight (xk_expiringBlk x) (xk_committingBlk x)) [] Hu' (conj He Hc)) as E2. rewrite app_nil_r in E2.
  rewrite E1, E2. cbn [NewHeight BlockNum]. rewrite andb_true_iff, Z.leb_le, Z.ltb_lt. unfold is_u64 in He. split.
  - intros H. exists x. split; [done|]. apply Z.leb_le. lia.
  - intros (x' & [= <-] & E). apply Z.leb_le in E. lia.
Qed.

(** What is missing up to a block, without that of block 0. *)
Lemma missing_range (n : Z) (g : bool) (k : skey) :
  let group := if g then elgPrioritizedMissingDataGroup else elgDeprioritizedMissingDataGroup in
  is_u64 n -> skey_wf k ->
  bytes_leb (fst (createRangeScanKeysForElgMissingData n group)) (enc k) && bytes_ltb (enc k) (snd (createRangeScanKeysForElgMissingData n group)) = true <->
  exists x, k = (if g then SPrio else SDeprio) x /\ (0 <? nc_blkNum x) && (nc_blkNum x <=? n) = true.
Proof.
  intros group Hn Hk. subst group. destruct g.
  - destruct k as [ | | | | | |x| | | |]; cbn [fst snd createRangeScanKeysForElgMissingData]; [other_kind..| |other_kind|other_kind|other_kind|other_kind].
    destruct Hk as (_ & _ & Hb). cbn [enc]. unfold encodeElgPrioMissingDataKey, encodeElgMissingDataKey. rewrite bytes_leb_app, bytes_ltb_app, reverse_leb, reverse_ltb by done.
    rewrite andb_comm. split; [intros H; by exists x|by intros (x' & [= <-] & E)].
  - destruct k as [ | | | | | | |x| | |]; cbn [fst snd createRangeScanKeysForElgMissingData]; [other_kind..| |other_kind|other_kind|other_kind].
    destruct Hk as (_ & _ & Hb). cbn [enc]. unfold encodeElgDeprioMissingDataKey, encodeElgMissingDataKey. rewrite bytes_leb_app, bytes_ltb_app, reverse_leb, reverse_ltb by done.
    rewrite andb_comm. split; [intros H; by exists x|by intros (x' & [= <-] & E)].
Qed.
