(* ===== verification/PvtStoreInv.v ===== *)
(** * What the private data store holds

    [map_inv] relates the database of a store to what has been committed to it: what
    has not expired is in the database, what is in the database has been committed, and
    every entry that expires is listed under the block at which it does.  A purge, also
    one that is cut short, keeps it ([purge_ok], [purged_inv]) and leaves nothing that
    has expired by its block ([purged_complete]). *)

From S2P Require Import Prelude Wire Varint OrderedCode GoOS LevelDB Proto StateProto BatchPreparer PurgeMgr PurgeMgrOk PvtStore PvtStoreOk.

Lemma Marshal_inj `{CodecOk A} (a b : A) : Marshal a = Marshal b -> a = b.
Proof. intros E. apply (f_equal Unmarshal) in E. rewrite !Unmarshal_Marshal in E. by injection E. Qed.

Section Inv.
Context {PP : PvtStoreProtos} {PO : PvtStoreProtosOk} {BP : BTLPolicy} {BO : BTLPolicyOk}.

(** ** Reading a block *)

(** The write sets of a list of transactions, in order. *)
Definition tx_entries (tx : Z) (l : list NsPvtReadWriteSet) : list (Z * bytes * CollectionPvtReadWriteSet) :=
  l ≫= fun n => (fun c => (tx, NsPvtReadWriteSet_Namespace n, c)) <$> NsPvtReadWriteSet_CollectionPvtRwset n.

Definition entries_of (l : list TxPvtData) : list (Z * bytes * CollectionPvtReadWriteSet) :=
  l ≫= fun t => match WriteSet t with Some ws => tx_entries (SeqInBlock t) (TxPvtReadWriteSet_NsPvtRwset ws) | None => [] end.

Definition asm_sets (a : txPvtdataAssembler) : list NsPvtReadWriteSet := as_txWset a ++ match as_current a with Some n => [n] | None => [] end.

Lemma tx_entries_app (tx : Z) (l l' : list NsPvtReadWriteSet) : tx_entries tx (l ++ l') = tx_entries tx l ++ tx_entries tx l'.
Proof. apply bind_app. Qed.

Lemma entries_of_app (l l' : list TxPvtData) : entries_of (l ++ l') = entries_of l ++ entries_of l'.
Proof. apply bind_app. Qed.

Lemma entries_of_tx (a : txPvtdataAssembler) : entries_of [getTxPvtdata a] = tx_entries (as_txNum a) (asm_sets a).
Proof. unfold entries_of. cbn [mbind list_bind getTxPvtdata WriteSet SeqInBlock TxPvtReadWriteSet_NsPvtRwset]. by rewrite app_nil_r. Qed.

Lemma assembler_add_ok (ns : bytes) (w : CollectionPvtReadWriteSet) (a : txPvtdataAssembler) :
  as_txNum (assembler_add ns w a) = as_txNum a /\
  tx_entries (as_txNum a) (asm_sets (assembler_add ns w a)) = tx_entries (as_txNum a) (asm_sets a) ++ [(as_txNum a, ns, w)].
Proof.
  assert (H1 : forall n, tx_entries (as_txNum a) [n] = (fun c => (as_txNum a, NsPvtReadWriteSet_Namespace n, c)) <$> NsPvtReadWriteSet_CollectionPvtRwset n).
  { intros n. unfold tx_entries. cbn [mbind list_bind]. by rewrite app_nil_r. }
  unfold assembler_add, asm_sets. destruct (as_current a) as [n|]; cbn [from_option id].
  - case_bool_decide as Hne; cbn [as_txNum as_txWset as_current]; (split; [done|]).
    + rewrite !tx_entries_app, !H1. cbn [NsPvtReadWriteSet_Namespace NsPvtReadWriteSet_CollectionPvtRwset app fmap list_fmap]. done.
    + rename Hne into En.
      rewrite !tx_entries_app, !H1. cbn [NsPvtReadWriteSet_Namespace NsPvtReadWriteSet_CollectionPvtRwset].
      rewrite fmap_app, app_assoc. cbn [fmap list_fmap]. by rewrite En.
  - cbn [NsPvtReadWriteSet_Namespace]. rewrite bool_decide_eq_false_2 by tauto. cbn [as_txNum as_txWset as_current]. split; [done|].
    rewrite app_nil_r, !tx_entries_app, !H1. done.
Qed.

(** Whether an entry has expired at a block. *)
Definition expired_at (last : Z) (k : nsCollBlk) : bool :=
  match GetExpiringBlock (nc_ns k) (nc_coll k) (nc_blkNum k) with Ret e => e <=? last | _ => false end.

(** The policy of a collection is known. *)
Definition has_policy (k : nsCollBlk) : Prop := exists e, GetExpiringBlock (nc_ns k) (nc_coll k) (nc_blkNum k) = Ret e.

Lemma isExpired_ok (last : Z) (k : nsCollBlk) : has_policy k -> isExpired k last = Ret (expired_at last k).
Proof. intros [e E]. unfold isExpired, expired_at. by rewrite E. Qed.

Definition shown (last : Z) (filter : option PvtNsCollFilter) (k : dataKey) : bool := negb (expired_at last (dt_nsCollBlk k)) && passesFilter k filter.

Definition entry_of (x : dataKey * CollectionPvtReadWriteSet) : Z * bytes * CollectionPvtReadWriteSet :=
  (dt_txNum (fst x), nc_ns (dt_nsCollBlk (fst x)), snd x).

Abbreviation tx_of := (dt_txNum ∘ fst).

Definition current_entries (current : option txPvtdataAssembler) : list (Z * bytes * CollectionPvtReadWriteSet) :=
  match current with Some a => tx_entries (as_txNum a) (asm_sets a) | None => [] end.

Lemma retrieve_loop_ok (last : Z) (filter : option PvtNsCollFilter) (l : list (dataKey * CollectionPvtReadWriteSet)) (acc : list TxPvtData)
    (current : option txPvtdataAssembler) :
  Forall (fun x => dt_wf (fst x) /\ has_policy (dt_nsCollBlk (fst x))) l ->
  exists r, retrieve_loop last filter ((fun '(k, w) => (encodeDataKey k, Marshal w)) <$> l) acc current = Ret r /\
    entries_of r = entries_of acc ++ current_entries current ++ (entry_of <$> List.filter (fun x => shown last filter (fst x)) l).
Proof.
  intros Hf. revert acc current. induction Hf as [|[k w] l [Hk Hp] Hf IH]; intros acc current; cbn [fmap list_fmap retrieve_loop List.filter].
  - eexists. split; [done|]. rewrite entries_of_app, app_nil_r. f_equal. destruct current as [a|]; [apply entries_of_tx|done].
  - cbn [fst] in *. rewrite v11Format_encode by done. cbn [mbind outcome_bind]. rewrite decodeDatakey_encode by done. cbn [mbind outcome_bind].
    rewrite isExpired_ok by done. cbn [mbind outcome_bind]. unfold shown at 1.
    destruct (expired_at last (dt_nsCollBlk k)), (passesFilter k filter); cbn [orb negb andb]; try (by apply IH).
    rewrite proto_Unmarshal_Marshal. cbn [mbind outcome_bind].
    assert (Hadd : forall acc a, as_txNum a = dt_txNum k -> exists r,
      retrieve_loop last filter ((fun '(k, w) => (encodeDataKey k, Marshal w)) <$> l) acc (Some (assembler_add (nc_ns (dt_nsCollBlk k)) w a)) = Ret r /\
      entries_of r = (entries_of acc ++ tx_entries (as_txNum a) (asm_sets a)) ++ (entry_of <$> (k, w) :: List.filter (fun x => shown last filter (fst x)) l)).
    { intros acc' a Ea. destruct (IH acc' (Some (assembler_add (nc_ns (dt_nsCollBlk k)) w a))) as (r & Er & Hr). exists r. split; [exact Er|]. rewrite Hr.
      destruct (assembler_add_ok (nc_ns (dt_nsCollBlk k)) w a) as [E1 E2]. cbn [current_entries]. rewrite E1, E2, <- !app_assoc. cbn [app fmap list_fmap]. by rewrite Ea. }
    destruct current as [a|]; cbn [from_option id].
    + destruct (Z.eqb_spec (dt_txNum k) (as_txNum a)) as [E|E]; cbn [negb].
      * destruct (Hadd acc a) as (r & Er & Hr); [done|]. exists r. split; [exact Er|]. by rewrite Hr, <- app_assoc.
      * destruct (Hadd (acc ++ [getTxPvtdata a]) (newTxPvtdataAssembler (dt_txNum k))) as (r & Er & Hr); [done|]. exists r. split; [exact Er|].
        rewrite Hr, entries_of_app, entries_of_tx. cbn [asm_sets newTxPvtdataAssembler as_txWset as_current app]. by rewrite app_nil_r, <- app_assoc.
    + cbn [newTxPvtdataAssembler as_txNum]. rewrite Z.eqb_refl. cbn [negb].
      destruct (Hadd acc (newTxPvtdataAssembler (dt_txNum k))) as (r & Er & Hr); [done|]. exists r. split; [exact Er|]. rewrite Hr. by rewrite app_nil_r.
Qed.

Definition current_tx (current : option txPvtdataAssembler) : list Z := match current with Some a => [as_txNum a] | None => [] end.

(** Every transaction appears once, in order. *)
Lemma retrieve_loop_sorted (last : Z) (filter : option PvtNsCollFilter) (l : list (dataKey * CollectionPvtReadWriteSet)) (acc r : list TxPvtData)
    (current : option txPvtdataAssembler) :
  Forall (fun x => dt_wf (fst x) /\ has_policy (dt_nsCollBlk (fst x))) l -> StronglySorted Z.le (tx_of <$> l) ->
  StronglySorted Z.lt ((SeqInBlock <$> acc) ++ current_tx current) ->
  (forall t, t ∈ SeqInBlock <$> acc -> Forall (fun x => t < tx_of x) l) -> (forall t, t ∈ current_tx current -> Forall (fun x => t <= tx_of x) l) ->
  retrieve_loop last filter ((fun '(k, w) => (encodeDataKey k, Marshal w)) <$> l) acc current = Ret r -> StronglySorted Z.lt (SeqInBlock <$> r).
Proof.
  intros Hf. revert acc current. induction Hf as [|[k w] l [Hk Hp] Hf IH]; intros acc current Hl Hs Ha Hc; cbn [fmap list_fmap retrieve_loop].
  { intros [= <-]. rewrite fmap_app. by destruct current. }
  cbn [fst] in *. rewrite v11Format_encode by done. cbn [mbind outcome_bind]. rewrite decodeDatakey_encode by done. cbn [mbind outcome_bind].
  rewrite isExpired_ok by done. cbn [mbind outcome_bind]. cbn [fmap list_fmap] in Hl. apply StronglySorted_inv in Hl as [Hl Hkl].
  assert (Ha' : forall t, t ∈ SeqInBlock <$> acc -> t < dt_txNum k /\ Forall (fun x => t < tx_of x) l) by (intros t Ht; exact (proj1 (Forall_cons _ _ _) (Ha t Ht))).
  assert (Hc' : forall t, t ∈ current_tx current -> t <= dt_txNum k /\ Forall (fun x => t <= tx_of x) l) by (intros t Ht; exact (proj1 (Forall_cons _ _ _) (Hc t Ht))).
  assert (Hk' : Forall (fun x => dt_txNum k <= tx_of x) l) by exact (proj1 (Forall_fmap _ _ _) Hkl).
  destruct (expired_at last (dt_nsCollBlk k) || negb (passesFilter k filter)).
  { apply IH; [done|done|intros t Ht; by apply Ha'|intros t Ht; by apply Hc']. }
  rewrite proto_Unmarshal_Marshal. cbn [mbind outcome_bind]. destruct current as [a|]; cbn [from_option id].
  - destruct (Hc' (as_txNum a)) as [Hle Hlel]; [by left|]. destruct (Z.eqb_spec (dt_txNum k) (as_txNum a)) as [E|E]; cbn [negb].
    + apply IH; [done| |intros t Ht; by apply Ha'|]; cbn [current_tx]; rewrite (proj1 (assembler_add_ok _ _ _)); [done|].
      by intros t ->%list_elem_of_singleton.
    + apply IH; [done| | |]; cbn [current_tx]; rewrite ?(proj1 (assembler_add_ok _ _ _)); cbn [newTxPvtdataAssembler as_txNum].
      * rewrite fmap_app. cbn [fmap list_fmap getTxPvtdata SeqInBlock]. apply StronglySorted_app_2; [|done|repeat constructor].
        intros x y Hx ->%list_elem_of_singleton. apply elem_of_app in Hx as [Hx| ->%list_elem_of_singleton]; [by apply Ha' in Hx as [? _]|lia].
      * intros t Ht. rewrite fmap_app in Ht. apply elem_of_app in Ht as [Ht| ->%list_elem_of_singleton]; [by apply Ha'|].
        cbn [getTxPvtdata SeqInBlock]. eapply Forall_impl; [exact Hk'|]. cbn. lia.
      * by intros t ->%list_elem_of_singleton.
  - cbn [newTxPvtdataAssembler as_txNum]. rewrite Z.eqb_refl. cbn [negb]. apply IH; [done| |intros t Ht; by apply Ha'|]; cbn [current_tx];
      rewrite (proj1 (assembler_add_ok _ _ _)); cbn [as_txNum]; [|by intros t ->%list_elem_of_singleton].
    cbn [current_tx] in Hs. rewrite app_nil_r in Hs. apply StronglySorted_app_2; [|done|repeat constructor].
    intros x y Hx ->%list_elem_of_singleton. by apply Ha' in Hx as [? _].
Qed.

(** ** What an expiry entry lists *)

Abbreviation coll_of := getOrCreateCollections.

Definition lists_data (x : expiryKey) (ed : ExpiryDataMsg) (k : dataKey) : Prop :=
  let n := dt_nsCollBlk k in
  nc_blkNum n = xk_committingBlk x /\ dt_txNum k ∈ default [] (PresentData (coll_of (nc_ns n) ed) !! nc_coll n).

Definition lists_missing (x : expiryKey) (ed : ExpiryDataMsg) (n : nsCollBlk) : Prop :=
  nc_blkNum n = xk_committingBlk x /\ is_Some (MissingData (coll_of (nc_ns n) ed) !! nc_coll n).

Definition lists_boot (x : expiryKey) (ed : ExpiryDataMsg) (k : bootKVHashesKey) : Prop :=
  bk_blkNum k = xk_committingBlk x /\ bk_txNum k ∈ default [] (BootKVHashes (coll_of (bk_ns k) ed) !! bk_coll k).

Lemma coll_of_lookup {A} (f : NamespaceExpiryData -> gmap bytes A) (ns coll : bytes) (ed : ExpiryDataMsg) (a : A) :
  f (mkNamespaceExpiryData ∅ ∅ ∅) = ∅ -> f (coll_of ns ed) !! coll = Some a <-> exists d, ed !! ns = Some d /\ f d !! coll = Some a.
Proof.
  intros Hf. unfold coll_of. destruct (ed !! ns) as [d|]; cbn [from_option id]; [|rewrite Hf, lookup_empty]; naive_solver.
Qed.

Lemma coll_of_insert (ns ns' : bytes) (d : NamespaceExpiryData) (ed : ExpiryDataMsg) :
  coll_of ns' (<[ns := d]> ed) = if decide (ns = ns') then d else coll_of ns' ed.
Proof. unfold coll_of. destruct (decide (ns = ns')) as [->|]; [by rewrite lookup_insert_eq|by rewrite lookup_insert_ne]. Qed.

Lemma elem_default {A} (x : A) (o : option (list A)) : x ∈ default [] o <-> exists l, o = Some l /\ x ∈ l.
Proof. destruct o as [l|]; cbn; [naive_solver|]. split; [by intros H%not_elem_of_nil|naive_solver]. Qed.

Lemma deriveKeys_data (x : expiryKey) (ed : ExpiryDataMsg) (k : dataKey) : k ∈ fst (fst (deriveKeys (x, Some ed))) <-> lists_data x ed k.
Proof.
  unfold deriveKeys, lists_data. cbn [fst snd from_option id]. rewrite list_elem_of_bind, elem_default. unfold present_keys.
  setoid_rewrite (coll_of_lookup PresentData _ _ _ _ eq_refl). split.
  - intros ([ns d] & Hk & Hd). apply elem_of_map_to_list in Hd. apply list_elem_of_bind in Hk as ([coll txs] & Hk & Ht). apply elem_of_map_to_list in Ht.
    apply list_elem_of_fmap in Hk as (tx & -> & Hk). cbn. split; [done|]. exists txs. split; [by exists d|done].
  - destruct k as [[ns coll n] tx]. cbn. intros (-> & txs & (d & Hd & Ht) & Hx). exists (ns, d). split; [|by apply elem_of_map_to_list].
    apply list_elem_of_bind. exists (coll, txs). split; [|by apply elem_of_map_to_list]. apply list_elem_of_fmap. by exists tx.
Qed.

Lemma deriveKeys_missing (x : expiryKey) (ed : ExpiryDataMsg) (n : nsCollBlk) : n ∈ snd (fst (deriveKeys (x, Some ed))) <-> lists_missing x ed n.
Proof.
  unfold deriveKeys, lists_missing, is_Some. cbn [fst snd from_option id]. rewrite list_elem_of_bind.
  setoid_rewrite (coll_of_lookup MissingData _ _ _ _ eq_refl). split.
  - intros ([ns d] & Hk & Hd). apply elem_of_map_to_list in Hd. apply list_elem_of_fmap in Hk as ([coll b] & -> & Hk). apply elem_of_map_to_list in Hk.
    cbn. split; [done|]. by exists b, d.
  - destruct n as [ns coll n]. cbn. intros (-> & b & d & Hd & Hb). exists (ns, d). split; [|by apply elem_of_map_to_list].
    apply list_elem_of_fmap. exists (coll, b). split; [done|]. by apply elem_of_map_to_list.
Qed.

Lemma deriveKeys_boot (x : expiryKey) (ed : ExpiryDataMsg) (k : bootKVHashesKey) : k ∈ snd (deriveKeys (x, Some ed)) <-> lists_boot x ed k.
Proof.
  unfold deriveKeys, lists_boot. cbn [fst snd from_option id]. rewrite list_elem_of_bind, elem_default.
  setoid_rewrite (coll_of_lookup BootKVHashes _ _ _ _ eq_refl). split.
  - intros ([ns d] & Hk & Hd). apply elem_of_map_to_list in Hd. apply list_elem_of_bind in Hk as ([coll txs] & Hk & Ht). apply elem_of_map_to_list in Ht.
    apply list_elem_of_fmap in Hk as (tx & -> & Hk). cbn. split; [done|]. exists txs. split; [by exists d|done].
  - destruct k as [n tx ns coll]. cbn. intros (-> & txs & (d & Hd & Ht) & Hx). exists (ns, d). split; [|by apply elem_of_map_to_list].
    apply list_elem_of_bind. exists (coll, txs). split; [|by apply elem_of_map_to_list]. apply list_elem_of_fmap. by exists tx.
Qed.

(** [addPresentData] lists one more entry. *)
Lemma addPresentData_ok (x : expiryKey) (k : dataKey) (ed : ExpiryDataMsg) :
  let n := dt_nsCollBlk k in
  nc_blkNum n = xk_committingBlk x ->
  exists ed', addPresentData (nc_ns n) (nc_coll n) (dt_txNum k) (Some ed) = Ret (Some ed') /\ ed' <> ∅ /\
    (forall k', lists_data x ed' k' <-> lists_data x ed k' \/ k' = k) /\
    (forall n', lists_missing x ed' n' <-> lists_missing x ed n') /\ (forall b, lists_boot x ed' b <-> lists_boot x ed b).
Proof.
  intros n Hn. eexists. split; [done|]. split; [apply insert_non_empty|]. split; [|split].
  - intros k'. unfold lists_data. cbn zeta. rewrite coll_of_insert. destruct (decide (nc_ns n = nc_ns (dt_nsCollBlk k'))) as [E|E]; cbn [PresentData].
    2:{ split; [tauto|]. intros [H| ->]; done. }
    rewrite <- E. destruct (decide (nc_coll n = nc_coll (dt_nsCollBlk k'))) as [Ec|Ec].
    2:{ rewrite lookup_insert_ne by done. split; [tauto|]. intros [H| ->]; done. }
    rewrite <- Ec, lookup_insert_eq. cbn [from_option id]. rewrite elem_of_app, list_elem_of_singleton. split.
    + intros [Hb [Hx|Hx]]; [by left|right]. destruct k as [[a b c] t], k' as [[a' b' c'] t']. cbn in *. congruence.
    + intros [[Hb Hx]| ->]; [by auto|]. split; [done|]. by right.
  - intros n'. unfold lists_missing. rewrite coll_of_insert. destruct (decide (nc_ns n = nc_ns n')) as [E|E]; [|done]. by rewrite <- E.
  - intros b. unfold lists_boot. rewrite coll_of_insert. destruct (decide (nc_ns n = bk_ns b)) as [E|E]; [|done]. by rewrite <- E.
Qed.

(** So does [addMissingData]. *)
Lemma addMissingData_ok (x : expiryKey) (n : nsCollBlk) (ed : ExpiryDataMsg) :
  nc_blkNum n = xk_committingBlk x ->
  exists ed', addMissingData (nc_ns n) (nc_coll n) (Some ed) = Ret (Some ed') /\ ed' <> ∅ /\
    (forall k, lists_data x ed' k <-> lists_data x ed k) /\
    (forall n', lists_missing x ed' n' <-> lists_missing x ed n' \/ n' = n) /\ (forall b, lists_boot x ed' b <-> lists_boot x ed b).
Proof.
  intros Hn. eexists. split; [done|]. split; [apply insert_non_empty|]. split; [|split].
  - intros k. unfold lists_data. cbn zeta. rewrite coll_of_insert. destruct (decide (nc_ns n = nc_ns (dt_nsCollBlk k))) as [E|E]; [|done]. by rewrite <- E.
  - intros n'. unfold lists_missing. rewrite coll_of_insert. destruct (decide (nc_ns n = nc_ns n')) as [E|E]; cbn [MissingData].
    2:{ split; [tauto|]. intros [H| ->]; done. }
    rewrite <- E. destruct (decide (nc_coll n = nc_coll n')) as [Ec|Ec].
    2:{ rewrite lookup_insert_ne by done. split; [tauto|]. intros [H| ->]; done. }
    rewrite <- Ec, lookup_insert_eq. split; [|intros [[Hb Hx]| ->]; (split; [done|by eexists])].
    intros [Hb _]. right. destruct n, n'. cbn in *. congruence.
  - intros b. unfold lists_boot. rewrite coll_of_insert. destruct (decide (nc_ns n = bk_ns b)) as [E|E]; [|done]. by rewrite <- E.
Qed.

(** ** The invariant *)

Definition expiring (n : nsCollBlk) : outcome Z := GetExpiringBlock (nc_ns n) (nc_coll n) (nc_blkNum n).

(** An entry is listed under the block at which it expires. *)
Record entry_ok (x : expiryKey) (ed : ExpiryDataMsg) : Prop := {
  eo_nonempty : ed <> ∅;
  eo_wf : xk_wf x;
  eo_finite : neverExpires (xk_expiringBlk x) = false;
  eo_data : forall k, lists_data x ed k -> dt_wf k /\ expiring (dt_nsCollBlk k) = Ret (xk_expiringBlk x);
  eo_missing : forall n, lists_missing x ed n -> nc_wf n /\ expiring n = Ret (xk_expiringBlk x);
  eo_boot : forall k, lists_boot x ed k -> bk_wf k }.

(** The three groups of missing data. *)
Inductive group := GPrio | GDeprio | GInelg.

Definition SG (g : group) : nsCollBlk -> skey := match g with GPrio => SPrio | GDeprio => SDeprio | GInelg => SInelg end.

(** What has been committed: the write sets, the transactions whose write sets are
    missing, the collections of blocks that have been recorded and the eligibility
    events that have not been processed. *)
Record pvt_spec := mkspec {
  sp_data : gmap dataKey CollectionPvtReadWriteSet;
  sp_elg : gset (nsCollBlk * Z);
  sp_inelg : gset (nsCollBlk * Z);
  sp_known : gset nsCollBlk;
  sp_events : gmap Z CollElgInfo }.

Definition sp_missing (g : group) (sp : pvt_spec) : gset (nsCollBlk * Z) := match g with GInelg => sp_inelg sp | _ => sp_elg sp end.

(** The transactions a group holds for a collection of a block. *)
Definition holds (m : gmap skey bytes) (g : group) (n : nsCollBlk) (t : Z) : Prop :=
  exists b : BitSet, m !! SG g n = Some (Marshal b) /\ t ∈ b.

(** The names in an eligibility event. *)
Definition elg_ok (info : CollElgInfo) : Prop := forall ns colls coll, info !! ns = Some colls -> coll ∈ colls -> nilByte ∉ ns /\ nilByte ∉ coll.

(** Below block [h] the map holds the specification, but for what has expired. *)
Record map_inv (h : Z) (m : gmap skey bytes) (sp : pvt_spec) : Prop := {
  mi_data : forall k v, m !! SData k = Some v -> exists w, sp_data sp !! k = Some w /\ v = Marshal w;
  mi_live : forall k w, sp_data sp !! k = Some w -> expired_at (h - 1) (dt_nsCollBlk k) = false -> m !! SData k = Some (Marshal w);
  mi_wf : forall k w, sp_data sp !! k = Some w -> dt_wf k /\ has_policy (dt_nsCollBlk k);
  mi_entry : forall x v, m !! SExpiry x = Some v -> exists ed, v = Marshal ed /\ entry_ok x ed /\ xk_committingBlk x < h;
  mi_sched : forall k v e, m !! SData k = Some v -> expiring (dt_nsCollBlk k) = Ret e -> neverExpires e = false ->
    exists ed, m !! SExpiry (mkexpiryKey e (nc_blkNum (dt_nsCollBlk k))) = Some (Marshal ed) /\ lists_data (mkexpiryKey e (nc_blkNum (dt_nsCollBlk k))) ed k;
  mi_missing : forall g n v, m !! SG g n = Some v -> exists b : BitSet, v = Marshal b /\ b <> ∅ /\ forall t, t ∈ b -> (n, t) ∈ sp_missing g sp;
  mi_bound : forall g n t, (n, t) ∈ sp_missing g sp -> nc_blkNum n < h /\ nc_wf n /\ has_policy n;
  mi_msched : forall g n v e, m !! SG g n = Some v -> expiring n = Ret e -> neverExpires e = false ->
    exists ed, m !! SExpiry (mkexpiryKey e (nc_blkNum n)) = Some (Marshal ed) /\ lists_missing (mkexpiryKey e (nc_blkNum n)) ed n;
  mi_excl : forall n t, holds m GPrio n t -> ~ holds m GDeprio n t;
  mi_sep : forall n, is_Some (m !! SInelg n) -> m !! SPrio n = None /\ m !! SDeprio n = None;
  mi_event : forall c, m !! SElg c = Marshal <$> sp_events sp !! c;
  mi_event_ok : forall c info, sp_events sp !! c = Some info -> is_u64 c /\ elg_ok info;
  mi_elg : forall n t, (n, t) ∈ sp_elg sp -> expired_at (h - 1) n = false -> holds m GPrio n t \/ holds m GDeprio n t;
  mi_inelg : forall n t, (n, t) ∈ sp_inelg sp -> expired_at (h - 1) n = false -> holds m GInelg n t;
  mi_known : forall n e, n ∈ sp_known sp -> expiring n = Ret e -> neverExpires e = false -> h <= e -> is_Some (m !! SExpiry (mkexpiryKey e (nc_blkNum n))) }.

Lemma expiring_wf (x : expiryKey) (n : nsCollBlk) : nc_wf n -> nc_blkNum n = xk_committingBlk x -> expiring n = Ret (xk_expiringBlk x) -> xk_wf x.
Proof. intros (_ & _ & Hu) En Ee. apply GetExpiringBlock_after in Ee as [Ee _]; [|done]. rewrite En in Hu. by split. Qed.

Definition empty_spec : pvt_spec := mkspec ∅ ∅ ∅ ∅ ∅.

Lemma map_inv_empty (h : Z) : map_inv h ∅ empty_spec.
Proof.
  split; cbn; intros *; rewrite ?lookup_empty; try done; try (destruct g; set_solver); try (by intros [? ?]).
  intros (b & E & _). by rewrite lookup_empty in E.
Qed.

(** ** Purging *)

Definition purge_keys (x : expiryKey) (ed : ExpiryDataMsg) : list skey :=
  let '(dataKeys, missingDataKeys, bootKVHashesKeys) := deriveKeys (x, Some ed) in
  SExpiry x :: (SData <$> dataKeys) ++ (missingDataKeys ≫= fun n => [SPrio n; SDeprio n; SInelg n]) ++ (SBoot <$> bootKVHashesKeys).

Definition deletes (l : list skey) : sbatch := (fun k => (k, None)) <$> l.

Lemma enc_deletes (l : list skey) : enc_batch (deletes l) = (fun k => (enc k, None)) <$> l.
Proof. unfold enc_batch, deletes. by rewrite <- list_fmap_compose. Qed.

Lemma purge_batch_keys (x : expiryKey) (ed : ExpiryDataMsg) : purge_batch (x, Some ed) = enc_batch (deletes (purge_keys x ed)).
Proof.
  rewrite enc_deletes. unfold purge_batch, purge_keys. destruct (deriveKeys (x, Some ed)) as [[dks mks] bks]. cbn [fmap list_fmap fst]. f_equal.
  rewrite !fmap_app, <- !list_fmap_compose. f_equal. f_equal.
  induction mks as [|n mks IH]; [done|]. cbn [mbind list_bind app fmap list_fmap]. do 3 f_equal. exact IH.
Qed.

Lemma purge_keys_elem (x : expiryKey) (ed : ExpiryDataMsg) (k : skey) :
  k ∈ purge_keys x ed <->
  match k with
  | SExpiry y => y = x
  | SData d => lists_data x ed d
  | SPrio n | SDeprio n | SInelg n => lists_missing x ed n
  | SBoot b => lists_boot x ed b
  | _ => False
  end.
Proof.
  pose proof (deriveKeys_data x ed) as Hd. pose proof (deriveKeys_missing x ed) as Hm. pose proof (deriveKeys_boot x ed) as Hb.
  unfold purge_keys. destruct (deriveKeys (x, Some ed)) as [[dks mks] bks]. cbn [fst snd] in *.
  rewrite elem_of_cons, !elem_of_app, !list_elem_of_fmap, list_elem_of_bind. setoid_rewrite elem_of_cons. setoid_rewrite elem_of_cons.
  setoid_rewrite list_elem_of_singleton. destruct k; rewrite <- ?Hd, <- ?Hm, <- ?Hb; naive_solver.
Qed.

Lemma upd_deletes (l : list skey) (m : gmap skey bytes) (k : skey) : upd (deletes l) m !! k = if decide (k ∈ l) then None else m !! k.
Proof.
  destruct (decide (k ∈ l)) as [Hk|Hk].
  - apply upd_same; [apply list_elem_of_fmap; by exists k|]. intros o (k' & [= _ ->] & _)%list_elem_of_fmap. done.
  - apply upd_notin. intros o (k' & [= -> _] & Hin)%list_elem_of_fmap. done.
Qed.

(** What a purge deletes that has got to the expiry entries [T]. *)
Definition gone (T : expiryKey -> Prop) (m : gmap skey bytes) (k : skey) : Prop :=
  exists x ed, m !! SExpiry x = Some (Marshal ed) /\ T x /\ k ∈ purge_keys x ed.

Definition purged (T : expiryKey -> Prop) (m m' : gmap skey bytes) : Prop := forall k, (m' !! k = m !! k /\ ~ gone T m k) \/ (m' !! k = None /\ gone T m k).

Lemma purged_some (T : expiryKey -> Prop) (m m' : gmap skey bytes) (k : skey) (v : bytes) : purged T m m' -> m' !! k = Some v -> m !! k = Some v /\ ~ gone T m k.
Proof. intros Hp E. destruct (Hp k) as [[<- Hg]|[E' _]]; [done|]. congruence. Qed.

Lemma purged_kept (T : expiryKey -> Prop) (m m' : gmap skey bytes) (k : skey) (v : bytes) : purged T m m' -> m !! k = Some v -> ~ gone T m k -> m' !! k = Some v.
Proof. intros Hp E Hg. destruct (Hp k) as [[-> _]|[_ ?]]; done. Qed.

Lemma expired_at_true (h : Z) (n : nsCollBlk) (e : Z) : expiring n = Ret e -> expired_at h n = (e <=? h).
Proof. unfold expired_at, expiring. by intros ->. Qed.

Section Purged.
Context (h b : Z) (T : expiryKey -> Prop) (m m' : gmap skey bytes) (sp : pvt_spec).
Hypotheses (HI : map_inv h m sp) (Hb : b < h) (HT : forall x, T x -> xk_expiringBlk x <= b) (Hp : purged T m m').

Lemma entry_of_some (x : expiryKey) (ed : ExpiryDataMsg) : m !! SExpiry x = Some (Marshal ed) -> entry_ok x ed.
Proof. intros E. destruct (mi_entry _ _ _ HI _ _ E) as (ed' & E' & Ho & _). apply Marshal_inj in E'. by subst. Qed.

Lemma gone_expired (n : nsCollBlk) (k : skey) : gone T m k -> match k with SData d => dt_nsCollBlk d = n | SPrio n' | SDeprio n' | SInelg n' => n' = n | _ => False end ->
  expired_at (h - 1) n = true.
Proof.
  intros (x & ed & E & Hx & Hk) Hn. apply entry_of_some in E. rewrite purge_keys_elem in Hk.
  assert (He : expiring n = Ret (xk_expiringBlk x)).
  { destruct k; try done; subst; [by apply (eo_data _ _ E)|by apply (eo_missing _ _ E)..]. }
  rewrite (expired_at_true _ _ _ He). apply HT in Hx. lia.
Qed.

Lemma sched_kept (x : expiryKey) (ed : ExpiryDataMsg) (k : skey) :
  m !! SExpiry x = Some (Marshal ed) -> k ∈ purge_keys x ed -> ~ gone T m k -> m' !! SExpiry x = Some (Marshal ed).
Proof.
  intros E Hk Hg. apply (purged_kept T m); [done|done|]. intros (y & ed' & E' & Hy & Hk'). apply purge_keys_elem in Hk'. subst y. apply Hg. by exists x, ed.
Qed.

Lemma SG_purge (g : group) (n : nsCollBlk) (x : expiryKey) (ed : ExpiryDataMsg) : SG g n ∈ purge_keys x ed <-> lists_missing x ed n.
Proof. rewrite purge_keys_elem. by destruct g. Qed.

Lemma holds_kept (g : group) (n : nsCollBlk) (t : Z) : expired_at (h - 1) n = false -> holds m g n t -> holds m' g n t.
Proof.
  intros He (bs & E & Ht). exists bs. split; [|done]. apply (purged_kept T m); [done|done|]. intros Hg. apply (gone_expired n) in Hg; [congruence|by destruct g].
Qed.

Lemma holds_before (g : group) (n : nsCollBlk) (t : Z) : holds m' g n t -> holds m g n t.
Proof. intros (bs & E & Ht). apply (purged_some T m) in E as [E _]; [|done]. by exists bs. Qed.

Lemma purged_inv : map_inv h m' sp.
Proof.
  split.
  - intros k v E. apply (purged_some T m) in E as [E _]; [|done]. by apply (mi_data _ _ _ HI).
  - intros k w E He. apply (purged_kept T m); [done|by apply (mi_live _ _ _ HI)|]. intros Hg. apply (gone_expired (dt_nsCollBlk k)) in Hg; [congruence|done].
  - exact (mi_wf _ _ _ HI).
  - intros x v E. apply (purged_some T m) in E as [E _]; [|done]. by apply (mi_entry _ _ _ HI).
  - intros k v e E Ee Hf. apply (purged_some T m) in E as [E Hg]; [|done]. destruct (mi_sched _ _ _ HI _ _ _ E Ee Hf) as (ed & Ex & Hl).
    exists ed. split; [|done]. apply (sched_kept _ _ (SData k)); [done|by apply purge_keys_elem|done].
  - intros g n v E. apply (purged_some T m) in E as [E _]; [|done]. by apply (mi_missing _ _ _ HI).
  - exact (mi_bound _ _ _ HI).
  - intros g n v e E Ee Hf. apply (purged_some T m) in E as [E Hg]; [|done]. destruct (mi_msched _ _ _ HI _ _ _ _ E Ee Hf) as (ed & Ex & Hl).
    exists ed. split; [|done]. apply (sched_kept _ _ (SG g n)); [done|by apply SG_purge|done].
  - intros n t H1 H2. by apply (mi_excl _ _ _ HI n t); apply holds_before.
  - intros n [v E]. apply (purged_some T m) in E as [E _]; [|done]. destruct (mi_sep _ _ _ HI n) as [H1 H2]; [by exists v|].
    split; [destruct (Hp (SPrio n)) as [[-> _]|[-> _]]|destruct (Hp (SDeprio n)) as [[-> _]|[-> _]]]; done.
  - intros c. rewrite <- (mi_event _ _ _ HI). destruct (Hp (SElg c)) as [[-> _]|[_ (x & ed & _ & _ & Hk)]]; [done|by apply purge_keys_elem in Hk].
  - exact (mi_event_ok _ _ _ HI).
  - intros n t Hn He. destruct (mi_elg _ _ _ HI _ _ Hn He); [left|right]; by apply holds_kept.
  - intros n t Hn He. apply holds_kept; [done|]. by apply (mi_inelg _ _ _ HI).
  - intros n e Hn Ee Hf He. destruct (mi_known _ _ _ HI _ _ Hn Ee Hf He) as [v Ev]. exists v. apply (purged_kept T m); [done|done|].
    intros (y & ed & E' & Hy & Hk). apply purge_keys_elem in Hk. subst y. apply HT in Hy. cbn in Hy. lia.
Qed.

(** Nothing that has expired by the block is left. *)
Lemma purged_complete (k : skey) (v : bytes) (n : nsCollBlk) (e : Z) :
  m' !! k = Some v -> match k with SData d => dt_nsCollBlk d = n | SPrio n' | SDeprio n' | SInelg n' => n' = n | _ => False end ->
  (forall x (ed : ExpiryDataMsg), m !! SExpiry x = Some (Marshal ed) -> xk_expiringBlk x <= b -> T x) -> b < MaxUint64 -> expiring n = Ret e -> b < e.
Proof.
  intros E Hn HA HM Ee. apply (purged_some T m) in E as [E Hg]; [|done]. destruct (Z.lt_ge_cases b e) as [|Hle]; [done|]. exfalso. apply Hg.
  assert (Hf : neverExpires e = false) by (apply Z.eqb_neq; lia).
  destruct k as [ | | | |d| |n'|n'|n'| |]; try done; subst.
  - destruct (mi_sched _ _ _ HI _ _ _ E Ee Hf) as (ed & Ex & Hl). eexists _, ed. split; [exact Ex|]. split; [by apply (HA _ ed)|]. by apply purge_keys_elem.
  - destruct (mi_msched _ _ _ HI GPrio _ _ _ E Ee Hf) as (ed & Ex & Hl). eexists _, ed. split; [exact Ex|]. split; [by apply (HA _ ed)|]. by apply purge_keys_elem.
  - destruct (mi_msched _ _ _ HI GDeprio _ _ _ E Ee Hf) as (ed & Ex & Hl). eexists _, ed. split; [exact Ex|]. split; [by apply (HA _ ed)|]. by apply purge_keys_elem.
  - destruct (mi_msched _ _ _ HI GInelg _ _ _ E Ee Hf) as (ed & Ex & Hl). eexists _, ed. split; [exact Ex|]. split; [by apply (HA _ ed)|]. by apply purge_keys_elem.
Qed.

End Purged.

Lemma purge_batches (l : list (expiryKey * ExpiryDataMsg)) (db : kvmap) :
  fold_left (fun db e => DB_WriteBatch (purge_batch e) db) ((fun '(x, ed) => (x, Some ed)) <$> l) db =
    DB_WriteBatch (enc_batch (deletes (l ≫= fun '(x, ed) => purge_keys x ed))) db.
Proof.
  revert db. induction l as [|[x ed] l IH]; intros db; [done|]. cbn [fmap list_fmap fold_left mbind list_bind]. rewrite IH, purge_batch_keys.
  unfold deletes. rewrite fmap_app, enc_batch_app. unfold DB_WriteBatch. by rewrite fold_left_app.
Qed.

Lemma decode_entries_ok (l : list (expiryKey * ExpiryDataMsg)) :
  Forall (fun e => xk_wf (fst e) /\ snd e <> ∅) l ->
  decode_expiry_entries ((fun '(x, ed) => (encodeExpiryKey x, Marshal ed)) <$> l) = Ret ((fun '(x, ed) => (x, Some ed)) <$> l).
Proof.
  induction 1 as [|[x ed] l [Hx Hed] Hf IH]; [done|]. cbn [fmap list_fmap decode_expiry_entries]. cbn [fst snd] in *.
  rewrite decodeExpiryKey_encode by done. cbn [mbind outcome_bind]. rewrite proto_Unmarshal_Marshal. cbn [mbind outcome_bind]. rewrite IH. cbn [mbind outcome_bind].
  unfold go_map_of. rewrite bool_decide_eq_false_2; [done|]. by intros E%dom_empty_inv_L.
Qed.

(** The values of a list of entries. *)
Lemma entries_values {A B} `{CodecOk B} (P : A -> B -> Prop) (l : list (A * bytes)) :
  (forall a v, (a, v) ∈ l -> exists c, v = Marshal c /\ P a c) -> exists l', l = (fun '(a, c) => (a, Marshal c)) <$> l' /\ forall a c, (a, c) ∈ l' -> P a c.
Proof.
  induction l as [|[a v] l IH]; intros Hl; [exists []; split; [done|]; by intros a c Hin%not_elem_of_nil|].
  destruct (Hl a v) as (c & -> & Hc); [by left|]. destruct IH as (l' & -> & Hl'); [intros; apply Hl; by right|].
  exists ((a, c) :: l'). split; [done|]. by intros a' c' [[= -> ->]|Hin]%elem_of_cons; [|apply Hl'].
Qed.

(** The purge, cut short after any number of expiry entries. *)
Lemma purge_ok (h b : Z) (db : kvmap) (m : gmap skey bytes) (sp : pvt_spec) :
  store_map db m -> map_inv h m sp -> 0 <= b < h -> h <= MaxUint64 ->
  exists es, retrieveExpiryEntries db 0 b = Ret es /\ forall i, exists T m',
    store_map (fold_left (fun db e => DB_WriteBatch (purge_batch e) db) (take i es) db) m' /\ purged T m m' /\ (forall x, T x -> xk_expiringBlk x <= b) /\
    ((length es <= i)%nat -> forall x (ed : ExpiryDataMsg), m !! SExpiry x = Some (Marshal ed) -> xk_expiringBlk x <= b -> T x).
Proof.
  intros Hs HI Hb HM. unfold retrieveExpiryEntries.
  destruct (store_scan SExpiry (fun x => xk_expiringBlk x <=? b) db m _ _ Hs (fun k => expiry_range_keys b k ltac:(lia))) as (l & El & Hl & Hl' & _ & _).
  destruct (getExpiryKeysForRangeScan 0 b) as [sk ek]. cbn [fst snd] in El. rewrite El.
  destruct (entries_values (fun x ed => m !! SExpiry x = Some (Marshal ed) /\ xk_expiringBlk x <= b /\ xk_wf x /\ entry_ok x ed) l) as (l' & -> & Hent).
  { intros x v Hin. apply Hl in Hin as (E & Hx & Hw). destruct (mi_entry _ _ _ HI _ _ E) as (ed & -> & Ho & _). exists ed. split; [done|]. split; [done|]. split; [lia|done]. }
  rewrite <- list_fmap_compose.
  replace (_ <$> l') with ((fun '(x, ed) => (encodeExpiryKey x, Marshal ed)) <$> l') by (apply list_fmap_ext; by intros ? [? ?] _).
  rewrite decode_entries_ok; [|apply Forall_forall; intros [x ed] Hin; apply Hent in Hin as (_ & _ & Hw & Ho); split; [done|apply Ho]].
  eexists. split; [done|]. intros i. rewrite <- fmap_take, length_fmap.
  assert (Ht : forall x ed, (x, ed) ∈ take i l' -> (x, ed) ∈ l') by (intros x ed Hin; apply (elem_of_take) in Hin as (j & Hj & _); by apply list_elem_of_lookup_2 in Hj).
  exists (fun x => x ∈ (take i l').*1), (upd (deletes (take i l' ≫= fun '(x, ed) => purge_keys x ed)) m). rewrite purge_batches. split; [|split; [|split]].
  - apply store_map_batch; [done|]. apply Forall_forall. intros [k o] (k' & [= -> _] & Hk)%list_elem_of_fmap. cbn [fst].
    apply list_elem_of_bind in Hk as ([x ed] & Hk & Hin). apply Ht, Hent in Hin as (_ & _ & Hw & Ho). apply purge_keys_elem in Hk.
    destruct k'; try done; cbn [skey_wf]; [by apply (eo_data _ _ Ho)|by subst|by apply (eo_missing _ _ Ho)..|by apply (eo_boot _ _ Ho)].
  - intros k. rewrite upd_deletes. destruct (decide _) as [Hk|Hk]; [right|left]; (split; [done|]).
    + apply list_elem_of_bind in Hk as ([x ed] & Hk & Hin). exists x, ed. split; [by apply (Hent x), Ht|]. split; [|done]. apply list_elem_of_fmap. by exists (x, ed).
    + intros (x & ed & E & Hx & Hk'). apply Hk. apply list_elem_of_bind. apply list_elem_of_fmap in Hx as ([x' ed2] & -> & Hin). exists (x', ed2). split; [|done].
      destruct (Hent x' ed2 (Ht _ _ Hin)) as (E2 & _). cbn in E. rewrite E in E2. injection E2 as E2. apply Marshal_inj in E2. by subst.
  - intros x ([x' ed] & -> & Hin)%list_elem_of_fmap. by apply Ht, Hent in Hin as (_ & ? & _).
  - intros Hi x ed E Hx. rewrite take_ge by done. destruct (Hl' x (Marshal ed) E ltac:(lia)) as (x' & [= ->] & Hin).
    apply list_elem_of_fmap in Hin as ([x2 ed2] & [= -> E2] & Hin). apply list_elem_of_fmap. by exists (x2, ed2).
Qed.

End Inv.
