(* ===== verification/PvtStoreCommit.v ===== *)
(** * Commits to the private data store

    [Store_Commit] records the write sets of a block and what is missing of them, and
    [Store_CommitPvtDataOfOldBlocks] what arrives later; both keep [map_inv]. *)

From S2P Require Import Prelude Wire Varint OrderedCode GoOS LevelDB Proto StateProto BatchPreparer PurgeMgr PurgeMgrOk PvtStore PvtStoreOk PvtStoreInv.

Lemma for_range_ind {A S} (P : list A -> S -> Prop) (f : A -> S -> outcome S) (l : list A) (s : S) :
  P [] s -> (forall pre a s, (exists rest, l = pre ++ a :: rest) -> P pre s -> exists s', f a s = Ret s' /\ P (pre ++ [a]) s') ->
  exists s', for_range f l s = Ret s' /\ P l s'.
Proof.
  intros H0 Hs. assert (H : forall rest pre s, l = pre ++ rest -> P pre s -> exists s', for_range f rest s = Ret s' /\ P l s').
  { induction rest as [|a rest IH]; intros pre s1 El Hd; [exists s1; split; [done|]; by rewrite El, app_nil_r|].
    destruct (Hs pre a s1) as (s2 & E & Hp); [by exists rest|done|]. destruct (IH (pre ++ [a]) s2) as (s3 & E3 & Hp3); [by rewrite <- app_assoc|done|].
    exists s3. split; [|done]. cbn [for_range]. by rewrite E. }
  by apply (H l [] s).
Qed.

Section Commit.
Context {PP : PvtStoreProtos} {PO : PvtStoreProtosOk} {BP : BTLPolicy} {BO : BTLPolicyOk}.

(** ** Data entries *)

Definition data_entry (blk : Z) : Z * bytes * CollectionPvtReadWriteSet -> dataKey * CollectionPvtReadWriteSet :=
  fun '(tx, ns, c) => (mkdataKey (mknsCollBlk ns (CollectionPvtReadWriteSet_CollectionName c) blk) tx, c).

Definition data_of (blk : Z) (l : list TxPvtData) : list (dataKey * CollectionPvtReadWriteSet) := data_entry blk <$> entries_of l.

Lemma prepareDataEntries_ok (blk : Z) (l : list TxPvtData) : Forall (fun t => is_Some (WriteSet t)) l -> prepareDataEntries blk l = Ret (data_of blk l).
Proof.
  induction 1 as [|t l [ws Hw] Hf IH]; [done|]. cbn [prepareDataEntries]. rewrite Hw, IH. cbn [mbind outcome_bind]. f_equal.
  unfold data_of. change (t :: l) with ([t] ++ l). rewrite entries_of_app, fmap_app. f_equal.
  unfold entries_of. cbn [mbind list_bind]. rewrite Hw, app_nil_r. unfold tx_entries. generalize (TxPvtReadWriteSet_NsPvtRwset ws) as ns.
  induction ns as [|n ns IHn]; [done|]. cbn [mbind list_bind]. rewrite fmap_app, <- list_fmap_compose. f_equal. apply IHn.
Qed.

(** The last of the entries with a key. *)
Definition data_map (l : list (dataKey * CollectionPvtReadWriteSet)) : gmap dataKey CollectionPvtReadWriteSet :=
  fold_left (fun m '(k, w) => <[k := w]> m) l ∅.

(** ** Expiry entries *)

Lemma lists_nothing (x : expiryKey) : (forall k, ~ lists_data x ∅ k) /\ (forall n, ~ lists_missing x ∅ n) /\ (forall b, ~ lists_boot x ∅ b).
Proof.
  assert (Hc : forall ns, getOrCreateCollections ns ∅ = mkNamespaceExpiryData ∅ ∅ ∅) by (intros ns; unfold getOrCreateCollections; by rewrite lookup_empty).
  unfold lists_data, lists_missing, lists_boot. split; [|split]; intros k; rewrite Hc; cbn; rewrite lookup_empty; cbn; intros [_ H].
  - by apply not_elem_of_nil in H.
  - by destruct H.
  - by apply not_elem_of_nil in H.
Qed.

Lemma entry_present (x : expiryKey) (k : dataKey) (ed : ExpiryDataMsg) :
  let n := dt_nsCollBlk k in
  ed = ∅ \/ entry_ok x ed -> neverExpires (xk_expiringBlk x) = false -> dt_wf k -> nc_blkNum n = xk_committingBlk x -> expiring n = Ret (xk_expiringBlk x) ->
  exists ed', addPresentData (nc_ns n) (nc_coll n) (dt_txNum k) (Some ed) = Ret (Some ed') /\ entry_ok x ed' /\
    (forall k', lists_data x ed' k' <-> lists_data x ed k' \/ k' = k) /\ (forall n', lists_missing x ed' n' <-> lists_missing x ed n').
Proof.
  intros n He Hf Hk Hn Hx. destruct (addPresentData_ok x k ed Hn) as (ed' & E & Hne & Hd & Hm & Hb). exists ed'. split; [done|]. split; [|done].
  pose proof (lists_nothing x) as (N1 & N2 & N3). split; [done|by apply (expiring_wf x n); [apply Hk|..]|done| | |].
  - intros k' [Hl| ->]%Hd; [|done]. destruct He as [->|He]; [by apply N1 in Hl|by apply He].
  - intros n' Hl%Hm. destruct He as [->|He]; [by apply N2 in Hl|by apply He].
  - intros b Hl%Hb. destruct He as [->|He]; [by apply N3 in Hl|by apply He].
Qed.

Lemma entry_missing (x : expiryKey) (n : nsCollBlk) (ed : ExpiryDataMsg) :
  ed = ∅ \/ entry_ok x ed -> neverExpires (xk_expiringBlk x) = false -> nc_wf n -> nc_blkNum n = xk_committingBlk x -> expiring n = Ret (xk_expiringBlk x) ->
  exists ed', addMissingData (nc_ns n) (nc_coll n) (Some ed) = Ret (Some ed') /\ entry_ok x ed' /\
    (forall k, lists_data x ed' k <-> lists_data x ed k) /\ (forall n', lists_missing x ed' n' <-> lists_missing x ed n' \/ n' = n).
Proof.
  intros He Hf Hk Hn Hx. destruct (addMissingData_ok x n ed Hn) as (ed' & E & Hne & Hd & Hm & Hb). exists ed'. split; [done|]. split; [|done].
  pose proof (lists_nothing x) as (N1 & N2 & N3). split; [done|by apply (expiring_wf x n)|done| | |].
  - intros k Hl%Hd. destruct He as [->|He]; [by apply N1 in Hl|by apply He].
  - intros n' [Hl| ->]%Hm; [|done]. destruct He as [->|He]; [by apply N2 in Hl|by apply He].
  - intros b Hl%Hb. destruct He as [->|He]; [by apply N3 in Hl|by apply He].
Qed.

Definition ed_at {K} `{Countable K} (M : gmap K ExpiryData) (e : K) : ExpiryDataMsg := default ∅ (M !! e ≫= id).

Lemma ed_at_insert {K} `{Countable K} (M : gmap K ExpiryData) (e e' : K) (ed : ExpiryDataMsg) :
  ed_at (<[e := Some ed]> M) e' = if decide (e = e') then ed else ed_at M e'.
Proof. unfold ed_at. destruct (decide (e = e')) as [->|]; [by rewrite lookup_insert_eq|by rewrite lookup_insert_ne]. Qed.

(** The entries of a block, by the block at which they expire. *)
Definition expmap_ok (c : Z) (M : gmap Z ExpiryData) : Prop :=
  forall e o, M !! e = Some o -> o = Some (ed_at M e) /\ entry_ok (mkexpiryKey e c) (ed_at M e).

Definition mdata (c : Z) (M : gmap Z ExpiryData) (k : dataKey) : Prop := exists e, lists_data (mkexpiryKey e c) (ed_at M e) k.
Definition mmissing (c : Z) (M : gmap Z ExpiryData) (n : nsCollBlk) : Prop := exists e, lists_missing (mkexpiryKey e c) (ed_at M e) n.

Lemma expmap_at (c : Z) (M : gmap Z ExpiryData) (e : Z) :
  expmap_ok c M -> default newExpiryData (M !! e) = Some (ed_at M e) /\ (ed_at M e = ∅ \/ entry_ok (mkexpiryKey e c) (ed_at M e)).
Proof.
  intros HM. destruct (M !! e) as [o|] eqn:E; cbn [from_option id].
  - destruct (HM _ _ E) as [-> Ho]. by split; [|right].
  - unfold newExpiryData, ed_at. rewrite E. cbn. by split; [|left].
Qed.

Lemma expmap_insert (c : Z) (M : gmap Z ExpiryData) (e : Z) (ed : ExpiryDataMsg) :
  expmap_ok c M -> entry_ok (mkexpiryKey e c) ed -> expmap_ok c (<[e := Some ed]> M).
Proof.
  intros HM Ho e' o. rewrite ed_at_insert. intros [[<- <-]|[Hne E]]%lookup_insert_Some; [by rewrite decide_True|rewrite decide_False by done; by apply HM].
Qed.

Lemma expiry_present (c : Z) (M : gmap Z ExpiryData) (k : dataKey) (e : Z) :
  let n := dt_nsCollBlk k in
  expmap_ok c M -> dt_wf k -> nc_blkNum n = c -> expiring n = Ret e ->
  exists M', prepareExpiryEntriesForPresentData k M = Ret M' /\ expmap_ok c M' /\
    (forall k', mdata c M' k' <-> mdata c M k' \/ k' = k /\ neverExpires e = false) /\ (forall n', mmissing c M' n' <-> mmissing c M n').
Proof.
  intros n HM Hk Hn Hx. unfold prepareExpiryEntriesForPresentData. fold n. unfold expiring in Hx. rewrite Hx. cbn [mbind outcome_bind].
  destruct (neverExpires e) eqn:Hf; [exists M; split; [done|]; split; [done|]; naive_solver|]. destruct (expmap_at c M e HM) as [Ed He]. rewrite Ed.
  destruct (entry_present (mkexpiryKey e c) k (ed_at M e)) as (ed' & E & Ho & Hd & Hm); [done..|]. fold n in E. rewrite E. cbn [mbind outcome_bind].
  eexists. split; [done|]. split; [by apply expmap_insert|]. unfold mdata, mmissing. setoid_rewrite ed_at_insert. split.
  - intros k'. split.
    + intros (e' & Hl). destruct (decide (e = e')) as [<-|]; [|by left; exists e']. apply Hd in Hl as [Hl| ->]; [by left; exists e|by right].
    + intros [(e' & Hl)|[-> _]]; [exists e'|exists e; rewrite decide_True by done; apply Hd; by right]. destruct (decide (e = e')) as [<-|]; [apply Hd; by left|done].
  - intros n'. split; intros (e' & Hl); exists e'; destruct (decide (e = e')) as [<-|]; try done; by apply Hm.
Qed.

Lemma expiry_missing (c : Z) (M : gmap Z ExpiryData) (n : nsCollBlk) (e : Z) :
  expmap_ok c M -> nc_wf n -> nc_blkNum n = c -> expiring n = Ret e ->
  exists M', prepareExpiryEntriesForMissingData n M = Ret M' /\ expmap_ok c M' /\
    (forall k, mdata c M' k <-> mdata c M k) /\ (forall n', mmissing c M' n' <-> mmissing c M n' \/ n' = n /\ neverExpires e = false).
Proof.
  intros HM Hk Hn Hx. unfold prepareExpiryEntriesForMissingData. unfold expiring in Hx. rewrite Hx. cbn [mbind outcome_bind].
  destruct (neverExpires e) eqn:Hf; [exists M; split; [done|]; split; [done|]; naive_solver|]. destruct (expmap_at c M e HM) as [Ed He]. rewrite Ed.
  destruct (entry_missing (mkexpiryKey e c) n (ed_at M e)) as (ed' & E & Ho & Hd & Hm); [done..|]. rewrite E. cbn [mbind outcome_bind].
  eexists. split; [done|]. split; [by apply expmap_insert|]. unfold mdata, mmissing. setoid_rewrite ed_at_insert. split.
  - intros k. split; intros (e' & Hl); exists e'; destruct (decide (e = e')) as [<-|]; try done; by apply Hd.
  - intros n'. split.
    + intros (e' & Hl). destruct (decide (e = e')) as [<-|]; [|by left; exists e']. apply Hm in Hl as [Hl| ->]; [by left; exists e|by right].
    + intros [(e' & Hl)|[-> _]]; [exists e'|exists e; rewrite decide_True by done; apply Hm; by right]. destruct (decide (e = e')) as [<-|]; [apply Hm; by left|done].
Qed.

(** ** Missing data *)

Definition missing_list (missing : TxMissingPvtData) : list (MissingPvtData * Z) := map_to_list missing ≫= fun '(t, l) => (fun p => (p, t)) <$> l.

Definition mkey (c : Z) (p : MissingPvtData) : nsCollBlk := mknsCollBlk (mp_Namespace p) (mp_Collection p) c.

Definition missing_step (c : Z) (acc : gmap nsCollBlk BitSet * gmap nsCollBlk BitSet) (x : MissingPvtData * Z) : gmap nsCollBlk BitSet * gmap nsCollBlk BitSet :=
  if mp_IsEligible (fst x) then (add_missing_bit (mkey c (fst x)) (snd x) (fst acc), snd acc) else (fst acc, add_missing_bit (mkey c (fst x)) (snd x) (snd acc)).

Lemma prepareMissing_flat (c : Z) (missing : TxMissingPvtData) : prepareMissingDataEntries c missing = fold_left (missing_step c) (missing_list missing) (∅, ∅).
Proof.
  unfold prepareMissingDataEntries, missing_list. generalize (map_to_list missing) as l. generalize (∅ : gmap nsCollBlk BitSet, ∅ : gmap nsCollBlk BitSet) as acc.
  intros acc l. revert acc. induction l as [|[t ps] l IH]; intros acc; [done|]. cbn [fold_left mbind list_bind]. rewrite fold_left_app, IH. f_equal. clear IH.
  revert acc. induction ps as [|p ps IH]; intros [e i]; [done|]. cbn [fold_left fmap list_fmap]. rewrite IH. unfold missing_step at 3. cbn [fst snd]. by destruct (mp_IsEligible p).
Qed.

(** The bits of a group. *)
Definition group_ok (c : Z) (g : bool) (l : list (MissingPvtData * Z)) (X : gmap nsCollBlk BitSet) : Prop :=
  (forall n b, X !! n = Some b -> b <> ∅) /\
  forall n t, t ∈ default ∅ (X !! n) <-> exists p, (p, t) ∈ l /\ mp_IsEligible p = g /\ n = mkey c p.

Lemma group_ok_add (c : Z) (g : bool) (l : list (MissingPvtData * Z)) (X : gmap nsCollBlk BitSet) (p : MissingPvtData) (t : Z) :
  group_ok c g l X -> group_ok c g (l ++ [(p, t)]) (if bool_decide (mp_IsEligible p = g) then add_missing_bit (mkey c p) t X else X).
Proof.
  intros [Hne Hb].
  assert (Hs : forall n t', (exists p', (p', t') ∈ l ++ [(p, t)] /\ mp_IsEligible p' = g /\ n = mkey c p') <->
    t' ∈ default ∅ (X !! n) \/ t' = t /\ mp_IsEligible p = g /\ n = mkey c p).
  { intros n t'. rewrite Hb. split.
    - intros (p' & [Hin|Hin%list_elem_of_singleton]%elem_of_app & Hp); [by left; exists p'|right]. injection Hin as -> ->. done.
    - intros [(p' & Hin & Hp)|[-> Hp]]; [exists p'|exists p]; (split; [apply elem_of_app|done]); [by left|right; by left]. }
  unfold add_missing_bit. case_bool_decide as Hg; (split; [|intros n t'; rewrite Hs]).
  - intros n b [[<- <-]|[_ E]]%lookup_insert_Some; [|by eapply Hne]. intros E. apply (not_elem_of_empty (C := BitSet) t). rewrite <- E. set_solver.
  - destruct (decide (mkey c p = n)) as [<-|Hn].
    + rewrite lookup_insert_eq. cbn [from_option id]. rewrite elem_of_union, elem_of_singleton. tauto.
    + rewrite lookup_insert_ne by done. split; [tauto|]. intros [H|(_ & _ & ->)]; done.
  - done.
  - tauto.
Qed.

Lemma prepareMissing_ok (c : Z) (missing : TxMissingPvtData) :
  let r := prepareMissingDataEntries c missing in group_ok c true (missing_list missing) (fst r) /\ group_ok c false (missing_list missing) (snd r).
Proof.
  cbn zeta. rewrite prepareMissing_flat. induction (missing_list missing) as [|[p t] l IH] using rev_ind.
  - cbn. split; (split; [intros n b; by rewrite lookup_empty|]); intros n t; rewrite lookup_empty; cbn; set_solver.
  - rewrite fold_left_app. cbn [fold_left]. destruct IH as [H1 H2]. apply (group_ok_add _ _ _ _ p t) in H1, H2. unfold missing_step at 1 3. cbn [fst snd].
    destruct (mp_IsEligible p) eqn:Ep; cbn [fst snd] in *; by split.
Qed.

(** ** The batch of a block *)

Definition seg {K V} (f : K -> skey) (g : V -> option bytes) (l : list (K * V)) : sbatch := (fun '(k, v) => (f k, g v)) <$> l.

Lemma seg_elem {K V} (f : K -> skey) (g : V -> option bytes) (l : list (K * V)) (k : skey) (o : option bytes) :
  (k, o) ∈ seg f g l <-> exists a v, (a, v) ∈ l /\ k = f a /\ o = g v.
Proof.
  unfold seg. rewrite list_elem_of_fmap. split; [intros ([a v] & [= -> ->] & Hin); by exists a, v|].
  intros (a & v & Hin & -> & ->). by exists (a, v).
Qed.

Lemma upd_entries {K V} `{Countable K} (f : K -> skey) (g : V -> option bytes) (M : gmap K V) (m : gmap skey bytes) (k : K) :
  (forall a b, f a = f b -> a = b) -> upd (seg f g (map_to_list M)) m !! f k = match M !! k with Some v => g v | None => m !! f k end.
Proof.
  intros Hf. destruct (M !! k) as [v|] eqn:E.
  - apply upd_same.
    + apply seg_elem. exists k, v. split; [|done]. by apply elem_of_map_to_list.
    + intros o (k' & v' & Hin & Ek & ->)%seg_elem. apply Hf in Ek. subst k'. apply elem_of_map_to_list in Hin. congruence.
  - apply upd_notin. intros o (k' & v' & Hin & Ek & ->)%seg_elem. apply Hf in Ek. subst k'. apply elem_of_map_to_list in Hin. congruence.
Qed.

Definition marshal_some {A} `{!Codec A} (a : A) : option bytes := Some (Marshal a).

Lemma upd_data (l : list (dataKey * CollectionPvtReadWriteSet)) (m : gmap skey bytes) (k : dataKey) :
  upd (seg SData marshal_some l) m !! SData k = match data_map l !! k with Some w => Some (Marshal w) | None => m !! SData k end.
Proof.
  unfold seg. induction l as [|[k' w] l IH] using rev_ind; [cbn; by rewrite lookup_empty|]. rewrite fmap_app, upd_app. unfold data_map. rewrite fold_left_app.
  cbn [fmap list_fmap fold_left upd]. unfold upd1. cbn [fst snd marshal_some]. fold (data_map l). destruct (decide (k' = k)) as [->|Hne]; [by rewrite !lookup_insert_eq|].
  rewrite !lookup_insert_ne by congruence. apply IH.
Qed.

Lemma data_map_elem (l : list (dataKey * CollectionPvtReadWriteSet)) (k : dataKey) (w : CollectionPvtReadWriteSet) : data_map l !! k = Some w -> (k, w) ∈ l.
Proof.
  induction l as [|[k' w'] l IH] using rev_ind; [cbn; by rewrite lookup_empty|]. unfold data_map. rewrite fold_left_app. cbn [fold_left]. fold (data_map l).
  intros [[-> ->]|[_ E]]%lookup_insert_Some; apply elem_of_app; [right; by left|left; by apply IH].
Qed.

Lemma data_map_some (l : list (dataKey * CollectionPvtReadWriteSet)) (k : dataKey) : k ∈ l.*1 -> is_Some (data_map l !! k).
Proof.
  induction l as [|[k' w'] l IH] using rev_ind; [intros H; by apply not_elem_of_nil in H|]. unfold data_map. rewrite fold_left_app, fmap_app, elem_of_app. cbn [fold_left]. fold (data_map l).
  intros [Hk|Hk%list_elem_of_singleton]; [|cbn in Hk; subst k'; rewrite lookup_insert_eq; by eexists].
  destruct (decide (k' = k)) as [->|Hne]; [rewrite lookup_insert_eq; by eexists|]. rewrite lookup_insert_ne by done. by apply IH.
Qed.

(** ** The expiry entries of a block *)

Definition finite (n : nsCollBlk) : Prop := exists e, expiring n = Ret e /\ neverExpires e = false.

Definition coll_ok (c : Z) (n : nsCollBlk) : Prop := nc_wf n /\ nc_blkNum n = c /\ has_policy n.

Lemma expiry_presents (c : Z) (l : list dataKey) :
  (forall k, k ∈ l -> dt_wf k /\ coll_ok c (dt_nsCollBlk k)) ->
  exists M, for_range prepareExpiryEntriesForPresentData l ∅ = Ret M /\ expmap_ok c M /\ forall k, k ∈ l -> finite (dt_nsCollBlk k) -> mdata c M k.
Proof.
  intros Hl. apply (for_range_ind (fun pre M => expmap_ok c M /\ forall k, k ∈ pre -> finite (dt_nsCollBlk k) -> mdata c M k)).
  - split; [intros e o; by rewrite lookup_empty|]. intros k H. by apply not_elem_of_nil in H.
  - intros pre k M [rest ->] [HM Hp]. destruct (Hl k) as [Hk (_ & Hn & [e He])]; [apply elem_of_app; right; by left|].
    destruct (expiry_present c M k e HM Hk Hn He) as (M' & E & HM' & Hd & _). exists M'. split; [done|]. split; [done|].
    intros k' [Hk'|Hk'%list_elem_of_singleton]%elem_of_app Hf; apply Hd; [left; by apply Hp|right]. subst k'. split; [done|].
    destruct Hf as (e' & He' & Hf). unfold expiring in *. congruence.
Qed.

Lemma expiry_missings (c : Z) (l : list nsCollBlk) (M : gmap Z ExpiryData) :
  expmap_ok c M -> (forall n, n ∈ l -> coll_ok c n) ->
  exists M', for_range prepareExpiryEntriesForMissingData l M = Ret M' /\ expmap_ok c M' /\
    (forall k, mdata c M k -> mdata c M' k) /\ (forall n, mmissing c M n \/ n ∈ l /\ finite n -> mmissing c M' n).
Proof.
  intros HM Hl. apply (for_range_ind (fun pre M' => expmap_ok c M' /\ (forall k, mdata c M k -> mdata c M' k) /\
    (forall n, mmissing c M n \/ n ∈ pre /\ finite n -> mmissing c M' n))).
  - split; [done|]. split; [done|]. intros n [H|[H _]]; [done|by apply not_elem_of_nil in H].
  - intros pre n M1 [rest ->] (HM1 & Hd1 & Hm1). destruct (Hl n) as (Hw & Hn & [e He]); [apply elem_of_app; right; by left|].
    destruct (expiry_missing c M1 n e HM1 Hw Hn He) as (M' & E & HM' & Hd & Hm). exists M'. split; [done|]. split; [done|]. split; [intros k Hk; by apply Hd, Hd1|].
    intros n' [Hn'|[[Hn'|Hn'%list_elem_of_singleton]%elem_of_app Hf]]; apply Hm; [left; apply Hm1; by left|left; apply Hm1; by right|right]. subst n'. split; [done|].
    destruct Hf as (e' & He' & Hf). unfold expiring in *. congruence.
Qed.

Lemma prepareExpiryEntries_ok (c : Z) (data : list (dataKey * CollectionPvtReadWriteSet)) (elg inelg : gmap nsCollBlk BitSet) :
  (forall k, k ∈ data.*1 -> dt_wf k /\ coll_ok c (dt_nsCollBlk k)) -> (forall n, is_Some (elg !! n) \/ is_Some (inelg !! n) -> coll_ok c n) ->
  exists M, prepareExpiryEntries c data elg inelg = Ret ((fun '(e, o) => (mkexpiryKey e c, o)) <$> map_to_list M) /\ expmap_ok c M /\
    (forall k, k ∈ data.*1 -> finite (dt_nsCollBlk k) -> mdata c M k) /\ (forall n, is_Some (elg !! n) \/ is_Some (inelg !! n) -> finite n -> mmissing c M n).
Proof.
  assert (Hkey : forall (X : gmap nsCollBlk BitSet) n, n ∈ (map_to_list X).*1 <-> is_Some (X !! n)).
  { intros X n. rewrite list_elem_of_fmap. split.
    - intros ([n' b] & -> & Hin). apply elem_of_map_to_list in Hin. by exists b.
    - intros [b E]. exists (n, b). split; [done|]. by apply elem_of_map_to_list. }
  intros Hd Hm. unfold prepareExpiryEntries.
  destruct (expiry_presents c data.*1) as (M1 & E1 & HM1 & Hd1); [done|]. rewrite E1. cbn [mbind outcome_bind].
  destruct (expiry_missings c (map_to_list elg).*1 M1) as (M2 & E2 & HM2 & Hd2 & Hm2); [done|intros n Hn; apply Hm; left; by apply Hkey|]. rewrite E2. cbn [mbind outcome_bind].
  destruct (expiry_missings c (map_to_list inelg).*1 M2) as (M3 & E3 & HM3 & Hd3 & Hm3); [done|intros n Hn; apply Hm; right; by apply Hkey|]. rewrite E3. cbn [mbind outcome_bind].
  exists M3. split; [done|]. split; [done|]. split; [intros k Hk Hf; by apply Hd3, Hd2, Hd1|].
  intros n [Hn|Hn] Hf; apply Hm3; [left; apply Hm2; right|right]; (split; [by apply Hkey|done]).
Qed.

(** ** Committing a block *)

Definition missing_keys (g : bool) (c : Z) (missing : TxMissingPvtData) : gset (nsCollBlk * Z) :=
  list_to_set ((fun x => (mkey c (fst x), snd x)) <$> List.filter (fun x => Bool.eqb (mp_IsEligible (fst x)) g) (missing_list missing)).

Lemma missing_keys_elem (g : bool) (c : Z) (missing : TxMissingPvtData) (n : nsCollBlk) (t : Z) :
  (n, t) ∈ missing_keys g c missing <-> exists p, (p, t) ∈ missing_list missing /\ mp_IsEligible p = g /\ n = mkey c p.
Proof.
  unfold missing_keys. rewrite elem_of_list_to_set, list_elem_of_fmap. split.
  - intros ([p t'] & [= -> ->] & Hin). apply list_elem_of_In, filter_In in Hin as [Hin Hg]. cbn in Hg. apply eqb_prop in Hg. exists p. split; [by apply list_elem_of_In|done].
  - intros (p & Hin & Hg & ->). exists (p, t). split; [done|]. apply list_elem_of_In, filter_In. split; [by apply list_elem_of_In|]. cbn. rewrite Hg. apply eqb_reflx.
Qed.

Definition commit_spec (c : Z) (data : list TxPvtData) (missing : TxMissingPvtData) (sp : pvt_spec) : pvt_spec :=
  mkspec (data_map (data_of c data) ∪ sp_data sp) (missing_keys true c missing ∪ sp_elg sp) (missing_keys false c missing ∪ sp_inelg sp)
    (list_to_set (dt_nsCollBlk <$> (data_of c data).*1) ∪ list_to_set (mkey c <$> (missing_list missing).*1) ∪ sp_known sp) (sp_events sp).

(** What a block may contain; the peer is eligible for a collection or not. *)
Record block_ok (c : Z) (data : list TxPvtData) (missing : TxMissingPvtData) : Prop := {
  bo_sets : Forall (fun t => is_Some (WriteSet t)) data;
  bo_data : forall k, k ∈ (data_of c data).*1 -> dt_wf k /\ has_policy (dt_nsCollBlk k);
  bo_missing : forall p, p ∈ (missing_list missing).*1 -> nc_wf (mkey c p) /\ has_policy (mkey c p);
  bo_sep : forall p p', p ∈ (missing_list missing).*1 -> p' ∈ (missing_list missing).*1 -> mkey c p = mkey c p' -> mp_IsEligible p = mp_IsEligible p' }.

Definition expiry_value (o : ExpiryData) : option bytes := Some (Marshal (default ∅ o)).

Definition commit_batch (c : Z) (data : list (dataKey * CollectionPvtReadWriteSet)) (M : gmap Z ExpiryData) (elg inelg : gmap nsCollBlk BitSet) : sbatch :=
  seg SData marshal_some data ++ seg (fun e => SExpiry (mkexpiryKey e c)) expiry_value (map_to_list M) ++
  seg SPrio marshal_some (map_to_list elg) ++ seg SInelg marshal_some (map_to_list inelg) ++ [(SLast, Some (encodeLastCommittedBlockVal c))].

Definition kind (k : skey) : nat :=
  match k with SData _ => 0 | SExpiry _ => 1 | SPrio _ => 2 | SDeprio _ => 3 | SInelg _ => 4 | SLast => 5 | SBoot _ => 6 | SElg _ => 7 | SPending => 8 | SOld => 9 | SSnap => 10 end.

Lemma upd_other {K V} (f : K -> skey) (g : V -> option bytes) (l : list (K * V)) (m : gmap skey bytes) (k : skey) :
  (forall a, kind (f a) <> kind k) -> upd (seg f g l) m !! k = m !! k.
Proof. intros Hf. apply upd_notin. intros o (a & v & _ & -> & _)%seg_elem. by apply (Hf a). Qed.

Lemma upd_last (c : Z) (m : gmap skey bytes) (k : skey) :
  upd [(SLast, Some (encodeLastCommittedBlockVal c))] m !! k = if decide (k = SLast) then Some (encodeLastCommittedBlockVal c) else m !! k.
Proof. cbn. unfold upd1. cbn [fst snd]. destruct (decide (k = SLast)) as [->|Hne]; [apply lookup_insert_eq|by apply lookup_insert_ne]. Qed.

Lemma commit_lookup (c : Z) (data : list (dataKey * CollectionPvtReadWriteSet)) (M : gmap Z ExpiryData) (elg inelg : gmap nsCollBlk BitSet) (m : gmap skey bytes) (k : skey) :
  upd (commit_batch c data M elg inelg) m !! k =
  match k with
  | SData d => match data_map data !! d with Some w => Some (Marshal w) | None => m !! k end
  | SExpiry x => match (if decide (xk_committingBlk x = c) then M !! xk_expiringBlk x else None) with Some o => expiry_value o | None => m !! k end
  | SPrio n => match elg !! n with Some b => Some (Marshal b) | None => m !! k end
  | SInelg n => match inelg !! n with Some b => Some (Marshal b) | None => m !! k end
  | SLast => Some (encodeLastCommittedBlockVal c)
  | _ => m !! k
  end.
Proof.
  unfold commit_batch. rewrite !upd_app, upd_last. destruct k as [ | | | |d|x|n|n|n|z|b]; rewrite ?decide_False, ?decide_True by done; try done;
    repeat (rewrite upd_other by done); try done.
  - apply upd_data.
  - destruct (decide (xk_committingBlk x = c)) as [<-|Hne].
    + destruct x as [e c']. cbn [xk_expiringBlk xk_committingBlk]. rewrite (upd_entries (fun e => SExpiry (mkexpiryKey e c'))) by (by intros ? ? [= ->]).
      destruct (M !! e); [done|]. by rewrite upd_other.
    + rewrite upd_notin; [by rewrite upd_other|]. intros o (e & v & _ & E & _)%seg_elem. apply Hne. by injection E as ->.
  - rewrite (upd_entries SPrio) by (by intros ? ? [= ->]). destruct (elg !! n); [done|]. by repeat (rewrite upd_other by done).
  - rewrite (upd_entries SInelg) by (by intros ? ? [= ->]). destruct (inelg !! n); [done|]. by repeat (rewrite upd_other by done).
Qed.

Lemma expired_at_mono (a b : Z) (n : nsCollBlk) : a <= b -> expired_at b n = false -> expired_at a n = false.
Proof. unfold expired_at. destruct (GetExpiringBlock _ _ _); [|done..]. intros Hab. rewrite !Z.leb_gt. lia. Qed.

Section CommitInv.
Context (h : Z) (m : gmap skey bytes) (sp : pvt_spec) (data : list TxPvtData) (missing : TxMissingPvtData) (M : gmap Z ExpiryData) (elg inelg : gmap nsCollBlk BitSet).
Hypotheses (HI : map_inv h m sp) (HB : block_ok h data missing) (HM : expmap_ok h M)
  (Hd : forall k, k ∈ (data_of h data).*1 -> finite (dt_nsCollBlk k) -> mdata h M k)
  (Hm : forall n, is_Some (elg !! n) \/ is_Some (inelg !! n) -> finite n -> mmissing h M n)
  (He : group_ok h true (missing_list missing) elg) (Hi : group_ok h false (missing_list missing) inelg).

Let m' := upd (commit_batch h (data_of h data) M elg inelg) m.
Let sp' := commit_spec h data missing sp.

Definition fresh (g : group) : gmap nsCollBlk BitSet := match g with GPrio => elg | GDeprio => ∅ | GInelg => inelg end.

Lemma commit_SG (g : group) (n : nsCollBlk) : m' !! SG g n = match fresh g !! n with Some b => Some (Marshal b) | None => m !! SG g n end.
Proof. unfold m'. rewrite commit_lookup. destruct g; cbn [SG fresh]; [done| |done]. by rewrite lookup_empty. Qed.

Lemma data_of_blk (k : dataKey) : k ∈ (data_of h data).*1 -> nc_blkNum (dt_nsCollBlk k) = h.
Proof. unfold data_of. rewrite <- list_fmap_compose. intros ([[t ns] w] & -> & _)%list_elem_of_fmap. done. Qed.

(** The new entries of a group. *)
Lemma fresh_ok (g : group) (n : nsCollBlk) (b : BitSet) : fresh g !! n = Some b ->
  b <> ∅ /\ nc_blkNum n = h /\ (is_Some (elg !! n) \/ is_Some (inelg !! n)) /\ forall t, t ∈ b -> (n, t) ∈ sp_missing g sp'.
Proof.
  assert (Hg : forall e X, group_ok h e (missing_list missing) X -> X !! n = Some b ->
    b <> ∅ /\ nc_blkNum n = h /\ forall t, t ∈ b -> (n, t) ∈ missing_keys e h missing).
  { intros e X [Hne Hb] E. split; [by eapply Hne|]. assert (Hin : forall t, t ∈ b -> exists p, (p, t) ∈ missing_list missing /\ mp_IsEligible p = e /\ n = mkey h p).
    { intros t Ht. apply Hb. by rewrite E. } split.
    - destruct (set_choose_L b) as [t Ht]; [by eapply Hne|]. by destruct (Hin t Ht) as (p & _ & _ & ->).
    - intros t Ht. by apply missing_keys_elem, Hin. }
  destruct g; cbn [fresh sp_missing sp' commit_spec sp_elg sp_inelg]; intros E; [|by rewrite lookup_empty in E|].
  - destruct (Hg _ _ He E) as (H1 & H2 & H3). split; [done|]. split; [done|]. split; [left; by eexists|]. intros t Ht. apply elem_of_union_l. by apply H3.
  - destruct (Hg _ _ Hi E) as (H1 & H2 & H3). split; [done|]. split; [done|]. split; [right; by eexists|]. intros t Ht. apply elem_of_union_l. by apply H3.
Qed.

Lemma fresh_holds (g : group) (X : gmap nsCollBlk BitSet) (e : bool) (n : nsCollBlk) (t : Z) :
  fresh g = X -> group_ok h e (missing_list missing) X -> (n, t) ∈ missing_keys e h missing -> holds m' g n t.
Proof.
  intros EX [_ Hb] Hin. apply missing_keys_elem, Hb in Hin. rewrite <- EX in Hin. destruct (fresh g !! n) as [b|] eqn:E; cbn in Hin; [|set_solver].
  exists b. split; [|done]. by rewrite commit_SG, E.
Qed.

Lemma old_holds (g : group) (n : nsCollBlk) (t : Z) : nc_blkNum n < h -> holds m g n t -> holds m' g n t.
Proof.
  intros Hn (b & E & Ht). exists b. split; [|done]. rewrite commit_SG. destruct (fresh g !! n) as [b'|] eqn:Ef; [|done]. apply fresh_ok in Ef as (_ & Hb & _). lia.
Qed.

(** Older expiry entries are kept, new ones are under the block. *)
Lemma old_entry (x : expiryKey) (v : bytes) : m !! SExpiry x = Some v -> m' !! SExpiry x = Some v.
Proof.
  intros E. unfold m'. rewrite commit_lookup. destruct (mi_entry _ _ _ HI _ _ E) as (_ & _ & _ & Hc). by rewrite decide_False by lia.
Qed.

Lemma new_entry (e : Z) (P : ExpiryDataMsg -> Prop) : ~ P ∅ -> P (ed_at M e) -> m' !! SExpiry (mkexpiryKey e h) = Some (Marshal (ed_at M e)).
Proof.
  intros Hn HP. unfold m'. rewrite commit_lookup. cbn [xk_committingBlk xk_expiringBlk]. rewrite decide_True by done.
  destruct (M !! e) as [o|] eqn:E; [by destruct (HM _ _ E) as [-> _]|]. exfalso. apply Hn. unfold ed_at in HP. by rewrite E in HP.
Qed.

Lemma new_data (k : dataKey) (e : Z) : k ∈ (data_of h data).*1 -> expiring (dt_nsCollBlk k) = Ret e -> neverExpires e = false ->
  exists ed, m' !! SExpiry (mkexpiryKey e h) = Some (Marshal ed) /\ lists_data (mkexpiryKey e h) ed k.
Proof.
  intros Hk Ee Hf. destruct (Hd k Hk) as [e' Hl]; [by exists e|]. pose proof (new_entry e' (fun ed => lists_data (mkexpiryKey e' h) ed k)) as Hn.
  pose proof (proj1 (lists_nothing (mkexpiryKey e' h)) k) as N. specialize (Hn N Hl).
  assert (e' = e) as ->; [|by eexists]. destruct (M !! e') as [o|] eqn:E; [|exfalso; apply N; unfold ed_at in Hl; by rewrite E in Hl].
  destruct (HM _ _ E) as [_ Ho]. apply (eo_data _ _ Ho) in Hl as [_ Hl]. cbn in Hl. congruence.
Qed.

Lemma new_missing (n : nsCollBlk) (e : Z) : is_Some (elg !! n) \/ is_Some (inelg !! n) -> expiring n = Ret e -> neverExpires e = false ->
  exists ed, m' !! SExpiry (mkexpiryKey e h) = Some (Marshal ed) /\ lists_missing (mkexpiryKey e h) ed n.
Proof.
  intros Hk Ee Hf. destruct (Hm n Hk) as [e' Hl]; [by exists e|]. pose proof (new_entry e' (fun ed => lists_missing (mkexpiryKey e' h) ed n)) as Hn.
  pose proof (proj1 (proj2 (lists_nothing (mkexpiryKey e' h))) n) as N. specialize (Hn N Hl).
  assert (e' = e) as ->; [|by eexists]. destruct (M !! e') as [o|] eqn:E; [|exfalso; apply N; unfold ed_at in Hl; by rewrite E in Hl].
  destruct (HM _ _ E) as [_ Ho]. apply (eo_missing _ _ Ho) in Hl as [_ Hl]. cbn in Hl. congruence.
Qed.

Lemma missing_recorded (p : MissingPvtData) (t : Z) : (p, t) ∈ missing_list missing -> is_Some (elg !! mkey h p) \/ is_Some (inelg !! mkey h p).
Proof.
  intros Hin. destruct (mp_IsEligible p) eqn:Ep; [left|right].
  - destruct (elg !! mkey h p) eqn:E; [by eexists|]. pose proof (proj2 (proj2 He (mkey h p) t) ltac:(by exists p)) as H. rewrite E in H. cbn in H. set_solver.
  - destruct (inelg !! mkey h p) eqn:E; [by eexists|]. pose proof (proj2 (proj2 Hi (mkey h p) t) ltac:(by exists p)) as H. rewrite E in H. cbn in H. set_solver.
Qed.

Lemma spec_data (k : dataKey) (w : CollectionPvtReadWriteSet) :
  sp_data sp' !! k = Some w <-> data_map (data_of h data) !! k = Some w \/ data_map (data_of h data) !! k = None /\ sp_data sp !! k = Some w.
Proof. apply lookup_union_Some_raw. Qed.

Lemma spec_missing (g : group) (n : nsCollBlk) (t : Z) :
  (n, t) ∈ sp_missing g sp' <-> (n, t) ∈ missing_keys (match g with GInelg => false | _ => true end) h missing \/ (n, t) ∈ sp_missing g sp.
Proof. destruct g; cbn; set_solver. Qed.

Lemma old_blk (g : group) (n : nsCollBlk) : is_Some (m !! SG g n) -> nc_blkNum n < h.
Proof.
  intros [v Hv]. destruct (mi_missing _ _ _ HI _ _ _ Hv) as (b & -> & Hb & Hin). destruct (set_choose_L b Hb) as [t Ht].
  by destruct (mi_bound _ _ _ HI _ _ _ (Hin t Ht)) as [? _].
Qed.

Lemma fresh_sep (n : nsCollBlk) : is_Some (inelg !! n) -> elg !! n = None.
Proof.
  intros [b Hb]. destruct (elg !! n) as [b'|] eqn:E; [|done]. exfalso.
  assert (Hx : forall e X b, group_ok h e (missing_list missing) X -> X !! n = Some b -> exists p, p ∈ (missing_list missing).*1 /\ mp_IsEligible p = e /\ n = mkey h p).
  { intros e X b0 [Hne Hb0] E0. destruct (set_choose_L b0) as [t Ht]; [by eapply Hne|]. destruct (proj1 (Hb0 n t)) as (p & Hin & Hp); [by rewrite E0|].
    exists p. split; [|done]. apply list_elem_of_fmap. by exists (p, t). }
  destruct (Hx _ _ _ He E) as (p & Hp & Ep & Enp), (Hx _ _ _ Hi Hb) as (p' & Hp' & Ep' & Enp').
  pose proof (bo_sep _ _ _ HB p p' Hp Hp' ltac:(congruence)). congruence.
Qed.

Lemma commit_sep (n : nsCollBlk) : is_Some (m' !! SInelg n) -> m' !! SPrio n = None /\ m' !! SDeprio n = None.
Proof.
  pose proof (commit_SG GInelg n) as E1. pose proof (commit_SG GPrio n) as E2. pose proof (commit_SG GDeprio n) as E3. cbn [SG fresh] in *. rewrite lookup_empty in E3.
  rewrite E1, E2, E3. destruct (inelg !! n) as [b|] eqn:Ei.
  - intros _. rewrite (fresh_sep n) by (by eexists). assert (Hn : nc_blkNum n = h) by (by apply (fresh_ok GInelg n b)).
    split; apply eq_None_not_Some; intros Hs; [apply (old_blk GPrio) in Hs|apply (old_blk GDeprio) in Hs]; lia.
  - intros Hs. destruct (mi_sep _ _ _ HI n Hs) as [H1 H2]. split; [|done]. pose proof (old_blk GInelg n Hs).
    destruct (elg !! n) as [b|] eqn:Ee; [|done]. apply (fresh_ok GPrio n b) in Ee as (_ & ? & _). lia.
Qed.

Lemma commit_inv : map_inv (h + 1) m' sp'.
Proof.
  assert (HE : forall n, expired_at (h + 1 - 1) n = false -> expired_at (h - 1) n = false) by (intros n; apply expired_at_mono; lia).
  assert (Hkey : forall k w, data_map (data_of h data) !! k = Some w -> k ∈ (data_of h data).*1).
  { intros k w Hk%data_map_elem. apply list_elem_of_fmap. by exists (k, w). }
  split.
  - intros k v. unfold m'. rewrite commit_lookup. setoid_rewrite spec_data. destruct (data_map _ !! k) as [w|].
    + intros [= <-]. exists w. by split; [left|].
    + intros Hk. destruct (mi_data _ _ _ HI _ _ Hk) as (w & Hw & ->). exists w. by split; [right|].
  - intros k w Hw Ht. unfold m'. rewrite commit_lookup. apply spec_data in Hw as [->|[-> Hw]]; [done|]. by apply (mi_live _ _ _ HI); [|apply HE].
  - intros k w [Hw|[_ Hw]]%spec_data; [by eapply (bo_data _ _ _ HB), Hkey|by eapply (mi_wf _ _ _ HI)].
  - intros x v. unfold m'. rewrite commit_lookup. destruct (decide (xk_committingBlk x = h)) as [Hx|Hx].
    + destruct (M !! xk_expiringBlk x) as [o|] eqn:E.
      * destruct (HM _ _ E) as [-> Ho]. intros [= <-]. eexists. split; [done|]. destruct x as [e c]. cbn in *. subst c. split; [done|lia].
      * intros Hv. destruct (mi_entry _ _ _ HI _ _ Hv) as (ed & -> & Ho & Hc). exists ed. split; [done|]. split; [done|lia].
    + intros Hv. destruct (mi_entry _ _ _ HI _ _ Hv) as (ed & -> & Ho & Hc). exists ed. split; [done|]. split; [done|lia].
  - intros k v e. unfold m' at 1. rewrite commit_lookup. destruct (data_map _ !! k) as [w|] eqn:E; intros Hv Ee Hf.
    + apply Hkey in E. rewrite (data_of_blk k E). by apply new_data.
    + destruct (mi_sched _ _ _ HI _ _ _ Hv Ee Hf) as (ed & Ex & Hl). exists ed. split; [by apply old_entry|done].
  - intros g n v. rewrite commit_SG. destruct (fresh g !! n) as [b|] eqn:E.
    + intros [= <-]. apply fresh_ok in E as (Hne & _ & _ & Ht). by exists b.
    + intros Hv. destruct (mi_missing _ _ _ HI _ _ _ Hv) as (b & -> & Hne & Ht). exists b. split; [done|]. split; [done|]. intros t Hin. apply spec_missing. right. by apply Ht.
  - intros g n t [Hin|Hin]%spec_missing.
    + apply missing_keys_elem in Hin as (p & Hin & _ & ->). destruct (bo_missing _ _ _ HB p) as [Hw Hp]; [apply list_elem_of_fmap; by exists (p, t)|]. split; [cbn; lia|done].
    + destruct (mi_bound _ _ _ HI _ _ _ Hin) as [Hlt Hw]. split; [lia|done].
  - intros g n v e. rewrite commit_SG. destruct (fresh g !! n) as [b|] eqn:E; intros Hv Ee Hf.
    + apply fresh_ok in E as (_ & -> & Hs & _). by apply new_missing.
    + destruct (mi_msched _ _ _ HI _ _ _ _ Hv Ee Hf) as (ed & Ex & Hl). exists ed. split; [by apply old_entry|done].
  - intros n t (b & E & Ht) (b' & E' & Ht'). rewrite commit_SG in E, E'. cbn [fresh] in E'. rewrite lookup_empty in E'.
    pose proof (mi_missing _ _ _ HI GDeprio _ _ E') as (b2 & E2 & _ & Hb2). apply Marshal_inj in E2. subst b2.
    pose proof (mi_bound _ _ _ HI GDeprio _ _ (Hb2 _ Ht')) as [Hlt _].
    destruct (fresh GPrio !! n) as [b3|] eqn:Ef; [apply fresh_ok in Ef as (_ & Hb3 & _); lia|]. by apply (mi_excl _ _ _ HI n t); [exists b|exists b'].
  - exact commit_sep.
  - intros c. unfold m'. rewrite commit_lookup. apply (mi_event _ _ _ HI).
  - exact (mi_event_ok _ _ _ HI).
  - intros n t Hin Ht. apply (spec_missing GPrio) in Hin as [Hin|Hin]; [left; by apply (fresh_holds GPrio elg true)|].
    pose proof (mi_bound _ _ _ HI GPrio _ _ Hin) as [Hlt _]. destruct (mi_elg _ _ _ HI _ _ Hin (HE _ Ht)); [left|right]; by apply old_holds.
  - intros n t Hin Ht. apply (spec_missing GInelg) in Hin as [Hin|Hin]; [by apply (fresh_holds GInelg inelg false)|].
    pose proof (mi_bound _ _ _ HI GInelg _ _ Hin) as [Hlt _]. apply old_holds; [done|]. by apply (mi_inelg _ _ _ HI); [|apply HE].
  - intros n e Hn Ee Hf Hle. cbn [sp' commit_spec sp_known] in Hn. rewrite !elem_of_union, !elem_of_list_to_set in Hn. destruct Hn as [[Hn|Hn]|Hn].
    + apply list_elem_of_fmap in Hn as (k & -> & Hk). rewrite (data_of_blk k Hk). destruct (new_data k e Hk Ee Hf) as (ed & -> & _). by eexists.
    + apply list_elem_of_fmap in Hn as (p & -> & Hk). apply list_elem_of_fmap in Hk as ([p' t] & -> & Hk).
      destruct (new_missing (mkey h p') e (missing_recorded _ _ Hk) Ee Hf) as (ed & E & _). cbn in E |- *. rewrite E. by eexists.
    + destruct (mi_known _ _ _ HI _ _ Hn Ee Hf ltac:(lia)) as [v E]. exists v. by apply old_entry.
Qed.

End CommitInv.

(** ** The store *)

(** The database of a store and what is known of its other fields. *)
Record pvt_map (s : Store) (sp : pvt_spec) (m : gmap skey bytes) : Prop := {
  pm_map : store_map (ps_db s) m;
  pm_inv : map_inv (LastCommittedBlockHeight s) m sp;
  pm_last : m !! SLast = if ps_isEmpty s then None else Some (encodeLastCommittedBlockVal (ps_lastCommittedBlock s));
  pm_pending : m !! SPending = None;
  pm_old : m !! SOld = None;
  pm_snap : m !! SSnap = None }.

Record pvt_fields (s : Store) : Prop := {
  pf_last : 0 <= ps_lastCommittedBlock s < MaxUint64;
  pf_empty : ps_isEmpty s = true -> ps_lastCommittedBlock s = 0;
  pf_snapshot : ps_createdFromSnapshot s = false;
  pf_old : ps_isLastUpdatedOldBlocksSet s = false;
  pf_interval : 0 < ps_purgeInterval s;
  pf_purger : forall b, b ∈ ps_purger s -> 0 <= b < LastCommittedBlockHeight s }.

Definition pvt_inv (s : Store) (sp : pvt_spec) : Prop := pvt_fields s /\ exists m, pvt_map s sp m.

Lemma height_cases (s : Store) : pvt_fields s ->
  LastCommittedBlockHeight s = (if ps_isEmpty s then 0 else ps_lastCommittedBlock s + 1) /\ 0 <= LastCommittedBlockHeight s <= MaxUint64.
Proof.
  intros Hf. pose proof (pf_last _ Hf) as Hl. destruct (u64_succ _ Hl) as (Eu & _). unfold LastCommittedBlockHeight. rewrite Eu. split; [done|].
  destruct (ps_isEmpty s); unfold MaxUint64 in *; lia.
Qed.

Lemma commit_enc (c : Z) (data : list (dataKey * CollectionPvtReadWriteSet)) (M : gmap Z ExpiryData) (elg inelg : gmap nsCollBlk BitSet) :
  data_puts data ++ expiry_puts ((fun '(e, o) => (mkexpiryKey e c, o)) <$> map_to_list M) ++
    ((fun '(k, v) => (encodeElgPrioMissingDataKey k, Some (Marshal v))) <$> map_to_list elg) ++
    ((fun '(k, v) => (encodeInelgMissingDataKey k, Some (Marshal v))) <$> map_to_list inelg) ++ [(lastCommittedBlkkey, Some (encodeLastCommittedBlockVal c))] =
  enc_batch (commit_batch c data M elg inelg).
Proof.
  unfold commit_batch. rewrite !enc_batch_app. unfold data_puts, expiry_puts, enc_batch, seg. rewrite <- !list_fmap_compose.
  f_equal; [apply list_fmap_ext; by intros ? [? ?] _|]. f_equal; [apply list_fmap_ext; by intros ? [? ?] _|].
  f_equal; [apply list_fmap_ext; by intros ? [? ?] _|]. f_equal. apply list_fmap_ext; by intros ? [? ?] _.
Qed.

Lemma map_to_list_keys {K V} `{Countable K} (P : K -> Prop) (X : gmap K V) : (forall n, is_Some (X !! n) -> P n) -> forall n v, (n, v) ∈ map_to_list X -> P n.
Proof. intros HP n v Hin. apply HP. exists v. by apply elem_of_map_to_list. Qed.

Lemma commit_batch_wf (c : Z) (data : list (dataKey * CollectionPvtReadWriteSet)) (M : gmap Z ExpiryData) (elg inelg : gmap nsCollBlk BitSet) :
  is_u64 c -> (forall k, k ∈ data.*1 -> dt_wf k) -> (forall n, is_Some (elg !! n) \/ is_Some (inelg !! n) -> nc_wf n) ->
  (forall e, is_Some (M !! e) -> is_u64 e) -> Forall (fun u => skey_wf (fst u)) (commit_batch c data M elg inelg).
Proof.
  intros Hc Hd Hm HM. apply Forall_forall. intros [k o] Hin. unfold commit_batch in Hin. rewrite !elem_of_app, !seg_elem, list_elem_of_singleton in Hin. cbn [fst].
  destruct Hin as [(a & v & Hin & -> & _)|[(a & v & Hin & -> & _)|[(a & v & Hin & -> & _)|[(a & v & Hin & -> & _)|Hin]]]]; cbn [skey_wf].
  - apply Hd. apply list_elem_of_fmap. by exists (a, v).
  - split; [|done]. cbn. revert a v Hin. by apply map_to_list_keys.
  - revert a v Hin. apply map_to_list_keys. intros n Hn. apply Hm. by left.
  - revert a v Hin. apply map_to_list_keys. intros n Hn. apply Hm. by right.
  - by injection Hin as -> _.
Qed.

Lemma expmap_u64 (c : Z) (M : gmap Z ExpiryData) (e : Z) : expmap_ok c M -> is_Some (M !! e) -> is_u64 e.
Proof. intros HM [o E]. destruct (HM _ _ E) as [_ Ho]. apply (eo_wf _ _ Ho). Qed.

Lemma block_colls (c : Z) (data : list TxPvtData) (missing : TxMissingPvtData) (elg inelg : gmap nsCollBlk BitSet) :
  block_ok c data missing -> group_ok c true (missing_list missing) elg -> group_ok c false (missing_list missing) inelg ->
  (forall k, k ∈ (data_of c data).*1 -> dt_wf k /\ coll_ok c (dt_nsCollBlk k)) /\ (forall n, is_Some (elg !! n) \/ is_Some (inelg !! n) -> coll_ok c n).
Proof.
  intros HB He Hi. split.
  - intros k Hk. destruct (bo_data _ _ _ HB k Hk) as [Hw Hp]. split; [done|]. split; [apply Hw|]. split; [by apply (data_of_blk c data)|done].
  - assert (Hg : forall g X n, group_ok c g (missing_list missing) X -> is_Some (X !! n) -> coll_ok c n); [|intros n [Hn|Hn]; eauto].
    intros g X n [Hne Hb] [b E]. destruct (set_choose_L b) as [t Ht]; [by eapply Hne|]. destruct (proj1 (Hb n t)) as (p & Hin & _ & ->); [by rewrite E|].
    destruct (bo_missing _ _ _ HB p) as [Hw Hp]; [apply list_elem_of_fmap; by exists (p, t)|]. by split.
Qed.

Lemma Store_Commit_ok (s : Store) (sp : pvt_spec) (data : list TxPvtData) (missing : TxMissingPvtData) :
  let c := LastCommittedBlockHeight s in
  pvt_inv s sp -> c < MaxUint64 -> block_ok c data missing ->
  exists s', Store_Commit c data missing s = (Ret tt, s') /\ pvt_inv s' (commit_spec c data missing sp) /\
    ps_isEmpty s' = false /\ ps_lastCommittedBlock s' = c /\ LastCommittedBlockHeight s' = c + 1.
Proof.
  intros c [Hf [m Hm]] Hc HB. destruct (height_cases s Hf) as [Hh [Hc0 _]]. fold c in Hh, Hc0.
  destruct (prepareMissing_ok c missing) as [He Hi]. destruct (block_colls c data missing _ _ HB He Hi) as [Hd Hn].
  destruct (prepareExpiryEntries_ok c (data_of c data) _ _ Hd Hn) as (M & EM & HM & Hmd & Hmm).
  assert (EP : prepareStoreEntries c data missing = Ret (mkstoreEntries (data_of c data) ((fun '(e, o) => (mkexpiryKey e c, o)) <$> map_to_list M)
    (fst (prepareMissingDataEntries c missing)) (snd (prepareMissingDataEntries c missing)))).
  { unfold prepareStoreEntries. rewrite prepareDataEntries_ok by apply HB. cbn [mbind outcome_bind]. destruct (prepareMissingDataEntries c missing). cbn [fst snd] in *. by rewrite EM. }
  unfold Store_Commit, mbind, M_bind, get_state, put_state, lift_outcome. change (nextBlockNum s) with c. rewrite Z.eqb_refl, EP. cbn [negb].
  cbn [se_dataEntries se_expiryEntries se_elgMissingDataEntries se_inelgMissingDataEntries]. rewrite commit_enc.
  set (us := commit_batch _ _ _ _ _). set (s1 := set_last c (with_db (DB_WriteBatch (enc_batch us) (ps_db s)) s)).
  assert (Hu : LastCommittedBlockHeight s1 = c + 1) by (cbn; by apply (u64_succ c)).
  assert (H1 : pvt_inv s1 (commit_spec c data missing sp)).
  { split; [split; cbn; try done; try apply Hf; try lia|].
    - change (forall b, b ∈ ps_purger s -> 0 <= b < LastCommittedBlockHeight s1). rewrite Hu. intros b Hb. apply (pf_purger _ Hf) in Hb. fold c in Hb. lia.
    - exists (upd us m). split.
      + apply store_map_batch; [apply Hm|]. apply commit_batch_wf; [unfold is_u64, MaxUint64 in *; lia|intros k Hk; by apply Hd|intros n Hn'; by apply Hn|intros e; by apply (expmap_u64 c)].
      + rewrite Hu. by apply (commit_inv c m sp data missing M _ _ (pm_inv _ _ _ Hm)).
      + unfold us. by rewrite commit_lookup.
      + unfold us. rewrite commit_lookup. apply Hm.
      + unfold us. rewrite commit_lookup. apply Hm.
      + unfold us. rewrite commit_lookup. apply Hm. }
  unfold performPurgeIfScheduled. cbn [s1 set_last with_db ps_purgeInterval ps_purger]. fold s1.
  pose proof (pf_interval _ Hf). rewrite (proj2 (Z.eqb_neq _ _)) by lia. destruct (negb _); [by exists s1|]. eexists. split; [done|]. split; [|done].
  destruct H1 as [[G1 G2 G3 G4 G5 G6] [m1 [I1 I2 I3 I4 I5 I6]]]. split; [|by exists m1]. split; try done. cbn. intros b [Hb| ->%list_elem_of_singleton]%elem_of_app; [by apply G6|].
  change (0 <= c < LastCommittedBlockHeight s1). lia.
Qed.

End Commit.
