(* ===== verification/PvtStoreRead.v ===== *)
(** * Reading the private data store

    Under [pvt_inv] the store returns the write sets of a block that have been
    committed and have not expired, in the order of the transactions, and what is
    missing of the blocks; a purge routine that runs in between changes nothing of it. *)

From S2P Require Import Prelude Wire Varint OrderedCode GoOS LevelDB Proto StateProto BatchPreparer PurgeMgr PurgeMgrOk PvtStore PvtStoreOk PvtStoreInv PvtStoreCommit.

Lemma StronglySorted_fmap_impl {A B C} (R : B -> B -> Prop) (R' : C -> C -> Prop) (f : A -> B) (g : A -> C) (l : list A) :
  (forall x y, x ∈ l -> y ∈ l -> R (f x) (f y) -> R' (g x) (g y)) -> StronglySorted R (f <$> l) -> StronglySorted R' (g <$> l).
Proof.
  induction l as [|a l IH]; intros Hi Hs; [constructor|]. cbn [fmap list_fmap] in *. apply StronglySorted_inv in Hs as [Hs Ha]. constructor.
  - apply IH; [|done]. intros x y Hx Hy. apply Hi; by right.
  - apply Forall_fmap, Forall_forall. intros y Hy. rewrite Forall_fmap, Forall_forall in Ha. apply Hi; [by left|by right|by apply Ha].
Qed.

Section Read.
Context {PP : PvtStoreProtos} {PO : PvtStoreProtosOk} {BP : BTLPolicy} {BO : BTLPolicyOk}.

Lemma dataKey_order (k k' : dataKey) :
  dt_wf k -> dt_wf k' -> nc_blkNum (dt_nsCollBlk k) = nc_blkNum (dt_nsCollBlk k') -> bytes_le (encodeDataKey k) (encodeDataKey k') -> dt_txNum k <= dt_txNum k'.
Proof.
  intros [(_ & _ & Hb) Ht] [(_ & _ & Hb') Ht'] E. unfold bytes_le, bytes_leb, encodeDataKey. cbn [app pvtDataKeyPrefix bytes_compare]. rewrite Z.compare_refl.
  rewrite Height_ToBytes_compare by (by split). unfold height_compare. cbn [NewHeight BlockNum TxNum]. rewrite E, Z.compare_refl.
  destruct (Z.compare_spec (dt_txNum k) (dt_txNum k')); [lia..|done].
Qed.

(** The write sets of a block that are shown. *)
Definition block_entries (last blk : Z) (filter : option PvtNsCollFilter) (D : gmap dataKey CollectionPvtReadWriteSet) : list (dataKey * CollectionPvtReadWriteSet) :=
  List.filter (fun x => (nc_blkNum (dt_nsCollBlk (fst x)) =? blk) && shown last filter (fst x)) (map_to_list D).

Lemma block_entries_elem (last blk : Z) (filter : option PvtNsCollFilter) (D : gmap dataKey CollectionPvtReadWriteSet) (k : dataKey) (w : CollectionPvtReadWriteSet) :
  (k, w) ∈ block_entries last blk filter D <-> D !! k = Some w /\ nc_blkNum (dt_nsCollBlk k) = blk /\ shown last filter k = true.
Proof.
  unfold block_entries. rewrite list_elem_of_In, filter_In, <- list_elem_of_In, elem_of_map_to_list. cbn [fst]. by rewrite andb_true_iff, Z.eqb_eq.
Qed.

Lemma NoDup_filter_keys {A B} (f : A * B -> bool) (l : list (A * B)) : NoDup l.*1 -> NoDup (List.filter f l).
Proof.
  induction l as [|[a b] l IH]; cbn; [constructor|]. rewrite NoDup_cons. intros [Hn Hd]. destruct (f (a, b)); [|by apply IH]. apply NoDup_cons. split; [|by apply IH].
  intros Hin. apply Hn. apply list_elem_of_In, filter_In in Hin as [Hin _]. apply list_elem_of_fmap. exists (a, b). split; [done|]. by apply list_elem_of_In.
Qed.

(** Entries that are not shown do not matter. *)
Lemma retrieve_loop_shown (last : Z) (filter : option PvtNsCollFilter) (l : list (dataKey * CollectionPvtReadWriteSet)) (acc : list TxPvtData) (current : option txPvtdataAssembler) :
  Forall (fun x => dt_wf (fst x) /\ has_policy (dt_nsCollBlk (fst x))) l ->
  retrieve_loop last filter ((fun '(k, w) => (encodeDataKey k, Marshal w)) <$> l) acc current =
  retrieve_loop last filter ((fun '(k, w) => (encodeDataKey k, Marshal w)) <$> List.filter (fun x => shown last filter (fst x)) l) acc current.
Proof.
  intros Hf. revert acc current. induction Hf as [|[k w] l [Hk Hp] Hf IH]; intros acc current; [done|]. cbn [fst] in *.
  cbn [fmap list_fmap retrieve_loop List.filter fst]. rewrite v11Format_encode by done. cbn [mbind outcome_bind]. rewrite decodeDatakey_encode by done. cbn [mbind outcome_bind].
  rewrite isExpired_ok by done. cbn [mbind outcome_bind]. unfold shown at 1.
  destruct (expired_at last (dt_nsCollBlk k)) eqn:Ee, (passesFilter k filter) eqn:Ep; cbn [orb negb andb]; try apply IH.
  cbn [fmap list_fmap retrieve_loop]. rewrite v11Format_encode by done. cbn [mbind outcome_bind]. rewrite decodeDatakey_encode by done. cbn [mbind outcome_bind].
  rewrite isExpired_ok by done. cbn [mbind outcome_bind]. rewrite Ee, Ep. cbn [orb negb]. rewrite proto_Unmarshal_Marshal. cbn [mbind outcome_bind].
  destruct (negb _); apply IH.
Qed.

(** The entries a block is read from. *)
Lemma block_scan (s : Store) (sp : pvt_spec) (blk : Z) (filter : option PvtNsCollFilter) :
  pvt_inv s sp -> 0 <= blk < LastCommittedBlockHeight s ->
  let last := ps_lastCommittedBlock s in
  exists l, GetPvtDataByBlockNum s blk filter = retrieve_loop last filter ((fun '(k, w) => (encodeDataKey k, Marshal w)) <$> l) [] None /\
    Forall (fun x => dt_wf (fst x) /\ has_policy (dt_nsCollBlk (fst x))) l /\ (forall k w, (k, w) ∈ l -> nc_blkNum (dt_nsCollBlk k) = blk) /\
    StronglySorted bytes_le ((fun x => encodeDataKey (fst x)) <$> l) /\
    List.filter (fun x => shown last filter (fst x)) l ≡ₚ block_entries last blk filter (sp_data sp).
Proof.
  intros [Hf [m Hm]] Hb last. destruct (height_cases s Hf) as [Hh Hr]. pose proof (pf_last _ Hf) as Hl0. unfold GetPvtDataByBlockNum. fold last in Hh, Hl0 |- *.
  destruct (ps_isEmpty s); [lia|]. rewrite (proj2 (Z.ltb_ge _ _)) by lia.
  pose proof (pm_inv _ _ _ Hm) as HI. replace (LastCommittedBlockHeight s) with (last + 1) in HI by lia.
  destruct (store_scan SData (fun d => nc_blkNum (dt_nsCollBlk d) =? blk) _ m _ _ (pm_map _ _ _ Hm) (fun k => block_data_range blk k ltac:(lia))) as (l & El & Hl & Hl' & Hs & Hn).
  destruct (getDataKeysForRangeScanByBlockNum blk) as [sk ek]. cbn [fst snd] in El. rewrite El.
  destruct (entries_values (fun k w => m !! SData k = Some (Marshal w) /\ sp_data sp !! k = Some w /\ nc_blkNum (dt_nsCollBlk k) = blk) l) as (l' & -> & Hent).
  { intros k v Hin. apply Hl in Hin as (E & Hx & Hw). destruct (mi_data _ _ _ HI _ _ E) as (w & Ew & ->). exists w. split; [done|]. split; [done|]. split; [done|lia]. }
  assert (Ek : (fun a => enc (SData a)) <$> ((fun '(a, c) => (a, Marshal c)) <$> l').*1 = (fun x => encodeDataKey (fst x)) <$> l')
    by (rewrite <- !list_fmap_compose; apply list_fmap_ext; by intros ? [? ?] _). rewrite Ek in Hs, Hn.
  exists l'. split; [f_equal; rewrite <- list_fmap_compose; apply list_fmap_ext; by intros ? [? ?] _|]. split; [|split; [|split; [done|]]].
  - apply Forall_forall. intros [k w] Hin. apply Hent in Hin as (_ & E & _). by eapply (mi_wf _ _ _ HI).
  - intros k w Hin. by apply Hent in Hin as (_ & _ & ?).
  - apply NoDup_Permutation.
    + apply NoDup_filter_keys. apply (NoDup_fmap_1 encodeDataKey). by rewrite <- list_fmap_compose.
    + apply NoDup_ListNoDup, List.NoDup_filter, NoDup_ListNoDup, NoDup_map_to_list.
    + intros [k w]. rewrite block_entries_elem, list_elem_of_In, filter_In, <- list_elem_of_In. cbn [fst]. split; [intros [(_ & E & Eb)%Hent Hsh]; done|].
      intros (E & Eb & Hsh). split; [|done]. pose proof Hsh as [He' _]%andb_true_iff. apply negb_true_iff in He'.
      assert (Ed : m !! SData k = Some (Marshal w)) by (apply (mi_live _ _ _ HI); [done|by replace (last + 1 - 1) with last by lia]).
      destruct (Hl' k (Marshal w) Ed ltac:(lia)) as (k' & [= ->] & Hin). apply list_elem_of_fmap in Hin as ([k2 w2] & [= -> E2] & Hin). apply Marshal_inj in E2. by subst.
Qed.

Lemma GetPvtDataByBlockNum_ok (s : Store) (sp : pvt_spec) (blk : Z) (filter : option PvtNsCollFilter) :
  pvt_inv s sp -> 0 <= blk < LastCommittedBlockHeight s ->
  exists r, GetPvtDataByBlockNum s blk filter = Ret r /\ StronglySorted Z.lt (SeqInBlock <$> r) /\
    entries_of r ≡ₚ entry_of <$> block_entries (ps_lastCommittedBlock s) blk filter (sp_data sp).
Proof.
  intros HI Hb. destruct (block_scan s sp blk filter HI Hb) as (l & -> & Hwf & Hblk & Hs & Hp). destruct (retrieve_loop_ok (ps_lastCommittedBlock s) filter l [] None Hwf) as (r & Er & He).
  exists r. split; [done|]. split; [|rewrite He; cbn [app current_entries entries_of mbind list_bind]; by apply fmap_Permutation].
  apply (retrieve_loop_sorted (ps_lastCommittedBlock s) filter l [] r None); [done| |constructor|..|done]; [|by intros t ?%not_elem_of_nil..].
  refine (StronglySorted_fmap_impl bytes_le Z.le _ _ l _ Hs). intros [k w] [k' w'] Hk Hk' Hle. rewrite Forall_forall in Hwf.
  apply dataKey_order; [by apply (Hwf _ Hk)|by apply (Hwf _ Hk')| |exact Hle]. apply Hblk in Hk, Hk'. cbn. congruence.
Qed.

(** What is read depends on the specification and the last block only. *)
Lemma sorted_keys_unique (l1 l2 : list (dataKey * CollectionPvtReadWriteSet)) :
  (forall k w, (k, w) ∈ l1 -> dt_wf k) -> NoDup l1.*1 -> l1 ≡ₚ l2 ->
  StronglySorted bytes_le ((fun x => encodeDataKey (fst x)) <$> l1) -> StronglySorted bytes_le ((fun x => encodeDataKey (fst x)) <$> l2) -> l1 = l2.
Proof.
  intros Hw Hn Hp H1 H2. set (R := fun x y : dataKey * CollectionPvtReadWriteSet => bytes_le (encodeDataKey (fst x)) (encodeDataKey (fst y))).
  assert (HR : forall l, StronglySorted bytes_le ((fun x => encodeDataKey (fst x)) <$> l) -> StronglySorted R l).
  { intros l Hs. rewrite <- (list_fmap_id l). revert Hs. apply StronglySorted_fmap_impl. done. }
  apply (StronglySorted_unique_strong R); [|by apply HR|by apply HR|done]. intros [k w] [k' w'] Hk Hk' Hle Hle'. rewrite <- Hp in Hk'.
  assert (E : encodeDataKey k = encodeDataKey k') by (by apply (anti_symm bytes_le)).
  pose proof (enc_inj (SData k) (SData k') (Hw _ _ Hk) (Hw _ _ Hk') E) as [= <-]. f_equal.
  apply list_elem_of_lookup_1 in Hk as [i Hi]. apply list_elem_of_lookup_1 in Hk' as [j Hj].
  assert (i = j) as <-; [|congruence]. apply (NoDup_lookup l1.*1 i j k Hn); rewrite list_lookup_fmap; [by rewrite Hi|by rewrite Hj].
Qed.

Lemma filter_fmap_sorted {A B} (R : B -> B -> Prop) (g : A -> B) (f : A -> bool) (l : list A) : StronglySorted R (g <$> l) -> StronglySorted R (g <$> List.filter f l).
Proof.
  induction l as [|a l IH]; [done|]. cbn [fmap list_fmap List.filter]. intros [Hs Ha]%StronglySorted_inv. destruct (f a); [|by apply IH]. cbn [fmap list_fmap]. constructor; [by apply IH|].
  rewrite Forall_fmap, Forall_forall in *. intros x Hx. apply Ha. apply list_elem_of_In, filter_In in Hx as [Hx _]. by apply list_elem_of_In.
Qed.

Lemma reads_determined (s s' : Store) (sp : pvt_spec) (blk : Z) (filter : option PvtNsCollFilter) :
  pvt_inv s sp -> pvt_inv s' sp -> ps_isEmpty s' = ps_isEmpty s -> ps_lastCommittedBlock s' = ps_lastCommittedBlock s -> 0 <= blk ->
  GetPvtDataByBlockNum s' blk filter = GetPvtDataByBlockNum s blk filter.
Proof.
  intros HI HI' Ee El Hb0. assert (Eh : LastCommittedBlockHeight s' = LastCommittedBlockHeight s) by (unfold LastCommittedBlockHeight; by rewrite Ee, El).
  destruct (Z.lt_ge_cases blk (LastCommittedBlockHeight s)) as [Hb|Hb].
  - destruct (block_scan s sp blk filter HI ltac:(lia)) as (l & -> & Hwf & _ & Hs & Hp). destruct (block_scan s' sp blk filter HI' ltac:(lia)) as (l' & -> & Hwf' & _ & Hs' & Hp').
    rewrite El in *. rewrite (retrieve_loop_shown _ _ l) by done. rewrite (retrieve_loop_shown _ _ l') by done. f_equal. f_equal.
    apply sorted_keys_unique; [| |by rewrite Hp, Hp'|by apply filter_fmap_sorted|by apply filter_fmap_sorted].
    + intros k w Hin. apply list_elem_of_In, filter_In in Hin as [Hin _]. apply list_elem_of_In in Hin. rewrite Forall_forall in Hwf'. by apply (Hwf' (k, w)).
    + rewrite Hp'. unfold block_entries. apply NoDup_fmap_2_strong; [|apply NoDup_ListNoDup, List.NoDup_filter, NoDup_ListNoDup, NoDup_map_to_list].
      intros [k w] [k' w'] Hk Hk' Ek. cbn in Ek. subst k'. apply block_entries_elem in Hk as [Hk _], Hk' as [Hk' _]. congruence.
  - destruct (height_cases s (proj1 HI)) as [Hh _]. unfold GetPvtDataByBlockNum. rewrite Ee, El. destruct (ps_isEmpty s); [done|]. by rewrite (proj2 (Z.ltb_lt _ _)) by lia.
Qed.

(** ** The purge routine *)

Definition is_about (n : nsCollBlk) (k : skey) : Prop := match k with SData d => dt_nsCollBlk d = n | SPrio n' | SDeprio n' | SInelg n' => n' = n | _ => False end.

(** A purge that has got to the first [i] entries. *)
Definition purge_prefix (i : nat) (b : Z) (db : kvmap) : outcome kvmap :=
  es ← retrieveExpiryEntries db 0 b; Ret (fold_left (fun db e => DB_WriteBatch (purge_batch e) db) (take i es) db).

Lemma purge_prefix_ok (i : nat) (s : Store) (sp : pvt_spec) (b : Z) :
  pvt_inv s sp -> 0 <= b < LastCommittedBlockHeight s -> exists db, purge_prefix i b (ps_db s) = Ret db /\ pvt_inv (with_db db s) sp.
Proof.
  intros [Hf [m Hm]] Hb. destruct (height_cases s Hf) as [_ [_ Hh]]. destruct (purge_ok _ b _ m sp (pm_map _ _ _ Hm) (pm_inv _ _ _ Hm) Hb Hh) as (es & E & Hi).
  destruct (Hi i) as (T & m' & Hs & Hp & HT & _). eexists. unfold purge_prefix. rewrite E. split; [done|].
  assert (Hk : forall k, match k with SPending | SLast | SOld | SSnap => True | _ => False end -> m' !! k = m !! k).
  { intros k Hk. destruct (Hp k) as [[? _]|[_ (x & ed & _ & _ & Hin)]]; [done|]. apply purge_keys_elem in Hin. by destruct k. }
  split; [by destruct Hf|]. exists m'. split; [done| |rewrite Hk by done; apply Hm..]. eapply purged_inv; [apply Hm|by apply Hb|done|done].
Qed.

Lemma run_purger_ok (s : Store) (sp : pvt_spec) (b : Z) :
  pvt_inv s sp -> 0 <= b < LastCommittedBlockHeight s ->
  exists db, run_purger b s = (Ret tt, with_db db s) /\ pvt_inv (with_db db s) sp /\
    forall k n v e, skey_wf k -> is_about n k -> db !! enc k = Some v -> expiring n = Ret e -> b < e.
Proof.
  intros HI Hb. pose proof HI as [Hf [m Hm]]. destruct (height_cases s Hf) as [_ [_ Hh]]. destruct (purge_ok _ b _ m sp (pm_map _ _ _ Hm) (pm_inv _ _ _ Hm) Hb Hh) as (es & E & Hi).
  destruct (Hi (length es)) as (T & m' & Hs & Hp & HT & HA). rewrite take_ge in Hs by done. eexists. unfold run_purger, purgeExpiredData. rewrite E. split; [done|]. split.
  - destruct (purge_prefix_ok (length es) s sp b HI Hb) as (db & E' & H'). unfold purge_prefix in E'. rewrite E in E'. cbn [mbind outcome_bind] in E'.
    rewrite take_ge in E' by done. by injection E' as <-.
  - intros k n v e Hw Ha Ev Ee. rewrite (sm_lookup _ _ Hs) in Ev by done.
    by apply (purged_complete _ b T m m' sp (pm_inv _ _ _ Hm) Hp k v n e Ev Ha (HA ltac:(lia))); [lia|].
Qed.

(** ** Missing data *)

Definition listed (info : MissingPvtDataInfo) (n : nsCollBlk) (t : Z) : Prop :=
  (nc_ns n, nc_coll n) ∈ default [] (default ∅ (info !! nc_blkNum n) !! t).

Lemma listed_Add (info : MissingPvtDataInfo) (n n' : nsCollBlk) (t t' : Z) :
  listed (MissingPvtDataInfo_Add (nc_blkNum n) t (nc_ns n) (nc_coll n) info) n' t' <-> listed info n' t' \/ n' = n /\ t' = t.
Proof.
  unfold listed, MissingPvtDataInfo_Add. cbn zeta. destruct (decide (nc_blkNum n = nc_blkNum n')) as [Eb|Eb].
  2:{ rewrite lookup_insert_ne by done. split; [tauto|]. intros [H|[-> _]]; done. }
  rewrite <- Eb, lookup_insert_eq. cbn [from_option id]. destruct (decide (t = t')) as [<-|Et].
  2:{ rewrite lookup_insert_ne by done. split; [tauto|]. intros [H|[_ ->]]; done. }
  rewrite lookup_insert_eq. cbn [from_option id]. rewrite elem_of_app, list_elem_of_singleton. split; (intros [H|H]; [by left|right]).
  - destruct n as [a b c], n' as [a' b' c']. cbn in *. injection H as -> ->. by subst.
  - by destruct H as [-> _].
Qed.

Definition add_bits (n : nsCollBlk) (b : BitSet) (info : MissingPvtDataInfo) : MissingPvtDataInfo :=
  fold_left (fun info t => MissingPvtDataInfo_Add (nc_blkNum n) t (nc_ns n) (nc_coll n) info) (bits b) info.

Lemma bits_elem (b : BitSet) (t : Z) : t ∈ bits b <-> t ∈ b.
Proof. unfold bits. rewrite merge_sort_Permutation. apply elem_of_elements. Qed.

Lemma listed_add_bits (n n' : nsCollBlk) (b : BitSet) (info : MissingPvtDataInfo) (t : Z) :
  listed (add_bits n b info) n' t <-> listed info n' t \/ n' = n /\ t ∈ b.
Proof.
  unfold add_bits. rewrite <- bits_elem. induction (bits b) as [|t' l IH] using rev_ind; [cbn; pose proof (not_elem_of_nil t); tauto|].
  rewrite fold_left_app. cbn [fold_left]. rewrite listed_Add, IH, elem_of_app, list_elem_of_singleton. tauto.
Qed.

Lemma dom_add_bits (n : nsCollBlk) (b : BitSet) (info : MissingPvtDataInfo) : b <> ∅ -> dom (add_bits n b info) = {[nc_blkNum n]} ∪ dom info.
Proof.
  intros Hb. assert (Hd : forall l i, dom (fold_left (fun info t => MissingPvtDataInfo_Add (nc_blkNum n) t (nc_ns n) (nc_coll n) info) l i) =
    (if bool_decide (l = []) then ∅ else {[nc_blkNum n]}) ∪ dom i).
  { induction l as [|t l IH]; intros i; [cbn; by rewrite union_empty_l_L|]. cbn [fold_left]. rewrite IH. unfold MissingPvtDataInfo_Add. rewrite dom_insert_L.
    cbn. case_bool_decide; set_solver. }
  unfold add_bits. rewrite Hd, bool_decide_eq_false_2; [done|]. intros E. apply Hb. apply set_eq. intros t. rewrite <- bits_elem, E. set_solver.
Qed.

(** What [missing_loop] has collected from a prefix of the entries. *)
Record collected (last maxBlock : Z) (pre : list (nsCollBlk * BitSet)) (info : MissingPvtDataInfo) (number : Z) (lastP : option Z) : Prop := {
  co_listed : forall n t, listed info n t <-> exists b, (n, b) ∈ pre /\ expired_at last n = false /\ t ∈ b;
  co_dom : forall blk, blk ∈ dom info <-> exists n b, (n, b) ∈ pre /\ expired_at last n = false /\ nc_blkNum n = blk;
  co_number : number = Z.of_nat (size (dom info)) /\ number <= maxBlock;
  co_last : match lastP with
            | None => number < maxBlock
            | Some x => number = maxBlock /\ x ∈ dom info /\ forall y, y ∈ dom info -> x <= y
            end }.

Lemma collected_skip (last maxBlock : Z) (pre : list (nsCollBlk * BitSet)) (info : MissingPvtDataInfo) (number : Z) (lastP : option Z) (n : nsCollBlk) (b : BitSet) :
  collected last maxBlock pre info number lastP -> expired_at last n = true -> collected last maxBlock (pre ++ [(n, b)]) info number lastP.
Proof.
  intros [H1 H2 H3 H4] He. split; [| |done|done].
  - intros n' t. rewrite H1. setoid_rewrite elem_of_app. setoid_rewrite list_elem_of_singleton. split; [intros (b' & Hin & G); exists b'; tauto|].
    intros (b' & [Hin|[= -> ->]] & He' & G); [by exists b'|congruence].
  - intros blk. rewrite H2. setoid_rewrite elem_of_app. setoid_rewrite list_elem_of_singleton. split; [intros (n' & b' & Hin & G); exists n', b'; tauto|].
    intros (n' & b' & [Hin|[= -> ->]] & He' & G); [by exists n', b'|congruence].
Qed.

Lemma collected_add (last maxBlock : Z) (pre : list (nsCollBlk * BitSet)) (info : MissingPvtDataInfo) (number : Z) (lastP : option Z) (n : nsCollBlk) (b : BitSet) :
  collected last maxBlock pre info number lastP -> expired_at last n = false -> b <> ∅ -> (forall y, y ∈ dom info -> nc_blkNum n <= y) ->
  match lastP with Some x => negb (nc_blkNum n =? x) | None => false end = false ->
  let '(number', lastP') :=
    match info !! nc_blkNum n with
    | Some _ => (number, lastP)
    | None => (number + 1, if number + 1 =? maxBlock then Some (nc_blkNum n) else lastP)
    end in collected last maxBlock (pre ++ [(n, b)]) (add_bits n b info) number' lastP'.
Proof.
  intros [H1 H2 [H3 H3'] H4] He Hb Hge Hstop. pose proof (dom_add_bits n b info Hb) as Hd.
  assert (HL : forall n' t, listed (add_bits n b info) n' t <-> exists b', (n', b') ∈ pre ++ [(n, b)] /\ expired_at last n' = false /\ t ∈ b').
  { intros n' t. rewrite listed_add_bits, H1. setoid_rewrite elem_of_app. setoid_rewrite list_elem_of_singleton. split.
    - intros [(b' & Hin & G)|[-> Ht]]; [exists b'; tauto|exists b; tauto].
    - intros (b' & [Hin|[= -> ->]] & G); [left; by exists b'|right; tauto]. }
  assert (HD : forall blk, blk ∈ dom (add_bits n b info) <-> exists n' b', (n', b') ∈ pre ++ [(n, b)] /\ expired_at last n' = false /\ nc_blkNum n' = blk).
  { intros blk. rewrite Hd, elem_of_union, elem_of_singleton, H2. setoid_rewrite elem_of_app. setoid_rewrite list_elem_of_singleton. split.
    - intros [->|(n' & b' & Hin & G)]; [exists n, b; tauto|exists n', b'; tauto].
    - intros (n' & b' & [Hin|[= -> ->]] & G); [right; by exists n', b'|left; by destruct G as [_ ->]]. }
  destruct (info !! nc_blkNum n) as [i|] eqn:Ei.
  - assert (Ed : dom (add_bits n b info) = dom info) by (apply elem_of_dom_2 in Ei; rewrite Hd; set_solver). split; [done|done|by rewrite Ed|by rewrite Ed].
  - apply not_elem_of_dom in Ei. destruct lastP as [x|]; [apply negb_false_iff, Z.eqb_eq in Hstop; subst x; by destruct H4 as (_ & ? & _)|].
    assert (Es : Z.of_nat (size (dom (add_bits n b info))) = number + 1) by (rewrite Hd, size_union, size_singleton by set_solver; lia).
    split; [done|done|lia|]. destruct (Z.eqb_spec (number + 1) maxBlock) as [Em|Em]; [|lia]. split; [done|]. rewrite Hd. split; [set_solver|].
    intros y [->%elem_of_singleton|Hy]%elem_of_union; [lia|by apply Hge].
Qed.

(** The result for all entries: the blocks that are left out are older than the
    [maxBlock] ones that are listed. *)
Definition recent (last maxBlock : Z) (l : list (nsCollBlk * BitSet)) (info : MissingPvtDataInfo) : Prop :=
  Z.of_nat (size (dom info)) <= maxBlock /\
  (forall n t, listed info n t -> exists b, (n, b) ∈ l /\ expired_at last n = false /\ t ∈ b) /\
  (forall n b t, (n, b) ∈ l -> expired_at last n = false -> t ∈ b ->
    listed info n t \/ Z.of_nat (size (dom info)) = maxBlock /\ forall y, y ∈ dom info -> nc_blkNum n < y).

Lemma missing_loop_ok (last maxBlock : Z) (g : byte) (rest pre : list (nsCollBlk * BitSet)) (info : MissingPvtDataInfo) (number : Z) (lastP : option Z) :
  1 <= maxBlock -> Forall (fun x => nc_wf (fst x) /\ has_policy (fst x) /\ snd x <> ∅) (pre ++ rest) ->
  StronglySorted (fun a b => nc_blkNum (fst b) <= nc_blkNum (fst a)) (pre ++ rest) -> collected last maxBlock pre info number lastP ->
  exists info', missing_loop last maxBlock ((fun '(n, b) => (encodeElgMissingDataKey [g] n, Marshal b)) <$> rest) info number lastP = Ret info' /\
    recent last maxBlock (pre ++ rest) info'.
Proof.
  intros HM. revert pre info number lastP. induction rest as [|[n b] rest IH]; intros pre info number lastP Hf Hs Hc; cbn [fmap list_fmap missing_loop].
  - exists info. split; [done|]. rewrite app_nil_r. destruct Hc as [H1 H2 [-> H3] _]. split; [done|]. split; [intros n t; apply H1|]. intros n b t Hin He Ht. left. apply H1. by exists b.
  - assert (Hn : nc_wf n /\ has_policy n /\ b <> ∅) by (rewrite Forall_forall in Hf; apply (Hf (n, b)); apply elem_of_app; right; by left). destruct Hn as (Hw & Hp & Hb).
    rewrite decodeElg_encode by done. cbn [mbind outcome_bind].
    assert (Hge : forall y, y ∈ dom info -> nc_blkNum n <= y).
    { intros y (n' & b' & Hin & _ & <-)%(co_dom _ _ _ _ _ _ Hc). apply (StronglySorted_app_1_elem_of _ _ _ (n', b') (n, b) Hs Hin). by left. }
    destruct (match lastP with Some x => negb (nc_blkNum n =? x) | None => false end) eqn:Estop.
    + exists info. split; [done|]. destruct lastP as [x|]; [|done]. apply negb_true_iff, Z.eqb_neq in Estop. destruct Hc as [H1 H2 [-> H3] (H4 & H5 & H6)].
      split; [done|]. split; [intros n' t (b' & Hin & H)%H1; exists b'; split; [apply elem_of_app; by left|done]|].
      intros n' b' t Hin He Ht. apply elem_of_app in Hin as [Hin|Hin]; [left; apply H1; by exists b'|right]. split; [done|]. intros y Hy.
      assert (nc_blkNum n' <= nc_blkNum n).
      { apply elem_of_cons in Hin as [[= -> ->]|Hin]; [done|]. apply StronglySorted_app_1_r, StronglySorted_inv in Hs as [_ Hs]. rewrite Forall_forall in Hs. by apply (Hs (n', b')). }
      pose proof (Hge x H5). pose proof (H6 y Hy). lia.
    + rewrite isExpired_ok by done. cbn [mbind outcome_bind].
      replace (pre ++ (n, b) :: rest) with ((pre ++ [(n, b)]) ++ rest) in * by (by rewrite <- app_assoc).
      destruct (expired_at last n) eqn:Ee.
      * apply IH; [done|done|]. by apply collected_skip.
      * rewrite proto_Unmarshal_Marshal. pose proof (collected_add last maxBlock pre info number lastP n b Hc Ee Hb Hge Estop) as Ha.
        destruct (info !! nc_blkNum n) as [i|]; cbn [mbind outcome_bind]; by apply IH.
Qed.

Definition group_byte (g : bool) : byte := if g then Byte.x04 else Byte.x08.
Definition group_of (g : bool) : group := if g then GPrio else GDeprio.

Lemma missing_order (g : byte) (n n' : nsCollBlk) :
  nc_wf n -> nc_wf n' -> bytes_le (encodeElgMissingDataKey [g] n) (encodeElgMissingDataKey [g] n') -> nc_blkNum n' <= nc_blkNum n.
Proof.
  intros (_ & _ & Hn) (_ & _ & Hn'). unfold bytes_le, bytes_leb, encodeElgMissingDataKey. cbn [app bytes_compare]. rewrite Z.compare_refl, reverse_compare_app by done.
  destruct (Z.compare_spec (nc_blkNum n') (nc_blkNum n)); [lia..|done].
Qed.

(** The scan ends before the keys of block 0, which are never listed. *)
Lemma getMissingData_ok (s : Store) (sp : pvt_spec) (m : gmap skey bytes) (g : bool) (maxBlock : Z) :
  pvt_fields s -> pvt_map s sp m -> 1 <= maxBlock ->
  exists info, getMissingData s [group_byte g] maxBlock = Ret info /\ Z.of_nat (size (dom info)) <= maxBlock /\
    (forall n t, listed info n t -> holds m (group_of g) n t /\ expired_at (ps_lastCommittedBlock s) n = false /\ 0 < nc_blkNum n) /\
    (forall n t, holds m (group_of g) n t -> expired_at (ps_lastCommittedBlock s) n = false -> 0 < nc_blkNum n ->
      listed info n t \/ Z.of_nat (size (dom info)) = maxBlock /\ forall y, y ∈ dom info -> nc_blkNum n < y).
Proof.
  intros Hf Hm HM. pose proof (pm_inv _ _ _ Hm) as HI. set (last := ps_lastCommittedBlock s) in *. pose proof (pf_last _ Hf) as Hl0. fold last in Hl0.
  assert (Hu : is_u64 last) by (unfold is_u64, MaxUint64 in *; lia). destruct (height_cases s Hf) as [Hh _]. fold last in Hh.
  destruct (store_scan (SG (group_of g)) (fun n => (0 <? nc_blkNum n) && (nc_blkNum n <=? last)) (ps_db s) m
    (fst (createRangeScanKeysForElgMissingData last [group_byte g])) (snd (createRangeScanKeysForElgMissingData last [group_byte g])) (pm_map _ _ _ Hm))
    as (l & El & Hl & Hl' & Hs & _).
  { intros k Hk. pose proof (missing_range last g k Hu Hk) as Hr. by destruct g. }
  destruct (entries_values (fun n (b : BitSet) => m !! SG (group_of g) n = Some (Marshal b) /\ b <> ∅ /\ nc_wf n /\ has_policy n /\ 0 < nc_blkNum n) l) as (l' & -> & Hent).
  { intros n v Hin. apply Hl in Hin as (E & [Hpos _]%andb_true_iff & Hw). apply Z.ltb_lt in Hpos. destruct (mi_missing _ _ _ HI _ _ _ E) as (b & -> & Hb & Hin). exists b. split; [done|]. split; [done|]. split; [done|].
    destruct (set_choose_L b Hb) as [t Ht]. by destruct (mi_bound _ _ _ HI _ _ _ (Hin t Ht)) as (_ & ? & ?). }
  unfold getMissingData. fold last. destruct (createRangeScanKeysForElgMissingData last [group_byte g]) as [sk ek]. cbn [fst snd] in El. rewrite El.
  rewrite <- list_fmap_compose. rewrite <- !list_fmap_compose in Hs.
  replace (_ <$> l') with ((fun '(n, b) => (encodeElgMissingDataKey [group_byte g] n, Marshal b)) <$> l') by (apply list_fmap_ext; intros ? [? ?] _; by destruct g).
  destruct (missing_loop_ok last maxBlock (group_byte g) l' [] ∅ 0 None HM) as (info & Er & Hsz & H1 & H2).
  - apply Forall_forall. intros [n b] Hin. apply Hent in Hin as (_ & Hb & Hw & Hp & _). done.
  - rewrite <- (list_fmap_id l'). refine (StronglySorted_fmap_impl bytes_le _ _ _ l' _ Hs). intros [n b] [n' b'] Hin Hin' Hle. apply Hent in Hin as (_ & _ & Hw & _), Hin' as (_ & _ & Hw' & _).
    apply (missing_order (group_byte g)); [done|done|]. by destruct g.
  - split; [|intros blk; rewrite dom_empty_L|rewrite dom_empty_L, size_empty; lia|lia].
    + intros n t. unfold listed. rewrite lookup_empty. cbn. rewrite lookup_empty. cbn. split; [by intros ?%not_elem_of_nil|]. by intros (b & ?%not_elem_of_nil & _).
    + split; [set_solver|]. by intros (n & b & ?%not_elem_of_nil & _).
  - exists info. split; [done|]. split; [done|]. split.
    + intros n t (b & Hin & He & Ht)%H1. apply Hent in Hin as (E & _ & _ & _ & Hpos). split; [by exists b|done].
    + intros n t (b & E & Ht) He Hb. apply (H2 n b t); [|done|done]. destruct (mi_missing _ _ _ HI _ _ _ E) as (b' & E' & _ & Hin). apply Marshal_inj in E'. subst b'.
      destruct (mi_bound _ _ _ HI _ _ _ (Hin t Ht)) as (Hlt & _). destruct (Hl' n (Marshal b) E) as (n' & En & Hin').
      * apply andb_true_iff. split; [lia|]. destruct (ps_isEmpty s); lia.
      * apply list_elem_of_fmap in Hin' as ([n2 b2] & [= -> E2] & Hin'). apply Marshal_inj in E2. subst b2. assert (n2 = n) as -> by (destruct g; by injection En). done.
Qed.

End Read.
