(* ===== verification/PvtStoreLate.v ===== *)
(** * Late private data

    [Store_CommitPvtDataOfOldBlocks] adds write sets to blocks that are already there,
    lists them for expiry and takes them off the missing data; what is still missing
    moves to the group that is asked for less often.  [map_inv] is kept. *)

From S2P Require Import Prelude Wire Varint OrderedCode GoOS LevelDB Proto StateProto BatchPreparer PurgeMgr PurgeMgrOk PvtStore PvtStoreOk PvtStoreInv PvtStoreCommit PvtStoreRead.

Lemma is_Some_b_spec {A} (o : option A) : is_Some_b o = true <-> is_Some o.
Proof. destruct o; cbn; split; intros H; try done; by destruct H. Qed.

Section Late.
Context {PP : PvtStoreProtos} {PO : PvtStoreProtosOk} {BP : BTLPolicy} {BO : BTLPolicyOk}.

(** ** Data and expiry entries *)

Definition late_list (blocks : gmap Z (list TxPvtData)) : list (dataKey * CollectionPvtReadWriteSet) := map_to_list blocks ≫= fun '(b, d) => data_of b d.

Lemma old_data_entries_ok (l : list (Z * list TxPvtData)) :
  Forall (fun x => Forall (fun t => is_Some (WriteSet t)) (snd x)) l -> old_data_entries l = Ret (l ≫= fun '(b, d) => data_of b d).
Proof.
  induction 1 as [|[b d] l Hd Hf IH]; [done|]. cbn [old_data_entries mbind list_bind]. rewrite prepareDataEntries_ok by done. cbn [mbind outcome_bind]. by rewrite IH.
Qed.

Definition exp_key (k : dataKey) (e : Z) : expiryKey := mkexpiryKey e (nc_blkNum (dt_nsCollBlk k)).

(** Late data is dropped when the expiry entry is gone. *)
Definition accepted (m : gmap skey bytes) (k : dataKey) : bool :=
  match expiring (dt_nsCollBlk k) with Ret e => neverExpires e || is_Some_b (m !! SExpiry (exp_key k e)) | _ => false end.

Definition accepted_map (m : gmap skey bytes) (l : list (dataKey * CollectionPvtReadWriteSet)) (D : gmap dataKey CollectionPvtReadWriteSet) : Prop :=
  forall k, D !! k = if accepted m k then data_map l !! k else None.

(** The expiry entries that have been changed so far. *)
Record late_entries (m : gmap skey bytes) (l : list dataKey) (E : gmap expiryKey ExpiryData) : Prop := {
  le_ok : forall x o, E !! x = Some o -> o = Some (ed_at E x) /\ entry_ok x (ed_at E x);
  le_old : forall x o, E !! x = Some o -> exists ed, m !! SExpiry x = Some (Marshal ed) /\
    (forall k, lists_data x ed k -> lists_data x (ed_at E x) k) /\ (forall n, lists_missing x ed n -> lists_missing x (ed_at E x) n);
  le_new : forall k e, k ∈ l -> accepted m k = true -> expiring (dt_nsCollBlk k) = Ret e -> neverExpires e = false -> lists_data (exp_key k e) (ed_at E (exp_key k e)) k }.

Lemma data_map_snoc (l : list (dataKey * CollectionPvtReadWriteSet)) (k : dataKey) (w : CollectionPvtReadWriteSet) : data_map (l ++ [(k, w)]) = <[k := w]> (data_map l).
Proof. unfold data_map. by rewrite fold_left_app. Qed.

Section Entries.
Context (db : kvmap) (m : gmap skey bytes) (h : Z) (sp : pvt_spec).
Hypotheses (Hs : store_map db m) (HI : map_inv h m sp).

(** The entry in which late data is listed. *)
Lemma late_expiry_entry (l : list dataKey) (E : gmap expiryKey ExpiryData) (x : expiryKey) :
  late_entries m l E -> xk_wf x ->
  match m !! SExpiry x with
  | None => getExpiryDataFromEntriesOrStore db E x = Ret None
  | Some v => exists ed ed0, v = Marshal ed0 /\ getExpiryDataFromEntriesOrStore db E x = Ret (Some (Some ed)) /\ entry_ok x ed /\
      (forall k, lists_data x ed0 k \/ lists_data x (ed_at E x) k -> lists_data x ed k) /\ (forall n, lists_missing x ed0 n -> lists_missing x ed n)
  end.
Proof.
  intros HE Hx. unfold getExpiryDataFromEntriesOrStore. destruct (E !! x) as [o|] eqn:Eo.
  - destruct (le_ok _ _ _ HE _ _ Eo) as [-> Ho]. destruct (le_old _ _ _ HE _ _ Eo) as (ed0 & -> & Hd & Hm). exists (ed_at E x), ed0.
    split; [done|]. split; [done|]. split; [done|]. split; [|done]. intros k [Hk|Hk]; [by apply Hd|done].
  - pose proof (sm_lookup _ _ Hs (SExpiry x) Hx) as El. cbn [enc] in El. rewrite El. destruct (m !! SExpiry x) as [v|] eqn:Ev; [|done].
    destruct (mi_entry _ _ _ HI _ _ Ev) as (ed & -> & Ho & _). rewrite proto_Unmarshal_Marshal. cbn [mbind outcome_bind]. exists ed, ed. split; [done|].
    split; [|split; [done|]].
    + do 2 f_equal. unfold go_map_of. rewrite bool_decide_eq_false_2; [done|]. intros Ee%dom_empty_inv_L. by apply (eo_nonempty _ _ Ho).
    + split; [|done]. intros k [Hk|Hk]; [done|]. exfalso. unfold ed_at in Hk. rewrite Eo in Hk. by apply (proj1 (lists_nothing x)) in Hk.
Qed.

Lemma prepare_old_step (l : list (dataKey * CollectionPvtReadWriteSet)) (k : dataKey) (w : CollectionPvtReadWriteSet)
    (D : gmap dataKey CollectionPvtReadWriteSet) (E : gmap expiryKey ExpiryData) :
  dt_wf k -> has_policy (dt_nsCollBlk k) -> accepted_map m l D -> late_entries m l.*1 E ->
  exists D' E', prepare_old_entry db (k, w) (D, E) = Ret (D', E') /\ accepted_map m (l ++ [(k, w)]) D' /\ late_entries m (l ++ [(k, w)]).*1 E'.
Proof.
  intros Hk [e Ee] HD HE. assert (Hx : xk_wf (exp_key k e)) by (apply (expiring_wf _ (dt_nsCollBlk k)); [apply Hk|done|done]).
  unfold prepare_old_entry, constructExpiryKey. rewrite Ee. cbn [mbind outcome_bind xk_expiringBlk]. fold (exp_key k e).
  assert (Hins : accepted m k = true -> accepted_map m (l ++ [(k, w)]) (<[k := w]> D)).
  { intros Ha k'. rewrite data_map_snoc. destruct (decide (k = k')) as [<-|Hne]; [by rewrite !lookup_insert_eq, Ha|]. rewrite !lookup_insert_ne by done. apply HD. }
  assert (Hacc : accepted m k = neverExpires e || is_Some_b (m !! SExpiry (exp_key k e))) by (unfold accepted, expiring; by rewrite Ee).
  destruct (neverExpires e) eqn:Hf.
  - eexists _, _. split; [done|]. split; [by apply Hins|]. destruct HE as [H1 H2 H3]. split; [done|done|]. intros k' e' Hin Ha Ee' Hf'. rewrite fmap_app in Hin.
    apply elem_of_app in Hin as [Hin|Hin%list_elem_of_singleton]; [by apply H3|]. cbn in Hin. subst k'. unfold expiring in Ee'. congruence.
  - pose proof (late_expiry_entry l.*1 E (exp_key k e) HE Hx) as Hl. destruct (m !! SExpiry (exp_key k e)) as [v|] eqn:Ev.
    + destruct Hl as (ed & ed0 & -> & Eg & Ho & Hd & Hm). rewrite Eg. cbn [mbind outcome_bind].
      destruct (entry_present (exp_key k e) k ed) as (ed' & Ea & Ho' & Hd' & Hm'); [by right|done..|]. rewrite Ea. cbn [mbind outcome_bind].
      eexists _, _. split; [done|]. split; [apply Hins; by rewrite Hacc|]. destruct HE as [H1 H2 H3].
      assert (Hat : ed_at (<[exp_key k e := Some ed']> E) (exp_key k e) = ed') by (rewrite ed_at_insert; by rewrite decide_True).
      split; intros x; rewrite ?ed_at_insert.
      * intros o [[<- <-]|[Hne Eo]]%lookup_insert_Some; [by rewrite decide_True|]. rewrite decide_False by done. by apply H1.
      * intros o [[<- <-]|[Hne Eo]]%lookup_insert_Some; [|rewrite decide_False by done; by eapply H2]. rewrite decide_True by done. exists ed0. split; [done|].
        split; [intros k' Hk'; apply Hd'; left; apply Hd; by left|intros n Hn; by apply Hm', Hm].
      * intros e' Hin Ha Ee' Hf'. rewrite ed_at_insert. rewrite fmap_app in Hin. destruct (decide (exp_key k e = exp_key x e')) as [Ex|Hne].
        -- rewrite <- Ex. apply Hd'. apply elem_of_app in Hin as [Hin|Hin%list_elem_of_singleton]; [|by right].
           left. apply Hd. right. rewrite Ex. by apply H3.
        -- apply elem_of_app in Hin as [Hin|Hin%list_elem_of_singleton]; [by apply H3|]. cbn in Hin. subst x. unfold expiring in Ee'. congruence.
    + rewrite Hl. cbn [mbind outcome_bind]. eexists _, _. split; [done|]. split.
      * intros k'. rewrite data_map_snoc. destruct (decide (k = k')) as [<-|Hne]; [rewrite HD, Hacc; done|]. rewrite lookup_insert_ne by done. apply HD.
      * destruct HE as [H1 H2 H3]. split; [done|done|]. intros k' e' Hin Ha Ee' Hf'. rewrite fmap_app in Hin.
        apply elem_of_app in Hin as [Hin|Hin%list_elem_of_singleton]; [by apply H3|]. cbn in Hin. subst k'. rewrite Hacc in Ha. done.
Qed.

Lemma prepare_late_ok (l : list (dataKey * CollectionPvtReadWriteSet)) :
  (forall k, k ∈ l.*1 -> dt_wf k /\ has_policy (dt_nsCollBlk k)) ->
  exists D E, for_range (prepare_old_entry db) l (∅, ∅) = Ret (D, E) /\ accepted_map m l D /\ late_entries m l.*1 E.
Proof.
  intros Hl. destruct (for_range_ind (fun pre acc => accepted_map m pre (fst acc) /\ late_entries m pre.*1 (snd acc)) (prepare_old_entry db) l (∅, ∅)) as ([D E] & Er & HD & HE).
  - split; [intros k; cbn; rewrite !lookup_empty; by destruct (accepted m k)|]. split; cbn; intros *; try by rewrite lookup_empty. by intros ?%not_elem_of_nil.
  - intros pre [k w] [D E] [rest ->] [HD HE]. cbn [fst snd] in *. destruct (Hl k) as [Hk Hp]; [rewrite fmap_app; apply elem_of_app; right; by left|].
    destruct (prepare_old_step pre k w D E Hk Hp HD HE) as (D' & E' & Er & HD' & HE'). by exists (D', E').
  - by exists D, E.
Qed.

(** ** Missing data *)

(** The transactions of a group, as stored and as changed so far. *)
Definition stored (g : group) (n : nsCollBlk) : BitSet := default ∅ (m !! SG g n ≫= Unmarshal).

Definition eff (g : group) (X : gmap nsCollBlk BitSet) (n : nsCollBlk) : BitSet := default (stored g n) (X !! n).

Lemma stored_holds (g : group) (n : nsCollBlk) (t : Z) : t ∈ stored g n <-> holds m g n t.
Proof.
  clear Hs db. unfold stored, holds. destruct (m !! SG g n) as [v|] eqn:E; cbn.
  - destruct (mi_missing _ _ _ HI _ _ _ E) as (b & -> & _). rewrite Unmarshal_Marshal. cbn. split; [intros Ht; by exists b|].
    intros (b' & [= Eb] & Ht). apply Marshal_inj in Eb. by subst.
  - split; [set_solver|]. intros (b & [=] & _).
Qed.

Lemma eff_insert (g : group) (X : gmap nsCollBlk BitSet) (n n' : nsCollBlk) (b : BitSet) : eff g (<[n := b]> X) n' = if decide (n = n') then b else eff g X n'.
Proof. unfold eff. destruct (decide (n = n')) as [->|]; [by rewrite lookup_insert_eq|by rewrite lookup_insert_ne]. Qed.

Definition group_bytes (g : group) : bytes := match g with GPrio => elgPrioritizedMissingDataGroup | _ => elgDeprioritizedMissingDataGroup end.

Definition known_in (g : group) (X : gmap nsCollBlk BitSet) (n : nsCollBlk) : bool := is_Some_b (X !! n) || is_Some_b (m !! SG g n).

Lemma getMissing_ok (g : group) (X : gmap nsCollBlk BitSet) (n : nsCollBlk) :
  g <> GInelg -> nc_wf n -> getMissingDataFromEntriesOrStore (group_bytes g) db X n = Ret (if known_in g X n then Some (eff g X n) else None).
Proof.
  intros Hg Hn. unfold getMissingDataFromEntriesOrStore, known_in, eff. destruct (X !! n) as [b|]; [done|]. cbn [is_Some_b orb from_option].
  assert (El : db !! encodeElgMissingDataKey (group_bytes g) n = m !! SG g n) by (destruct g; [apply (sm_lookup _ _ Hs (SPrio n) Hn)|apply (sm_lookup _ _ Hs (SDeprio n) Hn)|done]).
  rewrite El. unfold stored. destruct (m !! SG g n) as [v|] eqn:E; cbn [is_Some_b]; [|done].
  destruct (mi_missing _ _ _ HI _ _ _ E) as (b & -> & _). rewrite proto_Unmarshal_Marshal. cbn [mbind outcome_bind option_bind]. by rewrite Unmarshal_Marshal.
Qed.

Lemma unknown_empty (g : group) (X : gmap nsCollBlk BitSet) (n : nsCollBlk) : known_in g X n = false -> eff g X n = ∅.
Proof.
  unfold known_in, eff, stored. destruct (X !! n); [done|]. by destruct (m !! SG g n).
Qed.

(** Changes are made to collections with missing data only. *)
Definition sources (P Q : gmap nsCollBlk BitSet) : Prop :=
  (forall n, is_Some (P !! n) -> is_Some (m !! SPrio n)) /\ (forall n, is_Some (Q !! n) -> is_Some (m !! SPrio n) \/ is_Some (m !! SDeprio n)).

Lemma known_prio (P Q : gmap nsCollBlk BitSet) (n : nsCollBlk) : sources P Q -> known_in GPrio P n = true -> is_Some (m !! SPrio n).
Proof. intros [H1 _]. unfold known_in. rewrite orb_true_iff, !is_Some_b_spec. intros [H|H]; [by apply H1|done]. Qed.

Lemma known_deprio (P Q : gmap nsCollBlk BitSet) (n : nsCollBlk) : sources P Q -> known_in GDeprio Q n = true -> is_Some (m !! SPrio n) \/ is_Some (m !! SDeprio n).
Proof. intros [_ H2]. unfold known_in. rewrite orb_true_iff, !is_Some_b_spec. intros [H|H]; [by apply H2|by right]. Qed.

Lemma sources_prio (P Q : gmap nsCollBlk BitSet) (n : nsCollBlk) (b : BitSet) : sources P Q -> is_Some (m !! SPrio n) -> sources (<[n := b]> P) Q.
Proof. intros [H1 H2] Hn. split; [|done]. intros n' [v [[<- _]|[_ E]]%lookup_insert_Some]; [done|]. apply H1. by exists v. Qed.

Lemma sources_deprio (P Q : gmap nsCollBlk BitSet) (n : nsCollBlk) (b : BitSet) :
  sources P Q -> is_Some (m !! SPrio n) \/ is_Some (m !! SDeprio n) -> sources P (<[n := b]> Q).
Proof. intros [H1 H2] Hn. split; [done|]. intros n' [v [[<- _]|[_ E]]%lookup_insert_Some]; [done|]. apply H2. by exists v. Qed.

(** The two groups after the transactions [R] have been reconciled and those of [L]
    moved: nothing else is lost or added, and no transaction is in both. *)
Record late_missing (R L : list (nsCollBlk * Z)) (P Q : gmap nsCollBlk BitSet) : Prop := {
  lm_src : sources P Q;
  lm_kept : forall n t, holds m GPrio n t \/ holds m GDeprio n t -> (n, t) ∉ R -> t ∈ eff GPrio P n \/ t ∈ eff GDeprio Q n;
  lm_only : forall n t, t ∈ eff GPrio P n \/ t ∈ eff GDeprio Q n -> ((holds m GPrio n t \/ holds m GDeprio n t) /\ (n, t) ∉ R) \/ (n, t) ∈ L;
  lm_excl : forall n t, t ∈ eff GPrio P n -> t ∉ eff GDeprio Q n }.

Lemma notin_snoc {A} (x y : A) (l : list A) : x ∉ l ++ [y] <-> x ∉ l /\ x <> y.
Proof. rewrite not_elem_of_app, not_elem_of_cons. pose proof (not_elem_of_nil x). tauto. Qed.

Lemma reconcile_prio (R : list (nsCollBlk * Z)) (n : nsCollBlk) (t : Z) (P Q : gmap nsCollBlk BitSet) :
  late_missing R [] P Q -> is_Some (m !! SPrio n) -> t ∈ eff GPrio P n -> late_missing (R ++ [(n, t)]) [] (<[n := eff GPrio P n ∖ {[t]}]> P) Q.
Proof.
  intros [Hsrc Hkept Honly Hexcl] Hn H1. split; [by apply sources_prio|..]; intros n' t'; rewrite eff_insert, ?notin_snoc.
  - intros Hh [Hr Hne]. destruct (decide (n = n')) as [<-|]; [|by apply Hkept]. destruct (Hkept n t' Hh Hr); [left|by right]. set_solver.
  - intros H. left. destruct (decide (n = n')) as [<-|Hne].
    + destruct (Honly n t') as [[Hh Hr]|Hc]; [set_solver| |by apply not_elem_of_nil in Hc]. split; [done|]. split; [done|]. intros [= ->].
      destruct H as [H|H]; [set_solver|by apply (Hexcl n t H1)].
    + destruct (Honly n' t' H) as [[Hh Hr]|Hc]; [|by apply not_elem_of_nil in Hc]. split; [done|]. split; [done|]. by intros [= ->].
  - destruct (decide (n = n')) as [<-|]; [|apply Hexcl]. intros H. apply Hexcl. set_solver.
Qed.

Lemma reconcile_deprio (R : list (nsCollBlk * Z)) (n : nsCollBlk) (t : Z) (P Q : gmap nsCollBlk BitSet) :
  late_missing R [] P Q -> is_Some (m !! SPrio n) \/ is_Some (m !! SDeprio n) -> t ∉ eff GPrio P n ->
  late_missing (R ++ [(n, t)]) [] P (<[n := eff GDeprio Q n ∖ {[t]}]> Q).
Proof.
  intros [Hsrc Hkept Honly Hexcl] Hn H1. split; [by apply sources_deprio|..]; intros n' t'; rewrite eff_insert, ?notin_snoc.
  - intros Hh [Hr Hne]. destruct (decide (n = n')) as [<-|]; [|by apply Hkept]. destruct (Hkept n t' Hh Hr); [by left|right]. set_solver.
  - intros H. left. destruct (decide (n = n')) as [<-|Hne].
    + destruct (Honly n t') as [[Hh Hr]|Hc]; [set_solver| |by apply not_elem_of_nil in Hc]. split; [done|]. split; [done|]. intros [= ->].
      destruct H as [H|H]; set_solver.
    + destruct (Honly n' t' H) as [[Hh Hr]|Hc]; [|by apply not_elem_of_nil in Hc]. split; [done|]. split; [done|]. by intros [= ->].
  - intros H. destruct (decide (n = n')) as [<-|]; [|by apply Hexcl]. apply Hexcl in H. set_solver.
Qed.

Lemma reconcile_none (R : list (nsCollBlk * Z)) (n : nsCollBlk) (t : Z) (P Q : gmap nsCollBlk BitSet) :
  late_missing R [] P Q -> t ∉ eff GPrio P n -> t ∉ eff GDeprio Q n -> late_missing (R ++ [(n, t)]) [] P Q.
Proof.
  intros [Hsrc Hkept Honly Hexcl] H1 H2. split; [done|..|done]; intros n' t'; rewrite notin_snoc.
  - intros Hh [Hr _]. by apply Hkept.
  - intros H. left. destruct (Honly n' t' H) as [[Hh Hr]|Hc]; [|by apply not_elem_of_nil in Hc]. split; [done|]. split; [done|]. intros [= -> ->]. tauto.
Qed.

Lemma reconciled_step (R : list (nsCollBlk * Z)) (dk : dataKey) (P Q : gmap nsCollBlk BitSet) :
  dt_wf dk -> late_missing R [] P Q ->
  exists P' Q', reflect_reconciled db dk (P, Q) = Ret (P', Q') /\ late_missing (R ++ [(dt_nsCollBlk dk, dt_txNum dk)]) [] P' Q'.
Proof.
  intros [Hn _] HL. set (n := dt_nsCollBlk dk) in *. set (t := dt_txNum dk). unfold reflect_reconciled. fold n t.
  pose proof (getMissing_ok GPrio P n ltac:(done) Hn) as E1. pose proof (getMissing_ok GDeprio Q n ltac:(done) Hn) as E2. cbn [group_bytes] in E1, E2.
  rewrite E1. cbn [mbind outcome_bind].
  assert (H1 : (known_in GPrio P n = true /\ t ∈ eff GPrio P n) \/ t ∉ eff GPrio P n /\
    (if match (if known_in GPrio P n then Some (eff GPrio P n) else None) with Some b => bool_decide (t ∈ b) | None => false end then False else True)).
  { destruct (known_in GPrio P n) eqn:K; [|right; split; [rewrite unknown_empty by done; set_solver|done]]. case_bool_decide; [by left|by right]. }
  destruct H1 as [[K1 H1]|[H1 Hif]].
  - rewrite K1, bool_decide_eq_true_2 by done. eexists _, _. split; [done|]. apply reconcile_prio; [done| |done]. by eapply known_prio; [apply HL|].
  - destruct (match _ with Some b => bool_decide (t ∈ b) | None => false end); [done|]. rewrite E2. cbn [mbind outcome_bind].
    destruct (known_in GDeprio Q n) eqn:K2; [|eexists _, _; split; [done|]; apply reconcile_none; [done|done|rewrite unknown_empty by done; set_solver]].
    case_bool_decide as H2; (eexists _, _; split; [done|]); [|by apply reconcile_none].
    apply reconcile_deprio; [done| |done]. by eapply known_deprio; [apply HL|].
Qed.

Lemma reconciled_ok (l : list dataKey) :
  (forall k, k ∈ l -> dt_wf k) ->
  exists P Q, for_range (reflect_reconciled db) l (∅, ∅) = Ret (P, Q) /\ late_missing ((fun k => (dt_nsCollBlk k, dt_txNum k)) <$> l) [] P Q.
Proof.
  intros Hl. destruct (for_range_ind (fun pre acc => late_missing ((fun k => (dt_nsCollBlk k, dt_txNum k)) <$> pre) [] (fst acc) (snd acc)) (reflect_reconciled db) l (∅, ∅))
    as ([P Q] & Er & HL); [| |by exists P, Q].
  - assert (Heff : forall g n, eff g ∅ n = stored g n) by (intros g n; unfold eff; by rewrite lookup_empty).
    split; cbn [fst snd]; [split; intros n [b E]; by rewrite lookup_empty in E|..]; intros n t; rewrite !Heff, !stored_holds.
    + done.
    + intros H. left. split; [done|]. apply not_elem_of_nil.
    + by apply (mi_excl _ _ _ HI).
  - intros pre k [P Q] [rest ->] HL. cbn [fst snd] in *. destruct (reconciled_step _ k P Q (Hl k ltac:(apply elem_of_app; right; by left)) HL) as (P' & Q' & Er & HL').
    exists (P', Q'). split; [done|]. by rewrite fmap_app.
Qed.

(** Moving a transaction from one group to the other. *)
Lemma priority_step (R L : list (nsCollBlk * Z)) (n : nsCollBlk) (t : Z) (P Q : gmap nsCollBlk BitSet) :
  nc_wf n -> late_missing R L P Q -> exists P' Q', reflect_priority db (n, t) (P, Q) = Ret (P', Q') /\ late_missing R (L ++ [(n, t)]) P' Q'.
Proof.
  intros Hn HL. unfold reflect_priority. pose proof (getMissing_ok GPrio P n ltac:(done) Hn) as E1. pose proof (getMissing_ok GDeprio Q n ltac:(done) Hn) as E2.
  cbn [group_bytes] in E1, E2. rewrite E1. cbn [mbind outcome_bind]. destruct HL as [Hsrc Hkept Honly Hexcl].
  destruct (known_in GPrio P n) eqn:K1.
  - rewrite E2. cbn [mbind outcome_bind]. assert (Hp : is_Some (m !! SPrio n)) by (by eapply known_prio). eexists _, _. split; [done|].
    assert (Ed : default ∅ (if known_in GDeprio Q n then Some (eff GDeprio Q n) else None) = eff GDeprio Q n).
    { destruct (known_in GDeprio Q n) eqn:K2; [done|]. by rewrite unknown_empty. }
    rewrite Ed. split; [apply sources_deprio; [by apply sources_prio|by left]|..]; intros n' t'; rewrite !eff_insert; destruct (decide (n = n')) as [<-|Hne].
    + intros Hh Hr. destruct (decide (t' = t)) as [->|]; [right; set_solver|]. destruct (Hkept n t' Hh Hr); [left|right]; set_solver.
    + by apply Hkept.
    + intros H. destruct (decide (t' = t)) as [->|]; [right; apply elem_of_app; right; by left|].
      destruct (Honly n t') as [?|?]; [set_solver|by left|right; apply elem_of_app; by left].
    + intros H. destruct (Honly n' t' H) as [?|?]; [by left|right; apply elem_of_app; by left].
    + intros H. assert (t' ∉ eff GDeprio Q n) by (apply Hexcl; set_solver). set_solver.
    + apply Hexcl.
  - eexists _, _. split; [done|]. split; [done|done| |done]. intros n' t' H. destruct (Honly n' t' H) as [?|?]; [by left|right; apply elem_of_app; by left].
Qed.

Lemma priority_ok (R l : list (nsCollBlk * Z)) (P Q : gmap nsCollBlk BitSet) :
  (forall n t, (n, t) ∈ l -> nc_wf n) -> late_missing R [] P Q ->
  exists P' Q', for_range (reflect_priority db) l (P, Q) = Ret (P', Q') /\ late_missing R l P' Q'.
Proof.
  intros Hl HL. destruct (for_range_ind (fun pre acc => late_missing R pre (fst acc) (snd acc)) (reflect_priority db) l (P, Q)) as ([P' Q'] & Er & HL'); [done| |by exists P', Q'].
  intros pre [n t] [P1 Q1] [rest ->] HL1. cbn [fst snd] in *. destruct (priority_step R pre n t P1 Q1) as (P' & Q' & Er & HL'); [|done|by exists (P', Q')].
  apply (Hl n t). apply elem_of_app. right. by left.
Qed.

End Entries.

(** ** The invariant *)

Definition bits_value (b : BitSet) : option bytes := if bool_decide (b = ∅) then None else Some (Marshal b).

Definition late_batch (D : gmap dataKey CollectionPvtReadWriteSet) (E : gmap expiryKey ExpiryData) (P Q : gmap nsCollBlk BitSet) : sbatch :=
  seg SData marshal_some (map_to_list D) ++ seg SExpiry expiry_value (map_to_list E) ++ seg SPrio bits_value (map_to_list P) ++ seg SDeprio bits_value (map_to_list Q).

Lemma late_lookup (D : gmap dataKey CollectionPvtReadWriteSet) (E : gmap expiryKey ExpiryData) (P Q : gmap nsCollBlk BitSet) (m : gmap skey bytes) (k : skey) :
  upd (late_batch D E P Q) m !! k =
  match k with
  | SData d => match D !! d with Some w => Some (Marshal w) | None => m !! k end
  | SExpiry x => match E !! x with Some o => expiry_value o | None => m !! k end
  | SPrio n => match P !! n with Some b => bits_value b | None => m !! k end
  | SDeprio n => match Q !! n with Some b => bits_value b | None => m !! k end
  | _ => m !! k
  end.
Proof.
  unfold late_batch. rewrite !upd_app. destruct k as [ | | | |d|x|n|n|n|z|b]; repeat (rewrite upd_other by done); try done.
  - rewrite (upd_entries SData) by (by intros ? ? [= ->]). done.
  - rewrite (upd_entries SExpiry) by (by intros ? ? [= ->]). destruct (E !! x); [done|]. by rewrite upd_other.
  - rewrite (upd_entries SPrio) by (by intros ? ? [= ->]). destruct (P !! n); [done|]. by repeat (rewrite upd_other by done).
  - rewrite (upd_entries SDeprio) by (by intros ? ? [= ->]). destruct (Q !! n); [done|]. by repeat (rewrite upd_other by done).
Qed.

Definition tx_key (k : dataKey) : nsCollBlk * Z := (dt_nsCollBlk k, dt_txNum k).

Definition late_spec (l : list (dataKey * CollectionPvtReadWriteSet)) (sp : pvt_spec) : pvt_spec :=
  mkspec (data_map l ∪ sp_data sp) (sp_elg sp ∖ list_to_set (tx_key <$> l.*1)) (sp_inelg sp) (sp_known sp) (sp_events sp).

(** Late data is of blocks that have been recorded, and what is deprioritised is
    missing and not among it. *)
Record late_ok (l : list (dataKey * CollectionPvtReadWriteSet)) (lst : list (nsCollBlk * Z)) (sp : pvt_spec) : Prop := {
  lo_data : forall k, k ∈ l.*1 -> dt_wf k /\ has_policy (dt_nsCollBlk k) /\ dt_nsCollBlk k ∈ sp_known sp;
  lo_list : forall n t, (n, t) ∈ lst -> (n, t) ∈ sp_elg (late_spec l sp) }.

Section LateInv.
Context (h : Z) (m : gmap skey bytes) (sp : pvt_spec) (l : list (dataKey * CollectionPvtReadWriteSet)) (lst : list (nsCollBlk * Z))
  (D : gmap dataKey CollectionPvtReadWriteSet) (E : gmap expiryKey ExpiryData) (P Q : gmap nsCollBlk BitSet).
Hypotheses (HI : map_inv h m sp) (Hok : late_ok l lst sp) (HD : accepted_map m l D) (HE : late_entries m l.*1 E)
  (HL : late_missing m (tx_key <$> (map_to_list D).*1) lst P Q).

Let m' := upd (late_batch D E P Q) m.
Let sp' := late_spec l sp.

Lemma late_entry_kept (x : expiryKey) (ed : ExpiryDataMsg) : m !! SExpiry x = Some (Marshal ed) ->
  exists ed', m' !! SExpiry x = Some (Marshal ed') /\ (forall k, lists_data x ed k -> lists_data x ed' k) /\ (forall n, lists_missing x ed n -> lists_missing x ed' n).
Proof.
  intros Ex. unfold m'. rewrite late_lookup. destruct (E !! x) as [o|] eqn:Eo; [|by exists ed].
  destruct (le_ok _ _ _ HE _ _ Eo) as [-> _]. destruct (le_old _ _ _ HE _ _ Eo) as (ed0 & E0 & Hd & Hm). rewrite Ex in E0. injection E0 as E0. apply Marshal_inj in E0. subst ed0.
  by exists (ed_at E x).
Qed.

Lemma late_changed (X : gmap nsCollBlk BitSet) (g : group) (n : nsCollBlk) :
  m' !! SG g n = match X !! n with Some b => bits_value b | None => m !! SG g n end ->
  (forall t, holds m' g n t <-> t ∈ eff m g X n) /\ (forall v, m' !! SG g n = Some v -> exists b : BitSet, v = Marshal b /\ b <> ∅).
Proof.
  intros El. split.
  - intros t. unfold eff. destruct (X !! n) as [b|]; cbn [from_option] in *.
    + unfold holds. rewrite El. unfold bits_value. case_bool_decide as Hb.
      * split; [intros (b' & [=] & _)|]. subst b. cbn. set_solver.
      * cbn. split; [|intros Ht; by exists b]. intros (b' & [= Eb] & Ht). apply Marshal_inj in Eb. by subst.
    + rewrite (stored_holds m h sp HI). unfold holds. by rewrite El.
  - intros v. rewrite El. destruct (X !! n) as [b|]; cbn; [|intros Hv; destruct (mi_missing _ _ _ HI _ _ _ Hv) as (b & -> & Hb & _); by exists b].
    unfold bits_value. case_bool_decide; [done|]. intros [= <-]. by exists b.
Qed.

Lemma late_prio (n : nsCollBlk) : (forall t, holds m' GPrio n t <-> t ∈ eff m GPrio P n) /\ (forall v, m' !! SPrio n = Some v -> exists b : BitSet, v = Marshal b /\ b <> ∅).
Proof. apply (late_changed P GPrio). unfold m'. by rewrite late_lookup. Qed.

Lemma late_deprio (n : nsCollBlk) : (forall t, holds m' GDeprio n t <-> t ∈ eff m GDeprio Q n) /\ (forall v, m' !! SDeprio n = Some v -> exists b : BitSet, v = Marshal b /\ b <> ∅).
Proof. apply (late_changed Q GDeprio). unfold m'. by rewrite late_lookup. Qed.

Lemma late_inelg (n : nsCollBlk) : m' !! SInelg n = m !! SInelg n.
Proof. unfold m'. by rewrite late_lookup. Qed.

Lemma holds_elg (n : nsCollBlk) (t : Z) : holds m GPrio n t \/ holds m GDeprio n t -> (n, t) ∈ sp_elg sp.
Proof.
  intros [(b & Eb & Ht)|(b & Eb & Ht)].
  - destruct (mi_missing _ _ _ HI GPrio _ _ Eb) as (b' & E' & _ & Hb). apply Marshal_inj in E'. subst. by apply Hb.
  - destruct (mi_missing _ _ _ HI GDeprio _ _ Eb) as (b' & E' & _ & Hb). apply Marshal_inj in E'. subst. by apply Hb.
Qed.

Lemma some_sched (g : group) (n : nsCollBlk) (e : Z) : is_Some (m !! SG g n) -> expiring n = Ret e -> neverExpires e = false ->
  exists ed, m !! SExpiry (mkexpiryKey e (nc_blkNum n)) = Some (Marshal ed) /\ lists_missing (mkexpiryKey e (nc_blkNum n)) ed n.
Proof. intros [v Hv]. by apply (mi_msched _ _ _ HI g n v). Qed.

(** Late data that is recorded as missing is accepted. *)
Lemma holds_accepted (k : dataKey) : has_policy (dt_nsCollBlk k) -> holds m GPrio (dt_nsCollBlk k) (dt_txNum k) \/ holds m GDeprio (dt_nsCollBlk k) (dt_txNum k) -> accepted m k = true.
Proof.
  intros [e Ee] Hh. unfold accepted, expiring. rewrite Ee. destruct (neverExpires e) eqn:Hf; [done|]. cbn [orb].
  assert (Hs : exists g, is_Some (m !! SG g (dt_nsCollBlk k))) by (destruct Hh as [(b & Eb & _)|(b & Eb & _)]; [exists GPrio|exists GDeprio]; by eexists).
  destruct Hs as [g Hg]. destruct (some_sched g _ e Hg Ee Hf) as (ed & Ex & _). unfold exp_key. by rewrite Ex.
Qed.

Lemma stored_accepted (k : dataKey) (v : bytes) : m !! SData k = Some v -> accepted m k = true.
Proof.
  intros Hv. destruct (mi_data _ _ _ HI _ _ Hv) as (w & Hw & _). destruct (mi_wf _ _ _ HI _ _ Hw) as [_ [e Ee]]. unfold accepted, expiring. rewrite Ee.
  destruct (neverExpires e) eqn:Hf; [done|]. destruct (mi_sched _ _ _ HI _ _ _ Hv Ee Hf) as (ed & Ex & _). unfold exp_key. by rewrite Ex.
Qed.

Lemma known_accepted (k : dataKey) : k ∈ l.*1 -> expired_at (h - 1) (dt_nsCollBlk k) = false -> accepted m k = true.
Proof.
  intros Hk Hexp. destruct (lo_data _ _ _ Hok k Hk) as (_ & [e Ee] & Hn). rewrite (expired_at_true _ _ e Ee) in Hexp. unfold accepted, expiring. rewrite Ee.
  destruct (neverExpires e) eqn:Hf; [done|]. destruct (mi_known _ _ _ HI _ e Hn Ee Hf ltac:(lia)) as [v Ev]. unfold exp_key. by rewrite Ev.
Qed.

Lemma late_source (g : group) (n : nsCollBlk) (v : bytes) : m' !! SG g n = Some v -> exists g', is_Some (m !! SG g' n).
Proof.
  destruct (lm_src _ _ _ _ _ HL) as [H1 H2]. unfold m'. rewrite late_lookup. destruct g; cbn [SG].
  - destruct (P !! n) as [b|] eqn:Ep; intros Hv; exists GPrio; [apply H1; by rewrite Ep|by eexists].
  - destruct (Q !! n) as [b|] eqn:Eq; intros Hv; [|exists GDeprio; by eexists]. destruct (H2 n) as [H|H]; [by rewrite Eq|by exists GPrio|by exists GDeprio].
  - intros Hv. exists GInelg. by eexists.
Qed.

Lemma late_elg (n : nsCollBlk) (t : Z) : t ∈ eff m GPrio P n \/ t ∈ eff m GDeprio Q n -> (n, t) ∈ sp_elg sp'.
Proof.
  intros H. destruct (lm_only _ _ _ _ _ HL n t H) as [[Hh Hr]|Hl]; [|by apply (lo_list _ _ _ Hok)].
  cbn [sp' late_spec sp_elg]. apply elem_of_difference. split; [by apply holds_elg|]. rewrite elem_of_list_to_set. intros (k & Ek & Hk)%list_elem_of_fmap.
  apply Hr. apply list_elem_of_fmap. exists k. split; [done|]. injection Ek as -> ->. destruct (lo_data _ _ _ Hok k Hk) as (_ & Hp & _).
  pose proof (holds_accepted k Hp Hh) as Ha. destruct (data_map_some l k Hk) as [w Hw]. apply list_elem_of_fmap. exists (k, w). split; [done|].
  apply elem_of_map_to_list. by rewrite HD, Ha.
Qed.

Lemma late_map_inv : map_inv h m' sp'.
Proof.
  assert (Hdat : forall k, m' !! SData k = match D !! k with Some w => Some (Marshal w) | None => m !! SData k end) by (intros k; unfold m'; by rewrite late_lookup).
  split.
  - intros k v. rewrite Hdat, HD. cbn [sp' late_spec sp_data]. setoid_rewrite lookup_union_Some_raw. destruct (accepted m k) eqn:Ha.
    + destruct (data_map l !! k) as [w|]; [intros [= <-]; exists w; by split; [left|]|]. intros Hv. destruct (mi_data _ _ _ HI _ _ Hv) as (w & Ew & ->). exists w. by split; [right|].
    + intros Hv. destruct (mi_data _ _ _ HI _ _ Hv) as (w & Ew & ->). by rewrite (stored_accepted k _ Hv) in Ha.
  - intros k w Hw Hexp. rewrite Hdat, HD. apply lookup_union_Some_raw in Hw as [Hw|[Hw Ho]].
    + rewrite Hw. destruct (accepted m k) eqn:Ha; [done|]. exfalso. rewrite (known_accepted k) in Ha; [done| |done].
      apply data_map_elem in Hw. apply list_elem_of_fmap. by exists (k, w).
    + rewrite Hw. destruct (accepted m k); by apply (mi_live _ _ _ HI).
  - intros k w [Hw|[_ Hw]]%lookup_union_Some_raw; [|by eapply (mi_wf _ _ _ HI)]. apply data_map_elem in Hw.
    destruct (lo_data _ _ _ Hok k) as (H1 & H2 & _); [|done]. apply list_elem_of_fmap. by exists (k, w).
  - intros x v. unfold m'. rewrite late_lookup. destruct (E !! x) as [o|] eqn:Eo; [|by apply (mi_entry _ _ _ HI)].
    destruct (le_ok _ _ _ HE _ _ Eo) as [-> Ho]. destruct (le_old _ _ _ HE _ _ Eo) as (ed0 & E0 & _). intros [= <-]. eexists. split; [done|]. split; [done|].
    by destruct (mi_entry _ _ _ HI _ _ E0) as (_ & _ & _ & ?).
  - intros k v e. rewrite Hdat. destruct (D !! k) as [w|] eqn:Ed; intros Hv Ee Hf.
    + rewrite HD in Ed. destruct (accepted m k) eqn:Ha; [|done]. assert (Hk : k ∈ l.*1) by (apply data_map_elem in Ed; apply list_elem_of_fmap; by exists (k, w)).
      pose proof (le_new _ _ _ HE k e Hk Ha Ee Hf) as Hl. exists (ed_at E (exp_key k e)). split; [|done]. unfold m'. rewrite late_lookup.
      destruct (E !! _) as [o|] eqn:Eo; [by destruct (le_ok _ _ _ HE _ _ Eo) as [-> _]|]. exfalso. unfold ed_at in Hl. unfold exp_key in Hl. rewrite Eo in Hl. by apply (proj1 (lists_nothing _)) in Hl.
    + destruct (mi_sched _ _ _ HI _ _ _ Hv Ee Hf) as (ed & Ex & Hl). destruct (late_entry_kept _ _ Ex) as (ed' & Ex' & Hd & _). exists ed'. split; [done|by apply Hd].
  - intros g n v Hv. assert (Hb : exists b : BitSet, v = Marshal b /\ b <> ∅).
    { destruct g; cbn [SG] in Hv; [by apply (late_prio n)|by apply (late_deprio n)|]. rewrite late_inelg in Hv. destruct (mi_missing _ _ _ HI GInelg _ _ Hv) as (b & -> & Hb & _). by exists b. }
    destruct Hb as (b & -> & Hb). exists b. split; [done|]. split; [done|]. intros t Ht. destruct g; cbn [SG sp_missing] in *.
    + apply late_elg. left. apply late_prio. by exists b.
    + apply late_elg. right. apply late_deprio. by exists b.
    + rewrite late_inelg in Hv. destruct (mi_missing _ _ _ HI GInelg _ _ Hv) as (b' & Eb & _ & Hi). apply Marshal_inj in Eb. subst b'. by apply Hi.
  - intros g n t Hin. apply (mi_bound _ _ _ HI g n t). destruct g; cbn in *; set_solver.
  - intros g n v e Hv Ee Hf. assert (Hg : exists g', is_Some (m !! SG g' n)) by (by apply (late_source g n v)). destruct Hg as [g' Hg'].
    destruct (some_sched g' n e Hg' Ee Hf) as (ed & Ex & Hl). destruct (late_entry_kept _ _ Ex) as (ed' & Ex' & _ & Hm). exists ed'. split; [done|by apply Hm].
  - intros n t H1%late_prio H2%late_deprio. by apply (lm_excl _ _ _ _ _ HL n t).
  - intros n. rewrite late_inelg. intros Hs. destruct (mi_sep _ _ _ HI n Hs) as [N1 N2]. destruct (lm_src _ _ _ _ _ HL) as [S1 S2]. unfold m'. rewrite !late_lookup, N1, N2.
    destruct (P !! n) as [b|] eqn:Ep; [destruct (S1 n) as [v Hv]; [by eexists|congruence]|].
    destruct (Q !! n) as [b|] eqn:Eq; [destruct (S2 n) as [[v Hv]|[v Hv]]; [by eexists|congruence..]|done].
  - intros c. unfold m'. rewrite late_lookup. apply (mi_event _ _ _ HI).
  - exact (mi_event_ok _ _ _ HI).
  - intros n t Hin Hexp. cbn [sp' late_spec sp_elg] in Hin. apply elem_of_difference in Hin as [Hin Hno]. rewrite elem_of_list_to_set in Hno.
    destruct (lm_kept _ _ _ _ _ HL n t) as [H|H]; [by apply (mi_elg _ _ _ HI)| |left; by apply late_prio|right; by apply late_deprio].
    intros (k & Ek & Hk)%list_elem_of_fmap. apply Hno. apply list_elem_of_fmap. exists k. split; [done|].
    apply list_elem_of_fmap in Hk as ([k' w] & -> & Hk). apply elem_of_map_to_list in Hk. rewrite HD in Hk. destruct (accepted m k'); [|done].
    apply data_map_elem in Hk. apply list_elem_of_fmap. by exists (k', w).
  - intros n t Hin Hexp. destruct (mi_inelg _ _ _ HI n t Hin Hexp) as (b & Eb & Ht). exists b. split; [|done]. cbn [SG]. by rewrite late_inelg.
  - intros n e Hn Ee Hf Hle. destruct (mi_known _ _ _ HI n e Hn Ee Hf Hle) as [v Ev]. destruct (mi_entry _ _ _ HI _ _ Ev) as (ed & -> & _).
    destruct (late_entry_kept _ _ Ev) as (ed' & -> & _). by eexists.
Qed.

End LateInv.

(** ** The store *)

Lemma late_enc (D : gmap dataKey CollectionPvtReadWriteSet) (E : gmap expiryKey ExpiryData) (P Q : gmap nsCollBlk BitSet) :
  data_puts (map_to_list D) ++ expiry_puts (map_to_list E) ++ missing_updates elgPrioritizedMissingDataGroup P ++
    missing_updates elgDeprioritizedMissingDataGroup Q ++ [] = enc_batch (late_batch D E P Q).
Proof.
  unfold late_batch. rewrite !enc_batch_app, app_nil_r. unfold data_puts, expiry_puts, missing_updates, enc_batch, seg. rewrite <- !list_fmap_compose.
  f_equal; [apply list_fmap_ext; by intros ? [? ?] _|]. f_equal; [apply list_fmap_ext; by intros ? [? ?] _|].
  f_equal; apply list_fmap_ext; by intros ? [? ?] _.
Qed.

Lemma late_batch_wf (db : kvmap) (m : gmap skey bytes) (l : list (dataKey * CollectionPvtReadWriteSet)) (R lst : list (nsCollBlk * Z))
    (D : gmap dataKey CollectionPvtReadWriteSet) (E : gmap expiryKey ExpiryData) (P Q : gmap nsCollBlk BitSet) :
  store_map db m -> (forall k, k ∈ l.*1 -> dt_wf k) -> accepted_map m l D -> late_entries m l.*1 E -> late_missing m R lst P Q ->
  Forall (fun u => skey_wf (fst u)) (late_batch D E P Q).
Proof.
  intros Hs Hl HD HE HL. apply Forall_forall. intros [k o] Hin. unfold late_batch in Hin. rewrite !elem_of_app, !seg_elem in Hin. cbn [fst].
  destruct (lm_src _ _ _ _ _ HL) as [H1 H2].
  destruct Hin as [(a & v & Hin & -> & _)|[(a & v & Hin & -> & _)|[(a & v & Hin & -> & _)|(a & v & Hin & -> & _)]]]; cbn [skey_wf]; apply elem_of_map_to_list in Hin.
  - apply Hl. rewrite HD in Hin. destruct (accepted m a); [|done]. apply data_map_elem in Hin. apply list_elem_of_fmap. by exists (a, v).
  - apply (eo_wf _ _ (proj2 (le_ok _ _ _ HE _ _ Hin))).
  - destruct (H1 a) as [v' Hv]; [by eexists|]. apply (sm_wf _ _ Hs _ _ Hv).
  - destruct (H2 a) as [[v' Hv]|[v' Hv]]; [by eexists|apply (sm_wf _ _ Hs _ _ Hv)..].
Qed.

Lemma late_commit_ok (s : Store) (sp : pvt_spec) (blocks : gmap Z (list TxPvtData)) (unreconciled : MissingPvtDataInfo) :
  pvt_inv s sp -> (forall b d, blocks !! b = Some d -> Forall (fun t => is_Some (WriteSet t)) d) ->
  late_ok (late_list blocks) (prioritized_list unreconciled) sp ->
  exists db, Store_CommitPvtDataOfOldBlocks blocks unreconciled s = (Ret tt, with_db db s) /\ pvt_inv (with_db db s) (late_spec (late_list blocks) sp).
Proof.
  intros [Hf [m Hm]] Hw Hok. pose proof (pm_map _ _ _ Hm) as Hs. pose proof (pm_inv _ _ _ Hm) as HI. set (h := LastCommittedBlockHeight s) in *.
  assert (Hl : forall k, k ∈ (late_list blocks).*1 -> dt_wf k /\ has_policy (dt_nsCollBlk k)) by (intros k Hk; by destruct (lo_data _ _ _ Hok k Hk) as (? & ? & _)).
  destruct (prepare_late_ok _ m h sp Hs HI _ Hl) as (D & E & E1 & HD & HE).
  assert (HDk : forall k, k ∈ (map_to_list D).*1 -> dt_wf k).
  { intros k ([k' w] & -> & Hin)%list_elem_of_fmap. apply elem_of_map_to_list in Hin. rewrite HD in Hin. destruct (accepted m k'); [|done].
    apply data_map_elem in Hin. apply Hl. apply list_elem_of_fmap. by exists (k', w). }
  destruct (reconciled_ok _ m h sp Hs HI _ HDk) as (P1 & Q1 & E2 & HL1). destruct (priority_ok _ m h sp Hs HI (tx_key <$> (map_to_list D).*1) (prioritized_list unreconciled) P1 Q1) as (P & Q & E3 & HL); [|done|].
  { intros n t Hin. apply (lo_list _ _ _ Hok) in Hin. cbn in Hin. apply elem_of_difference in Hin as [Hin _]. apply (mi_bound _ _ _ HI GPrio _ _ Hin). }
  exists (DB_WriteBatch (enc_batch (late_batch D E P Q)) (ps_db s)). split.
  - assert (Ep : prepareDataAndExpiryEntries (ps_db s) blocks = Ret (D, E)).
    { unfold prepareDataAndExpiryEntries. rewrite old_data_entries_ok; [exact E1|]. apply Forall_forall. intros [b d] Hin. apply (Hw b). by apply elem_of_map_to_list. }
    unfold Store_CommitPvtDataOfOldBlocks, mbind, M_bind, get_state, put_state, lift_outcome. rewrite (pf_old _ Hf), Ep, E2, E3.
    unfold boot_deletions. rewrite (pf_snapshot _ Hf). cbn [negb]. by rewrite late_enc.
  - split; [by destruct Hf|]. exists (upd (late_batch D E P Q) m). split; [| |rewrite late_lookup; apply Hm..].
    + apply store_map_batch; [done|]. eapply late_batch_wf; [done|intros k Hk; by apply (Hl k)|done|done|exact HL].
    + by apply (late_map_inv _ m sp _ (prioritized_list unreconciled)).
Qed.

End Late.
