(* ===== verification/PvtStoreElg.v ===== *)
(** * Eligibility and restart of the private data store

    When a peer becomes eligible for a collection, what is missing of it moves from the
    ineligible group to the one that is asked for first ([processCollElgEvents]).  The
    store reads its last block from the database when it is opened ([OpenStore]). *)

From S2P Require Import Prelude Wire Varint OrderedCode GoOS LevelDB Proto StateProto BatchPreparer PurgeMgr PurgeMgrOk PvtStore PvtStoreOk PvtStoreInv PvtStoreCommit PvtStoreRead PvtStoreLate.

(** ** Ranges *)

Lemma prefix_range (p a b x : bytes) : bytes_leb (p ++ a) x = true -> bytes_ltb x (p ++ b) = true -> exists y, x = p ++ y.
Proof.
  revert x. induction p as [|c p IH]; intros x H1 H2; [by exists x|]. destruct x as [|d x]; [done|]. unfold bytes_leb, bytes_ltb in *. cbn [app bytes_compare] in *.
  destruct (Z.compare_spec (b2z c) (b2z d)) as [E|E|E]; [|rewrite (proj2 (Z.compare_gt_iff _ _)) in H2 by done; done|done].
  rewrite E, Z.compare_refl in H2. apply b2z_inj in E. subst d. destruct (IH x H1 H2) as [y ->]. by exists y.
Qed.

Lemma cut_inj (a b a' b' : bytes) (c : byte) : c ∉ a -> c ∉ a' -> a ++ c :: b = a' ++ c :: b' -> a = a' /\ b = b'.
Proof. intros Ha Ha' E. apply (f_equal (cut [c])) in E. rewrite !cut_byte in E by done. by injection E. Qed.

Definition inelg_of (ns coll : bytes) (c : Z) (n : nsCollBlk) : bool :=
  bool_decide (nc_ns n = ns) && bool_decide (nc_coll n = coll) && (0 <? nc_blkNum n) && (nc_blkNum n <=? c).

Definition inelg_prefix (ns coll : bytes) : bytes := inelgMissingDataGroup ++ ns ++ nilByte :: coll ++ [nilByte].

Lemma inelg_key_prefix (n : nsCollBlk) : encodeInelgMissingDataKey n = inelg_prefix (nc_ns n) (nc_coll n) ++ encodeReverseOrderVarUint64 (nc_blkNum n).
Proof. unfold encodeInelgMissingDataKey, inelg_prefix. rewrite <- !app_assoc. do 2 f_equal. cbn [app]. f_equal. by rewrite <- app_assoc. Qed.

Lemma inelg_range (ns coll : bytes) (c : Z) (k : skey) :
  nilByte ∉ ns -> nilByte ∉ coll -> is_u64 c -> skey_wf k ->
  bytes_leb (fst (createRangeScanKeysForInelgMissingData c ns coll)) (enc k) && bytes_ltb (enc k) (snd (createRangeScanKeysForInelgMissingData c ns coll)) = true <->
  exists n, k = SInelg n /\ inelg_of ns coll c n = true.
Proof.
  intros Hns Hcoll Hc Hk. cbn [fst snd createRangeScanKeysForInelgMissingData]. rewrite !inelg_key_prefix. cbn [nc_ns nc_coll nc_blkNum].
  assert (Hcmp : forall n, nc_wf n -> nc_ns n = ns -> nc_coll n = coll ->
    bytes_leb (inelg_prefix ns coll ++ encodeReverseOrderVarUint64 c) (encodeInelgMissingDataKey n) &&
    bytes_ltb (encodeInelgMissingDataKey n) (inelg_prefix ns coll ++ encodeReverseOrderVarUint64 0) = (nc_blkNum n <=? c) && (0 <? nc_blkNum n)).
  { intros n (_ & _ & Hb) <- <-. rewrite inelg_key_prefix, bytes_leb_app, bytes_ltb_app. pose proof (reverse_leb c (nc_blkNum n) [] Hc Hb) as E1.
    pose proof (reverse_ltb (nc_blkNum n) [] Hb) as E2. rewrite app_nil_r in E1, E2. by rewrite E1, E2. }
  split.
  - intros H. pose proof H as [H1 H2]%andb_true_iff. destruct (prefix_range _ _ _ _ H1 H2) as [y Ey].
    destruct k as [ | | | | | | | |n| |]; try discriminate Ey. exists n. split; [done|]. cbn [enc skey_wf] in *. rewrite inelg_key_prefix in Ey.
    unfold inelg_prefix in Ey. rewrite <- !app_assoc in Ey. apply app_inv_head in Ey. cbn [app] in Ey. destruct Hk as (Hn1 & Hn2 & Hb).
    apply cut_inj in Ey as [E1 Ey]; [|done|done]. rewrite <- !app_assoc in Ey. cbn [app] in Ey. apply cut_inj in Ey as [E2 _]; [|done|done].
    rewrite Hcmp in H by done. unfold inelg_of. rewrite !bool_decide_eq_true_2 by done. by rewrite andb_comm.
  - intros (n & -> & Hn). unfold inelg_of in Hn. apply andb_true_iff in Hn as [[[E1 E2]%andb_true_iff H3]%andb_true_iff H4]. apply bool_decide_eq_true_1 in E1, E2.
    cbn [enc]. rewrite Hcmp by done. by rewrite H3, H4.
Qed.

Lemma elg_range (k : skey) :
  skey_wf k -> bytes_leb (fst createRangeScanKeysForCollElg) (enc k) && bytes_ltb (enc k) (snd createRangeScanKeysForCollElg) = true <-> exists c, k = SElg c /\ (0 <? c) = true.
Proof.
  intros Hk. cbn [fst snd createRangeScanKeysForCollElg]. unfold encodeCollElgKey.
  assert (Hcmp : forall c, is_u64 c -> bytes_leb (collElgKeyPrefix ++ encodeReverseOrderVarUint64 MaxUint64) (encodeCollElgKey c) &&
    bytes_ltb (encodeCollElgKey c) (collElgKeyPrefix ++ encodeReverseOrderVarUint64 0) = (0 <? c)).
  { intros c Hc. unfold encodeCollElgKey. rewrite bytes_leb_app, bytes_ltb_app. pose proof (reverse_leb MaxUint64 c [] ltac:(done) Hc) as E1.
    pose proof (reverse_ltb c [] Hc) as E2. rewrite app_nil_r in E1, E2. rewrite E1, E2. unfold is_u64, MaxUint64 in *. by rewrite (proj2 (Z.leb_le _ _)) by lia. }
  split.
  - intros H. pose proof H as [H1 H2]%andb_true_iff. destruct (prefix_range _ _ _ _ H1 H2) as [y Ey]. destruct k; try discriminate Ey. eexists. split; [done|]. by rewrite <- Hcmp.
  - intros (c & -> & Hc). cbn [enc]. by rewrite Hcmp.
Qed.

Section Elg.
Context {PP : PvtStoreProtos} {PO : PvtStoreProtosOk} {BP : BTLPolicy} {BO : BTLPolicyOk}.

(** ** Moving entries *)

(** The collections of blocks [Mv] have moved and the events [Ev] are gone. *)
Definition moved (Mv : gset nsCollBlk) (Ev : gset Z) (m0 m : gmap skey bytes) : Prop := forall k, m !! k =
  match k with
  | SInelg n => if decide (n ∈ Mv) then None else m0 !! k
  | SPrio n => if decide (n ∈ Mv) then m0 !! SInelg n else m0 !! k
  | SElg c => if decide (c ∈ Ev) then None else m0 !! k
  | _ => m0 !! k
  end.

(** The batch that is being built, on top of what has been written of it. *)
Definition converting (m0 : gmap skey bytes) (Mv : gset nsCollBlk) (Ev : gset Z) (b : batch) (db : kvmap) : Prop :=
  exists us m Mv' Ev', b = enc_batch us /\ Forall (fun u => skey_wf (fst u)) us /\ store_map db m /\
    moved Mv' Ev' m0 m /\ Mv' ⊆ Mv /\ moved Mv Ev m0 (upd us m).

Lemma converting_start (m0 : gmap skey bytes) (db : kvmap) : store_map db m0 -> converting m0 ∅ ∅ [] db.
Proof.
  intros Hs. assert (H : moved ∅ ∅ m0 m0) by (intros []; try done; by rewrite decide_False by set_solver). exists [], m0, ∅, ∅. by split_and!.
Qed.

Lemma converting_flush (m0 : gmap skey bytes) (Mv : gset nsCollBlk) (Ev : gset Z) (b : batch) (db : kvmap) :
  converting m0 Mv Ev b db -> converting m0 Mv Ev [] (DB_WriteBatch b db).
Proof.
  intros (us & m & Mv' & Ev' & -> & Hw & Hs & _ & _ & Hm). exists [], (upd us m), Mv, Ev. split; [done|]. split; [done|]. split; [by apply store_map_batch|]. by split_and!.
Qed.

Lemma converting_move (m0 : gmap skey bytes) (Mv : gset nsCollBlk) (Ev : gset Z) (b : batch) (db : kvmap) (n : nsCollBlk) (v : bytes) :
  converting m0 Mv Ev b db -> nc_wf n -> m0 !! SInelg n = Some v ->
  converting m0 ({[n]} ∪ Mv) Ev (b ++ [(encodeInelgMissingDataKey n, None); (encodeElgPrioMissingDataKey n, Some v)]) db.
Proof.
  intros (us & m & Mv' & Ev' & -> & Hw & Hs & Hm' & Hsub & Hm) Hn Hv. exists (us ++ [(SInelg n, None); (SPrio n, Some v)]), m, Mv', Ev'.
  split; [by rewrite enc_batch_app|]. split; [apply Forall_app; split; [done|]; by rewrite !Forall_cons, Forall_nil|]. split; [done|]. split; [done|]. split; [set_solver|].
  intros k. rewrite upd_app. cbn. unfold upd1. cbn [fst snd]. specialize (Hm k). destruct k as [ | | | |d|x|n'|n'|n'|z|bk]; rewrite ?lookup_insert_ne, ?lookup_delete_ne by done; try exact Hm.
  - destruct (decide (n = n')) as [<-|Hne]; [rewrite lookup_insert_eq, decide_True by set_solver; done|]. rewrite lookup_insert_ne, lookup_delete_ne, Hm by congruence.
    destruct (decide (n' ∈ Mv)); [by rewrite decide_True by set_solver|by rewrite decide_False by set_solver].
  - destruct (decide (n = n')) as [<-|Hne]; [rewrite lookup_delete_eq, decide_True by set_solver; done|]. rewrite lookup_delete_ne, Hm by congruence.
    destruct (decide (n' ∈ Mv)); [by rewrite decide_True by set_solver|by rewrite decide_False by set_solver].
Qed.

Lemma converting_event (m0 : gmap skey bytes) (Mv : gset nsCollBlk) (Ev : gset Z) (b : batch) (db : kvmap) (c : Z) :
  converting m0 Mv Ev b db -> is_u64 c -> converting m0 Mv ({[c]} ∪ Ev) (b ++ [(encodeCollElgKey c, None)]) db.
Proof.
  intros (us & m & Mv' & Ev' & -> & Hw & Hs & Hm' & Hsub & Hm) Hc. exists (us ++ [(SElg c, None)]), m, Mv', Ev'.
  split; [by rewrite enc_batch_app|]. split; [apply Forall_app; split; [done|]; by rewrite !Forall_cons, Forall_nil|]. split; [done|]. split; [done|]. split; [done|].
  intros k. rewrite upd_app. cbn. unfold upd1. cbn [fst snd]. specialize (Hm k). destruct k as [ | | | |d|x|n'|n'|n'|z|bk]; rewrite ?lookup_delete_ne by done; try exact Hm.
  destruct (decide (c = z)) as [<-|Hne]; [rewrite lookup_delete_eq, decide_True by set_solver; done|]. rewrite lookup_delete_ne, Hm by congruence.
  destruct (decide (z ∈ Ev)); [by rewrite decide_True by set_solver|by rewrite decide_False by set_solver].
Qed.

Lemma convert_entries_ok (maxBatchSize : Z) (m0 : gmap skey bytes) (l : list (nsCollBlk * bytes)) (Mv : gset nsCollBlk) (Ev : gset Z) (b : batch) (db : kvmap) :
  (forall n v, (n, v) ∈ l -> nc_wf n /\ m0 !! SInelg n = Some v) -> converting m0 Mv Ev b db ->
  exists b' db', convert_entries id maxBatchSize ((fun '(n, v) => (encodeInelgMissingDataKey n, v)) <$> l) b db = Ret (b', db') /\
    converting m0 (list_to_set l.*1 ∪ Mv) Ev b' db'.
Proof.
  revert Mv b db. induction l as [|[n v] l IH]; intros Mv b db Hl Hc; cbn [fmap list_fmap convert_entries].
  - exists b, db. split; [done|]. cbn. by rewrite union_empty_l_L.
  - destruct (Hl n v) as [Hn Hv]; [by left|]. rewrite decodeInelg_encode by done. cbn [mbind outcome_bind].
    apply (converting_move _ _ _ _ _ n v) in Hc; [|done|done]. cbn [list_to_set]. rewrite (union_comm_L {[n]}), <- union_assoc_L.
    destruct (maxBatchSize <? _); apply IH; try (intros; apply Hl; by right); [by apply converting_flush|done].
Qed.

(** What moves for a collection. *)
Definition moves (m0 : gmap skey bytes) (c : Z) (colls : list (bytes * bytes)) (n : nsCollBlk) : Prop :=
  is_Some (m0 !! SInelg n) /\ (nc_ns n, nc_coll n) ∈ colls /\ 0 < nc_blkNum n <= c.

Lemma convert_coll_ok (maxBatchSize : Z) (m0 : gmap skey bytes) (c : Z) (ns coll : bytes) (Mv : gset nsCollBlk) (Ev : gset Z) (b : batch) (db : kvmap) :
  nilByte ∉ ns -> nilByte ∉ coll -> is_u64 c -> converting m0 Mv Ev b db ->
  let '(startKey, endKey) := createRangeScanKeysForInelgMissingData c ns coll in
  exists b' db' Mv', convert_entries id maxBatchSize (range_scan db startKey (Some endKey)) b db = Ret (b', db') /\
    converting m0 Mv' Ev b' db' /\ forall n, n ∈ Mv' <-> n ∈ Mv \/ moves m0 c [(ns, coll)] n.
Proof.
  intros Hns Hcoll Hc Hconv. pose proof Hconv as (us & m & Mv1 & Ev1 & _ & _ & Hs & Hm & Hsub & _).
  destruct (store_scan SInelg (inelg_of ns coll c) db m _ _ Hs (fun k Hk => inelg_range ns coll c k Hns Hcoll Hc Hk)) as (l & El & Hl & Hl' & _ & _).
  destruct (createRangeScanKeysForInelgMissingData c ns coll) as [sk ek]. cbn [fst snd] in El. rewrite El.
  assert (Hof : forall n, inelg_of ns coll c n = true <-> (nc_ns n, nc_coll n) ∈ [(ns, coll)] /\ 0 < nc_blkNum n <= c).
  { intros n. unfold inelg_of. rewrite !andb_true_iff, !bool_decide_eq_true, list_elem_of_singleton. split; [intros [[[-> ->] ?] ?]; split; [done|lia]|].
    intros [[= -> ->] ?]. repeat split; lia. }
  assert (Hin : forall n v, (n, v) ∈ l -> nc_wf n /\ m0 !! SInelg n = Some v /\ inelg_of ns coll c n = true).
  { intros n v Hin. apply Hl in Hin as (E & Hp & Hw). split; [done|]. split; [|done]. rewrite (Hm (SInelg n)) in E. by destruct (decide (n ∈ Mv1)). }
  destruct (convert_entries_ok maxBatchSize m0 l Mv Ev b db) as (b' & db' & E & Hc'); [intros n v Hnv; by destruct (Hin n v Hnv) as (? & ? & _)|done|].
  exists b', db', (list_to_set l.*1 ∪ Mv). split; [exact E|]. split; [done|]. intros n. rewrite elem_of_union, elem_of_list_to_set. split.
  - intros [([n' v] & -> & Hn)%list_elem_of_fmap|Hn]; [right|by left]. destruct (Hin n' v Hn) as (_ & Hv & Hp). split; [by eexists|]. by apply Hof.
  - intros [Hn|([v Hv] & Hp)]; [by right|]. destruct (decide (n ∈ Mv1)) as [Hn1|Hn1]; [right; by apply Hsub|left].
    assert (Ev' : m !! SInelg n = Some v) by (rewrite (Hm (SInelg n)); by rewrite decide_False). destruct (Hl' n v Ev' (proj2 (Hof n) Hp)) as (n' & [= ->] & Hin').
    apply list_elem_of_fmap. by exists (n, v).
Qed.

Lemma convert_colls_ok (maxBatchSize : Z) (m0 : gmap skey bytes) (c : Z) (colls : list (bytes * bytes)) (Mv : gset nsCollBlk) (Ev : gset Z) (b : batch) (db : kvmap) :
  (forall ns coll, (ns, coll) ∈ colls -> nilByte ∉ ns /\ nilByte ∉ coll) -> is_u64 c -> converting m0 Mv Ev b db ->
  exists b' db' Mv', convert_colls id maxBatchSize c colls b db = Ret (b', db') /\ converting m0 Mv' Ev b' db' /\ forall n, n ∈ Mv' <-> n ∈ Mv \/ moves m0 c colls n.
Proof.
  intros Hcolls Hc. revert Mv b db. induction colls as [|[ns coll] colls IH]; intros Mv b db Hconv; cbn [convert_colls].
  - exists b, db, Mv. split; [done|]. split; [done|]. intros n. split; [by left|]. intros [H|(_ & H%not_elem_of_nil & _)]; done.
  - destruct (Hcolls ns coll) as [Hns Hcoll]; [by left|]. pose proof (convert_coll_ok maxBatchSize m0 c ns coll Mv Ev b db Hns Hcoll Hc Hconv) as H1.
    destruct (createRangeScanKeysForInelgMissingData c ns coll) as [sk ek]. destruct H1 as (b1 & db1 & Mv1 & E1 & Hc1 & HM1). rewrite E1. cbn [mbind outcome_bind].
    destruct (IH ltac:(intros; apply Hcolls; by right) Mv1 b1 db1 Hc1) as (b2 & db2 & Mv2 & E2 & Hc2 & HM2). exists b2, db2, Mv2. split; [done|]. split; [done|].
    intros n. rewrite HM2, HM1. unfold moves. rewrite list_elem_of_singleton, elem_of_cons. tauto.
Qed.

(** ** Events *)

Definition event_colls (info : CollElgInfo) : list (bytes * bytes) := map_to_list info ≫= fun '(ns, colls) => (fun coll => (ns, coll)) <$> colls.

Lemma event_colls_ok (info : CollElgInfo) (ns coll : bytes) : elg_ok info -> (ns, coll) ∈ event_colls info -> nilByte ∉ ns /\ nilByte ∉ coll.
Proof.
  intros Hok ([ns' colls] & Hc & Hin)%list_elem_of_bind. apply elem_of_map_to_list in Hin. apply list_elem_of_fmap in Hc as (coll' & [= -> ->] & Hc). by eapply Hok.
Qed.

Lemma process_events_ok (maxBatchSize : Z) (m0 : gmap skey bytes) (l : list (Z * CollElgInfo)) (Mv : gset nsCollBlk) (Ev : gset Z) (b : batch) (db : kvmap) :
  (forall c info, (c, info) ∈ l -> is_u64 c /\ elg_ok info) -> converting m0 Mv Ev b db ->
  exists b' db' Mv' Ev', process_events id maxBatchSize ((fun '(c, info) => (encodeCollElgKey c, Marshal info)) <$> l) b db = Ret (b', db') /\ converting m0 Mv' Ev' b' db' /\
    (forall n, n ∈ Mv' <-> n ∈ Mv \/ exists c info, (c, info) ∈ l /\ moves m0 c (event_colls info) n) /\ (forall c, c ∈ Ev' <-> c ∈ Ev \/ c ∈ l.*1).
Proof.
  revert Mv Ev b db. induction l as [|[c info] l IH]; intros Mv Ev b db Hl Hconv; cbn [fmap list_fmap process_events].
  - exists b, db, Mv, Ev. split; [done|]. split; [done|]. split; intros x; (split; [by left|]); [|by intros [?|?%not_elem_of_nil]]. by intros [?|(c & info & ?%not_elem_of_nil & _)].
  - destruct (Hl c info) as [Hc Hok]; [by left|]. rewrite decodeCollElg_encode by done. cbn [mbind outcome_bind]. rewrite Unmarshal_Marshal. fold (event_colls info).
    destruct (convert_colls_ok maxBatchSize m0 c (event_colls info) Mv Ev b db) as (b1 & db1 & Mv1 & E1 & Hc1 & HM1); [intros ns coll; by apply event_colls_ok|done|done|].
    unfold mbind in E1. rewrite E1. apply (converting_event _ _ _ _ _ c) in Hc1; [|done].
    destruct (IH Mv1 ({[c]} ∪ Ev) (b1 ++ [(encodeCollElgKey c, None)]) db1) as (b2 & db2 & Mv2 & Ev2 & E2 & Hc2 & HM2 & HE2); [intros; apply Hl; by right|done|].
    exists b2, db2, Mv2, Ev2. split; [exact E2|]. split; [done|]. split.
    + intros n. rewrite HM2, HM1. setoid_rewrite elem_of_cons. split.
      * intros [[H|H]|(c' & i' & Hin & H)]; [by left|right; exists c, info; tauto|right; exists c', i'; tauto].
      * intros [G|(c' & i' & [Hin|Hin] & G)]; [by left; left| |right; by exists c', i']. injection Hin as -> ->. by left; right.
    + intros c'. rewrite HE2, elem_of_union, elem_of_singleton, elem_of_cons. cbn [fst]. tauto.
Qed.

(** ** The invariant *)

(** What an event makes eligible: the missing data of its collections up to its block.
    The scans for events and for missing data end before the keys of block 0, so that an
    event of block 0 is not processed and missing data of block 0 are not moved. *)
Definition becomes (sp : pvt_spec) (n : nsCollBlk) : Prop :=
  exists c info, sp_events sp !! c = Some info /\ 0 < c /\ (nc_ns n, nc_coll n) ∈ event_colls info /\ 0 < nc_blkNum n <= c.

#[global] Instance becomes_dec (sp : pvt_spec) (n : nsCollBlk) : Decision (becomes sp n).
Proof.
  refine (cast_if (decide (Exists (fun x => 0 < fst x /\ (nc_ns n, nc_coll n) ∈ event_colls (snd x) /\ 0 < nc_blkNum n <= fst x) (map_to_list (sp_events sp))))).
  - abstract (apply Exists_exists in e as ([c info] & Hin & H); apply elem_of_map_to_list in Hin; by exists c, info).
  - abstract (intros (c & info & Hin & H); apply n0, Exists_exists; exists (c, info); split; [by apply elem_of_map_to_list|done]).
Defined.

Definition elg_spec (sp : pvt_spec) : pvt_spec :=
  mkspec (sp_data sp) (sp_elg sp ∪ filter (fun x => becomes sp (fst x)) (sp_inelg sp)) (filter (fun x => ~ becomes sp (fst x)) (sp_inelg sp)) (sp_known sp)
    (filter (fun x => ~ 0 < fst x) (sp_events sp)).

Section Moved.
Context (h : Z) (m m' : gmap skey bytes) (sp : pvt_spec) (Mv : gset nsCollBlk) (Ev : gset Z).
Hypotheses (HI : map_inv h m sp) (Hm : moved Mv Ev m m') (HMv : forall n, n ∈ Mv <-> is_Some (m !! SInelg n) /\ becomes sp n)
  (HEv : forall c, c ∈ Ev <-> is_Some (sp_events sp !! c) /\ 0 < c).

Lemma moved_same (k : skey) : match k with SInelg _ | SPrio _ | SElg _ => False | _ => True end -> m' !! k = m !! k.
Proof. rewrite (Hm k). by destruct k. Qed.

Lemma moved_prio (n : nsCollBlk) : m' !! SPrio n = if decide (n ∈ Mv) then m !! SInelg n else m !! SPrio n.
Proof. apply (Hm (SPrio n)). Qed.

Lemma moved_inelg (n : nsCollBlk) : m' !! SInelg n = if decide (n ∈ Mv) then None else m !! SInelg n.
Proof. apply (Hm (SInelg n)). Qed.

(** Where an entry comes from. *)
Lemma moved_from (g : group) (n : nsCollBlk) (v : bytes) : m' !! SG g n = Some v ->
  (m !! SG g n = Some v /\ (g = GInelg -> ~ becomes sp n)) \/ (g = GPrio /\ m !! SInelg n = Some v /\ becomes sp n).
Proof.
  destruct g; cbn [SG].
  - rewrite moved_prio. destruct (decide (n ∈ Mv)) as [Hn|Hn]; intros Hv; [right; split; [done|]; split; [done|]; by apply HMv|by left].
  - rewrite moved_same by done. by left.
  - rewrite moved_inelg. destruct (decide (n ∈ Mv)) as [Hn|Hn]; [done|]. intros Hv. left. split; [done|]. intros _ Hb. apply Hn, HMv. split; [by eexists|done].
Qed.

Lemma holds_marshal (g : group) (n : nsCollBlk) (t : Z) : holds m g n t -> (n, t) ∈ sp_missing g sp.
Proof. intros (b & E & Ht). destruct (mi_missing _ _ _ HI _ _ _ E) as (b' & E' & _ & Hb). apply Marshal_inj in E'. subst b'. by apply Hb. Qed.

Lemma moved_inv : map_inv h m' (elg_spec sp).
Proof.
  destruct HI as [I1 I2 I3 I4 I5 I6 I7 I8 I9 I10 I11 I12 I13 I14 I15]. split; try (intros *; rewrite ?moved_same by done; eauto; fail).
  - intros g n v Hv. apply moved_from in Hv as [[Hv Hg]|(-> & Hv & Hb)].
    + destruct (I6 _ _ _ Hv) as (b & -> & Hb & Hin). exists b. split; [done|]. split; [done|]. intros t Ht. apply Hin in Ht. destruct g; cbn in *; [set_solver|set_solver|].
      apply elem_of_filter. by split; [apply Hg|].
    + destruct (I6 GInelg _ _ Hv) as (b & -> & Hne & Hin). exists b. split; [done|]. split; [done|]. intros t Ht. cbn. apply elem_of_union_r, elem_of_filter. split; [done|by apply Hin].
  - intros g n t Hin. destruct g; cbn in Hin; [apply elem_of_union in Hin as [Hin|[_ Hin]%elem_of_filter]|apply elem_of_union in Hin as [Hin|[_ Hin]%elem_of_filter]|apply elem_of_filter in Hin as [_ Hin]];
      [by apply (I7 GPrio n t)|by apply (I7 GInelg n t)|by apply (I7 GPrio n t)|by apply (I7 GInelg n t)|by apply (I7 GInelg n t)].
  - intros g n v e Hv Ee Hf. rewrite moved_same by done. apply moved_from in Hv as [[Hv _]|(_ & Hv & _)]; [by apply (I8 g n v)|by apply (I8 GInelg n v)].
  - intros n t (b & E & Ht) (b' & E' & Ht'). cbn [SG] in E'. rewrite moved_same in E' by done. apply moved_from in E as [[E _]|(_ & E & _)].
    + by apply (I9 n t); [exists b|exists b'].
    + destruct (I10 n) as [_ H2]; [by eexists|]. congruence.
  - intros n. rewrite moved_inelg, moved_prio, moved_same by done. destruct (decide (n ∈ Mv)); [by intros [? ?]|apply I10].
  - intros c. rewrite (Hm (SElg c)), I11. cbn [elg_spec sp_events]. destruct (decide (c ∈ Ev)) as [Hc|Hc].
    + rewrite map_lookup_filter_None_2; [done|]. right. intros info _ Hn. apply Hn. cbn. by apply HEv in Hc as [_ ?].
    + f_equal. destruct (sp_events sp !! c) as [info|] eqn:E; symmetry; [|by apply map_lookup_filter_None_2; left]. apply map_lookup_filter_Some_2; [done|]. cbn.
      intros Hlt. apply Hc, HEv. split; [by eexists|done].
  - intros c info [Hc _]%map_lookup_filter_Some. by apply I12.
  - intros n t Hin He. cbn in Hin. apply elem_of_union in Hin as [Hin|[Hb Hin]%elem_of_filter].
    + destruct (I13 n t Hin He) as [(b & E & Ht)|(b & E & Ht)]; [left|right]; exists b; (split; [|done]); cbn [SG].
      * rewrite moved_prio, decide_False; [done|]. intros [Hs _]%HMv. destruct (I10 n Hs) as [H1 _]. cbn [SG] in E. congruence.
      * by rewrite moved_same.
    + left. destruct (I14 n t Hin He) as (b & E & Ht). exists b. split; [|done]. cbn [SG]. rewrite moved_prio, decide_True; [done|]. apply HMv. split; [by eexists|done].
  - intros n t [Hb Hin]%elem_of_filter He. destruct (I14 n t Hin He) as (b & E & Ht). exists b. split; [|done]. cbn [SG]. rewrite moved_inelg, decide_False; [done|]. by intros [_ ?]%HMv.
Qed.

End Moved.

Lemma processCollElgEvents_ok (s : Store) (sp : pvt_spec) :
  pvt_inv s sp -> exists db, processCollElgEvents id s = Ret (with_db db s) /\ pvt_inv (with_db db s) (elg_spec sp).
Proof.
  intros [Hf [m Hm]]. pose proof (pm_map _ _ _ Hm) as Hs. pose proof (pm_inv _ _ _ Hm) as HI. unfold processCollElgEvents.
  destruct (store_scan SElg (fun c => 0 <? c) (ps_db s) m _ _ Hs elg_range) as (l & El & Hl & Hl' & _ & _). destruct createRangeScanKeysForCollElg as [sk ek]. cbn [fst snd] in El. rewrite El.
  destruct (entries_values (fun c info => sp_events sp !! c = Some info /\ 0 < c) l) as (l' & -> & Hent).
  { intros c v Hin. apply Hl in Hin as (E & Hx & _). rewrite (mi_event _ _ _ HI) in E. apply fmap_Some in E as (info & E & ->). exists info. split; [done|]. split; [done|lia]. }
  assert (Hent' : forall c info, sp_events sp !! c = Some info -> 0 < c -> (c, info) ∈ l').
  { intros c info E Hc. destruct (Hl' c (Marshal info)) as (c' & [= ->] & Hin); [by rewrite (mi_event _ _ _ HI), E|lia|].
    apply list_elem_of_fmap in Hin as ([c2 i2] & [= -> E2] & Hin). apply Marshal_inj in E2. by subst. }
  rewrite <- list_fmap_compose. replace (_ <$> l') with ((fun '(c, info) => (encodeCollElgKey c, Marshal info)) <$> l') by (apply list_fmap_ext; by intros ? [? ?] _).
  destruct (process_events_ok (ps_maxBatchSize s) m l' ∅ ∅ [] (ps_db s)) as (b & db & Mv & Ev & E & Hconv & HMv & HEv); [|by apply converting_start|].
  { intros c info Hin. apply Hent in Hin as [Hin _]. by apply (mi_event_ok _ _ _ HI). }
  rewrite E. eexists. split; [done|]. split; [by destruct Hf|]. apply converting_flush in Hconv as (us & m' & Mv' & Ev' & Hb & Hw & Hs' & _ & _ & Hmv).
  symmetry in Hb. apply fmap_nil_inv in Hb. subst us. exists m'. split; [done| |rewrite (Hmv _); apply Hm..].
  eapply (moved_inv _ m m' sp Mv Ev); [done|exact Hmv| |].
  - intros n. rewrite HMv. unfold moves, becomes. split; [intros [?%not_elem_of_empty|(c & info & Hin & Hst & Hc & Hb)]; [done|]|].
    + apply Hent in Hin as [Hin Hc0]. split; [done|]. by exists c, info.
    + intros (Hst & c & info & Hin & Hc0 & Hc & Hb). right. exists c, info. split; [by apply Hent'|done].
  - intros c. rewrite HEv. split; [intros [?%not_elem_of_empty|([c' info] & -> & Hin)%list_elem_of_fmap]; [done|]|].
    + apply Hent in Hin as [Hin Hc]. split; [by eexists|done].
    + intros [[info Hin] Hc]. right. apply list_elem_of_fmap. exists (c, info). split; [done|]. by apply Hent'.
Qed.

Definition event_spec (c : Z) (info : CollElgInfo) (sp : pvt_spec) : pvt_spec :=
  mkspec (sp_data sp) (sp_elg sp) (sp_inelg sp) (sp_known sp) (<[c := info]> (sp_events sp)).

Lemma event_ok (s : Store) (sp : pvt_spec) (c : Z) (info : CollElgInfo) :
  pvt_inv s sp -> is_u64 c -> elg_ok info -> pvt_inv (ProcessCollsEligibilityEnabled c info s) (event_spec c info sp).
Proof.
  intros [Hf [m Hm]] Hc Hi. split; [by destruct Hf|]. exists (upd [(SElg c, Some (Marshal info))] m).
  assert (Hl : forall k, (forall c, k <> SElg c) -> upd [(SElg c, Some (Marshal info))] m !! k = m !! k) by (intros k Hk; cbn; unfold upd1; cbn; by rewrite lookup_insert_ne by (by intros <-; eapply Hk)).
  split; [|..]; try (rewrite Hl by done; apply Hm).
  - apply (store_map_batch [(SElg c, Some (Marshal info))]); [apply Hm|]. by rewrite Forall_cons, Forall_nil.
  - destruct (pm_inv _ _ _ Hm) as [I1 I2 I3 I4 I5 I6 I7 I8 I9 I10 I11 I12 I13 I14 I15].
    assert (HS : forall g n c, SG g n <> SElg c) by (by intros []).
    split; try (intros *; rewrite ?Hl by (done || apply HS); eauto; fail); try (unfold holds; intros *; rewrite ?Hl by (done || apply HS); eauto; fail).
    + intros c'. cbn. unfold upd1. cbn. destruct (decide (c = c')) as [<-|Hne]; [by rewrite !lookup_insert_eq|]. rewrite !lookup_insert_ne by congruence. apply I11.
    + intros c' i' Hc'. cbn [event_spec sp_events] in Hc'. apply lookup_insert_Some in Hc' as [[<- <-]|[_ E]]; [done|by eapply I12].
    + intros n t Hin He. destruct (I14 n t Hin He) as (b & E & Ht). exists b. by rewrite Hl by apply HS.
Qed.

(** ** Opening the store *)

Lemma decodeLast_encode (n : Z) : is_u64 n -> decodeLastCommittedBlockVal (encodeLastCommittedBlockVal n) = n.
Proof.
  intros Hn. unfold decodeLastCommittedBlockVal, encodeLastCommittedBlockVal. pose proof (DecodeVarint_encode n [] Hn) as E. rewrite app_nil_r in E. by rewrite E.
Qed.

(** What the database says of the last block. *)
Lemma getLast_ok (s : Store) (sp : pvt_spec) : pvt_inv s sp -> getLastCommittedBlockNum (ps_db s) = (ps_isEmpty s, ps_lastCommittedBlock s).
Proof.
  intros [Hf [m Hm]]. pose proof (pf_last _ Hf) as Hl. unfold getLastCommittedBlockNum. pose proof (sm_lookup _ _ (pm_map _ _ _ Hm) SLast I) as E. cbn [enc] in E.
  rewrite E, (pm_last _ _ _ Hm). destruct (ps_isEmpty s) eqn:Ee; [by rewrite (pf_empty _ Hf Ee)|]. rewrite decodeLast_encode; [done|]. unfold is_u64, MaxUint64 in *. lia.
Qed.

Lemma OpenStore_ok (s : Store) (sp : pvt_spec) (maxBatchSize purgeInterval reconcilerInterval now : Z) :
  pvt_inv s sp -> 0 < purgeInterval ->
  exists s', OpenStore maxBatchSize purgeInterval reconcilerInterval now (ps_db s) = Ret s' /\ pvt_inv s' sp /\
    ps_db s' = ps_db s /\ ps_isEmpty s' = ps_isEmpty s /\ ps_lastCommittedBlock s' = ps_lastCommittedBlock s /\ ps_purger s' = [].
Proof.
  intros HI Hp. pose proof HI as [Hf [m Hm]]. pose proof (pm_map _ _ _ Hm) as Hs.
  pose proof (sm_lookup _ _ Hs SPending I) as E1. pose proof (sm_lookup _ _ Hs SOld I) as E2. pose proof (sm_lookup _ _ Hs SSnap I) as E3. cbn [enc] in E1, E2, E3.
  rewrite (pm_pending _ _ _ Hm) in E1. rewrite (pm_old _ _ _ Hm) in E2. rewrite (pm_snap _ _ _ Hm) in E3.
  unfold OpenStore, initState. cbn [ps_db]. rewrite (getLast_ok _ _ HI). unfold fetchBootSnapshotInfo, hasPendingCommit, getLastUpdatedOldBlocksList. cbn [ps_db]. rewrite E3. cbn [ps_db]. rewrite E1. cbn [is_Some_b ps_db]. rewrite E2.
  eexists. split; [done|]. split; [|done]. split.
  - split; cbn; try done; [apply Hf|apply Hf|]. by intros b ?%not_elem_of_nil.
  - exists m. by split; try apply Hm.
Qed.

(** A new store. *)
Definition new_store (maxBatchSize purgeInterval reconcilerInterval now : Z) : Store :=
  mkStore ∅ maxBatchSize purgeInterval true 0 false 0 false reconcilerInterval (now + reconcilerInterval) [].

Lemma OpenStore_empty (maxBatchSize purgeInterval reconcilerInterval now : Z) :
  0 < purgeInterval -> OpenStore maxBatchSize purgeInterval reconcilerInterval now ∅ = Ret (new_store maxBatchSize purgeInterval reconcilerInterval now) /\
    pvt_inv (new_store maxBatchSize purgeInterval reconcilerInterval now) empty_spec.
Proof.
  intros Hp. split.
  - unfold OpenStore, initState. cbn [ps_db]. unfold getLastCommittedBlockNum, fetchBootSnapshotInfo, hasPendingCommit, getLastUpdatedOldBlocksList. cbn [ps_db]. by rewrite !lookup_empty.
  - split; [split; cbn; try done; by intros b ?%not_elem_of_nil|]. exists ∅. split; [apply store_map_empty|apply map_inv_empty|by rewrite lookup_empty..].
Qed.

End Elg.
