(* ===== verification/PvtStoreTheorems.v ===== *)
(** * The private data store

    A store that has been opened on an empty database and has gone through any sequence
    of commits, late write sets, purges, eligibility changes and crashes, a crash in
    the middle of a purge included, holds what has been committed to it: [pvt_reads_exact],
    [missing_data_reported].  Its operations return ([pvt_operations_return]), a purge
    is complete and cannot be seen ([purge_complete_invisible]), and late write sets
    are accepted ([late_data_reconciled]).  What remains is what the conversion of
    eligible collections does when a purge comes between ([conversion_outlives_purge]). *)

From S2P Require Import Prelude Wire Varint OrderedCode GoOS LevelDB Proto StateProto BatchPreparer PurgeMgr PurgeMgrOk PvtStore PvtStoreOk PvtStoreInv PvtStoreCommit PvtStoreRead PvtStoreLate PvtStoreElg.

Section Run.
Context {PP : PvtStoreProtos} {PO : PvtStoreProtosOk} {BP : BTLPolicy} {BO : BTLPolicyOk}.

(** ** Runs *)

(** The configuration and the time at which a store is opened. *)
Record pvt_config := mkpvt_config {
  cf_maxBatchSize : Z;
  cf_purgeInterval : Z;
  cf_reconcilerInterval : Z;
  cf_now : Z }.

Definition open_with (c : pvt_config) : kvmap -> outcome Store := OpenStore (cf_maxBatchSize c) (cf_purgeInterval c) (cf_reconcilerInterval c) (cf_now c).

Definition late_sets (blocks : gmap Z (list TxPvtData)) : Prop := forall b d, blocks !! b = Some d -> Forall (fun t => is_Some (WriteSet t)) d.

Inductive pvt_step : Store * pvt_spec -> Store * pvt_spec -> Prop :=
  | step_commit s sp data missing s' :
      LastCommittedBlockHeight s < MaxUint64 -> block_ok (LastCommittedBlockHeight s) data missing ->
      Store_Commit (LastCommittedBlockHeight s) data missing s = (Ret tt, s') ->
      pvt_step (s, sp) (s', commit_spec (LastCommittedBlockHeight s) data missing sp)
  | step_late s sp blocks unreconciled s' :
      late_sets blocks -> late_ok (late_list blocks) (prioritized_list unreconciled) sp ->
      Store_CommitPvtDataOfOldBlocks blocks unreconciled s = (Ret tt, s') -> pvt_step (s, sp) (s', late_spec (late_list blocks) sp)
  | step_purge s sp l1 b l2 s' :
      ps_purger s = l1 ++ b :: l2 -> run_purger b (set_purger (l1 ++ l2) s) = (Ret tt, s') -> pvt_step (s, sp) (s', sp)
  | step_event s sp c info :
      is_u64 c -> elg_ok info -> pvt_step (s, sp) (ProcessCollsEligibilityEnabled c info s, event_spec c info sp)
  | step_convert s sp s' :
      processCollElgEvents id s = Ret s' -> pvt_step (s, sp) (s', elg_spec sp)
  | step_query s sp now1 now2 maxBlock r s' :
      GetMissingPvtDataInfoForMostRecentBlocks now1 now2 maxBlock s = (r, s') -> pvt_step (s, sp) (s', sp)
  | step_restart s sp c s' :
      0 < cf_purgeInterval c -> open_with c (ps_db s) = Ret s' -> pvt_step (s, sp) (s', sp)
  | step_crash_in_purge s sp b i db c s' :
      b ∈ ps_purger s -> purge_prefix i b (ps_db s) = Ret db -> 0 < cf_purgeInterval c -> open_with c db = Ret s' -> pvt_step (s, sp) (s', sp).

Definition pvt_reachable (s : Store) (sp : pvt_spec) : Prop :=
  exists c s0, 0 < cf_purgeInterval c /\ open_with c ∅ = Ret s0 /\ rtc pvt_step (s0, empty_spec) (s, sp).

(** Fields that the invariant does not depend on. *)
Lemma inv_set_purger (s : Store) (sp : pvt_spec) (l : list Z) : pvt_inv s sp -> (forall b, b ∈ l -> b ∈ ps_purger s) -> pvt_inv (set_purger l s) sp.
Proof. intros [[F1 F2 F3 F4 F5 F6] [m [M1 M2 M3 M4 M5 M6]]] Hl. split; [|by exists m]. split; try done. intros b Hb. by apply F6, Hl. Qed.

Lemma inv_query (s s' : Store) (sp : pvt_spec) (now1 now2 maxBlock : Z) (r : outcome MissingPvtDataInfo) :
  pvt_inv s sp -> GetMissingPvtDataInfoForMostRecentBlocks now1 now2 maxBlock s = (r, s') -> pvt_inv s' sp.
Proof.
  intros HI. unfold GetMissingPvtDataInfoForMostRecentBlocks. destruct (maxBlock <? 1); [by intros [= _ <-]|]. destruct (_ <? now1); intros [= _ <-]; [|done].
  by destruct HI as [[F1 F2 F3 F4 F5 F6] [m [M1 M2 M3 M4 M5 M6]]]; split; [|exists m].
Qed.

Lemma step_inv (s s' : Store) (sp sp' : pvt_spec) : pvt_step (s, sp) (s', sp') -> pvt_inv s sp -> pvt_inv s' sp'.
Proof.
  intros Hst HI. inversion Hst; subst; clear Hst.
  - destruct (Store_Commit_ok s sp data missing HI) as (s1 & E & HI1 & _); [done|done|]. congruence.
  - destruct (late_commit_ok s sp blocks unreconciled HI) as (db & E & HI1); [done|done|]. congruence.
  - match goal with H : ps_purger s = _ |- _ => rename H into Hq end. assert (HI1 : pvt_inv (set_purger (l1 ++ l2) s) sp').
    { apply inv_set_purger; [done|]. intros x Hx. rewrite Hq. apply elem_of_app in Hx. apply elem_of_app. rewrite elem_of_cons. tauto. }
    destruct (run_purger_ok _ sp' b HI1) as (db & E & HI2 & _); [|congruence].
    apply (pf_purger _ (proj1 HI)). rewrite Hq. apply elem_of_app. right. by left.
  - by apply event_ok.
  - destruct (processCollElgEvents_ok s sp HI) as (db & E & HI1). congruence.
  - by eapply inv_query.
  - destruct (OpenStore_ok s sp' (cf_maxBatchSize c) (cf_purgeInterval c) (cf_reconcilerInterval c) (cf_now c) HI) as (s1 & E & HI1 & _); [done|]. unfold open_with in *. congruence.
  - match goal with H : b ∈ ps_purger s |- _ => rename H into Hq end. destruct (purge_prefix_ok i s sp' b HI (pf_purger _ (proj1 HI) b Hq)) as (db1 & E1 & HI1). assert (db1 = db) as -> by congruence.
    destruct (OpenStore_ok _ sp' (cf_maxBatchSize c) (cf_purgeInterval c) (cf_reconcilerInterval c) (cf_now c) HI1) as (s1 & E & HI2 & _); [done|]. unfold open_with in *. cbn [ps_db with_db] in E. congruence.
Qed.

Lemma reachable_inv (s : Store) (sp : pvt_spec) : pvt_reachable s sp -> pvt_inv s sp.
Proof.
  intros (c & s0 & Hc & E0 & Hr). destruct (OpenStore_empty (cf_maxBatchSize c) (cf_purgeInterval c) (cf_reconcilerInterval c) (cf_now c) Hc) as [E HI].
  unfold open_with in E0. rewrite E in E0. injection E0 as E0.
  assert (H : forall x y, rtc pvt_step x y -> pvt_inv (fst x) (snd x) -> pvt_inv (fst y) (snd y)).
  { induction 1 as [|[s1 sp1] [s2 sp2] [s3 sp3] Hst _ IH]; [done|]. intros H1. apply IH. by eapply step_inv. }
  apply (H _ _ Hr). by rewrite <- E0.
Qed.

Lemma reachable_step (s s' : Store) (sp sp' : pvt_spec) : pvt_reachable s sp -> pvt_step (s, sp) (s', sp') -> pvt_reachable s' sp'.
Proof. intros (c & s0 & Hc & E0 & Hr) Hst. exists c, s0. split; [done|]. split; [done|]. by eapply rtc_r. Qed.

(** ** What is proved *)

(** C8: Private data are read as they have been committed: in every reachable store,
    reading a block gives the write sets that have been committed for it, with the
    block or later, that pass the filter and have not expired, each once, the
    transactions in order; a block that has not been committed is refused. *)
Theorem pvt_reads_exact (s : Store) (sp : pvt_spec) (blk : Z) (filter : option PvtNsCollFilter) :
  pvt_reachable s sp -> 0 <= blk ->
  if blk <? LastCommittedBlockHeight s
  then exists r, GetPvtDataByBlockNum s blk filter = Ret r /\ StronglySorted Z.lt (SeqInBlock <$> r) /\
         entries_of r ≡ₚ entry_of <$> block_entries (ps_lastCommittedBlock s) blk filter (sp_data sp)
  else exists e, GetPvtDataByBlockNum s blk filter = Err e.
Proof.
  intros Hr Hb. apply reachable_inv in Hr as HI. destruct (Z.ltb_spec blk (LastCommittedBlockHeight s)); [by apply GetPvtDataByBlockNum_ok|].
  destruct (height_cases s (proj1 HI)) as [Hh _]. unfold GetPvtDataByBlockNum. destruct (ps_isEmpty s); [by eexists|]. rewrite (proj2 (Z.ltb_lt _ _)) by lia. by eexists.
Qed.

(** C9: A purge routine that gets the lock returns, no reader can tell that it has run,
    and nothing of a collection that has expired by its block is left in the
    database: no write set and no entry of missing data. *)
Theorem purge_complete_invisible (s : Store) (sp : pvt_spec) (b : Z) :
  pvt_reachable s sp -> b ∈ ps_purger s ->
  exists db, run_purger b s = (Ret tt, with_db db s) /\
    (forall blk filter, 0 <= blk -> GetPvtDataByBlockNum (with_db db s) blk filter = GetPvtDataByBlockNum s blk filter) /\
    (forall k n v e, skey_wf k -> is_about n k -> db !! enc k = Some v -> expiring n = Ret e -> b < e).
Proof.
  intros Hr Hb. apply reachable_inv in Hr as HI. destruct (run_purger_ok s sp b HI (pf_purger _ (proj1 HI) b Hb)) as (db & E & HI' & Hc). exists db. split; [done|]. split; [|done].
  intros blk filter Hblk. by apply (reads_determined s (with_db db s) sp).
Qed.

(** C10: Missing data are reported: of every block but block 0 the two groups together
    list what is missing of the collections the peer is eligible for and what has not
    expired, and nothing else, the most recent blocks first; what is left out of a full
    list is older than all of it. Nothing of block 0 is ever listed: the scan ends
    before its keys. (For the same reason missing data of block 0 do not become
    eligible.) *)
Theorem missing_data_reported (s : Store) (sp : pvt_spec) (maxBlock now1 now2 : Z) :
  pvt_reachable s sp -> 1 <= maxBlock ->
  exists infoP infoD, getMissingData s elgPrioritizedMissingDataGroup maxBlock = Ret infoP /\ getMissingData s elgDeprioritizedMissingDataGroup maxBlock = Ret infoD /\
    fst (GetMissingPvtDataInfoForMostRecentBlocks now1 now2 maxBlock s) = Ret (if ps_accessDeprioMissingDataAfter s <? now1 then infoD else infoP) /\
    (forall info, info = infoP \/ info = infoD -> Z.of_nat (size (dom info)) <= maxBlock /\
      forall n t, listed info n t -> (n, t) ∈ sp_elg sp /\ expired_at (ps_lastCommittedBlock s) n = false /\ 0 < nc_blkNum n) /\
    (forall n t, (n, t) ∈ sp_elg sp -> expired_at (ps_lastCommittedBlock s) n = false -> 0 < nc_blkNum n ->
      exists info, (info = infoP \/ info = infoD) /\ (listed info n t \/ Z.of_nat (size (dom info)) = maxBlock /\ forall y, y ∈ dom info -> nc_blkNum n < y)).
Proof.
  intros Hr Hmax. apply reachable_inv in Hr as [Hf [m Hm]]. pose proof (pm_inv _ _ _ Hm) as HI. destruct (height_cases s Hf) as [Hh _].
  destruct (getMissingData_ok s sp m true maxBlock Hf Hm Hmax) as (infoP & EP & HP1 & HP2 & HP3).
  destruct (getMissingData_ok s sp m false maxBlock Hf Hm Hmax) as (infoD & ED & HD1 & HD2 & HD3).
  exists infoP, infoD. split; [done|]. split; [done|]. split; [|split].
  - unfold GetMissingPvtDataInfoForMostRecentBlocks. rewrite (proj2 (Z.ltb_ge _ _)) by lia. by destruct (_ <? now1).
  - intros info [->| ->]; (split; [done|]); intros n t; [intros (Hh1 & He & Hpos)%HP2|intros (Hh1 & He & Hpos)%HD2]; (split; [|done]); apply (holds_elg _ m sp HI); [by left|by right].
  - intros n t Hin He Hb. pose proof (mi_bound _ _ _ HI GPrio n t Hin) as [Hlt _].
    assert (El : LastCommittedBlockHeight s - 1 = ps_lastCommittedBlock s) by (destruct (ps_isEmpty s); lia).
    destruct (mi_elg _ _ _ HI n t Hin ltac:(by rewrite El)) as [Hx|Hx]; [exists infoP|exists infoD]; (split; [tauto|]); [by apply HP3|by apply HD3].
Qed.

(** C11: Late write sets are accepted: of a collection that has not expired they can be
    read once they are committed, and are reported as missing no more. *)
Theorem late_data_reconciled (s : Store) (sp : pvt_spec) (blocks : gmap Z (list TxPvtData)) (unreconciled : MissingPvtDataInfo) (k : dataKey) (w : CollectionPvtReadWriteSet) :
  let n := dt_nsCollBlk k in
  pvt_reachable s sp -> late_sets blocks -> late_ok (late_list blocks) (prioritized_list unreconciled) sp ->
  data_map (late_list blocks) !! k = Some w -> nc_blkNum n < LastCommittedBlockHeight s -> expired_at (ps_lastCommittedBlock s) n = false ->
  exists s', Store_CommitPvtDataOfOldBlocks blocks unreconciled s = (Ret tt, s') /\
    (exists r, GetPvtDataByBlockNum s' (nc_blkNum n) None = Ret r /\ (dt_txNum k, nc_ns n, w) ∈ entries_of r) /\
    forall g maxBlock info, 1 <= maxBlock -> getMissingData s' [group_byte g] maxBlock = Ret info -> ~ listed info n (dt_txNum k).
Proof.
  intros n Hr Hw Hok Hk Hblk Hexp. apply reachable_inv in Hr as HI. destruct (late_commit_ok s sp blocks unreconciled HI Hw Hok) as (db & E & HI'). exists (with_db db s). split; [done|].
  assert (Hin : k ∈ (late_list blocks).*1) by (apply data_map_elem in Hk; apply list_elem_of_fmap; by exists (k, w)).
  destruct (lo_data _ _ _ Hok k Hin) as ([(_ & _ & Hu) _] & _). fold n in Hu. split.
  - destruct (GetPvtDataByBlockNum_ok _ _ (nc_blkNum n) None HI') as (r & Er & _ & Hp); [change (LastCommittedBlockHeight (with_db db s)) with (LastCommittedBlockHeight s); unfold is_u64 in Hu; lia|].
    exists r. split; [done|]. rewrite Hp. apply list_elem_of_fmap. exists (k, w). split; [done|]. apply block_entries_elem. split; [by apply lookup_union_Some_l|]. split; [done|].
    unfold shown. cbn [passesFilter]. rewrite andb_true_r. by apply negb_true_iff.
  - intros g maxBlock info Hmax Ei Hl. destruct HI' as [Hf' [m' Hm']]. destruct (getMissingData_ok _ _ m' g maxBlock Hf' Hm' Hmax) as (info' & Ei' & _ & Hl' & _).
    assert (info' = info) as -> by congruence. apply Hl' in Hl as [Hh _]. assert (He : (n, dt_txNum k) ∈ sp_elg (late_spec (late_list blocks) sp)).
    { apply (holds_elg _ m' _ (pm_inv _ _ _ Hm')). destruct g; tauto. }
    cbn in He. apply elem_of_difference in He as [_ He]. apply He. apply elem_of_list_to_set, list_elem_of_fmap. by exists k.
Qed.

(** C12: The operations of a reachable store return: the next block is committed and no
    other block is, late write sets are committed, waiting purges run, eligible
    collections are converted, and the database can be opened again, with the same
    data. *)
Theorem pvt_operations_return (s : Store) (sp : pvt_spec) :
  pvt_reachable s sp ->
  (forall data missing, LastCommittedBlockHeight s < MaxUint64 -> block_ok (LastCommittedBlockHeight s) data missing ->
    exists s', Store_Commit (LastCommittedBlockHeight s) data missing s = (Ret tt, s') /\ LastCommittedBlockHeight s' = LastCommittedBlockHeight s + 1) /\
  (forall n data missing, n <> LastCommittedBlockHeight s -> exists e, Store_Commit n data missing s = (Err e, s)) /\
  (forall blocks unreconciled, late_sets blocks -> late_ok (late_list blocks) (prioritized_list unreconciled) sp ->
    exists s', Store_CommitPvtDataOfOldBlocks blocks unreconciled s = (Ret tt, s')) /\
  (forall b, b ∈ ps_purger s -> exists s', run_purger b s = (Ret tt, s')) /\
  (exists s', processCollElgEvents id s = Ret s') /\
  (forall c, 0 < cf_purgeInterval c -> exists s', open_with c (ps_db s) = Ret s' /\ forall blk filter, 0 <= blk -> GetPvtDataByBlockNum s' blk filter = GetPvtDataByBlockNum s blk filter).
Proof.
  intros Hr. apply reachable_inv in Hr as HI. split; [|split; [|split; [|split; [|split]]]].
  - intros data missing Hlt HB. destruct (Store_Commit_ok s sp data missing HI Hlt HB) as (s' & E & _ & _ & _ & Hh). by exists s'.
  - intros n data missing Hn. eexists. unfold Store_Commit, mbind, M_bind, get_state. change (nextBlockNum s) with (LastCommittedBlockHeight s).
    rewrite (proj2 (Z.eqb_neq _ _)) by congruence. done.
  - intros blocks unreconciled Hw Hok. destruct (late_commit_ok s sp blocks unreconciled HI Hw Hok) as (db & E & _). by eexists.
  - intros b Hb. destruct (run_purger_ok s sp b HI (pf_purger _ (proj1 HI) b Hb)) as (db & E & _). by eexists.
  - destruct (processCollElgEvents_ok s sp HI) as (db & E & _). by eexists.
  - intros c Hc. destruct (OpenStore_ok s sp (cf_maxBatchSize c) (cf_purgeInterval c) (cf_reconcilerInterval c) (cf_now c) HI Hc) as (s' & E & HI' & _ & Ee & El & _).
    exists s'. split; [done|]. intros blk filter Hb. by apply (reads_determined s s' sp).
Qed.

End Run.

(** ** A run *)

#[global] Instance nc_wf_dec (n : nsCollBlk) : Decision (nc_wf n).
Proof. unfold nc_wf, is_u64. apply _. Defined.

#[global] Instance dt_wf_dec (k : dataKey) : Decision (dt_wf k).
Proof. unfold dt_wf, is_u64. apply _. Defined.

(** The messages in the wire format. *)
#[global] Instance NamespaceExpiryData_wire : Wire NamespaceExpiryData.
Proof. refine (wire_iso (fun m => (PresentData m, MissingData m, BootKVHashes m)) (fun '(a, b, c) => mkNamespaceExpiryData a b c) _). by intros []. Defined.

#[global] Instance BootKVHash_wire : Wire BootKVHash.
Proof. refine (wire_iso (fun m => (BootKVHash_KeyHash m, BootKVHash_ValueHash m)) (fun '(a, b) => mkBootKVHash a b) _). by intros []. Defined.

#[global] Instance BitSet_wire : Wire BitSet.
Proof. refine (wire_iso (elements (C := BitSet)) (list_to_set (C := BitSet)) _). apply list_to_set_elements_L. Defined.

#[global] Instance wire_pvt_protos : PvtStoreProtos := {|
  PSP_Coll := wire_codec CollectionPvtReadWriteSet None;
  PSP_Tx := wire_codec TxPvtReadWriteSet None;
  PSP_Expiry := wire_codec ExpiryDataMsg None;
  PSP_Boot := wire_codec BootKVHashesMsg None;
  PSP_Elg := wire_codec CollElgInfo None;
  PSP_Bits := wire_codec BitSet None |}.

#[global] Instance wire_pvt_protos_ok : @PvtStoreProtosOk wire_pvt_protos.
Proof. constructor; apply wire_codec_ok. Qed.

(** Collection [c] lives for two blocks, [e] for one, and the others for ever. *)
Definition ex_policy : BTLPolicy := fun _ coll => Ret (if bool_decide (coll = str "c") then 2 else if bool_decide (coll = str "e") then 1 else MaxUint64).

#[local] Existing Instance ex_policy.

Lemma ex_policy_ok : BTLPolicyOk.
Proof. intros ns coll btl. unfold GetBTL, ex_policy. intros [= <-]. repeat case_bool_decide; done. Qed.

#[local] Existing Instance ex_policy_ok.

Lemma ex_has_policy (n : nsCollBlk) : has_policy n.
Proof. eexists. reflexivity. Qed.

Definition ex_set (coll value : string) : CollectionPvtReadWriteSet := mkCollectionPvtReadWriteSet (str coll) (str value).
Definition ex_tx (tx : Z) (colls : list CollectionPvtReadWriteSet) : TxPvtData := mkTxPvtData tx (Some (mkTxPvtReadWriteSet 0 [mkNsPvtReadWriteSet (str "n") colls])).

Definition ex_cfg : pvt_config := mkpvt_config 1 5 10 0.

(** Of block 1, transaction 2 is missing, and transaction 3 for a collection the peer is
    not eligible for; so is transaction 0 of block 2. *)
Definition ex_data1 : list TxPvtData := [ex_tx 0 [ex_set "c" "u"; ex_set "d" "v"]; ex_tx 1 [ex_set "d" "w"]].
Definition ex_missing1 : TxMissingPvtData := {[2 := [mkMissingPvtData (str "n") (str "c") true]; 3 := [mkMissingPvtData (str "n") (str "e") false]]}.
Definition ex_missing2 : TxMissingPvtData := {[0 := [mkMissingPvtData (str "n") (str "e") false]]}.

Definition ex_block (n : Z) : list TxPvtData * TxMissingPvtData := if n =? 1 then (ex_data1, ex_missing1) else if n =? 2 then ([], ex_missing2) else ([], ∅).

(** The store after a number of blocks, and what it holds. *)
Fixpoint ex_run (n : nat) : Store * pvt_spec :=
  match n with
  | O => (new_store 1 5 10 0, empty_spec)
  | S n' =>
      let '(s, sp) := ex_run n' in
      let '(data, missing) := ex_block (Z.of_nat n') in
      (snd (Store_Commit (Z.of_nat n') data missing s), commit_spec (Z.of_nat n') data missing sp)
  end.

(** A block as the decidable part of [block_ok]. *)
Lemma pvt_ex_block_ok (c : Z) (data : list TxPvtData) (missing : TxMissingPvtData) :
  bool_decide (Forall (fun t => is_Some (WriteSet t)) data /\ Forall dt_wf (data_of c data).*1 /\ Forall (fun p => nc_wf (mkey c p)) (missing_list missing).*1 /\
    Forall (fun p => Forall (fun p' => mp_Namespace p = mp_Namespace p' -> mp_Collection p = mp_Collection p' -> mp_IsEligible p = mp_IsEligible p') (missing_list missing).*1) (missing_list missing).*1) = true ->
  block_ok c data missing.
Proof.
  intros (H1 & H2 & H3 & H4)%bool_decide_eq_true_1. rewrite Forall_forall in H2. rewrite Forall_forall in H3. rewrite Forall_forall in H4. split; [done|..].
  - intros k Hk. split; [by apply H2|apply ex_has_policy].
  - intros p Hp. split; [by apply H3|apply ex_has_policy].
  - intros p p' Hp Hp' [= E1 E2]. specialize (H4 p Hp). rewrite Forall_forall in H4. by apply H4.
Qed.

Lemma ex_no_data (n : Z) : block_ok n [] ∅.
Proof. split; [by apply Forall_nil|by intros ? ?%not_elem_of_nil|by intros ? ?%not_elem_of_nil|by intros ? ? ?%not_elem_of_nil]. Qed.

Lemma ex_blocks_ok (n : Z) : block_ok n (fst (ex_block n)) (snd (ex_block n)).
Proof.
  unfold ex_block. destruct (Z.eqb_spec n 1) as [->|]; [|destruct (Z.eqb_spec n 2) as [->|]]; [apply pvt_ex_block_ok; vm_compute; reflexivity..|].
  apply ex_no_data.
Qed.

Lemma ex_run_reachable (n : nat) : pvt_reachable (fst (ex_run n)) (snd (ex_run n)) /\ LastCommittedBlockHeight (fst (ex_run n)) = Z.of_nat n \/ MaxUint64 <= Z.of_nat n.
Proof.
  induction n as [|n [[Hr Hh]|Hn]]; [left; split; [|done]|destruct (Z.lt_ge_cases (Z.of_nat n) MaxUint64); [|right; lia]; left|right; lia].
  - exists ex_cfg, (new_store 1 5 10 0). split; [done|]. split; [by apply OpenStore_empty|]. reflexivity.
  - cbn [ex_run]. destruct (ex_run n) as [s sp]. cbn [fst snd] in Hr, Hh. pose proof (ex_blocks_ok (Z.of_nat n)) as HB. destruct (ex_block (Z.of_nat n)) as [data missing]. cbn [fst snd] in HB |- *.
    rewrite <- Hh in HB. destruct (Store_Commit_ok s sp data missing (reachable_inv _ _ Hr) ltac:(lia) HB) as (s' & E & _ & _ & _ & Hh'). rewrite <- Hh, E. cbn [snd]. split; [|lia].
    apply (reachable_step s s' sp _ Hr). apply step_commit; [lia|done|done].
Qed.

Definition ex_s2 : Store := fst (ex_run 2).
Definition ex_sp2 : pvt_spec := snd (ex_run 2).
Definition ex_s6 : Store := fst (ex_run 6).
Definition ex_sp6 : pvt_spec := snd (ex_run 6).

Lemma ex_reachable2 : pvt_reachable ex_s2 ex_sp2.
Proof. destruct (ex_run_reachable 2) as [[H _]|H]; [exact H|done]. Qed.

Lemma ex_reachable6 : pvt_reachable ex_s6 ex_sp6.
Proof. destruct (ex_run_reachable 6) as [[H _]|H]; [exact H|done]. Qed.

Definition ex_coll (coll : string) (blk : Z) : nsCollBlk := mknsCollBlk (str "n") (str coll) blk.

Lemma pvt_reads_exact_witness :
  0 <= 1 /\ (1 <? LastCommittedBlockHeight ex_s2) = true /\
  exists r, GetPvtDataByBlockNum ex_s2 1 None = Ret r /\ length (entries_of r) = 3%nat /\ (0, str "n", ex_set "c" "u") ∈ entries_of r.
Proof.
  split; [done|]. split; [vm_compute; reflexivity|]. pose proof (pvt_reads_exact ex_s2 ex_sp2 1 None ex_reachable2 ltac:(done)) as H.
  replace (1 <? LastCommittedBlockHeight ex_s2) with true in H by (vm_compute; reflexivity). destruct H as (r & E & _ & Hp). exists r. split; [exact E|]. split.
  - rewrite (Permutation_length Hp). vm_compute. reflexivity.
  - rewrite Hp. apply (bool_decide_unpack _). vm_compute. exact I.
Defined.

(** The write sets of collection [c] of block 1 have expired at block 5. *)
Lemma purge_complete_invisible_witness :
  5 ∈ ps_purger ex_s6 /\ is_Some (ps_db ex_s6 !! encodeDataKey (mkdataKey (ex_coll "c" 1) 0)) /\
  exists db, run_purger 5 ex_s6 = (Ret tt, with_db db ex_s6) /\ db !! encodeDataKey (mkdataKey (ex_coll "c" 1) 0) = None.
Proof.
  assert (Hb : 5 ∈ ps_purger ex_s6) by (apply (bool_decide_unpack _); vm_compute; exact I). split; [exact Hb|]. split; [vm_compute; by eexists|].
  destruct (purge_complete_invisible ex_s6 ex_sp6 5 ex_reachable6 Hb) as (db & E & _ & H). exists db. split; [exact E|].
  destruct (db !! _) as [v|] eqn:Ev; [exfalso|reflexivity].
  assert (Hw : skey_wf (SData (mkdataKey (ex_coll "c" 1) 0))) by (apply (bool_decide_unpack (dt_wf _)); vm_compute; exact I).
  pose proof (H (SData (mkdataKey (ex_coll "c" 1) 0)) (ex_coll "c" 1) v 4 Hw eq_refl Ev eq_refl). lia.
Defined.

Lemma missing_data_reported_witness :
  exists info, getMissingData ex_s2 elgPrioritizedMissingDataGroup 1 = Ret info /\ listed info (ex_coll "c" 1) 2 /\ (forall n t, listed info n t -> (n, t) ∈ sp_elg ex_sp2).
Proof.
  destruct (missing_data_reported ex_s2 ex_sp2 1 0 0 ex_reachable2 ltac:(done)) as (infoP & infoD & EP & _ & _ & H & _). exists infoP. split; [exact EP|]. split.
  - assert (Hx : match getMissingData ex_s2 elgPrioritizedMissingDataGroup 1 with Ret i => bool_decide ((str "n", str "c") ∈ default [] (default ∅ (i !! 1) !! 2)) | _ => false end = true) by (vm_compute; reflexivity).
    rewrite EP in Hx. apply bool_decide_eq_true_1 in Hx. exact Hx.
  - intros n t Hl. apply (proj2 (H infoP (or_introl eq_refl)) n t Hl).
Defined.

Definition ex_late : gmap Z (list TxPvtData) := {[1 := [ex_tx 2 [ex_set "c" "x"]]]}.

Lemma pvt_ex_late_ok : late_ok (late_list ex_late) (prioritized_list ∅) ex_sp2.
Proof.
  split; [|by intros n t ?%not_elem_of_nil]. intros k Hk. assert (Hk' : k = mkdataKey (ex_coll "c" 1) 2) by (unfold late_list, ex_late in Hk; rewrite map_to_list_singleton in Hk; by apply list_elem_of_singleton in Hk).
  subst k. split; [apply (bool_decide_unpack _); vm_compute; exact I|]. split; [apply ex_has_policy|]. apply (bool_decide_unpack _). vm_compute. exact I.
Qed.

Lemma late_data_reconciled_witness :
  exists s', Store_CommitPvtDataOfOldBlocks ex_late ∅ ex_s2 = (Ret tt, s') /\ exists r, GetPvtDataByBlockNum s' 1 None = Ret r /\ (2, str "n", ex_set "c" "x") ∈ entries_of r.
Proof.
  assert (Hw : late_sets ex_late) by (unfold late_sets, ex_late; intros b d [<- <-]%lookup_singleton_Some; apply Forall_singleton; by eexists).
  destruct (late_data_reconciled ex_s2 ex_sp2 ex_late ∅ (mkdataKey (ex_coll "c" 1) 2) (ex_set "c" "x") ex_reachable2 Hw pvt_ex_late_ok) as (s' & E & H & _); [vm_compute; reflexivity..|].
  exists s'. split; [exact E|exact H].
Defined.

Lemma pvt_operations_return_witness :
  exists s', Store_Commit 2 [] ∅ ex_s2 = (Ret tt, s') /\ LastCommittedBlockHeight s' = 3.
Proof.
  destruct (pvt_operations_return ex_s2 ex_sp2 ex_reachable2) as [H _]. assert (Hh : LastCommittedBlockHeight ex_s2 = 2) by (vm_compute; reflexivity). rewrite Hh in H.
  apply (H [] ∅); [reflexivity|apply ex_no_data].
Defined.

(** ** A purge during the conversion *)

(** What a waiting purge routine does while the lock is free. *)
Definition purging (b : Z) (db : kvmap) : kvmap := match purgeExpiredData 0 b db with Ret db' => db' | _ => db end.

Definition ex_s7 : Store := ProcessCollsEligibilityEnabled 6 {[str "n" := [str "e"]]} ex_s6.

Lemma ex_s7_reachable : pvt_reachable ex_s7 (event_spec 6 {[str "n" := [str "e"]]} ex_sp6).
Proof.
  apply (reachable_step ex_s6 _ ex_sp6); [exact ex_reachable6|]. apply step_event; [done|].
  intros ns colls coll [<- <-]%lookup_singleton_Some ->%list_elem_of_singleton. apply (bool_decide_unpack _). vm_compute. exact I.
Qed.

(** Without expiry entries no purge deletes anything. *)
Lemma no_entries_no_purge (db : kvmap) (b : Z) : retrieveExpiryEntries db 0 (MaxUint64 - 1) = Ret [] -> 0 <= b < MaxUint64 -> purgeExpiredData 0 b db = Ret db.
Proof.
  intros E Hb. unfold retrieveExpiryEntries in E. unfold purgeExpiredData, retrieveExpiryEntries. cbn [getExpiryKeysForRangeScan] in E |- *.
  destruct (range_scan db (expiryKeyPrefix ++ Height_ToBytes (NewHeight 0 0)) (Some (expiryKeyPrefix ++ Height_ToBytes (NewHeight (u64 (MaxUint64 - 1 + 1)) 0)))) as [|[k v] l] eqn:Es;
    [|cbn [decode_expiry_entries] in E; inv_bind; discriminate].
  destruct (range_scan db _ (Some (expiryKeyPrefix ++ Height_ToBytes (NewHeight (u64 (b + 1)) 0)))) as [|[k v] l] eqn:Er; [done|exfalso].
  assert (Hin : (k, v) ∈ range_scan db (expiryKeyPrefix ++ Height_ToBytes (NewHeight 0 0)) (Some (expiryKeyPrefix ++ Height_ToBytes (NewHeight (u64 (b + 1)) 0)))) by (rewrite Er; by left).
  apply range_scan_elem in Hin as (Hk & Hs & He). cbn [below] in He. apply (not_elem_of_nil (k, v)). rewrite <- Es. apply range_scan_elem. split; [done|]. split; [done|].
  cbn [below]. rewrite bytes_ltb_leb in He |- *. apply negb_true_iff, not_true_iff_false in He. apply negb_true_iff, not_true_iff_false. intros Hle. apply He.
  refine (bytes_le_trans _ _ _ _ Hle). unfold bytes_le. rewrite bytes_leb_app.
  pose proof (height_leb (u64 (b + 1)) (NewHeight (u64 (MaxUint64 - 1 + 1)) 0) [] ltac:(apply u64_is_u64)) as Hl. rewrite app_nil_r in Hl. rewrite Hl by (split; done).
  apply Z.leb_le. cbn [BlockNum NewHeight]. rewrite u64_id by (unfold is_u64, MaxUint64 in *; lia). change (u64 (MaxUint64 - 1 + 1)) with MaxUint64. lia.
Qed.

(** C39: The conversion can bring back what a purge has deleted. It releases the lock
    between two batches while it goes through a snapshot; there is a reachable store in
    which a purge that waits for the lock comes in between, and the rest of the snapshot
    is written back: missing data of a collection that has expired, which no later purge
    deletes, whatever its block. *)
Theorem conversion_outlives_purge :
  exists s sp b n s', pvt_reachable s sp /\ b ∈ ps_purger s /\ processCollElgEvents (purging b) s = Ret s' /\
    is_Some (ps_db s' !! encodeElgPrioMissingDataKey n) /\ expired_at (ps_lastCommittedBlock s') n = true /\
    forall b', 0 <= b' < MaxUint64 -> purgeExpiredData 0 b' (ps_db s') = Ret (ps_db s').
Proof.
  assert (H : match processCollElgEvents (purging 5) ex_s7 with
    | Ret s' => is_Some_b (ps_db s' !! encodeElgPrioMissingDataKey (ex_coll "e" 1)) && expired_at (ps_lastCommittedBlock s') (ex_coll "e" 1) &&
        match retrieveExpiryEntries (ps_db s') 0 (MaxUint64 - 1) with Ret [] => true | _ => false end
    | _ => false end = true) by (vm_compute; reflexivity).
  destruct (processCollElgEvents (purging 5) ex_s7) as [s'| |] eqn:E; [|discriminate H..]. exists ex_s7, (event_spec 6 {[str "n" := [str "e"]]} ex_sp6), 5, (ex_coll "e" 1), s'.
  apply andb_true_iff in H as [[H1 H2]%andb_true_iff H3]. split; [exact ex_s7_reachable|]. split; [apply (bool_decide_unpack _); vm_compute; exact I|]. split; [exact E|].
  split; [by apply is_Some_b_spec|]. split; [exact H2|]. intros b' Hb'. apply no_entries_no_purge; [|exact Hb'].
  destruct (retrieveExpiryEntries _ _ _) as [[|? ?]| |]; [reflexivity|discriminate H3..].
Qed.
